(* ===== verification/_CoqProject ===== *)
-Q . S2P
Prelude.v
Types.v
Errors.v
GoStd.v
Ids.v
LeveledMutex.v
RekeyQueue.v
CryptoCommon.v
Splitter.v
DataTypes.v
Ops.v
ConflictInfo.v
RpcErrors.v
Handles.v
HandlesSpec.v
KeyBundles.v
Metadata.v
NodeCache.v
NodeCacheSpec.v
FolderBlocks.v
FileIO.v
Examples.v
FileChunks.v
FolderBlocksSpec.v
NodeSearch.v
FileIOSpec.v
FileRefinement.v
SyncWrites.v
FileExamples.v
BServer.v
BServerSpec.v
BServerExamples.v
Lru.v
BlockCache.v
CRChains.v
CRChainsSpec.v
CRActions.v
CRActionsSpec.v
LevelDb.v
MDServer.v
MDServerSpec.v
MDServerOps.v
MDServerThms.v
MDClient.v
MDServerExamples.v
MDUtil.v
MDUtilSpec.v
BlockManager.v
BlockManagerSpec.v
KeyManager.v
Rekey.v
KeySpec.v
BlockOps.v
KeyExamples.v
MDOpsStd.v
MDOpsSpec.v
Serial.v
MDOpsExamples.v
DirOps.v
DirWrites.v
DirLaws.v
DirSpec.v
DirThms.v
DirEffects.v
DirExamples.v
FileSync.v
FileSyncSpec.v
FileSyncExamples.v
ResolverQueue.v
ResolverPaths.v
ResolverActions.v
ResolverOps.v
ResolverTree.v
ResolverMerge.v
ResolverSpec.v
ResolverExamples.v
