(* ===== verification/Prelude.v ===== *)
(** * A verification of the core of KBFS

    KBFS (the Keybase file system, [src/kbfs]) keeps top-level folders as
    trees of encrypted, content-addressed blocks below signed metadata.  The
    names of files below are those of [src/kbfs/libkbfs], unless they say
    otherwise.

    A client reads and writes files in memory, as dirty blocks
    ([folder_block_ops.go]), split by a block splitter
    ([bsplitter_simple.go]).  A sync or a change of a directory readies the
    changed blocks from there up to the root: they are padded and encrypted
    ([crypto_common.go], [block_ops.go]) with keys that the key manager
    recovers ([key_manager.go] and the other key files), put to the block
    server ([bserver_local*.go]) and cached ([bcache.go]); then new metadata
    ([root_metadata.go]) with the operations of the change ([ops.go]) is
    signed and put to the metadata server ([md_ops.go],
    [mdserver_local.go]) and becomes the head of the folder
    ([folder_branch_ops.go]).  Clients hold nodes, whose paths follow the
    changes ([node_cache.go]).  Blocks that are not referenced any more are
    archived and later deleted ([folder_block_manager.go]).  When the server
    refuses the metadata because another client was first, the client goes
    on in a branch of its own, and the conflict resolver merges it back
    ([conflict_resolver.go]): it groups the operations of each branch into
    chains ([cr_chains.go]), turns them into actions ([cr_actions.go]), and
    makes metadata that follow the merged head.  Locks are ordered by levels
    ([leveled_mutex.go]); rekeys are queued ([rekey_queue.go]).

    ** The files

    What all components share:
    - [Prelude]: machine integers with their wrap-around, bytes, lengths.
    - [Types]: the data of [data_types.go], [block_types.go],
      [dir_entry.go], with decidable equality and countability.
    - [Errors]: the error values; [res] (result, error or Go panic) and the
      state monad [go] with its notations, its weakest-precondition rules,
      the simulation relation [refines] between computations on two
      states, and the hint databases [go_inv] and [refine].
    - [GoStd]: what the code uses of Go's library, executable: hexadecimal
      and fixed-width integer encodings, SHA-256 and HMAC.
    - [Ids]: [hash.go], [block_id.go], [md_id.go], [tlf_id.go],
      [branch_id.go].  [DataTypes]: pointers, paths and blocks.  [Ops]:
      [ops.go].  [RpcErrors]: [bserver_errors.go], [mdserver_errors.go].
    - [Examples], [Serial]: codecs that compute.

    Locks and queues:
    - [LeveledMutex]: [leveled_mutex.go].  [RekeyQueue]: [rekey_queue.go],
      [repeated_wait_group.go].

    Files in memory:
    - [Splitter]: [bsplitter_simple.go].  [FolderBlocks], [FileIO]:
      [folder_block_ops.go]: finding, copying and dirtying blocks; [Read],
      [Write], [Truncate], [FinishSync].  [NodeSearch]: [SearchForNodes].
    - [FileChunks], [FolderBlocksSpec], [FileIOSpec], [FileRefinement],
      [FileExamples]: a file as an array of bytes, and the refinement.
      [SyncWrites]: the writes made while a file is synced.
    - [NodeCache], [NodeCacheSpec]: [node.go], [node_cache.go].

    Blocks on their way to the server and back:
    - [CryptoCommon]: [crypto_common.go].  [BlockOps]: [block_ops.go].
    - [BServer], [BServerSpec], [BServerExamples]: the local block server
      with its three storages.  [Lru], [BlockCache]: [bcache.go] and the LRU
      list of the vendored [golang-lru/simplelru].
    - [BlockManager], [BlockManagerSpec]: [folder_block_manager.go].

    Metadata and keys:
    - [ConflictInfo], [Handles], [HandlesSpec]: [conflict_info.go],
      [tlf_handle.go].  [KeyBundles]: [key_bundle.go].  [Metadata]:
      [root_metadata.go].
    - [LevelDb], [MDServer], [MDServerSpec], [MDServerOps],
      [MDServerThms], [MDServerExamples]: [mdserver_local.go].  [MDClient]:
      the metadata a client makes is what the server accepts.
    - [MDUtil], [MDUtilSpec]: [md_util.go], [mdcache.go].  [MDOpsStd],
      [MDOpsSpec], [MDOpsExamples]: [md_ops.go], signatures.
    - [KeyManager], [Rekey], [KeySpec], [KeyExamples]: [key_manager.go],
      [key_ops.go], [key_server_local.go], [keycache.go].

    Changes of a folder:
    - [DirOps], [DirWrites]: [folder_branch_ops.go]: syncing a path, the
      puts, the new head; creating, linking, removing, renaming, attributes.
      [DirLaws]: triples and the laws of the services.  [DirSpec],
      [DirThms], [DirEffects], [DirExamples]: what the operations do to the
      tree of the folder.
    - [FileSync], [FileSyncSpec], [FileSyncExamples]: [syncLocked],
      [StartSync], [CleanupSyncState].

    Conflict resolution:
    - [CRChains], [CRChainsSpec]: [cr_chains.go].  [CRActions],
      [CRActionsSpec]: [cr_actions.go], [conflict_renamer.go].
    - [ResolverQueue]: which conflicts are being resolved.
      [ResolverPaths], [ResolverActions], [ResolverOps], [ResolverTree]: the
      steps of a resolution; [ResolverMerge], [ResolverSpec],
      [ResolverExamples]: what they keep ([conflict_resolver.go]).

    ** How the code is translated

    A Go function that can fail returns [res]; one that changes a receiver
    is a [go] computation over the receiver's state, with the state at the
    time of an error kept, since the code does not roll back.  A panic is a
    result of its own, and an index out of range, a nil dereference or a
    failed type assertion gives it.  Fixed-width integers are [Z] with the
    wrap-around written where the code can reach it.  Objects passed around
    by pointer and modified in place are cells of a heap (blocks in
    [fbo_heap], chains in [ccs_chains], nodes and cores in [NodeCache],
    metadata in [mf_mds]), so that aliasing is that of the code.  An
    operation that holds its lock from beginning to end is one step; what
    interleaves are whole operations (the phases of a sync with writes, the
    goroutines of the queues), as sequences or as step relations.
    Goroutines that work in parallel on one task are an order in which their
    effects take place, which is an argument ([downgradeSched]).  Iteration
    over a Go map is over an arbitrary permutation of its entries, or, where
    the order cannot matter, in the order of the finite map.

    What is not under [src/kbfs], or is a remote service, is a parameter, a
    class with its laws: [Codec] and [EncodeTotal] (decoding inverts
    encoding), [SecretBox] and [Box] (opening inverts sealing),
    [NaclSigning], [KVStore] and [LevelDB] (the stores of the local
    servers), [KBPKI] (the user directory), [Config] (the current user, the
    writers, the clean blocks, limits, temporary ids), [KeyConfig],
    [MDConfig], [FbmEnv], [BranchConfig] with [BranchLaws] (the services of
    a folder's writes: the block server is content addressed, and only a put
    changes its blocks; the node cache may refuse a node), [SyncConfig] with [SyncLaws] (the permanent
    entries of the block cache), [ResolverConfig] with [ResolverLaws], and
    the deep copier of [CRActions].  Between components, [KeyManager] is what
    [BlockOps] needs of the key manager, which discharges it; [MDOps] is what
    the range fetches of [MDUtil] need of the metadata operations.  The
    examples instantiate all of these, and the witnesses run there.

    ** What the theorems show

    - Files in memory ([FileRefinement]): reads, writes and truncates act as
      on one array of bytes, through direct and indirect, clean and dirty
      blocks; sequences of them compose; the blocks of a running sync are
      never modified; an operation is queued for replay when the file itself
      is being synced.  Writes (not truncates) made during a sync survive
      its end, with the clean-up of the dirty blocks ([SyncWrites]).
    - The folder ([DirEffects], [FileSyncSpec]): creating, removing and
      renaming an entry change the tree there and nowhere else, or leave the
      head as it was (when the node cache refuses the node of a new entry,
      the entry is there and the error is returned); a sync makes exactly
      the contents that the file had in memory durable, if what is not dirty
      is on the server or among the blocks kept of an earlier attempt.
    - Servers: the file-backed block server answers as the one in memory
      ([BServerSpec]); the metadata server keeps linked histories that only
      grow, and refuses what does not extend them, as long as the database
      works and the keys of branches stay out of those of the merged
      revisions ([MDServerThms]).
    - Trust: whatever the metadata server answers, what a client accepts is
      verified ([MDOpsSpec]); what one client signs another one accepts; a
      block that was put is read back ([BlockOps]); a device that is given a
      key recovers it ([KeySpec]).
    - Reclamation deletes only what old revisions unreference, also when
      calls fail ([BlockManagerSpec]); the byte counts of the cache are
      exact ([BlockCache]).
    - Nodes: counts are exact, a node that is alive stays in the cache,
      paths follow the changes, the walk up ends, and a search finds what it
      can get to ([NodeCacheSpec], [NodeSearch]).
    - Conflicts: chains follow pointers, collapsing keeps the names
      ([CRChainsSpec]), both versions of an entry are kept
      ([CRActionsSpec]); directories created twice are merged without
      losing operations ([ResolverMerge]), merged changes survive removes
      and the resolved metadata is accepted and accounts for its blocks
      ([ResolverSpec]), the changed blocks are synced once
      ([ResolverTree]); the wait group of the resolver is exact and its
      resolutions do not wait for each other forever ([ResolverQueue],
      where a resolution is the time between two events).
    - Concurrency: flows that obey the lock levels do not deadlock
      ([LeveledMutex]); rekeys are done in order, the worker gets through
      the queue when no call is under way, and every result channel gets
      one result ([RekeyQueue]).

    Defects that modelling showed are theorems too.  Among them:
    [truncate_during_sync_lost] ([FileExamples]),
    [truncateLocked_unchecked_error] ([FileRefinement]),
    [depadBlock_prefix_overflow] ([CryptoCommon]),
    [DeletePermanent_underflow] ([BlockCache]), [invertOp_same_dir_rename]
    ([Ops]), [getMDRange_unexpected_revision] ([MDUtilSpec]), the races of
    [RekeyQueue], [compare_error_deletes] ([BlockManagerSpec]),
    [rename_to_itself_removes], [removeDirLocked_panics] ([DirEffects]),
    [rename_unembedded_panics], [create_without_name],
    [remove_nonempty_dir] ([DirExamples]), [near_branch_in_merged_range]
    ([MDServerThms]),
    [recoverable_retry_loses_blocks] ([FileSyncExamples]),
    [resolutions_overlap], [paused_resolution_dropped] ([ResolverQueue]) and
    [moved_and_removed_hangs] ([ResolverExamples]).

    ** Fuel and bounds

    Loops that are not structural run on fuel, and running out of it gives a
    panic or no result, which the theorems exclude.  [Read] and
    [writeDataLocked] compute their fuel from their arguments; the search
    through indirect blocks has [maxIndirection] = 8 levels, where the code
    only ever makes one.  The eviction loop of the cache has two more than
    the length of its list.  The walk from a node to the root has the number
    of cores ([PathFromNode_returns] shows that it is enough).  In the rest
    the fuel is an argument with a bound in the theorem: the number of
    fetched chunks for [getMergedMDUpdates], the depth of the tree for
    [SearchForNodes], more than the number of indirect
    pointers for [resplit] in a sync, the number of creates for the merging
    of directories; [resolveOnePath] has one fuel for its recursion, its
    loop and its search.  Temporary ids come from a supply; [N] in [file_ok]
    bounds how many are drawn and are distinct, and [write_cost] and
    [op_cost] say how many an operation draws at most.  Offsets and sizes
    stay below 2^62 in the refinement theorems, far above any
    [MaxFileBytes]; behaviour at the boundary of 64 bits is in
    [Write_refuses].

    ** What is not modelled

    The remote clients of the servers and of the Keybase service, which are
    RPC; dispatch to folders, configuration and favourites
    ([kbfs_ops.go], [config_local.go]); observers, reporting and status; the
    FUSE and command-line front ends; metrics: input and output, or glue.
    Of [folder_branch_ops.go], updates that come from the server, leaving a
    staged branch, notifications, and the retry loop around a sync; of
    [conflict_resolver.go], the composition of a whole run ([doResolve],
    [completeResolution]); of [folder_block_manager.go], the timers and the
    select of its background loops; of [folder_block_ops.go], the
    notification of pointer updates, and the waiting of writes when too much
    is dirty, which delays an operation without changing its effect.  The
    theorem about a sync is for the case that nothing is written in the
    meantime; what a write during a sync does is in [FileRefinement] and
    [SyncWrites].  The disk of the file-backed block server does not fail,
    and the children of a node of the resolver's tree of paths are gone
    through in the order in which they were added. *)

From Stdlib Require Import ZArith Lia.
From Stdlib Require Export Init.Byte.
From stdpp Require Export base gmap strings list fin_maps.

#[global] Set Default Goal Selector "!".

(** * Machine integers

    Go's fixed-width integers are modelled as [Z] with the wrap-around
    of each width written out where the code can reach it. *)

Definition to_u32 (x : Z) : Z := (x mod 2 ^ 32)%Z.
Definition to_u64 (x : Z) : Z := (x mod 2 ^ 64)%Z.
Definition to_i64 (x : Z) : Z :=
  let y := (x mod 2 ^ 64)%Z in
  if (y <? 2 ^ 63)%Z then y else (y - 2 ^ 64)%Z.

Lemma to_u32_small x : (0 <= x < 2 ^ 32)%Z → to_u32 x = x.
Proof. intros. by apply Z.mod_small. Qed.

Lemma to_u64_small x : (0 <= x < 2 ^ 64)%Z → to_u64 x = x.
Proof. intros. by apply Z.mod_small. Qed.

Lemma to_i64_small x : (- 2 ^ 63 <= x < 2 ^ 63)%Z → to_i64 x = x.
Proof.
  intros Hx. unfold to_i64. cbv zeta.
  destruct (Z.ltb_spec (x mod 2 ^ 64) (2 ^ 63)) as [Hlt|Hge].
  - destruct (decide (0 <= x)%Z); [by rewrite Z.mod_small by lia|].
    rewrite <- (Z.mod_add x 1), Z.mod_small in Hlt by lia. lia.
  - destruct (decide (0 <= x)%Z).
    + rewrite Z.mod_small in Hge by lia. lia.
    + rewrite <- (Z.mod_add x 1), Z.mod_small in * by lia. lia.
Qed.

Lemma to_u64_bound x : (0 <= to_u64 x < 2 ^ 64)%Z.
Proof. by apply Z.mod_pos_bound. Qed.

Lemma to_u32_bound x : (0 <= to_u32 x < 2 ^ 32)%Z.
Proof. by apply Z.mod_pos_bound. Qed.

(** The length of a slice or string, at Go's [int]. *)
Definition zlen {A} (l : list A) : Z := Z.of_nat (length l).

Lemma zlen_nonneg {A} (l : list A) : (0 <= zlen l)%Z.
Proof. unfold zlen. lia. Qed.

Lemma zlen_app {A} (l k : list A) : zlen (l ++ k) = (zlen l + zlen k)%Z.
Proof. unfold zlen. rewrite length_app. lia. Qed.

Lemma zlen_nil {A} : zlen (@nil A) = 0%Z.
Proof. done. Qed.

(** * Bytes *)

#[global] Instance byte_eq_dec : EqDecision byte := Byte.byte_eq_dec.

#[global] Program Instance byte_countable : Countable byte := {|
  encode b := encode (Byte.to_N b);
  decode p := n ← decode p; Byte.of_N n
|}.
Next Obligation. intros b. simpl. rewrite decode_encode. apply Byte.of_to_N. Qed.

#[global] Instance byte_inhabited : Inhabited byte := populate x00.

(** The value of a byte and the byte conversion of Go, [byte(x)]. *)
Definition byte_val (b : byte) : Z := Z.of_N (Byte.to_N b).

Definition to_byte (x : Z) : byte :=
  default x00 (Byte.of_N (Z.to_N (x mod 256)%Z)).

Lemma byte_val_bound b : (0 <= byte_val b < 256)%Z.
Proof. unfold byte_val. pose proof (Byte.to_N_bounded b). lia. Qed.

Lemma of_N_small n : (n <= 255)%N → ∃ b, Byte.of_N n = Some b.
Proof.
  intros Hn. destruct (Byte.of_N n) eqn:E; [by eauto|].
  apply Byte.of_N_None_iff in E. lia.
Qed.

Lemma byte_val_to_byte x : byte_val (to_byte x) = (x mod 256)%Z.
Proof.
  unfold byte_val, to_byte.
  pose proof (Z.mod_pos_bound x 256 ltac:(lia)).
  destruct (of_N_small (Z.to_N (x mod 256))) as [b Hb]; [lia|].
  rewrite Hb. simpl. apply Byte.to_of_N in Hb. rewrite Hb. lia.
Qed.

Lemma to_byte_val b : to_byte (byte_val b) = b.
Proof.
  unfold to_byte. rewrite Z.mod_small by apply byte_val_bound.
  unfold byte_val. rewrite N2Z.id, Byte.of_to_N. done.
Qed.

Lemma byte_val_inj a b : byte_val a = byte_val b → a = b.
Proof. intros H. by rewrite <- (to_byte_val a), H, to_byte_val. Qed.
