(* ===== verification/Types.v ===== *)
(** * Types: the data model of KBFS

    The structs, enums and constants that the components share, from
    [libkbfs/hash.go], [block_id.go], [md_id.go], [tlf_id.go],
    [branch_id.go], [data_types.go], [block_types.go] and
    [dir_entry.go].  Go strings are [string] (a sequence of bytes), byte
    slices and byte arrays are [list byte], integers are [Z].  Every
    comparable struct has an [EqDecision] instance, and every struct the
    code uses as a map key has a [Countable] one. *)

From Stdlib Require Import ZArith.
From S2P Require Import Prelude.

(** ** Hashes and identifiers *)

Definition HashType := byte.
Definition InvalidHash : HashType := x00.
Definition SHA256Hash : HashType := x01.
Definition DefaultHashType : HashType := SHA256Hash.

Definition MinHashByteLength : nat := 33.
Definition DefaultHashByteLength : nat := 33.
Definition MaxHashByteLength : nat := 129.

Record Hash := MkHash { hash_h : string }.
Record HMAC := MkHMAC { hmac_h : Hash }.
Record BlockID := MkBlockID { block_id_h : Hash }.
Record MdID := MkMdID { md_id_h : Hash }.

Definition TlfIDByteLen : nat := 16.
Definition TlfIDStringLen : nat := 2 * TlfIDByteLen.
Definition TlfIDSuffix : byte := x16.
Definition PubTlfIDSuffix : byte := x17.
Record TlfID := MkTlfID { tlf_id : list byte }.
Definition NullTlfID : TlfID := MkTlfID (replicate TlfIDByteLen x00).

Definition BranchIDByteLen : nat := 16.
Definition BranchIDStringLen : nat := 2 * BranchIDByteLen.
Record BranchID := MkBranchID { branch_id : list byte }.
Definition NullBranchID : BranchID := MkBranchID (replicate BranchIDByteLen x00).

#[global] Instance Hash_eq_dec : EqDecision Hash.
Proof. solve_decision. Defined.
#[global] Instance Hash_countable : Countable Hash.
Proof. by apply (inj_countable' hash_h MkHash); intros []. Defined.
#[global] Instance HMAC_eq_dec : EqDecision HMAC.
Proof. solve_decision. Defined.
#[global] Instance BlockID_eq_dec : EqDecision BlockID.
Proof. solve_decision. Defined.
#[global] Instance BlockID_countable : Countable BlockID.
Proof. by apply (inj_countable' block_id_h MkBlockID); intros []. Defined.
#[global] Instance MdID_eq_dec : EqDecision MdID.
Proof. solve_decision. Defined.
#[global] Instance TlfID_eq_dec : EqDecision TlfID.
Proof. solve_decision. Defined.
#[global] Instance TlfID_countable : Countable TlfID.
Proof. by apply (inj_countable' tlf_id MkTlfID); intros []. Defined.
#[global] Instance BranchID_eq_dec : EqDecision BranchID.
Proof. solve_decision. Defined.
#[global] Instance BranchID_countable : Countable BranchID.
Proof. by apply (inj_countable' branch_id MkBranchID); intros []. Defined.

(** ** Block references and pointers *)

Definition UID := string.
Definition KID := string.
Definition KeyGen := Z.
Definition DataVer := Z.
Definition PublicKeyGen : KeyGen := (-1)%Z.
Definition FirstValidKeyGen : KeyGen := 1%Z.
Definition FirstValidDataVer : DataVer := 1%Z.
Definition BranchName := string.
Definition MasterBranch : BranchName := EmptyString.

Definition BlockRefNonce := list byte.
Definition zeroBlockRefNonce : BlockRefNonce := replicate 8 x00.

Record blockRef := MkBlockRef { br_id : BlockID; br_refNonce : BlockRefNonce }.

Record BlockPointer := MkBlockPointer {
  bp_ID : BlockID;
  bp_KeyGen : KeyGen;
  bp_DataVer : DataVer;
  bp_Creator : UID;
  bp_Writer : UID;
  bp_RefNonce : BlockRefNonce
}.

(** [BlockPointer{}], the zero value. *)
Definition zeroPtr : BlockPointer :=
  MkBlockPointer (MkBlockID (MkHash EmptyString)) 0%Z 0%Z EmptyString EmptyString
    zeroBlockRefNonce.

Record BlockInfo := MkBlockInfo {
  bi_BlockPointer : BlockPointer;
  bi_EncodedSize : Z
}.

#[global] Instance blockRef_eq_dec : EqDecision blockRef.
Proof. solve_decision. Defined.
#[global] Instance blockRef_countable : Countable blockRef.
Proof.
  by apply (inj_countable' (λ r, (br_id r, br_refNonce r))
              (λ '(i, n), MkBlockRef i n)); intros [].
Defined.
#[global] Instance BlockPointer_eq_dec : EqDecision BlockPointer.
Proof. solve_decision. Defined.
#[global] Instance BlockPointer_countable : Countable BlockPointer.
Proof.
  by apply (inj_countable'
    (λ p, (bp_ID p, bp_KeyGen p, bp_DataVer p, bp_Creator p, bp_Writer p, bp_RefNonce p))
    (λ '(i, k, d, c, w, n), MkBlockPointer i k d c w n)); intros [].
Defined.
#[global] Instance BlockInfo_eq_dec : EqDecision BlockInfo.
Proof. solve_decision. Defined.

(** ** Directory entries *)

Inductive EntryType := File | Exec | Dir | Sym.
#[global] Instance EntryType_eq_dec : EqDecision EntryType.
Proof. solve_decision. Defined.

Record EntryInfo := MkEntryInfo {
  ei_Type : EntryType;
  ei_Size : Z;
  ei_SymPath : string;
  ei_Mtime : Z;
  ei_Ctime : Z
}.
#[global] Instance EntryInfo_eq_dec : EqDecision EntryInfo.
Proof. solve_decision. Defined.

Record DirEntry := MkDirEntry {
  de_BlockInfo : BlockInfo;
  de_EntryInfo : EntryInfo
}.
#[global] Instance DirEntry_eq_dec : EqDecision DirEntry.
Proof. solve_decision. Defined.

(** ** Blocks *)

Record IndirectDirPtr := MkIndirectDirPtr {
  idp_BlockInfo : BlockInfo;
  idp_Off : string
}.
#[global] Instance IndirectDirPtr_eq_dec : EqDecision IndirectDirPtr.
Proof. solve_decision. Defined.

Record IndirectFilePtr := MkIndirectFilePtr {
  ifp_BlockInfo : BlockInfo;
  ifp_Off : Z
}.
#[global] Instance IndirectFilePtr_eq_dec : EqDecision IndirectFilePtr.
Proof. solve_decision. Defined.

Record CommonBlock := MkCommonBlock {
  cb_IsInd : bool;
  cb_cachedEncodedSize : Z
}.
#[global] Instance CommonBlock_eq_dec : EqDecision CommonBlock.
Proof. solve_decision. Defined.

Record DirBlock := MkDirBlock {
  db_CommonBlock : CommonBlock;
  db_Children : gmap string DirEntry;
  db_IPtrs : list IndirectDirPtr
}.
#[global] Instance DirBlock_eq_dec : EqDecision DirBlock.
Proof. solve_decision. Defined.

Record FileBlock := MkFileBlock {
  fb_CommonBlock : CommonBlock;
  fb_Contents : list byte;
  fb_IPtrs : list IndirectFilePtr
}.
#[global] Instance FileBlock_eq_dec : EqDecision FileBlock.
Proof. solve_decision. Defined.

(** The dynamic types that implement the [Block] interface. *)
Inductive Block :=
| CommonB (b : CommonBlock)
| DirB (b : DirBlock)
| FileB (b : FileBlock).
#[global] Instance Block_eq_dec : EqDecision Block.
Proof. solve_decision. Defined.

Definition NewCommonBlock : Block := CommonB (MkCommonBlock false 0).
Definition NewDirBlock : Block := DirB (MkDirBlock (MkCommonBlock false 0) ∅ []).
Definition NewFileBlock : FileBlock := MkFileBlock (MkCommonBlock false 0) [] [].

Definition fb_IsInd (b : FileBlock) : bool := cb_IsInd (fb_CommonBlock b).

(** [GetEncodedSize], promoted from the embedded [CommonBlock]. *)
Definition GetEncodedSize (b : Block) : Z :=
  match b with
  | CommonB c => cb_cachedEncodedSize c
  | DirB d => cb_cachedEncodedSize (db_CommonBlock d)
  | FileB f => cb_cachedEncodedSize (fb_CommonBlock f)
  end.

(** ** Paths *)

Record pathNode := MkPathNode {
  pn_BlockPointer : BlockPointer;
  pn_Name : string
}.
#[global] Instance pathNode_eq_dec : EqDecision pathNode.
Proof. solve_decision. Defined.

Record FolderBranch := MkFolderBranch {
  fbr_Tlf : TlfID;
  fbr_Branch : BranchName
}.
#[global] Instance FolderBranch_eq_dec : EqDecision FolderBranch.
Proof. solve_decision. Defined.

Record path := MkPath {
  p_FolderBranch : FolderBranch;
  p_path : list pathNode
}.
#[global] Instance path_eq_dec : EqDecision path.
Proof. solve_decision. Defined.

(** [path{}], the zero value. *)
Definition zeroPath : path := MkPath (MkFolderBranch NullTlfID MasterBranch) [].

(** ** Other shared enums and structs *)

Inductive MergeStatus := Merged | Unmerged.
#[global] Instance MergeStatus_eq_dec : EqDecision MergeStatus.
Proof. solve_decision. Defined.

Definition MetadataRevision := Z.
Definition MetadataRevisionUninitialized : MetadataRevision := 0%Z.
Definition MetadataRevisionInitial : MetadataRevision := 1%Z.

Record writerInfo := MkWriterInfo {
  wi_name : string;
  wi_kid : KID;
  wi_deviceName : string
}.
#[global] Instance writerInfo_eq_dec : EqDecision writerInfo.
Proof. solve_decision. Defined.

Inductive BlockCacheLifetime := TransientEntry | PermanentEntry.
#[global] Instance BlockCacheLifetime_eq_dec : EqDecision BlockCacheLifetime.
Proof. solve_decision. Defined.
