(* ===== verification/Errors.v ===== *)
(** * Errors: error values, results and stateful computations

    [error] has one constructor per error type the modelled functions
    return ([libkbfs/errors.go], [bserver_errors.go],
    [mdserver_errors.go] and the standard library's); an error built
    with [errors.New] or [fmt.Errorf] carries the fixed text of its
    message, and an error that names the folder it is about leaves the
    folder's handle out.  A call of a fallible function is a [res]: a value, an error
    or a panic.  A method that also changes the state of its receiver is
    a [go S A]: it returns the result and the state it leaves, on the
    error paths too. *)

From Stdlib Require Import ZArith Ascii.
From S2P Require Import Prelude Types.

Inductive error :=
| ErrorString (msg : string)
| Errorf (msg : string)
| HexErrLength
| HexInvalidByteError (b : ascii)
| OsErrNotExist
| LeveldbErrNotFound
| IoEOF
| IoErrUnexpectedEOF
| InvalidHashError (h : Hash)
| UnknownHashTypeError (t : HashType)
| HashMismatchError (expectedH actualH : Hash)
| UnknownSigVer (v : Z)
| KeyCannotVerifyError
| VerificationError
| UnexpectedShortCryptoRandRead
| UnknownEncryptionVer (v : Z)
| InvalidNonceError (n : list byte)
| DecryptionError
| PaddedBlockReadError (ActualLen ExpectedLen : Z)
| BadDataError (id : BlockID)
| NoSuchBlockError (id : BlockID)
| NotDirectFileBlockError
| InvalidBlockRefError (r : blockRef)
| EmptyNameError (r : blockRef)
| ParentNodeNotFoundError (r : blockRef)
| InvalidPathError (p : path)
| InvalidParentPathError (p : path)
| NoSuchNameError (name : string)
| NotFileError (p : path)
| NotFileBlockError (ptr : BlockPointer)
| NotDirBlockError (ptr : BlockPointer)
| NoChainFoundError (ptr : BlockPointer)
| FileTooBigError (p : path) (size maxAllowed : Z)
| WriteAccessError (user : string)
| BadSplitError
| InconsistentEncodedSizeError (info : BlockInfo)
| BServerErrorBlockNonExistent (msg : string)
| BServerErrorBlockArchived (msg : string)
| MDServerErrorUnauthorized
| MDServerErrorBadRequest (reason : string)
| MDServerErrorConflictRevision (expected actual : Z)
| MDServerErrorConflictPrevRoot (expected actual : MdID)
| MDServerErrorConflictDiskUsage (expected actual : Z)
| MDServerErrorLocked
| MDServerError (err : error)
| LeveldbErrClosed
| MDMissingDataError (id : TlfID)
| MetadataIsFinalError
| NoSuchMDError (tlf : TlfID) (rev : Z) (bid : BranchID)
| InvalidPublicTLFOperation (id : TlfID) (opName : string)
| InvalidKeyGenerationError (keyGen : KeyGen)
| NewKeyGenerationError (keyGen : KeyGen)
| TLFEphemeralPublicKeyNotFoundError (user : UID) (kid : KID)
| KeyCannotEncryptError
| KeyCacheMissError (tlf : TlfID) (keyGen : KeyGen)
| ReadAccessError (user : string)
| NeedSelfRekeyError
| NeedOtherRekeyError
| RekeyIncompleteError
| NoKeysError
| NoSuchUserError (input : string)
| BadTLFNameError (name : string)
| TlfNameNotCanonical (name nameToTry : string)
| NoSuchTlfHandleError (id : TlfID)
| TlfHandleConflictInfoMismatchError
| KeyNotFoundError (kid : KID)
| UnverifiableTlfUpdateError (user : string) (err : error)
| MDMismatchError (msg : string)
| UnexpectedUnmergedPutError
| TooLowByteCountError (expectedMinByteCount byteCount : Z)
| BServerErrorBadRequest (msg : string)
| BServerError (msg : string)
| BServerErrorNonceNonExistent (msg : string)
| BServerErrorBlockDeleted (msg : string)
| NameExistsError (name : string)
| NameTooLongError (name : string) (maxAllowedBytes : Z)
| DisallowedPrefixError (name prefix : string)
| DirTooBigError (p : path) (size maxAllowedBytes : Z)
| DirNotEmptyError (name : string)
| RenameAcrossDirsError
| MDServerErrorConditionFailed
| MDServerErrorConflictFolderMapping
| WrongOpsError (opsFB nodeFB : FolderBranch)
| RekeyPermissionError (user : string)
| NodeNotFoundError (ptr : BlockPointer).

#[global] Instance error_eq_dec : EqDecision error.
Proof. solve_decision. Defined.

(** ** Results *)

Inductive res (A : Type) :=
| Ok (a : A)
| Err (e : error)
| Panic (msg : string).
Arguments Ok {A} _.
Arguments Err {A} _.
Arguments Panic {A} _.

#[global] Instance res_eq_dec `{EqDecision A} : EqDecision (res A).
Proof. solve_decision. Defined.

#[global] Instance res_ret : MRet res := @Ok.
#[global] Instance res_bind : MBind res := λ A B f m,
  match m with Ok a => f a | Err e => Err e | Panic s => Panic s end.
#[global] Instance res_fmap : FMap res := λ A B f m,
  match m with Ok a => Ok (f a) | Err e => Err e | Panic s => Panic s end.

Definition is_Ok {A} (r : res A) : bool :=
  match r with Ok _ => true | _ => false end.

Lemma bind_Ok {A B} (f : A → res B) m b :
  (m ≫= f) = Ok b ↔ ∃ a, m = Ok a ∧ f a = Ok b.
Proof.
  split; [|by intros (a & -> & H)].
  destruct m as [a|e|s]; simpl; intros H; by eauto.
Qed.

(** ** Methods: state, and the result they return *)

Definition go (S A : Type) : Type := S → res A * S.

#[global] Instance go_ret S : MRet (go S) := λ A a s, (Ok a, s).
#[global] Instance go_bind S : MBind (go S) := λ A B f m s,
  match m s with
  | (Ok a, s') => f a s'
  | (Err e, s') => (Err e, s')
  | (Panic p, s') => (Panic p, s')
  end.

Definition get {S} : go S S := λ s, (Ok s, s).
Definition put {S} (s : S) : go S unit := λ _, (Ok tt, s).
Definition modify {S} (f : S → S) : go S unit := λ s, (Ok tt, f s).
Definition fail {S A} (e : error) : go S A := λ s, (Err e, s).
Definition panic {S A} (msg : string) : go S A := λ s, (Panic msg, s).
Definition lift_res {S A} (r : res A) : go S A := λ s, (r, s).

(** A call whose error the caller inspects. *)
Definition catch {S A} (m : go S A) (h : error → go S A) : go S A := λ s,
  match m s with
  | (Err e, s') => h e s'
  | r => r
  end.

Definition try {S A} (m : go S A) : go S (A + error) := λ s,
  match m s with
  | (Ok a, s') => (Ok (inl a), s')
  | (Err e, s') => (Ok (inr e), s')
  | (Panic p, s') => (Panic p, s')
  end.

(** [for _, x := range l { f(x) }], leaving the loop on the first error. *)
Fixpoint go_for {S A} (l : list A) (f : A → go S unit) : go S unit :=
  match l with
  | [] => mret tt
  | x :: l => f x ≫= λ _, go_for l f
  end.

Lemma go_bind_Ok {S A B} (f : A → go S B) (m : go S A) s b s' :
  (m ≫= f) s = (Ok b, s') →
  ∃ a s1, m s = (Ok a, s1) ∧ f a s1 = (Ok b, s').
Proof.
  unfold mbind, go_bind. destruct (m s) as [[a|e|p] s1] eqn:E; naive_solver.
Qed.

(** Invariants of the state are preserved by composition. *)
Definition go_preserves {S A} (I : S → Prop) (m : go S A) : Prop :=
  ∀ s, I s → I (snd (m s)).

Lemma go_preserves_ret {S A} (I : S → Prop) (a : A) : go_preserves I (mret a : go S A).
Proof. by intros s Hs. Qed.

Lemma go_preserves_bind {S A B} (I : S → Prop) (m : go S A) (f : A → go S B) :
  go_preserves I m → (∀ a, go_preserves I (f a)) → go_preserves I (m ≫= f).
Proof.
  intros Hm Hf s Hs. unfold mbind, go_bind.
  specialize (Hm s Hs). destruct (m s) as [[a|e|p] s1]; simpl in *; [by apply Hf|done|done].
Qed.

Lemma go_preserves_for {S A} (I : S → Prop) (l : list A) (f : A → go S unit) :
  (∀ x, x ∈ l → go_preserves I (f x)) → go_preserves I (go_for l f).
Proof.
  induction l as [|x l IH]; intros Hf; [apply go_preserves_ret|].
  apply go_preserves_bind; [apply Hf; set_solver|].
  intros _. apply IH. intros y Hy. apply Hf. set_solver.
Qed.

Create HintDb go_inv.
#[export] Hint Resolve go_preserves_ret go_preserves_bind go_preserves_for : go_inv.

(** ** Total correctness

    [wp m Q s]: run from [s], the method [m] returns a value (no error,
    no panic) and leaves a state that satisfy [Q]. *)
Definition wp {S A} (m : go S A) (Q : A → S → Prop) (s : S) : Prop :=
  ∃ a s', m s = (Ok a, s') ∧ Q a s'.

Lemma wp_ret {S A} (a : A) (Q : A → S → Prop) s : Q a s → wp (mret a) Q s.
Proof. intros HQ. by exists a, s. Qed.

Lemma wp_bind {S A B} (m : go S A) (f : A → go S B) (Q : B → S → Prop) s :
  wp m (λ a s', wp (f a) Q s') s → wp (m ≫= f) Q s.
Proof.
  intros (a & s1 & Hm & b & s2 & Hf & HQ). exists b, s2. split; [|done].
  unfold mbind, go_bind. by rewrite Hm.
Qed.

Lemma wp_mono {S A} (m : go S A) (Q Q' : A → S → Prop) s :
  wp m Q s → (∀ a s', Q a s' → Q' a s') → wp m Q' s.
Proof. intros (a & s' & Hm & HQ) HQQ. exists a, s'. auto. Qed.

Lemma wp_get {S} (Q : S → S → Prop) s : Q s s → wp get Q s.
Proof. intros HQ. by exists s, s. Qed.

Lemma wp_modify {S} (f : S → S) (Q : unit → S → Prop) s : Q tt (f s) → wp (modify f) Q s.
Proof. intros HQ. by exists tt, (f s). Qed.

Lemma wp_lift {S A} (r : res A) a (Q : A → S → Prop) s : r = Ok a → Q a s → wp (lift_res r) Q s.
Proof. intros -> HQ. by exists a, s. Qed.

(** ** Simulation

    [refines R ma mc]: from related states, the concrete method [mc]
    returns what the abstract method [ma] returns, and leaves a related
    state. *)
Definition refines {SA SC A} (R : SA → SC → Prop) (ma : go SA A) (mc : go SC A) : Prop :=
  ∀ sa sc, R sa sc → fst (mc sc) = fst (ma sa) ∧ R (snd (ma sa)) (snd (mc sc)).

Section refines.
Context {SA SC : Type} (R : SA → SC → Prop).

Lemma refines_ret {A} (a : A) : refines R (mret a) (mret a).
Proof. by intros sa sc HR. Qed.

Lemma refines_fail {A} e : refines R (fail e : go SA A) (fail e).
Proof. by intros sa sc HR. Qed.

Lemma refines_bind {A B} (ma : go SA A) mc (fa : A → go SA B) fc :
  refines R ma mc → (∀ a, refines R (fa a) (fc a)) → refines R (ma ≫= fa) (mc ≫= fc).
Proof.
  intros Hm Hf sa sc HR. specialize (Hm sa sc HR). unfold mbind, go_bind.
  destruct (ma sa) as [ra sa'], (mc sc) as [rc sc']. simpl in Hm. destruct Hm as [-> HR'].
  destruct ra; [by apply Hf|done..].
Qed.

Lemma refines_try {A} (ma : go SA A) mc : refines R ma mc → refines R (try ma) (try mc).
Proof.
  intros Hm sa sc HR. specialize (Hm sa sc HR). unfold try.
  destruct (ma sa) as [ra sa'], (mc sc) as [rc sc']. simpl in Hm. destruct Hm as [-> HR'].
  by destruct ra.
Qed.

Lemma refines_for {A} (l : list A) fa fc :
  (∀ x, x ∈ l → refines R (fa x) (fc x)) → refines R (go_for l fa) (go_for l fc).
Proof.
  induction l as [|x l IH]; intros Hf; [apply refines_ret|].
  apply refines_bind; [apply Hf; set_solver|]. intros _. apply IH. set_solver.
Qed.
End refines.

Create HintDb refine.
#[export] Hint Resolve refines_ret refines_fail refines_bind refines_try refines_for : refine.
