(* ===== verification/GoStd.v ===== *)
(** * GoStd: the parts of Go's standard library the code relies on

    [encoding/hex] ([EncodeToString], [DecodeString]),
    [encoding/binary] (little- and big-endian fixed-width integers),
    [crypto/sha256] and [crypto/hmac], all executable, with the facts the
    components use: the hex and integer codecs round-trip and a SHA-256
    digest has 32 bytes. *)

From Stdlib Require Import ZArith Ascii Lia.
From S2P Require Import Prelude Types Errors.

(** ** Conversions between [string] and [[]byte] *)

Definition bytes_of_string (s : string) : list byte := String.list_byte_of_string s.
Definition string_of_bytes (l : list byte) : string := String.string_of_list_byte l.

Lemma string_of_bytes_of_string s : string_of_bytes (bytes_of_string s) = s.
Proof. apply String.string_of_list_byte_of_string. Qed.

Lemma bytes_of_string_of_bytes l : bytes_of_string (string_of_bytes l) = l.
Proof. apply String.list_byte_of_string_of_list_byte. Qed.

Lemma length_string_of_bytes l : String.length (string_of_bytes l) = length l.
Proof. unfold string_of_bytes. induction l; simpl; auto. Qed.

Lemma length_bytes_of_string s : length (bytes_of_string s) = String.length s.
Proof. by rewrite <- length_string_of_bytes, string_of_bytes_of_string. Qed.

(** ** encoding/hex *)

Definition hexdigit (n : Z) : byte :=
  to_byte (if (n <? 10)%Z then n + 48 else n + 87)%Z.

Definition fromHexChar (c : byte) : option Z :=
  let v := byte_val c in
  if ((48 <=? v) && (v <=? 57))%Z then Some (v - 48)%Z
  else if ((97 <=? v) && (v <=? 102))%Z then Some (v - 87)%Z
  else if ((65 <=? v) && (v <=? 70))%Z then Some (v - 55)%Z
  else None.

Definition hex_encode (l : list byte) : list byte :=
  l ≫= λ b, [hexdigit (byte_val b / 16); hexdigit (byte_val b mod 16)].

Definition EncodeToString (l : list byte) : string := string_of_bytes (hex_encode l).

Fixpoint hex_decode_pairs (l : list byte) : res (list byte) :=
  match l with
  | a :: b :: l =>
      match fromHexChar a with
      | None => Err (HexInvalidByteError (Ascii.ascii_of_byte a))
      | Some x =>
          match fromHexChar b with
          | None => Err (HexInvalidByteError (Ascii.ascii_of_byte b))
          | Some y => cons (to_byte (16 * x + y)) <$> hex_decode_pairs l
          end
      end
  | _ => Ok []
  end.

Definition DecodeString (s : string) : res (list byte) :=
  let l := bytes_of_string s in
  if Nat.odd (length l) then Err HexErrLength else hex_decode_pairs l.

Lemma fromHexChar_hexdigit n : (0 <= n < 16)%Z → fromHexChar (hexdigit n) = Some n.
Proof.
  intros Hn.
  assert (n ∈ seqZ 0 16) as Hin by (apply elem_of_seqZ; lia).
  revert n Hin Hn. apply (Forall_forall (λ n, (0 <= n < 16)%Z → _)).
  repeat (constructor; [intros _; vm_compute; reflexivity|]). constructor.
Qed.

Lemma length_hex_encode l : length (hex_encode l) = 2 * length l.
Proof. unfold hex_encode. induction l; csimpl; lia. Qed.

Lemma hex_decode_pairs_encode l : hex_decode_pairs (hex_encode l) = Ok l.
Proof.
  induction l as [|b l IH]; [done|].
  unfold hex_encode in *. csimpl.
  pose proof (byte_val_bound b).
  rewrite !fromHexChar_hexdigit
    by (try apply Z.mod_pos_bound; try (split; [apply Z.div_pos|apply Z.div_lt_upper_bound]); lia).
  rewrite IH. simpl. by rewrite <- Z.div_mod, to_byte_val by lia.
Qed.

Lemma DecodeString_EncodeToString l : DecodeString (EncodeToString l) = Ok l.
Proof.
  unfold DecodeString, EncodeToString.
  rewrite bytes_of_string_of_bytes, length_hex_encode, hex_decode_pairs_encode.
  by rewrite Nat.odd_mul.
Qed.

Lemma hex_decode_pairs_length l r :
  hex_decode_pairs l = Ok r → length r = Nat.div2 (length l).
Proof.
  revert r. induction l as [l IH] using (induction_ltof1 _ length); unfold ltof in IH.
  destruct l as [|a [|b l]]; simpl; [by intros r [= <-]|by intros r [= <-]|].
  intros r. repeat case_match; try done. simpl in *. intros Hr.
  destruct (hex_decode_pairs l) as [l'| |] eqn:E; simpl in Hr; simplify_eq.
  simpl. f_equal. by apply IH; [simpl; lia|].
Qed.

Lemma DecodeString_length s r :
  DecodeString s = Ok r → String.length s = 2 * length r.
Proof.
  unfold DecodeString. cbv zeta. rewrite <- length_bytes_of_string.
  destruct (Nat.odd _) eqn:Ho; [done|]. intros ->%hex_decode_pairs_length.
  rewrite (Nat.div2_odd (length (bytes_of_string s))) at 1. rewrite Ho. simpl. lia.
Qed.

(** ** encoding/binary *)

(** [n] bytes of [x], least significant first. *)
Fixpoint put_le (n : nat) (x : Z) : list byte :=
  match n with
  | O => []
  | S n => to_byte x :: put_le n (x / 256)
  end.

Fixpoint get_le (l : list byte) : Z :=
  match l with
  | [] => 0
  | b :: l => byte_val b + 256 * get_le l
  end%Z.

Definition put_be (n : nat) (x : Z) : list byte := reverse (put_le n x).

Lemma length_put_le n x : length (put_le n x) = n.
Proof. revert x. induction n; simpl; auto. Qed.

Lemma get_put_le n x : get_le (put_le n x) = (x mod 256 ^ Z.of_nat n)%Z.
Proof.
  revert x. induction n as [|n IH]; intros x; simpl put_le; simpl get_le.
  - by rewrite Z.mod_1_r.
  - rewrite IH, byte_val_to_byte, Nat2Z.inj_succ, Z.pow_succ_r by lia.
    rewrite Z.rem_mul_r; lia.
Qed.

Lemma get_le_bound l : (0 <= get_le l < 256 ^ zlen l)%Z.
Proof.
  induction l as [|b l IH]; [done|].
  unfold zlen in *. rewrite length_cons, Nat2Z.inj_succ, Z.pow_succ_r by lia.
  simpl. pose proof (byte_val_bound b). lia.
Qed.

Lemma put_get_le l : put_le (length l) (get_le l) = l.
Proof.
  induction l as [|b l IH]; [done|]. simpl.
  pose proof (byte_val_bound b). f_equal.
  - apply byte_val_inj. rewrite byte_val_to_byte.
    rewrite (Z.mul_comm 256), Z.mod_add, Z.mod_small; lia.
  - rewrite (Z.mul_comm 256), Z.div_add, Z.div_small, Z.add_0_l by lia. done.
Qed.

(** ** crypto/sha256 (FIPS 180-4) *)

Module Sha256.

Definition add32 (x y : Z) : Z := to_u32 (x + y).
Definition rotr (n x : Z) : Z :=
  Z.lor (Z.shiftr x n) (to_u32 (Z.shiftl x (32 - n))).
Definition bsig0 (x : Z) : Z := Z.lxor (rotr 2 x) (Z.lxor (rotr 13 x) (rotr 22 x)).
Definition bsig1 (x : Z) : Z := Z.lxor (rotr 6 x) (Z.lxor (rotr 11 x) (rotr 25 x)).
Definition ssig0 (x : Z) : Z := Z.lxor (rotr 7 x) (Z.lxor (rotr 18 x) (Z.shiftr x 3)).
Definition ssig1 (x : Z) : Z := Z.lxor (rotr 17 x) (Z.lxor (rotr 19 x) (Z.shiftr x 10)).
Definition ch (x y z : Z) : Z := Z.lxor (Z.land x y) (Z.land (Z.lxor x (2 ^ 32 - 1)) z).
Definition maj (x y z : Z) : Z := Z.lxor (Z.land x y) (Z.lxor (Z.land x z) (Z.land y z)).

(** The constants of the standard (FIPS 180-4): the first 32 bits of the
    fractional parts of the cube roots of the first 64 primes, and of the
    square roots of the first 8. *)
Definition is_prime (n : Z) : bool :=
  forallb (λ d, negb (n mod d =? 0)%Z) (seqZ 2 (n - 2)).

Definition primes : list Z := Eval vm_compute in filter (λ n, is_prime n = true) (seqZ 2 310).

(** The integer cube root, one binary digit at a time. *)
Fixpoint cbrt (digits : nat) (x r : Z) : Z :=
  match digits with
  | O => r
  | S i =>
      let r' := (r + 2 ^ Z.of_nat i)%Z in
      cbrt i x (if (r' ^ 3 <=? x)%Z then r' else r)
  end.

Definition K : list Z := Eval vm_compute in
  (λ p, to_u32 (cbrt 36 (p * 2 ^ 96) 0)) <$> primes.

Definition state : Type := Z * Z * Z * Z * Z * Z * Z * Z.

Definition init : state := Eval vm_compute in
  match (λ p, to_u32 (Z.sqrt (p * 2 ^ 64))) <$> primes with
  | a :: b :: c :: d :: e :: f :: g :: h :: _ => (a, b, c, d, e, f, g, h)
  | _ => (0, 0, 0, 0, 0, 0, 0, 0)%Z
  end.

(** The message schedule, newest word first. *)
Fixpoint schedule (n : nat) (w : list Z) : list Z :=
  match n with
  | O => w
  | S n =>
      let nth i := default 0%Z (w !! i) in
      schedule n (add32 (add32 (ssig1 (nth 1)) (nth 6))
                    (add32 (ssig0 (nth 14)) (nth 15)) :: w)
  end.

Definition round (s : state) (kw : Z * Z) : state :=
  let '(a, b, c, d, e, f, g, h) := s in
  let t1 := add32 (add32 h (bsig1 e)) (add32 (ch e f g) (add32 (fst kw) (snd kw))) in
  let t2 := add32 (bsig0 a) (maj a b c) in
  (add32 t1 t2, a, b, c, add32 d t1, e, f, g).

Fixpoint words (n : nat) (l : list byte) : list Z :=
  match n with
  | O => []
  | S n => get_le (reverse (take 4 l)) :: words n (drop 4 l)
  end.

Definition compress (s : state) (block : list byte) : state :=
  let w := reverse (schedule 48 (reverse (words 16 block))) in
  let '(a, b, c, d, e, f, g, h) := s in
  let '(a', b', c', d', e', f', g', h') := foldl round s (zip K w) in
  (add32 a a', add32 b b', add32 c c', add32 d d',
   add32 e e', add32 f f', add32 g g', add32 h h').

Definition pad (l : list byte) : list byte :=
  let zeros := Z.to_nat ((55 - zlen l) mod 64) in
  l ++ [x80] ++ replicate zeros x00 ++ put_be 8 (8 * zlen l).

Fixpoint blocks (n : nat) (l : list byte) : list (list byte) :=
  match n with
  | O => []
  | S n => take 64 l :: blocks n (drop 64 l)
  end.

Definition digest (s : state) : list byte :=
  let '(a, b, c, d, e, f, g, h) := s in
  put_be 4 a ++ put_be 4 b ++ put_be 4 c ++ put_be 4 d ++
  put_be 4 e ++ put_be 4 f ++ put_be 4 g ++ put_be 4 h.

Definition Sum256 (l : list byte) : list byte :=
  let m := pad l in
  digest (foldl compress init (blocks (length m / 64) m)).

Lemma length_digest s : length (digest s) = 32.
Proof.
  destruct s as [[[[[[[a b] c] d] e] f] g] h]. unfold digest, put_be.
  by rewrite !length_app, !length_reverse, !length_put_le.
Qed.

Lemma length_Sum256 l : length (Sum256 l) = 32.
Proof. apply length_digest. Qed.

End Sha256.

(** The test vector of FIPS 180-4 for [abc]. *)
Example Sum256_abc :
  EncodeToString (Sha256.Sum256 (bytes_of_string "abc")) =
  "ba7816bf8f01cfea414140de5dae2223b00361a396177a9cb410ff61f20015ad".
Proof. vm_compute. reflexivity. Qed.

(** ** crypto/hmac over SHA-256 (RFC 2104) *)

Definition xor_bytes (x y : list byte) : list byte :=
  zip_with (λ a b, to_byte (Z.lxor (byte_val a) (byte_val b))) x y.

Definition hmac_sha256 (key msg : list byte) : list byte :=
  let k0 := if decide (64 < length key) then Sha256.Sum256 key else key in
  let k := k0 ++ replicate (64 - length k0) x00 in
  let ipad := xor_bytes k (replicate 64 x36) in
  let opad := xor_bytes k (replicate 64 x5c) in
  Sha256.Sum256 (opad ++ Sha256.Sum256 (ipad ++ msg)).

Lemma length_hmac_sha256 key msg : length (hmac_sha256 key msg) = 32.
Proof. apply Sha256.length_Sum256. Qed.

(** RFC 4231, test case 2. *)
Example hmac_sha256_rfc4231 :
  EncodeToString (hmac_sha256 (bytes_of_string "Jefe")
    (bytes_of_string "what do ya want for nothing?")) =
  "5bdcc146bf60754e6a042426089575c75a003f089d2739839dec58b964ec3843".
Proof. vm_compute. reflexivity. Qed.

(** Decoding and re-encoding gives the same digits in lower case. *)
Definition lower_hex (c : byte) : byte :=
  let v := byte_val c in
  if ((65 <=? v) && (v <=? 70))%Z then to_byte (v + 32) else c.

Definition ToLower_hex (s : string) : string :=
  string_of_bytes (lower_hex <$> bytes_of_string s).

Lemma hexdigit_fromHexChar c x :
  fromHexChar c = Some x → (0 <= x < 16)%Z ∧ hexdigit x = lower_hex c.
Proof.
  unfold fromHexChar, hexdigit, lower_hex. cbv zeta.
  pose proof (to_byte_val c) as Hc.
  repeat (case_match; simplify_eq; rewrite ?andb_true_iff, ?andb_false_iff, ?Z.leb_le, ?Z.leb_gt,
    ?Z.ltb_lt, ?Z.ltb_ge in * ); intros; simplify_eq; try lia; split; try lia; try done.
  - rewrite <- Hc at 2. f_equal. lia.
  - rewrite <- Hc at 2. f_equal. lia.
  - f_equal. lia.
Qed.

Lemma hex_encode_decode l r :
  Nat.odd (length l) = false → hex_decode_pairs l = Ok r → hex_encode r = lower_hex <$> l.
Proof.
  revert r. induction l as [l IH] using (induction_ltof1 _ length); unfold ltof in IH.
  destruct l as [|a [|b l]]; simpl; [by intros r _ [= <-]|done|].
  intros r Ho. destruct (fromHexChar a) as [x|] eqn:Ea; [|done].
  destruct (fromHexChar b) as [y|] eqn:Eb; [|done].
  destruct (hex_decode_pairs l) as [l'| |] eqn:E; simpl; intros [= <-].
  unfold hex_encode in *. csimpl.
  apply hexdigit_fromHexChar in Ea as [? Ea], Eb as [? Eb].
  rewrite byte_val_to_byte, (Z.mod_small (16 * x + y)) by lia.
  rewrite (Z.mul_comm 16), Z.div_add_l, Z.div_small, Z.add_0_r by lia.
  rewrite (Z.add_comm (x * 16)), Z.mod_add, Z.mod_small by lia.
  rewrite Ea, Eb. do 2 f_equal. apply IH; [simpl; lia|by rewrite Nat.odd_succ_succ in Ho|done].
Qed.

Lemma EncodeToString_DecodeString s r :
  DecodeString s = Ok r → EncodeToString r = ToLower_hex s.
Proof.
  unfold DecodeString, EncodeToString, ToLower_hex. cbv zeta.
  destruct (Nat.odd _) eqn:Ho; [done|]. intros H. by rewrite (hex_encode_decode _ _ Ho H).
Qed.

#[global] Arguments Sha256.Sum256 : simpl never.
#[global] Arguments hmac_sha256 : simpl never.
#[global] Arguments DecodeString : simpl never.
#[global] Arguments EncodeToString : simpl never.
#[global] Opaque Sha256.Sum256 hmac_sha256.
