(* ===== verification/Ids.v ===== *)
(** * Ids: hashes and identifiers

    Models [libkbfs/hash.go], [block_id.go], [md_id.go], [tlf_id.go] and
    [branch_id.go]: validity, construction, printing, parsing, binary
    marshalling and verification.  [UnmarshalBinary] updates its
    receiver, so it is a [go] computation on it. *)

From Stdlib Require Import ZArith Lia.
From S2P Require Import Prelude Types Errors GoStd.

(** ** Hash *)

Definition Hash_hashType (h : Hash) : res HashType :=
  match bytes_of_string (hash_h h) with
  | [] => Panic "index out of range"
  | t :: _ => Ok t
  end.

Definition Hash_hashData (h : Hash) : res (list byte) :=
  match bytes_of_string (hash_h h) with
  | [] => Panic "slice bounds out of range"
  | _ :: d => Ok d
  end.

Definition Hash_IsValid (h : Hash) : bool :=
  let n := length (bytes_of_string (hash_h h)) in
  if decide (n < MinHashByteLength) then false
  else if decide (MaxHashByteLength < n) then false
  else match Hash_hashType h with
       | Ok t => bool_decide (t ≠ InvalidHash)
       | _ => false
       end.

Definition DoRawDefaultHash (p : list byte) : HashType * list byte :=
  (DefaultHashType, Sha256.Sum256 p).

Definition HashFromBytes (data : list byte) : res Hash :=
  let h := MkHash (string_of_bytes data) in
  if negb (Hash_IsValid h) then Err (InvalidHashError h) else Ok h.

Definition HashFromRaw (hashType : HashType) (rawHash : list byte) : res Hash :=
  HashFromBytes ([hashType] ++ rawHash).

Definition HashFromString (dataStr : string) : res Hash :=
  data ← DecodeString dataStr; HashFromBytes data.

Definition DefaultHash (buf : list byte) : res Hash :=
  let '(hashType, rawHash) := DoRawDefaultHash buf in
  HashFromRaw hashType rawHash.

Definition Hash_Bytes (h : Hash) : list byte := bytes_of_string (hash_h h).

Definition Hash_String (h : Hash) : string := EncodeToString (bytes_of_string (hash_h h)).

(** [MarshalBinary] returns a nil slice for the zero hash. *)
Definition Hash_MarshalBinary (h : Hash) : res (list byte) :=
  if decide (h = MkHash EmptyString) then Ok []
  else if negb (Hash_IsValid h) then Err (InvalidHashError h)
  else Ok (bytes_of_string (hash_h h)).

Definition Hash_UnmarshalBinary (data : list byte) : go Hash unit := λ _,
  if decide (length data = 0) then (Ok tt, MkHash EmptyString)
  else
    let h := MkHash (string_of_bytes data) in
    if negb (Hash_IsValid h) then (Err (InvalidHashError h), MkHash EmptyString)
    else (Ok tt, h).

Definition Hash_Verify (h : Hash) (buf : list byte) : res unit :=
  if negb (Hash_IsValid h) then Err (InvalidHashError h)
  else
    t ← Hash_hashType h;
    if decide (t ≠ DefaultHashType) then Err (UnknownHashTypeError t)
    else
      expectedH ← DefaultHash buf;
      if decide (h ≠ expectedH) then Err (HashMismatchError expectedH h) else Ok tt.

(** ** HMAC *)

Definition DefaultHMAC (key buf : list byte) : res HMAC :=
  h ← HashFromRaw DefaultHashType (hmac_sha256 key buf); Ok (MkHMAC h).

Definition HMAC_IsValid (m : HMAC) : bool := Hash_IsValid (hmac_h m).

Definition HMAC_Verify (m : HMAC) (key buf : list byte) : res unit :=
  if negb (HMAC_IsValid m) then Err (InvalidHashError (hmac_h m))
  else
    t ← Hash_hashType (hmac_h m);
    if decide (t ≠ DefaultHashType) then Err (UnknownHashTypeError t)
    else
      expectedHMAC ← DefaultHMAC key buf;
      if decide (m ≠ expectedHMAC)
      then Err (HashMismatchError (hmac_h expectedHMAC) (hmac_h m)) else Ok tt.

(** ** BlockID and MdID *)

Definition BlockIDFromString (dataStr : string) : res BlockID :=
  h ← HashFromString dataStr; Ok (MkBlockID h).
Definition BlockID_IsValid (id : BlockID) : bool := Hash_IsValid (block_id_h id).
Definition BlockID_Bytes (id : BlockID) : list byte := Hash_Bytes (block_id_h id).
Definition BlockID_String (id : BlockID) : string := Hash_String (block_id_h id).
Definition BlockID_MarshalBinary (id : BlockID) : res (list byte) :=
  Hash_MarshalBinary (block_id_h id).
Definition BlockID_UnmarshalBinary (data : list byte) : go BlockID unit := λ id,
  let '(r, h) := Hash_UnmarshalBinary data (block_id_h id) in (r, MkBlockID h).

Definition MdIDFromBytes (data : list byte) : res MdID :=
  h ← HashFromBytes data; Ok (MkMdID h).
Definition MdID_Bytes (id : MdID) : list byte := Hash_Bytes (md_id_h id).
Definition MdID_String (id : MdID) : string := Hash_String (md_id_h id).
Definition MdID_MarshalBinary (id : MdID) : res (list byte) :=
  Hash_MarshalBinary (md_id_h id).
Definition MdID_UnmarshalBinary (data : list byte) : go MdID unit := λ id,
  let '(r, h) := Hash_UnmarshalBinary data (md_id_h id) in (r, MkMdID h).

(** ** TlfID and BranchID: arrays of 16 bytes *)

Definition TlfID_wf (id : TlfID) : Prop := length (tlf_id id) = TlfIDByteLen.
Definition BranchID_wf (id : BranchID) : Prop := length (branch_id id) = BranchIDByteLen.

(** [copy(dst, src)] for slices: the first [min] bytes are overwritten. *)
Definition copy (dst src : list byte) : list byte :=
  take (length dst) src ++ drop (length src) dst.

Definition TlfID_suffix (id : list byte) : byte := default x00 (id !! (TlfIDByteLen - 1)).

Definition TlfID_String (id : TlfID) : string := EncodeToString (tlf_id id).

Definition TlfID_MarshalBinary (id : TlfID) : res (list byte) :=
  let suffix := TlfID_suffix (tlf_id id) in
  if decide (suffix ≠ TlfIDSuffix ∧ suffix ≠ PubTlfIDSuffix)
  then Err (ErrorString "invalid TlfID") else Ok (tlf_id id).

Definition TlfID_UnmarshalBinary (data : list byte) : go TlfID unit := λ id,
  if decide (length data ≠ TlfIDByteLen) then (Err (ErrorString "invalid TlfID"), id)
  else
    let suffix := TlfID_suffix data in
    if decide (suffix ≠ TlfIDSuffix ∧ suffix ≠ PubTlfIDSuffix)
    then (Err (ErrorString "invalid TlfID"), id)
    else (Ok tt, MkTlfID (copy (tlf_id id) data)).

Definition TlfID_IsPublic (id : TlfID) : bool :=
  bool_decide (TlfID_suffix (tlf_id id) = PubTlfIDSuffix).

Definition ParseTlfID (s : string) : TlfID :=
  if decide (String.length s ≠ TlfIDStringLen) then NullTlfID
  else match DecodeString s with
       | Ok bytes =>
           match TlfID_UnmarshalBinary bytes NullTlfID with
           | (Ok _, id) => id
           | _ => NullTlfID
           end
       | _ => NullTlfID
       end.

Definition BranchID_String (id : BranchID) : string := EncodeToString (branch_id id).
Definition BranchID_MarshalBinary (id : BranchID) : res (list byte) := Ok (branch_id id).
Definition BranchID_UnmarshalBinary (data : list byte) : go BranchID unit := λ id,
  if decide (length data ≠ BranchIDByteLen) then (Err (ErrorString "invalid BranchID"), id)
  else (Ok tt, MkBranchID (copy (branch_id id) data)).

Definition ParseBranchID (s : string) : BranchID :=
  if decide (String.length s ≠ BranchIDStringLen) then NullBranchID
  else match DecodeString s with
       | Ok bytes =>
           match BranchID_UnmarshalBinary bytes NullBranchID with
           | (Ok _, id) => id
           | _ => NullBranchID
           end
       | _ => NullBranchID
       end.

(** ** Validity and construction *)

Lemma Hash_IsValid_spec h :
  Hash_IsValid h = true ↔
  ∃ t d, Hash_Bytes h = t :: d ∧ t ≠ InvalidHash ∧
         MinHashByteLength <= length (t :: d) <= MaxHashByteLength.
Proof.
  unfold Hash_IsValid, Hash_hashType, Hash_Bytes. cbv zeta.
  destruct (bytes_of_string (hash_h h)) as [|t d].
  { split; [by repeat case_decide|by intros (?&?&?&_)]. }
  destruct (decide (_ < _)); [split; [done|intros (?&?&?&_&?); simplify_eq; lia]|].
  destruct (decide (_ < _)); [split; [done|intros (?&?&?&_&?); simplify_eq; lia]|].
  rewrite bool_decide_eq_true. split.
  - intros Ht. exists t, d. split_and!; [done|done|lia|lia].
  - intros (t'&d'&Heq&?&_). by simplify_eq.
Qed.

Lemma Hash_Bytes_inj h1 h2 : Hash_Bytes h1 = Hash_Bytes h2 → h1 = h2.
Proof.
  unfold Hash_Bytes. destruct h1 as [s1], h2 as [s2]; simpl. intros H.
  by rewrite <- (string_of_bytes_of_string s1), H, string_of_bytes_of_string.
Qed.

Lemma Hash_Bytes_MkHash l : Hash_Bytes (MkHash (string_of_bytes l)) = l.
Proof. apply bytes_of_string_of_bytes. Qed.

Lemma MkHash_Hash_Bytes h : MkHash (string_of_bytes (Hash_Bytes h)) = h.
Proof. apply Hash_Bytes_inj, Hash_Bytes_MkHash. Qed.

Lemma HashFromBytes_Ok data h :
  HashFromBytes data = Ok h ↔ data = Hash_Bytes h ∧ Hash_IsValid h = true.
Proof.
  unfold HashFromBytes. cbv zeta.
  destruct (Hash_IsValid (MkHash (string_of_bytes data))) eqn:E; simpl.
  - split; [intros [= <-]; by rewrite Hash_Bytes_MkHash|].
    intros [-> _]. by rewrite MkHash_Hash_Bytes.
  - split; [done|]. intros [-> H]. by rewrite MkHash_Hash_Bytes, H in E.
Qed.

Lemma HashFromRaw_default raw :
  length raw = 32 → ∃ h, HashFromRaw DefaultHashType raw = Ok h
    ∧ Hash_Bytes h = DefaultHashType :: raw ∧ Hash_IsValid h = true.
Proof.
  intros Hlen. exists (MkHash (string_of_bytes (DefaultHashType :: raw))).
  assert (Hash_IsValid (MkHash (string_of_bytes (DefaultHashType :: raw))) = true) as Hv.
  { apply Hash_IsValid_spec. eexists _, _. rewrite Hash_Bytes_MkHash.
    split_and!; [done|done|..]; unfold MinHashByteLength, MaxHashByteLength; simpl; lia. }
  rewrite Hash_Bytes_MkHash. split_and!; [|done|done].
  apply HashFromBytes_Ok. by rewrite Hash_Bytes_MkHash.
Qed.

Lemma DefaultHash_total buf :
  ∃ h, DefaultHash buf = Ok h ∧
    Hash_Bytes h = DefaultHashType :: Sha256.Sum256 buf ∧ Hash_IsValid h = true.
Proof. apply HashFromRaw_default, Sha256.length_Sum256. Qed.

Lemma DefaultHMAC_total key buf :
  ∃ m, DefaultHMAC key buf = Ok m ∧
    Hash_Bytes (hmac_h m) = DefaultHashType :: hmac_sha256 key buf ∧ HMAC_IsValid m = true.
Proof.
  destruct (HashFromRaw_default (hmac_sha256 key buf)) as (h & Hr & Hb & Hv);
    [apply length_hmac_sha256|].
  exists (MkHMAC h). unfold DefaultHMAC. by rewrite Hr.
Qed.

Lemma Hash_hashType_Bytes h t d : Hash_Bytes h = t :: d → Hash_hashType h = Ok t.
Proof. unfold Hash_Bytes, Hash_hashType. by intros ->. Qed.

(** ** Properties *)

(** Binary marshalling of hashes is a partial bijection: a hash
    marshals to [data] exactly when unmarshalling [data], into any
    receiver, succeeds and leaves that hash in the receiver (the zero
    hash corresponds to the empty slice; an invalid hash to nothing). *)
Theorem Hash_marshal_unmarshal h h0 data :
  Hash_MarshalBinary h = Ok data ↔ Hash_UnmarshalBinary data h0 = (Ok tt, h).
Proof.
  unfold Hash_MarshalBinary, Hash_UnmarshalBinary. cbv zeta. split.
  - case_decide as Hz; [by intros [= <-]; rewrite Hz|].
    destruct (Hash_IsValid h) eqn:Hv; simpl; [|done]. intros [= <-].
    change (bytes_of_string (hash_h h)) with (Hash_Bytes h).
    rewrite MkHash_Hash_Bytes, Hv.
    apply Hash_IsValid_spec in Hv as (t & d & -> & _). by rewrite decide_False.
  - case_decide as Hl; [intros [= <-]; destruct data; naive_solver|].
    destruct (Hash_IsValid _) eqn:Hv; simpl; [|done]. intros [= <-].
    rewrite decide_False; [|destruct data; naive_solver].
    rewrite Hv. simpl. by rewrite bytes_of_string_of_bytes.
Qed.

(** Printing and parsing: parsing the printed form of a valid hash
    returns it, and a string that parses is, up to the case of its
    digits, the printed form of the (valid) hash it denotes. *)
Theorem Hash_string_roundtrip h s :
  (Hash_IsValid h = true → HashFromString (Hash_String h) = Ok h) ∧
  (HashFromString s = Ok h → Hash_IsValid h = true ∧ Hash_String h = ToLower_hex s).
Proof.
  unfold HashFromString, Hash_String. split.
  - intros Hv. rewrite DecodeString_EncodeToString. by apply HashFromBytes_Ok.
  - intros (data & Hd & [-> Hv]%HashFromBytes_Ok)%bind_Ok.
    split; [done|]. by apply EncodeToString_DecodeString.
Qed.

(** [Hash.Verify] accepts a buffer exactly when the hash is the default
    hash of that buffer. *)
Lemma Hash_Verify_default h buf :
  Hash_Verify h buf = Ok tt ↔ DefaultHash buf = Ok h.
Proof.
  destruct (DefaultHash_total buf) as (e & He & Hb & Hv).
  unfold Hash_Verify. split.
  - destruct (Hash_IsValid h); simpl; [|done].
    intros (t & _ & Hr)%bind_Ok. case_decide; [done|].
    rewrite He in Hr. simpl in Hr. case_decide as Heq; [done|].
    rewrite He. f_equal. by destruct (decide (h = e)).
  - rewrite He. intros [= ->]. rewrite Hv. simpl.
    rewrite (Hash_hashType_Bytes _ _ _ Hb). simpl.
    by rewrite decide_False by (intros H; by apply H).
Qed.

Lemma HMAC_Verify_default m key buf :
  HMAC_Verify m key buf = Ok tt ↔ DefaultHMAC key buf = Ok m.
Proof.
  destruct (DefaultHMAC_total key buf) as (e & He & Hb & Hv).
  unfold HMAC_Verify. split.
  - destruct (HMAC_IsValid m); simpl; [|done].
    intros (t & _ & Hr)%bind_Ok. case_decide; [done|].
    rewrite He in Hr. simpl in Hr. case_decide as Heq; [done|].
    rewrite He. f_equal. by destruct (decide (m = e)).
  - rewrite He. intros [= ->]. rewrite Hv. simpl.
    rewrite (Hash_hashType_Bytes _ _ _ Hb). simpl.
    by rewrite decide_False by (intros H; by apply H).
Qed.

Lemma copy_full dst src : length dst = length src → copy dst src = src.
Proof.
  intros H. unfold copy. rewrite take_ge, drop_ge by lia. by rewrite app_nil_r.
Qed.

Lemma TlfID_unmarshal_Ok data id id' :
  TlfID_wf id →
  TlfID_UnmarshalBinary data id = (Ok tt, id') ↔
  data = tlf_id id' ∧ TlfID_wf id' ∧ TlfID_MarshalBinary id' = Ok data.
Proof.
  unfold TlfID_UnmarshalBinary, TlfID_MarshalBinary, TlfID_wf. cbv zeta. intros Hid.
  destruct (decide (length data = TlfIDByteLen)) as [Hl|Hl].
  - rewrite (decide_False (P := length data ≠ _)) by naive_solver.
    rewrite copy_full by congruence. case_decide.
    + split; [done|]. intros (-> & _ & H'). by rewrite decide_True in H'.
    + split; [|by intros (-> & _ & _); destruct id'].
      intros [= <-]. simpl. by rewrite decide_False.
  - rewrite (decide_True (P := length data ≠ _)) by done.
    split; [done|]. by intros (-> & H & _).
Qed.

(** Folder ids round-trip through their printed form: a well-formed
    id that can be marshalled parses back from its string, and whatever
    string is given, parsing returns either the null id or a well-formed
    id that can be marshalled and prints as that string in lower case. *)
Theorem TlfID_parse_print id s :
  (TlfID_wf id → is_Ok (TlfID_MarshalBinary id) = true →
    ParseTlfID (TlfID_String id) = id) ∧
  (ParseTlfID s = NullTlfID ∨
   (TlfID_wf (ParseTlfID s) ∧ is_Ok (TlfID_MarshalBinary (ParseTlfID s)) = true ∧
    TlfID_String (ParseTlfID s) = ToLower_hex s)).
Proof.
  assert (TlfID_wf NullTlfID) as Hn by done. split.
  - intros Hwf Hm. unfold ParseTlfID, TlfID_String.
    rewrite decide_False; last first.
    { unfold EncodeToString. rewrite length_string_of_bytes, length_hex_encode, Hwf. auto. }
    rewrite DecodeString_EncodeToString.
    destruct (TlfID_MarshalBinary id) as [data| |] eqn:E; [|done|done].
    assert (data = tlf_id id) as ->.
    { unfold TlfID_MarshalBinary in E. cbv zeta in E. by case_decide; simplify_eq. }
    by rewrite (proj2 (TlfID_unmarshal_Ok _ _ id Hn) (conj eq_refl (conj Hwf E))).
  - unfold ParseTlfID. case_decide; [by left|].
    destruct (DecodeString s) as [bytes| |] eqn:Ed; [|by left|by left].
    destruct (TlfID_UnmarshalBinary bytes NullTlfID) as [[[]| |] id'] eqn:E; [|by left|by left].
    right. apply TlfID_unmarshal_Ok in E as (-> & Hwf & ->); [|done].
    split_and!; [done|done|]. by apply EncodeToString_DecodeString.
Qed.

(** Branch ids round-trip through their printed form and through
    binary marshalling, and a slice of the wrong length leaves the
    receiver of [UnmarshalBinary] unchanged. *)
Theorem BranchID_roundtrip id id0 data :
  BranchID_wf id → BranchID_wf id0 →
  ParseBranchID (BranchID_String id) = id ∧
  BranchID_UnmarshalBinary (branch_id id) id0 = (Ok tt, id) ∧
  (length data ≠ BranchIDByteLen →
    BranchID_UnmarshalBinary data id0 = (Err (ErrorString "invalid BranchID"), id0)).
Proof.
  intros Hwf Hwf0.
  assert (∀ i, BranchID_wf i → BranchID_UnmarshalBinary (branch_id id) i = (Ok tt, id)) as Hu.
  { intros i Hi. unfold BranchID_UnmarshalBinary.
    rewrite decide_False by naive_solver.
    rewrite copy_full by congruence. by destruct id. }
  split_and!; [|by apply Hu|].
  - unfold ParseBranchID, BranchID_String. rewrite decide_False; last first.
    { unfold EncodeToString. rewrite length_string_of_bytes, length_hex_encode, Hwf. auto. }
    rewrite DecodeString_EncodeToString. by rewrite Hu.
  - intros H. unfold BranchID_UnmarshalBinary. by rewrite decide_True.
Qed.

(** ** Witnesses *)

Lemma Hash_string_roundtrip_witness :
  let h := MkHash (string_of_bytes (x01 :: replicate 32 xab)) in
  HashFromString (Hash_String h) = Ok h ∧ Hash_String h = ToLower_hex (Hash_String h).
Proof.
  intros h. destruct (Hash_string_roundtrip h (Hash_String h)) as [H1 H2].
  assert (HashFromString (Hash_String h) = Ok h) as Hp by (apply H1; vm_compute; reflexivity).
  split; [exact Hp|]. by apply H2.
Defined.

Lemma TlfID_parse_print_witness :
  let id := MkTlfID (replicate 15 xab ++ [x16]) in ParseTlfID (TlfID_String id) = id.
Proof.
  intros id. apply (TlfID_parse_print id ""); [vm_compute; reflexivity|vm_compute; reflexivity].
Defined.

Lemma BranchID_roundtrip_witness :
  let id := MkBranchID (replicate 16 xab) in
  ParseBranchID (BranchID_String id) = id ∧
  BranchID_UnmarshalBinary [x01] NullBranchID = (Err (ErrorString "invalid BranchID"), NullBranchID).
Proof.
  intros id. destruct (BranchID_roundtrip id NullBranchID [x01]) as (H1 & _ & H2);
    [vm_compute; reflexivity|vm_compute; reflexivity|].
  split; [exact H1|]. apply H2. vm_compute. discriminate.
Defined.
