(* ===== verification/LeveledMutex.v ===== *)
(** * LeveledMutex: the lock hierarchy ([leveled_mutex.go])

    Every lock has a level, and an execution flow may only take locks of
    increasing levels: its [lockState] is the stack of the locks it holds,
    and taking or releasing a lock out of order panics.  The underlying
    [sync.RWMutex] is a flag and a count; a call of its [Lock] waits until
    it succeeds, so [doLock] is two steps, before and after the wait, and
    the flows of a program interleave between them.

    The theorems: what the stacks say is what the locks are, so the
    assertions mean what they say; and the flows never deadlock. *)

From Stdlib Require Import ZArith Lia Sorted.
From S2P Require Import Prelude Types Errors.

(** ** The state of a flow *)

Definition mutexLevel := Z.
#[global] Instance mutexLevel_eq_dec : EqDecision mutexLevel := Z.eq_dec.

Inductive exclusionType := nonExclusion | writeExclusion | readExclusion.
#[global] Instance exclusionType_eq_dec : EqDecision exclusionType.
Proof. solve_decision. Defined.

Definition prefix (et : exclusionType) : string :=
  match et with nonExclusion => "Un" | writeExclusion => "" | readExclusion => "R" end.

Record exclusionState := MkExclusionState { es_level : mutexLevel; es_exclusionType : exclusionType }.
#[global] Instance exclusionState_eq_dec : EqDecision exclusionState.
Proof. solve_decision. Defined.

(** [ls_busy] is the [exclusiveLock] around the stack, held while a call is
    under way. *)
Record lockState := MkLockState { ls_busy : bool; ls_states : list exclusionState }.

Definition makeLevelState : lockState := MkLockState false [].

Definition currLocked (s : lockState) : option exclusionState := last (ls_states s).

Inductive lockError :=
| levelViolationError (level : mutexLevel) (et : exclusionType) (curr : exclusionState)
| danglingUnlockError (level : mutexLevel) (et : exclusionType)
| mismatchedUnlockError (level : mutexLevel) (et : exclusionType) (curr : exclusionState)
| unexpectedExclusionError (level : mutexLevel) (et : exclusionType)
| unexpectedExclusionTypeError (level : mutexLevel) (expected et : exclusionType)
| unexpectedNonExclusionError (level : mutexLevel).

(** ** The underlying lock *)

Record rwLock := MkRwLock { rw_writer : bool; rw_readers : nat }.
Definition freeLock : rwLock := MkRwLock false 0.

(** [Lock] and [RLock] wait while this is [None]. *)
Definition rw_acquire (et : exclusionType) (l : rwLock) : option rwLock :=
  match et with
  | nonExclusion => None
  | writeExclusion => if rw_writer l || negb (rw_readers l =? 0) then None else Some (MkRwLock true 0)
  | readExclusion => if rw_writer l then None else Some (MkRwLock false (S (rw_readers l)))
  end.

(** [Unlock] and [RUnlock]; releasing a lock that is not held ends the
    program. *)
Definition rw_release (et : exclusionType) (l : rwLock) : option rwLock :=
  match et with
  | nonExclusion => None
  | writeExclusion => if rw_writer l then Some (MkRwLock false (rw_readers l)) else None
  | readExclusion => match rw_readers l with O => None | S n => Some (MkRwLock (rw_writer l) n) end
  end.

(** ** Locking and unlocking *)

Section calls.
Context (levelToString : mutexLevel → string).

Definition lockError_Error (e : lockError) : string :=
  match e with
  | levelViolationError level et curr =>
      "level violation: " +:+ levelToString level +:+ " " +:+ prefix et +:+ "Locked after " +:+
      levelToString (es_level curr) +:+ " " +:+ prefix (es_exclusionType curr) +:+ "Locked"
  | danglingUnlockError level et =>
      levelToString level +:+ " " +:+ prefix et +:+ "Unlocked while already unlocked"
  | mismatchedUnlockError level et curr =>
      prefix et +:+ "Unlock call for " +:+ levelToString level +:+ " doesn't match " +:+
      prefix (es_exclusionType curr) +:+ "Lock call for " +:+ levelToString (es_level curr)
  | unexpectedExclusionError level et => levelToString level +:+ " unexpectedly " +:+ prefix et +:+ "Locked"
  | unexpectedExclusionTypeError level expected et =>
      levelToString level +:+ " unexpectedly not " +:+ prefix expected +:+ "Locked; instead it is " +:+
      prefix et +:+ "Locked"
  | unexpectedNonExclusionError level => levelToString level +:+ " unexpectedly unlocked"
  end.

(** [exclusiveLock.lock], which does not wait. *)
Definition exclusive_lock (s : lockState) : res lockState :=
  if ls_busy s then Panic "unexpected concurrent access" else Ok (MkLockState true (ls_states s)).
Definition exclusive_unlock (s : lockState) : lockState := MkLockState false (ls_states s).

(** [doLock] up to the call of [lock.Lock]: the error it returns, or the
    state in which it waits. *)
Definition doLock_begin (level : mutexLevel) (et : exclusionType) (s : lockState) : res (option lockError * lockState) :=
  s ← exclusive_lock s;
  match currLocked s with
  | Some curr =>
      if decide (level <= es_level curr)%Z
      then Ok (Some (levelViolationError level et curr), exclusive_unlock s)
      else Ok (None, s)
  | None => Ok (None, s)
  end.

(** [doLock] after [lock.Lock] has returned. *)
Definition doLock_end (level : mutexLevel) (et : exclusionType) (s : lockState) : lockState :=
  exclusive_unlock (MkLockState (ls_busy s) (ls_states s ++ [MkExclusionState level et])).

Definition doUnlock (level : mutexLevel) (et : exclusionType) (s : lockState) (l : rwLock)
    : res (option lockError * lockState * rwLock) :=
  s ← exclusive_lock s;
  match currLocked s with
  | None => Ok (Some (danglingUnlockError level et), exclusive_unlock s, l)
  | Some curr =>
      if decide (level ≠ es_level curr ∨ es_exclusionType curr ≠ et)
      then Ok (Some (mismatchedUnlockError level et curr), exclusive_unlock s, l)
      else
        match rw_release et l with
        | None => Panic "sync: unlock of unlocked mutex"
        | Some l => Ok (None, exclusive_unlock (MkLockState (ls_busy s) (removelast (ls_states s))), l)
        end
  end.

(** [getExclusionType]: the stack has increasing levels, so the search can
    stop early. *)
Fixpoint find_level (level : mutexLevel) (l : list exclusionState) : exclusionType :=
  match l with
  | [] => nonExclusion
  | e :: l =>
      if decide (es_level e > level)%Z then nonExclusion
      else if decide (es_level e = level) then es_exclusionType e
      else find_level level l
  end.
Definition getExclusionType (level : mutexLevel) (s : lockState) : res exclusionType :=
  s ← exclusive_lock s; Ok (find_level level (ls_states s)).

(** The methods panic with the error. *)
Definition panic_with (e : lockError) : res unit := Panic (lockError_Error e).

Definition AssertUnlocked (level : mutexLevel) (s : lockState) : res unit :=
  et ← getExclusionType level s;
  if decide (et ≠ nonExclusion) then panic_with (unexpectedExclusionError level et) else Ok tt.
Definition AssertLocked (level : mutexLevel) (s : lockState) : res unit :=
  et ← getExclusionType level s;
  if decide (et ≠ writeExclusion) then panic_with (unexpectedExclusionTypeError level writeExclusion et) else Ok tt.
Definition AssertRLocked (level : mutexLevel) (s : lockState) : res unit :=
  et ← getExclusionType level s;
  if decide (et ≠ readExclusion) then panic_with (unexpectedExclusionTypeError level readExclusion et) else Ok tt.
Definition AssertAnyLocked (level : mutexLevel) (s : lockState) : res unit :=
  et ← getExclusionType level s;
  if decide (et = nonExclusion) then panic_with (unexpectedNonExclusionError level) else Ok tt.
End calls.

(** ** The methods *)

Section methods.
Context (levelToString : mutexLevel → string).

(** [Lock] and [RLock]: the error becomes a panic. *)
Definition Lock_begin (level : mutexLevel) (et : exclusionType) (s : lockState) : res lockState :=
  '(e, s) ← doLock_begin level et s;
  match e with Some e => Panic (lockError_Error levelToString e) | None => Ok s end.

Definition Unlock (level : mutexLevel) (et : exclusionType) (s : lockState) (l : rwLock) : res (lockState * rwLock) :=
  '(e, s, l) ← doUnlock level et s l;
  match e with Some e => Panic (lockError_Error levelToString e) | None => Ok (s, l) end.

(** ** The flows of a program

    A flow that waits for a lock has called [Lock] or [RLock] and has not
    returned.  The levels are unique: a lock is known by its level. *)

Record flow := MkFlow { fl_state : lockState; fl_wait : option (mutexLevel * exclusionType) }.
Record system := MkSystem { sys_flows : list flow; sys_locks : gmap mutexLevel rwLock }.

Definition lock_of (level : mutexLevel) (sys : system) : rwLock := default freeLock (sys_locks sys !! level).
Definition set_flow (i : nat) (f : flow) (sys : system) : system := MkSystem (<[i := f]> (sys_flows sys)) (sys_locks sys).
Definition set_lock (level : mutexLevel) (l : rwLock) (sys : system) : system :=
  MkSystem (sys_flows sys) (<[level := l]> (sys_locks sys)).

Inductive step : system → system → Prop :=
| step_start sys :
    step sys (MkSystem (sys_flows sys ++ [MkFlow makeLevelState None]) (sys_locks sys))
| step_request sys i f level et s' :
    sys_flows sys !! i = Some f → fl_wait f = None → et ≠ nonExclusion →
    Lock_begin level et (fl_state f) = Ok s' →
    step sys (set_flow i (MkFlow s' (Some (level, et))) sys)
| step_acquire sys i f level et l' :
    sys_flows sys !! i = Some f → fl_wait f = Some (level, et) →
    rw_acquire et (lock_of level sys) = Some l' →
    step sys (set_lock level l' (set_flow i (MkFlow (doLock_end level et (fl_state f)) None) sys))
| step_unlock sys i f level et s' l' :
    sys_flows sys !! i = Some f → fl_wait f = None → et ≠ nonExclusion →
    Unlock level et (fl_state f) (lock_of level sys) = Ok (s', l') →
    step sys (set_lock level l' (set_flow i (MkFlow s' None) sys)).

Definition start_system : system := MkSystem [] ∅.

(** ** The invariant *)

Definition holds_lock (level : mutexLevel) (et : exclusionType) (f : flow) : nat :=
  length (filter (λ e, e = MkExclusionState level et) (ls_states (fl_state f))).
Definition holders (level : mutexLevel) (et : exclusionType) (sys : system) : nat :=
  sum_list_with (holds_lock level et) (sys_flows sys).

Definition lt_level (a b : exclusionState) : Prop := (es_level a < es_level b)%Z.

Record flow_ok (f : flow) : Prop := {
  fo_sorted : StronglySorted lt_level (ls_states (fl_state f));
  fo_types : Forall (λ e, es_exclusionType e ≠ nonExclusion) (ls_states (fl_state f));
  fo_busy : ls_busy (fl_state f) = true ↔ is_Some (fl_wait f);
  fo_wait level et : fl_wait f = Some (level, et) →
    et ≠ nonExclusion ∧ Forall (λ e, es_level e < level)%Z (ls_states (fl_state f))
}.

Record lock_ok (sys : system) (level : mutexLevel) : Prop := {
  lo_writer : holders level writeExclusion sys = Nat.b2n (rw_writer (lock_of level sys));
  lo_readers : holders level readExclusion sys = rw_readers (lock_of level sys);
  lo_excl : rw_writer (lock_of level sys) = true → rw_readers (lock_of level sys) = 0
}.

Definition sys_ok (sys : system) : Prop := Forall flow_ok (sys_flows sys) ∧ ∀ level, lock_ok sys level.

(** *** Lists *)

Lemma last_removelast {A} (l : list A) e : last l = Some e → l = removelast l ++ [e].
Proof.
  intros (l' & ->)%last_Some. by rewrite removelast_last.
Qed.

Lemma sorted_snoc l e : StronglySorted lt_level (l ++ [e]) ↔ StronglySorted lt_level l ∧ Forall (λ x, lt_level x e) l.
Proof.
  induction l as [|x l IH]; simpl.
  { split; [intros _; split; constructor|intros _; repeat constructor]. }
  split.
  - inversion_clear 1 as [|? ? Hs Hall]. apply IH in Hs as [Hs He]. apply Forall_app in Hall as [Hl Hxe].
    inversion_clear Hxe. split; constructor; assumption.
  - intros [Hs He]. inversion_clear Hs. inversion_clear He. constructor; [by apply IH|].
    apply Forall_app. split; [done|]. by constructor.
Qed.

Lemma sum_insert {A} (g : A → nat) (l : list A) i x y :
  l !! i = Some x → sum_list_with g (<[i := y]> l) + g x = sum_list_with g l + g y.
Proof.
  revert i. induction l as [|z l IH]; intros [|i]; simpl; try done; [intros [= ->]; lia|].
  intros Hi. specialize (IH i Hi). lia.
Qed.

Lemma sum_member {A} (g : A → nat) (l : list A) i x : l !! i = Some x → g x <= sum_list_with g l.
Proof.
  revert i. induction l as [|z l IH]; intros [|i]; simpl; try done; [intros [= ->]; lia|].
  intros Hi. specialize (IH i Hi). lia.
Qed.

Lemma sum_positive {A} (g : A → nat) (l : list A) : 0 < sum_list_with g l → ∃ i x, l !! i = Some x ∧ 0 < g x.
Proof.
  induction l as [|z l IH]; simpl; [lia|]. intros Hs. destruct (decide (0 < g z)) as [Hz|Hz].
  - by exists 0, z.
  - destruct IH as (i & x & Hi & Hx); [lia|]. by exists (S i), x.
Qed.

Lemma sum_two {A} (g : A → nat) (l : list A) i j x y :
  i ≠ j → l !! i = Some x → l !! j = Some y → g x + g y <= sum_list_with g l.
Proof.
  revert i j. induction l as [|z l IH]; intros [|i] [|j] Hij; simpl; try done.
  - intros [= ->] Hj. pose proof (sum_member g l j y Hj). lia.
  - intros Hi [= ->]. pose proof (sum_member g l i x Hi). lia.
  - intros Hi Hj. specialize (IH i j ltac:(congruence) Hi Hj). lia.
Qed.

Lemma highest_wait (flows : list flow) : (∃ i f, flows !! i = Some f ∧ is_Some (fl_wait f)) →
  ∃ i f level et, flows !! i = Some f ∧ fl_wait f = Some (level, et) ∧
    ∀ j g level' et', flows !! j = Some g → fl_wait g = Some (level', et') → (level' <= level)%Z.
Proof.
  induction flows as [|f flows IH]; [by intros (i & g & Hi & _)|]. intros Hex.
  destruct (decide (Exists (λ g, is_Some (fl_wait g)) flows)) as [Hrest|Hrest].
  - destruct IH as (i & g & level & et & Hi & Hw & Hmax).
    { apply Exists_exists in Hrest as (g & (i & Hi)%list_elem_of_lookup & Hg). by exists i, g. }
    destruct (fl_wait f) as [[lf ef]|] eqn:Ef.
    + destruct (decide (level <= lf)%Z) as [Hle|Hgt].
      * exists 0, f, lf, ef. split; [done|]. split; [done|]. intros [|j] g' l' e' Hj Hg'; simpl in Hj.
        { simplify_eq. lia. } { etrans; [by eapply Hmax|done]. }
      * exists (S i), g, level, et. split; [done|]. split; [done|]. intros [|j] g' l' e' Hj Hg'; simpl in Hj.
        { simplify_eq. lia. } { by eapply Hmax. }
    + exists (S i), g, level, et. split; [done|]. split; [done|].
      intros [|j] g' l' e' Hj Hg'; simpl in Hj; [congruence|by eapply Hmax].
  - destruct Hex as ([|i] & g & Hi & [[lf ef] Hg]); simpl in Hi.
    + simplify_eq. exists 0, g, lf, ef. split; [done|]. split; [done|].
      intros [|j] g' l' e' Hj Hg'; simpl in Hj; [simplify_eq; lia|].
      destruct Hrest. apply Exists_exists. exists g'. split; [by eapply list_elem_of_lookup_2|by rewrite Hg'].
    + destruct Hrest. apply Exists_exists. exists g. split; [by eapply list_elem_of_lookup_2|by rewrite Hg].
Qed.

(** *** The steps *)

Lemma holds_states lv et f g : ls_states (fl_state f) = ls_states (fl_state g) → holds_lock lv et f = holds_lock lv et g.
Proof. unfold holds_lock. by intros ->. Qed.

Lemma holds_snoc lv et f g e : ls_states (fl_state f) = ls_states (fl_state g) ++ [e] →
  holds_lock lv et f = holds_lock lv et g + (if decide (e = MkExclusionState lv et) then 1 else 0).
Proof.
  unfold holds_lock. intros ->. rewrite filter_app, length_app, filter_cons. by case_decide.
Qed.

Lemma holders_set lv et i f f' sys : sys_flows sys !! i = Some f →
  holders lv et (set_flow i f' sys) + holds_lock lv et f = holders lv et sys + holds_lock lv et f'.
Proof. apply sum_insert. Qed.

Lemma lock_of_set lv level l sys : lock_of lv (set_lock level l sys) = if decide (lv = level) then l else lock_of lv sys.
Proof.
  unfold lock_of. simpl. case_decide as Hlv; [subst; by rewrite lookup_insert_eq|by rewrite lookup_insert_ne].
Qed.

Lemma Lock_begin_Ok level et s s' : Lock_begin level et s = Ok s' →
  ls_busy s = false ∧ s' = MkLockState true (ls_states s) ∧
  (∀ c, last (ls_states s) = Some c → (es_level c < level)%Z).
Proof.
  unfold Lock_begin, doLock_begin, exclusive_lock, currLocked. destruct (ls_busy s); [done|]. simpl.
  destruct (last (ls_states s)) as [c|]; [case_decide as Hle; [done|]|]; simpl; intros [= <-]; [|done].
  split; [done|]. split; [done|]. intros c' [= <-]. lia.
Qed.

Lemma Unlock_Ok level et s l s' l' : Unlock level et s l = Ok (s', l') →
  ls_busy s = false ∧ last (ls_states s) = Some (MkExclusionState level et) ∧
  rw_release et l = Some l' ∧ s' = MkLockState false (removelast (ls_states s)).
Proof.
  unfold Unlock, doUnlock, exclusive_lock, currLocked. destruct (ls_busy s); [done|]. simpl.
  destruct (last (ls_states s)) as [[cl ce]|]; [|done]. case_decide as Hm; [done|]. simpl in Hm.
  destruct (rw_release et l) as [l0|]; [|done]. simpl. intros [= <- <-].
  destruct (decide (cl = level)) as [->|]; [|by destruct Hm; left].
  destruct (decide (ce = et)) as [->|]; [done|by destruct Hm; right].
Qed.

Lemma below_level f level : flow_ok f → (∀ c, last (ls_states (fl_state f)) = Some c → (es_level c < level)%Z) →
  Forall (λ e, es_level e < level)%Z (ls_states (fl_state f)).
Proof.
  intros Hf Hlast. destruct (last (ls_states (fl_state f))) as [c|] eqn:Ec.
  - pose proof (fo_sorted f Hf) as Hs. specialize (Hlast c eq_refl). rewrite (last_removelast _ _ Ec) in Hs |- *.
    apply sorted_snoc in Hs as [_ Hall]. apply Forall_app. split; [|by repeat constructor].
    eapply Forall_impl; [exact Hall|]. unfold lt_level. intros e He. lia.
  - apply last_None in Ec as ->. constructor.
Qed.

Lemma lock_ok_ext sys sys' lv : (∀ et, holders lv et sys' = holders lv et sys) → lock_of lv sys' = lock_of lv sys →
  lock_ok sys lv → lock_ok sys' lv.
Proof. intros Hh Hl [Hw Hr He]. split; by rewrite ?Hh, ?Hl. Qed.

(** One flow changes, and one lock. *)
Lemma sys_ok_set sys i f f' level l' :
  sys_ok sys → sys_flows sys !! i = Some f → flow_ok f' →
  (∀ lv et, lv ≠ level → holds_lock lv et f' = holds_lock lv et f) →
  lock_ok (set_lock level l' (set_flow i f' sys)) level →
  sys_ok (set_lock level l' (set_flow i f' sys)).
Proof.
  intros [Hfl Hlk] Hi Hf' Hsame Hlevel. split; [by apply Forall_insert|]. intros lv.
  destruct (decide (lv = level)) as [->|Hlv]; [done|].
  eapply lock_ok_ext; [| |exact (Hlk lv)].
  - intros et. pose proof (holders_set lv et i f f' sys Hi) as Hset. specialize (Hsame lv et Hlv).
    change (holders lv et (set_lock level l' (set_flow i f' sys))) with (holders lv et (set_flow i f' sys)). lia.
  - rewrite lock_of_set. by rewrite decide_False.
Qed.

Lemma acquire_lock_ok sys i f level et l' :
  lock_ok sys level → sys_flows sys !! i = Some f → rw_acquire et (lock_of level sys) = Some l' →
  lock_ok (set_lock level l' (set_flow i (MkFlow (doLock_end level et (fl_state f)) None) sys)) level.
Proof.
  intros [Hw Hr He] Hi Hacq. set (f' := MkFlow _ _).
  assert (∀ et', holders level et' (set_flow i f' sys) =
    holders level et' sys + (if decide (et = et') then 1 else 0)) as Hh.
  { intros et'. pose proof (holders_set level et' i f f' sys Hi) as Hset.
    rewrite (holds_snoc level et' f' f (MkExclusionState level et) eq_refl) in Hset.
    destruct (decide (et = et')) as [->|Hne]; [rewrite decide_True in Hset by done; lia|].
    rewrite decide_False in Hset by congruence. lia. }
  assert (∀ et', holders level et' (set_lock level l' (set_flow i f' sys)) = holders level et' (set_flow i f' sys)) as Hsl by done.
  pose proof (Hh writeExclusion) as Hhw. pose proof (Hh readExclusion) as Hhr. rewrite Hw in Hhw. rewrite Hr in Hhr.
  clearbody f'. destruct et; simpl in Hacq; [done| |].
  - destruct (rw_writer (lock_of level sys)) eqn:E; [done|]. destruct (rw_readers (lock_of level sys)) eqn:E'; [|done].
    injection Hacq as <-. simpl in Hhw, Hhr.
    split; rewrite ?Hsl, lock_of_set, decide_True by done; simpl; [lia|lia|done].
  - destruct (rw_writer (lock_of level sys)) eqn:E; [done|]. injection Hacq as <-. simpl in Hhw, Hhr.
    split; rewrite ?Hsl, lock_of_set, decide_True by done; simpl; [lia|lia|done].
Qed.

Lemma release_lock_ok sys i f f' level et l' :
  lock_ok sys level → sys_flows sys !! i = Some f →
  ls_states (fl_state f) = ls_states (fl_state f') ++ [MkExclusionState level et] →
  rw_release et (lock_of level sys) = Some l' →
  lock_ok (set_lock level l' (set_flow i f' sys)) level.
Proof.
  intros [Hw Hr He] Hi Hst Hrel.
  assert (∀ et', holders level et' (set_flow i f' sys) + (if decide (et = et') then 1 else 0) =
    holders level et' sys) as Hh.
  { intros et'. pose proof (holders_set level et' i f f' sys Hi) as Hset.
    rewrite (holds_snoc level et' f f' (MkExclusionState level et) Hst) in Hset.
    destruct (decide (et = et')) as [->|Hne]; [rewrite decide_True in Hset by done; lia|].
    rewrite decide_False in Hset by congruence. lia. }
  pose proof (Hh writeExclusion) as Hhw. pose proof (Hh readExclusion) as Hhr. rewrite Hw in Hhw. rewrite Hr in Hhr.
  assert (∀ et', holders level et' (set_lock level l' (set_flow i f' sys)) = holders level et' (set_flow i f' sys)) as Hsl by done.
  destruct et; simpl in Hrel; [done| |].
  - destruct (rw_writer (lock_of level sys)) eqn:E; [|done]. injection Hrel as <-. simpl in Hhw, Hhr.
    split; rewrite ?Hsl, lock_of_set, decide_True by done; simpl; [lia|lia|done].
  - destruct (rw_readers (lock_of level sys)) as [|n] eqn:E; [done|]. injection Hrel as <-. simpl in Hhw, Hhr.
    split; rewrite ?Hsl, lock_of_set, decide_True by done; simpl; [lia|lia|].
    intros Hwr. specialize (He Hwr). lia.
Qed.

Lemma flow_ok_held f lv et : holds_lock lv et f = 0 ↔ MkExclusionState lv et ∉ ls_states (fl_state f).
Proof.
  unfold holds_lock. rewrite length_zero_iff_nil. split.
  - intros Hnil Hin. assert (MkExclusionState lv et ∈ filter (λ e, e = MkExclusionState lv et) (ls_states (fl_state f))) as Hf
      by (by apply list_elem_of_filter). rewrite Hnil in Hf. by apply elem_of_nil in Hf.
  - intros Hnin. destruct (filter _ _) as [|e l] eqn:E; [done|].
    assert (e ∈ filter (λ e, e = MkExclusionState lv et) (ls_states (fl_state f))) as [-> Hin]%list_elem_of_filter
      by (rewrite E; by left). done.
Qed.

Lemma step_ok sys sys' : step sys sys' → sys_ok sys → sys_ok sys'.
Proof.
  intros Hstep Hok. pose proof Hok as [Hfl Hlk]. destruct Hstep as [sys|sys i f level et s' Hi Hw Het Hb
    |sys i f level et l' Hi Hw Hacq|sys i f level et s' l' Hi Hw Het Hu].
  - split.
    + apply Forall_app. split; [done|]. repeat constructor; simpl; done.
    + intros lv. eapply lock_ok_ext; [| |exact (Hlk lv)]; [|done].
      intros et. unfold holders. simpl. rewrite sum_list_with_app. simpl. by rewrite Nat.add_0_r.
  - apply Lock_begin_Ok in Hb as (Hbusy & -> & Hlast).
    pose proof (Forall_lookup_1 _ _ _ _ Hfl Hi) as Hf. split.
    + apply Forall_insert; [done|]. destruct (Hf) as [Hs Ht _ _]. split; simpl; [done|done|by split|].
      intros level' et' [= <- <-]. split; [done|]. by apply below_level.
    + intros lv. eapply lock_ok_ext; [| |exact (Hlk lv)]; [|done].
      set (f' := MkFlow _ _). intros et'. pose proof (holders_set lv et' i f f' sys Hi) as Hset.
      rewrite (holds_states lv et' f' f eq_refl) in Hset. lia.
  - pose proof (Forall_lookup_1 _ _ _ _ Hfl Hi) as Hf. destruct (fo_wait f Hf level et Hw) as [Het Hbelow].
    apply (sys_ok_set sys i f); [done|done| | |by apply acquire_lock_ok].
    + destruct Hf as [Hs Ht _ _]. split; simpl; [by apply sorted_snoc|by apply Forall_app; split; [|repeat constructor]|by split|done].
    + intros lv et' Hlv. rewrite (holds_snoc lv et' (MkFlow (doLock_end level et (fl_state f)) None) f _ eq_refl).
      rewrite decide_False by congruence. lia.
  - apply Unlock_Ok in Hu as (Hbusy & Hlast & Hrel & ->). apply last_removelast in Hlast.
    pose proof (Forall_lookup_1 _ _ _ _ Hfl Hi) as Hf.
    apply (sys_ok_set sys i f); [done|done| | |by eapply release_lock_ok].
    + destruct Hf as [Hs Ht _ _]. rewrite Hlast in Hs, Ht. apply sorted_snoc in Hs as [Hs _]. apply Forall_app in Ht as [Ht _].
      split; simpl; [done|done|by split|done].
    + intros lv et' Hlv.
      rewrite (holds_snoc lv et' f (MkFlow (MkLockState false (removelast (ls_states (fl_state f)))) None) _ Hlast).
      rewrite decide_False by congruence. lia.
Qed.

Lemma reachable_ok sys : rtc step start_system sys → sys_ok sys.
Proof.
  apply (rtc_ind_r (λ s, sys_ok s)).
  - split; [constructor|]. intros lv. by split.
  - intros s s' _ Hs Hok. by eapply step_ok.
Qed.

Lemma find_level_spec level et l : StronglySorted lt_level l → et ≠ nonExclusion →
  find_level level l = et ↔ MkExclusionState level et ∈ l.
Proof.
  intros Hs Het. induction Hs as [|[cl ce] l Hs IH Hall]; simpl.
  { split; [congruence|]. by intros ?%elem_of_nil. }
  assert (∀ e, e ∈ l → (cl < es_level e)%Z) as Hlt by (by apply Forall_forall).
  rewrite elem_of_cons. case_decide as Hgt; [|case_decide as Heq].
  - split; [congruence|]. intros [[= -> ->]|Hin%Hlt]; simpl in *; lia.
  - subst cl. split; [intros ->; by left|]. intros [[= ->]|Hin%Hlt]; [done|]. simpl in Hin. lia.
  - rewrite IH. split; [by right|]. intros [[= -> ->]|Hin]; [done|done].
Qed.

(** *** Assertions *)

Lemma getExclusionType_idle level f : flow_ok f → fl_wait f = None →
  getExclusionType level (fl_state f) = Ok (find_level level (ls_states (fl_state f))).
Proof.
  intros Hf Hw. unfold getExclusionType, exclusive_lock. destruct (ls_busy (fl_state f)) eqn:Eb; [|done].
  apply (fo_busy f Hf) in Eb as [? ?]. congruence.
Qed.

Lemma AssertLocked_iff f level : flow_ok f → fl_wait f = None →
  AssertLocked levelToString level (fl_state f) = Ok tt ↔ MkExclusionState level writeExclusion ∈ ls_states (fl_state f).
Proof.
  intros Hf Hw. rewrite <- find_level_spec by (done || apply Hf). unfold AssertLocked.
  rewrite getExclusionType_idle by done. simpl. case_decide; naive_solver.
Qed.

Lemma AssertRLocked_iff f level : flow_ok f → fl_wait f = None →
  AssertRLocked levelToString level (fl_state f) = Ok tt ↔ MkExclusionState level readExclusion ∈ ls_states (fl_state f).
Proof.
  intros Hf Hw. rewrite <- find_level_spec by (done || apply Hf). unfold AssertRLocked.
  rewrite getExclusionType_idle by done. simpl. case_decide; naive_solver.
Qed.

Lemma writer_alone sys level i j f g et : lock_ok sys level → i ≠ j →
  sys_flows sys !! i = Some f → sys_flows sys !! j = Some g →
  MkExclusionState level writeExclusion ∈ ls_states (fl_state f) → et ≠ nonExclusion →
  MkExclusionState level et ∉ ls_states (fl_state g).
Proof.
  intros [Hw Hr He] Hij Hi Hj Hin Het. apply flow_ok_held.
  assert (holds_lock level writeExclusion f ≠ 0) as Hpos by (intros ?%flow_ok_held; done).
  pose proof (sum_two (holds_lock level writeExclusion) _ i j f g Hij Hi Hj) as H2.
  pose proof (sum_member (holds_lock level readExclusion) _ j g Hj) as H1.
  change (sum_list_with _ _) with (holders level writeExclusion sys) in H2.
  change (sum_list_with _ _) with (holders level readExclusion sys) in H1.
  destruct (rw_writer (lock_of level sys)); simpl in Hw; [|lia].
  specialize (He eq_refl). destruct et; [done|lia|lia].
Qed.

(** The lock assertions of a flow mean what they say, whatever the flows
    of the program do and however they interleave: [AssertLocked] passes
    exactly when the flow holds the lock for writing, and then no other flow
    holds it at all; [AssertRLocked] passes exactly when it holds the lock
    for reading, and then no other flow holds it for writing; and releasing
    the lock that was taken last never fails. *)
Theorem lock_assertions_sound sys i f level :
  rtc step start_system sys → sys_flows sys !! i = Some f → fl_wait f = None →
  let stack := ls_states (fl_state f) in
  let others_free et := ∀ j g, i ≠ j → sys_flows sys !! j = Some g → MkExclusionState level et ∉ ls_states (fl_state g) in
  (AssertLocked levelToString level (fl_state f) = Ok tt ↔ MkExclusionState level writeExclusion ∈ stack) ∧
  (AssertLocked levelToString level (fl_state f) = Ok tt → others_free writeExclusion ∧ others_free readExclusion) ∧
  (AssertRLocked levelToString level (fl_state f) = Ok tt ↔ MkExclusionState level readExclusion ∈ stack) ∧
  (AssertRLocked levelToString level (fl_state f) = Ok tt → others_free writeExclusion) ∧
  (∀ et, last stack = Some (MkExclusionState level et) →
    ∃ l', Unlock level et (fl_state f) (lock_of level sys) = Ok (MkLockState false (removelast stack), l')).
Proof.
  intros [Hfl Hlk]%reachable_ok Hi Hw. pose proof (Forall_lookup_1 _ _ _ _ Hfl Hi) as Hf. cbv zeta.
  split; [by apply AssertLocked_iff|]. split; [|split; [by apply AssertRLocked_iff|split]].
  - intros Ha%AssertLocked_iff; [|done..]. split; intros j g Hij Hj; by eapply writer_alone.
  - intros Ha%AssertRLocked_iff; [|done..]. intros j g Hij Hj Hin.
    exact (writer_alone sys level j i g f readExclusion (Hlk level) (not_eq_sym Hij) Hj Hi Hin ltac:(done) Ha).
  - intros et Hlast. destruct (ls_busy (fl_state f)) eqn:Eb; [apply (fo_busy f Hf) in Eb as [? ?]; congruence|].
    unfold Unlock, doUnlock, exclusive_lock, currLocked. rewrite Eb. simpl. rewrite Hlast. simpl.
    rewrite decide_False by naive_solver.
    assert (MkExclusionState level et ∈ ls_states (fl_state f)) as Hin.
    { rewrite (last_removelast _ _ Hlast). apply elem_of_app. right. by apply list_elem_of_singleton. }
    pose proof (sum_member (holds_lock level et) _ i f Hi) as Hsum. destruct (Hlk level) as [Hwr Hrd He].
    assert (holds_lock level et f ≠ 0) as Hpos by (intros ?%flow_ok_held; done).
    change (sum_list_with _ _) with (holders level et sys) in Hsum.
    pose proof (fo_types f Hf) as Ht. rewrite Forall_forall in Ht. specialize (Ht _ Hin). simpl in Ht.
    destruct et; simpl; [done| |].
    + destruct (rw_writer (lock_of level sys)); simpl in Hwr; [by eexists|lia].
    + destruct (rw_readers (lock_of level sys)); [lia|by eexists].
Qed.

(** ** No deadlock *)

(** [i] waits for a lock that [j] holds, or that [j] waits for as a writer
    ([sync.RWMutex] lets a waiting writer go before new readers). *)
Definition waits_for (sys : system) (i j : nat) : Prop :=
  ∃ f g level et, sys_flows sys !! i = Some f ∧ sys_flows sys !! j = Some g ∧ fl_wait f = Some (level, et) ∧
    ((∃ et', MkExclusionState level et' ∈ ls_states (fl_state g)) ∨
     (et = readExclusion ∧ fl_wait g = Some (level, writeExclusion))).

(** The flow gets the lock it waits for, even if readers let writers go
    first. *)
Definition can_acquire (sys : system) (i : nat) : Prop :=
  ∃ f level et l', sys_flows sys !! i = Some f ∧ fl_wait f = Some (level, et) ∧
    rw_acquire et (lock_of level sys) = Some l' ∧
    (et = readExclusion → ∀ j g, sys_flows sys !! j = Some g → fl_wait g ≠ Some (level, writeExclusion)).

Definition is_running (sys : system) (i : nat) : Prop := ∃ f, sys_flows sys !! i = Some f ∧ fl_wait f = None.

Lemma blocked_holder sys level et : lock_ok sys level → et ≠ nonExclusion →
  rw_acquire et (lock_of level sys) = None →
  ∃ j g et', sys_flows sys !! j = Some g ∧ MkExclusionState level et' ∈ ls_states (fl_state g).
Proof.
  intros [Hw Hr He] Het Hacq.
  assert (∃ et', 0 < holders level et' sys) as (et' & Hpos).
  { destruct et; simpl in Hacq; [done| |].
    - destruct (rw_writer (lock_of level sys)) eqn:E; [exists writeExclusion; rewrite Hw; simpl; lia|].
      destruct (rw_readers (lock_of level sys)) as [|n] eqn:E'; [done|]. exists readExclusion. lia.
    - destruct (rw_writer (lock_of level sys)) eqn:E; [exists writeExclusion; rewrite Hw; simpl; lia|done]. }
  apply sum_positive in Hpos as (j & g & Hj & Hg). exists j, g, et'. split; [done|].
  destruct (decide (MkExclusionState level et' ∈ ls_states (fl_state g))) as [|Hn]; [done|].
  apply flow_ok_held in Hn. lia.
Qed.

(** What a flow that waits is about to wait for: higher levels, and readers
    after writers. *)
Definition wait_rank (top : mutexLevel) (level : mutexLevel) (et : exclusionType) : nat :=
  2 * Z.to_nat (top - level) + (if decide (et = readExclusion) then 1 else 0).

Lemma wait_chain sys top : sys_ok sys →
  (∀ j g level et, sys_flows sys !! j = Some g → fl_wait g = Some (level, et) → (level <= top)%Z) →
  ∀ n i f level et, wait_rank top level et < n → sys_flows sys !! i = Some f → fl_wait f = Some (level, et) →
  ∃ j, rtc (waits_for sys) i j ∧ (is_running sys j ∨ can_acquire sys j).
Proof.
  intros [Hfl Hlk] Htop. induction n as [|n IH]; intros i f level et Hn Hi Hw; [lia|].
  pose proof (Forall_lookup_1 _ _ _ _ Hfl Hi) as Hf. destruct (fo_wait f Hf level et Hw) as [Het Hbelow].
  destruct (rw_acquire et (lock_of level sys)) as [l'|] eqn:Eacq.
  - destruct (decide (et = readExclusion ∧ Exists (λ g, fl_wait g = Some (level, writeExclusion)) (sys_flows sys)))
      as [[-> (g & [j Hj]%list_elem_of_lookup & Hg)%Exists_exists]|Hno].
    + destruct (IH j g level writeExclusion) as (k & Hk & Hend); [|done|done|].
      { unfold wait_rank in *. simpl in *. lia. }
      exists k. split; [|done]. eapply rtc_l; [|exact Hk]. exists f, g, level, readExclusion. naive_solver.
    + exists i. split; [done|]. right. exists f, level, et, l'. split; [done|]. split; [done|]. split; [done|].
      intros -> j g Hj Hg. apply Hno. split; [done|]. apply Exists_exists. exists g.
      split; [by eapply list_elem_of_lookup_2|done].
  - destruct (blocked_holder sys level et (Hlk level) Het Eacq) as (j & g & et' & Hj & Hg).
    assert (waits_for sys i j) as Hij by (exists f, g, level, et; naive_solver).
    destruct (fl_wait g) as [[level' etg]|] eqn:Eg.
    + pose proof (Forall_lookup_1 _ _ _ _ Hfl Hj) as Hgok. destruct (fo_wait g Hgok level' etg Eg) as [_ Hb].
      rewrite Forall_forall in Hb. specialize (Hb _ Hg). simpl in Hb.
      pose proof (Htop j g level' etg Hj Eg) as Ht.
      destruct (IH j g level' etg) as (k & Hk & Hend); [|done|done|].
      { unfold wait_rank in *. repeat case_decide; lia. }
      exists k. split; [by eapply rtc_l|done].
    + exists j. split; [by eapply rtc_once|]. left. by exists g.
Qed.

(** C29. No deadlock: whatever the flows of a program have done, a flow that
    waits for a lock waits, through the flows that hold the locks, for a
    flow that is running, or one that gets its lock now, even when waiting
    writers go before readers. *)
Theorem lock_hierarchy_no_deadlock sys i f :
  rtc step start_system sys → sys_flows sys !! i = Some f → is_Some (fl_wait f) →
  ∃ j, rtc (waits_for sys) i j ∧ (is_running sys j ∨ can_acquire sys j).
Proof.
  intros Hok%reachable_ok Hi [[level et] Hw].
  destruct (highest_wait (sys_flows sys)) as (k & g & top & et' & _ & _ & Htop).
  { exists i, f. by rewrite Hw. }
  exact (wait_chain sys top Hok Htop _ i f level et (Nat.lt_succ_diag_r _) Hi Hw).
Qed.
End methods.

(** ** The locks of a folder ([folder_branch_ops.go]) *)

Definition fboMDWriter : mutexLevel := 1%Z.
Definition fboHead : mutexLevel := 2%Z.
Definition fboBlock : mutexLevel := 3%Z.

(** The number of an invalid level is left out. *)
Definition fboMutexLevelToString (o : mutexLevel) : string :=
  if decide (o = fboMDWriter) then "mdWriterLock"
  else if decide (o = fboHead) then "headLock"
  else if decide (o = fboBlock) then "blockLock"
  else "Invalid fboMutexLevel".

(** A writer of the metadata waits for the blocks, which a reader has. *)
Definition ex_flow_writer : flow :=
  MkFlow (MkLockState true [MkExclusionState fboMDWriter writeExclusion]) (Some (fboBlock, writeExclusion)).
Definition ex_flow_reader : flow := MkFlow (MkLockState false [MkExclusionState fboBlock readExclusion]) None.
Definition ex_locks : system :=
  MkSystem [ex_flow_writer; ex_flow_reader]
    (<[fboBlock := MkRwLock false 1]> (<[fboMDWriter := MkRwLock true 0]> ∅)).

Lemma ex_locks_reachable : rtc (step fboMutexLevelToString) start_system ex_locks.
Proof.
  eapply rtc_l; [apply step_start|]. eapply rtc_l; [apply step_start|].
  eapply rtc_l; [by eapply (step_request _ _ 0 _ fboMDWriter writeExclusion)|].
  eapply rtc_l; [by eapply (step_acquire _ _ 0 _ fboMDWriter writeExclusion)|].
  eapply rtc_l; [by eapply (step_request _ _ 1 _ fboBlock readExclusion)|].
  eapply rtc_l; [by eapply (step_acquire _ _ 1 _ fboBlock readExclusion)|].
  eapply rtc_l; [by eapply (step_request _ _ 0 _ fboBlock writeExclusion)|].
  apply rtc_refl.
Qed.

Lemma lock_assertions_sound_witness :
  AssertRLocked fboMutexLevelToString fboBlock (fl_state ex_flow_reader) = Ok tt ∧
  MkExclusionState fboBlock writeExclusion ∉ ls_states (fl_state ex_flow_writer).
Proof.
  destruct (lock_assertions_sound fboMutexLevelToString ex_locks 1 ex_flow_reader fboBlock ex_locks_reachable
    eq_refl eq_refl) as (_ & _ & _ & Hfree & _).
  split; [reflexivity|]. exact (Hfree eq_refl 0 ex_flow_writer ltac:(done) eq_refl).
Defined.

Lemma lock_hierarchy_no_deadlock_witness :
  ∃ j, rtc (waits_for ex_locks) 0 j ∧ (is_running ex_locks j ∨ can_acquire ex_locks j).
Proof.
  apply (lock_hierarchy_no_deadlock fboMutexLevelToString ex_locks 0 ex_flow_writer ex_locks_reachable eq_refl).
  by eexists.
Defined.

(** Taking a lock of a lower level panics. *)
Example Lock_out_of_order :
  Lock_begin fboMutexLevelToString fboHead writeExclusion
    (MkLockState false [MkExclusionState fboBlock readExclusion])
  = Panic "level violation: headLock Locked after blockLock RLocked".
Proof. reflexivity. Qed.
