(* ===== verification/RekeyQueue.v ===== *)
(** * RekeyQueue: the queue of rekeys ([rekey_queue.go],
    [repeated_wait_group.go])

    Folders to rekey are queued, each with a channel for its result, and a
    worker goroutine rekeys them one by one.  [Enqueue] and [Clear] hold
    the lock only for a part of their work, so their parts interleave with
    the worker and with each other: the program is a relation on states
    with the calls under way.  A Go panic is the end of the program. *)

From Stdlib Require Import ZArith Lia.
From S2P Require Import Prelude Types Errors Ids.

(** ** [RepeatedWaitGroup] *)

(** The channels that were made are numbered; those below [rwg_next]
    exist, and [rwg_closed] are closed. *)
Record RepeatedWaitGroup := MkRwg {
  rwg_num : Z;
  rwg_isIdleCh : option nat;
  rwg_next : nat;
  rwg_closed : gset nat
}.
Definition newRwg : RepeatedWaitGroup := MkRwg 0 None 0 ∅.

Definition rwg_Add (delta : Z) (w : RepeatedWaitGroup) : res RepeatedWaitGroup :=
  let '(ch, next) := match rwg_isIdleCh w with Some ch => (ch, rwg_next w) | None => (rwg_next w, S (rwg_next w)) end in
  if decide (rwg_num w + delta < 0)%Z then Panic "RepeatedWaitGroup count would be negative"
  else
    let num := (rwg_num w + delta)%Z in
    if decide (num = 0)%Z then Ok (MkRwg num None next ({[ch]} ∪ rwg_closed w))
    else Ok (MkRwg num (Some ch) next (rwg_closed w)).
Definition rwg_Done : RepeatedWaitGroup → res RepeatedWaitGroup := rwg_Add (-1).

(** [Wait] takes the channel, and returns when it is closed, or at once
    when there is none. *)
Definition rwg_Wait_returns (ch : option nat) (w : RepeatedWaitGroup) : bool :=
  match ch with None => true | Some c => bool_decide (c ∈ rwg_closed w) end.

(** ** The state of the queue *)

Record resultChan := MkResultChan { rc_buf : list (option error); rc_closed : bool }.
Definition newChan : resultChan := MkResultChan [] false.

Definition Canceled : error := ErrorString "context canceled".

Inductive workerPhase :=
| WSelect                                   (* at the select *)
| WPeek                                     (* before [peek] *)
| WRekey (id : TlfID)                       (* in [Rekey] *)
| WDequeue (err : option error)             (* before [dequeue] *)
| WSend (ch : nat) (err : option error)     (* before the send *)
| WDone                                     (* before [wg.Done] *)
| WCheck                                    (* before the check of [ctx.Err] *)
| WExit.

(** A worker, its context, and its [hasWorkCh], of capacity one. *)
Record worker := MkWorker {
  w_canceled : bool;
  w_hasWork : bool;
  w_closed : bool;
  w_phase : workerPhase
}.

(** The calls under way, after they released the lock. *)
Inductive callPhase :=
| EnqueueAdd                                (* before [wg.Add] *)
| EnqueuePoke                               (* before the send to [hasWorkCh] *)
| ClearSend (channels : list nat).          (* before the sends to the channels *)

Record RekeyQueueStandard := MkRkq {
  rkq_queue : list (TlfID * nat);
  rkq_hasWorkCh : nat;                      (* the worker that has it *)
  rkq_cancel : bool;                        (* [cancel] is not nil *)
  rkq_wg : RepeatedWaitGroup;
  rkq_chans : list resultChan;
  rkq_workers : list worker;
  rkq_calls : list callPhase
}.
Definition NewRekeyQueueStandard : RekeyQueueStandard := MkRkq [] 0 false newRwg [] [] [].

Definition set_queue q s := MkRkq q (rkq_hasWorkCh s) (rkq_cancel s) (rkq_wg s) (rkq_chans s) (rkq_workers s) (rkq_calls s).
Definition set_wg g s := MkRkq (rkq_queue s) (rkq_hasWorkCh s) (rkq_cancel s) g (rkq_chans s) (rkq_workers s) (rkq_calls s).
Definition set_chans c s := MkRkq (rkq_queue s) (rkq_hasWorkCh s) (rkq_cancel s) (rkq_wg s) c (rkq_workers s) (rkq_calls s).
Definition set_calls c s := MkRkq (rkq_queue s) (rkq_hasWorkCh s) (rkq_cancel s) (rkq_wg s) (rkq_chans s) (rkq_workers s) c.
Definition set_worker (i : nat) (f : worker → worker) s :=
  MkRkq (rkq_queue s) (rkq_hasWorkCh s) (rkq_cancel s) (rkq_wg s) (rkq_chans s) (alter f i (rkq_workers s)) (rkq_calls s).

Definition at_phase (p : workerPhase) (w : worker) : worker := MkWorker (w_canceled w) (w_hasWork w) (w_closed w) p.
Definition take_work (w : worker) : worker := MkWorker (w_canceled w) false (w_closed w) WPeek.
Definition close_work (w : worker) : worker := MkWorker (w_canceled w) (w_hasWork w) true WExit.
Definition poke (w : worker) : worker := MkWorker (w_canceled w) true (w_closed w) (w_phase w).
Definition cancel_worker (w : worker) : worker := MkWorker true (w_hasWork w) (w_closed w) (w_phase w).

(** ** The operations *)

(** The part of [Enqueue] under the lock. *)
Definition Enqueue_locked (id : TlfID) (s : RekeyQueueStandard) : RekeyQueueStandard :=
  let c := length (rkq_chans s) in
  let queue := rkq_queue s ++ [(id, c)] in
  let chans := rkq_chans s ++ [newChan] in
  let calls := rkq_calls s ++ [EnqueueAdd] in
  if rkq_cancel s then MkRkq queue (rkq_hasWorkCh s) true (rkq_wg s) chans (rkq_workers s) calls
  else MkRkq queue (length (rkq_workers s)) true (rkq_wg s) chans
         (rkq_workers s ++ [MkWorker false false false WSelect]) calls.

(** The send to [hasWorkCh], which has room for one, or does nothing. *)
Definition Enqueue_poke (s : RekeyQueueStandard) : res RekeyQueueStandard :=
  match rkq_workers s !! rkq_hasWorkCh s with
  | None => Ok s
  | Some w => if w_closed w then Panic "send on closed channel" else Ok (set_worker (rkq_hasWorkCh s) poke s)
  end.

(** The part of [Clear] under the lock. *)
Definition Clear_locked (s : RekeyQueueStandard) : RekeyQueueStandard :=
  let s' := if rkq_cancel s then set_worker (rkq_hasWorkCh s) cancel_worker s else s in
  MkRkq [] (rkq_hasWorkCh s') false (rkq_wg s') (rkq_chans s') (rkq_workers s')
    (rkq_calls s' ++ [ClearSend (snd <$> rkq_queue s)]).

(** [ch <- err; close(ch)]; the channel has room for one. *)
Definition send_result (c : nat) (err : option error) (s : RekeyQueueStandard) : res RekeyQueueStandard :=
  match rkq_chans s !! c with
  | None => Panic "send on nil channel"
  | Some ch =>
      if rc_closed ch then Panic "send on closed channel"
      else match rc_buf ch with
           | [] => Ok (set_chans (<[c := MkResultChan [err] true]> (rkq_chans s)) s)
           | _ => Panic "does not return"
           end
  end.

Definition GetRekeyChannel (id : TlfID) (s : RekeyQueueStandard) : option nat :=
  match list_find (λ e, fst e = id) (rkq_queue s) with Some (_, (_, ch)) => Some ch | None => None end.
Definition IsRekeyPending (id : TlfID) (s : RekeyQueueStandard) : bool := bool_decide (is_Some (GetRekeyChannel id s)).

Definition peek (s : RekeyQueueStandard) : TlfID :=
  match rkq_queue s with [] => NullTlfID | (id, _) :: _ => id end.
Definition dequeue (s : RekeyQueueStandard) : option nat * RekeyQueueStandard :=
  match rkq_queue s with [] => (None, s) | (_, ch) :: q => (Some ch, set_queue q s) end.

(** What is left to do of a call, when the worker and other calls have gone
    on in between. *)
Definition run_call (i : nat) (c : callPhase) (s : RekeyQueueStandard) : res RekeyQueueStandard :=
  match c with
  | EnqueueAdd =>
      g ← rwg_Add 1 (rkq_wg s);
      Ok (set_wg g (set_calls (<[i := EnqueuePoke]> (rkq_calls s)) s))
  | EnqueuePoke => Enqueue_poke (set_calls (delete i (rkq_calls s)) s)
  | ClearSend [] => Ok (set_calls (delete i (rkq_calls s)) s)
  | ClearSend (ch :: channels) => send_result ch (Some Canceled) (set_calls (<[i := ClearSend channels]> (rkq_calls s)) s)
  end.

(** ** The program *)

Inductive event :=
| EvEnqueue (id : TlfID)
| EvClear
| EvRekey (id : TlfID) (err : option error)
| EvTau.

(** A step of [processRekeys] of the worker [i]. *)
Inductive worker_step (i : nat) (w : worker) (s : RekeyQueueStandard) : event → res RekeyQueueStandard → Prop :=
| ws_work : w_phase w = WSelect → w_hasWork w = true → worker_step i w s EvTau (Ok (set_worker i take_work s))
| ws_canceled : w_phase w = WSelect → w_canceled w = true → worker_step i w s EvTau (Ok (set_worker i close_work s))
| ws_idle : w_phase w = WPeek → peek s = NullTlfID → worker_step i w s EvTau (Ok (set_worker i (at_phase WSelect) s))
| ws_peek : w_phase w = WPeek → peek s ≠ NullTlfID →
    worker_step i w s EvTau (Ok (set_worker i (at_phase (WRekey (peek s))) s))
| ws_rekey id err : w_phase w = WRekey id →
    worker_step i w s (EvRekey id err) (Ok (set_worker i (at_phase (WDequeue err)) s))
| ws_dequeue err ch s' : w_phase w = WDequeue err → dequeue s = (Some ch, s') →
    worker_step i w s EvTau (Ok (set_worker i (at_phase (WSend ch err)) s'))
| ws_nothing err s' : w_phase w = WDequeue err → dequeue s = (None, s') →
    worker_step i w s EvTau (Ok (set_worker i (at_phase WDone) s'))
| ws_send ch err : w_phase w = WSend ch err →
    worker_step i w s EvTau (send_result ch err (set_worker i (at_phase WDone) s))
| ws_done : w_phase w = WDone →
    worker_step i w s EvTau (g ← rwg_Done (rkq_wg s); Ok (set_wg g (set_worker i (at_phase WCheck) s)))
| ws_stop : w_phase w = WCheck → w_canceled w = true → worker_step i w s EvTau (Ok (set_worker i close_work s))
| ws_next : w_phase w = WCheck → w_canceled w = false → worker_step i w s EvTau (Ok (set_worker i (at_phase WPeek) s)).

Inductive rkq_step (s : RekeyQueueStandard) : event → res RekeyQueueStandard → Prop :=
| st_Enqueue id : rkq_step s (EvEnqueue id) (Ok (Enqueue_locked id s))
| st_Clear : rkq_step s EvClear (Ok (Clear_locked s))
| st_call i c : rkq_calls s !! i = Some c → rkq_step s EvTau (run_call i c s)
| st_worker i w ev r : rkq_workers s !! i = Some w → worker_step i w s ev r → rkq_step s ev r.

(** The runs of the program, with what happened. *)
Inductive rkq_run : list event → res RekeyQueueStandard → Prop :=
| run_start : rkq_run [] (Ok NewRekeyQueueStandard)
| run_step tr s ev r : rkq_run tr (Ok s) → rkq_step s ev r → rkq_run (tr ++ [ev]) r.

Definition enqueued (tr : list event) : list TlfID :=
  omap (λ ev, match ev with EvEnqueue id => Some id | _ => None end) tr.
Definition rekeyed (tr : list event) : list (TlfID * option error) :=
  omap (λ ev, match ev with EvRekey id err => Some (id, err) | _ => None end) tr.

(** ** Every channel gets one result *)

Definition worker_owns (w : worker) : list nat := match w_phase w with WSend ch _ => [ch] | _ => [] end.
Definition call_owns (c : callPhase) : list nat := match c with ClearSend chs => chs | _ => [] end.
Definition owners (s : RekeyQueueStandard) : list nat :=
  (snd <$> rkq_queue s) ++ (rkq_workers s ≫= worker_owns) ++ (rkq_calls s ≫= call_owns).

Record own_ok (o : list nat) (chans : list resultChan) : Prop := {
  own_nodup : NoDup o;
  own_new c : c ∈ o → chans !! c = Some newChan;
  own_done c ch : chans !! c = Some ch → c ∉ o → ∃ r, ch = MkResultChan [r] true
}.

Lemma own_ok_perm o o' chans : o ≡ₚ o' → own_ok o chans → own_ok o' chans.
Proof.
  intros Hp [Hn Hnew Hdone]. split.
  - by rewrite <- Hp.
  - intros c. rewrite <- Hp. apply Hnew.
  - intros c ch. rewrite <- Hp. apply Hdone.
Qed.

Lemma own_ok_new o chans : own_ok o chans → own_ok (length chans :: o) (chans ++ [newChan]).
Proof.
  intros [Hn Hnew Hdone]. split.
  - apply NoDup_cons. split; [|done]. intros Hin%Hnew. apply lookup_lt_Some in Hin. lia.
  - intros c [->|Hin]%elem_of_cons; [by rewrite lookup_app_r, Nat.sub_diag|]. by apply lookup_app_l_Some, Hnew.
  - intros c ch Hc [Hne Hno]%not_elem_of_cons. apply lookup_app_Some in Hc as [Hc|[Hle Hc]]; [by eapply Hdone|].
    apply list_lookup_singleton_Some in Hc as [Hz _]. lia.
Qed.

Lemma own_ok_send c o chans r : own_ok (c :: o) chans → own_ok o (<[c := MkResultChan [r] true]> chans).
Proof.
  intros [[Hno Hn]%NoDup_cons Hnew Hdone]. split; [done| |].
  - intros c' Hc'. rewrite list_lookup_insert_ne by set_solver. apply Hnew. by right.
  - intros c' ch Hc' Hno'. destruct (decide (c = c')) as [->|Hne].
    + pose proof (Hnew c' ltac:(by left)) as Hl%lookup_lt_Some. rewrite list_lookup_insert_eq in Hc' by done.
      injection Hc' as <-. by exists r.
    + rewrite list_lookup_insert_ne in Hc' by done. eapply Hdone; [done|]. set_solver.
Qed.

Lemma bind_insert {A} (f : A → list nat) l i x y : l !! i = Some x →
  ∃ r, l ≫= f ≡ₚ f x ++ r ∧ <[i := y]> l ≫= f ≡ₚ f y ++ r.
Proof.
  intros Hi. exists ((take i l ≫= f) ++ (drop (S i) l ≫= f)). split.
  - rewrite <- (take_drop_middle l i x Hi) at 1. rewrite bind_app, bind_cons. solve_Permutation.
  - rewrite (insert_take_drop l i y) by (by eapply lookup_lt_Some). rewrite bind_app, bind_cons. solve_Permutation.
Qed.

Lemma bind_delete {A} (f : A → list nat) l i x : l !! i = Some x → l ≫= f ≡ₚ f x ++ (delete i l ≫= f).
Proof.
  intros Hi. rewrite <- (take_drop_middle l i x Hi) at 1. rewrite delete_take_drop, !bind_app, bind_cons. solve_Permutation.
Qed.

Lemma alter_lookup {A} (f : A → A) (l : list A) (i : nat) x : l !! i = Some x → alter f i l = <[i := f x]> l.
Proof. revert i. induction l as [|y l IH]; intros [|i] Hi; simpl in *; try done; [by simplify_eq|]. f_equal. by apply IH. Qed.

Lemma owners_worker s i w f : rkq_workers s !! i = Some w →
  ∃ r, owners s ≡ₚ worker_owns w ++ r ∧ owners (set_worker i f s) ≡ₚ worker_owns (f w) ++ r.
Proof.
  intros Hi. destruct (bind_insert worker_owns _ i w (f w) Hi) as (r & H1 & H2).
  exists ((snd <$> rkq_queue s) ++ r ++ (rkq_calls s ≫= call_owns)). unfold owners. simpl.
  rewrite (alter_lookup f _ i w Hi), H1, H2. split; solve_Permutation.
Qed.

Lemma owners_worker_same s i w f : rkq_workers s !! i = Some w → worker_owns w = [] → worker_owns (f w) = [] →
  owners (set_worker i f s) ≡ₚ owners s.
Proof. intros Hi H1 H2. destruct (owners_worker s i w f Hi) as (r & -> & ->). by rewrite H1, H2. Qed.

Lemma owners_call s i c c' : rkq_calls s !! i = Some c →
  ∃ r, owners s ≡ₚ call_owns c ++ r ∧ owners (set_calls (<[i := c']> (rkq_calls s)) s) ≡ₚ call_owns c' ++ r.
Proof.
  intros Hi. destruct (bind_insert call_owns _ i c c' Hi) as (r & H1 & H2).
  exists ((snd <$> rkq_queue s) ++ (rkq_workers s ≫= worker_owns) ++ r). unfold owners. simpl.
  rewrite H1, H2. split; solve_Permutation.
Qed.

Lemma owners_call_end s i c : rkq_calls s !! i = Some c → call_owns c = [] →
  owners (set_calls (delete i (rkq_calls s)) s) ≡ₚ owners s.
Proof.
  intros Hi Hc. unfold owners. simpl. rewrite (bind_delete call_owns _ i c Hi), Hc. done.
Qed.

(** Sending to a channel that one is about to send to always succeeds. *)
Lemma send_result_ok c err o s : own_ok (c :: o) (rkq_chans s) →
  ∃ s', send_result c err s = Ok s' ∧ owners s' = owners s ∧ own_ok o (rkq_chans s').
Proof.
  intros Ho. unfold send_result. rewrite (own_new _ _ Ho c) by (by left). simpl. eexists. split; [done|].
  split; [done|]. by apply own_ok_send.
Qed.

Lemma Clear_owners s : owners (Clear_locked s) ≡ₚ owners s ∧ rkq_chans (Clear_locked s) = rkq_chans s.
Proof.
  unfold Clear_locked. set (s' := if rkq_cancel s then _ else s).
  assert (rkq_chans s' = rkq_chans s ∧ rkq_calls s' = rkq_calls s ∧
    rkq_workers s' ≫= worker_owns = rkq_workers s ≫= worker_owns) as (Hc & Hcl & Hw).
  { subst s'. destruct (rkq_cancel s); [|done]. split; [done|]. split; [done|]. simpl.
    generalize (rkq_hasWorkCh s). induction (rkq_workers s) as [|w ws IH]; intros [|n]; try done.
    cbn -[mbind]. rewrite !bind_cons. f_equal. apply IH. }
  split; [|done]. unfold owners. simpl. rewrite Hcl, Hw, bind_app. simpl. rewrite app_nil_r. solve_Permutation.
Qed.

Definition step_ok_at (r : res RekeyQueueStandard) : Prop :=
  match r with
  | Ok s => own_ok (owners s) (rkq_chans s)
  | Err _ => False
  | Panic m => m = "RepeatedWaitGroup count would be negative" ∨ m = "send on closed channel"
  end.

Lemma rwg_Add_panic d w : match rwg_Add d w with
  | Ok _ => True | Err _ => False | Panic m => m = "RepeatedWaitGroup count would be negative" end.
Proof. unfold rwg_Add. destruct (rwg_isIdleCh w); case_decide; try done; by case_decide. Qed.

Lemma run_call_owners s i c : rkq_calls s !! i = Some c → own_ok (owners s) (rkq_chans s) → step_ok_at (run_call i c s).
Proof.
  intros Hi Ho. destruct c as [| |[|ch chs]]; simpl.
  - pose proof (rwg_Add_panic 1 (rkq_wg s)) as Hp. destruct (rwg_Add 1 (rkq_wg s)) as [g|e|m]; simpl; [|done|by left].
    destruct (owners_call s i _ EnqueuePoke Hi) as (r & H1 & H2). eapply own_ok_perm; [|exact Ho]. simpl in H1, H2.
    by rewrite H1, <- H2.
  - unfold Enqueue_poke. simpl. pose proof (owners_call_end s i _ Hi eq_refl) as He.
    destruct (rkq_workers s !! rkq_hasWorkCh s) as [w|] eqn:Ew; [|eapply own_ok_perm; [by symmetry|done]].
    destruct (w_closed w); [by right|]. simpl.
    destruct (owners_worker (set_calls (delete i (rkq_calls s)) s) (rkq_hasWorkCh s) w poke Ew) as (r & H1 & H2).
    eapply own_ok_perm; [|exact Ho]. by rewrite H2, <- He, H1.
  - eapply own_ok_perm; [|exact Ho]. symmetry. by eapply owners_call_end.
  - destruct (owners_call s i _ (ClearSend chs) Hi) as (r & H1 & H2). simpl in H1, H2.
    destruct (send_result_ok ch (Some Canceled) (chs ++ r) (set_calls (<[i:=ClearSend chs]> (rkq_calls s)) s))
      as (s' & Hs & Hown & Ho'); [by eapply own_ok_perm; [|exact Ho]|].
    rewrite Hs. simpl. rewrite Hown. eapply own_ok_perm; [|exact Ho']. by rewrite H2.
Qed.

Lemma dequeue_owners s ch s' : dequeue s = (Some ch, s') → owners s = ch :: owners s' ∧
  rkq_chans s' = rkq_chans s ∧ rkq_workers s' = rkq_workers s.
Proof. unfold dequeue, owners. destruct (rkq_queue s) as [|[id c] q]; [done|]. by intros [= <- <-]. Qed.

Lemma worker_step_owners s i w ev r : rkq_workers s !! i = Some w → worker_step i w s ev r →
  own_ok (owners s) (rkq_chans s) → step_ok_at r.
Proof.
  intros Hi Hstep Ho.
  assert (∀ f, worker_owns w = [] → worker_owns (f w) = [] → own_ok (owners (set_worker i f s)) (rkq_chans s)) as Hsame.
  { intros f H1 H2. eapply own_ok_perm; [|exact Ho]. symmetry. by eapply owners_worker_same. }
  destruct Hstep as [Hp ?|Hp ?|Hp ?|Hp ?|id err Hp|err ch s' Hp Hd|err s' Hp Hd|ch err Hp|Hp|Hp ?|Hp ?]; simpl;
    try (by apply Hsame; [unfold worker_owns; rewrite Hp|]).
  - apply dequeue_owners in Hd as (Hown & Hch & Hw). rewrite Hown in Ho.
    assert (rkq_workers s' !! i = Some w) as Hi' by (by rewrite Hw).
    destruct (owners_worker s' i w (at_phase (WSend ch err)) Hi') as (r & H1 & H2).
    unfold worker_owns in H1. rewrite Hp in H1. simpl in H1, H2. rewrite Hch.
    eapply own_ok_perm; [|exact Ho]. by rewrite H2, H1.
  - unfold dequeue in Hd. destruct (rkq_queue s) as [|[? ?] ?]; [|done]. injection Hd as <-.
    apply Hsame; [unfold worker_owns; by rewrite Hp|done].
  - destruct (owners_worker s i w (at_phase WDone) Hi) as (r & H1 & H2). unfold worker_owns in H1. rewrite Hp in H1.
    simpl in H1, H2. destruct (send_result_ok ch err r (set_worker i (at_phase WDone) s)) as (s' & Hs & Hown & Ho');
      [by eapply own_ok_perm; [|exact Ho]|].
    rewrite Hs. simpl. rewrite Hown. eapply own_ok_perm; [|exact Ho']. by rewrite H2.
  - unfold rwg_Done. pose proof (rwg_Add_panic (-1) (rkq_wg s)) as Hpan.
    destruct (rwg_Add (-1) (rkq_wg s)) as [g|e|m]; simpl; [|done|by left].
    apply (Hsame (at_phase WCheck)); [unfold worker_owns; by rewrite Hp|done].
Qed.

Lemma rkq_step_owners s ev r : rkq_step s ev r → own_ok (owners s) (rkq_chans s) → step_ok_at r.
Proof.
  intros [id| |i c Hi|i w ev' r' Hi Hw] Ho.
  - simpl. assert (rkq_chans (Enqueue_locked id s) = rkq_chans s ++ [newChan]) as ->
      by (unfold Enqueue_locked; by destruct (rkq_cancel s)).
    eapply own_ok_perm; [|apply own_ok_new, Ho]. unfold Enqueue_locked, owners.
    destruct (rkq_cancel s); simpl; rewrite ?fmap_app, ?bind_app; simpl; rewrite ?app_nil_r; solve_Permutation.
  - destruct (Clear_owners s) as [Hp Hc]. unfold step_ok_at. rewrite Hc. by eapply own_ok_perm; [symmetry|].
  - by apply run_call_owners.
  - by eapply worker_step_owners.
Qed.

Lemma rkq_run_owners tr r : rkq_run tr r → step_ok_at r.
Proof.
  induction 1 as [|tr s ev r _ IH Hstep]; [|by eapply rkq_step_owners].
  split; simpl; [constructor|by intros ? ?%elem_of_nil|done].
Qed.

(** C40. A result channel is written once and never forgotten.  Whatever is
    queued and cleared, and however the calls and the workers interleave, in
    every state that is reached without a panic each channel that [Enqueue]
    made is in one of two conditions: exactly one of the queue's entries,
    the workers and the calls of [Clear] has yet to send to it, the channel
    is open and empty, and the send will neither block nor panic; or no one
    has, and the channel holds one result and is closed. *)
Theorem rekey_channel_one_result tr s :
  rkq_run tr (Ok s) →
  NoDup (owners s) ∧
  (∀ c ch, rkq_chans s !! c = Some ch →
    (c ∈ owners s ∧ ch = newChan) ∨ ((c ∉ owners s) ∧ (∃ r, ch = MkResultChan [r] true))) ∧
  (∀ c err, c ∈ owners s → ∃ s', send_result c err s = Ok s').
Proof.
  intros [Hn Hnew Hdone]%rkq_run_owners. split; [done|]. split.
  - intros c ch Hc. destruct (decide (c ∈ owners s)) as [Hin|Hno]; [|by right; eauto].
    left. split; [done|]. specialize (Hnew c Hin). congruence.
  - intros c err Hin. unfold send_result. rewrite (Hnew c Hin). by eexists.
Qed.

(** ** Without [Clear]: results in order, and no lost wake-ups *)

Definition entries (es : list TlfID) : list (TlfID * nat) := imap (λ n id, (id, n)) es.

Definition chan_of (rs : list (TlfID * option error)) (sent j : nat) : resultChan :=
  if decide (j < sent) then match rs !! j with Some (_, err) => MkResultChan [err] true | None => newChan end else newChan.

(** The worker has dequeued [k] entries and sent [sent] results. *)
Definition phase_ok (es : list TlfID) (rs : list (TlfID * option error)) (k sent : nat) (p : workerPhase) : Prop :=
  match p with
  | WSelect | WPeek | WCheck => length rs = k ∧ sent = k
  | WDone => length rs = k ∧ sent = k ∧ 0 < k
  | WRekey id => length rs = k ∧ sent = k ∧ es !! k = Some id
  | WDequeue err => length rs = S k ∧ sent = k ∧ (∃ id, rs !! k = Some (id, err))
  | WSend ch err => length rs = k ∧ k = S ch ∧ sent = ch ∧ (∃ id, rs !! ch = Some (id, err))
  | WExit => False
  end.

(** The folders that [wg] has been told are done. *)
Definition dones (k : nat) (p : workerPhase) : Z :=
  match p with WSend _ _ | WDone => Z.of_nat k - 1 | _ => Z.of_nat k end.

#[global] Instance callPhase_eq_dec : EqDecision callPhase.
Proof. solve_decision. Defined.

(** The calls of [Enqueue] that have yet to add to [wg]. *)
Definition adds_left (calls : list callPhase) : nat := length (filter (λ c, c = EnqueueAdd) calls).

Record one_worker (es : list TlfID) (rs : list (TlfID * option error)) (k sent : nat) (w : worker)
    (s : RekeyQueueStandard) : Prop := {
  ow_workers : rkq_workers s = [w];
  ow_cancel : rkq_cancel s = true;
  ow_hasWorkCh : rkq_hasWorkCh s = 0;
  ow_live : w_canceled w = false ∧ w_closed w = false;
  ow_queue : rkq_queue s = drop k (entries es);
  ow_chans : rkq_chans s = chan_of rs sent <$> seq 0 (length es);
  ow_ids : rs.*1 = take (length rs) es;
  ow_phase : phase_ok es rs k sent (w_phase w);
  ow_calls : Forall (λ c, c = EnqueueAdd ∨ c = EnqueuePoke) (rkq_calls s);
  ow_poked : w_phase w = WSelect → w_hasWork w = false → NullTlfID ∉ es → rkq_queue s = [] ∨ rkq_calls s ≠ [];
  ow_wg : (0 <= rwg_num (rkq_wg s))%Z ∧
    (rwg_num (rkq_wg s) = Z.of_nat (length es) - Z.of_nat (adds_left (rkq_calls s)) - dones k (w_phase w))%Z
}.

Definition in_order (es : list TlfID) (rs : list (TlfID * option error)) (s : RekeyQueueStandard) : Prop :=
  (es = [] ∧ rs = [] ∧ s = NewRekeyQueueStandard) ∨ ∃ k sent w, one_worker es rs k sent w s.

Lemma entries_snoc es id : entries (es ++ [id]) = entries es ++ [(id, length es)].
Proof. unfold entries. rewrite imap_app. simpl. by rewrite Nat.add_0_r. Qed.
Lemma length_entries es : length (entries es) = length es.
Proof. apply length_imap. Qed.

Lemma entries_lookup es k e q : drop k (entries es) = e :: q →
  es !! k = Some (fst e) ∧ snd e = k ∧ q = drop (S k) (entries es).
Proof.
  intros Hd. assert (entries es !! k = Some e) as Hk.
  { rewrite <- (Nat.add_0_r k), <- lookup_drop, Hd. done. }
  split; [|split].
  - unfold entries in Hk. rewrite list_lookup_imap in Hk. destruct (es !! k); [|done]. by injection Hk as <-.
  - unfold entries in Hk. rewrite list_lookup_imap in Hk. destruct (es !! k); [|done]. by injection Hk as <-.
  - replace (S k) with (k + 1) by lia. rewrite <- drop_drop, Hd. done.
Qed.

Lemma phase_ok_sent es rs k sent p : phase_ok es rs k sent p → sent <= length rs.
Proof. destruct p; simpl; intros; destruct_and?; lia || done. Qed.

Lemma phase_ok_es es es' rs k sent p : phase_ok es rs k sent p → phase_ok (es ++ es') rs k sent p.
Proof. destruct p; simpl; try done. intros (? & ? & Hes). split; [done|]. split; [done|]. by apply lookup_app_l_Some. Qed.

Lemma phase_ok_k es rs k sent p : rs.*1 = take (length rs) es → phase_ok es rs k sent p → k <= length es.
Proof.
  intros Hids Hp. assert (length rs <= length es) as Hle.
  { apply (f_equal length) in Hids. rewrite length_fmap, length_take in Hids. lia. }
  destruct p; simpl in Hp; destruct_and?; try lia.
Qed.

Lemma Enqueue_in_order es rs s id : in_order es rs s → in_order (es ++ [id]) rs (Enqueue_locked id s).
Proof.
  intros [(-> & -> & ->)|(k & sent & w & Hw)]; right.
  - exists 0, 0, (MkWorker false false false WSelect). split; simpl; try done; [by repeat constructor; left|by right].
  - exists k, sent, w. pose proof (phase_ok_k _ _ _ _ _ (ow_ids _ _ _ _ _ _ Hw) (ow_phase _ _ _ _ _ _ Hw)) as Hk.
    destruct Hw as [Hws Hc Hh Hl Hq Hch Hids Hp Hcl Hpk Hwg]. unfold Enqueue_locked. rewrite Hc. split; simpl; try done.
    + rewrite Hq, entries_snoc, drop_app_le by (by rewrite length_entries). do 3 f_equal. by rewrite Hch, length_fmap, length_seq.
    + rewrite Hch, length_app, seq_app, fmap_app. simpl. f_equal. f_equal. unfold chan_of.
      rewrite decide_False; [done|]. pose proof (phase_ok_sent _ _ _ _ _ Hp). 
      apply (f_equal length) in Hids. rewrite length_fmap, length_take in Hids. lia.
    + apply (f_equal length) in Hids as Hlen. rewrite length_fmap, length_take in Hlen. rewrite take_app_le by lia. done.
    + by apply phase_ok_es.
    + apply Forall_app. split; [done|]. by repeat constructor; left.
    + intros. right. by destruct (rkq_calls s).
    + unfold adds_left in *. rewrite filter_app, !length_app. simpl. lia.
Qed.

Lemma one_worker_phase es rs k sent w s (f : worker → worker) rs' sent' k' q :
  one_worker es rs k sent w s →
  w_canceled (f w) = false ∧ w_closed (f w) = false →
  q = drop k' (entries es) → rs'.*1 = take (length rs') es → (∀ j, chan_of rs' sent' j = chan_of rs sent j) →
  phase_ok es rs' k' sent' (w_phase (f w)) →
  (w_phase (f w) = WSelect → w_hasWork (f w) = false → NullTlfID ∉ es → q = [] ∨ rkq_calls s ≠ []) →
  dones k' (w_phase (f w)) = dones k (w_phase w) →
  in_order es rs' (set_worker 0 f (set_queue q s)).
Proof.
  intros [Hws Hc Hh Hl Hq Hch Hids Hp Hcl Hpk Hwg] Hlive -> Hids' Hchan Hp' Hpk' Hdn. right. exists k', sent', (f w). split; simpl; try done.
  - by rewrite Hws.
  - rewrite Hch. apply list_fmap_ext. intros i j _. by rewrite Hchan.
  - by rewrite Hdn.
Qed.

Lemma rwg_Add_Ok d g g' : rwg_Add d g = Ok g' → (0 <= rwg_num g')%Z ∧ rwg_num g' = (rwg_num g + d)%Z.
Proof.
  unfold rwg_Add. destruct (rwg_isIdleCh g); (case_decide; [done|]); case_decide; intros [= <-]; simpl; lia.
Qed.

Lemma rwg_Add_succeeds d g : (0 <= rwg_num g + d)%Z → ∃ g', rwg_Add d g = Ok g'.
Proof.
  intros Hd. unfold rwg_Add. destruct (rwg_isIdleCh g); (rewrite decide_False by lia); case_decide; by eexists.
Qed.

Lemma adds_left_insert calls i : calls !! i = Some EnqueueAdd →
  adds_left calls = S (adds_left (<[i := EnqueuePoke]> calls)).
Proof.
  intros Hi. rewrite <- (take_drop_middle calls i EnqueueAdd Hi) at 1.
  rewrite (insert_take_drop calls i EnqueuePoke) by (by eapply lookup_lt_Some).
  unfold adds_left. rewrite !filter_app, !length_app, !filter_cons, decide_True, decide_False by done. simpl. lia.
Qed.

Lemma adds_left_delete calls i : calls !! i = Some EnqueuePoke → adds_left (delete i calls) = adds_left calls.
Proof.
  intros Hi. rewrite <- (take_drop_middle calls i EnqueuePoke Hi) at 2. rewrite delete_take_drop.
  unfold adds_left. rewrite !filter_app, !length_app, filter_cons, decide_False by done. done.
Qed.

Lemma set_queue_same s : set_queue (rkq_queue s) s = s.
Proof. by destruct s. Qed.

Lemma chan_of_snoc rs sent r j : sent <= length rs → chan_of (rs ++ [r]) sent j = chan_of rs sent j.
Proof.
  intros Hs. unfold chan_of. case_decide; [|done]. by rewrite lookup_app_l by lia.
Qed.

Lemma chan_of_send rs ch err id (es : list TlfID) : rs !! ch = Some (id, err) → ch < length es →
  <[ch := MkResultChan [err] true]> (chan_of rs ch <$> seq 0 (length es)) = chan_of rs (S ch) <$> seq 0 (length es).
Proof.
  intros Hr Hlt. apply list_eq. intros j. destruct (decide (j = ch)) as [->|Hne].
  - rewrite list_lookup_insert_eq by (by rewrite length_fmap, length_seq).
    rewrite list_lookup_fmap, lookup_seq_lt by done. simpl. unfold chan_of. rewrite decide_True by lia. by rewrite Hr.
  - rewrite list_lookup_insert_ne, !list_lookup_fmap by done.
    destruct (decide (j < length es)) as [Hj|Hj]; [|by rewrite !lookup_seq_ge by lia].
    rewrite lookup_seq_lt by done. simpl. f_equal. unfold chan_of. repeat case_decide; done || lia.
Qed.

Lemma rekeyed_ids es (rs : list (TlfID * option error)) id err : rs.*1 = take (length rs) es → es !! length rs = Some id →
  (rs ++ [(id, err)]).*1 = take (length (rs ++ [(id, err)])) es.
Proof.
  intros Hids Hes. rewrite fmap_app, length_app. simpl. rewrite Nat.add_1_r, (take_S_r _ _ _ Hes). by rewrite <- Hids.
Qed.

(** What a step of the worker adds to the results. *)
Definition rekeyed_by (ev : event) : list (TlfID * option error) := rekeyed [ev].

Lemma worker_in_order es rs k sent w s ev s' : one_worker es rs k sent w s → worker_step 0 w s ev (Ok s') →
  in_order es (rs ++ rekeyed_by ev) s' .
Proof.
  intros Hw Hstep. pose proof Hw as [Hws Hc Hh [Hl1 Hl2] Hq Hch Hids Hp Hcl Hpk Hwg].
  inversion Hstep as [Hph Hb|Hph Hb|Hph Hb|Hph Hb|id err Hph|err ch s1 Hph Hd|err s1 Hph Hd|ch err Hph|Hph|Hph Hb|Hph Hb]; subst ev;
    rewrite Hph in Hp; simpl in Hp; rewrite ?app_nil_r; try congruence;
    try (rewrite <- (set_queue_same s) at 1).
  - eapply (one_worker_phase _ _ k sent); try done; try (rewrite Hph; simpl; lia).
  - eapply (one_worker_phase _ _ k sent); try done; try (rewrite Hph; simpl; lia). intros _ _ Hnull. left. unfold peek in Hb. rewrite Hq in Hb |- *.
    destruct (drop k (entries es)) as [|[id c] q] eqn:Ed; [done|]. apply entries_lookup in Ed as (He & _).
    destruct Hnull. rewrite <- Hb. by eapply list_elem_of_lookup_2.
  - eapply (one_worker_phase _ _ k sent); try done; try (rewrite Hph; simpl; lia). simpl. destruct Hp as [? ?]. split; [done|]. split; [done|].
    unfold peek in *. rewrite Hq in *. destruct (drop k (entries es)) as [|[id c] q] eqn:Ed; [done|].
    by apply entries_lookup in Ed as (He & _).
  - destruct Hp as (Hlen & -> & Hes). eapply (one_worker_phase _ _ k k); try done; try (rewrite Hph; simpl; lia).
    + subst k. by apply rekeyed_ids.
    + intros j. apply chan_of_snoc. lia.
    + simpl. rewrite length_app. simpl. split; [lia|]. split; [done|]. exists id. subst k. by rewrite lookup_app_r, Nat.sub_diag.
  - unfold dequeue in Hd. rewrite Hq in Hd. destruct (drop k (entries es)) as [|[id c] q] eqn:Ed; [done|].
    injection Hd as <- <-. apply entries_lookup in Ed as (He & Hck & ->). simpl in Hck. subst c.
    eapply (one_worker_phase _ _ k sent); try done; try (rewrite Hph; simpl; lia). simpl. naive_solver.
  - unfold dequeue in Hd. rewrite Hq in Hd. destruct (drop k (entries es)) as [|[id c] q] eqn:Ed; [|done].
    destruct Hp as (Hlen & _ & id & Hr). apply (f_equal length) in Hids. rewrite length_fmap, length_take in Hids.
    apply (f_equal length) in Ed. rewrite length_drop, length_entries in Ed. simpl in Ed. lia.
  - destruct Hp as (Hlen & Hk & -> & id & Hr).
    assert (ch < length es) as Hlt.
    { apply (f_equal length) in Hids. rewrite length_fmap, length_take in Hids. lia. }
    unfold send_result in *. simpl in *.
    rewrite Hch, list_lookup_fmap, lookup_seq_lt in * by done. simpl in *.
    assert (chan_of rs ch ch = newChan) as Hnew by (unfold chan_of; by rewrite decide_False by lia).
    rewrite Hnew in *. simpl in *. match goal with H : Ok _ = Ok _ |- _ => injection H as <- end.
    right. exists k, k, (at_phase WDone w). split; simpl; try done; [by rewrite Hws| |split; [done|]; split; [done|lia]|].
    + rewrite Hk. by apply chan_of_send with id.
    + rewrite Hph in Hwg. done.
  - unfold rwg_Done in *. destruct (rwg_Add (-1) (rkq_wg s)) as [g|e|m] eqn:Eg; simpl in *; [|congruence..].
    match goal with H : Ok _ = Ok _ |- _ => injection H as <- end. apply rwg_Add_Ok in Eg as [Hg0 Hg].
    right. exists k, sent, (at_phase WCheck w). split; simpl; try done; [by rewrite Hws|naive_solver|].
    rewrite Hph in Hwg. simpl in Hwg. lia.
  - eapply (one_worker_phase _ _ k sent); try done; try (rewrite Hph; simpl; lia).
Qed.

Lemma run_call_in_order es rs i c s s' : rkq_calls s !! i = Some c → run_call i c s = Ok s' →
  in_order es rs s → in_order es rs s'.
Proof.
  intros Hi Hrun [(-> & -> & ->)|(k & sent & w & Hw)]; [done|]. right.
  pose proof Hw as [Hws Hc Hh [Hl1 Hl2] Hq Hch Hids Hp Hcl Hpk Hwg].
  pose proof (Forall_lookup_1 _ _ _ _ Hcl Hi) as [-> | ->]; simpl in Hrun.
  - destruct (rwg_Add 1 (rkq_wg s)) as [g|e|m] eqn:Eg; simpl in Hrun; [|done..]. injection Hrun as <-.
    apply rwg_Add_Ok in Eg as [Hg0 Hg]. pose proof (adds_left_insert _ _ Hi).
    exists k, sent, w. split; simpl; try done.
    + apply Forall_insert; [done|by right].
    + intros _ _ _. right. intros Hnil. apply (f_equal length) in Hnil. rewrite length_insert in Hnil.
      apply lookup_lt_Some in Hi. simpl in Hnil. lia.
    + lia.
  - unfold Enqueue_poke in Hrun. simpl in Hrun. rewrite Hws, Hh in Hrun. simpl in Hrun. rewrite Hl2 in Hrun.
    injection Hrun as <-. exists k, sent, (poke w). split; simpl; try done.
    + by rewrite Hws.
    + by apply Forall_delete.
    + by rewrite adds_left_delete.
Qed.

Lemma rkq_run_in_order tr s : rkq_run tr (Ok s) → EvClear ∉ tr → in_order (enqueued tr) (rekeyed tr) s.
Proof.
  intros Hrun. remember (Ok s) as r eqn:Er. revert s Er.
  induction Hrun as [|tr s0 ev r Hrun IH Hstep]; intros s Er Hno.
  { injection Er as <-. by left. }
  apply not_elem_of_app in Hno as [Hno Hev]. specialize (IH s0 eq_refl Hno). subst r.
  unfold enqueued, rekeyed. rewrite !omap_app. fold (enqueued tr) (rekeyed tr) (enqueued [ev]) (rekeyed [ev]).
  inversion Hstep as [id Hid|Hid|i c Hi Hrc|i w ev' r' Hi Hw]; subst.
  - simpl. rewrite app_nil_r. by apply Enqueue_in_order.
  - destruct Hev. by apply list_elem_of_singleton.
  - simpl. rewrite !app_nil_r. by eapply run_call_in_order.
  - destruct IH as [(_ & _ & ->)|(k & sent & w0 & Hone)]; [done|].
    rewrite (ow_workers _ _ _ _ _ _ Hone) in Hi. apply list_lookup_singleton_Some in Hi as [-> ->].
    assert (enqueued [ev] = []) as -> by (by inversion Hw). rewrite app_nil_r. by eapply worker_in_order.
Qed.

(** C30. As long as nothing is cleared, the folders are rekeyed in the order in
    which they were queued, and each channel gets the result of the rekey
    of its own folder: the folders that were rekeyed are the first ones
    queued, what a channel holds is the result of the rekey of the folder
    that was queued with it, and every rekey but the latest has been
    reported. *)
Theorem rekeys_in_order tr s :
  rkq_run tr (Ok s) → EvClear ∉ tr →
  (rekeyed tr).*1 = take (length (rekeyed tr)) (enqueued tr) ∧
  length (rkq_chans s) = length (enqueued tr) ∧
  (∀ j ch err, rkq_chans s !! j = Some ch → err ∈ rc_buf ch →
    ∃ id, enqueued tr !! j = Some id ∧ rekeyed tr !! j = Some (id, err)) ∧
  (∀ j id err, rekeyed tr !! j = Some (id, err) → S j < length (rekeyed tr) →
    rkq_chans s !! j = Some (MkResultChan [err] true)).
Proof.
  intros Hrun Hno. destruct (rkq_run_in_order tr s Hrun Hno) as [(-> & -> & ->)|(k & sent & w & Hw)]; [done|].
  destruct Hw as [Hws Hc Hh [Hl1 Hl2] Hq Hch Hids Hp Hcl Hpk Hwg]. pose proof (phase_ok_sent _ _ _ _ _ Hp) as Hsent.
  split; [done|]. split; [by rewrite Hch, length_fmap, length_seq|].
  rewrite Hch. split.
  - intros j ch err Hj Herr. rewrite list_lookup_fmap in Hj. destruct (seq 0 _ !! j) as [j'|] eqn:Ej; [|done].
    apply lookup_seq in Ej as [-> Hlt]. injection Hj as <-. unfold chan_of in Herr. simpl in Herr.
    case_decide as Hjs; [|by apply elem_of_nil in Herr]. destruct (rekeyed tr !! j) as [[id e]|] eqn:Er; [|by apply elem_of_nil in Herr].
    apply list_elem_of_singleton in Herr as ->. exists id. split; [|done].
    assert ((rekeyed tr).*1 !! j = Some id) as Hid by (by rewrite list_lookup_fmap, Er).
    rewrite Hids in Hid. by apply lookup_take_Some in Hid as [? _].
  - intros j id err Hj Hlast.
    assert (j < sent) as Hjs by (destruct (w_phase w); simpl in Hp; destruct_and?; lia || done).
    assert (j < length (enqueued tr)) as Hlt.
    { apply (f_equal length) in Hids. rewrite length_fmap, length_take in Hids. lia. }
    rewrite list_lookup_fmap, lookup_seq_lt by done. simpl. unfold chan_of. rewrite decide_True by done. by rewrite Hj.
Qed.

(** ** What is queued gets done *)

(** Steps of the workers alone. *)
Inductive worker_steps (s : RekeyQueueStandard) : list event → res RekeyQueueStandard → Prop :=
| wst_start : worker_steps s [] (Ok s)
| wst_step evs s1 i w ev r : worker_steps s evs (Ok s1) → rkq_workers s1 !! i = Some w →
    worker_step i w s1 ev r → worker_steps s (evs ++ [ev]) r.

Lemma worker_steps_run tr s evs r : rkq_run tr (Ok s) → worker_steps s evs r →
  rkq_run (tr ++ evs) r ∧ (EvClear ∉ evs) ∧ enqueued evs = [].
Proof.
  intros Hrun. induction 1 as [|evs s1 i w ev r _ (IH & Hno & Hen) Hi Hw].
  - rewrite app_nil_r. split; [done|]. split; [by intros ?%elem_of_nil|done].
  - rewrite app_assoc. split; [by eapply run_step, st_worker|].
    unfold enqueued in *. rewrite omap_app, Hen. split; [|by inversion Hw].
    intros [?|Hin%list_elem_of_singleton]%elem_of_app; [done|]. subst ev. inversion Hw.
Qed.

(** A bound on the steps a worker has left to do. *)
Definition work_left (w : worker) (s : RekeyQueueStandard) : nat :=
  6 * length (rkq_queue s) + (if w_hasWork w then 2 else 0) +
  match w_phase w with
  | WDequeue _ | WExit => 0 | WSelect | WRekey _ => 1 | WPeek => 2 | WCheck => 3 | WDone => 4 | WSend _ _ => 5
  end.

Lemma work_left_bound w s : work_left w s <= 6 * length (rkq_queue s) + 7.
Proof. unfold work_left. destruct (w_hasWork w), (w_phase w); lia. Qed.

Lemma one_worker_results es rs k sent w s : one_worker es rs k sent w s → length rs <= length es.
Proof. intros Hw. pose proof (ow_ids _ _ _ _ _ _ Hw) as Hl%(f_equal length). rewrite length_fmap, length_take in Hl. lia. Qed.

(** When no call is under way, a step of the worker does not panic, and
    there is less left to do. *)
Lemma worker_step_less es rs k sent w s ev r :
  one_worker es rs k sent w s → rkq_calls s = [] → worker_step 0 w s ev r →
  ∃ s' w', r = Ok s' ∧ rkq_workers s' = [w'] ∧ rkq_calls s' = [] ∧ work_left w' s' < work_left w s.
Proof.
  intros Hw Hcalls Hstep. pose proof (one_worker_results _ _ _ _ _ _ Hw) as Hlen.
  destruct Hw as [Hws Hc Hh [Hl1 Hl2] Hq Hch Hids Hp Hcl Hpk Hwg].
  destruct Hstep as [Hph Hb|Hph Hb|Hph Hb|Hph Hb|id err Hph|err ch s1 Hph Hd|err s1 Hph Hd|ch err Hph|Hph|Hph Hb|Hph Hb];
    rewrite Hph in Hp, Hwg; simpl in Hp, Hwg; try congruence.
  1, 2, 3, 4: eexists _, _; (split; [done|]); simpl; rewrite Hws; (split; [done|]); (split; [done|]);
    unfold work_left; simpl; rewrite Hph, ?Hb; destruct (w_hasWork w); lia.
  - unfold dequeue in Hd. destruct (rkq_queue s) as [|[id c] q] eqn:Eq; [done|]. injection Hd as <- <-.
    eexists _, _. split; [done|]. simpl. rewrite Hws. split; [done|]. split; [done|].
    unfold work_left. simpl. rewrite Hph, Eq. simpl. destruct (w_hasWork w); lia.
  - unfold dequeue in Hd. rewrite Hq in Hd. destruct (drop k (entries es)) as [|[id c] q] eqn:Ed; [|done].
    apply (f_equal length) in Ed. rewrite length_drop, length_entries in Ed. simpl in Ed. lia.
  - destruct Hp as (Hlr & Hk & -> & id & Hr). unfold send_result. simpl.
    rewrite Hch, list_lookup_fmap, lookup_seq_lt by lia. simpl.
    assert (chan_of rs ch ch = newChan) as -> by (unfold chan_of; by rewrite decide_False by lia).
    eexists _, _. split; [done|]. simpl. rewrite Hws. split; [done|]. split; [done|].
    unfold work_left. simpl. rewrite Hph. destruct (w_hasWork w); lia.
  - rewrite Hcalls in Hwg. destruct (rwg_Add_succeeds (-1) (rkq_wg s)) as [g Hg].
    { unfold adds_left in Hwg. simpl in Hwg. lia. }
    unfold rwg_Done. rewrite Hg. eexists _, _. split; [done|]. simpl. rewrite Hws. split; [done|]. split; [done|].
    unfold work_left. simpl. rewrite Hph. destruct (w_hasWork w); lia.
  - eexists _, _. split; [done|]. simpl. rewrite Hws. split; [done|]. split; [done|].
    unfold work_left. simpl. rewrite Hph. destruct (w_hasWork w); lia.
Qed.

(** The worker can go on unless it has done everything. *)
Lemma worker_goes_on es rs k sent w s :
  one_worker es rs k sent w s → rkq_calls s = [] → NullTlfID ∉ es →
  (∃ ev s', worker_step 0 w s ev (Ok s')) ∨
  (rkq_queue s = [] ∧ ∀ j id, es !! j = Some id → ∃ err, rs !! j = Some (id, err) ∧ rkq_chans s !! j = Some (MkResultChan [err] true)).
Proof.
  intros Hw Hcalls Hnull.
  assert (∀ ev r, worker_step 0 w s ev r → ∃ ev s', worker_step 0 w s ev (Ok s')) as Hgo.
  { intros ev r Hs. destruct (worker_step_less _ _ _ _ _ _ _ _ Hw Hcalls Hs) as (s' & _ & -> & _). by exists ev, s'. }
  pose proof Hw as [Hws Hc Hh [Hl1 Hl2] Hq Hch Hids Hp Hcl Hpk Hwg].
  destruct (w_phase w) as [| |id|err|ch err| | |] eqn:Ep.
  - destruct (w_hasWork w) eqn:Eh; [left; by eapply Hgo, ws_work|]. right.
    destruct Hpk as [Hnil|]; [done..| |by rewrite Hcalls in *]. split; [done|]. destruct Hp as [Hlr ->].
    rewrite Hnil in Hq. apply (f_equal length) in Hq. rewrite length_drop, length_entries in Hq. simpl in Hq.
    pose proof (one_worker_results _ _ _ _ _ _ Hw) as Hle.
    intros j id Hj. pose proof (lookup_lt_Some _ _ _ Hj) as Hlt.
    destruct (lookup_lt_is_Some_2 rs j) as [[id' err] Hr]; [lia|].
    assert (rs.*1 !! j = Some id') as Hid by (by rewrite list_lookup_fmap, Hr).
    rewrite Hids, lookup_take_lt, Hj in Hid by lia. injection Hid as <-. exists err. split; [done|].
    rewrite Hch, list_lookup_fmap, lookup_seq_lt by done. simpl. unfold chan_of. rewrite decide_True by lia. by rewrite Hr.
  - left. destruct (decide (peek s = NullTlfID)); [by eapply Hgo, ws_idle|by eapply Hgo, ws_peek].
  - left. eapply Hgo. by apply (ws_rekey _ _ _ id None).
  - left. destruct (dequeue s) as [[ch|] s'] eqn:Ed; [by eapply Hgo, ws_dequeue|by eapply Hgo, ws_nothing].
  - left. by eapply Hgo, ws_send.
  - left. by eapply Hgo, ws_done.
  - left. by eapply Hgo, ws_next.
  - done.
Qed.

Lemma run_call_succeeds es rs s i c : in_order es rs s → rkq_calls s !! i = Some c → ∃ s', run_call i c s = Ok s'.
Proof.
  intros [(_ & _ & ->)|(k & sent & w & [Hws Hc Hh [Hl1 Hl2] Hq Hch Hids Hp Hcl Hpk [Hg0 Hg]])] Hi; [done|].
  pose proof (Forall_lookup_1 _ _ _ _ Hcl Hi) as [-> | ->]; simpl.
  - destruct (rwg_Add_succeeds 1 (rkq_wg s)) as [g ->]; [lia|]. by eexists.
  - unfold Enqueue_poke. simpl. rewrite Hws, Hh. simpl. rewrite Hl2. by eexists.
Qed.

(** The invariant and the count of steps along a run of the worker. *)
Lemma worker_steps_less tr s k sent w evs r :
  rkq_run tr (Ok s) → EvClear ∉ tr → one_worker (enqueued tr) (rekeyed tr) k sent w s → rkq_calls s = [] →
  worker_steps s evs r →
  ∃ s' k' sent' w', r = Ok s' ∧ one_worker (enqueued tr) (rekeyed (tr ++ evs)) k' sent' w' s' ∧
    rkq_calls s' = [] ∧ length evs + work_left w' s' <= work_left w s.
Proof.
  intros Hrun Hno Hone Hcalls. induction 1 as [|evs s1 i w1 ev r Hsteps (s' & k' & sent' & w' & Hs' & Hone' & Hc' & Hle) Hi Hw].
  { exists s, k, sent, w. rewrite app_nil_r. done. }
  injection Hs' as <-. rewrite (ow_workers _ _ _ _ _ _ Hone') in Hi. apply list_lookup_singleton_Some in Hi as [-> ->].
  destruct (worker_step_less _ _ _ _ _ _ _ _ Hone' Hc' Hw) as (s2 & w2 & -> & Hws2 & Hc2 & Hlt).
  destruct (worker_in_order _ _ _ _ _ _ _ _ Hone' Hw) as [(_ & _ & ->)|(k2 & sent2 & w2' & Hone2)]; [done|].
  rewrite (ow_workers _ _ _ _ _ _ Hone2) in Hws2. injection Hws2 as ->.
  exists s2, k2, sent2, w2. split; [done|]. split; [|split; [done|rewrite length_app; simpl; lia]].
  rewrite app_assoc. unfold rekeyed at 1. rewrite omap_app. exact Hone2.
Qed.

(** C31. What is queued gets done.  As long as nothing is cleared and no null
    id is queued, the rest of a call of [Enqueue] never panics; and once the
    calls have returned, whatever the rekeys return, the worker does not
    panic, comes to rest after at most 6 steps per queued folder and 7 more,
    and rests only when the queue is empty and every folder ever queued has
    been rekeyed and its channel has the result.  (While a call of [Enqueue]
    has not yet added to the wait group the worker can panic, see
    [Enqueue_wait_group_race].) *)
Theorem rekey_queue_progress tr s :
  rkq_run tr (Ok s) → EvClear ∉ tr → NullTlfID ∉ enqueued tr →
  (∀ i c, rkq_calls s !! i = Some c → ∃ s', run_call i c s = Ok s') ∧
  (rkq_calls s = [] → ∀ evs r, worker_steps s evs r →
     length evs <= 6 * length (rkq_queue s) + 7 ∧
     ∃ s', r = Ok s' ∧
       ((∃ i w ev s2, rkq_workers s' !! i = Some w ∧ worker_step i w s' ev (Ok s2)) ∨
        (rkq_queue s' = [] ∧ ∀ j id, enqueued tr !! j = Some id →
           ∃ err, rekeyed (tr ++ evs) !! j = Some (id, err) ∧ rkq_chans s' !! j = Some (MkResultChan [err] true)))).
Proof.
  intros Hrun Hno Hnull. pose proof (rkq_run_in_order tr s Hrun Hno) as Hord.
  split; [intros i c; by eapply run_call_succeeds|]. intros Hcalls evs r Hsteps.
  destruct Hord as [(He & _ & ->)|(k & sent & w & Hone)].
  - assert (evs = [] ∧ r = Ok NewRekeyQueueStandard) as [-> ->].
    { induction Hsteps as [|evs s1 i w ev r _ [-> [= ->]] Hi Hw]; done. }
    split; [simpl; lia|]. eexists. split; [done|]. right. rewrite He. split; [done|]. intros j id Hj. by rewrite lookup_nil in Hj.
  - destruct (worker_steps_less tr s k sent w evs r Hrun Hno Hone Hcalls Hsteps) as (s' & k' & sent' & w' & -> & Hone' & Hc' & Hle).
    pose proof (work_left_bound w s). split; [lia|]. exists s'. split; [done|].
    destruct (worker_goes_on _ _ _ _ _ _ Hone' Hc' Hnull) as [(ev & s2 & Hs)|Hdone]; [left|by right].
    exists 0, w', ev, s2. by rewrite (ow_workers _ _ _ _ _ _ Hone').
Qed.

(** ** Schedules, and runs that go wrong *)

Inductive move :=
| MEnqueue (id : TlfID)
| MClear
| MCall (i : nat)
| MWorker (i : nat) (err : option error).   (* [err] is what a rekey returns *)

(** A worker that can choose takes the work. *)
Definition worker_move (i : nat) (err : option error) (w : worker) (s : RekeyQueueStandard)
    : option (event * res RekeyQueueStandard) :=
  match w_phase w with
  | WSelect => if w_hasWork w then Some (EvTau, Ok (set_worker i take_work s))
               else if w_canceled w then Some (EvTau, Ok (set_worker i close_work s)) else None
  | WPeek => Some (EvTau, Ok (set_worker i (at_phase (if decide (peek s = NullTlfID) then WSelect else WRekey (peek s))) s))
  | WRekey id => Some (EvRekey id err, Ok (set_worker i (at_phase (WDequeue err)) s))
  | WDequeue err => match dequeue s with
                    | (Some ch, s') => Some (EvTau, Ok (set_worker i (at_phase (WSend ch err)) s'))
                    | (None, s') => Some (EvTau, Ok (set_worker i (at_phase WDone) s'))
                    end
  | WSend ch err => Some (EvTau, send_result ch err (set_worker i (at_phase WDone) s))
  | WDone => Some (EvTau, g ← rwg_Done (rkq_wg s); Ok (set_wg g (set_worker i (at_phase WCheck) s)))
  | WCheck => Some (EvTau, Ok (set_worker i (if w_canceled w then close_work else at_phase WPeek) s))
  | WExit => None
  end.

Definition do_move (m : move) (s : RekeyQueueStandard) : option (event * res RekeyQueueStandard) :=
  match m with
  | MEnqueue id => Some (EvEnqueue id, Ok (Enqueue_locked id s))
  | MClear => Some (EvClear, Ok (Clear_locked s))
  | MCall i => c ← rkq_calls s !! i; Some (EvTau, run_call i c s)
  | MWorker i err => w ← rkq_workers s !! i; worker_move i err w s
  end.

Fixpoint do_moves (ms : list move) (tr : list event) (r : res RekeyQueueStandard)
    : option (list event * res RekeyQueueStandard) :=
  match ms, r with
  | [], _ => Some (tr, r)
  | m :: ms, Ok s => '(ev, r') ← do_move m s; do_moves ms (tr ++ [ev]) r'
  | _ :: _, _ => None
  end.

Lemma do_move_step m s ev r : do_move m s = Some (ev, r) → rkq_step s ev r.
Proof.
  destruct m as [id| |i|i err]; simpl.
  - intros [= <- <-]. constructor.
  - intros [= <- <-]. constructor.
  - destruct (rkq_calls s !! i) as [c|] eqn:Hc; [|done]. intros [= <- <-]. by constructor.
  - destruct (rkq_workers s !! i) as [w|] eqn:Hw; [|done]. simpl. intros Hm. apply (st_worker s i w); [done|].
    revert Hm. unfold worker_move. destruct (w_phase w) as [| |id|err'|ch err'| | |] eqn:Ep.
    + destruct (w_hasWork w) eqn:Eh; [intros [= <- <-]; by apply ws_work|].
      destruct (w_canceled w) eqn:Ec; [intros [= <- <-]; by apply ws_canceled|done].
    + intros [= <- <-]. case_decide; [by apply ws_idle|by apply ws_peek].
    + intros [= <- <-]. by apply ws_rekey.
    + destruct (dequeue s) as [[ch|] s'] eqn:Ed; intros [= <- <-]; [by eapply ws_dequeue|by eapply ws_nothing].
    + intros [= <- <-]. by apply ws_send.
    + intros [= <- <-]. by apply ws_done.
    + intros [= <- <-]. destruct (w_canceled w) eqn:Ec; [by apply ws_stop|by apply ws_next].
    + done.
Qed.

Lemma do_moves_run ms tr r tr' r' : rkq_run tr r → do_moves ms tr r = Some (tr', r') → rkq_run tr' r'.
Proof.
  revert tr r. induction ms as [|m ms IH]; intros tr r Hrun; simpl; [by intros [= <- <-]|].
  destruct r as [s|e|p]; [|done..]. destruct (do_move m s) as [[ev r1]|] eqn:Em; [|done]. simpl.
  apply IH. apply (run_step tr s); [done|by eapply do_move_step].
Qed.

Definition ex_id1 : TlfID := MkTlfID (replicate 16 x01).
Definition ex_id2 : TlfID := MkTlfID (replicate 16 x02).
Definition run_of (ms : list move) : option (list event * res RekeyQueueStandard) :=
  do_moves ms [] (Ok NewRekeyQueueStandard).

(** Two folders are queued, and the first is rekeyed. *)
Definition ex_moves : list move :=
  [MEnqueue ex_id1; MCall 0; MCall 0; MEnqueue ex_id2] ++ replicate 6 (MWorker 0 None).
Definition ex_end : list event * RekeyQueueStandard :=
  Eval vm_compute in match run_of ex_moves with Some (tr, Ok s) => (tr, s) | _ => ([], NewRekeyQueueStandard) end.
Lemma ex_run : rkq_run (fst ex_end) (Ok (snd ex_end)).
Proof. apply (do_moves_run ex_moves [] (Ok NewRekeyQueueStandard)); [constructor|vm_compute; reflexivity]. Qed.

Ltac not_listed :=
  let H := fresh in intros H; vm_compute in H;
  repeat (apply elem_of_cons in H as [H|H]; [discriminate H|]); by apply elem_of_nil in H.

Lemma rekey_channel_one_result_witness : owners (snd ex_end) = [1] ∧
  ∀ err, ∃ s', send_result 1 err (snd ex_end) = Ok s'.
Proof.
  destruct (rekey_channel_one_result _ _ ex_run) as (_ & _ & Hsend). split; [reflexivity|].
  intros err. apply Hsend. by left.
Defined.

Lemma rekeys_in_order_witness : rkq_chans (snd ex_end) !! 0 = Some (MkResultChan [None] true) ∧
  enqueued (fst ex_end) !! 0 = Some ex_id1.
Proof.
  destruct (rekeys_in_order _ _ ex_run) as (_ & _ & Hbuf & _).
  { not_listed. }
  destruct (Hbuf 0 (MkResultChan [None] true) None eq_refl ltac:(by left)) as (id & Hid & Hr).
  split; [reflexivity|]. by injection Hr as <-.
Defined.

(** The second call of [Enqueue] returns, and the worker goes on: it does
    everything that is left. *)
Definition ex_settled : list event * RekeyQueueStandard :=
  Eval vm_compute in match run_of (ex_moves ++ [MCall 0; MCall 0]) with Some (tr, Ok s) => (tr, s) | _ => ([], NewRekeyQueueStandard) end.
Lemma ex_settled_run : rkq_run (fst ex_settled) (Ok (snd ex_settled)).
Proof. apply (do_moves_run (ex_moves ++ [MCall 0; MCall 0]) [] (Ok NewRekeyQueueStandard)); [constructor|vm_compute; reflexivity]. Qed.

Lemma rekey_queue_progress_witness : rkq_queue (snd ex_settled) = [(ex_id2, 1)] ∧
  ∀ evs r, worker_steps (snd ex_settled) evs r → length evs <= 13 ∧ ∃ s', r = Ok s'.
Proof.
  split; [vm_compute; reflexivity|]. intros evs r Hs.
  destruct (rekey_queue_progress (fst ex_settled) (snd ex_settled) ex_settled_run ltac:(not_listed) ltac:(not_listed)) as [_ Hw].
  destruct (Hw eq_refl evs r Hs) as (Hlen & s' & Hr & _). split; [exact Hlen|]. exists s'. exact Hr.
Defined.

(** [Enqueue] adds to the wait group after it has released the lock, so a
    worker that is at the queue can be done with the folder before. *)
Example Enqueue_wait_group_race :
  ∃ tr, rkq_run tr (Panic "RepeatedWaitGroup count would be negative") ∧ EvClear ∉ tr.
Proof.
  set (ms := [MEnqueue ex_id1; MCall 0; MCall 0] ++ replicate 7 (MWorker 0 None) ++ [MEnqueue ex_id2] ++ replicate 5 (MWorker 0 None)).
  eexists. split; [apply (do_moves_run ms [] (Ok NewRekeyQueueStandard)); [constructor|vm_compute; reflexivity]|not_listed].
Qed.

(** The send to [hasWorkCh] is outside the lock too, and the channel may be
    closed by then. *)
Example Enqueue_poke_race : ∃ tr, rkq_run tr (Panic "send on closed channel").
Proof.
  set (ms := [MEnqueue ex_id1; MCall 0; MClear; MWorker 0 None; MCall 0]).
  eexists. apply (do_moves_run ms [] (Ok NewRekeyQueueStandard)); [constructor|vm_compute; reflexivity].
Qed.

(** [Clear] does not take the folders it drops out of the wait group: when
    everything has come to rest, [Wait] still does not return. *)
Example Clear_blocks_Wait : ∃ tr s, rkq_run tr (Ok s) ∧
  rkq_queue s = [] ∧ rkq_calls s = [] ∧ w_phase <$> rkq_workers s = [WExit] ∧
  rwg_Wait_returns (rwg_isIdleCh (rkq_wg s)) (rkq_wg s) = false.
Proof.
  set (ms := [MEnqueue ex_id1; MCall 0; MCall 0; MClear; MCall 0; MCall 0] ++ replicate 3 (MWorker 0 None)).
  eexists _, _. split; [apply (do_moves_run ms [] (Ok NewRekeyQueueStandard)); [constructor|vm_compute; reflexivity]|].
  vm_compute. done.
Qed.

(** A worker that is rekeying a folder when the queue is cleared takes the
    next folder off the queue when it is done, and reports the old result
    for it; the folder is not rekeyed. *)
Example Clear_wrong_result : ∃ tr s, rkq_run tr (Ok s) ∧
  enqueued tr = [ex_id1; ex_id2] ∧ rekeyed tr = [(ex_id1, None)] ∧
  rkq_queue s = [] ∧ rkq_chans s !! 1 = Some (MkResultChan [None] true).
Proof.
  set (ms := [MEnqueue ex_id1; MCall 0; MCall 0; MWorker 0 None; MWorker 0 None; MClear; MCall 0; MCall 0; MEnqueue ex_id2]
    ++ replicate 3 (MWorker 0 None)).
  eexists _, _. split; [apply (do_moves_run ms [] (Ok NewRekeyQueueStandard)); [constructor|vm_compute; reflexivity]|].
  vm_compute. done.
Qed.
