(* ===== verification/CryptoCommon.v ===== *)
(** * CryptoCommon: block padding, key masking and encryption

    Models [libkbfs/crypto_common.go]: [nextPowerOfTwo], [padBlock],
    [depadBlock], [xorKeys] and the key masking built on it,
    [encryptData]/[decryptData], [EncryptBlock]/[DecryptBlock],
    [EncryptPrivateMetadata]/[DecryptPrivateMetadata] and the block ids.
    The NaCl secretbox and the codec are interfaces ([SecretBox],
    [Codec]) with the laws the code relies on; the random source is the
    list of bytes it delivers. *)

From Stdlib Require Import ZArith Lia.
From S2P Require Import Prelude Types Errors GoStd Ids.

(** ** Padding *)

Definition minBlockSize : Z := 256.
Definition padPrefixSize : Z := 4.

(** All arithmetic on [uint32]. *)
Definition nextPowerOfTwo (n : Z) : Z :=
  if (n <? minBlockSize)%Z then minBlockSize
  else
    let n := if (Z.land n (to_u32 (n - 1)) =? 0)%Z then to_u32 (n + 1) else n in
    let n := to_u32 (n - 1) in
    let n := Z.lor n (Z.shiftr n 1) in
    let n := Z.lor n (Z.shiftr n 2) in
    let n := Z.lor n (Z.shiftr n 4) in
    let n := Z.lor n (Z.shiftr n 8) in
    let n := Z.lor n (Z.shiftr n 16) in
    to_u32 (n + 1).

(** [io.CopyN(buf, rand.Reader, n)]: the [n] first bytes of the source,
    or an error when it ends before. *)
Definition CopyN (reader : list byte) (n : Z) : res (list byte) :=
  if decide (zlen reader < n)%Z then Err IoEOF else Ok (take (Z.to_nat n) reader).

Definition padBlock (reader : list byte) (block : list byte) : res (list byte) :=
  let blockLen := to_u32 (zlen block) in
  let overallLen := nextPowerOfTwo blockLen in
  let padLen := to_u32 (overallLen - blockLen) in
  pad ← CopyN reader padLen;
  if decide (zlen pad ≠ padLen) then Err UnexpectedShortCryptoRandRead
  else Ok (put_le 4 blockLen ++ block ++ pad).

(** [binary.Read(buf, LittleEndian, &blockLen)]: the value and the rest
    of the buffer. *)
Definition read_u32 (buf : list byte) : res (Z * list byte) :=
  match buf with
  | [] => Err IoEOF
  | [_] | [_; _] | [_; _; _] => Err IoErrUnexpectedEOF
  | a :: b :: c :: d :: rest => Ok (get_le [a; b; c; d], rest)
  end.

(** [buf.Next(n)] returns the whole remainder when it is shorter. *)
Definition depadBlock (paddedBlock : list byte) : res (list byte) :=
  '(blockLen, buf) ← read_u32 paddedBlock;
  let blockEndPos := to_u32 (blockLen + padPrefixSize) in
  if decide (zlen paddedBlock < blockEndPos)%Z
  then Err (PaddedBlockReadError (zlen paddedBlock) blockEndPos)
  else Ok (take (Z.to_nat blockLen) buf).

(** ** Key halves *)

Definition xorKeys (x y : list byte) : list byte := xor_bytes x y.

Definition MaskTLFCryptKey (serverHalf key : list byte) : res (list byte) :=
  Ok (xorKeys serverHalf key).
Definition UnmaskTLFCryptKey (serverHalf clientHalf : list byte) : res (list byte) :=
  Ok (xorKeys serverHalf clientHalf).
Definition UnmaskBlockCryptKey (serverHalf tlfCryptKey : list byte) : res (list byte) :=
  Ok (xorKeys serverHalf tlfCryptKey).

(** ** Encryption *)

Definition EncryptionSecretbox : Z := 1.

Record encryptedData := MkEncryptedData {
  ed_Version : Z;
  ed_EncryptedData : list byte;
  ed_Nonce : list byte
}.

(** [golang.org/x/crypto/nacl/secretbox]: [Open] undoes [Seal] under the
    same nonce and key. *)
Class SecretBox := {
  Seal : list byte → list byte → list byte → list byte;
  Open : list byte → list byte → list byte → option (list byte);
  Open_Seal message nonce key : Open (Seal message nonce key) nonce key = Some message
}.

(** The msgpack codec on values of type [A]: what [Encode] writes,
    [Decode] reads back. *)
Class Codec (A : Type) := {
  Encode : A → res (list byte);
  Decode : list byte → res A;
  Decode_Encode a buf : Encode a = Ok buf → Decode buf = Ok a
}.

(** Encoding never fails. *)
Class EncodeTotal (A : Type) `{Codec A} : Prop :=
  Encode_total : ∀ a : A, ∃ buf, Encode a = Ok buf.

(** [rand.Read(buf)], an [io.ReadFull] of the [n] bytes of [buf]. *)
Definition rand_Read (reader : list byte) (n : nat) : res (list byte) :=
  if decide (n <= length reader) then Ok (take n reader)
  else if decide (length reader = 0) then Err IoEOF
  else Err IoErrUnexpectedEOF.

(** [cryptoRandRead] into a buffer of [n] bytes. *)
Definition cryptoRandRead (reader : list byte) (n : nat) : res (list byte) :=
  buf ← rand_Read reader n;
  if decide (length buf ≠ n) then Err UnexpectedShortCryptoRandRead
  else Ok buf.

Section encryption.
Context `{SecretBox}.

Definition encryptData (reader data key : list byte) : res encryptedData :=
  nonce ← cryptoRandRead reader 24;
  Ok (MkEncryptedData EncryptionSecretbox (Seal data nonce key) nonce).

Definition decryptData (ed : encryptedData) (key : list byte) : res (list byte) :=
  if decide (ed_Version ed ≠ EncryptionSecretbox) then Err (UnknownEncryptionVer (ed_Version ed))
  else if decide (length (ed_Nonce ed) ≠ 24) then Err (InvalidNonceError (ed_Nonce ed))
  else match Open (ed_EncryptedData ed) (ed_Nonce ed) key with
       | None => Err DecryptionError
       | Some d => Ok d
       end.

(** Each draw from [rand.Reader] is a list of its own: [r1] for the
    padding, [r2] for the nonce. *)
Definition EncryptBlock `{Codec B} (r1 r2 : list byte) (block : B) (key : list byte)
    : res (Z * encryptedData) :=
  encodedBlock ← Encode block;
  paddedBlock ← padBlock r1 encodedBlock;
  ed ← encryptData r2 paddedBlock key;
  Ok (zlen encodedBlock, ed).

Definition DecryptBlock `{Codec B} (ed : encryptedData) (key : list byte) : res B :=
  paddedBlock ← decryptData ed key;
  encodedBlock ← depadBlock paddedBlock;
  Decode encodedBlock.

Definition EncryptPrivateMetadata `{Codec P} (reader : list byte) (pmd : P) (key : list byte)
    : res encryptedData :=
  encodedPmd ← Encode pmd; encryptData reader encodedPmd key.

Definition DecryptPrivateMetadata `{Codec P} (ed : encryptedData) (key : list byte) : res P :=
  encodedPmd ← decryptData ed key; Decode encodedPmd.

End encryption.

(** ** Identifiers made by the crypto layer *)

(** [MakePermanentBlockID] swallows the (impossible) error. *)
Definition MakePermanentBlockID (encodedEncryptedData : list byte) : res BlockID :=
  match DefaultHash encodedEncryptedData with
  | Ok h => Ok (MkBlockID h)
  | _ => Ok (MkBlockID (MkHash EmptyString))
  end.

Definition VerifyBlockID (encodedEncryptedData : list byte) (id : BlockID) : res unit :=
  Hash_Verify (block_id_h id) encodedEncryptedData.

Definition MakeTemporaryBlockID (reader : list byte) : res BlockID :=
  dh ← cryptoRandRead reader 32;
  h ← HashFromRaw DefaultHashType dh;
  Ok (MkBlockID h).

Definition MakeRandomTlfID (reader : list byte) (isPublic : bool) : res TlfID :=
  id ← cryptoRandRead reader TlfIDByteLen;
  Ok (MkTlfID (<[TlfIDByteLen - 1 := if isPublic then PubTlfIDSuffix else TlfIDSuffix]> id)).

Definition MakeRandomBranchID (reader : list byte) : res BranchID :=
  id ← cryptoRandRead reader BranchIDByteLen; Ok (MkBranchID id).

Definition MakeBlockRefNonce (reader : list byte) : res BlockRefNonce :=
  cryptoRandRead reader 8.

Definition GetTLFCryptKeyServerHalfID (userBytes deviceBytes serverHalf : list byte) : res HMAC :=
  DefaultHMAC serverHalf (userBytes ++ deviceBytes).

Definition VerifyTLFCryptKeyServerHalfID (serverHalfID : HMAC)
    (userBytes deviceBytes serverHalf : list byte) : res unit :=
  HMAC_Verify serverHalfID serverHalf (userBytes ++ deviceBytes).

(** ** Powers of two *)

(** [x] has its highest bit at [k] and the [m] bits from [k] down set. *)
Definition smeared (k m x : Z) : Prop :=
  (∀ i, k < i → Z.testbit x i = false)%Z ∧
  (∀ i, 0 <= i → k - m < i <= k → Z.testbit x i = true)%Z.

Lemma smeared_step k m x :
  (0 <= m)%Z → smeared k m x → smeared k (2 * m) (Z.lor x (Z.shiftr x m)).
Proof.
  intros Hm [Hhi Hlo]. split.
  - intros i Hi. rewrite Z.lor_spec, Hhi by done. simpl.
    destruct (decide (0 <= i)%Z); [|by rewrite Z.testbit_neg_r by lia].
    rewrite Z.shiftr_spec by done. apply Hhi. lia.
  - intros i Hi0 Hi. rewrite Z.lor_spec, Z.shiftr_spec by done.
    destruct (decide (k - m < i)%Z).
    + by rewrite Hlo by lia.
    + rewrite (Hlo (i + m)%Z) by lia. apply orb_true_r.
Qed.

Lemma smeared_full k m x : (0 <= k < m)%Z → smeared k m x → (x + 1 = 2 ^ (k + 1))%Z.
Proof.
  intros Hk [Hhi Hlo]. enough (x = Z.ones (k + 1)) as ->.
  { rewrite Z.ones_equiv. lia. }
  apply Z.bits_inj'. intros i Hi. destruct (decide (i < k + 1)%Z).
  - rewrite Z.ones_spec_low by lia. apply Hlo; lia.
  - rewrite Z.ones_spec_high by lia. apply Hhi; lia.
Qed.

Lemma smeared_log2 x : (0 < x)%Z → smeared (Z.log2 x) 1 x.
Proof.
  intros Hx. split.
  - intros i Hi. apply Z.bits_above_log2; lia.
  - intros i _ Hi. replace i with (Z.log2 x) by lia. by apply Z.bit_log2.
Qed.

Lemma smear32 x :
  (0 < x < 2 ^ 32)%Z →
  let n := Z.lor x (Z.shiftr x 1) in
  let n := Z.lor n (Z.shiftr n 2) in
  let n := Z.lor n (Z.shiftr n 4) in
  let n := Z.lor n (Z.shiftr n 8) in
  let n := Z.lor n (Z.shiftr n 16) in
  (n + 1 = 2 ^ (Z.log2 x + 1))%Z.
Proof.
  intros Hx. cbv zeta.
  assert (0 <= Z.log2 x < 32)%Z as Hk.
  { split; [apply Z.log2_nonneg|]. apply Z.log2_lt_pow2; lia. }
  apply (smeared_full (Z.log2 x) 32); [lia|].
  apply (smeared_step _ 16), (smeared_step _ 8), (smeared_step _ 4), (smeared_step _ 2),
    (smeared_step _ 1), smeared_log2; lia.
Qed.

Lemma land_pred_pow2 k : (0 <= k)%Z → Z.land (2 ^ k) (2 ^ k - 1) = 0%Z.
Proof.
  intros Hk. rewrite Z.sub_1_r, <- Z.ones_equiv, Z.land_ones by done.
  apply Z.mod_same. lia.
Qed.

Lemma log2_pred n : (1 < n)%Z → Z.land n (n - 1) ≠ 0%Z → Z.log2 (n - 1) = Z.log2 n.
Proof.
  intros Hn Hland. pose proof (Z.log2_spec n ltac:(lia)) as [Hlo Hhi].
  pose proof (Z.log2_nonneg n).
  apply Z.log2_unique; [done|]. split; [|lia].
  destruct (decide (n = 2 ^ Z.log2 n)%Z) as [Heq|]; [|lia].
  exfalso. apply Hland. rewrite Heq. by apply land_pred_pow2.
Qed.

Lemma nextPowerOfTwo_eq n :
  (256 <= n < 2 ^ 32 - 1)%Z → nextPowerOfTwo n = to_u32 (2 ^ (Z.log2 n + 1)).
Proof.
  intros Hn. unfold nextPowerOfTwo, minBlockSize.
  destruct (Z.ltb_spec n 256); [lia|]. cbv zeta.
  rewrite (to_u32_small (n - 1)) by lia.
  destruct (Z.eqb_spec (Z.land n (n - 1)) 0) as [E|E].
  - rewrite (to_u32_small (n + 1)), (to_u32_small (n + 1 - 1)) by lia.
    replace (n + 1 - 1)%Z with n by lia. f_equal. apply smear32. lia.
  - rewrite (to_u32_small (n - 1)) by lia. f_equal.
    rewrite smear32 by lia. by rewrite log2_pred by lia.
Qed.

Lemma nextPowerOfTwo_range n :
  (0 <= n < 2 ^ 31)%Z → (n < nextPowerOfTwo n <= 2 ^ 31)%Z.
Proof.
  intros Hn. destruct (decide (n < 256)%Z) as [Hs|Hs].
  { unfold nextPowerOfTwo, minBlockSize. destruct (Z.ltb_spec n 256); lia. }
  pose proof (Z.log2_spec n ltac:(lia)) as [Hlo Hhi].
  assert (Z.log2 n < 31)%Z by (apply Z.log2_lt_pow2; lia).
  assert (2 ^ (Z.log2 n + 1) <= 2 ^ 31)%Z by (apply Z.pow_le_mono_r; lia).
  rewrite nextPowerOfTwo_eq, to_u32_small by lia. rewrite Z.add_1_r in *. lia.
Qed.

(** Below 2^31, [nextPowerOfTwo] returns the least power of two that
    is at least [minBlockSize] and strictly greater than its argument. *)
Theorem nextPowerOfTwo_least n :
  (0 <= n < 2 ^ 31)%Z →
  (∃ k, 0 <= k ∧ nextPowerOfTwo n = 2 ^ k)%Z ∧
  (n < nextPowerOfTwo n ∧ minBlockSize <= nextPowerOfTwo n)%Z ∧
  (∀ j, 0 <= j → n < 2 ^ j → minBlockSize <= 2 ^ j → nextPowerOfTwo n <= 2 ^ j)%Z.
Proof.
  intros Hn. destruct (decide (n < 256)%Z) as [Hs|Hs].
  { unfold nextPowerOfTwo, minBlockSize. destruct (Z.ltb_spec n 256); [|lia].
    split_and!; [by exists 8%Z|lia|lia|lia]. }
  pose proof (Z.log2_spec n ltac:(lia)) as [Hlo Hhi].
  assert (8 <= Z.log2 n)%Z as H8 by (change 8%Z with (Z.log2 256); apply Z.log2_le_mono; lia).
  assert (Z.log2 n < 31)%Z by (apply Z.log2_lt_pow2; lia).
  pose proof (nextPowerOfTwo_range n Hn) as Hr.
  assert (2 ^ (Z.log2 n + 1) < 2 ^ 32)%Z by (apply Z.pow_lt_mono_r; lia).
  rewrite nextPowerOfTwo_eq, to_u32_small in * by lia. rewrite Z.add_1_r in *.
  split_and!.
  - eexists. split; [|reflexivity]. lia.
  - lia.
  - unfold minBlockSize. change 256%Z with (2 ^ 8)%Z. apply Z.pow_le_mono_r; lia.
  - intros j Hj Hnj _. apply Z.pow_le_mono_r; [lia|].
    apply Z.le_succ_l. apply (Z.pow_lt_mono_r_iff 2); lia.
Qed.

Lemma nextPowerOfTwo_least_witness :
  (300 < nextPowerOfTwo 300)%Z ∧ nextPowerOfTwo 300 = 512%Z.
Proof.
  split; [|reflexivity].
  destruct (nextPowerOfTwo_least 300 ltac:(lia)) as (_ & [H _] & _). exact H.
Defined.

(** ** Padding and removing the padding *)

Lemma CopyN_Ok reader n r :
  (0 <= n)%Z → CopyN reader n = Ok r → r = take (Z.to_nat n) reader ∧ zlen r = n.
Proof.
  intros Hn. unfold CopyN. case_decide; [done|]. intros [= <-]. split; [done|].
  unfold zlen in *. rewrite length_take. lia.
Qed.

Lemma read_u32_put x l :
  (0 <= x < 2 ^ 32)%Z → read_u32 (put_le 4 x ++ l) = Ok (x, l).
Proof.
  intros Hx. cbn [put_le app read_u32]. do 2 f_equal.
  change ([_; _; _; _]) with (put_le 4 x). rewrite get_put_le. by apply Z.mod_small.
Qed.

Lemma padBlock_Ok reader block p :
  padBlock reader block = Ok p →
  ∃ pad, p = put_le 4 (to_u32 (zlen block)) ++ block ++ pad ∧
    zlen pad = to_u32 (nextPowerOfTwo (to_u32 (zlen block)) - to_u32 (zlen block)).
Proof.
  unfold padBlock. cbv zeta. intros (pad & Hc & Hp)%bind_Ok.
  case_decide; [done|]. simplify_eq.
  apply CopyN_Ok in Hc as [_ Hc]; [by eauto|]. apply to_u32_bound.
Qed.

Lemma depadBlock_padBlock reader block p :
  (zlen block < 2 ^ 32 - 4)%Z → padBlock reader block = Ok p → depadBlock p = Ok block.
Proof.
  intros Hlen (pad & -> & _)%padBlock_Ok.
  pose proof (zlen_nonneg block). rewrite (to_u32_small (zlen block)) by lia.
  unfold depadBlock. rewrite read_u32_put by lia. cbn [mbind res_bind].
  unfold padPrefixSize. rewrite to_u32_small by lia. rewrite decide_False; last first.
  { unfold zlen. rewrite !length_app, length_put_le. lia. }
  f_equal. rewrite take_app_length'; [done|]. unfold zlen. lia.
Qed.

(** Padding then removing the padding returns the block, and the
    padded block has the 4-byte length followed by the next power of two
    of bytes, whatever random bytes are drawn. *)
Theorem padBlock_roundtrip reader block :
  (zlen block < 2 ^ 31)%Z →
  (nextPowerOfTwo (zlen block) - zlen block <= zlen reader)%Z →
  ∃ p, padBlock reader block = Ok p ∧
    zlen p = (padPrefixSize + nextPowerOfTwo (zlen block))%Z ∧ depadBlock p = Ok block.
Proof.
  intros Hlen Hr. pose proof (zlen_nonneg block) as H0.
  pose proof (nextPowerOfTwo_range (zlen block) ltac:(lia)) as Hgt.
  destruct (padBlock reader block) as [p| |] eqn:Hp.
  - exists p. split_and!; [done| |by eapply depadBlock_padBlock; [lia|]].
    apply padBlock_Ok in Hp as (pad & -> & Hpad).
    rewrite !(to_u32_small (zlen block)), to_u32_small in * by lia.
    rewrite !zlen_app, Hpad. unfold zlen at 1. rewrite length_put_le.
    unfold padPrefixSize. lia.
  - exfalso. revert Hp. unfold padBlock, CopyN. cbv zeta.
    rewrite !(to_u32_small (zlen block)), to_u32_small by lia.
    rewrite decide_False by lia. cbn [mbind res_bind].
    rewrite decide_False; [done|]. intros Hne; apply Hne. unfold zlen in *.
    rewrite length_take. lia.
  - exfalso. revert Hp. unfold padBlock, CopyN. cbv zeta.
    case_decide; [done|]. simpl. by case_decide.
Qed.

(** [depadBlock] on any input whose length prefix is below 2^32 - 4:
    inputs shorter than the prefix or than the announced length are
    errors, and otherwise exactly the announced bytes are returned. *)
Theorem depadBlock_spec p :
  (get_le (take 4 p) < 2 ^ 32 - 4)%Z →
  depadBlock p =
    if decide (zlen p = 0)%Z then Err IoEOF
    else if decide (zlen p < 4)%Z then Err IoErrUnexpectedEOF
    else
      let n := get_le (take 4 p) in
      if decide (zlen p < n + 4)%Z then Err (PaddedBlockReadError (zlen p) (n + 4))
      else Ok (take (Z.to_nat n) (drop 4 p)).
Proof.
  intros Hn. destruct p as [|a [|b [|c [|d rest]]]]; try reflexivity.
  rewrite decide_False by (unfold zlen; simpl; lia).
  rewrite decide_False by (unfold zlen; simpl; lia).
  change (take 4 _) with [a; b; c; d] in *. change (drop 4 _) with rest.
  pose proof (get_le_bound [a; b; c; d]) as Hb.
  unfold depadBlock. cbn [read_u32 mbind res_bind]. unfold padPrefixSize.
  rewrite to_u32_small by lia. done.
Qed.

(** The length check of [depadBlock] wraps around: for a length
    prefix of 2^32 - 4 or more it is vacuous, and the call returns
    whatever follows the prefix instead of [PaddedBlockReadError]. *)
Theorem depadBlock_prefix_overflow p :
  (4 <= zlen p)%Z → (2 ^ 32 - 4 <= get_le (take 4 p))%Z →
  depadBlock p = Ok (take (Z.to_nat (get_le (take 4 p))) (drop 4 p)).
Proof.
  intros Hp Hn.
  destruct p as [|a [|b [|c [|d rest]]]]; try (unfold zlen in Hp; simpl in Hp; lia).
  change (take 4 _) with [a; b; c; d] in *. change (drop 4 _) with rest.
  pose proof (get_le_bound [a; b; c; d]) as Hb. change (256 ^ zlen _)%Z with (2 ^ 32)%Z in Hb.
  unfold depadBlock. cbn [read_u32 mbind res_bind]. unfold padPrefixSize.
  assert (to_u32 (get_le [a; b; c; d] + 4) = get_le [a; b; c; d] + 4 - 2 ^ 32)%Z as ->.
  { unfold to_u32. rewrite <- (Z.mod_add _ (-1)) by lia. rewrite Z.mod_small; lia. }
  rewrite decide_False by lia. done.
Qed.

Lemma padBlock_roundtrip_witness :
  ∃ p, padBlock (replicate 253 xff) [x01; x02; x03] = Ok p ∧ zlen p = 260%Z ∧
       depadBlock p = Ok [x01; x02; x03].
Proof.
  apply (padBlock_roundtrip (replicate 253 xff) [x01; x02; x03]); vm_compute; congruence.
Defined.

Lemma depadBlock_spec_witness :
  depadBlock [x05; x00; x00; x00; xaa] = Err (PaddedBlockReadError 5 9).
Proof.
  rewrite (depadBlock_spec [x05; x00; x00; x00; xaa]); [reflexivity|reflexivity].
Defined.

Lemma depadBlock_prefix_overflow_witness :
  depadBlock [xff; xff; xff; xff; xaa; xbb] = Ok [xaa; xbb].
Proof.
  rewrite (depadBlock_prefix_overflow [xff; xff; xff; xff; xaa; xbb]);
    [|vm_compute; congruence|vm_compute; congruence].
  change (get_le (take 4 [xff; xff; xff; xff; xaa; xbb])) with 4294967295%Z.
  apply f_equal. apply take_ge. apply Nat2Z.inj_le. rewrite Z2Nat.id by done. vm_compute. congruence.
Defined.

(** ** Key halves *)

Lemma lxor_byte_bound a b : (0 <= Z.lxor (byte_val a) (byte_val b) < 256)%Z.
Proof.
  pose proof (byte_val_bound a). pose proof (byte_val_bound b).
  split; [apply Z.lxor_nonneg; lia|].
  destruct (decide (Z.lxor (byte_val a) (byte_val b) = 0)%Z) as [->|Hne]; [done|].
  assert (0 < Z.lxor (byte_val a) (byte_val b))%Z.
  { pose proof (proj2 (Z.lxor_nonneg (byte_val a) (byte_val b))). lia. }
  change 256%Z with (2 ^ 8)%Z. apply Z.log2_lt_pow2; [done|].
  eapply Z.le_lt_trans; [by apply Z.log2_lxor; lia|].
  apply Z.max_lub_lt.
  - destruct (decide (byte_val a = 0)%Z) as [->|]; [done|]. apply Z.log2_lt_pow2; lia.
  - destruct (decide (byte_val b = 0)%Z) as [->|]; [done|]. apply Z.log2_lt_pow2; lia.
Qed.

Lemma xor_bytes_cancel x y : length x = length y → xor_bytes x (xor_bytes x y) = y.
Proof.
  revert y. induction x as [|a x IH]; intros [|b y] Hl; simpl in *; try done.
  unfold xor_bytes in *. simpl. f_equal; [|apply IH; lia].
  rewrite byte_val_to_byte, (Z.mod_small (Z.lxor _ _)) by apply lxor_byte_bound.
  by rewrite <- Z.lxor_assoc, Z.lxor_nilpotent, Z.lxor_0_l, to_byte_val.
Qed.

(** The two halves of a TLF key: unmasking the client half with the
    server half it was masked with returns the key, for all 32-byte
    keys. *)
Theorem UnmaskTLFCryptKey_Mask serverHalf key :
  length serverHalf = 32 → length key = 32 →
  (clientHalf ← MaskTLFCryptKey serverHalf key; UnmaskTLFCryptKey serverHalf clientHalf) = Ok key.
Proof.
  intros Hs Hk. simpl. unfold UnmaskTLFCryptKey, xorKeys.
  by rewrite xor_bytes_cancel by congruence.
Qed.

Lemma UnmaskTLFCryptKey_Mask_witness :
  (clientHalf ← MaskTLFCryptKey (replicate 32 x5a) (replicate 32 xc3);
   UnmaskTLFCryptKey (replicate 32 x5a) clientHalf) = Ok (replicate 32 xc3).
Proof. apply (UnmaskTLFCryptKey_Mask (replicate 32 x5a) (replicate 32 xc3)); reflexivity. Defined.

(** ** Encryption *)

Lemma cryptoRandRead_Ok reader n r : cryptoRandRead reader n = Ok r → length r = n.
Proof.
  unfold cryptoRandRead. intros (buf & _ & Hr)%bind_Ok. case_decide as Hd; [done|].
  by injection Hr as ->.
Qed.

Section roundtrip.
Context `{SecretBox}.

Lemma decryptData_encryptData reader data key ed :
  encryptData reader data key = Ok ed → decryptData ed key = Ok data.
Proof.
  unfold encryptData. intros (nonce & Hn & [= <-])%bind_Ok.
  apply cryptoRandRead_Ok in Hn. unfold decryptData. simpl.
  rewrite (decide_False (P := length nonce ≠ 24)) by naive_solver.
  by rewrite Open_Seal.
Qed.

Lemma DecryptBlock_Encrypt `{Codec B} r1 r2 (block : B) key plainSize ed :
  EncryptBlock r1 r2 block key = Ok (plainSize, ed) → (plainSize < 2 ^ 32 - 4)%Z → DecryptBlock ed key = Ok block.
Proof.
  unfold EncryptBlock. intros (enc & He & Hr)%bind_Ok.
  apply bind_Ok in Hr as (padded & Hp & (ed' & Hed & Heq)%bind_Ok). simplify_eq. intros Hlen.
  unfold DecryptBlock.
  rewrite (decryptData_encryptData _ _ _ _ Hed). cbn [mbind res_bind].
  rewrite (depadBlock_padBlock _ _ _ Hlen Hp). cbn [mbind res_bind].
  by apply Decode_Encode.
Qed.

(** A block encrypted with a key decrypts with that key to the same
    block, for any codec and secretbox that round-trip, whenever the
    encoded block is shorter than 2^32 - 4 bytes. *)
Theorem DecryptBlock_EncryptBlock `{Codec B} r1 r2 (block : B) key plainSize ed :
  EncryptBlock r1 r2 block key = Ok (plainSize, ed) →
  (plainSize < 2 ^ 32 - 4)%Z →
  DecryptBlock ed key = Ok block.
Proof. apply DecryptBlock_Encrypt. Qed.

End roundtrip.

(** A secretbox and a codec that satisfy the laws: the identity cipher
    and byte strings as they are. *)
#[local] Program Instance id_box : SecretBox := {|
  Seal m _ _ := m;
  Open c _ _ := Some c
|}.
Next Obligation. done. Qed.

#[local] Program Instance bytes_codec : Codec (list byte) := {|
  Encode l := Ok l;
  Decode l := Ok l
|}.
Next Obligation. simpl. naive_solver. Qed.

Lemma DecryptBlock_EncryptBlock_witness :
  ∃ ed, EncryptBlock (replicate 256 x07) (replicate 24 x09) [x0a; x0b] [] = Ok (2%Z, ed) ∧
        DecryptBlock ed [] = Ok [x0a; x0b].
Proof.
  eexists. split.
  - reflexivity.
  - apply (DecryptBlock_EncryptBlock (replicate 256 x07) (replicate 24 x09) [x0a; x0b] [] 2%Z);
      [reflexivity|reflexivity].
Defined.

(** ** Identifiers *)

Lemma VerifyBlockID_iff data id : VerifyBlockID data id = Ok tt ↔ MakePermanentBlockID data = Ok id.
Proof.
  destruct (DefaultHash_total data) as (h & Hh & _ & Hv).
  unfold VerifyBlockID, MakePermanentBlockID. rewrite Hash_Verify_default, Hh.
  destruct id as [h']; simpl. split; [by intros [= ->]|by intros [= ->]].
Qed.

(** Block ids are content addresses: [VerifyBlockID] accepts data
    for an id exactly when [MakePermanentBlockID] of the data is that
    id, and that call always returns a valid id. *)
Theorem VerifyBlockID_permanent data id :
  (VerifyBlockID data id = Ok tt ↔ MakePermanentBlockID data = Ok id) ∧
  (∃ i, MakePermanentBlockID data = Ok i ∧ BlockID_IsValid i = true).
Proof.
  split; [apply VerifyBlockID_iff|]. destruct (DefaultHash_total data) as (h & Hh & _ & Hv).
  unfold MakePermanentBlockID. rewrite Hh. by eexists.
Qed.

Lemma MakeRandomTlfID_Ok reader isPublic id :
  MakeRandomTlfID reader isPublic = Ok id →
  TlfID_wf id ∧ is_Ok (TlfID_MarshalBinary id) = true ∧ TlfID_IsPublic id = isPublic.
Proof.
  unfold MakeRandomTlfID. intros (l & Hl%cryptoRandRead_Ok & [= <-])%bind_Ok.
  unfold TlfID_wf, TlfID_IsPublic, TlfID_MarshalBinary, TlfID_suffix. cbn [tlf_id].
  rewrite length_insert, list_lookup_insert_eq by (rewrite Hl; unfold TlfIDByteLen; lia).
  split; [done|]. by destruct isPublic.
Qed.
