(* ===== verification/Splitter.v ===== *)
(** * Splitter: the simple block splitter

    Models [libkbfs/bsplitter_simple.go]: the constructor, which looks
    for the contents size whose encoding has the desired length,
    [CopyUntilSplit], which copies data into a file block up to the
    maximum size, [CheckSplit] and [ShouldEmbedBlockChanges].  Also the
    byte-array operations ([overwrite], [write_at]) that specify writes
    to a block or to a whole file. *)

From Stdlib Require Import ZArith Lia.
From S2P Require Import Prelude Types Errors GoStd CryptoCommon.

(** ** Byte arrays *)

Definition zeros (n : nat) : list byte := replicate n x00.

(** [c] with zero bytes appended up to length [n]. *)
Definition extend (n : nat) (c : list byte) : list byte := c ++ zeros (n - length c).

(** The bytes of [c] from [off] on replaced by those of [d]. *)
Definition overwrite (off : nat) (d c : list byte) : list byte :=
  take off c ++ d ++ drop (off + length d) c.

(** The contents of a file after writing [d] at [off]: a gap before
    [off] reads as zeros. *)
Definition write_at (off : nat) (d c : list byte) : list byte :=
  overwrite off d (extend (off + length d) c).

(** ** The splitter *)

Record BlockSplitterSimple := MkBlockSplitterSimple {
  bs_maxSize : Z;
  bs_blockChangeEmbedMaxSize : Z
}.

Definition set_Contents (b : FileBlock) (c : list byte) : FileBlock :=
  MkFileBlock (fb_CommonBlock b) c (fb_IPtrs b).

(** [copy(b.Contents[off:off+toCopy], data[:toCopy])]: both slice
    expressions panic out of range. *)
Definition copy_slice (c : list byte) (off toCopy : Z) (data : list byte) : res (list byte) :=
  if decide (0 <= toCopy ∧ 0 <= off ∧ off + toCopy <= zlen c ∧ toCopy <= zlen data)%Z
  then Ok (overwrite (Z.to_nat off) (take (Z.to_nat toCopy) data) c)
  else Panic "slice bounds out of range".

(** [int64] arithmetic wraps around. *)
Definition CopyUntilSplit (b : BlockSplitterSimple) (lastBlock : bool)
    (data : list byte) (off : Z) : go FileBlock Z := λ block,
  let n := zlen data in
  let currLen := zlen (fb_Contents block) in
  let finish (block : FileBlock) (toCopy : Z) : res Z * FileBlock :=
    if decide (off > zlen (fb_Contents block))%Z then (Ok 0%Z, block)
    else
      match copy_slice (fb_Contents block) off toCopy data with
      | Ok c => (Ok toCopy, set_Contents block c)
      | Err e => (Err e, block)
      | Panic s => (Panic s, block)
      end in
  let grow (moreNeeded : Z) : FileBlock :=
    if decide (moreNeeded > 0)%Z
    then set_Contents block (fb_Contents block ++ zeros (Z.to_nat moreNeeded))
    else block in
  if decide (currLen < to_i64 (off + n))%Z then
    let moreNeeded := to_i64 (to_i64 (n + off) - currLen) in
    if decide (to_i64 (moreNeeded + currLen) > bs_maxSize b)%Z then
      let moreNeeded := (bs_maxSize b - currLen)%Z in
      if decide (moreNeeded < 0)%Z then (Ok 0%Z, block)
      else finish (grow moreNeeded) (bs_maxSize b - off)%Z
    else finish (grow moreNeeded) n
  else finish block n.

Definition CheckSplit (b : BlockSplitterSimple) (block : FileBlock) : Z := 0.

Definition ShouldEmbedBlockChanges (b : BlockSplitterSimple) (sizeEstimate : Z) : bool :=
  bool_decide (sizeEstimate <= bs_blockChangeEmbedMaxSize b)%Z.

(** The data used to measure the encoding: [byte(i)] at each index [i]. *)
Definition fullData (n : Z) : list byte := (λ i, to_byte (Z.of_nat i)) <$> seq 0 (Z.to_nat n).

Section constructor.
Context `{Codec FileBlock}.

(** At most [fuel] attempts; [encodedLen] is the length the last attempt
    measured (0 before the first). *)
Fixpoint find_maxSize (fuel : nat) (desired maxSize encodedLen : Z) : res (Z * Z) :=
  match fuel with
  | O => Ok (maxSize, encodedLen)
  | S fuel =>
      if decide (0 <= maxSize <= Z.max 0 desired)%Z then
        encoded ← Encode (set_Contents NewFileBlock (take (Z.to_nat maxSize) (fullData desired)));
        let encodedLen := zlen encoded in
        if decide (encodedLen >= 2 * desired)%Z
        then Err (Errorf "Encoded block is more than twice as big as the desired block size")
        else if decide (encodedLen = desired) then Ok (maxSize, encodedLen)
        else find_maxSize fuel desired (maxSize + (desired - encodedLen))%Z encodedLen
      else Panic "slice bounds out of range"
  end.

Definition NewBlockSplitterSimple (desiredBlockSize blockChangeEmbedMaxSize : Z)
    : res BlockSplitterSimple :=
  let desired :=
    if decide (Z.land desiredBlockSize (desiredBlockSize - 1) = 0)%Z
    then (desiredBlockSize - 1)%Z else desiredBlockSize in
  if decide (desired < 0)%Z then Panic "makeslice: len out of range"
  else
    '(maxSize, encodedLen) ← find_maxSize 10 desired desired 0;
    if decide (encodedLen ≠ desired)
    then Err (Errorf "Couldn't converge on a max block size")
    else Ok (MkBlockSplitterSimple maxSize blockChangeEmbedMaxSize).

End constructor.

(** ** Facts on byte arrays *)

Lemma length_zeros n : length (zeros n) = n.
Proof. apply length_replicate. Qed.

Lemma length_extend n c : length (extend n c) = max n (length c).
Proof. unfold extend. rewrite length_app, length_zeros. lia. Qed.

Lemma length_overwrite off d c :
  off + length d <= length c → length (overwrite off d c) = length c.
Proof. intros. unfold overwrite. rewrite !length_app, length_take, length_drop. lia. Qed.

Lemma length_write_at off d c :
  length (write_at off d c) = max (off + length d) (length c).
Proof.
  unfold write_at. rewrite length_overwrite; rewrite length_extend; lia.
Qed.

Lemma extend_ge n c : n <= length c → extend n c = c.
Proof. intros. unfold extend. replace (n - length c) with 0 by lia. apply app_nil_r. Qed.

Lemma overwrite_nil off c : overwrite off [] c = c.
Proof. unfold overwrite. simpl. by rewrite Nat.add_0_r, take_drop. Qed.


(** Byte arrays are compared by their length and their bytes, a byte
    past the end reading as zero. *)
Definition byte_at (c : list byte) (i : nat) : byte := default x00 (c !! i).

Lemma byte_at_ext c c' :
  length c = length c' → (∀ i, byte_at c i = byte_at c' i) → c = c'.
Proof.
  intros Hl Hb. apply list_eq. intros i. specialize (Hb i). unfold byte_at in Hb.
  destruct (decide (i < length c)).
  - destruct (lookup_lt_is_Some_2 c i) as [x Hx]; [lia|].
    destruct (lookup_lt_is_Some_2 c' i) as [y Hy]; [lia|].
    rewrite Hx, Hy in *. simpl in Hb. by subst.
  - by rewrite !lookup_ge_None_2 by lia.
Qed.

Lemma byte_at_ge c i : length c <= i → byte_at c i = x00.
Proof. intros. unfold byte_at. by rewrite lookup_ge_None_2. Qed.

Lemma byte_at_app c d i :
  byte_at (c ++ d) i = if decide (i < length c) then byte_at c i else byte_at d (i - length c).
Proof.
  unfold byte_at. case_decide; [by rewrite lookup_app_l|by rewrite lookup_app_r by lia].
Qed.

Lemma byte_at_zeros n i : byte_at (zeros n) i = x00.
Proof.
  unfold byte_at, zeros. destruct (decide (i < n)); [by rewrite lookup_replicate_2|].
  by rewrite lookup_ge_None_2 by (rewrite length_replicate; lia).
Qed.

Lemma byte_at_extend n c i : byte_at (extend n c) i = byte_at c i.
Proof.
  unfold extend. rewrite byte_at_app, byte_at_zeros. case_decide; [done|].
  by rewrite byte_at_ge by lia.
Qed.

Lemma byte_at_take n c i : byte_at (take n c) i = if decide (i < n) then byte_at c i else x00.
Proof.
  unfold byte_at. case_decide; [by rewrite lookup_take_lt|by rewrite lookup_take_ge by lia].
Qed.

Lemma byte_at_drop n c i : byte_at (drop n c) i = byte_at c (n + i).
Proof. unfold byte_at. by rewrite lookup_drop. Qed.

Lemma byte_at_overwrite off d c i :
  off <= length c →
  byte_at (overwrite off d c) i =
    if decide (off <= i < off + length d) then byte_at d (i - off) else byte_at c i.
Proof.
  intros Hoff. unfold overwrite.
  rewrite !byte_at_app, byte_at_take, byte_at_drop, length_take.
  repeat case_decide; try lia; try done; f_equal; lia.
Qed.

Lemma byte_at_write_at off d c i :
  byte_at (write_at off d c) i =
    if decide (off <= i < off + length d) then byte_at d (i - off) else byte_at c i.
Proof.
  unfold write_at. rewrite byte_at_overwrite, byte_at_extend; [done|].
  rewrite length_extend. lia.
Qed.

Create Rewrite HintDb bytes.
#[export] Hint Rewrite length_zeros length_extend length_write_at @length_app @length_take
  @length_drop : bytes.
#[export] Hint Rewrite byte_at_app byte_at_zeros byte_at_extend byte_at_take byte_at_drop
  byte_at_write_at : bytes.

(** Equality of byte arrays, by length and pointwise. *)
Ltac bytes_ext :=
  apply byte_at_ext; [autorewrite with bytes; try lia
    | intros ?; autorewrite with bytes; repeat case_decide; try done; try lia; try (f_equal; lia)].

(** Writing [d1 ++ d2] is writing [d1] and then [d2] right after it. *)
Lemma write_at_app off d1 d2 c :
  write_at off (d1 ++ d2) c = write_at (off + length d1) d2 (write_at off d1 c).
Proof. bytes_ext. Qed.

(** A write inside or adjacent to [c1] does not see what follows it. *)
Lemma write_at_app_l off d c1 c2 :
  off + length d <= length c1 → write_at off d (c1 ++ c2) = write_at off d c1 ++ c2.
Proof. intros. bytes_ext. Qed.

(** A write that starts after [c1] only changes what follows it. *)
Lemma write_at_app_r off d c1 c2 :
  length c1 <= off → write_at off d (c1 ++ c2) = c1 ++ write_at (off - length c1) d c2.
Proof. intros. bytes_ext. Qed.

Lemma overwrite_app off d1 d2 c :
  off + length d1 + length d2 <= length c →
  overwrite (off + length d1) d2 (overwrite off d1 c) = overwrite off (d1 ++ d2) c.
Proof.
  intros Hl. apply byte_at_ext.
  - rewrite !length_overwrite; rewrite ?length_overwrite, ?length_app; lia.
  - intros i. rewrite !byte_at_overwrite, length_app, byte_at_app
      by (rewrite ?length_overwrite; lia).
    repeat case_decide; try lia; try done; f_equal; lia.
Qed.

(** Writing zeros at the end extends the array. *)
Lemma write_at_end_zeros n c :
  length c <= n → write_at (length c) (zeros (n - length c)) c = extend n c.
Proof. intros. bytes_ext. by rewrite byte_at_ge by lia. Qed.

(** ** CopyUntilSplit *)

Lemma copy_slice_Ok c off toCopy data :
  (0 <= toCopy <= zlen data)%Z → (0 <= off)%Z → (off + toCopy <= zlen c)%Z →
  copy_slice c off toCopy data = Ok (overwrite (Z.to_nat off) (take (Z.to_nat toCopy) data) c).
Proof. intros. unfold copy_slice. rewrite decide_True by lia. done. Qed.

Lemma overwrite_write_at off d c :
  off + length d <= length c → overwrite off d c = write_at off d c.
Proof. intros. unfold write_at. by rewrite extend_ge. Qed.

Lemma write_at_extend off d n c :
  n <= off + length d → write_at off d (extend n c) = write_at off d c.
Proof. intros. bytes_ext. Qed.

Section copy_until_split.
Context (b : BlockSplitterSimple) (lastBlock : bool) (data : list byte) (off : Z).
Context (block : FileBlock).
Abbreviation c := (fb_Contents block).
Abbreviation m := (bs_maxSize b).
Hypothesis Hoff : (0 <= off)%Z.
Hypothesis Hmax : (0 <= m < 2 ^ 63)%Z.
Hypothesis Hend : (off + zlen data < 2 ^ 63)%Z.

(** What a call does, by the position of the write: inside the block,
    past the end of a block that is already over the maximum, within the
    maximum, across it, or entirely past it. *)
Definition copy_until_split_spec : res Z * FileBlock :=
  let upd c' := set_Contents block c' in
  if decide (off + zlen data <= zlen c)%Z then
    (Ok (zlen data), upd (write_at (Z.to_nat off) data c))
  else if decide (m < zlen c)%Z then (Ok 0%Z, block)
  else if decide (off + zlen data <= m)%Z then
    (Ok (zlen data), upd (write_at (Z.to_nat off) data c))
  else if decide (off <= m)%Z then
    (Ok (m - off)%Z, upd (write_at (Z.to_nat off) (take (Z.to_nat (m - off)) data) c))
  else (Ok 0%Z, upd (extend (Z.to_nat m) c)).

Lemma grow_eq k :
  (0 <= k)%Z →
  (if decide (k > 0)%Z then set_Contents block (c ++ zeros (Z.to_nat k)) else block) =
  set_Contents block (extend (length c + Z.to_nat k) c).
Proof.
  intros Hk. unfold extend. rewrite Nat.add_comm, Nat.add_sub.
  case_decide; [done|]. replace k with 0%Z by lia.
  simpl. rewrite app_nil_r. by destruct block.
Qed.

Lemma set_Contents_id : set_Contents block c = block.
Proof. by destruct block. Qed.

Lemma CopyUntilSplit_eq : CopyUntilSplit b lastBlock data off block = copy_until_split_spec.
Proof.
  pose proof (zlen_nonneg data) as Hd. pose proof (zlen_nonneg c) as Hc.
  unfold CopyUntilSplit, copy_until_split_spec. cbv zeta.
  rewrite (Z.add_comm (zlen data) off), (to_i64_small (off + zlen data)) by lia.
  destruct (decide (off + zlen data <= zlen c)%Z) as [Hin|Hin].
  { rewrite decide_False, decide_False by lia.
    rewrite copy_slice_Ok by lia. rewrite take_ge by (unfold zlen; lia).
    by rewrite overwrite_write_at by (unfold zlen in *; lia). }
  rewrite decide_True by lia.
  rewrite !(to_i64_small (off + zlen data - zlen c)) by lia.
  rewrite (to_i64_small (off + zlen data - zlen c + zlen c)) by lia.
  destruct (decide (off + zlen data <= m)%Z) as [Hle|Hle].
  { rewrite (decide_False (P := (_ > m)%Z)) by lia.
    rewrite (decide_False (P := (m < _)%Z)) by lia.
    rewrite grow_eq by lia. cbn [fb_Contents set_Contents].
    set (c' := extend _ c).
    assert (zlen c' = off + zlen data)%Z as Hc'.
    { subst c'. unfold zlen in *. rewrite length_extend. lia. }
    rewrite decide_False by lia. rewrite copy_slice_Ok by lia.
    rewrite take_ge by (unfold zlen; lia).
    rewrite overwrite_write_at by (unfold zlen in *; lia).
    subst c'. rewrite write_at_extend by (unfold zlen in *; lia). done. }
  rewrite (decide_True (P := (_ > m)%Z)) by lia.
  destruct (decide (m < zlen c)%Z) as [Hbig|Hbig]; [by rewrite decide_True by lia|].
  rewrite (decide_False (P := (_ < 0)%Z)) by lia.
  rewrite grow_eq by lia. cbn [fb_Contents set_Contents].
  replace (length c + Z.to_nat (m - zlen c)) with (Z.to_nat m) by (unfold zlen in *; lia).
  assert (zlen (extend (Z.to_nat m) c) = m) as Hm.
  { unfold zlen in *. rewrite length_extend. lia. }
  rewrite Hm. destruct (decide (off <= m)%Z).
  - rewrite decide_False by lia. rewrite copy_slice_Ok by lia.
    rewrite overwrite_write_at
      by (rewrite length_take, length_extend; unfold zlen in *; lia).
    rewrite write_at_extend by (rewrite length_take; unfold zlen in *; lia). done.
  - rewrite decide_True by lia. done.
Qed.

End copy_until_split.

(** [CopyUntilSplit] never panics; it returns how many bytes it
    copied, at most the data's length; it writes exactly that prefix of
    the data at the offset (zero bytes filling a gap) and leaves the
    other bytes alone; and it never makes a block longer than both the
    maximum size and its old length. *)
Theorem CopyUntilSplit_copies b lastBlock data off block :
  (0 <= off)%Z → (0 <= bs_maxSize b < 2 ^ 63)%Z → (off + zlen data < 2 ^ 63)%Z →
  ∃ k c', CopyUntilSplit b lastBlock data off block = (Ok k, set_Contents block c') ∧
    (0 <= k <= zlen data)%Z ∧
    (zlen c' <= Z.max (bs_maxSize b) (zlen (fb_Contents block)))%Z ∧
    (zlen (fb_Contents block) <= zlen c')%Z ∧
    (∀ i, byte_at c' i =
      if decide (off <= Z.of_nat i < off + k)%Z then byte_at data (i - Z.to_nat off)
      else byte_at (fb_Contents block) i).
Proof.
  intros Hoff Hmax Hend. rewrite CopyUntilSplit_eq by done.
  pose proof (zlen_nonneg data). pose proof (zlen_nonneg (fb_Contents block)).
  unfold copy_until_split_spec. cbv zeta. repeat case_decide.
  2: { exists 0%Z, (fb_Contents block). rewrite set_Contents_id.
       split_and!; [done|lia|lia|lia|lia|]. intros i. by rewrite decide_False by lia. }
  4: { eexists _, _. split_and!; [done|lia|lia|..].
       - unfold zlen in *. autorewrite with bytes. lia.
       - unfold zlen in *. autorewrite with bytes. lia.
       - intros i. autorewrite with bytes. by rewrite decide_False by lia. }
  all: eexists _, _; split_and!; [done|lia|lia|..]; unfold zlen in *; autorewrite with bytes;
    [lia|lia|]; intros i; autorewrite with bytes; repeat case_decide; done || lia.
Qed.

Lemma CopyUntilSplit_copies_witness :
  ∃ k c', CopyUntilSplit (MkBlockSplitterSimple 4 0) true [x01; x02; x03] 2
            (set_Contents NewFileBlock [x09]) = (Ok k, set_Contents NewFileBlock c') ∧
    k = 2%Z ∧ c' = [x09; x00; x01; x02].
Proof.
  destruct (CopyUntilSplit_copies (MkBlockSplitterSimple 4 0) true [x01; x02; x03] 2
    (set_Contents NewFileBlock [x09])) as (k & c' & Hr & _); [unfold zlen; simpl; lia..|].
  exists k, c'. split; [exact Hr|].
  vm_compute in Hr. injection Hr as <- <-. done.
Defined.

(** ** The constructor *)

Section constructor_facts.
Context `{Codec FileBlock}.

(** The measured block of a given contents size. *)
Definition test_block (desired maxSize : Z) : FileBlock :=
  set_Contents NewFileBlock (take (Z.to_nat maxSize) (fullData desired)).

Lemma find_maxSize_Ok fuel desired maxSize len0 maxSize' len :
  find_maxSize fuel desired maxSize len0 = Ok (maxSize', len) →
  len = desired → len0 ≠ desired →
  (0 <= maxSize' <= Z.max 0 desired)%Z ∧
  ∃ encoded, Encode (test_block desired maxSize') = Ok encoded ∧ zlen encoded = desired.
Proof.
  revert maxSize len0. induction fuel as [|fuel IH]; intros maxSize len0; simpl.
  { intros [= -> ->] -> ?. done. }
  case_decide as Hm; [|done].
  intros (encoded & He & Hr)%bind_Ok -> Hne. case_decide; [done|].
  case_decide as Hd.
  - simplify_eq. split; [lia|]. eauto.
  - by eapply IH.
Qed.

Lemma land_pred_zero n : (0 < n)%Z → Z.land n (n - 1) = 0%Z → n = (2 ^ Z.log2 n)%Z.
Proof.
  intros Hn Hland. pose proof (Z.log2_spec n Hn) as [Hlo Hhi].
  pose proof (Z.log2_nonneg n) as Hk.
  destruct (decide (n = 2 ^ Z.log2 n)%Z) as [|Hne]; [done|]. exfalso.
  assert (Z.log2 (n - 1) = Z.log2 n) as Hl by (apply Z.log2_unique; lia).
  assert (Z.testbit (Z.land n (n - 1)) (Z.log2 n) = true) as Hbit.
  { rewrite Z.land_spec, Z.bit_log2 by lia. rewrite <- Hl. by apply Z.bit_log2; lia. }
  by rewrite Hland, Z.bits_0 in Hbit.
Qed.

(** When the constructor succeeds on a desired size that is a power of
    two, a file block with [maxSize] bytes of contents encodes to one byte
    less than the desired size, which the padding takes as its size: full
    blocks never spill over to the next power of two. *)
Theorem NewBlockSplitterSimple_padded_size k embedMax b :
  (8 <= k < 31)%Z →
  NewBlockSplitterSimple (2 ^ k) embedMax = Ok b →
  (0 <= bs_maxSize b < 2 ^ k)%Z ∧
  ∃ encoded, Encode (test_block (2 ^ k - 1) (bs_maxSize b)) = Ok encoded ∧
    nextPowerOfTwo (zlen encoded) = (2 ^ k)%Z.
Proof.
  intros Hk. unfold NewBlockSplitterSimple. cbv zeta.
  rewrite (decide_True (P := Z.land _ _ = 0%Z)) by (apply land_pred_pow2; lia).
  assert (2 ^ 8 <= 2 ^ k)%Z by (apply Z.pow_le_mono_r; lia).
  rewrite decide_False by lia.
  intros ([maxSize len] & Hf & Hr)%bind_Ok. case_decide as Hd; [done|].
  simplify_eq. apply find_maxSize_Ok in Hf as [Hm (encoded & He & Hl)]; [|lia|lia].
  simpl. split; [lia|]. exists encoded. split; [done|]. rewrite Hl.
  assert (2 ^ k < 2 ^ 32)%Z by (apply Z.pow_lt_mono_r; lia).
  destruct (decide (k = 8)%Z) as [->|]; [done|].
  assert (2 ^ 9 <= 2 ^ k)%Z by (apply Z.pow_le_mono_r; lia).
  assert (2 ^ k = 2 * 2 ^ (k - 1))%Z.
  { rewrite <- Z.pow_succ_r by lia. f_equal. lia. }
  rewrite nextPowerOfTwo_eq by lia.
  assert (Z.log2 (2 ^ k - 1) = k - 1)%Z as ->.
  { apply Z.log2_unique; [lia|]. rewrite <- Z.add_1_r, Z.sub_add. lia. }
  rewrite Z.sub_add. apply to_u32_small. lia.
Qed.

End constructor_facts.

(** A codec for direct file blocks, with two bytes of overhead. *)
#[local] Program Instance direct_codec : Codec FileBlock := {|
  Encode b :=
    if decide (b = set_Contents NewFileBlock (fb_Contents b))
    then Ok ([xa1; x63] ++ fb_Contents b) else Err (ErrorString "indirect");
  Decode buf := Ok (set_Contents NewFileBlock (drop 2 buf))
|}.
Next Obligation. intros b buf. simpl. case_decide; intros [= <-]. simpl. by f_equal. Qed.

Lemma NewBlockSplitterSimple_padded_size_witness :
  ∃ b, NewBlockSplitterSimple (2 ^ 8) 0 = Ok b ∧ bs_maxSize b = 253%Z ∧
  ∃ encoded, Encode (test_block (2 ^ 8 - 1) (bs_maxSize b)) = Ok encoded ∧
    nextPowerOfTwo (zlen encoded) = (2 ^ 8)%Z.
Proof.
  eexists. split; [vm_compute; reflexivity|]. split; [reflexivity|].
  apply (NewBlockSplitterSimple_padded_size 8 0 (MkBlockSplitterSimple 253 0));
    [lia|vm_compute; reflexivity].
Defined.
