(* ===== verification/DataTypes.v ===== *)
(** * DataTypes: block pointers and paths

    The methods of [BlockPointer], [blockRef], [pathNode] and [path] in
    [libkbfs/data_types.go], with what the code indexes out of range
    modelled as a panic, and the facts other components use: the writer
    charged for a reference, and how child and parent paths relate. *)

From Stdlib Require Import ZArith Lia.
From S2P Require Import Prelude Types Errors GoStd Ids.

(** ** Block pointers *)

Definition blockRef_IsValid (r : blockRef) : bool := BlockID_IsValid (br_id r).

Definition BlockPointer_IsValid (p : BlockPointer) : bool := BlockID_IsValid (bp_ID p).

Definition BlockPointer_ref (p : BlockPointer) : blockRef :=
  MkBlockRef (bp_ID p) (bp_RefNonce p).

Definition UID_IsNil (u : UID) : bool := bool_decide (String.length u = 0).

Definition GetWriter (p : BlockPointer) : UID :=
  if negb (UID_IsNil (bp_Writer p)) then bp_Writer p else bp_Creator p.

Definition SetWriter (newWriter : UID) : go BlockPointer unit := λ p,
  let set_Writer w :=
    MkBlockPointer (bp_ID p) (bp_KeyGen p) (bp_DataVer p) (bp_Creator p) w (bp_RefNonce p) in
  if decide (bp_Creator p ≠ newWriter) then (Ok tt, set_Writer newWriter)
  else (Ok tt, set_Writer EmptyString).

Definition IsInitialized (p : BlockPointer) : bool :=
  bool_decide (bp_ID p ≠ MkBlockID (MkHash EmptyString)).

Definition IsFirstRef (p : BlockPointer) : bool :=
  bool_decide (bp_RefNonce p = zeroBlockRefNonce).

Definition DirEntry_BlockPointer (de : DirEntry) : BlockPointer :=
  bi_BlockPointer (de_BlockInfo de).

Definition DirEntry_IsInitialized (de : DirEntry) : bool :=
  IsInitialized (DirEntry_BlockPointer de).

(** ** Paths *)

Definition pathNode_isValid (n : pathNode) : bool := BlockPointer_IsValid (pn_BlockPointer n).

Definition path_isValid (p : path) : bool :=
  if decide (length (p_path p) < 1) then false
  else forallb pathNode_isValid (p_path p).

(** The last node; Go's [p.path[len(p.path)-1]] panics on an empty path. *)
Definition tailNode (p : path) : res pathNode :=
  match last (p_path p) with
  | Some n => Ok n
  | None => Panic "index out of range"
  end.

Definition tailName (p : path) : res string := pn_Name <$> tailNode p.
Definition tailPointer (p : path) : res BlockPointer := pn_BlockPointer <$> tailNode p.

(** [p.path[:len(p.path)-1]]. *)
Definition parentPath (p : path) : res path :=
  if decide (length (p_path p) = 0) then Panic "slice bounds out of range"
  else Ok (MkPath (p_FolderBranch p) (take (length (p_path p) - 1) (p_path p))).

Definition hasValidParent (p : path) : bool :=
  if decide (2 <= length (p_path p))
  then match parentPath p with Ok q => path_isValid q | _ => false end
  else false.

Definition ChildPath (p : path) (name : string) (ptr : BlockPointer) : path :=
  MkPath (p_FolderBranch p) (p_path p ++ [MkPathNode ptr name]).

Definition ChildPathNoPtr (p : path) (name : string) : path := ChildPath p name zeroPtr.

Definition hasPublic (p : path) : bool :=
  bool_decide (length (p_path p) = 1) && negb (TlfID_IsPublic (fbr_Tlf (p_FolderBranch p))).

(** [strings.Join] of the node names with "/". *)
Fixpoint join (sep : string) (l : list string) : string :=
  match l with
  | [] => EmptyString
  | [x] => x
  | x :: l => String.append x (String.append sep (join sep l))
  end.

Definition path_String (p : path) : string := join "/" (pn_Name <$> p_path p).

(** ** Facts *)

Lemma tailNode_ChildPath p name ptr :
  tailNode (ChildPath p name ptr) = Ok (MkPathNode ptr name).
Proof. unfold tailNode. simpl. by rewrite last_snoc. Qed.

Lemma parentPath_ChildPath p name ptr : parentPath (ChildPath p name ptr) = Ok p.
Proof.
  unfold parentPath. simpl. rewrite decide_False by (rewrite length_app; simpl; lia).
  rewrite length_app, Nat.add_sub, take_app_length. by destruct p.
Qed.

Lemma path_isValid_cons p : path_isValid p = true → p_path p ≠ [] ∧ is_Ok (tailPointer p) = true.
Proof.
  unfold path_isValid, tailPointer, tailNode. destruct (p_path p) as [|n l]; [done|].
  intros _. split; [done|]. by rewrite last_cons; destruct (last l).
Qed.

Lemma path_isValid_ChildPath p name ptr :
  path_isValid (ChildPath p name ptr) =
  (BlockPointer_IsValid ptr && (path_isValid p || bool_decide (p_path p = []))).
Proof.
  unfold path_isValid. simpl. rewrite decide_False by (rewrite length_app; simpl; lia).
  rewrite forallb_app. simpl. rewrite andb_true_r, andb_comm. f_equal.
  unfold pathNode_isValid at 2. simpl. destruct (p_path p); simpl; [done|].
  by rewrite orb_false_r.
Qed.

(** Charging a reference to a writer: [GetWriter] after [SetWriter] is
    the writer that was set, however it is stored. *)
Lemma GetWriter_SetWriter w p :
  UID_IsNil w = false → GetWriter (snd (SetWriter w p)) = w.
Proof.
  intros Hw. unfold SetWriter, GetWriter. case_decide as Hc; simpl; [by rewrite Hw|].
  done.
Qed.
