(* ===== verification/Ops.v ===== *)
(** * Ops: the operations of a metadata update

    Models [libkbfs/ops.go]: the eight operation types, their block
    bookkeeping ([AddRefBlock], [AddUpdate], [AllUpdates], ...), the
    conflict checks of conflict resolution, the collapsing of write
    ranges and the inversion used for local notifications; also
    [BlockChanges] of [data_types.go] and the action types of
    [cr_actions.go], which conflict checks return. *)

From Stdlib Require Import ZArith Lia.
From stdpp Require Import sorting.
From S2P Require Import Prelude Types Errors DataTypes.

(** ** Data *)

Record blockUpdate := MkBlockUpdate { bu_Unref : BlockPointer; bu_Ref : BlockPointer }.
#[global] Instance blockUpdate_eq_dec : EqDecision blockUpdate.
Proof. solve_decision. Defined.
(** [blockUpdate{}] *)
Definition zeroUpdate : blockUpdate := MkBlockUpdate zeroPtr zeroPtr.

Record OpCommon := MkOpCommon {
  oc_RefBlocks : list BlockPointer;
  oc_UnrefBlocks : list BlockPointer;
  oc_Updates : list blockUpdate;
  oc_writerInfo : writerInfo;
  oc_finalPath : path
}.
#[global] Instance OpCommon_eq_dec : EqDecision OpCommon.
Proof. solve_decision. Defined.

Definition zeroOpCommon : OpCommon :=
  MkOpCommon [] [] [] (MkWriterInfo EmptyString EmptyString EmptyString) zeroPath.

Record createOp := MkCreateOp {
  co_OpCommon : OpCommon;
  co_NewName : string;
  co_Dir : blockUpdate;
  co_Type : EntryType;
  co_renamed : bool;
  co_forceCopy : bool;
  co_crSymPath : string
}.
#[global] Instance createOp_eq_dec : EqDecision createOp.
Proof. solve_decision. Defined.

Record rmOp := MkRmOp {
  ro_OpCommon : OpCommon;
  ro_OldName : string;
  ro_Dir : blockUpdate;
  ro_dropThis : bool
}.
#[global] Instance rmOp_eq_dec : EqDecision rmOp.
Proof. solve_decision. Defined.

Record renameOp := MkRenameOp {
  rn_OpCommon : OpCommon;
  rn_OldName : string;
  rn_OldDir : blockUpdate;
  rn_NewName : string;
  rn_NewDir : blockUpdate;
  rn_Renamed : BlockPointer;
  rn_RenamedType : EntryType
}.
#[global] Instance renameOp_eq_dec : EqDecision renameOp.
Proof. solve_decision. Defined.

Record WriteRange := MkWriteRange { wr_Off : Z; wr_Len : Z }.
#[global] Instance WriteRange_eq_dec : EqDecision WriteRange.
Proof. solve_decision. Defined.

Record syncOp := MkSyncOp {
  so_OpCommon : OpCommon;
  so_File : blockUpdate;
  so_Writes : list WriteRange
}.
#[global] Instance syncOp_eq_dec : EqDecision syncOp.
Proof. solve_decision. Defined.

Inductive attrChange := exAttr | mtimeAttr | sizeAttr.
#[global] Instance attrChange_eq_dec : EqDecision attrChange.
Proof. solve_decision. Defined.

Record setAttrOp := MkSetAttrOp {
  sao_OpCommon : OpCommon;
  sao_Name : string;
  sao_Dir : blockUpdate;
  sao_Attr : attrChange;
  sao_File : BlockPointer
}.
#[global] Instance setAttrOp_eq_dec : EqDecision setAttrOp.
Proof. solve_decision. Defined.

Record gcOp := MkGcOp { gco_OpCommon : OpCommon; gco_LatestRev : MetadataRevision }.
#[global] Instance gcOp_eq_dec : EqDecision gcOp.
Proof. solve_decision. Defined.

(** The types that implement the [op] interface. *)
Inductive op :=
| CreateOp (o : createOp)
| RmOp (o : rmOp)
| RenameOp (o : renameOp)
| SyncOp (o : syncOp)
| SetAttrOp (o : setAttrOp)
| ResolutionOp (c : OpCommon)
| RekeyOp (c : OpCommon)
| GcOp (o : gcOp).
#[global] Instance op_eq_dec : EqDecision op.
Proof. solve_decision. Defined.

(** ** The embedded OpCommon *)

Definition op_common (o : op) : OpCommon :=
  match o with
  | CreateOp o => co_OpCommon o
  | RmOp o => ro_OpCommon o
  | RenameOp o => rn_OpCommon o
  | SyncOp o => so_OpCommon o
  | SetAttrOp o => sao_OpCommon o
  | ResolutionOp c | RekeyOp c => c
  | GcOp o => gco_OpCommon o
  end.

Definition set_common (c : OpCommon) (o : op) : op :=
  match o with
  | CreateOp o => CreateOp (MkCreateOp c (co_NewName o) (co_Dir o) (co_Type o) (co_renamed o)
                              (co_forceCopy o) (co_crSymPath o))
  | RmOp o => RmOp (MkRmOp c (ro_OldName o) (ro_Dir o) (ro_dropThis o))
  | RenameOp o => RenameOp (MkRenameOp c (rn_OldName o) (rn_OldDir o) (rn_NewName o)
                              (rn_NewDir o) (rn_Renamed o) (rn_RenamedType o))
  | SyncOp o => SyncOp (MkSyncOp c (so_File o) (so_Writes o))
  | SetAttrOp o => SetAttrOp (MkSetAttrOp c (sao_Name o) (sao_Dir o) (sao_Attr o) (sao_File o))
  | ResolutionOp _ => ResolutionOp c
  | RekeyOp _ => RekeyOp c
  | GcOp o => GcOp (MkGcOp c (gco_LatestRev o))
  end.

Definition OpCommon_AddRefBlock (ptr : BlockPointer) (c : OpCommon) : OpCommon :=
  MkOpCommon (oc_RefBlocks c ++ [ptr]) (oc_UnrefBlocks c) (oc_Updates c)
    (oc_writerInfo c) (oc_finalPath c).
Definition OpCommon_AddUnrefBlock (ptr : BlockPointer) (c : OpCommon) : OpCommon :=
  MkOpCommon (oc_RefBlocks c) (oc_UnrefBlocks c ++ [ptr]) (oc_Updates c)
    (oc_writerInfo c) (oc_finalPath c).
Definition OpCommon_AddUpdate (oldPtr newPtr : BlockPointer) (c : OpCommon) : OpCommon :=
  MkOpCommon (oc_RefBlocks c) (oc_UnrefBlocks c) (oc_Updates c ++ [MkBlockUpdate oldPtr newPtr])
    (oc_writerInfo c) (oc_finalPath c).

Definition AddRefBlock (ptr : BlockPointer) (o : op) : op :=
  set_common (OpCommon_AddRefBlock ptr (op_common o)) o.
Definition AddUnrefBlock (ptr : BlockPointer) (o : op) : op :=
  set_common (OpCommon_AddUnrefBlock ptr (op_common o)) o.
Definition Refs (o : op) : list BlockPointer := oc_RefBlocks (op_common o).
Definition Unrefs (o : op) : list BlockPointer := oc_UnrefBlocks (op_common o).
Definition setWriterInfo (info : writerInfo) (o : op) : op :=
  let c := op_common o in
  set_common (MkOpCommon (oc_RefBlocks c) (oc_UnrefBlocks c) (oc_Updates c) info
                (oc_finalPath c)) o.
Definition getWriterInfo (o : op) : writerInfo := oc_writerInfo (op_common o).
Definition setFinalPath (p : path) (o : op) : op :=
  let c := op_common o in
  set_common (MkOpCommon (oc_RefBlocks c) (oc_UnrefBlocks c) (oc_Updates c)
                (oc_writerInfo c) p) o.
Definition getFinalPath (o : op) : path := oc_finalPath (op_common o).

(** ** Constructors *)

Definition newCreateOp (name : string) (oldDir : BlockPointer) (t : EntryType) : createOp :=
  MkCreateOp zeroOpCommon name (MkBlockUpdate oldDir zeroPtr) t false false EmptyString.

Definition newRmOp (name : string) (oldDir : BlockPointer) : rmOp :=
  MkRmOp zeroOpCommon name (MkBlockUpdate oldDir zeroPtr) false.

Definition newRenameOp (oldName : string) (oldOldDir : BlockPointer) (newName : string)
    (oldNewDir renamed : BlockPointer) (renamedType : EntryType) : renameOp :=
  MkRenameOp zeroOpCommon oldName (MkBlockUpdate oldOldDir zeroPtr) newName
    (if decide (oldOldDir ≠ oldNewDir) then MkBlockUpdate oldNewDir zeroPtr else zeroUpdate)
    renamed renamedType.

Definition newSyncOp (oldFile : BlockPointer) : syncOp :=
  MkSyncOp zeroOpCommon (MkBlockUpdate oldFile zeroPtr) [].

Definition newSetAttrOp (name : string) (oldDir : BlockPointer) (attr : attrChange)
    (file : BlockPointer) : setAttrOp :=
  MkSetAttrOp zeroOpCommon name (MkBlockUpdate oldDir zeroPtr) attr file.

Definition newResolutionOp : op := ResolutionOp zeroOpCommon.
Definition newRekeyOp : op := RekeyOp zeroOpCommon.
Definition newGCOp (latestRev : MetadataRevision) : gcOp := MkGcOp zeroOpCommon latestRev.

(** ** Updates *)

Definition set_Ref (u : blockUpdate) (r : BlockPointer) : blockUpdate :=
  MkBlockUpdate (bu_Unref u) r.

Definition AddUpdate (oldPtr newPtr : BlockPointer) (o : op) : op :=
  let common := set_common (OpCommon_AddUpdate oldPtr newPtr (op_common o)) o in
  match o with
  | CreateOp c =>
      if decide (oldPtr = bu_Unref (co_Dir c)) then
        CreateOp (MkCreateOp (co_OpCommon c) (co_NewName c) (set_Ref (co_Dir c) newPtr)
          (co_Type c) (co_renamed c) (co_forceCopy c) (co_crSymPath c))
      else common
  | RmOp r =>
      if decide (oldPtr = bu_Unref (ro_Dir r)) then
        RmOp (MkRmOp (ro_OpCommon r) (ro_OldName r) (set_Ref (ro_Dir r) newPtr) (ro_dropThis r))
      else common
  | RenameOp r =>
      if decide (oldPtr = bu_Unref (rn_OldDir r)) then
        RenameOp (MkRenameOp (rn_OpCommon r) (rn_OldName r) (set_Ref (rn_OldDir r) newPtr)
          (rn_NewName r) (rn_NewDir r) (rn_Renamed r) (rn_RenamedType r))
      else if decide (rn_NewDir r ≠ zeroUpdate ∧ oldPtr = bu_Unref (rn_NewDir r)) then
        RenameOp (MkRenameOp (rn_OpCommon r) (rn_OldName r) (rn_OldDir r)
          (rn_NewName r) (set_Ref (rn_NewDir r) newPtr) (rn_Renamed r) (rn_RenamedType r))
      else common
  | SyncOp s =>
      if decide (oldPtr = bu_Unref (so_File s)) then
        SyncOp (MkSyncOp (so_OpCommon s) (set_Ref (so_File s) newPtr) (so_Writes s))
      else common
  | SetAttrOp s =>
      if decide (oldPtr = bu_Unref (sao_Dir s)) then
        SetAttrOp (MkSetAttrOp (sao_OpCommon s) (sao_Name s) (set_Ref (sao_Dir s) newPtr)
          (sao_Attr s) (sao_File s))
      else common
  | ResolutionOp _ | RekeyOp _ | GcOp _ => common
  end.

Definition AllUpdates (o : op) : list blockUpdate :=
  let updates := oc_Updates (op_common o) in
  match o with
  | CreateOp c => updates ++ [co_Dir c]
  | RmOp r => updates ++ [ro_Dir r]
  | RenameOp r =>
      if decide (rn_NewDir r ≠ zeroUpdate) then updates ++ [rn_NewDir r; rn_OldDir r]
      else updates ++ [rn_OldDir r]
  | SyncOp s => updates ++ [so_File s]
  | SetAttrOp s => updates ++ [sao_Dir s]
  | ResolutionOp _ | RekeyOp _ | GcOp _ => updates
  end.

(** The size estimate; for a rename it counts the new name twice. *)
Definition SizeExceptUpdates (o : op) : Z :=
  match o with
  | CreateOp c => Z.of_nat (String.length (co_NewName c))
  | RmOp r => Z.of_nat (String.length (ro_OldName r))
  | RenameOp r => Z.of_nat (String.length (rn_NewName r) + String.length (rn_NewName r))
  | SyncOp s => zlen (so_Writes s) * 16
  | SetAttrOp s => Z.of_nat (String.length (sao_Name s))
  | ResolutionOp _ | RekeyOp _ | GcOp _ => 0
  end.

(** ** Block changes *)

Record BlockChanges := MkBlockChanges {
  bc_Info : BlockInfo;
  bc_Ops : list op;
  bc_sizeEstimate : Z
}.

(** [reflect.TypeOf(BlockPointer{}).Size()] on a 64-bit platform: three
    strings (16 bytes each), two ints (8 each) and an 8-byte nonce. *)
Definition bpSize : Z := 72.

Definition addBPSize (bc : BlockChanges) : BlockChanges :=
  MkBlockChanges (bc_Info bc) (bc_Ops bc) (to_u64 (bc_sizeEstimate bc + bpSize)).

(** Updating the last operation, [bc.Ops[len(bc.Ops)-1]]. *)
Definition update_last (f : op → op) : go BlockChanges unit := λ bc,
  match last (bc_Ops bc) with
  | None => (Panic "index out of range", bc)
  | Some o =>
      (Ok tt, MkBlockChanges (bc_Info bc)
        (take (length (bc_Ops bc) - 1) (bc_Ops bc) ++ [f o]) (bc_sizeEstimate bc))
  end.

Definition BC_AddRefBlock (ptr : BlockPointer) : go BlockChanges unit :=
  update_last (AddRefBlock ptr) ≫= λ _, modify addBPSize.
Definition BC_AddUnrefBlock (ptr : BlockPointer) : go BlockChanges unit :=
  update_last (AddUnrefBlock ptr) ≫= λ _, modify addBPSize.
Definition BC_AddUpdate (oldPtr newPtr : BlockPointer) : go BlockChanges unit :=
  update_last (AddUpdate oldPtr newPtr) ≫= λ _, modify addBPSize ≫= λ _, modify addBPSize.
Definition BC_AddOp (o : op) : go BlockChanges unit := modify (λ bc,
  MkBlockChanges (bc_Info bc) (bc_Ops bc ++ [o])
    (to_u64 (bc_sizeEstimate bc + SizeExceptUpdates o))).

Definition BC_Equals (bc other : BlockChanges) : bool :=
  bool_decide (bc_Info bc = bc_Info other) &&
  bool_decide (length (bc_Ops bc) = length (bc_Ops other)) &&
  bool_decide (bc_sizeEstimate bc = bc_sizeEstimate other).

(** ** Conflict-resolution actions *)

Record copyUnmergedEntryAction := MkCuea {
  cuea_fromName : string;
  cuea_toName : string;
  cuea_symPath : string;
  cuea_sizeOnly : bool;
  cuea_unique : bool;
  cuea_unmergedEntry : DirEntry;
  cuea_attr : list attrChange
}.
#[global] Instance copyUnmergedEntryAction_eq_dec : EqDecision copyUnmergedEntryAction.
Proof. solve_decision. Defined.

Record copyUnmergedAttrAction := MkCuaa {
  cuaa_fromName : string;
  cuaa_toName : string;
  cuaa_attr : list attrChange
}.
#[global] Instance copyUnmergedAttrAction_eq_dec : EqDecision copyUnmergedAttrAction.
Proof. solve_decision. Defined.

Record renameUnmergedAction := MkRua {
  rua_fromName : string;
  rua_toName : string;
  rua_symPath : string;
  rua_unmergedParentMostRecent : BlockPointer;
  rua_mergedParentMostRecent : BlockPointer
}.
#[global] Instance renameUnmergedAction_eq_dec : EqDecision renameUnmergedAction.
Proof. solve_decision. Defined.

Record renameMergedAction := MkRma {
  rma_fromName : string;
  rma_toName : string;
  rma_symPath : string
}.
#[global] Instance renameMergedAction_eq_dec : EqDecision renameMergedAction.
Proof. solve_decision. Defined.

(** The types that implement the [crAction] interface. *)
Inductive crAction :=
| CopyUnmergedEntry (a : copyUnmergedEntryAction)
| CopyUnmergedAttr (a : copyUnmergedAttrAction)
| RmMergedEntry (name : string)
| RenameUnmerged (a : renameUnmergedAction)
| RenameMerged (a : renameMergedAction)
| DropUnmerged (o : op).
#[global] Instance crAction_eq_dec : EqDecision crAction.
Proof. solve_decision. Defined.

Definition zeroDirEntry : DirEntry :=
  MkDirEntry (MkBlockInfo zeroPtr 0) (MkEntryInfo File 0 EmptyString 0 0).

(** ** Conflict checks

    [renamer] is the [ConflictRenamer] of the configuration.  A nil
    action is [None]. *)

Section conflicts.
Context (renamer : op → string → string).

Definition createOp_CheckConflict (co : createOp) (mergedOp : op) : res (option crAction) :=
  match mergedOp with
  | CreateOp m =>
      let sameName := bool_decide (co_NewName m = co_NewName co) in
      if sameName && (bool_decide (co_Type m ≠ Dir) || bool_decide (co_Type co ≠ Dir)) then
        if bool_decide (co_Type m ≠ Dir) &&
           (bool_decide (co_Type co = Dir) || bool_decide (co_crSymPath co ≠ EmptyString)) then
          Ok (Some (RenameMerged (MkRma (co_NewName co) (renamer mergedOp (co_NewName co))
                                    (co_crSymPath co))))
        else
          Ok (Some (RenameUnmerged (MkRua (co_NewName co)
                                      (renamer (CreateOp co) (co_NewName co))
                                      (co_crSymPath co) zeroPtr zeroPtr)))
      else if sameName && bool_decide (co_Type m = Dir) && bool_decide (co_Type co = Dir) &&
              (co_renamed m || co_renamed co) then
        Ok (Some (CopyUnmergedEntry (MkCuea (co_NewName co)
                    (renamer (CreateOp co) (co_NewName co)) (co_crSymPath co)
                    false true zeroDirEntry [])))
      else Ok None
  | _ => Ok None
  end.

Definition rmOp_CheckConflict (ro : rmOp) (mergedOp : op) : res (option crAction) :=
  match mergedOp with
  | CreateOp m =>
      if decide (co_NewName m = ro_OldName ro) then Ok (Some (DropUnmerged (RmOp ro))) else Ok None
  | RmOp m =>
      if decide (ro_OldName m = ro_OldName ro) then Ok (Some (DropUnmerged (RmOp ro))) else Ok None
  | _ => Ok None
  end.

(** The action of a file-level conflict between the op and [mergedOp]. *)
Definition rename_unmerged_file (o mergedOp : op) : res (option crAction) :=
  fromName ← tailName (getFinalPath o);
  mergedName ← tailName (getFinalPath mergedOp);
  unmergedParent ← parentPath (getFinalPath o) ≫= tailPointer;
  mergedParent ← parentPath (getFinalPath mergedOp) ≫= tailPointer;
  Ok (Some (RenameUnmerged (MkRua fromName (renamer o mergedName) EmptyString
                              unmergedParent mergedParent))).

Definition syncOp_CheckConflict (so : syncOp) (mergedOp : op) : res (option crAction) :=
  match mergedOp with
  | SyncOp _ => rename_unmerged_file (SyncOp so) mergedOp
  | SetAttrOp _ =>
      fromName ← tailName (getFinalPath (SyncOp so));
      toName ← tailName (getFinalPath mergedOp);
      Ok (Some (CopyUnmergedAttr (MkCuaa fromName toName [sizeAttr])))
  | _ => Ok None
  end.

Definition setAttrOp_CheckConflict (sao : setAttrOp) (mergedOp : op) : res (option crAction) :=
  match mergedOp with
  | SetAttrOp m =>
      if decide (sao_Attr m = sao_Attr sao) then rename_unmerged_file (SetAttrOp sao) mergedOp
      else Ok None
  | _ => Ok None
  end.

Definition CheckConflict (o mergedOp : op) : res (option crAction) :=
  match o with
  | CreateOp co => createOp_CheckConflict co mergedOp
  | RmOp ro => rmOp_CheckConflict ro mergedOp
  | RenameOp _ => Err (Errorf "Unexpected conflict check on a rename op")
  | SyncOp so => syncOp_CheckConflict so mergedOp
  | SetAttrOp sao => setAttrOp_CheckConflict sao mergedOp
  | ResolutionOp _ | RekeyOp _ | GcOp _ => Ok None
  end.

End conflicts.

Definition GetDefaultAction (o : op) (mergedPath : path) : res (option crAction) :=
  match o with
  | CreateOp co =>
      if co_forceCopy co then
        Ok (Some (RenameUnmerged (MkRua (co_NewName co) (co_NewName co) (co_crSymPath co)
                                    zeroPtr zeroPtr)))
      else
        Ok (Some (CopyUnmergedEntry (MkCuea (co_NewName co) (co_NewName co) (co_crSymPath co)
                                       false false zeroDirEntry [])))
  | RmOp ro =>
      if ro_dropThis ro then Ok (Some (DropUnmerged o)) else Ok (Some (RmMergedEntry (ro_OldName ro)))
  | SyncOp so =>
      fromName ← tailName (getFinalPath o);
      toName ← tailName mergedPath;
      Ok (Some (CopyUnmergedEntry (MkCuea fromName toName EmptyString false false zeroDirEntry [])))
  | SetAttrOp sao =>
      fromName ← tailName (getFinalPath o);
      toName ← tailName mergedPath;
      Ok (Some (CopyUnmergedAttr (MkCuaa fromName toName [sao_Attr sao])))
  | RenameOp _ | ResolutionOp _ | RekeyOp _ | GcOp _ => Ok None
  end.

(** ** Write ranges *)

Definition isTruncate (w : WriteRange) : bool := bool_decide (wr_Len w = 0)%Z.

(** [Off + Len] on [uint64]; the code calls it on writes only. *)
Definition wr_End (w : WriteRange) : Z := to_u64 (wr_Off w + wr_Len w).

Definition Affects (w other : WriteRange) : bool :=
  if isTruncate w then
    if isTruncate other then true else bool_decide (wr_End other > wr_Off w)%Z
  else if isTruncate other then bool_decide (wr_End w > wr_Off other)%Z
  else
    (bool_decide (wr_Off w <= wr_End other)%Z && bool_decide (wr_End other <= wr_End w)%Z) ||
    (bool_decide (wr_Off other <= wr_End w)%Z && bool_decide (wr_End w <= wr_End other)%Z).

Definition so_addWrite (off len : Z) (so : syncOp) : WriteRange * syncOp :=
  let latestWrite := MkWriteRange off len in
  (latestWrite, MkSyncOp (so_OpCommon so) (so_File so) (so_Writes so ++ [latestWrite])).

Definition so_addTruncate (off : Z) (so : syncOp) : WriteRange * syncOp :=
  let latestWrite := MkWriteRange off 0 in
  (latestWrite, MkSyncOp (so_OpCommon so) (so_File so) (so_Writes so ++ [latestWrite])).

(** Called with a write (not a truncate) as [wNew]. *)
Definition coalesceWrites (existingWrites : list WriteRange) (wNew : WriteRange)
    : list WriteRange :=
  match head existingWrites, last existingWrites with
  | Some wOldHead, Some wOldTail =>
      let newEnd :=
        if negb (isTruncate wOldTail) && bool_decide (wr_End wOldTail > wr_End wNew)%Z
        then wr_End wOldTail else wr_End wNew in
      let newOff :=
        if negb (isTruncate wOldHead) && bool_decide (wr_Off wOldHead < wr_Off wNew)%Z
        then wr_Off wOldHead else wr_Off wNew in
      MkWriteRange newOff (to_u64 (newEnd - newOff)) ::
        (if isTruncate wOldTail then [MkWriteRange newEnd 0] else [])
  | _, _ => [wNew]
  end.

(** The split of [writes] at the first element that fails [p]. *)
Fixpoint span {A} (p : A → bool) (l : list A) : list A * list A :=
  match l with
  | [] => ([], [])
  | x :: l' => if p x then let '(h, t) := span p l' in (x :: h, t) else ([], l)
  end.

Definition addToCollapsedWriteRange (writes : list WriteRange) (wNew : WriteRange)
    : list WriteRange :=
  let '(hd, rest) :=
    span (λ wOld, negb (bool_decide (wr_Off wOld >= wr_Off wNew)%Z || Affects wNew wOld)) writes in
  if isTruncate wNew then
    match rest with
    | [] => hd ++ [wNew]
    | m0 :: _ =>
        if isTruncate m0 then
          if decide (wr_Off m0 < wr_Off wNew)%Z then hd ++ [m0] else hd ++ [wNew]
        else if decide (wr_Off m0 < wr_Off wNew)%Z then
          hd ++ [MkWriteRange (wr_Off m0) (to_u64 (wr_Off wNew - wr_Off m0)); wNew]
        else hd ++ [wNew]
    end
  else
    let '(mid, tl) := span (Affects wNew) rest in
    hd ++ coalesceWrites mid wNew ++ tl.

Definition collapseWriteRange (so : syncOp) (writes : list WriteRange) : list WriteRange :=
  foldl addToCollapsedWriteRange writes (so_Writes so).

(** ** Inversion *)

Definition invertOpForLocalNotifications (oldOp : op) : res op :=
  newOp ←
    match oldOp with
    | CreateOp o => Ok (RmOp (newRmOp (co_NewName o) (bu_Ref (co_Dir o))))
    | RmOp o => Ok (CreateOp (newCreateOp (ro_OldName o) (bu_Ref (ro_Dir o)) File))
    | RenameOp o =>
        Ok (RenameOp (newRenameOp (rn_NewName o) (bu_Ref (rn_NewDir o)) (rn_OldName o)
                        (bu_Ref (rn_OldDir o)) (rn_Renamed o) (rn_RenamedType o)))
    | SyncOp o =>
        let n := newSyncOp (bu_Ref (so_File o)) in
        Ok (SyncOp (MkSyncOp (so_OpCommon n) (so_File n) (so_Writes o)))
    | SetAttrOp o =>
        Ok (SetAttrOp (newSetAttrOp (sao_Name o) (bu_Ref (sao_Dir o)) (sao_Attr o) (sao_File o)))
    | GcOp o => Ok (GcOp o)
    | ResolutionOp _ | RekeyOp _ => Panic "Unrecognized operation"
    end;
  Ok (foldl (λ o u, AddUpdate (bu_Ref u) (bu_Unref u) o) newOp (AllUpdates oldOp)).

(** ** Collapsed write ranges

    A collapsed list is a sequence of writes with increasing offsets that
    neither overlap nor touch, perhaps followed by one truncate at or
    after the end of the last write. *)

Definition wr_ok (w : WriteRange) : Prop :=
  (0 <= wr_Off w ∧ 0 <= wr_Len w ∧ wr_Off w + wr_Len w < 2 ^ 64)%Z.

Definition wr_before (w1 w2 : WriteRange) : Prop :=
  isTruncate w1 = false ∧
  (if isTruncate w2 then wr_End w1 <= wr_Off w2 else wr_End w1 < wr_Off w2)%Z.

Definition collapsed (l : list WriteRange) : Prop :=
  Forall wr_ok l ∧ StronglySorted wr_before l.

(** Byte [x] is written by some range of the list. *)
Definition dirty_byte (l : list WriteRange) (x : Z) : Prop :=
  Exists (λ w, wr_Off w <= x < wr_Off w + wr_Len w)%Z l.

Lemma isTruncate_true w : isTruncate w = true ↔ wr_Len w = 0%Z.
Proof. unfold isTruncate. apply bool_decide_eq_true. Qed.
Lemma isTruncate_false w : isTruncate w = false ↔ wr_Len w ≠ 0%Z.
Proof. unfold isTruncate. apply bool_decide_eq_false. Qed.

Lemma wr_End_ok w : wr_ok w → wr_End w = (wr_Off w + wr_Len w)%Z.
Proof. intros (?&?&?). unfold wr_End. apply to_u64_small. lia. Qed.

Lemma span_spec {A} (p : A → bool) l h t :
  span p l = (h, t) →
  l = h ++ t ∧ Forall (λ x, p x = true) h ∧ (∀ x t', t = x :: t' → p x = false).
Proof.
  revert h. induction l as [|x l IH]; intros h; simpl.
  { intros [= <- <-]. split_and!; [done|constructor|done]. }
  destruct (p x) eqn:Hp.
  - destruct (span p l) as [h' t'] eqn:Es. intros [= <- <-].
    destruct (IH h' eq_refl) as (-> & Hf & Ht). split_and!; [done|by constructor|done].
  - intros [= <- <-]. split_and!; [done|constructor|]. by intros ? ? [= <- _].
Qed.

Lemma Affects_write_write w o :
  wr_ok w → wr_ok o → isTruncate w = false → isTruncate o = false →
  Affects w o = true ↔ (wr_Off w <= wr_End o ∧ wr_Off o <= wr_End w)%Z.
Proof.
  intros Hw Ho Tw To. unfold Affects. rewrite Tw, To.
  rewrite (wr_End_ok w Hw), (wr_End_ok o Ho). destruct Hw as (?&?&?), Ho as (?&?&?).
  rewrite orb_true_iff, !andb_true_iff, !bool_decide_eq_true. lia.
Qed.

Lemma Affects_write_trunc w o :
  isTruncate w = false → isTruncate o = true →
  Affects w o = true ↔ (wr_Off o < wr_End w)%Z.
Proof. intros Tw To. unfold Affects. rewrite Tw, To, bool_decide_eq_true. lia. Qed.

Lemma Affects_trunc_write w o :
  isTruncate w = true → isTruncate o = false →
  Affects w o = true ↔ (wr_Off w < wr_End o)%Z.
Proof. intros Tw To. unfold Affects. rewrite Tw, To, bool_decide_eq_true. lia. Qed.

Lemma collapsed_app l1 l2 :
  collapsed (l1 ++ l2) ↔
  collapsed l1 ∧ collapsed l2 ∧ (∀ x y, x ∈ l1 → y ∈ l2 → wr_before x y).
Proof.
  unfold collapsed. rewrite Forall_app, StronglySorted_app. naive_solver.
Qed.

Lemma collapsed_nil : collapsed [].
Proof. split; constructor. Qed.

Lemma collapsed_singleton w : wr_ok w → collapsed [w].
Proof. intros Hw. split; [by rewrite Forall_singleton|repeat constructor]. Qed.

Lemma dirty_byte_app l1 l2 x : dirty_byte (l1 ++ l2) x ↔ dirty_byte l1 x ∨ dirty_byte l2 x.
Proof. apply Exists_app. Qed.

Lemma dirty_byte_cons w l x :
  dirty_byte (w :: l) x ↔ (wr_Off w <= x < wr_Off w + wr_Len w)%Z ∨ dirty_byte l x.
Proof. apply Exists_cons. Qed.

Lemma dirty_byte_nil x : ¬ dirty_byte [] x.
Proof. by intros ?%Exists_nil. Qed.

Lemma collapsed_ok l w : collapsed l → w ∈ l → wr_ok w.
Proof. intros [Hf _] Hw. rewrite Forall_forall in Hf. auto. Qed.

(** All bytes of a collapsed list that follows [w] are after [w]. *)
Lemma dirty_byte_after l w x :
  collapsed l → wr_ok w → (∀ y, y ∈ l → wr_before w y) → dirty_byte l x → (wr_End w < x)%Z.
Proof.
  intros Hc Hw Hb (y & Hy & Hx)%Exists_exists.
  pose proof (collapsed_ok _ _ Hc Hy). destruct (Hb _ Hy) as [_ H'].
  destruct (isTruncate y) eqn:Ty; [apply isTruncate_true in Ty|]; lia.
Qed.

Lemma dirty_byte_truncate t x : isTruncate t = true → dirty_byte [t] x ↔ False.
Proof.
  intros Tt%isTruncate_true. rewrite dirty_byte_cons, Tt.
  pose proof (dirty_byte_nil x). intuition lia.
Qed.

(** All bytes of a collapsed list that precedes [w] are before [w]. *)
Lemma dirty_byte_before l w x :
  collapsed l → (∀ y, y ∈ l → wr_before y w) → dirty_byte l x → (x < wr_Off w)%Z.
Proof.
  intros Hc Hb (y & Hy & Hx)%Exists_exists. destruct (Hb _ Hy) as [_ He].
  rewrite (wr_End_ok y (collapsed_ok _ _ Hc Hy)) in He. destruct (isTruncate w); lia.
Qed.

Lemma collapsed_snoc_truncate l t :
  collapsed l → wr_ok t → isTruncate t = true → (∀ y, y ∈ l → wr_before y t) →
  collapsed (l ++ [t]) ∧ (∀ x, dirty_byte (l ++ [t]) x ↔ dirty_byte l x).
Proof.
  intros Hc Ht Tt Hb. split.
  - apply collapsed_app. split_and!; [done|by apply collapsed_singleton|].
    intros a b Ha ->%list_elem_of_singleton. auto.
  - intros x. rewrite dirty_byte_app, dirty_byte_truncate by done. tauto.
Qed.

Lemma collapsed_truncate_last t l : collapsed (t :: l) → isTruncate t = true → l = [].
Proof.
  intros [_ Cs] Tt. apply StronglySorted_cons in Cs as [Hf _].
  destruct l as [|y l]; [done|]. apply Forall_cons in Hf as [[Hx _] _]. congruence.
Qed.

Lemma collapsed_cons_after w l x :
  collapsed (w :: l) → dirty_byte l x → (wr_Off w + wr_Len w < x)%Z.
Proof.
  intros (Hw & Hl & Hb)%(collapsed_app [w]) Hx.
  pose proof (collapsed_ok _ w Hw ltac:(left)) as Hok. rewrite <- (wr_End_ok w Hok).
  apply (dirty_byte_after l); [done|done| |done]. intros y Hy. apply Hb; [by left|done].
Qed.

(** The elements before a new truncate that it does not affect. *)
Lemma truncate_unaffected w hd :
  isTruncate w = true →
  Forall (λ wOld, negb (bool_decide (wr_Off wOld >= wr_Off w)%Z || Affects w wOld) = true) hd →
  ∀ y, y ∈ hd → wr_before y w.
Proof.
  intros Tw Hh y Hy. rewrite Forall_forall in Hh. specialize (Hh y Hy).
  apply negb_true_iff, orb_false_iff in Hh as [_ Ha].
  destruct (isTruncate y) eqn:Ty; [by unfold Affects in Ha; rewrite Tw, Ty in Ha|].
  split; [done|]. rewrite Tw. apply not_true_iff_false in Ha.
  rewrite Affects_trunc_write in Ha by done. lia.
Qed.

(** A truncate inside the write [m0] cuts it short. *)
Lemma collapsed_cut hd m0 rest w :
  collapsed (hd ++ m0 :: rest) → wr_ok w → isTruncate w = true → isTruncate m0 = false →
  (∀ y, y ∈ hd → wr_before y w) → (wr_Off m0 < wr_Off w < wr_End m0)%Z →
  let l := hd ++ [MkWriteRange (wr_Off m0) (to_u64 (wr_Off w - wr_Off m0)); w] in
  collapsed l ∧ (∀ x, dirty_byte l x ↔ dirty_byte (hd ++ m0 :: rest) x ∧ (x < wr_Off w)%Z).
Proof.
  intros (Ch & Cr & Hsep)%collapsed_app Hw Tw Tm Hhw Hin.
  pose proof (collapsed_ok _ m0 Cr ltac:(left)) as Hm. rewrite (wr_End_ok m0 Hm) in Hin.
  set (cut := MkWriteRange (wr_Off m0) (to_u64 (wr_Off w - wr_Off m0))).
  pose proof Hw as (?&?&?). pose proof Hm as (?&?&?).
  assert (wr_Len cut = (wr_Off w - wr_Off m0)%Z) as Hl by (apply to_u64_small; lia).
  assert (wr_ok cut) as Hcut by (unfold wr_ok; rewrite Hl; simpl; lia).
  assert (isTruncate cut = false) as Tc by (apply isTruncate_false; lia).
  split.
  - apply collapsed_app. split_and!; [done| |].
    + apply (collapsed_app [cut] [w]). split_and!; [by apply collapsed_singleton..|].
      intros a b ->%list_elem_of_singleton ->%list_elem_of_singleton. split; [done|].
      rewrite Tw, (wr_End_ok cut Hcut), Hl. simpl. lia.
    + intros a b Ha Hb. apply elem_of_cons in Hb as [->| ->%list_elem_of_singleton]; [|auto].
      destruct (Hsep a m0 Ha ltac:(left)) as [? He]. rewrite Tm in He.
      split; [done|]. by rewrite Tc.
  - intros x. rewrite !dirty_byte_app, (dirty_byte_cons m0), (dirty_byte_cons cut).
    rewrite dirty_byte_truncate, Hl by done. simpl.
    pose proof (dirty_byte_before hd w x Ch Hhw).
    pose proof (collapsed_cons_after m0 rest x Cr). intuition lia.
Qed.

Lemma collapsed_truncate l w :
  collapsed l → wr_ok w → isTruncate w = true →
  collapsed (addToCollapsedWriteRange l w) ∧
  (∀ x, dirty_byte (addToCollapsedWriteRange l w) x ↔ dirty_byte l x ∧ (x < wr_Off w)%Z).
Proof.
  intros Hc Hw Tw. unfold addToCollapsedWriteRange.
  destruct (span _ l) as [hd rest] eqn:Es. apply span_spec in Es as (-> & Hh & Hr).
  pose proof (truncate_unaffected w hd Tw Hh) as Hhw. rewrite Tw.
  pose proof Hc as (Ch & Cr & Hsep)%collapsed_app.
  pose proof (λ x, dirty_byte_before hd w x Ch Hhw) as Hlt.
  destruct (collapsed_snoc_truncate hd w Ch Hw Tw Hhw) as [HA HB].
  destruct rest as [|m0 rest].
  { split; [done|]. intros x. rewrite HB, app_nil_r. naive_solver. }
  pose proof (collapsed_ok _ m0 Cr ltac:(left)) as Hm.
  destruct (isTruncate m0) eqn:Tm.
  { rewrite (collapsed_truncate_last m0 rest Cr Tm) in *. case_decide.
    - split; [done|]. intros x. rewrite dirty_byte_app, dirty_byte_truncate by done. naive_solver.
    - split; [done|]. intros x.
      rewrite HB, dirty_byte_app, (dirty_byte_truncate m0) by done. naive_solver. }
  case_decide as Ho.
  - apply collapsed_cut; [done..|]. split; [done|].
    specialize (Hr _ _ eq_refl). apply negb_false_iff, orb_true_iff in Hr as [Hr|Hr].
    + apply bool_decide_eq_true in Hr. lia.
    + by apply Affects_trunc_write in Hr.
  - split; [done|]. intros x. rewrite HB, dirty_byte_app, dirty_byte_cons.
    specialize (Hlt x). pose proof (collapsed_cons_after m0 rest x Cr).
    destruct Hm as (?&?&?). intuition lia.
Qed.

(** The hull of a write and of the collapsed ranges it affects. *)
Section coalesce.
Context (w h t : WriteRange) (mid : list WriteRange).
Hypothesis Hw : wr_ok w.
Hypothesis Tw : isTruncate w = false.
Hypothesis Hc : collapsed mid.
Hypothesis Ha : Forall (λ y, Affects w y = true) mid.
Hypothesis Hh : head mid = Some h.
Hypothesis Ht : last mid = Some t.

Definition hull_off : Z :=
  if negb (isTruncate h) && bool_decide (wr_Off h < wr_Off w)%Z then wr_Off h else wr_Off w.
Definition hull_end : Z :=
  if negb (isTruncate t) && bool_decide (wr_End t > wr_End w)%Z then wr_End t else wr_End w.

Lemma hull_head : h ∈ mid ∧ (∀ y, y ∈ mid → y = h ∨ wr_before h y).
Proof.
  destruct mid as [|h' m]; simplify_eq/=. split; [by left|].
  intros y [->|Hy]%elem_of_cons; [by left|]. right. destruct Hc as [_ Hs].
  apply StronglySorted_cons in Hs as [Hs _]. rewrite Forall_forall in Hs. auto.
Qed.

Lemma hull_last : t ∈ mid ∧ (∀ y, y ∈ mid → y = t ∨ wr_before y t).
Proof.
  apply last_Some in Ht as [m Hm]. rewrite Hm in *. split; [set_solver|].
  intros y Hy. apply collapsed_app in Hc as (_ & _ & Hb).
  apply elem_of_app in Hy as [Hy|Hy%list_elem_of_singleton]; [right|by left].
  apply Hb; [done|by left].
Qed.

Lemma hull_affected y : y ∈ mid → wr_ok y ∧ Affects w y = true.
Proof.
  intros Hy. split; [by eapply collapsed_ok|]. rewrite Forall_forall in Ha. auto.
Qed.

Lemma hull_bounds :
  (hull_off <= wr_Off w ∧ wr_End w <= hull_end ∧ hull_end < 2 ^ 64 ∧ 0 <= hull_off)%Z.
Proof.
  destruct (hull_affected h (proj1 hull_head)) as [(?&?&?) _].
  destruct (hull_affected t (proj1 hull_last)) as [Hok _].
  unfold hull_off, hull_end. rewrite (wr_End_ok t Hok), (wr_End_ok w Hw).
  destruct Hw as (?&?&?), Hok as (?&?&?).
  repeat case_match; rewrite ?andb_true_iff, ?bool_decide_eq_true in *; lia.
Qed.

Lemma hull_member y :
  y ∈ mid → isTruncate y = false → (hull_off <= wr_Off y ∧ wr_End y <= hull_end)%Z.
Proof.
  intros Hy Ty. destruct (hull_affected y Hy) as [Hok _]. split.
  - destruct hull_head as [Hin Hb]. destruct (hull_affected h Hin) as [Hokh _].
    unfold hull_off. destruct (Hb y Hy) as [->|[Th Hlt]].
    + rewrite Ty. simpl. case_bool_decide; lia.
    + rewrite Ty, (wr_End_ok h Hokh) in Hlt. rewrite Th. destruct Hokh as (?&?&?).
      simpl. case_bool_decide; lia.
  - destruct hull_last as [Hin Hb]. destruct (hull_affected t Hin) as [Hokt Hat].
    unfold hull_end. destruct (Hb y Hy) as [->|[_ Hlt]].
    + rewrite Ty. simpl. case_bool_decide; lia.
    + destruct (isTruncate t) eqn:Tt; simpl.
      * apply Affects_write_trunc in Hat; [lia|done|done].
      * rewrite (wr_End_ok t Hokt). destruct Hokt as (?&?&?). case_bool_decide; lia.
Qed.

Lemma hull_dirty x : (hull_off <= x < hull_end)%Z ↔
  dirty_byte mid x ∨ (wr_Off w <= x < wr_Off w + wr_Len w)%Z.
Proof.
  destruct hull_bounds as (? & ? & ? & ?). rewrite (wr_End_ok w Hw) in *. split.
  - intros Hx. destruct (decide (wr_Off w <= x < wr_Off w + wr_Len w)%Z); [by right|left].
    apply Exists_exists. destruct (decide (x < wr_Off w)%Z).
    + exists h. destruct hull_head as [Hin _]. split; [done|].
      destruct (hull_affected h Hin) as [Hok Hah]. unfold hull_off in Hx.
      destruct (isTruncate h) eqn:Th; simpl in Hx; [lia|].
      apply Affects_write_write in Hah as [Hah _]; [|done..].
      rewrite (wr_End_ok h Hok) in Hah. case_bool_decide; lia.
    + exists t. destruct hull_last as [Hin _]. split; [done|].
      destruct (hull_affected t Hin) as [Hok Hat]. unfold hull_end in Hx.
      rewrite (wr_End_ok w Hw) in Hx.
      destruct (isTruncate t) eqn:Tt; simpl in Hx; [lia|].
      apply Affects_write_write in Hat as [_ Hat]; [|done..].
      rewrite (wr_End_ok t Hok), (wr_End_ok w Hw) in *. case_bool_decide; lia.
  - intros [(y & Hy & Hx)%Exists_exists|Hx]; [|lia].
    destruct (hull_affected y Hy) as [Hok _].
    destruct (hull_member y Hy) as [Hm1 Hm2]; [apply isTruncate_false; lia|].
    rewrite (wr_End_ok y Hok) in Hm2. lia.
Qed.

Lemma coalesceWrites_eq :
  coalesceWrites mid w = MkWriteRange hull_off (to_u64 (hull_end - hull_off)) ::
    (if isTruncate t then [MkWriteRange hull_end 0] else []).
Proof. unfold coalesceWrites. by rewrite Hh, Ht. Qed.

Lemma hull_range :
  let r := MkWriteRange hull_off (to_u64 (hull_end - hull_off)) in
  wr_ok r ∧ isTruncate r = false ∧ wr_End r = hull_end ∧ wr_Len r = (hull_end - hull_off)%Z.
Proof.
  destruct hull_bounds as (? & Hle & ? & ?). rewrite (wr_End_ok w Hw) in Hle.
  apply isTruncate_false in Tw. pose proof Hw as (?&?&?). cbv zeta.
  assert (to_u64 (hull_end - hull_off) = (hull_end - hull_off)%Z) as Heq
    by (apply to_u64_small; lia).
  rewrite Heq. assert (wr_ok (MkWriteRange hull_off (hull_end - hull_off))) as Hok
    by (unfold wr_ok; simpl; lia).
  split_and!; [done|apply isTruncate_false; simpl; lia|rewrite wr_End_ok; simpl; [lia|done]|done].
Qed.

End coalesce.

Lemma coalesceWrites_spec w mid :
  wr_ok w → isTruncate w = false → collapsed mid → Forall (λ y, Affects w y = true) mid →
  collapsed (coalesceWrites mid w) ∧
  (∀ x, dirty_byte (coalesceWrites mid w) x ↔
    dirty_byte mid x ∨ (wr_Off w <= x < wr_Off w + wr_Len w)%Z) ∧
  (∀ y, (∀ z, z ∈ mid → wr_before y z) → wr_before y w →
    ∀ z, z ∈ coalesceWrites mid w → wr_before y z) ∧
  (∀ y, (∀ z, z ∈ mid → wr_before z y) → wr_before w y →
    ∀ z, z ∈ coalesceWrites mid w → wr_before z y).
Proof.
  intros Hw Tw Hc Ha. destruct (head mid) as [h|] eqn:Hh; last first.
  { destruct mid; [|done]. change (coalesceWrites [] w) with [w]. split_and!.
    - by apply collapsed_singleton.
    - intros x. rewrite dirty_byte_cons. pose proof (dirty_byte_nil x). tauto.
    - by intros y _ Hy z ->%list_elem_of_singleton.
    - by intros y _ Hy z ->%list_elem_of_singleton. }
  destruct (last mid) as [t|] eqn:Ht; [|by apply last_None in Ht as ->].
  pose proof (hull_range w h t mid Hw Tw Hc Ha Hh Ht) as (Hrok & Tr & Er & Lr).
  pose proof (hull_bounds w h t mid Hw Tw Hc Ha Hh Ht) as (Hb1 & Hb2 & Hb3 & Hb4).
  rewrite (coalesceWrites_eq w h t mid Hh Ht).
  set (r := MkWriteRange _ _) in *. set (e := hull_end w t) in *.
  assert (wr_ok (MkWriteRange e 0)) as Heok.
  { unfold wr_ok in *. simpl. rewrite (wr_End_ok w Hw) in Hb2. destruct Hw. lia. }
  split_and!.
  - apply (collapsed_app [r]). split_and!; [by apply collapsed_singleton|..].
    + destruct (isTruncate t); [by apply collapsed_singleton|apply collapsed_nil].
    + intros a b ->%list_elem_of_singleton. destruct (isTruncate t); [|set_solver].
      intros ->%list_elem_of_singleton. split; [done|]. rewrite Er. simpl. lia.
  - intros x. rewrite <- (hull_dirty w h t mid Hw Tw Hc Ha Hh Ht), dirty_byte_cons, Lr. simpl.
    destruct (isTruncate t); [rewrite dirty_byte_truncate by done|];
      pose proof (dirty_byte_nil x); fold e; intuition lia.
  - intros y Hy [Ty Hyw] z Hz. rewrite Tw in Hyw. split; [done|].
    assert (wr_End y < wr_Off r)%Z as Hyr.
    { subst r. simpl. unfold hull_off. destruct (isTruncate h) eqn:Th; simpl; [done|].
      destruct (Hy h) as [_ Hyh]; [by eapply hull_head|]. rewrite Th in Hyh.
      case_bool_decide; lia. }
    apply elem_of_cons in Hz as [->|Hz]; [by rewrite Tr|].
    destruct (isTruncate t); [|set_solver]. apply list_elem_of_singleton in Hz as ->.
    pose proof Hw as (?&?&?). rewrite (wr_End_ok w Hw) in Hb2. simpl. lia.
  - intros y Hy [_ Hwy] z Hz.
    destruct (Hy t) as [Tt Hty]; [by apply last_Some_elem_of|]. rewrite Tt in Hz.
    apply list_elem_of_singleton in Hz as ->. split; [done|]. rewrite Er. subst e.
    unfold hull_end. by destruct (_ && _).
Qed.

(** The elements before a new write that it does not affect. *)
Lemma write_unaffected w hd :
  wr_ok w → isTruncate w = false → Forall wr_ok hd →
  Forall (λ wOld, negb (bool_decide (wr_Off wOld >= wr_Off w)%Z || Affects w wOld) = true) hd →
  ∀ y, y ∈ hd → wr_before y w.
Proof.
  intros Hw Tw Hok Hh y Hy. rewrite Forall_forall in Hh, Hok. specialize (Hh y Hy).
  specialize (Hok y Hy). apply negb_true_iff, orb_false_iff in Hh as [Ho Ha].
  apply bool_decide_eq_false in Ho. apply not_true_iff_false in Ha.
  apply isTruncate_false in Tw as Lw. pose proof Hw as (?&?&?).
  destruct (isTruncate y) eqn:Ty.
  - rewrite Affects_write_trunc, (wr_End_ok w Hw) in Ha by done. lia.
  - split; [done|]. rewrite Tw. rewrite Affects_write_write in Ha by done.
    pose proof Hok as (?&?&?).
    rewrite (wr_End_ok y Hok), (wr_End_ok w Hw) in *. lia.
Qed.

(** A range that starts after the write and is not affected follows it. *)
Lemma write_not_affected w y :
  wr_ok w → wr_ok y → isTruncate w = false → (wr_Off w <= wr_Off y)%Z → Affects w y = false →
  wr_before w y.
Proof.
  intros Hw Hy Tw Ho Ha%not_true_iff_false. split; [done|]. pose proof Hy as (?&?&?).
  destruct (isTruncate y) eqn:Ty.
  - rewrite Affects_write_trunc in Ha by done. lia.
  - rewrite Affects_write_write, (wr_End_ok y Hy) in Ha by done. lia.
Qed.

Lemma wr_before_trans a b c : wr_ok b → wr_before a b → wr_before b c → wr_before a c.
Proof.
  intros Hb [Ta Hab] [Tb Hbc]. split; [done|]. rewrite Tb in Hab.
  rewrite (wr_End_ok b Hb) in Hbc. destruct Hb as (?&?&?). destruct (isTruncate c); lia.
Qed.

(** Everything after the ranges that a new write affects follows it. *)
Lemma write_tail w hd mid tl :
  collapsed (hd ++ mid ++ tl) → wr_ok w → isTruncate w = false →
  Forall (λ y, Affects w y = true) mid →
  (∀ y tl', tl = y :: tl' → Affects w y = false) →
  (∀ y tl', mid ++ tl = y :: tl' →
     negb (bool_decide (wr_Off y >= wr_Off w)%Z || Affects w y) = false) →
  ∀ y, y ∈ tl → wr_before w y.
Proof.
  intros (_ & (Hm & Htl & Hsep)%collapsed_app & _)%collapsed_app Hw Tw Ha Hna Hfst.
  destruct tl as [|y0 tl]; [set_solver|]. specialize (Hna _ _ eq_refl).
  assert (wr_ok y0) as Hok0 by (apply (collapsed_ok _ _ Htl); left).
  assert (wr_before w y0) as H0.
  { apply write_not_affected; [done..| |done]. destruct (last mid) as [m|] eqn:Hlast.
    - apply last_Some in Hlast as [mid' ->]. destruct (Hsep m y0) as [Tm Hlt]; [set_solver..|].
      apply Forall_app in Ha as [_ Ha]. rewrite Forall_singleton in Ha.
      assert (wr_ok m) as Hokm by (apply (collapsed_ok _ _ Hm); set_solver).
      rewrite Affects_write_write in Ha by done. destruct (isTruncate y0); lia.
    - apply last_None in Hlast as ->. specialize (Hfst _ _ eq_refl).
      rewrite Hna, orb_false_r in Hfst. apply negb_false_iff, bool_decide_eq_true in Hfst. lia. }
  intros y [->|Hy]%elem_of_cons; [done|]. eapply wr_before_trans; [exact Hok0|done|].
  destruct Htl as [_ Hs]. apply StronglySorted_cons in Hs as [Hs _].
  rewrite Forall_forall in Hs. auto.
Qed.

Lemma collapsed_write l w :
  collapsed l → wr_ok w → isTruncate w = false →
  collapsed (addToCollapsedWriteRange l w) ∧
  (∀ x, dirty_byte (addToCollapsedWriteRange l w) x ↔
    dirty_byte l x ∨ (wr_Off w <= x < wr_Off w + wr_Len w)%Z).
Proof.
  intros Hc Hw Tw. unfold addToCollapsedWriteRange.
  destruct (span _ l) as [hd rest] eqn:Es. apply span_spec in Es as (-> & Hh & Hr). rewrite Tw.
  destruct (span (Affects w) rest) as [mid tl] eqn:Es. apply span_spec in Es as (-> & Ha & Hna).
  pose proof (write_tail w hd mid tl Hc Hw Tw Ha Hna Hr) as Hwt.
  apply collapsed_app in Hc as (Ch & (Cm & Ct & Smt)%collapsed_app & Shr).
  pose proof (write_unaffected w hd Hw Tw (proj1 Ch) Hh) as Hhw.
  destruct (coalesceWrites_spec w mid Hw Tw Cm Ha) as (C1 & C2 & C3 & C4).
  split.
  - rewrite !collapsed_app. split_and!; [done..| |].
    + intros x y Hx Hy. apply (C4 y); [|auto|done]. intros z Hz. by apply Smt.
    + intros x y Hx [Hy|Hy]%elem_of_app; [|apply Shr; set_solver].
      apply (C3 x); [|auto|done]. intros z Hz. apply Shr; set_solver.
  - intros x. rewrite !dirty_byte_app, C2. tauto.
Qed.

Lemma collapsed_add l w :
  collapsed l → wr_ok w → collapsed (addToCollapsedWriteRange l w).
Proof.
  intros Hl Hw. destruct (isTruncate w) eqn:Tw; [by apply collapsed_truncate|].
  by apply collapsed_write.
Qed.

(** The set of dirty bytes after a sequence of writes and truncates: a
    write adds its bytes, a truncate removes the bytes past its offset. *)
Definition dirty_step (D : Z → Prop) (w : WriteRange) : Z → Prop := λ x,
  if isTruncate w then D x ∧ (x < wr_Off w)%Z
  else D x ∨ (wr_Off w <= x < wr_Off w + wr_Len w)%Z.

Lemma foldl_dirty_step ws D D' :
  (∀ x, D x ↔ D' x) → ∀ x, foldl dirty_step D ws x ↔ foldl dirty_step D' ws x.
Proof.
  revert D D'. induction ws as [|w ws IH]; intros D D' HD; simpl; [done|].
  apply IH. intros x. unfold dirty_step. destruct (isTruncate w); by rewrite HD.
Qed.

(** C26. Collapsing the writes of a sync operation onto a collapsed list
    gives a collapsed list (sorted, disjoint, non-adjacent ranges with at
    most one final truncate) that covers exactly the bytes left dirty by
    replaying the writes and truncates one by one. *)
Theorem collapseWriteRange_dirty (so : syncOp) (l : list WriteRange) :
  collapsed l → Forall wr_ok (so_Writes so) →
  collapsed (collapseWriteRange so l) ∧
  (∀ x, dirty_byte (collapseWriteRange so l) x ↔
        foldl dirty_step (dirty_byte l) (so_Writes so) x).
Proof.
  unfold collapseWriteRange. generalize (so_Writes so) as ws. intros ws. revert l.
  induction ws as [|w ws IH]; intros l Hl Hws; simpl; [done|].
  apply Forall_cons in Hws as [Hw Hws].
  destruct (IH (addToCollapsedWriteRange l w)) as [IH1 IH2]; [by apply collapsed_add|done|].
  split; [done|]. intros x. rewrite IH2. apply foldl_dirty_step. intros y. unfold dirty_step.
  destruct (isTruncate w) eqn:Tw; [by apply collapsed_truncate|by apply collapsed_write].
Qed.

Lemma collapseWriteRange_dirty_witness :
  let so := MkSyncOp zeroOpCommon zeroUpdate
    [MkWriteRange 0 5; MkWriteRange 10 5; MkWriteRange 4 7; MkWriteRange 8 0; MkWriteRange 9 3] in
  collapseWriteRange so [] = [MkWriteRange 0 8; MkWriteRange 9 3; MkWriteRange 12 0] ∧
  collapsed (collapseWriteRange so []).
Proof.
  intros so. split; [reflexivity|]. apply (collapseWriteRange_dirty so []).
  - split; constructor.
  - repeat constructor; simpl; lia.
Defined.

(** ** Inverted operations *)

Definition swap_update (u : blockUpdate) : blockUpdate := MkBlockUpdate (bu_Ref u) (bu_Unref u).

(** The pointers whose update an operation stores in its own fields. *)
Definition own_unrefs (o : op) : list BlockPointer :=
  match o with
  | CreateOp c => [bu_Unref (co_Dir c)]
  | RmOp r => [bu_Unref (ro_Dir r)]
  | RenameOp r => [bu_Unref (rn_OldDir r); bu_Unref (rn_NewDir r)]
  | SyncOp s => [bu_Unref (so_File s)]
  | SetAttrOp s => [bu_Unref (sao_Dir s)]
  | ResolutionOp _ | RekeyOp _ | GcOp _ => []
  end.

Definition add_updates (us : list blockUpdate) (c : OpCommon) : OpCommon :=
  MkOpCommon (oc_RefBlocks c) (oc_UnrefBlocks c) (oc_Updates c ++ us)
    (oc_writerInfo c) (oc_finalPath c).

Lemma AddUpdate_other old new o :
  old ∉ own_unrefs o →
  AddUpdate old new o = set_common (OpCommon_AddUpdate old new (op_common o)) o.
Proof.
  intros Hn. destruct o as [c|r|r|s|s|c|c|g]; simpl in *;
    repeat case_decide; try done; set_solver.
Qed.

Lemma fold_AddUpdate_other us o :
  (∀ u, u ∈ us → bu_Ref u ∉ own_unrefs o) →
  foldl (λ o u, AddUpdate (bu_Ref u) (bu_Unref u) o) o us =
  set_common (add_updates (swap_update <$> us) (op_common o)) o.
Proof.
  revert o. induction us as [|u us IH]; intros o Hn; simpl.
  { unfold add_updates. rewrite app_nil_r.
    by destruct o as [[[]]|[[]]|[[]]|[[]]|[[]]|[]|[]|[[]]]. }
  rewrite AddUpdate_other by (apply Hn; left).
  rewrite IH; [|intros v Hv; specialize (Hn v ltac:(by right)); by destruct o].
  unfold add_updates, OpCommon_AddUpdate.
  by destruct o as [[]|[]|[]|[]|[]| | |[]]; simpl; rewrite <- app_assoc.
Qed.

(** The updates whose direction an inversion must swap. *)
Definition invertible (o : op) : Prop :=
  (NoDup (bu_Ref <$> AllUpdates o)) ∧ (zeroPtr ∉ (bu_Ref <$> AllUpdates o)) ∧
  match o with
  | RenameOp r => rn_NewDir r ≠ zeroUpdate
  | ResolutionOp _ | RekeyOp _ => False
  | GcOp _ => AllUpdates o = []
  | _ => True
  end.

(** The common case of one directory (or file) update kept in a field. *)
Lemma invert_one_field (us : list blockUpdate) (d : blockUpdate) :
  NoDup (bu_Ref <$> us ++ [d]) → ∀ u, u ∈ us → bu_Ref u ≠ bu_Ref d.
Proof.
  rewrite fmap_app. intros (_ & Hd & _)%NoDup_app u Hu Heq.
  apply (Hd (bu_Ref u)); [by apply list_elem_of_fmap_2|]. rewrite Heq. by left.
Qed.

Lemma invert_two_fields (us : list blockUpdate) (n d : blockUpdate) :
  NoDup (bu_Ref <$> us ++ [n; d]) →
  bu_Ref n ≠ bu_Ref d ∧ ∀ u, u ∈ us → bu_Ref u ≠ bu_Ref n ∧ bu_Ref u ≠ bu_Ref d.
Proof.
  rewrite fmap_app. intros (_ & Hd & Hnd)%NoDup_app. simpl in *. split.
  - apply NoDup_cons in Hnd as [Hnd _]. set_solver.
  - intros u Hu. specialize (Hd (bu_Ref u) ltac:(by apply list_elem_of_fmap_2)). set_solver.
Qed.

(** Inverting an operation for local notifications swaps every block
    update: the updates of the inverse are the swapped updates of the
    operation (as a multiset), provided the new pointers are distinct and
    initialised, and a rename is between two directories. *)
Theorem invertOp_swaps_updates (o : op) :
  invertible o →
  ∃ o', invertOpForLocalNotifications o = Ok o' ∧ AllUpdates o' ≡ₚ swap_update <$> AllUpdates o.
Proof.
  intros (Hnd & Hz & Ho).
  destruct o as [c|r|r|s|s|c|c|g]; simpl in *; try done; try (eexists; split; [reflexivity|]);
    cbn [AllUpdates op_common].
  1, 2, 4, 5: rewrite foldl_app, (fold_AddUpdate_other (oc_Updates _)), fmap_app;
    [by cbn -[decide]; rewrite decide_True by done; simpl|];
    intros u Hu [=]%list_elem_of_singleton; by eapply invert_one_field.
  - rewrite decide_True in * by done. apply invert_two_fields in Hnd as [Hne Hu].
    assert (bu_Ref (rn_OldDir r) ≠ zeroPtr) by (intros Heq; apply Hz; rewrite <- Heq; set_solver).
    rewrite foldl_app, (fold_AddUpdate_other (oc_Updates _)); last first.
    { intros u Hin. destruct (Hu u Hin). simpl. rewrite decide_True by done. set_solver. }
    cbn -[decide]. rewrite (decide_True (P := bu_Ref (rn_NewDir r) ≠ bu_Ref (rn_OldDir r))) by done.
    rewrite decide_True by done. cbn -[decide]. rewrite decide_False by done.
    rewrite decide_True by (split; [intros [=]; done|done]). cbn -[decide].
    rewrite decide_True by (intros [=]; done).
    rewrite fmap_app. simpl. apply Permutation_app_head. apply Permutation_swap.
  - rewrite Ho. simpl. by rewrite Ho.
Qed.

(** Two distinct initialised pointers, for concrete examples. *)
Definition example_ptr (n : Z) : BlockPointer :=
  MkBlockPointer (bp_ID zeroPtr) n 1%Z EmptyString EmptyString (bp_RefNonce zeroPtr).

Lemma invertOp_swaps_updates_witness :
  let o := RenameOp (MkRenameOp zeroOpCommon "a" (MkBlockUpdate (example_ptr 1) (example_ptr 2))
             "b" (MkBlockUpdate (example_ptr 3) (example_ptr 4)) (example_ptr 5) File) in
  ∃ o', invertOpForLocalNotifications o = Ok o' ∧
        AllUpdates o' ≡ₚ [MkBlockUpdate (example_ptr 4) (example_ptr 3);
                          MkBlockUpdate (example_ptr 2) (example_ptr 1)].
Proof.
  intros o. apply (invertOp_swaps_updates o). split_and!; [|..| by intros [=]].
  - apply (bool_decide_unpack _). reflexivity.
  - apply (bool_decide_unpack _). reflexivity.
Defined.

(** A rename inside one directory keeps its directory update in
    [OldDir] and leaves [NewDir] zero, and the inverse comes out the other
    way round: its [OldDir] has the zero pointer and its [NewDir] the
    directory, so that the inverse does not name the directory the entry
    moves out of. *)
Theorem invertOp_same_dir_rename (r : renameOp) :
  rn_NewDir r = zeroUpdate → bu_Ref (rn_OldDir r) ≠ zeroPtr → oc_Updates (rn_OpCommon r) = [] →
  ∃ r', invertOpForLocalNotifications (RenameOp r) = Ok (RenameOp r') ∧
        rn_OldDir r' = zeroUpdate ∧ rn_NewDir r' = swap_update (rn_OldDir r) ∧
        rn_OldName r' = rn_NewName r ∧ rn_NewName r' = rn_OldName r.
Proof.
  intros Hn Hr Hu. unfold invertOpForLocalNotifications, AllUpdates. cbn -[decide].
  rewrite Hn, Hu. rewrite (decide_False (P := zeroUpdate ≠ zeroUpdate)) by auto.
  cbn -[decide]. rewrite decide_False by done.
  rewrite (decide_True (P := zeroPtr ≠ bu_Ref (rn_OldDir r))) by done.
  rewrite decide_True by (split; [intros [=]; done|done]).
  eexists. split; [reflexivity|]. done.
Qed.

Lemma invertOp_same_dir_rename_witness :
  let r := MkRenameOp zeroOpCommon "a" (MkBlockUpdate (example_ptr 1) (example_ptr 2))
             "b" zeroUpdate (example_ptr 5) File in
  ∃ r', invertOpForLocalNotifications (RenameOp r) = Ok (RenameOp r') ∧
        rn_OldDir r' = zeroUpdate.
Proof.
  intros r. destruct (invertOp_same_dir_rename r) as (r' & H1 & H2 & _).
  - reflexivity.
  - intros [=].
  - reflexivity.
  - exists r'. split; [exact H1|exact H2].
Defined.
