(* ===== verification/ConflictInfo.v ===== *)
(** * ConflictInfo: the suffix of a conflicted folder handle

    Models [libkbfs/conflict_info.go] with the parts of [time] and
    [strconv] that it uses: the civil date of a Unix time, the layout
    "2006-01-02", and decimal numbers.  The main result is that a conflict
    suffix parses back to the information it was printed from. *)

From Stdlib Require Import ZArith Ascii Lia.
From S2P Require Import Prelude Types Errors GoStd.

#[local] Open Scope Z_scope.

(** ** Decimal numbers *)

Definition digit_char (d : Z) : ascii := ascii_of_nat (48 + Z.to_nat d).

Definition char_digit (c : ascii) : option Z :=
  let n := Z.of_nat (nat_of_ascii c) in
  if decide (48 <= n <= 57) then Some (n - 48) else None.

(** [strconv.FormatUint(n, 10)], in front of [acc]; a digit per step, at
    most as many as binary digits. *)
Fixpoint format_digits (fuel : nat) (n : Z) (acc : string) : string :=
  match fuel with
  | O => acc
  | S fuel =>
      let acc := String (digit_char (n mod 10)) acc in
      if decide (n < 10) then acc else format_digits fuel (n / 10) acc
  end.
Definition FormatUint (n : Z) : string := format_digits (S (Z.to_nat (Z.log2 n))) n EmptyString.

(** The value of a string of digits, on top of [acc]. *)
Fixpoint parse_digits (s : string) (acc : Z) : option Z :=
  match s with
  | EmptyString => Some acc
  | String c s => d ← char_digit c; parse_digits s (10 * acc + d)
  end.

(** [strconv.ParseUint(s, 10, bits)]. *)
Definition ParseUint (s : string) (bits : Z) : res Z :=
  match s with
  | EmptyString => Err (Errorf "invalid syntax")
  | _ => match parse_digits s 0 with
         | None => Err (Errorf "invalid syntax")
         | Some n => if decide (n < 2 ^ bits) then Ok n else Err (Errorf "value out of range")
         end
  end.

#[local] Arguments char_digit : simpl never.
#[local] Arguments digit_char : simpl never.

Lemma char_digit_char d : 0 <= d < 10 → char_digit (digit_char d) = Some d.
Proof.
  intros Hd. unfold char_digit, digit_char. cbv zeta.
  rewrite nat_ascii_embedding by lia. rewrite decide_True by lia. f_equal. lia.
Qed.

Lemma log2_div10 n (fuel : nat) :
  10 <= n → Z.log2 n < Z.of_nat (S fuel) → Z.log2 (n / 10) < Z.of_nat fuel.
Proof.
  intros Hn Hf. assert (Z.log2 (2 * (n / 10)) <= Z.log2 n) as H.
  { apply Z.log2_le_mono. Z.div_mod_to_equations; lia. }
  rewrite Z.log2_double in H by (Z.div_mod_to_equations; lia). lia.
Qed.

Lemma parse_format_digits fuel n acc k :
  0 <= n → Z.log2 n < Z.of_nat fuel → 0 <= k →
  ∃ p, 1 <= p ∧ parse_digits (format_digits fuel n acc) k = parse_digits acc (k * p + n) ∧
       (k = 0 → parse_digits (format_digits fuel n acc) 0 = parse_digits acc n).
Proof.
  revert n acc k. induction fuel as [|fuel IH]; intros n acc k Hn Hf Hk.
  { pose proof (Z.log2_nonneg n). lia. }
  cbn [format_digits].
  pose proof (Z.mod_pos_bound n 10 ltac:(lia)).
  pose proof (Z.div_mod n 10 ltac:(lia)).
  case_decide.
  - exists 10. cbn [parse_digits]. rewrite char_digit_char, Z.mod_small by lia. cbn [mbind option_bind].
    split_and!; [lia|by f_equal; lia|intros; by f_equal; lia].
  - destruct (IH (n / 10) (String (digit_char (n mod 10)) acc) k) as (p & Hp & E & E0);
      [lia|by apply log2_div10; lia|lia|].
    exists (10 * p). rewrite E. cbn [parse_digits]. rewrite char_digit_char by lia.
    cbn [mbind option_bind].
    split_and!; [lia|by f_equal; lia|]. intros ->.
    rewrite E0 by done. cbn [parse_digits]. rewrite char_digit_char by lia. cbn [mbind option_bind].
    f_equal. lia.
Qed.

Lemma format_digits_nonempty fuel m c acc : format_digits fuel m (String c acc) ≠ EmptyString.
Proof.
  revert m c acc. induction fuel as [|fuel IH]; intros m c acc; simpl; [done|].
  case_decide; [done|]. apply IH.
Qed.

Lemma FormatUint_nonempty n : FormatUint n ≠ EmptyString.
Proof.
  unfold FormatUint. cbn [format_digits]. case_decide; [done|]. apply format_digits_nonempty.
Qed.

(** Printing then parsing a number that fits. *)
Lemma ParseUint_FormatUint n bits : 0 <= n < 2 ^ bits → ParseUint (FormatUint n) bits = Ok n.
Proof.
  intros Hn. unfold ParseUint. pose proof (FormatUint_nonempty n) as Hne.
  destruct (FormatUint n) as [|c s] eqn:E; [done|]. rewrite <- E. unfold FormatUint.
  destruct (parse_format_digits (S (Z.to_nat (Z.log2 n))) n EmptyString 0) as (p & _ & _ & E0);
    [lia|pose proof (Z.log2_nonneg n); lia|lia|].
  rewrite E0 by done. simpl. rewrite decide_True by lia. done.
Qed.

(** ** Dates *)

Definition is_leap (y : Z) : bool :=
  bool_decide (y mod 4 = 0) && (negb (bool_decide (y mod 100 = 0)) || bool_decide (y mod 400 = 0)).

(** Days from the first day of year 0 to the first day of year [y]. *)
Definition days_before_year (y : Z) : Z :=
  365 * y + (y + 3) / 4 - (y + 99) / 100 + (y + 399) / 400.

Definition daysIn (y m : Z) : Z :=
  if decide (m = 2) then (if is_leap y then 29 else 28)
  else if decide (m = 4 ∨ m = 6 ∨ m = 9 ∨ m = 11) then 30 else 31.

(** The month and day of the [doy]-th day of the year, counting months
    from [m]; [n] months are left. *)
Fixpoint month_day (n : nat) (y m doy : Z) : Z * Z :=
  match n with
  | O => (m, doy + 1)
  | S n => if decide (doy < daysIn y m) then (m, doy + 1)
           else month_day n y (m + 1) (doy - daysIn y m)
  end.

Definition year_of (d : Z) : Z :=
  let y := d * 400 / 146097 in
  if decide (d < days_before_year y) then y - 1
  else if decide (days_before_year (y + 1) <= d) then y + 1 else y.

(** The Unix epoch, in days from the first day of year 0. *)
Definition epoch : Z := days_before_year 1970.

(** [time.Unix(t, 0).UTC().Date()]. *)
Definition unix_date (t : Z) : Z * Z * Z :=
  let d := t / 86400 + epoch in
  let y := year_of d in
  let md := month_day 11 y 1 (d - days_before_year y) in
  (y, fst md, snd md).

Fixpoint days_before_month (n : nat) (y m : Z) : Z :=
  match n with
  | O => 0
  | S n => daysIn y m + days_before_month n y (m + 1)
  end.

(** [time.Date(y, m, d, 0, 0, 0, 0, UTC).Unix()]. *)
Definition date_unix (y m d : Z) : Z :=
  (days_before_year y + days_before_month (Z.to_nat (m - 1)) y 1 + (d - 1) - epoch) * 86400.

Fixpoint zero_pad (n : nat) (s : string) : string :=
  match n with O => s | S n => String "0" (zero_pad n s) end.

(** [appendInt] of package [time]. *)
Definition appendInt (x : Z) (width : nat) : string :=
  let u := FormatUint (Z.abs x) in
  let padded := zero_pad (width - String.length u)%nat u in
  if decide (x < 0) then String "-" padded else padded.

(** [t.UTC().Format("2006-01-02")]. *)
Definition Format (t : Z) : string :=
  let '(y, m, d) := unix_date t in
  (appendInt y 4 +:+ "-" +:+ appendInt m 2 +:+ "-" +:+ appendInt d 2)%string.

Definition digits_of (s : string) : option Z := parse_digits s 0.

(** [time.Parse("2006-01-02", s)], as a Unix time. *)
Definition Parse (s : string) : res Z :=
  match digits_of (String.substring 0 4 s), digits_of (String.substring 5 2 s), digits_of (String.substring 8 2 s) with
  | Some y, Some m, Some d =>
      if decide (String.length s = 10%nat ∧ String.substring 4 1 s = "-" ∧ String.substring 7 1 s = "-")%string then
        if decide (1 <= m <= 12 ∧ 1 <= d <= daysIn y m) then Ok (date_unix y m d)
        else Err (Errorf "parsing time: out of range")
      else Err (Errorf "parsing time: cannot parse")
  | _, _, _ => Err (Errorf "parsing time: cannot parse")
  end.

(** ** Conflict information *)

Record ConflictInfo := MkConflictInfo { ci_Date : Z; ci_Number : Z }.
#[global] Instance ConflictInfo_eq_dec : EqDecision ConflictInfo.
Proof. solve_decision. Defined.

Definition ErrConflictInfoInvalidString : error := ErrorString "Invalid conflict info string".
Definition ErrConflictInfoInvalidNumber : error := ErrorString "Invalid conflict info number".

Definition conflict_prefix : string := "(conflicted copy ".

Definition ConflictInfo_String (ci : ConflictInfo) : string :=
  let date := Format (ci_Date ci) in
  let num := if decide (ci_Number ci > 1) then (" #" +:+ FormatUint (ci_Number ci))%string else EmptyString in
  (conflict_prefix +:+ date +:+ num +:+ ")")%string.

(** [newConflictInfo] with the time that the clock shows. *)
Definition newConflictInfo (now num : Z) : res ConflictInfo :=
  if decide (num = 0) then Err ErrConflictInfoInvalidNumber
  else date ← Parse (Format now); Ok (MkConflictInfo date num).

(** Matching [ConflictInfoDateRegex], "2[0-9]{3}-[0-9]{2}-[0-9]{2}". *)
Definition matches_date (s : string) : bool :=
  bool_decide (String.length s = 10%nat ∧ String.substring 0 1 s = "2" ∧ String.substring 4 1 s = "-" ∧
               String.substring 7 1 s = "-")%string &&
  bool_decide (is_Some (digits_of (String.substring 1 3 s)) ∧ is_Some (digits_of (String.substring 5 2 s)) ∧
               is_Some (digits_of (String.substring 8 2 s))).

Definition drop_string (n : nat) (s : string) : string := String.substring n (String.length s - n)%nat s.

(** The submatches of [ConflictInfoRegex]: the date and the number, which
    is empty when there is none. *)
Definition FindStringSubmatch (s : string) : option (string * string) :=
  let date := String.substring 17 10 s in
  let rest := drop_string 27 s in
  let num := String.substring 2 (String.length rest - 3)%nat rest in
  if decide (String.substring 0 17 s = conflict_prefix ∧ matches_date date = true) then
    if decide (rest = ")")%string then Some (date, EmptyString)
    else if decide (rest = " #" +:+ num +:+ ")" ∧ num ≠ EmptyString ∧ is_Some (digits_of num))%string
    then Some (date, num) else None
  else None.

Definition ParseConflictInfo (s : string) : res ConflictInfo :=
  match FindStringSubmatch s with
  | None => Err ErrConflictInfoInvalidString
  | Some (v1, v2) =>
      date ← Parse v1;
      num ← (match v2 with
             | EmptyString => Ok 1
             | _ => num ← ParseUint v2 16;
                    if decide (num < 2) then Err ErrConflictInfoInvalidNumber else Ok num
             end);
      Ok (MkConflictInfo date num)
  end.

(** ** Proofs: dates *)

Lemma daysIn_pos y m : 28 <= daysIn y m <= 31.
Proof. unfold daysIn. repeat case_decide; try lia. destruct (is_leap y); lia. Qed.

Lemma is_leap_days y :
  days_before_year (y + 1) - days_before_year y = if is_leap y then 366 else 365.
Proof.
  unfold days_before_year, is_leap.
  repeat (case_bool_decide; simpl); Z.div_mod_to_equations; lia.
Qed.

Lemma year_of_spec d : days_before_year (year_of d) <= d < days_before_year (year_of d + 1).
Proof.
  unfold year_of. cbv zeta. set (y := d * 400 / 146097).
  assert (146097 * y <= 400 * d < 146097 * y + 146097) as Hy by (subst y; Z.div_mod_to_equations; lia).
  clearbody y. repeat case_decide; unfold days_before_year in *; Z.div_mod_to_equations; lia.
Qed.

Lemma month_day_spec n y m doy :
  0 <= doy < days_before_month (S n) y m →
  let '(m', d) := month_day n y m doy in
  m <= m' <= m + Z.of_nat n ∧ 1 <= d <= daysIn y m' ∧
  days_before_month (Z.to_nat (m' - m)) y m + (d - 1) = doy.
Proof.
  revert m doy. induction n as [|n IH]; intros m doy H.
  - simpl in *. rewrite Z.sub_diag. simpl. lia.
  - cbn [month_day]. case_decide as Hd.
    { rewrite Z.sub_diag. simpl. lia. }
    specialize (IH (m + 1) (doy - daysIn y m)). cbn [days_before_month] in *.
    destruct (month_day n y (m + 1) (doy - daysIn y m)) as [m' d].
    destruct IH as (Hm & Hd' & E); [lia|]. split_and!; [lia..|].
    replace (Z.to_nat (m' - m)) with (S (Z.to_nat (m' - (m + 1)))) by lia. cbn [days_before_month]. lia.
Qed.

Lemma year_days y : days_before_month 12 y 1 = days_before_year (y + 1) - days_before_year y.
Proof.
  rewrite is_leap_days. cbn [days_before_month]. unfold daysIn.
  cbn. destruct (is_leap y); reflexivity.
Qed.

(** The date of a time is a valid date, whose midnight is the time's. *)
Lemma unix_date_spec t :
  let '(y, m, d) := unix_date t in
  1 <= m <= 12 ∧ 1 <= d <= daysIn y m ∧ date_unix y m d = t / 86400 * 86400.
Proof.
  unfold unix_date. cbv zeta. set (d := t / 86400 + epoch).
  pose proof (year_of_spec d) as Hy. pose proof (year_days (year_of d)) as Hlen.
  pose proof (month_day_spec 11 (year_of d) 1 (d - days_before_year (year_of d))) as H.
  destruct (month_day 11 _ 1 _) as [m day]. simpl fst. simpl snd.
  destruct H as (Hm & Hd & E); [lia|]. split_and!; [lia..|].
  unfold date_unix. subst d. lia.
Qed.

(** ** The round trip *)

Definition year_ok (y : Z) : bool :=
  match appendInt y 4 with
  | String c (String c1 (String c2 (String c3 EmptyString))) as s =>
      bool_decide (c = "2"%char ∧ digits_of s = Some y ∧
                   is_Some (digits_of (String c1 (String c2 (String c3 EmptyString)))))
  | _ => false
  end.

Definition two_ok (x : Z) : bool :=
  match appendInt x 2 with
  | String _ (String _ EmptyString) as s => bool_decide (digits_of s = Some x)
  | _ => false
  end.

Lemma forallb_seqZ (P : Z → bool) m n x :
  forallb P (seqZ m n) = true → m <= x < m + n → P x = true.
Proof.
  intros H Hx. rewrite forallb_forall in H. apply H, list_elem_of_In, elem_of_seqZ. lia.
Qed.

Lemma years_ok y : 2000 <= y < 3000 → year_ok y = true.
Proof. apply (forallb_seqZ year_ok 2000 1000). by vm_compute. Qed.

Lemma twos_ok x : 0 <= x < 100 → two_ok x = true.
Proof. apply (forallb_seqZ two_ok 0 100). by vm_compute. Qed.

(** What the date of a year of four digits starting with 2 prints as. *)
Lemma Format_shape t :
  date_unix 2000 1 1 <= t < date_unix 3000 1 1 →
  ∃ s, Format t = s ∧ matches_date s = true ∧ Parse s = Ok (t / 86400 * 86400) ∧
    ∃ c0 c1 c2 c3 c4 c5 c6 c7 c8 c9, s = String c0 (String c1 (String c2 (String c3 (String c4
      (String c5 (String c6 (String c7 (String c8 (String c9 EmptyString))))))))).
Proof.
  intros Ht. unfold Format. pose proof (unix_date_spec t) as H.
  assert (∀ y m d, unix_date t = (y, m, d) → 2000 <= y < 3000) as Hyear.
  { intros y m d E. unfold unix_date in E. cbv zeta in E.
    pose proof (year_of_spec (t / 86400 + epoch)) as Hy. simplify_eq.
    set (y := year_of _) in *. clearbody y.
    assert (days_before_year 2000 <= t / 86400 + epoch < days_before_year 3000) as Hb.
    { unfold date_unix in Ht. simpl in Ht. unfold epoch in *. Z.div_mod_to_equations. lia. }
    unfold days_before_year in *. Z.div_mod_to_equations. lia. }
  destruct (unix_date t) as [[y m] d]. destruct H as (Hm & Hd & E).
  specialize (Hyear y m d eq_refl). pose proof (daysIn_pos y m) as Hdays.
  pose proof (years_ok y Hyear) as Yok. pose proof (twos_ok m ltac:(lia)) as Mok.
  pose proof (twos_ok d ltac:(lia)) as Dok. unfold year_ok, two_ok in *.
  destruct (appendInt y 4) as [|c0 [|c1 [|c2 [|c3 []]]]]; try done.
  destruct (appendInt m 2) as [|c4 [|c5 []]]; try done.
  destruct (appendInt d 2) as [|c6 [|c7 []]]; try done.
  apply bool_decide_eq_true in Yok as (-> & Y1 & Y2), Mok, Dok.
  exists (String "2" (String c1 (String c2 (String c3 (String "-" (String c4 (String c5
    (String "-" (String c6 (String c7 EmptyString)))))))))).
  split; [reflexivity|]. unfold matches_date, Parse. cbn -[digits_of decide].
  rewrite Y1, Mok, Dok. split_and!.
  - rewrite !bool_decide_eq_true_2; [done|split_and!; eauto|done].
  - rewrite decide_True by done. rewrite decide_True by lia. by rewrite E.
  - by eauto 20.
Qed.

Lemma digits_of_FormatUint n : 0 <= n → digits_of (FormatUint n) = Some n.
Proof.
  intros Hn. unfold digits_of, FormatUint.
  destruct (parse_format_digits (S (Z.to_nat (Z.log2 n))) n EmptyString 0) as (p & _ & _ & E);
    [lia|pose proof (Z.log2_nonneg n); lia|lia|]. by rewrite E.
Qed.

Lemma substring_prefix s t : String.substring 0 (String.length s) (s +:+ t) = s.
Proof. induction s as [|c s IH]; [by destruct t|]. simpl. by rewrite <- IH at 3. Qed.

Lemma length_append s t : String.length (s +:+ t) = (String.length s + String.length t)%nat.
Proof. induction s as [|c s IH]; [done|]. simpl. by f_equal. Qed.

Lemma substring_whole s : String.substring 0 (String.length s) s = s.
Proof. induction s as [|c s IH]; [done|]. simpl. by rewrite IH. Qed.

Lemma drop_string_append s t : drop_string (String.length s) (s +:+ t) = t.
Proof.
  unfold drop_string. rewrite length_append.
  replace (String.length s + String.length t - String.length s)%nat with (String.length t) by lia.
  induction s as [|c s IH]; [apply substring_whole|done].
Qed.

(** The submatches of a printed suffix. *)
Lemma FindStringSubmatch_date s :
  matches_date s = true → String.length s = 10%nat →
  FindStringSubmatch (conflict_prefix +:+ s +:+ ")") = Some (s, EmptyString) ∧
  ∀ num, num ≠ EmptyString → is_Some (digits_of num) →
    FindStringSubmatch (conflict_prefix +:+ s +:+ " #" +:+ num +:+ ")") = Some (s, num).
Proof.
  intros Hs Hl. do 10 (destruct s as [|? s]; [done|]). destruct s; [|done].
  match type of Hl with String.length ?d = _ => set (date := d) in * end.
  assert (∀ t, drop_string 27 (conflict_prefix +:+ date +:+ t) = t) as Hdrop.
  { intros t. exact (drop_string_append (conflict_prefix +:+ date) t). }
  unfold FindStringSubmatch. split.
  - rewrite Hdrop, decide_True by done. by rewrite decide_True.
  - intros num Hne Hnum. rewrite Hdrop, decide_True by done. cbv zeta.
    rewrite decide_False by (by destruct num).
    assert (String.substring 2 (String.length (" #" +:+ num +:+ ")") - 3) (" #" +:+ num +:+ ")") = num) as ->.
    { rewrite !length_append. cbn. replace (String.length num + 1 - 1)%nat with (String.length num) by lia.
      apply substring_prefix. }
    by rewrite decide_True.
Qed.

(** A conflict suffix parses back to the conflict information that it
    was printed from, for every date (a midnight) from 2000 to 2999 and
    every number from 1 to 65535. *)
Theorem ParseConflictInfo_String ci :
  date_unix 2000 1 1 <= ci_Date ci < date_unix 3000 1 1 → ci_Date ci mod 86400 = 0 →
  1 <= ci_Number ci < 2 ^ 16 →
  ParseConflictInfo (ConflictInfo_String ci) = Ok ci.
Proof.
  destruct ci as [t n]. simpl. intros Ht Hmid Hn.
  destruct (Format_shape t Ht) as (s & Es & Hs & Hp & c0 & c1 & c2 & c3 & c4 & c5 & c6 & c7 & c8 & c9 & Hc).
  assert (String.length s = 10%nat) as Hl by by rewrite Hc.
  destruct (FindStringSubmatch_date s Hs Hl) as [F1 F2].
  unfold ParseConflictInfo, ConflictInfo_String. simpl ci_Date. simpl ci_Number. rewrite Es. clear Hc.
  assert (t / 86400 * 86400 = t) as Hmt by (Z.div_mod_to_equations; lia).
  case_decide.
  - change ((" #" +:+ FormatUint n) +:+ ")")%string with (" #" +:+ FormatUint n +:+ ")")%string.
    rewrite (F2 (FormatUint n)) by (try apply FormatUint_nonempty; rewrite digits_of_FormatUint by lia; eauto).
    rewrite Hp, Hmt. simpl. pose proof (FormatUint_nonempty n).
    pose proof (ParseUint_FormatUint n 16 ltac:(lia)) as E.
    destruct (FormatUint n); [done|]. rewrite E. simpl. by rewrite decide_False by lia.
  - change (EmptyString +:+ ")")%string with ")"%string.
    rewrite F1, Hp, Hmt. simpl. do 2 f_equal. lia.
Qed.

Lemma ParseConflictInfo_String_witness :
  ParseConflictInfo "(conflicted copy 2016-03-14 #2)" = Ok (MkConflictInfo 1457913600 2).
Proof.
  apply (ParseConflictInfo_String (MkConflictInfo 1457913600 2)); vm_compute; by split.
Defined.
