(* ===== verification/RpcErrors.v ===== *)
(** * RpcErrors: errors over the wire ([bserver_errors.go],
    [mdserver_errors.go])

    A server turns an error into a status of the RPC protocol, and the
    client turns the status back into an error, by its code.  The types of
    errors are those of the code; an error that wraps another one has its
    text. *)

From Stdlib Require Import ZArith Ascii Lia.
From S2P Require Import Prelude Types Errors GoStd Ids ConflictInfo.

#[local] Open Scope Z_scope.

(** ** [strconv] *)

Definition minus : ascii := "-"%char.
Definition plus : ascii := "+"%char.

Definition FormatInt (n : Z) : string := if decide (n < 0) then String minus (FormatUint (- n)) else FormatUint n.

(** [ParseInt(s, 10, 64)]: the value it returns even with an error: 0 for
    what is not a number, the closest number for what is out of range. *)
Definition ParseInt_value (s : string) : Z :=
  let '(neg, digits) :=
    match s with
    | String c s' => if decide (c = minus) then (true, s') else if decide (c = plus) then (false, s') else (false, s)
    | EmptyString => (false, s)
    end in
  match digits with
  | EmptyString => 0
  | _ => match parse_digits digits 0 with
         | None => 0
         | Some n => if (neg : bool) then (if decide (n > 2 ^ 63) then - 2 ^ 63 else - n)
                     else (if decide (n >= 2 ^ 63) then 2 ^ 63 - 1 else n)
         end
  end.

Definition FormatBool (b : bool) : string := if b then "true" else "false".
Definition ParseBool_value (s : string) : bool :=
  bool_decide (s ∈ ["1"; "t"; "T"; "TRUE"; "true"; "True"]).

#[local] Arguments char_digit : simpl never.

Lemma FormatUint_head n : 0 <= n → ∃ c s, FormatUint n = String c s ∧ c ≠ minus ∧ c ≠ plus ∧
  parse_digits (FormatUint n) 0 = Some n.
Proof.
  intros Hn. pose proof (ParseUint_FormatUint n (Z.succ (Z.log2 n))) as Hp. unfold ParseUint in Hp.
  destruct (FormatUint n) as [|c s] eqn:E; [by apply FormatUint_nonempty in E|].
  destruct (parse_digits (String c s) 0) as [m|] eqn:Ed.
  - exists c, s. split; [done|]. split; [intros ->; vm_compute in Ed; discriminate|].
    split; [intros ->; vm_compute in Ed; discriminate|]. f_equal.
    case_decide; [|exfalso]; pose proof (Z.log2_spec n); destruct (decide (n = 0)) as [->|]; naive_solver lia.
  - exfalso. destruct (decide (n = 0)) as [->|]; [by specialize (Hp ltac:(simpl; lia))|].
    pose proof (Z.log2_spec n ltac:(lia)). naive_solver lia.
Qed.

Lemma ParseInt_FormatInt n : - 2 ^ 63 <= n < 2 ^ 63 → ParseInt_value (FormatInt n) = n.
Proof.
  intros Hn. unfold FormatInt, ParseInt_value. case_decide as Hneg.
  - destruct (FormatUint_head (- n)) as (c & s & E & _ & _ & Hp); [lia|]. rewrite decide_True by done.
    rewrite Hp, E. rewrite decide_False by lia. lia.
  - destruct (FormatUint_head n) as (c & s & E & Hm & Hpl & Hp); [lia|]. rewrite E in Hp |- *.
    rewrite !decide_False by done. rewrite Hp. rewrite decide_False by lia. done.
Qed.

Lemma ParseBool_FormatBool b : ParseBool_value (FormatBool b) = b.
Proof. by destruct b. Qed.

(** ** Statuses *)

Record Status := MkStatus { st_Code : Z; st_Name : string; st_Desc : string; st_Fields : list (string * string) }.

(** What [UnwrapError] makes of a status with a code of no known error. *)
Record AppStatusError := MkAppStatusError {
  ase_Code : Z; ase_Name : string; ase_Desc : string; ase_Fields : gmap string string
}.
Definition app_status_error (s : Status) : AppStatusError :=
  MkAppStatusError (st_Code s) (st_Name s) (st_Desc s) (foldl (λ m f, <[fst f := snd f]> m) ∅ (st_Fields s)).

(** ** The block server's errors *)

Inductive bserverError :=
| BServerError (Msg : string)
| BServerErrorBadRequest (Msg : string)
| BServerErrorUnauthorized (Msg : string)
| BServerErrorOverQuota (Msg : string) (Usage Limit : Z) (Throttled : bool)
| BServerErrorBlockNonExistent (Msg : string)
| BServerErrorBlockArchived (Msg : string)
| BServerErrorNoPermission (Msg : string)
| BServerErrorBlockDeleted (Msg : string)
| BServerErrorNonceNonExistent (Msg : string)
| BServerErrorThrottle (Msg : string)
| BServerAppStatusError (e : AppStatusError).

Definition StatusCodeBServerError : Z := 2700.
Definition StatusCodeBServerErrorBadRequest : Z := 2701.
Definition StatusCodeBServerErrorUnauthorized : Z := 2702.
Definition StatusCodeBServerErrorOverQuota : Z := 2703.
Definition StatusCodeBServerErrorBlockNonExistent : Z := 2704.
Definition StatusCodeBServerErrorBlockArchived : Z := 2705.
Definition StatusCodeBServerErrorNoPermission : Z := 2706.
Definition StatusCodeBServerErrorBlockDeleted : Z := 2707.
Definition StatusCodeBServerErrorNonceNonExistent : Z := 2708.
Definition StatusCodeBServerErrorThrottle : Z := 2799.

(** The [ToStatus] methods; [AppStatusError] is not exportable. *)
Definition bserver_ToStatus (e : bserverError) : option Status :=
  match e with
  | BServerError Msg => Some (MkStatus StatusCodeBServerError "SERVER_ERROR" Msg [])
  | BServerErrorBadRequest Msg => Some (MkStatus StatusCodeBServerErrorBadRequest "BAD_REQUEST" Msg [])
  | BServerErrorUnauthorized Msg => Some (MkStatus StatusCodeBServerErrorUnauthorized "SESSION_UNAUTHORIZED" Msg [])
  | BServerErrorOverQuota Msg Usage Limit Throttled =>
      Some (MkStatus StatusCodeBServerErrorOverQuota "QUOTA_EXCEEDED" Msg
        [("QUOTA_USAGE", FormatInt Usage); ("QUOTA_LIMIT", FormatInt Limit); ("QUOTA_THROTTLE", FormatBool Throttled)])
  | BServerErrorBlockNonExistent Msg => Some (MkStatus StatusCodeBServerErrorBlockNonExistent "BLOCK_NONEXISTENT" Msg [])
  | BServerErrorBlockArchived Msg => Some (MkStatus StatusCodeBServerErrorBlockArchived "BLOCK_ARCHIVED" Msg [])
  | BServerErrorNoPermission Msg => Some (MkStatus StatusCodeBServerErrorNoPermission "NO_PERMISSION" Msg [])
  | BServerErrorBlockDeleted Msg => Some (MkStatus StatusCodeBServerErrorBlockDeleted "BLOCK_DELETED" Msg [])
  | BServerErrorNonceNonExistent Msg => Some (MkStatus StatusCodeBServerErrorNonceNonExistent "BLOCK_NONCENONEXISTENT" Msg [])
  | BServerErrorThrottle Msg => Some (MkStatus StatusCodeBServerErrorThrottle "ERROR_THROTTLE" Msg [])
  | BServerAppStatusError _ => None
  end.

Definition or_default (Msg text : string) : string := if decide (Msg = EmptyString) then text else Msg.

(** The [Error] methods. *)
Definition bserver_Error (e : bserverError) : option string :=
  match e with
  | BServerError Msg | BServerErrorThrottle Msg => Some Msg
  | BServerErrorBadRequest Msg => Some (or_default Msg "BServer: bad client request")
  | BServerErrorUnauthorized Msg => Some (or_default Msg "BServer: session not validated")
  | BServerErrorOverQuota Msg _ _ _ => Some (or_default Msg "BServer: user has exceeded quota")
  | BServerErrorBlockNonExistent Msg => Some (or_default Msg "BServer: block does not exist")
  | BServerErrorBlockArchived Msg => Some (or_default Msg "BServer: block is archived")
  | BServerErrorBlockDeleted Msg => Some (or_default Msg "BServer: block is deleted")
  | BServerErrorNoPermission Msg => Some (or_default Msg "BServer: permission denied")
  | BServerErrorNonceNonExistent Msg => Some (or_default Msg "BServer: reference nonce does not exist")
  | BServerAppStatusError _ => None
  end.

(** One field of an over-quota status. *)
Definition quota_field (q : Z * Z * bool) (f : string * string) : Z * Z * bool :=
  let '(Usage, Limit, Throttled) := q in
  if decide (fst f = "QUOTA_USAGE")%string then (ParseInt_value (snd f), Limit, Throttled)
  else if decide (fst f = "QUOTA_LIMIT")%string then (Usage, ParseInt_value (snd f), Throttled)
  else if decide (fst f = "QUOTA_THROTTLE")%string then (Usage, Limit, ParseBool_value (snd f))
  else q.

(** [UnwrapError] of a status; a status without a code is no error. *)
Definition bserver_UnwrapError (s : Status) : option bserverError :=
  let Msg := st_Desc s in
  if decide (st_Code s = 0) then None
  else Some (
    if decide (st_Code s = StatusCodeBServerError) then BServerError Msg
    else if decide (st_Code s = StatusCodeBServerErrorBadRequest) then BServerErrorBadRequest Msg
    else if decide (st_Code s = StatusCodeBServerErrorUnauthorized) then BServerErrorUnauthorized Msg
    else if decide (st_Code s = StatusCodeBServerErrorOverQuota) then
      let '(Usage, Limit, Throttled) := foldl quota_field (0, 0, false) (st_Fields s) in
      BServerErrorOverQuota Msg Usage Limit Throttled
    else if decide (st_Code s = StatusCodeBServerErrorBlockNonExistent) then BServerErrorBlockNonExistent Msg
    else if decide (st_Code s = StatusCodeBServerErrorBlockArchived) then BServerErrorBlockArchived Msg
    else if decide (st_Code s = StatusCodeBServerErrorNoPermission) then BServerErrorNoPermission Msg
    else if decide (st_Code s = StatusCodeBServerErrorThrottle) then BServerErrorThrottle Msg
    else if decide (st_Code s = StatusCodeBServerErrorBlockDeleted) then BServerErrorBlockDeleted Msg
    else if decide (st_Code s = StatusCodeBServerErrorNonceNonExistent) then BServerErrorNonceNonExistent Msg
    else BServerAppStatusError (app_status_error s)).

Definition bserver_error_fits (e : bserverError) : Prop :=
  match e with
  | BServerErrorOverQuota _ Usage Limit _ => - 2 ^ 63 <= Usage < 2 ^ 63 ∧ - 2 ^ 63 <= Limit < 2 ^ 63
  | _ => True
  end.

(** Every error of the block server reaches the client as it is: the status
    it is sent as unwraps to the same error, with its message, and for a
    quota error with the usage, the limit and the throttling. *)
Theorem bserver_error_roundtrip e s :
  bserver_error_fits e → bserver_ToStatus e = Some s → bserver_UnwrapError s = Some e.
Proof.
  destruct e as [m|m|m|m u l t|m|m|m|m|m|m|e]; simpl; intros Hf [= <-]; try done.
  unfold bserver_UnwrapError. simpl. rewrite !ParseInt_FormatInt by apply Hf. by rewrite ParseBool_FormatBool.
Qed.

Lemma bserver_error_roundtrip_witness :
  bserver_UnwrapError (MkStatus 2703 "QUOTA_EXCEEDED" "" [("QUOTA_USAGE", "12"); ("QUOTA_LIMIT", "10"); ("QUOTA_THROTTLE", "true")])
  = Some (BServerErrorOverQuota "" 12 10 true).
Proof. apply (bserver_error_roundtrip (BServerErrorOverQuota "" 12 10 true)); [split; split; reflexivity || discriminate|reflexivity]. Defined.

(** ** The metadata server's errors *)

(** An error that is wrapped is its text; [None] is nil. *)
Inductive mdserverError :=
| MDServerError (Err : option string)
| MDServerErrorBadRequest (Reason : string)
| MDServerErrorConflictRevision (Desc : string) (Expected Actual : Z)
| MDServerErrorConflictPrevRoot (Desc : string) (Expected Actual : MdID)
| MDServerErrorConflictDiskUsage (Desc : string) (Expected Actual : Z)
| MDServerErrorLocked
| MDServerErrorUnauthorized (Err : option string)
| MDServerErrorWriteAccess
| MDServerErrorThrottle (Err : option string)
| MDServerErrorConditionFailed (Err : option string)
| MDServerErrorConflictFolderMapping (Desc : string) (Expected Actual : TlfID)
| MDAppStatusError (e : AppStatusError).

Definition StatusCodeMDServerError : Z := 2800.
Definition StatusCodeMDServerErrorBadRequest : Z := 2801.
Definition StatusCodeMDServerErrorConflictRevision : Z := 2802.
Definition StatusCodeMDServerErrorConflictPrevRoot : Z := 2803.
Definition StatusCodeMDServerErrorConflictDiskUsage : Z := 2804.
Definition StatusCodeMDServerErrorLocked : Z := 2805.
Definition StatusCodeMDServerErrorUnauthorized : Z := 2806.
Definition StatusCodeMDServerErrorThrottle : Z := 2807.
Definition StatusCodeMDServerErrorConditionFailed : Z := 2808.
Definition StatusCodeMDServerErrorWriteAccess : Z := 2809.
Definition StatusCodeMDServerErrorConflictFolderMapping : Z := 2810.

(** [e.Err.Error()]. *)
Definition inner_Error (err : option string) : res string :=
  match err with Some text => Ok text | None => Panic "nil pointer dereference" end.

Definition mdserver_Error (e : mdserverError) : res string :=
  match e with
  | MDServerError err => Ok (default "Generic error" err)
  | MDServerErrorBadRequest Reason => Ok ("Bad request: " +:+ Reason)
  | MDServerErrorConflictRevision Desc Expected Actual =>
      Ok (or_default Desc ("Conflict: expected revision " +:+ FormatInt Expected +:+ ", actual " +:+ FormatInt Actual))
  | MDServerErrorConflictPrevRoot Desc Expected Actual =>
      Ok (or_default Desc ("Conflict: expected previous root " +:+ MdID_String Expected +:+ ", actual " +:+ MdID_String Actual))
  | MDServerErrorConflictDiskUsage Desc Expected Actual =>
      Ok (or_default Desc ("Conflict: expected disk usage " +:+ FormatInt Expected +:+ ", actual " +:+ FormatInt Actual))
  | MDServerErrorLocked => Ok "Locked"%string
  | MDServerErrorUnauthorized err =>
      Ok ("Unauthorized" +:+ match err with Some text => ": " +:+ text | None => EmptyString end)
  | MDServerErrorWriteAccess => Ok "WriteAccess"%string
  | MDServerErrorThrottle err | MDServerErrorConditionFailed err => inner_Error err
  | MDServerErrorConflictFolderMapping Desc Expected Actual =>
      Ok (or_default Desc ("Conflict: expected folder ID " +:+ TlfID_String Expected +:+ ", actual " +:+ TlfID_String Actual))
  | MDAppStatusError e => Ok (ase_Desc e)
  end.

Definition mdserver_ToStatus (e : mdserverError) : res (option Status) :=
  let status code name := desc ← mdserver_Error e; Ok (Some (MkStatus code name desc [])) in
  match e with
  | MDServerError _ => status StatusCodeMDServerError "SERVER_ERROR"
  | MDServerErrorBadRequest Reason => Ok (Some (MkStatus StatusCodeMDServerErrorBadRequest "BAD_REQUEST" Reason []))
  | MDServerErrorConflictRevision _ _ _ => status StatusCodeMDServerErrorConflictRevision "CONFLICT_REVISION"
  | MDServerErrorConflictPrevRoot _ _ _ => status StatusCodeMDServerErrorConflictPrevRoot "CONFLICT_PREV_ROOT"
  | MDServerErrorConflictDiskUsage _ _ _ => status StatusCodeMDServerErrorConflictDiskUsage "CONFLICT_DISK_USAGE"
  | MDServerErrorLocked => status StatusCodeMDServerErrorLocked "LOCKED"
  | MDServerErrorUnauthorized _ => status StatusCodeMDServerErrorUnauthorized "UNAUTHORIZED"
  | MDServerErrorWriteAccess => status StatusCodeMDServerErrorWriteAccess "WRITE_ACCESS"
  | MDServerErrorThrottle _ => status StatusCodeMDServerErrorThrottle "THROTTLE"
  | MDServerErrorConditionFailed _ => status StatusCodeMDServerErrorThrottle "CONDITION_FAILED"
  | MDServerErrorConflictFolderMapping _ _ _ => status StatusCodeMDServerErrorConflictFolderMapping "CONFLICT_FOLDER_MAPPING"
  | MDAppStatusError _ => Ok None
  end%string.

Definition mdserver_UnwrapError (s : Status) : option mdserverError :=
  let Desc := st_Desc s in
  if decide (st_Code s = 0) then None
  else Some (
    if decide (st_Code s = StatusCodeMDServerError) then MDServerError (Some Desc)
    else if decide (st_Code s = StatusCodeMDServerErrorBadRequest) then MDServerErrorBadRequest Desc
    else if decide (st_Code s = StatusCodeMDServerErrorConflictRevision) then MDServerErrorConflictRevision Desc 0 0
    else if decide (st_Code s = StatusCodeMDServerErrorConflictPrevRoot) then MDServerErrorConflictPrevRoot Desc (MkMdID (MkHash EmptyString)) (MkMdID (MkHash EmptyString))
    else if decide (st_Code s = StatusCodeMDServerErrorConflictDiskUsage) then MDServerErrorConflictDiskUsage Desc 0 0
    else if decide (st_Code s = StatusCodeMDServerErrorLocked) then MDServerErrorLocked
    else if decide (st_Code s = StatusCodeMDServerErrorUnauthorized) then MDServerErrorUnauthorized None
    else if decide (st_Code s = StatusCodeMDServerErrorThrottle) then MDServerErrorThrottle (Some Desc)
    else if decide (st_Code s = StatusCodeMDServerErrorConditionFailed) then MDServerErrorConditionFailed (Some Desc)
    else if decide (st_Code s = StatusCodeMDServerErrorWriteAccess) then MDServerErrorWriteAccess
    else if decide (st_Code s = StatusCodeMDServerErrorConflictFolderMapping)
      then MDServerErrorConflictFolderMapping Desc NullTlfID NullTlfID
    else MDAppStatusError (app_status_error s)).

(** What is left of an error when it has crossed the wire: its type, except
    for a failed condition, and what it says. *)
Definition same_kind (e e' : mdserverError) : Prop :=
  match e, e' with
  | MDServerError _, MDServerError _ | MDServerErrorBadRequest _, MDServerErrorBadRequest _
  | MDServerErrorConflictRevision _ _ _, MDServerErrorConflictRevision _ _ _
  | MDServerErrorConflictPrevRoot _ _ _, MDServerErrorConflictPrevRoot _ _ _
  | MDServerErrorConflictDiskUsage _ _ _, MDServerErrorConflictDiskUsage _ _ _
  | MDServerErrorLocked, MDServerErrorLocked | MDServerErrorUnauthorized _, MDServerErrorUnauthorized _
  | MDServerErrorWriteAccess, MDServerErrorWriteAccess | MDServerErrorThrottle _, MDServerErrorThrottle _
  | MDServerErrorConditionFailed _, MDServerErrorConditionFailed _
  | MDServerErrorConflictFolderMapping _ _ _, MDServerErrorConflictFolderMapping _ _ _ => True
  | _, _ => False
  end.

(** [isRevisionConflict] of [folder_branch_ops.go]: a put that failed so is
    made on a branch of its own. *)
Definition isRevisionConflict (err : option mdserverError) : bool :=
  match err with
  | Some (MDServerErrorConflictRevision _ _ _) | Some (MDServerErrorConflictPrevRoot _ _ _)
  | Some (MDServerErrorConflictDiskUsage _ _ _) | Some (MDServerErrorConditionFailed _)
  | Some (MDServerErrorConflictFolderMapping _ _ _) => true
  | _ => false
  end.

Lemma or_default_twice Desc text text' : text ≠ EmptyString → or_default (or_default Desc text) text' = or_default Desc text.
Proof. unfold or_default. intros Ht. repeat case_decide; congruence. Qed.

Lemma text_nonempty c (s t : string) : (String c s +:+ t)%string ≠ EmptyString.
Proof. done. Qed.

(** An error of the metadata server, other than a failed condition, reaches
    the client as an error of the same type, which it takes for a conflict
    exactly when it was one, and, but for the reason of an unauthorized
    request, says the same. *)
Theorem mdserver_error_kind e s :
  (∀ err, e ≠ MDServerErrorConditionFailed err) → mdserver_ToStatus e = Ok (Some s) →
  ∃ e', mdserver_UnwrapError s = Some e' ∧ same_kind e e' ∧ isRevisionConflict (Some e') = isRevisionConflict (Some e) ∧
    ((∀ text, e ≠ MDServerErrorUnauthorized (Some text)) → mdserver_Error e' = mdserver_Error e).
Proof.
  intros Hc Hs. destruct e as [err|r|d x y|d x y|d x y| |err| |[t|]|err|d x y|a]; simpl in Hs; try discriminate Hs;
    try (injection Hs as <-); try (by destruct (Hc err)); eexists; (split; [reflexivity|split; [exact I|split; [reflexivity|]]]); simpl; intros Hu;
    rewrite ?or_default_twice by discriminate; try reflexivity.
  destruct err as [text|]; [by destruct (Hu text)|reflexivity].
Qed.

Lemma mdserver_error_kind_witness : ∃ e',
  mdserver_UnwrapError (MkStatus 2802 "CONFLICT_REVISION" "Conflict: expected revision 7, actual 6" []) = Some e' ∧
  same_kind (MDServerErrorConflictRevision "" 7 6) e' ∧ mdserver_Error e' = Ok "Conflict: expected revision 7, actual 6"%string.
Proof.
  destruct (mdserver_error_kind (MDServerErrorConflictRevision "" 7 6)
    (MkStatus 2802 "CONFLICT_REVISION" "Conflict: expected revision 7, actual 6" [])) as (e' & Hu & Hk & _ & He);
    [discriminate|vm_compute; reflexivity|].
  exists e'. split; [exact Hu|]. split; [exact Hk|]. rewrite He by discriminate. vm_compute. reflexivity.
Defined.

(** A failed condition, which the client is to treat as a conflict, is sent
    with the code of a throttled request, and arrives as one. *)
Theorem condition_failed_becomes_throttle text s :
  mdserver_ToStatus (MDServerErrorConditionFailed (Some text)) = Ok (Some s) →
  mdserver_UnwrapError s = Some (MDServerErrorThrottle (Some text)) ∧
  isRevisionConflict (Some (MDServerErrorConditionFailed (Some text))) = true ∧
  isRevisionConflict (mdserver_UnwrapError s) = false.
Proof. by intros [= <-]. Qed.
