(* ===== verification/Handles.v ===== *)
(** * Handles: the users of a top-level folder, and its name

    Models [libkbfs/tlf_handle.go]: bare handles (sorted lists of writers
    and readers, resolved to user ids or not), their making and the
    resolution of assertions; handles with names; and the parsing of
    folder names.

    The resolutions of the users of a handle run concurrently: their
    results arrive in some order, which [makeTlfHandleHelper] takes as the
    list of arrivals.  The user directory ([KBPKI]) and the assertion
    parser of [libkb] are the class [KBPKI].  Sorting is [merge_sort]; a
    Go map of booleans is a [gset]. *)

From Stdlib Require Import ZArith Ascii Lia.
From stdpp Require Import sorting.
From S2P Require Import Prelude Types Errors GoStd DataTypes ConflictInfo.

Definition PublicUID : UID := "ffffffffffffffffffffffffffffff00".
Definition PublicUIDName : string := "_public".
Definition ReaderSep : ascii := "#".
Definition ConflictSuffixSep : ascii := " ".

Record SocialAssertion := MkSocialAssertion { sa_User : string; sa_Service : string }.
#[global] Instance SocialAssertion_eq_dec : EqDecision SocialAssertion.
Proof. solve_decision. Defined.
#[global] Instance SocialAssertion_countable : Countable SocialAssertion.
Proof.
  by apply (inj_countable' (λ a, (sa_User a, sa_Service a)) (λ '(u, s), MkSocialAssertion u s)); intros [].
Defined.

Definition SocialAssertion_String (a : SocialAssertion) : string := sa_User a +:+ "@" +:+ sa_Service a.

Record BareTlfHandle := MkBareTlfHandle {
  h_Writers : list UID;
  h_Readers : list UID;
  h_UnresolvedWriters : list SocialAssertion;
  h_UnresolvedReaders : list SocialAssertion;
  h_ConflictInfo : option ConflictInfo
}.
#[global] Instance BareTlfHandle_eq_dec : EqDecision BareTlfHandle.
Proof. solve_decision. Defined.

(** ** Sorting *)

Definition UID_le (u v : UID) : Prop := String.le u v.
#[global] Instance UID_le_dec : RelDecision UID_le := String.le_dec.

Definition assertion_le (a b : SocialAssertion) : Prop :=
  String.le (SocialAssertion_String a) (SocialAssertion_String b).
#[global] Instance assertion_le_dec : RelDecision assertion_le := λ a b, _.

Definition sort_UIDs (l : list UID) : list UID := merge_sort UID_le l.
Definition sort_assertions (l : list SocialAssertion) : list SocialAssertion :=
  merge_sort assertion_le l.

(** ** Bare handles *)

Definition ErrNoWriters : error := ErrorString "Cannot make TLF handle with no writers; need rekey?".
Definition ErrInvalidWriter : error := ErrorString "Cannot make TLF handle with invalid writer".
Definition ErrInvalidReader : error := ErrorString "Cannot make TLF handle with invalid reader".

Definition MakeBareTlfHandle (writers readers : list UID)
    (unresolvedWriters unresolvedReaders : list SocialAssertion)
    (conflictInfo : option ConflictInfo) : res BareTlfHandle :=
  if decide (length writers = 0) then Err ErrNoWriters
  else if decide (PublicUID ∈ writers) then Err ErrInvalidWriter
  else if decide (1 < length readers + length unresolvedReaders ∧ PublicUID ∈ readers)
  then Err ErrInvalidReader
  else Ok (MkBareTlfHandle (sort_UIDs writers) (sort_UIDs readers)
             (sort_assertions unresolvedWriters) (sort_assertions unresolvedReaders) conflictInfo).

Definition uidSliceToSet (s : list UID) : gset UID := list_to_set s.
Definition assertionSliceToSet (s : list SocialAssertion) : gset SocialAssertion := list_to_set s.
Definition uidSetToSlice (m : gset UID) : list UID := elements m.
Definition assertionSetToSlice (m : gset SocialAssertion) : list SocialAssertion := elements m.

(** One entry of the map of assertions. *)
Definition resolve_one (acc : gset UID * gset SocialAssertion) (au : SocialAssertion * UID)
    : gset UID * gset SocialAssertion :=
  if decide (au.1 ∈ acc.2) then ({[ au.2 ]} ∪ acc.1, acc.2 ∖ {[ au.1 ]}) else acc.

Definition resolveAssertions (assertions : list (SocialAssertion * UID))
    (unresolved : list SocialAssertion) (resolved : list UID) : gset UID * list SocialAssertion :=
  let '(resolvedMap, unresolvedMap) :=
    foldl resolve_one (uidSliceToSet resolved, assertionSliceToSet unresolved) assertions in
  (resolvedMap, assertionSetToSlice unresolvedMap).

(** The map of assertions, in the order of an iteration over it. *)
Definition ResolveAssertions (h : BareTlfHandle) (assertions : list (SocialAssertion * UID))
    : BareTlfHandle :=
  if decide (length assertions = 0 ∨
             (length (h_UnresolvedWriters h) = 0 ∧ length (h_UnresolvedReaders h) = 0)) then h
  else
    let '(resolvedWriters, unresolvedWriters) :=
      resolveAssertions assertions (h_UnresolvedWriters h) (h_Writers h) in
    let '(resolvedReaders, unresolvedReaders) :=
      resolveAssertions assertions (h_UnresolvedReaders h) (h_Readers h) in
    let writers := uidSetToSlice resolvedWriters in
    let readers := uidSetToSlice (foldl (λ m u, m ∖ {[ u ]}) resolvedReaders writers) in
    MkBareTlfHandle (sort_UIDs writers) (sort_UIDs readers)
      (sort_assertions unresolvedWriters) (sort_assertions unresolvedReaders) (h_ConflictInfo h).

Definition handle_IsPublic (h : BareTlfHandle) : bool :=
  match h_Readers h with
  | [r] => bool_decide (r = PublicUID)
  | _ => false
  end.

Definition findUserInList (user : UID) (users : list UID) : bool := bool_decide (user ∈ users).

Definition handle_IsWriter (h : BareTlfHandle) (user : UID) : bool := findUserInList user (h_Writers h).

Definition handle_IsReader (h : BareTlfHandle) (user : UID) : bool :=
  handle_IsPublic h || findUserInList user (h_Readers h) || handle_IsWriter h user.

Definition Users (h : BareTlfHandle) : list UID * list SocialAssertion :=
  (h_Writers h ++ h_Readers h, h_UnresolvedWriters h ++ h_UnresolvedReaders h).

(** ** Handles with names *)

Record TlfHandle := MkTlfHandle {
  th_Bare : BareTlfHandle;
  th_resolvedWriters : gmap UID string;
  th_resolvedReaders : gmap UID string;
  th_name : string
}.
#[global] Instance TlfHandle_eq_dec : EqDecision TlfHandle.
Proof. solve_decision. Defined.

(** What [resolve] returns: a name with its user id, or an assertion that
    stays unresolved. *)
Inductive resolution :=
| ResolvedUser (name : string) (uid : UID)
| Unresolved (sa : SocialAssertion).

(** A message on one of the channels. *)
Inductive arrival :=
| ArrivedError (e : error)
| ArrivedWriter (name : string) (uid : UID)
| ArrivedReader (name : string) (uid : UID)
| ArrivedUnresolvedWriter (sa : SocialAssertion)
| ArrivedUnresolvedReader (sa : SocialAssertion).

(** What a resolution sends; one with empty results is an error. *)
Definition resolveOneUser (writer : bool) (r : res resolution) : arrival :=
  match r with
  | Err e => ArrivedError e
  | Panic msg => ArrivedError (Errorf msg)
  | Ok (ResolvedUser name uid) =>
      if decide (name = EmptyString ∧ uid = EmptyString)
      then ArrivedError (Errorf "Resolving resulted in empty userInfo and empty socialAssertion")
      else if writer then ArrivedWriter name uid else ArrivedReader name uid
  | Ok (Unresolved sa) =>
      if decide (sa = MkSocialAssertion EmptyString EmptyString)
      then ArrivedError (Errorf "Resolving resulted in empty userInfo and empty socialAssertion")
      else if writer then ArrivedUnresolvedWriter sa else ArrivedUnresolvedReader sa
  end.

Record usedNames := MkUsedNames {
  un_WNames : gmap UID string;
  un_RNames : gmap UID string;
  un_UnresolvedWriters : gset SocialAssertion;
  un_UnresolvedReaders : gset SocialAssertion
}.

(** The loop that receives the arrivals. *)
Fixpoint receive (arrivals : list arrival) (n : usedNames) : res usedNames :=
  match arrivals with
  | [] => Ok n
  | a :: arrivals =>
      match a with
      | ArrivedError e => Err e
      | ArrivedWriter name uid =>
          receive arrivals (MkUsedNames (<[uid := name]> (un_WNames n)) (un_RNames n)
            (un_UnresolvedWriters n) (un_UnresolvedReaders n))
      | ArrivedReader name uid =>
          receive arrivals (MkUsedNames (un_WNames n) (<[uid := name]> (un_RNames n))
            (un_UnresolvedWriters n) (un_UnresolvedReaders n))
      | ArrivedUnresolvedWriter sa =>
          receive arrivals (MkUsedNames (un_WNames n) (un_RNames n)
            ({[ sa ]} ∪ un_UnresolvedWriters n) (un_UnresolvedReaders n))
      | ArrivedUnresolvedReader sa =>
          receive arrivals (MkUsedNames (un_WNames n) (un_RNames n)
            (un_UnresolvedWriters n) ({[ sa ]} ∪ un_UnresolvedReaders n))
      end
  end.

Definition getSortedHandleLists (uidToName : gmap UID string) (unresolved : gset SocialAssertion)
    : list UID * list SocialAssertion :=
  (sort_UIDs (elements (dom uidToName)), sort_assertions (elements unresolved)).

Definition getSortedNames (uidToName : gmap UID string) (unresolved : list SocialAssertion)
    : list string :=
  merge_sort String.le ((snd <$> map_to_list uidToName) ++ (SocialAssertion_String <$> unresolved)).

(** [strings.Join] is [join] of [DataTypes]. *)
Definition canonical_name (public : bool) (wNames rNames : gmap UID string)
    (unresolvedWriters unresolvedReaders : list SocialAssertion) (conflictInfo : option ConflictInfo)
    : string :=
  let name := join "," (getSortedNames wNames unresolvedWriters) in
  let name := if negb public && bool_decide (0 < size rNames + length unresolvedReaders)
              then name +:+ String ReaderSep (join "," (getSortedNames rNames unresolvedReaders))
              else name in
  match conflictInfo with
  | None => name
  | Some ci => name +:+ String ConflictSuffixSep (ConflictInfo_String ci)
  end.

Definition makeTlfHandleHelper (public : bool) (numReaders : nat) (arrivals : list arrival)
    (conflictInfo : option ConflictInfo) : res TlfHandle :=
  if decide (public = true ∧ 0 < numReaders) then Err (ErrorString "public folder cannot have readers")
  else
    used ← receive arrivals (MkUsedNames ∅ ∅ ∅ ∅);
    let wNames := un_WNames used in
    let rNames := filter (λ p, p.1 ∉ dom wNames) (un_RNames used) in
    let uReaders := un_UnresolvedReaders used ∖ un_UnresolvedWriters used in
    let '(writerUIDs, unresolvedWriters) := getSortedHandleLists wNames (un_UnresolvedWriters used) in
    let '(readerUIDs, unresolvedReaders) :=
      if public then ([PublicUID], []) else getSortedHandleLists rNames uReaders in
    bareHandle ← MakeBareTlfHandle writerUIDs readerUIDs unresolvedWriters unresolvedReaders conflictInfo;
    Ok (MkTlfHandle bareHandle wNames rNames
          (canonical_name public wNames rNames unresolvedWriters unresolvedReaders conflictInfo)).

Definition GetCanonicalName (h : TlfHandle) : res string :=
  if decide (th_name h = EmptyString) then Panic "TlfHandle with no name" else Ok (th_name h).

Definition buildCanonicalPath (public : bool) (canonicalName : string) : string :=
  "/keybase/" +:+ (if public then "public" else "private") +:+ "/" +:+ canonicalName.

Definition GetCanonicalPath (h : TlfHandle) : res string :=
  name ← GetCanonicalName h; Ok (buildCanonicalPath (handle_IsPublic (th_Bare h)) name).

(** ** Names *)

Fixpoint string_map (f : ascii → ascii) (s : string) : string :=
  match s with EmptyString => EmptyString | String c s => String (f c) (string_map f s) end.

(** [strings.ToLower] on ASCII. *)
Definition lower_char (c : ascii) : ascii :=
  let n := nat_of_ascii c in if decide (65 <= n <= 90) then ascii_of_nat (n + 32) else c.
Definition ToLower (s : string) : string := string_map lower_char s.

(** [strings.Split(s, sep)] for a one-character separator: [cur] is the
    part read so far, reversed. *)
Fixpoint split_from (sep : ascii) (s : string) : list string :=
  match s with
  | EmptyString => [EmptyString]
  | String c s =>
      if decide (c = sep) then EmptyString :: split_from sep s
      else match split_from sep s with
           | [] => [String c EmptyString]
           | p :: ps => String c p :: ps
           end
  end.
Definition Split (s : string) (sep : ascii) : list string := split_from sep s.

(** [strings.SplitN(s, sep, n)]: at most [n] parts, the last one the rest. *)
Fixpoint SplitN (n : nat) (sep : ascii) (s : string) : list string :=
  match n with
  | O => []
  | S O => [s]
  | S n =>
      (fix go (s : string) : list string :=
         match s with
         | EmptyString => [EmptyString]
         | String c s =>
             if decide (c = sep) then EmptyString :: SplitN n sep s
             else match go s with
                  | [] => [String c EmptyString]
                  | p :: ps => String c p :: ps
                  end
         end) s
  end.

(** The directory of users, and the parsers of user names of [libkb]. *)
Class KBPKI := {
  CheckUsername : string → bool;
  NormalizeSocialAssertion : string → option SocialAssertion;
  (** [AssertionParseAndOnly]: for each of the urls, whether it is a
      Keybase user name *)
  AssertionParse : string → option (list bool);
  kb_Resolve : string → res (string * UID);
  GetNormalizedUsername : UID → res string;
  GetCurrentUserInfo : res (string * UID);
  kb_Identify : string → res (string * UID)
}.

Section names.
Context `{KBPKI}.

Definition normalizeAssertionOrName (s : string) : res string :=
  if CheckUsername s then Ok (ToLower s)
  else
    match NormalizeSocialAssertion s with
    | Some sa => Ok (SocialAssertion_String sa)
    | None =>
        match AssertionParse s with
        | Some urls =>
            if decide (urls = [true]) then Err (NoSuchUserError s) else Ok (ToLower s)
        | None => Err (BadTLFNameError s)
        end
    end.

Fixpoint map_res {A B} (f : A → res B) (l : list A) : res (list B) :=
  match l with
  | [] => Ok []
  | x :: l => y ← f x; ys ← map_res f l; Ok (y :: ys)
  end.

Definition normalizeNamesInTLF (writerNames readerNames : list string) (conflictSuffix : string)
    : res string :=
  ws ← map_res normalizeAssertionOrName writerNames;
  let name := join "," (merge_sort String.le ws) in
  name ← (if decide (0 < length readerNames) then
            rs ← map_res normalizeAssertionOrName readerNames;
            Ok (name +:+ String ReaderSep (join "," (merge_sort String.le rs)))
          else Ok name);
  Ok (if decide (String.length conflictSuffix ≠ 0)
      then name +:+ String ConflictSuffixSep (ToLower conflictSuffix) else name).

Definition splitAndNormalizeTLFName (name : string) (public : bool)
    : res (list string * list string * string) :=
  let names := SplitN 2 ConflictSuffixSep name in
  let conflictSuffix := default EmptyString (names !! 1) in
  let splitNames := SplitN 3 ReaderSep (default EmptyString (names !! 0)) in
  if decide (2 < length splitNames) then Err (BadTLFNameError name)
  else
    let writerNames := Split (default EmptyString (splitNames !! 0)) "," in
    let readerNames := match splitNames !! 1 with Some r => Split r "," | None => [] end in
    if decide (public = true ∧ length readerNames ≠ 0) then Err (NoSuchNameError name)
    else
      normalizedName ← normalizeNamesInTLF writerNames readerNames conflictSuffix;
      if decide (normalizedName ≠ name) then Err (TlfNameNotCanonical name normalizedName)
      else Ok (writerNames, readerNames, ToLower conflictSuffix).

Definition CheckTlfHandleOffline (name : string) (public : bool) : res unit :=
  _ ← splitAndNormalizeTLFName name public; Ok tt.

(** [resolvableAssertion.resolve]. *)
Definition resolve_assertion (sharingBeforeSignupEnabled : bool) (assertion : string)
    (mustBeUser : UID) : res resolution :=
  if decide (assertion = PublicUIDName) then Err (Errorf "Invalid name")
  else
    let r := match kb_Resolve assertion with
             | Ok (name, uid) =>
                 if decide (mustBeUser ≠ EmptyString ∧ mustBeUser ≠ uid)
                 then Err (NoSuchUserError assertion) else Ok (name, uid)
             | r => r
             end in
    match r with
    | Ok (name, uid) => Ok (ResolvedUser name uid)
    | Err (NoSuchUserError u) =>
        if negb sharingBeforeSignupEnabled then Err (NoSuchUserError u)
        else match NormalizeSocialAssertion assertion with
             | None => Err (NoSuchUserError u)
             | Some sa => Ok (Unresolved sa)
             end
    | Err e => Err e
    | Panic msg => Panic msg
    end.

(** [resolvableUID.resolve] and [resolvableSocialAssertion.resolve]. *)
Definition resolve_uid (uid : UID) : res resolution :=
  name ← GetNormalizedUsername uid; Ok (ResolvedUser name uid).
Definition resolve_social (sa : SocialAssertion) : res resolution := Ok (Unresolved sa).

(** The arrivals of a set of writers and readers, in the order in which
    the resolutions were started. *)
Definition arrivals_of (writers readers : list (res resolution)) : list arrival :=
  (resolveOneUser true <$> writers) ++ (resolveOneUser false <$> readers).

(** [MakeTlfHandle]; [arrivals] are the results of the resolutions in the
    order in which they arrive. *)
Definition bare_writers (bareHandle : BareTlfHandle) : list (res resolution) :=
  (resolve_uid <$> h_Writers bareHandle) ++ (resolve_social <$> h_UnresolvedWriters bareHandle).
Definition bare_readers (bareHandle : BareTlfHandle) : list (res resolution) :=
  if handle_IsPublic bareHandle then []
  else (resolve_uid <$> h_Readers bareHandle) ++ (resolve_social <$> h_UnresolvedReaders bareHandle).

Definition MakeTlfHandle (bareHandle : BareTlfHandle) (arrivals : list arrival) : res TlfHandle :=
  h ← makeTlfHandleHelper (handle_IsPublic bareHandle) (length (bare_readers bareHandle)) arrivals
        (h_ConflictInfo bareHandle);
  if decide (th_Bare h = bareHandle) then Ok h
  else Panic "h.BareTlfHandle unexpectedly not equal to bareHandle".

(** [ResolveAgainForUser]: the resolved users keep their names. *)
Definition again_writers (h : TlfHandle) (uid : UID) : list (res resolution) :=
  ((λ p, Ok (ResolvedUser p.2 p.1)) <$> map_to_list (th_resolvedWriters h)) ++
  ((λ sa, resolve_assertion true (SocialAssertion_String sa) uid) <$> h_UnresolvedWriters (th_Bare h)).
Definition again_readers (h : TlfHandle) (uid : UID) : list (res resolution) :=
  if handle_IsPublic (th_Bare h) then []
  else
    ((λ p, Ok (ResolvedUser p.2 p.1)) <$> map_to_list (th_resolvedReaders h)) ++
    ((λ sa, resolve_assertion true (SocialAssertion_String sa) uid) <$> h_UnresolvedReaders (th_Bare h)).

Definition ResolveAgainForUser (h : TlfHandle) (uid : UID) (arrivals : list arrival) : res TlfHandle :=
  if decide (length (h_UnresolvedWriters (th_Bare h)) + length (h_UnresolvedReaders (th_Bare h)) = 0)
  then Ok h
  else makeTlfHandleHelper (handle_IsPublic (th_Bare h)) (length (again_readers h uid)) arrivals
         (h_ConflictInfo (th_Bare h)).

Definition ResolveAgain (h : TlfHandle) (arrivals : list arrival) : res TlfHandle :=
  ResolveAgainForUser h EmptyString arrivals.

(** [identifyUID]; the reason shown to the user is left out. *)
Definition identifyUID (uid : UID) : res unit :=
  username ← GetNormalizedUsername uid;
  userInfo ← kb_Identify username;
  if decide (fst userInfo ≠ username) then Err (Errorf "Identify returned name, expected other")
  else if decide (snd userInfo ≠ uid) then Err (Errorf "Identify returned uid, expected other")
  else Ok tt.

Fixpoint identifyUserList (uids : list UID) : res unit :=
  match uids with
  | [] => Ok tt
  | uid :: uids => _ ← identifyUID uid; identifyUserList uids
  end.

Definition identifyHandle (h : TlfHandle) : res unit :=
  identifyUserList (h_Writers (th_Bare h) ++
    (if handle_IsPublic (th_Bare h) then [] else h_Readers (th_Bare h))).

(** [ParseTlfHandle]; [order] puts the resolutions in the order in which
    they arrive. *)
Definition ParseTlfHandle (name : string) (public sharingBeforeSignupEnabled : bool)
    (order : list arrival → list arrival) : res TlfHandle :=
  split ← splitAndNormalizeTLFName name public;
  let '(writerNames, readerNames, conflictSuffix) := split in
  if decide (public = true ∧ length readerNames ≠ 0) then Err (NoSuchNameError name)
  else
    normalizedName ← normalizeNamesInTLF writerNames readerNames conflictSuffix;
    if decide (normalizedName ≠ name) then Err (TlfNameNotCanonical name normalizedName)
    else
      let resolve w := resolve_assertion sharingBeforeSignupEnabled w EmptyString in
      conflictInfo ← (if decide (String.length conflictSuffix ≠ 0)
                      then ci ← ParseConflictInfo conflictSuffix; Ok (Some ci) else Ok None);
      h ← makeTlfHandleHelper public (length readerNames)
            (order (arrivals_of (resolve <$> writerNames) (resolve <$> readerNames))) conflictInfo;
      _ ← (if public then Ok tt
           else
             user ← GetCurrentUserInfo;
             if decide (snd user ∈ h_Writers (th_Bare h) ++ h_Readers (th_Bare h)) then Ok tt
             else Err (ReadAccessError (fst user)));
      canonical ← GetCanonicalName h;
      if decide (canonical = name) then Ok h
      else _ ← identifyHandle h; Err (TlfNameNotCanonical name canonical).

End names.
