(* ===== verification/HandlesSpec.v ===== *)
(** * HandlesSpec: what the handles of folders promise

    A handle does not depend on the order in which its users are listed
    or resolved, making a named handle from a bare one keeps the bare
    one, resolving assertions moves exactly the resolved ones, and the
    canonical name of a handle parses back to the handle. *)

From Stdlib Require Import ZArith Ascii Lia.
From stdpp Require Import sorting.
From S2P Require Import Prelude Types Errors GoStd DataTypes ConflictInfo Handles.

(** ** Sorting *)

#[global] Instance UID_le_po : PartialOrder UID_le := String.le_po.
#[global] Instance UID_le_total : Total UID_le := String.le_total.
#[global] Instance assertion_le_trans : Transitive assertion_le.
Proof. intros a b c. unfold assertion_le. apply transitivity. Qed.
#[global] Instance assertion_le_total : Total assertion_le.
Proof. intros a b. unfold assertion_le. apply total, _. Qed.

(** Assertions of a list that print differently when they differ. *)
Definition printed_apart (l : list SocialAssertion) : Prop :=
  ∀ a b, a ∈ l → b ∈ l → SocialAssertion_String a = SocialAssertion_String b → a = b.

Lemma sort_UIDs_perm l k : l ≡ₚ k → sort_UIDs l = sort_UIDs k.
Proof.
  intros H. apply (Sorted_unique UID_le); [apply (Sorted_merge_sort _)..|].
  unfold sort_UIDs. by rewrite !merge_sort_Permutation.
Qed.

Lemma sort_strings_perm l k : l ≡ₚ k → merge_sort String.le l = merge_sort String.le k.
Proof.
  intros H. apply (Sorted_unique String.le); [apply (Sorted_merge_sort _)..|].
  by rewrite !merge_sort_Permutation.
Qed.

Lemma sort_assertions_perm l k :
  printed_apart l → l ≡ₚ k → sort_assertions l = sort_assertions k.
Proof.
  intros Hl H. apply (StronglySorted_unique_strong assertion_le).
  - intros a b Ha Hb Hab Hba. unfold sort_assertions in *.
    rewrite merge_sort_Permutation in Ha. rewrite merge_sort_Permutation in Hb. rewrite <- H in Hb.
    apply Hl; [done..|]. by apply (anti_symm String.le).
  - apply (StronglySorted_merge_sort _).
  - apply (StronglySorted_merge_sort _).
  - unfold sort_assertions. by rewrite !merge_sort_Permutation.
Qed.

Lemma elem_of_sort_UIDs u l : u ∈ sort_UIDs l ↔ u ∈ l.
Proof. unfold sort_UIDs. by rewrite merge_sort_Permutation. Qed.

Lemma elem_of_sort_assertions a l : a ∈ sort_assertions l ↔ a ∈ l.
Proof. unfold sort_assertions. by rewrite merge_sort_Permutation. Qed.

Lemma length_sort_UIDs l : length (sort_UIDs l) = length l.
Proof. unfold sort_UIDs. by rewrite merge_sort_Permutation. Qed.

Lemma length_sort_assertions l : length (sort_assertions l) = length l.
Proof. unfold sort_assertions. by rewrite merge_sort_Permutation. Qed.

(** A list without duplicates, read off a set and sorted. *)
Lemma sort_UIDs_set l : NoDup l → sort_UIDs (elements (list_to_set l : gset UID)) = sort_UIDs l.
Proof. intros. apply sort_UIDs_perm. by apply elements_list_to_set. Qed.

Lemma sort_assertions_set l :
  NoDup l → printed_apart l →
  sort_assertions (elements (list_to_set l : gset SocialAssertion)) = sort_assertions l.
Proof.
  intros. symmetry. apply sort_assertions_perm; [done|]. symmetry. by apply elements_list_to_set.
Qed.

Lemma sort_UIDs_idem l : sort_UIDs (sort_UIDs l) = sort_UIDs l.
Proof. apply sort_UIDs_perm. unfold sort_UIDs. by rewrite merge_sort_Permutation. Qed.

Lemma printed_apart_perm l k : l ≡ₚ k → printed_apart l → printed_apart k.
Proof. intros H Hl a b Ha Hb. rewrite <- H in Ha, Hb. by apply Hl. Qed.

Lemma sort_assertions_idem l : printed_apart l → sort_assertions (sort_assertions l) = sort_assertions l.
Proof.
  intros Hl. symmetry. apply sort_assertions_perm; [done|].
  unfold sort_assertions. by rewrite merge_sort_Permutation.
Qed.

Create Rewrite HintDb sorted_lists.
#[global] Hint Rewrite elem_of_sort_UIDs elem_of_sort_assertions length_sort_UIDs
  length_sort_assertions : sorted_lists.

(** ** The order of arrivals *)

(** The names that arrive for one user are the same. *)
Definition consistent (l : list arrival) : Prop :=
  (∀ e, ArrivedError e ∉ l) ∧
  (∀ u n n', ArrivedWriter n u ∈ l → ArrivedWriter n' u ∈ l → n = n') ∧
  (∀ u n n', ArrivedReader n u ∈ l → ArrivedReader n' u ∈ l → n = n').

Lemma consistent_perm l k : l ≡ₚ k → consistent l → consistent k.
Proof.
  intros H (H1 & H2 & H3). split_and!; intros ?; rewrite <- ?H; [apply H1|..]; intros ??; rewrite <- H;
    eauto.
Qed.

Lemma consistent_cons a l : consistent (a :: l) → consistent l.
Proof. intros (H1 & H2 & H3). split_and!; set_solver. Qed.

Lemma insert_comm_agree (u v : UID) (x y : string) (m : gmap UID string) :
  (u = v → x = y) → <[v := y]> (<[u := x]> m) = <[u := x]> (<[v := y]> m).
Proof.
  intros H. destruct (decide (u = v)) as [->|Hne]; [by rewrite H|].
  by rewrite (insert_insert_ne _ v u).
Qed.

Lemma union_comm3 (X Y Z : gset SocialAssertion) : Y ∪ (X ∪ Z) = X ∪ (Y ∪ Z).
Proof. set_solver. Qed.

Lemma union_swap_assoc (X Y Z : gset SocialAssertion) : Y ∪ (X ∪ Z) = X ∪ Y ∪ Z.
Proof. set_solver. Qed.

Lemma receive_perm l k n : l ≡ₚ k → consistent l → receive l n = receive k n.
Proof.
  intros H. revert n. induction H as [|a l k H IH|a b l|l k m H1 IH1 H2 IH2]; intros n Hc.
  - done.
  - apply consistent_cons in Hc. simpl. destruct a; auto.
  - destruct Hc as (E & W & R).
    destruct a as [e|x u|x u|sa|sa]; [exfalso; apply (E e); set_solver|..];
      (destruct b as [e'|y v|y v|sb|sb]; [exfalso; apply (E e'); set_solver|..]); simpl; try done.
    + rewrite <- (insert_comm_agree u v x y); [done|]. intros ->. eapply (W v); set_solver.
    + rewrite <- (insert_comm_agree u v x y); [done|]. intros ->. eapply (R v); set_solver.
    + by rewrite (union_comm3 {[sb]} {[sa]}).
    + by rewrite (union_comm3 {[sb]} {[sa]}).
  - rewrite IH1 by done. apply IH2. by eapply consistent_perm.
Qed.

(** ** Arrivals in order *)

(** The names of a list of users. *)
Definition names_of (nm : UID → string) (us : list UID) (m : gmap UID string) : gmap UID string :=
  foldl (λ m u, <[u := nm u]> m) m us.

Lemma dom_names_of nm us m : dom (names_of nm us m) = list_to_set us ∪ dom m.
Proof.
  revert m. induction us as [|u us IH]; intros m; [set_solver|].
  unfold names_of in *. simpl. rewrite IH, dom_insert_L. set_solver.
Qed.

Section resolved.
Context `{KBPKI}.
Context (nm : UID → string).

Definition named (us : list UID) : Prop :=
  ∀ u, u ∈ us → GetNormalizedUsername u = Ok (nm u) ∧ nm u ≠ EmptyString.

Lemma named_cons u us : named (u :: us) → (GetNormalizedUsername u = Ok (nm u) ∧ nm u ≠ EmptyString) ∧ named us.
Proof. intros Hn. split; [apply Hn; set_solver|]. intros v Hv. apply Hn. set_solver. Qed.

Lemma resolveOneUser_uid (w : bool) u :
  GetNormalizedUsername u = Ok (nm u) ∧ nm u ≠ EmptyString →
  resolveOneUser w (resolve_uid u) = if w then ArrivedWriter (nm u) u else ArrivedReader (nm u) u.
Proof.
  intros [E Hne]. unfold resolve_uid. rewrite E. simpl. rewrite decide_False by naive_solver. by destruct w.
Qed.

Lemma resolveOneUser_social (w : bool) sa :
  sa ≠ MkSocialAssertion EmptyString EmptyString →
  resolveOneUser w (resolve_social sa) =
    if w then ArrivedUnresolvedWriter sa else ArrivedUnresolvedReader sa.
Proof. intros Hne. simpl. rewrite decide_False by done. by destruct w. Qed.

Lemma receive_writers us rest n :
  named us →
  receive ((resolveOneUser true <$> (resolve_uid <$> us)) ++ rest) n =
  receive rest (MkUsedNames (names_of nm us (un_WNames n)) (un_RNames n)
    (un_UnresolvedWriters n) (un_UnresolvedReaders n)).
Proof.
  revert n. induction us as [|u us IH]; intros n Hn; [by destruct n|].
  apply named_cons in Hn as [Hu Hn]. rewrite !fmap_cons, resolveOneUser_uid by done. simpl.
  by rewrite IH.
Qed.

Lemma receive_readers us rest n :
  named us →
  receive ((resolveOneUser false <$> (resolve_uid <$> us)) ++ rest) n =
  receive rest (MkUsedNames (un_WNames n) (names_of nm us (un_RNames n))
    (un_UnresolvedWriters n) (un_UnresolvedReaders n)).
Proof.
  revert n. induction us as [|u us IH]; intros n Hn; [by destruct n|].
  apply named_cons in Hn as [Hu Hn]. rewrite !fmap_cons, resolveOneUser_uid by done. simpl.
  by rewrite IH.
Qed.

Lemma receive_unresolved w sas rest n :
  MkSocialAssertion EmptyString EmptyString ∉ sas →
  receive ((resolveOneUser w <$> (resolve_social <$> sas)) ++ rest) n =
  receive rest (MkUsedNames (un_WNames n) (un_RNames n)
    (if w then list_to_set sas ∪ un_UnresolvedWriters n else un_UnresolvedWriters n)
    (if w then un_UnresolvedReaders n else list_to_set sas ∪ un_UnresolvedReaders n)).
Proof.
  revert n. induction sas as [|sa sas IH]; intros n Hn.
  { destruct n, w; simpl; by rewrite (left_id_L ∅ (∪)). }
  rewrite !fmap_cons, resolveOneUser_social by set_solver.
  destruct w; simpl; rewrite IH by set_solver; simpl; by rewrite union_swap_assoc.
Qed.

End resolved.

#[global] Hint Rewrite @fmap_app : sorted_lists.

(** ** Making a named handle *)

Lemma MakeBareTlfHandle_Ok ws rs uw ur ci b :
  MakeBareTlfHandle ws rs uw ur ci = Ok b →
  ws ≠ [] ∧ (PublicUID ∉ ws) ∧ (PublicUID ∈ rs → rs = [PublicUID] ∧ ur = []) ∧
  b = MkBareTlfHandle (sort_UIDs ws) (sort_UIDs rs) (sort_assertions uw) (sort_assertions ur) ci.
Proof.
  unfold MakeBareTlfHandle. intros Hb. repeat case_decide; simplify_eq.
  split_and!; [by destruct ws|done| |done].
  intros Hp. destruct rs as [|r [|]], ur; simpl in *; try (exfalso; naive_solver lia); set_solver.
Qed.

Lemma handle_IsPublic_made ws rs uw ur ci b :
  MakeBareTlfHandle ws rs uw ur ci = Ok b →
  handle_IsPublic b = bool_decide (PublicUID ∈ rs).
Proof.
  intros (_ & _ & Hp & ->)%MakeBareTlfHandle_Ok. unfold handle_IsPublic. simpl.
  destruct (decide (PublicUID ∈ rs)) as [Hin|Hin].
  - destruct (Hp Hin) as [-> _]. done.
  - rewrite (bool_decide_eq_false_2 _ Hin).
    assert (PublicUID ∉ sort_UIDs rs) as Hs by by rewrite elem_of_sort_UIDs.
    destruct (sort_UIDs rs) as [|r [|]]; [done| |done].
    apply bool_decide_eq_false. set_solver.
Qed.

Lemma names_filter_disjoint nm (ws rs : list UID) :
  (∀ u, u ∈ ws → u ∈ rs → False) →
  filter (λ p : UID * string, p.1 ∉ dom (names_of nm ws ∅)) (names_of nm rs ∅) = names_of nm rs ∅.
Proof.
  intros Hd. apply map_filter_id. intros u x Hu. simpl. rewrite dom_names_of.
  assert (u ∈ dom (names_of nm rs ∅)) as Hr by by apply elem_of_dom_2 in Hu.
  rewrite dom_names_of in Hr. set_solver.
Qed.

Lemma sort_names nm us : NoDup us → sort_UIDs (elements (dom (names_of nm us ∅))) = sort_UIDs us.
Proof.
  intros Hnd. rewrite dom_names_of, dom_empty_L, (right_id_L ∅ (∪)). by apply sort_UIDs_set.
Qed.

Section make.
Context `{KBPKI}.
Context (nm : UID → string).

(** The users of a handle: listed once, with names, and assertions that
    are not empty and print apart. *)
Record users_ok (ws rs : list UID) (uw ur : list SocialAssertion) : Prop := {
  uo_nodup : NoDup (ws ++ rs);
  uo_unresolved_nodup : NoDup (uw ++ ur);
  uo_named : named nm ws;
  uo_readers_named : PublicUID ∈ rs ∨ named nm rs;
  uo_nonempty : MkSocialAssertion EmptyString EmptyString ∉ uw ++ ur;
  uo_apart : printed_apart uw;
  uo_readers_apart : printed_apart ur
}.

Lemma named_sorted us : named nm us → named nm (sort_UIDs us).
Proof. intros Hn u. rewrite elem_of_sort_UIDs. apply Hn. Qed.

(** What has arrived when all the users of a bare handle have. *)
Lemma receive_bare ws rs uw ur ci b :
  MakeBareTlfHandle ws rs uw ur ci = Ok b → users_ok ws rs uw ur →
  receive (arrivals_of (bare_writers b) (bare_readers b)) (MkUsedNames ∅ ∅ ∅ ∅) =
  Ok (MkUsedNames (names_of nm (sort_UIDs ws) ∅)
        (if handle_IsPublic b then ∅ else names_of nm (sort_UIDs rs) ∅)
        (list_to_set uw) (if handle_IsPublic b then ∅ else list_to_set ur)).
Proof.
  intros Hb Ho. pose proof (handle_IsPublic_made _ _ _ _ _ _ Hb) as Hpub.
  apply MakeBareTlfHandle_Ok in Hb as (_ & _ & Hp & ->).
  pose proof (uo_nonempty _ _ _ _ Ho) as Hne. rewrite not_elem_of_app in Hne.
  unfold arrivals_of, bare_writers, bare_readers. rewrite Hpub. simpl h_Writers. simpl h_Readers.
  simpl h_UnresolvedWriters. simpl h_UnresolvedReaders.
  rewrite fmap_app, <- app_assoc.
  rewrite (receive_writers nm) by apply named_sorted, Ho.
  rewrite receive_unresolved by (rewrite elem_of_sort_assertions; tauto). cbn [un_WNames un_RNames
    un_UnresolvedWriters un_UnresolvedReaders].
  assert (list_to_set (sort_assertions uw) ∪ ∅ = (list_to_set uw : gset SocialAssertion)) as ->.
  { apply set_eq. intros a. rewrite elem_of_union, !elem_of_list_to_set, elem_of_sort_assertions. set_solver. }
  case_bool_decide as Hin; [done|].
  destruct (uo_readers_named _ _ _ _ Ho) as [?|Hr]; [done|].
  rewrite fmap_app, (receive_readers nm) by by apply named_sorted.
  rewrite <- (app_nil_r (resolveOneUser false <$> (resolve_social <$> _))).
  rewrite receive_unresolved by (rewrite elem_of_sort_assertions; tauto). simpl. do 2 f_equal.
  apply set_eq. intros a. rewrite elem_of_union, !elem_of_list_to_set, elem_of_sort_assertions. set_solver.
Qed.

(** An arrival that carries the name of its user. *)
Definition well_named (a : arrival) : Prop :=
  match a with
  | ArrivedError _ => False
  | ArrivedWriter n u | ArrivedReader n u => n = nm u
  | _ => True
  end.

Lemma well_named_consistent l : Forall well_named l → consistent l.
Proof.
  rewrite Forall_forall. intros Hl. split_and!.
  - intros e He. exact (Hl _ He).
  - intros u n n' H1%Hl H2%Hl. simpl in *. congruence.
  - intros u n n' H1%Hl H2%Hl. simpl in *. congruence.
Qed.

Lemma well_named_uids w us : named nm us → Forall well_named (resolveOneUser w <$> (resolve_uid <$> us)).
Proof.
  rewrite !Forall_fmap, Forall_forall. intros Hn u Hu. simpl.
  rewrite (resolveOneUser_uid nm) by by apply Hn. by destruct w.
Qed.

Lemma well_named_social w sas :
  MkSocialAssertion EmptyString EmptyString ∉ sas →
  Forall well_named (resolveOneUser w <$> (resolve_social <$> sas)).
Proof.
  rewrite !Forall_fmap, Forall_forall. intros Hn a Ha. cbn [compose].
  rewrite resolveOneUser_social by set_solver. by destruct w.
Qed.

Lemma consistent_bare ws rs uw ur ci b :
  MakeBareTlfHandle ws rs uw ur ci = Ok b → users_ok ws rs uw ur →
  consistent (arrivals_of (bare_writers b) (bare_readers b)).
Proof.
  intros Hb Ho. pose proof (handle_IsPublic_made _ _ _ _ _ _ Hb) as Hpub.
  apply MakeBareTlfHandle_Ok in Hb as (_ & _ & _ & ->).
  pose proof (uo_nonempty _ _ _ _ Ho) as Hne. rewrite not_elem_of_app in Hne.
  apply well_named_consistent. unfold arrivals_of, bare_writers, bare_readers. rewrite Hpub. simpl.
  rewrite !fmap_app. apply Forall_app. split; [apply Forall_app; split|].
  - apply well_named_uids, named_sorted, Ho.
  - apply well_named_social. rewrite elem_of_sort_assertions. tauto.
  - case_bool_decide as Hin; [constructor|]. rewrite fmap_app. apply Forall_app. split.
    + destruct (uo_readers_named _ _ _ _ Ho); [done|]. by apply well_named_uids, named_sorted.
    + apply well_named_social. rewrite elem_of_sort_assertions. tauto.
Qed.

Lemma MakeBareTlfHandle_sorted ws rs uw ur ci b :
  MakeBareTlfHandle ws rs uw ur ci = Ok b → printed_apart uw → printed_apart ur →
  MakeBareTlfHandle (sort_UIDs ws) (sort_UIDs rs) (sort_assertions uw) (sort_assertions ur) ci = Ok b.
Proof.
  intros Hb Hw Hr. unfold MakeBareTlfHandle in *.
  rewrite !length_sort_UIDs, !length_sort_assertions, !sort_UIDs_idem, !sort_assertions_idem by done.
  rewrite (decide_ext (PublicUID ∈ sort_UIDs ws) (PublicUID ∈ ws)) by apply elem_of_sort_UIDs.
  rewrite (decide_ext (1 < _ ∧ PublicUID ∈ sort_UIDs rs) (1 < length rs + length ur ∧ PublicUID ∈ rs))
    by by rewrite elem_of_sort_UIDs.
  done.
Qed.

Lemma bare_readers_public b : handle_IsPublic b = true → bare_readers b = [].
Proof. intros Hp. unfold bare_readers. by rewrite Hp. Qed.

(** The handle made from these arrivals. *)
Definition made_handle (ws rs : list UID) (uw ur : list SocialAssertion) (ci : option ConflictInfo)
    (b : BareTlfHandle) : TlfHandle :=
  let public := handle_IsPublic b in
  let wNames := names_of nm (sort_UIDs ws) ∅ in
  let rNames := if public then ∅ else names_of nm (sort_UIDs rs) ∅ in
  MkTlfHandle b wNames rNames
    (canonical_name public wNames rNames (sort_assertions uw) (if public then [] else sort_assertions ur) ci).

Lemma makeTlfHandleHelper_bare ws rs uw ur ci b n arrivals :
  MakeBareTlfHandle ws rs uw ur ci = Ok b → users_ok ws rs uw ur → (handle_IsPublic b = true → n = 0) →
  arrivals ≡ₚ arrivals_of (bare_writers b) (bare_readers b) →
  makeTlfHandleHelper (handle_IsPublic b) n arrivals ci =
    Ok (made_handle ws rs uw ur ci b).
Proof.
  intros Hb Ho Hn Ha. unfold makeTlfHandleHelper.
  rewrite (receive_perm _ _ _ Ha) by (eapply consistent_perm; [by symmetry|by eapply consistent_bare]).
  rewrite (receive_bare _ _ _ _ _ _ Hb Ho).
  rewrite decide_False by (intros [Hp Hl]; rewrite (Hn Hp) in Hl; lia).
  pose proof (uo_nodup _ _ _ _ Ho) as (Hw & Hd & Hrs)%NoDup_app.
  pose proof (uo_unresolved_nodup _ _ _ _ Ho) as (Huw & Hud & Hur)%NoDup_app.
  assert (∀ l, NoDup l → NoDup (sort_UIDs l)) as Hs
    by (intros l ?; unfold sort_UIDs; by rewrite merge_sort_Permutation).
  pose proof (handle_IsPublic_made _ _ _ _ _ _ Hb) as Hpub.
  pose proof (MakeBareTlfHandle_Ok _ _ _ _ _ _ Hb) as (Hne & Hpw & Hp & Eb).
  cbn [mbind res_bind un_WNames un_RNames un_UnresolvedWriters un_UnresolvedReaders getSortedHandleLists].
  unfold made_handle. rewrite Hpub. unfold getSortedHandleLists.
  rewrite (sort_names _ _ (Hs _ Hw)), sort_UIDs_idem, (sort_assertions_set _ Huw (uo_apart _ _ _ _ Ho)).
  case_bool_decide as Hin.
  - destruct (Hp Hin) as [-> ->]. rewrite map_filter_empty.
    pose proof (MakeBareTlfHandle_sorted _ _ _ _ _ _ Hb (uo_apart _ _ _ _ Ho) (uo_readers_apart _ _ _ _ Ho)) as E.
    change (sort_UIDs [PublicUID]) with [PublicUID] in E. change (sort_assertions []) with (@nil SocialAssertion) in E.
    by rewrite E.
  - assert (∀ u, u ∈ sort_UIDs ws → u ∈ sort_UIDs rs → False) as Hdis.
    { intros u. rewrite !elem_of_sort_UIDs. apply Hd. }
    rewrite (names_filter_disjoint _ _ _ Hdis), (sort_names _ _ (Hs _ Hrs)), sort_UIDs_idem.
    assert (list_to_set ur ∖ list_to_set uw = (list_to_set ur : gset SocialAssertion)) as -> by set_solver.
    rewrite (sort_assertions_set _ Hur (uo_readers_apart _ _ _ _ Ho)).
    by rewrite (MakeBareTlfHandle_sorted _ _ _ _ _ _ Hb (uo_apart _ _ _ _ Ho) (uo_readers_apart _ _ _ _ Ho)).
Qed.

(** Making a named handle from a bare one: if the users are listed
    once and all resolve to names, then, in whatever order the
    resolutions arrive, the same handle is made, and it is about the same
    users; in particular the check that panics never fires. *)
Theorem MakeTlfHandle_keeps_bare ws rs uw ur ci b :
  MakeBareTlfHandle ws rs uw ur ci = Ok b → users_ok ws rs uw ur →
  ∃ h, th_Bare h = b ∧ dom (th_resolvedWriters h) = list_to_set ws ∧
    ∀ arrivals, arrivals ≡ₚ arrivals_of (bare_writers b) (bare_readers b) →
      MakeTlfHandle b arrivals = Ok h.
Proof.
  intros Hb Ho. exists (made_handle ws rs uw ur ci b). split; [done|]. split.
  - simpl. rewrite dom_names_of, dom_empty_L. apply set_eq. intros u.
    rewrite elem_of_union, !elem_of_list_to_set, elem_of_sort_UIDs. set_solver.
  - intros arrivals Ha. unfold MakeTlfHandle.
    assert (h_ConflictInfo b = ci) as -> by (apply MakeBareTlfHandle_Ok in Hb as (_ & _ & _ & ->); done).
    rewrite (makeTlfHandleHelper_bare _ _ _ _ _ _ _ _ Hb Ho) by (done || intros Hp; by rewrite (bare_readers_public b Hp)).
    simpl. by rewrite decide_True.
Qed.

End make.

(** ** Resolving assertions *)

Lemma resolve_fold assertions R U :
  NoDup (assertions.*1) →
  (∀ u, u ∈ (foldl resolve_one (R, U) assertions).1 ↔
        u ∈ R ∨ ∃ a, (a, u) ∈ assertions ∧ a ∈ U) ∧
  (∀ a, a ∈ (foldl resolve_one (R, U) assertions).2 ↔ a ∈ U ∧ a ∉ assertions.*1).
Proof.
  revert R U. induction assertions as [|[a u] l IH]; intros R U Hnd; [set_solver|].
  rewrite fmap_cons in Hnd. apply NoDup_cons in Hnd as [Ha Hnd]. simpl in Ha.
  assert (∀ v b, (b, v) ∈ l → b ≠ a) as Hne.
  { intros v b Hb ->. apply Ha, list_elem_of_fmap. by exists (a, v). }
  simpl. unfold resolve_one at 2 4. simpl. case_decide as Hin.
  - destruct (IH ({[u]} ∪ R) (U ∖ {[a]}) Hnd) as [H1 H2]. split.
    + intros v. rewrite H1. setoid_rewrite elem_of_cons. set_solver.
    + intros b. rewrite H2. set_solver.
  - destruct (IH R U Hnd) as [H1 H2]. split.
    + intros v. rewrite H1. setoid_rewrite elem_of_cons. set_solver.
    + intros b. rewrite H2. set_solver.
Qed.

Lemma foldl_difference (m : gset UID) us : ∀ u, u ∈ foldl (λ m u, m ∖ {[ u ]}) m us ↔ u ∈ m ∧ u ∉ us.
Proof. revert m. induction us as [|v us IH]; intros m u; simpl; [set_solver|]. rewrite IH. set_solver. Qed.

(** Resolving assertions: the users that unresolved writers and
    readers resolve to become writers and readers, a reader that is now a
    writer stops being a reader, exactly the resolved assertions leave
    the lists, and nothing else changes, in whatever order the map of
    assertions is iterated over. *)
Theorem ResolveAssertions_spec h assertions :
  NoDup (assertions.*1) → (∀ u, u ∈ h_Writers h → u ∉ h_Readers h) →
  let h' := ResolveAssertions h assertions in
  (∀ u, u ∈ h_Writers h' ↔
     u ∈ h_Writers h ∨ ∃ a, (a, u) ∈ assertions ∧ a ∈ h_UnresolvedWriters h) ∧
  (∀ u, u ∈ h_Readers h' ↔
     (u ∈ h_Readers h ∨ ∃ a, (a, u) ∈ assertions ∧ a ∈ h_UnresolvedReaders h) ∧ u ∉ h_Writers h') ∧
  (∀ a, a ∈ h_UnresolvedWriters h' ↔ a ∈ h_UnresolvedWriters h ∧ a ∉ assertions.*1) ∧
  (∀ a, a ∈ h_UnresolvedReaders h' ↔ a ∈ h_UnresolvedReaders h ∧ a ∉ assertions.*1) ∧
  h_ConflictInfo h' = h_ConflictInfo h.
Proof.
  intros Hnd Hd. cbv zeta. unfold ResolveAssertions. case_decide as Hearly.
  { destruct Hearly as [Hn%nil_length_inv|[Hw%nil_length_inv Hr%nil_length_inv]].
    - subst assertions. set_solver.
    - rewrite Hw, Hr. set_solver. }
  unfold resolveAssertions.
  pose proof (resolve_fold assertions (uidSliceToSet (h_Writers h))
    (assertionSliceToSet (h_UnresolvedWriters h)) Hnd) as [W1 W2].
  pose proof (resolve_fold assertions (uidSliceToSet (h_Readers h))
    (assertionSliceToSet (h_UnresolvedReaders h)) Hnd) as [R1 R2].
  destruct (foldl resolve_one (uidSliceToSet (h_Writers h), _) assertions) as [rw uw].
  destruct (foldl resolve_one (uidSliceToSet (h_Readers h), _) assertions) as [rr ur].
  simpl in *. unfold uidSliceToSet, assertionSliceToSet, uidSetToSlice, assertionSetToSlice in *.
  split_and!; [..|done]; intros x; rewrite ?elem_of_sort_UIDs, ?elem_of_sort_assertions, ?elem_of_elements.
  - rewrite W1. setoid_rewrite elem_of_list_to_set. done.
  - rewrite foldl_difference, R1, elem_of_elements. setoid_rewrite elem_of_list_to_set. done.
  - rewrite W2. by rewrite elem_of_list_to_set.
  - rewrite R2. by rewrite elem_of_list_to_set.
Qed.

(** ** Splitting and joining names *)

Fixpoint free_of (c : ascii) (s : string) : bool :=
  match s with
  | EmptyString => true
  | String d s => negb (bool_decide (d = c)) && free_of c s
  end.

Lemma free_of_cons c d s : free_of c (String d s) = true ↔ d ≠ c ∧ free_of c s = true.
Proof. simpl. rewrite andb_true_iff, negb_true_iff, bool_decide_eq_false. done. Qed.

Lemma free_of_app c s t : free_of c (s +:+ t) = free_of c s && free_of c t.
Proof. induction s as [|d s IH]; [done|]. simpl. rewrite IH. by rewrite andb_assoc. Qed.

Lemma SplitN_free n sep s : free_of sep s = true → SplitN (S (S n)) sep s = [s].
Proof.
  induction s as [|c s IH]; [done|]. intros [Hc Hs]%free_of_cons. specialize (IH Hs).
  cbn [SplitN] in *. rewrite decide_False by done. by rewrite IH.
Qed.

Lemma SplitN_sep n sep s t :
  free_of sep s = true → SplitN (S (S n)) sep (s +:+ String sep t) = s :: SplitN (S n) sep t.
Proof.
  induction s as [|c s IH]; intros Hf.
  - change (EmptyString +:+ String sep t) with (String sep t). cbn [SplitN]. by rewrite decide_True.
  - apply free_of_cons in Hf as [Hc Hs]. specialize (IH Hs).
    change (String c s +:+ String sep t) with (String c (s +:+ String sep t)). cbn [SplitN] in *.
    rewrite decide_False by done. by rewrite IH.
Qed.

Lemma split_from_free sep s : free_of sep s = true → split_from sep s = [s].
Proof.
  induction s as [|c s IH]; [done|]. intros [Hc Hs]%free_of_cons. cbn [split_from].
  rewrite decide_False by done. by rewrite IH.
Qed.

Lemma split_from_sep sep s t :
  free_of sep s = true → split_from sep (s +:+ String sep t) = s :: split_from sep t.
Proof.
  induction s as [|c s IH]; intros Hf.
  - change (EmptyString +:+ String sep t) with (String sep t). cbn [split_from]. by rewrite decide_True.
  - change (String c s +:+ String sep t) with (String c (s +:+ String sep t)). cbn [split_from].
    apply free_of_cons in Hf as [Hc Hs]. rewrite decide_False by done. by rewrite IH.
Qed.

(** Splitting undoes joining. *)
Lemma Split_join (sep : ascii) l :
  l ≠ [] → Forall (λ s, free_of sep s = true) l → Split (join (String sep EmptyString) l) sep = l.
Proof.
  unfold Split. induction l as [|s l IH]; [done|]. intros _ [Hs Hl]%Forall_cons.
  destruct l as [|s' l]; [by apply split_from_free|].
  change (join (String sep EmptyString) (s :: s' :: l)) with
    (s +:+ String sep (join (String sep EmptyString) (s' :: l))).
  rewrite split_from_sep by done. by rewrite IH.
Qed.

Lemma free_of_join c sep l :
  c ≠ sep → Forall (λ s, free_of c s = true) l → free_of c (join (String sep EmptyString) l) = true.
Proof.
  intros Hc. induction l as [|s l IH]; [done|]. intros [Hs Hl]%Forall_cons.
  destruct l as [|s' l]; [done|].
  change (join (String sep EmptyString) (s :: s' :: l)) with
    (s +:+ String sep (join (String sep EmptyString) (s' :: l))).
  rewrite free_of_app, Hs. apply free_of_cons. auto.
Qed.

Lemma sort_sorted l : merge_sort String.le (merge_sort String.le l) = merge_sort String.le l.
Proof. apply sort_strings_perm. by rewrite merge_sort_Permutation. Qed.

(** The names of a map of users. *)
Lemma names_of_perm nm us :
  NoDup us → snd <$> map_to_list (names_of nm us ∅) ≡ₚ nm <$> us.
Proof.
  intros Hnd. unfold names_of. rewrite <- (app_nil_r (nm <$> us)).
  assert (∀ m : gmap UID string, (∀ u, u ∈ us → m !! u = None) →
    snd <$> map_to_list (foldl (λ m u, <[u := nm u]> m) m us) ≡ₚ
    (nm <$> us) ++ (snd <$> map_to_list m)) as Hm.
  { induction Hnd as [|u us Hu Hnd IH]; intros m Hm; [done|]. simpl.
    rewrite IH.
    - rewrite map_to_list_insert by (apply Hm; set_solver). simpl. by rewrite Permutation_middle.
    - intros v Hv. rewrite lookup_insert_ne by set_solver. apply Hm. set_solver. }
  rewrite Hm by done. by rewrite map_to_list_empty.
Qed.

Lemma size_names_of nm us : NoDup us → size (names_of nm us ∅) = length us.
Proof.
  intros Hnd. rewrite <- size_dom, dom_names_of, dom_empty_L, (right_id_L ∅ (∪)).
  by apply size_list_to_set.
Qed.

(** ** Parsing a canonical name *)

Section parse.
Context `{KBPKI}.
Context (nm : UID → string).

(** A user name in normal form, that resolves to its user. *)
Record name_ok (u : UID) : Prop := {
  no_check : CheckUsername (nm u) = true;
  no_lower : ToLower (nm u) = nm u;
  no_comma : free_of "," (nm u) = true;
  no_reader_sep : free_of ReaderSep (nm u) = true;
  no_conflict_sep : free_of ConflictSuffixSep (nm u) = true;
  no_resolve : kb_Resolve (nm u) = Ok (nm u, u);
  no_public : nm u ≠ PublicUIDName
}.

(** The name of a folder, from its parts. *)
Definition name_of (wn rn : list string) (cs : string) : string :=
  let name := join "," wn in
  let name := if decide (0 < length rn) then name +:+ String ReaderSep (join "," rn) else name in
  if decide (String.length cs ≠ 0) then name +:+ String ConflictSuffixSep cs else name.

Definition part_ok (s : string) : Prop :=
  free_of "," s = true ∧ free_of ReaderSep s = true ∧ free_of ConflictSuffixSep s = true.

Lemma split_conflict wn rn cs :
  Forall part_ok wn → Forall part_ok rn →
  SplitN 2 ConflictSuffixSep (name_of wn rn cs) =
    name_of wn rn EmptyString :: (if decide (String.length cs ≠ 0) then [cs] else []).
Proof.
  intros Hw Hr. unfold name_of.
  set (base := if decide (0 < length rn) then _ else _).
  assert (free_of ConflictSuffixSep base = true) as Hb.
  { assert (∀ l, Forall part_ok l → free_of ConflictSuffixSep (join "," l) = true) as Hj.
    { intros l Hl. apply (free_of_join _ ","); [done|]. eapply Forall_impl; [exact Hl|]. by intros s (_ & _ & ?). }
    subst base. case_decide; [|by apply Hj].
    rewrite free_of_app, (Hj wn) by done. apply free_of_cons. auto. }
  clearbody base. rewrite (decide_False (P := String.length EmptyString ≠ 0)) by (simpl; lia).
  case_decide; [by rewrite SplitN_sep|by rewrite SplitN_free].
Qed.

Lemma split_readers wn rn :
  Forall part_ok wn → Forall part_ok rn →
  SplitN 3 ReaderSep (name_of wn rn EmptyString) =
    join "," wn :: (if decide (0 < length rn) then [join "," rn] else []).
Proof.
  intros Hw Hr. unfold name_of. rewrite (decide_False (P := String.length EmptyString ≠ 0)) by (simpl; lia).
  assert (∀ l, Forall part_ok l → free_of ReaderSep (join "," l) = true) as Hj.
  { intros l Hl. apply (free_of_join _ ","); [done|]. eapply Forall_impl; [exact Hl|]. by intros s (_ & ? & _). }
  case_decide; [|by rewrite SplitN_free by auto].
  rewrite SplitN_sep by auto. by rewrite SplitN_free by auto.
Qed.

Lemma Split_parts l : l ≠ [] → Forall part_ok l → Split (join "," l) "," = l.
Proof.
  intros Hl Hp. apply Split_join; [done|]. eapply Forall_impl; [exact Hp|]. by intros s (? & _).
Qed.

Lemma map_res_id {A} (f : A → res A) l : Forall (λ x, f x = Ok x) l → map_res f l = Ok l.
Proof. induction 1 as [|x l Hx Hl IH]; [done|]. simpl. by rewrite Hx, IH. Qed.

(** Parts that are already normal. *)
Definition normal (l : list string) : Prop :=
  Forall part_ok l ∧ Forall (λ s, normalizeAssertionOrName s = Ok s) l ∧ merge_sort String.le l = l.

Lemma normalizeNamesInTLF_normal wn rn cs :
  normal wn → normal rn → ToLower cs = cs → normalizeNamesInTLF wn rn cs = Ok (name_of wn rn cs).
Proof.
  intros (_ & Hw & Sw) (_ & Hr & Sr) Hc. unfold normalizeNamesInTLF, name_of.
  rewrite (map_res_id _ _ Hw). cbn [mbind res_bind]. rewrite Sw, Hc.
  rewrite (map_res_id _ _ Hr). destruct (decide (0 < length rn)); cbn [mbind res_bind]; by rewrite ?Sr.
Qed.

Lemma splitAndNormalize_normal wn rn cs public :
  wn ≠ [] → normal wn → normal rn → ToLower cs = cs → (public = true → rn = []) →
  splitAndNormalizeTLFName (name_of wn rn cs) public = Ok (wn, rn, cs).
Proof.
  intros Hne Hw Hr Hc Hp. pose proof Hw as (Pw & _). pose proof Hr as (Pr & _).
  unfold splitAndNormalizeTLFName. rewrite (split_conflict wn rn cs) by done. cbv zeta.
  set (names := name_of wn rn EmptyString :: _).
  assert (default EmptyString (names !! 0) = name_of wn rn EmptyString) as -> by done.
  assert (default EmptyString (names !! 1) = cs) as ->.
  { subst names. case_decide; [done|]. destruct cs; [done|]. simpl in *. lia. }
  rewrite (split_readers wn rn) by done. set (sn := join "," wn :: _).
  assert (match sn !! 1 with Some r => Split r "," | None => [] end = rn) as ->.
  { subst sn. case_decide; simpl; [|by destruct rn; simpl in *; [|lia]].
    apply Split_parts; [by destruct rn; simpl in *; [lia|]|done]. }
  rewrite decide_False by (subst sn; case_decide; simpl; lia).
  assert (default EmptyString (sn !! 0) = join "," wn) as -> by done.
  rewrite (Split_parts wn Hne Pw). rewrite decide_False by (intros [->%Hp ?]; simpl in *; lia).
  rewrite normalizeNamesInTLF_normal by done. cbn [mbind res_bind].
  rewrite decide_False by (intros Hn; by apply Hn). by rewrite Hc.
Qed.

Lemma normalize_name u : name_ok u → normalizeAssertionOrName (nm u) = Ok (nm u).
Proof. intros Hu. unfold normalizeAssertionOrName. by rewrite (no_check u Hu), (no_lower u Hu). Qed.

Lemma normal_names us : (∀ u, u ∈ us → name_ok u) → normal (merge_sort String.le (nm <$> us)).
Proof.
  intros Hu. assert (∀ (P : string → Prop), (∀ u, u ∈ us → P (nm u)) →
    Forall P (merge_sort String.le (nm <$> us))) as Hall.
  { intros P HP. rewrite merge_sort_Permutation. by apply Forall_fmap, Forall_forall. }
  split_and!.
  - apply Hall. intros u ?%Hu. split_and!; by apply no_comma || by apply no_reader_sep || by apply no_conflict_sep.
  - apply Hall. intros u ?%Hu. by apply normalize_name.
  - apply sort_sorted.
Qed.

(** Resolving the names of users is resolving the users. *)
Lemma resolve_names share w us :
  named nm us → (∀ u, u ∈ us → name_ok u) →
  resolveOneUser w <$> ((λ n, resolve_assertion share n EmptyString) <$> (nm <$> us)) =
  resolveOneUser w <$> (resolve_uid <$> us).
Proof.
  intros Hn Hu. rewrite <- !list_fmap_compose. apply list_fmap_ext. intros i u Hi%list_elem_of_lookup_2.
  cbn [compose]. rewrite (resolveOneUser_uid nm) by by apply Hn. unfold resolve_assertion.
  specialize (Hn u Hi). specialize (Hu u Hi). rewrite decide_False by apply Hu.
  rewrite (no_resolve u Hu). rewrite decide_False by naive_solver. simpl.
  rewrite decide_False by naive_solver. by destruct w.
Qed.

(** The conflict suffix of a handle. *)
Definition suffix_of (ci : option ConflictInfo) : string :=
  match ci with Some ci => ConflictInfo_String ci | None => EmptyString end.

Definition suffix_ok (ci : option ConflictInfo) : Prop :=
  ToLower (suffix_of ci) = suffix_of ci ∧
  (∀ c, ci = Some c → ParseConflictInfo (ConflictInfo_String c) = Ok c).

Lemma suffix_nonempty c : String.length (ConflictInfo_String c) ≠ 0.
Proof. done. Qed.

Lemma canonical_name_of public ws rs ci :
  NoDup ws → NoDup rs →
  canonical_name public (names_of nm (sort_UIDs ws) ∅)
    (if public then ∅ else names_of nm (sort_UIDs rs) ∅) [] [] ci =
  name_of (merge_sort String.le (nm <$> ws)) (if public then [] else merge_sort String.le (nm <$> rs))
    (suffix_of ci).
Proof.
  intros Hw Hr. unfold canonical_name, name_of, getSortedNames.
  assert (∀ us, NoDup us → merge_sort String.le ((snd <$> map_to_list (names_of nm (sort_UIDs us) ∅)) ++ []) =
    merge_sort String.le (nm <$> us)) as Hs.
  { intros us Hus. apply sort_strings_perm. rewrite app_nil_r, names_of_perm.
    - unfold sort_UIDs. by rewrite merge_sort_Permutation.
    - unfold sort_UIDs. by rewrite merge_sort_Permutation. }
  change (SocialAssertion_String <$> []) with (@nil string). rewrite (Hs ws Hw).
  set (base := if negb public && _ then _ else _).
  set (base' := if decide (0 < length _) then _ else _).
  assert (base = base') as ->.
  { subst base base'. destruct public; [done|]. rewrite (Hs rs Hr). simpl.
    rewrite size_names_of by (unfold sort_UIDs; by rewrite merge_sort_Permutation).
    assert (length (merge_sort String.le (nm <$> rs)) = length rs) as ->
      by (rewrite merge_sort_Permutation; apply length_fmap).
    rewrite length_sort_UIDs, Nat.add_0_r.
    case_decide; [by rewrite bool_decide_eq_true_2|by rewrite bool_decide_eq_false_2]. }
  destruct ci as [c|]; cbn [suffix_of].
  - by rewrite decide_True by apply suffix_nonempty.
  - rewrite decide_False; [done|]. simpl. lia.
Qed.

Lemma name_of_nonempty wn rn cs :
  wn ≠ [] → Forall (λ s, s ≠ EmptyString) wn → name_of wn rn cs ≠ EmptyString.
Proof.
  destruct wn as [|[|c s] wn]; [done|by intros _ [? _]%Forall_cons|]. intros _ _. unfold name_of.
  assert (∃ s', join "," (String c s :: wn) = String c s') as [s' ->] by (destruct wn; eexists; reflexivity).
  repeat case_decide; done.
Qed.

Lemma arrivals_names share ws rs b ci :
  MakeBareTlfHandle ws rs [] [] ci = Ok b → users_ok nm ws rs [] [] →
  (∀ u, u ∈ ws ∨ (handle_IsPublic b = false ∧ u ∈ rs) → name_ok u) →
  let resolve n := resolve_assertion share n EmptyString in
  arrivals_of (resolve <$> merge_sort String.le (nm <$> ws))
    (resolve <$> (if handle_IsPublic b then [] else merge_sort String.le (nm <$> rs))) ≡ₚ
  arrivals_of (bare_writers b) (bare_readers b).
Proof.
  intros Hb Ho Hu. cbv zeta. pose proof (handle_IsPublic_made _ _ _ _ _ _ Hb) as Hpub.
  apply MakeBareTlfHandle_Ok in Hb as (_ & _ & _ & ->).
  unfold arrivals_of, bare_writers, bare_readers. rewrite Hpub in *. simpl. rewrite !app_nil_r.
  f_equiv.
  - rewrite merge_sort_Permutation, (resolve_names share true ws) by (apply Ho || naive_solver).
    unfold sort_UIDs. by rewrite merge_sort_Permutation.
  - case_bool_decide as Hin; [done|].
    destruct (uo_readers_named _ _ _ _ _ Ho) as [?|Hr]; [done|].
    rewrite merge_sort_Permutation, (resolve_names share false rs) by (done || naive_solver).
    unfold sort_UIDs. by rewrite merge_sort_Permutation.
Qed.

(** The canonical name of a folder parses back to its handle: for
    resolved users with names in normal form, with or without a conflict
    suffix, when the current user is one of them or the folder is public,
    and in whatever order the names resolve. *)
Theorem ParseTlfHandle_canonical ws rs ci b share order :
  MakeBareTlfHandle ws rs [] [] ci = Ok b → users_ok nm ws rs [] [] →
  (∀ u, u ∈ ws ∨ (handle_IsPublic b = false ∧ u ∈ rs) → name_ok u) → suffix_ok ci →
  (handle_IsPublic b = true ∨ ∃ n u, GetCurrentUserInfo = Ok (n, u) ∧ u ∈ ws ++ rs) →
  (∀ l, order l ≡ₚ l) →
  ∃ h, th_Bare h = b ∧
    (∀ arrivals, arrivals ≡ₚ arrivals_of (bare_writers b) (bare_readers b) →
       MakeTlfHandle b arrivals = Ok h) ∧
    ParseTlfHandle (th_name h) (handle_IsPublic b) share order = Ok h.
Proof.
  intros Hb Ho Hu [Hlow Hci] Huser Hord. exists (made_handle nm ws rs [] [] ci b).
  pose proof (MakeBareTlfHandle_Ok _ _ _ _ _ _ Hb) as (Hne & _ & _ & Eb).
  assert (h_ConflictInfo b = ci) as Ebc by by rewrite Eb.
  split; [done|]. split.
  { intros arrivals Ha. unfold MakeTlfHandle. rewrite Ebc.
    rewrite (makeTlfHandleHelper_bare nm _ _ _ _ _ _ _ _ Hb Ho)
      by (done || intros Hp; by rewrite (bare_readers_public b Hp)). simpl. by rewrite decide_True. }
  pose proof (uo_nodup _ _ _ _ _ Ho) as (Hw & _ & Hr)%NoDup_app.
  set (wn := merge_sort String.le (nm <$> ws)).
  set (rn := if handle_IsPublic b then [] else merge_sort String.le (nm <$> rs)).
  assert (th_name (made_handle nm ws rs [] [] ci b) = name_of wn rn (suffix_of ci)) as En.
  { unfold made_handle. simpl. change (sort_assertions []) with (@nil SocialAssertion).
    subst wn rn. rewrite <- canonical_name_of by done. by destruct (handle_IsPublic b). }
  assert (wn ≠ []) as Hwn.
  { intros E. apply Hne. apply (f_equal length) in E. subst wn.
    rewrite merge_sort_Permutation, length_fmap in E. by apply nil_length_inv. }
  assert (normal wn) as Nw by (apply normal_names; naive_solver).
  assert (normal rn) as Nr.
  { subst rn. destruct (handle_IsPublic b) eqn:Hp; [done|]. apply normal_names. naive_solver. }
  assert (handle_IsPublic b = true → rn = []) as Hpn by (subst rn; by intros ->).
  unfold ParseTlfHandle. rewrite En. rewrite splitAndNormalize_normal by done. cbn [mbind res_bind].
  rewrite decide_False by (intros [->%Hpn ?]; simpl in *; lia).
  rewrite normalizeNamesInTLF_normal by done. cbn [mbind res_bind].
  rewrite decide_False by (intros Hn; by apply Hn).
  assert ((if decide (String.length (suffix_of ci) ≠ 0)
           then ci ← ParseConflictInfo (suffix_of ci); Ok (Some ci) else Ok None) = Ok ci) as ->.
  { destruct ci as [c|]; [|done]. cbn [suffix_of]. rewrite decide_True by apply suffix_nonempty. by rewrite Hci. }
  cbn [mbind res_bind].
  rewrite (makeTlfHandleHelper_bare nm _ _ _ _ _ _ _ _ Hb Ho);
    [|intros ->%Hpn; done|rewrite Hord; by eapply arrivals_names].
  cbn [mbind res_bind].
  assert ((if handle_IsPublic b then Ok tt
           else user ← GetCurrentUserInfo;
                if decide (user.2 ∈ h_Writers b ++ h_Readers b) then Ok tt
                else Err (ReadAccessError user.1)) = Ok tt) as Hcan.
  { destruct Huser as [->|(n & u & -> & Hin)]; [done|]. destruct (handle_IsPublic b); [done|]. simpl.
    rewrite decide_True; [done|]. rewrite Eb. simpl. rewrite elem_of_app, !elem_of_sort_UIDs. by apply elem_of_app. }
  change (th_Bare (made_handle nm ws rs [] [] ci b)) with b. rewrite Hcan. cbn [mbind res_bind].
  unfold GetCanonicalName. rewrite En, decide_False.
  - cbn [mbind res_bind]. by rewrite decide_True.
  - apply name_of_nonempty; [done|]. subst wn. rewrite merge_sort_Permutation.
    apply Forall_fmap, Forall_forall. intros u Hin. by apply (uo_named _ _ _ _ _ Ho).
Qed.

End parse.

(** ** Instances *)

(** A directory of two users, by a table. *)
Definition ex_users : list (string * UID) := [("alice", "11"); ("bob", "22")].

Definition ex_name (u : UID) : string :=
  match list_find (λ p : string * UID, p.2 = u) ex_users with
  | Some (_, (n, _)) => n
  | None => EmptyString
  end.

#[local] Instance ex_kbpki : KBPKI := {|
  CheckUsername s := bool_decide (s ∈ ex_users.*1);
  NormalizeSocialAssertion _ := None;
  AssertionParse _ := None;
  kb_Resolve s := match list_find (λ p : string * UID, p.1 = s) ex_users with
                  | Some (_, p) => Ok p
                  | None => Err (NoSuchUserError s)
                  end;
  GetNormalizedUsername u := Ok (ex_name u);
  GetCurrentUserInfo := Ok ("bob", "22");
  kb_Identify s := Err (NoSuchUserError s)
|}.

Definition ex_social : SocialAssertion := MkSocialAssertion "carol" "twitter".

Definition ex_ci : option ConflictInfo := Some (MkConflictInfo 1457913600 2).

Lemma ex_users_ok uw :
  uw = [] ∨ uw = [ex_social] → users_ok ex_name ["22"] ["11"] uw [].
Proof.
  intros Huw. assert (∀ us, us = ["22"] ∨ us = ["11"] → named ex_name us) as Hn.
  { intros us Hus u Hu. split; [done|]. destruct Hus as [-> | ->]; apply list_elem_of_singleton in Hu as ->; by vm_compute. }
  split.
  - apply (bool_decide_unpack _). by vm_compute.
  - destruct Huw as [-> | ->]; apply (bool_decide_unpack _); by vm_compute.
  - auto.
  - right. auto.
  - destruct Huw as [-> | ->]; apply (bool_decide_unpack _); by vm_compute.
  - intros a b Ha Hb _. destruct Huw as [-> | ->]; set_solver.
  - intros a b Ha. set_solver.
Qed.

Lemma MakeTlfHandle_keeps_bare_witness :
  let b := MkBareTlfHandle ["22"] ["11"] [ex_social] [] ex_ci in
  ∃ h, th_Bare h = b ∧
    MakeTlfHandle b [ArrivedReader "alice" "11"; ArrivedUnresolvedWriter ex_social;
                     ArrivedWriter "bob" "22"] = Ok h.
Proof.
  intros b.
  destruct (MakeTlfHandle_keeps_bare ex_name ["22"] ["11"] [ex_social] [] ex_ci b) as (h & Hb & _ & Hh);
    [by vm_compute|apply ex_users_ok; auto|].
  exists h. split; [done|]. apply Hh.
  exact (reverse_Permutation [ArrivedWriter "bob" "22"; ArrivedUnresolvedWriter ex_social; ArrivedReader "alice" "11"]).
Defined.

Lemma ResolveAssertions_spec_witness :
  "33" ∈ h_Writers (ResolveAssertions (MkBareTlfHandle ["22"] ["11"; "33"] [ex_social] [] None) [(ex_social, "33")]).
Proof.
  destruct (ResolveAssertions_spec (MkBareTlfHandle ["22"] ["11"; "33"] [ex_social] [] None) [(ex_social, "33")])
    as (Hw & _).
  - apply (bool_decide_unpack _). by vm_compute.
  - set_solver.
  - apply Hw. right. exists ex_social. set_solver.
Defined.

Lemma ParseTlfHandle_canonical_witness :
  let b := MkBareTlfHandle ["22"] ["11"] [] [] ex_ci in
  ∃ h, th_Bare h = b ∧ ParseTlfHandle "bob#alice (conflicted copy 2016-03-14 #2)" false true reverse = Ok h.
Proof.
  intros b.
  destruct (ParseTlfHandle_canonical ex_name ["22"] ["11"] ex_ci b true reverse) as (h & Hb & Hm & Hp).
  - by vm_compute.
  - apply ex_users_ok. auto.
  - intros u Hu. assert (u = "22" ∨ u = "11") as [-> | ->] by set_solver; split; by vm_compute.
  - split; [by vm_compute|]. intros c [= <-]. by vm_compute.
  - right. exists "bob", "22". split; [done|]. set_solver.
  - intros l. apply reverse_Permutation.
  - exists h. split; [done|].
    set (arrivals := [ArrivedWriter "bob" "22"; ArrivedReader "alice" "11"]).
    assert (th_name h = "bob#alice (conflicted copy 2016-03-14 #2)") as <-; [|exact Hp].
    transitivity (match MakeTlfHandle b arrivals with Ok h => th_name h | _ => EmptyString end).
    + by rewrite (Hm arrivals).
    + by vm_compute.
Defined.
