(* ===== verification/KeyBundles.v ===== *)
(** * KeyBundles: the keys of a folder

    Models [libkbfs/key_bundle.go]: for each key generation, the key
    halves of every device of every writer and reader; filling in the
    devices that have none.  The Diffie-Hellman box of NaCl and the import
    of public keys are the class [Box].

    Drawing random bytes consumes them from the reader in the state; a Go
    map that a function fills in place is a field of the state too, since
    what was filled in before an error stays. *)

From Stdlib Require Import ZArith Ascii Lia.
From S2P Require Import Prelude Types Errors GoStd Ids CryptoCommon.

(** [golang.org/x/crypto/nacl/box], and [libkb.ImportKeypairFromKID],
    which gives the Diffie-Hellman public key of a key id, or nothing when
    the key is of another kind. *)
Class Box := {
  box_public : list byte → list byte;
  box_Seal : list byte → list byte → list byte → list byte → list byte;
  box_Open : list byte → list byte → list byte → list byte → option (list byte);
  box_Overhead : nat;
  ImportKeypairFromKID : KID → res (option (list byte));
  box_Open_Seal message nonce priv priv' :
    box_Open (box_Seal message nonce (box_public priv') priv) nonce (box_public priv) priv' = Some message;
  box_Seal_length message nonce pub priv :
    length (box_Seal message nonce pub priv) = length message + box_Overhead
}.

(** ** Data *)

Record TLFCryptKeyInfo := MkTLFCryptKeyInfo {
  tki_ClientHalf : encryptedData;
  tki_ServerHalfID : HMAC;
  tki_EPubKeyIndex : Z
}.

Definition DeviceKeyInfoMap := gmap KID TLFCryptKeyInfo.
Definition UserDeviceKeyInfoMap := gmap UID DeviceKeyInfoMap.

Record TLFWriterKeyBundle := MkTLFWriterKeyBundle {
  wkb_WKeys : UserDeviceKeyInfoMap;
  wkb_TLFPublicKey : list byte;
  wkb_TLFEphemeralPublicKeys : list (list byte)
}.

Record TLFReaderKeyBundle := MkTLFReaderKeyBundle {
  rkb_RKeys : UserDeviceKeyInfoMap;
  rkb_TLFReaderEphemeralPublicKeys : list (list byte)
}.

Definition TLFWriterKeyGenerations := list TLFWriterKeyBundle.
Definition TLFReaderKeyGenerations := list TLFReaderKeyBundle.

#[global] Instance encryptedData_eq_dec : EqDecision encryptedData.
Proof. solve_decision. Defined.
#[global] Instance TLFCryptKeyInfo_eq_dec : EqDecision TLFCryptKeyInfo.
Proof. solve_decision. Defined.
#[global] Instance TLFWriterKeyBundle_eq_dec : EqDecision TLFWriterKeyBundle.
Proof. unfold EqDecision. intros [] []. unfold UserDeviceKeyInfoMap, DeviceKeyInfoMap in *. solve_decision. Defined.
#[global] Instance TLFReaderKeyBundle_eq_dec : EqDecision TLFReaderKeyBundle.
Proof. unfold EqDecision. intros [] []. unfold UserDeviceKeyInfoMap, DeviceKeyInfoMap in *. solve_decision. Defined.

(** The info of a device of a user. *)
Definition device_info (m : UserDeviceKeyInfoMap) (user : UID) (kid : KID) : option TLFCryptKeyInfo :=
  (m : gmap UID (gmap KID TLFCryptKeyInfo)) !! user ≫= λ d : gmap KID TLFCryptKeyInfo, d !! kid.

Definition wkb_IsWriter (tkb : TLFWriterKeyBundle) (user : UID) (deviceKID : KID) : bool :=
  bool_decide (is_Some (device_info (wkb_WKeys tkb) user deviceKID)).
Definition rkb_IsReader (trb : TLFReaderKeyBundle) (user : UID) (deviceKID : KID) : bool :=
  bool_decide (is_Some (device_info (rkb_RKeys trb) user deviceKID)).

Definition wkg_LatestKeyGeneration (tkg : TLFWriterKeyGenerations) : KeyGen := zlen tkg.
Definition rkg_LatestKeyGeneration (tkg : TLFReaderKeyGenerations) : KeyGen := zlen tkg.

Definition wkg_IsWriter (tkg : TLFWriterKeyGenerations) (user : UID) (deviceKID : KID) : bool :=
  match last tkg with
  | None => false
  | Some tkb => wkb_IsWriter tkb user deviceKID
  end.
Definition rkg_IsReader (tkg : TLFReaderKeyGenerations) (user : UID) (deviceKID : KID) : bool :=
  match last tkg with
  | None => false
  | Some trb => rkb_IsReader trb user deviceKID
  end.

Definition GetKIDs (kim : DeviceKeyInfoMap) : list KID := (map_to_list (kim : gmap KID TLFCryptKeyInfo)).*1.

(** ** Key ids as bytes *)

(** [UID.ToBytes] and [KID.ToBytes]: nil when the string is not
    hexadecimal. *)
Definition ToBytes (s : string) : list byte :=
  match DecodeString s with Ok b => b | _ => [] end.

(** ** Encrypting a key half for a device *)

Section boxes.
Context `{Box}.

(** [EncryptTLFCryptKeyClientHalf], with the nonce drawn. *)
Definition EncryptTLFCryptKeyClientHalf (nonce privateKey : list byte) (publicKey : KID)
    (clientHalf : list byte) : res encryptedData :=
  keypair ← ImportKeypairFromKID publicKey;
  match keypair with
  | None => Err KeyCannotEncryptError
  | Some pub => Ok (MkEncryptedData EncryptionSecretbox (box_Seal clientHalf nonce pub privateKey) nonce)
  end.

(** [CryptoLocal.prepareTLFCryptKeyClientHalf]. *)
Definition prepareTLFCryptKeyClientHalf (ed : encryptedData) : res (list byte) :=
  if decide (ed_Version ed ≠ EncryptionSecretbox) then Err (UnknownEncryptionVer (ed_Version ed))
  else if decide (length (ed_EncryptedData ed) ≠ 32 + box_Overhead) then Err DecryptionError
  else if decide (length (ed_Nonce ed) ≠ 24) then Err (InvalidNonceError (ed_Nonce ed))
  else Ok (ed_Nonce ed).

(** [CryptoLocal.DecryptTLFCryptKeyClientHalf], with the device's private
    key. *)
Definition DecryptTLFCryptKeyClientHalf (cryptPrivateKey ePublicKey : list byte) (ed : encryptedData)
    : res (list byte) :=
  nonce ← prepareTLFCryptKeyClientHalf ed;
  match box_Open (ed_EncryptedData ed) nonce ePublicKey cryptPrivateKey with
  | None => Err DecryptionError
  | Some d => if decide (length d ≠ 32) then Err DecryptionError else Ok d
  end.

(** [CryptoLocal.DecryptTLFCryptKeyClientHalfAny]: the first of the keys
    that opens, with its index.  A key half of the wrong length is copied
    into 32 zero bytes. *)
Fixpoint decrypt_any (cryptPrivateKey : list byte) (i : nat) (keys : list (encryptedData * list byte))
    : res (list byte * nat) :=
  match keys with
  | [] => Err DecryptionError
  | (ed, ePubKey) :: keys =>
      match prepareTLFCryptKeyClientHalf ed with
      | Ok nonce =>
          match box_Open (ed_EncryptedData ed) nonce ePubKey cryptPrivateKey with
          | Some d => Ok (take 32 (d ++ replicate 32 x00), i)
          | None => decrypt_any cryptPrivateKey (S i) keys
          end
      | _ => decrypt_any cryptPrivateKey (S i) keys
      end
  end.

Definition DecryptTLFCryptKeyClientHalfAny (cryptPrivateKey : list byte)
    (keys : list (encryptedData * list byte)) : res (list byte * nat) :=
  if decide (length keys = 0) then Err NoKeysError else decrypt_any cryptPrivateKey 0 keys.

(** ** Filling in devices *)

Definition serverKeyMap := gmap UID (gmap KID (list byte)).

Record fillState := MkFillState {
  fs_rand : list byte;
  fs_keys : gmap UID (gmap KID TLFCryptKeyInfo);
  fs_server : gmap KID (list byte)
}.

(** [cryptoRandRead] into a buffer of [n] bytes. *)
Definition rand_next (n : nat) : go fillState (list byte) := λ s,
  match cryptoRandRead (fs_rand s) n with
  | Ok buf => (Ok buf, MkFillState (drop n (fs_rand s)) (fs_keys s) (fs_server s))
  | Err e => (Err e, s)
  | Panic msg => (Panic msg, s)
  end.

Definition MakeRandomTLFCryptKeyServerHalf : go fillState (list byte) := rand_next 32.

(** The body of the loop of [fillInDeviceInfo]. *)
Definition fill_device (uid : UID) (tlfCryptKey ePrivKey : list byte) (ePubIndex : Z) (k : KID)
    : go fillState unit :=
  s ← get;
  match device_info (fs_keys s) uid k with
  | Some _ => mret tt
  | None =>
      serverHalf ← MakeRandomTLFCryptKeyServerHalf;
      clientHalf ← lift_res (MaskTLFCryptKey serverHalf tlfCryptKey);
      nonce ← rand_next 24;
      encryptedClientHalf ← lift_res (EncryptTLFCryptKeyClientHalf nonce ePrivKey k clientHalf);
      serverHalfID ← lift_res (GetTLFCryptKeyServerHalfID (ToBytes uid) (ToBytes k) serverHalf);
      modify (λ s, MkFillState (fs_rand s)
        (<[uid := <[k := MkTLFCryptKeyInfo encryptedClientHalf serverHalfID ePubIndex]>
                    (default ∅ (fs_keys s !! uid))]> (fs_keys s))
        (<[k := serverHalf]> (fs_server s)))
  end.

Definition fillInDeviceInfo (uid : UID) (tlfCryptKey ePrivKey : list byte) (ePubIndex : Z)
    (publicKeys : list KID) : go fillState (gmap KID (list byte)) :=
  _ ← modify (λ s, MkFillState (fs_rand s) (fs_keys s) ∅);
  _ ← go_for publicKeys (fill_device uid tlfCryptKey ePrivKey ePubIndex);
  s ← get;
  mret (fs_server s).

Record fillUsers := MkFillUsers {
  fu_rand : list byte;
  fu_keys : gmap UID (gmap KID TLFCryptKeyInfo);
  fu_server : serverKeyMap
}.

(** One user of [fillInDevicesAndServerMap]. *)
Definition fill_user (newIndex : Z) (ePrivKey tlfCryptKey : list byte) (uk : UID * list KID)
    : go fillUsers unit := λ s,
  let '(u, keys) := uk in
  let keyInfo := match fu_keys s !! u with Some _ => fu_keys s | None => <[u := ∅]> (fu_keys s) end in
  match fillInDeviceInfo u tlfCryptKey ePrivKey newIndex keys (MkFillState (fu_rand s) keyInfo ∅) with
  | (Ok serverMap, fs) =>
      (Ok tt, MkFillUsers (fs_rand fs) (fs_keys fs)
                (if decide (0 < size serverMap) then <[u := serverMap]> (fu_server s) else fu_server s))
  | (Err e, fs) => (Err e, MkFillUsers (fs_rand fs) (fs_keys fs) (fu_server s))
  | (Panic msg, fs) => (Panic msg, MkFillUsers (fs_rand fs) (fs_keys fs) (fu_server s))
  end.

(** The users in the order of the iteration over the map. *)
Definition fillInDevicesAndServerMap (newIndex : Z) (cryptKeys : list (UID * list KID))
    (ePrivKey tlfCryptKey : list byte) : go fillUsers unit :=
  go_for cryptKeys (fill_user newIndex ePrivKey tlfCryptKey).

(** The bundles of one generation, and what is left of the reader. *)
Record bundles := MkBundles {
  bu_wkb : TLFWriterKeyBundle;
  bu_rkb : TLFReaderKeyBundle;
  bu_rand : list byte
}.

Definition fillInDevices (wKeys rKeys : list (UID * list KID)) (ePubKey ePrivKey tlfCryptKey : list byte)
    : go bundles serverKeyMap := λ s,
  let '(wkb, rkb, newIndex) :=
    if decide (length wKeys = 0) then
      let keys := rkb_TLFReaderEphemeralPublicKeys (bu_rkb s) ++ [ePubKey] in
      (bu_wkb s, MkTLFReaderKeyBundle (rkb_RKeys (bu_rkb s)) keys, (- zlen keys)%Z)
    else
      let keys := wkb_TLFEphemeralPublicKeys (bu_wkb s) ++ [ePubKey] in
      (MkTLFWriterKeyBundle (wkb_WKeys (bu_wkb s)) (wkb_TLFPublicKey (bu_wkb s)) keys, bu_rkb s,
       (zlen keys - 1)%Z) in
  let set_w m := MkTLFWriterKeyBundle m (wkb_TLFPublicKey wkb) (wkb_TLFEphemeralPublicKeys wkb) in
  let set_r m := MkTLFReaderKeyBundle m (rkb_TLFReaderEphemeralPublicKeys rkb) in
  match fillInDevicesAndServerMap newIndex wKeys ePrivKey tlfCryptKey
          (MkFillUsers (bu_rand s) (wkb_WKeys wkb) ∅) with
  | (Ok _, w) =>
      match fillInDevicesAndServerMap newIndex rKeys ePrivKey tlfCryptKey
              (MkFillUsers (fu_rand w) (rkb_RKeys rkb) (fu_server w)) with
      | (Ok _, r) => (Ok (fu_server r), MkBundles (set_w (fu_keys w)) (set_r (fu_keys r)) (fu_rand r))
      | (Err e, r) => (Err e, MkBundles (set_w (fu_keys w)) (set_r (fu_keys r)) (fu_rand r))
      | (Panic p, r) => (Panic p, MkBundles (set_w (fu_keys w)) (set_r (fu_keys r)) (fu_rand r))
      end
  | (Err e, w) => (Err e, MkBundles (set_w (fu_keys w)) rkb (fu_rand w))
  | (Panic p, w) => (Panic p, MkBundles (set_w (fu_keys w)) rkb (fu_rand w))
  end.

End boxes.
