(* ===== verification/Metadata.v ===== *)
(** * Metadata: the root metadata of a folder

    Models [libkbfs/root_metadata.go].  [BareRootMetadata] holds the
    fields that are encoded (and signed); [RootMetadata] adds what only
    lives in memory: the decrypted private metadata, the handle and the
    cached id.  Fields that newer clients may add are not modelled. *)

From Stdlib Require Import ZArith Ascii Lia.
From S2P Require Import Prelude Types Errors GoStd Ids CryptoCommon DataTypes Ops ConflictInfo Handles KeyBundles.

(** ** Data *)

Record SignatureInfo := MkSignatureInfo {
  sig_Version : Z;
  sig_Signature : list byte;
  sig_VerifyingKey : KID
}.
#[global] Instance SignatureInfo_eq_dec : EqDecision SignatureInfo.
Proof. solve_decision. Defined.

Definition sig_IsNil (s : SignatureInfo) : bool :=
  bool_decide (sig_Version s = 0%Z) && bool_decide (length (sig_Signature s) = 0) &&
  bool_decide (sig_VerifyingKey s = EmptyString).

(** The flags, bits of a byte. *)
Definition MetadataFlagRekey : Z := 1.
Definition MetadataFlagWriterMetadataCopied : Z := 2.
Definition MetadataFlagFinal : Z := 4.
Definition MetadataFlagUnmerged : Z := 1.

Record WriterMetadata := MkWriterMetadata {
  wm_SerializedPrivateMetadata : option (list byte);
  wm_LastModifyingWriter : UID;
  wm_Writers : list UID;
  wm_WKeys : TLFWriterKeyGenerations;
  wm_ID : TlfID;
  wm_BID : BranchID;
  wm_WFlags : Z;
  wm_DiskUsage : Z;
  wm_RefBytes : Z;
  wm_UnrefBytes : Z;
  wm_UnresolvedWriters : list SocialAssertion
}.
#[global] Instance WriterMetadata_eq_dec : EqDecision WriterMetadata.
Proof. solve_decision. Defined.

Record BareRootMetadata := MkBareRootMetadata {
  bm_WriterMetadata : WriterMetadata;
  bm_WriterMetadataSigInfo : SignatureInfo;
  bm_LastModifyingUser : UID;
  bm_Flags : Z;
  bm_Revision : MetadataRevision;
  bm_PrevRoot : MdID;
  bm_RKeys : TLFReaderKeyGenerations;
  bm_UnresolvedReaders : list SocialAssertion;
  bm_ConflictInfo : option ConflictInfo
}.
#[global] Instance BareRootMetadata_eq_dec : EqDecision BareRootMetadata.
Proof. solve_decision. Defined.

Record PrivateMetadata := MkPrivateMetadata {
  pmd_Dir : DirEntry;
  pmd_TLFPrivateKey : list byte;
  pmd_Changes : BlockChanges;
  pmd_cachedChanges : BlockChanges
}.

Record RootMetadata := MkRootMetadata {
  rmd_bare : BareRootMetadata;
  rmd_data : PrivateMetadata;
  rmd_tlfHandle : option TlfHandle;
  rmd_mdID : MdID
}.

(** What the server stores; the server's own timestamp is kept beside it. *)
Record RootMetadataSigned := MkRootMetadataSigned {
  rmds_SigInfo : SignatureInfo;
  rmds_MD : BareRootMetadata
}.
#[global] Instance RootMetadataSigned_eq_dec : EqDecision RootMetadataSigned.
Proof. solve_decision. Defined.

Definition bm_ID (md : BareRootMetadata) : TlfID := wm_ID (bm_WriterMetadata md).
Definition bm_BID (md : BareRootMetadata) : BranchID := wm_BID (bm_WriterMetadata md).
Definition bm_DiskUsage (md : BareRootMetadata) : Z := wm_DiskUsage (bm_WriterMetadata md).
Definition bm_RefBytes (md : BareRootMetadata) : Z := wm_RefBytes (bm_WriterMetadata md).
Definition bm_UnrefBytes (md : BareRootMetadata) : Z := wm_UnrefBytes (bm_WriterMetadata md).
Definition bm_WKeys (md : BareRootMetadata) : TLFWriterKeyGenerations := wm_WKeys (bm_WriterMetadata md).

(** Field updates. *)
Definition set_wm (f : WriterMetadata → WriterMetadata) (md : BareRootMetadata) : BareRootMetadata :=
  MkBareRootMetadata (f (bm_WriterMetadata md)) (bm_WriterMetadataSigInfo md) (bm_LastModifyingUser md)
    (bm_Flags md) (bm_Revision md) (bm_PrevRoot md) (bm_RKeys md) (bm_UnresolvedReaders md) (bm_ConflictInfo md).
Definition set_Flags (f : Z → Z) (md : BareRootMetadata) : BareRootMetadata :=
  MkBareRootMetadata (bm_WriterMetadata md) (bm_WriterMetadataSigInfo md) (bm_LastModifyingUser md)
    (f (bm_Flags md)) (bm_Revision md) (bm_PrevRoot md) (bm_RKeys md) (bm_UnresolvedReaders md) (bm_ConflictInfo md).
Definition set_Revision (rev : MetadataRevision) (prev : MdID) (md : BareRootMetadata) : BareRootMetadata :=
  MkBareRootMetadata (bm_WriterMetadata md) (bm_WriterMetadataSigInfo md) (bm_LastModifyingUser md)
    (bm_Flags md) rev prev (bm_RKeys md) (bm_UnresolvedReaders md) (bm_ConflictInfo md).
Definition set_RKeys (rkeys : TLFReaderKeyGenerations) (md : BareRootMetadata) : BareRootMetadata :=
  MkBareRootMetadata (bm_WriterMetadata md) (bm_WriterMetadataSigInfo md) (bm_LastModifyingUser md)
    (bm_Flags md) (bm_Revision md) (bm_PrevRoot md) rkeys (bm_UnresolvedReaders md) (bm_ConflictInfo md).
Definition set_readers (ur : list SocialAssertion) (ci : option ConflictInfo) (md : BareRootMetadata)
    : BareRootMetadata :=
  MkBareRootMetadata (bm_WriterMetadata md) (bm_WriterMetadataSigInfo md) (bm_LastModifyingUser md)
    (bm_Flags md) (bm_Revision md) (bm_PrevRoot md) (bm_RKeys md) ur ci.

Definition wm_set_bytes (usage ref unref : Z) (w : WriterMetadata) : WriterMetadata :=
  MkWriterMetadata (wm_SerializedPrivateMetadata w) (wm_LastModifyingWriter w) (wm_Writers w) (wm_WKeys w)
    (wm_ID w) (wm_BID w) (wm_WFlags w) usage ref unref (wm_UnresolvedWriters w).
Definition wm_set_serialized (data : option (list byte)) (w : WriterMetadata) : WriterMetadata :=
  MkWriterMetadata data (wm_LastModifyingWriter w) (wm_Writers w) (wm_WKeys w)
    (wm_ID w) (wm_BID w) (wm_WFlags w) (wm_DiskUsage w) (wm_RefBytes w) (wm_UnrefBytes w) (wm_UnresolvedWriters w).
Definition wm_set_WKeys (keys : TLFWriterKeyGenerations) (w : WriterMetadata) : WriterMetadata :=
  MkWriterMetadata (wm_SerializedPrivateMetadata w) (wm_LastModifyingWriter w) (wm_Writers w) keys
    (wm_ID w) (wm_BID w) (wm_WFlags w) (wm_DiskUsage w) (wm_RefBytes w) (wm_UnrefBytes w) (wm_UnresolvedWriters w).
Definition wm_set_writers (writers : list UID) (uw : list SocialAssertion) (w : WriterMetadata) : WriterMetadata :=
  MkWriterMetadata (wm_SerializedPrivateMetadata w) (wm_LastModifyingWriter w) writers (wm_WKeys w)
    (wm_ID w) (wm_BID w) (wm_WFlags w) (wm_DiskUsage w) (wm_RefBytes w) (wm_UnrefBytes w) uw.

Definition set_bare (f : BareRootMetadata → BareRootMetadata) (md : RootMetadata) : RootMetadata :=
  MkRootMetadata (f (rmd_bare md)) (rmd_data md) (rmd_tlfHandle md) (rmd_mdID md).
Definition set_Changes (f : BlockChanges → BlockChanges) (md : RootMetadata) : RootMetadata :=
  let d := rmd_data md in
  MkRootMetadata (rmd_bare md)
    (MkPrivateMetadata (pmd_Dir d) (pmd_TLFPrivateKey d) (f (pmd_Changes d)) (pmd_cachedChanges d))
    (rmd_tlfHandle md) (rmd_mdID md).

(** ** Flags and users *)

Definition MergedStatus (md : BareRootMetadata) : MergeStatus :=
  if decide (Z.land (wm_WFlags (bm_WriterMetadata md)) MetadataFlagUnmerged ≠ 0)%Z then Unmerged else Merged.

Definition has_flag (flag : Z) (md : BareRootMetadata) : bool := negb (Z.land (bm_Flags md) flag =? 0)%Z.

Definition IsRekeySet : BareRootMetadata → bool := has_flag MetadataFlagRekey.
Definition IsWriterMetadataCopiedSet : BareRootMetadata → bool := has_flag MetadataFlagWriterMetadataCopied.
Definition IsFinal : BareRootMetadata → bool := has_flag MetadataFlagFinal.

Definition md_IsWriter (md : BareRootMetadata) (user : UID) (deviceKID : KID) : bool :=
  if TlfID_IsPublic (bm_ID md) then bool_decide (user ∈ wm_Writers (bm_WriterMetadata md))
  else wkg_IsWriter (bm_WKeys md) user deviceKID.

Definition md_IsReader (md : BareRootMetadata) (user : UID) (deviceKID : KID) : bool :=
  if TlfID_IsPublic (bm_ID md) then true else rkg_IsReader (bm_RKeys md) user deviceKID.

Definition LatestKeyGeneration (md : BareRootMetadata) : KeyGen :=
  if TlfID_IsPublic (bm_ID md) then PublicKeyGen else wkg_LatestKeyGeneration (bm_WKeys md).

Definition md_IsInitialized (md : BareRootMetadata) : bool :=
  let keyGen := LatestKeyGeneration md in
  if TlfID_IsPublic (bm_ID md) then bool_decide (keyGen = PublicKeyGen)
  else bool_decide (FirstValidKeyGen <= keyGen)%Z.

Definition IsReadable (md : RootMetadata) : bool :=
  TlfID_IsPublic (bm_ID (rmd_bare md)) || DirEntry_IsInitialized (pmd_Dir (rmd_data md)).

(** The users in the keys of the latest generation; Go iterates over the
    maps, and the lists are sorted afterwards. *)
Definition makeBareTlfHandle (md : BareRootMetadata) : res BareTlfHandle :=
  let wm := bm_WriterMetadata md in
  lists ←
    (if TlfID_IsPublic (bm_ID md) then Ok (wm_Writers wm, [PublicUID])
     else
       match last (wm_WKeys wm), last (bm_RKeys md) with
       | None, _ => Err (ErrorString "No writer key generations; need rekey?")
       | _, None => Err (ErrorString "No reader key generations; need rekey?")
       | Some wkb, Some rkb =>
           Ok (elements (dom (wkb_WKeys wkb : gmap UID _)),
               filter (λ r, (r ∉ dom (wkb_WKeys wkb : gmap UID _)) ∧ r ≠ PublicUID)
                 (elements (dom (rkb_RKeys rkb : gmap UID _))))
       end);
  MakeBareTlfHandle (fst lists) (snd lists) (wm_UnresolvedWriters wm) (bm_UnresolvedReaders md)
    (bm_ConflictInfo md).

(** ** Rekey requests *)

Section codec.
Context `{Codec WriterMetadata, Codec SignatureInfo, Codec (gmap KID TLFCryptKeyInfo),
  Codec BareRootMetadata, Codec PrivateMetadata, Codec TlfHandle}.

(** [CodecEqual]: whether two values encode to the same bytes. *)
Definition CodecEqual {A} `{Codec A} (x y : A) : res bool :=
  xBuf ← Encode x; yBuf ← Encode y; Ok (bool_decide (xBuf = yBuf)).

Definition CodecUpdate {A} `{Codec A} (src : A) : res A := buf ← Encode src; Decode buf.

(** The users of one generation, in the order of the iteration over the
    map; a user with no keys before has a nil map there. *)
Fixpoint users_unchanged (prev : gmap UID (gmap KID TLFCryptKeyInfo)) (user : UID)
    (users : list (UID * gmap KID TLFCryptKeyInfo)) : res bool :=
  match users with
  | [] => Ok true
  | (u, keys) :: users =>
      if decide (u = user) then users_unchanged prev user users
      else
        keysEqual ← CodecEqual keys (default ∅ (prev !! u));
        if negb keysEqual then Ok false else users_unchanged prev user users
  end.

Fixpoint gens_unchanged (user : UID) (gens prevGens : list TLFReaderKeyBundle) : res bool :=
  match gens, prevGens with
  | gen :: gens, prevGen :: prevGens =>
      let m := rkb_RKeys gen : gmap UID (gmap KID TLFCryptKeyInfo) in
      let m' := rkb_RKeys prevGen : gmap UID (gmap KID TLFCryptKeyInfo) in
      if decide (size m ≠ size m') then Ok false
      else
        same ← users_unchanged m' user (map_to_list m);
        if negb same then Ok false else gens_unchanged user gens prevGens
  | _, _ => Ok true
  end.

Definition haveOnlyUserRKeysChanged (md prevMD : BareRootMetadata) (user : UID) : res bool :=
  if decide (length (bm_RKeys md) ≠ length (bm_RKeys prevMD)) then Ok false
  else gens_unchanged user (bm_RKeys md) (bm_RKeys prevMD).

Definition IsValidRekeyRequest (md prevMd : BareRootMetadata) (user : UID) : res bool :=
  if negb (IsWriterMetadataCopiedSet md) then Ok false
  else
    writerEqual ← CodecEqual (bm_WriterMetadata md) (bm_WriterMetadata prevMd);
    if negb writerEqual then Ok false
    else
      writerSigInfoEqual ← CodecEqual (bm_WriterMetadataSigInfo md) (bm_WriterMetadataSigInfo prevMd);
      if negb writerSigInfoEqual then Ok false
      else haveOnlyUserRKeysChanged md prevMd user.

(** ** Ids *)

(** [MakeMdID]. *)
Definition MakeMdID (md : BareRootMetadata) : res MdID :=
  match wm_SerializedPrivateMetadata (bm_WriterMetadata md) with
  | None => Err (MDMissingDataError (bm_ID md))
  | Some _ => buf ← Encode md; h ← DefaultHash buf; Ok (MkMdID h)
  end.

Definition zeroMdID : MdID := MkMdID (MkHash EmptyString).

(** [MetadataID], which caches the id. *)
Definition MetadataID : go RootMetadata MdID := λ md,
  if decide (rmd_mdID md ≠ zeroMdID) then (Ok (rmd_mdID md), md)
  else match MakeMdID (rmd_bare md) with
       | Ok id => (Ok id, MkRootMetadata (rmd_bare md) (rmd_data md) (rmd_tlfHandle md) id)
       | Err e => (Err e, md)
       | Panic p => (Panic p, md)
       end.

(** ** Block changes *)

Definition md_AddRefBlock (info : BlockInfo) : go RootMetadata unit := λ md,
  let wm := bm_WriterMetadata (rmd_bare md) in
  let size := bi_EncodedSize info in
  let md := set_bare (set_wm (wm_set_bytes (to_u64 (wm_DiskUsage wm + size))
                               (to_u64 (wm_RefBytes wm + size)) (wm_UnrefBytes wm))) md in
  let '(r, bc) := BC_AddRefBlock (bi_BlockPointer info) (pmd_Changes (rmd_data md)) in
  (r, set_Changes (λ _, bc) md).

Definition md_AddUnrefBlock (info : BlockInfo) : go RootMetadata unit := λ md,
  if decide (0 < bi_EncodedSize info)%Z then
    let wm := bm_WriterMetadata (rmd_bare md) in
    let size := bi_EncodedSize info in
    let md := set_bare (set_wm (wm_set_bytes (to_u64 (wm_DiskUsage wm - size))
                                 (wm_RefBytes wm) (to_u64 (wm_UnrefBytes wm + size)))) md in
    let '(r, bc) := BC_AddUnrefBlock (bi_BlockPointer info) (pmd_Changes (rmd_data md)) in
    (r, set_Changes (λ _, bc) md)
  else (Ok tt, md).

Definition md_AddUpdate (oldInfo newInfo : BlockInfo) : go RootMetadata unit := λ md,
  if decide (0 < bi_EncodedSize oldInfo)%Z then
    let wm := bm_WriterMetadata (rmd_bare md) in
    let oldSize := bi_EncodedSize oldInfo in
    let newSize := bi_EncodedSize newInfo in
    let md := set_bare (set_wm (wm_set_bytes (to_u64 (to_u64 (wm_DiskUsage wm + newSize) - oldSize))
                                 (to_u64 (wm_RefBytes wm + newSize))
                                 (to_u64 (wm_UnrefBytes wm + oldSize)))) md in
    let '(r, bc) := BC_AddUpdate (bi_BlockPointer oldInfo) (bi_BlockPointer newInfo)
                      (pmd_Changes (rmd_data md)) in
    (r, set_Changes (λ _, bc) md)
  else (Ok tt, md).

Definition md_AddOp (o : op) : go RootMetadata unit := λ md,
  let '(r, bc) := BC_AddOp o (pmd_Changes (rmd_data md)) in (r, set_Changes (λ _, bc) md).

Definition zeroBlockInfo : BlockInfo := MkBlockInfo zeroPtr 0.

Definition ClearBlockChanges (md : RootMetadata) : RootMetadata :=
  let wm := bm_WriterMetadata (rmd_bare md) in
  set_Changes (λ _, MkBlockChanges zeroBlockInfo [] 0)
    (set_bare (set_wm (wm_set_bytes (wm_DiskUsage wm) 0 0)) md).

(** ** Successors *)

(** [Flags &= ^MetadataFlagWriterMetadataCopied] on a byte. *)
Definition clearLastRevision (md : RootMetadata) : RootMetadata :=
  set_bare (set_Flags (λ f, Z.land f (Z.lxor 255 MetadataFlagWriterMetadataCopied))) (ClearBlockChanges md).

Definition deepCopy (md : RootMetadata) (copyHandle : bool) : res RootMetadata :=
  bare ← CodecUpdate (rmd_bare md);
  data ← CodecUpdate (rmd_data md);
  handle ← (if copyHandle then
              match rmd_tlfHandle md with
              | None => Panic "nil pointer dereference"
              | Some h => h' ← CodecUpdate h; Ok (Some h')
              end
            else Ok None);
  Ok (MkRootMetadata bare data handle zeroMdID).

(** [increment]: [md] follows [currMD], whose id is computed (and
    cached). *)
Definition increment (currID : MdID) (currRevision : MetadataRevision) (md : RootMetadata) : RootMetadata :=
  let rev := if decide (bm_Revision (rmd_bare md) < MetadataRevisionInitial)%Z
             then MetadataRevisionInitial else (currRevision + 1)%Z in
  set_bare (set_Revision rev currID) md.

Definition MakeSuccessor (isWriter : bool) : go RootMetadata RootMetadata := λ md,
  if IsFinal (rmd_bare md) then (Err MetadataIsFinalError, md)
  else match deepCopy md true with
       | Ok newMd =>
           let newMd := if IsReadable md && isWriter then
                          set_bare (set_wm (wm_set_serialized None)) (clearLastRevision newMd)
                        else set_bare (set_Flags (λ f, Z.lor (Z.lor f MetadataFlagRekey)
                                                         MetadataFlagWriterMetadataCopied)) newMd in
           match MetadataID md with
           | (Ok id, md') => (Ok (increment id (bm_Revision (rmd_bare md)) newMd), md')
           | (Err e, md') => (Err e, md')
           | (Panic p, md') => (Panic p, md')
           end
       | Err e => (Err e, md)
       | Panic p => (Panic p, md)
       end.

End codec.

(** ** Keys *)

Definition getTLFKeyBundles (md : BareRootMetadata) (keyGen : KeyGen)
    : res (TLFWriterKeyBundle * TLFReaderKeyBundle) :=
  if TlfID_IsPublic (bm_ID md) then Err (InvalidPublicTLFOperation (bm_ID md) "getTLFKeyBundle")
  else if decide (keyGen < FirstValidKeyGen)%Z then Err (InvalidKeyGenerationError keyGen)
  else
    let i := Z.to_nat (keyGen - FirstValidKeyGen) in
    match bm_WKeys md !! i, bm_RKeys md !! i with
    | Some wkb, Some rkb => Ok (wkb, rkb)
    | _, _ => Err (NewKeyGenerationError keyGen)
    end.

(** The keys of a user: as a writer if there are any, else as a reader. *)
Definition user_keys (wkb : TLFWriterKeyBundle) (rkb : TLFReaderKeyBundle) (user : UID)
    : option (gmap KID TLFCryptKeyInfo) :=
  match (wkb_WKeys wkb : gmap UID (gmap KID TLFCryptKeyInfo)) !! user with
  | Some u => Some u
  | None => (rkb_RKeys rkb : gmap UID (gmap KID TLFCryptKeyInfo)) !! user
  end.

(** The info, if there is one. *)
Definition GetTLFCryptKeyInfo (md : BareRootMetadata) (keyGen : KeyGen) (user : UID) (key : KID)
    : res (option TLFCryptKeyInfo) :=
  '(wkb, rkb) ← getTLFKeyBundles md keyGen;
  Ok (user_keys wkb rkb user ≫= λ u, u !! key).

Definition GetTLFCryptPublicKeys (md : BareRootMetadata) (keyGen : KeyGen) (user : UID) : option (list KID) :=
  match getTLFKeyBundles md keyGen with
  | Ok (wkb, rkb) => GetKIDs <$> user_keys wkb rkb user
  | _ => None
  end.

(** Indices out of range panic. *)
Definition GetTLFEphemeralPublicKey (md : BareRootMetadata) (keyGen : KeyGen) (user : UID) (key : KID)
    : res (list byte) :=
  '(wkb, rkb) ← getTLFKeyBundles md keyGen;
  info ← GetTLFCryptKeyInfo md keyGen user key;
  match info with
  | None => Err (TLFEphemeralPublicKeyNotFoundError user key)
  | Some info =>
      let found :=
        if decide (tki_EPubKeyIndex info < 0)%Z
        then rkb_TLFReaderEphemeralPublicKeys rkb !! Z.to_nat (-1 - tki_EPubKeyIndex info)
        else wkb_TLFEphemeralPublicKeys wkb !! Z.to_nat (tki_EPubKeyIndex info) in
      match found with Some k => Ok k | None => Panic "index out of range" end
  end.

Definition AddNewKeys (wkb : TLFWriterKeyBundle) (rkb : TLFReaderKeyBundle) : go BareRootMetadata unit := λ md,
  if TlfID_IsPublic (bm_ID md) then (Err (InvalidPublicTLFOperation (bm_ID md) "AddNewKeys"), md)
  else (Ok tt, set_RKeys (bm_RKeys md ++ [rkb]) (set_wm (wm_set_WKeys (bm_WKeys md ++ [wkb])) md)).

Definition GetTlfHandle (md : RootMetadata) : res TlfHandle :=
  match rmd_tlfHandle md with None => Panic "RootMetadata with no handle" | Some h => Ok h end.

(** ** New metadata *)

(** The zero metadata, filled in by [updateNewRootMetadata]. *)
Definition emptyWriterMetadata : WriterMetadata :=
  MkWriterMetadata None EmptyString [] [] NullTlfID NullBranchID 0 0 0 0 [].

Definition updateNewRootMetadata (rmd : BareRootMetadata) (id : TlfID) (h : BareTlfHandle)
    : res BareRootMetadata :=
  if decide (TlfID_IsPublic id ≠ handle_IsPublic h)
  then Err (ErrorString "TlfID and TlfHandle disagree on public status")
  else
    let wm := MkWriterMetadata None EmptyString (if TlfID_IsPublic id then h_Writers h else []) []
                id NullBranchID 0 0 0 0 (h_UnresolvedWriters h) in
    let ur := if decide (0 < length (h_UnresolvedReaders h)) then h_UnresolvedReaders h
              else bm_UnresolvedReaders rmd in
    Ok (MkBareRootMetadata wm (bm_WriterMetadataSigInfo rmd) (bm_LastModifyingUser rmd) (bm_Flags rmd)
          MetadataRevisionInitial (bm_PrevRoot rmd) [] ur (bm_ConflictInfo rmd)).

(** [updateFromTlfHandle]. *)
Definition updateFromTlfHandle (newHandle : TlfHandle) : go RootMetadata unit := λ md,
  let nb := th_Bare newHandle in
  let public := TlfID_IsPublic (bm_ID (rmd_bare md)) in
  if decide (public ≠ handle_IsPublic nb) then (Err (Errorf "Trying to update public rmd with public handle"), md)
  else
    let writers := if handle_IsPublic nb then h_Writers nb else wm_Writers (bm_WriterMetadata (rmd_bare md)) in
    let ur := if handle_IsPublic nb then bm_UnresolvedReaders (rmd_bare md) else h_UnresolvedReaders nb in
    let bare := set_readers ur (h_ConflictInfo nb)
                  (set_wm (wm_set_writers writers (h_UnresolvedWriters nb)) (rmd_bare md)) in
    let md := set_bare (λ _, bare) md in
    match makeBareTlfHandle bare with
    | Ok bareHandle =>
        if decide (bareHandle = nb)
        then (Ok tt, MkRootMetadata bare (rmd_data md) (Some newHandle) (rmd_mdID md))
        else (Err (Errorf "bareHandle != newHandle.BareTlfHandle"), md)
    | Err e => (Err e, md)
    | Panic p => (Panic p, md)
    end.

(** ** Signed metadata *)

Definition rmds_IsInitialized (rmds : RootMetadataSigned) : bool := negb (sig_IsNil (rmds_SigInfo rmds)).

Definition PreExtraMetadataVer : Z := 1.
Definition InitialExtraMetadataVer : Z := 2.

Definition rmds_Version (rmds : RootMetadataSigned) : Z :=
  let md := rmds_MD rmds in
  if decide (0 < length (wm_UnresolvedWriters (bm_WriterMetadata md)) ∨
             0 < length (bm_UnresolvedReaders md) ∨ is_Some (bm_ConflictInfo md))
  then InitialExtraMetadataVer else PreExtraMetadataVer.

(** [makeRekeyReadError]. *)
Definition makeRekeyReadError (md : BareRootMetadata) (resolvedHandle : BareTlfHandle) (keyGen : KeyGen)
    (uid : UID) (username : string) : res error :=
  if handle_IsPublic resolvedHandle then Panic "makeRekeyReadError called on public folder"
  else if negb (handle_IsReader resolvedHandle uid) then Ok (ReadAccessError username)
  else match GetTLFCryptPublicKeys md keyGen uid with
       | Some (_ :: _) => Ok NeedSelfRekeyError
       | _ => Ok NeedOtherRekeyError
       end.

(** ** What [CodecUpdate] gives *)

Lemma CodecUpdate_same {A} `{Codec A} (x y : A) : CodecUpdate x = Ok y → y = x.
Proof.
  unfold CodecUpdate. intros (buf & He & Hd)%bind_Ok. rewrite (Decode_Encode x buf He) in Hd. congruence.
Qed.

Lemma CodecUpdate_total {A} `{Codec A, !EncodeTotal A} (x : A) : CodecUpdate x = Ok x.
Proof.
  unfold CodecUpdate. destruct (Encode_total x) as [buf He]. rewrite He. simpl. by apply Decode_Encode.
Qed.
