(* ===== verification/NodeCache.v ===== *)
(** * NodeCache: the nodes of a folder ([node.go], [node_cache.go])

    Node cores and node objects live on two heaps, since the cache, the
    parents and the clients share them: a [nodeStandard] is an index into
    [ncs_stds], whose entry is the index of its core in [ncs_cores].
    Clients hold node objects; the runtime finalizes an object once, when
    nothing refers to it any more, which drops it from [ncs_live]. *)

From Stdlib Require Import ZArith Lia.
From S2P Require Import Prelude Types Errors GoStd Ids DataTypes.

Record nodeCore := MkNodeCore {
  nc_pathNode : pathNode;
  nc_parent : option nat;
  nc_cachedPath : path
}.

Record nodeCacheEntry := MkNodeCacheEntry { nce_core : nat; nce_refCount : Z }.

Record nodeCacheStandard := MkNodeCacheStandard {
  ncs_folderBranch : FolderBranch;
  ncs_nodes : gmap blockRef nodeCacheEntry;
  ncs_cores : list nodeCore;
  ncs_stds : list nat;
  ncs_live : gset nat
}.

(** A value of the interface [Node]. *)
Inductive Node := nilNode | otherNode | stdNode (n : nat).
#[global] Instance Node_eq_dec : EqDecision Node.
Proof. solve_decision. Defined.

Definition zeroRef : blockRef := BlockPointer_ref zeroPtr.
Definition core_ref (c : nodeCore) : blockRef := BlockPointer_ref (pn_BlockPointer (nc_pathNode c)).

Definition set_nodes (f : gmap blockRef nodeCacheEntry → gmap blockRef nodeCacheEntry)
    (s : nodeCacheStandard) : nodeCacheStandard :=
  MkNodeCacheStandard (ncs_folderBranch s) (f (ncs_nodes s)) (ncs_cores s) (ncs_stds s) (ncs_live s).
Definition set_core (c : nat) (core : nodeCore) (s : nodeCacheStandard) : nodeCacheStandard :=
  MkNodeCacheStandard (ncs_folderBranch s) (ncs_nodes s) (<[c := core]> (ncs_cores s)) (ncs_stds s) (ncs_live s).

Definition newNodeCacheStandard (fb : FolderBranch) : nodeCacheStandard :=
  MkNodeCacheStandard fb ∅ [] [] ∅.

Definition newNodeCore (ptr : BlockPointer) (name : string) (parent : option nat) : nodeCore :=
  MkNodeCore (MkPathNode ptr name) parent zeroPath.

(** The core of a node object; nil is dereferenced where there is none. *)
Definition core_of (n : nat) (s : nodeCacheStandard) : option (nat * nodeCore) :=
  c ← ncs_stds s !! n; core ← ncs_cores s !! c; Some (c, core).

Definition ParentID (core : nodeCore) (s : nodeCacheStandard) : option nat :=
  n ← nc_parent core; ncs_stds s !! n.

Definition GetBasename (core : nodeCore) : string :=
  if decide (0 < length (p_path (nc_cachedPath core))) then EmptyString else pn_Name (nc_pathNode core).

Definition forgetLocked (c : nat) (core : nodeCore) (s : nodeCacheStandard) : nodeCacheStandard :=
  let ref := core_ref core in
  match ncs_nodes s !! ref with
  | None => s
  | Some entry =>
      if decide (nce_core entry ≠ c) then s
      else
        let entry := MkNodeCacheEntry (nce_core entry) (nce_refCount entry - 1) in
        set_nodes (if decide (nce_refCount entry <= 0)%Z then delete ref else <[ref := entry]>) s
  end.

(** The finalizer of a node object, which the runtime runs once. *)
Definition nodeStandardFinalizer (n : nat) : go nodeCacheStandard unit := λ s,
  match core_of n s with
  | None => (Panic "nil pointer dereference", s)
  | Some (c, core) =>
      let s := forgetLocked c core s in
      (Ok tt, MkNodeCacheStandard (ncs_folderBranch s) (ncs_nodes s) (ncs_cores s) (ncs_stds s) (ncs_live s ∖ {[n]}))
  end.

Definition newChildForParentLocked (parent : Node) (s : nodeCacheStandard) : res nat :=
  match parent with
  | nilNode | otherNode => Err (ParentNodeNotFoundError zeroRef)
  | stdNode n =>
      match core_of n s with
      | None => Panic "nil pointer dereference"
      | Some (c, core) =>
          match ncs_nodes s !! core_ref core with
          | None => Err (ParentNodeNotFoundError (core_ref core))
          | Some entry =>
              if decide (c ≠ nce_core entry) then Err (ParentNodeNotFoundError (core_ref core)) else Ok n
          end
      end
  end.

(** A new node object for the entry under [ref]. *)
Definition makeNodeStandardForEntry (ref : blockRef) (entry : nodeCacheEntry) : go nodeCacheStandard Node := λ s,
  let n := length (ncs_stds s) in
  (Ok (stdNode n),
   MkNodeCacheStandard (ncs_folderBranch s)
     (<[ref := MkNodeCacheEntry (nce_core entry) (nce_refCount entry + 1)]> (ncs_nodes s))
     (ncs_cores s) (ncs_stds s ++ [nce_core entry]) (ncs_live s ∪ {[n]})).

(** The part of [GetOrCreate] after the lookup. *)
Definition create_node (ptr : BlockPointer) (name : string) (parent : Node) : go nodeCacheStandard Node :=
  s ← get;
  parentNS ← lift_res (match parent with
                       | nilNode => Ok None
                       | _ => Some <$> newChildForParentLocked parent s
                       end);
  let entry := MkNodeCacheEntry (length (ncs_cores s)) 0 in
  _ ← modify (λ s, MkNodeCacheStandard (ncs_folderBranch s) (<[BlockPointer_ref ptr := entry]> (ncs_nodes s))
                (ncs_cores s ++ [newNodeCore ptr name parentNS]) (ncs_stds s) (ncs_live s));
  makeNodeStandardForEntry (BlockPointer_ref ptr) entry.

Definition GetOrCreate (ptr : BlockPointer) (name : string) (parent : Node) : go nodeCacheStandard Node :=
  if negb (BlockPointer_IsValid ptr) then panic "InvalidBlockRefError"
  else if decide (name = EmptyString) then fail (EmptyNameError (BlockPointer_ref ptr))
  else
    s ← get;
    match ncs_nodes s !! BlockPointer_ref ptr with
    | Some entry =>
        match ncs_cores s !! nce_core entry with
        | None => panic "nil pointer dereference"
        | Some core =>
            if decide (parent ≠ nilNode ∧ nc_parent core = None) then
              _ ← modify (set_nodes (delete (BlockPointer_ref ptr)));
              create_node ptr name parent
            else makeNodeStandardForEntry (BlockPointer_ref ptr) entry
        end
    | None => create_node ptr name parent
    end.

Definition Get (ref : blockRef) : go nodeCacheStandard Node :=
  if decide (ref = zeroRef) then mret nilNode
  else if negb (blockRef_IsValid ref) then panic "InvalidBlockRefError"
  else
    s ← get;
    match ncs_nodes s !! ref with
    | None => mret nilNode
    | Some entry => makeNodeStandardForEntry ref entry
    end.

(** What [UpdatePointer], [Move] and [Unlink] do with the core of [ref]. *)
Definition on_entry (ref : blockRef) (f : nodeCacheEntry → nodeCore → go nodeCacheStandard unit)
    : go nodeCacheStandard unit :=
  s ← get;
  match ncs_nodes s !! ref with
  | None => mret tt
  | Some entry =>
      match ncs_cores s !! nce_core entry with
      | None => panic "nil pointer dereference"
      | Some core => f entry core
      end
  end.

Definition UpdatePointer (oldRef : blockRef) (newPtr : BlockPointer) : go nodeCacheStandard unit :=
  if decide (oldRef = zeroRef ∧ newPtr = zeroPtr) then mret tt
  else if negb (blockRef_IsValid oldRef) then panic "invalid oldRef"
  else if negb (BlockPointer_IsValid newPtr) then panic "invalid newPtr"
  else on_entry oldRef (λ entry core,
    if decide (0 < length (p_path (nc_cachedPath core))) then mret tt
    else
      _ ← modify (set_core (nce_core entry)
            (MkNodeCore (MkPathNode newPtr (pn_Name (nc_pathNode core))) (nc_parent core) (nc_cachedPath core)));
      modify (set_nodes (λ m, <[BlockPointer_ref newPtr := entry]> (delete oldRef m)))).

Definition Move (ref : blockRef) (newParent : Node) (newName : string) : go nodeCacheStandard unit :=
  if decide (ref = zeroRef) then mret tt
  else if negb (blockRef_IsValid ref) then panic "InvalidBlockRefError"
  else if decide (newName = EmptyString) then fail (EmptyNameError ref)
  else on_entry ref (λ entry core,
    s ← get;
    newParentNS ← lift_res (newChildForParentLocked newParent s);
    modify (set_core (nce_core entry)
      (MkNodeCore (MkPathNode (pn_BlockPointer (nc_pathNode core)) newName) (Some newParentNS) (nc_cachedPath core)))).

Definition Unlink (ref : blockRef) (oldPath : path) : go nodeCacheStandard unit :=
  if decide (ref = zeroRef) then mret tt
  else if negb (blockRef_IsValid ref) then panic "InvalidBlockRefError"
  else on_entry ref (λ entry core,
    modify (set_core (nce_core entry)
      (MkNodeCore (MkPathNode (pn_BlockPointer (nc_pathNode core)) EmptyString) None oldPath))).

(** The loop of [PathFromNode] from [ns] up, with the path so far, in
    reverse: the reversed path, or the cached path of the first node.
    None is a loop that does not end within [fuel] nodes. *)
Fixpoint walk_up (fuel : nat) (s : nodeCacheStandard) (ns : option nat) (p : list pathNode)
    : option (list pathNode + path) :=
  match fuel, ns with
  | _, None => Some (inl p)
  | O, _ => None
  | S fuel, Some n =>
      '(_, core) ← core_of n s;
      if decide (nc_parent core = None ∧ 0 < length (p_path (nc_cachedPath core))) then
        Some (if decide (length p = 0) then inr (nc_cachedPath core)
              else inl (p ++ reverse (p_path (nc_cachedPath core))))
      else walk_up fuel s (nc_parent core) (p ++ [nc_pathNode core])
  end.

(** No chain of parents without a cycle is longer than the heap of cores. *)
Definition PathFromNode (node : Node) (s : nodeCacheStandard) : option path :=
  match node with
  | nilNode | otherNode => Some zeroPath
  | stdNode n =>
      r ← walk_up (length (ncs_cores s)) s (Some n) [];
      Some (match r with
            | inl p => MkPath (ncs_folderBranch s) (reverse p)
            | inr p => p
            end)
  end.
