(* ===== verification/NodeCacheSpec.v ===== *)
(** * NodeCacheSpec: reference counts and paths of the node cache

    Over every history of calls and finalizations, an entry's count is the
    number of its node objects that are alive and its key is its core's
    current reference; and as long as no node is moved below itself,
    [PathFromNode] returns, with the path that the moves, unlinks and
    pointer updates of the history gave to the node. *)

From Stdlib Require Import ZArith Lia.
From S2P Require Import Prelude Types Errors GoStd Ids DataTypes NodeCache.

(** ** Histories *)

Inductive node_event :=
| EvGetOrCreate (ptr : BlockPointer) (name : string) (parent : Node)
| EvGet (ref : blockRef)
| EvUpdatePointer (oldRef : blockRef) (newPtr : BlockPointer)
| EvMove (ref : blockRef) (newParent : Node) (newName : string)
| EvUnlink (ref : blockRef) (oldPath : path)
| EvFinalize (n : nat).

(** The state after an event; a panic or an error leaves what was done. *)
Definition do_event (e : node_event) (s : nodeCacheStandard) : nodeCacheStandard :=
  match e with
  | EvGetOrCreate ptr name parent => snd (GetOrCreate ptr name parent s)
  | EvGet ref => snd (Get ref s)
  | EvUpdatePointer oldRef newPtr => snd (UpdatePointer oldRef newPtr s)
  | EvMove ref newParent newName => snd (Move ref newParent newName s)
  | EvUnlink ref oldPath => snd (Unlink ref oldPath s)
  | EvFinalize n => if decide (n ∈ ncs_live s) then snd (nodeStandardFinalizer n s) else s
  end.

Definition run_events (es : list node_event) (s : nodeCacheStandard) : nodeCacheStandard :=
  foldl (λ s e, do_event e s) s es.

(** The node objects of a core that are alive. *)
Definition live_nodes (s : nodeCacheStandard) (c : nat) : gset nat :=
  filter (λ n, ncs_stds s !! n = Some c) (ncs_live s).

Record ncs_inv (s : nodeCacheStandard) : Prop := {
  inv_core ref e : ncs_nodes s !! ref = Some e →
    ∃ core, ncs_cores s !! nce_core e = Some core ∧ core_ref core = ref;
  inv_count ref e : ncs_nodes s !! ref = Some e →
    nce_refCount e = Z.of_nat (size (live_nodes s (nce_core e))) ∧ (0 < nce_refCount e)%Z;
  inv_stds n c : ncs_stds s !! n = Some c → c < length (ncs_cores s);
  inv_parent c core n : ncs_cores s !! c = Some core → nc_parent core = Some n → n < length (ncs_stds s);
  inv_live n : n ∈ ncs_live s → n < length (ncs_stds s)
}.

Lemma ncs_inv_new fb : ncs_inv (newNodeCacheStandard fb).
Proof. split; simpl; [done|done|done|done|set_solver]. Qed.

(** Two entries with the same core are one. *)
Lemma inv_core_key s ref ref' e e' :
  ncs_inv s → ncs_nodes s !! ref = Some e → ncs_nodes s !! ref' = Some e' →
  nce_core e = nce_core e' → ref = ref'.
Proof.
  intros Hs (core & Hc & <-)%(inv_core s Hs) (core' & Hc' & <-)%(inv_core s Hs) Heq.
  rewrite Heq in Hc. congruence.
Qed.

Lemma inv_live_lookup s n : ncs_inv s → n ∈ ncs_live s → ∃ c core, core_of n s = Some (c, core).
Proof.
  intros Hs Hn%(inv_live s Hs). apply lookup_lt_is_Some in Hn as [c Hc].
  destruct (lookup_lt_is_Some_2 (ncs_cores s) c) as [core Hcore]; [by eapply inv_stds|].
  exists c, core. unfold core_of. rewrite Hc. simpl. by rewrite Hcore.
Qed.

Lemma core_of_Some s n c core : core_of n s = Some (c, core) ↔ ncs_stds s !! n = Some c ∧ ncs_cores s !! c = Some core.
Proof. unfold core_of. destruct (ncs_stds s !! n) as [c'|] eqn:E; simpl; [destruct (ncs_cores s !! c') eqn:E'|]; naive_solver. Qed.

(** ** The invariant is kept *)

Lemma inv_delete s ref : ncs_inv s → ncs_inv (set_nodes (delete ref) s).
Proof.
  intros [Hco Hct Hst Hpa Hli]. split; simpl; [| |done..].
  - intros ref' e [_ He]%lookup_delete_Some. by apply Hco.
  - intros ref' e [_ He]%lookup_delete_Some. by eapply Hct.
Qed.

Lemma live_nodes_snoc s nodes c c' :
  ncs_inv s →
  live_nodes (MkNodeCacheStandard (ncs_folderBranch s) nodes (ncs_cores s) (ncs_stds s ++ [c'])
    (ncs_live s ∪ {[length (ncs_stds s)]})) c =
  live_nodes s c ∪ (if decide (c = c') then {[length (ncs_stds s)]} else ∅).
Proof.
  intros Hs. apply set_eq. intros n. unfold live_nodes. simpl.
  rewrite elem_of_filter, elem_of_union, elem_of_union, elem_of_filter, elem_of_singleton.
  destruct (decide (n = length (ncs_stds s))) as [->|Hn].
  - rewrite lookup_app_r, Nat.sub_diag by lia. cbn [lookup list_lookup].
    assert (length (ncs_stds s) ∉ ncs_live s) by (intros ?%(inv_live s Hs); lia).
    case_decide; rewrite ?elem_of_singleton, ?elem_of_empty; naive_solver.
  - assert (n ∈ ncs_live s → (ncs_stds s ++ [c']) !! n = ncs_stds s !! n) as Hl.
    { intros Hin%(inv_live s Hs). by apply lookup_app_l. }
    assert (n ∉ (if decide (c = c') then {[length (ncs_stds s)]} else ∅ : gset nat)) as Hout
      by (case_decide; set_solver).
    split.
    + intros [Hst [Hin|?]]; [|done]. left. by rewrite <- Hl.
    + intros [[Hst Hin]|?]; [|done]. split; [by rewrite Hl|by left].
Qed.

Lemma live_nodes_nodes s nodes cores c :
  live_nodes (MkNodeCacheStandard (ncs_folderBranch s) nodes cores (ncs_stds s) (ncs_live s)) c = live_nodes s c.
Proof. done. Qed.

Lemma make_inv s ref e core :
  ncs_inv (set_nodes (delete ref) s) → ncs_cores s !! nce_core e = Some core → core_ref core = ref →
  nce_refCount e = Z.of_nat (size (live_nodes s (nce_core e))) →
  ncs_inv (snd (makeNodeStandardForEntry ref e s)).
Proof.
  intros Hs Hcore Href Hcount. simpl.
  assert (∀ c, live_nodes _ c = _) as Hlive by (intros c; exact (live_nodes_snoc _
    (<[ref := MkNodeCacheEntry (nce_core e) (nce_refCount e + 1)]> (ncs_nodes s)) c (nce_core e) Hs)).
  simpl in Hlive. pose proof Hs as [Hco Hct Hst Hpa Hli]. simpl in *. split; simpl.
  - intros ref' e' [[<- <-]|[Hne He']]%lookup_insert_Some; simpl; [by exists core|].
    apply Hco. by rewrite lookup_delete_ne.
  - intros ref' e' [[<- <-]|[Hne He']]%lookup_insert_Some; simpl; rewrite Hlive.
    + rewrite decide_True by done. rewrite size_union, size_singleton; [|].
      * change (live_nodes (set_nodes (delete ref) s)) with (live_nodes s). lia.
      * intros n. unfold live_nodes. rewrite elem_of_filter, elem_of_singleton. simpl.
        intros [_ Hn] ->. apply Hli in Hn. lia.
    + rewrite decide_False, union_empty_r_L.
      * apply (Hct ref'). by rewrite lookup_delete_ne.
      * intros Heq. destruct (Hco ref' e') as (core' & Hc' & Hr'); [by rewrite lookup_delete_ne|].
        rewrite Heq in Hc'. congruence.
  - intros n c [Hn|[_ Hn]]%lookup_app_Some; [by eapply Hst|].
    apply list_lookup_singleton_Some in Hn as [_ <-]. by eapply lookup_lt_Some.
  - intros c core' n Hc Hn. rewrite length_app. simpl. pose proof (Hpa c core' n Hc Hn). lia.
  - intros n [Hn| ->%elem_of_singleton]%elem_of_union; rewrite length_app; simpl; [apply Hli in Hn|]; lia.
Qed.

Lemma newChild_Ok parent s n : newChildForParentLocked parent s = Ok n →
  parent = stdNode n ∧ ∃ c core, core_of n s = Some (c, core) ∧
    ∃ e, ncs_nodes s !! core_ref core = Some e ∧ nce_core e = c.
Proof.
  destruct parent as [| |m]; [done|done|]. simpl.
  destruct (core_of m s) as [[c core]|] eqn:E; [|done].
  destruct (ncs_nodes s !! core_ref core) as [e|] eqn:Ee; [|done].
  case_decide as Hc; [done|]. intros [= ->]. split; [done|]. exists c, core. split; [done|].
  exists e. split; [done|]. by destruct (decide (nce_core e = c)) as [|Hne]; [|destruct Hc; congruence].
Qed.

Lemma create_inv ptr name parent s :
  ncs_inv s → ncs_nodes s !! BlockPointer_ref ptr = None → ncs_inv (snd (create_node ptr name parent s)).
Proof.
  intros Hs Hnone. unfold create_node, mbind, go_bind, get, lift_res, modify.
  assert (∀ p, (∀ n, p = Some n → n < length (ncs_stds s)) →
    ncs_inv (snd (makeNodeStandardForEntry (BlockPointer_ref ptr) (MkNodeCacheEntry (length (ncs_cores s)) 0)
      (MkNodeCacheStandard (ncs_folderBranch s)
        (<[BlockPointer_ref ptr := MkNodeCacheEntry (length (ncs_cores s)) 0]> (ncs_nodes s))
        (ncs_cores s ++ [newNodeCore ptr name p]) (ncs_stds s) (ncs_live s))))) as Hmake.
  { intros p Hp. pose proof Hs as [Hco Hct Hst Hpa Hli].
    apply (make_inv _ _ _ (newNodeCore ptr name p)); simpl.
    - unfold set_nodes. simpl. rewrite delete_insert_eq, delete_id by done. split; simpl.
      + intros ref e (core & Hc & Hr)%Hco. exists core. split; [|done]. by apply lookup_app_l_Some.
      + intros ref e He. by apply (Hct ref).
      + intros n c Hn%Hst. rewrite length_app. simpl. lia.
      + intros c core n [Hc|[_ Hc]]%lookup_app_Some; [by apply (Hpa c)|].
        apply list_lookup_singleton_Some in Hc as [_ <-]. simpl. apply Hp.
      + done.
    - by rewrite lookup_app_r, Nat.sub_diag.
    - done.
    - rewrite live_nodes_nodes. replace (live_nodes s _) with (∅ : gset nat); [done|].
      symmetry. apply set_eq. intros n. unfold live_nodes. rewrite elem_of_filter. split; [|done].
      intros [Hn%Hst _]. lia. }
  destruct parent as [| |m].
  - apply Hmake. done.
  - done.
  - destruct (newChildForParentLocked (stdNode m) s) as [n|e|p] eqn:E; simpl; [|done..].
    apply Hmake. intros n' [= ->]. apply newChild_Ok in E as (_ & c & core & Hcore & _).
    apply core_of_Some in Hcore as [Hn _]. by eapply lookup_lt_Some.
Qed.

Lemma GetOrCreate_inv ptr name parent s : ncs_inv s → ncs_inv (snd (GetOrCreate ptr name parent s)).
Proof.
  intros Hs. unfold GetOrCreate. destruct (negb _); [done|]. case_decide; [done|].
  unfold mbind at 1, go_bind at 1, get at 1.
  destruct (ncs_nodes s !! BlockPointer_ref ptr) as [e|] eqn:Ee; [|by apply create_inv].
  destruct (inv_core s Hs _ _ Ee) as (core & Hcore & Href). rewrite Hcore. case_decide.
  - unfold mbind, go_bind, modify. apply create_inv; [by apply inv_delete|]. apply lookup_delete_eq.
  - eapply make_inv; [by apply inv_delete|done|done|]. by apply (inv_count s Hs _ _ Ee).
Qed.

(** For a valid pointer and a parent that is a node of the cache, it does
    not panic. *)
Lemma create_node_safe ptr name parent s p :
  ncs_inv s → (∀ n, parent = stdNode n → n < length (ncs_stds s)) → fst (create_node ptr name parent s) ≠ Panic p.
Proof.
  intros Hs Hpar. unfold create_node, mbind, go_bind, get. destruct parent as [| |n]; [done|done|].
  destruct (lookup_lt_is_Some_2 (ncs_stds s) n (Hpar n eq_refl)) as [c Hc].
  destruct (lookup_lt_is_Some_2 (ncs_cores s) c (inv_stds s Hs _ _ Hc)) as [core Hcore].
  unfold newChildForParentLocked. rewrite (proj2 (core_of_Some s n c core) (conj Hc Hcore)).
  destruct (ncs_nodes s !! core_ref core); [|done]. by case_decide.
Qed.
Lemma GetOrCreate_safe ptr name parent s p :
  ncs_inv s → BlockPointer_IsValid ptr = true → (∀ n, parent = stdNode n → n < length (ncs_stds s)) →
  fst (GetOrCreate ptr name parent s) ≠ Panic p.
Proof.
  intros Hs Hv Hpar. unfold GetOrCreate. rewrite Hv. cbn [negb]. case_decide; [done|].
  unfold mbind at 1, go_bind at 1, get at 1.
  destruct (ncs_nodes s !! BlockPointer_ref ptr) as [e|] eqn:Ee; [|by apply create_node_safe].
  destruct (inv_core s Hs _ _ Ee) as (core & Hcore & Href). rewrite Hcore. case_decide; [|done].
  unfold mbind, go_bind, modify. apply create_node_safe; [by apply inv_delete|done].
Qed.

Lemma Get_inv ref s : ncs_inv s → ncs_inv (snd (Get ref s)).
Proof.
  intros Hs. unfold Get. case_decide; [done|]. destruct (negb _); [done|].
  unfold mbind, go_bind, get. destruct (ncs_nodes s !! ref) as [e|] eqn:Ee; [|done].
  destruct (inv_core s Hs _ _ Ee) as (core & Hcore & Href).
  eapply make_inv; [by apply inv_delete|done|done|]. by apply (inv_count s Hs _ _ Ee).
Qed.

(** A change of a core that keeps its reference. *)
Lemma set_core_inv s c core core' :
  ncs_inv s → ncs_cores s !! c = Some core → core_ref core' = core_ref core →
  (∀ n, nc_parent core' = Some n → n < length (ncs_stds s)) → ncs_inv (set_core c core' s).
Proof.
  intros [Hco Hct Hst Hpa Hli] Hc Href Hp. split; simpl.
  - intros ref e (core0 & Hc0 & Hr0)%Hco. destruct (decide (nce_core e = c)) as [Heq|Hne].
    + exists core'. rewrite Heq in Hc0 |- *. rewrite list_lookup_insert_eq by (by eapply lookup_lt_Some). split; [done|]. congruence.
    + exists core0. by rewrite list_lookup_insert_ne.
  - intros ref e He. by apply (Hct ref).
  - intros n c' Hn%Hst. by rewrite length_insert.
  - intros c' core0 n [(-> & <- & _)|[_ Hc0]]%list_lookup_insert_Some; [apply Hp|by apply (Hpa c')].
  - done.
Qed.

Lemma on_entry_inv (P : nodeCacheStandard → Prop) ref f s :
  ncs_inv s → P s →
  (∀ e core, ncs_nodes s !! ref = Some e → ncs_cores s !! nce_core e = Some core → core_ref core = ref →
     P (snd (f e core s))) →
  P (snd (on_entry ref f s)).
Proof.
  intros Hs HP Hf. unfold on_entry, mbind, go_bind, get.
  destruct (ncs_nodes s !! ref) as [e|] eqn:Ee; [|done].
  destruct (inv_core s Hs _ _ Ee) as (core & Hcore & Href). rewrite Hcore. by apply Hf.
Qed.

Lemma UpdatePointer_inv oldRef newPtr s : ncs_inv s → ncs_inv (snd (UpdatePointer oldRef newPtr s)).
Proof.
  intros Hs. unfold UpdatePointer. case_decide; [done|]. destruct (negb _); [done|]. destruct (negb _); [done|].
  apply (on_entry_inv ncs_inv); [done|done|]. intros e core Ee Hcore Href. case_decide; [done|].
  unfold mbind, go_bind, modify. simpl. pose proof Hs as [Hco Hct Hst Hpa Hli]. split; simpl.
  - intros ref e' [[<- <-]|[Hne [Hold He']%lookup_delete_Some]]%lookup_insert_Some.
    + eexists. split; [apply list_lookup_insert_eq; by eapply lookup_lt_Some|done].
    + destruct (Hco _ _ He') as (core' & Hc' & Hr'). exists core'. split; [|done].
      rewrite list_lookup_insert_ne; [done|]. intros Heq. apply Hold. by eapply (inv_core_key s).
  - intros ref e' [[<- <-]|[Hne [Hold He']%lookup_delete_Some]]%lookup_insert_Some; [by apply (Hct oldRef)|by apply (Hct ref)].
  - intros n c Hn%Hst. by rewrite length_insert.
  - intros c core0 n [(<- & <- & _)|[_ Hc0]]%list_lookup_insert_Some; [by apply (Hpa (nce_core e) core)|by apply (Hpa c)].
  - done.
Qed.

Lemma Move_inv ref newParent newName s : ncs_inv s → ncs_inv (snd (Move ref newParent newName s)).
Proof.
  intros Hs. unfold Move. case_decide; [done|]. destruct (negb _); [done|]. case_decide; [done|].
  apply (on_entry_inv ncs_inv); [done|done|]. intros e core Ee Hcore Href. unfold mbind, go_bind, get, lift_res.
  destruct (newChildForParentLocked newParent s) as [n|er|p] eqn:E; [|done..].
  apply (set_core_inv _ _ core); [done|done|done|]. intros n' [= <-].
  apply newChild_Ok in E as (_ & c & core0 & [Hn _]%core_of_Some & _). by eapply lookup_lt_Some.
Qed.

Lemma Unlink_inv ref oldPath s : ncs_inv s → ncs_inv (snd (Unlink ref oldPath s)).
Proof.
  intros Hs. unfold Unlink. case_decide; [done|]. destruct (negb _); [done|].
  apply (on_entry_inv ncs_inv); [done|done|]. intros e core Ee Hcore Href.
  by apply (set_core_inv _ _ core).
Qed.

(** The last object of a core takes its entry along. *)
Lemma live_nodes_final s nodes n c c' :
  ncs_stds s !! n = Some c → n ∈ ncs_live s →
  Z.of_nat (size (live_nodes (MkNodeCacheStandard (ncs_folderBranch s) nodes (ncs_cores s) (ncs_stds s) (ncs_live s ∖ {[n]})) c')) =
  (Z.of_nat (size (live_nodes s c')) - if decide (c' = c) then 1 else 0)%Z.
Proof.
  intros Hn Hin. replace (live_nodes _ c') with (live_nodes s c' ∖ {[n]}) by (unfold live_nodes; simpl; set_solver).
  case_decide as Hc.
  - subst c'. assert (n ∈ live_nodes s c) as Hl by (by apply elem_of_filter).
    rewrite size_difference by set_solver. rewrite size_singleton.
    assert (size (live_nodes s c) ≠ 0); [|lia]. intros H0%size_empty_inv. set_solver.
  - replace (live_nodes s c' ∖ {[n]}) with (live_nodes s c'); [lia|].
    apply set_eq. intros m. unfold live_nodes. rewrite elem_of_difference, elem_of_filter, elem_of_singleton. naive_solver.
Qed.

Lemma Finalize_inv n s : ncs_inv s → n ∈ ncs_live s → ncs_inv (snd (nodeStandardFinalizer n s)).
Proof.
  intros Hs Hn. destruct (inv_live_lookup s n Hs Hn) as (c & core & Hcore).
  unfold nodeStandardFinalizer. rewrite Hcore. apply core_of_Some in Hcore as [Hstd Hcore].
  pose proof Hs as [Hco Hct Hst Hpa Hli]. pose proof (λ nodes c', live_nodes_final s nodes n c c' Hstd Hn) as Hlive.
  assert (∀ ref e, ncs_nodes s !! ref = Some e → nce_core e = c → ref = core_ref core) as Hkey.
  { intros ref e (core' & Hc' & <-)%Hco Heq. rewrite Heq in Hc'. congruence. }
  assert (∀ nodes, (∀ ref e, nodes !! ref = Some e →
      ∃ e0, ncs_nodes s !! ref = Some e0 ∧ nce_core e = nce_core e0 ∧ (0 < nce_refCount e)%Z ∧
        nce_refCount e = (nce_refCount e0 - if decide (nce_core e0 = c) then 1 else 0)%Z) →
    ncs_inv (MkNodeCacheStandard (ncs_folderBranch s) nodes (ncs_cores s) (ncs_stds s) (ncs_live s ∖ {[n]}))) as Hall.
  { intros nodes Hnodes. split; cbn [ncs_nodes ncs_cores ncs_stds ncs_live].
    - intros ref e (e0 & He0 & Hcc & _)%Hnodes. rewrite Hcc. by apply Hco.
    - intros ref e (e0 & He0 & Hcc & Hpos & Hcount)%Hnodes. rewrite Hlive, Hcc.
      destruct (Hct _ _ He0) as [Hc0 _]. split; [|done]. lia.
    - done.
    - done.
    - intros m [Hm _]%elem_of_difference. auto. }
  assert (∀ ref e, ncs_nodes s !! ref = Some e → nce_core e ≠ c →
    (0 < nce_refCount e)%Z ∧ nce_refCount e = (nce_refCount e - if decide (nce_core e = c) then 1 else 0)%Z) as Hother.
  { intros ref e He Hne. rewrite decide_False by done. split; [by eapply Hct|lia]. }
  unfold forgetLocked. destruct (ncs_nodes s !! core_ref core) as [e|] eqn:Ee; simpl.
  2:{ apply Hall. intros ref e He. exists e. split; [done|]. split; [done|]. apply (Hother ref); [done|].
      intros Heq. pose proof (Hkey _ _ He Heq). congruence. }
  case_decide as Hc; simpl.
  { apply Hall. intros ref e' He. exists e'. split; [done|]. split; [done|]. apply (Hother ref); [done|].
    intros Heq. pose proof (Hkey _ _ He Heq) as ->. congruence. }
  case_decide as Hle; simpl; apply Hall; intros ref e'.
  - intros [Hne He]%lookup_delete_Some. exists e'. split; [done|]. split; [done|]. apply (Hother ref); [done|].
    intros Heq. by destruct Hne; rewrite (Hkey _ _ He Heq).
  - intros [[<- <-]|[Hne He]]%lookup_insert_Some.
    + exists e. split; [done|]. split; [done|]. simpl. rewrite decide_True by done. lia.
    + exists e'. split; [done|]. split; [done|]. apply (Hother ref); [done|].
      intros Heq. by destruct Hne; rewrite (Hkey _ _ He Heq).
Qed.

Lemma do_event_inv e s : ncs_inv s → ncs_inv (do_event e s).
Proof.
  intros Hs. destruct e; simpl; [by apply GetOrCreate_inv|by apply Get_inv|by apply UpdatePointer_inv|by apply Move_inv|by apply Unlink_inv|].
  case_decide; [by apply Finalize_inv|done].
Qed.

Lemma run_events_inv es s : ncs_inv s → ncs_inv (run_events es s).
Proof. revert s. induction es as [|e es IH]; intros s Hs; [done|]. by apply IH, do_event_inv. Qed.

(** ** Nodes that are alive stay in the cache *)

(** The cache finds the core of node object [n] under its reference. *)
Definition cached (s : nodeCacheStandard) (n : nat) : Prop :=
  ∃ c core e, core_of n s = Some (c, core) ∧ ncs_nodes s !! core_ref core = Some e ∧ nce_core e = c.

(** The event gives the reference of [n]'s core to another core: a node
    without a parent is created again with one (its entry goes even if the
    parent then turns out not to be in the cache), or another node gets the
    same pointer. *)
Definition replaces (s : nodeCacheStandard) (n : nat) (e : node_event) : Prop :=
  ∃ c core, core_of n s = Some (c, core) ∧
  match e with
  | EvGetOrCreate ptr _ parent =>
      core_ref core = BlockPointer_ref ptr ∧ parent ≠ nilNode ∧ nc_parent core = None
  | EvUpdatePointer oldRef newPtr =>
      core_ref core = BlockPointer_ref newPtr ∧ oldRef ≠ BlockPointer_ref newPtr ∧
      is_Some (ncs_nodes s !! oldRef)
  | _ => False
  end.

Fixpoint never_replaced (es : list node_event) (s : nodeCacheStandard) (n : nat) : Prop :=
  match es with
  | [] => True
  | e :: es => ¬ replaces s n e ∧ never_replaced es (do_event e s) n
  end.

(** Objects and cores that the cache adds do not disturb [n]. *)
Lemma cached_grow s s' n :
  cached s n → ncs_stds s `prefix_of` ncs_stds s' → ncs_cores s `prefix_of` ncs_cores s' →
  (∀ c core e, core_of n s = Some (c, core) → ncs_nodes s !! core_ref core = Some e → nce_core e = c →
     ∃ e', ncs_nodes s' !! core_ref core = Some e' ∧ nce_core e' = nce_core e) →
  cached s' n.
Proof.
  intros (c & core & e & Hn & He & Hc) Hst Hco Hkeep. destruct (Hkeep _ _ _ Hn He Hc) as (e' & He' & Hc').
  apply core_of_Some in Hn as [Hn Hcore]. exists c, core, e'. split; [|by rewrite Hc'].
  apply core_of_Some. split; by eapply prefix_lookup_Some.
Qed.

(** A core changes and keeps its reference. *)
Lemma cached_set_core s n c core core' :
  cached s n → ncs_cores s !! c = Some core → core_ref core' = core_ref core → cached (set_core c core' s) n.
Proof.
  intros (cn & coren & e & [Hn Hcn]%core_of_Some & He & Hc) Hcore Href.
  destruct (decide (cn = c)) as [->|Hne].
  - exists c, core', e. assert (coren = core) as -> by congruence. rewrite Href. split; [|done].
    apply core_of_Some. simpl. split; [done|]. apply list_lookup_insert_eq. by eapply lookup_lt_Some.
  - exists cn, coren, e. split; [|done]. apply core_of_Some. simpl. split; [done|].
    by rewrite list_lookup_insert_ne.
Qed.

Lemma make_cached s ref e n :
  cached s n → (∀ c core, core_of n s = Some (c, core) → core_ref core = ref → c = nce_core e) →
  cached (snd (makeNodeStandardForEntry ref e s)) n.
Proof.
  intros Hn Hsame. eapply (cached_grow s); [done|by eexists|done|]. simpl.
  intros c core e' Hc He' Hcc. destruct (decide (ref = core_ref core)) as [Heq|Hne].
  - rewrite Heq, lookup_insert_eq. eexists. split; [done|]. simpl. rewrite Hcc. symmetry. by eapply Hsame.
  - rewrite lookup_insert_ne by done. by exists e'.
Qed.

Lemma create_cached ptr name parent s n :
  cached s n → (∀ c core, core_of n s = Some (c, core) → core_ref core ≠ BlockPointer_ref ptr) →
  cached (snd (create_node ptr name parent s)) n.
Proof.
  intros Hn Hother. unfold create_node, mbind, go_bind, get, lift_res, modify.
  destruct (match parent with nilNode => Ok None | _ => Some <$> newChildForParentLocked parent s end)
    as [p|e|e]; [|done..]. simpl.
  eapply (cached_grow s); [done|by eexists|by eexists|]. simpl. intros c core e' Hc He' _.
  rewrite !lookup_insert_ne by (intros Heq; by apply (Hother c core)). by exists e'.
Qed.

Lemma cached_core s n c core e :
  cached s n → core_of n s = Some (c, core) → ncs_nodes s !! core_ref core = Some e → nce_core e = c.
Proof. intros (c' & core' & e' & Hn & He & Hc) Hn' He'. rewrite Hn in Hn'. by simplify_eq. Qed.

Lemma GetOrCreate_cached ptr name parent s n :
  ncs_inv s → cached s n → ¬ replaces s n (EvGetOrCreate ptr name parent) →
  cached (snd (GetOrCreate ptr name parent s)) n.
Proof.
  intros Hs Hn Hrep. unfold GetOrCreate. destruct (negb _); [done|]. case_decide; [done|].
  unfold mbind at 1, go_bind at 1, get at 1.
  destruct (ncs_nodes s !! BlockPointer_ref ptr) as [e|] eqn:Ee.
  - destruct (inv_core s Hs _ _ Ee) as (core & Hcore & Href). rewrite Hcore.
    assert (∀ c core', core_of n s = Some (c, core') → core_ref core' = BlockPointer_ref ptr →
      c = nce_core e ∧ core' = core) as Hown.
    { intros c core' Hc Hr. rewrite <- Hr in Ee. pose proof (cached_core _ _ _ _ _ Hn Hc Ee) as <-.
      split; [done|]. apply core_of_Some in Hc as [_ Hc]. congruence. }
    case_decide as Hd.
    + unfold mbind, go_bind, modify.
      assert (∀ c core', core_of n s = Some (c, core') → core_ref core' ≠ BlockPointer_ref ptr) as Hother.
      { intros c core' Hc Hr. destruct (Hown _ _ Hc Hr) as [-> ->]. apply Hrep. exists (nce_core e), core.
        tauto. }
      apply create_cached; [|done]. destruct Hn as (c & core' & e' & Hc & He' & Hcc).
      exists c, core', e'. split; [done|]. split; [|done]. simpl.
      rewrite lookup_delete_ne; [done|]. intros Heq. by apply (Hother c core').
    + apply make_cached; [done|]. intros c core' Hc Hr. by destruct (Hown _ _ Hc Hr).
  - apply create_cached; [done|]. intros c core Hc Hr. destruct Hn as (c' & core' & e' & Hc' & He' & _).
    rewrite Hc in Hc'. simplify_eq. congruence.
Qed.

Lemma UpdatePointer_cached oldRef newPtr s n :
  ncs_inv s → cached s n → ¬ replaces s n (EvUpdatePointer oldRef newPtr) →
  cached (snd (UpdatePointer oldRef newPtr s)) n.
Proof.
  intros Hs Hn Hrep. unfold UpdatePointer. case_decide; [done|]. destruct (negb _); [done|].
  destruct (negb _); [done|]. apply (on_entry_inv (λ s', cached s' n)); [done|done|].
  intros e core Ee Hcore Href. case_decide; [done|]. unfold mbind, go_bind, modify. simpl.
  destruct Hn as (c & coren & en & Hc & Hen & Hcc). pose proof Hc as [Hstd Hcn]%core_of_Some.
  destruct (decide (c = nce_core e)) as [->|Hne].
  - eexists (nce_core e), _, e. rewrite core_of_Some. simpl.
    rewrite list_lookup_insert_eq by (by eapply lookup_lt_Some). split; [done|]. by rewrite lookup_insert_eq.
  - exists c, coren, en. rewrite core_of_Some. simpl. rewrite list_lookup_insert_ne by done.
    split; [done|]. split; [|done].
    assert (core_ref coren ≠ oldRef) as Hold by (intros <-; congruence).
    rewrite lookup_insert_ne, lookup_delete_ne; [done|done|]. intros Hnew. apply Hrep. exists c, coren.
    split; [done|]. split; [done|]. split; [congruence|by eexists].
Qed.

Lemma Finalize_cached n m s :
  ncs_inv s → cached s n → n ∈ ncs_live s → m ∈ ncs_live s → n ≠ m →
  cached (snd (nodeStandardFinalizer m s)) n.
Proof.
  intros Hs (c & core & e & Hc & He & Hcc) Hn Hm Hne. destruct (inv_live_lookup s m Hs Hm) as (cm & corem & Hcm).
  unfold nodeStandardFinalizer. rewrite Hcm. simpl. apply core_of_Some in Hc as [Hstd Hcore].
  apply core_of_Some in Hcm as [Hstdm Hcorem].
  assert (∃ e', ncs_nodes (forgetLocked cm corem s) !! core_ref core = Some e' ∧ nce_core e' = c) as (e' & He' & Hc').
  { unfold forgetLocked. destruct (ncs_nodes s !! core_ref corem) as [em|] eqn:Em; [|by exists e].
    case_decide as Hd; [by exists e|].
    destruct (decide (core_ref corem = core_ref core)) as [Heq|Hdiff]; simpl.
    - rewrite Heq in Em |- *. rewrite He in Em. simplify_eq.
      rewrite decide_False, lookup_insert_eq; [by eexists|].
      destruct (inv_count s Hs _ _ He) as [-> _].
      assert ({[n; m]} ⊆ live_nodes s (nce_core em)) as Hsub%subseteq_size.
      { intros x [->%elem_of_singleton| ->%elem_of_singleton]%elem_of_union; by apply elem_of_filter. }
      rewrite size_union, !size_singleton in Hsub by set_solver. lia.
    - exists e. case_decide; simpl; [rewrite lookup_delete_ne|rewrite lookup_insert_ne]; done. }
  exists c, core, e'. split; [|done]. apply core_of_Some. simpl.
  assert (ncs_stds (forgetLocked cm corem s) = ncs_stds s ∧ ncs_cores (forgetLocked cm corem s) = ncs_cores s)
    as [-> ->] by (unfold forgetLocked; by repeat case_match). done.
Qed.

Lemma do_event_cached e s n :
  ncs_inv s → cached s n → n ∈ ncs_live s → n ∈ ncs_live (do_event e s) → ¬ replaces s n e →
  cached (do_event e s) n.
Proof.
  intros Hs Hn Hlive Hlive' Hrep. destruct e as [ptr name parent|ref|oldRef newPtr|ref np nn|ref op|m]; simpl in *.
  - by apply GetOrCreate_cached.
  - unfold Get. case_decide; [done|]. destruct (negb _); [done|].
    unfold mbind, go_bind, get. destruct (ncs_nodes s !! ref) as [e|] eqn:Ee; [|done].
    apply make_cached; [done|]. intros c core Hc <-. symmetry. by eapply cached_core.
  - by apply UpdatePointer_cached.
  - unfold Move. case_decide; [done|]. destruct (negb _); [done|]. case_decide; [done|].
    apply (on_entry_inv (λ s', cached s' n)); [done|done|]. intros e core Ee Hcore Href.
    unfold mbind, go_bind, get, lift_res. destruct (newChildForParentLocked np s); [|done..].
    by apply (cached_set_core _ _ _ core).
  - unfold Unlink. case_decide; [done|]. destruct (negb _); [done|].
    apply (on_entry_inv (λ s', cached s' n)); [done|done|]. intros e core Ee Hcore Href.
    by apply (cached_set_core _ _ _ core).
  - case_decide as Hm; [|done]. destruct (decide (n = m)) as [->|Hne]; [|by apply Finalize_cached].
    destruct (inv_live_lookup s m Hs Hm) as (c & core & Hcm).
    unfold nodeStandardFinalizer in Hlive'. rewrite Hcm in Hlive'. simpl in Hlive'. set_solver.
Qed.

(** Node objects are only added, and one that is dead stays dead. *)
Definition adds_nodes (s s' : nodeCacheStandard) : Prop :=
  ncs_stds s `prefix_of` ncs_stds s' ∧ ∀ n, n ∈ ncs_live s' → n ∈ ncs_live s ∨ length (ncs_stds s) <= n.

Lemma adds_nodes_same s s' : ncs_stds s' = ncs_stds s → ncs_live s' = ncs_live s → adds_nodes s s'.
Proof. intros E1 E2. unfold adds_nodes. rewrite E1, E2. split; [done|]. by left. Qed.

Lemma create_adds ptr name parent s0 s :
  ncs_stds s = ncs_stds s0 → ncs_live s = ncs_live s0 → adds_nodes s0 (snd (create_node ptr name parent s)).
Proof.
  intros E1 E2. unfold create_node, mbind, go_bind, get, lift_res, modify.
  destruct (match parent with nilNode => Ok None | _ => Some <$> newChildForParentLocked parent s end)
    as [p|e|e]; [|by apply adds_nodes_same..].
  unfold adds_nodes. simpl. rewrite E1, E2. split; [by eexists|].
  intros n [Hn| ->%elem_of_singleton]%elem_of_union; auto.
Qed.

Lemma do_event_adds e s : adds_nodes s (do_event e s).
Proof.
  destruct e as [ptr name parent|ref|oldRef newPtr|ref np nn|ref op|m]; simpl.
  - unfold GetOrCreate, mbind at 1, go_bind at 1, get at 1.
    repeat (case_match; try by apply adds_nodes_same); try by apply create_adds.
    unfold adds_nodes. simpl. split; [by eexists|]. intros k [Hk| ->%elem_of_singleton]%elem_of_union; auto.
  - unfold Get, mbind, go_bind, get. repeat (case_match; try by apply adds_nodes_same).
    unfold adds_nodes. simpl. split; [by eexists|]. intros k [Hk| ->%elem_of_singleton]%elem_of_union; auto.
  - unfold UpdatePointer, on_entry, modify, mbind, go_bind, get.
    by repeat case_match; simplify_eq; apply adds_nodes_same.
  - unfold Move, on_entry, mbind, go_bind, get, lift_res, modify.
    by repeat case_match; simplify_eq; apply adds_nodes_same.
  - unfold Unlink, on_entry, modify, mbind, go_bind, get. by repeat case_match; simplify_eq; apply adds_nodes_same.
  - case_decide; [|by apply adds_nodes_same]. unfold nodeStandardFinalizer. case_match; [|by apply adds_nodes_same].
    case_match. unfold adds_nodes, forgetLocked. simpl.
    repeat case_match; simpl; (split; [done|set_solver]).
Qed.

Lemma run_events_live es s n :
  n < length (ncs_stds s) → n ∈ ncs_live (run_events es s) → n ∈ ncs_live s.
Proof.
  revert s. induction es as [|e es IH]; intros s Hlt Hn; [done|]. simpl in Hn.
  destruct (do_event_adds e s) as [Hpre Hold].
  destruct (Hold n) as [?|?]; [|done|lia]. apply IH; [|done]. apply prefix_length in Hpre. lia.
Qed.

Lemma run_events_cached es s n :
  ncs_inv s → cached s n → n ∈ ncs_live (run_events es s) → never_replaced es s n →
  cached (run_events es s) n.
Proof.
  revert s. induction es as [|e es IH]; intros s Hs Hn Hlive Hrep; [done|]. simpl in *.
  destruct Hrep as [Hrep Hreps].
  assert (n < length (ncs_stds s)) as Hlt.
  { destruct Hn as (c & core & _ & [Hc _]%core_of_Some & _). by eapply lookup_lt_Some. }
  destruct (do_event_adds e s) as [Hpre%prefix_length Hold].
  assert (n ∈ ncs_live (do_event e s)) as Hmid by (apply (run_events_live es); [lia|done]).
  apply IH; [by apply do_event_inv| |done|done]. apply do_event_cached; try done.
  destruct (Hold n Hmid); [done|lia].
Qed.

(** What [GetOrCreate] and [Get] hand out is cached under its pointer. *)
Lemma make_returns s ref e core :
  ncs_cores s !! nce_core e = Some core → core_ref core = ref →
  let s' := snd (makeNodeStandardForEntry ref e s) in let n := length (ncs_stds s) in
  n ∈ ncs_live s' ∧ cached s' n ∧ ∃ c core', core_of n s' = Some (c, core') ∧ core_ref core' = ref.
Proof.
  intros Hcore Href s' n. assert (core_of n s' = Some (nce_core e, core)) as Hn.
  { apply core_of_Some. simpl. by rewrite lookup_app_r, Nat.sub_diag. }
  split; [simpl; set_solver|]. split; [|by eauto]. eexists _, _, _. split; [done|].
  simpl. rewrite Href, lookup_insert_eq. done.
Qed.

Lemma create_returns ptr name parent s n s' :
  create_node ptr name parent s = (Ok (stdNode n), s') →
  n ∈ ncs_live s' ∧ cached s' n ∧ ∃ c core, core_of n s' = Some (c, core) ∧ core_ref core = BlockPointer_ref ptr.
Proof.
  unfold create_node, mbind, go_bind, get, lift_res, modify.
  destruct (match parent with nilNode => Ok None | _ => Some <$> newChildForParentLocked parent s end)
    as [p|e|e]; [|done..]. intros [= <- <-].
  refine (make_returns (MkNodeCacheStandard (ncs_folderBranch s)
    (<[BlockPointer_ref ptr := MkNodeCacheEntry (length (ncs_cores s)) 0]> (ncs_nodes s))
    (ncs_cores s ++ [newNodeCore ptr name p]) (ncs_stds s) (ncs_live s)) _
    (MkNodeCacheEntry (length (ncs_cores s)) 0) (newNodeCore ptr name p) _ eq_refl).
  simpl. by rewrite lookup_app_r, Nat.sub_diag.
Qed.

Lemma GetOrCreate_returns ptr name parent s n s' :
  ncs_inv s → GetOrCreate ptr name parent s = (Ok (stdNode n), s') →
  n ∈ ncs_live s' ∧ cached s' n ∧ ∃ c core, core_of n s' = Some (c, core) ∧ core_ref core = BlockPointer_ref ptr.
Proof.
  intros Hs. unfold GetOrCreate. destruct (negb _); [done|]. case_decide; [done|].
  unfold mbind at 1, go_bind at 1, get at 1.
  destruct (ncs_nodes s !! BlockPointer_ref ptr) as [e|] eqn:Ee; [|apply create_returns].
  destruct (inv_core s Hs _ _ Ee) as (core & Hcore & Href). rewrite Hcore. case_decide.
  - unfold mbind, go_bind, modify. apply create_returns.
  - intros [= <- <-]. exact (make_returns s _ e core Hcore Href).
Qed.

Lemma Get_returns ref s n s' :
  ncs_inv s → Get ref s = (Ok (stdNode n), s') →
  n ∈ ncs_live s' ∧ cached s' n ∧ ∃ c core, core_of n s' = Some (c, core) ∧ core_ref core = ref.
Proof.
  intros Hs. unfold Get. case_decide; [done|]. destruct (negb _); [done|].
  unfold mbind, go_bind, get. destruct (ncs_nodes s !! ref) as [e|] eqn:Ee; [|done].
  destruct (inv_core s Hs _ _ Ee) as (core & Hcore & Href).
  intros [= <- <-]. exact (make_returns s _ e core Hcore Href).
Qed.

(** C32. The cache neither leaks nor forgets.  After any history of calls
    and finalizations: each entry is under the reference its core has now,
    no core has two entries, the count of an entry is the number of its
    node objects that are alive and is positive, and when no node object is
    alive the cache is empty.  A node that [GetOrCreate] or [Get] returns
    is alive and found under the pointer it was asked for.  And through any
    further history a node that stays alive stays in the cache, under the
    reference its core has then, unless an event gives that reference to
    another core ([replaces]: a node without a parent is created again with
    one, or another node's pointer is updated to the same pointer). *)
Theorem node_cache_counts fb es : let s := run_events es (newNodeCacheStandard fb) in
  (∀ ref e, ncs_nodes s !! ref = Some e →
     (∃ core, ncs_cores s !! nce_core e = Some core ∧ core_ref core = ref) ∧
     nce_refCount e = Z.of_nat (size (live_nodes s (nce_core e))) ∧ (0 < nce_refCount e)%Z) ∧
  (∀ ref ref' e e', ncs_nodes s !! ref = Some e → ncs_nodes s !! ref' = Some e' →
     nce_core e = nce_core e' → ref = ref') ∧
  (ncs_live s = ∅ → ncs_nodes s = ∅) ∧
  (∀ ptr name parent n s', GetOrCreate ptr name parent s = (Ok (stdNode n), s') →
     n ∈ ncs_live s' ∧ cached s' n ∧
     ∃ c core, core_of n s' = Some (c, core) ∧ core_ref core = BlockPointer_ref ptr) ∧
  (∀ ref n s', Get ref s = (Ok (stdNode n), s') →
     n ∈ ncs_live s' ∧ cached s' n ∧ ∃ c core, core_of n s' = Some (c, core) ∧ core_ref core = ref) ∧
  (∀ es' n, cached s n → n ∈ ncs_live (run_events es' s) → never_replaced es' s n →
     cached (run_events es' s) n).
Proof.
  intros s. assert (ncs_inv s) as Hs by apply run_events_inv, ncs_inv_new.
  split_and!.
  - intros ref e He. split; [by apply (inv_core s Hs)|by apply (inv_count s Hs ref)].
  - intros ref ref' e e'. by apply inv_core_key.
  - intros Hlive. apply map_empty. intros ref. destruct (ncs_nodes s !! ref) as [e|] eqn:He; [|done].
    destruct (inv_count s Hs _ _ He) as [Hc Hpos]. unfold live_nodes in Hc. rewrite Hlive in Hc.
    replace (filter _ ∅) with (∅ : gset nat) in Hc by set_solver. rewrite size_empty in Hc. lia.
  - intros ptr name parent n s'. by apply GetOrCreate_returns.
  - intros ref n s'. by apply Get_returns.
  - intros es' n. by apply run_events_cached.
Qed.

(** ** Chains of parents *)

(** The cores from [c] up to one without a parent. *)
Inductive upchain (s : nodeCacheStandard) : nat → list nat → Prop :=
| up_root c core : ncs_cores s !! c = Some core → nc_parent core = None → upchain s c [c]
| up_step c core n c' l : ncs_cores s !! c = Some core → nc_parent core = Some n →
    ncs_stds s !! n = Some c' → upchain s c' l → upchain s c (c :: l).

Definition all_rooted (s : nodeCacheStandard) : Prop :=
  ∀ c, c < length (ncs_cores s) → ∃ l, upchain s c l.

Lemma upchain_fun s c l l' : upchain s c l → upchain s c l' → l = l'.
Proof.
  intros Hl. revert l'. induction Hl as [c core Hc Hp|c core n c' l Hc Hp Hn Hl IH]; intros l' Hl';
    inversion Hl'; simplify_eq; [done|]. f_equal. by apply IH.
Qed.

Lemma upchain_in s c l d : upchain s c l → d ∈ l → ∃ l', upchain s d l' ∧ length l' <= length l.
Proof.
  intros Hl. induction Hl as [c core Hc Hp|c core n c' l Hc Hp Hn Hl IH].
  - intros ->%list_elem_of_singleton. exists [c]. split; [by eapply up_root|done].
  - intros [->|Hin]%elem_of_cons.
    + exists (c :: l). split; [by eapply up_step|done].
    + destruct (IH Hin) as (l' & Hl' & Hlen). exists l'. simpl. split; [done|lia].
Qed.

Lemma upchain_NoDup s c l : upchain s c l → NoDup l.
Proof.
  intros Hl. induction Hl as [c core Hc Hp|c core n c' l Hc Hp Hn Hl IH]; [apply NoDup_singleton|].
  constructor; [|done]. intros Hin. destruct (upchain_in _ _ _ _ Hl Hin) as (l' & Hl' & Hlen).
  assert (l' = c :: l) as -> by (eapply upchain_fun; [done|by eapply up_step]). simpl in Hlen. lia.
Qed.

Lemma upchain_bound s c l : upchain s c l → length l <= length (ncs_cores s).
Proof.
  intros Hl. rewrite <- (length_seq (length (ncs_cores s)) 0).
  apply submseteq_length, NoDup_submseteq; [by eapply upchain_NoDup|].
  intros d Hd. destruct (upchain_in _ _ _ _ Hl Hd) as (l' & Hl' & _). apply elem_of_seq.
  split; [lia|]. inversion Hl'; simplify_eq; by eapply lookup_lt_Some.
Qed.

(** The path that a chain spells, from the top. *)
Fixpoint spell (s : nodeCacheStandard) (l : list nat) : list pathNode :=
  match l with
  | [] => []
  | c :: l =>
      match ncs_cores s !! c with
      | None => []
      | Some core =>
          if decide (nc_parent core = None ∧ 0 < length (p_path (nc_cachedPath core)))
          then p_path (nc_cachedPath core)
          else spell s l ++ [nc_pathNode core]
      end
  end.

Lemma walk_up_spell s c l n fuel p :
  upchain s c l → ncs_stds s !! n = Some c → length l <= fuel →
  ∃ r, walk_up fuel s (Some n) p = Some r ∧
    match r with
    | inl q => q = p ++ reverse (spell s l)
    | inr q => p = [] ∧ p_path q = spell s l
    end.
Proof.
  intros Hl. revert n fuel p. induction Hl as [c core Hc Hp|c core m c' l Hc Hp Hm Hl IH];
    intros n [|fuel] p Hn Hf; simpl in Hf; [lia| |lia|]; cbn [walk_up spell]; unfold core_of; rewrite Hn; simpl; rewrite Hc; simpl.
  - case_decide as Hd.
    + case_decide as Hp0; [|by eexists]. destruct p; [|done]. by eexists.
    + rewrite Hp. destruct fuel; by eexists.
  - rewrite Hp, !decide_False by naive_solver.
    destruct (IH m fuel (p ++ [nc_pathNode core]) Hm ltac:(lia)) as (r & Hr & Hq). exists r. split; [done|].
    destruct r as [q|q].
    + rewrite Hq, reverse_snoc, <- app_assoc. done.
    + destruct Hq as [Hq _]. by destruct p.
Qed.

(** [PathFromNode] of a node above which there is a root. *)
Lemma PathFromNode_spell s n c l :
  upchain s c l → ncs_stds s !! n = Some c →
  ∃ p, PathFromNode (stdNode n) s = Some p ∧ p_path p = spell s l.
Proof.
  intros Hl Hn. destruct (walk_up_spell s c l n (length (ncs_cores s)) [] Hl Hn (upchain_bound _ _ _ Hl)) as (r & Hr & Hq).
  unfold PathFromNode. rewrite Hr. destruct r as [q|q]; eexists; (split; [done|]); [|by destruct Hq].
  simpl. by rewrite Hq, app_nil_l, reverse_involutive.
Qed.

(** ** Moves that do not make a cycle *)

(** The new parent is not below the node that is moved. *)
Definition safe_event (s : nodeCacheStandard) (e : node_event) : Prop :=
  match e with
  | EvMove ref (stdNode n) _ => ∀ entry c l,
      ncs_nodes s !! ref = Some entry → ncs_stds s !! n = Some c → upchain s c l → nce_core entry ∉ l
  | _ => True
  end.

Fixpoint safe_history (es : list node_event) (s : nodeCacheStandard) : Prop :=
  match es with
  | [] => True
  | e :: es => safe_event s e ∧ safe_history es (do_event e s)
  end.

(** Larger heaps keep the chains. *)
Lemma upchain_grow s s' c l :
  (∀ d core, ncs_cores s !! d = Some core → ncs_cores s' !! d = Some core) →
  (∀ n d, ncs_stds s !! n = Some d → ncs_stds s' !! n = Some d) → upchain s c l → upchain s' c l.
Proof. intros Hc Hs Hl. induction Hl; [by eapply up_root; eauto|by eapply up_step; eauto]. Qed.

Lemma all_rooted_grow s s' :
  (∀ d core, ncs_cores s !! d = Some core → ncs_cores s' !! d = Some core) →
  (∀ n d, ncs_stds s !! n = Some d → ncs_stds s' !! n = Some d) →
  length (ncs_cores s') = length (ncs_cores s) → all_rooted s → all_rooted s'.
Proof.
  intros Hc Hs Hlen Hall c Hlt. rewrite Hlen in Hlt. destruct (Hall c Hlt) as [l Hl]. exists l. by eapply upchain_grow.
Qed.

(** A core whose parent changes: the chains that go through it. *)
Lemma upchain_set s c0 core0 core' l0 :
  ncs_cores s !! c0 = Some core0 →
  match nc_parent core' with
  | None => l0 = [c0]
  | Some n => ∃ c' l', ncs_stds s !! n = Some c' ∧ upchain s c' l' ∧ (c0 ∉ l') ∧ l0 = c0 :: l'
  end →
  upchain (set_core c0 core' s) c0 l0 ∧
  (∀ c l, upchain s c l → c0 ∉ l → upchain (set_core c0 core' s) c l) ∧
  (∀ c l, upchain s c l → ∃ l', upchain (set_core c0 core' s) c l').
Proof.
  intros Hc0 Hp. assert (c0 < length (ncs_cores s)) as Hlt by (by eapply lookup_lt_Some).
  assert (∀ c l, upchain s c l → c0 ∉ l → upchain (set_core c0 core' s) c l) as Hout.
  { intros c l Hl. induction Hl as [c core Hc Hpar|c core n c' l Hc Hpar Hn Hl IH]; intros Hni.
    - eapply up_root; [|done]. simpl. rewrite list_lookup_insert_ne by set_solver. done.
    - eapply up_step; [|done|done|apply IH; set_solver]. simpl. rewrite list_lookup_insert_ne by set_solver. done. }
  assert (upchain (set_core c0 core' s) c0 l0) as H0.
  { assert (ncs_cores (set_core c0 core' s) !! c0 = Some core') as Hc' by (by apply list_lookup_insert_eq).
    destruct (nc_parent core') as [n|] eqn:Hpar.
    - destruct Hp as (c' & l' & Hn & Hl' & Hni & ->). eapply up_step; [done|done|done|by apply Hout].
    - subst l0. by eapply up_root. }
  split; [done|]. split; [done|]. intros c l Hl.
  induction Hl as [c core Hc Hpar|c core n c' l Hc Hpar Hn Hl [l' IH]];
    (destruct (decide (c = c0)) as [->|Hne]; [by exists l0|]);
    (assert (ncs_cores (set_core c0 core' s) !! c = Some core) by (simpl; by rewrite list_lookup_insert_ne)).
  - exists [c]. by eapply up_root.
  - exists (c :: l'). by eapply up_step.
Qed.

Lemma all_rooted_set s c0 core0 core' l0 :
  ncs_cores s !! c0 = Some core0 →
  match nc_parent core' with
  | None => l0 = [c0]
  | Some n => ∃ c' l', ncs_stds s !! n = Some c' ∧ upchain s c' l' ∧ (c0 ∉ l') ∧ l0 = c0 :: l'
  end →
  all_rooted s → all_rooted (set_core c0 core' s).
Proof.
  intros Hc0 Hp Hall c Hlt. destruct (upchain_set s c0 core0 core' l0 Hc0 Hp) as (_ & _ & Hset).
  simpl in Hlt. rewrite length_insert in Hlt. destruct (Hall c Hlt) as [l Hl]. by eapply Hset.
Qed.

Lemma make_rooted s ref e : all_rooted s → all_rooted (snd (makeNodeStandardForEntry ref e s)).
Proof. apply all_rooted_grow; simpl; [done| |done]. intros n d. apply lookup_app_l_Some. Qed.

Lemma create_rooted ptr name parent s : all_rooted s → all_rooted (snd (create_node ptr name parent s)).
Proof.
  intros Hs. unfold create_node, mbind, go_bind, get, lift_res, modify.
  assert (∀ p, (∀ n, p = Some n → ∃ c l, ncs_stds s !! n = Some c ∧ upchain s c l) →
    all_rooted (MkNodeCacheStandard (ncs_folderBranch s)
      (<[BlockPointer_ref ptr := MkNodeCacheEntry (length (ncs_cores s)) 0]> (ncs_nodes s))
      (ncs_cores s ++ [newNodeCore ptr name p]) (ncs_stds s) (ncs_live s))) as Hnew.
  { intros p Hp. set (s' := MkNodeCacheStandard _ _ _ _ _).
    assert (∀ c l, upchain s c l → upchain s' c l) as Hgrow.
    { intros c l. apply upchain_grow; simpl; [|done]. intros d core. apply lookup_app_l_Some. }
    assert (ncs_cores s' !! length (ncs_cores s) = Some (newNodeCore ptr name p)) as Hc
      by (simpl; by rewrite lookup_app_r, Nat.sub_diag).
    intros c Hlt. simpl in Hlt. rewrite length_app in Hlt. simpl in Hlt.
    destruct (decide (c = length (ncs_cores s))) as [->|Hne].
    - destruct p as [n|]; [|by eexists; eapply up_root].
      destruct (Hp n eq_refl) as (c' & l & Hn & Hl). eexists. by eapply up_step, Hgrow.
    - destruct (Hs c) as [l Hl]; [lia|]. eexists. by apply Hgrow. }
  destruct parent as [| |m].
  - apply make_rooted, Hnew. done.
  - done.
  - destruct (newChildForParentLocked (stdNode m) s) as [n|e|p] eqn:E; cbn [fmap res_fmap]; [|done..].
    apply make_rooted, Hnew. intros n' [= ->].
    apply newChild_Ok in E as (_ & c & core & Hcore & _). apply core_of_Some in Hcore as [Hn Hc].
    destruct (Hs c) as [l Hl]; [by eapply lookup_lt_Some|]. by exists c, l.
Qed.

Lemma nodes_rooted s f : all_rooted s → all_rooted (set_nodes f s).
Proof. by apply all_rooted_grow. Qed.

Lemma upchain_self s c core l : upchain s c l → ncs_cores s !! c = Some core →
  match nc_parent core with
  | None => l = [c]
  | Some n => ∃ c' l', ncs_stds s !! n = Some c' ∧ upchain s c' l' ∧ (c ∉ l') ∧ l = c :: l'
  end.
Proof.
  intros Hl Hc. pose proof (upchain_NoDup _ _ _ Hl) as Hnd.
  inversion Hl as [c0 core0 Hc0 Hp|c0 core0 n c' l' Hc0 Hp Hn Hl']; subst.
  - assert (core0 = core) as -> by congruence. by rewrite Hp.
  - assert (core0 = core) as -> by congruence. rewrite Hp. exists c', l'.
    apply NoDup_cons in Hnd as [Hni _]. done.
Qed.

Lemma do_event_rooted e s : ncs_inv s → all_rooted s → safe_event s e → all_rooted (do_event e s).
Proof.
  intros Hinv Hs Hsafe. destruct e as [ptr name parent|ref|oldRef newPtr|ref newParent newName|ref oldPath|n]; simpl.
  - unfold GetOrCreate. destruct (negb _); [done|]. case_decide; [done|].
    unfold mbind at 1, go_bind at 1, get at 1.
    destruct (ncs_nodes s !! BlockPointer_ref ptr) as [e|] eqn:Ee; [|by apply create_rooted].
    destruct (ncs_cores s !! nce_core e) as [core|]; [|done]. case_decide; [|by apply make_rooted].
    unfold mbind, go_bind, modify. by apply create_rooted, nodes_rooted.
  - unfold Get. case_decide; [done|]. destruct (negb _); [done|]. unfold mbind, go_bind, get.
    destruct (ncs_nodes s !! ref) as [e|]; [by apply make_rooted|done].
  - unfold UpdatePointer. case_decide; [done|]. do 2 (destruct (negb _); [done|]).
    apply (on_entry_inv all_rooted); [done|done|]. intros e core Ee Hcore Href. case_decide; [done|].
    unfold mbind, go_bind, modify. apply nodes_rooted. simpl.
    destruct (Hs (nce_core e)) as [l Hl]; [by eapply lookup_lt_Some|].
    apply (all_rooted_set _ _ core _ l); [done| |done]. exact (upchain_self _ _ _ _ Hl Hcore).
  - unfold Move. case_decide; [done|]. destruct (negb _); [done|]. case_decide; [done|].
    apply (on_entry_inv all_rooted); [done|done|]. intros e core Ee Hcore Href. unfold mbind, go_bind, get, lift_res.
    destruct (newChildForParentLocked newParent s) as [n|er|p] eqn:E; [|done..]. unfold modify.
    apply newChild_Ok in E as (-> & c & core0 & [Hn Hc]%core_of_Some & _).
    destruct (Hs c) as [l Hl]; [by eapply lookup_lt_Some|].
    apply (all_rooted_set _ _ core _ (nce_core e :: l)); [done| |done]. simpl. exists c, l.
    split; [done|]. split; [done|]. split; [|done]. by eapply Hsafe.
  - unfold Unlink. case_decide; [done|]. destruct (negb _); [done|].
    apply (on_entry_inv all_rooted); [done|done|]. intros e core Ee Hcore Href.
    unfold modify. by apply (all_rooted_set _ _ core _ [nce_core e]).
  - case_decide; [|done]. unfold nodeStandardFinalizer. destruct (core_of n s) as [[c core]|]; [|done].
    unfold forgetLocked. destruct (ncs_nodes s !! core_ref core) as [e|]; [|by apply (all_rooted_grow s)].
    case_decide; by apply (all_rooted_grow s).
Qed.

Lemma safe_history_rooted es s : ncs_inv s → all_rooted s → safe_history es s → all_rooted (run_events es s).
Proof.
  revert s. induction es as [|e es IH]; intros s Hi Hs Hsafe; [done|]. destruct Hsafe as [He Hes].
  apply IH; [by apply do_event_inv|by apply do_event_rooted|done].
Qed.

(** C35. [PathFromNode] returns: after any history in which no node is moved
    below itself, the walk from every node object ends at a node without a
    parent. *)
Theorem PathFromNode_returns fb es n : let s := run_events es (newNodeCacheStandard fb) in
  safe_history es (newNodeCacheStandard fb) → n < length (ncs_stds s) →
  ∃ p, PathFromNode (stdNode n) s = Some p.
Proof.
  intros s Hsafe Hn. assert (ncs_inv s) as Hi by apply run_events_inv, ncs_inv_new.
  assert (all_rooted s) as Hs.
  { apply safe_history_rooted; [apply ncs_inv_new| |done]. intros c Hc. simpl in Hc. lia. }
  apply lookup_lt_is_Some in Hn as [c Hc]. destruct (Hs c) as [l Hl]; [by eapply inv_stds|].
  destruct (PathFromNode_spell s n c l Hl Hc) as (p & Hp & _). by exists p.
Qed.

(** ** What the operations do to paths *)

Definition node_path (s : nodeCacheStandard) (n : nat) : option (list pathNode) :=
  p_path <$> PathFromNode (stdNode n) s.

Lemma node_path_spell s n c l : upchain s c l → ncs_stds s !! n = Some c → node_path s n = Some (spell s l).
Proof. intros Hl Hn. unfold node_path. destruct (PathFromNode_spell s n c l Hl Hn) as (p & -> & Hp). simpl. by rewrite Hp. Qed.

Lemma spell_set s c0 core' l : c0 ∉ l → spell (set_core c0 core' s) l = spell s l.
Proof.
  induction l as [|c l IH]; intros Hni; [done|]. cbn [spell set_core ncs_cores].
  rewrite list_lookup_insert_ne by set_solver. rewrite IH by set_solver. done.
Qed.

(** A node object is below the core [c0], or is one of its own. *)
Definition below (s : nodeCacheStandard) (c0 : nat) (n : nat) : Prop :=
  ∃ c l, ncs_stds s !! n = Some c ∧ upchain s c l ∧ c0 ∈ l.

Lemma node_path_child s n c core m :
  ncs_inv s → all_rooted s → ncs_stds s !! n = Some c → ncs_cores s !! c = Some core → nc_parent core = Some m →
  node_path s n = (λ p, p ++ [nc_pathNode core]) <$> node_path s m.
Proof.
  intros Hi Hs Hn Hc Hp. assert (m < length (ncs_stds s)) as [c' Hm]%lookup_lt_is_Some by (by eapply inv_parent).
  destruct (Hs c') as [l Hl]; [by eapply inv_stds|].
  rewrite (node_path_spell s n c (c :: l)) by (done || by eapply up_step).
  rewrite (node_path_spell s m c' l) by done. simpl. rewrite Hc, decide_False by (rewrite Hp; naive_solver). done.
Qed.

Lemma frame_set s c0 core0 core' l0 n :
  ncs_inv s → all_rooted s → ncs_cores s !! c0 = Some core0 →
  match nc_parent core' with
  | None => l0 = [c0]
  | Some n => ∃ c' l', ncs_stds s !! n = Some c' ∧ upchain s c' l' ∧ (c0 ∉ l') ∧ l0 = c0 :: l'
  end →
  n < length (ncs_stds s) → ¬ below s c0 n → node_path (set_core c0 core' s) n = node_path s n.
Proof.
  intros Hi Hs Hc0 Hp [c Hc]%lookup_lt_is_Some Hb. destruct (Hs c) as [l Hl]; [by eapply inv_stds|].
  assert (c0 ∉ l) as Hni by (intros Hin; apply Hb; by exists c, l).
  destruct (upchain_set s c0 core0 core' l0 Hc0 Hp) as (_ & Hout & _).
  rewrite (node_path_spell s n c l Hl Hc), (node_path_spell _ n c l (Hout c l Hl Hni) Hc). by rewrite spell_set.
Qed.

Lemma node_path_nodes s f n : node_path (set_nodes f s) n = node_path s n.
Proof.
  unfold node_path, PathFromNode. simpl.
  assert (∀ fuel ns p, walk_up fuel (set_nodes f s) ns p = walk_up fuel s ns p) as ->; [|done].
  intros fuel. induction fuel as [|fuel IH]; intros [m|] p; simpl; [done|done| |done].
  destruct (core_of m (set_nodes f s)) as [[c core]|] eqn:E; unfold core_of in *; simpl in E; rewrite E; simpl; [|done].
  case_decide; [done|]. apply IH.
Qed.

Section paths.
Context (s : nodeCacheStandard) (ref : blockRef) (entry : nodeCacheEntry) (core : nodeCore).
Context (Hi : ncs_inv s) (Hs : all_rooted s) (Hentry : ncs_nodes s !! ref = Some entry)
  (Hcore : ncs_cores s !! nce_core entry = Some core) (Hvalid : blockRef_IsValid ref = true).

Lemma valid_not_zero : ref ≠ zeroRef.
Proof. intros ->. vm_compute in Hvalid. done. Qed.

(** A node moved to [m], and what hangs under it, is found under the path
    of [m] and the new name; all other paths stay. *)
Lemma Move_paths m newName :
  newName ≠ EmptyString → safe_event s (EvMove ref (stdNode m) newName) →
  newChildForParentLocked (stdNode m) s = Ok m →
  ∃ s', Move ref (stdNode m) newName s = (Ok tt, s') ∧
    (∀ n, ncs_stds s !! n = Some (nce_core entry) →
       node_path s' n = (λ p, p ++ [MkPathNode (pn_BlockPointer (nc_pathNode core)) newName]) <$> node_path s m) ∧
    (∀ n, n < length (ncs_stds s) → ¬ below s (nce_core entry) n → node_path s' n = node_path s n).
Proof.
  intros Hname Hsafe Hm. pose proof (newChild_Ok _ _ _ Hm) as (_ & c & core0 & [Hn Hc]%core_of_Some & _).
  destruct (Hs c) as [l Hl]; [by eapply lookup_lt_Some|]. assert (nce_core entry ∉ l) as Hni by (by eapply Hsafe).
  eexists. split; [|split].
  - unfold Move. rewrite decide_False by apply valid_not_zero. rewrite Hvalid. cbn [negb]. rewrite decide_False by done.
    unfold on_entry, mbind, go_bind, get. rewrite Hentry, Hcore. unfold lift_res. rewrite Hm. done.
  - intros n Hnc. set (core' := MkNodeCore _ _ _).
    assert (match nc_parent core' with
      | None => nce_core entry :: l = [nce_core entry]
      | Some n => ∃ c' l', ncs_stds s !! n = Some c' ∧ upchain s c' l' ∧ (nce_core entry ∉ l') ∧ nce_core entry :: l = nce_core entry :: l'
      end) as Hp by (simpl; by exists c, l).
    destruct (upchain_set s _ core core' _ Hcore Hp) as (Hup & _ & _).
    rewrite (node_path_spell _ n _ _ Hup) by done. rewrite (node_path_spell s m c l) by done.
    cbn [spell set_core ncs_cores]. rewrite list_lookup_insert_eq by (by eapply lookup_lt_Some).
    rewrite decide_False by naive_solver. rewrite spell_set by done. done.
  - intros n Hlt Hb. apply (frame_set _ _ core _ (nce_core entry :: l)); [done..| |done|done]. simpl. by exists c, l.
Qed.

(** An unlinked node keeps the path it had. *)
Lemma Unlink_paths oldPath :
  p_path oldPath ≠ [] →
  ∃ s', Unlink ref oldPath s = (Ok tt, s') ∧
    (∀ n, ncs_stds s !! n = Some (nce_core entry) → PathFromNode (stdNode n) s' = Some oldPath) ∧
    (∀ n, n < length (ncs_stds s) → ¬ below s (nce_core entry) n → node_path s' n = node_path s n).
Proof.
  intros Hne. eexists. split; [|split].
  - unfold Unlink. rewrite decide_False by apply valid_not_zero. rewrite Hvalid. cbn [negb].
    unfold on_entry, mbind, go_bind, get. rewrite Hentry, Hcore. done.
  - intros n Hnc. assert (nce_core entry < length (ncs_cores s)) as Hlt by (by eapply lookup_lt_Some).
    unfold PathFromNode. cbn [set_core ncs_cores]. rewrite length_insert.
    destruct (length (ncs_cores s)) as [|k]; [lia|]. cbn [walk_up]. unfold core_of. simpl. rewrite Hnc. simpl.
    rewrite list_lookup_insert_eq by (by eapply lookup_lt_Some). simpl.
    rewrite decide_True; [done|]. split; [done|]. destruct (p_path oldPath); [done|simpl; lia].
  - intros n Hlt Hb. by apply (frame_set _ _ core _ [nce_core entry]).
Qed.

(** A pointer update changes the pointer of the node in the paths, and
    nothing else. *)
Lemma UpdatePointer_paths newPtr :
  p_path (nc_cachedPath core) = [] → BlockPointer_IsValid newPtr = true →
  ∃ s', UpdatePointer ref newPtr s = (Ok tt, s') ∧
    ncs_nodes s' !! BlockPointer_ref newPtr = Some entry ∧
    (∀ n, ncs_stds s !! n = Some (nce_core entry) → ∃ p,
       node_path s n = Some (p ++ [nc_pathNode core]) ∧
       node_path s' n = Some (p ++ [MkPathNode newPtr (pn_Name (nc_pathNode core))])) ∧
    (∀ n, n < length (ncs_stds s) → ¬ below s (nce_core entry) n → node_path s' n = node_path s n).
Proof.
  intros Hcp Hv. destruct (Hs (nce_core entry)) as [l Hl]; [by eapply lookup_lt_Some|].
  pose proof (upchain_self _ _ _ _ Hl Hcore) as Hself.
  set (core' := MkNodeCore (MkPathNode newPtr (pn_Name (nc_pathNode core))) (nc_parent core) (nc_cachedPath core)).
  exists (set_nodes (λ m, <[BlockPointer_ref newPtr := entry]> (delete ref m)) (set_core (nce_core entry) core' s)).
  split; [|split; [apply lookup_insert_eq|split]].
  - unfold UpdatePointer. rewrite decide_False by (intros [? _]; by apply valid_not_zero). rewrite Hvalid, Hv. cbn [negb].
    unfold on_entry, mbind, go_bind, get. rewrite Hentry, Hcore, decide_False by (rewrite Hcp; simpl; lia). done.
  - intros n Hnc. rewrite node_path_nodes. rewrite (node_path_spell s n _ l) by done.
    destruct (upchain_set s _ core core' l Hcore Hself) as (Hup & _ & _).
    rewrite (node_path_spell _ n _ _ Hup) by done.
    destruct l as [|c l]; [by inversion Hl|]. assert (c = nce_core entry ∧ nce_core entry ∉ l) as [-> Hni].
    { pose proof (upchain_NoDup _ _ _ Hl) as [Hni _]%NoDup_cons. by inversion Hl; subst. }
    exists (spell s l). cbn [spell set_core ncs_cores]. rewrite Hcore, list_lookup_insert_eq by (by eapply lookup_lt_Some).
    rewrite !decide_False by (simpl; rewrite Hcp; simpl; lia). by rewrite spell_set.
  - intros n Hlt Hb. rewrite node_path_nodes. by apply (frame_set _ _ core _ l).
Qed.
End paths.

(** C34. Paths follow the operations.  After any history in which no node is
    moved below itself: the path of a node with a parent is its parent's
    path and its own name and pointer; a node that is moved to a parent in
    the cache is then found under that parent's path with the new name; a
    pointer update changes the pointer of the node's last path element and
    leaves the rest of its path; an unlinked node keeps the path it is
    unlinked with; and no operation changes the path of a node that is not
    below the one it is about. *)
Theorem node_paths_follow fb es ref entry core : let s := run_events es (newNodeCacheStandard fb) in
  safe_history es (newNodeCacheStandard fb) →
  ncs_nodes s !! ref = Some entry → ncs_cores s !! nce_core entry = Some core → blockRef_IsValid ref = true →
  let own n := ncs_stds s !! n = Some (nce_core entry) in
  let frame s' := ∀ n, n < length (ncs_stds s) → ¬ below s (nce_core entry) n → node_path s' n = node_path s n in
  (∀ n m, own n → nc_parent core = Some m →
     node_path s n = (λ p, p ++ [nc_pathNode core]) <$> node_path s m) ∧
  (∀ m newName, newName ≠ EmptyString → safe_event s (EvMove ref (stdNode m) newName) →
     newChildForParentLocked (stdNode m) s = Ok m →
     ∃ s', Move ref (stdNode m) newName s = (Ok tt, s') ∧ frame s' ∧
       ∀ n, own n → node_path s' n =
         (λ p, p ++ [MkPathNode (pn_BlockPointer (nc_pathNode core)) newName]) <$> node_path s m) ∧
  (∀ newPtr, p_path (nc_cachedPath core) = [] → BlockPointer_IsValid newPtr = true →
     ∃ s', UpdatePointer ref newPtr s = (Ok tt, s') ∧ frame s' ∧
       ncs_nodes s' !! BlockPointer_ref newPtr = Some entry ∧
       ∀ n, own n → ∃ p, node_path s n = Some (p ++ [nc_pathNode core]) ∧
         node_path s' n = Some (p ++ [MkPathNode newPtr (pn_Name (nc_pathNode core))])) ∧
  (∀ oldPath, p_path oldPath ≠ [] →
     ∃ s', Unlink ref oldPath s = (Ok tt, s') ∧ frame s' ∧
       ∀ n, own n → PathFromNode (stdNode n) s' = Some oldPath).
Proof.
  intros s Hsafe He Hc Hv own frame. assert (ncs_inv s) as Hi by apply run_events_inv, ncs_inv_new.
  assert (all_rooted s) as Hs.
  { apply safe_history_rooted; [apply ncs_inv_new| |done]. intros c Hlt. simpl in Hlt. lia. }
  split; [|split; [|split]].
  - intros n m Hn Hp. by eapply node_path_child.
  - intros m newName Hne Hm Hok. destruct (Move_paths s ref entry core Hi Hs He Hc Hv m newName) as (s' & ? & ? & ?); [done..|].
    by exists s'.
  - intros newPtr Hcp Hp. destruct (UpdatePointer_paths s ref entry core Hi Hs He Hc Hv newPtr) as (s' & ? & ? & ? & ?); [done..|].
    by exists s'.
  - intros oldPath Hne. destruct (Unlink_paths s ref entry core Hi Hs He Hc Hv oldPath) as (s' & ? & ? & ?); [done..|].
    by exists s'.
Qed.

(** ** An example: a file is moved into a directory beside it *)

Definition ex_node_ptr (b : byte) : BlockPointer :=
  MkBlockPointer (MkBlockID (MkHash (string_of_bytes (x01 :: replicate 31 x00 ++ [b])))) 1%Z 1%Z "u" EmptyString zeroBlockRefNonce.
Definition ex_branch : FolderBranch := MkFolderBranch NullTlfID MasterBranch.
Definition ex_events : list node_event :=
  [EvGetOrCreate (ex_node_ptr x01) "root" nilNode;
   EvGetOrCreate (ex_node_ptr x02) "dir" (stdNode 0);
   EvGetOrCreate (ex_node_ptr x03) "file" (stdNode 0);
   EvMove (BlockPointer_ref (ex_node_ptr x03)) (stdNode 1) "moved"].
Definition ex_nodes : nodeCacheStandard := run_events ex_events (newNodeCacheStandard ex_branch).
Definition ex_nodes3 : nodeCacheStandard := run_events (take 3 ex_events) (newNodeCacheStandard ex_branch).

Lemma ex_safe_move : safe_event ex_nodes3 (EvMove (BlockPointer_ref (ex_node_ptr x03)) (stdNode 1) "moved").
Proof.
  intros entry c l He Hc Hl. vm_compute in He. injection He as <-. vm_compute in Hc. injection Hc as <-.
  assert (upchain ex_nodes3 1 [1; 0]) as Hl'.
  { eapply up_step; [reflexivity|reflexivity|reflexivity|]. eapply up_root; reflexivity. }
  rewrite (upchain_fun _ _ _ _ Hl Hl'). cbn [nce_core]. rewrite !elem_of_cons, elem_of_nil. lia.
Qed.

Lemma ex_safe : safe_history ex_events (newNodeCacheStandard ex_branch).
Proof. split; [done|]. split; [done|]. split; [done|]. split; [exact ex_safe_move|done]. Qed.

(** A second node of the file is asked for and dropped: the first one,
    moved meanwhile, is still found. *)
Lemma node_cache_counts_witness :
  let es := [EvGet (BlockPointer_ref (ex_node_ptr x03));
             EvMove (BlockPointer_ref (ex_node_ptr x03)) (stdNode 1) "moved"; EvFinalize 3] in
  cached ex_nodes3 2 ∧ 2 ∈ ncs_live (run_events es ex_nodes3) ∧ never_replaced es ex_nodes3 2 ∧
  cached (run_events es ex_nodes3) 2.
Proof.
  intros es. assert (cached ex_nodes3 2) as Hc.
  { eexists 2, _, (MkNodeCacheEntry 2 1). split; [vm_compute; reflexivity|]. split; vm_compute; reflexivity. }
  assert (2 ∈ ncs_live (run_events es ex_nodes3)) as Hl by (apply (bool_decide_unpack _); vm_compute; exact I).
  assert (never_replaced es ex_nodes3 2) as Hr.
  { repeat split; intros (c & core & _ & Hf); exact Hf. }
  split; [exact Hc|]. split; [exact Hl|]. split; [exact Hr|].
  apply (node_cache_counts ex_branch (take 3 ex_events)); [exact Hc|exact Hl|exact Hr].
Defined.

Lemma PathFromNode_returns_witness : ∃ p, PathFromNode (stdNode 2) ex_nodes = Some p.
Proof. apply (PathFromNode_returns ex_branch ex_events 2); [exact ex_safe|vm_compute; lia]. Defined.

(** The file's path is the directory's, with the new name. *)
Lemma node_paths_follow_witness :
  node_path ex_nodes 2 = (λ p, p ++ [MkPathNode (ex_node_ptr x03) "moved"]) <$> node_path ex_nodes 1.
Proof.
  destruct (node_paths_follow ex_branch ex_events (BlockPointer_ref (ex_node_ptr x03)) (MkNodeCacheEntry 2 1)
    (MkNodeCore (MkPathNode (ex_node_ptr x03) "moved") (Some 1) zeroPath)) as (Hchild & _).
  - exact ex_safe.
  - vm_compute. reflexivity.
  - vm_compute. reflexivity.
  - vm_compute. reflexivity.
  - apply (Hchild 2 1); vm_compute; reflexivity.
Defined.

(** Moved below itself, a node has no path: the walk does not end. *)
Example Move_below_itself :
  PathFromNode (stdNode 1) (do_event (EvMove (BlockPointer_ref (ex_node_ptr x02)) (stdNode 2) "loop") ex_nodes) = None.
Proof. vm_compute. reflexivity. Qed.
