(* ===== verification/FolderBlocks.v ===== *)
(** * FolderBlocks: the block state of a folder

    Models the first half of [libkbfs/folder_block_ops.go]: the state
    that [blockLock] protects, how a block is found (dirty cache first,
    then the clean cache or the server), when it is copied before a
    write, how a dirty block is put back, and how directory entries are
    overlaid with the entries of dirty files.

    The code passes blocks around as pointers, and a block of the dirty
    cache is modified in place by whoever holds it.  The state therefore
    has a heap of blocks ([fbo_heap]) and the dirty cache maps to
    addresses; a sync that is under way holds addresses too.  A clean
    block is never modified in place, so fetching one puts its value at a
    new address.

    The clean cache and the block server are the parameter [cfg_Get] of
    [Config]; the codec behind [DeepCopy] is the class [Codec]. *)

From Stdlib Require Import ZArith Lia.
From S2P Require Import Prelude Types Errors GoStd Ids CryptoCommon Splitter DataTypes Ops.

(** ** State *)

Inductive overallBlockState := cleanState | dirtyState.
Inductive blockReqType := blockRead | blockWrite.
Inductive syncBlockState := blockNotBeingSynced | blockSyncingNotDirty | blockSyncingAndDirty.
#[global] Instance syncBlockState_eq_dec : EqDecision syncBlockState.
Proof. solve_decision. Defined.

(** The address of a block in memory. *)
Definition addr := positive.

Record dirtyBlockID := MkDirtyBlockID {
  dbi_id : BlockID;
  dbi_refNonce : BlockRefNonce;
  dbi_branch : BranchName
}.
#[global] Instance dirtyBlockID_eq_dec : EqDecision dirtyBlockID.
Proof. solve_decision. Defined.
#[global] Instance dirtyBlockID_countable : Countable dirtyBlockID.
Proof.
  by apply (inj_countable' (λ d, (dbi_id d, dbi_refNonce d, dbi_branch d))
              (λ '(i, n, b), MkDirtyBlockID i n b)); intros [].
Defined.

(** The key of a block in the dirty cache. *)
Definition dirty_key (ptr : BlockPointer) (branch : BranchName) : dirtyBlockID :=
  MkDirtyBlockID (bp_ID ptr) (bp_RefNonce ptr) branch.

(** A block readied for the server: its pointer, the block, and the
    encrypted data. *)
Record blockState := MkBlockState {
  bst_blockPtr : BlockPointer;
  bst_block : addr;
  bst_readyBlockData : list byte
}.

Record syncInfo := MkSyncInfo {
  si_oldInfo : BlockInfo;
  si_op : syncOp;
  si_unrefs : list BlockInfo;
  si_bps : option (list blockState);
  si_refBytes : Z;
  si_unrefBytes : Z
}.

(** A closure of [deferredWrites]: the write or truncate to replay. *)
Inductive deferredWrite :=
| DeferredWrite (data : list byte) (off : Z)
| DeferredTruncate (size : Z).

Record folderBlockOps := MkFbo {
  fbo_heap : gmap addr Block;
  fbo_dirty : gmap dirtyBlockID addr;
  fbo_fileBlockStates : gmap BlockPointer syncBlockState;
  fbo_unrefCache : gmap blockRef syncInfo;
  fbo_deCache : gmap blockRef DirEntry;
  fbo_deferredWrites : list deferredWrite;
  fbo_deferredDirtyDeletes : list BlockPointer;
  fbo_doDeferWrite : bool;
  (** what [observers.localChange] was told, latest last *)
  fbo_localChanges : list WriteRange;
  (** how many temporary block ids were drawn so far *)
  fbo_tempIDs : nat
}.

Definition set_heap f s := MkFbo (f (fbo_heap s)) (fbo_dirty s) (fbo_fileBlockStates s)
  (fbo_unrefCache s) (fbo_deCache s) (fbo_deferredWrites s) (fbo_deferredDirtyDeletes s)
  (fbo_doDeferWrite s) (fbo_localChanges s) (fbo_tempIDs s).
Definition set_dirty f s := MkFbo (fbo_heap s) (f (fbo_dirty s)) (fbo_fileBlockStates s)
  (fbo_unrefCache s) (fbo_deCache s) (fbo_deferredWrites s) (fbo_deferredDirtyDeletes s)
  (fbo_doDeferWrite s) (fbo_localChanges s) (fbo_tempIDs s).
Definition set_fileBlockStates f s := MkFbo (fbo_heap s) (fbo_dirty s) (f (fbo_fileBlockStates s))
  (fbo_unrefCache s) (fbo_deCache s) (fbo_deferredWrites s) (fbo_deferredDirtyDeletes s)
  (fbo_doDeferWrite s) (fbo_localChanges s) (fbo_tempIDs s).
Definition set_unrefCache f s := MkFbo (fbo_heap s) (fbo_dirty s) (fbo_fileBlockStates s)
  (f (fbo_unrefCache s)) (fbo_deCache s) (fbo_deferredWrites s) (fbo_deferredDirtyDeletes s)
  (fbo_doDeferWrite s) (fbo_localChanges s) (fbo_tempIDs s).
Definition set_deCache f s := MkFbo (fbo_heap s) (fbo_dirty s) (fbo_fileBlockStates s)
  (fbo_unrefCache s) (f (fbo_deCache s)) (fbo_deferredWrites s) (fbo_deferredDirtyDeletes s)
  (fbo_doDeferWrite s) (fbo_localChanges s) (fbo_tempIDs s).
Definition set_deferred w d s := MkFbo (fbo_heap s) (fbo_dirty s) (fbo_fileBlockStates s)
  (fbo_unrefCache s) (fbo_deCache s) w d
  (fbo_doDeferWrite s) (fbo_localChanges s) (fbo_tempIDs s).
Definition set_doDeferWrite b s := MkFbo (fbo_heap s) (fbo_dirty s) (fbo_fileBlockStates s)
  (fbo_unrefCache s) (fbo_deCache s) (fbo_deferredWrites s) (fbo_deferredDirtyDeletes s)
  b (fbo_localChanges s) (fbo_tempIDs s).
Definition add_localChange w s := MkFbo (fbo_heap s) (fbo_dirty s) (fbo_fileBlockStates s)
  (fbo_unrefCache s) (fbo_deCache s) (fbo_deferredWrites s) (fbo_deferredDirtyDeletes s)
  (fbo_doDeferWrite s) (fbo_localChanges s ++ [w]) (fbo_tempIDs s).
Definition next_tempID s := MkFbo (fbo_heap s) (fbo_dirty s) (fbo_fileBlockStates s)
  (fbo_unrefCache s) (fbo_deCache s) (fbo_deferredWrites s) (fbo_deferredDirtyDeletes s)
  (fbo_doDeferWrite s) (fbo_localChanges s) (S (fbo_tempIDs s)).

(** ** What the code gets from its configuration *)

Class Config := {
  cfg_MaxFileBytes : Z;
  cfg_BlockSplitter : BlockSplitterSimple;
  (** [KBPKI().GetCurrentUserInfo]: name and uid *)
  cfg_CurrentUser : res (string * UID);
  (** [md.GetTlfHandle().IsWriter] *)
  cfg_IsWriter : UID → bool;
  cfg_LatestKeyGeneration : KeyGen;
  cfg_DataVersion : DataVer;
  (** the clean block of a pointer, from the clean cache, or else from
      [BlockOps().Get] decoded into the given new block *)
  cfg_Get : BlockPointer → Block → res Block;
  (** the result of the n-th call of [Crypto().MakeTemporaryBlockID] *)
  cfg_TempID : nat → res BlockID
}.

(** ** Memory *)

Definition nil_deref {A} : go folderBlockOps A := panic "nil pointer dereference".

Definition alloc (b : Block) : go folderBlockOps addr := λ s,
  let a := fresh (dom (fbo_heap s)) in
  (Ok a, set_heap (<[a := b]>) s).

Definition load (a : addr) : go folderBlockOps Block := λ s,
  match fbo_heap s !! a with
  | Some b => (Ok b, s)
  | None => (Panic "nil pointer dereference", s)
  end.

Definition load_file (a : addr) : go folderBlockOps FileBlock :=
  load a ≫= λ b, match b with FileB f => mret f | _ => nil_deref end.

Definition load_dir (a : addr) : go folderBlockOps DirBlock :=
  load a ≫= λ b, match b with DirB d => mret d | _ => nil_deref end.

Definition store (a : addr) (b : Block) : go folderBlockOps unit :=
  modify (set_heap (<[a := b]>)).

(** ** Copies *)

(** The serialised fields of a block: the cached size is not one. *)
Definition exported_common (c : CommonBlock) : CommonBlock := MkCommonBlock (cb_IsInd c) 0.
Definition exported_file (b : FileBlock) : FileBlock :=
  MkFileBlock (exported_common (fb_CommonBlock b)) (fb_Contents b) (fb_IPtrs b).
Definition exported_dir (b : DirBlock) : DirBlock :=
  MkDirBlock (exported_common (db_CommonBlock b)) (db_Children b) (db_IPtrs b).

(** [b.IPtrs = append(b.IPtrs, p)]. *)
Definition add_iptr (b : FileBlock) (p : IndirectFilePtr) : FileBlock :=
  MkFileBlock (fb_CommonBlock b) (fb_Contents b) (fb_IPtrs b ++ [p]).

Section folder_blocks.
Context `{Config, Codec FileBlock, Codec DirBlock}.

(** [CodecUpdate]: encode the exported fields, decode into a new block. *)
Definition FileBlock_DeepCopy (b : FileBlock) : res FileBlock :=
  buf ← Encode (exported_file b); Decode buf.

Definition DirBlock_DeepCopy (b : DirBlock) : res DirBlock :=
  buf ← Encode (exported_dir b); Decode buf.

(** ** The block cache, as far as dirty blocks go *)

Definition bcache_IsDirty (ptr : BlockPointer) (branch : BranchName) (s : folderBlockOps) : bool :=
  bool_decide (is_Some (fbo_dirty s !! dirty_key ptr branch)).

Definition bcache_PutDirty (ptr : BlockPointer) (branch : BranchName) (a : addr)
    : go folderBlockOps unit :=
  modify (set_dirty (<[dirty_key ptr branch := a]>)).

Definition bcache_DeleteDirty (ptr : BlockPointer) (branch : BranchName)
    : go folderBlockOps unit :=
  modify (set_dirty (delete (dirty_key ptr branch))).

Definition fileBlockState (ptr : BlockPointer) (s : folderBlockOps) : syncBlockState :=
  default blockNotBeingSynced (fbo_fileBlockStates s !! ptr).

Definition GetState (s : folderBlockOps) : overallBlockState :=
  if decide (size (fbo_deCache s) = 0) then cleanState else dirtyState.

(** ** Finding blocks *)

Definition getBlockHelperLocked (ptr : BlockPointer) (branch : BranchName) (newBlock : Block)
    : go folderBlockOps addr :=
  if negb (BlockPointer_IsValid ptr) then fail (InvalidBlockRefError (BlockPointer_ref ptr))
  else
    s ← get;
    match fbo_dirty s !! dirty_key ptr branch with
    | Some a => mret a
    | None => block ← lift_res (cfg_Get ptr newBlock); alloc block
    end.

Definition getFileBlockHelperLocked (ptr : BlockPointer) (branch : BranchName)
    : go folderBlockOps addr :=
  a ← getBlockHelperLocked ptr branch (FileB NewFileBlock);
  block ← load a;
  match block with
  | FileB _ => mret a
  | _ => fail (NotFileBlockError ptr)
  end.

Definition GetBlockForReading (ptr : BlockPointer) (branch : BranchName)
    : go folderBlockOps addr :=
  getBlockHelperLocked ptr branch NewCommonBlock.

Definition getDirBlockHelperLocked (ptr : BlockPointer) (branch : BranchName)
    : go folderBlockOps addr :=
  a ← getBlockHelperLocked ptr branch NewDirBlock;
  block ← load a;
  match block with
  | DirB _ => mret a
  | _ => fail (NotDirBlockError ptr)
  end.

Definition getFileBlockLocked (ptr : BlockPointer) (file : path) (rtype : blockReqType)
    : go folderBlockOps addr :=
  if negb (path_isValid file) then fail (InvalidPathError file)
  else
    let branch := fbr_Branch (p_FolderBranch file) in
    a ← getFileBlockHelperLocked ptr branch;
    s ← get;
    match rtype with
    | blockWrite =>
        if negb (bcache_IsDirty ptr branch s) ||
           bool_decide (fileBlockState ptr s = blockSyncingNotDirty)
        then
          fblock ← load_file a;
          copy ← lift_res (FileBlock_DeepCopy fblock);
          alloc (FileB copy)
        else mret a
    | blockRead => mret a
    end.

Definition getFileLocked (file : path) (rtype : blockReqType) : go folderBlockOps addr :=
  tail ← lift_res (tailPointer file);
  getFileBlockLocked tail file rtype.

Definition GetIndirectFileBlockInfos (file : path) : go folderBlockOps (list BlockInfo) :=
  a ← getFileLocked file blockRead;
  fBlock ← load_file a;
  if fb_IsInd fBlock then mret (ifp_BlockInfo <$> fb_IPtrs fBlock) else mret [].

Definition getDirLocked (dir : path) (rtype : blockReqType) : go folderBlockOps addr :=
  if negb (path_isValid dir) then fail (InvalidPathError dir)
  else
    let branch := fbr_Branch (p_FolderBranch dir) in
    tail ← lift_res (tailPointer dir);
    a ← getDirBlockHelperLocked tail branch;
    s ← get;
    match rtype with
    | blockWrite =>
        if negb (bcache_IsDirty tail branch s) then
          dblock ← load_dir a;
          copy ← lift_res (DirBlock_DeepCopy dblock);
          alloc (DirB copy)
        else mret a
    | blockRead => mret a
    end.

(** ** The block at an offset *)

(** The index chosen by the scan of the indirect pointers: the first
    with this very offset, or the one before the first with a greater
    offset, or the last.  It is -1 if there is none. *)
Fixpoint next_index (iptrs : list IndirectFilePtr) (off : Z) (i : Z) : Z :=
  match iptrs with
  | [] => i - 1
  | p :: rest =>
      if decide (ifp_Off p = off) then i
      else if decide (ifp_Off p > off)%Z then i - 1
      else next_index rest off (i + 1)
  end%Z.

(** What [getFileBlockAtOffsetLocked] returns. *)
Record blockAtOffset := MkBlockAtOffset {
  bao_ptr : BlockPointer;
  bao_parentBlock : option addr;
  bao_indexInParent : nat;
  bao_block : addr;
  bao_more : bool;
  bao_startOff : Z
}.

(** The search descends one level of indirection per step; the code
    only ever makes one. *)
Definition maxIndirection : nat := 8.

Fixpoint search_block (fuel : nat) (file : path) (off : Z) (rtype : blockReqType)
    (r : blockAtOffset) : go folderBlockOps blockAtOffset :=
  match fuel with
  | O => panic "out of fuel"
  | S fuel =>
      block ← load_file (bao_block r);
      if fb_IsInd block then
        let nextIndex := next_index (fb_IPtrs block) off 0 in
        match (if decide (0 <= nextIndex)%Z then fb_IPtrs block !! Z.to_nat nextIndex else None)
        with
        | None => panic "index out of range"
        | Some nextPtr =>
            let ptr := bi_BlockPointer (ifp_BlockInfo nextPtr) in
            child ← getFileBlockLocked ptr file rtype;
            search_block fuel file off rtype
              (MkBlockAtOffset ptr (Some (bao_block r)) (Z.to_nat nextIndex) child
                 (bao_more r || bool_decide (nextIndex ≠ zlen (fb_IPtrs block) - 1)%Z)
                 (ifp_Off nextPtr))
        end
      else mret r
  end.

Definition getFileBlockAtOffsetLocked (file : path) (topBlock : addr) (off : Z)
    (rtype : blockReqType) : go folderBlockOps blockAtOffset :=
  tail ← lift_res (tailPointer file);
  search_block maxIndirection file off rtype
    (MkBlockAtOffset tail None 0 topBlock false 0).

(** ** Directory entries of dirty files *)

Definition updateWithDirtyEntriesLocked (a : addr) : go folderBlockOps addr :=
  s ← get;
  if decide (size (fbo_deCache s) = 0) then mret a
  else
    block ← load_dir a;
    if decide (map_Exists (λ _ v,
      is_Some (fbo_deCache s !! BlockPointer_ref (DirEntry_BlockPointer v))) (db_Children block))
    then
      copy ← lift_res (DirBlock_DeepCopy block);
      alloc (DirB (MkDirBlock (db_CommonBlock copy)
        (omap (λ v, fbo_deCache s !! BlockPointer_ref (DirEntry_BlockPointer v)) (db_Children block)
         ∪ db_Children copy)
        (db_IPtrs copy)))
    else mret a.

Definition getDirtyDirLocked (dir : path) (rtype : blockReqType) : go folderBlockOps addr :=
  dblock ← getDirLocked dir rtype;
  updateWithDirtyEntriesLocked dblock.

Definition GetDirtyDirChildren (dir : path) : go folderBlockOps (gmap string EntryInfo) :=
  a ← getDirtyDirLocked dir blockRead;
  dblock ← load_dir a;
  mret (de_EntryInfo <$> db_Children dblock).

Definition getDirtyParentAndEntryLocked (file : path) (rtype : blockReqType)
    : go folderBlockOps (addr * DirEntry) :=
  if negb (hasValidParent file) then fail (InvalidParentPathError file)
  else
    parent ← lift_res (parentPath file);
    a ← getDirtyDirLocked parent rtype;
    name ← lift_res (tailName file);
    dblock ← load_dir a;
    match db_Children dblock !! name with
    | None => fail (NoSuchNameError name)
    | Some de => mret (a, de)
    end.

Definition getDirtyEntryLocked (file : path) : go folderBlockOps DirEntry :=
  r ← getDirtyParentAndEntryLocked file blockRead; mret (snd r).

(** ** Dirtying blocks *)

Definition cacheBlockIfNotYetDirtyLocked (ptr : BlockPointer) (branch : BranchName) (block : addr)
    : go folderBlockOps unit :=
  s ← get;
  if negb (bcache_IsDirty ptr branch s) then bcache_PutDirty ptr branch block
  else
    match fileBlockState ptr s with
    | blockNotBeingSynced => mret tt
    | blockSyncingNotDirty =>
        _ ← bcache_PutDirty ptr branch block;
        _ ← modify (set_fileBlockStates (<[ptr := blockSyncingAndDirty]>));
        modify (set_doDeferWrite true)
    | blockSyncingAndDirty => modify (set_doDeferWrite true)
    end.

Definition MakeTemporaryBlockID_next : go folderBlockOps BlockID := λ s,
  (cfg_TempID (fbo_tempIDs s), next_tempID s).

(** The pointer of a block that was never synced. *)
Definition new_file_ptr (id : BlockID) (uid : UID) : BlockPointer :=
  MkBlockPointer id cfg_LatestKeyGeneration cfg_DataVersion uid EmptyString zeroBlockRefNonce.

Definition newRightBlockLocked (ptr : BlockPointer) (branch : BranchName) (pblock : addr)
    (off : Z) : go folderBlockOps unit :=
  newRID ← MakeTemporaryBlockID_next;
  user ← lift_res cfg_CurrentUser;
  rblock ← alloc (FileB (MkFileBlock (MkCommonBlock false 0) [] []));
  let newPtr := new_file_ptr newRID (snd user) in
  pb ← load_file pblock;
  _ ← store pblock (FileB (add_iptr pb (MkIndirectFilePtr (MkBlockInfo newPtr 0) off)));
  _ ← bcache_PutDirty newPtr branch rblock;
  cacheBlockIfNotYetDirtyLocked ptr branch pblock.

(** The key under which the sync info of the entry is kept. *)
Definition getOrCreateSyncInfoLocked (de : DirEntry) : go folderBlockOps blockRef :=
  let ref := BlockPointer_ref (DirEntry_BlockPointer de) in
  s ← get;
  match fbo_unrefCache s !! ref with
  | Some _ => mret ref
  | None =>
      _ ← modify (set_unrefCache (<[ref :=
            MkSyncInfo (de_BlockInfo de) (newSyncOp (DirEntry_BlockPointer de)) [] None 0 0]>));
      mret ref
  end.

Definition si_append (infos : list BlockInfo) (si : syncInfo) : syncInfo :=
  MkSyncInfo (si_oldInfo si) (si_op si) (si_unrefs si ++ infos) (si_bps si) (si_refBytes si)
    (si_unrefBytes si).

(** [si.unrefs = append(si.unrefs, infos...)]. *)
Definition si_addUnrefs (ref : blockRef) (infos : list BlockInfo) : go folderBlockOps unit :=
  modify (set_unrefCache (alter (si_append infos) ref)).

(** [f] applied to [si.op]. *)
Definition si_update_op (ref : blockRef) (f : syncOp → syncOp) : go folderBlockOps unit :=
  modify (set_unrefCache (alter (λ si, MkSyncInfo (si_oldInfo si) (f (si_op si))
    (si_unrefs si) (si_bps si) (si_refBytes si) (si_unrefBytes si)) ref)).

Definition GetDirtyRefs (s : folderBlockOps) : list blockRef := fst <$> map_to_list (fbo_deCache s).

Definition IsDirty (file : path) (s : folderBlockOps) : res bool :=
  tail ← tailPointer file;
  Ok (bcache_IsDirty tail (fbr_Branch (p_FolderBranch file)) s).

Definition clearCacheInfoLocked (file : path) : go folderBlockOps unit :=
  tail ← lift_res (tailPointer file);
  let ref := BlockPointer_ref tail in
  _ ← modify (set_deCache (delete ref));
  modify (set_unrefCache (delete ref)).

End folder_blocks.
