(* ===== verification/FileIO.v ===== *)
(** * FileIO: reading, writing and truncating files

    Models [Read], [writeDataLocked], [Write], [truncateLocked],
    [Truncate] and the end of a sync ([FinishSync])
    of [libkbfs/folder_block_ops.go], on the state of [FolderBlocks].

    A loop of the code is a fixpoint on a fuel argument; [FileIOSpec]
    proves that the fuel each operation passes is enough.  Blocking on
    too many dirty bytes ([maybeWaitOnDeferredWrites], the
    [forceSyncChan]) only delays an operation and is not modelled. *)

From Stdlib Require Import ZArith Lia.
From S2P Require Import Prelude Types Errors GoStd Ids CryptoCommon Splitter DataTypes Ops FolderBlocks.

Definition set_EncodedSize (i : BlockInfo) (sz : Z) : BlockInfo :=
  MkBlockInfo (bi_BlockPointer i) sz.

(** [de.EncodedSize = 0; de.Size = size]. *)
Definition de_resize (de : DirEntry) (size : Z) : DirEntry :=
  let e := de_EntryInfo de in
  MkDirEntry (set_EncodedSize (de_BlockInfo de) 0)
    (MkEntryInfo (ei_Type e) size (ei_SymPath e) (ei_Mtime e) (ei_Ctime e)).

(** A call whose error the code ignores, and whose nil result it then
    dereferences. *)
Definition unchecked {S A} (m : go S A) : go S A := λ s,
  match m s with
  | (Err _, s') => (Panic "nil pointer dereference", s')
  | r => r
  end.

Section file_io.
Context `{Config, Codec FileBlock, Codec DirBlock}.

Definition path_branch (file : path) : BranchName := fbr_Branch (p_FolderBranch file).

(** ** Read *)

Fixpoint read_loop (fuel : nat) (file : path) (fblock : addr) (off : Z) (nRead : Z)
    (dest : list byte) : go folderBlockOps (Z * list byte) :=
  match fuel with
  | O => panic "out of fuel"
  | S fuel =>
      let n := zlen dest in
      if decide (nRead < n)%Z then
        let nextByte := to_i64 (nRead + off) in
        let toRead := (n - nRead)%Z in
        r ← getFileBlockAtOffsetLocked file fblock nextByte blockRead;
        block ← load_file (bao_block r);
        let blockLen := zlen (fb_Contents block) in
        let lastByteInBlock := to_i64 (bao_startOff r + blockLen) in
        if decide (nextByte >= lastByteInBlock)%Z then mret (nRead, dest)
        else
          let toRead := Z.min toRead (to_i64 (lastByteInBlock - nextByte)) in
          let firstByteToRead := to_i64 (nextByte - bao_startOff r) in
          if decide (0 <= firstByteToRead ∧ 0 <= toRead ∧ toRead + firstByteToRead <= blockLen)%Z
          then
            let chunk := take (Z.to_nat toRead) (drop (Z.to_nat firstByteToRead) (fb_Contents block)) in
            read_loop fuel file fblock off (nRead + toRead)
              (overwrite (Z.to_nat nRead) chunk dest)
          else panic "slice bounds out of range"
      else mret (n, dest)
  end.

(** Returns the number of bytes read and the buffer. *)
Definition Read (file : path) (dest : list byte) (off : Z) : go folderBlockOps (Z * list byte) :=
  fblock ← getFileLocked file blockRead;
  read_loop (S (length dest)) file fblock off 0 dest.

(** ** Write *)

(** The variables of the loop of [writeDataLocked]. *)
Record writeVars := MkWriteVars {
  wv_fblock : addr;
  wv_nCopied : Z;
  wv_de : DirEntry;
  wv_dirtyPtrs : list BlockPointer
}.

(** [bsplit.CopyUntilSplit] on a block in memory. *)
Definition copy_into (a : addr) (lastBlock : bool) (data : list byte) (off : Z)
    : go folderBlockOps Z :=
  block ← load_file a;
  let '(r, block') := CopyUntilSplit cfg_BlockSplitter lastBlock data off block in
  _ ← store a (FileB block');
  lift_res r.

(** Make the file indirect if it is not, and add a block on the right.
    Returns the top block and the pointer of the current block. *)
Definition write_new_block (file : path) (uid : UID) (fblock : addr) (ptr : BlockPointer)
    (rightOff : Z) : go folderBlockOps (addr * BlockPointer) :=
  tail ← lift_res (tailPointer file);
  r ←
    (if decide (ptr = tail) then
       newID ← MakeTemporaryBlockID_next;
       let newPtr := new_file_ptr newID uid in
       fblock ← alloc (FileB (MkFileBlock (MkCommonBlock true 0) []
                               [MkIndirectFilePtr (MkBlockInfo newPtr 0) 0]));
       _ ← bcache_PutDirty tail (path_branch file) fblock;
       mret (fblock, newPtr)
     else mret (fblock, ptr));
  _ ← newRightBlockLocked tail (path_branch file) (fst r) rightOff;
  mret r.

(** The old size of the block is remembered in the sync info and cleared
    in the parent. *)
Definition forget_encoded_size (ref : blockRef) (parent : addr) (i : nat)
    : go folderBlockOps unit :=
  pb ← load_file parent;
  match fb_IPtrs pb !! i with
  | None => panic "index out of range"
  | Some iptr =>
      _ ← si_addUnrefs ref [ifp_BlockInfo iptr];
      store parent (FileB (MkFileBlock (fb_CommonBlock pb) (fb_Contents pb)
        (<[i := MkIndirectFilePtr (set_EncodedSize (ifp_BlockInfo iptr) 0) (ifp_Off iptr)]>
           (fb_IPtrs pb))))
  end.

(** The end of an iteration: update the directory entry if the block
    grew, and dirty the block. *)
Definition write_finish (file : path) (ref : blockRef) (oldLen newLen nCopied : Z)
    (r : blockAtOffset) (v : writeVars) (fp : addr * BlockPointer)
    : go folderBlockOps writeVars :=
  tail ← lift_res (tailPointer file);
  de ← (if decide (oldLen ≠ newLen) then
          let de := de_resize (wv_de v)
            (to_u64 (ei_Size (de_EntryInfo (wv_de v)) + to_u64 (newLen - oldLen))) in
          _ ← modify (set_deCache (<[BlockPointer_ref tail := de]>));
          mret de
        else mret (wv_de v));
  _ ← (match bao_parentBlock r with
       | Some parent => forget_encoded_size ref parent (bao_indexInParent r)
       | None => mret tt
       end);
  _ ← cacheBlockIfNotYetDirtyLocked (snd fp) (path_branch file) (bao_block r);
  mret (MkWriteVars (fst fp) nCopied de (wv_dirtyPtrs v ++ [snd fp])).

(** One iteration of the loop. *)
Definition write_step (file : path) (uid : UID) (ref : blockRef) (data : list byte) (off : Z)
    (v : writeVars) : go folderBlockOps writeVars :=
  let n := zlen data in
  r ← getFileBlockAtOffsetLocked file (wv_fblock v) (to_i64 (off + wv_nCopied v)) blockWrite;
  block ← load_file (bao_block r);
  let oldLen := zlen (fb_Contents block) in
  k ← copy_into (bao_block r) (negb (bao_more r)) (drop (Z.to_nat (wv_nCopied v)) data)
        (to_i64 (to_i64 (off + wv_nCopied v) - bao_startOff r));
  let nCopied := (wv_nCopied v + k)%Z in
  block ← load_file (bao_block r);
  let newLen := zlen (fb_Contents block) in
  if bao_more r && bool_decide (oldLen < newLen)%Z then fail BadSplitError
  else
    fp ← (if bool_decide (nCopied < n)%Z && negb (bao_more r)
          then write_new_block file uid (wv_fblock v) (bao_ptr r)
                 (to_i64 (bao_startOff r + newLen))
          else mret (wv_fblock v, bao_ptr r));
    write_finish file ref oldLen newLen nCopied r v fp.

Fixpoint write_loop (fuel : nat) (file : path) (uid : UID) (ref : blockRef) (data : list byte)
    (off : Z) (v : writeVars) : go folderBlockOps writeVars :=
  match fuel with
  | O => panic "out of fuel"
  | S fuel =>
      if decide (wv_nCopied v < zlen data)%Z then
        v ← write_step file uid ref data off v;
        write_loop fuel file uid ref data off v
      else mret v
  end.

(** Every iteration copies a byte or fills a block before [off]. *)
Definition write_fuel (data : list byte) (off : Z) : nat :=
  S (length data + Z.to_nat (off + zlen data)).

(** The top block of an indirect file is always dirtied. *)
Definition write_last (file : path) (v : writeVars) : go folderBlockOps (list BlockPointer) :=
  top ← load_file (wv_fblock v);
  if fb_IsInd top then
    tail ← lift_res (tailPointer file);
    _ ← cacheBlockIfNotYetDirtyLocked tail (path_branch file) (wv_fblock v);
    mret (wv_dirtyPtrs v ++ [tail])
  else mret (wv_dirtyPtrs v).

(** The loop and what follows it: the pointers of the dirtied blocks. *)
Definition write_body (file : path) (uid : UID) (ref : blockRef) (data : list byte) (off : Z)
    (fblock : addr) (de : DirEntry) : go folderBlockOps (list BlockPointer) :=
  v ← write_loop (write_fuel data off) file uid ref data off (MkWriteVars fblock 0 de []);
  write_last file v.

Definition checkWriter : go folderBlockOps UID :=
  user ← lift_res cfg_CurrentUser;
  if negb (cfg_IsWriter (snd user)) then fail (WriteAccessError (fst user)) else mret (snd user).

Definition writeDataLocked (file : path) (data : list byte) (off : Z)
    : go folderBlockOps (WriteRange * list BlockPointer) :=
  let sz := to_i64 (off + zlen data) in
  if decide (to_u64 sz > cfg_MaxFileBytes)%Z then fail (FileTooBigError file sz cfg_MaxFileBytes)
  else
    uid ← checkWriter;
    fblock ← getFileLocked file blockWrite;
    de ← getDirtyEntryLocked file;
    ref ← getOrCreateSyncInfoLocked de;
    dirtyPtrs ← write_body file uid ref data off fblock de;
    let w := MkWriteRange (to_u64 off) (zlen data) in
    _ ← si_update_op ref (λ so, snd (so_addWrite (wr_Off w) (wr_Len w) so));
    mret (w, dirtyPtrs).

(** ** Truncate *)

(** The pointers past the new last block are dropped and unreferenced. *)
Definition drop_iptrs (ref : blockRef) (parent : addr) (i : nat) : go folderBlockOps unit :=
  pb ← load_file parent;
  _ ← si_addUnrefs ref (ifp_BlockInfo <$> drop (S i) (fb_IPtrs pb));
  store parent (FileB (MkFileBlock (fb_CommonBlock pb) (fb_Contents pb)
    (take (S i) (fb_IPtrs pb)))).

(** The changes to the parent and top block of a shrinking file. *)
Definition truncate_parents (file : path) (ref : blockRef) (fblock : addr) (r : blockAtOffset)
    : go folderBlockOps unit :=
  tail ← lift_res (tailPointer file);
  _ ← (if bao_more r then
         match bao_parentBlock r with
         | None => nil_deref
         | Some parent =>
             _ ← drop_iptrs ref parent (bao_indexInParent r);
             cacheBlockIfNotYetDirtyLocked tail (path_branch file) parent
         end
       else mret tt);
  top ← load_file fblock;
  _ ← (if fb_IsInd top then cacheBlockIfNotYetDirtyLocked tail (path_branch file) fblock
       else mret tt);
  match bao_parentBlock r with
  | Some parent => forget_encoded_size ref parent (bao_indexInParent r)
  | None => mret tt
  end.

(** The truncate is recorded in the sync op, the entry gets its new size,
    and the last block is dirtied. *)
Definition truncate_record (file : path) (ref : blockRef) (size : Z) (de : DirEntry)
    (ptr : BlockPointer) (block : addr)
    : go folderBlockOps (option WriteRange * list BlockPointer) :=
  _ ← si_update_op ref (λ so, snd (so_addTruncate size so));
  tail ← lift_res (tailPointer file);
  _ ← modify (set_deCache (<[BlockPointer_ref tail := de_resize de size]>));
  _ ← cacheBlockIfNotYetDirtyLocked ptr (path_branch file) block;
  mret (Some (MkWriteRange size 0), []).

(** The data past [size] is deleted, and perhaps entire blocks. *)
Definition truncate_shrink (file : path) (size : Z) (fblock : addr) (r : blockAtOffset)
    (block : FileBlock) : go folderBlockOps (option WriteRange * list BlockPointer) :=
  de ← getDirtyEntryLocked file;
  let keep := to_i64 (to_i64 size - bao_startOff r) in
  if decide (keep < 0)%Z then panic "slice bounds out of range"
  else
    _ ← store (bao_block r)
          (FileB (set_Contents block (take (Z.to_nat keep) (fb_Contents block))));
    ref ← getOrCreateSyncInfoLocked de;
    _ ← truncate_parents file ref fblock r;
    truncate_record file ref size de (bao_ptr r) (bao_block r).

Definition truncateLocked (file : path) (size : Z)
    : go folderBlockOps (option WriteRange * list BlockPointer) :=
  _ ← checkWriter;
  fblock ← getFileLocked file blockWrite;
  let iSize := to_i64 size in
  r ← unchecked (getFileBlockAtOffsetLocked file fblock iSize blockWrite);
  block ← load_file (bao_block r);
  let currLen := to_i64 (bao_startOff r + zlen (fb_Contents block)) in
  if decide (currLen < iSize)%Z then
    let moreNeeded := to_i64 (iSize - currLen) in
    if decide (0 <= moreNeeded)%Z then
      w ← writeDataLocked file (zeros (Z.to_nat moreNeeded)) currLen;
      mret (Some (fst w), snd w)
    else panic "makeslice: len out of range"
  else if decide (currLen = iSize) then mret (None, [])
  else truncate_shrink file size fblock r block.

(** ** The exported operations *)

(** The deferred call [fbo.doDeferWrite = false]. *)
Definition reset_doDefer {A} (m : go folderBlockOps A) : go folderBlockOps A := λ s,
  let '(r, s') := m s in (r, set_doDeferWrite false s').

(** [p] is [nodeCache.PathFromNode] of the node. *)
Definition pathFromNodeForBlockWriteLocked (p : path) : go folderBlockOps path :=
  if negb (path_isValid p) then fail (InvalidPathError p) else mret p.

Definition defer_if_needed (w : deferredWrite) (dirtyPtrs : list BlockPointer)
    : go folderBlockOps unit :=
  modify (λ s, if fbo_doDeferWrite s
               then set_deferred (fbo_deferredWrites s ++ [w])
                      (fbo_deferredDirtyDeletes s ++ dirtyPtrs) s
               else s).

Definition Write (p : path) (data : list byte) (off : Z) : go folderBlockOps unit :=
  filePath ← pathFromNodeForBlockWriteLocked p;
  reset_doDefer (
    r ← writeDataLocked filePath data off;
    _ ← modify (add_localChange (fst r));
    defer_if_needed (DeferredWrite data off) (snd r)).

Definition Truncate (p : path) (size : Z) : go folderBlockOps unit :=
  filePath ← pathFromNodeForBlockWriteLocked p;
  reset_doDefer (
    r ← truncateLocked filePath size;
    _ ← (match fst r with Some w => modify (add_localChange w) | None => mret tt end);
    defer_if_needed (DeferredTruncate size) (snd r)).

(** ** The end of a sync *)

Definition run_deferred (newPath : path) (w : deferredWrite) : go folderBlockOps unit :=
  match w with
  | DeferredWrite data off => _ ← writeDataLocked newPath data off; mret tt
  | DeferredTruncate size => _ ← truncateLocked newPath size; mret tt
  end.

(** The old blocks leave the dirty cache, the block states and the
    deferred lists are reset, and the blocks dirtied by the deferred
    writes and the cached entry are dropped.  Returns the deferred
    writes.  (Permanent clean blocks are deleted as well, which this
    state does not hold.) *)
Definition finish_cleanup (branch : BranchName) (oldPath : path)
    (oldFileBlockPtrs : list BlockPointer) : go folderBlockOps (list deferredWrite) :=
  _ ← go_for oldFileBlockPtrs (λ ptr, bcache_DeleteDirty ptr branch);
  _ ← modify (set_fileBlockStates (λ _, ∅));
  s ← get;
  let deletes := fbo_deferredDirtyDeletes s in
  let writes := fbo_deferredWrites s in
  _ ← modify (set_deferred [] []);
  _ ← go_for deletes (λ ptr, bcache_DeleteDirty ptr branch);
  _ ← clearCacheInfoLocked oldPath;
  mret writes.

Definition FinishSync (branch : BranchName) (oldPath newPath : path)
    (oldFileBlockPtrs : list BlockPointer) : go folderBlockOps bool :=
  writes ← finish_cleanup branch oldPath oldFileBlockPtrs;
  _ ← go_for writes (run_deferred newPath);
  mret (bool_decide (length writes ≠ 0)).

End file_io.
