(* ===== verification/Examples.v ===== *)
(** * Examples: concrete instances for the witnesses

    An executable codec for every countable type, so that witnesses can
    instantiate the [Codec] interface with functions that compute, and
    the countable instances of blocks. *)

From Stdlib Require Import ZArith Lia.
From S2P Require Import Prelude Types Errors CryptoCommon.

Fixpoint positive_bytes (p : positive) : list byte :=
  match p with
  | xH => []
  | xO p => x00 :: positive_bytes p
  | xI p => x01 :: positive_bytes p
  end.

Fixpoint bytes_positive (l : list byte) : option positive :=
  match l with
  | [] => Some xH
  | x00 :: l => xO <$> bytes_positive l
  | x01 :: l => xI <$> bytes_positive l
  | _ => None
  end.

Lemma bytes_positive_bytes p : bytes_positive (positive_bytes p) = Some p.
Proof. by induction p as [p IH|p IH|]; simpl; rewrite ?IH. Qed.

(** The codec of a countable type. *)
#[local] Program Instance countable_codec `{Countable A} : Codec A := {|
  Encode a := Ok (positive_bytes (encode a));
  Decode buf := match bytes_positive buf with
                | Some p => match decode p with
                            | Some a => Ok a
                            | None => Err (ErrorString "decode")
                            end
                | None => Err (ErrorString "decode")
                end
|}.
Next Obligation.
  intros A ? ? a buf [= <-]. simpl. rewrite bytes_positive_bytes. by rewrite decode_encode.
Qed.

#[global] Instance EntryType_countable : Countable EntryType.
Proof.
  apply (inj_countable' (λ t, match t with File => 0 | Exec => 1 | Dir => 2 | Sym => 3 end)
    (λ n, match n with 0 => File | 1 => Exec | 2 => Dir | _ => Sym end)); by intros [].
Defined.
#[global] Instance BlockInfo_countable : Countable BlockInfo.
Proof.
  by apply (inj_countable' (λ i, (bi_BlockPointer i, bi_EncodedSize i))
    (λ '(p, z), MkBlockInfo p z)); intros [].
Defined.
#[global] Instance EntryInfo_countable : Countable EntryInfo.
Proof.
  by apply (inj_countable' (λ e, (ei_Type e, ei_Size e, ei_SymPath e, ei_Mtime e, ei_Ctime e))
    (λ '(t, s, p, m, c), MkEntryInfo t s p m c)); intros [].
Defined.
#[global] Instance DirEntry_countable : Countable DirEntry.
Proof.
  by apply (inj_countable' (λ e, (de_BlockInfo e, de_EntryInfo e))
    (λ '(b, e), MkDirEntry b e)); intros [].
Defined.
#[global] Instance IndirectDirPtr_countable : Countable IndirectDirPtr.
Proof.
  by apply (inj_countable' (λ i, (idp_BlockInfo i, idp_Off i))
    (λ '(b, o), MkIndirectDirPtr b o)); intros [].
Defined.
#[global] Instance IndirectFilePtr_countable : Countable IndirectFilePtr.
Proof.
  by apply (inj_countable' (λ i, (ifp_BlockInfo i, ifp_Off i))
    (λ '(b, o), MkIndirectFilePtr b o)); intros [].
Defined.
#[global] Instance CommonBlock_countable : Countable CommonBlock.
Proof.
  by apply (inj_countable' (λ c, (cb_IsInd c, cb_cachedEncodedSize c))
    (λ '(i, z), MkCommonBlock i z)); intros [].
Defined.
#[global] Instance DirBlock_countable : Countable DirBlock.
Proof.
  by apply (inj_countable' (λ d, (db_CommonBlock d, db_Children d, db_IPtrs d))
    (λ '(c, m, i), MkDirBlock c m i)); intros [].
Defined.
#[global] Instance FileBlock_countable : Countable FileBlock.
Proof.
  by apply (inj_countable' (λ f, (fb_CommonBlock f, fb_Contents f, fb_IPtrs f))
    (λ '(c, m, i), MkFileBlock c m i)); intros [].
Defined.

#[global] Instance FileBlock_codec : Codec FileBlock := countable_codec.
#[global] Instance DirBlock_codec : Codec DirBlock := countable_codec.
