(* ===== verification/FileChunks.v ===== *)
(** * FileChunks: a file as a list of blocks

    The contents of a file are the concatenation of its blocks; every
    block but the last is full.  This file has the arithmetic of that
    representation: which block holds an offset, what the scan of the
    indirect pointers finds, and how filling one block with
    [CopyUntilSplit] advances a write of the whole file. *)

From Stdlib Require Import ZArith Lia.
From S2P Require Import Prelude Types Errors GoStd CryptoCommon Splitter FolderBlocks.

Section chunks.
Context (m : nat) (Hm : 0 < m).

(** Blocks of [m] bytes, the last possibly shorter. *)
Definition chunks_ok (cs : list (list byte)) : Prop :=
  cs ≠ [] ∧ ∀ i c, cs !! i = Some c →
    if decide (S i = length cs) then length c <= m else length c = m.

(** The index of the block for an offset: the last block for an offset
    past the end. *)
Definition locate (cs : list (list byte)) (pos : nat) : nat := min (pos / m) (length cs - 1).

Lemma chunks_ok_length cs i c : chunks_ok cs → cs !! i = Some c → length c <= m.
Proof. intros [_ Hcs] Hi. specialize (Hcs i c Hi). case_decide; lia. Qed.

Lemma locate_lookup cs pos : chunks_ok cs → ∃ c, cs !! locate cs pos = Some c.
Proof.
  intros [Hne _]. apply lookup_lt_is_Some_2. unfold locate. destruct cs; simpl in *; [done|lia].
Qed.

Lemma locate_le cs pos : locate cs pos * m <= pos.
Proof.
  unfold locate. pose proof (Nat.Div0.mul_div_le pos m).
  destruct (Nat.min_spec (pos / m) (length cs - 1)) as [[? ->]|[? ->]]; nia.
Qed.

(** Below the last block, the offset is inside the block found. *)
Lemma locate_lt cs pos :
  locate cs pos ≠ length cs - 1 → pos < locate cs pos * m + m.
Proof.
  intros Hl. unfold locate in *. pose proof (Nat.mul_succ_div_gt pos m).
  destruct (Nat.min_spec (pos / m) (length cs - 1)) as [[? Heq]|[? Heq]]; rewrite Heq in *; nia.
Qed.

Lemma length_concat_take cs i :
  chunks_ok cs → i < length cs → length (concat (take i cs)) = i * m.
Proof.
  intros [_ Hcs]. induction i as [|i IH]; intros Hi; [done|].
  destruct (lookup_lt_is_Some_2 cs i) as [c Hc]; [lia|].
  rewrite (take_S_r cs i c Hc), concat_app, length_app, IH by lia. simpl. rewrite app_nil_r.
  specialize (Hcs i c Hc). case_decide; lia.
Qed.

Lemma concat_split (cs : list (list byte)) i c :
  cs !! i = Some c → concat cs = concat (take i cs) ++ c ++ concat (drop (S i) cs).
Proof.
  intros Hi. rewrite <- (take_drop_middle cs i c Hi) at 1. by rewrite concat_app.
Qed.

Lemma concat_insert (cs : list (list byte)) i c c' :
  cs !! i = Some c →
  concat (<[i := c']> cs) = concat (take i cs) ++ c' ++ concat (drop (S i) cs).
Proof.
  intros Hi. rewrite (concat_split (<[i:=c']> cs) i c')
    by (apply list_lookup_insert_eq; by eapply lookup_lt_Some).
  by rewrite take_insert_ge, drop_insert_lt by lia.
Qed.

Lemma drop_last_nil (cs : list (list byte)) i : S i = length cs → drop (S i) cs = [].
Proof. intros. apply drop_ge. lia. Qed.

Lemma length_chunks cs i c :
  chunks_ok cs → cs !! i = Some c → S i = length cs → length (concat cs) = i * m + length c.
Proof.
  intros Hcs Hi Hl. rewrite (concat_split cs i c Hi), drop_last_nil by done. simpl.
  rewrite app_nil_r, length_app, length_concat_take by (done || lia). done.
Qed.

(** A write within one block, or past the end of the last one. *)
Lemma concat_insert_write cs i c lo d :
  chunks_ok cs → cs !! i = Some c → lo + length d <= length c ∨ S i = length cs →
  concat (<[i := write_at lo d c]> cs) = write_at (i * m + lo) d (concat cs).
Proof.
  intros Hcs Hi Hor. pose proof (lookup_lt_Some _ _ _ Hi).
  rewrite (concat_insert cs i c), (concat_split cs i c Hi) by done.
  rewrite write_at_app_r by (rewrite length_concat_take by done; lia).
  rewrite length_concat_take by done. replace (i * m + lo - i * m) with lo by lia.
  f_equal. destruct Hor as [Hle|Hl].
  - by rewrite write_at_app_l by lia.
  - rewrite drop_last_nil by done. by rewrite !app_nil_r.
Qed.

(** Filling the last block with zeros. *)
Lemma concat_insert_extend cs i c n :
  chunks_ok cs → cs !! i = Some c → S i = length cs →
  concat (<[i := extend n c]> cs) = extend (i * m + n) (concat cs).
Proof.
  intros Hcs Hi Hl. rewrite (concat_insert cs i c), (concat_split cs i c Hi) by done.
  rewrite drop_last_nil by done. simpl. rewrite !app_nil_r. unfold extend.
  rewrite length_app, length_concat_take by (done || lia). rewrite <- app_assoc.
  do 2 f_equal. f_equal. lia.
Qed.

(** ** One step of a write

    Filling the block at [pos] with a prefix of [d]: the number of bytes
    taken and the new block. *)
Definition chunk_step (cs : list (list byte)) (pos : nat) (d : list byte) : nat * list byte :=
  let i := locate cs pos in
  let c := cs !!! i in
  let lo := pos - i * m in
  if decide (lo + length d <= m) then (length d, write_at lo d c)
  else if decide (lo <= m) then (m - lo, write_at lo (take (m - lo) d) c)
  else (0, extend m c).

(** The blocks after the step: a new block on the right if the data does
    not fit in the last one. *)
Definition chunk_result (cs : list (list byte)) (pos : nat) (d : list byte) : list (list byte) :=
  let '(k, c') := chunk_step cs pos d in
  <[locate cs pos := c']> cs ++
  (if decide (k < length d ∧ locate cs pos = length cs - 1) then [[]] else []).

Section step.
Context (cs : list (list byte)) (pos : nat) (d : list byte).
Hypothesis Hcs : chunks_ok cs.
Abbreviation i := (locate cs pos).
Abbreviation c := (cs !!! locate cs pos).
Abbreviation lo := (pos - locate cs pos * m).
Abbreviation k := (fst (chunk_step cs pos d)).
Abbreviation c' := (snd (chunk_step cs pos d)).

Lemma chunk_lookup : cs !! i = Some c.
Proof.
  destruct (locate_lookup cs pos Hcs) as [x Hx]. by rewrite (list_lookup_total_correct _ _ _ Hx).
Qed.

Lemma chunk_c_le : length c <= m.
Proof. eapply chunks_ok_length; [done|apply chunk_lookup]. Qed.

Lemma chunk_i_lt : i < length cs.
Proof. eapply lookup_lt_Some, chunk_lookup. Qed.

Lemma chunk_c_full : i ≠ length cs - 1 → length c = m ∧ lo < m.
Proof.
  intros Hl. pose proof chunk_i_lt. pose proof (locate_lt cs pos Hl).
  destruct Hcs as [_ Hc]. specialize (Hc _ _ chunk_lookup).
  rewrite decide_False in Hc by lia. lia.
Qed.

Lemma chunk_step_k : k <= length d.
Proof. unfold chunk_step. repeat case_decide; simpl; lia. Qed.

Lemma chunk_step_length :
  length c <= length c' <= m ∧ (k < length d → length c' = m) ∧
  (i ≠ length cs - 1 → length c' = length c).
Proof.
  pose proof chunk_c_le. pose proof chunk_c_full.
  unfold chunk_step; repeat case_decide; simpl;
    rewrite ?length_write_at, ?length_extend, ?length_take; lia.
Qed.

(** The step takes a byte, or the blocks end at or before [pos]. *)
Lemma chunk_step_progress : d ≠ [] → 1 <= k ∨ (i = length cs - 1 ∧ length cs * m <= pos).
Proof.
  intros Hd. assert (0 < length d) by (destruct d; simpl; [done|lia]).
  pose proof chunk_c_full. pose proof chunk_i_lt. pose proof (locate_le cs pos).
  unfold chunk_step. repeat case_decide; simpl; try lia.
  - destruct (decide (i = length cs - 1)) as [Heq|Hne]; [|lia].
    destruct (decide (lo = m)); [right|left; lia]. split; [done|]. nia.
  - destruct (decide (i = length cs - 1)) as [Heq|Hne]; [|lia]. right. split; [done|]. nia.
Qed.

Lemma chunk_result_ok : chunks_ok (chunk_result cs pos d).
Proof.
  pose proof chunk_step_length as (Hlen & Hful & Hin). pose proof chunk_i_lt.
  unfold chunk_result. destruct (chunk_step cs pos d) as [k0 c0] eqn:E; simpl in *.
  destruct Hcs as [Hne Hc]. split.
  { case_decide; [by destruct (<[i:=c0]> cs)|]. rewrite app_nil_r.
    intros Hnil%(f_equal length). rewrite length_insert in Hnil. simpl in Hnil. lia. }
  intros j x. rewrite length_app, length_insert. case_decide as Hnew; simpl.
  - intros [Hj|[Hj1 Hj2]]%lookup_app_Some; last first.
    { rewrite length_insert in *. destruct (j - length cs) as [|?] eqn:Ej; [|done].
      simplify_eq/=. rewrite decide_True by lia. lia. }
    pose proof (lookup_lt_Some _ _ _ Hj) as Hlt. rewrite length_insert in Hlt.
    rewrite decide_False by lia. destruct (decide (j = i)) as [->|Hji].
    + rewrite list_lookup_insert_eq in Hj by done. simplify_eq. apply Hful. lia.
    + rewrite list_lookup_insert_ne in Hj by done. specialize (Hc j x Hj).
      rewrite decide_False in Hc by lia. done.
  - rewrite app_nil_r, Nat.add_0_r. intros Hj. destruct (decide (j = i)) as [->|Hji].
    + rewrite list_lookup_insert_eq in Hj by done. simplify_eq.
      case_decide; [lia|]. specialize (Hc _ _ chunk_lookup).
      rewrite decide_False in Hc by done. rewrite Hin by lia. done.
    + rewrite list_lookup_insert_ne in Hj by done. by apply Hc.
Qed.

Lemma concat_chunk_result : concat (chunk_result cs pos d) = concat (<[i := c']> cs).
Proof.
  unfold chunk_result. destruct (chunk_step cs pos d) as [k0 c0]; simpl.
  rewrite concat_app. case_decide; simpl; by rewrite app_nil_r.
Qed.

Lemma length_chunk_result :
  length (concat (chunk_result cs pos d)) = length (concat cs) + (length c' - length c).
Proof.
  rewrite concat_chunk_result, (concat_insert cs i c) by apply chunk_lookup.
  rewrite (concat_split cs i c) by apply chunk_lookup. rewrite !length_app.
  pose proof chunk_step_length. lia.
Qed.

(** The number of blocks never shrinks, and grows when the last block
    is full. *)
Lemma length_chunk_result_ge :
  length cs <= length (chunk_result cs pos d) ∧
  (k < length d → i = length cs - 1 → length (chunk_result cs pos d) = S (length cs)).
Proof.
  unfold chunk_result. destruct (chunk_step cs pos d) as [k0 c0]; simpl.
  rewrite length_app, length_insert. case_decide; simpl; [lia|]. split; [lia|]. tauto.
Qed.

(** What remains to be written after the step gives the same file. *)
Lemma chunk_result_contents :
  d ≠ [] →
  (if decide (k < length d) then write_at (pos + k) (drop k d) (concat (chunk_result cs pos d))
   else concat (chunk_result cs pos d)) = write_at pos d (concat cs).
Proof.
  intros Hd. rewrite concat_chunk_result.
  assert (0 < length d) by (destruct d; simpl; [done|lia]).
  pose proof chunk_c_full as Hful. pose proof chunk_i_lt as Hi. pose proof (locate_le cs pos) as Hle.
  pose proof chunk_c_le as Hc. unfold chunk_step. repeat case_decide; simpl in *; try lia.
  - rewrite concat_insert_write
      by (apply chunk_lookup || done || (rewrite length_take; lia)).
    transitivity (write_at pos (take (m - lo) d ++ drop (m - lo) d) (concat cs));
      [|by rewrite take_drop].
    rewrite write_at_app, length_take, Nat.min_l by lia. f_equal. f_equal. lia.
  - rewrite concat_insert_extend by (apply chunk_lookup || done || lia).
    rewrite Nat.add_0_r. apply write_at_extend. lia.
  - rewrite concat_insert_write by (apply chunk_lookup || done || lia). f_equal. lia.
Qed.

End step.

(** ** Cutting a file short *)

Definition chunk_truncate (cs : list (list byte)) (size : nat) : list (list byte) :=
  let i := locate cs size in
  take (S i) (<[i := take (size - i * m) (cs !!! i)]> cs).

Lemma chunk_truncate_ok cs size : chunks_ok cs → chunks_ok (chunk_truncate cs size).
Proof.
  intros Hcs. pose proof (chunk_i_lt cs size Hcs) as Hi. pose proof (chunk_c_le cs size Hcs) as Hc.
  unfold chunk_truncate. split.
  { intros Hnil%(f_equal length). rewrite length_take, length_insert, Nat.min_l in Hnil by lia. done. }
  intros j c. rewrite length_take, length_insert, Nat.min_l by lia.
  rewrite lookup_take_Some. intros [Hj Hlt]. destruct (decide (j = locate cs size)) as [->|Hne].
  - rewrite list_lookup_insert_eq in Hj by done. simplify_eq.
    rewrite decide_True by done. rewrite length_take. lia.
  - rewrite list_lookup_insert_ne in Hj by done. destruct Hcs as [_ Hok]. specialize (Hok j c Hj).
    rewrite decide_False in Hok by lia. rewrite decide_False by lia. done.
Qed.

(** Where the search for the new end of the file stops. *)
Lemma locate_end cs size :
  chunks_ok cs →
  (locate cs size * m + length (cs !!! locate cs size) <= size →
   S (locate cs size) = length cs ∧
   locate cs size * m + length (cs !!! locate cs size) = length (concat cs)) ∧
  (size < locate cs size * m + length (cs !!! locate cs size) → size < length (concat cs)).
Proof.
  intros Hcs. pose proof (chunk_lookup cs size Hcs) as Hi. pose proof (chunk_i_lt cs size Hcs) as Hlt.
  split.
  - intros Hle. destruct (decide (locate cs size = length cs - 1)) as [Heq|Hne].
    + split; [lia|]. symmetry. apply length_chunks; [done|done|lia].
    + destruct (chunk_c_full cs size Hcs Hne) as [Hc Hlo]. lia.
  - intros Hsz. rewrite (concat_split cs _ _ Hi), !length_app, length_concat_take by done. lia.
Qed.

Lemma concat_chunk_truncate cs size :
  chunks_ok cs → size <= locate cs size * m + length (cs !!! locate cs size) →
  concat (chunk_truncate cs size) = take size (concat cs).
Proof.
  intros Hcs Hsz. pose proof (chunk_lookup cs size Hcs) as Hi.
  pose proof (chunk_i_lt cs size Hcs) as Hlt. pose proof (locate_le cs size) as Hle.
  unfold chunk_truncate.
  set (i := locate cs size) in *. set (c := cs !!! i) in *.
  rewrite (take_S_r _ i (take (size - i * m) c)) by (by apply list_lookup_insert_eq).
  rewrite take_insert_ge by lia. rewrite concat_app. simpl. rewrite app_nil_r.
  rewrite (concat_split cs i c Hi), take_app.
  rewrite (length_concat_take cs i Hcs Hlt), (take_ge (concat (take i cs)))
    by (rewrite length_concat_take by done; lia).
  f_equal. rewrite take_app. replace (size - i * m - length c) with 0 by lia.
  simpl. by rewrite app_nil_r.
Qed.

(** ** Reading from one block *)

Lemma chunk_read cs pos k :
  chunks_ok cs → pos + k <= locate cs pos * m + length (cs !!! locate cs pos) →
  take k (drop (pos - locate cs pos * m) (cs !!! locate cs pos)) = take k (drop pos (concat cs)).
Proof.
  intros Hcs Hk. pose proof (chunk_lookup cs pos Hcs) as Hi.
  pose proof (chunk_i_lt cs pos Hcs) as Hlt. pose proof (locate_le cs pos) as Hle.
  set (i := locate cs pos) in *. set (c := cs !!! i) in *.
  pose proof (length_concat_take cs i Hcs Hlt) as Hl.
  rewrite (concat_split cs i c Hi), drop_app_ge, Hl by lia.
  rewrite drop_app_le by lia. by rewrite take_app_le by (rewrite length_drop; lia).
Qed.

(** ** The scan of the indirect pointers *)

(** Block [j] of the list starts at [j * m]. *)
Definition offsets_ok (iptrs : list IndirectFilePtr) : Prop :=
  ∀ j p, iptrs !! j = Some p → ifp_Off p = Z.of_nat (j * m).

Lemma next_index_from iptrs pos j :
  (∀ i p, iptrs !! i = Some p → ifp_Off p = Z.of_nat ((j + i) * m)) → j <= S (pos / m) →
  next_index iptrs (Z.of_nat pos) (Z.of_nat j) =
  Z.min (Z.of_nat (pos / m)) (Z.of_nat (j + length iptrs) - 1).
Proof.
  revert j. induction iptrs as [|p l IH]; intros j Hoff Hj; simpl.
  { lia. }
  rewrite (Hoff 0 p eq_refl), Nat.add_0_r.
  pose proof (Nat.Div0.mul_div_le pos m). pose proof (Nat.mul_succ_div_gt pos m ltac:(lia)).
  case_decide as He; [|case_decide as Hgt].
  - assert (pos `div` m = j) by (apply Nat2Z.inj in He; nia). lia.
  - assert (pos `div` m < j) by nia. lia.
  - assert (j <= pos / m) by (apply Nat.div_le_lower_bound; nia).
    replace (Z.of_nat j + 1)%Z with (Z.of_nat (S j)) by lia. rewrite IH; [|..|lia].
    + lia.
    + intros i q Hq. rewrite (Hoff (S i) q Hq). f_equal. f_equal. lia.
Qed.

Lemma next_index_locate iptrs cs pos :
  offsets_ok iptrs → length iptrs = length cs → cs ≠ [] →
  next_index iptrs (Z.of_nat pos) 0 = Z.of_nat (locate cs pos).
Proof.
  intros Hoff Hlen Hne. change 0%Z with (Z.of_nat 0).
  rewrite (next_index_from iptrs pos 0) by (done || lia).
  unfold locate. rewrite Hlen. destruct cs; [done|]. simpl. lia.
Qed.

End chunks.
