(* ===== verification/FolderBlocksSpec.v ===== *)
(** * FolderBlocksSpec: the heap behind the file operations

    The invariant of the block state while one file is modified
    ([st_ok]), who may modify a block in place ([owned]), and what the
    primitives of [FolderBlocks] do: fetching a block for writing gives
    an owned block with the same contents, dirtying an owned block makes
    it the block that reads see, and nothing else changes. *)

From Stdlib Require Import ZArith Lia.
From S2P Require Import Prelude Types Errors GoStd Ids CryptoCommon Splitter DataTypes Ops FolderBlocks.

Lemma bool_decide_neg_is_Some {A} (o : option A) :
  negb (bool_decide (is_Some o)) = true ↔ o = None.
Proof.
  rewrite negb_true_iff, bool_decide_eq_false, <- eq_None_not_Some. done.
Qed.

Section heap.
Context `{Config, Codec FileBlock, Codec DirBlock, !EncodeTotal FileBlock, !EncodeTotal DirBlock}.
(** The branch of the file. *)
Context (br : BranchName).
Abbreviation key p := (dirty_key p br).

(** ** What a read sees *)

Definition fview (s : folderBlockOps) (ptr : BlockPointer) : option FileBlock :=
  match fbo_dirty s !! key ptr with
  | Some a => match fbo_heap s !! a with Some (FileB b) => Some b | _ => None end
  | None => match cfg_Get ptr (FileB NewFileBlock) with Ok (FileB b) => Some b | _ => None end
  end.

Definition dview (s : folderBlockOps) (ptr : BlockPointer) : option DirBlock :=
  match fbo_dirty s !! key ptr with
  | Some a => match fbo_heap s !! a with Some (DirB b) => Some b | _ => None end
  | None => match cfg_Get ptr NewDirBlock with Ok (DirB b) => Some b | _ => None end
  end.

Lemma FileBlock_DeepCopy_exported b : FileBlock_DeepCopy b = Ok (exported_file b).
Proof.
  unfold FileBlock_DeepCopy. destruct (Encode_total (exported_file b)) as [buf Hb].
  rewrite Hb. simpl. by apply Decode_Encode.
Qed.

Lemma DirBlock_DeepCopy_exported b : DirBlock_DeepCopy b = Ok (exported_dir b).
Proof.
  unfold DirBlock_DeepCopy. destruct (Encode_total (exported_dir b)) as [buf Hb].
  rewrite Hb. simpl. by apply Decode_Encode.
Qed.

(** ** Allocation only *)

Definition hext (s s' : folderBlockOps) : Prop :=
  ∃ h, s' = set_heap (λ _, h) s ∧ fbo_heap s ⊆ h.

Lemma hext_refl s : hext s s.
Proof. exists (fbo_heap s). split; [by destruct s|done]. Qed.

Lemma hext_trans s1 s2 s3 : hext s1 s2 → hext s2 s3 → hext s1 s3.
Proof.
  intros (h1 & -> & Hs1) (h2 & -> & Hs2). exists h2. split; [done|]. by etrans.
Qed.

Lemma hext_heap s s' a b : hext s s' → fbo_heap s !! a = Some b → fbo_heap s' !! a = Some b.
Proof. intros (h & -> & Hs) Ha. by eapply lookup_weaken. Qed.

Lemma wp_alloc s b (Q : addr → folderBlockOps → Prop) :
  (∀ a, fbo_heap s !! a = None → Q a (set_heap (<[a := b]>) s)) → wp (alloc b) Q s.
Proof.
  intros HQ. eexists _, _. split; [reflexivity|]. apply HQ.
  apply not_elem_of_dom. apply is_fresh.
Qed.

Lemma hext_alloc s a b : fbo_heap s !! a = None → hext s (set_heap (<[a := b]>) s).
Proof.
  intros Ha. exists (<[a := b]> (fbo_heap s)). split; [done|]. by apply insert_subseteq.
Qed.

Lemma wp_load_file s a b (Q : FileBlock → folderBlockOps → Prop) :
  fbo_heap s !! a = Some (FileB b) → Q b s → wp (load_file a) Q s.
Proof.
  intros Ha HQ. exists b, s. split; [|done]. unfold load_file, load, mbind, go_bind.
  by rewrite Ha.
Qed.

Lemma wp_load_dir s a b (Q : DirBlock → folderBlockOps → Prop) :
  fbo_heap s !! a = Some (DirB b) → Q b s → wp (load_dir a) Q s.
Proof.
  intros Ha HQ. exists b, s. split; [|done]. unfold load_dir, load, mbind, go_bind.
  by rewrite Ha.
Qed.

(** ** The invariant while a file is modified *)

(** The file's own pointers, now and in the future; the addresses the
    operation may modify; the heap and the dirty cache it started from. *)
Context (F : BlockPointer → Prop) (M : addr → Prop).
Context (h0 : gmap addr Block) (d0 : gmap dirtyBlockID addr).

Record st_ok (s : folderBlockOps) : Prop := {
  st_inj k1 k2 a : fbo_dirty s !! k1 = Some a → fbo_dirty s !! k2 = Some a → k1 = k2;
  st_dom k a : fbo_dirty s !! k = Some a → is_Some (fbo_heap s !! a);
  st_heap a : ¬ M a → fbo_heap s !! a = h0 !! a;
  st_new a : fbo_heap s !! a = None → M a;
  st_dirty k : (∀ p, F p → k ≠ key p) → fbo_dirty s !! k = d0 !! k;
  st_mine p a : F p → fbo_dirty s !! key p = Some a →
    fileBlockState p s ≠ blockSyncingNotDirty → M a;
  st_sync p : F p → fileBlockState p s = blockSyncingNotDirty →
    is_Some (fbo_dirty s !! key p)
}.

(** [a] holds the block that a writer of [p] may modify: the dirty block
    itself, or a private copy that has to be put into the cache. *)
Definition owned (s : folderBlockOps) (p : BlockPointer) (a : addr) (b : FileBlock) : Prop :=
  F p ∧ M a ∧ fbo_heap s !! a = Some (FileB b) ∧
  (∀ k, fbo_dirty s !! k = Some a → k = key p) ∧
  (fbo_dirty s !! key p = Some a ∨ fbo_dirty s !! key p = None ∨
   fileBlockState p s = blockSyncingNotDirty).

(** The invariant reads the memory, the dirty cache and the sync states. *)
Lemma st_ok_ext s s' :
  fbo_heap s' = fbo_heap s → fbo_dirty s' = fbo_dirty s →
  fbo_fileBlockStates s' = fbo_fileBlockStates s → st_ok s → st_ok s'.
Proof.
  intros E1 E2 E3 [Hi Hd Hh Hn Hdi Hm Hsy].
  assert (∀ p, fileBlockState p s' = fileBlockState p s) as E4.
  { intros p. unfold fileBlockState. by rewrite E3. }
  split; intros *; rewrite ?E1, ?E2, ?E4; eauto.
Qed.

Lemma st_ok_hext s s' : hext s s' → st_ok s → st_ok s'.
Proof.
  intros (h & -> & Hs) [Hi Hd Hh Hn Hdi Hm Hsy].
  split; simpl; [done|..|done|done|done].
  - intros k a Ha. destruct (Hd k a Ha) as [b Hb]. exists b. by eapply lookup_weaken.
  - intros a Ha. rewrite <- Hh by done. destruct (fbo_heap s !! a) as [b|] eqn:E.
    + by eapply lookup_weaken.
    + by destruct Ha; apply Hn.
  - intros a Ha. apply Hn. by eapply lookup_weaken_None.
Qed.

Lemma owned_hext s s' p a b : hext s s' → owned s p a b → owned s' p a b.
Proof.
  intros (h & -> & Hs) (HF & HM & Ha & Ho & Ho'). split_and!; [done..| |done|done].
  simpl. by eapply lookup_weaken.
Qed.

Lemma fview_hext s s' p : hext s s' → st_ok s → fview s' p = fview s p.
Proof.
  intros (h & -> & Hs) Hok. unfold fview. simpl.
  destruct (fbo_dirty s !! key p) as [a|] eqn:E; [|done].
  destruct (st_dom s Hok _ _ E) as [b Hb]. by rewrite Hb, (lookup_weaken _ _ _ _ Hb Hs).
Qed.

Lemma dview_hext s s' p : hext s s' → st_ok s → dview s' p = dview s p.
Proof.
  intros (h & -> & Hs) Hok. unfold dview. simpl.
  destruct (fbo_dirty s !! key p) as [a|] eqn:E; [|done].
  destruct (st_dom s Hok _ _ E) as [b Hb]. by rewrite Hb, (lookup_weaken _ _ _ _ Hb Hs).
Qed.

(** ** Modifying an owned block *)

Lemma st_ok_store s a b : M a → is_Some (fbo_heap s !! a) → st_ok s → st_ok (set_heap (<[a := b]>) s).
Proof.
  intros HM Ha [Hi Hd Hh Hn Hdi Hm Hsy]. split; simpl; [done|..|done|done|done].
  - intros k a' Ha'. rewrite lookup_insert_is_Some'. eauto.
  - intros a' Ha'. rewrite lookup_insert_ne by (by intros ->). by apply Hh.
  - intros a' [? ?]%lookup_insert_None. by apply Hn.
Qed.

Lemma owned_store s p a b b' : owned s p a b → owned (set_heap (<[a := FileB b']>) s) p a b'.
Proof.
  intros (HF & HM & Ha & Ho & Ho'). split_and!; [done..| |done|done]. simpl. apply lookup_insert_eq.
Qed.

Lemma owned_store_ne s p a b a' b' :
  owned s p a b → a' ≠ a → owned (set_heap (<[a' := b']>) s) p a b.
Proof.
  intros (HF & HM & Ha & Ho & Ho') Hne. split_and!; [done..| |done|done]. simpl.
  by rewrite lookup_insert_ne.
Qed.

(** An owned address is in no other block's cache entry. *)
Lemma owned_ne s p a b p' a' :
  owned s p a b → fbo_dirty s !! key p' = Some a' → key p ≠ key p' → a ≠ a'.
Proof. intros (_ & _ & _ & Ho & _) Hd Hne ->. apply Ho in Hd. congruence. Qed.

(** A block that is modified before it is in the cache changes no other
    block's view. *)
Lemma fview_store_ne s p a b b' p' :
  st_ok s → owned s p a b → key p ≠ key p' → fview (set_heap (<[a := b']>) s) p' = fview s p'.
Proof.
  intros Hok Ho Hne. unfold fview. simpl.
  destruct (fbo_dirty s !! key p') as [a'|] eqn:E; [|done].
  destruct (st_dom s Hok _ _ E) as [x Hx].
  rewrite lookup_insert_ne; [done|]. by eapply owned_ne.
Qed.

(** ** Fetching *)

Lemma getFileBlockHelper_spec s ptr b :
  st_ok s → BlockPointer_IsValid ptr = true → fview s ptr = Some b →
  wp (getFileBlockHelperLocked ptr br)
     (λ a s', hext s s' ∧ fbo_heap s' !! a = Some (FileB b) ∧
        (fbo_dirty s !! key ptr = Some a ∨ fbo_dirty s !! key ptr = None)) s.
Proof.
  intros Hok Hv Hb. unfold getFileBlockHelperLocked, getBlockHelperLocked. rewrite Hv. simpl.
  unfold fview in Hb. apply wp_bind. apply wp_bind, wp_get.
  destruct (fbo_dirty s !! key ptr) as [a|] eqn:E.
  - destruct (fbo_heap s !! a) as [[| |b']|] eqn:Ea; simplify_eq.
    apply wp_ret, wp_bind. exists (FileB b), s. split; [unfold load; by rewrite Ea|].
    apply wp_ret. split_and!; [apply hext_refl|done|by left].
  - destruct (cfg_Get ptr (FileB NewFileBlock)) as [[| |b']|e|p] eqn:Eg; simplify_eq.
    apply wp_bind. eapply wp_lift; [done|]. apply wp_alloc. intros a Ha.
    apply wp_bind. eexists (FileB b), _. split.
    { unfold load. simpl. by rewrite lookup_insert_eq. }
    apply wp_ret. split_and!; [by apply hext_alloc|apply lookup_insert_eq|by right].
Qed.

Section fetch.
Context (file : path) (Hfile : path_isValid file = true) (Hbr : fbr_Branch (p_FolderBranch file) = br).

Lemma getFileBlock_read_spec s ptr b :
  st_ok s → BlockPointer_IsValid ptr = true → fview s ptr = Some b →
  wp (getFileBlockLocked ptr file blockRead)
     (λ a s', hext s s' ∧ fbo_heap s' !! a = Some (FileB b)) s.
Proof.
  intros Hok Hv Hb. unfold getFileBlockLocked. rewrite Hfile, Hbr. simpl.
  apply wp_bind. eapply wp_mono; [by apply getFileBlockHelper_spec|].
  intros a s' (He & Ha & _). apply wp_bind, wp_get, wp_ret. done.
Qed.

(** A block fetched for writing is owned, and has the same fields. *)
Lemma getFileBlock_write_spec s ptr b :
  st_ok s → F ptr → BlockPointer_IsValid ptr = true → fview s ptr = Some b →
  wp (getFileBlockLocked ptr file blockWrite)
     (λ a s', hext s s' ∧ (∃ b', owned s' ptr a b' ∧ exported_file b' = exported_file b) ∧
        (fbo_dirty s !! key ptr = Some a ∨ fbo_heap s !! a = None)) s.
Proof.
  intros Hok HF Hv Hb. unfold getFileBlockLocked. rewrite Hfile, Hbr. simpl.
  apply wp_bind. eapply wp_mono; [by apply getFileBlockHelper_spec|].
  intros a s' (He & Ha & Hd). apply wp_bind, wp_get.
  assert (fbo_dirty s' = fbo_dirty s ∧ ∀ p, fileBlockState p s' = fileBlockState p s)
    as [Hd' Hst'] by (by destruct He as (h & -> & _)).
  pose proof (st_ok_hext _ _ He Hok) as Hok'.
  destruct (_ || _) eqn:Ec.
  - apply wp_bind. eapply wp_load_file; [done|]. apply wp_bind.
    eapply wp_lift; [apply FileBlock_DeepCopy_exported|]. apply wp_alloc. intros a' Ha'.
    assert (fbo_heap s !! a' = None) as Hnew.
    { destruct (fbo_heap s !! a') eqn:E'; [|done]. by rewrite (hext_heap _ _ _ _ He E') in Ha'. }
    split; [|split; [|by right]].
    { eapply hext_trans; [done|by apply hext_alloc]. }
    exists (exported_file b). split; [|by destruct b].
    split_and!; [done|by eapply st_new|simpl; apply lookup_insert_eq|..].
    + intros k Hk. simpl in Hk. destruct (st_dom s' Hok' _ _ Hk) as [? ?]. congruence.
    + right. apply orb_true_iff in Ec as [Ec|Ec].
      * left. by apply bool_decide_neg_is_Some in Ec.
      * right. by apply bool_decide_eq_true in Ec.
  - apply orb_false_iff in Ec as [Ec1 Ec2]. apply negb_false_iff, bool_decide_eq_true in Ec1.
    apply bool_decide_eq_false in Ec2. apply wp_ret. rewrite Hd' in Ec1.
    destruct Hd as [Hd|Hd]; [|rewrite Hd in Ec1; by destruct Ec1].
    split_and!; [done| |by left]. exists b. split; [|done].
    split_and!; [done|eapply (st_mine s' Hok'); [done|by rewrite Hd'|done]|done|..].
    + intros k Hk. eapply (st_inj s' Hok'); [done|]. by rewrite Hd'.
    + left. by rewrite Hd'.
Qed.

End fetch.

(** ** Dirtying *)

(** The effect on the block state of putting [a] into the cache. *)
Record cached (s s' : folderBlockOps) (p : BlockPointer) (a : addr) : Prop := {
  ca_heap : fbo_heap s' = fbo_heap s;
  ca_dirty : fbo_dirty s' = <[key p := a]> (fbo_dirty s);
  ca_states p' : p' ≠ p → fileBlockState p' s' = fileBlockState p' s;
  ca_state : fileBlockState p s' ≠ blockSyncingNotDirty;
  ca_synced : fileBlockState p s' = blockNotBeingSynced ↔ fileBlockState p s = blockNotBeingSynced;
  ca_unref : fbo_unrefCache s' = fbo_unrefCache s;
  ca_de : fbo_deCache s' = fbo_deCache s;
  ca_dw : fbo_deferredWrites s' = fbo_deferredWrites s;
  ca_dd : fbo_deferredDirtyDeletes s' = fbo_deferredDirtyDeletes s;
  ca_defer : fbo_doDeferWrite s' = (fbo_doDeferWrite s ||
    (bool_decide (is_Some (fbo_dirty s !! key p)) &&
     negb (bool_decide (fileBlockState p s = blockNotBeingSynced))));
  ca_changes : fbo_localChanges s' = fbo_localChanges s;
  ca_ids : fbo_tempIDs s' = fbo_tempIDs s;
  ca_states_dom p' : is_Some (fbo_fileBlockStates s' !! p') → p' = p ∨ is_Some (fbo_fileBlockStates s !! p')
}.

Lemma cacheBlock_spec s p a b :
  st_ok s → owned s p a b →
  wp (cacheBlockIfNotYetDirtyLocked p br a) (λ _ s', cached s s' p a) s.
Proof.
  intros Hok (HF & HM & Ha & Hu & Ho). unfold cacheBlockIfNotYetDirtyLocked.
  apply wp_bind, wp_get. unfold bcache_IsDirty.
  destruct (fbo_dirty s !! key p) as [a'|] eqn:Ed; simpl.
  - destruct (fileBlockState p s) eqn:Est.
    + apply wp_ret. destruct Ho as [?|[?|?]]; simplify_eq.
      split; try done.
      * by rewrite insert_id.
      * by rewrite Est.
      * rewrite Est. simpl. by rewrite andb_false_r, orb_false_r.
      * by right.
    + apply wp_bind, wp_modify, wp_bind, wp_modify, wp_modify.
      split; simpl; try done.
      * intros p' Hp. unfold fileBlockState. simpl. by rewrite lookup_insert_ne.
      * unfold fileBlockState. simpl. by rewrite lookup_insert_eq.
      * unfold fileBlockState at 1. simpl. rewrite lookup_insert_eq. simpl. by rewrite Est.
      * rewrite Ed, Est, bool_decide_true by done. simpl. by rewrite orb_true_r.
      * intros p' Hp. destruct (decide (p' = p)); [by left|]. rewrite lookup_insert_ne in Hp by done.
        by right.
    + apply wp_modify. destruct Ho as [?|[?|?]]; simplify_eq.
      split; simpl; try done.
      * by rewrite insert_id.
      * unfold fileBlockState in *. simpl. by rewrite Est.
      * rewrite Ed, Est, bool_decide_true by done. simpl. by rewrite orb_true_r.
      * by right.
  - apply wp_modify.
    split; simpl; try done.
    + intros Hst. destruct (st_sync s Hok p HF Hst) as [? ?]. congruence.
    + rewrite Ed, bool_decide_false by (by intros [? ?]). by rewrite orb_false_r.
    + by right.
Qed.

Lemma st_ok_cached s s' p a b : st_ok s → owned s p a b → cached s s' p a → st_ok s'.
Proof.
  intros [Hi Hd Hh Hn Hdi Hm Hsy] (HF & HM & Ha & Hu & Ho) C.
  destruct C as [C1 C2 C3 C4 _ _ _ _ _ _ _ _ _]. split; rewrite ?C1, ?C2; try done.
  - intros k1 k2 a'. rewrite !lookup_insert_Some. intros [[<- <-]|[? E1]] [[<- E2]|[? E2]];
      try done; simplify_eq.
    + by rewrite (Hu k2).
    + by rewrite (Hu k1).
    + by eapply Hi.
  - intros k a'. rewrite lookup_insert_Some. intros [[<- <-]|[? E1]]; [by eexists|by eapply Hd].
  - intros k Hk. rewrite lookup_insert_ne by (intros <-; by eapply Hk). by apply Hdi.
  - intros p' a' HF'. rewrite lookup_insert_Some. intros [[_ <-]|[Hne Hd']] Hst; [done|].
    eapply Hm; [done|done|]. rewrite <- C3; [done|]. by intros ->.
  - intros p' HF' Hst. rewrite lookup_insert_is_Some. destruct (decide (p' = p)) as [->|Hne]; [by left|].
    rewrite C3 in Hst by done. destruct (decide (key p = key p')); [by left|right]. split; [done|].
    by apply Hsy.
Qed.

Lemma owned_cached s s' p a b : owned s p a b → cached s s' p a → owned s' p a b.
Proof.
  intros (HF & HM & Ha & Hu & Ho) [C1 C2 C3 C4 _ _ _ _ _ _ _ _ _].
  split_and!; [done..|by rewrite C1| |].
  - intros k. rewrite C2, lookup_insert_Some. intros [[<- _]|[_ ?]]; [done|by apply Hu].
  - left. by rewrite C2, lookup_insert_eq.
Qed.

(** Dirtying one block leaves the owner of another alone. *)
Lemma owned_cached_ne s s' p a p' a' b' :
  owned s p' a' b' → cached s s' p a → key p ≠ key p' → a ≠ a' → owned s' p' a' b'.
Proof.
  intros (HF & HM & Ha & Hu & Ho) [C1 C2 C3 C4 _ _ _ _ _ _ _ _ _] Hk Hne.
  assert (p' ≠ p) by (by intros ->).
  split_and!; [done..|by rewrite C1| |].
  - intros k. rewrite C2, lookup_insert_Some. intros [[_ ?]|[_ ?]]; [done|by apply Hu].
  - by rewrite C2, lookup_insert_ne, C3.
Qed.

Lemma fview_cached s s' p a b : owned s p a b → cached s s' p a → fview s' p = Some b.
Proof.
  intros (_ & _ & Ha & _) C. unfold fview. rewrite (ca_dirty _ _ _ _ C), (ca_heap _ _ _ _ C).
  by rewrite lookup_insert_eq, Ha.
Qed.

Lemma fview_cached_ne s s' p a p' :
  cached s s' p a → key p ≠ key p' → fview s' p' = fview s p'.
Proof.
  intros C Hne. unfold fview. rewrite (ca_dirty _ _ _ _ C), (ca_heap _ _ _ _ C).
  by rewrite lookup_insert_ne.
Qed.

(** Putting a block into the cache directly, whatever was there. *)
Lemma st_ok_put s p a :
  st_ok s → F p → M a → is_Some (fbo_heap s !! a) → (∀ k, fbo_dirty s !! k = Some a → k = key p) →
  st_ok (set_dirty (<[key p := a]>) s).
Proof.
  intros [Hi Hd Hh Hn Hdi Hm Hsy] HF HM Ha Hu. split; simpl; try done.
  - intros k1 k2 a'. rewrite !lookup_insert_Some. intros [[<- <-]|[? E1]] [[<- E2]|[? E2]];
      try done; simplify_eq.
    + by rewrite (Hu k2).
    + by rewrite (Hu k1).
    + by eapply Hi.
  - intros k a'. rewrite lookup_insert_Some. intros [[<- <-]|[? E1]]; [done|by eapply Hd].
  - intros k Hk. rewrite lookup_insert_ne by (intros <-; by eapply Hk). by apply Hdi.
  - intros p' a' HF'. rewrite lookup_insert_Some. intros [[_ <-]|[Hne Hd']] Hst; [done|].
    by eapply Hm.
  - intros p' HF' Hst. rewrite lookup_insert_is_Some. destruct (decide (key p = key p')); [by left|].
    right. split; [done|]. by apply Hsy.
Qed.

Lemma owned_put s p a b :
  F p → M a → fbo_heap s !! a = Some (FileB b) → (∀ k, fbo_dirty s !! k = Some a → k = key p) →
  owned (set_dirty (<[key p := a]>) s) p a b.
Proof.
  intros HF HM Ha Hu. split_and!; [done..| |].
  - intros k. simpl. rewrite lookup_insert_Some. intros [[<- _]|[_ ?]]; [done|by apply Hu].
  - left. apply lookup_insert_eq.
Qed.

Lemma owned_put_ne s p a p' a' b' :
  owned s p' a' b' → key p ≠ key p' → a ≠ a' →
  owned (set_dirty (<[key p := a]>) s) p' a' b'.
Proof.
  intros (HF & HM & Ha & Hu & Ho) Hk Hne. split_and!; [done..| |].
  - intros k. simpl. rewrite lookup_insert_Some. intros [[_ ?]|[_ ?]]; [done|by apply Hu].
  - simpl. by rewrite lookup_insert_ne.
Qed.

Lemma fview_put_ne s p a p' :
  key p ≠ key p' → fview (set_dirty (<[key p := a]>) s) p' = fview s p'.
Proof. intros Hne. unfold fview. simpl. by rewrite lookup_insert_ne. Qed.

(** ** How the synced state of blocks evolves

    Writes only add dirty blocks, keep a block's being synced, and ask to
    be deferred only if some block of the file is being synced. *)
Record evolves (s s' : folderBlockOps) : Prop := {
  ev_dirty k : is_Some (fbo_dirty s !! k) → is_Some (fbo_dirty s' !! k);
  ev_sync p : fileBlockState p s' = blockNotBeingSynced ↔ fileBlockState p s = blockNotBeingSynced;
  ev_defer : fbo_doDeferWrite s = true → fbo_doDeferWrite s' = true;
  ev_nodefer : (∀ p, F p → fileBlockState p s = blockNotBeingSynced) →
    fbo_doDeferWrite s' = fbo_doDeferWrite s;
  ev_dw : fbo_deferredWrites s' = fbo_deferredWrites s;
  ev_dd : fbo_deferredDirtyDeletes s' = fbo_deferredDirtyDeletes s;
  ev_changes : fbo_localChanges s' = fbo_localChanges s;
  ev_ids : fbo_tempIDs s <= fbo_tempIDs s'
}.

Lemma evolves_refl s : evolves s s.
Proof. by split. Qed.

Lemma evolves_trans s1 s2 s3 : evolves s1 s2 → evolves s2 s3 → evolves s1 s3.
Proof.
  intros [A1 A2 A3 A4 A5 A6 A7 A8] [B1 B2 B3 B4 B5 B6 B7 B8]. split; try congruence; eauto; [..|lia].
  - intros p. by rewrite B2, A2.
  - intros Hs. rewrite B4, A4; [done..|]. intros p Hp. apply A2. auto.
Qed.

Lemma evolves_hext s s' : hext s s' → evolves s s'.
Proof. by intros (h & -> & _). Qed.

Lemma evolves_put s p a : evolves s (set_dirty (<[key p := a]>) s).
Proof.
  split; try done. intros k Hk. simpl. rewrite lookup_insert_is_Some'. by right.
Qed.

Lemma evolves_cached s s' p a b : owned s p a b → cached s s' p a → evolves s s'.
Proof.
  intros Ho C. split.
  - intros k Hk. rewrite (ca_dirty _ _ _ _ C), lookup_insert_is_Some'. by right.
  - intros p'. destruct (decide (p' = p)) as [->|Hne]; [apply (ca_synced _ _ _ _ C)|].
    by rewrite (ca_states _ _ _ _ C).
  - intros Hd. by rewrite (ca_defer _ _ _ _ C), Hd.
  - intros Hs. rewrite (ca_defer _ _ _ _ C).
    rewrite (bool_decide_true (fileBlockState p s = blockNotBeingSynced)) by (apply Hs, Ho).
    by rewrite andb_false_r, orb_false_r.
  - apply C.
  - apply C.
  - apply C.
  - by rewrite (ca_ids _ _ _ _ C).
Qed.

End heap.

#[export] Hint Resolve hext_refl evolves_refl : core.
