(* ===== verification/NodeSearch.v ===== *)
(** * NodeSearch: nodes for pointers ([folder_block_ops.go])

    [SearchForNodes] finds the nodes of given pointers in the tree below the
    root of a folder.  It goes down only into directories whose pointers are
    new, and stops as soon as it has found as many nodes as it looks for.
    Every node that it finds is entered into a node cache with all nodes on
    the way to it.  The order in which a directory's entries are gone through
    is [map_order]. *)

From Stdlib Require Import ZArith Lia.
From S2P Require Import Prelude Types Errors GoStd Ids CryptoCommon Splitter DataTypes Ops FolderBlocks Examples FolderBlocksSpec NodeCache NodeCacheSpec.

(** The order of a [range] over a map. *)
Class MapOrder := {
  map_order {A : Type} : list A → list A;
  map_order_ok {A : Type} (l : list A) : map_order l ≡ₚ l
}.

(** The node cache, the blocks of the folder, and the nodes found so far. *)
Record searchState := MkSearchState {
  se_cache : nodeCacheStandard;
  se_blocks : folderBlockOps;
  se_nodeMap : gmap BlockPointer Node
}.
Definition on_cache {A} (m : go nodeCacheStandard A) : go searchState A := λ s,
  let '(r, c) := m (se_cache s) in (r, MkSearchState c (se_blocks s) (se_nodeMap s)).
Definition on_dirs {A} (m : go folderBlockOps A) : go searchState A := λ s,
  let '(r, b) := m (se_blocks s) in (r, MkSearchState (se_cache s) b (se_nodeMap s)).
Definition set_found (ptr : BlockPointer) (n : Node) (s : searchState) : searchState :=
  MkSearchState (se_cache s) (se_blocks s) (<[ptr := n]> (se_nodeMap s)).

(** A node for every node of a path, each below the one before. *)
Fixpoint make_nodes (nodes : list pathNode) (n : Node) : go nodeCacheStandard Node :=
  match nodes with
  | [] => mret n
  | pn :: nodes => n ← GetOrCreate (pn_BlockPointer pn) (pn_Name pn) n; make_nodes nodes n
  end.

Section search.
Context `{Config, Codec FileBlock, Codec DirBlock, MapOrder} (newPtrs : gset BlockPointer).

Section search_children.
(** [searchForNodesInDirLocked] on a subdirectory. *)
Context (search : path → nat → go searchState nat).

(** The loop over the entries; [found] are the nodes found in this
    directory. *)
Fixpoint search_children (currDir : path) (soFar found : nat) (children : list (string * DirEntry)) : go searchState nat :=
  match children with
  | [] => mret found
  | (name, de) :: children =>
      s ← get;
      let ptr := DirEntry_BlockPointer de in
      let childPath := ChildPath currDir name ptr in
      found ← (if decide (is_Some (se_nodeMap s !! ptr)) then
                 n ← on_cache (make_nodes (p_path childPath) nilNode);
                 _ ← modify (set_found ptr n);
                 mret (S found)
               else mret found);
      if decide (is_Some (se_nodeMap s !! ptr) ∧ size (se_nodeMap s) <= soFar + found) then mret found
      else if decide (ei_Type (de_EntryInfo de) = Dir ∧ ptr ∈ newPtrs) then
        n ← search childPath (soFar + found);
        if decide (size (se_nodeMap s) <= soFar + (found + n)) then mret (found + n)
        else search_children currDir soFar (found + n) children
      else search_children currDir soFar found children
  end.
End search_children.

(** [fuel] bounds the depth of the tree. *)
Fixpoint searchForNodesInDirLocked (fuel : nat) (currDir : path) (numNodesFoundSoFar : nat) : go searchState nat :=
  match fuel with
  | 0 => panic "stack overflow"
  | S fuel =>
      a ← on_dirs (getDirLocked currDir blockRead);
      s ← get;
      if decide (size (se_nodeMap s) <= numNodesFoundSoFar) then mret 0
      else
        dirBlock ← on_dirs (load_dir a);
        search_children (searchForNodesInDirLocked fuel) currDir numNodesFoundSoFar 0
          (map_order (map_to_list (db_Children dirBlock)))
  end.

Definition nodes_to_find (ptrs : list BlockPointer) : gmap BlockPointer Node :=
  foldl (λ m ptr, <[ptr := nilNode]> m) ∅ ptrs.

Definition SearchForNodes (fuel : nat) (ptrs : list BlockPointer) (rootPtr : BlockPointer)
    : go searchState (gmap BlockPointer Node) :=
  _ ← modify (λ s, MkSearchState (se_cache s) (se_blocks s) (nodes_to_find ptrs));
  if decide (ptrs = []) then mret ∅
  else
    node ← on_cache (Get (BlockPointer_ref rootPtr));
    if decide (node = nilNode) then fail (Errorf "Cannot find root node corresponding to")
    else
      s ← get;
      let isRoot := bool_decide (is_Some (se_nodeMap s !! rootPtr)) in
      _ ← (if isRoot then modify (set_found rootPtr node) else mret tt);
      let numNodesFound := if isRoot then 1 else 0 in
      s ← get;
      if isRoot && bool_decide (size (se_nodeMap s) <= numNodesFound) then mret (se_nodeMap s)
      else
        rootPath ← lift_res (match PathFromNode node (se_cache s) with Some p => Ok p | None => Panic "does not return" end);
        if decide (length (p_path rootPath) ≠ 1) then fail (Errorf "Invalid root path for")
        else
          _ ← searchForNodesInDirLocked fuel rootPath numNodesFound;
          s ← get;
          mret (se_nodeMap s).
End search.

(** ** Reading directories *)

Section read.
Context `{Config}.

(** What is read for a pointer. *)
Definition dir_value (b : folderBlockOps) (ptr : BlockPointer) (branch : BranchName) : option DirBlock :=
  match fbo_dirty b !! dirty_key ptr branch with
  | Some a => match fbo_heap b !! a with Some (DirB d) => Some d | _ => None end
  | None => match cfg_Get ptr NewDirBlock with Ok (DirB d) => Some d | _ => None end
  end.

(** Reading keeps what can be read. *)
Definition reads_more (b b' : folderBlockOps) : Prop :=
  ∀ ptr branch d, dir_value b ptr branch = Some d → dir_value b' ptr branch = Some d.

Lemma alloc_reads_more blk b a b' : alloc blk b = (Ok a, b') → reads_more b b' ∧ fbo_heap b' !! a = Some blk.
Proof.
  intros [= <- <-]. split; [|apply lookup_insert_eq]. intros ptr branch d. unfold dir_value. simpl.
  destruct (fbo_dirty b !! dirty_key ptr branch) as [a|]; [|done]. destruct (fbo_heap b !! a) as [blk'|] eqn:E; [|done].
  rewrite lookup_insert_ne; [by rewrite E|]. intros <-. apply (is_fresh (dom (fbo_heap b))). by apply elem_of_dom.
Qed.

Lemma getDirLocked_read `{Codec DirBlock} b p ptr d : path_isValid p = true → tailPointer p = Ok ptr → BlockPointer_IsValid ptr = true →
  dir_value b ptr (fbr_Branch (p_FolderBranch p)) = Some d →
  ∃ a b', getDirLocked p blockRead b = (Ok a, b') ∧ load_dir a b' = (Ok d, b') ∧ reads_more b b'.
Proof.
  intros Hp Ht Hv Hd. unfold getDirLocked, getDirBlockHelperLocked, getBlockHelperLocked. rewrite Hp. cbn [negb].
  unfold mbind, go_bind, lift_res, get. rewrite Ht, Hv. cbn [negb]. unfold dir_value in Hd.
  destruct (fbo_dirty b !! dirty_key ptr (fbr_Branch (p_FolderBranch p))) as [a|].
  - destruct (fbo_heap b !! a) as [[| |]|] eqn:Eh; try done. injection Hd as ->. exists a, b.
    unfold load_dir, load, mbind, go_bind, mret, go_ret. simpl. rewrite Eh. simpl. split; [done|]. split; [done|by intros ???].
  - destruct (cfg_Get ptr NewDirBlock) as [[| |]| |]; try done. injection Hd as ->.
    destruct (alloc (DirB d) b) as [r b'] eqn:E. assert (∃ a, r = Ok a) as [a ->] by (injection E as <- _; by eexists).
    destruct (alloc_reads_more _ _ _ _ E) as [Hr Ha]. exists a, b'.
    unfold load_dir, load, mbind, go_bind, mret, go_ret. rewrite Ha. simpl. done.
Qed.
End read.

(** ** Entering nodes into the cache *)

(** The cache has only got new cores and node objects. *)
Definition cache_grows (s s' : nodeCacheStandard) : Prop :=
  (∀ c core, ncs_cores s !! c = Some core → ncs_cores s' !! c = Some core) ∧
  (∀ n c, ncs_stds s !! n = Some c → ncs_stds s' !! n = Some c).

Lemma cache_grows_refl s : cache_grows s s.
Proof. done. Qed.
Lemma cache_grows_trans s1 s2 s3 : cache_grows s1 s2 → cache_grows s2 s3 → cache_grows s1 s3.
Proof. intros [A1 A2] [B1 B2]. split; eauto. Qed.

Lemma spell_grows s s' c l : cache_grows s s' → upchain s c l → spell s' l = spell s l.
Proof.
  intros [Hc _] Hl. induction Hl as [c core Hcore Hp|c core n c' l Hcore Hp Hn Hl IH]; cbn [spell].
  - by rewrite (Hc _ _ Hcore), Hcore.
  - rewrite (Hc _ _ Hcore), Hcore, IH. done.
Qed.

(** The core [c] has the path [nodes]. *)
Definition spelled (s : nodeCacheStandard) (c : nat) (nodes : list pathNode) : Prop :=
  ∃ l, upchain s c l ∧ spell s l = nodes.

Lemma spelled_grows s s' c nodes : cache_grows s s' → spelled s c nodes → spelled s' c nodes.
Proof.
  intros Hg (l & Hl & Hs). exists l. split; [by eapply upchain_grow; [apply Hg|apply Hg|]|]. by rewrite (spell_grows s s' c l Hg Hl).
Qed.

Lemma spelled_nonempty s c nodes : spelled s c nodes → nodes ≠ [].
Proof.
  intros (l & Hl & <-). destruct Hl as [c core Hc _|c core n c' l Hc _ _ _]; cbn [spell]; rewrite Hc; case_decide as Hd.
  1, 3: destruct Hd as [_ Hd]; intros Hn; rewrite Hn in Hd; simpl in Hd; lia.
  all: by intros [_ ?]%app_eq_nil.
Qed.

(** A node in the cache: the node object [n] of the entry of [ptr], whose
    path is [nodes]. *)
Definition node_in (s : nodeCacheStandard) (n : nat) (ptr : BlockPointer) (nodes : list pathNode) : Prop :=
  ∃ c core e, ncs_stds s !! n = Some c ∧ ncs_cores s !! c = Some core ∧ core_ref core = BlockPointer_ref ptr ∧
    ncs_nodes s !! BlockPointer_ref ptr = Some e ∧ nce_core e = c ∧ spelled s c nodes.

Lemma node_in_path s n ptr nodes : node_in s n ptr nodes → node_path s n = Some nodes.
Proof. intros (c & core & e & Hn & _ & _ & _ & _ & l & Hl & <-). by eapply node_path_spell. Qed.

Lemma node_in_child s n ptr nodes : node_in s n ptr nodes → newChildForParentLocked (stdNode n) s = Ok n.
Proof.
  intros (c & core & e & Hn & Hc & Hr & He & Hce & _). simpl. unfold core_of. rewrite Hn. simpl. rewrite Hc. simpl.
  by rewrite Hr, He, decide_False by auto.
Qed.

(** The parent of a new node: none, or a node with the path [nodes]. *)
Definition parent_in (s : nodeCacheStandard) (parent : Node) (nodes : list pathNode) : Prop :=
  match parent with
  | nilNode => nodes = []
  | stdNode m => ∃ ptr, node_in s m ptr nodes
  | otherNode => False
  end.

Definition parent_index (parent : Node) : option nat := match parent with stdNode m => Some m | _ => None end.

(** A node object for the new core. *)
Lemma create_node_in ptr name parent s nodes : parent_in s parent nodes →
  ∃ n s', create_node ptr name parent s = (Ok (stdNode n), s') ∧ cache_grows s s' ∧
    node_in s' n ptr (nodes ++ [MkPathNode ptr name]) ∧
    (∀ ref, ref ≠ BlockPointer_ref ptr → ncs_nodes s' !! ref = ncs_nodes s !! ref).
Proof.
  intros Hp. set (c := length (ncs_cores s)). set (core := newNodeCore ptr name (parent_index parent)).
  set (s' := MkNodeCacheStandard (ncs_folderBranch s) (<[BlockPointer_ref ptr := MkNodeCacheEntry c (0 + 1)]>
       (<[BlockPointer_ref ptr := MkNodeCacheEntry c 0]> (ncs_nodes s))) (ncs_cores s ++ [core]) (ncs_stds s ++ [c])
       (ncs_live s ∪ {[length (ncs_stds s)]})).
  exists (length (ncs_stds s)), s'. assert (cache_grows s s') as Hg.
  { split; intros i x; simpl; apply lookup_app_l_Some. }
  assert (ncs_cores s' !! c = Some core) as Hc by (apply list_lookup_middle; done).
  split.
  { unfold create_node, mbind, go_bind, get, lift_res, modify. destruct parent as [| |m]; [done|done|].
    destruct Hp as [pptr Hm]. rewrite (node_in_child _ _ _ _ Hm). done. }
  split; [done|]. split.
  - exists c, core, (MkNodeCacheEntry c (0 + 1)). split; [by apply list_lookup_middle|]. split; [done|]. split; [done|].
    split; [apply lookup_insert_eq|]. split; [done|]. destruct parent as [| |m]; [|done|].
    + simpl in Hp. subst nodes. exists [c]. split; [by eapply up_root|]. cbn [spell]. rewrite Hc. done.
    + destruct Hp as (pptr & c' & core' & e & Hm & _ & _ & _ & _ & (l & Hl & Hs)%(spelled_grows s s' _ _ Hg)).
      exists (c :: l). split; [eapply up_step; [exact Hc|done|by apply Hg|done]|]. cbn [spell]. rewrite Hc, Hs.
      rewrite decide_False by (by intros [? _]). done.
  - intros ref Hne. simpl. by rewrite !lookup_insert_ne.
Qed.

(** ** The nodes of a tree *)

(** A node that a search comes to: its pointer, its path, and whether the
    search goes down into it. *)
Record visit := MkVisit { v_ptr : BlockPointer; v_nodes : list pathNode; v_down : bool }.
Definition v_ref (v : visit) : blockRef := BlockPointer_ref (v_ptr v).

(** The nodes have references of their own and paths that can be made nodes
    of; every part of a path is one of the nodes. *)
Record tree_nodes (all : list visit) : Prop := {
  tn_refs : NoDup (v_ref <$> all);
  tn_valid v : v ∈ all → Forall (λ pn, BlockPointer_IsValid (pn_BlockPointer pn) = true ∧ pn_Name pn ≠ EmptyString) (v_nodes v);
  tn_last v : v ∈ all → ∃ pre name, v_nodes v = pre ++ [MkPathNode (v_ptr v) name];
  tn_prefix v pre pn rest : v ∈ all → v_nodes v = pre ++ pn :: rest →
    ∃ w, w ∈ all ∧ v_ptr w = pn_BlockPointer pn ∧ v_nodes w = pre ++ [pn]
}.

(** What the cache knows of these nodes is where they are. *)
Definition agrees (all : list visit) (s : nodeCacheStandard) : Prop :=
  ncs_inv s ∧ ∀ v e, v ∈ all → ncs_nodes s !! v_ref v = Some e → spelled s (nce_core e) (v_nodes v).

Section tree.
Context (all : list visit) (Htree : tree_nodes all).

Lemma same_ref v w : v ∈ all → w ∈ all → v_ref v = v_ref w → v = w.
Proof.
  intros Hv Hw Heq. apply list_elem_of_lookup in Hv as [i Hi], Hw as [j Hj].
  assert (i = j) as ->; [|congruence]. eapply (NoDup_lookup _ i j (v_ref v)); [apply (tn_refs _ Htree)|..]; rewrite list_lookup_fmap.
  - by rewrite Hi.
  - rewrite Hj. simpl. by rewrite Heq.
Qed.

(** Changes at the reference of one node. *)
Lemma agrees_step s s' v : agrees all s → ncs_inv s' → cache_grows s s' → v ∈ all →
  (∀ ref, ref ≠ v_ref v → ncs_nodes s' !! ref = ncs_nodes s !! ref) →
  (∀ e, ncs_nodes s' !! v_ref v = Some e → spelled s' (nce_core e) (v_nodes v)) → agrees all s'.
Proof.
  intros [_ Ha] Hi Hg Hv Hother Hsame. split; [done|]. intros w e Hw He.
  destruct (decide (v_ref w = v_ref v)) as [Heq|Hne]; [rewrite (same_ref w v Hw Hv Heq) in *; by apply Hsame|].
  rewrite Hother in He by done. eapply spelled_grows; [done|]. by apply Ha.
Qed.

Lemma GetOrCreate_in s v pre name parent : agrees all s → v ∈ all → v_nodes v = pre ++ [MkPathNode (v_ptr v) name] →
  parent_in s parent pre → (pre ≠ [] → parent ≠ nilNode) →
  (∀ m ptr, parent = stdNode m → node_in s m ptr pre → BlockPointer_ref ptr ≠ v_ref v) →
  ∃ n s', GetOrCreate (v_ptr v) name parent s = (Ok (stdNode n), s') ∧ agrees all s' ∧ cache_grows s s' ∧
    node_in s' n (v_ptr v) (v_nodes v).
Proof.
  intros Ha Hv Hnodes Hp Hroot Hdiff. pose proof (tn_valid _ Htree v Hv) as Hval. rewrite Hnodes in Hval.
  apply Forall_app in Hval as [_ [[Hvalid Hname] _]%Forall_cons]. simpl in Hvalid, Hname.
  pose proof (GetOrCreate_inv (v_ptr v) name parent s (proj1 Ha)) as Hinv.
  assert (∀ s0, cache_grows s s0 → parent_in s0 parent pre → (∀ ref, ref ≠ v_ref v → ncs_nodes s0 !! ref = ncs_nodes s !! ref) →
    (ncs_inv (snd (create_node (v_ptr v) name parent s0))) →
    ∃ n s', create_node (v_ptr v) name parent s0 = (Ok (stdNode n), s') ∧ agrees all s' ∧ cache_grows s s' ∧
      node_in s' n (v_ptr v) (v_nodes v)) as Hcreate.
  { intros s0 Hg0 Hp0 Hother Hi0. destruct (create_node_in (v_ptr v) name parent s0 pre Hp0) as (n & s' & Hc & Hg & Hn & Hrest).
    exists n, s'. split; [done|]. rewrite Hc in Hi0. simpl in Hi0. assert (cache_grows s s') as Hg' by (by eapply cache_grows_trans).
    rewrite <- Hnodes in Hn. split; [|done]. apply (agrees_step s s' v); [done|done|done|done| |].
    - intros ref Hne. by rewrite Hrest, Hother.
    - destruct Hn as (c & core & e & _ & _ & _ & He & Hce & Hs). intros e' He'. unfold v_ref in He'. rewrite He in He'. injection He' as <-. by rewrite Hce. }
  unfold GetOrCreate in *. rewrite Hvalid in *. cbn [negb] in *. rewrite decide_False in * by done.
  unfold mbind at 1, go_bind at 1, get at 1 in Hinv. unfold mbind at 1, go_bind at 1, get at 1.
  destruct (ncs_nodes s !! BlockPointer_ref (v_ptr v)) as [e|] eqn:Ee.
  - destruct (inv_core s (proj1 Ha) _ _ Ee) as (core & Hcore & Href). rewrite Hcore in *. case_decide as Hd.
    + unfold mbind, go_bind, modify in *. apply Hcreate; [done| | |done].
      * destruct parent as [| |m]; [done|done|]. destruct Hp as [pptr Hm]. exists pptr.
        pose proof (Hdiff m pptr eq_refl Hm) as Hne. destruct Hm as (c & core' & e' & Hn & Hc & Hr & He' & Hce & (l & Hl & Hs)).
        exists c, core', e'. split; [done|]. split; [done|]. split; [done|]. split; [simpl; by rewrite lookup_delete_ne|].
        split; [done|]. eapply (spelled_grows s); [done|]. by exists l.
      * intros ref Hne. simpl. by rewrite lookup_delete_ne.
    + eexists _, _. split; [done|]. set (s' := snd (makeNodeStandardForEntry (BlockPointer_ref (v_ptr v)) e s)) in *.
      assert (cache_grows s s') as Hg by (split; intros i x; [done|simpl; apply lookup_app_l_Some]).
      assert (spelled s' (nce_core e) (v_nodes v)) as Hs by (eapply spelled_grows; [done|]; by apply (proj2 Ha)).
      split; [apply (agrees_step s s' v); [done|exact Hinv|done|done| |]|split; [done|]].
      * intros ref Hne. simpl. by rewrite lookup_insert_ne.
      * intros e' He'. simpl in He'. unfold v_ref in He'. rewrite lookup_insert_eq in He'. injection He' as <-. done.
      * exists (nce_core e), core, (MkNodeCacheEntry (nce_core e) (nce_refCount e + 1)).
        split; [simpl; by apply list_lookup_middle|]. split; [done|]. split; [done|]. split; [apply lookup_insert_eq|]. done.
  - by apply Hcreate.
Qed.

Lemma make_nodes_in v rest : ∀ pre s n, agrees all s → v ∈ all → v_nodes v = pre ++ rest → parent_in s n pre → (pre ≠ [] → n ≠ nilNode) →
  (∀ w, w ∈ all → v_nodes w = pre → ∀ m ptr, n = stdNode m → node_in s m ptr pre → BlockPointer_ref ptr = v_ref w) →
  rest ≠ [] →
  ∃ m s', make_nodes rest n s = (Ok (stdNode m), s') ∧ agrees all s' ∧ cache_grows s s' ∧ node_in s' m (v_ptr v) (v_nodes v).
Proof.
  induction rest as [|pn rest IH]; intros pre s n Ha Hv Hnodes Hp Hroot Hpre Hne; [done|]. cbn [make_nodes].
  destruct (tn_prefix _ Htree v pre pn rest Hv Hnodes) as (w & Hw & Hwp & Hwn).
  destruct (GetOrCreate_in s w pre (pn_Name pn) n) as (m & s1 & Hc & Ha1 & Hg1 & Hm); [done|done| |done|done| |].
  - rewrite Hwn, Hwp. by destruct pn.
  - intros m ptr -> Hm Heq. destruct (decide (pre = [])) as [->|Hpne].
    { destruct Hm as (c & core & e & _ & _ & _ & _ & _ & Hs). by destruct (spelled_nonempty _ _ _ Hs). }
    destruct (exists_last Hpne) as (pre' & last & ->). rewrite <- app_assoc in Hnodes. simpl in Hnodes.
    destruct (tn_prefix _ Htree v pre' last (pn :: rest) Hv Hnodes) as (u & Hu & _ & Hun).
    pose proof (Hpre u Hu Hun m ptr eq_refl Hm) as Hur. rewrite Heq in Hur. assert (w = u) as -> by (by apply same_ref).
    rewrite Hun in Hwn. apply (f_equal length) in Hwn. rewrite !length_app in Hwn. simpl in Hwn. lia.
  - rewrite Hwp in Hc. unfold mbind, go_bind. rewrite Hc. destruct rest as [|pn' rest].
    + exists m, s1. split; [done|]. split; [done|]. split; [done|].
      destruct (tn_last _ Htree v Hv) as (pre' & name & Hlast). rewrite Hnodes in Hlast. apply app_inj_tail in Hlast as [_ ->].
      simpl in Hwp. rewrite Hwp in Hm. by rewrite Hwn, <- Hnodes in Hm.
    + destruct (IH (pre ++ [pn]) s1 (stdNode m)) as (m' & s2 & Hc2 & Ha2 & Hg2 & Hm'); [done|done| | |done| |done|].
      * by rewrite <- app_assoc.
      * exists (v_ptr w). by rewrite <- Hwn.
      * intros u Hu Hun m' ptr [= <-] Hm'. destruct Hm as (c & core & e & Hn & Hcore & Hr & _), Hm' as (c' & core' & e' & Hn' & Hcore' & Hr' & _).
        assert (u = w) as ->; [|unfold v_ref; congruence].
        destruct (tn_last _ Htree u Hu) as (p1 & n1 & H1). destruct (tn_last _ Htree w Hw) as (p2 & n2 & H2).
        rewrite Hun, <- Hwn, H2 in H1. apply app_inj_tail in H1 as [_ [= H1 _]]. apply same_ref; [done|done|]. unfold v_ref. by rewrite H1.
      * exists m', s2. split; [done|]. split; [done|]. split; [by eapply cache_grows_trans|done].
Qed.
End tree.

(** ** What a search finds *)

Section find.
Context `{Config, Codec FileBlock, Codec DirBlock, MapOrder} (newPtrs : gset BlockPointer).
Context (dirs : BlockPointer → DirBlock) (fb : FolderBranch).

Definition goes_down (de : DirEntry) : bool :=
  bool_decide (ei_Type (de_EntryInfo de) = Dir ∧ DirEntry_BlockPointer de ∈ newPtrs).

(** The nodes below the directory [ptr], at [nodes], in the order in which a
    search comes to them.  The entry of a symbolic link has no block, hence
    the zero pointer, and no node. *)
Fixpoint visits (fuel : nat) (nodes : list pathNode) (ptr : BlockPointer) : list visit :=
  match fuel with
  | 0 => []
  | S fuel =>
      map_order (map_to_list (db_Children (dirs ptr))) ≫= λ e,
        let cptr := DirEntry_BlockPointer (snd e) in
        let nodes' := nodes ++ [MkPathNode cptr (fst e)] in
        if BlockPointer_IsValid cptr then
          MkVisit cptr nodes' (goes_down (snd e)) :: (if goes_down (snd e) then visits fuel nodes' cptr else [])
        else []
  end.

(** The directories below [ptr] are at most [fuel] deep. *)
Fixpoint depth_within (fuel : nat) (ptr : BlockPointer) : Prop :=
  match fuel with
  | 0 => False
  | S fuel => ∀ name de, db_Children (dirs ptr) !! name = Some de → goes_down de = true → depth_within fuel (DirEntry_BlockPointer de)
  end.

Context (K : gset BlockPointer) (all : list visit) (Htree : tree_nodes all).
Context (HK : ∀ ptr, ptr ∈ K → BlockPointer_IsValid ptr = true).
Context (Hnew : ∀ ptr, ptr ∈ newPtrs → BlockPointer_IsValid ptr = true).

(** The search has come to [done]. *)
Record found_so_far (done : list visit) (s : searchState) : Prop := {
  fs_dom : dom (se_nodeMap s) = K;
  fs_found v : v ∈ done → v_ptr v ∈ K → ∃ n c, se_nodeMap s !! v_ptr v = Some (stdNode n) ∧
    ncs_stds (se_cache s) !! n = Some c ∧ spelled (se_cache s) c (v_nodes v);
  fs_rest ptr : ptr ∈ K → ptr ∉ (v_ptr <$> done) → se_nodeMap s !! ptr = Some nilNode;
  fs_done v : v ∈ done → v ∈ all;
  fs_agrees : agrees all (se_cache s);
  fs_reads v : v ∈ all → v_down v = true → dir_value (se_blocks s) (v_ptr v) (fbr_Branch fb) = Some (dirs (v_ptr v))
}.

Definition count (done : list visit) : nat := length (filter (λ v, v_ptr v ∈ K) done).

Lemma count_app l l' : count (l ++ l') = count l + count l'.
Proof. unfold count. by rewrite filter_app, length_app. Qed.

(** One more node. *)
Lemma count_snoc done w : count (done ++ [w]) = if decide (v_ptr w ∈ K) then S (count done) else count done.
Proof. rewrite count_app. unfold count at 2. rewrite filter_cons. case_decide; simpl; lia. Qed.

Lemma visit_step done s w found : found_so_far done s → w ∈ all →
  ∃ s', (if decide (is_Some (se_nodeMap s !! v_ptr w)) then
           n ← on_cache (make_nodes (v_nodes w) nilNode); _ ← modify (set_found (v_ptr w) n); mret (S found)
         else mret found) s = (Ok (if decide (v_ptr w ∈ K) then S found else found), s') ∧ found_so_far (done ++ [w]) s' ∧
    (is_Some (se_nodeMap s !! v_ptr w) ↔ v_ptr w ∈ K) ∧ size (se_nodeMap s) = size K.
Proof.
  intros [Hdom Hf Hr Hd Ha Hrd] Hw.
  assert (is_Some (se_nodeMap s !! v_ptr w) ↔ v_ptr w ∈ K) as Hin by (by rewrite <- Hdom, elem_of_dom).
  assert (size (se_nodeMap s) = size K) as Hsize by (by rewrite <- Hdom, size_dom).
  assert (∀ v, v ∈ done ++ [w] → v ∈ all) as Hd'.
  { intros v [Hv| ->%list_elem_of_singleton]%elem_of_app; [by apply Hd|done]. }
  destruct (decide (v_ptr w ∈ K)) as [Hk|Hk].
  - rewrite decide_True by tauto. unfold mbind, go_bind, on_cache, modify, mret, go_ret.
    destruct (make_nodes_in all Htree w (v_nodes w) [] (se_cache s) nilNode) as (n & c' & Hm & Ha' & Hg & Hn); try done.
    { destruct (tn_last _ Htree w Hw) as (pre & nm & ->). by destruct pre. }
    rewrite Hm. eexists. split; [done|]. split; [|done].
    split; simpl; [by rewrite dom_insert_L, Hdom; set_solver| | |done|done|done].
    + intros v Hv HvK. destruct (decide (v_ptr v = v_ptr w)) as [Heq|Hne].
      * assert (v = w) as -> by (apply (same_ref all); [done|by apply Hd'|done|]; unfold v_ref; by rewrite Heq).
        rewrite lookup_insert_eq. destruct Hn as (c & core & e & Hx1 & _ & _ & _ & _ & Hx2). by exists n, c.
      * rewrite lookup_insert_ne by done. apply elem_of_app in Hv as [Hv| ->%list_elem_of_singleton]; [|done].
        destruct (Hf v Hv HvK) as (n0 & c0 & Hx1 & Hx2 & Hx3). exists n0, c0. split; [done|]. split; [by apply Hg|by eapply spelled_grows].
    + intros ptr HpK Hp. rewrite fmap_app, elem_of_app in Hp. rewrite lookup_insert_ne by set_solver. apply Hr; [done|set_solver].
  - rewrite decide_False by tauto. eexists. split; [done|]. split; [|done]. split; [done| | |done|done|done].
    + intros v [Hv| ->%list_elem_of_singleton]%elem_of_app HvK; [by apply Hf|done].
    + intros ptr HpK Hp. apply Hr; [done|]. rewrite fmap_app in Hp. set_solver.
Qed.

Lemma bind_val {S A B} (m : go S A) (f : A → go S B) s a s' : m s = (Ok a, s') → (m ≫= f) s = f a s'.
Proof. unfold mbind, go_bind. by intros ->. Qed.

(** How far a search has got that was to go through [vs]: through all of
    them, unless it has found everything before. *)
Definition got_through (vs : list visit) (done done' : list visit) : Prop :=
  (∃ more, done' = done ++ more ∧ more `prefix_of` vs) ∧ (done' = done ++ vs ∨ size K <= count done').

Section children.
Context (search : path → nat → go searchState nat) (fuel : nat).
Context (Hsearch : ∀ v s done rest, found_so_far done s → v ∈ all → v_down v = true → depth_within fuel (v_ptr v) →
  all = done ++ visits fuel (v_nodes v) (v_ptr v) ++ rest →
  ∃ k s' done', search (MkPath fb (v_nodes v)) (count done) s = (Ok k, s') ∧ found_so_far done' s' ∧
    count done + k = count done' ∧ got_through (visits fuel (v_nodes v) (v_ptr v)) done done').

(** Nothing is done for an entry without a block. *)
Lemma search_children_skip nodes soFar found done name de children s :
  found_so_far done s → BlockPointer_IsValid (DirEntry_BlockPointer de) = false →
  search_children newPtrs search (MkPath fb nodes) soFar found ((name, de) :: children) s =
  search_children newPtrs search (MkPath fb nodes) soFar found children s.
Proof.
  intros Hf Hv. cbn [search_children].
  assert (¬ is_Some (se_nodeMap s !! DirEntry_BlockPointer de)) as Hno.
  { rewrite <- elem_of_dom, (fs_dom _ _ Hf). intros Hin%HK. congruence. }
  unfold mbind, go_bind, get. rewrite (decide_False (P := is_Some _)) by done. cbn.
  rewrite decide_False by tauto. rewrite decide_False; [done|]. intros [_ Hin%Hnew]. congruence.
Qed.

Lemma search_children_spec nodes children : ∀ s done soFar found rest,
  found_so_far done s → soFar + found = count done →
  (∀ name de, (name, de) ∈ children → goes_down de = true → depth_within fuel (DirEntry_BlockPointer de)) →
  let vs := children ≫= λ e,
        let cptr := DirEntry_BlockPointer (snd e) in
        let nodes' := nodes ++ [MkPathNode cptr (fst e)] in
        if BlockPointer_IsValid cptr then
          MkVisit cptr nodes' (goes_down (snd e)) :: (if goes_down (snd e) then visits fuel nodes' cptr else [])
        else [] in
  all = done ++ vs ++ rest →
  ∃ k s' done', search_children newPtrs search (MkPath fb nodes) soFar found children s = (Ok k, s') ∧
    found_so_far done' s' ∧ soFar + k = count done' ∧ got_through vs done done'.
Proof.
  induction children as [|[name de] children IH]; intros s done soFar found rest Hf Hcount Hdepth vs Hall.
  { exists found, s, done. split; [done|]. split; [done|]. split; [done|]. split; [exists []; by rewrite app_nil_r|left; by rewrite app_nil_r]. }
  subst vs. rewrite bind_cons in *. cbn [fst snd] in *. set (cptr := DirEntry_BlockPointer de) in *.
  destruct (BlockPointer_IsValid cptr) eqn:Ev.
  2:{ rewrite (search_children_skip _ _ _ done); [|done|done]. cbn [app]. apply (IH s done soFar found rest Hf Hcount); [|done].
      intros n d Hn. apply (Hdepth n d). by right. }
  set (w := MkVisit cptr (nodes ++ [MkPathNode cptr name]) (goes_down de)) in *.
  set (below := if goes_down de then visits fuel (nodes ++ [MkPathNode cptr name]) cptr else []) in *.
  set (others := children ≫= _) in *. cbn [app] in Hall.
  assert (w ∈ all) as Hw by (rewrite Hall; set_solver).
  cbn [search_children]. destruct (visit_step done s w found Hf Hw) as (s1 & Hs1 & Hf1 & Hin & Hsize).
  unfold mbind at 1, go_bind at 1, get at 1.
  match goal with |- context [(?m ≫= ?f) s] => rewrite (bind_val m f s _ _ Hs1) end.
  set (found1 := if decide (v_ptr w ∈ K) then S found else found).
  assert (soFar + found1 = count (done ++ [w])) as Hc1 by (rewrite count_snoc; subst found1; destruct (decide (v_ptr w ∈ K)); lia).
  rewrite Hsize. clearbody found1. clear Hs1. case_decide as Hstop.
  { exists found1, s1, (done ++ [w]). split; [done|]. split; [done|]. split; [done|]. split; [|right; lia].
    exists [w]. split; [done|]. apply prefix_cons, prefix_nil. }
  assert (∀ s2 done2 found2 more, found_so_far done2 s2 → soFar + found2 = count done2 → done2 = done ++ w :: more →
    more = below → ∃ k s' done', search_children newPtrs search (MkPath fb nodes) soFar found2 children s2 = (Ok k, s') ∧
      found_so_far done' s' ∧ soFar + k = count done' ∧ got_through (w :: below ++ others) done done') as Hrest.
  { intros s2 done2 found2 more Hf2 Hc2 -> ->. destruct (IH s2 (done ++ w :: below) soFar found2 rest Hf2 Hc2) as (k & s' & done' & Hr & Hf' & Hk & Hgot).
    - intros n d Hn. apply (Hdepth n d). by right.
    - rewrite Hall. change ((λ x, x) (children ≫= _)) with others. rewrite <- !app_assoc. done.
    - exists k, s', done'. split; [done|]. split; [done|]. split; [done|]. destruct Hgot as [(more & -> & Hpre) Hend]. split.
      + exists (w :: below ++ more). split; [by rewrite <- app_assoc|]. by apply prefix_cons, prefix_app.
      + destruct Hend as [Hend|Hend]; [left|by right]. rewrite Hend. by rewrite <- app_assoc. }
  destruct (decide (ei_Type (de_EntryInfo de) = Dir ∧ DirEntry_BlockPointer de ∈ newPtrs)) as [Hdown|Hdown].
  - assert (goes_down de = true) as Hgd by (by apply bool_decide_eq_true). subst below. rewrite Hgd in *.
    destruct (Hsearch w s1 (done ++ [w]) (others ++ rest)) as (k & s2 & done2 & Hr & Hf2 & Hk & Hgot);
      [done|done|done|by apply (Hdepth name de); [left|]| |].
    { rewrite Hall, <- !app_assoc. done. }
    rewrite <- Hc1 in Hr. match goal with |- context [(?m ≫= ?f) s1] => rewrite (bind_val m f s1 _ _ Hr) end.
    destruct Hgot as [(more & -> & Hpre) Hend]. rewrite <- app_assoc in *. cbn [app] in *.
    case_decide as Hstop2.
    + exists (found1 + k), s2, (done ++ w :: more). split; [done|]. split; [done|]. split; [lia|]. split; [|right; lia].
      exists (w :: more). split; [done|]. apply prefix_cons. by apply prefix_app_r.
    + destruct Hend as [Hend|Hend]; [|lia]. rewrite <- app_assoc in Hend. apply app_inv_head in Hend. injection Hend as Hend.
      eapply Hrest; [exact Hf2|lia|done|exact Hend].
  - assert (goes_down de = false) as Hgd by (by apply bool_decide_eq_false). subst below. rewrite Hgd in *.
    eapply Hrest; [exact Hf1|done|done|done].
Qed.
End children.

Lemma searchForNodesInDirLocked_spec fuel : ∀ v s done rest, found_so_far done s → v ∈ all → v_down v = true →
  depth_within fuel (v_ptr v) → all = done ++ visits fuel (v_nodes v) (v_ptr v) ++ rest →
  ∃ k s' done', searchForNodesInDirLocked newPtrs fuel (MkPath fb (v_nodes v)) (count done) s = (Ok k, s') ∧
    found_so_far done' s' ∧ count done + k = count done' ∧ got_through (visits fuel (v_nodes v) (v_ptr v)) done done'.
Proof.
  induction fuel as [|fuel IH]; intros v s seen rest Hf Hv Hdown Hdepth Hall; [by destruct Hdepth|]. cbn [searchForNodesInDirLocked].
  destruct (tn_last _ Htree v Hv) as (pre & name & Hlast). pose proof (tn_valid _ Htree v Hv) as Hval.
  destruct (getDirLocked_read (se_blocks s) (MkPath fb (v_nodes v)) (v_ptr v) (dirs (v_ptr v))) as (a & b & Hget & Hload & Hmore).
  - unfold path_isValid. simpl. rewrite decide_False by (rewrite Hlast, length_app; simpl; lia).
    apply Is_true_eq_true, forallb_True. eapply Forall_impl; [exact Hval|]. intros pn [Hp _]. by apply Is_true_eq_left.
  - unfold tailPointer, tailNode. simpl. by rewrite Hlast, last_snoc.
  - rewrite Hlast in Hval. apply Forall_app in Hval as [_ [[Hp _] _]%Forall_cons]. done.
  - by apply (fs_reads seen s Hf).
  - set (s1 := MkSearchState (se_cache s) b (se_nodeMap s)).
    assert (found_so_far seen s1) as Hf1.
    { destruct Hf as [F1 F2 F3 F4 F5 F6]. split; [done..|]. intros w Hw Hd. by apply Hmore, F6. }
    rewrite (bind_val (on_dirs (getDirLocked (MkPath fb (v_nodes v)) blockRead)) _ s a s1) by (unfold on_dirs; by rewrite Hget).
    unfold mbind at 1, go_bind at 1, get at 1. case_decide as Hstop.
    { exists 0, s1, seen. split; [done|]. split; [done|]. split; [lia|]. split; [exists []; rewrite app_nil_r; split; [done|apply prefix_nil]|right].
      revert Hstop. simpl. rewrite <- (fs_dom seen s Hf), size_dom. done. }
    rewrite (bind_val (on_dirs (load_dir a)) _ s1 (dirs (v_ptr v)) s1) by (unfold on_dirs; simpl; by rewrite Hload).
    destruct (search_children_spec (searchForNodesInDirLocked newPtrs fuel) fuel IH (v_nodes v)
      (map_order (map_to_list (db_Children (dirs (v_ptr v))))) s1 seen (count seen) 0 rest Hf1) as (k & s' & done' & Hr);
      [lia| |exact Hall|by exists k, s', done'].
    intros n de Hn Hgd. rewrite map_order_ok in Hn. apply elem_of_map_to_list in Hn. by apply (Hdepth n de).
Qed.

(** When the count has been reached nothing is left to find. *)
Lemma count_all done : (∀ v, v ∈ done → v ∈ all) → NoDup done → size K <= count done → ∀ ptr, ptr ∈ K → ptr ∈ (v_ptr <$> done).
Proof.
  intros Hd Hnd Hc ptr Hptr. set (l := v_ptr <$> filter (λ v, v_ptr v ∈ K) done).
  assert (NoDup l) as Hl.
  { apply NoDup_fmap_2_strong; [|by apply NoDup_filter]. intros v w [_ Hv]%list_elem_of_filter [_ Hw]%list_elem_of_filter Heq.
    apply (same_ref all); [done|by apply Hd|by apply Hd|]. unfold v_ref. by rewrite Heq. }
  assert (list_to_set l ⊆ K) as Hsub.
  { intros p Hp%elem_of_list_to_set. apply list_elem_of_fmap in Hp as (v & -> & [Hv _]%list_elem_of_filter). done. }
  assert (list_to_set (C := gset BlockPointer) l = K) as Heq.
  { apply set_subseteq_size_eq; [done|]. rewrite size_list_to_set by done. unfold l. by rewrite length_fmap. }
  rewrite <- Heq in Hptr. apply elem_of_list_to_set in Hptr. apply list_elem_of_fmap in Hptr as (v & -> & [_ Hv]%list_elem_of_filter).
  by apply list_elem_of_fmap_2.
Qed.
End find.

Section theorem.
Context `{Config, Codec FileBlock, Codec DirBlock, MapOrder} (newPtrs : gset BlockPointer) (dirs : BlockPointer → DirBlock).

(** Every part of a path below [nodes] is the path of a node. *)
Lemma visits_paths fuel : ∀ nodes ptr v, v ∈ visits newPtrs dirs fuel nodes ptr →
  (∃ ext name, v_nodes v = nodes ++ ext ++ [MkPathNode (v_ptr v) name]) ∧
  ∀ pre pn rest, v_nodes v = nodes ++ pre ++ pn :: rest →
    ∃ w, w ∈ visits newPtrs dirs fuel nodes ptr ∧ v_ptr w = pn_BlockPointer pn ∧ v_nodes w = nodes ++ pre ++ [pn].
Proof.
  induction fuel as [|fuel IH]; intros nodes ptr v Hv; cbn [visits] in *; [by apply elem_of_nil in Hv|].
  apply list_elem_of_bind in Hv as ([name de] & Hv & He). cbn [fst snd] in Hv.
  set (cptr := DirEntry_BlockPointer de) in *. destruct (BlockPointer_IsValid cptr) eqn:Ev; [|by apply elem_of_nil in Hv]. set (w0 := MkVisit cptr (nodes ++ [MkPathNode cptr name]) (goes_down newPtrs de)).
  assert (∀ w, w ∈ w0 :: (if goes_down newPtrs de then visits newPtrs dirs fuel (nodes ++ [MkPathNode cptr name]) cptr else []) →
    w ∈ visits newPtrs dirs (S fuel) nodes ptr) as Hin.
  { intros w Hw. cbn [visits]. apply list_elem_of_bind. exists (name, de). cbn [fst snd]. fold cptr. by rewrite Ev. }
  cbn [visits] in Hin. apply elem_of_cons in Hv as [->|Hv].
  - split; [by exists [], name|]. intros pre pn rest Heq. simpl in Heq. apply app_inv_head in Heq.
    destruct pre as [|x pre]; [|injection Heq as _ Heq; by destruct pre]. injection Heq as <- <-. exists w0. split; [|done].
    apply Hin. by left.
  - destruct (goes_down newPtrs de) eqn:Eg; [|by apply elem_of_nil in Hv]. destruct (IH _ _ _ Hv) as [(ext & nm & Hext) Hpre]. split.
    + exists (MkPathNode cptr name :: ext), nm. rewrite Hext, <- app_assoc. done.
    + intros pre pn rest Heq. destruct pre as [|x pre].
      * rewrite Hext, <- app_assoc in Heq. apply app_inv_head in Heq. injection Heq as <- _. exists w0. split; [|done]. apply Hin. by left.
      * assert (x = MkPathNode cptr name) as ->.
        { rewrite Hext, <- app_assoc in Heq. apply app_inv_head in Heq. by injection Heq as <- _. }
        destruct (Hpre pre pn rest) as (w & Hw & Hwp & Hwn); [rewrite Heq, <- app_assoc; done|]. exists w. split; [apply Hin; by right|].
        split; [done|]. rewrite Hwn, <- app_assoc. done.
Qed.

Lemma visits_valid fuel : ∀ nodes ptr v, v ∈ visits newPtrs dirs fuel nodes ptr →
  Forall (λ pn, BlockPointer_IsValid (pn_BlockPointer pn) = true) nodes →
  Forall (λ pn, BlockPointer_IsValid (pn_BlockPointer pn) = true) (v_nodes v).
Proof.
  induction fuel as [|fuel IH]; intros nodes ptr v Hv Hn; cbn [visits] in *; [by apply elem_of_nil in Hv|].
  apply list_elem_of_bind in Hv as ([name de] & Hv & He). cbn [fst snd] in Hv.
  destruct (BlockPointer_IsValid _) eqn:Ev; [|by apply elem_of_nil in Hv].
  assert (Forall (λ pn, BlockPointer_IsValid (pn_BlockPointer pn) = true)
    (nodes ++ [MkPathNode (DirEntry_BlockPointer de) name])) as Hn'.
  { apply Forall_app. split; [done|]. by constructor. }
  apply elem_of_cons in Hv as [->|Hv]; [done|].
  destruct (goes_down newPtrs de); [by eapply IH|by apply elem_of_nil in Hv].
Qed.

Definition root_visit (rootPtr : BlockPointer) (rootName : string) : visit := MkVisit rootPtr [MkPathNode rootPtr rootName] true.
Definition tree_visits (fuel : nat) (rootPtr : BlockPointer) (rootName : string) : list visit :=
  root_visit rootPtr rootName :: visits newPtrs dirs fuel [MkPathNode rootPtr rootName] rootPtr.

Lemma tree_visits_nodes fuel rootPtr rootName : let all := tree_visits fuel rootPtr rootName in
  NoDup (v_ref <$> all) → BlockPointer_IsValid rootPtr = true →
  (∀ v, v ∈ all → Forall (λ pn, pn_Name pn ≠ EmptyString) (v_nodes v)) →
  tree_nodes all.
Proof.
  intros all Hnd Hroot Hname. split; [done| | |].
  - intros v Hv. apply Forall_and. split; [|by apply Hname].
    apply elem_of_cons in Hv as [->|Hv]; [by constructor|]. eapply visits_valid; [exact Hv|]. by constructor.
  - intros v [->|Hv]%elem_of_cons; [by exists [], rootName|]. destruct (visits_paths fuel _ _ _ Hv) as [(ext & nm & ->) _].
    exists ([MkPathNode rootPtr rootName] ++ ext), nm. by rewrite <- app_assoc.
  - intros v pre pn rest [->|Hv]%elem_of_cons Heq.
    + destruct pre as [|x pre]; [|injection Heq as _ Heq; by destruct pre]. injection Heq as <- <-.
      exists (root_visit rootPtr rootName). split; [by left|done].
    + destruct (visits_paths fuel _ _ _ Hv) as [(ext & nm & Hext) Hpre]. destruct pre as [|x pre].
      * rewrite Hext in Heq. injection Heq as <- _. exists (root_visit rootPtr rootName). split; [by left|done].
      * assert (x = MkPathNode rootPtr rootName) as -> by (rewrite Hext in Heq; by injection Heq as <- _).
        destruct (Hpre pre pn rest Heq) as (w & Hw & Hwp & Hwn). exists w. split; [by right|]. done.
Qed.

Lemma nodes_to_find_dom ptrs : dom (nodes_to_find ptrs) = list_to_set ptrs ∧ ∀ ptr, ptr ∈ ptrs → nodes_to_find ptrs !! ptr = Some nilNode.
Proof.
  unfold nodes_to_find. assert (∀ m : gmap BlockPointer Node, (∀ ptr n, m !! ptr = Some n → n = nilNode) →
    dom (foldl (λ m ptr, <[ptr := nilNode]> m) m ptrs) = dom m ∪ list_to_set ptrs ∧
    ∀ ptr n, foldl (λ m ptr, <[ptr := nilNode]> m) m ptrs !! ptr = Some n → n = nilNode) as Hgen.
  { induction ptrs as [|p ptrs IH]; intros m Hm; simpl; [split; [set_solver|done]|].
    destruct (IH (<[p := nilNode]> m)) as [Hd Hn].
    - intros ptr n [[_ <-]|[_ Hl]]%lookup_insert_Some; [done|by eapply Hm].
    - split; [|done]. rewrite Hd, dom_insert_L. set_solver. }
  destruct (Hgen ∅) as [Hd Hn]; [done|]. rewrite dom_empty_L, union_empty_l_L in Hd. split; [done|]. intros ptr Hptr.
  assert (ptr ∈ dom (foldl (λ m ptr, <[ptr := nilNode]> m) ∅ ptrs)) as [n Hl]%elem_of_dom by (rewrite Hd; by apply elem_of_list_to_set).
  rewrite Hl. f_equal. by eapply Hn.
Qed.
(** The node object that [Get] makes for an entry. *)
Lemma Get_in all s v e : tree_nodes all → agrees all s → v ∈ all → blockRef_IsValid (v_ref v) = true →
  ncs_nodes s !! v_ref v = Some e →
  ∃ s', Get (v_ref v) s = (Ok (stdNode (length (ncs_stds s))), s') ∧ agrees all s' ∧ cache_grows s s' ∧
    ncs_stds s' !! length (ncs_stds s) = Some (nce_core e) ∧ ncs_folderBranch s' = ncs_folderBranch s ∧ ncs_cores s' = ncs_cores s.
Proof.
  intros Ht Ha Hv Hvalid He. pose proof (Get_inv (v_ref v) s (proj1 Ha)) as Hinv. unfold Get in *.
  rewrite decide_False in * by (intros Hz; rewrite Hz in Hvalid; vm_compute in Hvalid; done). rewrite Hvalid in *. cbn [negb] in *.
  unfold mbind, go_bind, get in *. rewrite He in *. eexists. split; [done|]. set (s' := snd (makeNodeStandardForEntry (v_ref v) e s)) in *.
  assert (cache_grows s s') as Hg by (split; intros i x; [done|simpl; apply lookup_app_l_Some]).
  split; [|split; [done|split; [by apply list_lookup_middle|done]]].
  apply (agrees_step all Ht s s' v); [done|done|done|done| |].
  - intros ref Hne. simpl. by rewrite lookup_insert_ne.
  - intros e' He'. simpl in He'. rewrite lookup_insert_eq in He'. injection He' as <-. eapply spelled_grows; [done|]. simpl.
    by apply (proj2 Ha v e).
Qed.

Lemma PathFromNode_root s n c ptr name : ncs_stds s !! n = Some c → ncs_cores s !! c = Some (newNodeCore ptr name None) →
  PathFromNode (stdNode n) s = Some (MkPath (ncs_folderBranch s) [MkPathNode ptr name]) ∧ spelled s c [MkPathNode ptr name].
Proof.
  intros Hn Hc. split.
  - unfold PathFromNode. destruct (length (ncs_cores s)) as [|k] eqn:El; [apply lookup_lt_Some in Hc; lia|].
    cbn [walk_up]. unfold core_of. rewrite Hn. simpl. rewrite Hc. simpl. by destruct k.
  - exists [c]. split; [by eapply up_root|]. cbn [spell]. by rewrite Hc.
Qed.

(** The end of a search: either it has come to everything, or it has found
    all that it was to find. *)
Lemma found_all K all fb seen s : tree_nodes all → found_so_far dirs fb K all seen s → NoDup seen →
  seen = all ∨ size K <= count K seen →
  (∀ v, v ∈ all → v_ptr v ∈ K → ∃ n, se_nodeMap s !! v_ptr v = Some (stdNode n) ∧ node_path (se_cache s) n = Some (v_nodes v)) ∧
  (∀ ptr, ptr ∈ K → ptr ∉ (v_ptr <$> all) → se_nodeMap s !! ptr = Some nilNode).
Proof.
  intros Ht Hf Hnd Hend. split.
  - intros v Hv HvK. assert (v ∈ seen) as Hs.
    { destruct Hend as [->|Hc]; [done|]. pose proof (count_all K all Ht seen (fs_done _ _ _ _ _ _ Hf) Hnd Hc _ HvK) as (w & Heq & Hw)%list_elem_of_fmap.
      rewrite (same_ref all Ht v w); [done|done|by apply (fs_done _ _ _ _ _ _ Hf)|]. unfold v_ref. by rewrite Heq. }
    destruct (fs_found _ _ _ _ _ _ Hf v Hs HvK) as (n & c & Hm & Hn & l & Hl & <-). exists n. split; [done|]. by eapply node_path_spell.
  - intros ptr HK Hptr. apply (fs_rest _ _ _ _ _ _ Hf); [done|]. intros Hin. apply Hptr.
    apply list_elem_of_fmap in Hin as (v & -> & Hv). apply list_elem_of_fmap_2. by apply (fs_done _ _ _ _ _ _ Hf).
Qed.

(** The root is the first node that is come to. *)
Lemma found_root K all s n rootPtr rootName : let root := root_visit rootPtr rootName in
  root ∈ all → agrees all (se_cache s) → dom (se_nodeMap s) = K → (∀ ptr, ptr ∈ K → se_nodeMap s !! ptr = Some nilNode) →
  (∃ c, ncs_stds (se_cache s) !! n = Some c ∧ spelled (se_cache s) c (v_nodes root)) →
  (∀ v, v ∈ all → v_down v = true → dir_value (se_blocks s) (v_ptr v) (fbr_Branch (ncs_folderBranch (se_cache s))) = Some (dirs (v_ptr v))) →
  let isRoot := bool_decide (is_Some (se_nodeMap s !! rootPtr)) in
  found_so_far dirs (ncs_folderBranch (se_cache s)) K all [root] (if isRoot then set_found rootPtr (stdNode n) s else s) ∧
  (if isRoot then 1 else 0) = count K [root].
Proof.
  intros root Hroot Ha Hdom Hnil (c & Hn & Hs) Hreads isRoot.
  assert (isRoot = bool_decide (rootPtr ∈ K)) as HisRoot by (apply bool_decide_ext; by rewrite <- elem_of_dom, Hdom).
  clearbody isRoot. destruct (decide (rootPtr ∈ K)) as [Hk|Hk];
    [rewrite bool_decide_true in HisRoot by done|rewrite bool_decide_false in HisRoot by done]; subst isRoot.
  - split; [|unfold count; by rewrite filter_cons, decide_True]. split; simpl.
    + rewrite dom_insert_L, Hdom. set_solver.
    + intros v ->%list_elem_of_singleton _. exists n, c. by rewrite lookup_insert_eq.
    + intros ptr Hp Hne. rewrite lookup_insert_ne by set_solver. by apply Hnil.
    + by intros v ->%list_elem_of_singleton.
    + done.
    + done.
  - split; [|unfold count; by rewrite filter_cons, decide_False]. split; simpl; [done| | | |done|done].
    + by intros v ->%list_elem_of_singleton.
    + intros ptr Hp _. by apply Hnil.
    + by intros v ->%list_elem_of_singleton.
Qed.

(** C33. A search finds every node that it can get to, with the path that it has
    in the tree, and no other: early as it may stop, what it was asked for
    and is below the root, through directories with new pointers, has a node
    whose path leads there; the rest has none.  The pointers to look for and
    the new pointers are valid; the tree may have symbolic links, which have
    no block and no node; the references of its other nodes are distinct,
    its names are not empty, its directories can be read and are at most
    [fuel] deep, and the cache does not know any of its nodes under another
    path. *)
Theorem SearchForNodes_finds fuel ptrs rootPtr rootName e c b :
  let all := tree_visits fuel rootPtr rootName in
  NoDup (v_ref <$> all) → BlockPointer_IsValid rootPtr = true →
  (∀ ptr, ptr ∈ ptrs → BlockPointer_IsValid ptr = true) →
  (∀ ptr, ptr ∈ newPtrs → BlockPointer_IsValid ptr = true) →
  (∀ v, v ∈ all → Forall (λ pn, pn_Name pn ≠ EmptyString) (v_nodes v)) →
  depth_within newPtrs dirs fuel rootPtr → agrees all c →
  ncs_nodes c !! BlockPointer_ref rootPtr = Some e → ncs_cores c !! nce_core e = Some (newNodeCore rootPtr rootName None) →
  (∀ v, v ∈ all → v_down v = true → dir_value b (v_ptr v) (fbr_Branch (ncs_folderBranch c)) = Some (dirs (v_ptr v))) →
  ∃ m s', SearchForNodes newPtrs fuel ptrs rootPtr (MkSearchState c b ∅) = (Ok m, s') ∧
    dom m = list_to_set ptrs ∧ agrees all (se_cache s') ∧
    (∀ v, v ∈ all → v_ptr v ∈ ptrs → ∃ n, m !! v_ptr v = Some (stdNode n) ∧ node_path (se_cache s') n = Some (v_nodes v)) ∧
    (∀ ptr, ptr ∈ ptrs → ptr ∉ (v_ptr <$> all) → m !! ptr = Some nilNode).
Proof.
  intros all Hnd Hrp Hptrs Hnew Hname Hdepth Ha He Hcore Hreads. assert (tree_nodes all) as Ht by (by apply tree_visits_nodes).
  set (root := root_visit rootPtr rootName). assert (root ∈ all) as Hroot by (by left).
  unfold SearchForNodes. unfold mbind at 1, go_bind at 1, modify at 1. destruct (decide (ptrs = [])) as [->|Hne].
  { eexists ∅, _. split; [done|]. split; [done|]. split; [done|]. split; [intros v _ ?%elem_of_nil; done|intros ptr ?%elem_of_nil; done]. }
  assert (blockRef_IsValid (v_ref root) = true) as Hrv by exact Hrp.
  destruct (Get_in all c root e Ht Ha Hroot Hrv He) as (c1 & Hget & Ha1 & Hg & Hstd & Hfb & Hcores).
  destruct (PathFromNode_root c1 (length (ncs_stds c)) (nce_core e) rootPtr rootName) as [Hpath Hspell]; [done|by rewrite Hcores|].
  destruct (nodes_to_find_dom ptrs) as [Hdom Hnil]. set (K := list_to_set (C := gset BlockPointer) ptrs) in *.
  assert (∀ ptr, ptr ∈ K → BlockPointer_IsValid ptr = true) as HK by (intros ptr Hp%elem_of_list_to_set; by apply Hptrs).
  set (s0 := MkSearchState c1 b (nodes_to_find ptrs)). set (node := stdNode (length (ncs_stds c))) in *.
  change (v_ref root) with (BlockPointer_ref rootPtr) in Hget.
  rewrite (bind_val (on_cache _) _ _ node s0) by (unfold on_cache; simpl; by rewrite Hget). rewrite decide_False by done.
  unfold mbind at 1, go_bind at 1, get at 1. set (isRoot := bool_decide (is_Some (se_nodeMap s0 !! rootPtr))).
  set (s1 := if isRoot then set_found rootPtr node s0 else s0).
  rewrite (bind_val _ _ s0 tt s1) by (subst s1; by destruct isRoot).
  destruct (found_root K all s0 (length (ncs_stds c)) rootPtr rootName) as [Hf Hcount]; try done.
  { intros ptr Hp%elem_of_list_to_set. by apply Hnil. }
  { by exists (nce_core e). }
  { simpl. by rewrite Hfb. }
  simpl in Hf. rewrite Hfb in Hf. change (bool_decide (is_Some (nodes_to_find ptrs !! rootPtr))) with isRoot in Hf.
  change (found_so_far dirs (ncs_folderBranch c) K all [root] s1) in Hf. cbv zeta in Hcount.
  change ((if isRoot then 1 else 0) = count K [root]) in Hcount.
  rewrite Hcount. unfold mbind at 1, go_bind at 1, get at 1.
  assert (∀ seen s, found_so_far dirs (ncs_folderBranch c) K all seen s → NoDup seen → seen = all ∨ size K <= count K seen →
    dom (se_nodeMap s) = K ∧ agrees all (se_cache s) ∧
    (∀ v, v ∈ all → v_ptr v ∈ ptrs → ∃ n, se_nodeMap s !! v_ptr v = Some (stdNode n) ∧ node_path (se_cache s) n = Some (v_nodes v)) ∧
    (∀ ptr, ptr ∈ ptrs → ptr ∉ (v_ptr <$> all) → se_nodeMap s !! ptr = Some nilNode)) as Hend.
  { intros seen s Hs Hns Hor. destruct (found_all K all _ seen s Ht Hs Hns Hor) as [Hx1 Hx2].
    split; [by apply (fs_dom _ _ _ _ _ _ Hs)|]. split; [by apply (fs_agrees _ _ _ _ _ _ Hs)|].
    split; [intros v Hv Hp; apply Hx1; [done|]; by apply elem_of_list_to_set|].
    intros ptr Hp Hno. apply Hx2; [|done]. by apply elem_of_list_to_set. }
  destruct (isRoot && bool_decide (size (se_nodeMap s1) <= count K [root])) eqn:Estop.
  { exists (se_nodeMap s1), s1. split; [done|]. apply (Hend [root] s1 Hf); [by apply NoDup_singleton|right].
    apply andb_true_iff in Estop as [_ Hle%bool_decide_eq_true]. pose proof (fs_dom _ _ _ _ _ _ Hf) as Hdk.
    apply (f_equal size) in Hdk. rewrite size_dom in Hdk. lia. }
  assert (PathFromNode node (se_cache s1) = Some (MkPath (ncs_folderBranch c) [MkPathNode rootPtr rootName])) as Hp1.
  { rewrite <- Hfb, <- Hpath. subst s1. by destruct isRoot. }
  rewrite Hp1. unfold mbind at 1, go_bind at 1, lift_res at 1. rewrite decide_False by (simpl; lia).
  destruct (searchForNodesInDirLocked_spec newPtrs dirs (ncs_folderBranch c) K all Ht HK Hnew fuel root s1 [root] []) as (k & s2 & seen & Hr & Hf2 & _ & Hgot);
    [done|done|done|done|by rewrite app_nil_r|].
  rewrite (bind_val _ _ s1 k s2) by exact Hr. unfold mbind, go_bind, get, mret, go_ret.
  exists (se_nodeMap s2), s2. split; [done|]. destruct Hgot as [(more & -> & Hpre) Hor]. apply (Hend _ s2 Hf2).
  - apply NoDup_fmap_1 in Hnd. destruct Hpre as [z Hz]. unfold all, tree_visits in Hnd. fold root in Hnd.
    simpl in Hz. rewrite Hz in Hnd. change (NoDup (([root] ++ more) ++ z)) in Hnd. by apply NoDup_app in Hnd as [Hnd _].
  - destruct Hor as [->|Hor]; [by left|by right].
Qed.
End theorem.

(** ** A folder to search *)

Definition sx_ptr (c : byte) : BlockPointer :=
  MkBlockPointer (MkBlockID (MkHash (string_of_bytes (x01 :: replicate 31 x00 ++ [c])))) 1%Z 1%Z "u" EmptyString zeroBlockRefNonce.
Definition sx_entry (c : byte) (t : EntryType) : DirEntry := MkDirEntry (MkBlockInfo (sx_ptr c) 10%Z) (MkEntryInfo t 3%Z "" 0%Z 0%Z).

(** The root has a directory ["d"] with a file ["f"] and two symbolic
    links, and a directory ["e"] that has not been changed. *)
Definition sx_link (target : string) : DirEntry :=
  MkDirEntry (MkBlockInfo zeroPtr 0%Z) (MkEntryInfo Sym 0%Z target 0%Z 0%Z).
Definition sx_dirs (ptr : BlockPointer) : DirBlock :=
  MkDirBlock (MkCommonBlock false 0%Z)
    (if decide (ptr = sx_ptr x01) then {[ "d" := sx_entry x02 Dir; "e" := sx_entry x03 Dir ]}
     else if decide (ptr = sx_ptr x02) then {[ "f" := sx_entry x04 File; "l" := sx_link "f"; "m" := sx_link "../e" ]}
     else {[ "g" := sx_entry x05 File ]}) [].

#[local] Instance sx_config : Config := {|
  cfg_MaxFileBytes := 1000%Z; cfg_BlockSplitter := MkBlockSplitterSimple 4%Z 10%Z;
  cfg_CurrentUser := Ok ("alice", "u"); cfg_IsWriter := λ _, true;
  cfg_LatestKeyGeneration := 1%Z; cfg_DataVersion := 1%Z;
  cfg_Get := λ p _, Ok (DirB (sx_dirs p));
  cfg_TempID n := Err UnexpectedShortCryptoRandRead
|}.
#[local] Instance sx_order : MapOrder := {| map_order A l := l; map_order_ok A l := Permutation_refl l |}.

Definition sx_cache : nodeCacheStandard :=
  snd (GetOrCreate (sx_ptr x01) "root" nilNode (newNodeCacheStandard (MkFolderBranch NullTlfID MasterBranch))).
Definition sx_blocks : folderBlockOps := MkFbo ∅ ∅ ∅ ∅ ∅ [] [] false [] 0.

Definition sx_all : list visit := tree_visits {[ sx_ptr x02 ]} sx_dirs 2 (sx_ptr x01) "root".

Lemma sx_all_named : Forall (λ v, Forall (λ pn, pn_Name pn ≠ EmptyString) (v_nodes v)) sx_all.
Proof. apply (bool_decide_unpack _). vm_compute. exact I. Defined.

Lemma sx_agrees : agrees sx_all sx_cache.
Proof.
  split; [apply GetOrCreate_inv, ncs_inv_new|]. intros v e Hv He.
  assert (Forall (λ v, nce_core <$> ncs_nodes sx_cache !! v_ref v = None ∨ nce_core <$> ncs_nodes sx_cache !! v_ref v = Some 0 ∧
    v_nodes v = [MkPathNode (sx_ptr x01) "root"]) sx_all) as Hall by (apply (bool_decide_unpack _); vm_compute; exact I).
  rewrite Forall_forall in Hall. destruct (Hall v Hv) as [Hn|[Hn ->]]; rewrite He in Hn; [done|]. injection Hn as ->.
  exact (proj2 (PathFromNode_root sx_cache 0 0 (sx_ptr x01) "root" eq_refl eq_refl)).
Defined.

Lemma sx_depth : depth_within {[ sx_ptr x02 ]} sx_dirs 2 (sx_ptr x01).
Proof.
  intros name de Hl Hg. change (({[ "d" := sx_entry x02 Dir; "e" := sx_entry x03 Dir ]} : gmap string DirEntry) !! name = Some de) in Hl.
  apply lookup_insert_Some in Hl as [[<- <-]|[_ Hl]]; [|apply lookup_singleton_Some in Hl as [<- <-]; by vm_compute in Hg].
  intros name' de' Hl' Hg'.
  change (({[ "f" := sx_entry x04 File; "l" := sx_link "f"; "m" := sx_link "../e" ]} : gmap string DirEntry) !! name' = Some de') in Hl'.
  apply lookup_insert_Some in Hl' as [[<- <-]|[_ Hl']]; [by vm_compute in Hg'|].
  apply lookup_insert_Some in Hl' as [[<- <-]|[_ Hl']]; [by vm_compute in Hg'|].
  apply lookup_singleton_Some in Hl' as [<- <-]. by vm_compute in Hg'.
Defined.

(** The file below the new directory is found; the one below the old
    directory is not. *)
Lemma SearchForNodes_finds_witness : ∃ m s',
  SearchForNodes {[ sx_ptr x02 ]} 2 [sx_ptr x04; sx_ptr x05] (sx_ptr x01) (MkSearchState sx_cache sx_blocks ∅) = (Ok m, s') ∧
  (∃ n, m !! sx_ptr x04 = Some (stdNode n) ∧ node_path (se_cache s') n =
    Some [MkPathNode (sx_ptr x01) "root"; MkPathNode (sx_ptr x02) "d"; MkPathNode (sx_ptr x04) "f"]) ∧
  m !! sx_ptr x05 = Some nilNode.
Proof.
  destruct (SearchForNodes_finds {[ sx_ptr x02 ]} sx_dirs 2 [sx_ptr x04; sx_ptr x05] (sx_ptr x01) "root" (MkNodeCacheEntry 0 1) sx_cache sx_blocks)
    as (m & s' & Hrun & _ & _ & Hfound & Hrest).
  - apply (bool_decide_unpack _). vm_compute. exact I.
  - vm_compute. reflexivity.
  - apply Forall_forall. apply (bool_decide_unpack _). vm_compute. exact I.
  - intros ptr ->%elem_of_singleton. vm_compute. reflexivity.
  - apply Forall_forall, sx_all_named.
  - exact sx_depth.
  - exact sx_agrees.
  - vm_compute. reflexivity.
  - vm_compute. reflexivity.
  - done.
  - exists m, s'. split; [done|]. split.
    + refine (Hfound (MkVisit (sx_ptr x04) [MkPathNode (sx_ptr x01) "root"; MkPathNode (sx_ptr x02) "d"; MkPathNode (sx_ptr x04) "f"] false) _ _);
        [|by left]. apply (list_elem_of_lookup_2 _ 3). vm_compute. reflexivity.
    + apply Hrest; [by right; left|]. apply (bool_decide_unpack _). vm_compute. exact I.
Defined.
