(* ===== verification/FileIOSpec.v ===== *)
(** * FileIOSpec: file operations refine operations on a byte array

    [Read], [writeDataLocked] and [truncateLocked] of [FileIO] against
    their specification on the contents of the file as one list of
    bytes.  The first part says when the blocks of a file represent its
    contents and how the steps of a write keep the representation. *)

From Stdlib Require Import ZArith Lia.
From S2P Require Import Prelude Types Errors GoStd Ids CryptoCommon Splitter DataTypes Ops FolderBlocks FileIO FileChunks FolderBlocksSpec.

Definition ifp_ptr (p : IndirectFilePtr) : BlockPointer := bi_BlockPointer (ifp_BlockInfo p).

Section file_spec.
Context `{Config, Codec FileBlock, Codec DirBlock, !EncodeTotal FileBlock, !EncodeTotal DirBlock}.
Context (file : path) (tail : BlockPointer) (uname : string) (uid : UID).
Context (F : BlockPointer → Prop) (M : addr → Prop).
Context (h0 : gmap addr Block) (d0 : gmap dirtyBlockID addr).
Abbreviation br := (path_branch file).
Abbreviation key p := (dirty_key p br).
Abbreviation maxSize := (bs_maxSize cfg_BlockSplitter).
Abbreviation m := (Z.to_nat maxSize).
Abbreviation st_ok := (st_ok br F M h0 d0).
Abbreviation owned := (owned br F M).
Abbreviation fview := (fview br).
Abbreviation cached := (cached br).
Abbreviation evolves := (evolves F).
Hypothesis Hvalid : path_isValid file = true.
Hypothesis Htail : tailPointer file = Ok tail.
Hypothesis Huser : cfg_CurrentUser = Ok (uname, uid).
Hypothesis Hwriter : cfg_IsWriter uid = true.
Hypothesis HFtail : F tail.
Hypothesis Hmax : (0 < maxSize < 2 ^ 62)%Z.
(** How many ids the random source can provide. *)
Context (N : nat).
Hypothesis HidInj : ∀ n1 n2 id, cfg_TempID n1 = Ok id → cfg_TempID n2 = Ok id → n1 = n2.

(** ** Temporary block ids *)

(** There are [bud] ids left to draw, and the ids still to be drawn are
    valid, and used by no block of the file, of the dirty cache or of a
    sync. *)
Definition ids_ok (bud : nat) (s : folderBlockOps) (ptrs : list BlockPointer) : Prop :=
  fbo_tempIDs s + bud <= N ∧
  ∀ n, fbo_tempIDs s <= n < N → ∃ id, cfg_TempID n = Ok id ∧ BlockID_IsValid id = true ∧
    F (new_file_ptr id uid) ∧
    (∀ k, is_Some (fbo_dirty s !! k) → dbi_id k ≠ id) ∧
    (∀ p, is_Some (fbo_fileBlockStates s !! p) → bp_ID p ≠ id) ∧
    (∀ p, p ∈ ptrs → bp_ID p ≠ id).

Lemma ids_ok_hext {bud} s s' ptrs : hext s s' → ids_ok bud s ptrs → ids_ok bud s' ptrs.
Proof. by intros (h & -> & _). Qed.

Lemma ids_ok_put {bud} s ptrs p a : p ∈ ptrs → ids_ok bud s ptrs → ids_ok bud (set_dirty (<[key p := a]>) s) ptrs.
Proof.
  intros Hp [Hbud Hi]. split; [done|]. intros n Hn.
  destruct (Hi n Hn) as (id & ? & ? & ? & Hd & ? & Hps). exists id. split_and!; try done. intros k. simpl. rewrite lookup_insert_is_Some.
  intros [<-|[_ Hk]]; [by apply Hps|by apply Hd].
Qed.

Lemma ids_ok_cached {bud} s s' ptrs p a : p ∈ ptrs → cached s s' p a → ids_ok bud s ptrs → ids_ok bud s' ptrs.
Proof.
  intros Hp C [Hbud Hi]. split; [by rewrite (ca_ids _ _ _ _ _ C)|].
  intros n. rewrite (ca_ids _ _ _ _ _ C). intros Hn.
  destruct (Hi n Hn) as (id & ? & ? & ? & Hd & Hs & Hps).
  exists id. split_and!; try done.
  - intros k. rewrite (ca_dirty _ _ _ _ _ C), lookup_insert_is_Some.
    intros [<-|[_ Hk]]; [by apply Hps|by apply Hd].
  - intros p' Hp'. destruct (ca_states_dom _ _ _ _ _ C _ Hp') as [->|?]; [by apply Hps|by apply Hs].
Qed.

Lemma ids_ok_perm {bud} s ptrs ptrs' : (∀ p, p ∈ ptrs' → p ∈ ptrs) → ids_ok bud s ptrs → ids_ok bud s ptrs'.
Proof.
  intros Hp [Hbud Hi]. split; [done|]. intros n Hn.
  destruct (Hi n Hn) as (id & ? & ? & ? & ? & ? & Hps). exists id. split_and!; auto.
Qed.

Lemma ids_ok_weaken bud bud' s ptrs : bud' <= bud → ids_ok bud s ptrs → ids_ok bud' s ptrs.
Proof. intros Hle [Hbud Hi]. split; [lia|done]. Qed.

(** What a newly drawn pointer is like. *)
Record new_ptr (s : folderBlockOps) (ptrs : list BlockPointer) (np : BlockPointer) : Prop := {
  np_F : F np;
  np_valid : BlockPointer_IsValid np = true;
  np_dirty : fbo_dirty s !! key np = None;
  np_state : fileBlockState np s = blockNotBeingSynced;
  np_key p : p ∈ ptrs → key np ≠ key p
}.

Lemma next_id_spec {bud} s ptrs :
  ids_ok (S bud) s ptrs →
  wp MakeTemporaryBlockID_next (λ id s', s' = next_tempID s ∧
    new_ptr s ptrs (new_file_ptr id uid) ∧ ids_ok bud s' (new_file_ptr id uid :: ptrs)) s.
Proof.
  intros [Hbud Hi].
  destruct (Hi (fbo_tempIDs s) ltac:(lia)) as (id & Hid & Hv & HF & Hd & Hst & Hp).
  exists id, (next_tempID s). split; [unfold MakeTemporaryBlockID_next; by rewrite Hid|].
  split_and!; [done| |].
  - split; [done|done|..].
    + apply eq_None_not_Some. intros Hs. by apply (Hd _ Hs).
    + unfold fileBlockState. destruct (fbo_fileBlockStates s !! _) eqn:E; [|done].
      by destruct (Hst (new_file_ptr id uid)).
    + intros p Hin [=]. by apply (Hp p).
  - split; [simpl; lia|]. intros n Hn. simpl in Hn.
    destruct (Hi n ltac:(lia)) as (id' & Hid' & ? & ? & ? & ? & Hp').
    exists id'. split_and!; try done. intros p [->|Hin]%elem_of_cons; [|by apply Hp'].
    simpl. intros ->. specialize (HidInj _ _ _ Hid Hid'). lia.
Qed.

(** ** Adding a block on the right *)

(** The part of the state that fetching and dirtying blocks keep. *)
Definition bookkeeping (s : folderBlockOps) : gmap blockRef syncInfo * gmap blockRef DirEntry :=
  (fbo_unrefCache s, fbo_deCache s).

(** The invariant of a write: [fb] holds the top block [top]. *)
Definition top_ok (bud : nat) (s : folderBlockOps) (fb : addr) (top : FileBlock) (ptrs : list BlockPointer)
    : Prop := st_ok s ∧ owned s tail fb top ∧ ids_ok bud s ptrs.

Lemma newRight_spec {bud} s fb top ptrs off :
  top_ok (S bud) s fb top ptrs → tail ∈ ptrs →
  wp (newRightBlockLocked tail br fb off) (λ _ s', ∃ np,
    new_ptr s ptrs np ∧
    top_ok bud s' fb (add_iptr top (MkIndirectFilePtr (MkBlockInfo np 0) off)) (np :: ptrs) ∧
    fview s' np = Some (MkFileBlock (MkCommonBlock false 0) [] []) ∧
    (∀ p, key p ≠ key tail → key p ≠ key np → fview s' p = fview s p) ∧
    (∀ p a b, owned s p a b → a ≠ fb → key p ≠ key tail → key p ≠ key np → owned s' p a b) ∧
    evolves s s' ∧ bookkeeping s' = bookkeeping s ∧
    (is_Some (fbo_dirty s !! key tail) → fileBlockState tail s ≠ blockNotBeingSynced →
     fbo_doDeferWrite s' = true)) s.
Proof.
  intros (Hok & Ho & Hids) Hin. unfold newRightBlockLocked.
  apply wp_bind. eapply wp_mono; [by eapply next_id_spec|]. intros id s1 (-> & Hnp & Hids1).
  set (np := new_file_ptr id uid) in *. apply wp_bind. eapply wp_lift; [done|].
  change (new_file_ptr id (uname, uid).2) with np. apply wp_bind, wp_alloc. intros ra Hra.
  set (s2 := set_heap _ _). assert (hext (next_tempID s) s2) as He by (by apply hext_alloc).
  assert (st_ok (next_tempID s)) as Hok1 by (by eapply st_ok_ext; [..|exact Hok]).
  assert (st_ok s2) as Hok2 by (by eapply st_ok_hext).
  assert (owned s2 tail fb top) as Ho2 by (eapply owned_hext; [exact He|exact Ho]).
  assert (ra ≠ fb) as Hne by (intros ->; destruct Ho as (_ & _ & Hfb & _); simpl in Hra; congruence).
  apply wp_bind. eapply wp_load_file; [apply Ho2|].
  apply wp_bind, wp_modify.
  set (top' := add_iptr top (MkIndirectFilePtr (MkBlockInfo np 0) off)). set (s3 := set_heap (<[fb := FileB top']>) s2).
  assert (st_ok s3) as Hok3 by (apply st_ok_store; [apply Ho2|eexists; apply Ho2|done]).
  assert (owned s3 tail fb top') as Ho3 by (by eapply owned_store).
  assert (owned s3 np ra (MkFileBlock (MkCommonBlock false 0) [] [])) as Hor.
  { split_and!; [apply Hnp|eapply (st_new _ _ _ _ _ s Hok); exact Hra|..].
    - simpl. rewrite lookup_insert_ne by done. apply lookup_insert_eq.
    - intros k Hk. destruct (st_dom _ _ _ _ _ s Hok _ _ Hk) as [? Hx]. simpl in Hra. congruence.
    - right. left. apply Hnp. }
  apply wp_bind, wp_modify. set (s4 := set_dirty _ s3).
  assert (key np ≠ key tail) as Hkt by (by apply (np_key _ _ _ Hnp)).
  assert (st_ok s4) as Hok4 by (destruct Hor as (? & ? & ? & ? & _); by apply st_ok_put).
  assert (owned s4 tail fb top') as Ho4 by (by apply owned_put_ne).
  eapply wp_mono; [by eapply cacheBlock_spec|]. intros [] s5 C.
  exists np. split; [done|]. split; [|split; [|split; [|split; [|split; [|split]]]]].
  - split_and!; [by eapply st_ok_cached|by eapply owned_cached|].
    eapply ids_ok_cached; [|exact C|]; [by right|].
    apply ids_ok_put; [by left|]. done.
  - rewrite (fview_cached_ne _ _ _ _ _ _ C) by done.
    unfold fview, FolderBlocksSpec.fview. simpl. rewrite lookup_insert_eq.
    by rewrite lookup_insert_ne, lookup_insert_eq by done.
  - intros p Hp1 Hp2. rewrite (fview_cached_ne _ _ _ _ _ _ C) by done.
    subst s4. rewrite fview_put_ne by done. subst s3. erewrite fview_store_ne by done.
    by erewrite (fview_hext _ _ _ _ _ _ _ _ He Hok1).
  - intros p a b Hp Hfb Hk1 Hk2. eapply owned_cached_ne; [|exact C|done|done].
    apply owned_put_ne; [|done|].
    + apply owned_store_ne; [|done]. eapply owned_hext; [exact He|exact Hp].
    + intros ->. destruct Hp as (_ & _ & Ha & _). simpl in Hra. congruence.
  - eapply evolves_trans; [|by eapply evolves_cached]. eapply evolves_trans; [|apply evolves_put].
    split; simpl; done || lia.
  - unfold bookkeeping. by rewrite (ca_unref _ _ _ _ _ C), (ca_de _ _ _ _ _ C).
  - intros Hd Hs. rewrite (ca_defer _ _ _ _ _ C). apply orb_true_iff. right.
    apply andb_true_iff. split.
    + apply bool_decide_eq_true. subst s4. simpl. rewrite lookup_insert_ne by done. done.
    + apply negb_true_iff, bool_decide_eq_false. done.
Qed.

(** ** Blocks that represent the contents *)

(** A read of [p] sees a direct block with contents [c]. *)
Definition child_ok (s : folderBlockOps) (p : BlockPointer) (c : list byte) : Prop :=
  ∃ b, fview s p = Some b ∧ fb_IsInd b = false ∧ fb_Contents b = c.

(** The indirect pointers [ps] lead to the blocks [cs], except perhaps
    at the index [skip]. *)
Definition ind_rep (s : folderBlockOps) (skip : option nat) (ps : list IndirectFilePtr)
    (cs : list (list byte)) : Prop :=
  length ps = length cs ∧ offsets_ok m ps ∧
  NoDup ((λ p, key p) <$> tail :: (ifp_ptr <$> ps)) ∧
  (∀ i p c, ps !! i = Some p → cs !! i = Some c →
     F (ifp_ptr p) ∧ BlockPointer_IsValid (ifp_ptr p) = true ∧
     (skip ≠ Some i → child_ok s (ifp_ptr p) c)).

(** The top block [b] represents [cs]. *)
Definition top_rep (s : folderBlockOps) (b : FileBlock) (cs : list (list byte)) : Prop :=
  if fb_IsInd b then ind_rep s None (fb_IPtrs b) cs else cs = [fb_Contents b].

Lemma ind_rep_keys s skip ps cs i p :
  ind_rep s skip ps cs → ps !! i = Some p →
  key (ifp_ptr p) ≠ key tail ∧
  (∀ j q, ps !! j = Some q → j ≠ i → key (ifp_ptr q) ≠ key (ifp_ptr p)).
Proof.
  intros (_ & _ & Hnd & _) Hi. rewrite fmap_cons in Hnd. apply NoDup_cons in Hnd as [Ht Hnd].
  split.
  - intros Heq. apply Ht. rewrite <- Heq. apply list_elem_of_fmap. exists (ifp_ptr p).
    split; [done|]. apply list_elem_of_fmap. exists p. split; [done|].
    by apply list_elem_of_lookup_2 in Hi.
  - intros j q Hj Hne Heq. apply Hne. eapply (NoDup_lookup _ j i); [exact Hnd|..];
      rewrite !list_lookup_fmap, ?Hi, ?Hj; simpl; by rewrite ?Heq.
Qed.

(** Only the views of the blocks matter. *)
Lemma ind_rep_views s s' skip ps cs :
  (∀ i p, ps !! i = Some p → skip ≠ Some i → fview s' (ifp_ptr p) = fview s (ifp_ptr p)) →
  ind_rep s skip ps cs → ind_rep s' skip ps cs.
Proof.
  intros Hv (Hl & Ho & Hnd & Hc). split_and!; try done.
  intros i p c Hp Hi. destruct (Hc i p c Hp Hi) as (? & ? & Hch). split_and!; try done.
  intros Hs. unfold child_ok. rewrite (Hv i p Hp Hs). exact (Hch Hs).
Qed.

Lemma ind_rep_skip s i ps cs c :
  ind_rep s None ps cs → ind_rep s (Some i) ps (<[i := c]> cs).
Proof.
  intros (Hl & Ho & Hnd & Hc). split_and!; try done; [by rewrite length_insert|].
  intros j p c' Hp Hj. destruct (decide (i = j)) as [<-|Hne].
  - destruct (lookup_lt_is_Some_2 cs i) as [c0 Hc0].
    { rewrite <- Hl. by eapply lookup_lt_Some. }
    destruct (Hc i p c0 Hp Hc0) as (? & ? & _). split_and!; done.
  - rewrite list_lookup_insert_ne in Hj by done.
    destruct (Hc j p c' Hp Hj) as (? & ? & Hch). split_and!; try done. intros _. by apply Hch.
Qed.

Lemma ind_rep_fill s i ps cs p c :
  ind_rep s (Some i) ps cs → ps !! i = Some p → cs !! i = Some c → child_ok s (ifp_ptr p) c →
  ind_rep s None ps cs.
Proof.
  intros (Hl & Ho & Hnd & Hc) Hp Hi Hch. split_and!; try done.
  intros j q c' Hq Hj. destruct (Hc j q c' Hq Hj) as (? & ? & Hs). split_and!; try done.
  intros _. destruct (decide (i = j)) as [<-|Hne]; [by simplify_eq|]. apply Hs. congruence.
Qed.

(** Clearing the encoded size of a pointer changes nothing here. *)
Lemma ind_rep_resize s skip ps cs i p sz :
  ps !! i = Some p → ind_rep s skip ps cs →
  ind_rep s skip (<[i := MkIndirectFilePtr (set_EncodedSize (ifp_BlockInfo p) sz) (ifp_Off p)]> ps) cs.
Proof.
  intros Hi (Hl & Ho & Hnd & Hc).
  assert (∀ j q, <[i := MkIndirectFilePtr (set_EncodedSize (ifp_BlockInfo p) sz) (ifp_Off p)]> ps !! j
      = Some q → ∃ q', ps !! j = Some q' ∧ ifp_ptr q = ifp_ptr q' ∧ ifp_Off q = ifp_Off q') as Hsame.
  { intros j q Hq. destruct (decide (i = j)) as [<-|Hne].
    - rewrite list_lookup_insert_eq in Hq by (by eapply lookup_lt_Some). simplify_eq. by exists p.
    - rewrite list_lookup_insert_ne in Hq by done. by exists q. }
  split_and!.
  - by rewrite length_insert.
  - intros j q Hq. destruct (Hsame j q Hq) as (q' & Hq' & _ & ->). by apply Ho.
  - rewrite list_fmap_insert, list_insert_id; [done|]. rewrite list_lookup_fmap, Hi. done.
  - intros j q c Hq Hj. destruct (Hsame j q Hq) as (q' & Hq' & -> & _). by apply Hc.
Qed.

Lemma ind_rep_app s skip ps cs np sz :
  ind_rep s skip ps cs → F np → BlockPointer_IsValid np = true →
  key np ≠ key tail → (∀ q, q ∈ ps → key np ≠ key (ifp_ptr q)) → child_ok s np [] →
  ind_rep s skip
    (ps ++ [MkIndirectFilePtr (MkBlockInfo np sz) (Z.of_nat (length cs * m))]) (cs ++ [[]]).
Proof.
  intros (Hl & Ho & Hnd & Hc) HF Hv Ht Hps Hch. split_and!.
  - rewrite !length_app. simpl. lia.
  - intros j q [Hj|[Hj1 Hj2]]%lookup_app_Some; [by apply Ho|].
    destruct (j - length ps) as [|?] eqn:Ej; simplify_eq/=. rewrite <- Hl. f_equal. f_equal. lia.
  - rewrite fmap_app, !fmap_cons, fmap_app in *. simpl. rewrite app_comm_cons. apply NoDup_app.
    split; [done|]. split; [|apply NoDup_singleton].
    intros k Hk ->%list_elem_of_singleton. apply elem_of_cons in Hk as [Hk|Hk]; [done|].
    apply list_elem_of_fmap in Hk as (p & Hk & Hp). apply list_elem_of_fmap in Hp as (q & -> & Hq).
    by apply (Hps q).
  - intros j q c [Hj|[Hj1 Hj2]]%lookup_app_Some [Hj'|[Hj1' Hj2']]%lookup_app_Some.
    + by eapply Hc.
    + apply lookup_lt_Some in Hj. lia.
    + apply lookup_lt_Some in Hj'. lia.
    + destruct (j - length ps) as [|?] eqn:Ej; simplify_eq/=.
      replace (j - length cs) with 0 in Hj2' by lia. by simplify_eq/=.
Qed.

(** Dropping the pointers past block [i]. *)
Lemma ind_rep_take s skip ps cs n :
  ind_rep s skip ps cs → ind_rep s skip (take n ps) (take n cs).
Proof.
  intros (Hl & Ho & Hnd & Hc). split_and!.
  - rewrite !length_take. lia.
  - intros j q [Hq _]%lookup_take_Some. by apply Ho.
  - rewrite fmap_cons in *. rewrite fmap_take, fmap_take.
    apply NoDup_cons in Hnd as [Ht Hnd]. apply NoDup_cons. split.
    + intros (j & Hj & _)%elem_of_take. apply Ht. by eapply list_elem_of_lookup_2.
    + by eapply sublist_NoDup; [|apply sublist_take].
  - intros j q c [Hq _]%lookup_take_Some [Hj _]%lookup_take_Some. by eapply Hc.
Qed.

(** ** Finding the block of an offset *)

Lemma exported_fields b b' :
  exported_file b = exported_file b' →
  fb_IsInd b = fb_IsInd b' ∧ fb_Contents b = fb_Contents b' ∧ fb_IPtrs b = fb_IPtrs b'.
Proof. by destruct b as [[]], b' as [[]]; intros [= -> -> ->]. Qed.

Lemma search_block_S fuel off rtype r :
  search_block (S fuel) file off rtype r =
  (load_file (bao_block r) ≫= λ block,
   if fb_IsInd block then
     let nextIndex := next_index (fb_IPtrs block) off 0 in
     match (if decide (0 <= nextIndex)%Z then fb_IPtrs block !! Z.to_nat nextIndex else None) with
     | None => panic "index out of range"
     | Some nextPtr =>
         let ptr := bi_BlockPointer (ifp_BlockInfo nextPtr) in
         getFileBlockLocked ptr file rtype ≫= λ child,
         search_block fuel file off rtype
           (MkBlockAtOffset ptr (Some (bao_block r)) (Z.to_nat nextIndex) child
              (bao_more r || bool_decide (nextIndex ≠ zlen (fb_IPtrs block) - 1)%Z)
              (ifp_Off nextPtr))
     end
   else mret r).
Proof. reflexivity. Qed.

Lemma m_pos : 0 < m.
Proof. lia. Qed.

(** The indirect pointer chosen for [pos]. *)
Lemma ind_rep_next s ps cs pos :
  chunks_ok m cs → ind_rep s None ps cs →
  ∃ p, ps !! locate m cs pos = Some p ∧ F (ifp_ptr p) ∧
    BlockPointer_IsValid (ifp_ptr p) = true ∧ child_ok s (ifp_ptr p) (cs !!! locate m cs pos) ∧
    ifp_Off p = Z.of_nat (locate m cs pos * m) ∧
    next_index ps (Z.of_nat pos) 0 = Z.of_nat (locate m cs pos) ∧
    bool_decide (Z.of_nat (locate m cs pos) ≠ zlen ps - 1)%Z =
    bool_decide (locate m cs pos ≠ length cs - 1).
Proof.
  intros Hcs (Hl & Ho & Hnd & Hc). pose proof (chunk_lookup m m_pos cs pos Hcs) as Hi.
  pose proof (lookup_lt_Some _ _ _ Hi) as Hlt.
  destruct (lookup_lt_is_Some_2 ps (locate m cs pos)) as [p Hp]; [lia|].
  destruct (Hc _ _ _ Hp Hi) as (? & ? & Hch). exists p. split_and!; try done.
  - by apply Hch.
  - by apply Ho.
  - apply next_index_locate; [apply m_pos|done|done|apply Hcs].
  - apply bool_decide_ext. unfold zlen. lia.
Qed.

(** What a search for writing finds. *)
Definition located (s : folderBlockOps) (fb : addr) (top : FileBlock) (cs : list (list byte))
    (pos : nat) (r : blockAtOffset) : Prop :=
  bao_startOff r = Z.of_nat (locate m cs pos * m) ∧
  bao_more r = bool_decide (locate m cs pos ≠ length cs - 1) ∧
  (∃ b, owned s (bao_ptr r) (bao_block r) b ∧ fb_IsInd b = false ∧
        fb_Contents b = cs !!! locate m cs pos) ∧
  if fb_IsInd top then
    bao_parentBlock r = Some fb ∧ bao_indexInParent r = locate m cs pos ∧
    (∃ p, fb_IPtrs top !! locate m cs pos = Some p ∧ bao_ptr r = ifp_ptr p) ∧ bao_block r ≠ fb
  else r = MkBlockAtOffset tail None 0 fb false 0.

Lemma locate_single c pos : locate m [c] pos = 0.
Proof. unfold locate. simpl. lia. Qed.

Lemma search_write_spec s fb top cs pos :
  st_ok s → owned s tail fb top → chunks_ok m cs → top_rep s top cs →
  wp (getFileBlockAtOffsetLocked file fb (Z.of_nat pos) blockWrite)
     (λ r s', hext s s' ∧ located s' fb top cs pos r) s.
Proof.
  intros Hok Ho Hcs Hrep. unfold getFileBlockAtOffsetLocked.
  apply wp_bind. eapply wp_lift; [exact Htail|]. change maxIndirection with (S (S 6)).
  rewrite search_block_S. apply wp_bind. eapply wp_load_file; [apply Ho|].
  unfold top_rep in Hrep. unfold located. destruct (fb_IsInd top) eqn:Ei.
  - destruct (ind_rep_next s _ _ pos Hcs Hrep) as (p & Hp & HF & Hv & (b & Hb & Hbi & Hbc) & Hoff & Hn & Hmore).
    cbv zeta. rewrite Hn, decide_True, Nat2Z.id, Hp by lia.
    apply wp_bind. eapply wp_mono; [by eapply getFileBlock_write_spec|].
    intros a s' (He & (b' & Ho' & Hex) & Ha). apply exported_fields in Hex as (E1 & E2 & E3).
    rewrite search_block_S. apply wp_bind. eapply wp_load_file; [apply Ho'|].
    rewrite E1, Hbi. apply wp_ret. split; [done|]. simpl. rewrite Hmore.
    split_and!; try done.
    + exists b'. by rewrite E1, E2.
    + by exists p.
    + intros ->. destruct (ind_rep_keys _ _ _ _ _ _ Hrep Hp) as [Hk _].
      destruct Ha as [Ha|Ha]; [|destruct Ho as (_ & _ & Hfb & _); congruence].
      by apply (owned_ne br F M s tail fb top (ifp_ptr p) fb).
  - apply wp_ret. subst cs. split; [done|]. rewrite locate_single. simpl. split_and!; try done.
    by exists top.
Qed.

(** A search for reading. *)
Lemma search_read_spec s fb top cs pos :
  st_ok s → fbo_heap s !! fb = Some (FileB top) → chunks_ok m cs → top_rep s top cs →
  wp (getFileBlockAtOffsetLocked file fb (Z.of_nat pos) blockRead)
     (λ r s', hext s s' ∧ bao_startOff r = Z.of_nat (locate m cs pos * m) ∧
        ∃ b, fbo_heap s' !! bao_block r = Some (FileB b) ∧
             fb_Contents b = cs !!! locate m cs pos) s.
Proof.
  intros Hok Ha Hcs Hrep. unfold getFileBlockAtOffsetLocked.
  apply wp_bind. eapply wp_lift; [exact Htail|]. change maxIndirection with (S (S 6)).
  rewrite search_block_S. apply wp_bind. eapply wp_load_file; [exact Ha|].
  unfold top_rep in Hrep. destruct (fb_IsInd top) eqn:Ei.
  - destruct (ind_rep_next s _ _ pos Hcs Hrep) as (p & Hp & HF & Hv & (b & Hb & Hbi & Hbc) & Hoff & Hn & Hmore).
    cbv zeta. rewrite Hn, decide_True, Nat2Z.id, Hp by lia.
    apply wp_bind. eapply wp_mono; [by eapply getFileBlock_read_spec|].
    intros a s' (He & Ha'). rewrite search_block_S. apply wp_bind. eapply wp_load_file; [exact Ha'|].
    rewrite Hbi. apply wp_ret. split_and!; [done|done|]. by exists b.
  - apply wp_ret. subst cs. rewrite locate_single. split_and!; [done|done|]. by exists top.
Qed.

(** ** Copying into a block *)

Lemma CopyUntilSplit_chunk block cs pos d lastBlock :
  chunks_ok m cs → fb_Contents block = cs !!! locate m cs pos →
  (Z.of_nat pos + zlen d < 2 ^ 62)%Z →
  CopyUntilSplit cfg_BlockSplitter lastBlock d (Z.of_nat (pos - locate m cs pos * m)) block =
  (Ok (Z.of_nat (fst (chunk_step m cs pos d))), set_Contents block (snd (chunk_step m cs pos d))).
Proof.
  intros Hcs Hc Hb. rewrite CopyUntilSplit_eq by lia. unfold copy_until_split_spec, chunk_step.
  pose proof (chunk_c_le m m_pos cs pos Hcs) as Hle. cbv zeta. rewrite Hc, Nat2Z.id.
  unfold zlen in *. set (c := cs !!! _) in *. set (lo := pos - _) in *.
  destruct (decide (lo + length d <= m)).
  - simpl. case_decide; [done|]. rewrite decide_False, decide_True by lia. done.
  - rewrite !(decide_False (P := (_ <= Z.of_nat (length c))%Z)) by lia.
    rewrite (decide_False (P := (_ < _)%Z)), (decide_False (P := (_ + _ <= _)%Z)) by lia.
    destruct (decide (lo <= m)).
    + rewrite decide_True by lia. simpl.
      replace (Z.to_nat (maxSize - Z.of_nat lo)) with (m - lo) by lia.
      f_equal. f_equal. lia.
    + rewrite decide_False by lia. done.
Qed.

Lemma copy_into_spec s p a b cs pos d lastBlock :
  st_ok s → owned s p a b → chunks_ok m cs → fb_Contents b = cs !!! locate m cs pos →
  (Z.of_nat pos + zlen d < 2 ^ 62)%Z →
  let b' := set_Contents b (snd (chunk_step m cs pos d)) in
  wp (copy_into a lastBlock d (Z.of_nat (pos - locate m cs pos * m)))
     (λ k s', k = Z.of_nat (fst (chunk_step m cs pos d)) ∧
        s' = set_heap (<[a := FileB b']>) s ∧ st_ok s' ∧ owned s' p a b') s.
Proof.
  intros Hok Ho Hcs Hc Hb b'. unfold copy_into. apply wp_bind. eapply wp_load_file; [apply Ho|].
  rewrite (CopyUntilSplit_chunk _ cs) by done. apply wp_bind, wp_modify.
  eapply wp_lift; [reflexivity|]. split_and!; [done..| |].
  - apply st_ok_store; [apply Ho|eexists; apply Ho|done].
  - by eapply owned_store.
Qed.

(** ** A write in progress

    The top block [top] at [fb] is indirect, and the block [b] at [a],
    number [i] of the file, has been modified but not yet cached. *)

Definition file_ptrs (top : FileBlock) : list BlockPointer := tail :: (ifp_ptr <$> fb_IPtrs top).

Definition pending (bud : nat) (s : folderBlockOps) (fb : addr) (top : FileBlock) (cs : list (list byte))
    (i : nat) (p : BlockPointer) (a : addr) (b : FileBlock) : Prop :=
  top_ok bud s fb top (file_ptrs top) ∧ fb_IsInd top = true ∧
  ind_rep s (Some i) (fb_IPtrs top) cs ∧ (∃ q, fb_IPtrs top !! i = Some q ∧ p = ifp_ptr q) ∧
  owned s p a b ∧ fb_IsInd b = false ∧ cs !! i = Some (fb_Contents b) ∧ a ≠ fb.

Lemma pending_ext {bud} s s' fb top cs i p a b :
  fbo_heap s' = fbo_heap s → fbo_dirty s' = fbo_dirty s →
  fbo_fileBlockStates s' = fbo_fileBlockStates s → fbo_tempIDs s' = fbo_tempIDs s →
  pending bud s fb top cs i p a b → pending bud s' fb top cs i p a b.
Proof.
  intros E1 E2 E3 E4 ((Hok & Ho & Hi) & Hind & Hr & Hq & Hob & Hb).
  unfold pending, top_ok. split; [|split; [done|split; [|split; [done|split; [|done]]]]].
  - split_and!; [by eapply st_ok_ext| |].
    + unfold FolderBlocksSpec.owned, fileBlockState in *. by rewrite E1, E2, E3.
    + unfold ids_ok in *. by rewrite E2, E3, E4.
  - eapply ind_rep_views; [|exact Hr]. intros j q _ _.
    unfold FolderBlocksSpec.fview. by rewrite E1, E2.
  - unfold FolderBlocksSpec.owned, fileBlockState in *. by rewrite E1, E2, E3.
Qed.

Lemma pending_weaken bud bud' s fb top cs i p a b :
  bud' <= bud → pending bud s fb top cs i p a b → pending bud' s fb top cs i p a b.
Proof.
  intros Hle ((Hok & Ho & Hi) & Hrest). split; [|done].
  split_and!; [done|done|by eapply ids_ok_weaken].
Qed.

Lemma top_ok_weaken bud bud' s fb top ptrs :
  bud' <= bud → top_ok bud s fb top ptrs → top_ok bud' s fb top ptrs.
Proof. intros Hle (? & ? & ?). split_and!; [done|done|by eapply ids_ok_weaken]. Qed.

(** Remembering the old size of the block. *)
Lemma forget_spec {bud} s fb top cs i p a b ref :
  pending bud s fb top cs i p a b →
  wp (forget_encoded_size ref fb i) (λ _ s', ∃ top' l,
    pending bud s' fb top' cs i p a b ∧ evolves s s' ∧ fbo_deCache s' = fbo_deCache s ∧
    fbo_dirty s' = fbo_dirty s ∧
    fbo_unrefCache s' = alter (si_append l) ref (fbo_unrefCache s)) s.
Proof.
  intros ((Hok & Ho & Hi) & Hind & Hr & (q & Hq & Hpq) & Hob & Hb1 & Hb2 & Hne).
  unfold forget_encoded_size. apply wp_bind. eapply wp_load_file; [apply Ho|]. rewrite Hq.
  apply wp_bind, wp_modify, wp_modify.
  set (top' := MkFileBlock _ _ _). exists top', [ifp_BlockInfo q].
  assert (ifp_ptr <$> fb_IPtrs top' = ifp_ptr <$> fb_IPtrs top) as Hptrs.
  { simpl. rewrite list_fmap_insert, list_insert_id; [done|]. by rewrite list_lookup_fmap, Hq. }
  split; [|done]. unfold pending, top_ok, file_ptrs. rewrite Hptrs. split; [|split; [|split; [|split; [|split; [|done]]]]].
  - split_and!; [| |done].
    + apply st_ok_store; [apply Ho|eexists; apply Ho|]. by eapply st_ok_ext; [..|exact Hok].
    + by eapply owned_store.
  - done.
  - pose proof (ind_rep_resize s _ _ _ i q 0 Hq Hr) as Hr'.
    eapply ind_rep_views; [|exact Hr']. intros j q' Hq' _.
    eapply (fview_store_ne br F M h0 d0 s tail fb top); [done|done|].
    destruct (ind_rep_keys _ _ _ _ _ _ Hr' Hq') as [? _]. done.
  - exists (MkIndirectFilePtr (set_EncodedSize (ifp_BlockInfo q) 0) (ifp_Off q)). split; [|done].
    simpl. apply list_lookup_insert_eq. by eapply lookup_lt_Some.
  - by apply owned_store_ne.
Qed.

(** Caching the modified block completes the step. *)
Lemma pending_cache {bud} s fb top cs i p a b :
  pending bud s fb top cs i p a b →
  wp (cacheBlockIfNotYetDirtyLocked p br a) (λ _ s',
    top_ok bud s' fb top (file_ptrs top) ∧ top_rep s' top cs ∧ evolves s s' ∧
    bookkeeping s' = bookkeeping s ∧ fbo_dirty s' !! key tail = fbo_dirty s !! key tail) s.
Proof.
  intros ((Hok & Ho & Hi) & Hind & Hr & (q & Hq & ->) & Hob & Hb1 & Hb2 & Hne).
  pose proof (ind_rep_keys _ _ _ _ _ _ Hr Hq) as [Hk1 Hk2].
  eapply wp_mono; [by eapply cacheBlock_spec|]. intros [] s' C. split_and!.
  - split_and!; [by eapply st_ok_cached|by eapply owned_cached_ne|].
    eapply ids_ok_cached; [|exact C|exact Hi]. right. apply list_elem_of_fmap.
    exists q. split; [done|]. by eapply list_elem_of_lookup_2.
  - unfold top_rep. rewrite Hind. eapply ind_rep_fill; [|exact Hq|exact Hb2|].
    + eapply ind_rep_views; [|exact Hr]. intros j q' Hq' Hj.
      apply (fview_cached_ne _ _ _ _ _ _ C). assert (j ≠ i) by congruence.
      intros Heq. by apply (Hk2 j q' Hq').
    + exists b. split; [by eapply fview_cached|done].
  - by eapply evolves_cached.
  - unfold bookkeeping. by rewrite (ca_unref _ _ _ _ _ C), (ca_de _ _ _ _ _ C).
  - rewrite (ca_dirty _ _ _ _ _ C), lookup_insert_ne by congruence. done.
Qed.

(** So does caching the top block meanwhile. *)
Lemma pending_cache_top {bud} s fb top cs i p a b :
  pending bud s fb top cs i p a b →
  wp (cacheBlockIfNotYetDirtyLocked tail br fb) (λ _ s',
    pending bud s' fb top cs i p a b ∧ evolves s s' ∧ bookkeeping s' = bookkeeping s ∧
    fbo_dirty s' !! key tail = Some fb ∧
    (is_Some (fbo_dirty s !! key tail) → fileBlockState tail s ≠ blockNotBeingSynced →
     fbo_doDeferWrite s' = true)) s.
Proof.
  intros ((Hok & Ho & Hi) & Hind & Hr & (q & Hq & ->) & Hob & Hb1 & Hb2 & Hne).
  pose proof (ind_rep_keys _ _ _ _ _ _ Hr Hq) as [Hk1 Hk2].
  eapply wp_mono; [by eapply cacheBlock_spec|]. intros [] s' C. split_and!.
  - unfold pending. split; [|split; [done|split; [|split; [by exists q|split; [|done]]]]].
    + split_and!; [eapply st_ok_cached; [exact Hok|exact Ho|exact C]|
        eapply owned_cached; [exact Ho|exact C]|by eapply ids_ok_cached; [left| |]].
    + eapply ind_rep_views; [|exact Hr]. intros j q' Hq' _. apply (fview_cached_ne _ _ _ _ _ _ C).
      destruct (ind_rep_keys _ _ _ _ _ _ Hr Hq') as [Hk _]. congruence.
    + eapply owned_cached_ne; [done|exact C|congruence|congruence].
  - eapply evolves_cached; [exact Ho|exact C].
  - unfold bookkeeping. by rewrite (ca_unref _ _ _ _ _ C), (ca_de _ _ _ _ _ C).
  - by rewrite (ca_dirty _ _ _ _ _ C), lookup_insert_eq.
  - intros Hd Hs. rewrite (ca_defer _ _ _ _ _ C). apply orb_true_iff. right.
    apply andb_true_iff. split; [by apply bool_decide_eq_true|].
    by apply negb_true_iff, bool_decide_eq_false.
Qed.

(** A modified block of an indirect file is pending. *)
Lemma located_pending {bud} s fb top cs pos r b c' :
  top_ok bud s fb top (file_ptrs top) → top_rep s top cs → chunks_ok m cs → fb_IsInd top = true →
  located s fb top cs pos r → owned s (bao_ptr r) (bao_block r) b → fb_IsInd b = false →
  pending bud (set_heap (<[bao_block r := FileB (set_Contents b c')]>) s) fb top
    (<[locate m cs pos := c']> cs) (locate m cs pos) (bao_ptr r) (bao_block r) (set_Contents b c').
Proof.
  intros (Hok & Ho & Hi) Hrep Hcs Hind (_ & _ & _ & Hl) Hob Hb.
  unfold top_rep in Hrep. rewrite Hind in Hrep, Hl. destruct Hl as (_ & _ & (q & Hq & Hpq) & Hne).
  pose proof (ind_rep_keys _ _ _ _ _ _ Hrep Hq) as [Hk1 Hk2].
  unfold pending. split; [|split; [done|split; [|split; [by exists q|split; [by eapply owned_store|]]]]].
  - split_and!; [|by eapply owned_store_ne|done].
    apply st_ok_store; [apply Hob|eexists; apply Hob|done].
  - eapply ind_rep_views; [|by apply ind_rep_skip]. intros j q' Hq' Hj.
    eapply (fview_store_ne br F M h0 d0); [exact Hok|exact Hob|]. rewrite Hpq.
    assert (j ≠ locate m cs pos) by congruence. intros Heq. by apply (Hk2 j q' Hq').
  - split_and!; [done| |done]. simpl. apply list_lookup_insert_eq.
    by apply chunk_i_lt; [apply m_pos|].
Qed.

(** Adding a block on the right while block [i] is pending. *)
Lemma pending_newRight {bud} s fb top cs i p a b :
  pending (S bud) s fb top cs i p a b →
  wp (newRightBlockLocked tail br fb (Z.of_nat (length cs * m))) (λ _ s', ∃ top',
    pending bud s' fb top' (cs ++ [[]]) i p a b ∧ evolves s s' ∧ bookkeeping s' = bookkeeping s) s.
Proof.
  intros (Htop & Hind & Hr & (q & Hq & ->) & Hob & Hb1 & Hb2 & Hne).
  pose proof (ind_rep_keys _ _ _ _ _ _ Hr Hq) as [Hk1 Hk2].
  eapply wp_mono; [eapply newRight_spec; [exact Htop|by left]|].
  intros [] s' (np & Hnp & Htop' & Hvn & Hv & Hoo & Hev & Hbk & _).
  exists (add_iptr top (MkIndirectFilePtr (MkBlockInfo np 0) (Z.of_nat (length cs * m)))).
  assert (∀ q', q' ∈ fb_IPtrs top → key np ≠ key (ifp_ptr q')) as Hnk.
  { intros q' Hq'. apply (np_key _ _ _ Hnp). right. by apply list_elem_of_fmap_2. }
  split_and!; [|done..]. unfold pending. split; [|split; [done|split; [|split; [|split]]]].
  - destruct Htop' as (? & ? & Hids). split_and!; [done..|]. eapply ids_ok_perm; [|exact Hids].
    unfold file_ptrs. simpl. rewrite fmap_app. set_solver.
  - simpl. apply ind_rep_app.
    + eapply ind_rep_views; [|exact Hr]. intros j q' Hq' _. apply Hv.
      * by destruct (ind_rep_keys _ _ _ _ _ _ Hr Hq').
      * intros Heq. apply (Hnk q'); [by eapply list_elem_of_lookup_2|done].
    + apply Hnp.
    + apply Hnp.
    + by apply (np_key _ _ _ Hnp); left.
    + done.
    + by eexists.
  - exists q. split; [|done]. simpl. by apply lookup_app_l_Some.
  - apply Hoo; [done..|]. intros Heq. apply (Hnk q); [by eapply list_elem_of_lookup_2|done].
  - split_and!; [done| |done]. by apply lookup_app_l_Some.
Qed.

(** A direct file becomes indirect: its block [b] at [a] gets a new
    pointer and is pending as block 0. *)
Lemma make_indirect_spec {bud} s a b :
  top_ok (S bud) s a b (file_ptrs b) → fb_IsInd b = false →
  wp (newID ← MakeTemporaryBlockID_next;
      let newPtr := new_file_ptr newID uid in
      fblock ← alloc (FileB (MkFileBlock (MkCommonBlock true 0) []
                        [MkIndirectFilePtr (MkBlockInfo newPtr 0) 0]));
      _ ← bcache_PutDirty tail (path_branch file) fblock;
      mret (fblock, newPtr))
    (λ fp s', ∃ top, pending bud s' (fst fp) top [fb_Contents b] 0 (snd fp) a b ∧
       evolves s s' ∧ bookkeeping s' = bookkeeping s) s.
Proof.
  intros (Hok & Ho & Hids) Hb. apply wp_bind. eapply wp_mono; [by eapply next_id_spec|].
  intros id s1 (-> & Hnp & Hids1). cbv zeta. set (np := new_file_ptr id uid) in *.
  apply wp_bind, wp_alloc. intros fb Hfb. apply wp_bind, wp_modify, wp_ret. simpl fst. simpl snd.
  set (top := MkFileBlock _ _ _). exists top. set (s2 := set_heap _ _).
  assert (key np ≠ key tail) as Hk by (apply (np_key _ _ _ Hnp); left).
  assert (hext (next_tempID s) s2) as He by (by apply hext_alloc).
  assert (st_ok s2) as Hok2.
  { eapply st_ok_hext; [exact He|]. by eapply st_ok_ext; [..|exact Hok]. }
  assert (fb ≠ a) as Hne by (intros ->; destruct Ho as (_ & _ & Ha & _); simpl in Hfb; congruence).
  assert (∀ k, fbo_dirty s !! k ≠ Some fb) as Hnew.
  { intros k Hd. destruct (st_dom _ _ _ _ _ s Hok _ _ Hd) as [? Hx]. simpl in Hfb. congruence. }
  assert (fbo_heap s2 !! fb = Some (FileB top)) as Hfb2 by apply lookup_insert_eq.
  assert (M fb) as HMfb by (by eapply (st_new _ _ _ _ _ s)).
  set (s3 := set_dirty (<[key tail := fb]>) s2).
  assert (st_ok s3) as Hok3.
  { apply st_ok_put; [done..|]. intros k Hd. by destruct (Hnew k). }
  assert (owned s3 tail fb top) as Ho3.
  { apply owned_put; [done..|]. intros k Hd. by destruct (Hnew k). }
  assert (owned s3 np a b) as Hob.
  { destruct Ho as (_ & HM & Ha & Hu & _). split_and!; [apply Hnp|done|..].
    - simpl. by rewrite lookup_insert_ne.
    - intros k. simpl. rewrite lookup_insert_Some. intros [[_ ?]|[Hkk Hd]]; [done|].
      destruct Hkk. symmetry. by apply Hu.
    - right. left. simpl. rewrite lookup_insert_ne by done. apply Hnp. }
  split; [|split; [|done]].
  - unfold pending. split; [|split; [done|split; [|split; [by eexists|split_and!; done]]]].
    + split_and!; [done..|]. apply ids_ok_put; [by left|].
      eapply ids_ok_perm; [|exact Hids1]. unfold file_ptrs. simpl. set_solver.
    + split_and!; [done| | |].
      * intros [|j] q Hq; [|done]. simplify_eq/=. done.
      * simpl. apply NoDup_cons. split; [|apply NoDup_singleton].
        intros Hin%list_elem_of_singleton. done.
      * intros [|j] q c Hq Hc; [|done]. simplify_eq/=. split_and!; [apply Hnp..|done].
  - eapply evolves_trans; [|apply evolves_put]. split; simpl; done || lia.
Qed.

(** ** The end of an iteration *)

Abbreviation tailRef := (BlockPointer_ref tail).

(** The directory entry [de] becomes [de'] when the file grows to
    [len] bytes. *)
Definition entry_step (s s' : folderBlockOps) (de de' : DirEntry) (len : nat) : Prop :=
  DirEntry_BlockPointer de' = DirEntry_BlockPointer de ∧
  ei_Size (de_EntryInfo de') = Z.of_nat len ∧
  ((de' = de ∧ fbo_deCache s' = fbo_deCache s) ∨
   fbo_deCache s' = <[tailRef := de']> (fbo_deCache s)).

Definition unref_step (ref : blockRef) (s s' : folderBlockOps) : Prop :=
  ∃ l, fbo_unrefCache s' = alter (si_append l) ref (fbo_unrefCache s).

Lemma unref_step_refl ref s s' : fbo_unrefCache s' = fbo_unrefCache s → unref_step ref s s'.
Proof.
  intros Heq. exists []. rewrite Heq. symmetry. apply map_eq. intros k. destruct (decide (k = ref)) as [->|Hne].
  - rewrite lookup_alter_eq. destruct (fbo_unrefCache s !! ref) as [[]|]; simpl; [|done].
    unfold si_append. simpl. by rewrite app_nil_r.
  - by rewrite lookup_alter_ne.
Qed.

(** The directory entry of the iteration. *)
Lemma entry_spec s de old new len :
  ei_Size (de_EntryInfo de) = Z.of_nat len → old <= new → old <= len →
  (Z.of_nat (len + (new - old)) < 2 ^ 62)%Z →
  wp (if decide (Z.of_nat old ≠ Z.of_nat new) then
        let de' := de_resize de
          (to_u64 (ei_Size (de_EntryInfo de) + to_u64 (Z.of_nat new - Z.of_nat old))) in
        _ ← modify (set_deCache (<[tailRef := de']>)); mret de'
      else mret de)
     (λ de' s', entry_step s s' de de' (len + (new - old)) ∧
        (s' = s ∨ ∃ d, s' = set_deCache (<[tailRef := d]>) s)) s.
Proof.
  intros Hsz Hle Hlen Hb. case_decide as Hne.
  - cbv zeta. apply wp_bind, wp_modify, wp_ret. split; [|right; by eexists]. split_and!; [done| |by right].
    simpl. rewrite Hsz, (to_u64_small (_ - _)), to_u64_small by lia. lia.
  - apply wp_ret. split; [|by left]. split_and!; [done| |by left]. rewrite Hsz. f_equal. lia.
Qed.

(** After an iteration: the representation, and for a direct file the
    block is cached already. *)
Definition write_post (bud : nat) (s s' : folderBlockOps) (fb : addr) (cs : list (list byte)) : Prop :=
  ∃ top, top_ok bud s' fb top (file_ptrs top) ∧ top_rep s' top cs ∧
    (fb_IsInd top = false → fview s' tail = Some top ∧
       (is_Some (fbo_dirty s !! key tail) → fileBlockState tail s ≠ blockNotBeingSynced →
        fbo_doDeferWrite s' = true)).

Section finish.
Context (ref : blockRef) (v : writeVars) (r : blockAtOffset) (old new len : nat) (nCopied : Z).
Hypothesis Hsize : ei_Size (de_EntryInfo (wv_de v)) = Z.of_nat len.
Hypothesis Hgrow : old <= new.
Hypothesis Hlen : old <= len.
Hypothesis Hbound : (Z.of_nat (len + (new - old)) < 2 ^ 62)%Z.

(** An indirect file. *)
Lemma finish_pending {bud} s s0 fb top cs i p b :
  pending bud s fb top cs i p (bao_block r) b → evolves s0 s →
  bao_parentBlock r = None ∨ (bao_parentBlock r = Some fb ∧ bao_indexInParent r = i) →
  wp (write_finish file ref (Z.of_nat old) (Z.of_nat new) nCopied r v (fb, p)) (λ v' s',
    wv_fblock v' = fb ∧ wv_nCopied v' = nCopied ∧ write_post bud s0 s' fb cs ∧ evolves s s' ∧
    entry_step s s' (wv_de v) (wv_de v') (len + (new - old)) ∧ unref_step ref s s') s.
Proof.
  intros Hp Hev0 Hparent. unfold write_finish. apply wp_bind. eapply wp_lift; [exact Htail|].
  apply wp_bind. eapply wp_mono; [by apply entry_spec|]. intros de' s1 (Hentry & Hs1).
  assert (pending bud s1 fb top cs i p (bao_block r) b ∧ evolves s s1 ∧
          fbo_unrefCache s1 = fbo_unrefCache s) as (Hp1 & Hev1 & Hu1).
  { destruct Hs1 as [->|[d ->]]; [done|]. split_and!; [by eapply pending_ext; [..|exact Hp]|by split|done]. }
  apply wp_bind.
  apply (wp_mono _ (λ _ s2, ∃ top', pending bud s2 fb top' cs i p (bao_block r) b ∧ evolves s1 s2 ∧
    fbo_deCache s2 = fbo_deCache s1 ∧ unref_step ref s1 s2)).
  { destruct Hparent as [->|[-> ->]].
    - apply wp_ret. exists top. split_and!; [done..|by apply unref_step_refl].
    - eapply wp_mono; [by eapply forget_spec|]. intros [] s2 (top' & l & ? & ? & ? & _ & ?).
      exists top'. split_and!; [done..|by exists l]. }
  intros [] s2 (top' & Hp2 & Hev2 & Hd2 & Hu2). apply wp_bind.
  eapply wp_mono; [by eapply pending_cache|]. intros [] s3 (Htop & Hrep & Hev3 & Hbk & _).
  apply wp_ret. injection Hbk as Hb1 Hb2. simpl. split_and!; [done|done|..].
  - exists top'. split_and!; [apply Htop..|done|]. destruct Hp2 as (_ & Hi & _). by rewrite Hi.
  - eapply evolves_trans; [exact Hev1|]. by eapply evolves_trans.
  - destruct Hentry as (? & ? & Hde). split_and!; [done..|]. by rewrite Hb2, Hd2.
  - destruct Hu2 as [l Hl]. exists l. by rewrite Hb1, Hl, Hu1.
Qed.

(** A direct file whose block had room. *)
Lemma finish_direct {bud} s s0 fb top :
  top_ok bud s fb top (file_ptrs top) → fb_IsInd top = false → evolves s0 s →
  bao_parentBlock r = None → bao_block r = fb →
  wp (write_finish file ref (Z.of_nat old) (Z.of_nat new) nCopied r v (fb, tail)) (λ v' s',
    wv_fblock v' = fb ∧ wv_nCopied v' = nCopied ∧ write_post bud s0 s' fb [fb_Contents top] ∧
    evolves s s' ∧
    entry_step s s' (wv_de v) (wv_de v') (len + (new - old)) ∧ unref_step ref s s') s.
Proof.
  intros (Hok & Ho & Hids) Hi Hev0 Hparent Hblock. unfold write_finish. apply wp_bind.
  eapply wp_lift; [exact Htail|].
  apply wp_bind. eapply wp_mono; [by apply entry_spec|]. intros de' s1 (Hentry & Hs1).
  assert (st_ok s1 ∧ owned s1 tail fb top ∧ ids_ok bud s1 (file_ptrs top) ∧ evolves s s1 ∧
          fbo_unrefCache s1 = fbo_unrefCache s) as (Hok1 & Ho1 & Hids1 & Hev1 & Hu1).
  { destruct Hs1 as [->|[d ->]]; [done|]. split_and!; try done. by eapply st_ok_ext; [..|exact Hok]. }
  rewrite Hparent, Hblock. apply wp_bind, wp_ret, wp_bind.
  eapply wp_mono; [by eapply cacheBlock_spec|]. intros [] s2 C. apply wp_ret. simpl.
  pose proof (evolves_cached _ _ _ _ _ _ _ _ Ho1 C) as Hev2. split_and!; [done|done|..].
  - exists top. split; [|split; [|intros _; split]].
    + split_and!; [by eapply st_ok_cached|by eapply owned_cached|].
      by eapply ids_ok_cached; [left| |].
    + unfold top_rep. by rewrite Hi.
    + by eapply fview_cached.
    + intros Hd Hst. rewrite (ca_defer _ _ _ _ _ C). apply orb_true_iff. right.
      apply andb_true_iff. split.
      * apply bool_decide_eq_true. apply Hev1. by apply Hev0.
      * apply negb_true_iff, bool_decide_eq_false. intros E. apply Hst.
        apply (ev_sync _ _ _ Hev0). by apply (ev_sync _ _ _ Hev1).
  - by eapply evolves_trans.
  - destruct Hentry as (? & ? & Hde). split_and!; [done..|]. by rewrite (ca_de _ _ _ _ _ C).
  - apply unref_step_refl. by rewrite (ca_unref _ _ _ _ _ C).
Qed.

End finish.

(** ** A new block on the right *)

Lemma new_block_pending {bud} s fb top cs i p a b :
  pending (S bud) s fb top cs i p a b →
  wp (write_new_block file uid fb p (Z.of_nat (length cs * m))) (λ fp s', fp = (fb, p) ∧ ∃ top',
    pending bud s' fb top' (cs ++ [[]]) i p a b ∧ evolves s s' ∧ bookkeeping s' = bookkeeping s) s.
Proof.
  intros Hp. pose proof Hp as (_ & _ & Hr & (q & Hq & Hpq) & _).
  destruct (ind_rep_keys _ _ _ _ _ _ Hr Hq) as [Hk _].
  unfold write_new_block. apply wp_bind. eapply wp_lift; [exact Htail|].
  rewrite decide_False by (intros ->; by rewrite Hpq in Hk). apply wp_bind, wp_ret, wp_bind.
  eapply wp_mono; [by eapply pending_newRight|]. intros [] s' Hs'. by apply wp_ret.
Qed.

Lemma new_block_direct {bud} s a b :
  top_ok (S (S bud)) s a b (file_ptrs b) → fb_IsInd b = false →
  wp (write_new_block file uid a tail (Z.of_nat (1 * m))) (λ fp s', ∃ top,
    pending bud s' (fst fp) top [fb_Contents b; []] 0 (snd fp) a b ∧ evolves s s' ∧
    bookkeeping s' = bookkeeping s) s.
Proof.
  intros Htop Hb. unfold write_new_block. apply wp_bind. eapply wp_lift; [exact Htail|].
  rewrite decide_True by done. apply wp_bind.
  eapply wp_mono; [by eapply (make_indirect_spec s a b)|].
  intros fp s1 (top & Hp & Hev & Hbk). apply wp_bind.
  eapply wp_mono; [by eapply (pending_newRight s1 _ _ [fb_Contents b])|].
  intros [] s2 (top' & Hp' & Hev' & Hbk'). apply wp_ret. exists top'.
  split_and!; [done|by eapply evolves_trans|congruence].
Qed.

(** ** One iteration *)

(** The invariant of the loop at position [pos] with [len] bytes in the
    file. *)
Definition write_inv (bud : nat) (s : folderBlockOps) (v : writeVars) (cs : list (list byte)) : Prop :=
  chunks_ok m cs ∧ ei_Size (de_EntryInfo (wv_de v)) = Z.of_nat (length (concat cs)) ∧
  ∃ top, top_ok bud s (wv_fblock v) top (file_ptrs top) ∧ top_rep s top cs.

(** What an iteration does besides the contents. *)
Definition step_rel (ref : blockRef) (s : folderBlockOps) (v : writeVars)
    (s' : folderBlockOps) (v' : writeVars) (cs' : list (list byte)) : Prop :=
  evolves s s' ∧
  entry_step s s' (wv_de v) (wv_de v') (length (concat cs')) ∧
  unref_step ref s s'.

Lemma chunk_old_le_any cs pos :
  chunks_ok m cs →
  locate m cs pos * m + length (cs !!! locate m cs pos) <= length (concat cs).
Proof.
  intros Hcs. rewrite (concat_split cs _ _ (chunk_lookup m m_pos cs pos Hcs)), !length_app.
  rewrite (length_concat_take m m_pos cs _ Hcs (chunk_i_lt m m_pos cs pos Hcs)). lia.
Qed.

Section step.
Context (ref : blockRef) (data : list byte) (off n0 : nat).
Hypothesis Hn0 : n0 < length data.
Hypothesis Hbound : (Z.of_nat off + zlen data < 2 ^ 62)%Z.
Abbreviation pos := (off + n0).
Abbreviation d := (drop n0 data).

Lemma step_data : d ≠ [] ∧ length d = length data - n0 ∧ (Z.of_nat pos + zlen d < 2 ^ 62)%Z.
Proof.
  unfold zlen in *. rewrite length_drop. split_and!; [|lia|lia].
  intros Hnil%(f_equal length). rewrite length_drop in Hnil. simpl in Hnil. lia.
Qed.

Lemma chunk_result_bound cs :
  chunks_ok m cs → (Z.of_nat (length (concat cs)) < 2 ^ 62)%Z →
  (Z.of_nat (length (concat (chunk_result m cs pos d))) < 2 ^ 62)%Z.
Proof.
  intros Hcs Hlen. destruct step_data as (Hd & _ & Hb).
  pose proof (chunk_result_contents m m_pos cs pos d Hcs Hd) as Hc.
  apply (f_equal length) in Hc. rewrite length_write_at in Hc. unfold zlen in Hb.
  case_decide; [rewrite length_write_at in Hc|]; lia.
Qed.

(** The relation from the start of an iteration, once the blocks have
    been fetched and added. *)
Lemma step_rel_from s s3 v s' v' cs' :
  evolves s s3 → bookkeeping s3 = bookkeeping s → step_rel ref s3 v s' v' cs' →
  step_rel ref s v s' v' cs'.
Proof.
  intros Hev [= Hu Hd] (Hev' & (? & ? & Hde) & [l Hl]). split_and!; [by eapply evolves_trans|..].
  - split_and!; [done..|]. by rewrite <- Hd.
  - exists l. by rewrite <- Hu.
Qed.

(** What is left of an iteration after the copy, as a function of the
    lengths of the block. *)
Definition after_copy (r : blockAtOffset) (v : writeVars) (old new : nat) (nCopied : Z)
    : go folderBlockOps writeVars :=
  if bao_more r && bool_decide (Z.of_nat old < Z.of_nat new)%Z then fail BadSplitError
  else
    fp ← (if bool_decide (nCopied < zlen data)%Z && negb (bao_more r)
          then write_new_block file uid (wv_fblock v) (bao_ptr r)
                 (to_i64 (bao_startOff r + Z.of_nat new))
          else mret (wv_fblock v, bao_ptr r));
    write_finish file ref (Z.of_nat old) (Z.of_nat new) nCopied r v fp.

Section after_copy.
Context (v : writeVars) (cs : list (list byte)) (r : blockAtOffset).
Abbreviation i := (locate m cs pos).
Abbreviation k := (fst (chunk_step m cs pos d)).
Abbreviation c' := (snd (chunk_step m cs pos d)).
Hypothesis Hcs : chunks_ok m cs.
Hypothesis Hsz : ei_Size (de_EntryInfo (wv_de v)) = Z.of_nat (length (concat cs)).
Hypothesis Hlen : (Z.of_nat (length (concat cs)) < 2 ^ 62)%Z.
Hypothesis Hstart : bao_startOff r = Z.of_nat (i * m).
Hypothesis Hmore : bao_more r = bool_decide (i ≠ length cs - 1).

(** Whether the step needs a new block. *)
Lemma after_copy_cases :
  (bao_more r && bool_decide (Z.of_nat (length (cs !!! i)) < Z.of_nat (length c'))%Z = false) ∧
  ((k < length d ∧ i = length cs - 1 ∧
    bool_decide (Z.of_nat (n0 + k) < zlen data)%Z && negb (bao_more r) = true ∧
    chunk_result m cs pos d = <[i := c']> cs ++ [[]] ∧
    to_i64 (bao_startOff r + Z.of_nat (length c')) = Z.of_nat (length cs * m)) ∨
   (bool_decide (Z.of_nat (n0 + k) < zlen data)%Z && negb (bao_more r) = false ∧
    chunk_result m cs pos d = <[i := c']> cs)).
Proof.
  pose proof (chunk_step_length m m_pos cs pos d Hcs) as (Hgrow & Hfull & Hsame).
  pose proof (chunk_step_k m m_pos cs pos d) as Hk. destruct step_data as (Hd & Hld & Hb).
  pose proof (chunk_i_lt m m_pos cs pos Hcs) as Hilt. pose proof (locate_le m m_pos cs pos) as Hle.
  split.
  - rewrite Hmore. apply andb_false_iff. destruct (decide (i = length cs - 1)) as [->|Hne].
    + left. apply bool_decide_eq_false. by intros [].
    + right. apply bool_decide_eq_false. rewrite (Hsame Hne). lia.
  - unfold chunk_result. rewrite Hmore. unfold zlen in *.
    destruct (chunk_step m cs pos d) as [k0 c0] eqn:E; cbn [fst snd] in *.
    destruct (decide (k0 < length d ∧ i = length cs - 1)) as [[Hn1 Hn2]|Hnew].
    + left. split_and!; [done|done| |done|].
      * rewrite bool_decide_true, (bool_decide_false (_ ≠ _)) by lia. done.
      * rewrite Hstart, (Hfull Hn1). rewrite to_i64_small; [|nia]. nia.
    + right. rewrite app_nil_r. split; [|done]. apply andb_false_iff.
      destruct (decide (k0 < length d)); [right|left; apply bool_decide_eq_false; lia].
      apply negb_false_iff, bool_decide_eq_true. lia.
Qed.

Lemma after_copy_pending {bud} s s0 top b :
  pending (S (S bud)) s (wv_fblock v) top (<[i := c']> cs) i (bao_ptr r) (bao_block r) b → evolves s0 s →
  bookkeeping s = bookkeeping s0 →
  bao_parentBlock r = Some (wv_fblock v) → bao_indexInParent r = i →
  wp (after_copy r v (length (cs !!! i)) (length c') (Z.of_nat (n0 + k))) (λ v' s',
    wv_nCopied v' = Z.of_nat (n0 + k) ∧ write_post bud s0 s' (wv_fblock v') (chunk_result m cs pos d) ∧
    step_rel ref s0 v s' v' (chunk_result m cs pos d)) s.
Proof.
  intros Hp Hev Hbk Hpar Hidx. pose proof (chunk_result_bound cs Hcs Hlen) as Hb'.
  rewrite (length_chunk_result m m_pos cs pos d Hcs) in Hb'.
  pose proof (chunk_step_length m m_pos cs pos d Hcs) as (Hgrow & _ & _).
  assert (length (cs !!! i) <= length (concat cs)) as Hold
    by (pose proof (chunk_old_le_any cs pos Hcs); lia).
  destruct after_copy_cases as [Hbad [(_ & _ & Hnew & Hres & Hoff)|[Hnew Hres]]];
    unfold after_copy; rewrite Hbad, Hnew; apply wp_bind.
  - rewrite Hoff, <- (length_insert cs i c').
    eapply wp_mono; [eapply (new_block_pending (bud := bud));
      by eapply pending_weaken; [|exact Hp]; lia|].
    intros fp s1 (-> & top' & Hp1 & Hev1 & Hbk1).
    eapply wp_mono; [eapply (finish_pending _ _ _ _ _ _ _ Hsz (proj1 Hgrow) Hold Hb'); [exact Hp1| |by right]|].
    { by apply (evolves_trans F s0 s s1). }
    intros v' s' (-> & -> & Hpost & Hrel). rewrite Hres in *. split_and!; [done..|].
    eapply (step_rel_from s0 s1); [by apply (evolves_trans F s0 s s1)|by rewrite Hbk1|].
    unfold step_rel. rewrite <- Hres, (length_chunk_result m m_pos cs pos d Hcs). done.
  - apply wp_ret. apply (pending_weaken _ bud) in Hp; [|lia].
    eapply wp_mono; [eapply (finish_pending _ _ _ _ _ _ _ Hsz (proj1 Hgrow) Hold Hb'); [exact Hp|done|by right]|].
    intros v' s' (-> & -> & Hpost & Hrel). rewrite Hres in *. split_and!; [done..|].
    eapply (step_rel_from s0 s); [done|done|].
    unfold step_rel. rewrite <- Hres, (length_chunk_result m m_pos cs pos d Hcs). done.
Qed.

Lemma after_copy_direct {bud} s s0 top :
  top_ok (S (S bud)) s (wv_fblock v) top (file_ptrs top) → fb_IsInd top = false → fb_Contents top = c' →
  evolves s0 s → bookkeeping s = bookkeeping s0 → length cs = 1 →
  r = MkBlockAtOffset tail None 0 (wv_fblock v) false 0 →
  wp (after_copy r v (length (cs !!! i)) (length c') (Z.of_nat (n0 + k))) (λ v' s',
    wv_nCopied v' = Z.of_nat (n0 + k) ∧ write_post bud s0 s' (wv_fblock v') (chunk_result m cs pos d) ∧
    step_rel ref s0 v s' v' (chunk_result m cs pos d)) s.
Proof.
  intros Htop Hi Hc Hev Hbk Hone Hr. pose proof (chunk_result_bound cs Hcs Hlen) as Hb'.
  rewrite (length_chunk_result m m_pos cs pos d Hcs) in Hb'.
  pose proof (chunk_step_length m m_pos cs pos d Hcs) as (Hgrow & _ & _).
  assert (length (cs !!! i) <= length (concat cs)) as Hold
    by (pose proof (chunk_old_le_any cs pos Hcs); lia). pose proof (chunk_i_lt m m_pos cs pos Hcs) as Hilt.
  assert (<[i := c']> cs = [fb_Contents top]) as Hins.
  { replace i with 0 by lia. rewrite Hc. by destruct cs as [|? [|]]. }
  destruct after_copy_cases as [Hbad [(_ & _ & Hnew & Hres & Hoff)|[Hnew Hres]]];
    unfold after_copy; rewrite Hbad, Hnew; apply wp_bind; rewrite Hins in Hres.
  - rewrite Hoff, Hone, Hr. simpl bao_ptr.
    eapply wp_mono; [by eapply new_block_direct|]. intros [fb p] s1 (top' & Hp1 & Hev1 & Hbk1).
    eapply wp_mono; [eapply (finish_pending _ _ _ _ _ _ _ Hsz (proj1 Hgrow) Hold Hb'); [exact Hp1| |by left]|].
    { by apply (evolves_trans F s0 s s1). }
    intros v' s' (-> & -> & Hpost & Hrel). rewrite Hres in *. split_and!; [done..|].
    eapply (step_rel_from s0 s1); [by apply (evolves_trans F s0 s s1)|by rewrite Hbk1|].
    unfold step_rel. rewrite <- Hres, (length_chunk_result m m_pos cs pos d Hcs). done.
  - apply wp_ret. rewrite Hr. simpl bao_ptr. apply (top_ok_weaken _ bud) in Htop; [|lia].
    eapply wp_mono; [eapply (finish_direct _ _ _ _ _ _ _ Hsz (proj1 Hgrow) Hold Hb'); [done|done|exact Hev|done|done]|].
    intros v' s' (-> & -> & Hpost & Hrel). rewrite Hres in *. split_and!; [done..|].
    eapply (step_rel_from s0 s); [done|done|].
    unfold step_rel. rewrite <- Hres, (length_chunk_result m m_pos cs pos d Hcs). done.
Qed.

End after_copy.

Lemma write_step_spec {bud} s v cs :
  write_inv (S (S bud)) s v cs → wv_nCopied v = Z.of_nat n0 →
  (Z.of_nat (length (concat cs)) < 2 ^ 62)%Z →
  wp (write_step file uid ref data (Z.of_nat off) v) (λ v' s',
    wv_nCopied v' = Z.of_nat (n0 + fst (chunk_step m cs pos d)) ∧
    write_post bud s s' (wv_fblock v') (chunk_result m cs pos d) ∧
    step_rel ref s v s' v' (chunk_result m cs pos d)) s.
Proof.
  intros (Hcs & Hsz & top & Htop & Hrep) Hnc Hlen.
  destruct step_data as (Hd & Hld & Hb). pose proof (locate_le m m_pos cs pos) as Hle.
  unfold write_step. rewrite Hnc, Nat2Z.id. unfold zlen in Hb, Hbound.
  rewrite (to_i64_small (_ + _)) by lia.
  replace (Z.of_nat off + Z.of_nat n0)%Z with (Z.of_nat pos) by lia.
  pose proof Htop as (Hok & Ho & Hids).
  apply wp_bind. eapply wp_mono; [by eapply search_write_spec|].
  intros r s1 (He & Hloc). pose proof Hloc as (Hstart & Hmore & (b & Hob & Hbi & Hbc) & Hpar).
  assert (st_ok s1) as Hok1 by (by eapply st_ok_hext).
  assert (top_ok (S (S bud)) s1 (wv_fblock v) top (file_ptrs top)) as Htop1.
  { split_and!; [done|by eapply owned_hext|by eapply ids_ok_hext]. }
  assert (top_rep s1 top cs) as Hrep1.
  { unfold top_rep in *. destruct (fb_IsInd top); [|done]. eapply ind_rep_views; [|exact Hrep].
    intros j q _ _. by eapply fview_hext. }
  apply wp_bind. eapply wp_load_file; [apply Hob|]. rewrite Hbc.
  rewrite Hstart, (to_i64_small (_ - _)) by lia.
  replace (Z.of_nat pos - Z.of_nat (locate m cs pos * m))%Z
    with (Z.of_nat (pos - locate m cs pos * m)) by lia.
  apply wp_bind. eapply wp_mono; [by eapply copy_into_spec|].
  intros k s2 (-> & Hs2 & Hok2 & Hob2).
  apply wp_bind. eapply wp_load_file; [apply Hob2|]. simpl fb_Contents.
  assert (evolves s s2 ∧ bookkeeping s2 = bookkeeping s) as [Hev2 Hbk2].
  { subst s2. destruct He as (h & -> & _). split; [by split|done]. }
  rewrite <- Hstart, <- Nat2Z.inj_add.
  destruct (fb_IsInd top) eqn:Ei.
  - destruct Hpar as (Hpb & Hpi & _ & _). eapply after_copy_pending; try done.
    rewrite Hs2. by eapply located_pending.
  - unfold top_rep in Hrep. rewrite Ei in Hrep.
    assert (bao_ptr r = tail ∧ bao_block r = wv_fblock v) as [Er1 Er2] by (by rewrite Hpar).
    rewrite Er1, Er2 in Hob, Hob2. rewrite Er2 in Hs2.
    assert (length cs = 1) by (by rewrite Hrep).
    eapply (after_copy_direct v cs r Hcs Hsz Hlen Hstart Hmore s2 s (set_Contents b _)); try done.
    destruct Htop1 as (_ & _ & Hids1). split_and!; [done..|]. rewrite Hs2.
    unfold file_ptrs. simpl. assert (b = top) as -> by (destruct Hob as (_ & _ & Hx & _), Ho as (_ & _ & Hy & _);
      pose proof (hext_heap _ _ _ _ He Hy); congruence). done.
Qed.

End step.

(** ** The loop *)

Lemma entry_step_trans s1 s2 s3 de1 de2 de3 len2 len3 :
  entry_step s1 s2 de1 de2 len2 → entry_step s2 s3 de2 de3 len3 → entry_step s1 s3 de1 de3 len3.
Proof.
  intros (P1 & _ & C1) (P2 & S2 & C2). split_and!; [congruence|done|].
  destruct C1 as [[-> C1]|C1], C2 as [[-> C2]|C2]; rewrite C2, C1; auto.
  right. by rewrite insert_insert_eq.
Qed.

Lemma unref_step_trans ref s1 s2 s3 :
  unref_step ref s1 s2 → unref_step ref s2 s3 → unref_step ref s1 s3.
Proof.
  intros [l1 H1'] [l2 H2']. exists (l1 ++ l2). rewrite H2', H1'. symmetry.
  apply map_eq. intros k. destruct (decide (k = ref)) as [->|Hne].
  - rewrite !lookup_alter_eq. destruct (fbo_unrefCache s1 !! ref); simpl; [|done].
    unfold si_append. simpl. by rewrite app_assoc.
  - by rewrite !lookup_alter_ne.
Qed.

Lemma write_post_evolves {bud} s0 s s' fb cs : evolves s0 s → write_post bud s s' fb cs → write_post bud s0 s' fb cs.
Proof.
  intros Hev (top & Htop & Hrep & Hd). exists top. split_and!; [apply Htop..|done|].
  intros Hi. destruct (Hd Hi) as [Hv Hdef]. split; [done|]. intros H1' H2'. apply Hdef.
  - by apply Hev.
  - intros E. apply H2'. by apply (ev_sync _ _ _ Hev).
Qed.

Lemma write_post_weaken bud bud' s s' fb cs :
  bud' <= bud → write_post bud s s' fb cs → write_post bud' s s' fb cs.
Proof.
  intros Hle (top & Htop & Hrest). exists top. split; [by eapply top_ok_weaken|done].
Qed.

Lemma write_inv_weaken bud bud' s v cs :
  bud' <= bud → write_inv bud s v cs → write_inv bud' s v cs.
Proof.
  intros Hle (? & ? & top & Htop & ?). split_and!; [done..|]. exists top.
  split; [by eapply top_ok_weaken|done].
Qed.

Lemma write_loop_spec {bud} ref data off : (Z.of_nat off + zlen data < 2 ^ 62)%Z →
  ∀ fuel n0 s v cs,
  write_inv (2 * fuel + bud) s v cs → wv_nCopied v = Z.of_nat n0 → n0 < length data →
  (Z.of_nat (length (concat cs)) < 2 ^ 62)%Z →
  (length data - n0) + (off + length data - length cs) < fuel →
  wp (write_loop fuel file uid ref data (Z.of_nat off) v) (λ v' s', ∃ cs',
    write_inv bud s' v' cs' ∧ write_post bud s s' (wv_fblock v') cs' ∧
    concat cs' = write_at (off + n0) (drop n0 data) (concat cs) ∧
    step_rel ref s v s' v' cs') s.
Proof.
  intros Hbound fuel. induction fuel as [|fuel IH]; intros n0 s v cs Hinv Hnc Hn0 Hlen Hfuel; [lia|].
  replace (2 * S fuel + bud) with (S (S (2 * fuel + bud))) in Hinv by lia.
  simpl. rewrite decide_True by (rewrite Hnc; unfold zlen; lia). apply wp_bind.
  eapply wp_mono; [by eapply write_step_spec|]. intros v1 s1 (Hnc1 & Hpost & Hrel).
  destruct (step_data data off n0 Hn0 Hbound) as (Hd & Hld & _).
  pose proof Hinv as (Hcs & _ & _).
  pose proof (chunk_result_contents m m_pos cs (off + n0) _ Hcs Hd) as Hcont.
  pose proof (chunk_result_ok m m_pos cs (off + n0) (drop n0 data) Hcs) as Hcs1.
  pose proof (chunk_result_bound data off n0 Hn0 Hbound cs Hcs Hlen) as Hlen1.
  pose proof (chunk_step_progress m m_pos cs (off + n0) _ Hcs Hd) as Hprog.
  pose proof (length_chunk_result_ge m m_pos cs (off + n0) (drop n0 data)) as Hlen2.
  pose proof (chunk_step_k m m_pos cs (off + n0) (drop n0 data)) as Hk.
  set (k := fst (chunk_step m cs (off + n0) (drop n0 data))) in *.
  set (cs1 := chunk_result m cs (off + n0) (drop n0 data)) in *.
  assert (write_inv (2 * fuel + bud) s1 v1 cs1) as Hinv1.
  { destruct Hrel as (_ & (_ & Hsz & _) & _). destruct Hpost as (top & Htop & Hrep & _).
    split_and!; [done..|]. by exists top. }
  destruct (decide (k < length (drop n0 data))) as [Hmore|Hdone].
  - rewrite drop_drop in Hcont.
    eapply wp_mono; [apply (IH (n0 + k) s1 v1 cs1); [done|done|lia|done|]|].
    { destruct Hlen2 as [Hge Hnew]. destruct Hprog as [?|[Hi Hle]]; [lia|].
      specialize (Hnew Hmore Hi). pose proof m_pos. nia. }
    intros v2 s2 (cs2 & Hinv2 & Hpost2 & Hc2 & Hrel2). exists cs2.
    destruct Hrel as (Hev1 & He1 & Hu1), Hrel2 as (Hev2 & He2 & Hu2).
    split_and!; [done|by eapply write_post_evolves| |].
    + rewrite Hc2, <- Hcont. f_equal. lia.
    + split_and!; [by eapply evolves_trans|by eapply entry_step_trans|by eapply unref_step_trans].
  - destruct fuel as [|fuel]; [lia|]. simpl.
    rewrite decide_False by (rewrite Hnc1; unfold zlen; lia).
    apply wp_ret. exists cs1.
    split_and!; [by eapply write_inv_weaken; [|exact Hinv1]; lia|
      by eapply write_post_weaken; [|exact Hpost]; lia|done|done].
Qed.

(** ** The top block *)

Lemma getFile_write_spec {bud} s top cs :
  st_ok s → BlockPointer_IsValid tail = true → fview s tail = Some top → top_rep s top cs →
  ids_ok bud s (file_ptrs top) →
  wp (getFileLocked file blockWrite) (λ fb s', hext s s' ∧ ∃ top',
    exported_file top' = exported_file top ∧ top_ok bud s' fb top' (file_ptrs top') ∧
    top_rep s' top' cs) s.
Proof.
  intros Hok Hv Hview Hrep Hids. unfold getFileLocked. apply wp_bind.
  eapply wp_lift; [exact Htail|]. eapply wp_mono; [by eapply getFileBlock_write_spec|].
  intros fb s' (He & (top' & Ho & Hex) & _). split; [done|]. exists top'. split; [done|].
  apply exported_fields in Hex as (E1 & E2 & E3). split.
  - split_and!; [by eapply st_ok_hext|done|]. unfold file_ptrs. rewrite E3.
    by eapply ids_ok_hext.
  - unfold top_rep in *. rewrite E1, E2, E3. destruct (fb_IsInd top); [|done].
    eapply ind_rep_views; [|exact Hrep]. intros j q _ _. by eapply fview_hext.
Qed.

(** Dirtying the top block of an indirect file. *)
Lemma cache_top_spec {bud} s fb top cs :
  top_ok bud s fb top (file_ptrs top) → fb_IsInd top = true → top_rep s top cs →
  wp (cacheBlockIfNotYetDirtyLocked tail br fb) (λ _ s',
    top_ok bud s' fb top (file_ptrs top) ∧ fview s' tail = Some top ∧ top_rep s' top cs ∧
    evolves s s' ∧ bookkeeping s' = bookkeeping s ∧
    (is_Some (fbo_dirty s !! key tail) → fileBlockState tail s ≠ blockNotBeingSynced →
     fbo_doDeferWrite s' = true)) s.
Proof.
  intros (Hok & Ho & Hids) Hi Hrep. eapply wp_mono; [by eapply cacheBlock_spec|].
  intros [] s' C. unfold top_rep in *. rewrite Hi in *. split_and!.
  - split_and!; [by eapply st_ok_cached|by eapply owned_cached|by eapply ids_ok_cached; [left| |]].
  - by eapply fview_cached.
  - eapply ind_rep_views; [|exact Hrep]. intros j q Hq _. apply (fview_cached_ne _ _ _ _ _ _ C).
    destruct (ind_rep_keys _ _ _ _ _ _ Hrep Hq) as [Hk _]. congruence.
  - by eapply evolves_cached.
  - unfold bookkeeping. by rewrite (ca_unref _ _ _ _ _ C), (ca_de _ _ _ _ _ C).
  - intros Hd Hs. rewrite (ca_defer _ _ _ _ _ C). apply orb_true_iff. right.
    apply andb_true_iff. split; [by apply bool_decide_eq_true|].
    by apply negb_true_iff, bool_decide_eq_false.
Qed.

(** ** The directory entry *)

Section entry.
Context (parent : path) (dptr : BlockPointer) (name : string).
Hypothesis Hparent : parentPath file = Ok parent.
Hypothesis Hvalidp : path_isValid parent = true.
Hypothesis Hdptr : tailPointer parent = Ok dptr.
Hypothesis Hname : tailName file = Ok name.
Hypothesis Hdir : ∀ p, F p → key p ≠ key dptr.
Hypothesis HdirM : ∀ a, d0 !! key dptr = Some a → ¬ M a.
Abbreviation dview := (dview br).

(** The entry of the file as the code sees it: the directory's entry,
    overlaid with the entry of the dirty file. *)
Definition entry (s : folderBlockOps) : option DirEntry :=
  match dview s dptr with
  | Some d =>
      match db_Children d !! name with
      | Some v => Some (default v (fbo_deCache s !! BlockPointer_ref (DirEntry_BlockPointer v)))
      | None => None
      end
  | None => None
  end.

Lemma dview_same s s' : st_ok s → st_ok s' → dview s' dptr = dview s dptr.
Proof.
  intros Hok Hok'. unfold FolderBlocksSpec.dview.
  rewrite (st_dirty _ _ _ _ _ s Hok), (st_dirty _ _ _ _ _ s' Hok')
    by (intros p Hp Heq; by apply (Hdir p)).
  destruct (d0 !! key dptr) as [a|] eqn:E; [|done].
  by rewrite (st_heap _ _ _ _ _ s Hok), (st_heap _ _ _ _ _ s' Hok') by (by apply HdirM).
Qed.

Lemma parent_branch : fbr_Branch (p_FolderBranch parent) = br.
Proof.
  unfold parentPath in Hparent. case_decide; [done|]. injection Hparent as <-. done.
Qed.

Lemma dptr_valid : BlockPointer_IsValid dptr = true.
Proof.
  unfold path_isValid, tailPointer, tailNode in *. case_decide; [done|].
  destruct (last (p_path parent)) as [n|] eqn:E; [|done]. injection Hdptr as <-.
  apply last_Some in E as [l E]. rewrite E, forallb_app in Hvalidp. simpl in Hvalidp.
  by apply andb_true_iff in Hvalidp as [_ [Hv _]%andb_true_iff].
Qed.

Lemma file_has_parent : hasValidParent file = true.
Proof.
  unfold hasValidParent. rewrite Hparent, Hvalidp.
  unfold parentPath in Hparent. case_decide; [done|]. injection Hparent as Hp.
  unfold path_isValid in Hvalidp. rewrite <- Hp in Hvalidp. simpl in Hvalidp.
  rewrite length_take in Hvalidp. case_decide; [done|]. rewrite decide_True by lia. done.
Qed.

Lemma getDir_read_spec s d :
  st_ok s → dview s dptr = Some d →
  wp (getDirLocked parent blockRead) (λ a s', hext s s' ∧ fbo_heap s' !! a = Some (DirB d)) s.
Proof.
  intros Hok Hd. unfold getDirLocked. rewrite Hvalidp, parent_branch. simpl.
  apply wp_bind. eapply wp_lift; [exact Hdptr|].
  unfold getDirBlockHelperLocked, getBlockHelperLocked. rewrite dptr_valid. simpl.
  unfold FolderBlocksSpec.dview in Hd. apply wp_bind, wp_bind, wp_bind, wp_get.
  destruct (fbo_dirty s !! key dptr) as [a|] eqn:E.
  - destruct (fbo_heap s !! a) as [[|d'|]|] eqn:Ea; simplify_eq.
    apply wp_ret, wp_bind. exists (DirB d), s. split; [unfold load; by rewrite Ea|].
    apply wp_ret, wp_bind, wp_get, wp_ret. done.
  - destruct (cfg_Get dptr NewDirBlock) as [[|d'|]|e|p] eqn:Eg; simplify_eq.
    apply wp_bind. eapply wp_lift; [done|]. apply wp_alloc. intros a Ha.
    apply wp_bind. eexists (DirB d), _. split.
    { unfold load. simpl. by rewrite lookup_insert_eq. }
    apply wp_ret, wp_bind, wp_get, wp_ret. split; [by apply hext_alloc|apply lookup_insert_eq].
Qed.

Lemma updateWithDirty_spec s a d :
  fbo_heap s !! a = Some (DirB d) →
  wp (updateWithDirtyEntriesLocked a) (λ a' s', hext s s' ∧ ∃ d', fbo_heap s' !! a' = Some (DirB d') ∧
    ∀ k, db_Children d' !! k =
      (λ v, default v (fbo_deCache s !! BlockPointer_ref (DirEntry_BlockPointer v))) <$>
        (db_Children d !! k)) s.
Proof.
  intros Ha. unfold updateWithDirtyEntriesLocked. apply wp_bind, wp_get.
  case_decide as Hsize.
  { apply wp_ret. split; [done|]. exists d. split; [done|]. intros k.
    apply map_size_empty_inv in Hsize. rewrite Hsize.
    destruct (db_Children d !! k) as [v|]; [|done]. simpl. by rewrite lookup_empty. }
  apply wp_bind. eapply wp_load_dir; [exact Ha|]. case_decide as Hex.
  - apply wp_bind. eapply wp_lift; [apply DirBlock_DeepCopy_exported|]. apply wp_alloc.
    intros a' Ha'. split; [by apply hext_alloc|]. eexists. split; [apply lookup_insert_eq|].
    intros k. simpl. rewrite lookup_union, lookup_omap.
    destruct (db_Children d !! k) as [v|]; simpl; [|done].
    by destruct (fbo_deCache s !! _).
  - apply wp_ret. split; [done|]. exists d. split; [done|]. intros k.
    destruct (db_Children d !! k) as [v|] eqn:Ev; [|done]. simpl.
    destruct (fbo_deCache s !! _) as [x|] eqn:Ex; [|done]. destruct Hex.
    exists k, v. split; [done|]. by eexists.
Qed.

Lemma getDirtyEntry_spec s de :
  st_ok s → entry s = Some de → wp (getDirtyEntryLocked file) (λ de' s', de' = de ∧ hext s s') s.
Proof.
  intros Hok He. unfold entry in He. destruct (dview s dptr) as [d|] eqn:Ed; [|done].
  unfold getDirtyEntryLocked, getDirtyParentAndEntryLocked. rewrite file_has_parent. simpl.
  apply wp_bind, wp_bind. eapply wp_lift; [exact Hparent|]. unfold getDirtyDirLocked.
  apply wp_bind, wp_bind. eapply wp_mono; [by apply getDir_read_spec|]. intros a s1 (He1 & Ha).
  eapply wp_mono; [by eapply updateWithDirty_spec|]. intros a' s2 (He2 & d' & Ha' & Hc).
  apply wp_bind. eapply wp_lift; [exact Hname|]. apply wp_bind.
  eapply wp_load_dir; [exact Ha'|]. rewrite Hc.
  assert (fbo_deCache s1 = fbo_deCache s) as -> by (by destruct He1 as (h & -> & _)).
  destruct (db_Children d !! name) as [v|]; [|done]. simplify_eq/=.
  apply wp_ret, wp_ret. split; [done|]. by eapply hext_trans.
Qed.

(** The directory has an entry for the file, and [de] is its current
    value. *)
Definition dir_ok (s : folderBlockOps) (de : DirEntry) : Prop :=
  ∃ d v, dview s dptr = Some d ∧ db_Children d !! name = Some v ∧
    BlockPointer_ref (DirEntry_BlockPointer v) = tailRef ∧
    de = default v (fbo_deCache s !! tailRef) ∧
    BlockPointer_ref (DirEntry_BlockPointer de) = tailRef.

Lemma dir_ok_entry s de : dir_ok s de → entry s = Some de.
Proof. intros (d & v & Hd & Hv & Hr & -> & _). unfold entry. by rewrite Hd, Hv, Hr. Qed.

Lemma dir_ok_step s s' de de' len :
  st_ok s → st_ok s' → dir_ok s de → entry_step s s' de de' len → dir_ok s' de'.
Proof.
  intros Hok Hok' (d & v & Hd & Hv & Hr & -> & Hrd) (Hp & _ & Hc). exists d, v.
  rewrite (dview_same s s') by done. split_and!; try done; [|by rewrite Hp].
  destruct Hc as [[-> ->]| ->]; [done|]. by rewrite lookup_insert_eq.
Qed.

Lemma dir_ok_same s s' de :
  st_ok s → st_ok s' → fbo_deCache s' = fbo_deCache s → dir_ok s de → dir_ok s' de.
Proof.
  intros Hok Hok' Hc (d & v & Hd & Hv & Hr & Hde & Hrd). exists d, v.
  rewrite (dview_same s s'), Hc by done. done.
Qed.

(** The writes recorded for the next sync of the file. *)
Definition sync_writes (s : folderBlockOps) : list WriteRange :=
  match fbo_unrefCache s !! tailRef with
  | Some si => so_Writes (si_op si)
  | None => []
  end.

Lemma sync_writes_unref s s' : unref_step tailRef s s' → sync_writes s' = sync_writes s.
Proof.
  intros [l Hl]. unfold sync_writes. rewrite Hl, lookup_alter_eq.
  by destruct (fbo_unrefCache s !! tailRef).
Qed.

Lemma getOrCreate_spec s de :
  BlockPointer_ref (DirEntry_BlockPointer de) = tailRef →
  wp (getOrCreateSyncInfoLocked de) (λ ref s', ref = tailRef ∧ sync_writes s' = sync_writes s ∧
    is_Some (fbo_unrefCache s' !! tailRef) ∧ ∃ f, s' = set_unrefCache f s) s.
Proof.
  intros Hr. unfold getOrCreateSyncInfoLocked. cbv zeta. rewrite Hr. apply wp_bind, wp_get.
  destruct (fbo_unrefCache s !! tailRef) eqn:E.
  - apply wp_ret. split_and!; [done|done|by eexists|]. exists (λ u, u). by destruct s.
  - apply wp_bind, wp_modify, wp_ret. unfold sync_writes. simpl. rewrite lookup_insert_eq, E.
    split_and!; [done|done|by eexists|by eexists].
Qed.

(** ** Writing *)

(** The state of the file: what the blocks, the directory entry and the
    supply of ids are like before and after an operation. *)
Definition file_state (bud : nat) (s : folderBlockOps) (cs : list (list byte)) (de : DirEntry) : Prop :=
  st_ok s ∧ chunks_ok m cs ∧ dir_ok s de ∧
  ei_Size (de_EntryInfo de) = Z.of_nat (length (concat cs)) ∧
  ∃ top, fview s tail = Some top ∧ top_rep s top cs ∧ ids_ok bud s (file_ptrs top).

Lemma write_last_spec {bud} s0 s v cs :
  chunks_ok m cs → write_post bud s0 s (wv_fblock v) cs → evolves s0 s →
  wp (write_last file v) (λ _ s', st_ok s' ∧
    (∃ top, fview s' tail = Some top ∧ top_rep s' top cs ∧ ids_ok bud s' (file_ptrs top)) ∧
    evolves s0 s' ∧ bookkeeping s' = bookkeeping s ∧
    (is_Some (fbo_dirty s0 !! key tail) → fileBlockState tail s0 ≠ blockNotBeingSynced →
     fbo_doDeferWrite s' = true)) s.
Proof.
  intros Hcs (top & Htop & Hrep & Hdir') Hev. unfold write_last. apply wp_bind.
  eapply wp_load_file; [apply Htop|]. destruct (fb_IsInd top) eqn:Ei.
  - apply wp_bind. eapply wp_lift; [exact Htail|]. apply wp_bind.
    eapply wp_mono; [by eapply cache_top_spec|].
    intros [] s' ((Hok' & _ & Hids') & Hv' & Hrep' & Hev' & Hbk' & Hdef). apply wp_ret.
    split_and!; [done|by exists top|by eapply evolves_trans|done|].
    intros Hd Hs. apply Hdef; [by apply Hev|]. intros E. apply Hs. by apply (ev_sync _ _ _ Hev).
  - apply wp_ret. destruct Htop as (Hok & _ & Hids). destruct (Hdir' eq_refl) as [Hv Hdef].
    split_and!; [done|by exists top|done|done|done].
Qed.

(** The loop and what follows it, on any data. *)
Lemma write_body_spec {bud} s fb top cs de data off :
  (Z.of_nat off + zlen data < 2 ^ 62)%Z → (Z.of_nat (length (concat cs)) < 2 ^ 62)%Z →
  chunks_ok m cs → ei_Size (de_EntryInfo de) = Z.of_nat (length (concat cs)) →
  top_ok (2 * write_fuel data (Z.of_nat off) + bud) s fb top (file_ptrs top) → top_rep s top cs →
  (fb_IsInd top = false → ∃ top', fview s tail = Some top' ∧ top_rep s top' cs ∧
     ids_ok bud s (file_ptrs top')) →
  wp (write_body file uid tailRef data (Z.of_nat off) fb de)
    (λ _ s', ∃ cs' de', st_ok s' ∧ chunks_ok m cs' ∧
      concat cs' = (if decide (data = []) then concat cs
                    else write_at off data (concat cs)) ∧
      (∃ top', fview s' tail = Some top' ∧ top_rep s' top' cs' ∧ ids_ok bud s' (file_ptrs top')) ∧
      evolves s s' ∧ entry_step s s' de de' (length (concat cs')) ∧ unref_step tailRef s s' ∧
      (data ≠ [] → is_Some (fbo_dirty s !! key tail) →
       fileBlockState tail s ≠ blockNotBeingSynced → fbo_doDeferWrite s' = true)) s.
Proof.
  intros Hb Hlen Hcs Hsz Htop Hrep Hdirect. unfold write_body. apply wp_bind. destruct (decide (data = [])) as [->|Hne].
  - apply wp_ret. unfold write_last. apply wp_bind. simpl wv_fblock.
    eapply wp_load_file; [apply Htop|]. destruct (fb_IsInd top) eqn:Ei.
    + apply wp_bind. eapply wp_lift; [exact Htail|]. apply wp_bind.
      eapply wp_mono; [by eapply cache_top_spec|].
      intros [] s' ((Hok' & _ & Hids') & Hv' & Hrep' & Hev' & [= Hu' Hd'] & _). apply wp_ret.
      exists cs, de. split_and!; [done..| |done| | |done].
      * exists top. split_and!; [done|done|]. eapply ids_ok_weaken; [|exact Hids']. lia.
      * split_and!; [done|done|by left].
      * by apply unref_step_refl.
    + apply wp_ret. exists cs, de. split_and!; try done; [apply Htop|by apply Hdirect| |].
      * split_and!; [done|done|by left].
      * by apply unref_step_refl.
  - assert (0 < length data) by (destruct data; simpl; [done|lia]).
    assert (cs ≠ []) by apply Hcs. assert (0 < length cs) by (destruct cs; simpl; [done|lia]).
    eapply wp_mono; [apply (write_loop_spec (bud := bud) tailRef data off Hb _ 0 s _ cs)|].
    + split_and!; [done|done|by exists top].
    + done.
    + done.
    + done.
    + unfold write_fuel, zlen. lia.
    + intros v s1 (cs1 & (Hcs1 & Hsz1 & _) & Hpost & Hc1 & Hev1 & He1 & Hu1).
      eapply wp_mono; [by eapply write_last_spec|].
      intros ptrs s' (Hok' & Htop' & Hev' & [= Hu' Hd'] & Hdef). exists cs1, (wv_de v).
      split_and!; try done.
      * rewrite Hc1, Nat.add_0_r. done.
      * destruct He1 as (? & ? & Hc). split_and!; [done..|]. by rewrite Hd'.
      * destruct Hu1 as [l Hl]. exists l. by rewrite Hu'.
Qed.

Hypothesis Hvalidt : BlockPointer_IsValid tail = true.
Hypothesis HmaxFile : (cfg_MaxFileBytes < 2 ^ 62)%Z.

Lemma writeData_spec {bud} s cs de data off :
  file_state (2 * write_fuel data (Z.of_nat off) + bud) s cs de →
  (Z.of_nat (length (concat cs)) < 2 ^ 62)%Z →
  (Z.of_nat off + zlen data <= cfg_MaxFileBytes)%Z →
  let w := MkWriteRange (Z.of_nat off) (zlen data) in
  wp (writeDataLocked file data (Z.of_nat off)) (λ r s', fst r = w ∧ ∃ cs' de',
    file_state bud s' cs' de' ∧
    concat cs' = (if decide (data = []) then concat cs else write_at off data (concat cs)) ∧
    evolves s s' ∧ sync_writes s' = sync_writes s ++ [w] ∧
    (data ≠ [] → is_Some (fbo_dirty s !! key tail) →
     fileBlockState tail s ≠ blockNotBeingSynced → fbo_doDeferWrite s' = true)) s.
Proof.
  intros (Hok & Hcs & Hde & Hsz & top & Hview & Hrep & Hids) Hlen Hb w.
  pose proof (zlen_nonneg data). unfold writeDataLocked. cbv zeta.
  rewrite to_i64_small, decide_False by (rewrite ?to_u64_small; lia).
  unfold checkWriter. apply wp_bind, wp_bind. eapply wp_lift; [exact Huser|].
  cbn [fst snd]. rewrite Hwriter. cbn [negb]. apply wp_ret, wp_bind. eapply wp_mono; [by eapply getFile_write_spec|].
  intros fb s1 (He1 & top1 & Hex & Htop1 & Hrep1). apply wp_bind.
  assert (st_ok s1) as Hok1 by apply Htop1.
  assert (dir_ok s1 de) as Hde1.
  { eapply dir_ok_same; [exact Hok|done| |exact Hde]. by destruct He1 as (h & -> & _). }
  eapply wp_mono; [apply getDirtyEntry_spec; [done|by apply dir_ok_entry]|].
  intros de1 s2 (-> & He2). apply wp_bind.
  assert (hext s s2) as He by (by eapply hext_trans).
  assert (top_ok (2 * write_fuel data (Z.of_nat off) + bud) s2 fb top1 (file_ptrs top1) ∧ top_rep s2 top1 cs ∧ fview s2 tail = Some top ∧
          top_rep s2 top cs) as (Htop2 & Hrep2 & Hview2 & Hrep2').
  { assert (∀ p, fview s2 p = fview s1 p ∧ fview s2 p = fview s p) as Hv.
    { intros p. split; [by eapply (fview_hext _ _ _ _ _ _ _ _ He2)|by eapply (fview_hext _ _ _ _ _ _ _ _ He)]. }
    destruct Htop1 as (_ & Ho1 & Hids1). split; [|split; [|split]].
    - split_and!; [eapply st_ok_hext; [exact He2|done]|eapply owned_hext; [exact He2|done]|
        eapply ids_ok_hext; [exact He2|done]].
    - unfold top_rep in *. destruct (fb_IsInd top1); [|done].
      eapply ind_rep_views; [|exact Hrep1]. intros j q _ _. apply Hv.
    - by rewrite (proj2 (Hv tail)).
    - unfold top_rep in *. destruct (fb_IsInd top); [|done].
      eapply ind_rep_views; [|exact Hrep]. intros j q _ _. apply Hv. }
  eapply wp_mono; [apply getOrCreate_spec; by destruct Hde as (? & ? & ? & ? & ? & ? & ?)|].
  intros ref s3 (-> & Hsw & Hsi & f & Hs3). apply wp_bind.
  assert (st_ok s3) as Hok3.
  { destruct Htop2 as (Hok2 & _). subst s3. by eapply st_ok_ext; [..|exact Hok2]. }
  assert (evolves s s3) as Hev3.
  { destruct He as (h & -> & _). subst s3. by split. }
  eapply wp_mono; [eapply (write_body_spec s3 fb top1 cs de data off)|]; try done.
  { lia. }
  { subst s3. split_and!; [done|apply Htop2..]. }
  { by subst s3. }
  { intros _. exists top. subst s3. split_and!; [done..|].
    eapply ids_ok_weaken; [|exact (ids_ok_hext _ _ _ He Hids)]. lia. }
  intros ptrs s4 (cs' & de' & Hok4 & Hcs' & Hcont & Htop4 & Hev4 & Hent & Hunref & Hdef).
  apply wp_bind, wp_modify, wp_ret. rewrite to_u64_small by lia. split; [done|].
  exists cs', de'. set (s5 := set_unrefCache _ s4).
  assert (st_ok s5) as Hok5 by (by eapply st_ok_ext; [..|exact Hok4]).
  assert (evolves s s5) as Hev5.
  { eapply evolves_trans; [exact Hev3|]. eapply evolves_trans; [exact Hev4|]. by split. }
  split_and!; [|done|done|..].
  - split_and!; [done|done| |apply Hent|done].
    eapply (dir_ok_same s4); [done|done|done|]. eapply dir_ok_step; [| |exact Hde|]; try done.
    destruct Hent as (? & ? & Hc). split_and!; [done..|].
    assert (fbo_deCache s3 = fbo_deCache s) as <-
      by (subst s3; by destruct He as (h & -> & _)). done.
  - assert (sync_writes s2 = sync_writes s) as <- by (by destruct He as (h & -> & _)).
    rewrite <- Hsw, <- (sync_writes_unref _ _ Hunref). unfold sync_writes. subst s5. simpl.
    rewrite lookup_alter_eq.
    assert (is_Some (fbo_unrefCache s4 !! tailRef)) as [si ->]; [|done].
    destruct Hunref as [l ->]. by rewrite lookup_alter_is_Some.
  - intros Hd1 Hd2 Hd3. apply Hdef; [done|by apply Hev3|].
    intros E. apply Hd3. by apply (ev_sync _ _ _ Hev3).
Qed.

(** ** Truncating *)

Lemma drop_iptrs_spec {bud} s fb top cs i p a b :
  pending bud s fb top cs i p a b →
  wp (drop_iptrs tailRef fb i) (λ _ s', ∃ top',
    pending bud s' fb top' (take (S i) cs) i p a b ∧ evolves s s' ∧
    fbo_deCache s' = fbo_deCache s ∧ fbo_dirty s' = fbo_dirty s ∧
    fbo_fileBlockStates s' = fbo_fileBlockStates s ∧ unref_step tailRef s s') s.
Proof.
  intros ((Hok & Ho & Hi) & Hind & Hr & (q & Hq & Hpq) & Hob & Hb1 & Hb2 & Hne).
  unfold drop_iptrs. apply wp_bind. eapply wp_load_file; [apply Ho|].
  apply wp_bind, wp_modify, wp_modify. set (top' := MkFileBlock _ _ _). exists top'.
  split; [|split_and!; try done; by eexists].
  unfold pending. split; [|split; [done|split; [|split; [|split; [|split; [done|split]]]]]].
  - split_and!; [| |].
    + apply st_ok_store; [apply Ho|eexists; apply Ho|]. by eapply st_ok_ext; [..|exact Hok].
    + by eapply owned_store.
    + eapply ids_ok_perm; [|exact Hi]. unfold file_ptrs, top'. simpl. rewrite fmap_take.
      intros x [->|(j & Hj & _)%elem_of_take]%elem_of_cons; [by left|right].
      by eapply list_elem_of_lookup_2.
  - pose proof (ind_rep_take s _ _ _ (S i) Hr) as Hr'.
    eapply ind_rep_views; [|exact Hr']. intros j q' Hq' _.
    eapply (fview_store_ne br F M h0 d0 s tail fb top); [done|done|].
    destruct (ind_rep_keys _ _ _ _ _ _ Hr' Hq') as [? _]. done.
  - exists q. split; [|done]. simpl. rewrite lookup_take_lt by lia. done.
  - by apply owned_store_ne.
  - rewrite lookup_take_lt by lia. done.
  - done.
Qed.

Lemma truncate_parents_ind {bud} s fb top cs i p b r :
  pending bud s fb top cs i p (bao_block r) b → bao_parentBlock r = Some fb → bao_indexInParent r = i →
  (bao_more r = false → S i = length cs) →
  wp (truncate_parents file tailRef fb r) (λ _ s', ∃ top',
    pending bud s' fb top' (take (S i) cs) i p (bao_block r) b ∧ evolves s s' ∧
    fbo_deCache s' = fbo_deCache s ∧ fbo_dirty s' !! key tail = Some fb ∧ unref_step tailRef s s' ∧
    (is_Some (fbo_dirty s !! key tail) → fileBlockState tail s ≠ blockNotBeingSynced →
     fbo_doDeferWrite s' = true)) s.
Proof.
  intros Hp Hpar Hidx Hlast. unfold truncate_parents. apply wp_bind.
  eapply wp_lift; [exact Htail|]. rewrite Hpar, Hidx. apply wp_bind.
  apply (wp_mono _ (λ _ s1, ∃ top1, pending bud s1 fb top1 (take (S i) cs) i p (bao_block r) b ∧
    evolves s s1 ∧ fbo_deCache s1 = fbo_deCache s ∧ unref_step tailRef s s1)).
  { destruct (bao_more r).
    - apply wp_bind. eapply wp_mono; [by eapply drop_iptrs_spec|].
      intros [] s1 (top1 & Hp1 & Hev1 & Hd1 & _ & _ & Hu1).
      eapply wp_mono; [by eapply pending_cache_top|]. intros [] s2 (Hp2 & Hev2 & [= Hu2 Hd2] & _).
      exists top1. split_and!; [done|by eapply evolves_trans|congruence|].
      destruct Hu1 as [l Hl]. exists l. by rewrite Hu2.
    - apply wp_ret. exists top. rewrite take_ge by (rewrite <- Hlast by done; done).
      split_and!; [done..|by apply unref_step_refl]. }
  intros [] s1 (top1 & Hp1 & Hev1 & Hd1 & Hu1). apply wp_bind.
  eapply wp_load_file; [apply Hp1|]. destruct Hp1 as (Htop1 & Hi1 & Hp1). rewrite Hi1.
  apply wp_bind. eapply wp_mono; [by eapply pending_cache_top; split; [exact Htop1|]|].
  intros [] s2 (Hp2 & Hev2 & [= Hu2 Hd2] & Hdt & Hdef).
  eapply wp_mono; [by eapply forget_spec|].
  intros [] s3 (top3 & l & Hp3 & Hev3 & Hd3 & Hdd3 & Hu3). exists top3.
  split_and!; [done| |congruence|congruence| |].
  - eapply evolves_trans; [exact Hev1|]. by eapply evolves_trans.
  - eapply unref_step_trans; [exact Hu1|]. exists l. by rewrite Hu3, Hu2.
  - intros Hd Hs. apply (ev_defer _ _ _ Hev3), Hdef; [by apply Hev1|].
    intros E. apply Hs. by apply (ev_sync _ _ _ Hev1).
Qed.

(** The view of a file is settled: what [file_state] says of its blocks. *)
Definition blocks_ok (bud : nat) (s : folderBlockOps) (cs : list (list byte)) : Prop :=
  st_ok s ∧ ∃ top, fview s tail = Some top ∧ top_rep s top cs ∧ ids_ok bud s (file_ptrs top).

Lemma sync_writes_update s f :
  is_Some (fbo_unrefCache s !! tailRef) →
  wp (si_update_op tailRef f) (λ _ s', (∃ g, s' = set_unrefCache g s) ∧
    ∃ si, fbo_unrefCache s !! tailRef = Some si ∧ sync_writes s' = so_Writes (f (si_op si))) s.
Proof.
  intros [si Hsi]. apply wp_modify. split; [by eexists|]. exists si. split; [done|].
  unfold sync_writes. simpl. by rewrite lookup_alter_eq, Hsi.
Qed.

Section record.
Context (size : nat) (de : DirEntry).

(** What recording a truncate leaves, for either kind of file. *)
Definition recorded (bud : nat) (s s' : folderBlockOps) (cs : list (list byte)) : Prop :=
  blocks_ok bud s' cs ∧ evolves s s' ∧
  fbo_deCache s' = <[tailRef := de_resize de (Z.of_nat size)]> (fbo_deCache s) ∧
  sync_writes s' = sync_writes s ++ [MkWriteRange (Z.of_nat size) 0].

Lemma truncate_record_ind {bud} s fb top cs i p a b :
  pending bud s fb top cs i p a b → fbo_dirty s !! key tail = Some fb →
  is_Some (fbo_unrefCache s !! tailRef) →
  wp (truncate_record file tailRef (Z.of_nat size) de p a) (λ r s',
    r = (Some (MkWriteRange (Z.of_nat size) 0), []) ∧ recorded bud s s' cs) s.
Proof.
  intros Hp Hd Hsi. unfold truncate_record. apply wp_bind.
  eapply wp_mono; [by apply sync_writes_update|]. intros [] s1 ((g & Hs1) & si & Hsi1 & Hw1).
  apply wp_bind. eapply wp_lift; [exact Htail|]. apply wp_bind, wp_modify, wp_bind.
  set (s2 := set_deCache _ s1).
  assert (pending bud s2 fb top cs i p a b) as Hp2.
  { subst s2 s1. by eapply pending_ext; [..|exact Hp]. }
  eapply wp_mono; [by eapply pending_cache|].
  intros [] s3 ((Hok3 & Ho3 & Hi3) & Hrep3 & Hev3 & [= Hu3 Hd3] & Hdt). apply wp_ret.
  split; [done|]. split_and!.
  - split; [done|]. exists top. split_and!; [|done|done].
    unfold FolderBlocksSpec.fview. rewrite Hdt. subst s2 s1. simpl. rewrite Hd.
    by destruct Ho3 as (_ & _ & -> & _).
  - eapply evolves_trans; [|exact Hev3]. subst s2 s1. by split.
  - rewrite Hd3. subst s2 s1. done.
  - unfold sync_writes at 1. rewrite Hu3. change (fbo_unrefCache s2) with (fbo_unrefCache s1).
    fold (sync_writes s1). rewrite Hw1. unfold sync_writes. by rewrite Hsi1.
Qed.

Lemma truncate_record_direct {bud} s fb top :
  top_ok bud s fb top (file_ptrs top) → fb_IsInd top = false →
  is_Some (fbo_unrefCache s !! tailRef) →
  wp (truncate_record file tailRef (Z.of_nat size) de tail fb) (λ r s',
    r = (Some (MkWriteRange (Z.of_nat size) 0), []) ∧ recorded bud s s' [fb_Contents top] ∧
    (is_Some (fbo_dirty s !! key tail) → fileBlockState tail s ≠ blockNotBeingSynced →
     fbo_doDeferWrite s' = true)) s.
Proof.
  intros (Hok & Ho & Hi) Hind Hsi. unfold truncate_record. apply wp_bind.
  eapply wp_mono; [by apply sync_writes_update|]. intros [] s1 ((g & Hs1) & si & Hsi1 & Hw1).
  apply wp_bind. eapply wp_lift; [exact Htail|]. apply wp_bind, wp_modify, wp_bind.
  set (s2 := set_deCache _ s1).
  assert (st_ok s2) as Hok2 by (subst s2 s1; by eapply st_ok_ext; [..|exact Hok]).
  assert (owned s2 tail fb top) as Ho2 by (by subst s2 s1).
  eapply wp_mono; [by eapply cacheBlock_spec|]. intros [] s3 C. apply wp_ret.
  assert (evolves s s2) as Hev2 by (subst s2 s1; by split).
  pose proof (evolves_cached _ _ _ _ _ _ _ _ Ho2 C) as Hev3.
  split; [done|]. split; [split_and!|].
  - split; [by eapply st_ok_cached|]. exists top. split_and!.
    + by eapply fview_cached.
    + unfold top_rep. by rewrite Hind.
    + eapply ids_ok_cached; [left|exact C|]. by subst s2 s1.
  - by eapply evolves_trans.
  - rewrite (ca_de _ _ _ _ _ C). subst s2 s1. done.
  - unfold sync_writes at 1. rewrite (ca_unref _ _ _ _ _ C).
    change (fbo_unrefCache s2) with (fbo_unrefCache s1).
    fold (sync_writes s1). rewrite Hw1. unfold sync_writes. by rewrite Hsi1.
  - intros Hd Hs. rewrite (ca_defer _ _ _ _ _ C). apply orb_true_iff. right.
    apply andb_true_iff. split; [by apply bool_decide_eq_true, Hev2|].
    apply negb_true_iff, bool_decide_eq_false. intros E. by apply (ev_sync _ _ _ Hev2) in E.
Qed.

End record.

Lemma top_rep_hext s s' top cs : hext s s' → st_ok s → top_rep s top cs → top_rep s' top cs.
Proof.
  intros He Hok Hrep. unfold top_rep in *. destruct (fb_IsInd top); [|done].
  eapply ind_rep_views; [|exact Hrep]. intros j q _ _. by eapply fview_hext.
Qed.

Lemma top_ok_hext {bud} s s' fb top ptrs : hext s s' → top_ok bud s fb top ptrs → top_ok bud s' fb top ptrs.
Proof.
  intros He (? & ? & ?). split_and!; [by eapply st_ok_hext|by eapply owned_hext|by eapply ids_ok_hext].
Qed.

Lemma located_hext s s' fb top cs pos r :
  hext s s' → located s fb top cs pos r → located s' fb top cs pos r.
Proof.
  intros He (? & ? & (b & Hb & ?) & ?). split_and!; try done.
  exists b. split; [by eapply owned_hext|done].
Qed.

(** From the recorded state to the state of the shorter file. *)
Lemma recorded_state {bud} size de s s' s0 cs' :
  st_ok s0 → dir_ok s0 de → fbo_deCache s = fbo_deCache s0 → chunks_ok m cs' →
  length (concat cs') = size → recorded size de bud s s' cs' →
  file_state bud s' cs' (de_resize de (Z.of_nat size)).
Proof.
  intros Hok0 Hde Hdc Hcs' Hlen ((Hok' & Htop') & _ & Hd' & _).
  split_and!; [done|done| |simpl; by rewrite Hlen|done].
  eapply (dir_ok_step s0 s' de _ size); [done|done|done|]. split_and!; [done|done|].
  right. by rewrite Hd', Hdc.
Qed.

Lemma truncate_shrink_spec {bud} s fb top cs de size r block :
  top_ok bud s fb top (file_ptrs top) → top_rep s top cs → chunks_ok m cs → dir_ok s de →
  located s fb top cs size r → owned s (bao_ptr r) (bao_block r) block →
  fb_IsInd block = false → fb_Contents block = cs !!! locate m cs size →
  size < locate m cs size * m + length (cs !!! locate m cs size) →
  (Z.of_nat size < 2 ^ 62)%Z →
  wp (truncate_shrink file (Z.of_nat size) fb r block) (λ _ s', ∃ cs' de',
    file_state bud s' cs' de' ∧ concat cs' = take size (concat cs) ∧ evolves s s' ∧
    sync_writes s' = sync_writes s ++ [MkWriteRange (Z.of_nat size) 0] ∧
    (is_Some (fbo_dirty s !! key tail) → fileBlockState tail s ≠ blockNotBeingSynced →
     fbo_doDeferWrite s' = true)) s.
Proof.
  intros Htop Hrep Hcs Hde Hloc Hob Hbi Hbc Hsz Hb. unfold truncate_shrink. apply wp_bind.
  pose proof (chunk_truncate_ok m m_pos cs size Hcs) as Hcs'.
  pose proof (concat_chunk_truncate m m_pos cs size Hcs ltac:(lia)) as Hcont.
  pose proof (locate_end m m_pos cs size Hcs) as [_ Hlen]. specialize (Hlen Hsz).
  assert (length (concat (chunk_truncate m cs size)) = size) as Hlen'
    by (rewrite Hcont, length_take; lia).
  pose proof (locate_le m m_pos cs size) as Hle. pose proof Hloc as (Hstart & Hmore & _ & _).
  assert (st_ok s) as Hok by apply Htop.
  eapply wp_mono; [apply getDirtyEntry_spec; [done|by apply dir_ok_entry]|].
  intros de1 s1 (-> & He). cbv zeta.
  rewrite (to_i64_small (Z.of_nat size)), Hstart, to_i64_small, decide_False by lia.
  replace (Z.to_nat _) with (size - locate m cs size * m) by lia. rewrite Hbc.
  apply wp_bind, wp_modify, wp_bind.
  eapply wp_mono; [apply getOrCreate_spec; by destruct Hde as (? & ? & ? & ? & ? & ? & ?)|].
  set (c' := take (size - locate m cs size * m) (cs !!! locate m cs size)).
  set (s2 := set_heap _ s1). intros ref s3 (-> & Hsw & Hsi & f & Hs3).
  pose proof (top_ok_hext _ _ _ _ _ He Htop) as Htop1.
  pose proof (top_rep_hext _ _ _ _ He Hok Hrep) as Hrep1.
  pose proof (owned_hext _ _ _ _ _ _ _ _ He Hob) as Hob1.
  assert (evolves s s3 ∧ fbo_deCache s3 = fbo_deCache s ∧ sync_writes s3 = sync_writes s)
    as (Hev3 & Hdc3 & Hsw3).
  { rewrite Hsw. subst s3 s2. destruct He as (h & -> & _). split_and!; [by split|done|done]. }
  apply wp_bind. destruct (fb_IsInd top) eqn:Ei.
  - pose proof (located_hext _ _ _ _ _ _ _ He Hloc) as Hloc1.
    pose proof (located_pending s1 fb top cs size r block c' Htop1 Hrep1 Hcs Ei Hloc1 Hob1 Hbi) as Hp.
    assert (bao_parentBlock r = Some fb ∧ bao_indexInParent r = locate m cs size) as [Hpar Hidx].
    { destruct Hloc as (_ & _ & _ & Hl). rewrite Ei in Hl. by destruct Hl as (? & ? & _). }
    eapply wp_mono; [eapply (truncate_parents_ind s3); [|done|done|]|].
    { subst s3. by eapply pending_ext; [..|exact Hp]. }
    { rewrite Hmore, length_insert. intros Hx%bool_decide_eq_false.
      pose proof (chunk_i_lt m m_pos cs size Hcs). lia. }
    intros [] s4 (top4 & Hp4 & Hev4 & Hd4 & Hdt4 & Hu4 & Hdef4).
    eapply wp_mono; [eapply (truncate_record_ind size de s4); [exact Hp4|done|]|].
    { destruct Hu4 as [l ->]. by rewrite lookup_alter_is_Some. }
    intros r' s5 (_ & Hrec). exists (chunk_truncate m cs size), (de_resize de (Z.of_nat size)).
    pose proof Hrec as (_ & Hev5 & _ & Hw5). split_and!; [|done|..].
    + by eapply (recorded_state _ _ s4 s5 s); [done|done|congruence|..].
    + eapply evolves_trans; [exact Hev3|]. by eapply evolves_trans.
    + rewrite Hw5, (sync_writes_unref _ _ Hu4), Hsw3. done.
    + intros Hd Hs. apply (ev_defer _ _ _ Hev5), Hdef4; [by apply Hev3|].
      intros E. by apply (ev_sync _ _ _ Hev3) in E.
  - assert (r = MkBlockAtOffset tail None 0 fb false 0) as Hr.
    { destruct Hloc as (_ & _ & _ & Hl). by rewrite Ei in Hl. }
    assert (cs = [fb_Contents top]) as Hone by (unfold top_rep in Hrep; by rewrite Ei in Hrep).
    assert (block = top) as -> by
      (destruct Hob as (_ & _ & Hx & _), Htop as (_ & (_ & _ & Hy & _) & _);
       rewrite Hr in Hx; simpl in Hx; congruence).
    set (top' := set_Contents top c') in *. assert (top_ok bud s3 fb top' (file_ptrs top')) as Htop3.
    { destruct Htop1 as (Hok1 & Ho1 & Hi1). subst s3 s2. rewrite Hr. simpl bao_block.
      split_and!; [|by eapply owned_store|done].
      eapply (st_ok_ext _ _ _ _ _ (set_heap (<[fb := FileB top']>) s1)); [done..|].
      apply st_ok_store; [apply Ho1|eexists; apply Ho1|done]. }
    unfold truncate_parents. apply wp_bind. eapply wp_lift; [exact Htail|]. rewrite Hr. simpl bao_more.
    apply wp_bind, wp_ret, wp_bind. eapply wp_load_file; [apply Htop3|].
    change (fb_IsInd top') with (fb_IsInd top). rewrite Ei. apply wp_bind, wp_ret, wp_ret.
    eapply wp_mono; [by eapply (truncate_record_direct size de s3 fb top')|].
    intros r' s5 (_ & Hrec & Hdef). exists (chunk_truncate m cs size), (de_resize de (Z.of_nat size)).
    assert (chunk_truncate m cs size = [fb_Contents top']) as Hct.
    { unfold chunk_truncate. fold c'. subst cs. rewrite locate_single. done. }
    pose proof Hrec as (_ & Hev5 & _ & Hw5). split_and!; [|done|..].
    + eapply (recorded_state _ _ s3 s5 s); [done..|]. by rewrite Hct.
    + by eapply evolves_trans.
    + by rewrite Hw5, Hsw3.
    + intros Hd Hs. apply Hdef; [by apply Hev3|]. intros E. by apply (ev_sync _ _ _ Hev3) in E.
Qed.

Lemma file_state_hext {bud} s s' cs de : hext s s' → file_state bud s cs de → file_state bud s' cs de.
Proof.
  intros He (Hok & Hcs & Hde & Hsz & top & Hv & Hrep & Hids).
  pose proof (st_ok_hext _ _ _ _ _ _ _ He Hok) as Hok'. split_and!; try done.
  - eapply (dir_ok_same s); [done|done| |done]. by destruct He as (h & -> & _).
  - exists top. split_and!; [|by eapply top_rep_hext|by eapply ids_ok_hext].
    by rewrite (fview_hext _ _ _ _ _ _ _ _ He Hok).
Qed.

Lemma wp_unchecked {A} (c : go folderBlockOps A) Q s : wp c Q s → wp (unchecked c) Q s.
Proof. intros (a & s' & E & HQ). exists a, s'. unfold unchecked. by rewrite E. Qed.

Lemma file_state_weaken bud bud' s cs de :
  bud' <= bud → file_state bud s cs de → file_state bud' s cs de.
Proof.
  intros Hle (? & ? & ? & ? & top & ? & ? & ?). split_and!; try done. exists top.
  split_and!; [done|done|by eapply ids_ok_weaken].
Qed.

(** A truncate that extends the file is a write of zeros. *)
Definition truncate_budget (size : nat) : nat := 2 * S (2 * size).

Lemma truncate_spec {bud} s cs de size :
  file_state (truncate_budget size + bud) s cs de → (Z.of_nat (length (concat cs)) < 2 ^ 62)%Z →
  (Z.of_nat size <= cfg_MaxFileBytes)%Z →
  wp (truncateLocked file (Z.of_nat size)) (λ r s', ∃ cs' de',
    file_state bud s' cs' de' ∧ concat cs' = extend size (take size (concat cs)) ∧ evolves s s' ∧
    (size ≠ length (concat cs) → is_Some (fbo_dirty s !! key tail) →
     fileBlockState tail s ≠ blockNotBeingSynced → fbo_doDeferWrite s' = true)) s.
Proof.
  intros Hfs Hlen Hb. pose proof Hfs as (Hok & Hcs & Hde & Hsz & top & Hv & Hrep & Hids).
  unfold truncateLocked, checkWriter. apply wp_bind, wp_bind. eapply wp_lift; [exact Huser|].
  cbn [fst snd]. rewrite Hwriter. cbn [negb]. apply wp_ret, wp_bind.
  eapply wp_mono; [by eapply getFile_write_spec|].
  intros fb s1 (He1 & top1 & Hex & Htop1 & Hrep1). cbv zeta. apply wp_bind, wp_unchecked.
  rewrite (to_i64_small (Z.of_nat size)) by lia. pose proof Htop1 as (Hok1 & Ho1 & Hids1).
  eapply wp_mono; [by eapply search_write_spec|].
  intros r s2 (He2 & Hloc). pose proof Hloc as (Hstart & Hmore & (b & Hob & Hbi & Hbc) & _).
  apply wp_bind. eapply wp_load_file; [apply Hob|]. rewrite Hstart, Hbc.
  pose proof (locate_end m m_pos cs size Hcs) as [Hend Hin].
  pose proof (chunk_old_le_any cs size Hcs) as Hcl.
  unfold zlen. rewrite to_i64_small, <- Nat2Z.inj_add by lia.
  assert (hext s s2) as He by (by eapply hext_trans).
  pose proof (file_state_hext _ _ _ _ He Hfs) as Hfs2.
  assert (evolves s s2) as Hev2 by (by apply evolves_hext).
  set (L := locate m cs size * m + _) in *.
  destruct (decide (Z.of_nat L < Z.of_nat size)%Z) as [Hlt|Hlt];
    [|destruct (decide (Z.of_nat L = Z.of_nat size)) as [Heq|Heq]].
  - destruct (Hend ltac:(lia)) as [_ Hl]. rewrite Hl in *.
    rewrite to_i64_small, decide_True by lia. apply wp_bind.
    replace (Z.to_nat _) with (size - length (concat cs)) by lia.
    eapply wp_mono; [apply (writeData_spec (bud := bud) s2 cs de)|].
    { eapply file_state_weaken; [|exact Hfs2]. unfold truncate_budget, write_fuel, zlen.
      rewrite length_zeros. lia. }
    { done. }
    { unfold zlen. rewrite length_zeros. lia. }
    intros w s3 (_ & cs' & de' & Hfs3 & Hc3 & Hev3 & _ & Hdef). apply wp_ret. exists cs', de'.
    assert (zeros (size - length (concat cs)) ≠ []) as Hne.
    { intros Hz%(f_equal length). rewrite length_zeros in Hz. simpl in Hz. lia. }
    split_and!; [done| |by eapply evolves_trans|].
    + rewrite Hc3, decide_False, write_at_end_zeros, take_ge by (done || lia). done.
    + intros _ Hd Hs. apply Hdef; [done|by apply Hev2|]. intros E. by apply (ev_sync _ _ _ Hev2) in E.
  - destruct (Hend ltac:(lia)) as [_ Hl]. apply wp_ret. exists cs, de.
    split_and!; [by eapply file_state_weaken; [|exact Hfs2]; lia| |done|lia].
    rewrite take_ge, extend_ge by lia. done.
  - eapply wp_mono; [eapply (truncate_shrink_spec s2 fb top1 cs de); try done|].
    + by apply (top_ok_hext s1).
    + by apply (top_rep_hext s1).
    + apply Hfs2.
    + fold L. lia.
    + lia.
    + intros r' s3 (cs' & de' & Hfs3 & Hc3 & Hev3 & _ & Hdef). exists cs', de'.
      specialize (Hin ltac:(lia)).
      split_and!; [by eapply file_state_weaken; [|exact Hfs3]; lia| |by eapply evolves_trans|].
      * rewrite Hc3, extend_ge; [done|]. rewrite length_take. lia.
      * intros _ Hd Hs. apply Hdef; [by apply Hev2|]. intros E. by apply (ev_sync _ _ _ Hev2) in E.
Qed.

End entry.

(** ** Reading *)

Lemma read_loop_spec s fb top cs off : 
  st_ok s → fbo_heap s !! fb = Some (FileB top) → chunks_ok m cs → top_rep s top cs →
  (Z.of_nat (length (concat cs)) < 2 ^ 62)%Z →
  ∀ fuel nRead dest s1,
  hext s s1 → nRead <= length dest → length dest - nRead < fuel →
  (Z.of_nat off + zlen dest < 2 ^ 62)%Z →
  let avail := take (length dest - nRead) (drop (off + nRead) (concat cs)) in
  wp (read_loop fuel file fb (Z.of_nat off) (Z.of_nat nRead) dest) (λ r s',
    r = (Z.of_nat (nRead + length avail), overwrite nRead avail dest) ∧ hext s s') s1.
Proof.
  intros Hok Ha Hcs Hrep Hlen fuel. induction fuel as [|fuel IH]; [lia|].
  intros nRead dest s1 He Hn Hfuel Hb avail. simpl. unfold zlen in *.
  destruct (decide (nRead < length dest)) as [Hlt|Hge]; last first.
  { rewrite decide_False by lia. apply wp_ret. subst avail.
    replace (length dest - nRead) with 0 by lia. rewrite take_0. simpl.
    rewrite overwrite_nil. split; [|done]. f_equal. lia. }
  rewrite decide_True by lia. rewrite to_i64_small by lia.
  replace (Z.of_nat nRead + Z.of_nat off)%Z with (Z.of_nat (off + nRead)) by lia.
  apply wp_bind. eapply wp_mono.
  { eapply (search_read_spec s1); [by eapply st_ok_hext|by eapply hext_heap|exact Hcs|].
    by eapply (top_rep_hext s). }
  intros r s2 (He2 & Hstart & b & Hb2 & Hbc). apply wp_bind. eapply wp_load_file; [exact Hb2|].
  rewrite Hstart, Hbc. set (pos := off + nRead) in *.
  pose proof (locate_end m m_pos cs pos Hcs) as [Hend _].
  pose proof (chunk_old_le_any cs pos Hcs) as Hcl. pose proof (locate_le m m_pos cs pos) as Hle.
  pose proof (chunk_read m m_pos cs pos) as Hread.
  set (i := locate m cs pos) in *. set (c := cs !!! i) in *. set (st := i * m) in *.
  rewrite (to_i64_small (_ + Z.of_nat (length c))) by lia.
  destruct (decide (Z.of_nat pos >= Z.of_nat st + Z.of_nat (length c))%Z) as [Hp|Hp].
  - destruct (Hend ltac:(lia)) as [_ Hl]. apply wp_ret. subst avail.
    rewrite drop_ge, take_nil, overwrite_nil by lia. simpl. rewrite Nat.add_0_r.
    split; [done|]. by eapply hext_trans.
  - rewrite (to_i64_small (_ + _ - _)), (to_i64_small (_ - Z.of_nat st)) by lia.
    set (k := min (length dest - nRead) (st + length c - pos)).
    replace (_ `min` _)%Z with (Z.of_nat k) by lia. rewrite decide_True by lia.
    rewrite Nat2Z.id. replace (Z.to_nat (Z.of_nat pos - Z.of_nat st)) with (pos - st) by lia.
    rewrite Nat2Z.id, (Hread k Hcs) by lia. rewrite <- Nat2Z.inj_add.
    set (chunk := take k (drop pos (concat cs))).
    assert (length chunk = k) as Hk by (subst chunk; rewrite length_take, length_drop; lia).
    assert (length (overwrite nRead chunk dest) = length dest) as Ho
      by (apply length_overwrite; lia).
    eapply wp_mono; [apply (IH (nRead + k) _ s2)|].
    + by eapply hext_trans.
    + lia.
    + lia.
    + lia.
    + intros r' s3 (-> & He3). split; [|done]. rewrite Ho.
      assert (avail = chunk ++ take (length dest - (nRead + k)) (drop (off + (nRead + k)) (concat cs))) as ->.
      { subst avail chunk. fold pos. replace (off + (nRead + k)) with (pos + k) by lia.
        rewrite <- drop_drop. replace (length dest - nRead) with (k + (length dest - (nRead + k))) by lia.
        by rewrite <- take_take_drop. }
      rewrite <- overwrite_app by (rewrite length_take, length_drop; lia). rewrite Hk.
      f_equal. rewrite length_app. lia.
Qed.

End file_spec.
