(* ===== verification/FileRefinement.v ===== *)
(** * FileRefinement: files are byte arrays

    The specification of [Read], [Write] and [Truncate] that clients of
    [folderBlockOps] rely on.  [file_ok s c] says that in the block state
    [s] the file has contents [c]; the theorems say that the operations
    succeed, act on [c] like the operations of one array of bytes, keep
    [file_ok], leave the blocks of an ongoing sync and of other files
    alone, and are deferred exactly when the file is being synced. *)

From Stdlib Require Import ZArith Lia.
From S2P Require Import Prelude Types Errors GoStd Ids CryptoCommon Splitter DataTypes Ops FolderBlocks FileIO FileChunks FolderBlocksSpec FileIOSpec.

(** ** Generic facts *)

Lemma Forall_sublist {A} (P : A → Prop) l k : l `sublist_of` k → Forall P k → Forall P l.
Proof. rewrite !Forall_forall. intros Hs Hk x Hx. apply Hk. by eapply elem_of_sublist. Qed.

Lemma sum_list_with_sublist {A} (f : A → nat) l k :
  l `sublist_of` k → sum_list_with f l <= sum_list_with f k.
Proof. induction 1; simpl; lia. Qed.

Section refinement.
Context `{Config, Codec FileBlock, Codec DirBlock, !EncodeTotal FileBlock, !EncodeTotal DirBlock}.
Context (file : path) (tail dptr : BlockPointer) (name : string) (uname : string) (uid : UID).
(** How many distinct ids the random source can provide. *)
Context (N : nat).
Abbreviation br := (path_branch file).
Abbreviation key p := (dirty_key p br).
Abbreviation maxSize := (bs_maxSize cfg_BlockSplitter).
Abbreviation m := (Z.to_nat maxSize).
Abbreviation any := (λ _ : BlockPointer, True).

(** The path of the file: valid, and in a directory. *)
Record path_ok : Prop := {
  po_valid : path_isValid file = true;
  po_tail : tailPointer file = Ok tail;
  po_name : tailName file = Ok name;
  po_parent : ∃ parent, parentPath file = Ok parent ∧ path_isValid parent = true ∧
    tailPointer parent = Ok dptr
}.

(** The configuration: the user may write, block and file sizes are far
    from the limits of 64-bit integers, and the random ids of new blocks
    are distinct. *)
Record config_ok : Prop := {
  co_user : cfg_CurrentUser = Ok (uname, uid);
  co_writer : cfg_IsWriter uid = true;
  co_maxSize : (0 < maxSize < 2 ^ 62)%Z;
  co_maxFile : (cfg_MaxFileBytes < 2 ^ 62)%Z;
  co_ids n1 n2 id : cfg_TempID n1 = Ok id → cfg_TempID n2 = Ok id → n1 = n2
}.

Hypothesis Hpath : path_ok.
Hypothesis Hcfg : config_ok.

(** The pointers of the file with top block [top]. *)
Definition own_ptrs (top : FileBlock) : list BlockPointer :=
  tail :: (if fb_IsInd top then ifp_ptr <$> fb_IPtrs top else []).

(** The blocks of the file are in order and hold [c]. *)
Definition file_ok (s : folderBlockOps) (c : list byte) : Prop :=
  ∃ top cs de,
    concat cs = c ∧ (zlen c < 2 ^ 62)%Z ∧ chunks_ok m cs ∧
    (∀ k1 k2 a, fbo_dirty s !! k1 = Some a → fbo_dirty s !! k2 = Some a → k1 = k2) ∧
    (∀ k a, fbo_dirty s !! k = Some a → is_Some (fbo_heap s !! a)) ∧
    fview br s tail = Some top ∧ top_rep file tail any s top cs ∧
    (∀ p, p ∈ own_ptrs top → fileBlockState p s = blockSyncingNotDirty →
       is_Some (fbo_dirty s !! key p)) ∧
    ids_ok uid any N 0 s (dptr :: file_ptrs tail top) ∧
    (∀ p, p ∈ own_ptrs top → key p ≠ key dptr) ∧
    dir_ok file tail dptr name s de ∧ ei_Size (de_EntryInfo de) = zlen c.

Lemma file_ok_ids s c : file_ok s c → fbo_tempIDs s + 0 <= N.
Proof. by intros (? & ? & ? & ? & ? & ? & ? & ? & ? & ? & ? & [? _] & _). Qed.

(** ** From [file_ok] to the invariant of an operation *)

Section setup.
Context (s : folderBlockOps) (top : FileBlock).

(** The pointers the operation may use, and the addresses it may modify. *)
Definition op_ptr (p : BlockPointer) : Prop :=
  p ∈ own_ptrs top ∨
  ∃ n id, fbo_tempIDs s <= n < N ∧ cfg_TempID n = Ok id ∧ p = new_file_ptr id uid.

Definition op_addr (a : addr) : Prop :=
  fbo_heap s !! a = None ∨
  ∃ p, p ∈ own_ptrs top ∧ fbo_dirty s !! key p = Some a ∧
       fileBlockState p s ≠ blockSyncingNotDirty.

Lemma op_st_ok :
  (∀ k1 k2 a, fbo_dirty s !! k1 = Some a → fbo_dirty s !! k2 = Some a → k1 = k2) →
  (∀ k a, fbo_dirty s !! k = Some a → is_Some (fbo_heap s !! a)) →
  (∀ p, p ∈ own_ptrs top → fileBlockState p s = blockSyncingNotDirty →
     is_Some (fbo_dirty s !! key p)) →
  ids_ok uid any N 0 s (dptr :: file_ptrs tail top) →
  st_ok br op_ptr op_addr (fbo_heap s) (fbo_dirty s) s.
Proof.
  intros Hi Hd Hsy [_ Hids]. split; try done.
  - intros a Ha. by left.
  - intros p a [Hp|(n & id & Hn & Hid & ->)] Hda Hst; [right; by exists p|].
    destruct (Hids n Hn) as (id' & Hid' & _ & _ & Hdi & _). rewrite Hid in Hid'. simplify_eq.
    by destruct (Hdi (key (new_file_ptr id' uid)) ltac:(by eexists)).
  - intros p [Hp|(n & id & Hn & Hid & ->)] Hst; [by apply Hsy|].
    destruct (Hids n Hn) as (id' & Hid' & _ & _ & _ & Hsi & _). rewrite Hid in Hid'. simplify_eq.
    unfold fileBlockState in Hst. destruct (fbo_fileBlockStates s !! _) eqn:E; [|done].
    by destruct (Hsi (new_file_ptr id' uid) ltac:(by eexists)).
Qed.

Lemma op_top_rep cs : top_rep file tail any s top cs → top_rep file tail op_ptr s top cs.
Proof.
  unfold top_rep. destruct (fb_IsInd top) eqn:Ei; [|done].
  intros (Hl & Ho & Hnd & Hc). split_and!; try done. intros i p c Hp Hi.
  destruct (Hc i p c Hp Hi) as (_ & Hv & Hch). split_and!; try done. left.
  unfold own_ptrs. rewrite Ei. right. apply list_elem_of_fmap_2.
  by eapply list_elem_of_lookup_2.
Qed.

Lemma op_ids bud : fbo_tempIDs s + bud <= N →
  ids_ok uid any N 0 s (dptr :: file_ptrs tail top) →
  ids_ok uid op_ptr N bud s (file_ptrs tail top).
Proof.
  intros Hbud [_ Hids]. split; [done|]. intros n Hn. destruct (Hids n Hn) as (id & Hid & Hv & _ & Hd & Hst & Hp).
  exists id. split_and!; try done; [right; by exists n, id|]. intros p Hin. apply Hp. by right.
Qed.

Lemma op_not_dir :
  ids_ok uid any N 0 s (dptr :: file_ptrs tail top) → (∀ p, p ∈ own_ptrs top → key p ≠ key dptr) →
  ∀ p, op_ptr p → key p ≠ key dptr.
Proof.
  intros [_ Hids] Hk p [Hp|(n & id & Hn & Hid & ->)]; [by apply Hk|].
  destruct (Hids n Hn) as (id' & Hid' & _ & _ & _ & _ & Hp). rewrite Hid in Hid'. simplify_eq.
  intros [=]. by apply (Hp dptr); [left|].
Qed.

Lemma op_not_dir_addr :
  (∀ k1 k2 a, fbo_dirty s !! k1 = Some a → fbo_dirty s !! k2 = Some a → k1 = k2) →
  (∀ k a, fbo_dirty s !! k = Some a → is_Some (fbo_heap s !! a)) →
  (∀ p, p ∈ own_ptrs top → key p ≠ key dptr) →
  ∀ a, fbo_dirty s !! key dptr = Some a → ¬ op_addr a.
Proof.
  intros Hi Hd Hk a Ha [Hn|(p & Hp & Hpa & _)].
  - destruct (Hd _ _ Ha). congruence.
  - apply (Hk p Hp). by eapply Hi.
Qed.

End setup.

Lemma path_tail_valid : BlockPointer_IsValid tail = true.
Proof.
  destruct Hpath as [Hv Ht _ _]. unfold path_isValid, tailPointer, tailNode in *.
  case_decide; [done|]. destruct (last (p_path file)) as [n|] eqn:E; [|done].
  injection Ht as <-. apply last_Some in E as [l E]. rewrite E, forallb_app in Hv. simpl in Hv.
  by apply andb_true_iff in Hv as [_ [Hv _]%andb_true_iff].
Qed.

Lemma own_ptrs_inj F s top cs p q :
  top_rep file tail F s top cs → p ∈ own_ptrs top → q ∈ own_ptrs top → key p = key q → p = q.
Proof.
  unfold top_rep, own_ptrs. destruct (fb_IsInd top); [|set_solver].
  intros (_ & _ & Hnd & _) Hp Hq Heq.
  apply list_elem_of_lookup_1 in Hp as [i Hi], Hq as [j Hj].
  assert (i = j) as ->; [|congruence].
  apply (NoDup_lookup ((λ p, key p) <$> tail :: (ifp_ptr <$> fb_IPtrs top)) i j (key p)); [done|..].
  - by rewrite list_lookup_fmap, Hi.
  - by rewrite list_lookup_fmap, Hj, Heq.
Qed.

(** What [file_ok] gives an operation to start from. *)
Lemma file_ok_state s c :
  file_ok s c → ∃ top cs de, ∀ bud, fbo_tempIDs s + bud <= N →
    concat cs = c ∧ (zlen c < 2 ^ 62)%Z ∧
    (∀ p, op_ptr s top p → key p ≠ key dptr) ∧
    (∀ a, fbo_dirty s !! key dptr = Some a → ¬ op_addr s top a) ∧
    fview br s tail = Some top ∧ ids_ok uid any N 0 s [dptr] ∧
    (∀ p q, p ∈ own_ptrs top → q ∈ own_ptrs top → key p = key q → p = q) ∧
    file_state file tail uid (op_ptr s top) (op_addr s top) (fbo_heap s) (fbo_dirty s)
      N dptr name bud s cs de.
Proof.
  intros (top & cs & de & Hc & Hlen & Hcs & Hi & Hd & Hv & Hrep & Hsy & Hids & Hk & Hde & Hsz).
  exists top, cs, de. intros bud Hbud. split_and!; try done.
  - by apply op_not_dir.
  - by apply op_not_dir_addr.
  - split; [lia|]. intros n Hn. destruct (proj2 Hids n Hn) as (id & ? & ? & ? & ? & ? & Hp). exists id.
    split_and!; try done. intros p Hin%list_elem_of_singleton. subst p. apply Hp. by left.
  - intros p q. by eapply own_ptrs_inj.
  - split_and!; [by apply op_st_ok|done|done|by rewrite Hc|].
    exists top. split_and!; [done|by apply op_top_rep|by apply op_ids].
Qed.

(** And back. *)
Lemma state_file_ok bud s0 top0 s cs de :
  (∀ p, op_ptr s0 top0 p → key p ≠ key dptr) → ids_ok uid any N 0 s0 [dptr] →
  op_ptr s0 top0 tail → evolves (op_ptr s0 top0) s0 s →
  file_state file tail uid (op_ptr s0 top0) (op_addr s0 top0) (fbo_heap s0) (fbo_dirty s0)
    N dptr name bud s cs de →
  (Z.of_nat (length (concat cs)) < 2 ^ 62)%Z → file_ok s (concat cs).
Proof.
  intros Hk Hid0 Htail Hev ([Hi Hd _ _ _ _ Hsy] & Hcs & Hde & Hsz & top & Hv & Hrep & Hids) Hlen.
  assert (∀ p, p ∈ own_ptrs top → op_ptr s0 top0 p) as HF.
  { unfold own_ptrs. intros p [->|Hp]%elem_of_cons; [done|]. unfold top_rep in Hrep.
    destruct (fb_IsInd top); [|by apply not_elem_of_nil in Hp].
    apply list_elem_of_fmap in Hp as (q & -> & [j Hj]%list_elem_of_lookup_1).
    destruct Hrep as (Hl & _ & _ & Hc).
    destruct (lookup_lt_is_Some_2 cs j) as [x Hx]; [rewrite <- Hl; by eapply lookup_lt_Some|].
    by destruct (Hc j q x Hj Hx). }
  exists top, cs, de. split_and!; try done; auto.
  - unfold top_rep in *. destruct (fb_IsInd top); [|done]. destruct Hrep as (? & ? & ? & Hc).
    split_and!; try done. intros j q x Hj Hx. destruct (Hc j q x Hj Hx) as (_ & ? & ?). done.
  - destruct Hids as [Hbud Hids]. split; [lia|]. intros n Hn.
    destruct (Hids n Hn) as (id & Hid & ? & _ & ? & ? & Hp). exists id.
    split_and!; try done. intros p [->|Hin]%elem_of_cons; [|by apply Hp].
    pose proof (ev_ids _ _ _ Hev). destruct (proj2 Hid0 n ltac:(lia)) as (id' & Hid' & _ & _ & _ & _ & Hp').
    rewrite Hid in Hid'. simplify_eq. apply Hp'. by left.
Qed.

Lemma op_tail s top : op_ptr s top tail.
Proof. left. left. Qed.

(** ** Reading *)

(** The bytes a read into a buffer of [n] bytes finds. *)
Definition spec_read (n off : nat) (c : list byte) : list byte := take n (drop off c).

Lemma Read_result s c dest off :
  file_ok s c → (Z.of_nat off + zlen dest < 2 ^ 62)%Z →
  let avail := spec_read (length dest) off c in
  wp (Read file dest (Z.of_nat off)) (λ r s',
    r = (zlen avail, avail ++ drop (length avail) dest) ∧ file_ok s' c) s.
Proof.
  intros Hf Hb avail.
  destruct (file_ok_state s c Hf) as (top & cs & de & Hst).
  destruct (Hst 0 ltac:(by apply file_ok_ids in Hf)) as (Hc & Hlen & Hk & Hka & Hv & Hid & _ & Hfs).
  destruct Hpath as [Hpv Hpt Hpn (parent & Hpp & Hppv & Hpd)], Hcfg as [Hu Hw Hm Hmf Hinj].
  pose proof Hfs as (Hok & Hcs & _ & _ & top' & Hv' & Hrep & _). rewrite Hv in Hv'. simplify_eq.
  assert (wp (Read file dest (Z.of_nat off)) (λ r s', r = (zlen avail, avail ++ drop (length avail) dest)
    ∧ hext s s') s) as (r & s' & Hr & -> & He).
  { unfold Read, getFileLocked. apply wp_bind, wp_bind. eapply wp_lift; [exact Hpt|].
    eapply wp_mono; [eapply getFileBlock_read_spec; [done|done|exact Hok|apply path_tail_valid|exact Hv]|].
    intros fb s1 (He1 & Hfb).
    pose proof (top_rep_hext _ _ _ _ _ _ _ _ _ _ He1 Hok Hrep) as Hrep1.
    pose proof (st_ok_hext _ _ _ _ _ _ _ He1 Hok) as Hok1.
    eapply wp_mono; [eapply (read_loop_spec _ _ _ _ _ _ Hpv Hpt Hm s1 fb top' cs off Hok1 Hfb Hcs Hrep1 Hlen
      _ 0 dest s1); [apply hext_refl|lia|lia|done]|].
    intros r s2 (-> & He2). rewrite Nat.sub_0_r, Nat.add_0_r. fold (spec_read (length dest) off (concat cs)).
    fold avail. split; [|by eapply hext_trans]. unfold zlen, overwrite. simpl. done. }
  exists (zlen avail, avail ++ drop (length avail) dest), s'. split_and!; [done..|].
  eapply (state_file_ok 0 s top'); [done|done|apply op_tail|by apply evolves_hext| |done].
  by eapply file_state_hext.
Qed.

(** C1. [Read] returns the bytes of the file from the offset on, as many
    as fit in the buffer and exist: it never fails on a well-formed file,
    the count is the number of these bytes, they are at the start of the
    buffer, the rest of the buffer is unchanged, and the file keeps its
    contents. *)
Theorem Read_refines s c dest off :
  file_ok s c → (Z.of_nat off + zlen dest < 2 ^ 62)%Z →
  let avail := take (length dest) (drop off c) in
  ∃ s', Read file dest (Z.of_nat off) s = (Ok (zlen avail, avail ++ drop (length avail) dest), s') ∧
    file_ok s' c.
Proof.
  intros Hf Hb avail. destruct (Read_result s c dest off Hf Hb) as (r & s' & Hr & -> & Hf').
  by exists s'.
Qed.

(** ** Writing and truncating *)

(** What an operation leaves alone: the blocks that are not the file's to
    modify, and the cache entries of other blocks. *)
Definition isolated (s s' : folderBlockOps) : Prop :=
  ∀ top, fview br s tail = Some top →
    (∀ a, ¬ op_addr s top a → fbo_heap s' !! a = fbo_heap s !! a) ∧
    (∀ k, (∀ p, op_ptr s top p → k ≠ key p) → fbo_dirty s' !! k = fbo_dirty s !! k).

Definition being_synced (s : folderBlockOps) : Prop :=
  is_Some (fbo_dirty s !! key tail) ∧ fileBlockState tail s ≠ blockNotBeingSynced.

(** No block of the file is being synced; other files may be. *)
Definition not_syncing (s : folderBlockOps) : Prop :=
  ∀ top p, fview br s tail = Some top → p ∈ own_ptrs top → fileBlockState p s = blockNotBeingSynced.

(** The effect of an operation on a file [c]: the new contents [c'],
    isolation, when it asks to be deferred ([changes]: the operation
    modifies blocks), and how many ids it draws at most. *)
Definition op_effect (s s' : folderBlockOps) (c' : list byte) (changes : Prop) (cost : nat) : Prop :=
  file_ok s' c' ∧ isolated s s' ∧
  fbo_deferredWrites s' = fbo_deferredWrites s ∧
  fbo_deferredDirtyDeletes s' = fbo_deferredDirtyDeletes s ∧
  fbo_localChanges s' = fbo_localChanges s ∧
  (not_syncing s → fbo_doDeferWrite s' = fbo_doDeferWrite s) ∧
  (changes → being_synced s → fbo_doDeferWrite s' = true) ∧
  (being_synced s → being_synced s') ∧
  fbo_tempIDs s' <= fbo_tempIDs s + cost.

Lemma op_ptr_not_syncing s top p :
  ids_ok uid any N 0 s [dptr] → fview br s tail = Some top → not_syncing s →
  op_ptr s top p → fileBlockState p s = blockNotBeingSynced.
Proof.
  intros [_ Hids] Hv Hst [Hp|(n & id & Hn & Hid & ->)]; [by eapply Hst|].
  destruct (Hids n Hn) as (id' & Hid' & _ & _ & _ & Hsi & _). rewrite Hid in Hid'. simplify_eq.
  unfold fileBlockState. destruct (fbo_fileBlockStates s !! _) eqn:E; [|done].
  by destruct (Hsi (new_file_ptr id' uid) ltac:(by eexists)).
Qed.

Lemma op_effect_intro s top cs de s' c' changes cost :
  fbo_tempIDs s + cost <= N →
  (∀ p, op_ptr s top p → key p ≠ key dptr) → ids_ok uid any N 0 s [dptr] →
  fview br s tail = Some top → evolves (op_ptr s top) s s' →
  file_state file tail uid (op_ptr s top) (op_addr s top) (fbo_heap s) (fbo_dirty s)
    N dptr name (N - (fbo_tempIDs s + cost)) s' cs de →
  concat cs = c' → (zlen c' < 2 ^ 62)%Z →
  (changes → being_synced s → fbo_doDeferWrite s' = true) →
  op_effect s s' c' changes cost.
Proof.
  intros Hbud Hk Hid Hv Hev Hfs <- Hlen Hdef. split_and!; [|..|done| |].
  - by eapply state_file_ok; [..|apply op_tail|done| |].
  - intros top' Hv'. rewrite Hv in Hv'. simplify_eq. destruct Hfs as (Hok & _).
    split; [by apply Hok|by apply Hok].
  - apply Hev.
  - apply Hev.
  - apply Hev.
  - intros Hst. apply (ev_nodefer _ _ _ Hev). intros p. by apply op_ptr_not_syncing.
  - intros [Hd Hs]. split; [by apply (ev_dirty _ _ _ Hev)|]. by rewrite (ev_sync _ _ _ Hev).
  - destruct Hfs as (_ & _ & _ & _ & ? & _ & _ & [? _]). lia.
Qed.

(** The contents after a write: writing nothing changes nothing. *)
Definition spec_write (data : list byte) (off : nat) (c : list byte) : list byte :=
  if decide (data = []) then c else write_at off data c.

(** The contents after a truncate: cut, or filled with zeros. *)
Definition spec_truncate (size : nat) (c : list byte) : list byte := extend size (take size c).

(** At most two ids per iteration of the loop. *)
Definition write_cost (data : list byte) (off : nat) : nat := 2 * write_fuel data (Z.of_nat off).

Lemma writeDataLocked_effect s c data off :
  file_ok s c → (Z.of_nat off + zlen data <= cfg_MaxFileBytes)%Z →
  fbo_tempIDs s + write_cost data off <= N →
  wp (writeDataLocked file data (Z.of_nat off)) (λ r s',
    fst r = MkWriteRange (Z.of_nat off) (zlen data) ∧
    op_effect s s' (spec_write data off c) (data ≠ []) (write_cost data off)) s.
Proof.
  intros Hf Hb Hbud. destruct (file_ok_state s c Hf) as (top & cs & de & Hst).
  destruct (Hst (N - fbo_tempIDs s) ltac:(lia)) as (<- & Hlen & Hk & Hka & Hv & Hid & _ & Hfs).
  destruct Hpath as [Hpv Hpt Hpn (parent & Hpp & Hppv & Hpd)], Hcfg as [Hu Hw Hm Hmf Hinj].
  eapply wp_mono.
  { eapply (writeData_spec _ _ _ _ _ _ _ _ Hpv Hpt Hu Hw (op_tail s top) Hm N Hinj
      _ _ _ Hpp Hppv Hpd Hpn Hk Hka path_tail_valid Hmf
      (bud := N - (fbo_tempIDs s + write_cost data off)) s cs de data off); [|done|done].
    eapply file_state_weaken; [|exact Hfs]. unfold write_cost in *. lia. }
  intros r s' (Hr & cs' & de' & Hfs' & Hc' & Hev & _ & Hdef). split; [done|].
  eapply (op_effect_intro s top cs' de'); try done.
  - unfold zlen in *. unfold spec_write. case_decide; [done|].
    rewrite length_write_at. lia.
  - intros Hne [Hd Hs]. by apply Hdef.
Qed.

Lemma truncateLocked_effect s c size :
  file_ok s c → (Z.of_nat size <= cfg_MaxFileBytes)%Z →
  fbo_tempIDs s + truncate_budget size <= N →
  wp (truncateLocked file (Z.of_nat size)) (λ _ s',
    op_effect s s' (spec_truncate size c) (size ≠ length c) (truncate_budget size)) s.
Proof.
  intros Hf Hb Hbud. destruct (file_ok_state s c Hf) as (top & cs & de & Hst).
  destruct (Hst (N - fbo_tempIDs s) ltac:(lia)) as (<- & Hlen & Hk & Hka & Hv & Hid & _ & Hfs).
  destruct Hpath as [Hpv Hpt Hpn (parent & Hpp & Hppv & Hpd)], Hcfg as [Hu Hw Hm Hmf Hinj].
  eapply wp_mono.
  { eapply (truncate_spec _ _ _ _ _ _ _ _ Hpv Hpt Hu Hw (op_tail s top) Hm N Hinj
      _ _ _ Hpp Hppv Hpd Hpn Hk Hka path_tail_valid Hmf
      (bud := N - (fbo_tempIDs s + truncate_budget size)) s cs de size); [|done|done].
    eapply file_state_weaken; [|exact Hfs]. lia. }
  intros r s' (cs' & de' & Hfs' & Hc' & Hev & Hdef).
  eapply (op_effect_intro s top cs' de'); try done.
  - unfold zlen, spec_truncate in *. rewrite length_extend, length_take. lia.
  - intros Hne [Hd Hs]. by apply Hdef.
Qed.

(** Setting the flag back does not matter to the file. *)
Lemma file_ok_ext s s' c :
  fbo_heap s' = fbo_heap s → fbo_dirty s' = fbo_dirty s →
  fbo_fileBlockStates s' = fbo_fileBlockStates s → fbo_tempIDs s' = fbo_tempIDs s →
  fbo_deCache s' = fbo_deCache s → file_ok s c → file_ok s' c.
Proof.
  intros E1 E2 E3 E4 E5 Hf. unfold file_ok, fview, top_rep, ind_rep, child_ok, ids_ok,
    fileBlockState, dir_ok, dview, FolderBlocksSpec.fview in *.
  by rewrite E1, E2, E3, E4, E5.
Qed.

(** What [Write] and [Truncate] make of the effect of their locked bodies:
    [d] is what is queued for the end of a sync. *)
Definition op_result (s s' : folderBlockOps) (c' : list byte) (d : deferredWrite)
    (changes : Prop) (cost : nat) : Prop :=
  file_ok s' c' ∧ isolated s s' ∧ fbo_doDeferWrite s' = false ∧
  (not_syncing s → fbo_deferredWrites s' = fbo_deferredWrites s) ∧
  (fbo_deferredWrites s' = fbo_deferredWrites s ∨
   fbo_deferredWrites s' = fbo_deferredWrites s ++ [d]) ∧
  (changes → being_synced s → fbo_deferredWrites s' = fbo_deferredWrites s ++ [d]) ∧
  (being_synced s → being_synced s') ∧
  fbo_tempIDs s' <= fbo_tempIDs s + cost.

Lemma exported_op_spec {A} (body : go folderBlockOps A) (note : A → folderBlockOps → folderBlockOps)
    (d : deferredWrite) (ptrs : A → list BlockPointer) s c' changes cost :
  wp body (λ _ s', op_effect s s' c' changes cost) s →
  (∀ r s', fbo_heap (note r s') = fbo_heap s' ∧ fbo_dirty (note r s') = fbo_dirty s' ∧
     fbo_fileBlockStates (note r s') = fbo_fileBlockStates s' ∧
     fbo_tempIDs (note r s') = fbo_tempIDs s' ∧ fbo_deCache (note r s') = fbo_deCache s' ∧
     fbo_doDeferWrite (note r s') = fbo_doDeferWrite s' ∧
     fbo_deferredWrites (note r s') = fbo_deferredWrites s') →
  fbo_doDeferWrite s = false →
  wp (reset_doDefer (r ← body; _ ← modify (note r); defer_if_needed d (ptrs r)))
     (λ _ s', op_result s s' c' d changes cost) s.
Proof.
  intros (r & s1 & Hr & Hf & Hiso & Hdw & _ & _ & Hnd & Hd & Hbs & Hcost) Hnote Hflag.
  destruct (Hnote r s1) as (N1 & N2 & N3 & N4 & N5 & N6 & N7). exists tt. eexists. split.
  { unfold reset_doDefer, mbind, go_bind. rewrite Hr. reflexivity. }
  set (s2 := note r s1) in *. cbv beta. unfold op_result, isolated, being_synced, not_syncing, fileBlockState in *.
  split_and!.
  - eapply (file_ok_ext s1); [..|exact Hf]; simpl; destruct (fbo_doDeferWrite s2); simpl; done.
  - intros top Hv. destruct (Hiso top Hv). simpl. destruct (fbo_doDeferWrite s2); simpl;
      by rewrite N1, N2.
  - done.
  - intros Hst. simpl. rewrite N6, (Hnd Hst), Hflag. by rewrite N7.
  - simpl. destruct (fbo_doDeferWrite s2); simpl; rewrite N7, Hdw; auto.
  - intros Hch Hs. simpl. rewrite N6, (Hd Hch Hs). simpl. by rewrite N7, Hdw.
  - intros Hs. simpl. destruct (fbo_doDeferWrite s2); simpl; rewrite N2, N3; auto.
  - simpl. destruct (fbo_doDeferWrite s2); simpl; by rewrite N4.
Qed.

Lemma Write_result s c data off :
  file_ok s c → fbo_doDeferWrite s = false →
  (Z.of_nat off + zlen data <= cfg_MaxFileBytes)%Z → fbo_tempIDs s + write_cost data off <= N →
  wp (Write file data (Z.of_nat off)) (λ _ s', op_result s s' (spec_write data off c)
    (DeferredWrite data (Z.of_nat off)) (data ≠ []) (write_cost data off)) s.
Proof.
  intros Hf Hflag Hb Hbud. unfold Write, pathFromNodeForBlockWriteLocked.
  rewrite (po_valid Hpath). apply (exported_op_spec _ (λ r, add_localChange (fst r))); [|done|done].
  eapply wp_mono; [by apply (writeDataLocked_effect s c data off)|]. by intros r s' [_ ?].
Qed.

Lemma Truncate_result s c size :
  file_ok s c → fbo_doDeferWrite s = false → (Z.of_nat size <= cfg_MaxFileBytes)%Z →
  fbo_tempIDs s + truncate_budget size <= N →
  wp (Truncate file (Z.of_nat size)) (λ _ s', op_result s s' (spec_truncate size c)
    (DeferredTruncate (Z.of_nat size)) (size ≠ length c) (truncate_budget size)) s.
Proof.
  intros Hf Hflag Hb Hbud.
  destruct (exported_op_spec (truncateLocked file (Z.of_nat size))
    (λ r, match fst r with Some w => add_localChange w | None => λ s, s end)
    (DeferredTruncate (Z.of_nat size)) snd s (spec_truncate size c) (size ≠ length c)
    (truncate_budget size)) as ([] & s' & Hw & Hres); [|by intros [[w|] ptrs] s'|done|].
  { by apply (truncateLocked_effect s c size). }
  exists tt, s'. split; [|done].
  unfold Truncate, pathFromNodeForBlockWriteLocked. rewrite (po_valid Hpath). simpl.
  rewrite <- Hw. unfold reset_doDefer, mbind, go_bind. simpl.
  destruct (truncateLocked file (Z.of_nat size) s) as [[[[w|] ptrs]|e|e] s1]; done.
Qed.



(** ** Sequences of operations *)

Inductive file_op :=
| OpWrite (data : list byte) (off : nat)
| OpTruncate (size : nat).

Definition op_run (op : file_op) : go folderBlockOps unit :=
  match op with
  | OpWrite data off => Write file data (Z.of_nat off)
  | OpTruncate size => Truncate file (Z.of_nat size)
  end.

(** What the operation means for an array of bytes. *)
Definition op_spec (c : list byte) (op : file_op) : list byte :=
  match op with
  | OpWrite data off => spec_write data off c
  | OpTruncate size => spec_truncate size c
  end.

Definition op_cost (op : file_op) : nat :=
  match op with
  | OpWrite data off => write_cost data off
  | OpTruncate size => truncate_budget size
  end.

(** The operation stays within the size limit of files. *)
Definition op_bounded (op : file_op) : Prop :=
  match op with
  | OpWrite data off => (Z.of_nat off + zlen data <= cfg_MaxFileBytes)%Z
  | OpTruncate size => (Z.of_nat size <= cfg_MaxFileBytes)%Z
  end.

(** What a sync queues of the operation. *)
Definition op_deferred (op : file_op) : deferredWrite :=
  match op with
  | OpWrite data off => DeferredWrite data (Z.of_nat off)
  | OpTruncate size => DeferredTruncate (Z.of_nat size)
  end.

Definition op_changes (c : list byte) (op : file_op) : Prop :=
  match op with
  | OpWrite data off => data ≠ []
  | OpTruncate size => size ≠ length c
  end.

#[local] Instance op_changes_dec c op : Decision (op_changes c op).
Proof. destruct op; apply _. Defined.

Lemma op_spec_unchanged c op : ¬ op_changes c op → op_spec c op = c.
Proof.
  destruct op as [data off|size]; simpl; intros Hc%dec_stable; unfold spec_write, spec_truncate.
  - by rewrite decide_True.
  - subst. rewrite take_ge by done. by apply extend_ge.
Qed.

Lemma op_run_result s c op :
  file_ok s c → fbo_doDeferWrite s = false → op_bounded op → fbo_tempIDs s + op_cost op <= N →
  wp (op_run op) (λ _ s', op_result s s' (op_spec c op) (op_deferred op) (op_changes c op) (op_cost op)) s.
Proof. destruct op; [apply Write_result|apply Truncate_result]. Qed.

Lemma ops_run_result ops s c :
  file_ok s c → fbo_doDeferWrite s = false → Forall op_bounded ops →
  fbo_tempIDs s + sum_list_with op_cost ops <= N →
  wp (go_for ops op_run) (λ _ s', file_ok s' (foldl op_spec c ops) ∧ fbo_doDeferWrite s' = false ∧
    fbo_tempIDs s' <= fbo_tempIDs s + sum_list_with op_cost ops ∧
    (being_synced s → ∃ qs, fbo_deferredWrites s' = fbo_deferredWrites s ++ (op_deferred <$> qs) ∧
       qs `sublist_of` ops ∧ foldl op_spec c qs = foldl op_spec c ops)) s.
Proof.
  revert s c. induction ops as [|op ops IH]; intros s c Hf Hfl Hb Hbud; simpl.
  { apply wp_ret. split_and!; [done..|lia|]. intros _. exists []. by rewrite app_nil_r. }
  inversion_clear Hb as [|?? Hb1 Hb2]. simpl in Hbud. apply wp_bind.
  eapply wp_mono; [apply (op_run_result s c op); [done..|lia]|].
  intros _ s1 (Hf1 & _ & Hfl1 & _ & Hd1 & Hch1 & Hbs1 & Hid1).
  eapply wp_mono; [apply (IH s1 (op_spec c op)); [done..|lia]|].
  intros _ s2 (Hf2 & Hfl2 & Hid2 & Hd2). split_and!; [done..|lia|].
  intros Hbs. destruct (Hd2 (Hbs1 Hbs)) as (qs & -> & Hsub & Heq).
  destruct (decide (op_changes c op)) as [Hch|Hch].
  - exists (op :: qs). rewrite (Hch1 Hch Hbs). simpl. rewrite <- app_assoc.
    split_and!; [done|by constructor|done].
  - rewrite (op_spec_unchanged c op Hch) in *. destruct Hd1 as [->| ->].
    + exists qs. split_and!; [done|by constructor|done].
    + exists (op :: qs). simpl. rewrite <- app_assoc, (op_spec_unchanged c op Hch).
      split_and!; [done|by constructor|done].
Qed.


(** C19. The blocks that a sync is uploading are a snapshot: no write or
    truncate modifies them in place, and none touches a dirty block that
    is not a block of the file. *)
Theorem ops_keep_synced_blocks op s c s' top :
  file_ok s c → fbo_doDeferWrite s = false → op_bounded op → fbo_tempIDs s + op_cost op <= N →
  fview br s tail = Some top → op_run op s = (Ok tt, s') →
  (∀ p a, p ∈ own_ptrs top → fbo_dirty s !! key p = Some a →
     fileBlockState p s = blockSyncingNotDirty → fbo_heap s' !! a = fbo_heap s !! a) ∧
  (∀ k a, fbo_dirty s !! k = Some a → (∀ p, p ∈ own_ptrs top → k ≠ key p) →
     fbo_dirty s' !! k = Some a ∧ fbo_heap s' !! a = fbo_heap s !! a).
Proof.
  intros Hf Hfl Hb Hbud Hv Hrun.
  destruct (op_run_result s c op Hf Hfl Hb Hbud) as ([] & s1 & Hr & _ & Hiso & _).
  rewrite Hr in Hrun. simplify_eq. destruct (Hiso top Hv) as [Hheap Hdirty].
  destruct Hf as (top' & cs & de & _ & _ & _ & Hi & Hd & Hv' & Hrep & _ & [_ Hids] & _).
  rewrite Hv in Hv'. simplify_eq. split.
  - intros p a Hp Ha Hst. apply Hheap. intros [Hn|(q & Hq & Hqa & Hqst)].
    + destruct (Hd _ _ Ha). congruence.
    + by rewrite (own_ptrs_inj _ _ _ _ p q Hrep Hp Hq (Hi _ _ _ Ha Hqa)) in Hst.
  - intros k a Ha Hk. split.
    + rewrite Hdirty; [done|]. intros p [Hp|(n & id & Hn & Hid & ->)]; [by apply Hk|].
      destruct (Hids n Hn) as (id' & Hid' & _ & _ & Hdi & _). rewrite Hid in Hid'. simplify_eq.
      intros ->. by apply (Hdi (key (new_file_ptr id' uid))); [eexists|].
    + apply Hheap. intros [Hn|(q & Hq & Hqa & _)]; [destruct (Hd _ _ Ha); congruence|].
      by apply (Hk q Hq), (Hi _ _ a).
Qed.

(** ** The end of a sync *)

(** The operation a deferred write replays; offsets and sizes of the
    queue are never negative. *)
Definition deferred_op (d : deferredWrite) : file_op :=
  match d with
  | DeferredWrite data off => OpWrite data (Z.to_nat off)
  | DeferredTruncate size => OpTruncate (Z.to_nat size)
  end.

Lemma deferred_op_deferred op : deferred_op (op_deferred op) = op.
Proof. destruct op; simpl; by rewrite Nat2Z.id. Qed.

Lemma run_deferred_result s c op :
  file_ok s c → op_bounded op → fbo_tempIDs s + op_cost op <= N →
  wp (run_deferred file (op_deferred op)) (λ _ s',
    file_ok s' (op_spec c op) ∧ fbo_tempIDs s' <= fbo_tempIDs s + op_cost op) s.
Proof.
  intros Hf Hb Hbud. destruct op as [data off|size]; simpl in *; apply wp_bind.
  - eapply wp_mono; [by apply (writeDataLocked_effect s c data off)|].
    intros r s' (_ & ? & _ & _ & _ & _ & _ & _ & _ & ?). by apply wp_ret.
  - eapply wp_mono; [by apply (truncateLocked_effect s c size)|].
    intros r s' (? & _ & _ & _ & _ & _ & _ & _ & ?). by apply wp_ret.
Qed.

Lemma run_deferreds_result ops s c :
  file_ok s c → Forall op_bounded ops → fbo_tempIDs s + sum_list_with op_cost ops <= N →
  wp (go_for (op_deferred <$> ops) (run_deferred file)) (λ _ s', file_ok s' (foldl op_spec c ops)) s.
Proof.
  revert s c. induction ops as [|op ops IH]; intros s c Hf Hb Hbud; simpl in *; [by apply wp_ret|].
  inversion_clear Hb as [|?? Hb1 Hb2]. apply wp_bind.
  eapply wp_mono; [apply (run_deferred_result s c op); [done..|lia]|].
  intros _ s1 [Hf1 Hid1]. apply IH; [done..|lia].
Qed.

End refinement.

(** ** Refusals *)

Section refusals.
Context `{Config, Codec FileBlock, Codec DirBlock}.

Lemma set_doDeferWrite_id s : fbo_doDeferWrite s = false → set_doDeferWrite false s = s.
Proof. by destruct s; simpl; intros ->. Qed.

Lemma Write_refused file data off s e :
  fbo_doDeferWrite s = false → path_isValid file = true →
  writeDataLocked file data off s = (Err e, s) → Write file data off s = (Err e, s).
Proof.
  intros Hfl Hv Hw. unfold Write, pathFromNodeForBlockWriteLocked, reset_doDefer, mbind, go_bind.
  rewrite Hv. simpl. rewrite Hw. by rewrite set_doDeferWrite_id.
Qed.

(** [Write] refuses, without any change to the state: a path that
    names no block (the node was removed); then a write past the size
    limit of files, or at an offset so negative that its end is negative;
    then the write of a user who is not a writer of the folder. *)
Theorem Write_refuses file data off s :
  fbo_doDeferWrite s = false → (- 2 ^ 63 <= off + zlen data < 2 ^ 63)%Z →
  (0 <= cfg_MaxFileBytes < 2 ^ 63)%Z →
  (path_isValid file = false → Write file data off s = (Err (InvalidPathError file), s)) ∧
  (path_isValid file = true → (off + zlen data < 0 ∨ cfg_MaxFileBytes < off + zlen data)%Z →
     Write file data off s =
       (Err (FileTooBigError file (off + zlen data) cfg_MaxFileBytes), s)) ∧
  (∀ uname uid, path_isValid file = true → (0 <= off + zlen data <= cfg_MaxFileBytes)%Z →
     cfg_CurrentUser = Ok (uname, uid) → cfg_IsWriter uid = false →
     Write file data off s = (Err (WriteAccessError uname), s)).
Proof.
  intros Hfl Hr Hmax. split_and!.
  - intros Hv. unfold Write, pathFromNodeForBlockWriteLocked. by rewrite Hv.
  - intros Hv Hbig. apply Write_refused; [done..|]. unfold writeDataLocked.
    rewrite to_i64_small by lia. rewrite decide_True; [done|].
    destruct Hbig; [|rewrite to_u64_small by lia; lia].
    unfold to_u64. rewrite <- (Z.mod_add _ 1), Z.mod_small by lia. lia.
  - intros uname uid Hv Hsz Hu Hw. apply Write_refused; [done..|]. unfold writeDataLocked, checkWriter.
    rewrite to_i64_small by lia. rewrite decide_False by (rewrite to_u64_small by lia; lia).
    unfold mbind, go_bind. rewrite Hu. simpl. by rewrite Hw.
Qed.

(** [truncateLocked] does not check the error of the search for the
    block at the new end: when that block cannot be fetched (a missing
    block, a network failure), it dereferences a nil block. *)
Theorem truncateLocked_unchecked_error file size uname uid fb s s1 s2 e :
  cfg_CurrentUser = Ok (uname, uid) → cfg_IsWriter uid = true →
  getFileLocked file blockWrite s = (Ok fb, s1) →
  getFileBlockAtOffsetLocked file fb (to_i64 size) blockWrite s1 = (Err e, s2) →
  truncateLocked file size s = (Panic "nil pointer dereference", s2).
Proof.
  intros Hu Hw Hf Hg. unfold truncateLocked, checkWriter, mbind, go_bind. rewrite Hu. simpl.
  rewrite Hw. simpl. rewrite Hf. unfold unchecked. by rewrite Hg.
Qed.

End refusals.
