(* ===== verification/SyncWrites.v ===== *)
(** * SyncWrites: writes during a sync

    While [syncLocked] uploads a file it gives up the locks, and writes
    go on.  They go to copies of the blocks being uploaded, and are queued
    ([deferredWrites]) together with the pointers of the blocks they
    dirtied ([deferredDirtyDeletes]).  [FinishSync] drops the old dirty
    blocks and these, which leaves the uploaded file, and replays the
    queue on it.

    The file first proves that a write reports every block of the file it
    dirties (the invariant [tracked]), then that what [FinishSync] leaves
    before the replay is the uploaded file, and concludes that no write is
    lost.  For truncates the first step fails, see
    [truncate_during_sync_lost] in [FileExamples]. *)

From Stdlib Require Import ZArith Lia.
From S2P Require Import Prelude Types Errors GoStd Ids CryptoCommon Splitter DataTypes Ops FolderBlocks FileIO FileChunks FolderBlocksSpec FileIOSpec FileRefinement.

(** ** A write reports the blocks it dirties *)

Section tracking.
Context `{Config, Codec FileBlock, Codec DirBlock}.
Context (br : BranchName) (tail : BlockPointer) (s0 : folderBlockOps).

(** The key of a block created between [s0] and [s]. *)
Definition fresh_key (s : folderBlockOps) (k : dirtyBlockID) : Prop :=
  ∃ n id uid, fbo_tempIDs s0 <= n < fbo_tempIDs s ∧ cfg_TempID n = Ok id ∧
    k = dirty_key (new_file_ptr id uid) br.

(** Since [s0] only the blocks of [L], and new ones, have become dirty,
    and only the entry of the file has been cached. *)
Record tracked (L : list BlockPointer) (s : folderBlockOps) : Prop := {
  tr_ids : fbo_tempIDs s0 <= fbo_tempIDs s;
  tr_dirty k : is_Some (fbo_dirty s !! k) →
    is_Some (fbo_dirty s0 !! k) ∨ (∃ p, p ∈ L ∧ k = dirty_key p br) ∨ fresh_key s k;
  tr_entry ref : ref ≠ BlockPointer_ref tail → fbo_deCache s !! ref = fbo_deCache s0 !! ref
}.

Lemma tracked_refl L : tracked L s0.
Proof. split; auto. Qed.

Lemma tracked_weaken L L' s : L ⊆ L' → tracked L s → tracked L' s.
Proof.
  intros Hs [Hi Hd He]. split; [done| |done]. intros k Hk.
  destruct (Hd k Hk) as [?|[(p & Hp & ->)|?]]; [by left| |by right; right]. right; left. eauto.
Qed.

Lemma tracked_ext L s s' :
  fbo_tempIDs s <= fbo_tempIDs s' → fbo_dirty s' = fbo_dirty s → fbo_deCache s' = fbo_deCache s →
  tracked L s → tracked L s'.
Proof.
  intros E1 E2 E3 [Hi Hd He]. split; rewrite ?E2, ?E3; try done; [lia|]. intros k Hk.
  destruct (Hd k Hk) as [?|[?|(n & id & uid & Hn & Hr)]]; [by left|by right; left|].
  right; right. exists n, id, uid. split; [lia|done].
Qed.

(** Started with [L], the successful runs of [m] end with the list their
    result gives. *)
Definition tracks {A} (L : list BlockPointer) (m : go folderBlockOps A)
    (L' : A → list BlockPointer) : Prop :=
  ∀ s a s', tracked L s → m s = (Ok a, s') → tracked (L' a) s'.

Lemma tracks_ret {A} L (a : A) L' : L ⊆ L' a → tracks L (mret a) L'.
Proof. intros Hs s a' s' Ht [= <- <-]. by eapply tracked_weaken. Qed.

Lemma tracks_ret_same {A} L (a : A) : tracks L (mret a) (λ _, L).
Proof. by apply tracks_ret. Qed.

Lemma tracks_bind {A B} L (m : go folderBlockOps A) L1 (f : A → go folderBlockOps B) L2 :
  tracks L m L1 → (∀ a, tracks (L1 a) (f a) L2) → tracks L (m ≫= f) L2.
Proof.
  intros Hm Hf s b s' Ht Hr. unfold mbind, go_bind in Hr.
  destruct (m s) as [[a|e|e] s1] eqn:E; [|done..]. by eapply Hf; [eapply Hm|].
Qed.

Lemma tracks_mono {A} L (m : go folderBlockOps A) L1 L2 :
  tracks L m L1 → (∀ a, L1 a ⊆ L2 a) → tracks L m L2.
Proof. intros Hm Hs s a s' Ht Hr. by eapply tracked_weaken; [|eapply Hm]. Qed.

Lemma tracks_lift {A} L (r : res A) : tracks L (lift_res r) (λ _, L).
Proof. by intros s a s' Ht [= _ <-]. Qed.

Lemma tracks_fail {A} L e L' : tracks L (fail e : go folderBlockOps A) L'.
Proof. by intros s a s' Ht [=]. Qed.

Lemma tracks_panic {A} L e L' : tracks L (panic e : go folderBlockOps A) L'.
Proof. by intros s a s' Ht [=]. Qed.

Lemma tracks_get L : tracks L get (λ _, L).
Proof. by intros s a s' Ht [= _ <-]. Qed.

Lemma tracks_alloc L b : tracks L (alloc b) (λ _, L).
Proof. intros s a s' Ht [= _ <-]. by eapply tracked_ext; [..|exact Ht]. Qed.

Lemma tracks_store L a b : tracks L (store a b) (λ _, L).
Proof. intros s x s' Ht [= _ <-]. by eapply tracked_ext; [..|exact Ht]. Qed.

Lemma tracks_load L a : tracks L (load a) (λ _, L).
Proof. intros s b s' Ht. unfold load. destruct (fbo_heap s !! a); by intros [= _ <-]. Qed.

Lemma tracks_modify L f :
  (∀ s, fbo_tempIDs (f s) = fbo_tempIDs s ∧ fbo_dirty (f s) = fbo_dirty s ∧
        fbo_deCache (f s) = fbo_deCache s) → tracks L (modify f) (λ _, L).
Proof.
  intros Hf s [] s' Ht [= <-]. destruct (Hf s) as (E1 & E2 & E3).
  eapply tracked_ext; [|done..]. lia.
Qed.

Lemma tracks_put L p a L' : p :: L ⊆ L' → tracks L (bcache_PutDirty p br a) (λ _, L').
Proof.
  intros Hp s [] s' Ht [= <-].
  assert (tracked L' s) as [Hi Hd He] by (eapply tracked_weaken; [|exact Ht]; set_solver).
  split; [done| |done]. intros k. simpl. rewrite lookup_insert_is_Some.
  intros [<-|[_ Hk]]; [|by apply Hd]. right; left. exists p. set_solver.
Qed.

Lemma tracks_tempID L : tracks L MakeTemporaryBlockID_next (λ _, L).
Proof. intros s a s' Ht [= _ <-]. apply (tracked_ext L s (next_tempID s)); [|done..]. simpl. lia. Qed.

Lemma tracks_cache L p a L' :
  p :: L ⊆ L' → tracks L (cacheBlockIfNotYetDirtyLocked p br a) (λ _, L').
Proof.
  intros Hp. unfold cacheBlockIfNotYetDirtyLocked. eapply tracks_bind; [apply tracks_get|]. intros s.
  simpl. destruct (negb _); [by apply tracks_put|].
  destruct (fileBlockState p s).
  - apply tracks_ret. set_solver.
  - eapply (tracks_bind _ _ (λ _, L')); [by apply tracks_put|]. intros ?.
    eapply tracks_bind; [by apply tracks_modify|]. intros ?. by apply tracks_modify.
  - eapply tracks_mono; [by apply tracks_modify|]. set_solver.
Qed.

End tracking.

Create HintDb track discriminated.
#[export] Hint Constants Opaque : track.
#[export] Hint Resolve tracks_lift tracks_get tracks_alloc tracks_store tracks_load tracks_tempID
  tracks_ret_same tracks_fail tracks_panic : track.
#[export] Hint Extern 1 (tracks _ _ _ _ (modify _) _) => by apply tracks_modify : track.

(** Decomposes a computation whose dirty blocks are followed. *)
Ltac track :=
  repeat (cbv beta zeta; first
    [ solve [eauto 2 with track]
    | eapply tracks_bind; [solve [eauto 2 with track]|intros ?]
    | apply tracks_ret; set_solver
    | case_match ]).

Section writes.
Context `{Config, Codec FileBlock, Codec DirBlock}.
Context (file : path) (tail : BlockPointer) (s0 : folderBlockOps).
Hypothesis Htail : tailPointer file = Ok tail.
Abbreviation br := (path_branch file).
Abbreviation tracks := (tracks br tail s0).

Lemma tracks_tail {B} L (f : BlockPointer → go folderBlockOps B) L' :
  tracks L (f tail) L' → tracks L (lift_res (tailPointer file) ≫= f) L'.
Proof. rewrite Htail. intros Hf s b s' Ht Hr. by eapply Hf. Qed.

Lemma tracks_load_file L a : tracks L (load_file a) (λ _, L).
Proof. unfold load_file, nil_deref. track. Qed.
Lemma tracks_load_dir L a : tracks L (load_dir a) (λ _, L).
Proof. unfold load_dir, nil_deref. track. Qed.
#[local] Hint Resolve tracks_load_file tracks_load_dir : track.

Lemma tracks_getBlockHelper L p b nb : tracks L (getBlockHelperLocked p b nb) (λ _, L).
Proof. unfold getBlockHelperLocked. track. Qed.
#[local] Hint Resolve tracks_getBlockHelper : track.

Lemma tracks_getFileBlockHelper L p b : tracks L (getFileBlockHelperLocked p b) (λ _, L).
Proof. unfold getFileBlockHelperLocked. track. Qed.
#[local] Hint Resolve tracks_getFileBlockHelper : track.

Lemma tracks_getFileBlock L p rt : tracks L (getFileBlockLocked p file rt) (λ _, L).
Proof. unfold getFileBlockLocked. track. Qed.
#[local] Hint Resolve tracks_getFileBlock : track.

Lemma tracks_search L fuel off rt r : tracks L (search_block fuel file off rt r) (λ _, L).
Proof. revert r. induction fuel as [|fuel IH]; intros r; simpl; track. Qed.
#[local] Hint Resolve tracks_search : track.

Lemma tracks_getFileBlockAtOffset L fb off rt :
  tracks L (getFileBlockAtOffsetLocked file fb off rt) (λ _, L).
Proof. unfold getFileBlockAtOffsetLocked. track. Qed.
#[local] Hint Resolve tracks_getFileBlockAtOffset : track.

Lemma tracks_getDirHelper L p b : tracks L (getDirBlockHelperLocked p b) (λ _, L).
Proof. unfold getDirBlockHelperLocked. track. Qed.
#[local] Hint Resolve tracks_getDirHelper : track.

Lemma tracks_getDir L d rt : tracks L (getDirLocked d rt) (λ _, L).
Proof. unfold getDirLocked. track. Qed.
Lemma tracks_updateWithDirtyEntries L a : tracks L (updateWithDirtyEntriesLocked a) (λ _, L).
Proof. unfold updateWithDirtyEntriesLocked. track. Qed.
#[local] Hint Resolve tracks_getDir tracks_updateWithDirtyEntries : track.

Lemma tracks_getDirtyDir L d rt : tracks L (getDirtyDirLocked d rt) (λ _, L).
Proof. unfold getDirtyDirLocked. track. Qed.
#[local] Hint Resolve tracks_getDirtyDir : track.

Lemma tracks_getDirtyParentAndEntry L p rt : tracks L (getDirtyParentAndEntryLocked p rt) (λ _, L).
Proof. unfold getDirtyParentAndEntryLocked. track. Qed.
#[local] Hint Resolve tracks_getDirtyParentAndEntry : track.

Lemma tracks_getDirtyEntry L p : tracks L (getDirtyEntryLocked p) (λ _, L).
Proof. unfold getDirtyEntryLocked. track. Qed.
Lemma tracks_getOrCreateSyncInfo L de : tracks L (getOrCreateSyncInfoLocked de) (λ _, L).
Proof. unfold getOrCreateSyncInfoLocked. track. Qed.
Lemma tracks_si_addUnrefs L ref infos : tracks L (si_addUnrefs ref infos) (λ _, L).
Proof. by apply tracks_modify. Qed.
Lemma tracks_si_update_op L ref f : tracks L (si_update_op ref f) (λ _, L).
Proof. by apply tracks_modify. Qed.
Lemma tracks_copy_into L a last data off : tracks L (copy_into a last data off) (λ _, L).
Proof. unfold copy_into. track. Qed.
Lemma tracks_checkWriter L : tracks L checkWriter (λ _, L).
Proof. unfold checkWriter. track. Qed.
#[local] Hint Resolve tracks_getDirtyEntry tracks_getOrCreateSyncInfo tracks_si_addUnrefs
  tracks_si_update_op tracks_copy_into tracks_checkWriter : track.

Lemma tracks_forget L ref parent i : tracks L (forget_encoded_size ref parent i) (λ _, L).
Proof. unfold forget_encoded_size. track. Qed.
#[local] Hint Resolve tracks_forget : track.

Lemma load_file_state a s r s' : load_file a s = (r, s') → s' = s.
Proof.
  unfold load_file, load, nil_deref, mbind, go_bind.
  destruct (fbo_heap s !! a) as [[]|]; by intros [= _ <-].
Qed.

Lemma tracks_newRightBlock L fb off :
  tail ∈ L → tracks L (newRightBlockLocked tail br fb off) (λ _, L).
Proof.
  intros Ht s [] s' [Hi Hd He] Hr. unfold newRightBlockLocked, MakeTemporaryBlockID_next, mbind, go_bind in Hr.
  destruct (cfg_TempID (fbo_tempIDs s)) as [id|e|e] eqn:Eid; [|done..].
  unfold lift_res in Hr. destruct cfg_CurrentUser as [[un uid]|e|e]; [|done..]. simpl in Hr.
  destruct (load_file fb _) as [[b|e|e] s1] eqn:El; [|done..].
  apply load_file_state in El as ->.
  eapply (tracks_cache _ _ _ L tail fb L); [set_solver| |exact Hr].
  split; [simpl; lia| |exact He]. intros k. simpl. rewrite lookup_insert_is_Some.
  intros [<-|[_ Hk]].
  - right; right. exists (fbo_tempIDs s), id, uid. simpl. split; [lia|done].
  - destruct (Hd k Hk) as [?|[?|(n & id' & uid' & Hn & Hr')]]; [by left|by right; left|].
    right; right. exists n, id', uid'. simpl. split; [lia|done].
Qed.
#[local] Hint Resolve tracks_newRightBlock : track.

Lemma tracks_new_block L uid fb p off :
  tail ∈ L → tracks L (write_new_block file uid fb p off) (λ _, L).
Proof.
  intros Ht. unfold write_new_block. apply tracks_tail.
  eapply (tracks_bind _ _ _ _ _ (λ _, L)); [|intros r; track].
  case_match; [|by apply tracks_ret]. track.
  eapply (tracks_bind _ _ _ _ _ (λ _, L)); [apply tracks_put; set_solver|]. intros ?. track.
Qed.
#[local] Hint Resolve tracks_new_block : track.

(** One iteration adds the block it wrote to. *)
Lemma tracks_finish L ref oldLen newLen nCopied r v fp :
  tail ∈ L → tracks (L ++ wv_dirtyPtrs v)
    (write_finish file ref oldLen newLen nCopied r v fp) (λ v', L ++ wv_dirtyPtrs v').
Proof.
  intros Ht. unfold write_finish. apply tracks_tail.
  eapply (tracks_bind _ _ _ _ _ (λ _, L ++ wv_dirtyPtrs v)).
  { case_match; [|by apply tracks_ret].
    eapply (tracks_bind _ _ _ _ _ (λ _, L ++ wv_dirtyPtrs v)); [|intros ?; by apply tracks_ret].
    intros s [] s' [Hi Hd He] [= <-]. split; [done|done|]. intros ref' Hne. simpl.
    rewrite lookup_insert_ne by congruence. by apply He. }
  intros de. track;
    (eapply (tracks_bind _ _ _ _ _ (λ _, L ++ wv_dirtyPtrs v ++ [snd fp]));
      [apply tracks_cache; set_solver|intros ?; by apply tracks_ret]).
Qed.

Lemma tracks_step L uid ref data off v :
  tail ∈ L → tracks (L ++ wv_dirtyPtrs v) (write_step file uid ref data off v)
    (λ v', L ++ wv_dirtyPtrs v').
Proof.
  intros Ht. pose proof tracks_finish. assert (tail ∈ L ++ wv_dirtyPtrs v) by set_solver.
  unfold write_step. track.
Qed.

Lemma tracks_loop L fuel uid ref data off v :
  tail ∈ L → tracks (L ++ wv_dirtyPtrs v) (write_loop fuel file uid ref data off v)
    (λ v', L ++ wv_dirtyPtrs v').
Proof.
  intros Ht. revert v. induction fuel as [|fuel IH]; intros v; simpl; [apply tracks_panic|].
  case_match; [|by apply tracks_ret]. eapply tracks_bind; [by apply tracks_step|exact IH].
Qed.

Lemma tracks_last L v :
  tail ∈ L → tracks (L ++ wv_dirtyPtrs v) (write_last file v) (λ ptrs, L ++ ptrs).
Proof.
  intros Ht. unfold write_last. eapply tracks_bind; [solve [eauto with track]|]. intros top.
  case_match; [|by apply tracks_ret]. apply tracks_tail.
  eapply (tracks_bind _ _ _ _ _ (λ _, L ++ wv_dirtyPtrs v)); [apply tracks_cache; set_solver|].
  intros ?. apply tracks_ret. set_solver.
Qed.

Lemma tracks_body L uid ref data off fb de :
  tail ∈ L → tracks L (write_body file uid ref data off fb de) (λ ptrs, L ++ ptrs).
Proof.
  intros Ht. unfold write_body. eapply tracks_bind; [|intros v; by apply tracks_last].
  rewrite <- (app_nil_r L) at 1. by apply (tracks_loop L _ _ _ _ _ (MkWriteVars fb 0 de [])).
Qed.

Lemma tracks_getFile L rt : tracks L (getFileLocked file rt) (λ _, L).
Proof. unfold getFileLocked. track. Qed.
#[local] Hint Resolve tracks_getFile : track.

(** Every block of the file that [writeDataLocked] dirties, its top block
    aside, is new or is one it returns. *)
Lemma tracks_writeData L data off :
  tail ∈ L → tracks L (writeDataLocked file data off) (λ r, L ++ snd r).
Proof.
  intros Ht. unfold writeDataLocked. track.
  eapply tracks_bind; [by apply tracks_body|]. intros ptrs. track.
Qed.

(** Writing nothing dirties at most the top block. *)
Lemma tracks_writeNothing L off :
  tail ∈ L → tracks L (writeDataLocked file [] off) (λ _, L).
Proof.
  intros Ht. unfold writeDataLocked. track.
  eapply (tracks_bind _ _ _ _ _ (λ _, L)); [|intros ptrs; track].
  unfold write_body, write_fuel. simpl. eapply (tracks_bind _ _ _ _ _ (λ _, L)); [by apply tracks_ret|].
  intros v. unfold write_last. eapply tracks_bind; [solve [eauto with track]|]. intros top.
  case_match; [|by apply tracks_ret]. apply tracks_tail.
  eapply (tracks_bind _ _ _ _ _ (λ _, L)); [apply tracks_cache; set_solver|].
  intros ?. by apply tracks_ret.
Qed.

End writes.

(** ** Writes while the file is being synced *)

Definition is_write (op : file_op) : Prop :=
  match op with OpWrite _ _ => True | OpTruncate _ => False end.

Section during.
Context `{Config, Codec FileBlock, Codec DirBlock, !EncodeTotal FileBlock, !EncodeTotal DirBlock}.
Context (file : path) (tail dptr : BlockPointer) (name uname : string) (uid : UID) (N : nat).
Context (s0 : folderBlockOps).
Hypothesis Hpath : path_ok file tail dptr name.
Hypothesis Hcfg : config_ok uname uid.
Abbreviation file_ok := (file_ok file tail dptr name uid N).
Abbreviation being_synced := (being_synced file tail).
Abbreviation tracked := (tracked (path_branch file) tail s0).

(** What becomes dirty is the top block or will be deleted. *)
Abbreviation to_delete s := (tail :: fbo_deferredDirtyDeletes s).

Lemma Write_tracked s c data off s' :
  file_ok s c → being_synced s → (Z.of_nat off + zlen data <= cfg_MaxFileBytes)%Z →
  fbo_tempIDs s + write_cost data off <= N →
  Write file data (Z.of_nat off) s = (Ok tt, s') →
  tracked (to_delete s) s → tracked (to_delete s') s'.
Proof.
  intros Hf Hbs Hb Hbud Hw Ht.
  destruct (writeDataLocked_effect file tail dptr name uname uid N Hpath Hcfg s c data off Hf Hb Hbud)
    as (r & s1 & Hr & _ & Hf1 & _ & _ & Hdd & _ & _ & Hdef & _).
  unfold Write, pathFromNodeForBlockWriteLocked, reset_doDefer, mbind, go_bind in Hw.
  rewrite (po_valid _ _ _ _ Hpath) in Hw. simpl in Hw. rewrite Hr in Hw. injection Hw as <-.
  destruct (decide (data = [])) as [->|Hne].
  - eapply tracked_weaken; [|eapply (tracked_ext _ _ _ (to_delete s) s1); [simpl; case_match; simpl; done..|]].
    + simpl. case_match; simpl; rewrite Hdd; set_solver.
    + by eapply (tracks_writeNothing file tail s0 (po_tail _ _ _ _ Hpath)); [left|exact Ht|exact Hr].
  - rewrite (Hdef Hne Hbs). simpl.
    eapply (tracked_ext _ _ _ _ s1); [done..|]. rewrite Hdd.
    by eapply (tracks_writeData file tail s0 (po_tail _ _ _ _ Hpath) (to_delete s)); [left|exact Ht|exact Hr].
Qed.

Lemma writes_tracked ops s c s' :
  Forall is_write ops → file_ok s c → fbo_doDeferWrite s = false → being_synced s →
  Forall op_bounded ops → fbo_tempIDs s + sum_list_with op_cost ops <= N →
  go_for ops (op_run file) s = (Ok tt, s') →
  tracked (to_delete s) s → tracked (to_delete s') s'.
Proof.
  intros Hw. revert s c. induction Hw as [|op ops Hop _ IH]; intros s c Hf Hfl Hbs Hb Hbud Hr Ht;
    cbn [sum_list_with] in Hbud.
  { by injection Hr as <-. }
  inversion_clear Hb as [|?? Hb1 Hb2]. destruct op as [data off|]; [|done].
  destruct (op_run_result file tail dptr name uname uid N Hpath Hcfg s c (OpWrite data off) Hf Hfl Hb1)
    as ([] & s1 & Hr1 & Hf1 & _ & Hfl1 & _ & _ & _ & Hbs1 & Hid1); [lia|].
  cbn [go_for] in Hr. unfold mbind, go_bind in Hr. rewrite Hr1 in Hr.
  eapply (IH s1); [exact Hf1|done|by apply Hbs1|done|lia|done|].
  eapply Write_tracked; [exact Hf|done|done|cbn [op_cost] in Hbud; lia|exact Hr1|done].
Qed.

End during.

(** ** What is left after the old blocks are dropped *)

(** The blocks and entries of [s] without anything dirty: what the server
    and the clean cache hold. *)
Definition all_clean (s : folderBlockOps) : folderBlockOps :=
  MkFbo ∅ ∅ ∅ ∅ ∅ [] [] false [] (fbo_tempIDs s).

Lemma go_for_DeleteDirty ptrs branch s :
  ∃ d, go_for ptrs (λ ptr, bcache_DeleteDirty ptr branch) s = (Ok tt, set_dirty (λ _, d) s) ∧
    ∀ k a, d !! k = Some a → fbo_dirty s !! k = Some a ∧ ∀ p, p ∈ ptrs → k ≠ dirty_key p branch.
Proof.
  revert s. induction ptrs as [|p ptrs IH]; intros s.
  { exists (fbo_dirty s). split; [by destruct s|]. set_solver. }
  destruct (IH (set_dirty (delete (dirty_key p branch)) s)) as (d & Hd & Hk). exists d.
  split; [etrans; [|exact Hd]; done|]. intros k a [Ha Hp]%Hk. simpl in Ha.
  apply lookup_delete_Some in Ha as [Hne Ha]. split; [done|]. set_solver.
Qed.

Lemma finish_cleanup_result `{Config} branch oldPath tail ptrs s :
  tailPointer oldPath = Ok tail →
  ∃ s1, finish_cleanup branch oldPath ptrs s = (Ok (fbo_deferredWrites s), s1) ∧
    fbo_heap s1 = fbo_heap s ∧ fbo_fileBlockStates s1 = ∅ ∧ fbo_tempIDs s1 = fbo_tempIDs s ∧
    fbo_deCache s1 = delete (BlockPointer_ref tail) (fbo_deCache s) ∧
    ∀ k a, fbo_dirty s1 !! k = Some a → fbo_dirty s !! k = Some a ∧
      ∀ p, p ∈ ptrs ++ fbo_deferredDirtyDeletes s → k ≠ dirty_key p branch.
Proof.
  intros Ht. destruct (go_for_DeleteDirty ptrs branch s) as (d1 & E1 & H1).
  set (s2 := set_deferred [] [] (set_fileBlockStates (λ _, ∅) (set_dirty (λ _, d1) s))).
  destruct (go_for_DeleteDirty (fbo_deferredDirtyDeletes s) branch s2) as (d2 & E2 & H2).
  eexists. split.
  { unfold finish_cleanup, mbind, go_bind. rewrite E1. simpl. fold s2. rewrite E2.
    unfold clearCacheInfoLocked, mbind, go_bind. rewrite Ht. reflexivity. }
  simpl. split_and!; [done..|]. intros k a [[Ha Hk1]%H1 Hk2]%H2. split; [done|].
  intros p [Hp|Hp]%elem_of_app; eauto.
Qed.

Section after.
Context `{Config, Codec FileBlock, Codec DirBlock, !EncodeTotal FileBlock, !EncodeTotal DirBlock}.
Context (file : path) (tail dptr : BlockPointer) (name : string) (uid : UID) (N : nat).
Abbreviation key p := (dirty_key p (path_branch file)).

(** Dirty blocks that are not the file's do not matter to it. *)
Lemma file_ok_clean u s c :
  file_ok file tail dptr name uid N (all_clean u) c →
  fbo_tempIDs u <= fbo_tempIDs s <= N → fbo_fileBlockStates s = ∅ →
  fbo_deCache s !! BlockPointer_ref tail = None →
  (∀ k1 k2 a, fbo_dirty s !! k1 = Some a → fbo_dirty s !! k2 = Some a → k1 = k2) →
  (∀ k a, fbo_dirty s !! k = Some a → is_Some (fbo_heap s !! a)) →
  (∀ n id k, fbo_tempIDs s <= n < N → cfg_TempID n = Ok id → is_Some (fbo_dirty s !! k) → dbi_id k ≠ id) →
  (∀ top p, fview (path_branch file) (all_clean u) tail = Some top →
     p ∈ dptr :: own_ptrs tail top → fbo_dirty s !! key p = None) →
  file_ok file tail dptr name uid N s c.
Proof.
  intros (top & cs & de & Hc & Hlen & Hcs & _ & _ & Hv & Hrep & _ & [_ Hids] & Hk & Hde & Hsz)
    Hid Est Ede Hi Hd Hfr Hcl.
  specialize (Hcl top). assert (∀ p, p ∈ own_ptrs tail top →
    fview (path_branch file) s p = fview (path_branch file) (all_clean u) p) as Hview.
  { intros p Hp. unfold fview. simpl. rewrite Hcl; [done|done|by right]. }
  exists top, cs, de. split_and!; try done.
  - rewrite Hview; [done|left].
  - unfold top_rep, ind_rep, child_ok in *. destruct (fb_IsInd top) eqn:Ei; [|done].
    destruct Hrep as (? & ? & ? & Hch). split_and!; try done. intros i p c' Hp Hc'.
    destruct (Hch i p c' Hp Hc') as (_ & Hva & Hb). split_and!; try done. intros Hs.
    rewrite Hview; [by apply Hb|]. unfold own_ptrs. rewrite Ei. right.
    by eapply list_elem_of_fmap_2, list_elem_of_lookup_2.
  - intros p _. unfold fileBlockState. by rewrite Est, lookup_empty.
  - split; [lia|]. intros n Hn. destruct (Hids n ltac:(simpl; lia)) as (id & Hnid & Hva & _ & _ & _ & Hp).
    exists id. split_and!; try done; [intros k; by eapply Hfr|].
    rewrite Est. intros p. rewrite lookup_empty. by intros [].
  - destruct Hde as (d & v & Hd1 & Hd2 & Hd3 & Hd4 & Hd5). exists d, v.
    assert (dview (path_branch file) s dptr = Some d) as ->.
    { rewrite <- Hd1. unfold dview. simpl. rewrite Hcl; [done|done|left]. }
    by rewrite Ede.
Qed.

Lemma file_ok_fresh s c top p n id :
  file_ok file tail dptr name uid N s c → fview (path_branch file) s tail = Some top →
  p ∈ dptr :: own_ptrs tail top → fbo_tempIDs s <= n < N → cfg_TempID n = Ok id → bp_ID p ≠ id.
Proof.
  intros (top' & cs & de & _ & _ & _ & _ & _ & Hv' & _ & _ & [_ Hids] & _) Hv Hp Hn Hid.
  rewrite Hv in Hv'. simplify_eq. destruct (Hids n Hn) as (id' & Hid' & _ & _ & _ & _ & Hfr).
  rewrite Hid in Hid'. simplify_eq. apply Hfr. unfold own_ptrs, file_ptrs in *.
  destruct (fb_IsInd top'); set_solver.
Qed.

End after.

(** C18. No write is lost to a sync.  Let [ops], writes within the limits,
    run on a file with contents [c] while it is being synced, from an
    empty queue.  Suppose that the sync uploaded [c] to the new path (read
    with nothing dirty, the new path has [c]), that the file's dirty
    blocks of before the writes are among the pointers given to
    [FinishSync] as far as they are blocks of the new file, and that the
    new top block is not the old one.  Then the writes succeed,
    [FinishSync] returns, and the file reads at the new path as it did at
    the old path after the writes, namely as [c] with the writes made.
    (A truncate in the sequence can be lost: see
    [truncate_during_sync_lost].) *)
Theorem FinishSync_keeps_writes `{Config, Codec FileBlock, Codec DirBlock,
    !EncodeTotal FileBlock, !EncodeTotal DirBlock} uname uid N
    oldPath tail dptr name newPath tail' dptr' name' ops s c ptrs :
  config_ok uname uid → path_ok oldPath tail dptr name → path_ok newPath tail' dptr' name' →
  path_branch newPath = path_branch oldPath →
  file_ok oldPath tail dptr name uid N s c → being_synced oldPath tail s →
  fbo_doDeferWrite s = false → fbo_deferredWrites s = [] →
  Forall is_write ops → Forall op_bounded ops →
  fbo_tempIDs s + 2 * sum_list_with op_cost ops <= N →
  file_ok newPath tail' dptr' name' uid N (all_clean s) c →
  tail ∈ ptrs →
  (∀ top p, fview (path_branch newPath) (all_clean s) tail' = Some top →
     p ∈ dptr' :: own_ptrs tail' top →
     is_Some (fbo_dirty s !! dirty_key p (path_branch newPath)) → p ∈ ptrs) →
  BlockPointer_ref tail' ≠ BlockPointer_ref tail →
  fbo_deCache s !! BlockPointer_ref tail' = None →
  ∃ s' dirty s2, go_for ops (op_run oldPath) s = (Ok tt, s') ∧
    file_ok oldPath tail dptr name uid N s' (foldl op_spec c ops) ∧
    FinishSync (path_branch oldPath) oldPath newPath ptrs s' = (Ok dirty, s2) ∧
    file_ok newPath tail' dptr' name' uid N s2 (foldl op_spec c ops).
Proof.
  intros Hcfg Hp Hp' Hbr Hf Hbs Hfl Hq Hw Hb Hbud Hup Htl Hold Hne Hde.
  destruct (ops_run_result _ _ _ _ _ _ _ Hp Hcfg ops s c Hf Hfl Hb ltac:(lia))
    as ([] & s' & Hr & Hf' & _ & Hid' & Hd).
  destruct (Hd Hbs) as (qs & Hqs & Hsub & Heq). rewrite Hq in Hqs. simpl in Hqs.
  pose proof (writes_tracked _ _ _ _ _ _ _ s Hp Hcfg ops s c s' Hw Hf Hfl Hbs Hb ltac:(lia) Hr
    (tracked_refl _ _ _ _)) as Htr.
  destruct (finish_cleanup_result (path_branch oldPath) oldPath tail ptrs s' (po_tail _ _ _ _ Hp))
    as (s1 & Hcl & Eh & Est & Eid & Ede & Hdirty).
  assert (file_ok newPath tail' dptr' name' uid N s1 c) as Hf1.
  { destruct Hf' as (top' & cs & de & _ & _ & _ & Hi & Hdh & _ & _ & _ & [_ Hids'] & _).
    eapply (file_ok_clean newPath tail' dptr' name' uid N s); try done.
    - destruct Htr. lia.
    - rewrite Ede, lookup_delete_ne by done. by rewrite (tr_entry _ _ _ _ _ Htr).
    - intros k1 k2 a [X1 _]%Hdirty [X2 _]%Hdirty. by eapply Hi.
    - rewrite Eh. intros k a [X1 _]%Hdirty. by eapply Hdh.
    - rewrite Eid. intros n id k Hn Hnid [a [Ha _]%Hdirty].
      destruct (Hids' n Hn) as (id' & Hid1 & _ & _ & Hk & _). rewrite Hnid in Hid1. simplify_eq. eauto.
    - intros top p Hv Hin. destruct (fbo_dirty s1 !! _) as [a|] eqn:Ea; [exfalso|done].
      apply Hdirty in Ea as [Ea Hdel]. rewrite Hbr in *. setoid_rewrite elem_of_app in Hdel.
      destruct (tr_dirty _ _ _ _ _ Htr _ ltac:(by eexists)) as [Hs0|[(q & Hql & Hqk)|Hfr]].
      + eapply Hdel; [left; by eapply Hold|done].
      + apply elem_of_cons in Hql as [->|Hql]; eapply Hdel; eauto.
      + destruct Hfr as (n & id & u & Hn & Hnid & [= Hpid]).
        eapply (file_ok_fresh newPath tail' dptr' name' uid N (all_clean s)); try done.
        simpl. lia. }
  destruct (run_deferreds_result _ _ _ _ _ _ _ Hp' Hcfg qs s1 c Hf1) as ([] & s2 & Hr2 & Hf2).
  { by eapply Forall_sublist. }
  { pose proof (sum_list_with_sublist op_cost _ _ Hsub). lia. }
  exists s', (bool_decide (length (fbo_deferredWrites s') ≠ 0)), s2. rewrite <- Heq at 2.
  split_and!; [done..| |done]. unfold FinishSync, mbind, go_bind. by rewrite Hcl, Hqs, Hr2.
Qed.
