(* ===== verification/FileExamples.v ===== *)
(** * FileExamples: a folder with one file

    A configuration with blocks of four bytes, a directory with a file
    ["f"] before and after a sync, and the witnesses that the theorems of
    [FileRefinement] and [SyncWrites] apply to it. *)

From Stdlib Require Import ZArith Lia.
From S2P Require Import Prelude Types Errors GoStd Ids CryptoCommon Splitter DataTypes Ops FolderBlocks FileIO Examples FileChunks FolderBlocksSpec FileIOSpec FileRefinement SyncWrites.

#[global] Instance FileBlock_encode_total : EncodeTotal FileBlock.
Proof. intros b. by eexists. Qed.
#[global] Instance DirBlock_encode_total : EncodeTotal DirBlock.
Proof. intros b. by eexists. Qed.

(** ** The configuration *)

(** An id with a kind and a number. *)
Definition ex_id (kind : byte) (n : nat) : BlockID :=
  MkBlockID (MkHash (string_of_bytes (x01 :: replicate 30 x00 ++ [kind; to_byte (Z.of_nat n)]))).
Definition ex_ptr (n : nat) : BlockPointer :=
  MkBlockPointer (ex_id x01 n) 1%Z 1%Z "u" EmptyString zeroBlockRefNonce.
Definition ex_contents : list byte := bytes_of_string "abc".
Definition ex_entry (n : nat) : DirEntry :=
  MkDirEntry (MkBlockInfo (ex_ptr n) 10%Z) (MkEntryInfo File 3%Z "" 0%Z 0%Z).
Definition ex_dir (n : nat) : DirBlock := MkDirBlock (MkCommonBlock false 0%Z) {[ "f" := ex_entry n ]} [].
Definition ex_block : FileBlock := MkFileBlock (MkCommonBlock false 7%Z) ex_contents [].

(** Directory [0] has file [1] before the sync, directory [2] has file
    [3] after it. *)
Definition ex_get (p : BlockPointer) : res Block :=
  if decide (p = ex_ptr 0) then Ok (DirB (ex_dir 1))
  else if decide (p = ex_ptr 2) then Ok (DirB (ex_dir 3))
  else if decide (p = ex_ptr 1 ∨ p = ex_ptr 3) then Ok (FileB ex_block)
  else Err (NoSuchBlockError (bp_ID p)).

#[local] Instance ex_config : Config := {|
  cfg_MaxFileBytes := 1000%Z; cfg_BlockSplitter := MkBlockSplitterSimple 4%Z 10%Z;
  cfg_CurrentUser := Ok ("alice", "u"); cfg_IsWriter := λ _, true;
  cfg_LatestKeyGeneration := 1%Z; cfg_DataVersion := 1%Z;
  cfg_Get := λ p _, ex_get p;
  cfg_TempID n := if decide (n < 200) then Ok (ex_id x02 n) else Err UnexpectedShortCryptoRandRead
|}.

Definition ex_path (dir file : nat) : path :=
  MkPath (MkFolderBranch NullTlfID MasterBranch)
    [MkPathNode (ex_ptr dir) "d"; MkPathNode (ex_ptr file) "f"].

(** Nothing is dirty. *)
Definition ex_clean : folderBlockOps := MkFbo ∅ ∅ ∅ ∅ ∅ [] [] false [] 0.

(** The file is dirty, and a sync is uploading it. *)
Definition ex_syncing : folderBlockOps :=
  MkFbo {[ 1%positive := FileB ex_block ]} {[ dirty_key (ex_ptr 1) MasterBranch := 1%positive ]}
    {[ ex_ptr 1 := blockSyncingNotDirty ]} ∅ ∅ [] [] false [] 0.

Lemma ex_ids_all : forallb (λ n,
  BlockID_IsValid (ex_id x02 n) && forallb (λ k, bool_decide (ex_id x01 k ≠ ex_id x02 n)) [0; 1; 2; 3]
  && bool_decide (list_find (λ k, ex_id x02 k = ex_id x02 n) (seq 0 200) = Some (n, n))) (seq 0 200) = true.
Proof. vm_compute. reflexivity. Qed.

Lemma ex_ids n : n < 200 → BlockID_IsValid (ex_id x02 n) = true ∧
  (∀ k, k ∈ [0; 1; 2; 3] → ex_id x01 k ≠ ex_id x02 n) ∧
  list_find (λ k, ex_id x02 k = ex_id x02 n) (seq 0 200) = Some (n, n).
Proof.
  intros Hn. pose proof ex_ids_all as Ha. rewrite forallb_forall in Ha.
  specialize (Ha n ltac:(apply in_seq; lia)).
  apply andb_true_iff in Ha as [[? Hk]%andb_true_iff ?%bool_decide_eq_true_1]. split_and!; [done| |done].
  intros k Hin. rewrite forallb_forall in Hk. apply list_elem_of_In in Hin.
  by specialize (Hk k Hin) as ?%bool_decide_eq_true_1.
Qed.

Lemma ex_config_ok : config_ok "alice" "u".
Proof.
  split; [done..|]. intros n1 n2 id. unfold cfg_TempID, ex_config.
  destruct (decide (n1 < 200)) as [H1|]; [|done]. destruct (decide (n2 < 200)) as [H2|]; [|done].
  intros E1 E2. assert (ex_id x02 n1 = ex_id x02 n2) as E by congruence.
  destruct (ex_ids n1 H1) as (_ & _ & F1), (ex_ids n2 H2) as (_ & _ & F2). rewrite E in F1. congruence.
Qed.

Lemma ex_path_ok d f : (d, f) = (0, 1) ∨ (d, f) = (2, 3) →
  path_ok (ex_path d f) (ex_ptr f) (ex_ptr d) "f".
Proof.
  intros [[= -> ->]|[= -> ->]]; (split; [vm_compute; reflexivity|done..|]);
    eexists; (split_and!; [reflexivity|vm_compute; reflexivity|reflexivity]).
Qed.

(** ** The file *)

(** The parts of [file_ok] that the two states share. *)
Lemma ex_file_ok s d f :
  (d, f) = (0, 1) ∨ (d, f) = (2, 3) →
  (∀ k1 k2 a, fbo_dirty s !! k1 = Some a → fbo_dirty s !! k2 = Some a → k1 = k2) →
  (∀ k a, fbo_dirty s !! k = Some a → is_Some (fbo_heap s !! a)) →
  (∀ k, is_Some (fbo_dirty s !! k) → dbi_id k = ex_id x01 f) →
  (∀ p, is_Some (fbo_fileBlockStates s !! p) → bp_ID p = ex_id x01 f) →
  fview MasterBranch s (ex_ptr f) = Some ex_block →
  (fileBlockState (ex_ptr f) s = blockSyncingNotDirty →
     is_Some (fbo_dirty s !! dirty_key (ex_ptr f) MasterBranch)) →
  dir_ok (ex_path d f) (ex_ptr f) (ex_ptr d) "f" s (ex_entry f) → fbo_tempIDs s <= 200 →
  file_ok (ex_path d f) (ex_ptr f) (ex_ptr d) "f" "u" 200 s ex_contents.
Proof.
  intros Hdf Hi Hd Hdk Hsk Hv Hsy Hdir Hid. exists ex_block, [ex_contents], (ex_entry f).
  assert (d ∈ [0; 1; 2; 3] ∧ f ∈ [0; 1; 2; 3] ∧ ex_id x01 f ≠ ex_id x01 d) as (Hdi & Hfi & Hne).
  { destruct Hdf as [[= -> ->]|[= -> ->]]; (split_and!; [set_solver..|done]). }
  split_and!; try done.
  - split; [done|]. intros i c. destruct i as [|i]; [|done]. intros [= <-]. simpl. lia.
  - intros p [->|[]%elem_of_nil]%elem_of_cons. done.
  - split; [simpl; lia|]. intros n Hn. destruct (ex_ids n ltac:(lia)) as (Hva & Hk & _).
    exists (ex_id x02 n). split_and!; try done.
    + simpl. by rewrite decide_True by lia.
    + intros k Hkk. rewrite (Hdk k Hkk). by apply Hk.
    + intros p Hp. rewrite (Hsk p Hp). by apply Hk.
    + intros p Hp. apply Hk in Hdi, Hfi. unfold file_ptrs in Hp. simpl in Hp.
      by repeat apply elem_of_cons in Hp as [->|Hp]; [..|by apply not_elem_of_nil in Hp].
  - intros p [->|[]%elem_of_nil]%elem_of_cons Hc. by apply (f_equal dbi_id) in Hc.
Qed.

Lemma ex_clean_ok s d f :
  (d, f) = (0, 1) ∨ (d, f) = (2, 3) → fbo_dirty s = ∅ → fbo_fileBlockStates s = ∅ →
  fbo_deCache s !! BlockPointer_ref (ex_ptr f) = None → fbo_tempIDs s <= 200 →
  file_ok (ex_path d f) (ex_ptr f) (ex_ptr d) "f" "u" 200 s ex_contents.
Proof.
  intros Hdf Ed Es Ec Hid. apply ex_file_ok; rewrite ?Ed; try done.
  - by intros k [? Hk%lookup_empty_Some].
  - rewrite Es. by intros k [? Hk%lookup_empty_Some].
  - unfold fview. rewrite Ed, lookup_empty. by destruct Hdf as [[= -> ->]|[= -> ->]].
  - unfold fileBlockState. by rewrite Es, lookup_empty.
  - exists (ex_dir f), (ex_entry f). unfold dview. rewrite Ed, lookup_empty, Ec.
    by destruct Hdf as [[= -> ->]|[= -> ->]].
Qed.

Lemma ex_syncing_ok :
  file_ok (ex_path 0 1) (ex_ptr 1) (ex_ptr 0) "f" "u" 200 ex_syncing ex_contents.
Proof.
  apply ex_file_ok; simpl; try done.
  - by left.
  - by intros k1 k2 a [<- <-]%lookup_singleton_Some [<- _]%lookup_singleton_Some.
  - by intros k a [<- <-]%lookup_singleton_Some.
  - by intros k [a [<- <-]%lookup_singleton_Some].
  - by intros k [a [<- <-]%lookup_singleton_Some].
  - by exists (ex_dir 1), (ex_entry 1).
  - lia.
Qed.

(** ** Witnesses *)

Lemma run_ok {S A} (m : go S A) s a : fst (m s) = Ok a → m s = (Ok a, snd (m s)).
Proof. intros <-. by destruct (m s). Qed.

Lemma ex_being_synced : being_synced (ex_path 0 1) (ex_ptr 1) ex_syncing.
Proof.
  split; [unfold ex_syncing; simpl; by rewrite lookup_singleton_eq|].
  unfold fileBlockState, ex_syncing. simpl. by rewrite lookup_singleton_eq.
Qed.

Lemma ex_syncing_view : fview MasterBranch ex_syncing (ex_ptr 1) = Some ex_block.
Proof. unfold fview, ex_syncing. simpl. by rewrite lookup_singleton_eq. Qed.

Definition ex_clean_file_ok : file_ok (ex_path 0 1) (ex_ptr 1) (ex_ptr 0) "f" "u" 200 ex_clean ex_contents :=
  ex_clean_ok ex_clean 0 1 (or_introl eq_refl) eq_refl eq_refl eq_refl (Nat.le_0_l 200).
Definition ex_old_path_ok : path_ok (ex_path 0 1) (ex_ptr 1) (ex_ptr 0) "f" :=
  ex_path_ok 0 1 (or_introl eq_refl).
Definition ex_new_path_ok : path_ok (ex_path 2 3) (ex_ptr 3) (ex_ptr 2) "f" :=
  ex_path_ok 2 3 (or_intror eq_refl).

(** Reading two bytes at offset 1. *)
Lemma Read_refines_witness : ∃ s',
  Read (ex_path 0 1) (zeros 5) 1 ex_clean = (Ok (2%Z, [x62; x63; x00; x00; x00]), s').
Proof.
  destruct (Read_refines _ _ _ _ _ _ 200 ex_old_path_ok ex_config_ok ex_clean ex_contents (zeros 5) 1
    ex_clean_file_ok ltac:(vm_compute; reflexivity)) as (s' & Hr & _).
  exists s'. exact Hr.
Defined.



Definition ex_ops : list file_op := [OpWrite [x41; x42; x43] 3; OpTruncate 5; OpTruncate 8; OpWrite [] 2].


(** The block being uploaded keeps its contents while a write goes to a
    copy. *)
Lemma ops_keep_synced_blocks_witness : ∃ s',
  Write (ex_path 0 1) [x41] 0 ex_syncing = (Ok tt, s') ∧
  fbo_heap s' !! 1%positive = Some (FileB ex_block).
Proof.
  assert (Write (ex_path 0 1) [x41] (Z.of_nat 0) ex_syncing =
    (Ok tt, snd (Write (ex_path 0 1) [x41] (Z.of_nat 0) ex_syncing))) as Hw
    by (apply run_ok; vm_compute; reflexivity).
  destruct (ops_keep_synced_blocks _ _ _ _ _ _ 200 ex_old_path_ok ex_config_ok (OpWrite [x41] 0)
    ex_syncing ex_contents _ ex_block ex_syncing_ok
    eq_refl ltac:(done) ltac:(vm_compute; lia) ex_syncing_view Hw) as [Hs _].
  exists (snd (Write (ex_path 0 1) [x41] (Z.of_nat 0) ex_syncing)). split; [exact Hw|].
  apply (Hs (ex_ptr 1) 1%positive); [left|..]; unfold fileBlockState, ex_syncing; simpl;
    by rewrite lookup_singleton_eq.
Defined.

(** Two writes during a sync of file [1], replayed on file [3]. *)
Lemma FinishSync_keeps_writes_witness :
  let ops := [OpWrite [x41; x42; x43] 3; OpWrite [x44] 1] in
  ∃ s' dirty s2, go_for ops (op_run (ex_path 0 1)) ex_syncing = (Ok tt, s') ∧
    FinishSync MasterBranch (ex_path 0 1) (ex_path 2 3) [ex_ptr 1] s' = (Ok dirty, s2) ∧
    file_ok (ex_path 2 3) (ex_ptr 3) (ex_ptr 2) "f" "u" 200 s2 [x61; x44; x63; x41; x42; x43].
Proof.
  intros ops.
  assert (file_ok (ex_path 2 3) (ex_ptr 3) (ex_ptr 2) "f" "u" 200 (all_clean ex_syncing) ex_contents) as Hup
    by (apply ex_clean_ok; [by right|vm_compute; reflexivity..|apply Nat.leb_le; vm_compute; reflexivity]).
  destruct (FinishSync_keeps_writes "alice" "u" 200 (ex_path 0 1) (ex_ptr 1) (ex_ptr 0) "f" (ex_path 2 3)
    (ex_ptr 3) (ex_ptr 2) "f" ops ex_syncing ex_contents [ex_ptr 1] ex_config_ok ex_old_path_ok
    ex_new_path_ok eq_refl ex_syncing_ok ex_being_synced eq_refl eq_refl
    ltac:(by repeat constructor) ltac:(by repeat constructor)
    ltac:(apply Nat.leb_le; vm_compute; reflexivity) Hup ltac:(left))
    as (s' & d & s2 & Hr & _ & Hfs & Hf).
  - intros top p Hv Hp [a Ha]. exfalso.
    assert (top = ex_block) as -> by (injection Hv as <-; reflexivity).
    apply elem_of_cons in Hp as [->|[->|[]%elem_of_nil]%elem_of_cons]; vm_compute in Ha; discriminate.
  - discriminate.
  - reflexivity.
  - exists s', d, s2. split; [exact Hr|]. split; [exact Hfs|exact Hf].
Defined.

(** A write of 3 bytes at 999 is over the limit of 1000. *)
Lemma Write_refuses_witness :
  Write (ex_path 0 1) [x41; x42; x43] 999 ex_clean =
  (Err (FileTooBigError (ex_path 0 1) 1002 1000), ex_clean).
Proof.
  destruct (Write_refuses (ex_path 0 1) [x41; x42; x43] 999 ex_clean eq_refl ltac:(done) ltac:(done))
    as (_ & Hbig & _).
  apply Hbig; [apply (po_valid _ _ _ _ ex_old_path_ok)|by right].
Defined.

(** A file whose top block refers to a block that is gone. *)
Definition ex_broken : folderBlockOps :=
  MkFbo {[ 1%positive := FileB (MkFileBlock (MkCommonBlock true 0%Z) []
             [MkIndirectFilePtr (MkBlockInfo (ex_ptr 9) 0%Z) 0%Z]) ]}
    {[ dirty_key (ex_ptr 1) MasterBranch := 1%positive ]} ∅ ∅ ∅ [] [] false [] 0.

Lemma truncateLocked_unchecked_error_witness :
  truncateLocked (ex_path 0 1) 2 ex_broken = (Panic "nil pointer dereference", ex_broken).
Proof.
  apply (truncateLocked_unchecked_error (ex_path 0 1) 2 "alice" "u" 1%positive ex_broken ex_broken
    ex_broken (NoSuchBlockError (ex_id x01 9))); [done..|vm_compute; reflexivity|vm_compute; reflexivity].
Defined.

(** ** A truncate during a sync that is lost *)

Module SyncTruncate.

Definition iptr (n : nat) (size off : Z) : IndirectFilePtr :=
  MkIndirectFilePtr (MkBlockInfo (ex_ptr n) size) off.
Definition leaf (s : string) : Block := FileB (MkFileBlock (MkCommonBlock false 7%Z) (bytes_of_string s) []).
Definition top : FileBlock := MkFileBlock (MkCommonBlock true 0%Z) [] [iptr 4 9 0; iptr 8 9 4].
Definition entry (n : nat) : DirEntry :=
  MkDirEntry (MkBlockInfo (ex_ptr n) 10%Z) (MkEntryInfo File 8%Z "" 0%Z 0%Z).
Definition dir (n : nat) : Block := DirB (MkDirBlock (MkCommonBlock false 0%Z) {[ "f" := entry n ]} []).

(** The file was synced from the top block [6] to the top block [7], its
    second block from [5] to [8]; its first block [4] did not change. *)
Definition get_block (p : BlockPointer) : res Block :=
  if decide (p = ex_ptr 4) then Ok (leaf "abcd")
  else if decide (p = ex_ptr 8) then Ok (leaf "efgh")
  else if decide (p = ex_ptr 7) then Ok (FileB top)
  else if decide (p = ex_ptr 9) then Ok (dir 6)
  else if decide (p = ex_ptr 10) then Ok (dir 7)
  else Err (NoSuchBlockError (bp_ID p)).

#[local] Instance config : Config := {|
  cfg_MaxFileBytes := 1000%Z; cfg_BlockSplitter := MkBlockSplitterSimple 4%Z 10%Z;
  cfg_CurrentUser := Ok ("alice", "u"); cfg_IsWriter := λ _, true;
  cfg_LatestKeyGeneration := 1%Z; cfg_DataVersion := 1%Z;
  cfg_Get := λ p _, get_block p;
  cfg_TempID n := Ok (ex_id x02 n)
|}.

(** During the sync: the top block, with its new pointers, and the old
    second block are dirty and being uploaded. *)
Definition syncing : folderBlockOps :=
  MkFbo {[ 1%positive := FileB top; 2%positive := leaf "efgh" ]}
    {[ dirty_key (ex_ptr 6) MasterBranch := 1%positive; dirty_key (ex_ptr 5) MasterBranch := 2%positive ]}
    {[ ex_ptr 6 := blockSyncingNotDirty; ex_ptr 5 := blockSyncingNotDirty ]} ∅ ∅ [] [] false [] 0.

(** Truncate the file to two bytes during the sync, finish the sync, and
    read the second block of the synced file and the size of its entry. *)
Definition run : res (bool * (Z * list byte) * Z) :=
  fst ((_ ← Truncate (ex_path 9 6) 2;
        dirty ← FinishSync MasterBranch (ex_path 9 6) (ex_path 10 7) [ex_ptr 5; ex_ptr 6];
        r ← Read (ex_path 10 7) (zeros 4) 4;
        de ← getDirtyEntryLocked (ex_path 10 7);
        mret (dirty, r, ei_Size (de_EntryInfo de))) syncing).

End SyncTruncate.

(** A truncate that shrinks the file while it is being synced is
    lost: [truncateLocked] does not report the block it cut, so
    [FinishSync] leaves the cut block in the dirty cache, and replaying
    the truncate on the synced file finds a block that already ends at
    the new size and does nothing.  The file, truncated to 2 bytes during
    the sync, still has its second block and its size of 8 bytes. *)
Theorem truncate_during_sync_lost :
  SyncTruncate.run = Ok (true, (4%Z, bytes_of_string "efgh"), 8%Z).
Proof. vm_compute. reflexivity. Qed.
