(* ===== verification/BServer.v ===== *)
(** * BServer: the local block server

    [libkbfs/bserver_local_storage.go] and [bserver_local.go]: blocks
    with their reference nonces, stored in memory, in files, or in a
    LevelDB database, behind the interface [bserverLocalStorage]; and
    [BlockServerLocal], which is written against the interface.  The
    in-memory storage is the specification; the encoded storages refine
    it, so does the server on top of any of them.  The disk of the file
    storage is a map from paths to contents on which every operation
    succeeds: that a file does not exist is its only error, the directories
    are there ([os.MkdirAll]), and other file errors are not modelled. *)

From Stdlib Require Import ZArith Lia.
From S2P Require Import Prelude Types Errors GoStd Ids CryptoCommon.

Inductive blockRefLocalStatus := noBlockRef | liveBlockRef | archivedBlockRef.

#[global] Instance blockRefLocalStatus_eq_dec : EqDecision blockRefLocalStatus.
Proof. solve_decision. Defined.

Record blockEntry := MkBlockEntry {
  be_BlockData : list byte;
  be_Refs : gmap BlockRefNonce blockRefLocalStatus;
  be_KeyServerHalf : list byte;
  be_Tlf : TlfID
}.

Definition set_Refs (e : blockEntry) refs : blockEntry :=
  MkBlockEntry (be_BlockData e) refs (be_KeyServerHalf e) (be_Tlf e).

Definition BlockRefNonce_String (n : BlockRefNonce) : string := EncodeToString n.

(** The interface. *)
Class bserverLocalStorage (St : Type) := {
  storage_get : BlockID → go St blockEntry;
  storage_getAll : TlfID → go St (gmap BlockID (gmap BlockRefNonce blockRefLocalStatus));
  storage_put : BlockID → blockEntry → go St unit;
  storage_addReference : BlockID → BlockRefNonce → go St unit;
  storage_removeReference : BlockID → BlockRefNonce → go St Z;
  storage_archiveReference : BlockID → BlockRefNonce → go St unit
}.

(** The texts of the errors. *)
Definition no_such_block_to (what : string) (id : BlockID) : error :=
  BServerErrorBlockNonExistent
    ("Block ID " +:+ BlockID_String id +:+ " doesn't exist and cannot be " +:+ what +:+ ".").

Definition no_such_ref_to_archive (id : BlockID) (refNonce : BlockRefNonce) : error :=
  BServerErrorBlockNonExistent
    ("Block ID " +:+ BlockID_String id +:+ " (ref " +:+ BlockRefNonce_String refNonce +:+
     ") doesn't exist and cannot be archived.").

Definition archived_block (id : BlockID) : error :=
  BServerErrorBlockArchived
    ("Block ID " +:+ BlockID_String id +:+ " has been archived and cannot be referenced.").

(** [for _, status := range entry.Refs { if status == liveBlockRef ...] *)
Definition has_live_ref (refs : gmap BlockRefNonce blockRefLocalStatus) : bool :=
  existsb (λ st, bool_decide (st = liveBlockRef)) (snd <$> map_to_list refs).

(** ** In memory *)

Abbreviation bserverMemStorage := (gmap BlockID blockEntry).

Definition mem_get (id : BlockID) : go bserverMemStorage blockEntry := λ m,
  match m !! id with
  | None => (Err (BServerErrorBlockNonExistent ""), m)
  | Some entry => (Ok entry, m)
  end.

Definition mem_getAll (tlf : TlfID)
    : go bserverMemStorage (gmap BlockID (gmap BlockRefNonce blockRefLocalStatus)) := λ m,
  (Ok (be_Refs <$> filter (λ e, be_Tlf e.2 = tlf) m), m).

Definition mem_put (id : BlockID) (entry : blockEntry) : go bserverMemStorage unit :=
  modify (<[id := entry]>).

Definition mem_addReference (id : BlockID) (refNonce : BlockRefNonce)
    : go bserverMemStorage unit := λ m,
  match m !! id with
  | None => (Err (no_such_block_to "referenced" id), m)
  | Some entry =>
      if has_live_ref (be_Refs entry) then
        (Ok tt, <[id := set_Refs entry (<[refNonce := liveBlockRef]> (be_Refs entry))]> m)
      else (Err (archived_block id), m)
  end.

Definition mem_removeReference (id : BlockID) (refNonce : BlockRefNonce)
    : go bserverMemStorage Z := λ m,
  match m !! id with
  | None => (Ok 0%Z, m)
  | Some entry =>
      let refs := delete refNonce (be_Refs entry) in
      let m' := if decide (size refs = 0) then delete id m else <[id := set_Refs entry refs]> m in
      (Ok (Z.of_nat (size refs)), m')
  end.

Definition mem_archiveReference (id : BlockID) (refNonce : BlockRefNonce)
    : go bserverMemStorage unit := λ m,
  match m !! id with
  | None => (Err (no_such_block_to "archived" id), m)
  | Some entry =>
      match be_Refs entry !! refNonce with
      | None => (Err (no_such_ref_to_archive id refNonce), m)
      | Some _ =>
          (Ok tt, <[id := set_Refs entry (<[refNonce := archivedBlockRef]> (be_Refs entry))]> m)
      end
  end.

#[global] Instance mem_storage : bserverLocalStorage bserverMemStorage := {|
  storage_get := mem_get;
  storage_getAll := mem_getAll;
  storage_put := mem_put;
  storage_addReference := mem_addReference;
  storage_removeReference := mem_removeReference;
  storage_archiveReference := mem_archiveReference
|}.

(** ** Encoded, in a store of byte strings *)

(** What the encoded storages use of the file system or of LevelDB. *)
Class KVStore (DB K : Type) := {
  kv_Get : K → go DB (list byte);
  kv_Put : K → list byte → go DB unit;
  kv_Delete : K → go DB unit;
  kv_IsNotFound : error → bool
}.

Section encoded.
Context {DB K : Type} `{KVStore DB K, Codec blockEntry}.
(** Where a block is stored. *)
Context (key : BlockID → res K).

Definition enc_getLocked (p : K) : go DB blockEntry :=
  buf ← kv_Get p;
  lift_res (Decode buf).

Definition enc_putLocked (p : K) (entry : blockEntry) : go DB unit :=
  entryBuf ← lift_res (Encode entry);
  kv_Put p entryBuf.

(** [if notFound(err) { return nf }; return err] *)
Definition not_found_else {A} (nf : go DB A) (e : error) : go DB A :=
  if kv_IsNotFound (K := K) e then nf else fail e.

Definition enc_get (id : BlockID) : go DB blockEntry :=
  p ← lift_res (key id);
  catch (enc_getLocked p) (not_found_else (fail (BServerErrorBlockNonExistent ""))).

Definition enc_put (id : BlockID) (entry : blockEntry) : go DB unit :=
  p ← lift_res (key id);
  enc_putLocked p entry.

Definition enc_addReference (id : BlockID) (refNonce : BlockRefNonce) : go DB unit :=
  p ← lift_res (key id);
  entry ← catch (enc_getLocked p) (not_found_else (fail (no_such_block_to "referenced" id)));
  if has_live_ref (be_Refs entry) then
    enc_putLocked p (set_Refs entry (<[refNonce := liveBlockRef]> (be_Refs entry)))
  else fail (archived_block id).

Definition enc_removeReference (id : BlockID) (refNonce : BlockRefNonce) : go DB Z :=
  p ← lift_res (key id);
  found ← catch (entry ← enc_getLocked p; mret (Some entry)) (not_found_else (mret None));
  match found with
  | None => mret 0%Z
  | Some entry =>
      let refs := delete refNonce (be_Refs entry) in
      if decide (size refs = 0) then _ ← kv_Delete p; mret 0%Z
      else _ ← enc_putLocked p (set_Refs entry refs); mret (Z.of_nat (size refs))
  end.

Definition enc_archiveReference (id : BlockID) (refNonce : BlockRefNonce) : go DB unit :=
  p ← lift_res (key id);
  entry ← catch (enc_getLocked p) (not_found_else (fail (no_such_block_to "archived" id)));
  match be_Refs entry !! refNonce with
  | None => fail (no_such_ref_to_archive id refNonce)
  | Some _ => enc_putLocked p (set_Refs entry (<[refNonce := archivedBlockRef]> (be_Refs entry)))
  end.

End encoded.

(** *** In files *)

(** The files of the server, by path; their directories are implied. *)
Abbreviation disk := (gmap string (list byte)).

#[global] Instance disk_files : KVStore disk string := {|
  kv_Get p d := (match d !! p with Some buf => Ok buf | None => Err OsErrNotExist end, d);
  kv_Put p buf := modify (<[p := buf]>);
  kv_Delete p d := match d !! p with
                   | Some _ => (Ok tt, delete p d)
                   | None => (Err OsErrNotExist, d)
                   end;
  kv_IsNotFound e := bool_decide (e = OsErrNotExist)
|}.

(** [dir/xxxx/yyyy...] for the name [xxxxyyyy...]; [Join] drops empty
    elements, and the rest is clean. *)
Definition filepath_Join (elems : list string) : string :=
  String.concat "/" (filter (λ e, e ≠ "") elems).

Definition buildPath (dir : string) (id : BlockID) : res string :=
  let idStr := BlockID_String id in
  if decide (String.length idStr < 4) then Panic "slice bounds out of range"
  else Ok (filepath_Join [dir; String.substring 0 4 idStr;
                          String.substring 4 (String.length idStr - 4) idStr]).

Definition file_storage `{Codec blockEntry} (dir : string) : bserverLocalStorage disk := {|
  storage_get := enc_get (buildPath dir);
  storage_getAll _ := fail (ErrorString "getAll not yet implemented for bserverFileStorage");
  storage_put := enc_put (buildPath dir);
  storage_addReference := enc_addReference (buildPath dir);
  storage_removeReference := enc_removeReference (buildPath dir);
  storage_archiveReference := enc_archiveReference (buildPath dir)
|}.

(** *** In a LevelDB database *)

Definition leveldb_key (id : BlockID) : res (list byte) := Ok (BlockID_Bytes id).

Definition leveldb_storage {DB} `{KVStore DB (list byte), Codec blockEntry}
    : bserverLocalStorage DB := {|
  storage_get := enc_get leveldb_key;
  storage_getAll _ := fail (ErrorString "getAll not yet implemented for bserverLeveldbStorage");
  storage_put := enc_put leveldb_key;
  storage_addReference := enc_addReference leveldb_key;
  storage_removeReference := enc_removeReference leveldb_key;
  storage_archiveReference := enc_archiveReference leveldb_key
|}.

(** ** The server *)

(** What the server uses of a [BlockContext]. *)
Record BlockContext := MkBlockContext {
  ctx_Creator : UID;
  ctx_Writer : UID;
  ctx_RefNonce : BlockRefNonce
}.

Section server.
Context `{bserverLocalStorage St}.

Definition bserver_Get (id : BlockID) (tlfID : TlfID) (context : BlockContext)
    : go St (list byte * list byte) :=
  entry ← storage_get id;
  mret (be_BlockData entry, be_KeyServerHalf entry).

Definition bserver_Put (id : BlockID) (tlfID : TlfID) (context : BlockContext)
    (buf serverHalf : list byte) : go St unit :=
  if decide (ctx_RefNonce context ≠ zeroBlockRefNonce) then
    fail (Errorf "Can't Put() a block with a non-zero refnonce.")
  else
    storage_put id (MkBlockEntry buf {[ zeroBlockRefNonce := liveBlockRef ]} serverHalf tlfID).

Definition bserver_AddBlockReference (id : BlockID) (tlfID : TlfID) (context : BlockContext)
    : go St unit :=
  storage_addReference id (ctx_RefNonce context).

(** Keep the smallest count. *)
Definition note_count (bid : BlockID) (count : Z) (liveCounts : gmap BlockID Z) : gmap BlockID Z :=
  match liveCounts !! bid with
  | Some existing => if decide (count < existing)%Z then <[bid := count]> liveCounts else liveCounts
  | None => <[bid := count]> liveCounts
  end.

(** The inner loop, with the counts so far; an error ends it. *)
Fixpoint remove_refs (bid : BlockID) (refs : list BlockContext) (liveCounts : gmap BlockID Z)
    : go St (gmap BlockID Z * option error) :=
  match refs with
  | [] => mret (liveCounts, None)
  | ref :: refs =>
      r ← try (storage_removeReference bid (ctx_RefNonce ref));
      match r with
      | inr err => mret (liveCounts, Some err)
      | inl count => remove_refs bid refs (note_count bid count liveCounts)
      end
  end.

(** The outer loop; the map of contexts is the list of its entries in the
    order of the iteration, which Go leaves open. *)
Fixpoint remove_all (contexts : list (BlockID * list BlockContext)) (liveCounts : gmap BlockID Z)
    : go St (gmap BlockID Z * option error) :=
  match contexts with
  | [] => mret (liveCounts, None)
  | (bid, refs) :: contexts =>
      r ← remove_refs bid refs liveCounts;
      match r with
      | (liveCounts, Some err) => mret (liveCounts, Some err)
      | (liveCounts, None) => remove_all contexts liveCounts
      end
  end.

Definition bserver_RemoveBlockReference (tlfID : TlfID)
    (contexts : list (BlockID * list BlockContext)) : go St (gmap BlockID Z * option error) :=
  remove_all contexts ∅.

Definition bserver_ArchiveBlockReferences (tlfID : TlfID)
    (contexts : list (BlockID * list BlockContext)) : go St unit :=
  go_for contexts (λ '(id, idContexts),
    go_for idContexts (λ context, storage_archiveReference id (ctx_RefNonce context))).

Definition bserver_getAll (tlf : TlfID) := storage_getAll tlf.

End server.
