(* ===== verification/BServerSpec.v ===== *)
(** * BServerSpec: the local block server, proved

    [StorageRefines] is what a storage promises to the server: it acts
    like the in-memory map on valid block ids.  The encoded storages keep
    the promise over any store of byte strings ([KVLaws]); the server
    theorems are proved against it, and the reference lifecycle on the
    in-memory map. *)

From Stdlib Require Import ZArith Lia.
From S2P Require Import Prelude Types Errors GoStd Ids CryptoCommon BServer.

(** ** The interface and its laws *)

Class StorageRefines (St : Type) `{bserverLocalStorage St} := {
  storage_rel : bserverMemStorage → St → Prop;
  sr_get id : BlockID_IsValid id = true → refines storage_rel (mem_get id) (storage_get id);
  sr_put id e : BlockID_IsValid id = true → refines storage_rel (mem_put id e) (storage_put id e);
  sr_addReference id n : BlockID_IsValid id = true →
    refines storage_rel (mem_addReference id n) (storage_addReference id n);
  sr_removeReference id n : BlockID_IsValid id = true →
    refines storage_rel (mem_removeReference id n) (storage_removeReference id n);
  sr_archiveReference id n : BlockID_IsValid id = true →
    refines storage_rel (mem_archiveReference id n) (storage_archiveReference id n)
}.

#[export] Hint Resolve sr_get sr_put sr_addReference sr_removeReference sr_archiveReference : refine.

#[global] Program Instance mem_refines : StorageRefines bserverMemStorage := {|
  storage_rel := eq
|}.
Solve All Obligations with by intros; intros m ? <-.

(** The laws of a store of byte strings: a finite map. *)
Class KVLaws (DB K : Type) `{KVStore DB K, EqDecision K} := {
  kv_model : DB → K → option (list byte);
  kv_notFound : error;
  kv_notFound_is : kv_IsNotFound (DB := DB) (K := K) kv_notFound = true;
  kv_Get_spec k db :
    kv_Get k db = (match kv_model db k with Some b => Ok b | None => Err kv_notFound end, db);
  kv_Put_spec k b db : fst (kv_Put k b db) = Ok tt ∧
    ∀ k', kv_model (snd (kv_Put k b db)) k' = if decide (k = k') then Some b else kv_model db k';
  kv_Delete_spec k db : is_Some (kv_model db k) → fst (kv_Delete k db) = Ok tt ∧
    ∀ k', kv_model (snd (kv_Delete k db)) k' = if decide (k = k') then None else kv_model db k'
}.

#[global] Program Instance disk_laws : KVLaws disk string := {|
  kv_model d p := d !! p;
  kv_notFound := OsErrNotExist
|}.
Next Obligation. done. Qed.
Next Obligation. done. Qed.
Next Obligation. intros k b db. split; [done|]. intros k'. simpl. apply lookup_insert. Qed.
Next Obligation.
  intros k db [b Hb]. simpl. rewrite Hb. split; [done|]. intros k'. apply lookup_delete.
Qed.

(** ** Encoded storages keep the promise *)

Section encoded.
Context {DB K : Type} `{KVLaws DB K, Codec blockEntry} (key : BlockID → res K).
Hypothesis encode_total : ∀ e : blockEntry, ∃ buf, Encode e = Ok buf.
Hypothesis key_valid : ∀ id, BlockID_IsValid id = true → ∃ k, key id = Ok k.
Hypothesis key_inj : ∀ id id' k, BlockID_IsValid id = true → BlockID_IsValid id' = true →
  key id = Ok k → key id' = Ok k → id = id'.

(** The bytes stored for an entry. *)
Definition enc_rel (m : bserverMemStorage) (db : DB) : Prop :=
  ∀ id k, BlockID_IsValid id = true → key id = Ok k →
    match m !! id with
    | Some e => ∃ buf, Encode e = Ok buf ∧ kv_model db k = Some buf
    | None => kv_model db k = None
    end.

Lemma enc_getLocked_spec m db id k : enc_rel m db → BlockID_IsValid id = true → key id = Ok k →
  enc_getLocked k db = (match m !! id with Some e => Ok e | None => Err kv_notFound end, db).
Proof.
  intros HR Hv Hk. specialize (HR id k Hv Hk). unfold enc_getLocked, mbind, go_bind.
  rewrite kv_Get_spec. destruct (m !! id) as [e|].
  - destruct HR as (buf & Hb & ->). unfold lift_res. by rewrite (Decode_Encode e buf).
  - by rewrite HR.
Qed.

Lemma enc_putLocked_spec m db id k e : enc_rel m db → BlockID_IsValid id = true → key id = Ok k →
  fst (enc_putLocked k e db) = Ok tt ∧ enc_rel (<[id := e]> m) (snd (enc_putLocked k e db)).
Proof.
  intros HR Hv Hk. unfold enc_putLocked, mbind, go_bind. destruct (encode_total e) as [buf Hb].
  rewrite Hb. simpl. destruct (kv_Put_spec k buf db) as [Hr Hm]. split; [done|].
  intros id' k' Hv' Hk'. rewrite Hm. destruct (decide (id = id')) as [<-|Hne].
  - rewrite lookup_insert_eq. rewrite Hk in Hk'. injection Hk' as <-.
    rewrite decide_True by done. by exists buf.
  - rewrite lookup_insert_ne by done. rewrite decide_False; [by apply HR|].
    intros ->. by apply Hne, (key_inj id id' k').
Qed.

Lemma enc_delete_spec m db id k e : enc_rel m db → BlockID_IsValid id = true → key id = Ok k →
  m !! id = Some e →
  fst (kv_Delete k db) = Ok tt ∧ enc_rel (delete id m) (snd (kv_Delete k db)).
Proof.
  intros HR Hv Hk He. destruct (kv_Delete_spec k db) as [Hr Hm].
  { specialize (HR id k Hv Hk). rewrite He in HR. destruct HR as (buf & _ & ->). done. }
  split; [done|]. intros id' k' Hv' Hk'. rewrite Hm. destruct (decide (id = id')) as [<-|Hne].
  - rewrite lookup_delete_eq. rewrite Hk in Hk'. injection Hk' as <-. by rewrite decide_True.
  - rewrite lookup_delete_ne by done. rewrite decide_False; [by apply HR|].
    intros ->. by apply Hne, (key_inj id id' k').
Qed.

(** Start an encoded operation: its key exists and its entry is read. *)
Ltac enc_start HR Hv Hk :=
  intros Hv m db HR; destruct (key_valid _ Hv) as [k Hk];
  pose proof (enc_getLocked_spec m db _ k HR Hv Hk) as Hget;
  unfold mbind, go_bind, catch; rewrite Hk; simpl; rewrite ?Hget.

Lemma enc_get_refines id : BlockID_IsValid id = true → refines enc_rel (mem_get id) (enc_get key id).
Proof.
  unfold mem_get, enc_get. enc_start HR Hv Hk. destruct (m !! id); [done|].
  unfold not_found_else. by rewrite kv_notFound_is.
Qed.

Lemma enc_put_refines id e :
  BlockID_IsValid id = true → refines enc_rel (mem_put id e) (enc_put key id e).
Proof.
  unfold mem_put, enc_put. enc_start HR Hv Hk. by apply (enc_putLocked_spec m db id k e).
Qed.

Lemma enc_addReference_refines id n : BlockID_IsValid id = true →
  refines enc_rel (mem_addReference id n) (enc_addReference key id n).
Proof.
  unfold mem_addReference, enc_addReference. enc_start HR Hv Hk.
  destruct (m !! id) as [e|]; [|unfold not_found_else; by rewrite kv_notFound_is].
  destruct (has_live_ref _); [|done]. by apply enc_putLocked_spec.
Qed.

Lemma enc_archiveReference_refines id n : BlockID_IsValid id = true →
  refines enc_rel (mem_archiveReference id n) (enc_archiveReference key id n).
Proof.
  unfold mem_archiveReference, enc_archiveReference. enc_start HR Hv Hk.
  destruct (m !! id) as [e|]; [|unfold not_found_else; by rewrite kv_notFound_is].
  destruct (be_Refs e !! n); [|done]. by apply enc_putLocked_spec.
Qed.

Lemma enc_removeReference_refines id n : BlockID_IsValid id = true →
  refines enc_rel (mem_removeReference id n) (enc_removeReference key id n).
Proof.
  unfold mem_removeReference, enc_removeReference. enc_start HR Hv Hk.
  destruct (m !! id) as [e|] eqn:He; [|unfold not_found_else; by rewrite kv_notFound_is].
  simpl. destruct (decide (size (delete n (be_Refs e)) = 0)) as [Hs|Hs].
  - destruct (enc_delete_spec m db id k e HR Hv Hk He) as [Hr HR'].
    destruct (kv_Delete k db) as [r db']. simpl in *. subst r. by rewrite Hs.
  - destruct (enc_putLocked_spec m db id k (set_Refs e (delete n (be_Refs e))) HR Hv Hk) as [Hr HR'].
    destruct (enc_putLocked k _ db) as [r db']. simpl in *. by subst r.
Qed.

End encoded.

(** ** Paths of blocks *)

Lemma substring_all s : String.substring 0 (String.length s) s = s.
Proof. induction s as [|c s IH]; simpl; congruence. Qed.

Lemma split_at_4 s : ¬ String.length s < 4 → ∃ a b c d r,
  s = String a (String b (String c (String d r))) ∧
  String.substring 0 4 s = String a (String b (String c (String d EmptyString))) ∧
  String.substring 4 (String.length s - 4) s = r.
Proof.
  destruct s as [|a [|b [|c [|d r]]]]; simpl; intros Hl; try lia.
  exists a, b, c, d, r. split_and!; [done| |by rewrite Nat.sub_0_r, substring_all].
  by destruct r.
Qed.

Lemma BlockID_String_length id :
  BlockID_IsValid id = true → ¬ String.length (BlockID_String id) < 5.
Proof.
  unfold BlockID_IsValid, Hash_IsValid, BlockID_String, Hash_String, EncodeToString.
  cbv zeta. case_decide as Hl; [done|]. intros _. rewrite length_string_of_bytes.
  unfold MinHashByteLength in Hl. unfold hex_encode.
  destruct (bytes_of_string _) as [|x [|y [|z l]]]; simpl in *; lia.
Qed.

Lemma BlockID_String_inj id id' : BlockID_String id = BlockID_String id' → id = id'.
Proof.
  unfold BlockID_String, Hash_String. intros Heq%(f_equal DecodeString).
  rewrite !DecodeString_EncodeToString in Heq. injection Heq as Heq.
  apply (f_equal string_of_bytes) in Heq. rewrite !string_of_bytes_of_string in Heq.
  destruct id as [[h]], id' as [[h']]. simpl in Heq. congruence.
Qed.

Lemma buildPath_valid dir id : BlockID_IsValid id = true → ∃ p, buildPath dir id = Ok p.
Proof.
  intros Hl%BlockID_String_length. unfold buildPath. rewrite decide_False by lia. by eexists.
Qed.

Lemma filepath_Join_inj dir a b c d r a' b' c' d' r' : r ≠ "" → r' ≠ "" →
  filepath_Join [dir; String a (String b (String c (String d EmptyString))); r] =
  filepath_Join [dir; String a' (String b' (String c' (String d' EmptyString))); r'] →
  String a (String b (String c (String d r))) = String a' (String b' (String c' (String d' r'))).
Proof.
  intros Hr Hr'. unfold filepath_Join.
  assert (∀ x y z w q, q ≠ "" →
    filter (λ e, e ≠ "") [dir; String x (String y (String z (String w EmptyString))); q] =
    filter (λ e, e ≠ "") [dir] ++ [String x (String y (String z (String w EmptyString))); q]) as Hf.
  { intros x y z w q Hq. change [dir; ?s; q] with ([dir] ++ [s; q]). rewrite filter_app. f_equal.
    rewrite !filter_cons_True by done. by rewrite filter_nil. }
  rewrite !Hf by done. destruct (decide (dir = "")) as [->|Hd].
  - rewrite filter_cons_False by (intros Hn; by apply Hn). rewrite filter_nil. simpl.
    cbv [String.append]. congruence.
  - rewrite filter_cons_True by done. rewrite filter_nil. simpl.
    intros Heq%(inj (String.append dir)). cbv [String.append] in Heq. congruence.
Qed.

Lemma buildPath_inj dir id id' p : BlockID_IsValid id = true → BlockID_IsValid id' = true →
  buildPath dir id = Ok p → buildPath dir id' = Ok p → id = id'.
Proof.
  intros Hv%BlockID_String_length Hv'%BlockID_String_length. unfold buildPath.
  rewrite !decide_False by lia. intros <- [= Heq]. apply BlockID_String_inj.
  destruct (split_at_4 (BlockID_String id)) as (a & b & c & d & r & E & E1 & E2); [lia|].
  destruct (split_at_4 (BlockID_String id')) as (a' & b' & c' & d' & r' & E' & E1' & E2'); [lia|].
  rewrite E1, E2, E1', E2' in Heq. rewrite E, E'.
  rewrite E in Hv. rewrite E' in Hv'. symmetry. eapply filepath_Join_inj; [..|exact Heq].
  - intros ->. simpl in Hv'. lia.
  - intros ->. simpl in Hv. lia.
Qed.

Lemma leveldb_key_inj id id' k : leveldb_key id = Ok k → leveldb_key id' = Ok k → id = id'.
Proof.
  unfold leveldb_key, BlockID_Bytes, Hash_Bytes. intros [= <-] [= Heq].
  apply (f_equal string_of_bytes) in Heq. rewrite !string_of_bytes_of_string in Heq.
  destruct id as [[h]], id' as [[h']]. simpl in Heq. congruence.
Qed.

(** ** The storages *)

Section instances.
Context `{Codec blockEntry}.
Hypothesis encode_total : ∀ e : blockEntry, ∃ buf, Encode e = Ok buf.

Program Definition file_refines (dir : string) : @StorageRefines disk (file_storage dir) := {|
  storage_rel := enc_rel (buildPath dir)
|}.
Next Obligation. intros dir. eapply enc_get_refines; eauto using buildPath_valid. Qed.
Next Obligation. intros dir. eapply enc_put_refines; eauto using buildPath_valid, buildPath_inj. Qed.
Next Obligation. intros dir. eapply enc_addReference_refines; eauto using buildPath_valid, buildPath_inj. Qed.
Next Obligation. intros dir. eapply enc_removeReference_refines; eauto using buildPath_valid, buildPath_inj. Qed.
Next Obligation. intros dir. eapply enc_archiveReference_refines; eauto using buildPath_valid, buildPath_inj. Qed.

Lemma leveldb_key_valid id : BlockID_IsValid id = true → ∃ k, leveldb_key id = Ok k.
Proof. by eexists. Qed.

Program Definition leveldb_refines {DB} `{KVStore DB (list byte), !KVLaws DB (list byte)}
    : @StorageRefines DB leveldb_storage := {|
  storage_rel := enc_rel leveldb_key
|}.
Next Obligation. intros. by eapply enc_get_refines; eauto using leveldb_key_valid. Qed.
Next Obligation. intros. by eapply enc_put_refines; eauto using leveldb_key_valid, leveldb_key_inj. Qed.
Next Obligation. intros. by eapply enc_addReference_refines; eauto using leveldb_key_valid, leveldb_key_inj. Qed.
Next Obligation. intros. by eapply enc_removeReference_refines; eauto using leveldb_key_valid, leveldb_key_inj. Qed.
Next Obligation. intros. by eapply enc_archiveReference_refines; eauto using leveldb_key_valid, leveldb_key_inj. Qed.
End instances.

(** ** Calls of the server *)

Inductive bserver_call :=
| CallGet (id : BlockID)
| CallPut (id : BlockID) (tlf : TlfID) (context : BlockContext) (buf serverHalf : list byte)
| CallAdd (id : BlockID) (context : BlockContext)
| CallRemove (contexts : list (BlockID * list BlockContext))
| CallArchive (contexts : list (BlockID * list BlockContext)).

Inductive bserver_reply :=
| ReplyData (buf serverHalf : list byte)
| ReplyDone
| ReplyCounts (counts : gmap BlockID Z) (err : option error).

Definition call_ids (c : bserver_call) : list BlockID :=
  match c with
  | CallGet id | CallPut id _ _ _ _ | CallAdd id _ => [id]
  | CallRemove contexts | CallArchive contexts => fst <$> contexts
  end.

Definition call_valid (c : bserver_call) : Prop :=
  Forall (λ id, BlockID_IsValid id = true) (call_ids c).

Definition some_ctx : BlockContext := MkBlockContext "" "" zeroBlockRefNonce.

Definition run_call `{bserverLocalStorage St} (c : bserver_call) : go St bserver_reply :=
  match c with
  | CallGet id => r ← bserver_Get id NullTlfID some_ctx; mret (ReplyData (fst r) (snd r))
  | CallPut id tlf context buf half => _ ← bserver_Put id tlf context buf half; mret ReplyDone
  | CallAdd id context => _ ← bserver_AddBlockReference id NullTlfID context; mret ReplyDone
  | CallRemove contexts =>
      r ← bserver_RemoveBlockReference NullTlfID contexts; mret (ReplyCounts (fst r) (snd r))
  | CallArchive contexts => _ ← bserver_ArchiveBlockReferences NullTlfID contexts; mret ReplyDone
  end.

(** A session: the reply or the error of every call. *)
Fixpoint session `{bserverLocalStorage St} (calls : list bserver_call)
    : go St (list (bserver_reply + error)) :=
  match calls with
  | [] => mret []
  | c :: calls => r ← try (run_call c); rs ← session calls; mret (r :: rs)
  end.

Section client.
Context `{StorageRefines St}.
Abbreviation R := storage_rel.

Lemma remove_refs_refines id refs counts :
  BlockID_IsValid id = true → refines R (remove_refs id refs counts) (remove_refs id refs counts).
Proof.
  intros Hv. revert counts. induction refs as [|c refs IH]; intros counts; simpl; [apply refines_ret|].
  apply refines_bind; [apply refines_try; by apply sr_removeReference|].
  intros [count|err]; [apply IH|apply refines_ret].
Qed.

Lemma remove_all_refines contexts counts :
  Forall (λ id, BlockID_IsValid id = true) (fst <$> contexts) →
  refines R (remove_all contexts counts) (remove_all contexts counts).
Proof.
  revert counts. induction contexts as [|[id refs] l IH]; intros counts Hv; simpl; [apply refines_ret|].
  inversion_clear Hv as [|?? Hid Hl].
  apply refines_bind; [by apply remove_refs_refines|].
  intros [counts' [err|]]; [apply refines_ret|by apply IH].
Qed.

Lemma run_call_refines c : call_valid c → refines R (run_call c) (run_call c).
Proof.
  unfold call_valid. destruct c as [id|id tlf ctx buf half|id ctx|l|l]; simpl; intros Hv.
  - inversion_clear Hv. eauto 6 with refine.
  - inversion_clear Hv. apply refines_bind; [|eauto with refine]. unfold bserver_Put.
    case_decide; eauto with refine.
  - inversion_clear Hv. eauto 6 with refine.
  - apply refines_bind; [by apply remove_all_refines|eauto with refine].
  - apply refines_bind; [|eauto with refine]. apply refines_for. intros [id ctxs] Hin.
    rewrite Forall_fmap, Forall_forall in Hv. apply refines_for. intros ctx _.
    apply sr_archiveReference. by apply (Hv (id, ctxs)).
Qed.

Lemma session_refines calls :
  Forall call_valid calls → refines R (session calls) (session calls).
Proof.
  induction 1 as [|c calls Hc Hcs IH]; simpl; [apply refines_ret|].
  apply refines_bind; [by apply refines_try, run_call_refines|]. eauto with refine.
Qed.
End client.

(** C38. The server that stores its blocks in files answers every session
    of calls (on valid block ids) exactly as the one that keeps them in
    memory, errors and reference counts included. *)
Theorem file_server_like_memory `{Codec blockEntry} dir calls :
  (∀ e : blockEntry, ∃ buf, Encode e = Ok buf) → Forall call_valid calls →
  fst (@session disk (file_storage dir) calls ∅) = fst (session calls (∅ : bserverMemStorage)).
Proof.
  intros Henc Hcalls.
  apply (session_refines (H0 := file_refines Henc dir) calls Hcalls ∅ ∅).
  intros id k Hv Hk. by rewrite !lookup_empty.
Qed.

(** The same of a server on any LevelDB-like database that starts
    empty. *)
Theorem leveldb_server_like_memory `{Codec blockEntry} {DB} `{KVStore DB (list byte), !KVLaws DB (list byte)}
    (db : DB) calls :
  (∀ e : blockEntry, ∃ buf, Encode e = Ok buf) → (∀ k, kv_model db k = None) →
  Forall call_valid calls →
  fst (@session DB leveldb_storage calls db) = fst (session calls (∅ : bserverMemStorage)).
Proof.
  intros Henc Hdb Hcalls.
  apply (session_refines (H0 := leveldb_refines Henc) calls Hcalls ∅ db).
  intros id k Hv Hk. rewrite lookup_empty. apply Hdb.
Qed.

(** ** The lifecycle of references *)

(** Every stored block is referenced. *)
Definition all_referenced (m : bserverMemStorage) : Prop :=
  ∀ id e, m !! id = Some e → size (be_Refs e) ≠ 0.

Lemma all_referenced_insert m id e :
  all_referenced m → size (be_Refs e) ≠ 0 → all_referenced (<[id := e]> m).
Proof. intros Hm He id' e' [[-> <-]|[_ ?]]%lookup_insert_Some; [done|by eapply Hm]. Qed.

Lemma size_insert_ne {A} (n : BlockRefNonce) (x : A) refs : size (<[n := x]> refs : gmap _ _) ≠ 0.
Proof. intros ?%map_size_empty_inv. by apply (insert_non_empty refs n x). Qed.

(** The references left after dropping those of [ctxs]. *)
Definition left_refs (ctxs : list BlockContext) (refs : gmap BlockRefNonce blockRefLocalStatus) :=
  foldl (λ r c, delete (ctx_RefNonce c) r) refs ctxs.

(** What is left of a block: nothing when no reference is left. *)
Definition drop_refs (ctxs : list BlockContext) (e : blockEntry) : option blockEntry :=
  let refs := left_refs ctxs (be_Refs e) in
  if decide (size refs = 0) then None else Some (set_Refs e refs).

(** How many references are left. *)
Definition left_count (ctxs : list BlockContext) (m : bserverMemStorage) (id : BlockID) : Z :=
  match m !! id with
  | Some e => Z.of_nat (size (left_refs ctxs (be_Refs e)))
  | None => 0
  end.

Lemma left_refs_size ctxs refs : size (left_refs ctxs refs) <= size refs.
Proof.
  revert refs. induction ctxs as [|c ctxs IH]; intros refs; simpl; [done|].
  etrans; [apply IH|]. rewrite map_size_delete. destruct (refs !! _); simpl; lia.
Qed.

Lemma left_refs_empty ctxs refs : size refs = 0 → size (left_refs ctxs refs) = 0.
Proof. pose proof (left_refs_size ctxs refs). lia. Qed.

Lemma drop_refs_nil e : size (be_Refs e) ≠ 0 → drop_refs [] e = Some e.
Proof. intros He. unfold drop_refs. simpl. rewrite decide_False by done. by destruct e. Qed.

Lemma drop_refs_cons c ctxs e : drop_refs [c] e ≫= drop_refs ctxs = drop_refs (c :: ctxs) e.
Proof.
  unfold drop_refs. simpl. case_decide as Hs; simpl; [|done].
  by rewrite decide_True by by apply left_refs_empty.
Qed.

Lemma mem_removeReference_spec m id c :
  mem_removeReference id (ctx_RefNonce c) m = (Ok (left_count [c] m id),
    partial_alter (λ o, o ≫= drop_refs [c]) id m).
Proof.
  unfold mem_removeReference, left_count, drop_refs, left_refs. simpl. destruct (m !! id) as [e|] eqn:He.
  - f_equal. apply map_eq. intros id'. destruct (decide (id = id')) as [<-|Hne].
    + rewrite lookup_partial_alter_eq, He. simpl. case_decide.
      * by rewrite lookup_delete_eq.
      * by rewrite lookup_insert_eq.
    + rewrite lookup_partial_alter_ne by done. case_decide.
      * by rewrite lookup_delete_ne.
      * by rewrite lookup_insert_ne.
  - f_equal. symmetry. rewrite <- (partial_alter_self m id) at 2. rewrite He.
    apply partial_alter_ext. intros ? Hx. simpl. by rewrite He in Hx; simplify_eq.
Qed.

Lemma left_count_cons c ctxs m id :
  left_count ctxs (partial_alter (λ o, o ≫= drop_refs [c]) id m) id = left_count (c :: ctxs) m id.
Proof.
  unfold left_count. rewrite lookup_partial_alter_eq. destruct (m !! id) as [e|]; simpl; [|done].
  unfold drop_refs. simpl. case_decide as Hs; simpl; [|done].
  by rewrite left_refs_empty.
Qed.

Lemma left_count_mono c ctxs m id : (left_count (c :: ctxs) m id <= left_count [c] m id)%Z.
Proof.
  unfold left_count. destruct (m !! id) as [e|]; [|done]. simpl.
  pose proof (left_refs_size ctxs (delete (ctx_RefNonce c) (be_Refs e))). lia.
Qed.

Lemma drop_referenced m id c : all_referenced m →
  all_referenced (partial_alter (λ o, o ≫= drop_refs [c]) id m).
Proof.
  intros Hm id' e'. destruct (decide (id = id')) as [<-|Hne].
  - rewrite lookup_partial_alter_eq. intros (e & He & Hd)%bind_Some. unfold drop_refs in Hd.
    case_decide; [done|]. by injection Hd as <-.
  - rewrite lookup_partial_alter_ne by done. by apply Hm.
Qed.

(** The inner loop: the count it notes is that of the last removal. *)
Lemma remove_refs_spec id ctxs counts m :
  all_referenced m → (ctxs ≠ [] → ∀ n, counts !! id = Some n → (left_count ctxs m id <= n)%Z) →
  remove_refs id ctxs counts m =
    (Ok (if decide (ctxs = []) then counts else <[id := left_count ctxs m id]> counts, None),
     partial_alter (λ o, o ≫= drop_refs ctxs) id m).
Proof.
  revert counts m. induction ctxs as [|c ctxs IH]; intros counts m Hm Hc; simpl.
  { unfold mret, go_ret. f_equal. rewrite <- (partial_alter_self m id) at 1.
    apply partial_alter_ext. intros o <-. destruct (m !! id) as [e|] eqn:He; simpl; [|done].
    symmetry. apply drop_refs_nil. by eapply Hm. }
  unfold mbind, go_bind, try. rewrite mem_removeReference_spec, IH.
  - rewrite left_count_cons.
    rewrite partial_alter_partial_alter_eq, (partial_alter_ext _ (λ o, o ≫= drop_refs (c :: ctxs)));
      [|intros o _; destruct o as [e|]; simpl; [apply drop_refs_cons|done]].
    do 3 f_equal. unfold note_count. specialize (Hc ltac:(done)).
    destruct (decide (ctxs = [])) as [->|Hne].
    + destruct (counts !! id) as [n|] eqn:Hn; [|done]. case_decide; [done|].
      specialize (Hc n eq_refl). assert (n = left_count [c] m id) as -> by lia.
      symmetry. by apply insert_id.
    + destruct (counts !! id) as [n|]; [|by rewrite insert_insert_eq].
      case_decide; by rewrite ?insert_insert_eq.
  - by apply drop_referenced.
  - intros Hne n. rewrite left_count_cons. specialize (Hc ltac:(done)). unfold note_count.
    pose proof (left_count_mono c ctxs m id).
    destruct (counts !! id) as [n0|] eqn:Hn0; [|rewrite lookup_insert_eq; intros [= <-]; lia].
    specialize (Hc n0 eq_refl). destruct (decide (left_count [c] m id < n0)%Z);
      [rewrite lookup_insert_eq|rewrite Hn0]; intros [= <-]; lia.
Qed.

Lemma remove_all_spec (l : list (BlockID * list BlockContext)) counts m :
  all_referenced m → NoDup (fst <$> l) → (∀ id, id ∈ fst <$> l → counts !! id = None) →
  ∃ counts' m', remove_all l counts m = (Ok (counts', None), m') ∧
    (∀ id, m' !! id = match (list_to_map l : gmap _ _) !! id with
                      | Some ctxs => m !! id ≫= drop_refs ctxs
                      | None => m !! id
                      end) ∧
    (∀ id, counts' !! id = match (list_to_map l : gmap _ _) !! id with
                           | Some (c :: ctxs) => Some (left_count (c :: ctxs) m id)
                           | _ => counts !! id
                           end).
Proof.
  revert counts m. induction l as [|[id ctxs] l IH]; intros counts m Hm Hnd Hc; simpl.
  { exists counts, m. by split_and!; [|intros ?; rewrite lookup_empty..]. }
  apply NoDup_cons in Hnd as [Hnin Hnd]. unfold mbind, go_bind.
  rewrite remove_refs_spec; [|done|].
  2:{ intros _ n. by rewrite (Hc id) by (simpl; set_solver). }
  set (m1 := partial_alter _ id m). set (c1 := if decide _ then _ else _).
  destruct (IH c1 m1) as (counts' & m' & Hr & Hm' & Hc'); [|done| |].
  { intros id' e' He'. subst m1. destruct (decide (id = id')) as [<-|Hne].
    - rewrite lookup_partial_alter_eq in He'. apply bind_Some in He' as (e & He & Hd).
      unfold drop_refs in Hd. case_decide; [done|]. by injection Hd as <-.
    - rewrite lookup_partial_alter_ne in He' by done. by eapply Hm. }
  { intros id' Hid'. assert (id ≠ id') by (intros ->; done). subst c1.
    specialize (Hc id' ltac:(simpl; by right)).
    destruct (decide (ctxs = [])); [done|]. by rewrite lookup_insert_ne. }
  exists counts', m'. split; [done|]. split; intros id'.
  - rewrite Hm'. destruct (decide (id = id')) as [<-|Hne].
    + rewrite lookup_insert_eq, not_elem_of_list_to_map_1 by done. subst m1.
      by rewrite lookup_partial_alter_eq.
    + rewrite lookup_insert_ne by done. subst m1. by rewrite lookup_partial_alter_ne.
  - rewrite Hc'. destruct (decide (id = id')) as [<-|Hne].
    + rewrite lookup_insert_eq, not_elem_of_list_to_map_1 by done. subst c1.
      destruct ctxs; simpl; [done|]. by rewrite lookup_insert_eq.
    + rewrite lookup_insert_ne by done. subst c1 m1.
      unfold left_count. rewrite lookup_partial_alter_ne by done.
      destruct (decide (ctxs = [])); by rewrite ?lookup_insert_ne.
Qed.

(** Removing references: for every block named in the request, the
    references named with it are dropped, the block itself is deleted
    when none is left, and the reply holds the number of references left;
    other blocks do not change.  This does not depend on the order in
    which Go iterates over the request. *)
Theorem RemoveBlockReference_spec tlf (contexts : gmap BlockID (list BlockContext)) l
    (m : bserverMemStorage) :
  all_referenced m → l ≡ₚ map_to_list contexts →
  ∃ counts m', bserver_RemoveBlockReference tlf l m = (Ok (counts, None), m') ∧
    (∀ id, m' !! id = match contexts !! id with
                      | Some ctxs => m !! id ≫= drop_refs ctxs
                      | None => m !! id
                      end) ∧
    (∀ id, counts !! id = match contexts !! id with
                          | Some (c :: ctxs) => Some (left_count (c :: ctxs) m id)
                          | _ => None
                          end).
Proof.
  intros Hm Hl. assert (NoDup (fst <$> l)) as Hnd by (rewrite Hl; apply NoDup_fst_map_to_list).
  destruct (remove_all_spec l ∅ m Hm Hnd) as (counts & m' & Hr & Hm' & Hc).
  { intros id _. apply lookup_empty. }
  assert (list_to_map l = contexts) as Hctx.
  { rewrite <- (list_to_map_to_list contexts). by apply list_to_map_proper. }
  exists counts, m'. rewrite Hctx in Hm', Hc. split_and!; [done..|].
  intros id. rewrite Hc. by destruct (contexts !! id) as [[|c ctxs]|]; rewrite ?lookup_empty.
Qed.

(** ** Invariants of sessions *)

Lemma go_preserves_try {S A} (I : S → Prop) (op : go S A) :
  go_preserves I op → go_preserves I (try op).
Proof. intros Hop s Hs. specialize (Hop s Hs). unfold try. by destruct (op s) as [[]]. Qed.

Section sessions.
Context (I : bserverMemStorage → Prop).

(** The storage operations of a call. *)
Definition call_keeps (c : bserver_call) : Prop :=
  match c with
  | CallGet _ => True
  | CallPut id tlf _ buf half =>
      go_preserves I (mem_put id (MkBlockEntry buf {[ zeroBlockRefNonce := liveBlockRef ]} half tlf))
  | CallAdd id ctx => go_preserves I (mem_addReference id (ctx_RefNonce ctx))
  | CallRemove l => ∀ id ctxs ctx, (id, ctxs) ∈ l → ctx ∈ ctxs →
      go_preserves I (mem_removeReference id (ctx_RefNonce ctx))
  | CallArchive l => ∀ id ctxs ctx, (id, ctxs) ∈ l → ctx ∈ ctxs →
      go_preserves I (mem_archiveReference id (ctx_RefNonce ctx))
  end.

Lemma remove_refs_keeps id ctxs counts :
  (∀ ctx, ctx ∈ ctxs → go_preserves I (mem_removeReference id (ctx_RefNonce ctx))) →
  go_preserves I (remove_refs id ctxs counts).
Proof.
  revert counts. induction ctxs as [|c ctxs IH]; intros counts Hc; simpl; [apply go_preserves_ret|].
  apply go_preserves_bind; [apply go_preserves_try, Hc; by left|].
  intros [count|err]; [|apply go_preserves_ret]. apply IH. intros ctx Hin. apply Hc. by right.
Qed.

Lemma remove_all_keeps l counts :
  (∀ id ctxs ctx, (id, ctxs) ∈ l → ctx ∈ ctxs →
     go_preserves I (mem_removeReference id (ctx_RefNonce ctx))) →
  go_preserves I (remove_all l counts).
Proof.
  revert counts. induction l as [|[id ctxs] l IH]; intros counts Hc; simpl; [apply go_preserves_ret|].
  apply go_preserves_bind; [apply remove_refs_keeps; intros ctx; apply (Hc id ctxs); by left|].
  intros [counts' [err|]]; [apply go_preserves_ret|]. apply IH.
  intros id' ctxs' ctx Hin. apply (Hc id' ctxs'). by right.
Qed.

Lemma run_call_keeps c : call_keeps c → go_preserves I (run_call c).
Proof.
  destruct c as [id|id tlf ctx buf half|id ctx|l|l]; simpl; intros Hc.
  - intros m Hm. unfold bserver_Get, mbind, go_bind. simpl. unfold mem_get. by destruct (m !! id).
  - apply go_preserves_bind; [|intros; apply go_preserves_ret]. unfold bserver_Put.
    case_decide; [by intros m Hm|done].
  - apply go_preserves_bind; [done|intros; apply go_preserves_ret].
  - apply go_preserves_bind; [by apply remove_all_keeps|intros; apply go_preserves_ret].
  - apply go_preserves_bind; [|intros; apply go_preserves_ret].
    apply go_preserves_for. intros [id ctxs] Hin. apply go_preserves_for. intros ctx Hctx.
    by apply (Hc id ctxs).
Qed.

Lemma session_keeps calls : Forall call_keeps calls → go_preserves I (session calls).
Proof.
  induction 1 as [|c calls Hc Hcs IH]; simpl; [apply go_preserves_ret|].
  apply go_preserves_bind; [by apply go_preserves_try, run_call_keeps|].
  intros r. apply go_preserves_bind; [done|intros; apply go_preserves_ret].
Qed.
End sessions.

Lemma all_referenced_keeps c : call_keeps all_referenced c.
Proof.
  destruct c as [id|id tlf ctx buf half|id ctx|l|l]; simpl; [done|..].
  - intros m Hm. apply all_referenced_insert; [done|]. apply size_insert_ne.
  - intros m Hm. unfold mem_addReference. destruct (m !! id) as [e|]; [|done].
    destruct (has_live_ref _); [|done]. apply all_referenced_insert; [done|]. apply size_insert_ne.
  - intros id ctxs ctx _ _ m Hm. rewrite mem_removeReference_spec. by apply drop_referenced.
  - intros id ctxs ctx _ _ m Hm. unfold mem_archiveReference. destruct (m !! id) as [e|]; [|done].
    destruct (be_Refs e !! _); [|done]. apply all_referenced_insert; [done|]. apply size_insert_ne.
Qed.

(** Blocks live exactly as long as their references: after any
    session, a block can be fetched if and only if it has a reference,
    live or archived. *)
Theorem Get_iff_referenced calls m id :
  m = snd (session calls (∅ : bserverMemStorage)) →
  is_Ok (fst (bserver_Get id NullTlfID some_ctx m)) = true ↔
  ∃ e n st, m !! id = Some e ∧ be_Refs e !! n = Some st.
Proof.
  intros ->. set (m := snd _).
  assert (all_referenced m) as Hm.
  { apply session_keeps; [|by intros ? ? ?%lookup_empty_Some].
    apply Forall_forall. intros c _. apply all_referenced_keeps. }
  unfold bserver_Get, mbind, go_bind. simpl. unfold mem_get.
  destruct (m !! id) as [e|] eqn:He; simpl; [|split; [done|by intros (? & ? & ? & ? & _)]].
  split; [|done]. intros _. specialize (Hm id e He).
  destruct (map_choose (be_Refs e)) as (n & st & Hn).
  { intros Hn. by rewrite Hn in Hm. }
  by exists e, n, st.
Qed.

(** The block has the data, and the reference [n]. *)
Definition holds_ref (id : BlockID) (n : BlockRefNonce) (buf half : list byte)
    (m : bserverMemStorage) : Prop :=
  ∃ e, m !! id = Some e ∧ be_BlockData e = buf ∧ be_KeyServerHalf e = half ∧ is_Some (be_Refs e !! n).

(** The call neither overwrites the block nor removes its reference [n]. *)
Definition call_spares (id : BlockID) (n : BlockRefNonce) (c : bserver_call) : Prop :=
  match c with
  | CallPut id' _ _ _ _ => id' ≠ id
  | CallRemove l => ∀ ctxs ctx, (id, ctxs) ∈ l → ctx ∈ ctxs → ctx_RefNonce ctx ≠ n
  | _ => True
  end.

Lemma holds_ref_insert id n buf half m id' e :
  holds_ref id n buf half m →
  (id' = id → be_BlockData e = buf ∧ be_KeyServerHalf e = half ∧ is_Some (be_Refs e !! n)) →
  holds_ref id n buf half (<[id' := e]> m).
Proof.
  intros (e0 & He0 & Hr) He. destruct (decide (id' = id)) as [->|Hne].
  - exists e. rewrite lookup_insert_eq. naive_solver.
  - exists e0. by rewrite lookup_insert_ne.
Qed.

Lemma holds_ref_keeps id n buf half c :
  call_spares id n c → call_keeps (holds_ref id n buf half) c.
Proof.
  destruct c as [id'|id' tlf ctx buf' half'|id' ctx|l|l]; simpl; intros Hs; [done|..].
  - intros m Hm. by apply holds_ref_insert.
  - intros m Hm. unfold mem_addReference. destruct (m !! id') as [e|] eqn:He; [|done].
    destruct (has_live_ref _); [|done]. apply holds_ref_insert; [done|].
    intros ->. destruct Hm as (e0 & He0 & Hr). simplify_eq. split_and!; [naive_solver..|].
    simpl. rewrite lookup_insert_is_Some. destruct (decide (ctx_RefNonce ctx = n)); naive_solver.
  - intros id' ctxs ctx Hl Hctx m Hm. rewrite mem_removeReference_spec. simpl.
    destruct Hm as (e & He & Hd & Hh & Hn). unfold holds_ref.
    destruct (decide (id' = id)) as [->|Hne]; [|exists e; by rewrite lookup_partial_alter_ne].
    specialize (Hs ctxs ctx Hl Hctx). rewrite lookup_partial_alter_eq, He. simpl.
    exists (set_Refs e (delete (ctx_RefNonce ctx) (be_Refs e))).
    assert (is_Some (delete (ctx_RefNonce ctx) (be_Refs e) !! n)) as Hn'
      by by rewrite lookup_delete_ne.
    split_and!; try done. unfold drop_refs, left_refs. simpl. rewrite decide_False; [done|].
    intros Hz%map_size_empty_inv. rewrite Hz, lookup_empty in Hn'. by destruct Hn'.
  - intros id' ctxs ctx _ _ m Hm. unfold mem_archiveReference.
    destruct (m !! id') as [e|] eqn:He; [|done]. destruct (be_Refs e !! _) eqn:Hr; [|done].
    apply holds_ref_insert; [done|]. intros ->. destruct Hm as (e0 & He0 & Hd). simplify_eq.
    split_and!; [naive_solver..|]. simpl. rewrite lookup_insert_is_Some.
    destruct (decide (ctx_RefNonce ctx = n)); naive_solver.
Qed.

(** No premature deletion: what was put under a block id is what
    [Get] returns, whatever happens to other blocks and to other
    references of this one, as long as the first reference is not
    removed (archiving it does not count). *)
Theorem Put_then_Get calls id tlf ctx buf half (m : bserverMemStorage) :
  ctx_RefNonce ctx = zeroBlockRefNonce → Forall (call_spares id zeroBlockRefNonce) calls →
  let m' := snd (session calls (snd (bserver_Put id tlf ctx buf half m))) in
  fst (bserver_Get id NullTlfID some_ctx m') = Ok (buf, half).
Proof.
  intros Hctx Hcalls m'.
  assert (holds_ref id zeroBlockRefNonce buf half m') as (e & He & Hd & Hh & _).
  { apply session_keeps.
    - eapply Forall_impl; [exact Hcalls|]. intros c. apply holds_ref_keeps.
    - unfold bserver_Put. rewrite decide_False by (intros Hn; by apply Hn).
      exists (MkBlockEntry buf {[ zeroBlockRefNonce := liveBlockRef ]} half tlf).
      simpl. rewrite lookup_insert_eq, lookup_singleton_eq. done. }
  unfold bserver_Get, mbind, go_bind. simpl. unfold mem_get. rewrite He. simpl. by subst.
Qed.

(** All references of the block, if it exists, are archived. *)
Definition archived (id : BlockID) (m : bserverMemStorage) : Prop :=
  ∀ e, m !! id = Some e → has_live_ref (be_Refs e) = false.

Lemma has_live_ref_spec refs : has_live_ref refs = true ↔ ∃ n, refs !! n = Some liveBlockRef.
Proof.
  unfold has_live_ref. rewrite existsb_exists. split.
  - intros (st & Hin & ->%bool_decide_eq_true_1). apply list_elem_of_In in Hin.
    apply list_elem_of_fmap in Hin as ([n st'] & Hst & Hin). simpl in Hst. subst st'.
    exists n. by apply elem_of_map_to_list in Hin.
  - intros [n Hn]. exists liveBlockRef. split; [|by apply bool_decide_eq_true_2].
    apply list_elem_of_In, list_elem_of_fmap. exists (n, liveBlockRef). split; [done|].
    by apply elem_of_map_to_list.
Qed.

Lemma not_live refs : has_live_ref refs = false ↔ ∀ n, refs !! n ≠ Some liveBlockRef.
Proof.
  rewrite <- not_true_iff_false, has_live_ref_spec. naive_solver.
Qed.

Lemma archived_keeps id c : (∀ id' tlf ctx buf half, c = CallPut id' tlf ctx buf half → id' ≠ id) →
  call_keeps (archived id) c.
Proof.
  destruct c as [id'|id' tlf ctx buf' half'|id' ctx|l|l]; simpl; intros Hs; [done|..].
  - intros m Hm e. simpl. rewrite lookup_insert_ne by (by eapply Hs). apply Hm.
  - intros m Hm. unfold mem_addReference. destruct (m !! id') as [e|] eqn:He; [|done].
    destruct (has_live_ref _) eqn:Hl; [|done]. intros e'. simpl.
    destruct (decide (id' = id)) as [->|Hne]; [|rewrite lookup_insert_ne by done; apply Hm].
    by rewrite (Hm e He) in Hl.
  - intros id' ctxs ctx _ _ m Hm e'. rewrite mem_removeReference_spec. simpl.
    destruct (decide (id' = id)) as [->|Hne]; [|rewrite lookup_partial_alter_ne by done; apply Hm].
    rewrite lookup_partial_alter_eq. intros (e & He & Hd)%bind_Some. unfold drop_refs in Hd.
    destruct (decide _) as [|_] in Hd; [done|]. injection Hd as <-. simpl. specialize (Hm e He).
    rewrite not_live in *. intros n Hn. unfold left_refs in Hn. simpl in Hn.
    apply lookup_delete_Some in Hn as [_ Hn]. by apply (Hm n).
  - intros id' ctxs ctx _ _ m Hm. unfold mem_archiveReference.
    destruct (m !! id') as [e|] eqn:He; [|done]. destruct (be_Refs e !! _) eqn:Hr; [|done].
    intros e'. simpl. destruct (decide (id' = id)) as [->|Hne];
      [|rewrite lookup_insert_ne by done; apply Hm].
    rewrite lookup_insert_eq. intros [= <-]. specialize (Hm e He). rewrite not_live in *.
    simpl. intros n [[_ Hn]|[_ Hn]]%lookup_insert_Some; [done|]. by apply (Hm n).
Qed.

(** Archiving is final: once every reference of a block is archived,
    no session without a new [Put] of the block makes it referenceable
    again; a new reference is refused as archived, or, when the block is
    gone, as nonexistent. *)
Theorem archived_forever calls id ctx m :
  archived id m → (∀ c, c ∈ calls → ∀ id' tlf ctx buf half, c = CallPut id' tlf ctx buf half → id' ≠ id) →
  let m' := snd (session calls m) in
  bserver_AddBlockReference id NullTlfID ctx m' =
    (Err (match m' !! id with
          | Some _ => archived_block id
          | None => no_such_block_to "referenced" id
          end), m').
Proof.
  intros Hm Hcalls m'.
  assert (archived id m') as Ha.
  { apply session_keeps; [|done]. apply Forall_forall. intros c Hc. by apply archived_keeps, Hcalls. }
  unfold bserver_AddBlockReference. simpl. unfold mem_addReference.
  destruct (m' !! id) as [e|] eqn:He; [|done]. by rewrite (Ha e He).
Qed.
