(* ===== verification/BServerExamples.v ===== *)
(** * BServerExamples: witnesses for the block server

    A codec for block entries, a database over a finite map, and a
    session that puts, references, archives and removes a block. *)

From Stdlib Require Import ZArith Lia.
From S2P Require Import Prelude Types Errors GoStd Ids CryptoCommon Examples BServer BServerSpec.

#[global] Instance blockRefLocalStatus_countable : Countable blockRefLocalStatus.
Proof.
  apply (inj_countable' (λ t, match t with noBlockRef => 0 | liveBlockRef => 1 | archivedBlockRef => 2 end)
    (λ n, match n with 0 => noBlockRef | 1 => liveBlockRef | _ => archivedBlockRef end)); by intros [].
Defined.
#[global] Instance blockEntry_eq_dec : EqDecision blockEntry.
Proof. solve_decision. Defined.
#[global] Instance blockEntry_countable : Countable blockEntry.
Proof.
  by apply (inj_countable' (λ e, (be_BlockData e, be_Refs e, be_KeyServerHalf e, be_Tlf e))
    (λ '(d, r, k, t), MkBlockEntry d r k t)); intros [].
Defined.
#[global] Instance blockEntry_codec : Codec blockEntry := countable_codec.

Lemma blockEntry_encode_total (e : blockEntry) : ∃ buf, Encode e = Ok buf.
Proof. by eexists. Qed.

(** A database as a finite map. *)
#[global] Instance map_db : KVStore (gmap (list byte) (list byte)) (list byte) := {|
  kv_Get k d := (match d !! k with Some buf => Ok buf | None => Err LeveldbErrNotFound end, d);
  kv_Put k buf := modify (<[k := buf]>);
  kv_Delete k := modify (delete k);
  kv_IsNotFound e := bool_decide (e = LeveldbErrNotFound)
|}.

#[global] Program Instance map_db_laws : KVLaws (gmap (list byte) (list byte)) (list byte) := {|
  kv_model d p := d !! p;
  kv_notFound := LeveldbErrNotFound
|}.
Next Obligation. done. Qed.
Next Obligation. done. Qed.
Next Obligation. intros k b db. split; [done|]. intros k'. simpl. apply lookup_insert. Qed.
Next Obligation. intros k db _. split; [done|]. intros k'. simpl. apply lookup_delete. Qed.

Definition ex_bid (n : byte) : BlockID :=
  MkBlockID (MkHash (string_of_bytes (x01 :: replicate 31 x00 ++ [n]))).
Definition ex_nonce : BlockRefNonce := replicate 8 x07.
Definition ex_zero_ctx : BlockContext := MkBlockContext "u" "u" zeroBlockRefNonce.
Definition ex_ctx : BlockContext := MkBlockContext "u" "u" ex_nonce.

Definition ex_calls : list bserver_call :=
  [CallPut (ex_bid x01) NullTlfID ex_zero_ctx [x41] [x42];
   CallAdd (ex_bid x01) ex_ctx;
   CallRemove [(ex_bid x01, [ex_zero_ctx])];
   CallGet (ex_bid x01);
   CallArchive [(ex_bid x01, [ex_ctx])];
   CallAdd (ex_bid x01) ex_zero_ctx;
   CallRemove [(ex_bid x01, [ex_ctx])];
   CallGet (ex_bid x01)].

Lemma ex_calls_valid : Forall call_valid ex_calls.
Proof. by repeat constructor. Qed.

Definition ex_replies : list (bserver_reply + error) :=
  [inl ReplyDone; inl ReplyDone; inl (ReplyCounts {[ ex_bid x01 := 1%Z ]} None);
   inl (ReplyData [x41] [x42]); inl ReplyDone; inr (archived_block (ex_bid x01));
   inl (ReplyCounts {[ ex_bid x01 := 0%Z ]} None); inr (BServerErrorBlockNonExistent "")].

Lemma file_server_like_memory_witness :
  fst (@session disk (file_storage "/blocks") ex_calls ∅) = Ok ex_replies.
Proof.
  rewrite (file_server_like_memory "/blocks" ex_calls blockEntry_encode_total ex_calls_valid).
  vm_compute. reflexivity.
Defined.

Lemma leveldb_server_like_memory_witness :
  fst (@session _ (leveldb_storage (DB := gmap (list byte) (list byte))) ex_calls ∅) = Ok ex_replies.
Proof.
  rewrite (leveldb_server_like_memory (∅ : gmap (list byte) (list byte)) ex_calls
    blockEntry_encode_total (λ k, lookup_empty k) ex_calls_valid).
  vm_compute. reflexivity.
Defined.

Definition ex_stored : bserverMemStorage :=
  {[ ex_bid x01 := MkBlockEntry [x41] {[ zeroBlockRefNonce := liveBlockRef ]} [x42] NullTlfID ]}.

Lemma RemoveBlockReference_spec_witness :
  ∃ counts m', bserver_RemoveBlockReference NullTlfID [(ex_bid x01, [ex_zero_ctx])] ex_stored =
    (Ok (counts, None), m') ∧ counts !! ex_bid x01 = Some 0%Z ∧ m' !! ex_bid x01 = None.
Proof.
  destruct (RemoveBlockReference_spec NullTlfID {[ ex_bid x01 := [ex_zero_ctx] ]}
    [(ex_bid x01, [ex_zero_ctx])] ex_stored) as (counts & m' & Hr & Hm & Hc).
  { intros id e He. unfold ex_stored in He. by apply lookup_singleton_Some in He as [_ <-]. }
  { by rewrite map_to_list_singleton. }
  exists counts, m'. split_and!; [exact Hr|..].
  - rewrite Hc, lookup_singleton_eq. vm_compute. reflexivity.
  - rewrite Hm, lookup_singleton_eq. vm_compute. reflexivity.
Defined.

Lemma Get_iff_referenced_witness :
  is_Ok (fst (bserver_Get (ex_bid x01) NullTlfID some_ctx (snd (session ex_calls ∅)))) = true ↔
  ∃ e n st, (snd (session ex_calls ∅) : bserverMemStorage) !! ex_bid x01 = Some e ∧
    be_Refs e !! n = Some st.
Proof. exact (Get_iff_referenced ex_calls _ (ex_bid x01) eq_refl). Defined.

Lemma Put_then_Get_witness :
  let calls := [CallAdd (ex_bid x01) ex_ctx; CallRemove [(ex_bid x01, [ex_ctx])];
                CallArchive [(ex_bid x01, [ex_zero_ctx])]] in
  fst (bserver_Get (ex_bid x01) NullTlfID some_ctx
    (snd (session calls (snd (bserver_Put (ex_bid x01) NullTlfID ex_zero_ctx [x41] [x42]
      (∅ : bserverMemStorage)))))) = Ok ([x41], [x42]).
Proof.
  intros calls. apply (Put_then_Get calls (ex_bid x01) NullTlfID ex_zero_ctx [x41] [x42] ∅ eq_refl).
  repeat constructor. simpl. intros ctxs ctx Hl Hc.
  apply list_elem_of_singleton in Hl. injection Hl as ->.
  by apply list_elem_of_singleton in Hc as ->.
Defined.

Definition ex_archived : bserverMemStorage :=
  {[ ex_bid x01 := MkBlockEntry [x41] {[ zeroBlockRefNonce := archivedBlockRef ]} [x42] NullTlfID ]}.

Lemma archived_forever_witness :
  fst (bserver_AddBlockReference (ex_bid x01) NullTlfID ex_ctx
    (snd (session [CallGet (ex_bid x01)] ex_archived))) = Err (archived_block (ex_bid x01)).
Proof.
  rewrite (archived_forever [CallGet (ex_bid x01)] (ex_bid x01) ex_ctx ex_archived).
  - vm_compute. reflexivity.
  - intros e He. unfold ex_archived in He. apply lookup_singleton_Some in He as [_ <-]. vm_compute. reflexivity.
  - intros c Hc. by apply list_elem_of_singleton in Hc as ->.
Defined.
