(* ===== verification/Lru.v ===== *)
(** * Lru: the LRU cache behind the block cache

    [simplelru/lru.go] of the vendored [hashicorp/golang-lru]: the
    eviction list with its most recent item first.  An operation returns
    the item it removed, which is what the eviction callback is called
    with.  The invariant [lru_ok]: one item per key, and at most [size]
    of them. *)

From Stdlib Require Import Lia.
From S2P Require Import Prelude.

Record LRU (K V : Type) := MkLRU {
  lru_size : nat;
  lru_evictList : list (K * V)
}.
Arguments MkLRU {K V} _ _.
Arguments lru_size {K V} _.
Arguments lru_evictList {K V} _.

Section lru.
Context {K V : Type} `{EqDecision K}.
Implicit Types (c : LRU K V) (l : list (K * V)) (k : K) (v : V).

Fixpoint assoc k l : option V :=
  match l with
  | [] => None
  | (k', v) :: l => if decide (k' = k) then Some v else assoc k l
  end.

Definition without k l : list (K * V) := filter (λ kv, kv.1 ≠ k) l.

Definition lru_Len c : nat := length (lru_evictList c).

Definition lru_Peek k c : option V := assoc k (lru_evictList c).

Definition lru_Get k c : option V * LRU K V :=
  match assoc k (lru_evictList c) with
  | Some v => (Some v, MkLRU (lru_size c) ((k, v) :: without k (lru_evictList c)))
  | None => (None, c)
  end.

Definition lru_Remove k c : LRU K V * option (K * V) :=
  match assoc k (lru_evictList c) with
  | Some v => (MkLRU (lru_size c) (without k (lru_evictList c)), Some (k, v))
  | None => (c, None)
  end.

Definition lru_RemoveOldest c : LRU K V * option (K * V) :=
  (MkLRU (lru_size c) (removelast (lru_evictList c)), last (lru_evictList c)).

Definition lru_Add k v c : LRU K V * option (K * V) :=
  match assoc k (lru_evictList c) with
  | Some _ => (MkLRU (lru_size c) ((k, v) :: without k (lru_evictList c)), None)
  | None =>
      let c := MkLRU (lru_size c) ((k, v) :: lru_evictList c) in
      if decide (lru_size c < lru_Len c) then lru_RemoveOldest c else (c, None)
  end.

(** ** The invariant *)

Definition lru_ok c : Prop :=
  NoDup (fst <$> lru_evictList c) ∧ lru_Len c <= lru_size c ∧ 0 < lru_size c.

Lemma assoc_None k l : assoc k l = None ↔ k ∉ (fst <$> l).
Proof.
  induction l as [|[k' v] l IH]; simpl; [set_solver|].
  rewrite not_elem_of_cons, <- IH. destruct (decide (k' = k)) as [->|]; naive_solver.
Qed.

Lemma assoc_Some k v l : NoDup (fst <$> l) → assoc k l = Some v ↔ (k, v) ∈ l.
Proof.
  induction l as [|[k' v'] l IH]; simpl; intros Hnd; [set_solver|].
  apply NoDup_cons in Hnd as [Hni Hnd]. rewrite elem_of_cons, <- IH by done.
  destruct (decide (k' = k)) as [->|Hne]; [|naive_solver].
  split; [naive_solver|]. intros [[= ->]|Ha]; [done|].
  assert (k ∈ fst <$> l); [|done]. apply IH in Ha; [|done].
  apply list_elem_of_fmap. by exists (k, v).
Qed.

Lemma without_fresh k l : k ∉ (fst <$> l) → without k l = l.
Proof.
  intros Hk. unfold without. induction l as [|[k' v] l IH]; [done|].
  rewrite fmap_cons, not_elem_of_cons in Hk. destruct Hk as [Hne Hk]. simpl in Hne.
  rewrite filter_cons_True by (simpl; congruence). f_equal. by apply IH.
Qed.

Lemma assoc_split k v l : NoDup (fst <$> l) → assoc k l = Some v →
  ∃ l1 l2, l = l1 ++ (k, v) :: l2 ∧ without k l = l1 ++ l2.
Proof.
  intros Hnd Ha. apply assoc_Some in Ha; [|done].
  apply list_elem_of_split in Ha as (l1 & l2 & ->). exists l1, l2. split; [done|].
  rewrite fmap_app, fmap_cons in Hnd. apply NoDup_app in Hnd as (_ & H1 & H2).
  apply NoDup_cons in H2 as [H2 _]. unfold without. rewrite filter_app.
  rewrite filter_cons_False by (intros Hn; by apply Hn). f_equal; apply without_fresh; [|done].
  intros Hk. apply (H1 k Hk). by left.
Qed.

Lemma without_sublist k l : without k l `sublist_of` l.
Proof. apply sublist_filter. Qed.

Lemma elem_of_without k l k' : k' ∈ (fst <$> without k l) ↔ k' ∈ (fst <$> l) ∧ k' ≠ k.
Proof.
  rewrite !list_elem_of_fmap. unfold without. setoid_rewrite list_elem_of_filter. naive_solver.
Qed.

Lemma NoDup_fst_sublist l l' : l' `sublist_of` l → NoDup (fst <$> l) → NoDup (fst <$> l').
Proof. intros Hs Hnd. eapply sublist_NoDup; [exact Hnd|]. by apply fmap_sublist. Qed.

Lemma removelast_app_last l : l = removelast l ++ match last l with Some x => [x] | None => [] end.
Proof.
  induction l as [|x l IH]; [done|]. destruct l as [|y l]; [done|].
  change (removelast (x :: y :: l)) with (x :: removelast (y :: l)).
  rewrite last_cons_cons. simpl. f_equal. exact IH.
Qed.

Lemma removelast_prefix l : removelast l `prefix_of` l.
Proof. rewrite (removelast_app_last l) at 2. apply prefix_app_r. done. Qed.

Lemma prefix_sublist_of l l' : l' `prefix_of` l → l' `sublist_of` l.
Proof. intros [k ->]. apply sublist_inserts_r. done. Qed.

Lemma length_removelast l : length (removelast l) = length l - 1.
Proof.
  induction l as [|x l IH]; [done|]. destruct l as [|y l]; [done|].
  change (removelast (x :: y :: l)) with (x :: removelast (y :: l)). simpl in *. rewrite IH. lia.
Qed.

Lemma lru_RemoveOldest_ok c : lru_ok c → lru_ok (lru_RemoveOldest c).1.
Proof.
  intros (Hnd & Hl & Hs). unfold lru_ok, lru_Len in *. simpl. rewrite length_removelast.
  split_and!; [|lia|done]. eapply NoDup_fst_sublist; [|done].
  apply prefix_sublist_of, removelast_prefix.
Qed.

Lemma lru_Remove_ok k c : lru_ok c → lru_ok (lru_Remove k c).1.
Proof.
  intros (Hnd & Hl & Hs). unfold lru_Remove. destruct (assoc k _); [|done].
  unfold lru_ok, lru_Len in *. simpl.
  pose proof (sublist_length _ _ (without_sublist k (lru_evictList c))).
  split_and!; [|lia|done]. eapply NoDup_fst_sublist; [apply without_sublist|done].
Qed.

Lemma lru_front_ok k v v' c : lru_ok c → assoc k (lru_evictList c) = Some v →
  lru_ok (MkLRU (lru_size c) ((k, v') :: without k (lru_evictList c))).
Proof.
  intros (Hnd & Hl & Hs) Ha. unfold lru_ok, lru_Len in *. simpl. split_and!; [|..|done].
  - apply NoDup_cons. split; [|eapply NoDup_fst_sublist; [apply without_sublist|done]].
    rewrite elem_of_without. naive_solver.
  - destruct (assoc_split k v _ Hnd Ha) as (l1 & l2 & E & ->). rewrite E in Hl.
    rewrite length_app in *. simpl in *. lia.
Qed.

Lemma lru_Get_ok k c : lru_ok c → lru_ok (lru_Get k c).2.
Proof.
  intros Hc. unfold lru_Get. destruct (assoc k _) as [v|] eqn:Ha; [|done].
  by eapply lru_front_ok.
Qed.

Lemma lru_Add_ok k v c : lru_ok c → lru_ok (lru_Add k v c).1.
Proof.
  intros Hc. unfold lru_Add. destruct (assoc k _) as [v'|] eqn:Ha; [by eapply lru_front_ok|].
  destruct Hc as (Hnd & Hl & Hs). apply assoc_None in Ha.
  assert (NoDup (fst <$> (k, v) :: lru_evictList c)) as Hnd' by by apply NoDup_cons.
  set (c' := MkLRU (lru_size c) ((k, v) :: lru_evictList c)).
  destruct (decide (lru_size c' < lru_Len c')) as [Hd|Hd].
  - unfold lru_RemoveOldest, lru_ok, lru_Len in *. cbn [fst lru_evictList lru_size].
    rewrite length_removelast. subst c'. simpl in Hd. split_and!; [|simpl; lia|done].
    eapply NoDup_fst_sublist; [apply prefix_sublist_of, removelast_prefix|done].
  - unfold lru_ok, lru_Len in *. subst c'. simpl in *. split_and!; [done|lia|done].
Qed.

(** An item just added is found (the cache has room for one). *)
Lemma lru_Add_Peek k v c : lru_ok c → lru_Peek k (lru_Add k v c).1 = Some v.
Proof.
  intros (Hnd & Hl & Hs). unfold lru_Add, lru_Peek. destruct (assoc k (lru_evictList c)) as [v'|] eqn:Ha.
  { simpl. by rewrite decide_True. }
  cbv zeta. case_decide as Hd; simpl; [|by rewrite decide_True].
  unfold lru_Len in *. simpl in *. destruct (lru_evictList c) as [|y l]; simpl in *; [lia|].
  by rewrite decide_True.
Qed.

End lru.
