(* ===== verification/BlockCache.v ===== *)
(** * BlockCache: the cache of clean and dirty blocks

    [libkbfs/bcache.go]: [BlockCacheStandard] with its transient LRU, its
    permanent entries, the dirty blocks, and the byte accounting that
    decides evictions.  Then: what eviction removes, that the accounting
    is exact under the discipline its users follow, and where it breaks. *)

From Stdlib Require Import ZArith Lia.
From S2P Require Import Prelude Types Errors GoStd Ids CryptoCommon DataTypes Lru FolderBlocks.

Record idCacheKey := MkIdCacheKey { ick_tlf : TlfID; ick_plaintextHash : list byte }.
#[global] Instance idCacheKey_eq_dec : EqDecision idCacheKey.
Proof. solve_decision. Defined.

Record BlockCacheStandard := MkBlockCacheStandard {
  bcs_cleanBytesCapacity : Z;
  bcs_ids : option (LRU idCacheKey BlockPointer);
  bcs_cleanTransient : option (LRU BlockID Block);
  bcs_cleanPermanent : gmap BlockID Block;
  bcs_cleanTotalBytes : Z;
  bcs_dirty : gmap dirtyBlockID Block;
  bcs_dirtyBytesEstimate : Z
}.

Definition set_ids ids b := MkBlockCacheStandard (bcs_cleanBytesCapacity b) ids (bcs_cleanTransient b)
  (bcs_cleanPermanent b) (bcs_cleanTotalBytes b) (bcs_dirty b) (bcs_dirtyBytesEstimate b).
(** The transient cache and the byte count change together. *)
Definition set_transient c total b := MkBlockCacheStandard (bcs_cleanBytesCapacity b) (bcs_ids b) c
  (bcs_cleanPermanent b) total (bcs_dirty b) (bcs_dirtyBytesEstimate b).
Definition set_permanent p total b := MkBlockCacheStandard (bcs_cleanBytesCapacity b) (bcs_ids b)
  (bcs_cleanTransient b) p total (bcs_dirty b) (bcs_dirtyBytesEstimate b).
Definition set_dirty_blocks d est b := MkBlockCacheStandard (bcs_cleanBytesCapacity b) (bcs_ids b)
  (bcs_cleanTransient b) (bcs_cleanPermanent b) (bcs_cleanTotalBytes b) d est.

(** [lru.New] refuses a size that is not positive, which is not reached. *)
Definition NewBlockCacheStandard (transientCapacity : nat) (cleanBytesCapacity : Z)
    : BlockCacheStandard :=
  let lrus {K V} : option (LRU K V) :=
    if decide (0 < transientCapacity) then Some (MkLRU transientCapacity []) else None in
  MkBlockCacheStandard cleanBytesCapacity lrus lrus ∅ 0 ∅ 0.

Definition bcs_Get (ptr : BlockPointer) (branch : BranchName) (b : BlockCacheStandard)
    : res Block * BlockCacheStandard :=
  let permanent b :=
    (match bcs_cleanPermanent b !! bp_ID ptr with
     | Some block => Ok block
     | None => Err (NoSuchBlockError (bp_ID ptr))
     end, b) in
  match bcs_dirty b !! dirty_key ptr branch with
  | Some block => (Ok block, b)
  | None =>
      match bcs_cleanTransient b with
      | Some c =>
          match lru_Get (bp_ID ptr) c with
          | (Some block, c) => (Ok block, set_transient (Some c) (bcs_cleanTotalBytes b) b)
          | (None, _) => permanent b
          end
      | None => permanent b
      end
  end.

(** A [uint32]. *)
Definition getCachedBlockSize (block : Block) : Z :=
  match block with
  | FileB f => if fb_IsInd f then to_u32 (GetEncodedSize block) else to_u32 (zlen (fb_Contents f))
  | _ => to_u32 (GetEncodedSize block)
  end.

(** The callback, called with the item that leaves the transient cache. *)
Definition onEvict (evicted : option (BlockID * Block)) (total : Z) : Z :=
  match evicted with
  | Some (_, block) => to_u64 (total - getCachedBlockSize block)
  | None => total
  end.

Definition known_key (tlf : TlfID) (f : FileBlock) : idCacheKey :=
  MkIdCacheKey tlf (snd (DoRawDefaultHash (fb_Contents f))).

Definition CheckForKnownPtr (tlf : TlfID) (block : FileBlock) (b : BlockCacheStandard)
    : res BlockPointer * BlockCacheStandard :=
  if fb_IsInd block then (Err NotDirectFileBlockError, b)
  else
    match bcs_ids b with
    | None => (Ok zeroPtr, b)
    | Some ids =>
        match lru_Get (known_key tlf block) ids with
        | (Some ptr, ids) => (Ok ptr, set_ids (Some ids) b)
        | (None, _) => (Ok zeroPtr, b)
        end
    end.

(** The loop: evict until there is room, or until nothing was removed. *)
Fixpoint makeRoom_loop (fuel : nat) (capacity size : Z) (oldLen : nat) (c : LRU BlockID Block)
    (total : Z) : LRU BlockID Block * Z :=
  match fuel with
  | O => (c, total)
  | S fuel =>
      if decide (capacity < to_u64 (total + size))%Z then
        if decide (oldLen = lru_Len c) then (c, total)
        else
          let oldLen := lru_Len c in
          let '(c, evicted) := lru_RemoveOldest c in
          makeRoom_loop fuel capacity size oldLen c (onEvict evicted total)
      else (c, total)
  end.

(** Every iteration but the last removes an item. *)
Definition makeRoom_fuel (c : LRU BlockID Block) : nat := S (S (lru_Len c)).

Definition makeRoomForSize (size : Z) (b : BlockCacheStandard) : bool * BlockCacheStandard :=
  match bcs_cleanTransient b with
  | None => (false, b)
  | Some c =>
      let '(c', total) := makeRoom_loop (makeRoom_fuel c) (bcs_cleanBytesCapacity b) size
                            (lru_Len c + 1) c (bcs_cleanTotalBytes b) in
      if decide (bcs_cleanBytesCapacity b < to_u64 (total + size))%Z
      then (false, set_transient (Some c') total b)
      else (true, set_transient (Some c') (to_u64 (total + size)) b)
  end.

(** The hash of a direct file block is remembered, without the nonce. *)
Definition note_known_ptr (ptr : BlockPointer) (tlf : TlfID) (block : Block)
    (lifetime : BlockCacheLifetime) (b : BlockCacheStandard) : BlockCacheStandard :=
  match block, bcs_ids b, lifetime with
  | FileB f, Some ids, TransientEntry =>
      if fb_IsInd f then b
      else
        let ptr := MkBlockPointer (bp_ID ptr) (bp_KeyGen ptr) (bp_DataVer ptr) (bp_Creator ptr)
                     (bp_Writer ptr) zeroBlockRefNonce in
        set_ids (Some (lru_Add (known_key tlf f) ptr ids).1) b
  | _, _, _ => b
  end.

Definition bcs_Put (ptr : BlockPointer) (tlf : TlfID) (block : Block)
    (lifetime : BlockCacheLifetime) (b : BlockCacheStandard) : BlockCacheStandard :=
  let b := note_known_ptr ptr tlf block lifetime b in
  let b := match lifetime with
           | TransientEntry => b
           | PermanentEntry =>
               set_permanent (<[bp_ID ptr := block]> (bcs_cleanPermanent b)) (bcs_cleanTotalBytes b) b
           end in
  let '(madeRoom, b) := makeRoomForSize (getCachedBlockSize block) b in
  match madeRoom, lifetime, bcs_cleanTransient b with
  | true, TransientEntry, Some c =>
      let '(c, evicted) := lru_Add (bp_ID ptr) block c in
      set_transient (Some c) (onEvict evicted (bcs_cleanTotalBytes b)) b
  | _, _, _ => b
  end.

Definition bcs_PutDirty (ptr : BlockPointer) (branch : BranchName) (block : Block)
    (b : BlockCacheStandard) : BlockCacheStandard :=
  set_dirty_blocks (<[dirty_key ptr branch := block]> (bcs_dirty b)) 0 b.

Definition DeletePermanent (id : BlockID) (b : BlockCacheStandard) : BlockCacheStandard :=
  match bcs_cleanPermanent b !! id with
  | Some block =>
      set_permanent (delete id (bcs_cleanPermanent b))
        (to_u64 (bcs_cleanTotalBytes b - getCachedBlockSize block)) b
  | None => b
  end.

Definition DeleteTransient (ptr : BlockPointer) (tlf : TlfID) (b : BlockCacheStandard)
    : BlockCacheStandard :=
  match bcs_cleanTransient b with
  | None => b
  | Some c =>
      match lru_Get (bp_ID ptr) c with
      | (None, _) => b
      | (Some block, c) =>
          let b := match block, bcs_ids b with
                   | FileB f, Some ids =>
                       if fb_IsInd f then b
                       else set_ids (Some (lru_Remove (known_key tlf f) ids).1) b
                   | _, _ => b
                   end in
          let '(c, evicted) := lru_Remove (bp_ID ptr) c in
          set_transient (Some c) (onEvict evicted (bcs_cleanTotalBytes b)) b
      end
  end.

Definition DeleteKnownPtr (tlf : TlfID) (block : FileBlock) (b : BlockCacheStandard)
    : res unit * BlockCacheStandard :=
  if fb_IsInd block then (Err NotDirectFileBlockError, b)
  else
    match bcs_ids b with
    | None => (Ok tt, b)
    | Some ids => (Ok tt, set_ids (Some (lru_Remove (known_key tlf block) ids).1) b)
    end.

Definition bcs_DeleteDirty (ptr : BlockPointer) (branch : BranchName) (b : BlockCacheStandard)
    : BlockCacheStandard :=
  set_dirty_blocks (delete (dirty_key ptr branch) (bcs_dirty b)) 0 b.

Definition bcs_IsDirty (ptr : BlockPointer) (branch : BranchName) (b : BlockCacheStandard) : bool :=
  bool_decide (is_Some (bcs_dirty b !! dirty_key ptr branch)).

(** The sum of the sizes, in whatever order. *)
Definition DirtyBytesEstimate (b : BlockCacheStandard) : Z * BlockCacheStandard :=
  if decide (bcs_dirtyBytesEstimate b = 0)%Z then
    let est := map_fold (λ _ block acc, to_u64 (acc + getCachedBlockSize block)) 0%Z (bcs_dirty b) in
    (est, set_dirty_blocks (bcs_dirty b) est b)
  else (bcs_dirtyBytesEstimate b, b).

(** ** Byte accounting *)

Lemma getCachedBlockSize_bound block : (0 <= getCachedBlockSize block < 2 ^ 32)%Z.
Proof. destruct block as [|d|f]; simpl; [apply to_u32_bound..|]. destruct (fb_IsInd f); apply to_u32_bound. Qed.

Definition blocks_bytes (l : list Block) : Z := foldr (λ b acc, getCachedBlockSize b + acc)%Z 0%Z l.

Lemma blocks_bytes_app l k : blocks_bytes (l ++ k) = (blocks_bytes l + blocks_bytes k)%Z.
Proof. induction l as [|b l IH]; simpl; [lia|]. unfold blocks_bytes in *. lia. Qed.

Lemma blocks_bytes_nonneg l : (0 <= blocks_bytes l)%Z.
Proof. induction l as [|b l IH]; simpl; [done|]. pose proof (getCachedBlockSize_bound b). lia. Qed.

#[global] Instance blocks_bytes_perm : Proper ((≡ₚ) ==> (=)) blocks_bytes.
Proof. induction 1; simpl in *; lia. Qed.

(** The bytes of the transient and of the permanent entries. *)
Definition transient_bytes (c : LRU BlockID Block) : Z := blocks_bytes (snd <$> lru_evictList c).
Definition permanent_bytes (p : gmap BlockID Block) : Z := blocks_bytes (snd <$> map_to_list p).

Lemma permanent_bytes_insert p id block : p !! id = None →
  permanent_bytes (<[id := block]> p) = (getCachedBlockSize block + permanent_bytes p)%Z.
Proof. intros Hp. unfold permanent_bytes. by rewrite map_to_list_insert. Qed.

Lemma permanent_bytes_delete p id block : p !! id = Some block →
  permanent_bytes p = (getCachedBlockSize block + permanent_bytes (delete id p))%Z.
Proof. intros Hp. unfold permanent_bytes. by rewrite <- (map_to_list_delete p id block Hp). Qed.

Lemma transient_bytes_cons size k v l :
  transient_bytes (MkLRU size ((k, v) :: l)) = (getCachedBlockSize v + transient_bytes (MkLRU size l))%Z.
Proof. done. Qed.

Lemma transient_bytes_take n size l :
  (transient_bytes (MkLRU size (take n l)) <= transient_bytes (MkLRU size l))%Z.
Proof.
  unfold transient_bytes. simpl. rewrite <- (take_drop n l) at 2. rewrite fmap_app, blocks_bytes_app.
  pose proof (blocks_bytes_nonneg (snd <$> drop n l)). lia.
Qed.

Lemma removelast_take {A} (l : list A) : removelast l = take (length l - 1) l.
Proof.
  induction l as [|x l IH]; [done|]. destruct l as [|y l]; [done|].
  change (removelast (x :: y :: l)) with (x :: removelast (y :: l)). rewrite IH. simpl.
  by rewrite Nat.sub_0_r.
Qed.

Lemma onEvict_oldest size l total rest : (0 <= rest)%Z → (total < 2 ^ 64)%Z →
  total = (transient_bytes (MkLRU size l) + rest)%Z →
  onEvict (last l) total = (transient_bytes (MkLRU size (removelast l)) + rest)%Z.
Proof.
  intros Hr Ht ->. unfold transient_bytes in *. simpl in *. destruct (last l) as [[k v]|] eqn:El; simpl.
  - rewrite (removelast_app_last l), El in Ht |- *. rewrite removelast_last.
    rewrite fmap_app, blocks_bytes_app in *. simpl in *.
    pose proof (blocks_bytes_nonneg (snd <$> removelast l)). pose proof (getCachedBlockSize_bound v).
    rewrite to_u64_small; lia.
  - apply last_None in El. by subst.
Qed.

(** The eviction loop leaves the most recent items that fit. *)
Lemma makeRoom_loop_spec fuel capacity size lsize l rest oldLen :
  (0 <= rest)%Z → (0 <= size < 2 ^ 32)%Z → (transient_bytes (MkLRU lsize l) + rest < 2 ^ 63)%Z →
  oldLen ≠ length l → length l + 2 <= fuel →
  let fits n := (transient_bytes (MkLRU lsize (take n l)) + rest + size <= capacity)%Z in
  ∃ n, n <= length l ∧
    makeRoom_loop fuel capacity size oldLen (MkLRU lsize l) (transient_bytes (MkLRU lsize l) + rest) =
      (MkLRU lsize (take n l), transient_bytes (MkLRU lsize (take n l)) + rest)%Z ∧
    (fits n ∨ n = 0) ∧ (n = length l ∨ ¬ fits (S n)).
Proof.
  intros Hr Hsz. revert l oldLen. induction fuel as [|fuel IH]; intros l oldLen Hb Hold Hfuel fits; [lia|].
  pose proof (blocks_bytes_nonneg (snd <$> l)) as Hnn.
  assert (fits (length l) ↔ ¬ (capacity < to_u64 (transient_bytes (MkLRU lsize l) + rest + size))%Z) as Hfits.
  { subst fits. cbv beta. rewrite firstn_all. unfold transient_bytes in *. simpl in *.
    rewrite to_u64_small by lia. lia. }
  cbn [makeRoom_loop]. destruct (decide _) as [Hgt|Hgt].
  2:{ exists (length l). rewrite firstn_all. split_and!; [done..|left; by apply Hfits|by left]. }
  unfold lru_Len. cbn [lru_evictList]. rewrite decide_False by done.
  unfold lru_RemoveOldest. cbn [lru_evictList lru_size].
  rewrite (onEvict_oldest lsize l _ rest) by lia.
  destruct l as [|x l'].
  { exists 0. destruct fuel; [simpl in Hfuel; lia|]. simpl in Hgt |- *.
    rewrite decide_True by done. split_and!; [done..|by right|by left]. }
  set (l := x :: l') in *.
  destruct (IH (removelast l) (length l)) as (n & Hn & Hloop & Hfit & Hmax).
  { rewrite removelast_take. pose proof (transient_bytes_take (length l - 1) lsize l). lia. }
  { rewrite length_removelast. subst l. simpl. lia. }
  { rewrite length_removelast. subst l. simpl in *. lia. }
  rewrite length_removelast in Hn, Hmax. rewrite removelast_take in Hloop, Hfit, Hmax |- *.
  assert (1 <= length l) as Hl by (subst l; simpl; lia).
  assert (∀ k, k <= length l - 1 → take k (take (length l - 1) l) = take k l) as Htt.
  { intros k Hk. rewrite take_take. f_equal. lia. }
  rewrite Htt in Hloop, Hfit by done. exists n. split_and!; [lia|exact Hloop|exact Hfit|].
  right. destruct Hmax as [->|Hmax].
  - replace (S (length l - 1)) with (length l) by lia. rewrite Hfits. intros Hx. by apply Hx.
  - destruct (decide (n = length l - 1)) as [->|Hne].
    + replace (S (length l - 1)) with (length l) by lia. rewrite Hfits. intros Hx. by apply Hx.
    + by rewrite Htt in Hmax by lia.
Qed.

(** The invariant of the clean caches: the byte count is the sum of the
    sizes of all clean blocks, within the capacity. *)
Record bytes_ok (b : BlockCacheStandard) (c : LRU BlockID Block) : Prop := {
  bo_transient : bcs_cleanTransient b = Some c;
  bo_lru : lru_ok c;
  bo_total : bcs_cleanTotalBytes b = (transient_bytes c + permanent_bytes (bcs_cleanPermanent b))%Z;
  bo_fits : (bcs_cleanTotalBytes b <= bcs_cleanBytesCapacity b)%Z;
  bo_capacity : (bcs_cleanBytesCapacity b < 2 ^ 62)%Z
}.

Lemma makeRoomForSize_spec b c size :
  bytes_ok b c → (0 <= size < 2 ^ 32)%Z →
  let rest := permanent_bytes (bcs_cleanPermanent b) in
  let kept n := MkLRU (lru_size c) (take n (lru_evictList c)) in
  let fits n := (transient_bytes (kept n) + rest + size <= bcs_cleanBytesCapacity b)%Z in
  ∃ n, n <= lru_Len c ∧ (fits n ∨ n = 0) ∧ (n = lru_Len c ∨ ¬ fits (S n)) ∧
    makeRoomForSize size b = (bool_decide (fits n),
      set_transient (Some (kept n))
        (transient_bytes (kept n) + rest + if decide (fits n) then size else 0)%Z b).
Proof.
  intros [Ht Hl Hto Hfi Hca] Hsz rest kept fits. destruct c as [lsize l].
  assert (0 <= rest)%Z as Hr by apply blocks_bytes_nonneg.
  pose proof (blocks_bytes_nonneg (snd <$> l)) as Hnn.
  destruct (makeRoom_loop_spec (makeRoom_fuel (MkLRU lsize l)) (bcs_cleanBytesCapacity b) size lsize l rest
    (length l + 1)) as (n & Hn & Hloop & Hfit & Hmax); try lia.
  { unfold makeRoom_fuel, lru_Len. simpl. lia. }
  exists n. split_and!; [exact Hn|exact Hfit|exact Hmax|].
  unfold makeRoomForSize. rewrite Ht, Hto. unfold lru_Len. cbn [lru_evictList]. fold rest. rewrite Hloop.
  change (MkLRU lsize (take n l)) with (kept n).
  pose proof (transient_bytes_take n lsize l) as Htk. change (MkLRU lsize (take n l)) with (kept n) in Htk.
  pose proof (blocks_bytes_nonneg (snd <$> take n l)) as Hnn'.
  change (blocks_bytes (snd <$> take n l)) with (transient_bytes (kept n)) in Hnn'.
  rewrite to_u64_small by lia. subst fits. cbv beta.
  destruct (decide (bcs_cleanBytesCapacity b < transient_bytes (kept n) + rest + size)%Z).
  - rewrite decide_False, bool_decide_false by lia. by rewrite Z.add_0_r.
  - rewrite decide_True, bool_decide_true by lia. done.
Qed.

(** Making room for a block evicts from the oldest end only: what is
    kept are the [n] most recent blocks, as many as leave room for the
    new block next to the permanent ones; it fails only when even an
    empty transient cache would not leave room, and then the permanent
    blocks alone are counted. *)
Theorem makeRoomForSize_evicts b c size :
  bytes_ok b c → (0 <= size < 2 ^ 32)%Z →
  let rest := permanent_bytes (bcs_cleanPermanent b) in
  let kept n := MkLRU (lru_size c) (take n (lru_evictList c)) in
  let fits n := (transient_bytes (kept n) + rest + size <= bcs_cleanBytesCapacity b)%Z in
  ∃ n b', n <= lru_Len c ∧ (n = lru_Len c ∨ ¬ fits (S n)) ∧
    bcs_cleanTransient b' = Some (kept n) ∧ bcs_cleanPermanent b' = bcs_cleanPermanent b ∧
    ((fits n ∧ makeRoomForSize size b = (true, b') ∧
        bcs_cleanTotalBytes b' = (transient_bytes (kept n) + rest + size)%Z) ∨
     (n = 0 ∧ ¬ fits 0 ∧ makeRoomForSize size b = (false, b') ∧ bcs_cleanTotalBytes b' = rest)).
Proof.
  intros Hb Hsz rest kept fits.
  destruct (makeRoomForSize_spec b c size Hb Hsz) as (n & Hn & Hfit & Hmax & Hmk).
  fold rest in Hfit, Hmax, Hmk. fold (kept n) in Hfit, Hmk. fold (kept (S n)) in Hmax. fold (fits n) in Hfit, Hmk.
  fold (fits (S n)) in Hmax.
  exists n, (makeRoomForSize size b).2. rewrite Hmk. split_and!; [done..|].
  destruct (decide (fits n)) as [Hf|Hf]; [left|right].
  - by rewrite bool_decide_true.
  - destruct Hfit as [|Hn0]; [done|]. rewrite bool_decide_false by done.
    rewrite <- Hn0 at 2. split_and!; [done..|]. simpl. rewrite Hn0. unfold transient_bytes. simpl. lia.
Qed.

(** ** The accounting is exact *)

Lemma take_lru_ok n (c : LRU BlockID Block) : lru_ok c → lru_ok (MkLRU (lru_size c) (take n (lru_evictList c))).
Proof.
  intros (Hnd & Hl & Hs). unfold lru_ok, lru_Len in *. simpl. rewrite length_take.
  split_and!; [|lia|done]. eapply NoDup_fst_sublist; [|done]. apply sublist_take.
Qed.

(** After making room: the invariant but for the bytes of the new block. *)
Lemma makeRoom_ok b c size : bytes_ok b c → (0 <= size < 2 ^ 32)%Z →
  ∃ n ok b', makeRoomForSize size b = (ok, b') ∧
    bcs_cleanTransient b' = Some (MkLRU (lru_size c) (take n (lru_evictList c))) ∧
    bcs_cleanPermanent b' = bcs_cleanPermanent b ∧
    bcs_cleanBytesCapacity b' = bcs_cleanBytesCapacity b ∧
    bcs_ids b' = bcs_ids b ∧ bcs_dirty b' = bcs_dirty b ∧
    (ok = true ↔ (permanent_bytes (bcs_cleanPermanent b) + size <= bcs_cleanBytesCapacity b)%Z) ∧
    bcs_cleanTotalBytes b' = (transient_bytes (MkLRU (lru_size c) (take n (lru_evictList c))) +
      permanent_bytes (bcs_cleanPermanent b) + if ok then size else 0)%Z ∧
    (bcs_cleanTotalBytes b' <= bcs_cleanBytesCapacity b)%Z.
Proof.
  intros Hb Hsz. destruct (makeRoomForSize_spec b c size Hb Hsz) as (n & Hn & Hfit & Hmax & Hmk).
  eexists n, _, _. split; [exact Hmk|]. simpl. split_and!; try done.
  - rewrite bool_decide_eq_true. pose proof (blocks_bytes_nonneg (snd <$> take n (lru_evictList c))).
    unfold transient_bytes in *. simpl in *. split; [lia|].
    intros Hr. destruct Hfit as [Hfit| ->]; [done|]. simpl. lia.
  - by destruct (decide _); rewrite ?bool_decide_true, ?bool_decide_false by done.
  - destruct (decide _) as [Hf|Hf]; [lia|]. destruct Hfit as [|Hn0]; [done|].
    destruct Hb as [_ _ Hto Hfi _]. rewrite Hto in Hfi. rewrite Hn0. unfold transient_bytes in *. simpl.
    pose proof (blocks_bytes_nonneg (snd <$> lru_evictList c)). lia.
Qed.

Lemma note_known_ptr_clean ptr tlf block lifetime b :
  let b' := note_known_ptr ptr tlf block lifetime b in
  bcs_cleanTransient b' = bcs_cleanTransient b ∧ bcs_cleanPermanent b' = bcs_cleanPermanent b ∧
  bcs_cleanTotalBytes b' = bcs_cleanTotalBytes b ∧ bcs_dirty b' = bcs_dirty b ∧
  bcs_cleanBytesCapacity b' = bcs_cleanBytesCapacity b.
Proof.
  unfold note_known_ptr. destruct block as [|d|f], (bcs_ids b), lifetime; try done.
  by destruct (fb_IsInd f).
Qed.

(** Only the clean caches matter. *)
Lemma bytes_ok_ext b b' c : bcs_cleanTransient b' = bcs_cleanTransient b →
  bcs_cleanPermanent b' = bcs_cleanPermanent b → bcs_cleanTotalBytes b' = bcs_cleanTotalBytes b →
  bcs_cleanBytesCapacity b' = bcs_cleanBytesCapacity b → bytes_ok b c → bytes_ok b' c.
Proof. intros E1 E2 E3 E4 [? ? ? ? ?]. split; rewrite ?E1, ?E2, ?E3, ?E4; done. Qed.

(** Adding a block that is not there: its bytes minus those evicted. *)
Lemma lru_Add_bytes id block c rest : lru_Peek id c = None → (0 <= rest)%Z →
  (transient_bytes c + rest + getCachedBlockSize block < 2 ^ 64)%Z →
  let r := lru_Add id block c in
  onEvict r.2 (transient_bytes c + rest + getCachedBlockSize block) = (transient_bytes r.1 + rest)%Z.
Proof.
  intros Hp Hr Hb. unfold lru_Peek, lru_Add in *. rewrite Hp. cbv zeta. destruct c as [lsize l]. simpl in *.
  destruct (decide _); simpl.
  - apply (onEvict_oldest lsize ((id, block) :: l)); [done|done|]. rewrite transient_bytes_cons. lia.
  - rewrite transient_bytes_cons. lia.
Qed.

Lemma lru_Add_le id block c : lru_Peek id c = None →
  (transient_bytes (lru_Add id block c).1 <= transient_bytes c + getCachedBlockSize block)%Z.
Proof.
  intros Hp. unfold lru_Peek, lru_Add in *. rewrite Hp. cbv zeta. destruct c as [lsize l]. simpl in *.
  destruct (decide _); cbn [fst lru_RemoveOldest lru_evictList lru_size].
  - rewrite removelast_take. etrans; [apply transient_bytes_take|]. rewrite transient_bytes_cons. lia.
  - rewrite transient_bytes_cons. lia.
Qed.

Lemma lru_Remove_bytes id c rest : NoDup (fst <$> lru_evictList c) → (0 <= rest)%Z →
  (transient_bytes c + rest < 2 ^ 64)%Z →
  let r := lru_Remove id c in
  onEvict r.2 (transient_bytes c + rest) = (transient_bytes r.1 + rest)%Z.
Proof.
  intros Hnd Hr Hb. unfold lru_Remove. destruct (assoc id (lru_evictList c)) as [v|] eqn:Ha; [|done].
  simpl. unfold transient_bytes in *. simpl. destruct (assoc_split id v _ Hnd Ha) as (l1 & l2 & E & ->).
  rewrite E in Hb |- *. rewrite !fmap_app, fmap_cons, !blocks_bytes_app in *. simpl in *.
  pose proof (blocks_bytes_nonneg (snd <$> l1)). pose proof (blocks_bytes_nonneg (snd <$> l2)).
  pose proof (getCachedBlockSize_bound v). rewrite to_u64_small; lia.
Qed.

Lemma assoc_take {V} (k : BlockID) n (l : list (BlockID * V)) : assoc k l = None → assoc k (take n l) = None.
Proof.
  rewrite !assoc_None. intros Hk Hin. apply Hk. rewrite fmap_take in Hin.
  by apply elem_of_take in Hin as (i & ? & _); apply list_elem_of_lookup_2 in H.
Qed.

Definition clean_ok (b : BlockCacheStandard) : Prop := ∃ c, bytes_ok b c.

Lemma bcs_Put_transient_ok ptr tlf block b c :
  bytes_ok b c → lru_Peek (bp_ID ptr) c = None → clean_ok (bcs_Put ptr tlf block TransientEntry b).
Proof.
  intros Hb Hp. unfold bcs_Put.
  destruct (note_known_ptr_clean ptr tlf block TransientEntry b) as (E1 & E2 & E3 & E4 & E5).
  set (b1 := note_known_ptr ptr tlf block TransientEntry b) in *.
  assert (bytes_ok b1 c) as Hb1 by by apply (bytes_ok_ext b).
  destruct (makeRoom_ok b1 c (getCachedBlockSize block) Hb1 (getCachedBlockSize_bound block))
    as (n & ok & b2 & -> & T2 & P2 & C2 & _ & _ & Hok & To2 & Hf2). rewrite T2.
  destruct Hb1 as [_ Hlru _ _ Hca]. pose proof (take_lru_ok n c Hlru) as Hlru2.
  set (c2 := MkLRU _ _) in *. destruct ok; [|exists c2; split; rewrite ?P2, ?C2; [done..|lia|done|done]].
  assert (lru_Peek (bp_ID ptr) c2 = None) as Hp2 by by apply assoc_take.
  pose proof (lru_Add_ok (bp_ID ptr) block c2 Hlru2) as Hlru3.
  assert (0 <= permanent_bytes (bcs_cleanPermanent b1))%Z as Hrest by apply blocks_bytes_nonneg.
  pose proof (lru_Add_bytes (bp_ID ptr) block c2 (permanent_bytes (bcs_cleanPermanent b1)) Hp2 Hrest
    ltac:(lia)) as Hev. rewrite To2. destruct (lru_Add (bp_ID ptr) block c2) as [c3 ev] eqn:Hadd.
  simpl in *. rewrite Hev. exists c3. split; simpl; rewrite ?P2, ?C2; try done.
  pose proof (lru_Add_le (bp_ID ptr) block c2 Hp2) as Hle. rewrite Hadd in Hle. simpl in Hle. lia.
Qed.

Lemma bcs_Put_permanent_ok ptr tlf block b c :
  bytes_ok b c → bcs_cleanPermanent b !! bp_ID ptr = None →
  (permanent_bytes (bcs_cleanPermanent b) + getCachedBlockSize block <= bcs_cleanBytesCapacity b)%Z →
  clean_ok (bcs_Put ptr tlf block PermanentEntry b).
Proof.
  intros Hb Hp Hroom. unfold bcs_Put.
  destruct (note_known_ptr_clean ptr tlf block PermanentEntry b) as (E1 & E2 & E3 & E4 & E5).
  set (b1 := note_known_ptr ptr tlf block PermanentEntry b) in *.
  assert (bytes_ok b1 c) as Hb1 by by apply (bytes_ok_ext b).
  set (p := <[bp_ID ptr := block]> (bcs_cleanPermanent b1)).
  pose proof (getCachedBlockSize_bound block) as Hsz.
  destruct (makeRoom_ok b1 c (getCachedBlockSize block) Hb1 Hsz)
    as (n & ok & b2 & Hmk & T2 & P2 & C2 & _ & _ & Hok & To2 & Hf2).
  assert (ok = true) as -> by (apply Hok; rewrite E2, E5; done).
  assert (makeRoomForSize (getCachedBlockSize block) (set_permanent p (bcs_cleanTotalBytes b1) b1) =
    (true, set_permanent p (bcs_cleanTotalBytes b2) b2)) as ->.
  { revert Hmk. unfold makeRoomForSize, set_permanent, set_transient. cbn [bcs_cleanTransient
      bcs_cleanBytesCapacity bcs_cleanTotalBytes]. destruct (bcs_cleanTransient b1) as [c'|]; [|done].
    destruct (makeRoom_loop _ _ _ _ _ _) as [c'' total].
    destruct (decide _); intros Heq; [discriminate|]. by injection Heq as <-. }
  exists (MkLRU (lru_size c) (take n (lru_evictList c))). destruct Hb1 as [_ Hlru _ _ Hca].
  split; simpl; rewrite ?C2; [done|by apply take_lru_ok| |lia|done].
  rewrite To2. subst p. rewrite permanent_bytes_insert by (by rewrite E2). lia.
Qed.

Lemma DeletePermanent_ok id b : clean_ok b → clean_ok (DeletePermanent id b).
Proof.
  intros [c [Ht Hl Hto Hfi Hca]]. unfold DeletePermanent.
  destruct (bcs_cleanPermanent b !! id) as [block|] eqn:Hp; [|by exists c].
  pose proof (permanent_bytes_delete _ _ _ Hp) as Hd. pose proof (getCachedBlockSize_bound block).
  assert (0 <= permanent_bytes (delete id (bcs_cleanPermanent b)))%Z by apply blocks_bytes_nonneg.
  assert (0 <= transient_bytes c)%Z by apply blocks_bytes_nonneg.
  exists c. split; simpl; try done; rewrite to_u64_small; lia.
Qed.

Lemma lru_front_bytes size k v l : NoDup (fst <$> l) → assoc k l = Some v →
  transient_bytes (MkLRU size ((k, v) :: without k l)) = transient_bytes (MkLRU size l).
Proof.
  intros Hnd Ha. destruct (assoc_split k v l Hnd Ha) as (l1 & l2 & -> & ->).
  rewrite transient_bytes_cons. unfold transient_bytes. cbn [lru_evictList].
  rewrite !fmap_app, !blocks_bytes_app, fmap_cons. simpl. lia.
Qed.

(** A lookup only reorders. *)
Lemma lru_Get_bytes id c : lru_ok c → transient_bytes (lru_Get id c).2 = transient_bytes c.
Proof.
  intros (Hnd & _). unfold lru_Get. destruct (assoc id (lru_evictList c)) as [v|] eqn:Ha; [|done].
  destruct c as [lsize l]. by apply lru_front_bytes.
Qed.

Lemma bcs_Get_ok ptr branch b : clean_ok b → clean_ok (bcs_Get ptr branch b).2.
Proof.
  intros [c Hb]. pose proof Hb as [Ht Hl Hto Hfi Hca]. unfold bcs_Get. rewrite Ht.
  destruct (bcs_dirty b !! _); [by exists c|].
  pose proof (lru_Get_ok (bp_ID ptr) c Hl) as Hl'. pose proof (lru_Get_bytes (bp_ID ptr) c Hl) as Hb'.
  destruct (lru_Get (bp_ID ptr) c) as [[block|] c']; [|by exists c].
  exists c'. split; simpl in *; [done..|lia|done|done].
Qed.

Lemma DeleteTransient_ok ptr tlf b : clean_ok b → clean_ok (DeleteTransient ptr tlf b).
Proof.
  intros [c Hb]. pose proof Hb as [Ht Hl Hto Hfi Hca]. unfold DeleteTransient. rewrite Ht.
  pose proof (lru_Get_ok (bp_ID ptr) c Hl) as Hl'. pose proof (lru_Get_bytes (bp_ID ptr) c Hl) as Hb'.
  destruct (lru_Get (bp_ID ptr) c) as [[block|] c']; [|by exists c]. simpl in *.
  set (b1 := match block with CommonB _ => _ | DirB _ => _ | FileB f => _ end).
  assert (bcs_cleanTotalBytes b1 = bcs_cleanTotalBytes b ∧ bcs_cleanPermanent b1 = bcs_cleanPermanent b ∧
    bcs_cleanBytesCapacity b1 = bcs_cleanBytesCapacity b) as (E1 & E2 & E3).
  { subst b1. destruct block as [|d|f]; [done..|]. destruct (bcs_ids b); [|done].
    by destruct (fb_IsInd f). }
  assert (0 <= permanent_bytes (bcs_cleanPermanent b))%Z as Hnn by apply blocks_bytes_nonneg.
  pose proof (lru_Remove_ok (bp_ID ptr) c' Hl') as Hl2.
  pose proof (lru_Remove_bytes (bp_ID ptr) c' (permanent_bytes (bcs_cleanPermanent b)) (proj1 Hl') Hnn
    ltac:(lia)) as Hev.
  assert (transient_bytes (lru_Remove (bp_ID ptr) c').1 <= transient_bytes c')%Z as Hle.
  { unfold lru_Remove. destruct (assoc _ (lru_evictList c')) as [v|] eqn:Ha; [|done]. cbn [fst].
    pose proof (lru_front_bytes (lru_size c') _ v _ (proj1 Hl') Ha) as Hfb.
    rewrite transient_bytes_cons in Hfb. pose proof (getCachedBlockSize_bound v).
    destruct c' as [ls l]. cbn [lru_evictList lru_size] in *. lia. }
  destruct (lru_Remove (bp_ID ptr) c') as [c2 ev]. cbn [fst snd] in *. exists c2.
  rewrite E1, Hto, <- Hb', Hev. split; simpl; rewrite ?E2, ?E3; [done..|lia|done].
Qed.

(** The steps of the cache under the discipline its users follow: a block
    is put in the transient cache when it is not there, and a permanent
    block is new and fits in the capacity with the other permanent ones. *)
Inductive cache_step : BlockCacheStandard → BlockCacheStandard → Prop :=
| StepGet ptr branch b : cache_step b (bcs_Get ptr branch b).2
| StepPutTransient ptr tlf block b c :
    bcs_cleanTransient b = Some c → lru_Peek (bp_ID ptr) c = None →
    cache_step b (bcs_Put ptr tlf block TransientEntry b)
| StepPutPermanent ptr tlf block b :
    bcs_cleanPermanent b !! bp_ID ptr = None →
    (permanent_bytes (bcs_cleanPermanent b) + getCachedBlockSize block <= bcs_cleanBytesCapacity b)%Z →
    cache_step b (bcs_Put ptr tlf block PermanentEntry b)
| StepDeletePermanent id b : cache_step b (DeletePermanent id b)
| StepDeleteTransient ptr tlf b : cache_step b (DeleteTransient ptr tlf b)
| StepCheckForKnownPtr tlf f b : cache_step b (CheckForKnownPtr tlf f b).2
| StepDeleteKnownPtr tlf f b : cache_step b (DeleteKnownPtr tlf f b).2
| StepPutDirty ptr branch block b : cache_step b (bcs_PutDirty ptr branch block b)
| StepDeleteDirty ptr branch b : cache_step b (bcs_DeleteDirty ptr branch b)
| StepDirtyBytesEstimate b : cache_step b (DirtyBytesEstimate b).2.

Lemma cache_step_ok b b' : cache_step b b' → clean_ok b → clean_ok b'.
Proof.
  destruct 1 as [| ptr tlf block b c Ht Hp | ptr tlf block b Hp Hr | | | tlf f b|tlf f b| | |b]; intros Hb.
  - by apply bcs_Get_ok.
  - destruct Hb as [c' Hb]. pose proof (bo_transient _ _ Hb) as Ht'. rewrite Ht in Ht'. simplify_eq.
    by eapply bcs_Put_transient_ok.
  - destruct Hb as [c' Hb]. by eapply bcs_Put_permanent_ok.
  - by apply DeletePermanent_ok.
  - by apply DeleteTransient_ok.
  - destruct Hb as [c Hb]. exists c. unfold CheckForKnownPtr. destruct (fb_IsInd f); [done|].
    destruct (bcs_ids b) as [ids|]; [|done]. by destruct (lru_Get _ ids) as [[ptr|] ids'];
      [apply (bytes_ok_ext b)|].
  - destruct Hb as [c Hb]. exists c. unfold DeleteKnownPtr. destruct (fb_IsInd f); [done|].
    by destruct (bcs_ids b) as [ids|]; [apply (bytes_ok_ext b)|].
  - destruct Hb as [c Hb]. exists c. by apply (bytes_ok_ext b).
  - destruct Hb as [c Hb]. exists c. by apply (bytes_ok_ext b).
  - destruct Hb as [c Hb]. exists c. unfold DirtyBytesEstimate. case_decide; [by apply (bytes_ok_ext b)|done].
Qed.

Lemma NewBlockCacheStandard_ok n capacity :
  0 < n → (0 <= capacity < 2 ^ 62)%Z → clean_ok (NewBlockCacheStandard n capacity).
Proof.
  intros Hn Hc. exists (MkLRU n []). split; simpl; [by rewrite decide_True| |done|lia|lia].
  unfold lru_ok, lru_Len. simpl. split_and!; [constructor|lia|done].
Qed.

(** C39. The byte count of the clean caches is exact and never exceeds the
    capacity, in every state reached by steps that follow the
    discipline. *)
Theorem clean_bytes_exact n capacity b :
  0 < n → (0 <= capacity < 2 ^ 62)%Z → rtc cache_step (NewBlockCacheStandard n capacity) b →
  ∃ c, bcs_cleanTransient b = Some c ∧ lru_Len c <= lru_size c ∧
    bcs_cleanTotalBytes b = (transient_bytes c + permanent_bytes (bcs_cleanPermanent b))%Z ∧
    (bcs_cleanTotalBytes b <= bcs_cleanBytesCapacity b)%Z.
Proof.
  intros Hn Hc Hsteps.
  assert (clean_ok b) as [c [Ht (_ & Hl & _) Hto Hfi _]]; [|by exists c].
  assert (clean_ok (NewBlockCacheStandard n capacity)) as H0 by by apply NewBlockCacheStandard_ok.
  induction Hsteps as [|b1 b2 b3 Hs _ IH]; [done|]. apply IH. by eapply cache_step_ok.
Qed.

(** ** Lookups *)

(** A block put in the transient cache is found again, when no dirty
    block hides it and the permanent blocks leave room for it. *)
Theorem Put_then_Get_cached ptr tlf branch block b c :
  bytes_ok b c → bcs_dirty b !! dirty_key ptr branch = None →
  (permanent_bytes (bcs_cleanPermanent b) + getCachedBlockSize block <= bcs_cleanBytesCapacity b)%Z →
  fst (bcs_Get ptr branch (bcs_Put ptr tlf block TransientEntry b)) = Ok block.
Proof.
  intros Hb Hd Hroom. unfold bcs_Put.
  destruct (note_known_ptr_clean ptr tlf block TransientEntry b) as (E1 & E2 & E3 & E4 & E5).
  set (b1 := note_known_ptr ptr tlf block TransientEntry b) in *.
  assert (bytes_ok b1 c) as Hb1 by by apply (bytes_ok_ext b).
  destruct (makeRoom_ok b1 c (getCachedBlockSize block) Hb1 (getCachedBlockSize_bound block))
    as (n & ok & b2 & -> & T2 & _ & _ & _ & D2 & Hok & _).
  assert (ok = true) as -> by (apply Hok; by rewrite E2, E5). rewrite T2.
  pose proof (lru_Add_Peek (bp_ID ptr) block _ (take_lru_ok n c (bo_lru _ _ Hb1))) as Hpk.
  destruct (lru_Add (bp_ID ptr) block _) as [c3 ev]. simpl in Hpk.
  unfold bcs_Get. simpl. rewrite D2, E4, Hd. unfold lru_Get, lru_Peek in *. by rewrite Hpk.
Qed.

(** Deduplication: after a direct file block was put in the transient
    cache, a block of the same folder with the same contents is known
    under the pointer of the first, with a zero reference nonce. *)
Theorem Put_then_CheckForKnownPtr ptr tlf (f f' : FileBlock) b ids :
  bcs_ids b = Some ids → lru_ok ids → fb_IsInd f = false → fb_IsInd f' = false →
  fb_Contents f' = fb_Contents f →
  fst (CheckForKnownPtr tlf f' (bcs_Put ptr tlf (FileB f) TransientEntry b)) =
    Ok (MkBlockPointer (bp_ID ptr) (bp_KeyGen ptr) (bp_DataVer ptr) (bp_Creator ptr)
          (bp_Writer ptr) zeroBlockRefNonce).
Proof.
  intros Hi Hok Hf Hf' Hc. set (ptr0 := MkBlockPointer _ _ _ _ _ _).
  assert (bcs_ids (bcs_Put ptr tlf (FileB f) TransientEntry b) =
    Some (lru_Add (known_key tlf f) ptr0 ids).1) as Hids.
  { unfold bcs_Put, note_known_ptr. rewrite Hi, Hf. fold ptr0.
    set (b1 := set_ids _ b). destruct (makeRoomForSize _ b1) as [ok b2] eqn:Hmk.
    assert (bcs_ids b2 = bcs_ids b1) as E.
    { revert Hmk. unfold makeRoomForSize. destruct (bcs_cleanTransient b1) as [c|]; [|by intros [= <- <-]].
      destruct (makeRoom_loop _ _ _ _ _ _). destruct (decide _); by intros [= <- <-]. }
    destruct ok, (bcs_cleanTransient b2) as [c|]; try done.
    by destruct (lru_Add (bp_ID ptr) (FileB f) c). }
  unfold CheckForKnownPtr. rewrite Hf', Hids.
  assert (known_key tlf f' = known_key tlf f) as -> by (unfold known_key; by rewrite Hc).
  pose proof (lru_Add_Peek (known_key tlf f) ptr0 ids Hok) as Hpk. unfold lru_Get, lru_Peek in *.
  by rewrite Hpk.
Qed.

Lemma NewBlockCacheStandard_eq n capacity : 0 < n → NewBlockCacheStandard n capacity =
  MkBlockCacheStandard capacity (Some (MkLRU n [])) (Some (MkLRU n [])) ∅ 0 ∅ 0.
Proof. intros Hn. unfold NewBlockCacheStandard. cbv zeta. by rewrite !decide_True. Qed.

(** Outside the discipline the count breaks.  A permanent block that
    does not fit is stored without being counted, but its deletion
    subtracts its size: the count of an empty cache wraps around to
    almost 2^64, and from then on no block that is much smaller is
    cached. *)
Theorem DeletePermanent_underflow n capacity ptr tlf block ptr' tlf' block' :
  0 < n → (0 <= capacity)%Z → (capacity < getCachedBlockSize block)%Z →
  (getCachedBlockSize block' + capacity < getCachedBlockSize block)%Z →
  let b := DeletePermanent (bp_ID ptr) (bcs_Put ptr tlf block PermanentEntry (NewBlockCacheStandard n capacity)) in
  bcs_cleanPermanent b = ∅ ∧ bcs_cleanTransient b = Some (MkLRU n []) ∧
  bcs_cleanTotalBytes b = (2 ^ 64 - getCachedBlockSize block)%Z ∧
  bcs_cleanTransient (bcs_Put ptr' tlf' block' TransientEntry b) = Some (MkLRU n []).
Proof.
  intros Hn Hc Hbig Hsmall. pose proof (getCachedBlockSize_bound block). pose proof (getCachedBlockSize_bound block').
  assert (∀ b total size, bcs_cleanTransient b = Some (MkLRU n []) → bcs_cleanTotalBytes b = total →
    (bcs_cleanBytesCapacity b < to_u64 (total + size))%Z →
    makeRoomForSize size b = (false, set_transient (Some (MkLRU n [])) total b)) as Hno.
  { intros b total size Ht Hto Hgt. unfold makeRoomForSize. rewrite Ht, Hto. simpl.
    by destruct (decide (bcs_cleanBytesCapacity b < to_u64 (total + size))%Z) eqn:E; [rewrite E|]. }
  set (b1 := bcs_Put ptr tlf block PermanentEntry (NewBlockCacheStandard n capacity)).
  assert (bcs_cleanPermanent b1 = {[ bp_ID ptr := block ]} ∧ bcs_cleanTransient b1 = Some (MkLRU n []) ∧
    bcs_cleanTotalBytes b1 = 0%Z ∧ bcs_cleanBytesCapacity b1 = capacity) as (P1 & T1 & To1 & C1).
  { subst b1. rewrite NewBlockCacheStandard_eq by done. unfold bcs_Put, note_known_ptr.
    destruct block as [cb|d|f]; cbn [bcs_ids];
      (erewrite Hno; [|reflexivity|reflexivity|]; [done|]; cbn [bcs_cleanBytesCapacity set_permanent bcs_cleanTotalBytes];
       rewrite to_u64_small; lia). }
  intros b. subst b. unfold DeletePermanent. rewrite P1, lookup_singleton_eq, To1. cbn [bcs_cleanPermanent
    bcs_cleanTransient bcs_cleanTotalBytes set_permanent]. rewrite delete_singleton_eq.
  assert (to_u64 (0 - getCachedBlockSize block) = 2 ^ 64 - getCachedBlockSize block)%Z as Hw.
  { unfold to_u64. rewrite <- (Z.mod_add _ 1), Z.mod_small; lia. }
  rewrite Hw. split_and!; try done. unfold bcs_Put.
  destruct (note_known_ptr_clean ptr' tlf' block' TransientEntry
    (set_permanent ∅ (2 ^ 64 - getCachedBlockSize block)%Z b1)) as (E1 & E2 & E3 & E4 & E5).
  rewrite (Hno _ (2 ^ 64 - getCachedBlockSize block)%Z); [done|by rewrite E1, <- T1|by rewrite E3|].
  rewrite E5. cbn [set_permanent bcs_cleanBytesCapacity]. rewrite C1, to_u64_small; lia.
Qed.

(** ** Witnesses *)

Definition cache_ptr (n : byte) : BlockPointer :=
  MkBlockPointer (MkBlockID (MkHash (string_of_bytes [n]))) 1%Z 1%Z "u" "" (replicate 8 x07).
Definition cache_block (n : nat) : FileBlock := MkFileBlock (MkCommonBlock false 0%Z) (replicate n x61) [].
Definition cache_item (n : nat) (k : byte) : BlockID * Block := (bp_ID (cache_ptr k), FileB (cache_block n)).

(** Two blocks of 4 bytes with room for 10. *)
Definition full_lru : LRU BlockID Block := MkLRU 5 [cache_item 4 x02; cache_item 4 x01].
Definition full_cache : BlockCacheStandard :=
  MkBlockCacheStandard 10%Z (Some (MkLRU 5 [])) (Some full_lru) ∅ 8%Z ∅ 0%Z.

Lemma full_cache_ok : bytes_ok full_cache full_lru.
Proof.
  split; [done| |done..]. split_and!; [|vm_compute; lia|vm_compute; lia].
  apply NoDup_cons. split; [|apply NoDup_singleton]. intros Heq%list_elem_of_singleton. done.
Qed.

(** Room for 5 bytes: the older block goes. *)
Lemma makeRoomForSize_evicts_witness : ∃ b', makeRoomForSize 5%Z full_cache = (true, b') ∧
  bcs_cleanTransient b' = Some (MkLRU 5 [cache_item 4 x02]) ∧ bcs_cleanTotalBytes b' = 9%Z.
Proof.
  destruct (makeRoomForSize_evicts full_cache full_lru 5%Z full_cache_ok ltac:(lia))
    as (n & b' & Hn & Hmax & Ht & _ & [(Hf & Hr & Hto)|(Hn0 & Hf & _)]).
  - assert (n = 1) as ->.
    { change (lru_Len full_lru) with 2 in *. destruct n as [|[|[|n]]]; [|done| |lia].
      - destruct Hmax as [|Hmax]; [lia|]. destruct Hmax. vm_compute. discriminate.
      - exfalso. revert Hf. vm_compute. intros Hf. by apply Hf. }
    exists b'. split_and!; [exact Hr|exact Ht|exact Hto].
  - exfalso. apply Hf. vm_compute. discriminate.
Defined.

Definition small_cache : BlockCacheStandard := NewBlockCacheStandard 5 10%Z.

Lemma clean_bytes_exact_witness :
  let b := bcs_Put (cache_ptr x01) NullTlfID (FileB (cache_block 4)) TransientEntry small_cache in
  ∃ c, bcs_cleanTransient b = Some c ∧ lru_Len c <= lru_size c ∧
    bcs_cleanTotalBytes b = (transient_bytes c + permanent_bytes (bcs_cleanPermanent b))%Z ∧
    (bcs_cleanTotalBytes b <= bcs_cleanBytesCapacity b)%Z.
Proof.
  intros b. apply (clean_bytes_exact 5 10%Z b); [lia|lia|].
  eapply rtc_l; [|apply rtc_refl]. by eapply (StepPutTransient _ _ _ _ (MkLRU 5 [])).
Defined.

Lemma Put_then_Get_cached_witness :
  fst (bcs_Get (cache_ptr x03) MasterBranch
    (bcs_Put (cache_ptr x03) NullTlfID (FileB (cache_block 5)) TransientEntry full_cache)) =
  Ok (FileB (cache_block 5)).
Proof.
  apply (Put_then_Get_cached (cache_ptr x03) NullTlfID MasterBranch (FileB (cache_block 5))
    full_cache full_lru full_cache_ok eq_refl). vm_compute. discriminate.
Defined.

Lemma Put_then_CheckForKnownPtr_witness :
  fst (CheckForKnownPtr NullTlfID (cache_block 5)
    (bcs_Put (cache_ptr x03) NullTlfID (FileB (cache_block 5)) TransientEntry full_cache)) =
  Ok (MkBlockPointer (bp_ID (cache_ptr x03)) 1%Z 1%Z "u" "" zeroBlockRefNonce).
Proof.
  apply (Put_then_CheckForKnownPtr (cache_ptr x03) NullTlfID (cache_block 5) (cache_block 5) full_cache
    (MkLRU 5 [])); try reflexivity. unfold lru_ok, lru_Len. simpl. split_and!; [constructor|lia|lia].
Defined.

Lemma DeletePermanent_underflow_witness :
  bcs_cleanTotalBytes (DeletePermanent (bp_ID (cache_ptr x01))
    (bcs_Put (cache_ptr x01) NullTlfID (FileB (cache_block 20)) PermanentEntry small_cache)) =
  18446744073709551596%Z.
Proof.
  destruct (DeletePermanent_underflow 5 10%Z (cache_ptr x01) NullTlfID (FileB (cache_block 20))
    (cache_ptr x02) NullTlfID (FileB (cache_block 4)) ltac:(lia) ltac:(lia) ltac:(done) ltac:(done))
    as (_ & _ & Hto & _).
  exact Hto.
Defined.
