(* ===== verification/CRChains.v ===== *)
(** * CRChains: the operation chains of conflict resolution

    [libkbfs/cr_chains.go].  [crChains] indexes the chain of every node
    by its first and by its latest pointer; both maps point at the same
    mutable chain, so chains live in a store ([ccs_chains]) and the maps
    hold their addresses. *)

From Stdlib Require Import ZArith Lia.
From stdpp Require Import gmap.
From S2P Require Import Prelude Types Errors DataTypes Ops.

Record crChain := MkCrChain {
  cc_ops : list op;
  cc_original : BlockPointer;
  cc_mostRecent : BlockPointer
}.

(** ** Collapsing a chain *)

(** The loop: the index of the next op, the creates seen and the indices
    to remove. *)
Definition collapse_scan (acc : nat * gmap string nat * gset nat) (o : op)
    : nat * gmap string nat * gset nat :=
  let '(i, createsSeen, indicesToRemove) := acc in
  match o with
  | CreateOp realOp =>
      let rm := match createsSeen !! co_NewName realOp with
                | Some prev => if co_renamed realOp then {[ prev ]} ∪ indicesToRemove else indicesToRemove
                | None => indicesToRemove
                end in
      (S i, <[co_NewName realOp := i]> createsSeen, rm)
  | RmOp realOp =>
      match createsSeen !! ro_OldName realOp with
      | Some prev =>
          (S i, delete (ro_OldName realOp) createsSeen, {[ i ]} ∪ ({[ prev ]} ∪ indicesToRemove))
      | None => (S i, createsSeen, indicesToRemove)
      end
  | _ => (S i, createsSeen, indicesToRemove)
  end.

(** The ops whose index (from [i]) is not to be removed. *)
Fixpoint keep_ops (i : nat) (rm : gset nat) (ops : list op) : list op :=
  match ops with
  | [] => []
  | o :: ops => if decide (i ∈ rm) then keep_ops (S i) rm ops else o :: keep_ops (S i) rm ops
  end.

Definition collapse_ops (ops : list op) : list op :=
  let '(_, _, indicesToRemove) := foldl collapse_scan (0, ∅, ∅) ops in
  if decide (0 < size indicesToRemove) then keep_ops 0 indicesToRemove ops else ops.

Definition collapse (cc : crChain) : crChain :=
  MkCrChain (collapse_ops (cc_ops cc)) (cc_original cc) (cc_mostRecent cc).

(** ** Merging a chain *)

Definition isFile (cc : crChain) : bool :=
  match cc_ops cc with
  | SyncOp _ :: _ | SetAttrOp _ :: _ => true
  | _ => false
  end.

Definition getCollapsedWriteRange (cc : crChain) : list WriteRange :=
  if negb (isFile cc) then []
  else foldl (λ wr o, match o with SyncOp so => collapseWriteRange so wr | _ => wr end) [] (cc_ops cc).

Definition is_sync (o : op) : bool := match o with SyncOp _ => true | _ => false end.

(** Both branches only truncated the file, to the same size. *)
Definition same_truncate (mine merged : list WriteRange) : bool :=
  match mine, merged with
  | [w], [w'] => isTruncate w && isTruncate w' && bool_decide (wr_Off w = wr_Off w')
  | _, _ => false
  end.

Section merge.
Context (renamer : op → string → string).

(** The conflicts of one op with the ops of the merged chain. *)
Fixpoint check_conflicts (o : op) (mergedOps : list op) : res (list crAction) :=
  match mergedOps with
  | [] => Ok []
  | m :: mergedOps =>
      action ← CheckConflict renamer o m;
      rest ← check_conflicts o mergedOps;
      Ok (match action with Some a => a :: rest | None => rest end)
  end.

(** The main loop.  A nil default action is appended as nil, which the
    list of actions holds as [None]. *)
Fixpoint merge_ops (ops : list op) (skipSyncs : bool) (mergedPath : path) (mergedOps : list op)
    : res (list (option crAction)) :=
  match ops with
  | [] => Ok []
  | o :: ops =>
      if skipSyncs && is_sync o then merge_ops ops skipSyncs mergedPath mergedOps
      else
        conflicts ← check_conflicts o mergedOps;
        here ← (match conflicts with
                | [] => a ← GetDefaultAction o mergedPath; Ok [a]
                | _ => Ok (Some <$> conflicts)
                end);
        rest ← merge_ops ops skipSyncs mergedPath mergedOps;
        Ok (here ++ rest)
  end.

Definition getActionsToMerge (cc : crChain) (mergedPath : path) (mergedChain : option crChain)
    : res (list (option crAction)) :=
  let skipSyncs :=
    match mergedChain with
    | Some mc => isFile cc && same_truncate (getCollapsedWriteRange cc) (getCollapsedWriteRange mc)
    | None => false
    end in
  let drops := if skipSyncs then (λ o, Some (DropUnmerged o)) <$> filter (λ o, is_sync o = true) (cc_ops cc)
               else [] in
  rest ← merge_ops (cc_ops cc) skipSyncs mergedPath
           (match mergedChain with Some mc => cc_ops mc | None => [] end);
  Ok (drops ++ rest).

End merge.

(** ** All chains *)

Record renameInfo := MkRenameInfo {
  ri_originalOldParent : BlockPointer;
  ri_oldName : string;
  ri_originalNewParent : BlockPointer;
  ri_newName : string
}.

Record crChains := MkCrChains {
  ccs_chains : gmap nat crChain;
  ccs_next : nat;
  ccs_byOriginal : gmap BlockPointer nat;
  ccs_byMostRecent : gmap BlockPointer nat;
  ccs_originalRoot : BlockPointer;
  ccs_deletedOriginals : gset BlockPointer;
  ccs_createdOriginals : gset BlockPointer;
  ccs_renamedOriginals : gmap BlockPointer renameInfo;
  ccs_blockChangePointers : gset BlockPointer;
  ccs_toUnrefPointers : gset BlockPointer;
  ccs_originals : gmap BlockPointer BlockPointer
}.

Definition newCRChainsEmpty : crChains :=
  MkCrChains ∅ 0 ∅ ∅ zeroPtr ∅ ∅ ∅ ∅ ∅ ∅.

(** Setters. *)
Definition set_chain (id : nat) (c : crChain) (s : crChains) : crChains :=
  MkCrChains (<[id := c]> (ccs_chains s)) (ccs_next s) (ccs_byOriginal s) (ccs_byMostRecent s)
    (ccs_originalRoot s) (ccs_deletedOriginals s) (ccs_createdOriginals s) (ccs_renamedOriginals s)
    (ccs_blockChangePointers s) (ccs_toUnrefPointers s) (ccs_originals s).
Definition set_maps byOriginal byMostRecent originals (s : crChains) : crChains :=
  MkCrChains (ccs_chains s) (ccs_next s) byOriginal byMostRecent
    (ccs_originalRoot s) (ccs_deletedOriginals s) (ccs_createdOriginals s) (ccs_renamedOriginals s)
    (ccs_blockChangePointers s) (ccs_toUnrefPointers s) originals.
Definition set_tracking deleted created renamed (s : crChains) : crChains :=
  MkCrChains (ccs_chains s) (ccs_next s) (ccs_byOriginal s) (ccs_byMostRecent s)
    (ccs_originalRoot s) deleted created renamed
    (ccs_blockChangePointers s) (ccs_toUnrefPointers s) (ccs_originals s).
Definition set_root root changes (s : crChains) : crChains :=
  MkCrChains (ccs_chains s) (ccs_next s) (ccs_byOriginal s) (ccs_byMostRecent s)
    root (ccs_deletedOriginals s) (ccs_createdOriginals s) (ccs_renamedOriginals s)
    changes (ccs_toUnrefPointers s) (ccs_originals s).

(** [&crChain{...}] *)
Definition new_chain (c : crChain) (s : crChains) : nat * crChains :=
  (ccs_next s,
   MkCrChains (<[ccs_next s := c]> (ccs_chains s)) (S (ccs_next s)) (ccs_byOriginal s)
     (ccs_byMostRecent s) (ccs_originalRoot s) (ccs_deletedOriginals s) (ccs_createdOriginals s)
     (ccs_renamedOriginals s) (ccs_blockChangePointers s) (ccs_toUnrefPointers s) (ccs_originals s)).

(** The chain with this latest pointer. *)
Definition chain_at (ptr : BlockPointer) (s : crChains) : option (nat * crChain) :=
  id ← ccs_byMostRecent s !! ptr;
  c ← ccs_chains s !! id;
  Some (id, c).

Definition append_op (o : op) (c : crChain) : crChain :=
  MkCrChain (cc_ops c ++ [o]) (cc_original c) (cc_mostRecent c).

Definition addOp (ptr : BlockPointer) (o : op) : go crChains unit := λ s,
  match chain_at ptr s with
  | None => (Err (Errorf "Could not find chain for most recent ptr"), s)
  | Some (id, c) => (Ok tt, set_chain id (append_op o c) s)
  end.

(** One iteration over [op.AllUpdates()]. *)
Definition apply_update (update : blockUpdate) (s : crChains) : crChains :=
  let '(id, c, s) :=
    match chain_at (bu_Unref update) s with
    | Some (id, c) => (id, c, s)
    | None =>
        let c := MkCrChain [] (bu_Unref update) zeroPtr in
        let '(id, s) := new_chain c s in
        (id, c, set_maps (<[bu_Unref update := id]> (ccs_byOriginal s)) (ccs_byMostRecent s)
                  (ccs_originals s) s)
    end in
  let byMostRecent := if IsInitialized (cc_mostRecent c)
                      then delete (cc_mostRecent c) (ccs_byMostRecent s) else ccs_byMostRecent s in
  let s := set_chain id (MkCrChain (cc_ops c) (cc_original c) (bu_Ref update)) s in
  set_maps (ccs_byOriginal s) (<[bu_Ref update := id]> byMostRecent)
    (if decide (cc_original c ≠ bu_Ref update)
     then <[bu_Ref update := cc_original c]> (ccs_originals s) else ccs_originals s) s.

Definition originalFromMostRecent (mostRecent : BlockPointer) (s : crChains) : res BlockPointer :=
  match chain_at mostRecent s with
  | None => Err (NoChainFoundError mostRecent)
  | Some (_, c) => Ok (cc_original c)
  end.

Definition originalFromMostRecentOrSame (mostRecent : BlockPointer) (s : crChains) : res BlockPointer :=
  match originalFromMostRecent mostRecent s with
  | Err (NoChainFoundError _) => Ok mostRecent
  | r => r
  end.

Definition mostRecentFromOriginal (original : BlockPointer) (s : crChains) : res BlockPointer :=
  match ccs_byOriginal s !! original ≫= λ id, ccs_chains s !! id with
  | None => Err (NoChainFoundError original)
  | Some c => Ok (cc_mostRecent c)
  end.

Definition mostRecentFromOriginalOrSame (original : BlockPointer) (s : crChains) : res BlockPointer :=
  match mostRecentFromOriginal original s with
  | Err (NoChainFoundError _) => Ok original
  | r => r
  end.

(** [original := ptr; if chain, ok := byMostRecent[ptr]; ok {...}] *)
Definition original_of (s : crChains) (ptr : BlockPointer) : BlockPointer :=
  match chain_at ptr s with Some (_, c) => cc_original c | None => ptr end.

(** The two loops over [Refs] and [Unrefs]. *)
Definition track_refs (o : op) (s : crChains) : crChains :=
  set_tracking (ccs_deletedOriginals s ∪ list_to_set (original_of s <$> Unrefs o))
    (ccs_createdOriginals s ∪ list_to_set (Refs o)) (ccs_renamedOriginals s) s.

(** The directory a rename moves to. *)
Definition rename_target (ro : renameOp) : blockUpdate :=
  if decide (rn_NewDir ro = zeroUpdate) then rn_OldDir ro else rn_NewDir ro.

Definition with_writer (o : op) (new : op) : op := setWriterInfo (getWriterInfo o) new.

(** The remove and create that a rename is split into. *)
Definition rename_rm (ro : renameOp) : op :=
  with_writer (RenameOp ro)
    (RmOp (MkRmOp zeroOpCommon (rn_OldName ro) (rn_OldDir ro) false)).
Definition rename_overwrite (ro : renameOp) : op :=
  foldl (λ o ptr, AddUnrefBlock ptr o)
    (with_writer (RenameOp ro)
      (RmOp (MkRmOp zeroOpCommon (rn_NewName ro) (rename_target ro) false))) (Unrefs (RenameOp ro)).
Definition rename_create (ro : renameOp) : op :=
  with_writer (RenameOp ro)
    (CreateOp (MkCreateOp zeroOpCommon (rn_NewName ro) (rename_target ro) (rn_RenamedType ro)
                 true false EmptyString)).

(** [co.AddRefBlock], on the create that is now the last op of its chain. *)
Definition update_last_op (f : op → op) (id : nat) (s : crChains) : crChains :=
  match ccs_chains s !! id with
  | Some c =>
      match last (cc_ops c) with
      | Some o => set_chain id (MkCrChain (take (length (cc_ops c) - 1) (cc_ops c) ++ [f o])
                                 (cc_original c) (cc_mostRecent c)) s
      | None => s
      end
  | None => s
  end.

(** Remember where the renamed node went. *)
Definition track_rename (ro : renameOp) : go crChains unit := λ s,
  if IsInitialized (rn_Renamed ro) then
    match chain_at (bu_Ref (rename_target ro)) s with
    | None => (Err (Errorf "While renaming, couldn't find the chain for the new parent"), s)
    | Some (id, newParent) =>
        match chain_at (bu_Ref (rn_OldDir ro)) s with
        | None => (Err (Errorf "While renaming, couldn't find the chain for the old parent"), s)
        | Some (_, oldParent) =>
            let renamedOriginal := original_of s (rn_Renamed ro) in
            let ri := default (MkRenameInfo (cc_original oldParent) (rn_OldName ro) zeroPtr EmptyString)
                        (ccs_renamedOriginals s !! renamedOriginal) in
            let ri := MkRenameInfo (ri_originalOldParent ri) (ri_oldName ri)
                        (cc_original newParent) (rn_NewName ro) in
            let s := set_tracking (ccs_deletedOriginals s) (ccs_createdOriginals s)
                       (<[renamedOriginal := ri]> (ccs_renamedOriginals s)) s in
            (Ok tt, update_last_op (AddRefBlock renamedOriginal) id s)
        end
    end
  else (Ok tt, s).

(** A chain for a file whose attributes change but whose pointer does not. *)
Definition ensure_file_chain (file : BlockPointer) (s : crChains) : crChains :=
  match chain_at file s with
  | Some _ => s
  | None =>
      let '(id, s) := new_chain (MkCrChain [] file file) s in
      set_maps (<[file := id]> (ccs_byOriginal s)) (<[file := id]> (ccs_byMostRecent s)) (ccs_originals s) s
  end.

Definition makeChainForOp (o : op) : go crChains unit :=
  _ ← modify (λ s, foldl (λ s u, apply_update u s) s (AllUpdates o));
  _ ← modify (track_refs o);
  match o with
  | CreateOp realOp => addOp (bu_Ref (co_Dir realOp)) o
  | RmOp realOp => addOp (bu_Ref (ro_Dir realOp)) o
  | RenameOp realOp =>
      _ ← addOp (bu_Ref (rn_OldDir realOp)) (rename_rm realOp);
      _ ← (if decide (0 < length (Unrefs o))
           then addOp (bu_Ref (rename_target realOp)) (rename_overwrite realOp) else mret tt);
      _ ← addOp (bu_Ref (rename_target realOp)) (rename_create realOp);
      track_rename realOp
  | SyncOp realOp => addOp (bu_Ref (so_File realOp)) o
  | SetAttrOp realOp =>
      _ ← modify (ensure_file_chain (sao_File realOp));
      addOp (sao_File realOp) o
  | ResolutionOp _ | RekeyOp _ | GcOp _ => mret tt
  end.

(** ** Chains for new operations *)

(** The op with the update that [makeChainForNewOp] sets, and where
    [makeChainForOp] puts the op then. *)
Definition with_update (u : blockUpdate) (o : op) : op :=
  match o with
  | CreateOp c => CreateOp (MkCreateOp (co_OpCommon c) (co_NewName c) u (co_Type c) (co_renamed c)
                              (co_forceCopy c) (co_crSymPath c))
  | RmOp r => RmOp (MkRmOp (ro_OpCommon r) (ro_OldName r) u (ro_dropThis r))
  | SetAttrOp s => SetAttrOp (MkSetAttrOp (sao_OpCommon s) (sao_Name s) u (sao_Attr s) (sao_File s))
  | SyncOp s => SyncOp (MkSyncOp (so_OpCommon s) u (so_Writes s))
  | _ => o
  end.

Definition update_of (o : op) : blockUpdate :=
  match o with
  | CreateOp c => co_Dir c
  | RmOp r => ro_Dir r
  | SetAttrOp s => sao_Dir s
  | SyncOp s => so_File s
  | _ => zeroUpdate
  end.

(** Unref and Ref are the target for the duration of the call; the op in
    the chain is the same object, so it is reset too. *)
Definition makeChainForNewOpWithUpdate (targetPtr : BlockPointer) (newOp : op) : go crChains unit :=
  _ ← makeChainForOp (with_update (MkBlockUpdate targetPtr targetPtr) newOp);
  modify (λ s,
    let ptr := match newOp with SetAttrOp sa => sao_File sa | _ => targetPtr end in
    match chain_at ptr s with
    | Some (id, _) =>
        update_last_op (λ _, with_update (MkBlockUpdate (bu_Unref (update_of newOp)) zeroPtr) newOp) id s
    | None => s
    end).

Definition makeChainForNewOp (targetPtr : BlockPointer) (newOp : op) : go crChains unit :=
  match newOp with
  | CreateOp _ | RmOp _ | SetAttrOp _ | SyncOp _ => makeChainForNewOpWithUpdate targetPtr newOp
  | RenameOp realOp =>
      _ ← makeChainForNewOpWithUpdate targetPtr
            (CreateOp (newCreateOp (rn_NewName realOp) (bu_Unref (rn_NewDir realOp)) File));
      s ← get;
      match chain_at targetPtr s with
      | None => fail (Errorf "Couldn't find chain after making it")
      | Some (id, c) =>
          if decide (length (cc_ops c) ≠ 1) then fail (Errorf "Chain of unexpected length after making it")
          else put (set_chain id (MkCrChain [newOp] (cc_original c) (cc_mostRecent c)) s)
      end
  | _ => fail (Errorf "Couldn't make chain with unknown operation")
  end.

(** ** Queries and construction *)

Definition isCreated (original : BlockPointer) (s : crChains) : bool :=
  bool_decide (original ∈ ccs_createdOriginals s).
Definition isDeleted (original : BlockPointer) (s : crChains) : bool :=
  bool_decide (original ∈ ccs_deletedOriginals s).

Definition renamedParentAndName (original : BlockPointer) (s : crChains) : BlockPointer * string * bool :=
  match ccs_renamedOriginals s !! original with
  | Some info => (ri_originalNewParent info, ri_newName info, true)
  | None => (zeroPtr, EmptyString, false)
  end.

(** What [newCRChains] uses of a [RootMetadata]. *)
Record chainMD := MkChainMD {
  cmd_writerMetadataCopied : bool;
  cmd_LastModifyingWriter : UID;
  cmd_writerKID : KID;
  cmd_changesPtr : BlockPointer;
  cmd_Ops : list op;
  cmd_rootPtr : BlockPointer
}.

Section make_chains.
(** [newWriterInfo], which asks the key directory. *)
Context (newWriterInfo : UID → KID → res writerInfo).

Definition chain_md (rmd : chainMD) : go crChains unit :=
  if cmd_writerMetadataCopied rmd then mret tt
  else
    winfo ← lift_res (newWriterInfo (cmd_LastModifyingWriter rmd) (cmd_writerKID rmd));
    _ ← modify (λ s, if decide (cmd_changesPtr rmd = zeroPtr) then s
                     else set_root (ccs_originalRoot s) ({[ cmd_changesPtr rmd ]} ∪ ccs_blockChangePointers s) s);
    _ ← go_for (cmd_Ops rmd) (λ o, makeChainForOp (setWriterInfo winfo o));
    modify (λ s, if IsInitialized (ccs_originalRoot s) then s
                 else match chain_at (cmd_rootPtr rmd) s with
                      | Some (_, c) => set_root (cc_original c) (ccs_blockChangePointers s) s
                      | None => s
                      end).

(** Every chain is collapsed in the end. *)
Definition collapse_all (s : crChains) : crChains :=
  map_fold (λ _ id s, match ccs_chains s !! id with
                      | Some c => set_chain id (collapse c) s
                      | None => s
                      end) s (ccs_byOriginal s).

Definition newCRChains (rmds : list chainMD) : res crChains :=
  match (_ ← go_for rmds chain_md; modify collapse_all) newCRChainsEmpty with
  | (Ok _, s) => Ok s
  | (Err e, _) => Err e
  | (Panic m, _) => Panic m
  end.
End make_chains.

Definition removeChain (ptr : BlockPointer) (s : crChains) : crChains :=
  set_maps (delete ptr (ccs_byOriginal s)) (delete ptr (ccs_byMostRecent s)) (ccs_originals s) s.

(** [if original, ok := ccs.originals[*unref]; ok { *unref = original }] *)
Definition revert_ptr (s : crChains) (ptr : BlockPointer) : BlockPointer :=
  default ptr (ccs_originals s !! ptr).
Definition revert_unref (s : crChains) (u : blockUpdate) : blockUpdate :=
  MkBlockUpdate (revert_ptr s (bu_Unref u)) (bu_Ref u).

(** [None] is the nil op that is returned for the other types. *)
Definition copyOpAndRevertUnrefsToOriginals (currOp : op) (s : crChains) : option op :=
  match currOp with
  | CreateOp o => Some (CreateOp (MkCreateOp (co_OpCommon o) (co_NewName o) (revert_unref s (co_Dir o))
                    (co_Type o) (co_renamed o) (co_forceCopy o) (co_crSymPath o)))
  | RmOp o => Some (RmOp (MkRmOp (ro_OpCommon o) (ro_OldName o) (revert_unref s (ro_Dir o)) (ro_dropThis o)))
  | RenameOp o => Some (RenameOp (MkRenameOp (rn_OpCommon o) (rn_OldName o) (revert_unref s (rn_OldDir o))
                    (rn_NewName o) (revert_unref s (rn_NewDir o)) (revert_ptr s (rn_Renamed o))
                    (rn_RenamedType o)))
  | SyncOp o => Some (SyncOp (MkSyncOp (so_OpCommon o) (revert_unref s (so_File o)) (so_Writes o)))
  | SetAttrOp o => Some (SetAttrOp (MkSetAttrOp (sao_OpCommon o) (sao_Name o) (revert_unref s (sao_Dir o))
                    (sao_Attr o) (revert_ptr s (sao_File o))))
  | GcOp o => Some (GcOp o)
  | ResolutionOp _ | RekeyOp _ => None
  end.

(** Move the mark of [old], if any, to [new]. *)
Definition move_mark (old new : BlockPointer) (marks : gset BlockPointer) : gset BlockPointer :=
  if decide (old ∈ marks) then {[ new ]} ∪ (marks ∖ {[ old ]}) else marks.

Definition changeOriginal (oldOriginal newOriginal : BlockPointer) : go crChains unit := λ s,
  match ccs_byOriginal s !! oldOriginal with
  | None => (Err (NoChainFoundError oldOriginal), s)
  | Some id =>
      match ccs_byOriginal s !! newOriginal with
      | Some _ => (Err (Errorf "crChains.changeOriginal: New original already exists"), s)
      | None =>
          match ccs_chains s !! id with
          | None => (Panic "nil pointer dereference", s)
          | Some c =>
              let same := bool_decide (cc_mostRecent c = oldOriginal) in
              let c' := MkCrChain (cc_ops c) newOriginal (if same then newOriginal else cc_mostRecent c) in
              let s := set_chain id c' s in
              let s := set_maps (<[newOriginal := id]> (delete oldOriginal (ccs_byOriginal s)))
                         (if same then <[newOriginal := id]> (delete oldOriginal (ccs_byMostRecent s))
                          else ccs_byMostRecent s)
                         (<[oldOriginal := newOriginal]> (ccs_originals s)) s in
              (Ok tt, set_tracking (move_mark oldOriginal newOriginal (ccs_deletedOriginals s))
                        (move_mark oldOriginal newOriginal (ccs_createdOriginals s))
                        (match ccs_renamedOriginals s !! oldOriginal with
                         | Some ri => <[newOriginal := ri]> (delete oldOriginal (ccs_renamedOriginals s))
                         | None => ccs_renamedOriginals s
                         end) s)
          end
      end
  end.
