(* ===== verification/CRChainsSpec.v ===== *)
(** * CRChainsSpec: what the chains of conflict resolution promise

    Collapsing a chain keeps its net effect on the names of the
    directory; the chains track every pointer to its latest version and
    back, as following the updates one by one does. *)

From Stdlib Require Import ZArith Lia.
From stdpp Require Import gmap.
From S2P Require Import Prelude Types Errors GoStd DataTypes Ops CRChains.

(** ** The names of a directory *)

(** What an op does to the presence of name [n]. *)
Definition name_effect (n : string) (o : op) : option bool :=
  match o with
  | CreateOp c => if decide (co_NewName c = n) then Some true else None
  | RmOp r => if decide (ro_OldName r = n) then Some false else None
  | _ => None
  end.

(** The names of a directory after the ops of its chain. *)
Definition name_step (names : gset string) (o : op) : gset string :=
  match o with
  | CreateOp c => {[ co_NewName c ]} ∪ names
  | RmOp r => names ∖ {[ ro_OldName r ]}
  | _ => names
  end.
Definition names_after (names : gset string) (ops : list op) : gset string := foldl name_step names ops.

(** An op that concerns no name. *)
Definition is_name_op (o : op) : bool := match o with CreateOp _ | RmOp _ => true | _ => false end.

(** The ops make sense on a directory with these names: a name is created
    when it is free, or by a rename over a name that the chain created;
    and removed when it is there. *)
Fixpoint valid_chain (names created : gset string) (ops : list op) : Prop :=
  match ops with
  | [] => True
  | CreateOp c :: ops =>
      (co_NewName c ∉ names ∨ (co_renamed c = true ∧ co_NewName c ∈ created)) ∧
      valid_chain ({[ co_NewName c ]} ∪ names) ({[ co_NewName c ]} ∪ created) ops
  | RmOp r :: ops =>
      ro_OldName r ∈ names ∧
      valid_chain (names ∖ {[ ro_OldName r ]}) (created ∖ {[ ro_OldName r ]}) ops
  | _ :: ops => valid_chain names created ops
  end.

Definition status (n : string) (b : bool) (ops : list op) : bool :=
  foldl (λ b o, default b (name_effect n o)) b ops.

Lemma status_app n b l k : status n b (l ++ k) = status n (status n b l) k.
Proof. apply foldl_app. Qed.

Lemma names_after_status n names ops :
  n ∈ names_after names ops ↔ status n (bool_decide (n ∈ names)) ops = true.
Proof.
  revert names. induction ops as [|o ops IH]; intros names; simpl.
  { by rewrite bool_decide_eq_true. }
  rewrite IH. f_equiv. f_equal. destruct o as [c|r| | | | | |]; simpl; try done.
  - destruct (decide (co_NewName c = n)) as [<-|Hne]; simpl.
    + apply bool_decide_eq_true. set_solver.
    + apply bool_decide_ext. set_solver.
  - destruct (decide (ro_OldName r = n)) as [<-|Hne]; simpl.
    + apply bool_decide_eq_false. set_solver.
    + apply bool_decide_ext. set_solver.
Qed.

(** ** Removing ops by index *)

Lemma keep_ops_app i rm l k :
  keep_ops i rm (l ++ k) = keep_ops i rm l ++ keep_ops (i + length l) rm k.
Proof.
  revert i. induction l as [|o l IH]; intros i; simpl; [by rewrite Nat.add_0_r|].
  rewrite IH. replace (S i + length l) with (i + S (length l)) by lia. by case_decide.
Qed.

Lemma keep_ops_beyond i k rm l : i + length l <= k → keep_ops i ({[ k ]} ∪ rm) l = keep_ops i rm l.
Proof.
  revert i. induction l as [|o l IH]; intros i Hk; simpl in *; [done|]. rewrite IH by lia.
  destruct (decide (i ∈ rm)) as [Hi|Hi].
  - rewrite decide_True by set_solver. done.
  - rewrite decide_False; [done|]. rewrite elem_of_union, elem_of_singleton. intros [->|?]; [lia|done].
Qed.

Lemma keep_ops_none i rm l : (∀ k, k ∈ rm → False) → keep_ops i rm l = l.
Proof.
  intros Hrm. revert i. induction l as [|o l IH]; intros i; simpl; [done|].
  rewrite decide_False by (intros ?; eauto). by rewrite IH.
Qed.

Lemma keep_ops_beyond_head i rm l : keep_ops (S i) ({[ i ]} ∪ rm) l = keep_ops (S i) rm l.
Proof.
  assert (∀ j, i < j → keep_ops j ({[ i ]} ∪ rm) l = keep_ops j rm l) as Hj; [|apply Hj; lia].
  induction l as [|o l IH]; intros j Hj; simpl; [done|]. rewrite IH by lia.
  destruct (decide (j ∈ rm)) as [Hi|Hi].
  - by rewrite decide_True by set_solver.
  - rewrite decide_False; [done|]. rewrite elem_of_union, elem_of_singleton. intros [->|?]; [lia|done].
Qed.

(** Removing an op that does not concern [n]. *)
Lemma status_remove n b i k rm l o :
  l !! k = Some o → name_effect n o = None →
  status n b (keep_ops i ({[ i + k ]} ∪ rm) l) = status n b (keep_ops i rm l).
Proof.
  revert i k b. induction l as [|o' l IH]; intros i k b Hk Ho; [done|]. destruct k as [|k]; simpl in *.
  - injection Hk as ->. rewrite Nat.add_0_r, decide_True by set_solver.
    rewrite keep_ops_beyond_head. case_decide; [done|]. simpl. by rewrite Ho.
  - replace (i + S k) with (S i + k) by lia.
    assert (i ∈ ({[ S i + k ]} ∪ rm : gset nat) ↔ i ∈ rm) as Hiff.
    { rewrite elem_of_union, elem_of_singleton. split; [intros [?|?]; [lia|done]|by right]. }
    destruct (decide (i ∈ rm)) as [Hi|Hi].
    + rewrite decide_True by (by apply Hiff). by apply IH.
    + rewrite decide_False by (by rewrite Hiff).
      apply (IH (S i) k (default b (name_effect n o')) Hk Ho).
Qed.

(** ** Collapsing *)

(** The invariant of the scan after [pre], on a directory that had the
    names [names0]: what is kept gives the same names, and gives them
    without [n] when the latest create of [n] is removed too. *)
Record scan_ok (names0 : gset string) (pre : list op) (seen : gmap string nat) (rm : gset nat)
    (names created : gset string) : Prop := {
  so_bound k : k ∈ rm → ∃ o, pre !! k = Some o ∧ is_name_op o = true;
  so_created n : n ∈ created ↔ is_Some (seen !! n);
  so_present n : n ∈ created → n ∈ names;
  so_seen n j : seen !! n = Some j → ∃ c, pre !! j = Some (CreateOp c) ∧ co_NewName c = n ∧
    status n (bool_decide (n ∈ names0)) (keep_ops 0 ({[ j ]} ∪ rm) pre) = false;
  so_status n : status n (bool_decide (n ∈ names0)) (keep_ops 0 rm pre) = bool_decide (n ∈ names)
}.

Lemma keep_ops_snoc rm pre o :
  keep_ops 0 rm (pre ++ [o]) = keep_ops 0 rm pre ++ if decide (length pre ∈ rm) then [] else [o].
Proof. rewrite keep_ops_app. simpl. by case_decide. Qed.

Lemma not_yet_removed {A} (pre : list A) (P : A → Prop) (rm : gset nat) :
  (∀ k, k ∈ rm → ∃ o, pre !! k = Some o ∧ P o) → length pre ∉ rm.
Proof. intros Hb Hin. destruct (Hb _ Hin) as (o & Ho & _). apply lookup_lt_Some in Ho. lia. Qed.

(** Keeping the next op, with [k] removed before it or not. *)
Lemma keep_next rm pre o : length pre ∉ rm → keep_ops 0 rm (pre ++ [o]) = keep_ops 0 rm pre ++ [o].
Proof. intros Hn. by rewrite keep_ops_snoc, decide_False. Qed.

Lemma keep_next_but rm pre o j : length pre ∉ rm → j < length pre →
  keep_ops 0 ({[ j ]} ∪ rm) (pre ++ [o]) = keep_ops 0 ({[ j ]} ∪ rm) pre ++ [o].
Proof.
  intros Hn Hj. apply keep_next. rewrite elem_of_union, elem_of_singleton. intros [?|?]; [lia|done].
Qed.

Lemma status_snoc_other n b l o : name_effect n o = None → status n b (l ++ [o]) = status n b l.
Proof. intros Ho. rewrite status_app. simpl. by rewrite Ho. Qed.

Lemma scan_other names0 pre seen rm names created o :
  scan_ok names0 pre seen rm names created → is_name_op o = false →
  scan_ok names0 (pre ++ [o]) seen rm names created.
Proof.
  intros [Hb Hc Hp Hs Hst] Ho. pose proof (not_yet_removed _ _ _ Hb) as Hlen.
  assert (∀ n, name_effect n o = None) as He by by destruct o.
  split; [|done|done|..].
  - intros k Hk. destruct (Hb k Hk) as (o' & Ho' & ?). exists o'. split; [|done]. by apply lookup_app_l_Some.
  - intros n j Hj. destruct (Hs n j Hj) as (c & Hpj & Hn & Hf). exists c.
    split_and!; [by apply lookup_app_l_Some|done|].
    rewrite keep_next_but by (done || by eapply lookup_lt_Some). by rewrite status_snoc_other.
  - intros n. by rewrite keep_next, status_snoc_other.
Qed.

Lemma union_swap (a b : nat) (X : gset nat) : {[ a ]} ∪ ({[ b ]} ∪ X) = {[ b ]} ∪ ({[ a ]} ∪ X).
Proof. set_solver. Qed.

(** A create at the next index, when the removals [rm'] leave the name
    free. *)
Lemma scan_create names0 pre seen rm rm' names created c :
  scan_ok names0 pre seen rm names created →
  (∀ k, k ∈ rm' → ∃ o, pre !! k = Some o ∧ is_name_op o = true) →
  status (co_NewName c) (bool_decide (co_NewName c ∈ names0)) (keep_ops 0 rm' pre) = false →
  (∀ n, n ≠ co_NewName c → status n (bool_decide (n ∈ names0)) (keep_ops 0 rm' pre) = bool_decide (n ∈ names)) →
  (∀ n j, n ≠ co_NewName c → seen !! n = Some j →
     status n (bool_decide (n ∈ names0)) (keep_ops 0 ({[ j ]} ∪ rm') pre) = false) →
  scan_ok names0 (pre ++ [CreateOp c]) (<[co_NewName c := length pre]> seen) rm'
    ({[ co_NewName c ]} ∪ names) ({[ co_NewName c ]} ∪ created).
Proof.
  intros [Hb Hc Hp Hs Hst] Hb' Hfree Hoth Hseen. pose proof (not_yet_removed _ _ _ Hb') as Hlen.
  assert (∀ n, n ≠ co_NewName c → name_effect n (CreateOp c) = None) as He.
  { intros n Hn. simpl. by rewrite decide_False. }
  split.
  - intros k Hk. destruct (Hb' k Hk) as (o' & Ho' & ?). exists o'. split; [|done]. by apply lookup_app_l_Some.
  - intros n. rewrite elem_of_union, elem_of_singleton, lookup_insert_is_Some', <- Hc. naive_solver.
  - intros n. rewrite !elem_of_union, !elem_of_singleton. naive_solver.
  - intros n j [[<- <-]|[Hne Hj]]%lookup_insert_Some.
    + exists c. rewrite lookup_app_r, Nat.sub_diag by done. split_and!; [done..|].
      rewrite keep_ops_snoc, decide_True by set_solver. rewrite app_nil_r.
      rewrite keep_ops_beyond by done. done.
    + destruct (Hs n j Hj) as (c' & Hpj & Hn & _). exists c'. split_and!; [by apply lookup_app_l_Some|done|].
      rewrite keep_next_but by (done || by eapply lookup_lt_Some).
      rewrite status_snoc_other by (apply He; congruence). apply Hseen; [congruence|done].
  - intros n. rewrite keep_next by done. destruct (decide (n = co_NewName c)) as [->|Hne].
    + rewrite status_app. simpl. rewrite decide_True by done. symmetry. apply bool_decide_eq_true. set_solver.
    + rewrite status_snoc_other by by apply He. rewrite Hoth by done. apply bool_decide_ext. set_solver.
Qed.

(** Removing the create [j] of [n] does not matter to other names. *)
Lemma status_without_create names0 pre seen rm names created n j n' rm' :
  scan_ok names0 pre seen rm names created → seen !! n = Some j → n' ≠ n →
  status n' (bool_decide (n' ∈ names0)) (keep_ops 0 ({[ j ]} ∪ rm') pre) =
  status n' (bool_decide (n' ∈ names0)) (keep_ops 0 rm' pre).
Proof.
  intros Hok Hj Hne. destruct (so_seen _ _ _ _ _ _ Hok n j Hj) as (c & Hpj & Hn & _).
  apply (status_remove n' _ 0 j rm' pre (CreateOp c)); [done|]. simpl. by rewrite decide_False by congruence.
Qed.

Lemma scan_bound_add names0 pre seen rm names created n j k :
  scan_ok names0 pre seen rm names created → seen !! n = Some j → k ∈ {[ j ]} ∪ rm →
  ∃ o, pre !! k = Some o ∧ is_name_op o = true.
Proof.
  intros Hok Hj [->%elem_of_singleton|Hk]%elem_of_union; [|by apply (so_bound _ _ _ _ _ _ Hok)].
  destruct (so_seen _ _ _ _ _ _ Hok n j Hj) as (c & Hpj & _). by exists (CreateOp c).
Qed.

Lemma scan_create_step names0 pre seen rm names created c :
  scan_ok names0 pre seen rm names created →
  co_NewName c ∉ names ∨ (co_renamed c = true ∧ co_NewName c ∈ created) →
  let rm' := match seen !! co_NewName c with
             | Some prev => if co_renamed c then {[ prev ]} ∪ rm else rm
             | None => rm
             end in
  scan_ok names0 (pre ++ [CreateOp c]) (<[co_NewName c := length pre]> seen) rm'
    ({[ co_NewName c ]} ∪ names) ({[ co_NewName c ]} ∪ created).
Proof.
  intros Hok Hv. pose proof Hok as [Hb Hc Hp Hs Hst].
  destruct (seen !! co_NewName c) as [prev|] eqn:Hprev.
  - destruct Hv as [Hv|[-> Hv]].
    { destruct Hv. apply Hp, Hc. by rewrite Hprev. }
    apply (scan_create _ _ _ rm); [done|..].
    + intros k. by apply (scan_bound_add _ _ _ _ _ _ _ _ _ Hok Hprev).
    + by destruct (Hs _ _ Hprev) as (? & _ & _ & ?).
    + intros n Hne. rewrite (status_without_create _ _ _ _ _ _ _ _ _ _ Hok Hprev) by done. apply Hst.
    + intros n j Hne Hj. rewrite union_swap.
      rewrite (status_without_create _ _ _ _ _ _ _ _ _ _ Hok Hprev) by done.
      by destruct (Hs _ _ Hj) as (? & _ & _ & ?).
  - apply (scan_create _ _ _ rm); [done|done|..].
    + rewrite Hst. apply bool_decide_eq_false. destruct Hv as [|[_ Hv]]; [done|].
      apply Hc in Hv. rewrite Hprev in Hv. by destruct Hv.
    + intros n _. apply Hst.
    + intros n j _ Hj. by destruct (Hs _ _ Hj) as (? & _ & _ & ?).
Qed.

Lemma scan_rm_step names0 pre seen rm names created r :
  scan_ok names0 pre seen rm names created → ro_OldName r ∈ names →
  let n := ro_OldName r in
  let '(seen', rm') := match seen !! n with
                       | Some prev => (delete n seen, {[ length pre ]} ∪ ({[ prev ]} ∪ rm))
                       | None => (seen, rm)
                       end in
  scan_ok names0 (pre ++ [RmOp r]) seen' rm' (names ∖ {[ n ]}) (created ∖ {[ n ]}).
Proof.
  intros Hok Hv n0. pose proof Hok as [Hb Hc Hp Hs Hst]. pose proof (not_yet_removed _ _ _ Hb) as Hlen.
  assert (∀ n, n ≠ n0 → name_effect n (RmOp r) = None) as He.
  { intros n Hn. simpl. by rewrite decide_False. }
  destruct (seen !! n0) as [prev|] eqn:Hprev.
  - assert (∀ X, keep_ops 0 ({[ length pre ]} ∪ X) (pre ++ [RmOp r]) = keep_ops 0 X pre) as Hk.
    { intros X. rewrite keep_ops_snoc, decide_True by set_solver. rewrite app_nil_r.
      by apply keep_ops_beyond. }
    split.
    + intros k [->%elem_of_singleton|Hin]%elem_of_union.
      * exists (RmOp r). by rewrite lookup_app_r, Nat.sub_diag.
      * destruct (scan_bound_add _ _ _ _ _ _ _ _ _ Hok Hprev Hin) as (o & Ho & ?).
        exists o. split; [by apply lookup_app_l_Some|done].
    + intros n. rewrite elem_of_difference, elem_of_singleton, lookup_delete_is_Some, <- Hc. naive_solver.
    + intros n. rewrite !elem_of_difference. naive_solver.
    + intros n j [Hne Hj]%lookup_delete_Some. destruct (Hs n j Hj) as (c & Hpj & Hn & Hf).
      exists c. split_and!; [by apply lookup_app_l_Some|done|]. rewrite union_swap, Hk, union_swap.
      by rewrite (status_without_create _ _ _ _ _ _ _ _ _ _ Hok Hprev) by done.
    + intros n. rewrite Hk. destruct (decide (n = n0)) as [->|Hne].
      * destruct (Hs _ _ Hprev) as (? & _ & _ & ->). symmetry. apply bool_decide_eq_false. set_solver.
      * rewrite (status_without_create _ _ _ _ _ _ _ _ _ _ Hok Hprev) by done. rewrite Hst.
        apply bool_decide_ext. set_solver.
  - assert (n0 ∉ created) as Hnc by (rewrite Hc, Hprev; by intros [??]).
    split.
    + intros k Hk. destruct (Hb k Hk) as (o' & Ho' & ?). exists o'. split; [|done]. by apply lookup_app_l_Some.
    + intros n. rewrite <- Hc. set_solver.
    + intros n. rewrite !elem_of_difference. naive_solver.
    + intros n j Hj. destruct (Hs n j Hj) as (c & Hpj & Hn & Hf). exists c.
      split_and!; [by apply lookup_app_l_Some|done|].
      rewrite keep_next_but by (done || by eapply lookup_lt_Some).
      rewrite status_snoc_other; [done|]. apply He. intros ->. congruence.
    + intros n. rewrite keep_next by done. destruct (decide (n = n0)) as [->|Hne].
      * rewrite status_app. simpl. rewrite decide_True by done. symmetry. apply bool_decide_eq_false. set_solver.
      * rewrite status_snoc_other by by apply He. rewrite Hst. apply bool_decide_ext. set_solver.
Qed.

Lemma scan_all names0 pre seen rm names created ops :
  scan_ok names0 pre seen rm names created → valid_chain names created ops →
  ∃ seen' rm' created', foldl collapse_scan (length pre, seen, rm) ops = (length (pre ++ ops), seen', rm') ∧
    scan_ok names0 (pre ++ ops) seen' rm' (names_after names ops) created'.
Proof.
  revert pre seen rm names created. induction ops as [|o ops IH]; intros pre seen rm names created Hok Hv.
  { exists seen, rm, created. by rewrite app_nil_r. }
  assert (∃ seen1 rm1 created1, collapse_scan (length pre, seen, rm) o = (length (pre ++ [o]), seen1, rm1) ∧
    scan_ok names0 (pre ++ [o]) seen1 rm1 (name_step names o) created1 ∧
    valid_chain (name_step names o) created1 ops) as (seen1 & rm1 & created1 & Heq & Hok1 & Hv1).
  { rewrite length_app, Nat.add_1_r. destruct o as [c|r| | | | | |]; simpl in Hv;
      try (exists seen, rm, created; split_and!; [done|by apply scan_other|done]).
    - destruct Hv as [Hv Hv1]. pose proof (scan_create_step _ _ _ _ _ _ c Hok Hv) as Hok1.
      eexists _, _, _. split_and!; [reflexivity|exact Hok1|exact Hv1].
    - destruct Hv as [Hv Hv1]. pose proof (scan_rm_step _ _ _ _ _ _ r Hok Hv) as Hok1. simpl in Hok1 |- *.
      destruct (seen !! ro_OldName r); eexists _, _, _; (split_and!; [reflexivity|exact Hok1|exact Hv1]). }
  cbn [foldl]. rewrite Heq. destruct (IH (pre ++ [o]) seen1 rm1 _ created1 Hok1 Hv1)
    as (seen' & rm' & created' & Hf & Hok'). rewrite <- app_assoc in *. simpl in *.
  by exists seen', rm', created'.
Qed.

Lemma keep_ops_others i rm l :
  (∀ k, i <= k → k ∈ rm → ∃ o, l !! (k - i) = Some o ∧ is_name_op o = true) →
  filter (λ o, is_name_op o = false) (keep_ops i rm l) = filter (λ o, is_name_op o = false) l.
Proof.
  revert i. induction l as [|o l IH]; intros i Hrm; [done|]. simpl.
  assert (filter (λ o, is_name_op o = false) (keep_ops (S i) rm l) = filter (λ o, is_name_op o = false) l) as E.
  { apply IH. intros k Hk Hin. destruct (Hrm k ltac:(lia) Hin) as (o' & Ho' & ?). exists o'.
    split; [|done]. rewrite <- Ho'. by replace (k - i) with (S (k - S i)) by lia. }
  destruct (decide (i ∈ rm)) as [Hi|Hi].
  - destruct (Hrm i ltac:(lia) Hi) as (o' & Ho' & Hn). rewrite Nat.sub_diag in Ho'. injection Ho' as ->.
    rewrite E, filter_cons_False by congruence. done.
  - rewrite !filter_cons. by rewrite E.
Qed.

(** C25. Collapsing a chain keeps its meaning: on any directory on which
    the ops make sense, the collapsed chain leaves the same names as the
    whole chain, and every op that is not a create or a remove is kept,
    in order. *)
Theorem collapse_keeps_names (names : gset string) (cc : crChain) :
  valid_chain names ∅ (cc_ops cc) →
  names_after names (cc_ops (collapse cc)) = names_after names (cc_ops cc) ∧
  filter (λ o, is_name_op o = false) (cc_ops (collapse cc)) =
    filter (λ o, is_name_op o = false) (cc_ops cc).
Proof.
  intros Hv. simpl. set (ops := cc_ops cc) in *.
  destruct (scan_all names [] ∅ ∅ names ∅ ops) as (seen & rm & created & Hf & [Hb _ _ _ Hst]); [|done|].
  { split; [by intros k ?%elem_of_empty|..].
    - intros n. rewrite lookup_empty. split; [by intros ?%elem_of_empty|by intros [? ?]].
    - by intros n ?%elem_of_empty.
    - by intros n j ?%lookup_empty_Some.
    - intros n. simpl. done. }
  simpl in *. unfold collapse_ops. rewrite Hf.
  assert (keep_ops 0 rm ops = if decide (0 < size rm) then keep_ops 0 rm ops else ops) as Hk.
  { case_decide as Hs; [done|]. apply keep_ops_none. intros k Hk. apply Hs.
    assert (rm ≢ ∅) as Hne by set_solver. apply size_non_empty_iff in Hne. lia. }
  rewrite <- Hk. split.
  - apply set_eq. intros n. rewrite names_after_status, Hst. by rewrite bool_decide_eq_true.
  - apply keep_ops_others. intros k _ Hin. rewrite Nat.sub_0_r. by apply Hb.
Qed.

(** ** Tracking pointers *)

(** The latest version of a pointer: follow the updates in order. *)
Definition follow (us : list blockUpdate) (p : BlockPointer) : BlockPointer :=
  foldl (λ p u, if decide (p = bu_Unref u) then bu_Ref u else p) p us.

Abbreviation refs us := (bu_Ref <$> us).
Abbreviation unrefs us := (bu_Unref <$> us).

Lemma follow_snoc us u p :
  follow (us ++ [u]) p = if decide (follow us p = bu_Unref u) then bu_Ref u else follow us p.
Proof. unfold follow. by rewrite foldl_app. Qed.

Lemma follow_cases us p : follow us p = p ∨ follow us p ∈ refs us.
Proof.
  induction us as [|u us IH] using rev_ind; [by left|]. rewrite follow_snoc, fmap_app, elem_of_app.
  case_decide; [right; right; by left|]. destruct IH; auto.
Qed.

Lemma follow_current us p : p ∉ unrefs us → follow us p = p.
Proof.
  induction us as [|u us IH] using rev_ind; [done|]. rewrite fmap_app, not_elem_of_app, follow_snoc.
  intros [Hp Hu]. rewrite IH by done. rewrite decide_False; [done|]. intros ->. apply Hu. by left.
Qed.

(** The chains after the updates [us], and attribute changes of the
    files [attrs]. *)
Record chains_ok (us : list blockUpdate) (attrs : list BlockPointer) (s : crChains) : Prop := {
  ok_recent p id : ccs_byMostRecent s !! p = Some id → IsInitialized p = true ∧
    ∃ c, ccs_chains s !! id = Some c ∧ cc_mostRecent c = p ∧
      ccs_byOriginal s !! cc_original c = Some id ∧ follow us (cc_original c) = p;
  ok_original p id : ccs_byOriginal s !! p = Some id → (p ∉ refs us) ∧
    ∃ c, ccs_chains s !! id = Some c ∧ cc_original c = p ∧ ccs_byMostRecent s !! cc_mostRecent c = Some id;
  ok_tracked p : p ∈ unrefs us → p ∉ refs us → is_Some (ccs_byOriginal s !! p);
  ok_known p : is_Some (ccs_byOriginal s !! p) → p ∈ unrefs us ∨ p ∈ attrs;
  ok_latest p : p ∈ refs us → p ∉ unrefs us → is_Some (ccs_byMostRecent s !! p);
  ok_next id : is_Some (ccs_chains s !! id) → id < ccs_next s
}.

(** The update replaces a current pointer by a new one. *)
Record update_fresh (us : list blockUpdate) (attrs : list BlockPointer) (u : blockUpdate) : Prop := {
  uf_ref : IsInitialized (bu_Ref u) = true;
  uf_unref : IsInitialized (bu_Unref u) = true;
  uf_new : bu_Ref u ∉ refs us;
  uf_new' : bu_Ref u ∉ unrefs us;
  uf_new_attr : bu_Ref u ∉ attrs;
  uf_ne : bu_Ref u ≠ bu_Unref u;
  uf_current : bu_Unref u ∉ unrefs us
}.

Lemma chain_at_Some us attrs s p id : chains_ok us attrs s → ccs_byMostRecent s !! p = Some id →
  ∃ c, ccs_chains s !! id = Some c ∧ chain_at p s = Some (id, c).
Proof.
  intros Hok Hp. destruct (ok_recent _ _ _ Hok p id Hp) as (_ & c & Hc & _). exists c. split; [done|].
  unfold chain_at. rewrite Hp. simpl. by rewrite Hc.
Qed.

Lemma chain_at_None us attrs s p : chains_ok us attrs s → chain_at p s = None → ccs_byMostRecent s !! p = None.
Proof.
  intros Hok Hp. destruct (ccs_byMostRecent s !! p) as [id|] eqn:E; [|done].
  destruct (chain_at_Some _ _ _ _ _ Hok E) as (c & _ & Hc). congruence.
Qed.

(** A new pointer is in neither map. *)
Lemma fresh_not_recent us attrs s u id : chains_ok us attrs s → update_fresh us attrs u →
  ccs_byMostRecent s !! bu_Ref u ≠ Some id.
Proof.
  intros Hok [] Hp. destruct (ok_recent _ _ _ Hok _ _ Hp) as (_ & c & Hc & Hm & Ho & Hf).
  destruct (follow_cases us (cc_original c)) as [Hs|Hs]; [|by rewrite Hf in Hs].
  rewrite Hf in Hs. destruct (ok_known _ _ _ Hok (cc_original c)) as [Hk|Hk]; [by eexists|..];
    rewrite <- Hs in Hk; done.
Qed.

(** A current pointer with no chain is the original of none. *)
Lemma current_not_original us attrs s p : chains_ok us attrs s → p ∉ unrefs us →
  ccs_byMostRecent s !! p = None → ccs_byOriginal s !! p = None ∧ p ∉ refs us.
Proof.
  intros Hok Hp Hn. split.
  - destruct (ccs_byOriginal s !! p) as [id|] eqn:E; [|done].
    destruct (ok_original _ _ _ Hok p id E) as (_ & c & Hc & Ho & Hr).
    destruct (ok_recent _ _ _ Hok _ _ Hr) as (_ & c' & Hc' & _ & _ & Hf).
    rewrite Hc in Hc'. injection Hc' as <-. rewrite Ho, follow_current in Hf by done. congruence.
  - intros Hin. destruct (ok_latest _ _ _ Hok p Hin Hp). congruence.
Qed.

(** The maps that matter to [chains_ok], after an update of chain [id]. *)
Lemma apply_update_existing us attrs s u id c :
  chains_ok us attrs s → update_fresh us attrs u → ccs_byMostRecent s !! bu_Unref u = Some id →
  ccs_chains s !! id = Some c →
  ∀ s', ccs_chains s' = <[id := MkCrChain (cc_ops c) (cc_original c) (bu_Ref u)]> (ccs_chains s) →
  ccs_next s' = ccs_next s → ccs_byOriginal s' = ccs_byOriginal s →
  ccs_byMostRecent s' = <[bu_Ref u := id]> (delete (bu_Unref u) (ccs_byMostRecent s)) →
  chains_ok (us ++ [u]) attrs s'.
Proof.
  intros Hok Hfr Hid Hc s' E1 E2 E3 E4. pose proof Hfr as [F1 F2 F3 F4 F5 F6 F7].
  destruct (ok_recent _ _ _ Hok _ _ Hid) as (_ & c0 & Hc0 & Hm & Ho & Hf). rewrite Hc in Hc0. injection Hc0 as <-.
  split; rewrite ?E1, ?E2, ?E3, ?E4; rewrite ?fmap_app.
  - intros p id2. rewrite lookup_insert_Some, lookup_delete_Some. intros [[<- <-]|[Hne [Hne' Hp]]].
    + split; [done|]. eexists. rewrite lookup_insert_eq. split_and!; [done..|]. simpl.
      rewrite follow_snoc. by rewrite decide_True.
    + destruct (ok_recent _ _ _ Hok _ _ Hp) as (Hi & c2 & Hc2 & Hm2 & Ho2 & Hf2). split; [done|].
      exists c2. rewrite lookup_insert_ne by congruence. split_and!; [done..|].
      rewrite follow_snoc, Hf2. by rewrite decide_False.
  - intros p id2 Hp. destruct (ok_original _ _ _ Hok _ _ Hp) as (Hnr & c2 & Hc2 & Ho2 & Hr2). split.
    + rewrite not_elem_of_app. split; [done|]. intros ->%list_elem_of_singleton.
      destruct (ok_known _ _ _ Hok (bu_Ref u)); [by eexists|done..].
    + destruct (decide (id2 = id)) as [->|Hne].
      * eexists. rewrite lookup_insert_eq. split_and!; [done|simpl; congruence|].
        simpl. by rewrite lookup_insert_eq.
      * exists c2. rewrite lookup_insert_ne by done. split_and!; [done..|].
        rewrite lookup_insert_ne by (intros Hx; apply (fresh_not_recent _ _ _ _ id2 Hok Hfr); congruence).
        rewrite lookup_delete_ne; [done|]. intros Hx. rewrite <- Hx in Hr2. congruence.
  - intros p. rewrite elem_of_app, not_elem_of_app. intros [Hp|Hp] [Hnr _]; [by apply (ok_tracked _ _ _ Hok)|].
    apply list_elem_of_singleton in Hp as ->.
    destruct (follow_cases us (cc_original c)) as [Hs|Hs]; [|by rewrite Hf in Hs].
    rewrite Hf in Hs. rewrite Hs. by eexists.
  - intros p Hp%(ok_known _ _ _ Hok). rewrite elem_of_app. tauto.
  - intros p. rewrite elem_of_app, not_elem_of_app. intros [Hp|Hp] [Hnu Hnu'].
    + destruct (ok_latest _ _ _ Hok p Hp Hnu) as [id2 Hid2]. rewrite lookup_insert_is_Some.
      destruct (decide (bu_Ref u = p)); [by left|right]. split; [done|].
      rewrite lookup_delete_ne; [by eexists|]. intros <-. apply Hnu'. by left.
    + apply list_elem_of_singleton in Hp as ->. rewrite lookup_insert_eq. by eexists.
  - intros id2. rewrite lookup_insert_is_Some. intros [<-|[_ H2]]; apply (ok_next _ _ _ Hok); [by eexists|done].
Qed.

(** The same for a new chain. *)
Lemma apply_update_new us attrs s u :
  chains_ok us attrs s → update_fresh us attrs u → ccs_byMostRecent s !! bu_Unref u = None →
  ∀ s' ops, ccs_chains s' = <[ccs_next s := MkCrChain ops (bu_Unref u) (bu_Ref u)]> (ccs_chains s) →
  ccs_next s' = S (ccs_next s) → ccs_byOriginal s' = <[bu_Unref u := ccs_next s]> (ccs_byOriginal s) →
  ccs_byMostRecent s' = <[bu_Ref u := ccs_next s]> (ccs_byMostRecent s) →
  chains_ok (us ++ [u]) attrs s'.
Proof.
  intros Hok Hfr Hid s' ops E1 E2 E3 E4. pose proof Hfr as [F1 F2 F3 F4 F5 F6 F7].
  destruct (current_not_original _ _ _ _ Hok F7 Hid) as [Hno Hnr].
  assert (∀ id, is_Some (ccs_chains s !! id) → id ≠ ccs_next s) as Hnx.
  { intros id Hi%(ok_next _ _ _ Hok). lia. }
  split; rewrite ?E1, ?E2, ?E3, ?E4; rewrite ?fmap_app.
  - intros p id2. rewrite lookup_insert_Some. intros [[<- <-]|[Hne Hp]].
    + split; [done|]. exists (MkCrChain ops (bu_Unref u) (bu_Ref u)). simpl.
      rewrite !lookup_insert_eq. split_and!; [done..|].
      rewrite follow_snoc, follow_current by done. by rewrite decide_True.
    + destruct (ok_recent _ _ _ Hok _ _ Hp) as (Hi & c2 & Hc2 & Hm2 & Ho2 & Hf2). split; [done|].
      exists c2. rewrite lookup_insert_ne by (symmetry; apply Hnx; by eexists). split_and!; [done..| |].
      * rewrite lookup_insert_ne by congruence. done.
      * rewrite follow_snoc, Hf2. rewrite decide_False; [done|]. congruence.
  - intros p id2. rewrite lookup_insert_Some. intros [[<- <-]|[Hne Hp]].
    + split; [rewrite not_elem_of_app; split; [done|]; intros Hx%list_elem_of_singleton; congruence|].
      exists (MkCrChain ops (bu_Unref u) (bu_Ref u)). simpl. by rewrite !lookup_insert_eq.
    + destruct (ok_original _ _ _ Hok _ _ Hp) as (Hnr2 & c2 & Hc2 & Ho2 & Hr2). split.
      * rewrite not_elem_of_app. split; [done|]. intros ->%list_elem_of_singleton.
        destruct (ok_known _ _ _ Hok (bu_Ref u)); [by eexists|done..].
      * exists c2. rewrite lookup_insert_ne by (symmetry; apply Hnx; by eexists). split_and!; [done..|].
        rewrite lookup_insert_ne; [done|].
        intros Hx; apply (fresh_not_recent _ _ _ _ id2 Hok Hfr); congruence.
  - intros p. rewrite elem_of_app, not_elem_of_app, lookup_insert_is_Some'. intros [Hp|Hp] [Hnp _].
    + right. by apply (ok_tracked _ _ _ Hok).
    + apply list_elem_of_singleton in Hp as ->. by left.
  - intros p. rewrite lookup_insert_is_Some', elem_of_app. intros [<-|Hp]; [left; right; by left|].
    apply (ok_known _ _ _ Hok) in Hp. tauto.
  - intros p. rewrite elem_of_app, not_elem_of_app, lookup_insert_is_Some'. intros [Hp|Hp] [Hnu _].
    + right. by apply (ok_latest _ _ _ Hok).
    + apply list_elem_of_singleton in Hp as ->. by left.
  - intros id2. rewrite lookup_insert_is_Some'. intros [<-|H2]; [lia|]. apply (ok_next _ _ _ Hok) in H2. lia.
Qed.

Lemma apply_update_ok us attrs s u :
  chains_ok us attrs s → update_fresh us attrs u → chains_ok (us ++ [u]) attrs (apply_update u s).
Proof.
  intros Hok Hfr. unfold apply_update. destruct (chain_at (bu_Unref u) s) as [[id c]|] eqn:Hc.
  - assert (ccs_byMostRecent s !! bu_Unref u = Some id ∧ ccs_chains s !! id = Some c) as [Hid Hch].
    { unfold chain_at in Hc. destruct (ccs_byMostRecent s !! _) as [id'|]; [|done]. simpl in Hc.
      destruct (ccs_chains s !! id') as [c'|] eqn:E; [|done]. simpl in Hc. by injection Hc as <- <-. }
    destruct (ok_recent _ _ _ Hok _ _ Hid) as (Hi & c' & Hc' & Hm & _). rewrite Hch in Hc'. injection Hc' as <-.
    eapply (apply_update_existing us attrs s u id c); [done..|]. simpl. by rewrite Hm, Hi.
  - apply (chain_at_None us attrs) in Hc; [|done].
    eapply (apply_update_new us attrs s u); [done|done|done|simpl; by rewrite insert_insert_eq|done..].
Qed.

(** Only the pointers of chains matter, not their ops. *)
Lemma chains_ok_ops us attrs s s' :
  chains_ok us attrs s → ccs_byOriginal s' = ccs_byOriginal s → ccs_byMostRecent s' = ccs_byMostRecent s →
  ccs_next s' = ccs_next s →
  (∀ id, (λ c, (cc_original c, cc_mostRecent c)) <$> ccs_chains s' !! id =
         (λ c, (cc_original c, cc_mostRecent c)) <$> ccs_chains s !! id) →
  chains_ok us attrs s'.
Proof.
  intros [H1 H2 H3 H4 H5 H6] E1 E2 E3 E4.
  assert (∀ id c, ccs_chains s !! id = Some c → ∃ c', ccs_chains s' !! id = Some c' ∧
    cc_original c' = cc_original c ∧ cc_mostRecent c' = cc_mostRecent c) as Hc.
  { intros id c Hc. specialize (E4 id). rewrite Hc in E4. simpl in E4.
    destruct (ccs_chains s' !! id) as [c'|]; [|done]. injection E4 as ??. by exists c'. }
  split; rewrite ?E1, ?E2, ?E3; try done.
  - intros p id Hp. destruct (H1 p id Hp) as (? & c & Hch & ? & ? & ?).
    destruct (Hc id c Hch) as (c' & ? & Ho & Hm). split; [done|]. exists c'. rewrite Ho, Hm. done.
  - intros p id Hp. destruct (H2 p id Hp) as (? & c & Hch & ? & ?).
    destruct (Hc id c Hch) as (c' & ? & Ho & Hm). split; [done|]. exists c'. rewrite Ho, Hm. done.
  - intros id Hid. apply H6. specialize (E4 id). destruct Hid as [c' Hc']. rewrite Hc' in E4.
    destruct (ccs_chains s !! id); [by eexists|done].
Qed.

Lemma set_chain_ok us attrs s id c c' :
  chains_ok us attrs s → ccs_chains s !! id = Some c →
  cc_original c' = cc_original c → cc_mostRecent c' = cc_mostRecent c →
  chains_ok us attrs (set_chain id c' s).
Proof.
  intros Hok Hc Ho Hm. apply (chains_ok_ops us attrs s); [done..|]. intros id'. simpl.
  destruct (decide (id = id')) as [<-|Hne].
  - rewrite lookup_insert_eq, Hc. simpl. congruence.
  - by rewrite lookup_insert_ne.
Qed.

Lemma addOp_ok us attrs s p o :
  chains_ok us attrs s → is_Some (ccs_byMostRecent s !! p) →
  wp (addOp p o) (λ _ s', chains_ok us attrs s' ∧ ccs_byMostRecent s' = ccs_byMostRecent s) s.
Proof.
  intros Hok [id Hid]. destruct (chain_at_Some _ _ _ _ _ Hok Hid) as (c & Hc & Hat).
  exists tt, (set_chain id (append_op o c) s). split; [unfold addOp; by rewrite Hat|].
  split; [by eapply set_chain_ok|done].
Qed.

Lemma update_last_op_ok us attrs s f id :
  chains_ok us attrs s → chains_ok us attrs (update_last_op f id s).
Proof.
  intros Hok. unfold update_last_op. destruct (ccs_chains s !! id) as [c|] eqn:Hc; [|done].
  destruct (last (cc_ops c)); [|done]. by eapply set_chain_ok.
Qed.

Lemma track_rename_ok us attrs s ro :
  chains_ok us attrs s → is_Some (ccs_byMostRecent s !! bu_Ref (rn_OldDir ro)) →
  is_Some (ccs_byMostRecent s !! bu_Ref (rename_target ro)) →
  wp (track_rename ro) (λ _ s', chains_ok us attrs s') s.
Proof.
  intros Hok [id1 H1] [id2 H2]. unfold track_rename, wp. destruct (IsInitialized (rn_Renamed ro)); [|by eauto].
  destruct (chain_at_Some _ _ _ _ _ Hok H1) as (c1 & _ & ->).
  destruct (chain_at_Some _ _ _ _ _ Hok H2) as (c2 & _ & ->).
  do 2 eexists. split; [reflexivity|]. apply update_last_op_ok. by eapply chains_ok_ops.
Qed.

Lemma ensure_file_chain_ok us attrs s file :
  chains_ok us attrs s → IsInitialized file = true → file ∉ unrefs us →
  chains_ok us (file :: attrs) (ensure_file_chain file s) ∧
  is_Some (ccs_byMostRecent (ensure_file_chain file s) !! file).
Proof.
  intros Hok Hi Hf. unfold ensure_file_chain. destruct (chain_at file s) as [[id c]|] eqn:Hc.
  { split.
    - destruct Hok as [? ? ? H4 ? ?]. split; try done. intros p Hp%H4. set_solver.
    - unfold chain_at in Hc. destruct (ccs_byMostRecent s !! file); [by eexists|done]. }
  apply (chain_at_None us attrs) in Hc; [|done]. simpl.
  destruct (current_not_original _ _ _ _ Hok Hf Hc) as [Hno Hnr].
  assert (∀ id, is_Some (ccs_chains s !! id) → id ≠ ccs_next s) as Hnx.
  { intros id Hid%(ok_next _ _ _ Hok). lia. }
  split; [|rewrite lookup_insert_eq; by eexists]. split; simpl.
  - intros p id. rewrite lookup_insert_Some. intros [[<- <-]|[Hne Hp]].
    + split; [done|]. exists (MkCrChain [] file file). simpl. rewrite !lookup_insert_eq.
      split_and!; [done..|]. by apply follow_current.
    + destruct (ok_recent _ _ _ Hok _ _ Hp) as (? & c2 & Hc2 & ? & Ho2 & ?). split; [done|]. exists c2.
      rewrite lookup_insert_ne by (symmetry; apply Hnx; by eexists).
      rewrite lookup_insert_ne by congruence. done.
  - intros p id. rewrite lookup_insert_Some. intros [[<- <-]|[Hne Hp]].
    + split; [done|]. exists (MkCrChain [] file file). simpl. by rewrite !lookup_insert_eq.
    + destruct (ok_original _ _ _ Hok _ _ Hp) as (? & c2 & Hc2 & ? & Hr2). split; [done|]. exists c2.
      rewrite lookup_insert_ne by (symmetry; apply Hnx; by eexists).
      rewrite lookup_insert_ne by congruence. done.
  - intros p Hp Hn. rewrite lookup_insert_is_Some'. right. by apply (ok_tracked _ _ _ Hok).
  - intros p. rewrite lookup_insert_is_Some'. intros [<-|Hp%(ok_known _ _ _ Hok)]; set_solver.
  - intros p Hp Hn. rewrite lookup_insert_is_Some'. right. by apply (ok_latest _ _ _ Hok).
  - intros id. rewrite lookup_insert_is_Some'. intros [<-|H2%(ok_next _ _ _ Hok)]; lia.
Qed.

(** ** Sequences of operations *)

Fixpoint updates_fresh (us : list blockUpdate) (attrs : list BlockPointer) (new : list blockUpdate) : Prop :=
  match new with
  | [] => True
  | u :: new => update_fresh us attrs u ∧ updates_fresh (us ++ [u]) attrs new
  end.

Definition attr_files (o : op) : list BlockPointer :=
  match o with SetAttrOp s => [sao_File s] | _ => [] end.

(** An op of a revision that follows the updates [us]: its updates replace
    current pointers by new ones, none of which it replaces again, and an
    attribute change is of a current file. *)
Record op_fresh (us : list blockUpdate) (attrs : list BlockPointer) (o : op) : Prop := {
  of_updates : updates_fresh us attrs (AllUpdates o);
  of_once u : u ∈ AllUpdates o → bu_Ref u ∉ unrefs (AllUpdates o);
  of_attr file : file ∈ attr_files o → IsInitialized file = true ∧ file ∉ unrefs (us ++ AllUpdates o)
}.

Fixpoint ops_fresh (us : list blockUpdate) (attrs : list BlockPointer) (ops : list op) : Prop :=
  match ops with
  | [] => True
  | o :: ops => op_fresh us attrs o ∧ ops_fresh (us ++ AllUpdates o) (attr_files o ++ attrs) ops
  end.

Lemma apply_updates_ok us attrs new s :
  chains_ok us attrs s → updates_fresh us attrs new →
  chains_ok (us ++ new) attrs (foldl (λ s u, apply_update u s) s new).
Proof.
  revert us s. induction new as [|u new IH]; intros us s Hok Hfr; simpl; [by rewrite app_nil_r|].
  destruct Hfr as [Hu Hfr]. replace (us ++ u :: new) with ((us ++ [u]) ++ new) by by rewrite <- app_assoc.
  apply IH; [|done]. by apply apply_update_ok.
Qed.

Lemma updates_fresh_new us attrs new u :
  updates_fresh us attrs new → u ∈ new → bu_Ref u ∉ unrefs us.
Proof.
  revert us. induction new as [|u' new IH]; intros us Hfr Hin; [set_solver|].
  destruct Hfr as [Hu Hfr]. apply elem_of_cons in Hin as [->|Hin]; [apply Hu|].
  specialize (IH _ Hfr Hin). rewrite fmap_app in IH. set_solver.
Qed.

(** The refs of the op's updates are the latest pointers of chains. *)
Lemma op_refs_latest us attrs o s u :
  op_fresh us attrs o → chains_ok (us ++ AllUpdates o) attrs s → u ∈ AllUpdates o →
  is_Some (ccs_byMostRecent s !! bu_Ref u).
Proof.
  intros [Hfr Honce _] Hok Hu. apply (ok_latest _ _ _ Hok).
  - rewrite fmap_app, elem_of_app. right. by apply list_elem_of_fmap_2.
  - rewrite fmap_app, not_elem_of_app. split; [by eapply updates_fresh_new|by apply Honce].
Qed.

Lemma chains_ok_attrs us attrs o s : chains_ok us attrs s → chains_ok us (attr_files o ++ attrs) s.
Proof.
  intros [? ? ? H4 ? ?]. split; try done. intros p Hp%H4. set_solver.
Qed.

Lemma makeRename_ok us attrs s ro :
  chains_ok us attrs s → is_Some (ccs_byMostRecent s !! bu_Ref (rn_OldDir ro)) →
  is_Some (ccs_byMostRecent s !! bu_Ref (rename_target ro)) →
  wp (_ ← addOp (bu_Ref (rn_OldDir ro)) (rename_rm ro);
      _ ← (if decide (0 < length (Unrefs (RenameOp ro)))
           then addOp (bu_Ref (rename_target ro)) (rename_overwrite ro) else mret tt);
      _ ← addOp (bu_Ref (rename_target ro)) (rename_create ro);
      track_rename ro) (λ _ s', chains_ok us attrs s') s.
Proof.
  intros Hok H1 H2. apply wp_bind. eapply wp_mono; [by apply addOp_ok|]. intros _ s1 [Hok1 E1].
  apply wp_bind. apply (wp_mono _ (λ _ s', chains_ok us attrs s' ∧ ccs_byMostRecent s' = ccs_byMostRecent s)).
  { case_decide; [|by apply wp_ret]. eapply wp_mono; [apply addOp_ok; [done|by rewrite E1]|].
    intros _ s2 [? E2]. by rewrite E2. }
  intros _ s2 [Hok2 E2]. apply wp_bind. eapply wp_mono; [apply addOp_ok; [done|by rewrite E2]|].
  intros _ s3 [Hok3 E3]. apply track_rename_ok; [done|by rewrite E3, E2..].
Qed.

Lemma makeChainForOp_ok us attrs s o :
  chains_ok us attrs s → op_fresh us attrs o →
  wp (makeChainForOp o) (λ _ s', chains_ok (us ++ AllUpdates o) (attr_files o ++ attrs) s') s.
Proof.
  intros Hok Hfr. unfold makeChainForOp. apply wp_bind, wp_modify, wp_bind, wp_modify.
  set (s1 := track_refs o _).
  assert (chains_ok (us ++ AllUpdates o) attrs s1) as Hok1.
  { eapply chains_ok_ops; [by apply apply_updates_ok; [exact Hok|apply Hfr]|done..]. }
  assert (∀ u o', u ∈ AllUpdates o →
    wp (addOp (bu_Ref u) o') (λ _ s', chains_ok (us ++ AllUpdates o) (attr_files o ++ attrs) s') s1) as Hadd.
  { intros u o' Hu. eapply wp_mono; [apply addOp_ok; [exact Hok1|by eapply op_refs_latest]|].
    intros _ s2 [Hok2 _]. by apply chains_ok_attrs. }
  destruct o as [c|r|ro|so|sa|c|c|g]; try (by apply wp_ret, chains_ok_attrs);
    try (apply Hadd; simpl; apply elem_of_app; right; by left).
  - eapply wp_mono; [apply makeRename_ok; [exact Hok1|eapply op_refs_latest; [done..|]|
      eapply op_refs_latest; [done..|]]|intros ? s2 ?; by apply chains_ok_attrs].
    + simpl. case_decide; apply elem_of_app; right; set_solver.
    + unfold rename_target. simpl.
      destruct (decide (rn_NewDir ro = zeroUpdate)) as [Hz|Hz];
        [rewrite decide_False by (intros Hn; by apply Hn)|rewrite decide_True by done];
        apply elem_of_app; right; set_solver.
  - apply wp_bind, wp_modify. destruct (of_attr _ _ _ Hfr (sao_File sa) ltac:(left)) as [Hi Hf].
    destruct (ensure_file_chain_ok _ _ _ _ Hok1 Hi Hf) as [Hok2 Hat].
    eapply wp_mono; [by apply addOp_ok|]. by intros _ s2 [? _].
Qed.

Lemma makeChains_ok us attrs ops s :
  chains_ok us attrs s → ops_fresh us attrs ops →
  wp (go_for ops makeChainForOp) (λ _ s', ∃ attrs', chains_ok (us ++ (ops ≫= AllUpdates)) attrs' s') s.
Proof.
  revert us attrs s. induction ops as [|o ops IH]; intros us attrs s Hok Hfr; simpl.
  { apply wp_ret. exists attrs. by rewrite app_nil_r. }
  destruct Hfr as [Ho Hfr]. apply wp_bind. eapply wp_mono; [by apply makeChainForOp_ok|].
  intros ? s1 Hok1. eapply wp_mono; [apply (IH _ _ _ Hok1 Hfr)|]. intros _ s2 [attrs' Hok2]. exists attrs'.
  by rewrite <- app_assoc in Hok2.
Qed.

Lemma chains_ok_empty : chains_ok [] [] newCRChainsEmpty.
Proof.
  split; simpl.
  - by intros p id ?%lookup_empty_Some.
  - by intros p id ?%lookup_empty_Some.
  - intros p Hp. set_solver.
  - by intros p [? ?%lookup_empty_Some].
  - intros p Hp. set_solver.
  - by intros id [? ?%lookup_empty_Some].
Qed.

(** What [chains_ok] gives the queries. *)
Lemma chains_ok_queries us attrs s p :
  chains_ok us attrs s → p ∉ refs us →
  mostRecentFromOriginalOrSame p s = Ok (follow us p) ∧
  originalFromMostRecentOrSame (follow us p) s = Ok p.
Proof.
  intros Hok Hp. unfold mostRecentFromOriginalOrSame, mostRecentFromOriginal,
    originalFromMostRecentOrSame, originalFromMostRecent.
  destruct (ccs_byOriginal s !! p) as [id|] eqn:Ho.
  - destruct (ok_original _ _ _ Hok p id Ho) as (_ & c & Hc & Horig & Hr).
    destruct (ok_recent _ _ _ Hok _ _ Hr) as (_ & c' & Hc' & _ & _ & Hf). rewrite Hc in Hc'. injection Hc' as <-.
    simpl. rewrite Hc. rewrite Horig in Hf. rewrite Hf. split; [done|].
    destruct (chain_at_Some _ _ _ _ _ Hok Hr) as (c' & Hc' & ->). rewrite Hc in Hc'. injection Hc' as <-. by subst.
  - simpl. assert (p ∉ unrefs us) as Hu.
    { intros Hu. destruct (ok_tracked _ _ _ Hok p Hu Hp). congruence. }
    rewrite follow_current by done. split; [done|].
    destruct (chain_at p s) as [[id c]|] eqn:Hat; [|done]. exfalso.
    unfold chain_at in Hat. destruct (ccs_byMostRecent s !! p) as [id'|] eqn:Hr; [|done].
    destruct (ok_recent _ _ _ Hok _ _ Hr) as (_ & c' & _ & _ & Ho' & Hf).
    destruct (follow_cases us (cc_original c')) as [Hs|Hs]; [|by rewrite Hf in Hs].
    rewrite Hf in Hs. congruence.
Qed.

(** C24. The chains track pointers: over any sequence of operations whose
    updates replace current pointers by new ones, making the chains
    succeeds, and for every pointer that existed before, the most recent
    version that the chains report is what following the updates one by
    one gives, and it is traced back to the original. *)
Theorem chains_track_pointers ops p :
  ops_fresh [] [] ops → p ∉ refs (ops ≫= AllUpdates) →
  ∃ s, go_for ops makeChainForOp newCRChainsEmpty = (Ok tt, s) ∧
    mostRecentFromOriginalOrSame p s = Ok (follow (ops ≫= AllUpdates) p) ∧
    originalFromMostRecentOrSame (follow (ops ≫= AllUpdates) p) s = Ok p.
Proof.
  intros Hfr Hp. destruct (makeChains_ok [] [] ops _ chains_ok_empty Hfr) as ([] & s & Hr & attrs & Hok).
  exists s. split; [done|]. by eapply chains_ok_queries.
Qed.

(** ** Witnesses *)

Definition chain_ptr (n : byte) : BlockPointer :=
  MkBlockPointer (MkBlockID (MkHash (string_of_bytes [n]))) 1%Z 1%Z "u" "" zeroBlockRefNonce.
Definition chain_upd (a b : byte) : blockUpdate := MkBlockUpdate (chain_ptr a) (chain_ptr b).
Definition chain_create (name : string) (u : blockUpdate) : op :=
  CreateOp (MkCreateOp zeroOpCommon name u File false false "").
Definition chain_rm (name : string) (u : blockUpdate) : op := RmOp (MkRmOp zeroOpCommon name u false).

(** Create ["a"] and ["b"], remove ["a"]: only the create of ["b"] is
    left. *)
Definition collapse_example : crChain :=
  MkCrChain [chain_create "a" (chain_upd x01 x02); chain_create "b" (chain_upd x02 x03);
             chain_rm "a" (chain_upd x03 x04)] (chain_ptr x01) (chain_ptr x04).

Lemma collapse_keeps_names_witness :
  names_after {[ "c" ]} (cc_ops (collapse collapse_example)) = {[ "b"; "c" ]} ∧
  length (cc_ops (collapse collapse_example)) = 1.
Proof.
  destruct (collapse_keeps_names {[ "c" ]} collapse_example) as [Hn _].
  { simpl. split_and!; [left; set_solver|left; set_solver|set_solver|done]. }
  split; [|vm_compute; reflexivity]. rewrite Hn. apply (bool_decide_unpack _). vm_compute. exact I.
Defined.

(** Two changes of a directory, then a rename into another, an attribute
    change and a sync of a file. *)
Definition chain_ops : list op :=
  [chain_create "a" (chain_upd x01 x02); chain_rm "b" (chain_upd x02 x03);
   RenameOp (MkRenameOp zeroOpCommon "a" (chain_upd x03 x04) "z" (chain_upd x11 x12) (chain_ptr x20) File);
   SetAttrOp (MkSetAttrOp zeroOpCommon "z" (chain_upd x12 x13) exAttr (chain_ptr x20));
   SyncOp (MkSyncOp zeroOpCommon (chain_upd x20 x21) [])].

Lemma chain_ops_fresh : ops_fresh [] [] chain_ops.
Proof.
  assert (∀ us attrs u, bool_decide (IsInitialized (bu_Ref u) = true ∧ IsInitialized (bu_Unref u) = true ∧
    (bu_Ref u ∉ refs us) ∧ (bu_Ref u ∉ unrefs us) ∧ (bu_Ref u ∉ attrs) ∧ bu_Ref u ≠ bu_Unref u ∧
    bu_Unref u ∉ unrefs us) = true → update_fresh us attrs u) as Hf.
  { intros us attrs u (?&?&?&?&?&?&?)%bool_decide_eq_true_1. by split. }
  assert (∀ us attrs o, updates_fresh us attrs (AllUpdates o) →
    bool_decide (Forall (λ u, bu_Ref u ∉ unrefs (AllUpdates o)) (AllUpdates o)) = true →
    bool_decide (Forall (λ f, IsInitialized f = true ∧ f ∉ unrefs (us ++ AllUpdates o)) (attr_files o)) = true →
    op_fresh us attrs o) as Ho.
  { intros us attrs o Hu H1%bool_decide_eq_true_1 H2%bool_decide_eq_true_1.
    rewrite Forall_forall in H1. rewrite Forall_forall in H2. by split. }
  unfold chain_ops. cbn [ops_fresh]. split_and!; try exact I;
    (apply Ho; [simpl; split_and!; try exact I; apply Hf|..]; vm_compute; reflexivity).
Qed.

Lemma chains_track_pointers_witness : ∃ s,
  go_for chain_ops makeChainForOp newCRChainsEmpty = (Ok tt, s) ∧
  mostRecentFromOriginalOrSame (chain_ptr x01) s = Ok (chain_ptr x04) ∧
  originalFromMostRecentOrSame (chain_ptr x04) s = Ok (chain_ptr x01).
Proof.
  destruct (chains_track_pointers chain_ops (chain_ptr x01) chain_ops_fresh) as (s & Hr & H1 & H2).
  { apply (bool_decide_unpack _). vm_compute. exact I. }
  exists s. split_and!; [exact Hr|exact H1|exact H2].
Defined.
