(* ===== verification/CRActions.v ===== *)
(** * CRActions: what conflict resolution does to a directory
    ([cr_actions.go], [conflict_renamer.go])

    An action merges one entry of the unmerged version of a directory into
    the merged version ([do]), and then changes the chains of the two
    branches so that both can be played back locally ([updateOps]).  An
    action is an object that its methods change, so they return it; when one
    fails, the resolution is given up, with all that was changed.  The
    operations of a chain are told apart by their contents. *)

From Stdlib Require Import ZArith Ascii Lia.
From stdpp Require Import gmap.
From S2P Require Import Prelude Types Errors GoStd ConflictInfo DataTypes Ops CRChains.

(** ** Names *)

Definition dot : ascii := "."%char.
Definition is_separator (c : ascii) : bool := bool_decide (c = "/"%char) || bool_decide (c = "\"%char).

(** The loop of [splitExtension], from the byte at [i] back to the second. *)
Fixpoint split_at (path : string) (i : nat) : string * string :=
  match i with
  | O => (path, EmptyString)
  | S i' =>
      match String.get i path with
      | None => (path, EmptyString)
      | Some c =>
          if decide (c = dot) then
            let j := if (4 <=? i) && bool_decide (String.substring (i - 4) 4 path = ".tar"%string) then i - 4 else i in
            match j with
            | O => (path, EmptyString)
            | S j' =>
                if default false (is_separator <$> String.get j' path) then (path, EmptyString)
                else (String.substring 0 j path, drop_string j path)
            end
          else if is_separator c || bool_decide (c = " "%char) then (path, EmptyString)
          else split_at path i'
      end
  end.
Definition splitExtension (path : string) : string * string := split_at path (String.length path - 1).

(** [WriterDeviceDateConflictRenamer], at the time [t]. *)
Definition ConflictRenameHelper (t : Z) (user device original : string) : string :=
  let device := if decide (device = EmptyString) then "unknown"%string else device in
  let '(base, ext) := splitExtension original in
  (base +:+ ".conflicted (" +:+ user +:+ "'s " +:+ device +:+ " copy " +:+ Format t +:+ ")" +:+ ext)%string.
Definition ConflictRename (now : Z) (o : op) (original : string) : string :=
  let winfo := getWriterInfo o in
  ConflictRenameHelper now (wi_name winfo) (wi_deviceName winfo) original.

Definition numbered (base ext : string) (i : nat) : string :=
  (base +:+ " (" +:+ FormatUint (Z.of_nat i) +:+ ")" +:+ ext)%string.

Definition set_children (c : gmap string DirEntry) (b : DirBlock) : DirBlock := MkDirBlock (db_CommonBlock b) c (db_IPtrs b).

(** The first of the names from number [i] on, at most [n], that is free. *)
Fixpoint first_free (block : DirBlock) (base ext : string) (i n : nat) : option string :=
  match n with
  | O => None
  | S n =>
      match db_Children block !! numbered base ext i with
      | None => Some (numbered base ext i)
      | Some _ => first_free block base ext (S i) n
      end
  end.

Definition uniquifyName (block : DirBlock) (name : string) : res string :=
  match db_Children block !! name with
  | None => Ok name
  | Some _ =>
      let '(base, ext) := splitExtension name in
      match first_free block base ext 1 100 with
      | Some newName => Ok newName
      | None => Err (Errorf "Couldn't find a unique name")
      end
  end.

(** ** Entries *)

Definition de_Type (e : DirEntry) : EntryType := ei_Type (de_EntryInfo e).
Definition de_pointer (e : DirEntry) : BlockPointer := bi_BlockPointer (de_BlockInfo e).
Definition set_sym (symPath : string) (e : DirEntry) : DirEntry :=
  let i := de_EntryInfo e in
  MkDirEntry (de_BlockInfo e) (MkEntryInfo Sym (ei_Size i) symPath (ei_Mtime i) (ei_Ctime i)).
Definition set_pointer (ptr : BlockPointer) (e : DirEntry) : DirEntry :=
  MkDirEntry (MkBlockInfo ptr (bi_EncodedSize (de_BlockInfo e))) (de_EntryInfo e).
Definition copy_type (from e : DirEntry) : DirEntry :=
  let i := de_EntryInfo e in
  MkDirEntry (de_BlockInfo e) (MkEntryInfo (de_Type from) (ei_Size i) (ei_SymPath i) (ei_Mtime i) (ei_Ctime i)).
Definition copy_mtime (from e : DirEntry) : DirEntry :=
  let i := de_EntryInfo e in
  MkDirEntry (de_BlockInfo e)
    (MkEntryInfo (ei_Type i) (ei_Size i) (ei_SymPath i) (ei_Mtime (de_EntryInfo from)) (ei_Ctime i)).
(** [Size], [EncodedSize] and [BlockPointer]. *)
Definition copy_size (from e : DirEntry) : DirEntry :=
  let i := de_EntryInfo e in
  MkDirEntry (de_BlockInfo from)
    (MkEntryInfo (ei_Type i) (ei_Size (de_EntryInfo from)) (ei_SymPath i) (ei_Mtime i) (ei_Ctime i)).

(** ** The actions on blocks *)

Section do_action.
(** [fileBlockDeepCopier]: copies the blocks of a file for a new name. *)
Context (copier : string → BlockPointer → res BlockPointer).

Definition find_entry (name : string) (b : DirBlock) : res DirEntry :=
  match db_Children b !! name with Some e => Ok e | None => Err (NoSuchNameError name) end.
Definition put_entry (name : string) (e : DirEntry) (b : DirBlock) : DirBlock :=
  set_children (<[name := e]> (db_Children b)) b.

Definition cuea_do (a : copyUnmergedEntryAction) (unmerged merged : DirBlock) : res (copyUnmergedEntryAction * DirBlock) :=
  unmergedEntry ← find_entry (cuea_fromName a) unmerged;
  let unmergedEntry :=
    if decide (cuea_symPath a ≠ EmptyString) then set_sym (cuea_symPath a) unmergedEntry else unmergedEntry in
  toName ← (if cuea_unique a then uniquifyName merged (cuea_toName a) else Ok (cuea_toName a));
  let a := MkCuea (cuea_fromName a) toName (cuea_symPath a) (cuea_sizeOnly a) (cuea_unique a)
             (cuea_unmergedEntry a) (cuea_attr a) in
  match (if cuea_sizeOnly a then db_Children merged !! toName else None) with
  | Some entry => Ok (a, put_entry toName (copy_size unmergedEntry entry) merged)
  | None =>
      let copy_attr e attr :=
        match attr with
        | exAttr => copy_type (cuea_unmergedEntry a) e
        | mtimeAttr => copy_mtime (cuea_unmergedEntry a) e
        | sizeAttr => e
        end in
      let unmergedEntry := if cuea_sizeOnly a then foldl copy_attr unmergedEntry (cuea_attr a) else unmergedEntry in
      Ok (a, put_entry toName unmergedEntry merged)
  end.

Definition cuaa_do (a : copyUnmergedAttrAction) (unmerged merged : DirBlock) : res DirBlock :=
  unmergedEntry ← find_entry (cuaa_fromName a) unmerged;
  mergedEntry ← find_entry (cuaa_toName a) merged;
  let copy_attr e attr :=
    match attr with
    | exAttr => copy_type unmergedEntry e
    | mtimeAttr => copy_mtime unmergedEntry e
    | sizeAttr => copy_size unmergedEntry e
    end in
  Ok (put_entry (cuaa_toName a) (foldl copy_attr mergedEntry (cuaa_attr a)) merged).

Definition rmea_do (name : string) (merged : DirBlock) : res DirBlock :=
  _ ← find_entry name merged;
  Ok (set_children (delete name (db_Children merged)) merged).

Definition crActionCopyFile (fromName toName toSymPath : string) (fromBlock toBlock : DirBlock)
    : res (BlockPointer * string * DirBlock) :=
  fromEntry ← find_entry fromName fromBlock;
  let fromEntry := if decide (toSymPath ≠ EmptyString) then set_sym toSymPath fromEntry else fromEntry in
  if decide (de_Type fromEntry = Dir)
  then Err (NotFileError (MkPath (p_FolderBranch zeroPath) [MkPathNode (de_pointer fromEntry) fromName]))
  else
    name ← uniquifyName toBlock toName;
    ptr ← (if decide (toSymPath = EmptyString ∧ IsInitialized (de_pointer fromEntry) = true)
           then copier name (de_pointer fromEntry) else Ok zeroPtr);
    Ok (de_pointer fromEntry, name, put_entry name (set_pointer ptr fromEntry) toBlock).

Definition rua_do (a : renameUnmergedAction) (unmerged merged : DirBlock) : res (renameUnmergedAction * DirBlock) :=
  '(_, name, merged) ← crActionCopyFile (rua_fromName a) (rua_toName a) (rua_symPath a) unmerged merged;
  Ok (MkRua (rua_fromName a) name (rua_symPath a) (rua_unmergedParentMostRecent a) (rua_mergedParentMostRecent a), merged).

Definition rma_do (a : renameMergedAction) (unmerged merged : DirBlock) : res (renameMergedAction * DirBlock) :=
  mergedEntry ← find_entry (rma_fromName a) merged;
  newName ← uniquifyName merged (rma_toName a);
  let merged := put_entry newName mergedEntry merged in
  unmergedEntry ← find_entry (rma_fromName a) unmerged;
  let unmergedEntry :=
    if decide (rma_symPath a ≠ EmptyString) then set_sym (rma_symPath a) unmergedEntry else unmergedEntry in
  Ok (MkRma (rma_fromName a) newName (rma_symPath a), put_entry (rma_fromName a) unmergedEntry merged).

(** The [do] method. *)
Definition action_do (a : crAction) (unmerged merged : DirBlock) : res (crAction * DirBlock) :=
  match a with
  | CopyUnmergedEntry a => '(a, b) ← cuea_do a unmerged merged; Ok (CopyUnmergedEntry a, b)
  | CopyUnmergedAttr a => b ← cuaa_do a unmerged merged; Ok (CopyUnmergedAttr a, b)
  | RmMergedEntry name => b ← rmea_do name merged; Ok (RmMergedEntry name, b)
  | RenameUnmerged a => '(a, b) ← rua_do a unmerged merged; Ok (RenameUnmerged a, b)
  | RenameMerged a => '(a, b) ← rma_do a unmerged merged; Ok (RenameMerged a, b)
  | DropUnmerged o => Ok (DropUnmerged o, merged)
  end.
End do_action.

(** ** The actions on chains *)

(** Both sets of chains. *)
Record bothChains := MkBoth { bc_unmerged : crChains; bc_merged : crChains }.
Definition on_unmerged {A} (m : go crChains A) : go bothChains A := λ s,
  let '(r, c) := m (bc_unmerged s) in (r, MkBoth c (bc_merged s)).
Definition on_merged {A} (m : go crChains A) : go bothChains A := λ s,
  let '(r, c) := m (bc_merged s) in (r, MkBoth (bc_unmerged s) c).

Definition set_ops (f : list op → list op) (id : nat) : go crChains unit := modify (λ s,
  match ccs_chains s !! id with
  | Some c => set_chain id (MkCrChain (f (cc_ops c)) (cc_original c) (cc_mostRecent c)) s
  | None => s
  end).

(** The new name of a renamed node. *)
Definition note_new_name (renamed : BlockPointer) (toName : string) (s : crChains) : crChains :=
  let original := default renamed (ccs_originals s !! renamed) in
  match ccs_renamedOriginals s !! original with
  | Some ri =>
      set_tracking (ccs_deletedOriginals s) (ccs_createdOriginals s)
        (<[original := MkRenameInfo (ri_originalOldParent ri) (ri_oldName ri) (ri_originalNewParent ri) toName]>
           (ccs_renamedOriginals s)) s
  | None => s
  end.

Definition fix_name (fromName toName : string) (o : op) : op :=
  match o with
  | CreateOp c =>
      if decide (co_NewName c = fromName)
      then CreateOp (MkCreateOp (co_OpCommon c) toName (co_Dir c) (co_Type c) (co_renamed c) (co_forceCopy c) (co_crSymPath c))
      else o
  | SetAttrOp a =>
      if decide (sao_Name a = fromName)
      then SetAttrOp (MkSetAttrOp (sao_OpCommon a) toName (sao_Dir a) (sao_Attr a) (sao_File a))
      else o
  | _ => o
  end.

Definition note_rename (fromName toName : string) (s : crChains) (o : op) : crChains :=
  match o with
  | CreateOp c =>
      if decide (co_NewName c = fromName ∧ co_renamed c = true) then
        match Refs o with
        | renamed :: _ => note_new_name renamed toName s
        | [] => s
        end
      else s
  | _ => s
  end.

(** [chain.ops = fixupNamesInOps(fromName, toName, chain.ops, chains)] *)
Definition fixupNamesInOps (fromName toName : string) (id : nat) : go crChains unit :=
  s ← get;
  match ccs_chains s !! id with
  | None => mret tt
  | Some c =>
      _ ← modify (λ s, foldl (note_rename fromName toName) s (cc_ops c));
      set_ops (map (fix_name fromName toName)) id
  end.

(** [makeChainForNewOp] leaves its operation with an update to nothing. *)
Definition after_new_op (o : op) : op :=
  match o with
  | CreateOp _ | RmOp _ | SetAttrOp _ | SyncOp _ => with_update (MkBlockUpdate (bu_Unref (update_of o)) zeroPtr) o
  | _ => o
  end.

Definition prependOpsToChain (mostRecent : BlockPointer) (newOps : list op) : go crChains unit :=
  s ← get;
  match chain_at mostRecent s with
  | Some (id, _) => set_ops (λ ops, newOps ++ ops) id
  | None =>
      match newOps with
      | [] => panic "nil pointer dereference"
      | o :: rest =>
          _ ← makeChainForNewOp mostRecent o;
          s ← get;
          match chain_at mostRecent s with
          | Some (id, _) => set_ops (λ _, after_new_op o :: rest) id
          | None => panic "nil pointer dereference"
          end
      end
  end.

Definition crActionConvertSymlink (mergedMostRecent : BlockPointer) (fromName toName : string) : go bothChains unit :=
  let ro := AddUnrefBlock zeroPtr (RmOp (newRmOp fromName mergedMostRecent)) in
  let co := CreateOp (newCreateOp toName mergedMostRecent Sym) in
  on_merged (
    s ← get;
    match chain_at mergedMostRecent s with
    | Some (id, _) => set_ops (λ ops, ops ++ [ro; co]) id
    | None => prependOpsToChain mergedMostRecent [ro; co]
    end).

(** The unmerged chain that an action needs. *)
Definition unmerged_chain (mostRecent : BlockPointer) : go bothChains (nat * crChain) :=
  s ← get;
  match chain_at mostRecent (bc_unmerged s) with
  | Some x => mret x
  | None => fail (Errorf "Couldn't find unmerged chain")
  end.

Definition convert_symlink_if (symPath : string) (c : crChain) (mergedMostRecent : BlockPointer) (fromName toName : string)
    : go bothChains unit :=
  if decide (symPath ≠ EmptyString ∧ isFile c = false)
  then crActionConvertSymlink mergedMostRecent fromName toName else mret tt.

Definition cuea_updateOps (a : copyUnmergedEntryAction) (unmergedMostRecent mergedMostRecent : BlockPointer)
    : go bothChains unit :=
  '(id, c) ← unmerged_chain unmergedMostRecent;
  _ ← convert_symlink_if (cuea_symPath a) c mergedMostRecent (cuea_fromName a) (cuea_toName a);
  if decide (cuea_fromName a ≠ cuea_toName a)
  then on_unmerged (fixupNamesInOps (cuea_fromName a) (cuea_toName a) id) else mret tt.

Definition cuaa_updateOps (a : copyUnmergedAttrAction) (unmergedMostRecent : BlockPointer) : go bothChains unit :=
  '(id, _) ← unmerged_chain unmergedMostRecent;
  if decide (cuaa_fromName a ≠ cuaa_toName a)
  then on_unmerged (fixupNamesInOps (cuaa_fromName a) (cuaa_toName a) id) else mret tt.

(** The operations of a file that was copied are about the copy. *)
Definition retarget (ptr : BlockPointer) (o : op) : op :=
  match o with
  | SyncOp so =>
      let c := so_OpCommon so in
      SyncOp (MkSyncOp (MkOpCommon [] (oc_UnrefBlocks c) (oc_Updates c) (oc_writerInfo c) (oc_finalPath c))
                (MkBlockUpdate ptr ptr) (so_Writes so))
  | SetAttrOp a => SetAttrOp (MkSetAttrOp (sao_OpCommon a) (sao_Name a) (sao_Dir a) (sao_Attr a) ptr)
  | _ => o
  end.

Definition creates (name : string) (o : op) : bool :=
  match o with CreateOp c => bool_decide (co_NewName c = name) | _ => false end.

(** [co.RefBlocks[0] = ptr], if there is one. *)
Definition set_first_ref (ptr : BlockPointer) (o : op) : op :=
  let c := op_common o in
  match oc_RefBlocks c with
  | [] => o
  | _ :: refs => set_common (MkOpCommon (ptr :: refs) (oc_UnrefBlocks c) (oc_Updates c) (oc_writerInfo c) (oc_finalPath c)) o
  end.

(** The create of the copy in the unmerged chain, which may have to be
    added; [drop_old] if the old block is not used any more. *)
Definition add_copy_create (toName : string) (t : EntryType) (oldPtr newPtr : BlockPointer) (drop_old : bool)
    (mostRecent : BlockPointer) (id : nat) : go crChains unit :=
  s ← get;
  let unref o := if drop_old then AddUnrefBlock oldPtr o else o in
  match list_find (λ o, creates toName o = true) (default [] (cc_ops <$> ccs_chains s !! id)) with
  | Some (i, _) => set_ops (alter (λ o, unref (set_first_ref newPtr o)) i) id
  | None => prependOpsToChain mostRecent [unref (AddRefBlock newPtr (CreateOp (newCreateOp toName mostRecent t)))]
  end.

Definition lift_find (name : string) (b : DirBlock) : go bothChains DirEntry := lift_res (find_entry name b).

Definition rua_updateOps (a : renameUnmergedAction) (unmergedMostRecent mergedMostRecent : BlockPointer)
    (unmerged merged : DirBlock) : go bothChains unit :=
  '(id, c) ← unmerged_chain unmergedMostRecent;
  _ ← convert_symlink_if (rua_symPath a) c mergedMostRecent (rua_fromName a) (rua_toName a);
  _ ← on_unmerged (fixupNamesInOps (rua_fromName a) (rua_toName a) id);
  newMergedEntry ← lift_find (rua_toName a) merged;
  _ ← (if isFile c then on_unmerged (set_ops (map (retarget (de_pointer newMergedEntry))) id) else mret tt);
  if isFile c && negb (IsInitialized (rua_unmergedParentMostRecent a)) then mret tt
  else
    '(id, unmergedMostRecent, mergedMostRecent) ←
      (if isFile c then
         '(pid, _) ← unmerged_chain (rua_unmergedParentMostRecent a);
         mret (pid, rua_unmergedParentMostRecent a, rua_mergedParentMostRecent a)
       else mret (id, unmergedMostRecent, mergedMostRecent));
    unmergedEntry ← lift_find (rua_fromName a) unmerged;
    mergedEntry ← lift_find (rua_fromName a) merged;
    let rop := RenameOp (newRenameOp (rua_fromName a) mergedMostRecent (rua_toName a) mergedMostRecent
                 (de_pointer newMergedEntry) (de_Type newMergedEntry)) in
    let rop := if decide (rua_symPath a = EmptyString)
               then AddUpdate (de_pointer unmergedEntry) (de_pointer newMergedEntry) rop else rop in
    _ ← on_merged (prependOpsToChain mergedMostRecent
          [rop; CreateOp (newCreateOp (rua_fromName a) mergedMostRecent (de_Type mergedEntry))]);
    let drop_old := bool_decide (de_pointer unmergedEntry ≠ de_pointer newMergedEntry ∧
                      rua_fromName a ≠ rua_toName a ∧ rua_symPath a = EmptyString) in
    on_unmerged (add_copy_create (rua_toName a) (de_Type mergedEntry) (de_pointer unmergedEntry)
      (de_pointer newMergedEntry) drop_old unmergedMostRecent id).

Definition rma_updateOps (a : renameMergedAction) (unmergedMostRecent mergedMostRecent : BlockPointer)
    (merged : DirBlock) : go bothChains unit :=
  '(_, c) ← unmerged_chain unmergedMostRecent;
  _ ← convert_symlink_if (rma_symPath a) c mergedMostRecent (rma_fromName a) (rma_fromName a);
  s ← get;
  let mergedChain := chain_at mergedMostRecent (bc_merged s) in
  _ ← (match mergedChain with
       | Some (mid, _) => on_merged (fixupNamesInOps (rma_fromName a) (rma_toName a) mid)
       | None => mret tt
       end);
  if isFile c then mret tt
  else
    mergedEntry ← lift_find (rma_toName a) merged;
    _ ← on_unmerged (prependOpsToChain unmergedMostRecent
          [RenameOp (newRenameOp (rma_fromName a) unmergedMostRecent (rma_toName a) unmergedMostRecent
             (de_pointer mergedEntry) (de_Type mergedEntry))]);
    s ← get;
    let mergedOps := match mergedChain with
                     | Some (mid, _) => default [] (cc_ops <$> ccs_chains (bc_merged s) !! mid)
                     | None => []
                     end in
    if existsb (creates (rma_toName a)) mergedOps then mret tt
    else on_merged (prependOpsToChain mergedMostRecent
           [CreateOp (newCreateOp (rma_toName a) mergedMostRecent (de_Type mergedEntry))]).

(** The list without the first occurrence of [o]; [None] if there is none. *)
Fixpoint remove_op (o : op) (ops : list op) : option (list op) :=
  match ops with
  | [] => None
  | o' :: ops => if decide (o' = o) then Some ops else cons o' <$> remove_op o ops
  end.

Definition dua_updateOps (o : op) (unmergedMostRecent mergedMostRecent : BlockPointer) : go bothChains unit :=
  '(id, c) ← unmerged_chain unmergedMostRecent;
  match remove_op o (cc_ops c) with
  | None => mret tt
  | Some ops =>
      _ ← on_unmerged (set_ops (λ _, ops) id);
      invertedOp ← lift_res (invertOpForLocalNotifications o);
      on_merged (prependOpsToChain mergedMostRecent [invertedOp])
  end.

Definition action_updateOps (a : crAction) (unmergedMostRecent mergedMostRecent : BlockPointer) (unmerged merged : DirBlock)
    : go bothChains unit :=
  match a with
  | CopyUnmergedEntry a => cuea_updateOps a unmergedMostRecent mergedMostRecent
  | CopyUnmergedAttr a => cuaa_updateOps a unmergedMostRecent
  | RmMergedEntry _ => mret tt
  | RenameUnmerged a => rua_updateOps a unmergedMostRecent mergedMostRecent unmerged merged
  | RenameMerged a => rma_updateOps a unmergedMostRecent mergedMostRecent merged
  | DropUnmerged o => dua_updateOps o unmergedMostRecent mergedMostRecent
  end.

(** ** Taking the entry from another block *)

(** The attributes that a chain of only attribute changes sets. *)
Fixpoint attr_changes (ops : list op) : option (list attrChange) :=
  match ops with
  | [] => Some []
  | SetAttrOp a :: ops => cons (sao_Attr a) <$> attr_changes ops
  | _ :: _ => None
  end.

(** The attributes before the first other change. *)
Fixpoint leading_attrs (ops : list op) : list attrChange :=
  match ops with
  | SetAttrOp a :: ops => sao_Attr a :: leading_attrs ops
  | _ => []
  end.

Definition cuea_set (fromName : string) (sizeOnly : bool) (e : DirEntry) (attr : list attrChange) (a : copyUnmergedEntryAction)
    : copyUnmergedEntryAction :=
  MkCuea fromName (cuea_toName a) (cuea_symPath a) sizeOnly (cuea_unique a) e attr.

(** [swapUnmergedBlock] of a copy: whether the entry is to be taken from the
    merged branch, and the directory to take it from (zero for the same). *)
Definition cuea_swapUnmergedBlock (unmergedChains mergedChains : crChains) (unmergedBlock : DirBlock)
    (a : copyUnmergedEntryAction) : res (bool * BlockPointer) * copyUnmergedEntryAction :=
  if decide (cuea_symPath a ≠ EmptyString) then (Ok (false, zeroPtr), a)
  else
    match db_Children unmergedBlock !! cuea_fromName a with
    | None => (Err (NoSuchNameError (cuea_fromName a)), a)
    | Some unmergedEntry =>
        let '(keep, ptr, a) :=
          match chain_at (de_pointer unmergedEntry) unmergedChains with
          | None => (true, de_pointer unmergedEntry, a)
          | Some (_, chain) =>
              let a' := cuea_set (cuea_fromName a) (cuea_sizeOnly a) (cuea_unmergedEntry a)
                          (cuea_attr a ++ leading_attrs (cc_ops chain)) a in
              (bool_decide (is_Some (attr_changes (cc_ops chain))), cc_original chain, a')
          end in
        if negb keep then (Ok (false, zeroPtr), a)
        else
          match ccs_byOriginal mergedChains !! ptr with
          | None => (Ok (false, zeroPtr), a)
          | Some _ =>
              let a := cuea_set (cuea_fromName a) true unmergedEntry (cuea_attr a) a in
              let '(parentOrig, newName, ok) := renamedParentAndName ptr mergedChains in
              let source :=
                if (ok : bool) then Some (parentOrig, newName)
                else (λ ri, (ri_originalOldParent ri, ri_oldName ri)) <$> ccs_renamedOriginals unmergedChains !! ptr in
              match source with
              | None => (Ok (true, zeroPtr), a)
              | Some (parentOrig, newName) =>
                  match mostRecentFromOriginalOrSame parentOrig mergedChains with
                  | Ok parentMostRecent =>
                      (Ok (true, parentMostRecent), cuea_set newName true unmergedEntry (cuea_attr a) a)
                  | Err e => (Err e, a)
                  | Panic m => (Panic m, a)
                  end
              end
          end
    end.

Definition swapUnmergedBlock (unmergedChains mergedChains : crChains) (unmergedBlock : DirBlock) (a : crAction)
    : res (bool * BlockPointer) * crAction :=
  match a with
  | CopyUnmergedEntry a =>
      let '(r, a) := cuea_swapUnmergedBlock unmergedChains mergedChains unmergedBlock a in (r, CopyUnmergedEntry a)
  | _ => (Ok (false, zeroPtr), a)
  end.

(** ** Collapsing a list of actions *)

Record collapseInfo := MkCollapseInfo {
  cl_actions : list crAction;              (* the actions, which may gain attributes *)
  cl_top : gmap string nat;                (* fromName -> index of the top action *)
  cl_remove : gset nat
}.

Definition setTopAction (fromName : string) (index : nat) (s : collapseInfo) : collapseInfo :=
  MkCollapseInfo (cl_actions s) (<[fromName := index]> (cl_top s))
    (match cl_top s !! fromName with Some i => {[i]} ∪ cl_remove s | None => cl_remove s end).
Definition drop_action (index : nat) (s : collapseInfo) : collapseInfo :=
  MkCollapseInfo (cl_actions s) (cl_top s) ({[index]} ∪ cl_remove s).
Definition top_action (fromName : string) (s : collapseInfo) : option (nat * crAction) :=
  i ← cl_top s !! fromName; a ← cl_actions s !! i; Some (i, a).

(** The attributes that are not there yet. *)
Definition add_attrs (top : list attrChange) (attr : list attrChange) : list attrChange :=
  foldl (λ top a, if decide (a ∈ top) then top else top ++ [a]) top attr.

Definition merged_key (name : string) : string := (".kbfs_merged_" +:+ name)%string.

Definition collapse_action (i : nat) (s : collapseInfo) (action : crAction) : collapseInfo :=
  match action with
  | RenameUnmerged a => setTopAction (rua_fromName a) i s
  | CopyUnmergedEntry a =>
      match top_action (cuea_fromName a) s with
      | Some (_, RenameUnmerged _) => drop_action i s
      | _ => setTopAction (cuea_fromName a) i s
      end
  | CopyUnmergedAttr a =>
      match top_action (cuaa_fromName a) s with
      | Some (_, RenameUnmerged _) | Some (_, CopyUnmergedEntry _) => drop_action i s
      | Some (j, CopyUnmergedAttr top) =>
          let top' := MkCuaa (cuaa_fromName top) (cuaa_toName top) (add_attrs (cuaa_attr top) (cuaa_attr a)) in
          drop_action i (MkCollapseInfo (<[j := CopyUnmergedAttr top']> (cl_actions s)) (cl_top s) (cl_remove s))
      | _ => setTopAction (cuaa_fromName a) i s
      end
  | RenameMerged a => setTopAction (merged_key (rma_fromName a)) i s
  | RmMergedEntry _ | DropUnmerged _ => s
  end.

Fixpoint collapse_scan_actions (i : nat) (l : list crAction) (s : collapseInfo) : collapseInfo :=
  match l with
  | [] => s
  | a :: l => collapse_scan_actions (S i) l (collapse_action i s a)
  end.

Fixpoint keep_actions (i : nat) (rm : gset nat) (l : list crAction) : list crAction :=
  match l with
  | [] => []
  | a :: l => if decide (i ∈ rm) then keep_actions (S i) rm l else a :: keep_actions (S i) rm l
  end.

Definition collapse_actions (cal : list crAction) : list crAction :=
  let s := collapse_scan_actions 0 cal (MkCollapseInfo cal ∅ ∅) in keep_actions 0 (cl_remove s) (cl_actions s).
