(* ===== verification/CRActionsSpec.v ===== *)
(** * CRActionsSpec: conflict resolution keeps both versions

    A conflicting entry gets a name that is free, so the actions on a
    directory lose neither version; and collapsing a list of actions leaves
    for every name the action that matters. *)

From Stdlib Require Import ZArith Ascii Lia.
From stdpp Require Import gmap.
From S2P Require Import Prelude Types Errors GoStd ConflictInfo DataTypes Ops CRChains CRActions.

(** ** Names *)

Lemma substring_split n s : n <= String.length s →
  (String.substring 0 n s +:+ drop_string n s)%string = s.
Proof.
  assert (∀ t, String.substring 0 (String.length t) t = t) as Hall by (intros t; induction t as [|c t IH]; [done|simpl; by rewrite IH]).
  unfold drop_string. revert n. induction s as [|c s IH]; intros [|n] Hn; cbn [String.length] in Hn.
  - done.
  - lia.
  - apply (Hall (String c s)).
  - change (String c (String.substring 0 n s +:+ String.substring n (String.length s - n) s)%string = String c s). f_equal. apply IH. lia.
Qed.

Lemma get_length i s c : String.get i s = Some c → i < String.length s.
Proof. revert i. induction s as [|c' s IH]; intros [|i]; simpl; try done; [lia|]. intros Hi%IH. lia. Qed.

Lemma split_at_app path i : let '(base, ext) := split_at path i in (base +:+ ext)%string = path.
Proof.
  assert (∀ t, (t +:+ EmptyString)%string = t) as Hnil by (intros t; induction t as [|c t IH']; [done|]; change (String c (t +:+ EmptyString)%string = String c t); by rewrite IH').
  induction i as [|i IH]; [apply Hnil|]. cbn [split_at].
  destruct (String.get (S i) path) as [c|] eqn:Ec; [|apply Hnil]. apply get_length in Ec.
  case_decide; [|by destruct (is_separator c || _); [apply Hnil|]]. cbv zeta.
  set (j := if (4 <=? S i) && _ then S i - 4 else S i). assert (j <= S i) as Hj by (subst j; destruct ((4 <=? S i) && _); lia).
  destruct j as [|j']; [apply Hnil|]. destruct (default false _); [apply Hnil|]. apply substring_split. lia.
Qed.

(** What is split is put together again. *)
Lemma splitExtension_app path : let '(base, ext) := splitExtension path in (base +:+ ext)%string = path.
Proof. apply split_at_app. Qed.

Lemma first_free_Some block base ext n : ∀ i name, first_free block base ext i n = Some name →
  db_Children block !! name = None ∧ ∃ j, i <= j < i + n ∧ name = numbered base ext j ∧
    ∀ j', i <= j' < j → is_Some (db_Children block !! numbered base ext j').
Proof.
  induction n as [|n IH]; intros i name; simpl; [done|].
  destruct (db_Children block !! numbered base ext i) eqn:E.
  - intros (Hf & j & Hj & -> & Hlow)%IH. split; [done|]. exists j. split; [lia|]. split; [done|].
    intros j' Hj'. destruct (decide (j' = i)) as [->|]; [by rewrite E|]. apply Hlow. lia.
  - intros [= <-]. split; [done|]. exists i. split; [lia|]. split; [done|]. intros; lia.
Qed.

Lemma first_free_None block base ext n : ∀ i, first_free block base ext i n = None →
  ∀ j, i <= j < i + n → is_Some (db_Children block !! numbered base ext j).
Proof.
  induction n as [|n IH]; intros i; simpl; [lia|].
  destruct (db_Children block !! numbered base ext i) eqn:E; [|done].
  intros Hn j Hj. destruct (decide (j = i)) as [->|]; [by rewrite E|]. apply (IH (S i)); [done|lia].
Qed.

(** A name that is free: the one asked for, or the first numbered one; or
    all of them are taken. *)
Lemma uniquifyName_spec block name :
  match uniquifyName block name with
  | Ok name' => db_Children block !! name' = None ∧
      (name' = name ∨ (is_Some (db_Children block !! name) ∧ let '(base, ext) := splitExtension name in
        ∃ i, 1 <= i <= 100 ∧ name' = numbered base ext i ∧
          ∀ j, 1 <= j < i → is_Some (db_Children block !! numbered base ext j)))
  | Err _ => is_Some (db_Children block !! name) ∧ let '(base, ext) := splitExtension name in
        ∀ j, 1 <= j <= 100 → is_Some (db_Children block !! numbered base ext j)
  | Panic _ => False
  end.
Proof.
  unfold uniquifyName. destruct (db_Children block !! name) eqn:E; [|split; [done|by left]].
  destruct (splitExtension name) as [base ext]. destruct (first_free block base ext 1 100) as [n|] eqn:Ef.
  - apply first_free_Some in Ef as (Hf & j & Hj & -> & Hlow). split; [done|]. right. split; [done|].
    exists j. split; [lia|]. split; [done|]. done.
  - split; [done|]. intros j Hj. eapply first_free_None; [done|lia].
Qed.

(** ** The actions *)

Section actions.
Context (copier : string → BlockPointer → res BlockPointer).

(** The entry of the unmerged branch, perhaps as a symbolic link. *)
Definition as_sym (symPath : string) (e : DirEntry) : DirEntry :=
  if decide (symPath ≠ EmptyString) then set_sym symPath e else e.

Lemma de_pointer_as_sym symPath e : de_pointer (as_sym symPath e) = de_pointer e.
Proof. unfold as_sym. by case_decide. Qed.

Lemma find_entry_Ok name b e : find_entry name b = Ok e ↔ db_Children b !! name = Some e.
Proof. unfold find_entry. destruct (db_Children b !! name); naive_solver. Qed.

Lemma uniquifyName_free block name name' : uniquifyName block name = Ok name' → db_Children block !! name' = None.
Proof. intros H. pose proof (uniquifyName_spec block name) as Hs. rewrite H in Hs. by destruct Hs. Qed.

(** C27. Conflicting entries are both kept.  Renaming the unmerged entry keeps
    every entry of the merged directory and adds the unmerged one, with its
    own copy of the blocks of a file, under a name that was free.  Renaming
    the merged entry moves it to a name that was free, puts the unmerged
    entry in its place, and keeps all others.  Copying an entry under a
    unique name keeps every entry of the merged directory too. *)
Theorem conflict_keeps_both :
  (∀ a unmerged merged a' merged', rua_do copier a unmerged merged = Ok (a', merged') →
    ∃ e ptr, db_Children unmerged !! rua_fromName a = Some e ∧ de_Type (as_sym (rua_symPath a) e) ≠ Dir ∧
      db_Children merged !! rua_toName a' = None ∧
      db_Children merged' = <[rua_toName a' := set_pointer ptr (as_sym (rua_symPath a) e)]> (db_Children merged) ∧
      (rua_symPath a = EmptyString → IsInitialized (de_pointer e) = true → copier (rua_toName a') (de_pointer e) = Ok ptr)) ∧
  (∀ a unmerged merged a' merged', rma_do a unmerged merged = Ok (a', merged') →
    ∃ e e', db_Children unmerged !! rma_fromName a = Some e ∧ db_Children merged !! rma_fromName a = Some e' ∧
      db_Children merged !! rma_toName a' = None ∧ rma_toName a' ≠ rma_fromName a ∧
      db_Children merged' = <[rma_fromName a := as_sym (rma_symPath a) e]> (<[rma_toName a' := e']> (db_Children merged))) ∧
  (∀ a unmerged merged a' merged', cuea_unique a = true → cuea_do a unmerged merged = Ok (a', merged') →
    ∃ e, db_Children merged !! cuea_toName a' = None ∧
      db_Children merged' = <[cuea_toName a' := e]> (db_Children merged)).
Proof.
  split; [|split].
  - intros a un m a' m' ([[old name] m1] & Hc & [= <- <-])%bind_Ok. unfold crActionCopyFile in Hc.
    apply bind_Ok in Hc as (e & He%find_entry_Ok & Hc). fold (as_sym (rua_symPath a) e) in Hc.
    case_decide as Hd; [done|]. apply bind_Ok in Hc as (n & Hn%uniquifyName_free & Hc).
    apply bind_Ok in Hc as (ptr & Hp & [= <- <- <-]). exists e, ptr. split; [done|]. split; [done|]. split; [done|].
    split; [done|]. intros Hsym Hi. rewrite de_pointer_as_sym in Hp. by rewrite decide_True in Hp.
  - intros a un m a' m' (me & Hme%find_entry_Ok & Hc)%bind_Ok.
    apply bind_Ok in Hc as (n & Hn%uniquifyName_free & Hc). apply bind_Ok in Hc as (ue & Hue%find_entry_Ok & [= <- <-]).
    exists ue, me. split; [done|]. split; [done|]. split; [done|]. split; [simpl; congruence|]. done.
  - intros a un m a' m' Hu (e & He & Hc)%bind_Ok. rewrite Hu in Hc.
    apply bind_Ok in Hc as (n & Hn%uniquifyName_free & Hc). simpl in Hc. rewrite Hn in Hc.
    destruct (cuea_sizeOnly a); injection Hc as <- <-; by eexists.
Qed.
End actions.

(** ** Collapsing *)

(** What an action is about, as [collapse] sees it. *)
Definition action_key (a : crAction) : option string :=
  match a with
  | RenameUnmerged a => Some (rua_fromName a)
  | CopyUnmergedEntry a => Some (cuea_fromName a)
  | CopyUnmergedAttr a => Some (cuaa_fromName a)
  | RenameMerged a => Some (merged_key (rma_fromName a))
  | RmMergedEntry _ | DropUnmerged _ => None
  end.

Definition action_rank (a : crAction) : nat :=
  match a with RenameUnmerged _ | RenameMerged _ => 3 | CopyUnmergedEntry _ => 2 | CopyUnmergedAttr _ => 1 | _ => 0 end.

(** [t] makes [a] superfluous. *)
Definition covers (t a : crAction) : Prop :=
  action_rank a <= action_rank t ∧
  (∀ at_, t = CopyUnmergedAttr at_ → ∃ aa, a = CopyUnmergedAttr aa ∧ cuaa_attr aa ⊆ cuaa_attr at_).

(** An unmerged name that does not look like the key of a merged one; such
    names cannot be created. *)
Definition plain_name (a : crAction) : Prop :=
  match a with
  | RenameMerged _ => True
  | _ => ∀ k n, action_key a = Some k → k ≠ merged_key n
  end.

(** The same action, perhaps with more attributes. *)
Definition grown (a a' : crAction) : Prop :=
  match a, a' with
  | CopyUnmergedAttr a, CopyUnmergedAttr a' =>
      cuaa_fromName a' = cuaa_fromName a ∧ cuaa_toName a' = cuaa_toName a ∧ cuaa_attr a ⊆ cuaa_attr a'
  | _, _ => a' = a
  end.

Lemma grown_refl a : grown a a.
Proof. by destruct a. Qed.
Lemma grown_key a a' : grown a a' → action_key a' = action_key a ∧ action_rank a' = action_rank a.
Proof. destruct a, a'; simpl; intros; destruct_and?; simplify_eq; try done. split; [congruence|done]. Qed.
Lemma grown_trans a b c : grown a b → grown b c → grown a c.
Proof.
  destruct a as [|a| | | |]; simpl; try (intros ->; done).
  destruct b as [|b| | | |]; simpl; try done. destruct c as [|c| | | |]; simpl; try done.
  intros (? & ? & ?) (? & ? & ?). split; [congruence|]. split; [congruence|]. by etrans.
Qed.

Lemma covers_refl a : covers a a.
Proof. split; [done|]. intros at_ ->. by exists at_. Qed.

Lemma covers_grown t t' a : covers t a → grown t t' → covers t' a.
Proof.
  intros [Hr Ha] Hg. pose proof (grown_key _ _ Hg) as [_ Hr']. split; [lia|]. intros at_ ->.
  destruct t as [|at0| | | |]; simpl in Hg; try done. destruct (Ha at0 eq_refl) as (aa & -> & Hs).
  exists aa. split; [done|]. etrans; [done|]. by destruct_and?.
Qed.

Lemma covers_trans t u a : covers t u → covers u a → covers t a.
Proof.
  intros [Hr Ha] [Hr' Ha']. split; [lia|]. intros at_ ->. destruct (Ha at_ eq_refl) as (au & -> & Hs).
  destruct (Ha' au eq_refl) as (aa & -> & Hs'). exists aa. split; [done|]. by etrans.
Qed.

Lemma add_attrs_spec top attr : top ⊆ add_attrs top attr ∧ attr ⊆ add_attrs top attr.
Proof.
  unfold add_attrs. revert top. induction attr as [|a attr IH]; intros top; simpl; [set_solver|].
  destruct (IH (if decide (a ∈ top) then top else top ++ [a])) as [H1 H2]. split.
  - etrans; [|exact H1]. case_decide; set_solver.
  - intros x [->|Hx]%elem_of_cons; [|by apply H2]. apply H1. case_decide; set_solver.
Qed.

(** After the first [i] actions. *)
Record collapsing (cal : list crAction) (i : nat) (s : collapseInfo) : Prop := {
  cg_actions : Forall2 grown cal (cl_actions s);
  cg_top k j : cl_top s !! k = Some j → j < i ∧ (j ∉ cl_remove s) ∧ ∃ a, cl_actions s !! j = Some a ∧ action_key a = Some k;
  cg_kept j a k : j < i → cl_actions s !! j = Some a → action_key a = Some k → j ∉ cl_remove s → cl_top s !! k = Some j;
  cg_remove j : j ∈ cl_remove s → j < i ∧ ∃ a k, cl_actions s !! j = Some a ∧ action_key a = Some k;
  cg_covered j a k : j < i → cl_actions s !! j = Some a → action_key a = Some k →
    ∃ t ta, cl_top s !! k = Some t ∧ cl_actions s !! t = Some ta ∧ covers ta a
}.

Lemma collapsing_lookup cal i s j a : collapsing cal i s → cal !! j = Some a → ∃ a', cl_actions s !! j = Some a' ∧ grown a a'.
Proof. intros Hc Hj. by eapply Forall2_lookup_l in Hj; [|apply Hc]. Qed.

(** The action becomes the top one. *)
Lemma collapsing_top cal i s a k : collapsing cal i s → cl_actions s !! i = Some a → action_key a = Some k →
  (∀ t ta, cl_top s !! k = Some t → cl_actions s !! t = Some ta → covers a ta) →
  collapsing cal (S i) (setTopAction k i s).
Proof.
  intros Hc Hi Hk Hcov. destruct (Hc) as [Hg Ht Hkp Hrm Hcv]. unfold setTopAction.
  assert (∀ j, j ∈ match cl_top s !! k with Some i0 => {[i0]} ∪ cl_remove s | None => cl_remove s end ↔
    j ∈ cl_remove s ∨ cl_top s !! k = Some j) as Hmem by (intros j; destruct (cl_top s !! k); set_solver).
  split; cbn [cl_actions cl_top cl_remove]; [done| | | |].
  - intros k' j. rewrite Hmem. destruct (decide (k' = k)) as [->|Hne].
    + rewrite lookup_insert_eq. intros [= <-]. split; [lia|]. split; [|by exists a].
      intros [[? _]%Hrm|[? _]%Ht]; lia.
    + rewrite lookup_insert_ne by done. intros (Hj & Hnr & a' & Ha' & Hk')%Ht. split; [lia|]. split; [|by exists a'].
      intros [?|(_ & _ & a2 & Ha2 & Hk2)%Ht]; [done|]. congruence.
  - intros j a' k' Hj Ha' Hk'. rewrite Hmem. intros Hnr. destruct (decide (j = i)) as [->|Hne].
    + assert (k' = k) as -> by congruence. by rewrite lookup_insert_eq.
    + assert (cl_top s !! k' = Some j) as Htop by (eapply Hkp; [lia|done|done|by intros ?; apply Hnr; left]).
      rewrite lookup_insert_ne; [done|]. intros ->. apply Hnr. by right.
  - intros j. rewrite Hmem. intros [(? & ?)%Hrm|(? & _ & a' & ? & ?)%Ht]; (split; [lia|]); [done|by exists a', k].
  - intros j a' k' Hj Ha' Hk'. destruct (decide (k' = k)) as [->|Hne].
    + rewrite lookup_insert_eq. exists i, a. split; [done|]. split; [done|].
      destruct (decide (j = i)) as [->|Hne]; [assert (a' = a) as -> by congruence; apply covers_refl|].
      destruct (Hcv j a' k ltac:(lia) Ha' Hk') as (t & ta & Htk & Hta & Hcta). eapply covers_trans; [|done]. by eapply Hcov.
    + rewrite lookup_insert_ne by done. apply (Hcv j); [|done|done]. destruct (decide (j = i)) as [->|]; [congruence|lia].
Qed.

(** The action is dropped, in favour of the top one, which may grow. *)
Lemma collapsing_drop cal i s a k t ta ta' : collapsing cal i s → cl_actions s !! i = Some a → action_key a = Some k →
  cl_top s !! k = Some t → cl_actions s !! t = Some ta → grown ta ta' → covers ta' a →
  collapsing cal (S i) (drop_action i (MkCollapseInfo (<[t := ta']> (cl_actions s)) (cl_top s) (cl_remove s))).
Proof.
  intros Hc Hi Hk Htk Hta Hgr Hcov. destruct (Hc) as [Hg Ht Hkp Hrm Hcv]. unfold drop_action.
  pose proof (Ht k t Htk) as (Hti & Htn & ta0 & Hta0 & Hkt). pose proof (grown_key _ _ Hgr) as [Hkey _].
  assert (∀ j b, <[t := ta']> (cl_actions s) !! j = Some b → ∃ b0, cl_actions s !! j = Some b0 ∧ grown b0 b) as Hback.
  { intros j b. destruct (decide (j = t)) as [->|Hne].
    - rewrite list_lookup_insert_eq by (by eapply lookup_lt_Some). intros [= <-]. by exists ta.
    - rewrite list_lookup_insert_ne by done. intros Hb. exists b. split; [done|apply grown_refl]. }
  assert (∀ j b0, cl_actions s !! j = Some b0 → ∃ b, <[t := ta']> (cl_actions s) !! j = Some b ∧ grown b0 b) as Hforth.
  { intros j b0 Hb0. destruct (decide (j = t)) as [->|Hne].
    - exists ta'. rewrite list_lookup_insert_eq by (by eapply lookup_lt_Some). split; [done|]. congruence.
    - exists b0. rewrite list_lookup_insert_ne by done. split; [done|apply grown_refl]. }
  split; cbn [cl_actions cl_top cl_remove].
  - pose proof (Forall2_lookup_r _ _ _ _ _ Hg Hta) as (c & Hct & Hgc).
    rewrite <- (list_insert_id cal t c Hct). apply Forall2_insert; [done|]. by eapply grown_trans.
  - intros k' j (Hj & Hnr & b0 & Hb0 & Hkb)%Ht. split; [lia|]. split; [set_solver by lia|].
    destruct (Hforth j b0 Hb0) as (b & Hb & Hgb). exists b. split; [done|]. apply grown_key in Hgb as [-> _]. done.
  - intros j b k' Hj Hb Hkb Hnr. destruct (Hback j b Hb) as (b0 & Hb0 & Hgb). apply grown_key in Hgb as [Hk0 _].
    eapply (Hkp j b0); [|done|congruence|set_solver]. destruct (decide (j = i)) as [->|]; [set_solver|lia].
  - intros j [->%elem_of_singleton|Hj]%elem_of_union.
    + split; [lia|]. destruct (Hforth i a Hi) as (b & Hb & [Hkb _]%grown_key). exists b, k. split; [done|congruence].
    + apply Hrm in Hj as (Hj & b0 & k' & Hb0 & Hkb). split; [lia|]. destruct (Hforth j b0 Hb0) as (b & Hb & [Hkb' _]%grown_key).
      exists b, k'. split; [done|congruence].
  - intros j b k' Hj Hb Hkb. destruct (Hback j b Hb) as (b0 & Hb0 & Hgb). pose proof (grown_key _ _ Hgb) as [Hk0 _].
    destruct (decide (j = i)) as [->|Hne].
    + assert (b0 = a) as -> by congruence. assert (k' = k) as -> by congruence.
      exists t, ta'. split; [done|]. rewrite list_lookup_insert_eq by (by eapply lookup_lt_Some). split; [done|].
      rewrite list_lookup_insert_ne in Hb by lia. by assert (b = a) as -> by congruence.
    + destruct (Hcv j b0 k' ltac:(lia) Hb0 ltac:(congruence)) as (u & ua & Hu & Hua & Hcu).
      destruct (Hforth u ua Hua) as (ua' & Hua' & Hgu). exists u, ua'. split; [done|]. split; [done|].
      destruct (decide (j = t)) as [->|Hjt].
      * assert (u = t) as -> by (assert (k' = k) by congruence; congruence).
        assert (ua' = b) as -> by congruence. apply covers_refl.
      * rewrite list_lookup_insert_ne in Hb by done. assert (b = b0) as -> by congruence. by eapply covers_grown.
Qed.

Lemma collapsing_keep cal i s a : collapsing cal i s → cl_actions s !! i = Some a → action_key a = None →
  collapsing cal (S i) s.
Proof.
  intros [Hg Ht Hkp Hrm Hcv] Hi Hk. split; [done| | | |].
  - intros k j (? & ? & ?)%Ht. split; [lia|done].
  - intros j b k Hj Hb Hkb. apply (Hkp j b k); [|done..]. destruct (decide (j = i)) as [->|]; [congruence|lia].
  - intros j (? & ?)%Hrm. split; [lia|done].
  - intros j b k Hj Hb Hkb. apply (Hcv j b k); [|done..]. destruct (decide (j = i)) as [->|]; [congruence|lia].
Qed.

Lemma grown_plain a a' : grown a a' → plain_name a → plain_name a'.
Proof. intros Hg. pose proof (grown_key _ _ Hg) as [Hk _]. unfold plain_name. rewrite Hk. destruct a, a'; simpl in *; naive_solver. Qed.

Lemma top_is cal i s k t ta : collapsing cal i s → cl_top s !! k = Some t → cl_actions s !! t = Some ta →
  action_key ta = Some k ∧ top_action k s = Some (t, ta).
Proof.
  intros Hc Ht Hta. destruct (cg_top _ _ _ Hc k t Ht) as (_ & _ & a & Ha & Hk). split; [congruence|].
  unfold top_action. rewrite Ht. simpl. by rewrite Hta.
Qed.

Lemma top_action_Some k s j a : top_action k s = Some (j, a) → cl_top s !! k = Some j ∧ cl_actions s !! j = Some a.
Proof.
  unfold top_action. destruct (cl_top s !! k) as [t|] eqn:Et; [|done]. simpl.
  destruct (cl_actions s !! t) eqn:Ea; [|done]. by intros [= <- <-].
Qed.

Lemma drop_same i s t ta : cl_actions s !! t = Some ta →
  drop_action i s = drop_action i (MkCollapseInfo (<[t := ta]> (cl_actions s)) (cl_top s) (cl_remove s)).
Proof. intros Ht. unfold drop_action. simpl. by rewrite list_insert_id. Qed.

Lemma drop_action_step cal i s a k t ta : collapsing cal i s → cl_actions s !! i = Some a → action_key a = Some k →
  cl_top s !! k = Some t → cl_actions s !! t = Some ta → covers ta a → collapsing cal (S i) (drop_action i s).
Proof. intros Hc Hi Hk Ht Hta Hcov. rewrite (drop_same i s t ta Hta). eapply (collapsing_drop cal i s a k t ta ta); try done. apply grown_refl. Qed.

Lemma covers_rank t a : action_rank a <= action_rank t → action_rank t ≠ 1 → covers t a.
Proof. intros Hr Hne. split; [done|]. by intros at_ ->. Qed.

Lemma collapse_action_step cal i s a : collapsing cal i s → Forall plain_name cal →
  cal !! i = Some a → cl_actions s !! i = Some a →
  collapsing cal (S i) (collapse_action i s a) ∧
  (∀ j, S i <= j → cl_actions (collapse_action i s a) !! j = cl_actions s !! j).
Proof.
  intros Hc Hplain Hcal Hi.
  assert (∀ j b, cl_actions s !! j = Some b → plain_name b) as Hp.
  { intros j b Hb. pose proof (Forall2_lookup_r _ _ _ _ _ (cg_actions _ _ _ Hc) Hb) as (c & Hcj & Hg).
    eapply grown_plain; [exact Hg|]. by eapply Forall_lookup_1 in Hcj. }
  assert (∀ k t ta, cl_top s !! k = Some t → cl_actions s !! t = Some ta → action_key ta = Some k) as Hkey
    by (intros k t ta Ht Hta; by eapply (top_is cal)).
  pose proof (Hp i a Hi) as Hpa.
  destruct a as [a|a|name|a|a|o]; simpl; (split; [|try done]).
  - destruct (top_action (cuea_fromName a) s) as [[j b]|] eqn:Et.
    + apply top_action_Some in Et as [Htop Hb]. pose proof (Hkey _ _ _ Htop Hb) as Hkb.
      assert (∀ t ta, cl_top s !! cuea_fromName a = Some t → cl_actions s !! t = Some ta → ta = b) as Heq by (intros t ta Ht Hta; congruence).
      destruct b as [b|b|?|b|b|?]; simpl in Hkb; try done.
      * eapply collapsing_top; [done|exact Hi|done|]. intros t ta Ht Hta. rewrite (Heq t ta Ht Hta). by apply covers_rank.
      * eapply collapsing_top; [done|exact Hi|done|]. intros t ta Ht Hta. rewrite (Heq t ta Ht Hta). apply covers_rank; simpl; lia.
      * eapply drop_action_step; [done|exact Hi|reflexivity|exact Htop|exact Hb|]. apply covers_rank; simpl; lia.
      * injection Hkb as Hkb. exfalso. exact (Hpa _ _ eq_refl (eq_sym Hkb)).
    + eapply collapsing_top; [done|exact Hi|done|]. intros t ta Ht Hta. destruct (top_is cal i s _ t ta Hc Ht Hta). congruence.
  - destruct (top_action (cuea_fromName a) s) as [[j []]|]; done.
  - destruct (top_action (cuaa_fromName a) s) as [[j b]|] eqn:Et.
    + apply top_action_Some in Et as [Htop Hb]. pose proof (Hkey _ _ _ Htop Hb) as Hkb.
      destruct b as [b|b|?|b|b|?]; simpl in Hkb; try done;
        try (eapply drop_action_step; [done|exact Hi|reflexivity|exact Htop|exact Hb|]; apply covers_rank; simpl; lia).
      * destruct (add_attrs_spec (cuaa_attr b) (cuaa_attr a)) as [Hs1 Hs2].
        eapply collapsing_drop; [done|exact Hi|reflexivity|exact Htop|exact Hb| |]; [by split; [|split]|].
        split; [done|]. intros at_ [= <-]. exists a. split; [done|exact Hs2].
      * injection Hkb as Hkb. exfalso. exact (Hpa _ _ eq_refl (eq_sym Hkb)).
    + eapply collapsing_top; [done|exact Hi|done|]. intros t ta Ht Hta. destruct (top_is cal i s _ t ta Hc Ht Hta). congruence.
  - destruct (top_action (cuaa_fromName a) s) as [[j b]|] eqn:Et; [|done]. destruct b; try done.
    intros j' Hj'. simpl. apply top_action_Some in Et as [Htop _]. apply (cg_top _ _ _ Hc) in Htop as [? _].
    by rewrite list_lookup_insert_ne by lia.
  - by eapply collapsing_keep.
  - eapply collapsing_top; [done|exact Hi|done|]. intros t ta Ht Hta. apply covers_rank; [|done].
    simpl. destruct ta; simpl; lia.
  - eapply collapsing_top; [done|exact Hi|done|]. intros t ta Ht Hta. apply covers_rank; [|done].
    simpl. destruct ta; simpl; lia.
  - by eapply collapsing_keep.
Qed.

Lemma collapse_scan_spec cal : Forall plain_name cal → ∀ l i s, collapsing cal i s → i + length l = length cal →
  (∀ j, cal !! (i + j) = l !! j) → (∀ j, i <= j → cl_actions s !! j = cal !! j) →
  collapsing cal (length cal) (collapse_scan_actions i l s).
Proof.
  intros Hplain l. induction l as [|a l IH]; intros i s Hc Hlen Hl Hs; simpl in *; [by replace (length cal) with i by lia|].
  pose proof (Hl 0) as Ha. rewrite Nat.add_0_r in Ha. simpl in Ha.
  destruct (collapse_action_step cal i s a Hc Hplain Ha) as [Hc' Hs']; [rewrite Hs; done|].
  apply IH; [done|lia| |].
  - intros j. replace (S i + j) with (i + S j) by lia. apply Hl.
  - intros j Hj. rewrite Hs' by done. apply Hs. lia.
Qed.

(** Before the first action. *)
Lemma collapsing_init cal : collapsing cal 0 (MkCollapseInfo cal ∅ ∅).
Proof.
  split; simpl; intros; try lia; try set_solver.
  apply Forall_Forall2_diag, Forall_true, grown_refl.
Qed.

Lemma keep_actions_elem rm l a : ∀ i, a ∈ keep_actions i rm l ↔ ∃ j, l !! j = Some a ∧ i + j ∉ rm.
Proof.
  induction l as [|b l IH]; intros i; simpl; [split; [set_solver|by intros (? & ? & _)]|].
  assert (a ∈ keep_actions (S i) rm l ↔ ∃ j, (b :: l) !! S j = Some a ∧ i + S j ∉ rm) as Hr.
  { rewrite IH. by setoid_rewrite Nat.add_succ_r. }
  case_decide as Hi; [|rewrite elem_of_cons]; rewrite Hr; split.
  - intros (j & ?). by exists (S j).
  - intros ([|j] & ? & Hn); [by rewrite Nat.add_0_r in Hn|by exists j].
  - intros [->|(j & ?)]; [exists 0; by rewrite Nat.add_0_r|by exists (S j)].
  - intros ([|j] & ? & Hn); [left; naive_solver|right; by exists j].
Qed.

Lemma keep_actions_sublist rm l : ∀ i, keep_actions i rm l `sublist_of` l.
Proof. induction l as [|b l IH]; intros i; simpl; [constructor|]. case_decide; by constructor. Qed.

Lemma keep_actions_NoDup rm l : ∀ i,
  (∀ j1 j2 a1 a2 k, l !! j1 = Some a1 → l !! j2 = Some a2 → action_key a1 = Some k → action_key a2 = Some k →
    i + j1 ∉ rm → i + j2 ∉ rm → j1 = j2) →
  NoDup (omap action_key (keep_actions i rm l)).
Proof.
  induction l as [|b l IH]; intros i Hinj; [constructor|]. cbn [keep_actions].
  assert (NoDup (omap action_key (keep_actions (S i) rm l))) as Hnd.
  { apply IH. intros j1 j2 a1 a2 k H1 H2 K1 K2 N1 N2.
    by injection (Hinj (S j1) (S j2) a1 a2 k H1 H2 K1 K2 ltac:(by rewrite Nat.add_succ_r) ltac:(by rewrite Nat.add_succ_r)). }
  case_decide as Hi; [done|]. simpl. destruct (action_key b) as [k|] eqn:Ek; [|done].
  constructor; [|done]. intros (a & Ha & Hk)%list_elem_of_omap. apply keep_actions_elem in Ha as (j & Hj & Hn).
  discriminate (Hinj 0 (S j) b a k eq_refl Hj Ek Hk ltac:(by rewrite Nat.add_0_r) ltac:(by rewrite Nat.add_succ_r)).
Qed.

Lemma covers_ungrown t a a' : covers t a' → grown a a' → covers t a.
Proof.
  intros [Hr Ha] Hg. pose proof (grown_key _ _ Hg) as [_ Hr']. split; [lia|]. intros at_ ->.
  destruct (Ha at_ eq_refl) as (aa & -> & Hs). destruct a as [|a| | | |]; simpl in Hg; try done.
  exists a. split; [done|]. destruct_and?. by etrans.
Qed.

Definition keyless (a : crAction) : Prop := action_key a = None.
#[export] Instance keyless_dec a : Decision (keyless a) := decide (action_key a = None).

Lemma keep_actions_keyless rm l : ∀ i, (∀ j a, l !! j = Some a → i + j ∈ rm → ¬ keyless a) →
  filter keyless (keep_actions i rm l) = filter keyless l.
Proof.
  induction l as [|b l IH]; intros i Hrm; [done|]. cbn [keep_actions].
  assert (filter keyless (keep_actions (S i) rm l) = filter keyless l) as Heq.
  { apply IH. intros j a Hj Hin. apply (Hrm (S j) a Hj). by rewrite Nat.add_succ_r. }
  case_decide as Hi.
  - rewrite (filter_cons_False keyless b l); [done|]. apply (Hrm 0 b); [done|by rewrite Nat.add_0_r].
  - rewrite !filter_cons. by rewrite Heq.
Qed.

Lemma keyless_grown l l' : Forall2 grown l l' → filter keyless l' = filter keyless l.
Proof.
  induction 1 as [|a a' l l' Hg H IH]; [done|]. pose proof (grown_key _ _ Hg) as [Hk _]. rewrite !filter_cons, IH.
  destruct (decide (keyless a)) as [Hd|Hd].
  - rewrite (decide_True (P := keyless a')) by (unfold keyless; congruence). f_equal.
    unfold keyless in Hd. destruct a, a'; simpl in *; naive_solver.
  - by rewrite (decide_False (P := keyless a')) by (unfold keyless in *; congruence).
Qed.

(** Collapsing the actions on a directory leaves at most one action for
    each name of an entry, keeps all the removals and drops as they were, and
    keeps the order; an action that is left is one of the list, perhaps with
    more attributes to copy, and it makes every action on its name that was
    dropped superfluous: it does at least as much, and copies every attribute
    they would have copied. *)
Theorem collapse_actions_spec cal : Forall plain_name cal →
  NoDup (omap action_key (collapse_actions cal)) ∧
  filter keyless (collapse_actions cal) = filter keyless cal ∧
  (∃ cal', Forall2 grown cal cal' ∧ collapse_actions cal `sublist_of` cal') ∧
  (∀ a k, a ∈ cal → action_key a = Some k →
    ∃ t, t ∈ collapse_actions cal ∧ action_key t = Some k ∧ covers t a).
Proof.
  intros Hplain. unfold collapse_actions. cbv zeta.
  pose proof (collapse_scan_spec cal Hplain cal 0 _ (collapsing_init cal) eq_refl ltac:(done) ltac:(done)) as Hc.
  set (s := collapse_scan_actions 0 cal (MkCollapseInfo cal ∅ ∅)) in *. clearbody s. destruct (Hc) as [Hg Ht Hkp Hrm Hcv].
  pose proof (Forall2_length _ _ _ Hg) as Hlen.
  assert (∀ j a, cl_actions s !! j = Some a → j < length cal) as Hlt by (intros j a Hj%lookup_lt_Some; lia).
  split; [|split; [|split]].
  - apply keep_actions_NoDup. simpl. intros j1 j2 a1 a2 k H1 H2 K1 K2 N1 N2.
    pose proof (Hkp j1 a1 k (Hlt _ _ H1) H1 K1 N1). pose proof (Hkp j2 a2 k (Hlt _ _ H2) H2 K2 N2). congruence.
  - rewrite keep_actions_keyless; [by apply keyless_grown|]. simpl. intros j a Hj (_ & a' & k & Ha' & Hk)%Hrm.
    unfold keyless. congruence.
  - exists (cl_actions s). split; [done|apply keep_actions_sublist].
  - intros a k (j & Hj)%list_elem_of_lookup Hk. destruct (collapsing_lookup _ _ _ _ _ Hc Hj) as (a' & Ha' & Hga).
    pose proof (grown_key _ _ Hga) as [Hk' _]. destruct (Hcv j a' k (Hlt _ _ Ha') Ha' ltac:(congruence)) as (t & ta & Htk & Hta & Hcov).
    destruct (Ht k t Htk) as (_ & Hn & ta' & Hta' & Hkt). exists ta. split; [apply keep_actions_elem; by exists t|].
    split; [congruence|]. by eapply covers_ungrown.
Qed.

(** ** Witnesses *)

Definition ex_ptr_of (c : ascii) : BlockPointer := 
  MkBlockPointer (MkBlockID (MkHash (String c EmptyString))) 1%Z 1%Z "u"%string EmptyString zeroBlockRefNonce.
Definition ex_file (c : ascii) : DirEntry := MkDirEntry (MkBlockInfo (ex_ptr_of c) 10%Z) (MkEntryInfo File 3%Z EmptyString 0%Z 0%Z).
Definition ex_directory (l : list (string * DirEntry)) : DirBlock := MkDirBlock (MkCommonBlock false 0%Z) (list_to_map l) [].
Definition ex_unmerged_dir : DirBlock := ex_directory [("a.txt"%string, ex_file "1"%char)].
Definition ex_merged_dir : DirBlock := ex_directory [("a.txt"%string, ex_file "2"%char); ("b"%string, ex_file "3"%char)].
(** A copy of a file gets a pointer of its own. *)
Definition ex_copier (name : string) (p : BlockPointer) : res BlockPointer := Ok (ex_ptr_of "9"%char).
Definition ex_rua : renameUnmergedAction := MkRua "a.txt" "a.txt" EmptyString zeroPtr zeroPtr.
Definition ex_rma : renameMergedAction := MkRma "a.txt" "a.txt" EmptyString.

(** Both versions of [a.txt], one of them as [a (1).txt]. *)
Lemma conflict_keeps_both_witness :
  (∃ merged', rua_do ex_copier ex_rua ex_unmerged_dir ex_merged_dir =
      Ok (MkRua "a.txt" "a (1).txt" EmptyString zeroPtr zeroPtr, merged') ∧
    db_Children ex_merged_dir !! "a (1).txt"%string = None) ∧
  (∃ merged', rma_do ex_rma ex_unmerged_dir ex_merged_dir = Ok (MkRma "a.txt" "a (1).txt" EmptyString, merged') ∧
    "a (1).txt"%string ≠ "a.txt"%string).
Proof.
  split; (eexists; split; [vm_compute; reflexivity|]).
  - destruct (proj1 (conflict_keeps_both ex_copier) ex_rua ex_unmerged_dir ex_merged_dir
      (MkRua "a.txt" "a (1).txt" EmptyString zeroPtr zeroPtr) _ ltac:(vm_compute; reflexivity)) as (_ & _ & _ & _ & Hf & _).
    exact Hf.
  - destruct (proj1 (proj2 (conflict_keeps_both ex_copier)) ex_rma ex_unmerged_dir ex_merged_dir
      (MkRma "a.txt" "a (1).txt" EmptyString) _ ltac:(vm_compute; reflexivity)) as (_ & _ & _ & _ & _ & Hn & _).
    exact Hn.
Defined.

Definition ex_cal : list crAction :=
  [CopyUnmergedAttr (MkCuaa "a" "a" [exAttr]); CopyUnmergedAttr (MkCuaa "a" "a" [mtimeAttr; exAttr]);
   RmMergedEntry "b"; CopyUnmergedAttr (MkCuaa "c" "c" [exAttr]); RenameUnmerged (MkRua "c" "c2" EmptyString zeroPtr zeroPtr);
   RenameMerged (MkRma "c" "c3" EmptyString)].

Lemma collapse_actions_spec_witness :
  collapse_actions ex_cal =
    [CopyUnmergedAttr (MkCuaa "a" "a" [exAttr; mtimeAttr]); RmMergedEntry "b";
     RenameUnmerged (MkRua "c" "c2" EmptyString zeroPtr zeroPtr); RenameMerged (MkRma "c" "c3" EmptyString)] ∧
  NoDup (omap action_key (collapse_actions ex_cal)).
Proof.
  split; [vm_compute; reflexivity|]. apply (collapse_actions_spec ex_cal).
  repeat constructor; intros k n [= <-]; discriminate.
Defined.
