(* ===== verification/LevelDb.v ===== *)
(** * LevelDb: an ordered store of byte strings

    What the local metadata server uses of [github.com/syndtr/goleveldb]:
    reading, writing a batch, deleting, and iterating over a range of keys
    in the order of [bytes.Compare].  The class [LevelDB] has the
    operations, [LevelDBLaws] what the library documents of them, in terms
    of a finite map (none once the database is closed).  The order of
    fixed-width big-endian numbers is that of the numbers, which range
    fetches rely on. *)

From Stdlib Require Import ZArith Lia Sorted.
From S2P Require Import Prelude Types Errors GoStd.

(** ** The order of keys *)

(** [bytes.Compare(a, b) < 0]. *)
Fixpoint bytes_ltb (a b : list byte) : bool :=
  match a, b with
  | _, [] => false
  | [], _ :: _ => true
  | x :: a, y :: b =>
      if (byte_val x <? byte_val y)%Z then true
      else if (byte_val y <? byte_val x)%Z then false
      else bytes_ltb a b
  end.

Definition bytes_lt (a b : list byte) : Prop := bytes_ltb a b = true.
#[global] Instance bytes_lt_dec a b : Decision (bytes_lt a b).
Proof. unfold bytes_lt. apply _. Defined.

Definition key_lt {V} (e e' : list byte * V) : Prop := bytes_lt (fst e) (fst e').

(** [util.Range]: from [Start] on, before [Limit]; nil is the whole range. *)
Definition in_range (r : option (list byte * list byte)) (k : list byte) : bool :=
  match r with
  | None => true
  | Some (start, limit) => negb (bytes_ltb k start) && bytes_ltb k limit
  end.

Lemma bytes_lt_irrefl a : ¬ bytes_lt a a.
Proof.
  unfold bytes_lt. induction a as [|x a IH]; [done|]. simpl.
  by rewrite Z.ltb_irrefl.
Qed.

Lemma bytes_lt_trans a b c : bytes_lt a b → bytes_lt b c → bytes_lt a c.
Proof.
  unfold bytes_lt. revert b c. induction a as [|x a IH]; intros [|y b] [|z c]; try done.
  simpl. repeat case_match; rewrite ?Z.ltb_lt, ?Z.ltb_ge in *; try done; try lia. apply IH.
Qed.

Lemma bytes_lt_total a b : bytes_lt a b ∨ a = b ∨ bytes_lt b a.
Proof.
  unfold bytes_lt. revert b. induction a as [|x a IH]; intros [|y b]; try (by auto).
  simpl. destruct (Z.ltb_spec (byte_val x) (byte_val y)); [by auto|].
  destruct (Z.ltb_spec (byte_val y) (byte_val x)); [by auto|].
  assert (x = y) as -> by (apply byte_val_inj; lia).
  destruct (IH b) as [?|[->|?]]; auto.
Qed.

Lemma bytes_lt_app_l p a b : bytes_lt (p ++ a) (p ++ b) ↔ bytes_lt a b.
Proof. unfold bytes_lt. induction p as [|x p IH]; [done|]. simpl. by rewrite Z.ltb_irrefl. Qed.

(** Past the first difference, the rest does not matter. *)
Lemma bytes_lt_app_r a b x y : length a = length b → bytes_lt a b → bytes_lt (a ++ x) (b ++ y).
Proof.
  unfold bytes_lt. revert b. induction a as [|c a IH]; intros [|d b]; try done.
  simpl. intros [= Hl]. repeat case_match; auto.
Qed.

Lemma bytes_lt_prefix a x : x ≠ [] → bytes_lt a (a ++ x).
Proof.
  intros Hx. rewrite <- (app_nil_r a) at 1. apply bytes_lt_app_l. by destruct x.
Qed.

(** A key between two keys that begin with [p] begins with [p]. *)
Lemma bytes_between_prefix p a b k :
  ¬ bytes_lt k (p ++ a) → bytes_lt k (p ++ b) → ∃ z, k = p ++ z.
Proof.
  unfold bytes_lt. revert k. induction p as [|x p IH]; intros k Ha Hb; [by exists k|].
  destruct k as [|y k]; [done|]. simpl in *.
  destruct (Z.ltb_spec (byte_val y) (byte_val x)); [done|].
  destruct (Z.ltb_spec (byte_val x) (byte_val y)); [done|].
  assert (x = y) as -> by (apply byte_val_inj; lia).
  destruct (IH k Ha Hb) as [z ->]. by exists z.
Qed.

(** ** Big-endian numbers *)

Definition get_be (l : list byte) : Z := get_le (reverse l).

Lemma length_put_be n x : length (put_be n x) = n.
Proof. unfold put_be. by rewrite length_reverse, length_put_le. Qed.

Lemma get_put_be n x : (0 <= x < 256 ^ Z.of_nat n)%Z → get_be (put_be n x) = x.
Proof.
  intros Hx. unfold get_be, put_be. rewrite reverse_involutive, get_put_le. by apply Z.mod_small.
Qed.

Lemma get_le_snoc l b : get_le (l ++ [b]) = (get_le l + 256 ^ zlen l * byte_val b)%Z.
Proof.
  induction l as [|c l IH]; [simpl; unfold zlen; simpl; lia|].
  simpl. rewrite IH. unfold zlen. rewrite length_cons, Nat2Z.inj_succ, Z.pow_succ_r by lia. lia.
Qed.

Lemma get_be_cons b l : get_be (b :: l) = (256 ^ zlen l * byte_val b + get_be l)%Z.
Proof.
  unfold get_be. rewrite reverse_cons, get_le_snoc. unfold zlen. rewrite length_reverse. lia.
Qed.

Lemma get_be_bound l : (0 <= get_be l < 256 ^ zlen l)%Z.
Proof.
  unfold get_be. pose proof (get_le_bound (reverse l)). unfold zlen in *.
  by rewrite length_reverse in *.
Qed.

(** Big-endian numbers of the same width are ordered as numbers. *)
Lemma bytes_lt_get_be a b : length a = length b → bytes_lt a b ↔ (get_be a < get_be b)%Z.
Proof.
  unfold bytes_lt. revert b. induction a as [|x a IH]; intros [|y b] Hl; try done.
  injection Hl as Hl. simpl. rewrite !get_be_cons.
  assert (zlen a = zlen b) as Hz by (unfold zlen; lia). rewrite Hz.
  pose proof (get_be_bound a). pose proof (get_be_bound b). rewrite Hz in *.
  destruct (Z.ltb_spec (byte_val x) (byte_val y)); [split; [nia|done]|].
  destruct (Z.ltb_spec (byte_val y) (byte_val x)); [split; [done|nia]|].
  assert (x = y) as -> by (apply byte_val_inj; lia). rewrite (IH b Hl). lia.
Qed.

Lemma bytes_lt_put_be n x y :
  (0 <= x < 256 ^ Z.of_nat n)%Z → (0 <= y < 256 ^ Z.of_nat n)%Z →
  bytes_lt (put_be n x) (put_be n y) ↔ (x < y)%Z.
Proof.
  intros Hx Hy. rewrite bytes_lt_get_be by (by rewrite !length_put_be). by rewrite !get_put_be.
Qed.

(** ** The interface *)

Definition kvmap := gmap (list byte) (list byte).

(** [batch] is a sequence of puts; the iterator sees the database as it
    was when it was made, and its error after the last entry. *)
Class LevelDB (DB : Type) := {
  ldb_Get : list byte → DB → res (list byte);
  ldb_Write : list (list byte * list byte) → go DB unit;
  ldb_Delete : list byte → go DB unit;
  ldb_Iterate : option (list byte * list byte) → DB → list (list byte * list byte) * option error;
  ldb_Close : DB → DB
}.

Definition ldb_Put `{LevelDB DB} (key value : list byte) : go DB unit := ldb_Write [(key, value)].

Definition put_batch (batch : list (list byte * list byte)) (m : kvmap) : kvmap :=
  foldl (λ (m : gmap (list byte) (list byte)) e, <[fst e := snd e]> m) m batch.

Class LevelDBLaws (DB : Type) `{LevelDB DB} := {
  ldb_map : DB → option (gmap (list byte) (list byte));
  ldb_Get_law db m k : ldb_map db = Some m →
    ldb_Get k db = match m !! k with Some v => Ok v | None => Err LeveldbErrNotFound end;
  ldb_Write_law db m batch : ldb_map db = Some m →
    ∃ db', ldb_Write batch db = (Ok tt, db') ∧ ldb_map db' = Some (put_batch batch m);
  ldb_Delete_law db m k : ldb_map db = Some m →
    ∃ db', ldb_Delete k db = (Ok tt, db') ∧ ldb_map db' = Some (delete k m);
  ldb_Iterate_law db m r : ldb_map db = Some m →
    ∃ l, ldb_Iterate r db = (l, None) ∧ StronglySorted key_lt l ∧
      ∀ k v, (k, v) ∈ l ↔ m !! k = Some v ∧ in_range r k = true;
  ldb_closed db k batch r : ldb_map db = None →
    ldb_Get k db = Err LeveldbErrClosed ∧ ldb_Write batch db = (Err LeveldbErrClosed, db) ∧
    ldb_Delete k db = (Err LeveldbErrClosed, db) ∧ ldb_Iterate r db = ([], Some LeveldbErrClosed);
  ldb_Close_law db : ldb_map (ldb_Close db) = None
}.

Section laws.
Context `{LevelDBLaws DB}.

Lemma ldb_Put_law db m k v : ldb_map db = Some m →
  ∃ db', ldb_Put k v db = (Ok tt, db') ∧ ldb_map db' = Some (<[k := v]> m).
Proof. apply (ldb_Write_law db m [(k, v)]). Qed.
End laws.

(** The sorted list of the entries of a range is determined by them. *)
Lemma key_sorted_unique {V} (l l' : list (list byte * V)) :
  StronglySorted key_lt l → StronglySorted key_lt l' →
  (∀ e, e ∈ l ↔ e ∈ l') → l = l'.
Proof.
  intros Hl. revert l'. induction Hl as [|e l Hs IH Hall]; intros l' Hl' Heq.
  - destruct l' as [|e' l']; [done|]. exfalso. assert (e' ∈ @nil (list byte * V)); [|set_solver].
    apply Heq. left.
  - destruct Hl' as [|e' l' Hs' Hall'].
    { exfalso. assert (e ∈ @nil (list byte * V)); [|set_solver]. apply Heq. left. }
    rewrite Forall_forall in Hall, Hall'.
    assert (e = e') as <-.
    { assert (e ∈ e' :: l') as [->|He]%elem_of_cons by (apply Heq; left); [done|].
      assert (e' ∈ e :: l) as [->|He']%elem_of_cons by (apply Heq; left); [done|].
      exfalso. apply (bytes_lt_irrefl (fst e)).
      eapply bytes_lt_trans; [by apply Hall|by apply Hall']. }
    f_equal. apply IH; [done|]. intros x. specialize (Heq x).
    assert (∀ k, Forall (key_lt e) k → x ∈ k → x ≠ e) as Hne.
    { intros k Hk Hx ->. rewrite Forall_forall in Hk. by apply (bytes_lt_irrefl (fst e)), Hk. }
    rewrite !elem_of_cons in Heq.
    split; intros Hx.
    + destruct (proj1 Heq (or_intror Hx)) as [->|?]; [|done].
      exfalso. eapply (Hne l); [by apply Forall_forall|done|done].
    + destruct (proj2 Heq (or_intror Hx)) as [->|?]; [|done].
      exfalso. eapply (Hne l'); [by apply Forall_forall|done|done].
Qed.
