(* ===== verification/MDServer.v ===== *)
(** * MDServer: the local metadata server

    Models [libkbfs/mdserver_local.go]: the metadata of every revision of
    every folder, of the merged branch and of the unmerged branches of the
    devices, in LevelDB databases; the observers that wait for the next
    merged revision; the locks that history truncation takes.

    Several instances of [MDServerLocal] share the databases, the
    observers and the heads of the sessions ([copy]); the shared part is
    the record [MDServerLocal], and the instance that a method is called
    on is a [Session] with what its configuration gives: the current user
    and device, the clock and the source of randomness.

    A method is one step.  In the code, [Put] and the methods about
    observers and locks hold a mutex of the server from before their checks; [GetForHandle], [GetForTLF], [GetRange] and [PruneBranch]
    hold only the read side of the shutdown lock, so that a database
    operation of another session can come between two of theirs, which this
    model leaves out. *)

From Stdlib Require Import ZArith Lia.
From S2P Require Import Prelude Types Errors GoStd Ids CryptoCommon DataTypes Ops ConflictInfo Handles KeyBundles Metadata LevelDb.

(** ** State *)

(** The timestamp ends up in the [untrustedServerTimestamp] of the
    metadata the server returns. *)
Record mdBlockLocal := MkMdBlockLocal {
  mbl_MD : RootMetadataSigned;
  mbl_Timestamp : Z
}.

(** A channel with a buffer of one. *)
Record errChan := MkErrChan {
  ch_buf : list (option error);
  ch_closed : bool
}.

Record MDServerLocal (DB : Type) := MkMDServerLocal {
  md_handleDb : DB;
  md_mdDb : DB;
  md_branchDb : DB;
  md_locksDb : DB;
  md_observers : gmap TlfID (gmap nat nat);
  md_sessionHeads : gmap TlfID nat;
  md_shutdown : bool;
  md_chans : list errChan
}.
Arguments MkMDServerLocal {DB} _ _ _ _ _ _ _ _.
Arguments md_handleDb {DB} _.
Arguments md_mdDb {DB} _.
Arguments md_branchDb {DB} _.
Arguments md_locksDb {DB} _.
Arguments md_observers {DB} _.
Arguments md_sessionHeads {DB} _.
Arguments md_shutdown {DB} _.
Arguments md_chans {DB} _.

Record Session := MkSession {
  ss_self : nat;
  ss_user : res UID;
  ss_kid : res KID;
  ss_now : Z;
  ss_rand : list byte
}.

(** [MDServerError{err}] around the errors of a call. *)
Definition mdserver_err {A} (r : res A) : res A :=
  match r with Err e => Err (MDServerError e) | r => r end.

Definition already_shut_down : error := ErrorString "MD server already shut down".
Definition invalid_branch_id : error := MDServerErrorBadRequest "Invalid branch ID".

(** ** Keys *)

(** The key of a revision, or of the head when there is no revision. *)
Definition getMDKey (id : TlfID) (revision : MetadataRevision) (bid : BranchID) (mStatus : MergeStatus)
    : list byte :=
  if decide (revision = MetadataRevisionUninitialized ∧ mStatus = Merged) then tlf_id id
  else
    tlf_id id ++
    (if decide (mStatus = Unmerged) then branch_id bid else []) ++
    (if decide (MetadataRevisionInitial <= revision)%Z then put_be 8 revision else []).

Definition getTruncateLockKey (id : TlfID) : list byte := tlf_id id.

Definition getCurrentDeviceKIDBytes (ss : Session) : res (list byte) :=
  deviceKID ← ss_kid ss; Ok (ToBytes deviceKID).

Definition getBranchKey (ss : Session) (id : TlfID) : res (list byte) :=
  deviceKID ← ss_kid ss; Ok (tlf_id id ++ ToBytes deviceKID).

(** ** Channels *)

(** [c <- nil; close(c)] on a channel with a buffer of one: a send blocks
    while the buffer is full, and panics on a closed channel. *)
Definition send_and_close (c : nat) (chans : list errChan) : res (list errChan) :=
  match chans !! c with
  | None => Panic "send on nil channel"
  | Some ch =>
      if ch_closed ch then Panic "send on closed channel"
      else if decide (ch_buf ch ≠ []) then Panic "all goroutines are asleep - deadlock!"
      else Ok (<[c := MkErrChan [None] true]> chans)
  end.

(** Firing the observers of a folder that are not of session [self]: the
    observers that stay, and the channels. *)
Fixpoint fire_observers (self : nat) (obs : list (nat * nat)) (rest : gmap nat nat) (chans : list errChan)
    : res (gmap nat nat * list errChan) :=
  match obs with
  | [] => Ok (rest, chans)
  | (k, c) :: obs =>
      if decide (k = self) then fire_observers self obs rest chans
      else chans ← send_and_close c chans; fire_observers self obs (delete k rest) chans
  end.

(** ** The server *)

Section server.
Context {DB : Type} `{LevelDB DB}.
Context `{Codec WriterMetadata, Codec SignatureInfo, Codec (gmap KID TLFCryptKeyInfo),
  Codec BareRootMetadata, Codec BareTlfHandle, Codec BranchID, Codec mdBlockLocal}.

Abbreviation server := (MDServerLocal DB).

Definition set_mdDb (db : DB) (md : server) : server :=
  MkMDServerLocal (md_handleDb md) db (md_branchDb md) (md_locksDb md) (md_observers md)
    (md_sessionHeads md) (md_shutdown md) (md_chans md).
Definition set_handleDb (db : DB) (md : server) : server :=
  MkMDServerLocal db (md_mdDb md) (md_branchDb md) (md_locksDb md) (md_observers md)
    (md_sessionHeads md) (md_shutdown md) (md_chans md).
Definition set_branchDb (db : DB) (md : server) : server :=
  MkMDServerLocal (md_handleDb md) (md_mdDb md) db (md_locksDb md) (md_observers md)
    (md_sessionHeads md) (md_shutdown md) (md_chans md).
Definition set_locksDb (db : DB) (md : server) : server :=
  MkMDServerLocal (md_handleDb md) (md_mdDb md) (md_branchDb md) db (md_observers md)
    (md_sessionHeads md) (md_shutdown md) (md_chans md).
Definition set_observers (obs : gmap TlfID (gmap nat nat)) (heads : gmap TlfID nat) (chans : list errChan)
    (md : server) : server :=
  MkMDServerLocal (md_handleDb md) (md_mdDb md) (md_branchDb md) (md_locksDb md) obs heads
    (md_shutdown md) chans.

(** [newMDServerLocalWithStorage], the databases opened. *)
Definition newMDServerLocalWithStorage (handleDb mdDb branchDb locksDb : DB) : server :=
  MkMDServerLocal handleDb mdDb branchDb locksDb ∅ ∅ false [].

(** *** Reading *)

Definition rmdsFromBlockBytes (buf : list byte) : res mdBlockLocal := Decode buf.

Definition getHeadForTLF (id : TlfID) (bid : BranchID) (mStatus : MergeStatus) (md : server)
    : res (option mdBlockLocal) :=
  match ldb_Get (getMDKey id 0%Z bid mStatus) (md_mdDb md) with
  | Ok buf => Some <$> rmdsFromBlockBytes buf
  | Err LeveldbErrNotFound => Ok None
  | Err e => Err e
  | Panic p => Panic p
  end.

(** Without a head that can be read, the permissions are not checked: the
    error of the lookup is dropped. *)
Definition checkPerms (ss : Session) (id : TlfID) (checkWrite : bool) (newMd : option BareRootMetadata)
    (md : server) : res bool :=
  match getHeadForTLF id NullBranchID Merged md with
  | Panic p => Panic p
  | Err _ | Ok None => Ok true
  | Ok (Some rmds) =>
      let head := rmds_MD (mbl_MD rmds) in
      user ← ss_user ss;
      h ← makeBareTlfHandle head;
      let isWriter := handle_IsWriter h user in
      let isReader := handle_IsReader h user in
      if checkWrite then
        match newMd with
        | Some newMd =>
            if negb isWriter && isReader then IsValidRekeyRequest newMd head user else Ok isWriter
        | None => Ok isWriter
        end
      else Ok (isWriter || isReader)
  end.

Definition isReader (ss : Session) (id : TlfID) : server → res bool := checkPerms ss id false None.
Definition isWriter (ss : Session) (id : TlfID) : server → res bool := checkPerms ss id true None.
Definition isWriterOrValidRekey (ss : Session) (id : TlfID) (newMd : BareRootMetadata) : server → res bool :=
  checkPerms ss id true (Some newMd).

Definition getBranchID (ss : Session) (id : TlfID) (md : server) : res BranchID :=
  branchKey ← mdserver_err (getBranchKey ss id);
  match ldb_Get branchKey (md_branchDb md) with
  | Err LeveldbErrNotFound => Ok NullBranchID
  | Err _ => Err invalid_branch_id
  | Panic p => Panic p
  | Ok buf =>
      match Decode buf with
      | Ok bid => Ok bid
      | Err _ => Err invalid_branch_id
      | Panic p => Panic p
      end
  end.

(** What [GetForTLF] and [GetRange] check first: the branch to read, none
    when the device has no unmerged branch. *)
Definition check_read (ss : Session) (id : TlfID) (bid : BranchID) (mStatus : MergeStatus) (md : server)
    : res (option BranchID) :=
  if md_shutdown md then Err already_shut_down
  else if decide (mStatus = Merged ∧ bid ≠ NullBranchID) then Err invalid_branch_id
  else
    ok ← mdserver_err (isReader ss id md);
    if negb ok then Err MDServerErrorUnauthorized
    else if decide (mStatus = Unmerged ∧ bid = NullBranchID) then
      bid ← getBranchID ss id md;
      Ok (if decide (bid = NullBranchID) then None else Some bid)
    else Ok (Some bid).

Definition GetForTLF (ss : Session) (id : TlfID) (bid : BranchID) (mStatus : MergeStatus) (md : server)
    : res (option mdBlockLocal) :=
  found ← check_read ss id bid mStatus md;
  match found with
  | None => Ok None
  | Some bid => mdserver_err (getHeadForTLF id bid mStatus md)
  end.

(** The values of an iterator, decoded in order. *)
Fixpoint decode_all (l : list (list byte * list byte)) : res (list mdBlockLocal) :=
  match l with
  | [] => Ok []
  | (_, buf) :: l =>
      rmds ← mdserver_err (rmdsFromBlockBytes buf);
      rmdses ← decode_all l;
      Ok (rmds :: rmdses)
  end.

Definition read_range (startKey stopKey : list byte) (md : server) : res (list mdBlockLocal) :=
  let '(l, err) := ldb_Iterate (Some (startKey, stopKey)) (md_mdDb md) in
  rmdses ← decode_all l;
  match err with Some e => Err (MDServerError e) | None => Ok rmdses end.

Definition GetRange (ss : Session) (id : TlfID) (bid : BranchID) (mStatus : MergeStatus)
    (start stop : MetadataRevision) (md : server) : res (list mdBlockLocal) :=
  found ← check_read ss id bid mStatus md;
  match found with
  | None => Ok []
  | Some bid =>
      read_range (getMDKey id start bid mStatus) (getMDKey id (to_i64 (stop + 1)) bid mStatus) md
  end.

(** [GetForHandle]: a new folder gets a random id. *)
Definition GetForHandle (ss : Session) (handle : BareTlfHandle) (mStatus : MergeStatus)
    : go server (TlfID * option mdBlockLocal) := λ md,
  if md_shutdown md then (Err already_shut_down, md)
  else match Encode handle with
  | Err e => (Err e, md)
  | Panic p => (Panic p, md)
  | Ok handleBytes =>
      match ldb_Get handleBytes (md_handleDb md) with
      | Panic p => (Panic p, md)
      | Ok buf =>
          match TlfID_UnmarshalBinary buf NullTlfID with
          | (Ok _, id) => ((λ rmds, (id, rmds)) <$> GetForTLF ss id NullBranchID mStatus md, md)
          | (Err e, _) => (Err e, md)
          | (Panic p, _) => (Panic p, md)
          end
      | Err e =>
          if decide (e ≠ LeveldbErrNotFound) then (Err (MDServerError e), md)
          else match ss_user ss with
          | Err e => (Err e, md)
          | Panic p => (Panic p, md)
          | Ok uid =>
              if negb (handle_IsReader handle uid) then (Err MDServerErrorUnauthorized, md)
              else match MakeRandomTlfID (ss_rand ss) (handle_IsPublic handle) with
              | Err e => (Err (MDServerError e), md)
              | Panic p => (Panic p, md)
              | Ok id =>
                  let '(r, db) := ldb_Put handleBytes (tlf_id id) (md_handleDb md) in
                  ((λ _, (id, None)) <$> mdserver_err r, set_handleDb db md)
              end
          end
      end
  end.

(** *** Writing *)

Definition valid_bid (mStatus : MergeStatus) (bid : BranchID) : bool :=
  match mStatus with Merged => bool_decide (bid = NullBranchID) | Unmerged => bool_decide (bid ≠ NullBranchID) end.

(** The consistency checks against the metadata that [rmds] follows. *)
Definition check_successor (head rmds : BareRootMetadata) : res unit :=
  if decide (to_i64 (bm_Revision head + 1) ≠ bm_Revision rmds)
  then Err (MDServerErrorConflictRevision (to_i64 (bm_Revision head + 1)) (bm_Revision rmds))
  else
    expectedHash ← mdserver_err (MakeMdID head);
    if decide (bm_PrevRoot rmds ≠ expectedHash)
    then Err (MDServerErrorConflictPrevRoot expectedHash (bm_PrevRoot rmds))
    else
      let expectedUsage :=
        if IsWriterMetadataCopiedSet rmds then bm_DiskUsage head
        else to_u64 (bm_DiskUsage head + (bm_RefBytes rmds - bm_UnrefBytes rmds)) in
      if decide (bm_DiskUsage rmds ≠ expectedUsage)
      then Err (MDServerErrorConflictDiskUsage expectedUsage (bm_DiskUsage rmds))
      else Ok tt.

(** What [rmds] follows, and whether it begins an unmerged branch; nothing
    for the first metadata of a folder. *)
Definition find_head (ss : Session) (rmds : BareRootMetadata) (md : server)
    : res (option mdBlockLocal * bool) :=
  let mStatus := MergedStatus rmds in
  head ← mdserver_err (getHeadForTLF (bm_ID rmds) (bm_BID rmds) mStatus md);
  match mStatus, head with
  | Unmerged, None =>
      let prevRev := to_i64 (bm_Revision rmds - 1) in
      rmdses ← mdserver_err (GetRange ss (bm_ID rmds) NullBranchID Merged prevRev prevRev md);
      match rmdses with
      | [head] => Ok (Some head, true)
      | _ => Err (MDServerError (Errorf "Expected 1 MD block"))
      end
  | _, _ => Ok (head, false)
  end.

(** Everything [Put] checks before it writes: whether to record the branch. *)
Definition check_put (ss : Session) (rmds : BareRootMetadata) (md : server) : res bool :=
  if md_shutdown md then Err already_shut_down
  else if negb (valid_bid (MergedStatus rmds) (bm_BID rmds)) then Err invalid_branch_id
  else
    ok ← mdserver_err (isWriterOrValidRekey ss (bm_ID rmds) rmds md);
    if negb ok then Err MDServerErrorUnauthorized
    else
      '(head, recordBranchID) ← find_head ss rmds md;
      _ ← (match head with
           | Some head => check_successor (rmds_MD (mbl_MD head)) rmds
           | None => Ok tt
           end);
      Ok recordBranchID.

Definition record_branch (ss : Session) (id : TlfID) (bid : BranchID) : go server unit := λ md,
  match (buf ← Encode bid; branchKey ← getBranchKey ss id; Ok (branchKey, buf)) with
  | Ok (branchKey, buf) =>
      let '(r, db) := ldb_Put branchKey buf (md_branchDb md) in
      (mdserver_err r, set_branchDb db md)
  | Err e => (Err (MDServerError e), md)
  | Panic p => (Panic p, md)
  end.

Definition write_md (ss : Session) (rmds : RootMetadataSigned) : go server unit := λ md,
  let bm := rmds_MD rmds in
  match Encode (MkMdBlockLocal rmds (ss_now ss)) with
  | Ok buf =>
      let revKey := getMDKey (bm_ID bm) (bm_Revision bm) (bm_BID bm) (MergedStatus bm) in
      let headKey := getMDKey (bm_ID bm) MetadataRevisionUninitialized (bm_BID bm) (MergedStatus bm) in
      let '(r, db) := ldb_Write [(revKey, buf); (headKey, buf)] (md_mdDb md) in
      (mdserver_err r, set_mdDb db md)
  | Err e => (Err (MDServerError e), md)
  | Panic p => (Panic p, md)
  end.

(** The observers of other sessions are told of a new merged revision,
    unless it is only a rekey. *)
Definition notify (ss : Session) (rmds : BareRootMetadata) : go server unit := λ md,
  if bool_decide (MergedStatus rmds = Merged) && negb (IsRekeySet rmds && IsWriterMetadataCopiedSet rmds)
  then
    let id := bm_ID rmds in
    let heads := <[id := ss_self ss]> (md_sessionHeads md) in
    let obs := default ∅ (md_observers md !! id) in
    match fire_observers (ss_self ss) (map_to_list obs) obs (md_chans md) with
    | Ok (rest, chans) =>
        let observers := if decide (size rest = 0) then delete id (md_observers md)
                         else <[id := rest]> (md_observers md) in
        (Ok tt, set_observers observers heads chans md)
    | Err e => (Err e, md)
    | Panic p => (Panic p, md)
    end
  else (Ok tt, md).

Definition md_Put (ss : Session) (rmds : RootMetadataSigned) : go server unit :=
  md ← get;
  recordBranchID ← lift_res (check_put ss (rmds_MD rmds) md);
  _ ← (if recordBranchID : bool then record_branch ss (bm_ID (rmds_MD rmds)) (bm_BID (rmds_MD rmds))
       else mret tt);
  _ ← write_md ss rmds;
  notify ss (rmds_MD rmds).

Definition PruneBranch (ss : Session) (id : TlfID) (bid : BranchID) : go server unit := λ md,
  if md_shutdown md then (Err already_shut_down, md)
  else if decide (bid = NullBranchID) then (Err invalid_branch_id, md)
  else match getBranchID ss id md with
  | Err e => (Err e, md)
  | Panic p => (Panic p, md)
  | Ok currBID =>
      if decide (currBID = NullBranchID ∨ bid ≠ currBID) then (Err invalid_branch_id, md)
      else match getBranchKey ss id with
      | Err e => (Err (MDServerError e), md)
      | Panic p => (Panic p, md)
      | Ok branchKey =>
          let '(r, db) := ldb_Delete branchKey (md_branchDb md) in
          (mdserver_err r, set_branchDb db md)
      end
  end.

(** *** Observers *)

(** [RegisterForUpdate] returns a channel. *)
Definition RegisterForUpdate (ss : Session) (id : TlfID) (currHead : MetadataRevision) : go server nat := λ md,
  if md_shutdown md then (Err already_shut_down, md)
  else match getHeadForTLF id NullBranchID Merged md with
  | Err e => (Err e, md)
  | Panic p => (Panic p, md)
  | Ok head =>
      let currMergedHeadRev := match head with
                               | Some h => bm_Revision (rmds_MD (mbl_MD h))
                               | None => 0%Z
                               end in
      let c := length (md_chans md) in
      if bool_decide (currHead < currMergedHeadRev)%Z && bool_decide (md_sessionHeads md !! id ≠ Some (ss_self ss))
      then (Ok c, set_observers (md_observers md) (md_sessionHeads md)
                    (md_chans md ++ [MkErrChan [None] true]) md)
      else
        let obs := default ∅ (md_observers md !! id) in
        let chans := md_chans md ++ [MkErrChan [] false] in
        match obs !! ss_self ss with
        | Some _ => (Panic "Attempted double-registration for MDServerLocal",
                     set_observers (<[id := obs]> (md_observers md)) (md_sessionHeads md) chans md)
        | None =>
            (Ok c, set_observers (<[id := <[ss_self ss := c]> obs]> (md_observers md))
                     (md_sessionHeads md) chans md)
        end
  end.

(** *** Truncate locks *)

Definition TruncateLock (ss : Session) (id : TlfID) : go server bool := λ md,
  match getCurrentDeviceKIDBytes ss with
  | Err e => (Err e, md)
  | Panic p => (Panic p, md)
  | Ok myKID =>
      match ldb_Get (getTruncateLockKey id) (md_locksDb md) with
      | Err LeveldbErrNotFound =>
          let '(r, db) := ldb_Put (getTruncateLockKey id) myKID (md_locksDb md) in
          ((λ _, true) <$> r, set_locksDb db md)
      | Err e => (Err e, md)
      | Panic p => (Panic p, md)
      | Ok lockBytes =>
          if decide (lockBytes = myKID) then (Ok true, md) else (Err MDServerErrorLocked, md)
      end
  end.

Definition TruncateUnlock (ss : Session) (id : TlfID) : go server bool := λ md,
  match getCurrentDeviceKIDBytes ss with
  | Err e => (Err e, md)
  | Panic p => (Panic p, md)
  | Ok myKID =>
      match ldb_Get (getTruncateLockKey id) (md_locksDb md) with
      | Err LeveldbErrNotFound => (Ok true, md)
      | Err e => (Err e, md)
      | Panic p => (Panic p, md)
      | Ok lockBytes =>
          if decide (lockBytes = myKID) then
            let '(r, db) := ldb_Delete (getTruncateLockKey id) (md_locksDb md) in
            ((λ _, true) <$> r, set_locksDb db md)
          else (Err MDServerErrorLocked, md)
      end
  end.

(** *** Shutting down, and handles *)

Definition md_Shutdown (md : server) : server :=
  if md_shutdown md then md
  else MkMDServerLocal (ldb_Close (md_handleDb md)) (ldb_Close (md_mdDb md)) (ldb_Close (md_branchDb md))
         (ldb_Close (md_locksDb md)) (md_observers md) (md_sessionHeads md) true (md_chans md).

Definition isShutdown (md : server) : bool := md_shutdown md.
Definition IsConnected (md : server) : bool := negb (isShutdown md).

(** One handle of [addNewAssertionForTest]. *)
Definition add_assertion (uid : UID) (newAssertion : SocialAssertion) (entry : list byte * list byte)
    : go server unit := λ md,
  let '(handleBytes, id) := entry in
  match (handle ← Decode handleBytes;
         let newHandle := ResolveAssertions handle [(newAssertion, uid)] in
         if decide (handle = newHandle) then Ok None
         else newHandleBytes ← Encode newHandle; Ok (Some newHandleBytes)) with
  | Ok None => (Ok tt, md)
  | Ok (Some newHandleBytes) =>
      let '(r, db) := ldb_Put newHandleBytes id (md_handleDb md) in (r, set_handleDb db md)
  | Err e => (Err e, md)
  | Panic p => (Panic p, md)
  end.

Definition addNewAssertionForTest (uid : UID) (newAssertion : SocialAssertion) : go server unit := λ md,
  if md_shutdown md then (Err already_shut_down, md)
  else
    let '(l, err) := ldb_Iterate None (md_handleDb md) in
    match go_for l (add_assertion uid newAssertion) md with
    | (Ok _, md) => (match err with Some e => Err e | None => Ok tt end, md)
    | r => r
    end.

(** The last of the handles, in the order of their encodings, that have
    the id. *)
Fixpoint latest_handle (id : TlfID) (l : list (list byte * list byte)) (handle : option BareTlfHandle)
    : res (option BareTlfHandle) :=
  match l with
  | [] => Ok handle
  | (handleBytes, idBytes) :: l =>
      match TlfID_UnmarshalBinary idBytes NullTlfID with
      | (Err e, _) => Err e
      | (Panic p, _) => Panic p
      | (Ok _, dbID) =>
          if decide (id ≠ dbID) then latest_handle id l handle
          else h ← Decode handleBytes; latest_handle id l (Some h)
      end
  end.

Definition GetLatestHandleForTLF (id : TlfID) (md : server) : res (option BareTlfHandle) :=
  latest_handle id (fst (ldb_Iterate None (md_handleDb md))) None.

End server.
