(* ===== verification/MDServerSpec.v ===== *)
(** * MDServerSpec: what the local metadata server keeps

    The abstract state of the server is a history per folder and branch: a
    list of metadata, each the successor of the one before.  [holds] relates
    the databases to histories: the keys of revisions and of heads, in the
    order that range fetches read them.  Reads answer from the histories,
    an accepted [md_Put] extends one of them, and in every reachable state
    the histories are linked by revision numbers, hashes and disk usage.

    Branch ids are random; a range fetch on the merged branch would meet
    the keys of an unmerged branch whose id, read as a number, begins below
    the end of the range.  [L] separates them: revisions stay below [L],
    and branch ids begin above. *)

From Stdlib Require Import ZArith Lia Sorted.
From stdpp Require Import sorting numbers.
From S2P Require Import Prelude Types Errors GoStd Ids CryptoCommon DataTypes Ops ConflictInfo Handles KeyBundles Metadata LevelDb MDServer.

Abbreviation bare b := (rmds_MD (mbl_MD b)) (only parsing).
Abbreviation rev b := (bm_Revision (rmds_MD (mbl_MD b))) (only parsing).

(** ** Histories *)

Definition histories := gmap (TlfID * BranchID) (list mdBlockLocal).
Definition history (H : histories) (id : TlfID) (bid : BranchID) : list mdBlockLocal :=
  default [] ((H : gmap (TlfID * BranchID) (list mdBlockLocal)) !! (id, bid)).

(** The merged branch is the one without an id. *)
Definition status_of (bid : BranchID) : MergeStatus :=
  if decide (bid = NullBranchID) then Merged else Unmerged.

(** The first eight bytes of a branch id, as a number. *)
Definition bid_number (bid : BranchID) : Z := get_be (take 8 (branch_id bid)).

(** The metadata whose revision is in a range; a range that begins before
    the first revision has the head, too, and first. *)
Definition hist_range (h : list mdBlockLocal) (start limit : Z) : list mdBlockLocal :=
  (if decide (start < 1 ∧ 1 <= limit)%Z then option_list (last h) else []) ++
  filter (λ b, Z.max 1 start <= rev b < limit)%Z h.

Definition headKey (id : TlfID) (bid : BranchID) : list byte := getMDKey id 0%Z bid (status_of bid).
Definition revKey (id : TlfID) (bid : BranchID) (r : Z) : list byte := getMDKey id r bid (status_of bid).

(** ** Keys *)

Lemma status_of_Null : status_of NullBranchID = Merged.
Proof. done. Qed.

Lemma status_of_Unmerged bid : bid ≠ NullBranchID → status_of bid = Unmerged.
Proof. unfold status_of. by case_decide. Qed.

(** What stands between the folder and the revision. *)
Definition bid_part (bid : BranchID) : list byte :=
  if decide (bid = NullBranchID) then [] else branch_id bid.

Lemma key_low id bid r : (r < 1)%Z → getMDKey id r bid (status_of bid) = tlf_id id ++ bid_part bid.
Proof.
  intros Hr. unfold getMDKey, status_of, bid_part, MetadataRevisionInitial.
  repeat case_decide; simplify_eq/=; rewrite ?app_nil_r; try done; try lia; naive_solver.
Qed.

Lemma key_high id bid r : (1 <= r)%Z →
  getMDKey id r bid (status_of bid) = tlf_id id ++ bid_part bid ++ put_be 8 r.
Proof.
  intros Hr. unfold getMDKey, status_of, bid_part, MetadataRevisionInitial, MetadataRevisionUninitialized.
  repeat case_decide; naive_solver lia.
Qed.

Lemma length_bid_part bid : BranchID_wf bid →
  length (bid_part bid) = (if decide (bid = NullBranchID) then 0 else 16)%nat.
Proof. unfold bid_part. intros Hb. by case_decide. Qed.

Lemma bid_part_inj bid bid' : BranchID_wf bid → BranchID_wf bid' →
  length (bid_part bid) = length (bid_part bid') → bid_part bid = bid_part bid' → bid = bid'.
Proof.
  intros Hb Hb'. rewrite !length_bid_part by done. unfold bid_part.
  repeat case_decide; try congruence; try lia. destruct bid, bid'; naive_solver.
Qed.

(** Two keys are equal only when they name the same branch, and the same
    revision or both the head. *)
Lemma MDKey_inj id bid r id' bid' r' :
  TlfID_wf id → TlfID_wf id' → BranchID_wf bid → BranchID_wf bid' →
  (0 <= r < 2 ^ 63)%Z → (0 <= r' < 2 ^ 63)%Z →
  getMDKey id r bid (status_of bid) = getMDKey id' r' bid' (status_of bid') →
  id = id' ∧ bid = bid' ∧ r = r'.
Proof.
  unfold TlfID_wf. intros Hid Hid' Hb Hb' Hr Hr' Heq.
  pose proof (length_bid_part bid Hb) as Hl. pose proof (length_bid_part bid' Hb') as Hl'.
  assert (∀ r, (0 <= r < 2 ^ 63)%Z → ∃ z, getMDKey id r bid (status_of bid) = tlf_id id ++ bid_part bid ++ z ∧
    (r = 0 ∧ z = [] ∨ z = put_be 8 r ∧ 1 <= r)%Z) as Hk.
  { intros q Hq. destruct (decide (q < 1)%Z).
    - exists []. rewrite key_low by done. rewrite app_nil_r. naive_solver lia.
    - exists (put_be 8 q). rewrite key_high by lia. naive_solver lia. }
  destruct (Hk r Hr) as (z & Hz & Hcz). rewrite Hz in Heq. clear Hk Hz.
  assert (∃ z', getMDKey id' r' bid' (status_of bid') = tlf_id id' ++ bid_part bid' ++ z' ∧
    (r' = 0 ∧ z' = [] ∨ z' = put_be 8 r' ∧ 1 <= r')%Z) as (z' & Hz' & Hcz').
  { destruct (decide (r' < 1)%Z).
    - exists []. rewrite key_low by done. rewrite app_nil_r. naive_solver lia.
    - exists (put_be 8 r'). rewrite key_high by lia. naive_solver lia. }
  rewrite Hz' in Heq.
  apply app_inj_1 in Heq as [Hids Heq]; [|congruence].
  assert (length z = 0 ∨ length z = 8)%nat as Hlz.
  { destruct Hcz as [[_ ->]|[-> _]]; rewrite ?length_put_be; auto. }
  assert (length z' = 0 ∨ length z' = 8)%nat as Hlz'.
  { destruct Hcz' as [[_ ->]|[-> _]]; rewrite ?length_put_be; auto. }
  pose proof (f_equal length Heq) as Hlen. rewrite !length_app, Hl, Hl' in Hlen.
  assert (length (bid_part bid) = length (bid_part bid')) as Hlb.
  { rewrite Hl, Hl'. repeat case_decide; lia. }
  apply app_inj_1 in Heq as [Hbp Heq]; [|done].
  split; [destruct id, id'; naive_solver|]. split; [by apply bid_part_inj|].
  destruct Hcz as [[-> ->]|[-> Hr1]], Hcz' as [[-> ->]|[-> Hr1']]; [done..|].
  apply (f_equal get_be) in Heq. by rewrite !get_put_be in Heq by lia.
Qed.

(** The part of a key after the branch. *)
Definition rev_part (r : Z) : list byte := if decide (r < 1)%Z then [] else put_be 8 r.

Lemma MDKey_parts id bid r : getMDKey id r bid (status_of bid) = (tlf_id id ++ bid_part bid) ++ rev_part r.
Proof.
  unfold rev_part. case_decide; [rewrite key_low by done; by rewrite app_nil_r|].
  rewrite key_high by lia. by rewrite app_assoc.
Qed.

Lemma rev_part_lt r r' : (r < 2 ^ 63)%Z → (r' < 2 ^ 63)%Z →
  bytes_lt (rev_part r) (rev_part r') ↔ (Z.max 0 r < Z.max 0 r')%Z.
Proof.
  intros Hr Hr'. unfold rev_part. repeat case_decide.
  - split; [done|lia].
  - split; [lia|]. intros _. apply (bytes_lt_prefix []). intros Hnil.
    by apply (f_equal length) in Hnil.
  - split; [|lia]. by destruct (put_be 8 r).
  - rewrite bytes_lt_put_be by lia. lia.
Qed.

Lemma length_rev_part r : (length (rev_part r) <= 8)%nat.
Proof. unfold rev_part. case_decide; [simpl; lia|]. by rewrite length_put_be. Qed.

(** A branch id that begins above [limit] is no key of the merged branch
    below [limit]. *)
Lemma far_branch_key bid t limit :
  BranchID_wf bid → (limit < 2 ^ 63)%Z → (limit <= bid_number bid)%Z →
  ¬ bytes_lt (branch_id bid ++ t) (rev_part limit).
Proof.
  intros Hb Hl Hf. unfold rev_part. case_decide; [by destruct (branch_id bid ++ t)|].
  intros Hlt. rewrite <- (take_drop 8 (branch_id bid)), <- app_assoc in Hlt.
  assert (length (take 8 (branch_id bid)) = 8) as Hlen by (rewrite length_take, Hb; done).
  destruct (bytes_lt_total (take 8 (branch_id bid)) (put_be 8 limit)) as [Hc|[Hc|Hc]].
  - apply bytes_lt_get_be in Hc; [|by rewrite length_put_be].
    rewrite get_put_be in Hc by lia. unfold bid_number in Hf. lia.
  - rewrite Hc in Hlt. rewrite <- (app_nil_r (put_be 8 limit)) in Hlt at 2.
    apply bytes_lt_app_l in Hlt. by destruct (drop 8 (branch_id bid) ++ t).
  - apply (bytes_lt_app_r _ _ [] (drop 8 (branch_id bid) ++ t)) in Hc; [|by rewrite length_put_be].
    rewrite app_nil_r in Hc. eapply bytes_lt_irrefl, bytes_lt_trans; eassumption.
Qed.

(** ** Ranges *)

Lemma in_range_prefix p a b z :
  in_range (Some (p ++ a, p ++ b)) (p ++ z) = true ↔ ¬ bytes_lt z a ∧ bytes_lt z b.
Proof.
  unfold in_range. rewrite andb_true_iff, negb_true_iff, <- not_true_iff_false.
  fold (bytes_lt (p ++ z) (p ++ a)) (bytes_lt (p ++ z) (p ++ b)). by rewrite !bytes_lt_app_l.
Qed.

(** Which keys a range fetch meets. *)
Lemma range_keys id bid start limit id' bid' r' :
  TlfID_wf id → TlfID_wf id' → BranchID_wf bid → BranchID_wf bid' →
  (start < 2 ^ 63)%Z → (limit < 2 ^ 63)%Z → (0 <= r' < 2 ^ 63)%Z →
  (bid = NullBranchID → bid' ≠ NullBranchID → limit <= bid_number bid')%Z →
  in_range (Some (getMDKey id start bid (status_of bid), getMDKey id limit bid (status_of bid)))
    (getMDKey id' r' bid' (status_of bid')) = true ↔
  id' = id ∧ bid' = bid ∧ (Z.max 0 start <= r' < Z.max 0 limit)%Z.
Proof.
  intros Hid Hid' Hb Hb' Hs Hl Hr Hfar. rewrite !MDKey_parts. split.
  - intros Hin. assert (id' = id ∧ bid' = bid) as [-> ->].
    { pose proof Hin as Hin'. unfold in_range in Hin'.
      apply andb_true_iff in Hin' as [Hge%negb_true_iff%not_true_iff_false Hlt].
      destruct (bytes_between_prefix _ _ _ _ Hge Hlt) as [z Hz].
      pose proof Hz as Hz'. rewrite <- !app_assoc in Hz'.
      apply app_inj_1 in Hz' as [Hi Hz']; [|congruence].
      split; [destruct id, id'; naive_solver|].
      rewrite Hz in Hin. apply in_range_prefix in Hin as [_ Hzl].
      pose proof (length_rev_part r') as Hlr. pose proof (f_equal length Hz') as Hlen.
      rewrite !length_app, !length_bid_part in Hlen by done. unfold bid_part in Hz'.
      destruct (decide (bid' = NullBranchID)) as [->|Hn'], (decide (bid = NullBranchID)) as [->|Hn];
        [done| lia | |].
      - simpl in Hz'. subst z. exfalso. revert Hzl. apply far_branch_key; auto.
      - apply app_inj_1 in Hz' as [Hbb _]; [destruct bid, bid'; naive_solver|congruence]. }
    split; [done|]. split; [done|]. apply in_range_prefix in Hin as [H1 H2].
    rewrite rev_part_lt in H1, H2 by lia. lia.
  - intros (-> & -> & Hr'). apply in_range_prefix. rewrite !rev_part_lt by lia. lia.
Qed.

(** ** Linked histories *)

Section hashes.
Context `{Codec BareRootMetadata}.

(** [b'] is the next revision after [b]: it names the hash of [b], and
    accounts for the bytes it adds and removes. *)
Record follows (b b' : BareRootMetadata) : Prop := {
  fo_rev : bm_Revision b' = (bm_Revision b + 1)%Z;
  fo_prev : MakeMdID b = Ok (bm_PrevRoot b');
  fo_usage : bm_DiskUsage b' =
    if IsWriterMetadataCopiedSet b' then bm_DiskUsage b
    else to_u64 (bm_DiskUsage b + (bm_RefBytes b' - bm_UnrefBytes b'))
}.

Definition linked (h : list mdBlockLocal) : Prop :=
  ∀ i b b', h !! i = Some b → h !! S i = Some b' → follows (bare b) (bare b').

Lemma check_successor_follows b b' :
  (- 2 ^ 63 <= bm_Revision b < 2 ^ 63 - 1)%Z →
  check_successor b b' = Ok tt ↔ follows b b'.
Proof.
  intros Hb. unfold check_successor. rewrite to_i64_small by lia. split.
  - case_decide as Hr; [done|]. intros (h & Hh & H1)%bind_Ok.
    unfold mdserver_err in Hh. destruct (MakeMdID b) as [h'|e|p] eqn:Hid; simplify_eq.
    case_decide as Hp; [done|]. case_decide as Hu; [done|].
    split; [by rewrite Hr|by rewrite Hp, Hid|done].
  - intros [Hr Hp Hu]. rewrite decide_False by lia. rewrite Hp. simpl.
    rewrite decide_False by auto. by rewrite decide_False by auto.
Qed.

Lemma linked_snoc h b :
  linked h → (∀ b0, last h = Some b0 → follows (bare b0) (bare b)) → linked (h ++ [b]).
Proof.
  intros Hh Hlast i x y Hx Hy.
  destruct (decide (S i < length h)) as [Hlt|Hge].
  - rewrite lookup_app_l in Hx, Hy by lia. by eapply Hh.
  - pose proof (lookup_lt_Some _ _ _ Hy) as Hi. rewrite length_app in Hi. simpl in Hi.
    assert (S i = length h) as Hl by lia. rewrite Hl in Hy.
    rewrite lookup_app_r, Nat.sub_diag in Hy by lia. injection Hy as <-.
    rewrite lookup_app_l in Hx by lia. apply Hlast. rewrite last_lookup, <- Hl. done.
Qed.

Lemma linked_rev h i j b b' :
  linked h → h !! i = Some b → h !! j = Some b' → i <= j →
  rev b' = (rev b + Z.of_nat (j - i))%Z.
Proof.
  intros Hh Hi. revert b'. induction j as [|j IH]; intros b' Hj Hij.
  - assert (i = 0) as -> by lia. simplify_eq. simpl. lia.
  - destruct (decide (i = S j)) as [->|Hne]; [simplify_eq; rewrite Nat.sub_diag; lia|].
    destruct (lookup_lt_is_Some_2 h j) as [c Hc]; [apply lookup_lt_Some in Hj; lia|].
    rewrite (fo_rev _ _ (Hh j c b' Hc Hj)), (IH c Hc) by lia. lia.
Qed.

(** A revision stands for one metadata of the history. *)
Lemma linked_rev_inj h b b' : linked h → b ∈ h → b' ∈ h → rev b = rev b' → b = b'.
Proof.
  intros Hh [i Hi]%list_elem_of_lookup [j Hj]%list_elem_of_lookup Heq.
  assert (i = j) as ->; [|by simplify_eq].
  destruct (decide (i <= j)).
  - pose proof (linked_rev h i j b b' Hh Hi Hj). lia.
  - pose proof (linked_rev h j i b' b Hh Hj Hi). lia.
Qed.

Lemma linked_head_max h b b' : linked h → last h = Some b → b' ∈ h → (rev b' <= rev b)%Z.
Proof.
  intros Hh Hl [i Hi]%list_elem_of_lookup. rewrite last_lookup in Hl.
  pose proof (lookup_lt_Some _ _ _ Hi).
  rewrite (linked_rev h i (pred (length h)) b' b Hh Hi Hl) by lia. lia.
Qed.

(** In order of their keys. *)
Lemma linked_sorted h (P : mdBlockLocal → Prop) `{∀ b, Decision (P b)} :
  linked h → StronglySorted (λ b b', rev b < rev b')%Z (filter P h).
Proof.
  intros Hh. assert (StronglySorted (λ b b', rev b < rev b')%Z h) as Hs.
  { induction h as [|b h IH]; [constructor|]. constructor.
    - apply IH. intros i x y Hx Hy. by apply (Hh (S i)).
    - apply Forall_forall. intros x [j Hj]%list_elem_of_lookup.
      rewrite (linked_rev (b :: h) 0 (S j) b x Hh eq_refl Hj) by lia. lia. }
  clear Hh. induction Hs as [|b h Hs IH Hall]; [constructor|].
  rewrite filter_cons. case_decide; [|done]. constructor; [done|].
  rewrite Forall_forall in *. intros x [_ Hx]%list_elem_of_filter. auto.
Qed.

(** Every revision from the first to the head is there. *)
Lemma linked_dense h b0 b r : linked h → head h = Some b0 → last h = Some b →
  (rev b0 <= r <= rev b)%Z → ∃ x, x ∈ h ∧ rev x = r.
Proof.
  intros Hh H0 Hl Hr. rewrite head_lookup in H0. rewrite last_lookup in Hl.
  pose proof (linked_rev h 0 _ _ _ Hh H0 Hl) as Hb.
  destruct (lookup_lt_is_Some_2 h (Z.to_nat (r - rev b0))) as [x Hx].
  { apply lookup_lt_Some in Hl. lia. }
  exists x. split; [by eapply list_elem_of_lookup_2|].
  rewrite (linked_rev h 0 _ _ _ Hh H0 Hx) by lia. lia.
Qed.

Lemma seqZ_sorted m n : StronglySorted Z.lt (seqZ m n).
Proof.
  unfold seqZ. apply (StronglySorted_fmap _ lt); [lia|].
  generalize 0. induction (Z.to_nat n) as [|k IH]; intros j; simpl; constructor; [apply IH|].
  apply Forall_forall. intros x Hx%elem_of_seq. lia.
Qed.

Lemma lt_sorted_NoDup (l : list Z) : StronglySorted Z.lt l → NoDup l.
Proof.
  induction 1 as [|x l Hs IH Hall]; constructor; [|done].
  intros Hx. eapply Forall_forall in Hall; [|done]. lia.
Qed.

(** The revisions of a range within the history, without gaps. *)
Lemma linked_revisions h b0 b start stop : linked h → head h = Some b0 → last h = Some b →
  (rev b0 <= start)%Z → (stop <= rev b)%Z →
  (λ b, rev b) <$> filter (λ b, start <= rev b <= stop)%Z h = seqZ start (stop - start + 1).
Proof.
  intros Hh H0 Hl Hs He.
  assert (StronglySorted Z.lt ((λ b, rev b) <$> filter (λ b, start <= rev b <= stop)%Z h)) as Hsort.
  { eapply StronglySorted_fmap; [|by apply linked_sorted]. done. }
  apply (StronglySorted_unique_strong Z.lt); [lia|done|apply seqZ_sorted|].
  apply NoDup_Permutation; [by apply lt_sorted_NoDup|apply NoDup_seqZ|].
  intros r. rewrite elem_of_seqZ, list_elem_of_fmap. split.
  - intros (x & -> & [Hx _]%list_elem_of_filter). lia.
  - intros Hr. destruct (linked_dense h b0 b r Hh H0 Hl) as (x & Hx & <-); [lia|].
    exists x. split; [done|]. apply list_elem_of_filter. split; [lia|done].
Qed.
End hashes.

(** ** The databases hold the histories *)

Section holds.
Context {DB : Type} `{LevelDBLaws DB}.
Context `{Codec WriterMetadata, Codec SignatureInfo, Codec (gmap KID TLFCryptKeyInfo),
  Codec BareRootMetadata, Codec BareTlfHandle, Codec BranchID, Codec mdBlockLocal}.
Context `{!EncodeTotal mdBlockLocal, !EncodeTotal BranchID}.
(** Where the numbers of branch ids begin, and revisions end. *)
Context (L : Z) (HL : (L < 2 ^ 63)%Z).

Definition far (bid : BranchID) : Prop := bid = NullBranchID ∨ (L <= bid_number bid)%Z.

Record hist_ok (id : TlfID) (bid : BranchID) (h : list mdBlockLocal) : Prop := {
  ho_id : TlfID_wf id;
  ho_bid : BranchID_wf bid;
  ho_far : far bid;
  ho_nonempty : h ≠ [];
  ho_name b : b ∈ h →
    bm_ID (bare b) = id ∧ bm_BID (bare b) = bid ∧ MergedStatus (bare b) = status_of bid;
  ho_rev b : b ∈ h → (- 2 ^ 63 <= rev b < L)%Z;
  ho_linked : linked h
}.

(** The metadata under a key. *)
Definition stored (hs : histories) (k : list byte) (b : mdBlockLocal) : Prop :=
  ∃ id bid, (k = headKey id bid ∧ last (history hs id bid) = Some b) ∨
            (k = revKey id bid (rev b) ∧ b ∈ history hs id bid ∧ (1 <= rev b)%Z).

Definition histories_ok (hs : histories) : Prop :=
  ∀ id bid h, (hs : gmap _ _) !! (id, bid) = Some h → hist_ok id bid h.

(** The first revision of an unmerged branch follows a merged one. *)
Definition forks_ok (hs : histories) : Prop :=
  ∀ id bid b, bid ≠ NullBranchID → head (history hs id bid) = Some b →
    ∃ b0, b0 ∈ history hs id NullBranchID ∧ follows (bare b0) (bare b).

Definition md_map_ok (hs : histories) (m : gmap (list byte) (list byte)) : Prop :=
  ∀ k v, m !! k = Some v ↔ ∃ b, stored hs k b ∧ Encode b = Ok v.

(** The branch that a device of a folder is on. *)
Definition branches := gmap (TlfID * list byte) BranchID.

Definition branch_map_ok (hs : histories) (B : branches) (m : gmap (list byte) (list byte)) : Prop :=
  (∀ id kid v, TlfID_wf id →
     m !! (tlf_id id ++ kid) = Some v ↔
     ∃ bid, (B : gmap _ _) !! (id, kid) = Some bid ∧ Encode bid = Ok v) ∧
  (∀ id kid bid, (B : gmap _ _) !! (id, kid) = Some bid →
     bid ≠ NullBranchID ∧ history hs id bid ≠ []).

Record holds (md : MDServerLocal DB) (hs : histories) (B : branches) : Prop := {
  hd_md : ∃ m, ldb_map (md_mdDb md) = Some m ∧ md_map_ok hs m;
  hd_branch : ∃ m, ldb_map (md_branchDb md) = Some m ∧ branch_map_ok hs B m;
  hd_ok : histories_ok hs;
  hd_forks : forks_ok hs
}.

Lemma history_Some hs id bid b : b ∈ history hs id bid →
  (hs : gmap _ _) !! (id, bid) = Some (history hs id bid).
Proof. unfold history. destruct (_ !! _) eqn:E; [done|]. by intros ?%elem_of_nil. Qed.

Lemma history_hist_ok hs id bid b : histories_ok hs → b ∈ history hs id bid → hist_ok id bid (history hs id bid).
Proof. intros HH Hb. by eapply HH, history_Some. Qed.

Lemma history_linked hs id bid : histories_ok hs → linked (history hs id bid).
Proof.
  intros HH. unfold history. destruct (_ !! _) eqn:E; [by eapply ho_linked, HH|]. by intros i b b'.
Qed.

Lemma last_elem {A} (l : list A) x : last l = Some x → x ∈ l.
Proof. rewrite last_lookup. apply list_elem_of_lookup_2. Qed.

(** The key of a stored metadata, with revision 0 for a head. *)
Lemma stored_key hs k b : histories_ok hs → stored hs k b →
  ∃ id bid r, k = getMDKey id r bid (status_of bid) ∧ hist_ok id bid (history hs id bid) ∧
    (0 <= r < L ∨ r = 0)%Z ∧ b ∈ history hs id bid ∧
    (r = 0 ∧ last (history hs id bid) = Some b ∨ r = rev b ∧ 1 <= r)%Z.
Proof.
  intros HH (id & bid & [[-> Hl]|(-> & Hb & Hr)]).
  - exists id, bid, 0%Z. apply last_elem in Hl as Hb.
    split; [done|]. split; [by eapply history_hist_ok|]. auto.
  - exists id, bid, (rev b). pose proof (history_hist_ok hs id bid b HH Hb) as Hok.
    pose proof (ho_rev _ _ _ Hok b Hb). split; [done|]. split; [done|].
    split; [left; lia|]. auto.
Qed.

(** A stored key determines its metadata. *)
Lemma stored_head hs id bid b : histories_ok hs → TlfID_wf id → BranchID_wf bid →
  stored hs (headKey id bid) b → last (history hs id bid) = Some b.
Proof.
  intros HH Hid Hbid Hst. destruct (stored_key hs _ b HH Hst) as (id' & bid' & r & Hk & Hok & Hr & Hb & Hc).
  assert (id = id' ∧ bid = bid' ∧ 0%Z = r) as (-> & -> & <-).
  { apply (MDKey_inj id bid 0 id' bid' r); [done|apply Hok|done|apply Hok|lia|lia|done]. }
  destruct Hc as [[_ ?]|[? ?]]; [done|lia].
Qed.

Lemma getHeadForTLF_spec md hs B id bid : holds md hs B → TlfID_wf id → BranchID_wf bid →
  getHeadForTLF id bid (status_of bid) md = Ok (last (history hs id bid)).
Proof.
  intros [(m & Hm & Hmd) _ HH _] Hid Hbid. unfold getHeadForTLF.
  rewrite (ldb_Get_law _ m) by done. change (getMDKey id 0%Z bid (status_of bid)) with (headKey id bid).
  destruct (m !! headKey id bid) as [v|] eqn:E.
  - apply Hmd in E as (b & Hst & Henc). unfold rmdsFromBlockBytes.
    rewrite (Decode_Encode b v Henc). simpl. by rewrite (stored_head hs id bid b).
  - destruct (last (history hs id bid)) as [b|] eqn:El; [|done].
    destruct (Encode_total b) as [v Hv]. assert (m !! headKey id bid = Some v) by (apply Hmd; exists b; split; [exists id, bid; auto|done]).
    congruence.
Qed.

(** The entry of the database for a metadata of a branch. *)
Definition encoded (b : mdBlockLocal) : list byte :=
  match Encode b with Ok v => v | _ => [] end.

Lemma Encode_encoded b : Encode b = Ok (encoded b).
Proof. unfold encoded. by destruct (Encode_total b) as [v ->]. Qed.

Definition range_entries (id : TlfID) (bid : BranchID) (h : list mdBlockLocal) (start limit : Z)
    : list (list byte * list byte) :=
  (if decide (start < 1 ∧ 1 <= limit)%Z
   then (λ b, (headKey id bid, encoded b)) <$> option_list (last h) else []) ++
  ((λ b, (revKey id bid (rev b), encoded b)) <$> filter (λ b, Z.max 1 start <= rev b < limit)%Z h).

Lemma decode_all_app l l' rs rs' :
  decode_all l = Ok rs → decode_all l' = Ok rs' → decode_all (l ++ l') = Ok (rs ++ rs').
Proof.
  revert rs. induction l as [|[k v] l IH]; intros rs; simpl.
  - by intros [= <-].
  - intros (b & Hb & (bs & Hbs & [= <-])%bind_Ok)%bind_Ok Hl'. rewrite Hb. simpl.
    by rewrite (IH bs Hbs Hl').
Qed.

Lemma decode_all_map (f : mdBlockLocal → list byte) h : decode_all ((λ b, (f b, encoded b)) <$> h) = Ok h.
Proof.
  induction h as [|b h IH]; [done|]. rewrite fmap_cons. cbn [decode_all]. unfold rmdsFromBlockBytes.
  rewrite (Decode_Encode b _ (Encode_encoded b)). cbn [mdserver_err mbind res_bind]. by rewrite IH.
Qed.

Lemma decode_range_entries id bid h start limit :
  decode_all (range_entries id bid h start limit) = Ok (hist_range h start limit).
Proof.
  unfold range_entries, hist_range. apply decode_all_app; [|apply decode_all_map].
  case_decide; [apply decode_all_map|done].
Qed.

Lemma sorted_map {A} (f : A → list byte * list byte) (R : A → A → Prop) (l : list A) :
  StronglySorted R l → (∀ x y, x ∈ l → y ∈ l → R x y → key_lt (f x) (f y)) →
  StronglySorted key_lt (f <$> l).
Proof.
  intros Hs. induction Hs as [|x l Hs IH Hall]; intros Hf; simpl; constructor.
  - apply IH. intros y z Hy Hz. apply Hf; by right.
  - apply Forall_forall. intros e (y & -> & Hy)%list_elem_of_fmap.
    apply Hf; [by left|by right|]. by eapply Forall_forall in Hall.
Qed.

(** One entry, below all of the others. *)
Lemma sorted_head_then (o : list (list byte * list byte)) l :
  length o <= 1 → StronglySorted key_lt l → (∀ e e', e ∈ o → e' ∈ l → key_lt e e') →
  StronglySorted key_lt (o ++ l).
Proof.
  destruct o as [|e [|]]; simpl; [done| |lia]. intros _ Hl Hlt. constructor; [done|].
  apply Forall_forall. intros e' He'. apply Hlt; [by left|done].
Qed.

Lemma key_lt_rev {V} id bid r r' (v v' : V) : (r < 2 ^ 63)%Z → (r' < 2 ^ 63)%Z →
  (Z.max 0 r < Z.max 0 r')%Z →
  key_lt (getMDKey id r bid (status_of bid), v) (getMDKey id r' bid (status_of bid), v').
Proof.
  intros Hr Hr' Hlt. unfold key_lt. simpl. rewrite !MDKey_parts, bytes_lt_app_l.
  by apply rev_part_lt.
Qed.

Lemma range_entries_sorted id bid h start limit :
  hist_ok id bid h → StronglySorted key_lt (range_entries id bid h start limit).
Proof.
  intros Hok. apply sorted_head_then.
  - case_decide; [|simpl; lia]. destruct (last h); simpl; lia.
  - apply (sorted_map _ (λ b b', rev b < rev b')%Z); [apply linked_sorted, Hok|].
    intros x y [Hx Hx']%list_elem_of_filter [Hy Hy']%list_elem_of_filter Hlt.
    pose proof (ho_rev _ _ _ Hok x Hx'). pose proof (ho_rev _ _ _ Hok y Hy'). apply key_lt_rev; lia.
  - intros e e' He (y & -> & [Hy Hy']%list_elem_of_filter)%list_elem_of_fmap.
    case_decide; [|by apply elem_of_nil in He]. apply list_elem_of_fmap in He as (x & -> & _).
    pose proof (ho_rev _ _ _ Hok y Hy'). apply key_lt_rev; lia.
Qed.

(** What a range fetch reads. *)
Lemma read_range_spec md hs B id bid start limit :
  holds md hs B → TlfID_wf id → BranchID_wf bid → (start < 2 ^ 63)%Z → (limit < 2 ^ 63)%Z →
  (bid = NullBranchID → limit <= L)%Z →
  read_range (getMDKey id start bid (status_of bid)) (getMDKey id limit bid (status_of bid)) md =
    Ok (hist_range (history hs id bid) start limit).
Proof.
  intros [(m & Hm & Hmd) _ HH _] Hid Hbid Hst Hli Hfar. unfold read_range.
  destruct (ldb_Iterate_law _ m (Some (getMDKey id start bid (status_of bid),
    getMDKey id limit bid (status_of bid))) Hm) as (l & -> & Hsort & Hin).
  assert (l = range_entries id bid (history hs id bid) start limit) as ->.
  2: { rewrite decode_range_entries. done. }
  apply key_sorted_unique; [done| |].
  { destruct (history hs id bid) as [|b h] eqn:E.
    - unfold range_entries. rewrite filter_nil. simpl. case_decide; constructor.
    - rewrite <- E. apply range_entries_sorted, (history_hist_ok _ _ _ b); [done|rewrite E; by left]. }
  intros [k v]. rewrite Hin. unfold range_entries. rewrite elem_of_app. split.
  - intros [Hkv Hrange]. apply Hmd in Hkv as (b & Hsb & Henc).
    destruct (stored_key hs k b HH Hsb) as (id' & bid' & r & -> & Hok & Hr & Hb & Hc).
    apply range_keys in Hrange as (-> & -> & Hrr);
      [|first [done|apply Hok|lia]..|intros ->; intros Hn; pose proof (ho_far _ _ _ Hok) as [?|?]; [done|]; specialize (Hfar eq_refl); lia].
    assert (v = encoded b) as -> by (rewrite Encode_encoded in Henc; congruence).
    destruct Hc as [[-> Hl]|[-> Hr1]].
    + left. rewrite decide_True by lia. rewrite Hl. apply list_elem_of_singleton. done.
    + right. apply list_elem_of_fmap. exists b. split; [done|]. apply list_elem_of_filter. split; [lia|done].
  - intros [He|He].
    + case_decide as Hsl; [|by apply elem_of_nil in He].
      apply list_elem_of_fmap in He as (b & [= -> ->] & Hb).
      destruct (last (history hs id bid)) as [b'|] eqn:El; [|by apply elem_of_nil in Hb].
      apply list_elem_of_singleton in Hb as ->. split.
      * apply Hmd. exists b'. split; [exists id, bid; auto|apply Encode_encoded].
      * apply range_keys; [first [done|lia]..|naive_solver|]. split; [done|]. split; [done|lia].
    + apply list_elem_of_fmap in He as (b & [= -> ->] & [Hr Hb]%list_elem_of_filter). split.
      * apply Hmd. exists b. split; [exists id, bid; right; split; [done|]; split; [done|lia]|apply Encode_encoded].
      * pose proof (ho_rev _ _ _ (history_hist_ok _ _ _ _ HH Hb) b Hb).
        apply range_keys; [first [done|lia]..|naive_solver|]. split; [done|]. split; [done|lia].
Qed.

(** ** Reading *)

Lemma getBranchID_spec md hs B ss id kid : holds md hs B → TlfID_wf id → ss_kid ss = Ok kid →
  getBranchID ss id md = Ok (default NullBranchID ((B : gmap _ _) !! (id, ToBytes kid))).
Proof.
  intros [_ (m & Hm & Hb & _) _ _] Hid Hkid. unfold getBranchID, getBranchKey. rewrite Hkid. simpl.
  rewrite (ldb_Get_law _ m) by done. destruct (m !! _) as [v|] eqn:E.
  - apply Hb in E as (bid & -> & Henc); [|done]. by rewrite (Decode_Encode bid v Henc).
  - destruct ((B : gmap _ _) !! _) as [bid|] eqn:EB; [|done].
    destruct (Encode_total bid) as [v Hv].
    assert (m !! (tlf_id id ++ ToBytes kid) = Some v) by (apply Hb; eauto). congruence.
Qed.

(** The branch a read of [bid] with [mStatus] is about: for an unmerged
    read without an id, the branch the device is on. *)
Definition selects (B : branches) (ss : Session) (id : TlfID) (bid : BranchID) (mStatus : MergeStatus)
    (bid' : BranchID) : Prop :=
  match mStatus with
  | Merged => bid = NullBranchID ∧ bid' = NullBranchID
  | Unmerged =>
      if decide (bid = NullBranchID)
      then ∃ kid, ss_kid ss = Ok kid ∧ (B : gmap _ _) !! (id, ToBytes kid) = Some bid'
      else bid' = bid
  end.

Lemma check_read_spec md hs B ss id bid mStatus bid' :
  holds md hs B → md_shutdown md = false → TlfID_wf id → isReader ss id md = Ok true →
  selects B ss id bid mStatus bid' →
  check_read ss id bid mStatus md = Ok (Some bid') ∧ status_of bid' = mStatus.
Proof.
  intros Hh Hsd Hid Hr Hsel. unfold check_read. rewrite Hsd, Hr. unfold selects in Hsel.
  destruct mStatus.
  - destruct Hsel as [-> ->]. rewrite decide_False by naive_solver. cbn [mdserver_err mbind res_bind negb].
    by rewrite decide_False by naive_solver.
  - rewrite decide_False by naive_solver. cbn [mdserver_err mbind res_bind negb].
    destruct (decide (bid = NullBranchID)) as [Hb|Hb].
    + rewrite decide_True by done. destruct Hsel as (kid & Hkid & HB).
      rewrite (getBranchID_spec md hs B ss id kid) by done. rewrite HB. simpl.
      destruct (hd_branch _ _ _ Hh) as (m & _ & _ & Hne). destruct (Hne _ _ _ HB) as [Hn _].
      rewrite (decide_False (P := bid' = NullBranchID)) by done. split; [done|by apply status_of_Unmerged].
    + rewrite decide_False by naive_solver. subst bid'. split; [done|by apply status_of_Unmerged].
Qed.

Lemma GetRange_history md hs B ss id bid mStatus bid' start stop :
  holds md hs B → md_shutdown md = false → TlfID_wf id → BranchID_wf bid' → isReader ss id md = Ok true →
  selects B ss id bid mStatus bid' →
  (start < 2 ^ 63)%Z → (mStatus = Merged → to_i64 (stop + 1) <= L)%Z →
  GetRange ss id bid mStatus start stop md =
    Ok (hist_range (history hs id bid') start (to_i64 (stop + 1))).
Proof.
  intros Hh Hsd Hid Hbid Hr Hsel Hst Hlim. unfold GetRange.
  destruct (check_read_spec md hs B ss id bid mStatus bid') as [-> Hs]; [done..|].
  simpl. rewrite <- Hs. eapply read_range_spec; [done..| |].
  - unfold to_i64. cbv zeta. pose proof (Z.mod_pos_bound (stop + 1) (2 ^ 64) ltac:(lia)).
    case_match eqn:E; rewrite ?Z.ltb_lt, ?Z.ltb_ge in E; lia.
  - intros ->. by apply Hlim.
Qed.

(** ** Writing *)

Definition append (hs : histories) (b : mdBlockLocal) : histories :=
  <[(bm_ID (bare b), bm_BID (bare b)) := history hs (bm_ID (bare b)) (bm_BID (bare b)) ++ [b]]>
    (hs : gmap (TlfID * BranchID) (list mdBlockLocal)).

Lemma history_append_eq hs b :
  history (append hs b) (bm_ID (bare b)) (bm_BID (bare b)) =
    history hs (bm_ID (bare b)) (bm_BID (bare b)) ++ [b].
Proof. unfold history, append. by rewrite lookup_insert_eq. Qed.

Lemma history_append_ne hs b id bid :
  (id, bid) ≠ (bm_ID (bare b), bm_BID (bare b)) → history (append hs b) id bid = history hs id bid.
Proof. intros Hne. unfold history, append. by rewrite lookup_insert_ne. Qed.

Lemma revKey_low id bid r : (r < 1)%Z → revKey id bid r = headKey id bid.
Proof. intros Hr. unfold revKey, headKey. by rewrite !key_low. Qed.

(** What a new head of its branch has to satisfy. *)
Record extends (hs : histories) (b : mdBlockLocal) : Prop := {
  ex_id : TlfID_wf (bm_ID (bare b));
  ex_bid : BranchID_wf (bm_BID (bare b));
  ex_far : far (bm_BID (bare b));
  ex_rev : (- 2 ^ 63 <= rev b < L)%Z;
  ex_status : MergedStatus (bare b) = status_of (bm_BID (bare b));
  ex_follows b0 : last (history hs (bm_ID (bare b)) (bm_BID (bare b))) = Some b0 →
    follows (bare b0) (bare b);
  ex_fork : bm_BID (bare b) ≠ NullBranchID → history hs (bm_ID (bare b)) (bm_BID (bare b)) = [] →
    ∃ b0, b0 ∈ history hs (bm_ID (bare b)) NullBranchID ∧ follows (bare b0) (bare b)
}.

(** No other key clashes with those of the new head. *)
Lemma stored_fresh hs b k b' : histories_ok hs → extends hs b → stored hs k b' →
  k ≠ headKey (bm_ID (bare b)) (bm_BID (bare b)) → k ≠ revKey (bm_ID (bare b)) (bm_BID (bare b)) (rev b).
Proof.
  intros HH Hex Hst Hne Hk. destruct (decide (rev b < 1)%Z) as [Hlow|Hhigh].
  { by rewrite revKey_low in Hk by done. }
  destruct (stored_key hs k b' HH Hst) as (id' & bid' & r & -> & Hok & Hr & Hb & Hc).
  destruct Hex as [Hid Hbid Hfar Hrev Hstat Hfol _].
  apply MDKey_inj in Hk as (-> & -> & ->); [|first [done|apply Hok|lia]..].
  destruct Hc as [[? _]|[Heq _]]; [lia|].
  destruct (last (history hs (bm_ID (bare b)) (bm_BID (bare b)))) as [b0|] eqn:El.
  - pose proof (fo_rev _ _ (Hfol b0 eq_refl)).
    pose proof (linked_head_max _ b0 b' (history_linked hs _ _ HH) El Hb). lia.
  - apply last_None in El. rewrite El in Hb. by apply elem_of_nil in Hb.
Qed.

Lemma stored_append hs b k b' : histories_ok hs → extends hs b →
  stored (append hs b) k b' ↔
  ((k = headKey (bm_ID (bare b)) (bm_BID (bare b)) ∨ k = revKey (bm_ID (bare b)) (bm_BID (bare b)) (rev b)) ∧ b' = b) ∨
  (k ≠ headKey (bm_ID (bare b)) (bm_BID (bare b)) ∧ stored hs k b').
Proof.
  intros HH Hex. set (id := bm_ID (bare b)) in *. set (bid := bm_BID (bare b)) in *.
  assert (∀ id' bid' r', hist_ok id' bid' (history hs id' bid') → (0 <= r' < 2 ^ 63)%Z →
    getMDKey id' r' bid' (status_of bid') = headKey id bid → id' = id ∧ bid' = bid ∧ r' = 0%Z) as Hinj.
  { intros id' bid' r' Hok Hr' Hk. apply MDKey_inj in Hk; [done|apply Hok|apply Hex|apply Hok|apply Hex|lia|lia]. }
  split.
  - intros (id' & bid' & Hst). destruct (decide ((id', bid') = (id, bid))) as [[= -> ->]|Hne].
    + unfold id, bid in Hst. rewrite history_append_eq in Hst. fold id bid in Hst.
      destruct Hst as [[-> Hl]|(-> & [Hb| ->%list_elem_of_singleton]%elem_of_app & Hr)].
      * rewrite last_snoc in Hl. simplify_eq. auto.
      * right. pose proof (history_hist_ok _ _ _ _ HH Hb) as Hok.
        pose proof (ho_rev _ _ _ Hok b' Hb). split.
        -- intros Hk. apply Hinj in Hk as (_ & _ & ?); [lia|done|lia].
        -- exists id, bid. auto.
      * auto.
    + rewrite history_append_ne in Hst by done. right.
      assert (stored hs k b') as Hst' by (by exists id', bid'). split; [|done].
      destruct (stored_key hs k b' HH Hst') as (id2 & bid2 & r2 & -> & Hok & Hr & Hb & Hc). intros Hk.
      apply Hinj in Hk as (-> & -> & ->); [|done|lia].
      destruct Hst as [[Hk' Hl]|(Hk' & Hb' & Hr')];
        (apply MDKey_inj in Hk' as (-> & -> & ?); [done|apply Hex| |apply Hex| |lia|]).
      * by eapply ho_id, history_hist_ok, last_elem.
      * by eapply ho_bid, history_hist_ok, last_elem.
      * lia.
      * by eapply ho_id, history_hist_ok.
      * by eapply ho_bid, history_hist_ok.
      * pose proof (ho_rev _ _ _ (history_hist_ok _ _ _ _ HH Hb') b' Hb'). lia.
  - intros [[Hk ->]|[Hk Hst]].
    + destruct (decide (k = headKey id bid)) as [->|Hnk].
      * exists id, bid. left. split; [done|]. unfold id, bid. rewrite history_append_eq. apply last_snoc.
      * destruct Hk as [Hk|Hk]; [done|]. destruct (decide (rev b < 1)%Z); [by rewrite revKey_low in Hk|].
        exists id, bid. right. split; [done|]. unfold id, bid. rewrite history_append_eq.
        split; [|lia]. apply elem_of_app. right. by apply list_elem_of_singleton.
    + destruct Hst as (id' & bid' & Hst). exists id', bid'.
      destruct (decide ((id', bid') = (id, bid))) as [[= -> ->]|Hne]; [|by rewrite history_append_ne].
      destruct Hst as [[-> _]|(-> & Hb & Hr)]; [done|]. right. split; [done|].
      unfold id, bid. rewrite history_append_eq. split; [by apply elem_of_app; left|done].
Qed.

Lemma md_map_ok_append hs b m v : histories_ok hs → extends hs b → Encode b = Ok v → md_map_ok hs m →
  md_map_ok (append hs b)
    (put_batch [(revKey (bm_ID (bare b)) (bm_BID (bare b)) (rev b), v);
                (headKey (bm_ID (bare b)) (bm_BID (bare b)), v)] m).
Proof.
  intros HH Hex Hv Hm k w. unfold put_batch. cbn [foldl fst snd].
  set (hk := headKey _ _). set (rk := revKey _ _ _).
  assert (∀ b', stored (append hs b) k b' ↔ ((k = hk ∨ k = rk) ∧ b' = b) ∨ (k ≠ hk ∧ stored hs k b')) as Hst
    by (intros b'; by apply stored_append).
  setoid_rewrite Hst. destruct (decide (k = hk)) as [->|Hnh]; [|destruct (decide (k = rk)) as [->|Hnr]].
  - rewrite lookup_insert_eq. naive_solver congruence.
  - rewrite lookup_insert_ne, lookup_insert_eq by done. split.
    + intros [= <-]. exists b. auto.
    + intros (b' & [[_ ->]|[_ Hb']] & Hw); [congruence|].
      by destruct (stored_fresh hs b rk b' HH Hex Hb').
  - rewrite !lookup_insert_ne by done. rewrite (Hm k w). naive_solver.
Qed.

Lemma histories_ok_append hs b : histories_ok hs → extends hs b → histories_ok (append hs b).
Proof.
  intros HH Hex id bid h Hh.
  destruct (decide ((id, bid) = (bm_ID (bare b), bm_BID (bare b)))) as [[= -> ->]|Hne].
  2: { unfold append in Hh. rewrite lookup_insert_ne in Hh by done. by apply HH. }
  unfold append in Hh. rewrite lookup_insert_eq in Hh. injection Hh as <-.
  assert (∀ x, x ∈ history hs (bm_ID (bare b)) (bm_BID (bare b)) ++ [b] →
    x ∈ history hs (bm_ID (bare b)) (bm_BID (bare b)) ∨ x = b) as Hx.
  { intros x [?| ->%list_elem_of_singleton]%elem_of_app; auto. }
  destruct Hex as [? ? ? ? ? Hfol ?]. split; try done.
  - intros Hnil. by apply app_eq_nil in Hnil as [_ ?].
  - intros x [Hi| ->]%Hx; [|done]. by eapply ho_name; [eapply history_hist_ok|].
  - intros x [Hi| ->]%Hx; [|done]. by eapply ho_rev; [eapply history_hist_ok|].
  - apply linked_snoc; [by apply history_linked|done].
Qed.

Lemma forks_ok_append hs b : extends hs b → forks_ok hs → forks_ok (append hs b).
Proof.
  intros Hex Hf id bid b1 Hn Hhd.
  assert (∀ b0, b0 ∈ history hs id NullBranchID → b0 ∈ history (append hs b) id NullBranchID) as Hmono.
  { intros b0 Hb0. destruct (decide ((id, NullBranchID) = (bm_ID (bare b), bm_BID (bare b)))) as [[= -> Hn0]|Hne].
    - rewrite Hn0 in Hb0 |- *. rewrite history_append_eq. by apply elem_of_app; left.
    - by rewrite history_append_ne. }
  assert (∃ b0, b0 ∈ history hs id NullBranchID ∧ follows (bare b0) (bare b1)) as (b0 & Hb0 & Hfo);
    [|by eauto].
  destruct (decide ((id, bid) = (bm_ID (bare b), bm_BID (bare b)))) as [[= -> ->]|Hne].
  - rewrite history_append_eq in Hhd.
    destruct (history hs (bm_ID (bare b)) (bm_BID (bare b))) as [|x h] eqn:E; simpl in Hhd; simplify_eq.
    + by apply (ex_fork _ _ Hex).
    + apply (Hf _ _ _ Hn). by rewrite E.
  - rewrite history_append_ne in Hhd by done. by apply (Hf _ _ _ Hn).
Qed.

Lemma history_append_nonempty hs b id bid : history hs id bid ≠ [] → history (append hs b) id bid ≠ [].
Proof.
  intros Hne. destruct (decide ((id, bid) = (bm_ID (bare b), bm_BID (bare b)))) as [[= -> ->]|].
  - rewrite history_append_eq. by intros [? ?]%app_eq_nil.
  - by rewrite history_append_ne.
Qed.

Lemma branch_map_ok_append hs b B m : branch_map_ok hs B m → branch_map_ok (append hs b) B m.
Proof.
  intros [Hb1 Hb2]. split; [done|]. intros id kid bid HB. destruct (Hb2 _ _ _ HB) as [? ?].
  split; [done|]. by apply history_append_nonempty.
Qed.

(** A device begins a branch, which has revisions. *)
Lemma branch_map_ok_insert hs B m id kid bid v :
  TlfID_wf id → bid ≠ NullBranchID → history hs id bid ≠ [] → Encode bid = Ok v →
  branch_map_ok hs B m →
  branch_map_ok hs (<[(id, kid) := bid]> (B : gmap _ _)) (<[tlf_id id ++ kid := v]> m).
Proof.
  intros Hid Hn Hh Hv [Hb1 Hb2]. split.
  - intros id' kid' w Hid'. destruct (decide ((id', kid') = (id, kid))) as [[= -> ->]|Hne].
    + rewrite !lookup_insert_eq. split; [intros [= <-]; eauto|]. intros (? & [= <-] & ?). congruence.
    + rewrite (lookup_insert_ne (B : gmap _ _)) by done. rewrite lookup_insert_ne; [by apply Hb1|].
      intros [Hi ->]%app_inj_1; [|by rewrite Hid, Hid']. destruct id, id'; naive_solver.
  - intros id' kid' bid' HB. destruct (decide ((id', kid') = (id, kid))) as [[= -> ->]|Hne].
    + rewrite lookup_insert_eq in HB. injection HB as <-. done.
    + rewrite lookup_insert_ne in HB by done. by eapply Hb2.
Qed.

Lemma branch_map_ok_delete hs B m id kid :
  TlfID_wf id → branch_map_ok hs B m →
  branch_map_ok hs (delete (id, kid) (B : gmap _ _)) (delete (tlf_id id ++ kid) m).
Proof.
  intros Hid [Hb1 Hb2]. split.
  - intros id' kid' w Hid'. destruct (decide ((id', kid') = (id, kid))) as [[= -> ->]|Hne].
    + rewrite !lookup_delete_eq. naive_solver.
    + rewrite (lookup_delete_ne (B : gmap _ _)) by done. rewrite lookup_delete_ne; [by apply Hb1|].
      intros [Hi ->]%app_inj_1; [|by rewrite Hid, Hid']. destruct id, id'; naive_solver.
  - intros id' kid' bid' [_ HB]%lookup_delete_Some. by eapply Hb2.
Qed.

End holds.
