(* ===== verification/MDServerOps.v ===== *)
(** * MDServerOps: the operations of the local metadata server

    Correctness of the exported operations of [MDServer] against the
    histories of [MDServerSpec]: what an accepted or refused [md_Put] does,
    the observers it fires, range fetches, the locks of truncation, and the
    invariant of every reachable state. *)

From Stdlib Require Import ZArith Lia Sorted.
From stdpp Require Import sorting numbers.
From S2P Require Import Prelude Types Errors GoStd Ids CryptoCommon DataTypes Ops ConflictInfo Handles KeyBundles Metadata LevelDb MDServer MDServerSpec.

(** ** Observers *)

Definition fired : errChan := MkErrChan [None] true.
Definition waiting : errChan := MkErrChan [] false.

Lemma fire_observers_spec self l rest chans :
  (∀ k c, (k, c) ∈ l → k ≠ self → chans !! c = Some waiting) → NoDup l.*2 →
  ∃ rest' chans', fire_observers self l rest chans = Ok (rest', chans') ∧
    (∀ k, rest' !! k = if decide (k ≠ self ∧ k ∈ l.*1) then None else rest !! k) ∧
    (∀ c, (∃ k, k ≠ self ∧ (k, c) ∈ l) → chans' !! c = Some fired) ∧
    (∀ c, (∀ k, (k, c) ∈ l → k = self) → chans' !! c = chans !! c).
Proof.
  revert rest chans. induction l as [|[k c] l IH]; intros rest chans Hopen Hnd.
  { exists rest, chans. split; [done|]. split; [|split]; [|by intros ? (? & _ & ?%elem_of_nil)|done].
    intros k. rewrite decide_False; [done|]. by intros [_ ?%elem_of_nil]. }
  apply NoDup_cons in Hnd as [Hc Hnd]. cbn [fire_observers].
  destruct (decide (k = self)) as [->|Hk].
  - destruct (IH rest chans) as (rest' & chans' & Heq & H1 & H2 & H3); [set_solver|done|].
    exists rest', chans'. split; [done|]. split; [|split].
    + intros k'. rewrite H1. apply decide_ext. set_solver.
    + intros c' (k' & Hk' & [[= -> ->]|?]%elem_of_cons); [done|]. apply H2. eauto.
    + intros c' Hc'. apply H3. intros k' ?. apply Hc'. by right.
  - pose proof (Hopen k c ltac:(by left) Hk) as Hop. unfold send_and_close. rewrite Hop.
    cbn [ch_closed ch_buf waiting]. rewrite decide_False by auto. cbn [mbind res_bind].
    destruct (IH (delete k rest) (<[c := MkErrChan [None] true]> chans))
      as (rest' & chans' & Heq & H1 & H2 & H3); [|done|].
    { intros k' c' Hin Hk'. rewrite list_lookup_insert_ne; [by eapply Hopen; [right|]|].
      intros <-. apply Hc. apply list_elem_of_fmap. by exists (k', c). }
    exists rest', chans'. split; [done|].
    assert (chans' !! c = Some fired) as Hfired.
    { rewrite H3; [|intros k' ?; destruct Hc; apply list_elem_of_fmap; by exists (k', c)].
      rewrite list_lookup_insert_eq; [done|]. by eapply lookup_lt_Some. }
    split; [|split].
    + intros k'. rewrite H1. destruct (decide (k' = k)) as [->|Hne].
      * rewrite lookup_delete_eq. destruct (decide (k ≠ self ∧ k ∈ ((k, c) :: l).*1)) as [|Hn]; [by case_decide|].
        destruct Hn. set_solver.
      * rewrite lookup_delete_ne by done. apply decide_ext. set_solver.
    + intros c' (k' & Hk' & [[= -> ->]|?]%elem_of_cons); [done|]. apply H2. eauto.
    + intros c' Hc'. rewrite H3; [|intros k' ?; apply Hc'; by right].
      apply list_lookup_insert_ne. intros <-. by apply Hk, (Hc' k); left.
Qed.

(** Every registered channel is open and empty, and registered once. *)
Record obs_ok {DB} (md : MDServerLocal DB) : Prop := {
  oo_open id obs k c : md_observers md !! id = Some obs → obs !! k = Some c → md_chans md !! c = Some waiting;
  oo_once id obs k id' obs' k' c : md_observers md !! id = Some obs → obs !! k = Some c →
    md_observers md !! id' = Some obs' → obs' !! k' = Some c → id = id' ∧ k = k'
}.

(** The channel a session waits on for a folder. *)
Definition observer {DB} (md : MDServerLocal DB) (id : TlfID) (self : nat) : option nat :=
  md_observers md !! id ≫= λ obs, obs !! self.

Lemma observer_obs {DB} (md : MDServerLocal DB) id k :
  default ∅ (md_observers md !! id) !! k = observer md id k.
Proof. unfold observer. destruct (md_observers md !! id); simpl; [done|]. apply lookup_empty. Qed.

Lemma observer_Some {DB} (md : MDServerLocal DB) id k c :
  observer md id k = Some c → ∃ obs, md_observers md !! id = Some obs ∧ obs !! k = Some c.
Proof. unfold observer. destruct (md_observers md !! id); naive_solver. Qed.

Lemma obs_ok_observers {DB} (md : MDServerLocal DB) : obs_ok md ↔
  (∀ id k c, observer md id k = Some c → md_chans md !! c = Some waiting) ∧
  (∀ id k id' k' c, observer md id k = Some c → observer md id' k' = Some c → id = id' ∧ k = k').
Proof.
  unfold observer. split.
  - intros [Ho Hn]. split.
    + intros id k c (obs & Hobs & Hk)%bind_Some. eauto.
    + intros id k id' k' c (obs & Hobs & Hk)%bind_Some (obs' & Hobs' & Hk')%bind_Some. eauto.
  - intros [Ho Hn]. split.
    + intros id obs k c Hobs Hk. apply (Ho id k). by rewrite Hobs.
    + intros id obs k id' obs' k' c Hobs Hk Hobs' Hk'. apply (Hn id k id' k' c); by rewrite ?Hobs, ?Hobs'.
Qed.

(** A new merged revision, other than a rekey, is worth a notification. *)
Definition notifies (rmds : BareRootMetadata) : bool :=
  bool_decide (MergedStatus rmds = Merged) && negb (IsRekeySet rmds && IsWriterMetadataCopiedSet rmds).

Record same_dbs {DB} (md md' : MDServerLocal DB) : Prop := {
  sd_handle : md_handleDb md' = md_handleDb md;
  sd_md : md_mdDb md' = md_mdDb md;
  sd_branch : md_branchDb md' = md_branchDb md;
  sd_locks : md_locksDb md' = md_locksDb md;
  sd_shutdown : md_shutdown md' = md_shutdown md
}.

(** The observers that are left, and the channels, after a notification. *)
Record notified {DB} (ss : Session) (id : TlfID) (md md' : MDServerLocal DB) : Prop := {
  no_head : md_sessionHeads md' !! id = Some (ss_self ss);
  no_gone k : k ≠ ss_self ss → observer md' id k = None;
  no_kept : observer md' id (ss_self ss) = observer md id (ss_self ss);
  no_other id' k : id' ≠ id → observer md' id' k = observer md id' k;
  no_fired k c : k ≠ ss_self ss → observer md id k = Some c → md_chans md' !! c = Some fired;
  no_quiet c : (∀ k, k ≠ ss_self ss → observer md id k ≠ Some c) → md_chans md' !! c = md_chans md !! c
}.

Lemma notified_obs_ok {DB} ss id (md md' : MDServerLocal DB) : notified ss id md md' → obs_ok md → obs_ok md'.
Proof.
  intros [_ Hgone Hkept Hother Hfired Hquiet] [Hopen Honce]%obs_ok_observers. apply obs_ok_observers.
  assert (∀ id' k c, observer md' id' k = Some c → observer md id' k = Some c ∧ (id' ≠ id ∨ k = ss_self ss)) as Hsub.
  { intros id' k c Hc. destruct (decide (id' = id)) as [->|]; [|rewrite Hother in Hc by done; auto].
    destruct (decide (k = ss_self ss)) as [->|]; [rewrite Hkept in Hc; auto|].
    by rewrite Hgone in Hc. }
  split.
  - intros id' k c [Hc Hd]%Hsub. rewrite Hquiet; [by eapply Hopen|].
    intros k' Hk' Hc'. destruct (Honce _ _ _ _ _ Hc Hc') as [-> ->]. naive_solver.
  - intros id1 k1 id2 k2 c [H1 _]%Hsub [H2 _]%Hsub. by eapply Honce.
Qed.

Lemma notify_spec {DB} ss rmds (md : MDServerLocal DB) : obs_ok md →
  ∃ md', notify ss rmds md = (Ok tt, md') ∧ same_dbs md md' ∧
    if notifies rmds then notified ss (bm_ID rmds) md md' else md' = md.
Proof.
  intros Hok. pose proof Hok as [Hopen Honce]%obs_ok_observers. unfold notify, notifies.
  destruct (_ && _); [|by exists md].
  set (id := bm_ID rmds). set (obs := default ∅ (md_observers md !! id)).
  assert (∀ k c, (k, c) ∈ map_to_list obs ↔ observer md id k = Some c) as Hobs.
  { intros k c. unfold obs. by rewrite elem_of_map_to_list, observer_obs. }
  destruct (fire_observers_spec (ss_self ss) (map_to_list obs) obs (md_chans md))
    as (rest & chans & -> & Hrest & Hfired & Hquiet).
  { intros k c Hc%Hobs _. by eapply Hopen. }
  { apply NoDup_fmap_2_strong; [|apply NoDup_map_to_list].
    intros [k c] [k' c'] Hc%Hobs Hc'%Hobs Heq. simpl in Heq. subst c'.
    destruct (Honce _ _ _ _ _ Hc Hc') as [_ ->]. done. }
  eexists. split; [done|]. split; [done|].
  assert (∀ id' k, observer (set_observers (if decide (size rest = 0) then delete id (md_observers md)
    else <[id := rest]> (md_observers md)) (<[id := ss_self ss]> (md_sessionHeads md)) chans md) id' k =
    if decide (id' = id) then rest !! k else observer md id' k) as Hobs'.
  { intros id' k. unfold observer. simpl. destruct (decide (id' = id)) as [->|Hne]; case_decide as Hsz.
    - apply map_size_empty_iff in Hsz as ->. by rewrite lookup_delete_eq, lookup_empty.
    - by rewrite lookup_insert_eq.
    - by rewrite lookup_delete_ne.
    - by rewrite lookup_insert_ne. }
  split.
  - simpl. apply lookup_insert_eq.
  - intros k Hk. rewrite Hobs', decide_True by done. rewrite Hrest.
    destruct (decide (k ≠ ss_self ss ∧ k ∈ (map_to_list obs).*1)) as [|Hd]; [done|].
    unfold obs. rewrite observer_obs. destruct (observer md id k) as [c|] eqn:E; [|done].
    destruct Hd. split; [done|]. apply list_elem_of_fmap. exists (k, c). split; [done|by apply Hobs].
  - rewrite Hobs', decide_True by done. rewrite Hrest, decide_False by naive_solver.
    unfold obs. by rewrite observer_obs.
  - intros id' k Hne. by rewrite Hobs', decide_False.
  - intros k c Hk Hc. apply Hfired. exists k. split; [done|by apply Hobs].
  - intros c Hc. apply Hquiet. intros k Hk%Hobs. apply dec_stable. intros Hne. by apply (Hc k).
Qed.

(** ** Putting metadata *)

Section ops.
Context {DB : Type} `{LevelDBLaws DB}.
Context `{Codec WriterMetadata, Codec SignatureInfo, Codec (gmap KID TLFCryptKeyInfo),
  Codec BareRootMetadata, Codec BareTlfHandle, Codec BranchID, Codec mdBlockLocal}.
Context `{!EncodeTotal mdBlockLocal, !EncodeTotal BranchID}.
Context (L : Z) (HL : (L < 2 ^ 63)%Z).

(** The metadata a client may send: identifiers of the right length, a
    branch id away from the revisions, and a revision below them. *)
Record put_ok (rmds : BareRootMetadata) : Prop := {
  po_id : TlfID_wf (bm_ID rmds);
  po_bid : BranchID_wf (bm_BID rmds);
  po_far : far L (bm_BID rmds);
  po_rev : (- 2 ^ 63 <= bm_Revision rmds < L)%Z
}.

Lemma valid_bid_status rmds : valid_bid (MergedStatus rmds) (bm_BID rmds) = true →
  MergedStatus rmds = status_of (bm_BID rmds).
Proof. unfold valid_bid, status_of. destruct (MergedStatus rmds); case_bool_decide; by case_decide. Qed.

Lemma hist_range_elem h start limit b : b ∈ hist_range h start limit → b ∈ h.
Proof.
  unfold hist_range. rewrite elem_of_app. intros [Hb|[_ ?]%list_elem_of_filter]; [|done].
  case_decide; [|by apply elem_of_nil in Hb]. destruct (last h) eqn:E; simpl in Hb; [|by apply elem_of_nil in Hb].
  apply list_elem_of_singleton in Hb as ->. by apply last_elem.
Qed.

Lemma to_i64_range x : (- 2 ^ 63 <= to_i64 x < 2 ^ 63)%Z.
Proof.
  unfold to_i64. cbv zeta. pose proof (Z.mod_pos_bound x (2 ^ 64) ltac:(lia)).
  case_match eqn:E; rewrite ?Z.ltb_lt, ?Z.ltb_ge in E; lia.
Qed.

Lemma to_i64_pred_succ r : (- 2 ^ 63 <= r < 2 ^ 63)%Z → to_i64 (to_i64 (r - 1) + 1) = r.
Proof.
  intros Hr. destruct (decide (r = - 2 ^ 63)%Z) as [->|]; [done|].
  rewrite (to_i64_small (r - 1)), to_i64_small; lia.
Qed.

Lemma mdserver_err_Ok {A} (r : res A) a : mdserver_err r = Ok a → r = Ok a.
Proof. by destruct r. Qed.

(** What [rmds] is checked against. *)
Lemma find_head_spec md hs B ss rmds hd rb :
  holds L md hs B → put_ok rmds → MergedStatus rmds = status_of (bm_BID rmds) →
  find_head ss rmds md = Ok (hd, rb) →
  (rb = false ∧ hd = last (history hs (bm_ID rmds) (bm_BID rmds)) ∧ (bm_BID rmds ≠ NullBranchID → is_Some hd)) ∨
  (rb = true ∧ bm_BID rmds ≠ NullBranchID ∧ history hs (bm_ID rmds) (bm_BID rmds) = [] ∧
   ∃ b0, hd = Some b0 ∧ b0 ∈ history hs (bm_ID rmds) NullBranchID).
Proof.
  intros Hh [Hid Hbid Hfar Hrev] Hst. unfold find_head. rewrite Hst.
  rewrite (getHeadForTLF_spec L HL md hs B) by done. cbn [mdserver_err mbind res_bind].
  destruct (decide (bm_BID rmds = NullBranchID)) as [Hn|Hn].
  { rewrite Hn, status_of_Null. intros [= <- <-]. left. naive_solver. }
  rewrite (status_of_Unmerged _ Hn).
  destruct (last _) as [b|] eqn:El; [intros [= <- <-]; left; eauto|].
  intros (rmdses & Hr%mdserver_err_Ok & Hm)%bind_Ok. right.
  unfold GetRange in Hr. apply bind_Ok in Hr as (found & Hf & Hr).
  assert (found = Some NullBranchID) as ->.
  { unfold check_read in Hf. destruct (md_shutdown md); [done|].
    rewrite decide_False in Hf by naive_solver. apply bind_Ok in Hf as (ok & _ & Hf).
    destruct ok; [|done]. cbn [negb] in Hf. rewrite decide_False in Hf by naive_solver. by simplify_eq. }
  rewrite <- status_of_Null in Hr.
  rewrite (read_range_spec L HL md hs B) in Hr; [|done|done|done|..].
  - rewrite to_i64_pred_succ in Hr by lia. injection Hr as <-.
    destruct (hist_range _ _ _) as [|b0 [|]] eqn:Er; simplify_eq.
    split; [done|]. split; [done|]. split; [by apply last_None|]. exists b0. split; [done|].
    eapply (hist_range_elem _ _ _ b0). rewrite Er. by left.
  - apply to_i64_range.
  - apply to_i64_range.
  - intros _. rewrite to_i64_pred_succ by lia. lia.
Qed.

(** An accepted metadata extends its branch. *)
Lemma check_put_spec md hs B ss rmds now rb :
  holds L md hs B → put_ok (rmds_MD rmds) → check_put ss (rmds_MD rmds) md = Ok rb →
  md_shutdown md = false ∧ extends L hs (MkMdBlockLocal rmds now) ∧
  (rb = true → bm_BID (rmds_MD rmds) ≠ NullBranchID).
Proof.
  intros Hh Hok. unfold check_put. destruct (md_shutdown md); [done|].
  destruct (valid_bid _ _) eqn:Hv; [|done]. cbn [negb].
  intros (ok & _ & Hc)%bind_Ok. destruct ok; [|done]. cbn [negb] in Hc.
  apply bind_Ok in Hc as ([hd rb'] & Hf & (u & Hs & [= ->])%bind_Ok).
  pose proof (valid_bid_status _ Hv) as Hst. pose proof Hok as [Hid Hbid Hfar Hrev].
  pose proof (find_head_spec md hs B ss _ _ _ Hh Hok Hst Hf) as Hhd.
  assert (∀ b0 bid', hd = Some b0 → b0 ∈ history hs (bm_ID (rmds_MD rmds)) bid' →
    follows (rmds_MD (mbl_MD b0)) (rmds_MD rmds)) as Hfol.
  { intros b0 bid' -> Hin. destruct u. apply check_successor_follows in Hs; [done|].
    pose proof (ho_rev _ _ _ _ (history_hist_ok _ _ _ _ _ (hd_ok _ _ _ _ Hh) Hin) b0 Hin). lia. }
  split; [done|]. split; [|naive_solver].
  split; cbn [mbl_MD]; try done.
  - intros b0 Hl. destruct Hhd as [(-> & -> & _)|(_ & _ & Hnil & _)]; [|by rewrite Hnil in Hl].
    eapply Hfol; [done|by eapply last_elem].
  - intros Hn Hnil. destruct Hhd as [(_ & -> & Hsome)|(_ & _ & _ & b0 & -> & Hin)].
    + rewrite Hnil in Hsome. by destruct (Hsome Hn).
    + exists b0. split; [done|]. by eapply Hfol.
Qed.
Lemma holds_same_dbs md md' hs B : same_dbs md md' → holds L md hs B → holds L md' hs B.
Proof. intros Hs []. split; rewrite ?(sd_md _ _ Hs), ?(sd_branch _ _ Hs); done. Qed.

Lemma obs_ok_same {DB'} (md md' : MDServerLocal DB') :
  md_observers md' = md_observers md → md_chans md' = md_chans md → obs_ok md → obs_ok md'.
Proof. intros Ho Hc [Hop Hon]. split; rewrite Ho; [rewrite Hc|]; done. Qed.

(** The branch a device is on after beginning one. *)
Definition begin_branch (rb : bool) (ss : Session) (rmds : BareRootMetadata) (B : branches) : branches :=
  if rb then
    match ss_kid ss with
    | Ok kid => <[(bm_ID rmds, ToBytes kid) := bm_BID rmds]> (B : gmap _ _)
    | _ => B
    end
  else B.

Lemma write_md_spec md hs B ss rmds :
  holds L md hs B → extends L hs (MkMdBlockLocal rmds (ss_now ss)) →
  ∃ db, write_md ss rmds md = (Ok tt, set_mdDb db md) ∧
    holds L (set_mdDb db md) (append hs (MkMdBlockLocal rmds (ss_now ss))) B.
Proof.
  intros [(m & Hm & Hmd) (bm & Hbm & HB) HH Hf] Hex.
  set (b := MkMdBlockLocal rmds (ss_now ss)) in *. unfold write_md. fold b.
  destruct (Encode_total b) as [v Hv]. rewrite Hv.
  pose proof (ex_status _ _ _ Hex) as Hst. cbn [mbl_MD b] in Hst. rewrite Hst.
  change (getMDKey _ (bm_Revision (rmds_MD rmds)) _ _)
    with (revKey (bm_ID (rmds_MD (mbl_MD b))) (bm_BID (rmds_MD (mbl_MD b))) (bm_Revision (rmds_MD (mbl_MD b)))).
  change (getMDKey _ MetadataRevisionUninitialized _ _)
    with (headKey (bm_ID (rmds_MD (mbl_MD b))) (bm_BID (rmds_MD (mbl_MD b)))).
  destruct (ldb_Write_law _ m [(revKey (bm_ID (rmds_MD (mbl_MD b))) (bm_BID (rmds_MD (mbl_MD b)))
    (bm_Revision (rmds_MD (mbl_MD b))), v); (headKey (bm_ID (rmds_MD (mbl_MD b))) (bm_BID (rmds_MD (mbl_MD b))), v)] Hm)
    as (db & Hw & Hmap). rewrite Hw. exists db. split; [done|]. split.
  - eexists. split; [exact Hmap|]. by eapply md_map_ok_append.
  - exists bm. split; [done|]. by apply branch_map_ok_append.
  - by eapply histories_ok_append.
  - by eapply forks_ok_append.
Qed.

(** Recording the branch, and then the write that gives it its first
    revision. *)
Lemma record_branch_spec md hs B ss id bid kid :
  holds L md hs B → TlfID_wf id → ss_kid ss = Ok kid →
  ∃ db v m, record_branch ss id bid md = (Ok tt, set_branchDb db md) ∧ Encode bid = Ok v ∧
    ldb_map (md_branchDb md) = Some m ∧ branch_map_ok hs B m ∧
    ldb_map db = Some (<[tlf_id id ++ ToBytes kid := v]> m).
Proof.
  intros [_ (m & Hm & HB) _ _] Hid Hkid. unfold record_branch, getBranchKey. rewrite Hkid.
  destruct (Encode_total bid) as [v Hv]. rewrite Hv. simpl.
  destruct (ldb_Put_law _ m (tlf_id id ++ ToBytes kid) v Hm) as (db & -> & Hdb).
  by exists db, v, m.
Qed.

(** The branch is recorded before its first revision is written. *)
Lemma record_then_write md hs B ss rmds rb :
  holds L md hs B → extends L hs (MkMdBlockLocal rmds (ss_now ss)) →
  (rb = true → bm_BID (rmds_MD rmds) ≠ NullBranchID) → (rb = true → ∃ kid, ss_kid ss = Ok kid) →
  ∃ md', ((if rb : bool then record_branch ss (bm_ID (rmds_MD rmds)) (bm_BID (rmds_MD rmds)) else mret tt)
            ≫= λ _, write_md ss rmds) md = (Ok tt, md') ∧
    holds L md' (append hs (MkMdBlockLocal rmds (ss_now ss))) (begin_branch rb ss (rmds_MD rmds) B) ∧
    md_shutdown md' = md_shutdown md ∧ md_observers md' = md_observers md ∧ md_chans md' = md_chans md.
Proof.
  intros Hh Hex Hn Hkid. destruct rb.
  - destruct (Hkid eq_refl) as [kid Hk].
    destruct (record_branch_spec md hs B ss (bm_ID (rmds_MD rmds)) (bm_BID (rmds_MD rmds)) kid Hh)
      as (db & v & m & Hr & Hv & Hm & HB & Hdb); [apply Hex|done|].
    destruct (write_md_spec md hs B ss rmds Hh Hex) as (db' & Hw & Hh').
    unfold write_md in Hw. exists (set_mdDb db' (set_branchDb db md)).
    split; [|split; [|done]].
    { unfold mbind, go_bind. rewrite Hr. unfold write_md.
      destruct (Encode (MkMdBlockLocal rmds (ss_now ss))); [|done..].
      cbn [md_mdDb set_branchDb]. destruct (ldb_Write _ (md_mdDb md)) as [r d].
      apply pair_equal_spec in Hw as [-> Hd%(f_equal md_mdDb)]. cbn in Hd. by subst d. }
    unfold begin_branch. rewrite Hk. destruct Hh' as [Hmd _ Hok Hf]. split; [done| |done|done].
    exists (<[tlf_id (bm_ID (rmds_MD rmds)) ++ ToBytes kid := v]> m). split; [done|].
    apply branch_map_ok_insert; [apply Hex|by apply Hn| |done|by apply branch_map_ok_append].
    pose proof (history_append_eq hs (MkMdBlockLocal rmds (ss_now ss))) as Ha. cbn [mbl_MD] in Ha.
    rewrite Ha. by intros [_ ?]%app_eq_nil.
  - destruct (write_md_spec md hs B ss rmds Hh Hex) as (db & Hw & Hh').
    exists (set_mdDb db md). split; [|done]. unfold mbind, go_bind, mret, go_ret. by rewrite Hw.
Qed.

(** What [md_Put] does. *)
Lemma md_Put_spec md hs B ss rmds r md' :
  holds L md hs B → obs_ok md → put_ok (rmds_MD rmds) → md_Put ss rmds md = (r, md') →
  (r = Ok tt ∧ md_shutdown md = false ∧ extends L hs (MkMdBlockLocal rmds (ss_now ss)) ∧
   (∃ rb, holds L md' (append hs (MkMdBlockLocal rmds (ss_now ss))) (begin_branch rb ss (rmds_MD rmds) B)) ∧
   md_shutdown md' = false ∧
   if notifies (rmds_MD rmds) then notified ss (bm_ID (rmds_MD rmds)) md md'
   else md_observers md' = md_observers md ∧ md_chans md' = md_chans md) ∨
  (r ≠ Ok tt ∧ md' = md).
Proof.
  intros Hh Ho Hok. unfold md_Put. unfold mbind at 1, go_bind at 1, get.
  unfold mbind at 1, go_bind at 1, lift_res.
  destruct (check_put ss (rmds_MD rmds) md) as [rb|e|p] eqn:Hc; [|intros [= <- <-]; by right..].
  destruct (check_put_spec md hs B ss rmds (ss_now ss) rb Hh Hok Hc) as (Hsd & Hex & Hn).
  destruct (decide (rb = true ∧ is_Ok (ss_kid ss) = false)) as [[-> Hbad]|Hgood].
  { unfold mbind at 1, go_bind at 1, record_branch, getBranchKey.
    destruct (Encode_total (bm_BID (rmds_MD rmds))) as [v ->]. simpl.
    destruct (ss_kid ss) as [kid|e|p]; [done|..]; intros [= <- <-]; by right. }
  assert (rb = true → ∃ kid, ss_kid ss = Ok kid) as Hkid.
  { intros ->. destruct (ss_kid ss) as [kid|e|p]; [by eauto|..]; exfalso; by apply Hgood. }
  destruct (record_then_write md hs B ss rmds rb Hh Hex Hn Hkid) as (md1 & Hw & Hh1 & Hsd1 & Hob & Hch).
  assert (obs_ok md1) as Ho1 by (by eapply obs_ok_same).
  destruct (notify_spec ss (rmds_MD rmds) md1 Ho1) as (md2 & Hnot & Hsame & Hcase).
  assert (∀ m : go (MDServerLocal DB) unit, (m ≫= λ _, write_md ss rmds) md = (Ok tt, md1) →
    (m ≫= λ _, write_md ss rmds ≫= λ _, notify ss (rmds_MD rmds)) md = (Ok tt, md2)) as Hseq.
  { intros m. unfold mbind, go_bind. destruct (m md) as [[u|e|p] mdx]; [|done..]. by intros ->. }
  rewrite (Hseq _ Hw). intros [= <- <-].
  left. split; [done|]. split; [done|]. split; [done|]. split; [exists rb; by eapply holds_same_dbs|].
  split; [rewrite (sd_shutdown _ _ Hsame); congruence|].
  destruct (notifies (rmds_MD rmds)); [|subst; done].
  destruct Hcase as [Hhd Hg Hk Hot Hf Hq].
  assert (∀ id k, observer md1 id k = observer md id k) as Hobs by (intros; unfold observer; by rewrite Hob).
  split.
  - done.
  - done.
  - by rewrite Hk.
  - intros. by rewrite Hot.
  - intros k c Hk' Hc'. eapply Hf; [done|by rewrite Hobs].
  - intros c Hc'. rewrite Hq, Hch; [done|]. intros k Hk'. rewrite Hobs. auto.
Qed.

(** What follows the head of its branch is accepted from those who may
    write it. *)
Lemma md_Put_accepts md hs B ss rmds hd :
  holds L md hs B → obs_ok md → md_shutdown md = false →
  last (history hs (bm_ID (rmds_MD rmds)) (bm_BID (rmds_MD rmds))) = Some hd →
  follows (rmds_MD (mbl_MD hd)) (rmds_MD rmds) →
  MergedStatus (rmds_MD rmds) = status_of (bm_BID (rmds_MD rmds)) → (bm_Revision (rmds_MD rmds) < L)%Z →
  isWriterOrValidRekey ss (bm_ID (rmds_MD rmds)) (rmds_MD rmds) md = Ok true →
  ∃ md' B', md_Put ss rmds md = (Ok tt, md') ∧
    holds L md' (append hs (MkMdBlockLocal rmds (ss_now ss))) B'.
Proof.
  intros Hh Ho Hsd Hlast Hfol Hst Hlim Hperm. pose proof (last_elem _ _ Hlast) as Hin.
  pose proof (history_hist_ok _ _ _ _ _ (hd_ok _ _ _ _ Hh) Hin) as Hok.
  pose proof (ho_rev _ _ _ _ Hok hd Hin) as Hrev. pose proof (fo_rev _ _ Hfol) as Hrev'.
  assert (put_ok (rmds_MD rmds)) as Hpok by (split; [apply Hok..|lia]).
  assert (check_put ss (rmds_MD rmds) md = Ok false) as Hchk.
  { unfold check_put. rewrite Hsd, Hperm, Hst.
    assert (valid_bid (status_of (bm_BID (rmds_MD rmds))) (bm_BID (rmds_MD rmds)) = true) as ->
      by (unfold valid_bid, status_of; case_decide; by apply bool_decide_true).
    cbn [negb mdserver_err mbind res_bind].
    unfold find_head. rewrite Hst, (getHeadForTLF_spec L HL md hs B), Hlast by (first [done|apply Hok]).
    assert (check_successor (rmds_MD (mbl_MD hd)) (rmds_MD rmds) = Ok tt) as Hcs
      by (apply check_successor_follows; [lia|done]).
    destruct (status_of _); cbn [mdserver_err mbind res_bind]; by rewrite Hcs. }
  destruct (check_put_spec md hs B ss rmds (ss_now ss) false Hh Hpok Hchk) as (_ & Hex & _).
  destruct (record_then_write md hs B ss rmds false Hh Hex) as (md1 & Hw & Hh1 & _ & Hob & Hch); [done..|].
  destruct (notify_spec ss (rmds_MD rmds) md1) as (md2 & Hnot & Hsame & _); [by eapply obs_ok_same|].
  exists md2, B. split; [|by eapply holds_same_dbs].
  revert Hw. unfold md_Put, mbind, go_bind, get, lift_res, mret, go_ret. rewrite Hchk. by intros ->.
Qed.

End ops.
