(* ===== verification/MDServerThms.v ===== *)
(** * MDServerThms: what clients can rely on

    The theorems about the local metadata server: sequences of calls by any
    sessions keep linked histories that only grow; range fetches return the
    revisions of a branch without gaps; an accepted metadata is the next of
    its branch and wakes the observers, a refused one changes nothing; the
    truncation lock excludes other devices. *)

From Stdlib Require Import ZArith Lia Sorted.
From stdpp Require Import sorting numbers.
From S2P Require Import Prelude Types Errors GoStd Ids CryptoCommon DataTypes Ops ConflictInfo Handles KeyBundles Metadata LevelDb MDServer MDServerSpec MDServerOps.

(** ** Branch ids among the revisions *)

(** The keys of the merged branch are the folder id and the revision, those
    of an unmerged branch the folder id, the branch id and the revision.  So
    when the first eight bytes of a branch id make a small number [n], all
    keys of that branch are in the range that [GetRange] reads for the
    merged revision [n]. *)
Theorem near_branch_in_merged_range id bid r : BranchID_wf bid → bid ≠ NullBranchID →
  let n := bid_number bid in (1 <= n < 2 ^ 63 - 1)%Z →
  in_range (Some (getMDKey id n NullBranchID Merged, getMDKey id (to_i64 (n + 1)) NullBranchID Merged))
    (getMDKey id r bid Unmerged) = true.
Proof.
  intros Hb Hne n Hn. rewrite to_i64_small by lia.
  change Merged with (status_of NullBranchID). rewrite <- (status_of_Unmerged bid Hne).
  rewrite !MDKey_parts, (app_nil_r (tlf_id id) : tlf_id id ++ bid_part NullBranchID = tlf_id id).
  unfold bid_part. rewrite decide_False by done. rewrite <- app_assoc. apply in_range_prefix.
  unfold rev_part at 2 4. rewrite !decide_False by lia.
  assert (length (take 8 (branch_id bid)) = 8) as Hlen by (rewrite length_take, Hb; done).
  assert (put_be 8 n = take 8 (branch_id bid)) as Hp.
  { destruct (bytes_lt_total (put_be 8 n) (take 8 (branch_id bid))) as [Hc|[Hc|Hc]]; [|done|];
      apply bytes_lt_get_be in Hc; rewrite ?length_put_be, ?Hlen in *; try done;
      rewrite get_put_be in Hc by lia; unfold n, bid_number in Hc; lia. }
  rewrite <- (take_drop 8 (branch_id bid)), <- Hp, <- app_assoc. split.
  - rewrite <- (app_nil_r (put_be 8 n)) at 2. rewrite bytes_lt_app_l. by destruct (drop 8 _ ++ _).
  - rewrite <- (app_nil_r (put_be 8 (n + 1))). apply bytes_lt_app_r; [by rewrite !length_put_be|].
    apply bytes_lt_put_be; lia.
Qed.

(** ** Calls *)

Inductive md_call :=
| CallPutMD (ss : Session) (rmds : RootMetadataSigned)
| CallPruneBranch (ss : Session) (id : TlfID) (bid : BranchID)
| CallRegister (ss : Session) (id : TlfID) (currHead : MetadataRevision)
| CallGetForHandle (ss : Session) (handle : BareTlfHandle) (mStatus : MergeStatus)
| CallLock (ss : Session) (id : TlfID)
| CallUnlock (ss : Session) (id : TlfID)
| CallAddAssertion (uid : UID) (newAssertion : SocialAssertion)
| CallShutdown.

Section calls.
Context {DB : Type} `{LevelDBLaws DB}.
Context `{Codec WriterMetadata, Codec SignatureInfo, Codec (gmap KID TLFCryptKeyInfo),
  Codec BareRootMetadata, Codec BareTlfHandle, Codec BranchID, Codec mdBlockLocal}.

Definition run_call (c : md_call) (md : MDServerLocal DB) : MDServerLocal DB :=
  match c with
  | CallPutMD ss rmds => snd (md_Put ss rmds md)
  | CallPruneBranch ss id bid => snd (PruneBranch ss id bid md)
  | CallRegister ss id currHead => snd (RegisterForUpdate ss id currHead md)
  | CallGetForHandle ss handle mStatus => snd (GetForHandle ss handle mStatus md)
  | CallLock ss id => snd (TruncateLock ss id md)
  | CallUnlock ss id => snd (TruncateUnlock ss id md)
  | CallAddAssertion uid a => snd (addNewAssertionForTest uid a md)
  | CallShutdown => md_Shutdown md
  end.

Definition run_calls (cs : list md_call) (md : MDServerLocal DB) : MDServerLocal DB :=
  foldl (λ md c, run_call c md) md cs.

Context `{!EncodeTotal mdBlockLocal, !EncodeTotal BranchID}.
Context (L : Z) (HL : (L < 2 ^ 63)%Z).

(** The calls that the theorems are about.  Go's array types fix the lengths
    of identifiers; that the revision of metadata is below [L] and that the
    first eight bytes of its branch id are a number of at least [L] (or that
    it is on the merged branch) is not checked by the server: see
    [near_branch_in_merged_range] for what can happen otherwise. *)
Definition call_valid (c : md_call) : Prop :=
  match c with
  | CallPutMD _ rmds => put_ok L (rmds_MD rmds)
  | CallPruneBranch _ id _ => TlfID_wf id
  | _ => True
  end.

(** *** Frames: what the other calls leave alone *)

(** Only the handles and the locks change. *)
Record same_md (md md' : MDServerLocal DB) : Prop := {
  sm_md : md_mdDb md' = md_mdDb md;
  sm_branch : md_branchDb md' = md_branchDb md;
  sm_observers : md_observers md' = md_observers md;
  sm_chans : md_chans md' = md_chans md;
  sm_shutdown : md_shutdown md' = md_shutdown md
}.

Lemma same_md_refl md : same_md md md.
Proof. done. Qed.

Lemma same_md_trans md1 md2 md3 : same_md md1 md2 → same_md md2 md3 → same_md md1 md3.
Proof. intros [] []. split; congruence. Qed.

Lemma same_md_handleDb db md : same_md md (set_handleDb db md).
Proof. done. Qed.

Lemma same_md_locksDb db md : same_md md (set_locksDb db md).
Proof. done. Qed.

Lemma GetForHandle_same ss handle mStatus md : same_md md (snd (GetForHandle ss handle mStatus md)).
Proof.
  unfold GetForHandle. destruct (md_shutdown md); [done|].
  repeat (case_match; try done).
Qed.

Lemma TruncateLock_same ss id md : same_md md (snd (TruncateLock ss id md)).
Proof. unfold TruncateLock. repeat (case_match; try done). Qed.

Lemma TruncateUnlock_same ss id md : same_md md (snd (TruncateUnlock ss id md)).
Proof. unfold TruncateUnlock. repeat (case_match; try done). Qed.

Lemma add_assertion_same uid a e md : same_md md (snd (add_assertion uid a e md)).
Proof. unfold add_assertion. repeat (case_match; try done). Qed.

Lemma addNewAssertion_same uid a md : same_md md (snd (addNewAssertionForTest uid a md)).
Proof.
  unfold addNewAssertionForTest. destruct (md_shutdown md); [done|].
  destruct (ldb_Iterate _ _) as [l err].
  assert (same_md md (snd (go_for l (add_assertion uid a) md))) as Hs.
  { apply (go_preserves_for (same_md md)); [|done]. intros e _ md' Hmd'.
    eapply same_md_trans; [done|apply add_assertion_same]. }
  destruct (go_for l _ md) as [[u|e|p] md']; done.
Qed.

Lemma holds_same_md md md' hs B : same_md md md' → holds L md hs B → holds L md' hs B.
Proof. intros Hs []. split; rewrite ?(sm_md _ _ Hs), ?(sm_branch _ _ Hs); done. Qed.

Lemma obs_ok_same_md md md' : same_md md md' → obs_ok md → obs_ok md'.
Proof. intros [] Ho. by eapply obs_ok_same. Qed.
(** *** Observers and branches *)

Lemma lookup_snoc_old {A} (l : list A) x i y : l !! i = Some y → (l ++ [x]) !! i = Some y.
Proof. apply lookup_app_l_Some. Qed.

(** A channel that was just made is registered nowhere. *)
Lemma obs_ok_fresh (md : MDServerLocal DB) id k : obs_ok md → observer md id k ≠ Some (length (md_chans md)).
Proof.
  intros [Ho _]%obs_ok_observers Hc. apply Ho, lookup_lt_Some in Hc. lia.
Qed.

Lemma RegisterForUpdate_ok ss id currHead md : obs_ok md →
  obs_ok (snd (RegisterForUpdate ss id currHead md)) ∧
  md_mdDb (snd (RegisterForUpdate ss id currHead md)) = md_mdDb md ∧
  md_branchDb (snd (RegisterForUpdate ss id currHead md)) = md_branchDb md.
Proof.
  intros Hok. unfold RegisterForUpdate.
  destruct (md_shutdown md); [done|]. destruct (getHeadForTLF _ _ _ _) as [hd|e|p]; [|done..].
  pose proof Hok as [Ho Hn]%obs_ok_observers.
  destruct (_ && _).
  { split; [|done]. apply obs_ok_observers. split; [|done].
    intros id' k c Hc. apply lookup_snoc_old. by eapply Ho. }
  set (obs := default ∅ (md_observers md !! id)).
  assert (∀ heads chans obs' id' k, observer (set_observers (<[id := obs']> (md_observers md)) heads chans md) id' k =
    if decide (id' = id) then obs' !! k else observer md id' k) as Hins.
  { intros heads chans obs' id' k. unfold observer. simpl.
    case_decide as Hd; [subst; by rewrite lookup_insert_eq|by rewrite lookup_insert_ne]. }
  destruct (obs !! ss_self ss) as [c0|] eqn:Eobs; (split; [|done]); apply obs_ok_observers.
  - assert (∀ id' k, observer (set_observers (<[id := obs]> (md_observers md)) (md_sessionHeads md)
      (md_chans md ++ [MkErrChan [] false]) md) id' k = observer md id' k) as Hsame.
    { intros id' k. rewrite Hins. case_decide as Hd; [subst id'|done]. unfold obs. apply observer_obs. }
    split.
    + intros id' k c. rewrite Hsame. intros Hc. apply lookup_snoc_old. by eapply Ho.
    + intros id1 k1 id2 k2 c. rewrite !Hsame. apply Hn.
  - set (c := length (md_chans md)).
    assert (∀ id' k, observer (set_observers (<[id := <[ss_self ss := c]> obs]> (md_observers md))
      (md_sessionHeads md) (md_chans md ++ [MkErrChan [] false]) md) id' k =
      if decide (id' = id ∧ k = ss_self ss) then Some c else observer md id' k) as Hsame.
    { intros id' k. rewrite Hins. destruct (decide (id' = id)) as [->|].
      - destruct (decide (k = ss_self ss)) as [->|].
        + rewrite lookup_insert_eq. by rewrite decide_True.
        + rewrite lookup_insert_ne, decide_False by naive_solver. unfold obs. apply observer_obs.
      - by rewrite decide_False by naive_solver. }
    split.
    + intros id' k c'. rewrite Hsame. case_decide.
      * intros [= <-]. unfold c. simpl. by rewrite lookup_app_r, Nat.sub_diag.
      * intros Hc'. apply lookup_snoc_old. by eapply Ho.
    + intros id1 k1 id2 k2 c'. rewrite !Hsame.
      destruct (decide (id1 = id ∧ k1 = ss_self ss)) as [[-> ->]|], (decide (id2 = id ∧ k2 = ss_self ss)) as [[-> ->]|].
      * done.
      * intros [= <-] Hc2. by apply (obs_ok_fresh md) in Hc2.
      * intros Hc1 [= <-]. by apply (obs_ok_fresh md) in Hc1.
      * apply Hn.
Qed.

Lemma PruneBranch_ok ss id bid md hs B : TlfID_wf id → holds L md hs B →
  ∃ B', holds L (snd (PruneBranch ss id bid md)) hs B'.
Proof.
  intros Hid Hh. unfold PruneBranch. destruct (md_shutdown md); [by eauto|].
  case_decide; [by eauto|]. destruct (getBranchID _ _ _) as [cur|e|p] eqn:Eb; [|by eauto..].
  case_decide; [by eauto|]. unfold getBranchKey.
  destruct (ss_kid ss) as [kid|e|p] eqn:Ek; simpl; [|by eauto..].
  destruct Hh as [Hmd (m & Hm & HB) Hok Hf].
  destruct (ldb_Delete_law _ m (tlf_id id ++ ToBytes kid) Hm) as (db & -> & Hdb).
  exists (delete (id, ToBytes kid) (B : gmap _ _)). split; try done.
  exists (delete (tlf_id id ++ ToBytes kid) m). split; [done|]. by apply branch_map_ok_delete.
Qed.

Lemma PruneBranch_obs ss id bid md :
  md_observers (snd (PruneBranch ss id bid md)) = md_observers md ∧
  md_chans (snd (PruneBranch ss id bid md)) = md_chans md.
Proof. unfold PruneBranch. repeat (case_match; try done). Qed.

Lemma history_append_prefix hs b id bid : history hs id bid `prefix_of` history (append hs b) id bid.
Proof.
  destruct (decide ((id, bid) = (bm_ID (rmds_MD (mbl_MD b)), bm_BID (rmds_MD (mbl_MD b))))) as [[= -> ->]|Hne].
  - rewrite history_append_eq. by eexists.
  - by rewrite history_append_ne.
Qed.

(** *** One call *)

Lemma run_call_dead c md : md_shutdown md = true → md_shutdown (run_call c md) = true.
Proof.
  intros Hd. destruct c; simpl.
  - unfold md_Put, mbind, go_bind, get, lift_res, check_put. by rewrite Hd.
  - unfold PruneBranch. by rewrite Hd.
  - unfold RegisterForUpdate. by rewrite Hd.
  - unfold GetForHandle. by rewrite Hd.
  - by rewrite (sm_shutdown _ _ (TruncateLock_same ss id md)).
  - by rewrite (sm_shutdown _ _ (TruncateUnlock_same ss id md)).
  - unfold addNewAssertionForTest. by rewrite Hd.
  - unfold md_Shutdown. by rewrite Hd.
Qed.

Lemma run_calls_dead cs md : md_shutdown (run_calls cs md) = false → md_shutdown md = false.
Proof.
  revert md. induction cs as [|c cs IH]; intros md; [done|]. simpl. intros Hl%IH.
  destruct (md_shutdown md) eqn:E; [|done]. by rewrite (run_call_dead c md E) in Hl.
Qed.

Definition grows (hs hs' : histories) : Prop :=
  ∀ id bid, history hs id bid `prefix_of` history hs' id bid.

Lemma grows_refl hs : grows hs hs.
Proof. by intros id bid. Qed.

Lemma run_call_inv c md hs B :
  holds L md hs B → obs_ok md → call_valid c → md_shutdown (run_call c md) = false →
  ∃ hs' B', holds L (run_call c md) hs' B' ∧ obs_ok (run_call c md) ∧ grows hs hs'.
Proof.
  intros Hh Ho Hv Hd.
  assert (∀ md', same_md md md' → ∃ hs' B', holds L md' hs' B' ∧ obs_ok md' ∧ grows hs hs') as Hsame.
  { intros md' Hs. exists hs, B. split; [by eapply holds_same_md|]. split; [by eapply obs_ok_same_md|apply grows_refl]. }
  destruct c; simpl in *.
  - destruct (md_Put ss rmds md) as [r md'] eqn:E.
    destruct (md_Put_spec L HL md hs B ss rmds r md' Hh Ho Hv E)
      as [(_ & _ & _ & [rb Hh'] & _ & Hn)|[_ ->]]; [|by apply Hsame].
    eexists _, _. split; [exact Hh'|]. split; [|intros id bid; apply history_append_prefix].
    destruct (notifies _); [by eapply notified_obs_ok|]. destruct Hn. by eapply obs_ok_same.
  - destruct (PruneBranch_ok ss id bid md hs B Hv Hh) as [B' Hh']. exists hs, B'.
    split; [done|]. split; [|apply grows_refl]. destruct (PruneBranch_obs ss id bid md). by eapply obs_ok_same.
  - destruct (RegisterForUpdate_ok ss id currHead md Ho) as (Ho' & Hm & Hb). exists hs, B.
    split; [|split; [done|apply grows_refl]]. destruct Hh. split; rewrite ?Hm, ?Hb; done.
  - apply Hsame, GetForHandle_same.
  - apply Hsame, TruncateLock_same.
  - apply Hsame, TruncateUnlock_same.
  - apply Hsame, addNewAssertion_same.
  - unfold md_Shutdown in Hd. destruct (md_shutdown md) eqn:E; [by rewrite E in Hd|done].
Qed.

Lemma run_calls_inv cs md hs B :
  holds L md hs B → obs_ok md → Forall call_valid cs → md_shutdown (run_calls cs md) = false →
  ∃ hs' B', holds L (run_calls cs md) hs' B' ∧ obs_ok (run_calls cs md) ∧ grows hs hs'.
Proof.
  intros Hh Ho Hcs. revert md hs B Hh Ho. induction Hcs as [|c cs Hc Hcs IH]; intros md hs B Hh Ho Hd.
  { exists hs, B. split; [done|]. split; [done|apply grows_refl]. }
  simpl in Hd |- *. destruct (run_call_inv c md hs B Hh Ho Hc) as (hs1 & B1 & Hh1 & Ho1 & Hg1).
  { by eapply run_calls_dead. }
  destruct (IH (run_call c md) hs1 B1 Hh1 Ho1 Hd) as (hs2 & B2 & Hh2 & Ho2 & Hg2).
  exists hs2, B2. split; [done|]. split; [done|]. intros id bid. by trans (history hs1 id bid).
Qed.

Lemma history_empty id bid : history ∅ id bid = [].
Proof. done. Qed.

(** A new server, with empty databases. *)
Lemma new_server_holds handleDb mdDb branchDb locksDb :
  ldb_map mdDb = Some ∅ → ldb_map branchDb = Some ∅ →
  holds L (newMDServerLocalWithStorage handleDb mdDb branchDb locksDb) ∅ ∅ ∧
  obs_ok (newMDServerLocalWithStorage handleDb mdDb branchDb locksDb).
Proof.
  intros Hm Hb. split; [split|].
  - exists ∅. split; [done|]. intros k v. rewrite lookup_empty. split; [done|].
    intros (b & (id & bid & [[_ Hl]|(_ & Hin & _)]) & _);
      [by rewrite history_empty in Hl|rewrite history_empty in Hin; by apply elem_of_nil in Hin].
  - exists ∅. split; [done|]. split.
    + intros id kid v _. rewrite lookup_empty. split; [done|]. by intros (bid & ? & _).
    + by intros id kid bid.
  - by intros id bid h.
  - intros id bid b _. by rewrite history_empty.
  - apply obs_ok_observers. unfold observer. simpl. split.
    + by intros id k c.
    + by intros id k id' k' c.
Qed.

(** ** Theorems *)

(** C15. From an empty server, after any sequence of calls by any sessions,
    each call one step, the database holds a history per folder and branch
    in which each revision follows the one before (by number, hash and disk
    usage), every unmerged branch begins at a merged revision, and every
    registered channel is still open and empty.  This is for a database
    whose operations succeed and an encoding that does, and for puts whose
    revision is below a bound [L] and whose branch id, if any, begins with
    eight bytes of at least [L]: the server does not check this, and its
    merged ranges are wrong without it ([near_branch_in_merged_range]). *)
Theorem md_server_histories handleDb mdDb branchDb locksDb cs :
  ldb_map mdDb = Some ∅ → ldb_map branchDb = Some ∅ → Forall call_valid cs →
  md_shutdown (run_calls cs (newMDServerLocalWithStorage handleDb mdDb branchDb locksDb)) = false →
  ∃ hs B, let md := run_calls cs (newMDServerLocalWithStorage handleDb mdDb branchDb locksDb) in
    holds L md hs B ∧ (∀ id bid, linked (history hs id bid)) ∧ forks_ok hs ∧ obs_ok md.
Proof.
  intros Hm Hb Hcs Hd.
  destruct (new_server_holds handleDb mdDb branchDb locksDb Hm Hb) as [Hh Ho].
  destruct (run_calls_inv cs _ _ _ Hh Ho Hcs Hd) as (hs & B & Hh' & Ho' & _).
  exists hs, B. split; [done|]. split; [|split; [by eapply hd_forks|done]].
  intros id bid. eapply history_linked. by eapply hd_ok.
Qed.

(** A range fetch by a reader returns the metadata of the branch whose
    revisions are in the range, in order; within the history, one for
    every revision of the range. *)
Theorem GetRange_revisions md hs B ss id bid mStatus bid' start stop :
  holds L md hs B → md_shutdown md = false → TlfID_wf id → BranchID_wf bid' → isReader ss id md = Ok true →
  selects B ss id bid mStatus bid' →
  (1 <= start)%Z → (0 <= stop < 2 ^ 63 - 1)%Z → (mStatus = Merged → stop < L)%Z → (start < 2 ^ 63)%Z →
  let h := history hs id bid' in
  let l := filter (λ b, start <= bm_Revision (rmds_MD (mbl_MD b)) <= stop)%Z h in
  GetRange ss id bid mStatus start stop md = Ok l ∧
  (∀ b0 b, head h = Some b0 → last h = Some b →
     (bm_Revision (rmds_MD (mbl_MD b0)) <= start)%Z → (stop <= bm_Revision (rmds_MD (mbl_MD b)))%Z →
     (λ b, bm_Revision (rmds_MD (mbl_MD b))) <$> l = seqZ start (stop - start + 1)).
Proof.
  intros Hh Hsd Hid Hbid Hr Hsel Hst Hstop Hlim Hst'. cbv zeta. split.
  - rewrite (GetRange_history L HL md hs B ss id bid mStatus bid') by
      (first [done | rewrite to_i64_small by lia; intros Hs; specialize (Hlim Hs); lia]).
    f_equal. rewrite to_i64_small by lia. unfold hist_range. rewrite decide_False by lia.
    simpl. apply list_filter_iff. intros b. lia.
  - intros b0 b Hhd Hl Hb0 Hb. by eapply linked_revisions; [eapply history_linked, hd_ok| ..].
Qed.

(** C22. As long as the database operations and the encoding succeed, and
    for metadata with a revision below [L] and a branch id, if any, that
    begins with eight bytes of at least [L] (which the server does not
    check), a put either succeeds, and then the metadata, next after the
    head of its branch (or, for the first of an unmerged branch, after a
    merged revision), is appended to the history of its branch and nothing
    else in the histories changes; or it is refused by one of the checks,
    and the server is as before.  (When encoding or writing fails after the
    checks, the branch of the device may have been recorded already.) *)
Theorem Put_extends_or_refuses md hs B ss rmds r md' :
  holds L md hs B → obs_ok md → put_ok L (rmds_MD rmds) → md_Put ss rmds md = (r, md') →
  (r = Ok tt ∧ extends L hs (MkMdBlockLocal rmds (ss_now ss)) ∧
   ∃ B', holds L md' (append hs (MkMdBlockLocal rmds (ss_now ss))) B') ∨
  (r ≠ Ok tt ∧ md' = md).
Proof.
  intros Hh Ho Hok Hput.
  destruct (md_Put_spec L HL md hs B ss rmds r md' Hh Ho Hok Hput)
    as [(-> & _ & Hex & [rb Hh'] & _)|?]; [|by right]. left. eauto.
Qed.

Lemma append_last hs b : last (history (append hs b) (bm_ID (rmds_MD (mbl_MD b))) (bm_BID (rmds_MD (mbl_MD b)))) = Some b.
Proof. rewrite history_append_eq. apply last_snoc. Qed.

(** No lost wake-ups.  When a put that is not just a rekey makes a new
    merged revision, every other session that waits for an update of the
    folder is woken, exactly once, and stops being registered; the session
    that put stays registered; and a session that only now registers,
    behind the new revision, gets a channel that has fired already. *)
Theorem Put_wakes_observers md hs B ss rmds md' :
  holds L md hs B → obs_ok md → put_ok L (rmds_MD rmds) → md_Put ss rmds md = (Ok tt, md') →
  notifies (rmds_MD rmds) = true →
  let id := bm_ID (rmds_MD rmds) in
  (∀ k c, k ≠ ss_self ss → observer md id k = Some c →
     md_chans md' !! c = Some (MkErrChan [None] true) ∧ observer md' id k = None) ∧
  observer md' id (ss_self ss) = observer md id (ss_self ss) ∧
  (∀ ss' currHead, ss_self ss' ≠ ss_self ss → (currHead < bm_Revision (rmds_MD rmds))%Z →
     ∃ c md2, RegisterForUpdate ss' id currHead md' = (Ok c, md2) ∧
       md_chans md2 !! c = Some (MkErrChan [None] true)).
Proof.
  intros Hh Ho Hok Hput Hn. cbv zeta.
  destruct (md_Put_spec L HL md hs B ss rmds (Ok tt) md' Hh Ho Hok Hput)
    as [(_ & _ & Hex & [rb Hh'] & Hsd & Hnot)|[? _]]; [|done].
  rewrite Hn in Hnot. destruct Hnot as [Hhead Hgone Hkept Hother Hfired Hquiet].
  split; [|split; [done|]].
  { intros k c Hk Hc. split; [by eapply Hfired|by apply Hgone]. }
  intros ss' currHead Hss' Hlt. unfold RegisterForUpdate. rewrite Hsd.
  assert (bm_BID (rmds_MD rmds) = NullBranchID) as Hnull.
  { pose proof (ex_status _ _ _ Hex) as Hst. cbn [mbl_MD] in Hst.
    unfold notifies in Hn. apply andb_true_iff in Hn as [Hm%bool_decide_eq_true _].
    rewrite Hm in Hst. unfold status_of in Hst. by case_decide. }
  change (getHeadForTLF _ NullBranchID Merged md') with (getHeadForTLF (bm_ID (rmds_MD rmds)) NullBranchID (status_of NullBranchID) md').
  rewrite (getHeadForTLF_spec L HL md' _ _ _ NullBranchID Hh'); [|apply Hok|done].
  pose proof (append_last hs (MkMdBlockLocal rmds (ss_now ss))) as Hlast. cbn [mbl_MD] in Hlast.
  rewrite Hnull in Hlast. rewrite Hlast. cbn [mbl_MD].
  rewrite bool_decide_true by done. rewrite bool_decide_true by (rewrite Hhead; naive_solver).
  cbn [andb]. eexists _, _. split; [done|]. simpl. by rewrite lookup_app_r, Nat.sub_diag.
Qed.

Lemma selects_self B ss id bid : selects B ss id bid (status_of bid) bid.
Proof.
  unfold selects. destruct (decide (bid = NullBranchID)) as [->|Hn]; [done|].
  rewrite (status_of_Unmerged _ Hn). done.
Qed.

Lemma hist_range_one h r b : linked h → (1 <= r)%Z → b ∈ h → bm_Revision (rmds_MD (mbl_MD b)) = r →
  hist_range h r (r + 1) = [b].
Proof.
  intros Hl Hr Hb Hrb. unfold hist_range. rewrite decide_False by lia. simpl.
  assert (∀ x, x ∈ h → (Z.max 1 r <= bm_Revision (rmds_MD (mbl_MD x)) < r + 1)%Z ↔ x = b) as Hx.
  { intros x Hx. split; [|intros ->; lia]. intros ?. apply (linked_rev_inj h); [done..|lia]. }
  pose proof (linked_sorted h (λ b, Z.max 1 r <= bm_Revision (rmds_MD (mbl_MD b)) < r + 1)%Z Hl) as Hs.
  destruct (filter _ h) as [|x l] eqn:Ef.
  - exfalso. assert (b ∈ filter (λ b, Z.max 1 r <= bm_Revision (rmds_MD (mbl_MD b)) < r + 1)%Z h) as Hin
      by (apply list_elem_of_filter; split; [lia|done]).
    rewrite Ef in Hin. by apply elem_of_nil in Hin.
  - assert (∀ y, y ∈ x :: l → y = b) as Hall.
    { intros y Hy. rewrite <- Ef in Hy. apply list_elem_of_filter in Hy as [? ?]. by apply Hx. }
    rewrite (Hall x) by left. destruct l as [|y l]; [done|]. exfalso.
    apply StronglySorted_inv in Hs as [_ Hfa]. apply Forall_cons in Hfa as [Hlt _].
    rewrite (Hall x), (Hall y) in Hlt; [lia|right; left|left].
Qed.

(** C23. Once a revision below [L] can be read from a branch, the range of
    that one revision is the same for every reader ever after, through any
    calls in between whose puts have revisions below [L] and branch ids, if
    any, that begin with eight bytes of at least [L], with a database whose
    operations succeed.  (A put on a branch whose id begins lower is not
    refused, and adds entries to a merged range:
    [near_branch_in_merged_range].) *)
Theorem published_revision_stable md hs B cs ss ss' id bid r b :
  holds L md hs B → obs_ok md → Forall call_valid cs → TlfID_wf id → BranchID_wf bid →
  (1 <= r < L)%Z → GetRange ss id bid (status_of bid) r r md = Ok [b] →
  md_shutdown (run_calls cs md) = false → isReader ss' id (run_calls cs md) = Ok true →
  GetRange ss' id bid (status_of bid) r r (run_calls cs md) = Ok [b].
Proof.
  intros Hh Ho Hcs Hid Hbid Hr Hget Hd Hrd.
  destruct (run_calls_inv cs md hs B Hh Ho Hcs Hd) as (hs' & B' & Hh' & _ & Hg).
  assert (b ∈ history hs id bid ∧ bm_Revision (rmds_MD (mbl_MD b)) = r) as [Hb Hrb].
  { unfold GetRange in Hget. apply bind_Ok in Hget as (found & Hf & Hget).
    assert (found = Some bid) as ->.
    { unfold check_read in Hf. destruct (md_shutdown md); [done|]. case_decide; [done|].
      apply bind_Ok in Hf as (ok & _ & Hf). destruct ok; [|done]. cbn [negb] in Hf.
      rewrite decide_False in Hf; [congruence|]. intros [Hs ->]. done. }
    rewrite (read_range_spec L HL md hs B) in Hget by (first [done | rewrite ?to_i64_small by lia; lia]).
    injection Hget as Hget. rewrite to_i64_small in Hget by lia.
    assert (b ∈ hist_range (history hs id bid) r (r + 1)) as Hin by (rewrite Hget; by left).
    split; [by eapply hist_range_elem|]. unfold hist_range in Hin.
    rewrite decide_False in Hin by lia. apply list_elem_of_filter in Hin as [? _]. lia. }
  assert (b ∈ history hs' id bid) as Hb' by (destruct (Hg id bid) as [k ->]; apply elem_of_app; by left).
  rewrite (GetRange_history L HL _ hs' B' ss' id bid (status_of bid) bid); try done.
  - f_equal. rewrite to_i64_small by lia. apply hist_range_one; [|lia|done|done].
    by eapply history_linked, hd_ok.
  - apply selects_self.
  - lia.
  - intros _. rewrite to_i64_small; lia.
Qed.

(** *** Truncation locks *)

Definition lock_held (id : TlfID) (kid : list byte) (md : MDServerLocal DB) : Prop :=
  ∃ m, ldb_map (md_locksDb md) = Some m ∧ m !! getTruncateLockKey id = Some kid.

(** The calls that end the hold of a device: its own unlock, and the end of
    the server. *)
Definition releases (id : TlfID) (kid : list byte) (c : md_call) : Prop :=
  match c with
  | CallUnlock ss id' => id' = id ∧ getCurrentDeviceKIDBytes ss = Ok kid
  | CallShutdown => True
  | _ => False
  end.

Lemma lock_key_inj id id' : getTruncateLockKey id = getTruncateLockKey id' → id = id'.
Proof. destruct id, id'. unfold getTruncateLockKey. naive_solver. Qed.

Definition same_locks (db : DB) (md : MDServerLocal DB) : Prop := md_locksDb md = db.

Lemma md_Put_locks ss rmds db : go_preserves (same_locks db) (md_Put ss rmds).
Proof.
  unfold md_Put, get, lift_res.
  apply go_preserves_bind; [by intros s Hs|]. intros md. apply go_preserves_bind; [by intros s Hs|]. intros rb.
  apply go_preserves_bind.
  { destruct rb; [|apply go_preserves_ret]. intros s Hs. unfold record_branch. repeat (case_match; try done). }
  intros _. apply go_preserves_bind.
  { intros s Hs. unfold write_md. repeat (case_match; try done). }
  intros _ s Hs. unfold notify. repeat (case_match; try done).
Qed.

Lemma addNewAssertion_locks uid a db : go_preserves (same_locks db) (addNewAssertionForTest uid a).
Proof.
  intros s Hs. unfold addNewAssertionForTest. destruct (md_shutdown s); [done|].
  destruct (ldb_Iterate _ _) as [l err].
  assert (same_locks db (snd (go_for l (add_assertion uid a) s))) as Hl.
  { apply (go_preserves_for (same_locks db)); [|done]. intros e _ md' Hmd'.
    unfold add_assertion. repeat (case_match; try done). }
  destruct (go_for l _ s) as [[u|e|p] md']; done.
Qed.

Lemma run_call_locks id kid c md :
  lock_held id kid md → ¬ releases id kid c → lock_held id kid (run_call c md).
Proof.
  intros (m & Hm & Hk) Hrel.
  assert (∀ md', same_locks (md_locksDb md) md' → lock_held id kid md') as Hsame.
  { intros md' Hs. exists m. by rewrite Hs. }
  destruct c; simpl in *.
  - apply Hsame. by apply md_Put_locks.
  - apply Hsame. unfold PruneBranch. repeat (case_match; try done).
  - apply Hsame. unfold RegisterForUpdate. repeat (case_match; try done).
  - apply Hsame. unfold GetForHandle. repeat (case_match; try done).
  - unfold TruncateLock. destruct (getCurrentDeviceKIDBytes ss) as [kid'|e|p]; [|by apply Hsame..].
    rewrite (ldb_Get_law _ m) by done. destruct (m !! getTruncateLockKey id0) eqn:E.
    + case_decide; by apply Hsame.
    + destruct (ldb_Put_law _ m (getTruncateLockKey id0) kid' Hm) as (db & -> & Hdb). simpl.
      eexists. split; [done|]. rewrite lookup_insert_ne by congruence. done.
  - unfold TruncateUnlock. destruct (getCurrentDeviceKIDBytes ss) as [kid'|e|p] eqn:Ek; [|by apply Hsame..].
    rewrite (ldb_Get_law _ m) by done. destruct (m !! getTruncateLockKey id0) eqn:E; [|by apply Hsame].
    case_decide as Hl; [|by apply Hsame].
    destruct (ldb_Delete_law _ m (getTruncateLockKey id0) Hm) as (db & -> & Hdb). simpl.
    eexists. split; [done|]. rewrite lookup_delete_ne; [done|].
    intros Heq%lock_key_inj. subst id0. rewrite Hk in E. simplify_eq. by destruct Hrel.
  - apply Hsame. by apply addNewAssertion_locks.
  - done.
Qed.

Lemma run_calls_locks id kid cs md :
  lock_held id kid md → Forall (λ c, ¬ releases id kid c) cs → lock_held id kid (run_calls cs md).
Proof.
  intros Hl Hcs. revert md Hl. induction Hcs as [|c cs Hc Hcs IH]; intros md Hl; [done|].
  simpl. apply IH. by apply run_call_locks.
Qed.

(** The truncation lock of a folder excludes: once a device has it,
    and until that device unlocks (or the server ends), the device keeps it
    and no other device can take or release it; when it unlocks, another
    device can take the lock. *)
Theorem TruncateLock_exclusive md m ss ss' id kid kid' md1 cs :
  ldb_map (md_locksDb md) = Some m →
  getCurrentDeviceKIDBytes ss = Ok kid → getCurrentDeviceKIDBytes ss' = Ok kid' → kid' ≠ kid →
  TruncateLock ss id md = (Ok true, md1) → Forall (λ c, ¬ releases id kid c) cs →
  let md2 := run_calls cs md1 in
  TruncateLock ss' id md2 = (Err MDServerErrorLocked, md2) ∧
  TruncateUnlock ss' id md2 = (Err MDServerErrorLocked, md2) ∧
  TruncateLock ss id md2 = (Ok true, md2) ∧
  ∃ md3, TruncateUnlock ss id md2 = (Ok true, md3) ∧ fst (TruncateLock ss' id md3) = Ok true.
Proof.
  intros Hm Hkid Hkid' Hne Hlock Hcs.
  assert (lock_held id kid md1) as Hheld.
  { unfold TruncateLock in Hlock. rewrite Hkid, (ldb_Get_law _ m) in Hlock by done.
    destruct (m !! getTruncateLockKey id) as [lb|] eqn:E.
    - case_decide; [|done]. injection Hlock as <-. subst lb. by exists m.
    - destruct (ldb_Put_law _ m (getTruncateLockKey id) kid Hm) as (db & Hp & Hdb). rewrite Hp in Hlock.
      injection Hlock as <-. eexists. split; [done|]. apply lookup_insert_eq. }
  destruct (run_calls_locks id kid cs md1 Hheld Hcs) as (m2 & Hm2 & Hk2).
  set (md2 := run_calls cs md1) in *.
  cbv zeta. split; [|split; [|split]].
  - unfold TruncateLock. rewrite Hkid', (ldb_Get_law _ m2), Hk2 by done. by rewrite decide_False by congruence.
  - unfold TruncateUnlock. rewrite Hkid', (ldb_Get_law _ m2), Hk2 by done. by rewrite decide_False by congruence.
  - unfold TruncateLock. rewrite Hkid, (ldb_Get_law _ m2), Hk2 by done. by rewrite decide_True.
  - unfold TruncateUnlock. rewrite Hkid, (ldb_Get_law _ m2), Hk2 by done. rewrite decide_True by done.
    destruct (ldb_Delete_law _ m2 (getTruncateLockKey id) Hm2) as (db & -> & Hdb).
    eexists. split; [done|]. unfold TruncateLock. rewrite Hkid'. cbn [md_locksDb set_locksDb].
    rewrite (ldb_Get_law db _ _ Hdb), lookup_delete_eq.
    destruct (ldb_Put_law db _ (getTruncateLockKey id) kid' Hdb) as (db' & -> & _). done.
Qed.

End calls.
