(* ===== verification/MDClient.v ===== *)
(** * MDClient: the metadata a client makes is accepted

    Composition of [Metadata] and [MDServer]: a client takes the head of a
    branch, makes its successor ([MakeSuccessor]), records block changes in
    it ([md_AddRefBlock], [md_AddUnrefBlock], [md_AddUpdate], [md_AddOp]),
    seals it, and sends it; the checks of [md_Put] on revision, hash and
    disk usage succeed. *)

From Stdlib Require Import ZArith Lia.
From S2P Require Import Prelude Types Errors GoStd Ids CryptoCommon DataTypes Ops ConflictInfo Handles KeyBundles Metadata LevelDb MDServer MDServerSpec MDServerOps.

(** ** Block changes keep the accounts *)

Inductive md_change :=
| AddRef (info : BlockInfo)
| AddUnref (info : BlockInfo)
| AddUpd (oldInfo newInfo : BlockInfo)
| AddAnOp (o : op).

Definition run_change (c : md_change) : go RootMetadata unit :=
  match c with
  | AddRef info => md_AddRefBlock info
  | AddUnref info => md_AddUnrefBlock info
  | AddUpd oldInfo newInfo => md_AddUpdate oldInfo newInfo
  | AddAnOp o => md_AddOp o
  end.

Definition run_changes (cs : list md_change) : go RootMetadata unit := go_for cs run_change.

(** Fields that block changes leave alone. *)
Record same_identity (md md' : BareRootMetadata) : Prop := {
  si_ID : bm_ID md' = bm_ID md;
  si_BID : bm_BID md' = bm_BID md;
  si_WFlags : wm_WFlags (bm_WriterMetadata md') = wm_WFlags (bm_WriterMetadata md);
  si_Flags : bm_Flags md' = bm_Flags md;
  si_Revision : bm_Revision md' = bm_Revision md;
  si_PrevRoot : bm_PrevRoot md' = bm_PrevRoot md
}.

(** The disk usage is that of the predecessor, [usage], and what the
    revision refers to and drops. *)
Definition accounts (usage : Z) (md : BareRootMetadata) : Prop :=
  bm_DiskUsage md = to_u64 (usage + (bm_RefBytes md - bm_UnrefBytes md)).

Lemma same_identity_refl md : same_identity md md.
Proof. done. Qed.

Lemma same_identity_trans md1 md2 md3 : same_identity md1 md2 → same_identity md2 md3 → same_identity md1 md3.
Proof. intros [] []. split; congruence. Qed.

Lemma to_u64_quot x : ∃ q, to_u64 x = (x + q * 2 ^ 64)%Z.
Proof. exists (- (x / 2 ^ 64))%Z. unfold to_u64. rewrite Z.mod_eq; lia. Qed.

Lemma to_u64_cong x y q : x = (y + q * 2 ^ 64)%Z → to_u64 x = to_u64 y.
Proof. intros ->. unfold to_u64. by rewrite Z.mod_add. Qed.

Lemma accounts_add usage d r u n o : d = to_u64 (usage + (r - u)) →
  to_u64 (to_u64 (d + n) - o) = to_u64 (usage + (to_u64 (r + n) - to_u64 (u + o))).
Proof.
  intros ->. destruct (to_u64_quot (usage + (r - u))) as [q1 ->].
  match goal with |- to_u64 (to_u64 ?x - _) = _ => destruct (to_u64_quot x) as [q2 ->] end.
  destruct (to_u64_quot (r + n)) as [q3 ->], (to_u64_quot (u + o)) as [q4 ->].
  apply (to_u64_cong _ _ (q1 + q2 - q3 + q4)). lia.
Qed.

Lemma to_u64_idemp x : to_u64 (to_u64 x) = to_u64 x.
Proof. unfold to_u64. apply Z.mod_mod. lia. Qed.

(** Every change keeps the accounts, also when it fails. *)
Lemma run_change_accounts c usage md :
  accounts usage (rmd_bare md) → (0 <= bm_RefBytes (rmd_bare md) < 2 ^ 64)%Z →
  (0 <= bm_UnrefBytes (rmd_bare md) < 2 ^ 64)%Z →
  let md' := rmd_bare (snd (run_change c md)) in
  same_identity (rmd_bare md) md' ∧ accounts usage md' ∧
  (0 <= bm_RefBytes md' < 2 ^ 64)%Z ∧ (0 <= bm_UnrefBytes md' < 2 ^ 64)%Z.
Proof.
  intros Ha Hr Hu. unfold accounts in *. destruct c; simpl; unfold md_AddRefBlock, md_AddUnrefBlock, md_AddUpdate, md_AddOp.
  - destruct (BC_AddRefBlock _ _) as [r bc]. simpl. unfold bm_DiskUsage, bm_RefBytes, bm_UnrefBytes in *. simpl in *.
    split; [done|]. split; [|split; [apply to_u64_bound|done]].
    pose proof (accounts_add usage _ _ _ (bi_EncodedSize info) 0 Ha) as Hadd.
    rewrite Z.sub_0_r, Z.add_0_r, to_u64_idemp, (to_u64_small (wm_UnrefBytes _)) in Hadd by done. done.
  - case_decide; [|done]. destruct (BC_AddUnrefBlock _ _) as [r bc]. simpl.
    unfold bm_DiskUsage, bm_RefBytes, bm_UnrefBytes in *. simpl in *.
    split; [done|]. split; [|split; [done|apply to_u64_bound]].
    pose proof (accounts_add usage _ _ _ 0 (bi_EncodedSize info) Ha) as Hadd.
    rewrite !Z.add_0_r, (to_u64_small (wm_RefBytes _)) in Hadd by done.
    rewrite (to_u64_small (wm_DiskUsage _)) in Hadd by (rewrite Ha; apply to_u64_bound). done.
  - case_decide; [|done]. destruct (BC_AddUpdate _ _ _) as [r bc]. simpl.
    unfold bm_DiskUsage, bm_RefBytes, bm_UnrefBytes in *. simpl in *.
    split; [done|]. split; [|split; apply to_u64_bound]. by apply accounts_add.
  - destruct (BC_AddOp o (pmd_Changes (rmd_data md))) as [r bc]. done.
Qed.

Lemma run_changes_accounts cs usage md :
  accounts usage (rmd_bare md) → (0 <= bm_RefBytes (rmd_bare md) < 2 ^ 64)%Z →
  (0 <= bm_UnrefBytes (rmd_bare md) < 2 ^ 64)%Z →
  let md' := rmd_bare (snd (run_changes cs md)) in
  same_identity (rmd_bare md) md' ∧ accounts usage md'.
Proof.
  intros Ha Hr Hu. cbv zeta.
  pose (I := λ m, same_identity (rmd_bare md) (rmd_bare m) ∧ accounts usage (rmd_bare m) ∧
    (0 <= bm_RefBytes (rmd_bare m) < 2 ^ 64)%Z ∧ (0 <= bm_UnrefBytes (rmd_bare m) < 2 ^ 64)%Z).
  assert (I (snd (run_changes cs md))) as (? & ? & _); [|done].
  apply (go_preserves_for I); [|done].
  intros c _ m (Hs & Ham & Hrm & Hum).
  destruct (run_change_accounts c usage m Ham Hrm Hum) as (? & ? & ? & ?).
  split; [by eapply same_identity_trans|done].
Qed.

(** ** Successors *)

Section successor.
Context `{Codec WriterMetadata, Codec SignatureInfo, Codec (gmap KID TLFCryptKeyInfo),
  Codec BareRootMetadata, Codec PrivateMetadata, Codec TlfHandle}.

Lemma deepCopy_bare md copyHandle md' : deepCopy md copyHandle = Ok md' → rmd_bare md' = rmd_bare md.
Proof.
  unfold deepCopy. intros (bare & Hb & (data & _ & (h & _ & [= <-])%bind_Ok)%bind_Ok)%bind_Ok.
  simpl. by apply CodecUpdate_same.
Qed.

(** The id that a metadata caches is its own. *)
Definition id_cached (md : RootMetadata) : Prop :=
  rmd_mdID md = zeroMdID ∨ MakeMdID (rmd_bare md) = Ok (rmd_mdID md).

Lemma MetadataID_Ok md id md' : id_cached md → MetadataID md = (Ok id, md') → MakeMdID (rmd_bare md) = Ok id.
Proof.
  intros Hc. unfold MetadataID. case_decide as Hz.
  - intros [= <- _]. by destruct Hc.
  - by destruct (MakeMdID (rmd_bare md)); intros [= -> _].
Qed.

Lemma clear_copied f :
  negb (Z.land (Z.land f (Z.lxor 255 MetadataFlagWriterMetadataCopied)) MetadataFlagWriterMetadataCopied =? 0)%Z = false.
Proof. rewrite <- Z.land_assoc. change (Z.land (Z.lxor 255 _) _) with 0%Z. by rewrite Z.land_0_r. Qed.

(** What a writer's successor of readable metadata is. *)
Lemma MakeSuccessor_spec md newMd md' :
  id_cached md → IsReadable md = true → (MetadataRevisionInitial <= bm_Revision (rmd_bare md))%Z →
  (0 <= bm_DiskUsage (rmd_bare md) < 2 ^ 64)%Z →
  MakeSuccessor true md = (Ok newMd, md') →
  bm_ID (rmd_bare newMd) = bm_ID (rmd_bare md) ∧ bm_BID (rmd_bare newMd) = bm_BID (rmd_bare md) ∧
  MergedStatus (rmd_bare newMd) = MergedStatus (rmd_bare md) ∧
  IsWriterMetadataCopiedSet (rmd_bare newMd) = false ∧
  bm_Revision (rmd_bare newMd) = (bm_Revision (rmd_bare md) + 1)%Z ∧
  MakeMdID (rmd_bare md) = Ok (bm_PrevRoot (rmd_bare newMd)) ∧
  accounts (bm_DiskUsage (rmd_bare md)) (rmd_bare newMd) ∧
  bm_RefBytes (rmd_bare newMd) = 0%Z ∧ bm_UnrefBytes (rmd_bare newMd) = 0%Z.
Proof.
  intros Hc Hread Hrev Hdu. unfold MakeSuccessor. destruct (IsFinal _); [done|].
  destruct (deepCopy md true) as [copy|e|p] eqn:Hcopy; [|done..]. rewrite Hread. cbn [andb].
  destruct (MetadataID md) as [[id|e|p] md1] eqn:Hid; [|done..]. intros [= <- _].
  apply MetadataID_Ok in Hid; [|done]. apply deepCopy_bare in Hcopy.
  unfold increment, clearLastRevision, ClearBlockChanges. simpl. rewrite !Hcopy.
  rewrite decide_False by lia. unfold accounts, bm_DiskUsage, bm_RefBytes, bm_UnrefBytes in *. simpl.
  split; [done|]. split; [done|]. split; [done|]. split; [apply clear_copied|]. split; [done|].
  split; [done|]. split; [|done]. by rewrite Z.add_0_r, to_u64_small.
Qed.
End successor.

(** ** Acceptance *)

Section client.
Context {DB : Type} `{LevelDBLaws DB}.
Context `{Codec WriterMetadata, Codec SignatureInfo, Codec (gmap KID TLFCryptKeyInfo),
  Codec BareRootMetadata, Codec PrivateMetadata, Codec TlfHandle,
  Codec BareTlfHandle, Codec BranchID, Codec mdBlockLocal}.
Context `{!EncodeTotal mdBlockLocal, !EncodeTotal BranchID}.
Context (L : Z) (HL : (L < 2 ^ 63)%Z).

(** What sealing and signing leave as the client made it. *)
Record sealed (md : BareRootMetadata) (rmds : BareRootMetadata) : Prop := {
  se_identity : same_identity md rmds;
  se_usage : bm_DiskUsage rmds = bm_DiskUsage md;
  se_ref : bm_RefBytes rmds = bm_RefBytes md;
  se_unref : bm_UnrefBytes rmds = bm_UnrefBytes md
}.

Lemma sealed_serialized md data : sealed md (set_wm (wm_set_serialized data) md).
Proof. done. Qed.

(** What the client made, sealed, follows the head it started from. *)
Lemma successor_follows cur newMd cur' cs rmds :
  id_cached cur → IsReadable cur = true → (MetadataRevisionInitial <= bm_Revision (rmd_bare cur))%Z →
  (0 <= bm_DiskUsage (rmd_bare cur) < 2 ^ 64)%Z →
  MakeSuccessor true cur = (Ok newMd, cur') → sealed (rmd_bare (snd (run_changes cs newMd))) rmds →
  bm_ID rmds = bm_ID (rmd_bare cur) ∧ bm_BID rmds = bm_BID (rmd_bare cur) ∧
  MergedStatus rmds = MergedStatus (rmd_bare cur) ∧ follows (rmd_bare cur) rmds.
Proof.
  intros Hc Hread Hrev Hdu Hsucc Hseal.
  destruct (MakeSuccessor_spec cur newMd cur' Hc Hread Hrev Hdu Hsucc)
    as (HID & HBID & Hms & Hcopied & Hrev' & Hprev & Hacc & Href & Hunref).
  destruct (run_changes_accounts cs _ newMd Hacc) as [Hsame Hacc']; [rewrite Href; lia|rewrite Hunref; lia|].
  destruct Hseal as [[I1 I2 I3 I4 I5 I6] U R U']. destruct Hsame as [J1 J2 J3 J4 J5 J6].
  split; [congruence|]. split; [congruence|]. split.
  { rewrite <- Hms. unfold MergedStatus. by rewrite I3, J3. }
  split; [congruence|congruence|].
  assert (IsWriterMetadataCopiedSet rmds = false) as ->.
  { rewrite <- Hcopied. unfold IsWriterMetadataCopiedSet, has_flag. by rewrite I4, J4. }
  rewrite U, R, U'. exact Hacc'.
Qed.

(** A client that starts from the head of a branch, makes its
    successor, records any changes and seals the result has it accepted by
    the server, provided it may write to the folder. *)
Theorem successor_accepted md hs B ss cur hd newMd cur' cs rmds :
  holds L md hs B → obs_ok md → md_shutdown md = false →
  last (history hs (bm_ID (rmd_bare cur)) (bm_BID (rmd_bare cur))) = Some hd →
  rmds_MD (mbl_MD hd) = rmd_bare cur → id_cached cur → IsReadable cur = true →
  (MetadataRevisionInitial <= bm_Revision (rmd_bare cur))%Z → (bm_Revision (rmd_bare cur) + 1 < L)%Z →
  (0 <= bm_DiskUsage (rmd_bare cur) < 2 ^ 64)%Z →
  MakeSuccessor true cur = (Ok newMd, cur') →
  sealed (rmd_bare (snd (run_changes cs newMd))) (rmds_MD rmds) →
  isWriterOrValidRekey ss (bm_ID (rmd_bare cur)) (rmds_MD rmds) md = Ok true →
  ∃ md' B', md_Put ss rmds md = (Ok tt, md') ∧
    holds L md' (append hs (MkMdBlockLocal rmds (ss_now ss))) B'.
Proof.
  intros Hh Ho Hsd Hlast Hhd Hc Hread Hrev Hlim Hdu Hsucc Hseal Hperm.
  destruct (successor_follows cur newMd cur' cs _ Hc Hread Hrev Hdu Hsucc Hseal) as (HID & HBID & Hms & Hfol).
  rewrite <- HID, <- HBID in Hlast. rewrite <- HID in Hperm. rewrite <- Hhd in Hfol.
  eapply md_Put_accepts; [done..| | |done].
  - rewrite Hms, <- Hhd. pose proof (last_elem _ _ Hlast) as Hin.
    destruct (ho_name _ _ _ _ (history_hist_ok _ _ _ _ _ (hd_ok _ _ _ _ Hh) Hin) hd Hin) as (_ & _ & ->). done.
  - rewrite Hhd in Hfol. rewrite (fo_rev _ _ Hfol). lia.
Qed.
End client.
