(* ===== verification/MDServerExamples.v ===== *)
(** * MDServerExamples: witnesses for the metadata server

    A LevelDB over a finite map, codecs for the metadata, and a public
    folder with a first revision. *)

From Stdlib Require Import ZArith Lia Sorted.
From stdpp Require Import sorting numbers.
From S2P Require Import Prelude Types Errors GoStd Ids CryptoCommon DataTypes Ops ConflictInfo Handles KeyBundles Metadata Examples LevelDb MDServer MDServerSpec MDServerOps MDServerThms MDClient.

(** ** A database in memory *)

Definition key_le (e e' : list byte * list byte) : Prop := ¬ bytes_lt (fst e') (fst e).
#[global] Instance key_le_dec e e' : Decision (key_le e e').
Proof. unfold key_le. apply _. Defined.
#[global] Instance key_le_total : Total key_le.
Proof.
  intros [k v] [k' v']. unfold key_le. simpl. destruct (decide (bytes_lt k' k)) as [Hlt|]; [|by left].
  right. intros Hlt'. by eapply bytes_lt_irrefl, bytes_lt_trans.
Qed.
#[global] Instance key_le_trans : Transitive key_le.
Proof.
  intros [k1 v1] [k2 v2] [k3 v3] H12 H23. unfold key_le in *. simpl in *. intros H31.
  destruct (bytes_lt_total k2 k1) as [?|[->|?]]; [done..|].
  apply H23. by eapply bytes_lt_trans.
Qed.

Definition mem_entries (r : option (list byte * list byte)) (m : gmap (list byte) (list byte))
    : list (list byte * list byte) :=
  merge_sort key_le (filter (λ e, in_range r (fst e) = true) (map_to_list m)).

Lemma mem_entries_elem r m k v : (k, v) ∈ mem_entries r m ↔ m !! k = Some v ∧ in_range r k = true.
Proof.
  unfold mem_entries. rewrite merge_sort_Permutation, list_elem_of_filter, elem_of_map_to_list. simpl. tauto.
Qed.

Lemma mem_entries_sorted r m : StronglySorted key_lt (mem_entries r m).
Proof.
  assert (StronglySorted key_le (mem_entries r m)) as Hs by (by apply (StronglySorted_merge_sort key_le)).
  assert (NoDup (mem_entries r m)) as Hnd.
  { unfold mem_entries. rewrite merge_sort_Permutation. apply NoDup_filter, NoDup_map_to_list. }
  assert (∀ e e', e ∈ mem_entries r m → e' ∈ mem_entries r m → fst e = fst e' → e = e') as Hinj.
  { intros [k v] [k' v'] [He _]%mem_entries_elem [He' _]%mem_entries_elem. simpl. naive_solver. }
  revert Hnd Hinj. generalize (mem_entries r m) Hs. clear. intros l Hs.
  induction Hs as [|e l Hs IH Hall]; intros [He Hnd]%NoDup_cons || intros ?; [constructor|].
  intros Hinj. constructor; [apply IH; [done|set_solver]|].
  rewrite Forall_forall in Hall |- *. intros e' He'. unfold key_lt.
  destruct (bytes_lt_total (fst e) (fst e')) as [?|[Heq|Hlt]]; [done| |by destruct (Hall e' He')].
  exfalso. apply He. rewrite (Hinj e e'); [done|set_solver|set_solver|done].
Qed.

Definition memdb := option (gmap (list byte) (list byte)).

#[global] Instance memdb_leveldb : LevelDB memdb := {|
  ldb_Get k db := match db with
                  | None => Err LeveldbErrClosed
                  | Some m => match m !! k with Some v => Ok v | None => Err LeveldbErrNotFound end
                  end;
  ldb_Write batch db := match db with
                        | None => (Err LeveldbErrClosed, db)
                        | Some m => (Ok tt, Some (put_batch batch m))
                        end;
  ldb_Delete k db := match db with
                     | None => (Err LeveldbErrClosed, db)
                     | Some m => (Ok tt, Some (delete k m))
                     end;
  ldb_Iterate r db := match db with
                      | None => ([], Some LeveldbErrClosed)
                      | Some m => (mem_entries r m, None)
                      end;
  ldb_Close db := None
|}.

#[global] Program Instance memdb_laws : LevelDBLaws memdb := {| ldb_map db := db |}.
Next Obligation. by intros db m k ->. Qed.
Next Obligation. intros db m batch ->. by eexists. Qed.
Next Obligation. intros db m k ->. by eexists. Qed.
Next Obligation.
  intros db m r ->. exists (mem_entries r m). split; [done|]. split; [apply mem_entries_sorted|].
  apply mem_entries_elem.
Qed.
Next Obligation. by intros db k batch r ->. Qed.
Next Obligation. done. Qed.

(** ** Codecs *)

#[global] Instance encryptedData_countable : Countable encryptedData.
Proof.
  by apply (inj_countable' (λ e, (ed_Version e, ed_EncryptedData e, ed_Nonce e))
    (λ '(v, d, n), MkEncryptedData v d n)); intros [].
Defined.
#[global] Instance HMAC_countable : Countable HMAC.
Proof. by apply (inj_countable' hmac_h MkHMAC); intros []. Defined.
#[global] Instance MdID_countable : Countable MdID.
Proof. by apply (inj_countable' md_id_h MkMdID); intros []. Defined.
#[global] Instance TLFCryptKeyInfo_countable : Countable TLFCryptKeyInfo.
Proof.
  by apply (inj_countable' (λ e, (tki_ClientHalf e, tki_ServerHalfID e, tki_EPubKeyIndex e))
    (λ '(v, d, n), MkTLFCryptKeyInfo v d n)); intros [].
Defined.
#[global] Instance TLFWriterKeyBundle_countable : Countable TLFWriterKeyBundle.
Proof.
  by apply (inj_countable' (λ e, (wkb_WKeys e : gmap UID (gmap KID TLFCryptKeyInfo), wkb_TLFPublicKey e,
    wkb_TLFEphemeralPublicKeys e)) (λ '(v, d, n), MkTLFWriterKeyBundle v d n)); intros [].
Defined.
#[global] Instance TLFReaderKeyBundle_countable : Countable TLFReaderKeyBundle.
Proof.
  by apply (inj_countable' (λ e, (rkb_RKeys e : gmap UID (gmap KID TLFCryptKeyInfo),
    rkb_TLFReaderEphemeralPublicKeys e)) (λ '(v, d), MkTLFReaderKeyBundle v d)); intros [].
Defined.
#[global] Instance SignatureInfo_countable : Countable SignatureInfo.
Proof.
  by apply (inj_countable' (λ e, (sig_Version e, sig_Signature e, sig_VerifyingKey e))
    (λ '(v, d, n), MkSignatureInfo v d n)); intros [].
Defined.
#[global] Instance ConflictInfo_countable : Countable ConflictInfo.
Proof. by apply (inj_countable' (λ e, (ci_Date e, ci_Number e)) (λ '(v, d), MkConflictInfo v d)); intros []. Defined.
#[global] Instance WriterMetadata_countable : Countable WriterMetadata.
Proof.
  by apply (inj_countable' (λ w, (wm_SerializedPrivateMetadata w, wm_LastModifyingWriter w, wm_Writers w,
      wm_WKeys w : list TLFWriterKeyBundle, wm_ID w, wm_BID w, wm_WFlags w, wm_DiskUsage w, wm_RefBytes w, wm_UnrefBytes w,
      wm_UnresolvedWriters w))
    (λ '(a, b, c, d, e, f, g, h, i, j, k), MkWriterMetadata a b c d e f g h i j k)); intros [].
Defined.
#[global] Instance BareRootMetadata_countable : Countable BareRootMetadata.
Proof.
  by apply (inj_countable' (λ w, (bm_WriterMetadata w, bm_WriterMetadataSigInfo w, bm_LastModifyingUser w,
      bm_Flags w, bm_Revision w, bm_PrevRoot w, bm_RKeys w : list TLFReaderKeyBundle, bm_UnresolvedReaders w, bm_ConflictInfo w))
    (λ '(a, b, c, d, e, f, g, h, i), MkBareRootMetadata a b c d e f g h i)); intros [].
Defined.
#[global] Instance RootMetadataSigned_countable : Countable RootMetadataSigned.
Proof. by apply (inj_countable' (λ e, (rmds_SigInfo e, rmds_MD e)) (λ '(v, d), MkRootMetadataSigned v d)); intros []. Defined.
#[global] Instance mdBlockLocal_eq_dec : EqDecision mdBlockLocal.
Proof. solve_decision. Defined.
#[global] Instance mdBlockLocal_countable : Countable mdBlockLocal.
Proof. by apply (inj_countable' (λ e, (mbl_MD e, mbl_Timestamp e)) (λ '(v, d), MkMdBlockLocal v d)); intros []. Defined.
#[global] Instance BareTlfHandle_countable : Countable BareTlfHandle.
Proof.
  by apply (inj_countable' (λ h, (h_Writers h, h_Readers h, h_UnresolvedWriters h, h_UnresolvedReaders h, h_ConflictInfo h))
    (λ '(a, b, c, d, e), MkBareTlfHandle a b c d e)); intros [].
Defined.

#[global] Instance WriterMetadata_codec : Codec WriterMetadata := countable_codec.
#[global] Instance SignatureInfo_codec : Codec SignatureInfo := countable_codec.
#[global] Instance DeviceKeyInfoMap_codec : Codec (gmap KID TLFCryptKeyInfo) := countable_codec.
#[global] Instance BareRootMetadata_codec : Codec BareRootMetadata := countable_codec.
#[global] Instance BareTlfHandle_codec : Codec BareTlfHandle := countable_codec.
#[global] Instance BranchID_codec : Codec BranchID := countable_codec.
#[global] Instance mdBlockLocal_codec : Codec mdBlockLocal := countable_codec.
#[global] Instance mdBlockLocal_total : EncodeTotal mdBlockLocal.
Proof. intros b. by eexists. Qed.
#[global] Instance BranchID_total : EncodeTotal BranchID.
Proof. intros b. by eexists. Qed.

(** ** A public folder with one revision *)

Definition ex_L : Z := 4294967296.
Definition ex_tlf : TlfID := MkTlfID (replicate 15 x01 ++ [PubTlfIDSuffix]).
Definition ex_wm : WriterMetadata :=
  MkWriterMetadata (Some [x2a]) "w" ["w"] [] ex_tlf NullBranchID 0 10 10 0 [].
Definition ex_bare : BareRootMetadata :=
  MkBareRootMetadata ex_wm (MkSignatureInfo 1 [] "aa") "w" 0 1%Z zeroMdID [] [] None.
Definition ex_rmds : RootMetadataSigned := MkRootMetadataSigned (MkSignatureInfo 1 [] "aa") ex_bare.
Definition ex_block : mdBlockLocal := MkMdBlockLocal ex_rmds 7.
Definition ex_w : Session := MkSession 1 (Ok "w") (Ok "aa") 7 [].
Definition ex_r : Session := MkSession 2 (Ok "r") (Ok "bb") 8 [].

Definition ex_server0 : MDServerLocal memdb :=
  newMDServerLocalWithStorage (Some ∅) (Some ∅) (Some ∅) (Some ∅).
Definition ex_server1 : MDServerLocal memdb := snd (md_Put ex_w ex_rmds ex_server0).

Lemma ex_HL : (ex_L < 2 ^ 63)%Z.
Proof. done. Qed.

Lemma ex_put_ok : put_ok ex_L (rmds_MD ex_rmds).
Proof. split; [done|done|by left|split; done]. Qed.

Lemma ex_holds0 : holds ex_L ex_server0 ∅ ∅ ∧ obs_ok ex_server0.
Proof. by apply new_server_holds. Qed.

Lemma ex_put : md_Put ex_w ex_rmds ex_server0 = (Ok tt, ex_server1).
Proof. rewrite (surjective_pairing (md_Put _ _ _)). f_equal. Qed.

(** After the put, the history of the folder has the one revision. *)
Lemma ex_holds1 : ∃ B, holds ex_L ex_server1 (append ∅ ex_block) B ∧ obs_ok ex_server1 ∧
  md_shutdown ex_server1 = false.
Proof.
  destruct ex_holds0 as [Hh Ho].
  destruct (md_Put_spec ex_L ex_HL _ _ _ _ _ _ _ Hh Ho ex_put_ok ex_put)
    as [(_ & _ & _ & [rb Hh'] & Hsd & Hn)|[Hr _]]; [|done].
  eexists. split; [exact Hh'|]. split; [|done].
  exact (notified_obs_ok ex_w ex_tlf ex_server0 ex_server1 Hn Ho).
Qed.

Lemma ex_isReader md hs B : holds ex_L md hs B → last (history hs ex_tlf NullBranchID) = Some ex_block →
  isReader ex_r ex_tlf md = Ok true.
Proof.
  intros Hh Hl. unfold isReader, checkPerms. change Merged with (status_of NullBranchID).
  rewrite (getHeadForTLF_spec ex_L ex_HL md hs B) by done. rewrite Hl. done.
Qed.

Lemma ex_isWriter md hs B newMd : holds ex_L md hs B → last (history hs ex_tlf NullBranchID) = Some ex_block →
  isWriterOrValidRekey ex_w ex_tlf newMd md = Ok true.
Proof.
  intros Hh Hl. unfold isWriterOrValidRekey, checkPerms. change Merged with (status_of NullBranchID).
  rewrite (getHeadForTLF_spec ex_L ex_HL md hs B) by done. rewrite Hl. done.
Qed.

Lemma ex_history : history (append ∅ ex_block) ex_tlf NullBranchID = [ex_block].
Proof. etrans; [apply (history_append_eq ∅ ex_block)|]. by rewrite history_empty. Qed.

(** A reader that waits from before the first revision. *)
Definition ex_server_r : MDServerLocal memdb := snd (RegisterForUpdate ex_r ex_tlf 0%Z ex_server0).
Definition ex_server_r1 : MDServerLocal memdb := snd (md_Put ex_w ex_rmds ex_server_r).

Lemma ex_put_r : md_Put ex_w ex_rmds ex_server_r = (Ok tt, ex_server_r1).
Proof. rewrite (surjective_pairing (md_Put _ _ _)). f_equal. Qed.

Lemma ex_holds_r : ∃ hs B, holds ex_L ex_server_r hs B ∧ obs_ok ex_server_r.
Proof.
  destruct ex_holds0 as [Hh Ho].
  destruct (run_call_inv ex_L ex_HL (CallRegister ex_r ex_tlf 0%Z) ex_server0 ∅ ∅ Hh Ho)
    as (hs & B & Hh' & Ho' & _); [done..|]. by exists hs, B.
Qed.

Definition ex_md_calls : list md_call :=
  [CallRegister ex_r ex_tlf 0%Z; CallPutMD ex_w ex_rmds; CallLock ex_r ex_tlf].

Lemma ex_md_calls_alive : md_shutdown (run_calls ex_md_calls ex_server0) = false.
Proof.
  change (run_calls ex_md_calls ex_server0) with (snd (TruncateLock ex_r ex_tlf ex_server_r1)).
  rewrite (sm_shutdown _ _ (TruncateLock_same ex_r ex_tlf ex_server_r1)).
  destruct ex_holds_r as (hs & B & Hh & Ho).
  by destruct (md_Put_spec ex_L ex_HL _ _ _ _ _ _ _ Hh Ho ex_put_ok ex_put_r)
    as [(_ & _ & _ & _ & Hsd & _)|[Hr _]].
Qed.

Lemma md_server_histories_witness :
  ∃ hs B, let md := run_calls ex_md_calls ex_server0 in
    holds ex_L md hs B ∧ (∀ id bid, linked (history hs id bid)) ∧ forks_ok hs ∧ obs_ok md.
Proof.
  apply (md_server_histories ex_L ex_HL (Some ∅) (Some ∅) (Some ∅) (Some ∅) ex_md_calls);
    [done|done| |exact ex_md_calls_alive].
  repeat constructor; apply ex_put_ok.
Defined.

Lemma GetRange_revisions_witness :
  GetRange ex_r ex_tlf NullBranchID Merged 1%Z 1%Z ex_server1 = Ok [ex_block].
Proof.
  destruct ex_holds1 as (B & Hh & Ho & Hsd).
  assert (isReader ex_r ex_tlf ex_server1 = Ok true) as Hrd
    by (eapply ex_isReader; [exact Hh|by rewrite ex_history]).
  destruct (GetRange_revisions ex_L ex_HL ex_server1 _ B ex_r ex_tlf NullBranchID Merged NullBranchID 1%Z 1%Z
    Hh Hsd eq_refl eq_refl Hrd (conj eq_refl eq_refl)) as [-> _];
    [lia|lia|by intros _|lia|]. by rewrite ex_history.
Defined.

Lemma Put_extends_or_refuses_witness :
  extends ex_L ∅ ex_block ∧ ∃ B', holds ex_L ex_server1 (append ∅ ex_block) B'.
Proof.
  destruct ex_holds0 as [Hh Ho].
  destruct (Put_extends_or_refuses ex_L ex_HL ex_server0 ∅ ∅ ex_w ex_rmds (Ok tt) ex_server1 Hh Ho
    ex_put_ok ex_put) as [(_ & Hex & HB)|[Hr _]]; [done|done].
Defined.

Lemma Put_wakes_observers_witness :
  md_chans ex_server_r1 !! 0 = Some (MkErrChan [None] true).
Proof.
  destruct ex_holds_r as (hs & B & Hh & Ho).
  destruct (Put_wakes_observers ex_L ex_HL ex_server_r hs B ex_w ex_rmds ex_server_r1 Hh Ho ex_put_ok ex_put_r)
    as [Hw _]; [done|].
  by apply (Hw 2 0).
Defined.

Lemma published_revision_stable_witness :
  GetRange ex_r ex_tlf NullBranchID Merged 1%Z 1%Z (run_calls [CallLock ex_w ex_tlf] ex_server1) = Ok [ex_block].
Proof.
  destruct ex_holds1 as (B & Hh & Ho & Hsd).
  assert (holds ex_L (run_calls [CallLock ex_w ex_tlf] ex_server1) (append ∅ ex_block) B) as Hh'
    by (eapply holds_same_md; [apply TruncateLock_same|done]).
  assert (isReader ex_r ex_tlf ex_server1 = Ok true) as Hrd
    by (eapply ex_isReader; [exact Hh|by rewrite ex_history]).
  apply (published_revision_stable ex_L ex_HL ex_server1 _ B [CallLock ex_w ex_tlf] ex_r ex_r ex_tlf
    NullBranchID 1%Z ex_block Hh Ho); [by repeat constructor|done|done|split; done| | |].
  - change (status_of NullBranchID) with Merged.
    rewrite (GetRange_history ex_L ex_HL ex_server1 _ B ex_r ex_tlf NullBranchID Merged NullBranchID 1%Z 1%Z
      Hh Hsd eq_refl eq_refl Hrd (conj eq_refl eq_refl)); [|done|by intros _].
    by rewrite ex_history.
  - change (run_calls _ _) with (snd (TruncateLock ex_w ex_tlf ex_server1)).
    by rewrite (sm_shutdown _ _ (TruncateLock_same ex_w ex_tlf ex_server1)).
  - eapply ex_isReader; [exact Hh'|by rewrite ex_history].
Defined.

Lemma TruncateLock_exclusive_witness :
  fst (TruncateLock ex_r ex_tlf (run_calls [CallLock ex_r ex_tlf; CallUnlock ex_r ex_tlf]
    (snd (TruncateLock ex_w ex_tlf ex_server0)))) = Err MDServerErrorLocked.
Proof.
  destruct (TruncateLock_exclusive ex_server0 ∅ ex_w ex_r ex_tlf [xaa] [xbb]
    (snd (TruncateLock ex_w ex_tlf ex_server0)) [CallLock ex_r ex_tlf; CallUnlock ex_r ex_tlf])
    as [Hl _]; [done..| |by rewrite Hl].
  repeat constructor; [by intros []|]. by intros [_ [=]].
Defined.

(** ** A client's successor *)

#[global] Instance TlfHandle_countable : Countable TlfHandle.
Proof.
  by apply (inj_countable' (λ h, (th_Bare h, th_resolvedWriters h, th_resolvedReaders h, th_name h))
    (λ '(a, b, c, d), MkTlfHandle a b c d)); intros [].
Defined.
#[global] Instance TlfHandle_codec : Codec TlfHandle := countable_codec.

Definition ex_changes : BlockChanges := MkBlockChanges zeroBlockInfo [] 0.
Definition ex_pmd : PrivateMetadata :=
  MkPrivateMetadata (MkDirEntry zeroBlockInfo (MkEntryInfo Dir 0 "" 0 0)) [] ex_changes ex_changes.

#[global] Instance BlockChanges_eq_dec : EqDecision BlockChanges.
Proof. solve_decision. Defined.
#[global] Instance PrivateMetadata_eq_dec : EqDecision PrivateMetadata.
Proof. solve_decision. Defined.

(** A codec that knows one value. *)
#[global] Program Instance PrivateMetadata_codec : Codec PrivateMetadata := {|
  Encode d := if decide (d = ex_pmd) then Ok [x00] else Err (ErrorString "encode");
  Decode _ := Ok ex_pmd
|}.
Next Obligation. intros d buf. simpl. case_decide; by simplify_eq. Qed.

#[global] Instance BareRootMetadata_total : EncodeTotal BareRootMetadata.
Proof. intros b. by eexists. Qed.
#[global] Instance TlfHandle_total : EncodeTotal TlfHandle.
Proof. intros b. by eexists. Qed.

Definition ex_cur : RootMetadata :=
  MkRootMetadata ex_bare ex_pmd (Some (MkTlfHandle (MkBareTlfHandle ["w"] [PublicUID] [] [] None) ∅ ∅ "w")) zeroMdID.

Lemma MakeMdID_total md : wm_SerializedPrivateMetadata (bm_WriterMetadata md) ≠ None →
  ∃ id, MakeMdID md = Ok id.
Proof.
  intros Hs. unfold MakeMdID. destruct (wm_SerializedPrivateMetadata _); [|done].
  destruct (Encode_total md) as [buf ->]. simpl. destruct (DefaultHash_total buf) as (h & -> & _).
  by eexists.
Qed.

Lemma deepCopy_total md h : rmd_tlfHandle md = Some h → CodecUpdate (rmd_data md) = Ok (rmd_data md) →
  deepCopy md true = Ok (MkRootMetadata (rmd_bare md) (rmd_data md) (Some h) zeroMdID).
Proof.
  intros Hh Hd. unfold deepCopy. rewrite (CodecUpdate_total (rmd_bare md)), Hd, Hh.
  cbn [mbind res_bind]. by rewrite (CodecUpdate_total h).
Qed.

Lemma MakeSuccessor_total md h :
  IsFinal (rmd_bare md) = false → rmd_tlfHandle md = Some h → CodecUpdate (rmd_data md) = Ok (rmd_data md) →
  rmd_mdID md = zeroMdID → wm_SerializedPrivateMetadata (bm_WriterMetadata (rmd_bare md)) ≠ None →
  ∃ newMd md', MakeSuccessor true md = (Ok newMd, md').
Proof.
  intros Hf Hh Hd Hz Hs. unfold MakeSuccessor. rewrite Hf, (deepCopy_total md h Hh Hd).
  unfold MetadataID. rewrite decide_False by auto.
  destruct (MakeMdID_total (rmd_bare md) Hs) as [id ->]. by eexists _, _.
Qed.

Lemma ex_successor : ∃ newMd cur', MakeSuccessor true ex_cur = (Ok newMd, cur').
Proof. by eapply MakeSuccessor_total. Qed.

(** A block of 100 bytes replaced by one of 120, and a new one of 50. *)
Definition ex_md_changes : list md_change :=
  [AddUpd (MkBlockInfo zeroPtr 100) (MkBlockInfo zeroPtr 120); AddRef (MkBlockInfo zeroPtr 50)].

Lemma successor_accepted_witness :
  ∃ rmds md', md_Put ex_w rmds ex_server1 = (Ok tt, md') ∧ bm_Revision (rmds_MD rmds) = 2%Z.
Proof.
  destruct ex_holds1 as (B & Hh & Ho & Hsd). destruct ex_successor as (newMd & cur' & Hsucc).
  pose proof (sealed_serialized (rmd_bare (snd (run_changes ex_md_changes newMd))) (Some [x2b])) as Hseal.
  revert Hseal. generalize (set_wm (wm_set_serialized (Some [x2b]))
    (rmd_bare (snd (run_changes ex_md_changes newMd)))). intros bm Hseal.
  destruct (successor_accepted ex_L ex_HL ex_server1 _ B ex_w ex_cur ex_block newMd cur' ex_md_changes
    (MkRootMetadataSigned (MkSignatureInfo 1 [] "aa") bm) Hh Ho Hsd) as (md' & B' & Hput & Hh');
    [exact (f_equal last ex_history)|done|by left|done|done|done|split; done|exact Hsucc|exact Hseal| |].
  { eapply ex_isWriter; [exact Hh|by rewrite ex_history]. }
  eexists _, _. split; [exact Hput|].
  destruct (successor_follows ex_cur newMd cur' ex_md_changes bm (or_introl eq_refl) eq_refl)
    as (_ & _ & _ & Hfol); [done|split; done|done|done|].
  simpl. by rewrite (fo_rev _ _ Hfol).
Defined.
