(* ===== verification/MDUtil.v ===== *)
(** * MDUtil: fetching ranges of metadata ([md_util.go], [mdcache.go])

    Metadata objects are shared between the cache, the fetched slices and
    their users, so they live on a heap, [mf_mds]; a [*RootMetadata] is an
    index into it.  The server is reached through the interface [MDOps],
    of which the fetching code uses [GetRange] and [GetUnmergedRange]: one
    operation [ops_getRange] with the branch and the merge status. *)

From Stdlib Require Import ZArith Lia.
From S2P Require Import Prelude Types Errors GoStd Ids CryptoCommon DataTypes Ops ConflictInfo Handles KeyBundles Metadata Lru.

Definition maxMDsAtATime : Z := 10.

(** ** The metadata cache *)

Definition mdCacheKey := (TlfID * MetadataRevision * BranchID)%type.
Definition MDCacheStandard := LRU mdCacheKey nat.

Record mdFetch (W : Type) := MkMdFetch {
  mf_mds : list RootMetadata;
  mf_cache : MDCacheStandard;
  mf_world : W
}.
Arguments MkMdFetch {W} _ _ _.
Arguments mf_mds {W} _.
Arguments mf_cache {W} _.
Arguments mf_world {W} _.

Class MDOps (W : Type) := {
  ops_getRange : TlfID → BranchID → MergeStatus → MetadataRevision → MetadataRevision → go (mdFetch W) (list nat)
}.

Section util.
Context {W : Type}.

Definition mdcache_Get (tlf : TlfID) (rev : MetadataRevision) (bid : BranchID) : go (mdFetch W) nat := λ s,
  let '(r, c) := lru_Get (tlf, rev, bid) (mf_cache s) in
  let s := MkMdFetch (mf_mds s) c (mf_world s) in
  match r with
  | Some rmd => (Ok rmd, s)
  | None => (Err (NoSuchMDError tlf rev bid), s)
  end.

(** The metadata an index stands for. *)
Definition deref (r : nat) : go (mdFetch W) RootMetadata := λ s,
  match mf_mds s !! r with
  | Some md => (Ok md, s)
  | None => (Panic "nil pointer dereference", s)
  end.

Definition mdcache_Put (rmd : nat) : go (mdFetch W) unit :=
  md ← deref rmd;
  modify (λ s, MkMdFetch (mf_mds s)
    (fst (lru_Add (bm_ID (rmd_bare md), bm_Revision (rmd_bare md), bm_BID (rmd_bare md)) rmd (mf_cache s)))
    (mf_world s)).

(** ** One range *)

(** What [getMDRange] collects: a slot for each revision, the ranges to
    download, and the first and last slot that is filled. *)
Record slots := MkSlots {
  sl_rmds : list (option nat);
  sl_toDownload : list (MetadataRevision * MetadataRevision);
  sl_min : Z;
  sl_max : Z
}.

(** A missing revision: it extends the last range, or starts one. *)
Definition extend_ranges (i : MetadataRevision) (l : list (MetadataRevision * MetadataRevision)) :=
  match last l with
  | Some (a, b) => if decide (b = i - 1)%Z then removelast l ++ [(a, i)] else l ++ [(i, i)]
  | None => [(i, i)]
  end.

Definition note_slot (slot : Z) (sl : slots) : slots :=
  MkSlots (sl_rmds sl) (sl_toDownload sl)
    (if decide (slot < sl_min sl)%Z then slot else sl_min sl)
    (if decide (sl_max sl < slot)%Z then slot else sl_max sl).

Fixpoint scan_cache (id : TlfID) (bid : BranchID) (revs : list MetadataRevision) (sl : slots)
    : go (mdFetch W) slots :=
  match revs with
  | [] => mret sl
  | i :: revs =>
      found ← try (mdcache_Get id i bid);
      match found with
      | inl rmd =>
          let sl := note_slot (zlen (sl_rmds sl)) sl in
          scan_cache id bid revs (MkSlots (sl_rmds sl ++ [Some rmd]) (sl_toDownload sl) (sl_min sl) (sl_max sl))
      | inr _ =>
          scan_cache id bid revs
            (MkSlots (sl_rmds sl ++ [None]) (extend_ranges i (sl_toDownload sl)) (sl_min sl) (sl_max sl))
      end
  end.

(** [rmds[slot] = rmd]. *)
Definition set_slot (slot : Z) (rmd : nat) (l : list (option nat)) : res (list (option nat)) :=
  if decide (0 <= slot < zlen l)%Z then Ok (<[Z.to_nat slot := Some rmd]> l)
  else Panic "index out of range".

Fixpoint fill_slots (start : MetadataRevision) (fetched : list nat) (sl : slots) : go (mdFetch W) slots :=
  match fetched with
  | [] => mret sl
  | rmd :: fetched =>
      md ← deref rmd;
      let slot := (bm_Revision (rmd_bare md) - start)%Z in
      let sl := note_slot slot sl in
      rmds ← lift_res (set_slot slot rmd (sl_rmds sl));
      _ ← mdcache_Put rmd;
      fill_slots start fetched (MkSlots rmds (sl_toDownload sl) (sl_min sl) (sl_max sl))
  end.

Context `{MDOps W}.

Fixpoint download (id : TlfID) (bid : BranchID) (mStatus : MergeStatus) (start : MetadataRevision)
    (ranges : list (MetadataRevision * MetadataRevision)) (sl : slots) : go (mdFetch W) slots :=
  match ranges with
  | [] => mret sl
  | (a, b) :: ranges =>
      fetched ← ops_getRange id (match mStatus with Merged => NullBranchID | Unmerged => bid end) mStatus a b;
      sl ← fill_slots start fetched sl;
      download id bid mStatus start ranges sl
  end.

(** The slice of the filled slots, without holes. *)
Fixpoint no_holes (l : list (option nat)) : res (list nat) :=
  match l with
  | [] => Ok []
  | None :: _ => Err (Errorf "No MD found for revision")
  | Some r :: l => cons r <$> no_holes l
  end.

(** [rmds[lo:hi]]. *)
Definition slice (lo hi : Z) (l : list (option nat)) : res (list (option nat)) :=
  if decide (0 <= lo <= hi ∧ hi <= zlen l)%Z then Ok (take (Z.to_nat (hi - lo)) (drop (Z.to_nat lo) l))
  else Panic "slice bounds out of range".

Definition getMDRange (id : TlfID) (bid : BranchID) (start stop : MetadataRevision) (mStatus : MergeStatus)
    : go (mdFetch W) (list nat) :=
  if decide (start < MetadataRevisionInitial ∨ stop < MetadataRevisionInitial)%Z then mret []
  else
    sl ← scan_cache id bid (seqZ start (stop - start + 1)) (MkSlots [] [] (stop - start + 1) (-1));
    sl ← download id bid mStatus start (sl_toDownload sl) sl;
    if decide (sl_max sl < sl_min sl)%Z then mret []
    else
      rmds ← lift_res (slice (sl_min sl) (sl_max sl + 1) (sl_rmds sl));
      lift_res (no_holes rmds).

(** ** All updates *)

(** The loop of [getMergedMDUpdates], at most [fuel] rounds of it. *)
Fixpoint merged_loop (fuel : nat) (id : TlfID) (start : MetadataRevision) (mergedRmds : list nat)
    : go (mdFetch W) (option (list nat)) :=
  match fuel with
  | O => mret None
  | S fuel =>
      let stop := (start + maxMDsAtATime - 1)%Z in
      rmds ← getMDRange id NullBranchID start stop Merged;
      let mergedRmds := mergedRmds ++ rmds in
      if decide (zlen rmds < maxMDsAtATime)%Z then mret (Some mergedRmds)
      else merged_loop fuel id (stop + 1)%Z mergedRmds
  end.

(** The loop of [getUnmergedMDUpdates]. *)
Fixpoint unmerged_loop (fuel : nat) (id : TlfID) (bid : BranchID) (currHead : MetadataRevision)
    (unmergedRmds : list nat) : go (mdFetch W) (option (MetadataRevision * list nat)) :=
  match fuel with
  | O => mret None
  | S fuel =>
      let startRev := (currHead - maxMDsAtATime + 1)%Z in
      let startRev := if decide (startRev < MetadataRevisionInitial)%Z then MetadataRevisionInitial else startRev in
      rmds ← getMDRange id bid startRev currHead Unmerged;
      let unmergedRmds := rmds ++ unmergedRmds in
      currHead ← (match rmds with
                  | [] => mret currHead
                  | r :: _ => md ← deref r; mret (bm_Revision (rmd_bare md) - 1)%Z
                  end);
      if decide (currHead < MetadataRevisionInitial)%Z then fail (ErrorString "Ran out of MD updates to unstage!")
      else if decide (zlen rmds < maxMDsAtATime)%Z then mret (Some (currHead, unmergedRmds))
      else unmerged_loop fuel id bid currHead unmergedRmds
  end.

Definition getUnmergedMDUpdates (fuel : nat) (id : TlfID) (bid : BranchID) (startRev : MetadataRevision)
    : go (mdFetch W) (option (MetadataRevision * list nat)) :=
  if decide (startRev < MetadataRevisionInitial)%Z then mret (Some (MetadataRevisionUninitialized, []))
  else unmerged_loop fuel id bid startRev [].

(** The check of [getMergedMDUpdates] that each metadata can be read:
    [isReadableOrError], and the decryption of one metadata with the keys
    of another, are those of the configuration. *)
Context (isReadableOrError : RootMetadata → go (mdFetch W) unit).
Context (decryptMD : nat → nat → go (mdFetch W) unit).

Fixpoint check_readable (latest : option nat) (rmds : list nat) : go (mdFetch W) unit :=
  match rmds with
  | [] => mret tt
  | rmd :: rmds =>
      md ← deref rmd;
      readable ← try (isReadableOrError md);
      _ ← (match readable, latest with
           | inl _, _ => mret tt
           | inr _, Some latestRmd => decryptMD rmd latestRmd
           | inr _, None => panic "index out of range"
           end);
      check_readable latest rmds
  end.

Definition getMergedMDUpdates (fuel : nat) (id : TlfID) (startRev : MetadataRevision)
    : go (mdFetch W) (option (list nat)) :=
  if decide (startRev < MetadataRevisionInitial)%Z then mret (Some [])
  else
    r ← merged_loop fuel id startRev [];
    match r with
    | None => mret None
    | Some mergedRmds =>
        _ ← check_readable (last mergedRmds) mergedRmds;
        mret (Some mergedRmds)
    end.

End util.
