(* ===== verification/MDUtilSpec.v ===== *)
(** * MDUtilSpec: the whole history is fetched

    What [getMDRange] returns when the metadata operations keep their
    promise, [range_law]: a range of revisions is answered with those of
    the range that exist.  The cache may hold any of them. *)

From Stdlib Require Import ZArith Lia.
From S2P Require Import Prelude Types Errors GoStd Ids CryptoCommon DataTypes Ops ConflictInfo Handles KeyBundles Metadata Lru MDUtil.

(** ** The LRU cache *)

Section lru.
Context {K V : Type} `{EqDecision K}.
Implicit Types (c : LRU K V) (l : list (K * V)).

Lemma assoc_without k k' l : k' ≠ k → assoc k' (without k l) = assoc k' l.
Proof.
  intros Hne. induction l as [|[k0 v0] l IH]; [done|]. unfold without in *. rewrite filter_cons. simpl.
  case_decide as Hk; simpl.
  - case_decide; [done|apply IH].
  - rewrite decide_False by naive_solver. apply IH.
Qed.

Lemma lru_Get_Peek k c k' : lru_Peek k' (lru_Get k c).2 = lru_Peek k' c.
Proof.
  unfold lru_Get, lru_Peek. destruct (assoc k (lru_evictList c)) as [v|] eqn:E; [|done]. simpl.
  case_decide as Hk; [by subst|]. by apply assoc_without.
Qed.

Lemma assoc_removelast k v l : assoc k (removelast l) = Some v → assoc k l = Some v.
Proof.
  induction l as [|[k0 v0] l IH]; [done|]. destruct l as [|kv l]; [done|].
  change (removelast ((k0, v0) :: kv :: l)) with ((k0, v0) :: removelast (kv :: l)). simpl.
  case_decide; [done|]. apply IH.
Qed.

Lemma lru_Add_Peek_inv k v c k' v' :
  lru_Peek k' (lru_Add k v c).1 = Some v' → (k' = k ∧ v' = v) ∨ lru_Peek k' c = Some v'.
Proof.
  unfold lru_Add, lru_Peek. destruct (assoc k (lru_evictList c)) as [v0|] eqn:E.
  - simpl. case_decide as Hk; [intros [= <-]; by left|]. rewrite assoc_without by done. by right.
  - assert (assoc k' ((k, v) :: lru_evictList c) = Some v' → (k' = k ∧ v' = v) ∨ assoc k' (lru_evictList c) = Some v') as Hc.
    { simpl. case_decide; [intros [= <-]; by left|by right]. }
    case_decide; simpl; [|done]. intros Ha. apply Hc. apply assoc_removelast. done.
Qed.
End lru.

(** ** Ranges *)

(** The call does not return a value. *)
Definition fails {S A} (m : go S A) (s : S) : Prop := ∀ a, fst (m s) ≠ Ok a.

Lemma fails_bind {S A B} (m : go S A) (f : A → go S B) s : fails m s → fails (m ≫= f) s.
Proof. unfold fails, mbind, go_bind. intros Hm b. destruct (m s) as [[a|e|p] s']; [|done|done]. by destruct (Hm a). Qed.
Lemma fails_after {S A B} (m : go S A) (f : A → go S B) s a s' : m s = (Ok a, s') → fails (f a) s' → fails (m ≫= f) s.
Proof. unfold fails, mbind, go_bind. by intros ->. Qed.

Lemma bind_run {S A B} (m : go S A) (f : A → go S B) s a s' : m s = (Ok a, s') → (m ≫= f) s = f a s'.
Proof. unfold mbind, go_bind. by intros ->. Qed.
Lemma fails_run {S A B} (m : go S A) (f : A → go S B) s a s' : m s = (Ok a, s') → fails (m ≫= f) s ↔ fails (f a) s'.
Proof. intros Hm. unfold fails. by rewrite (bind_run _ _ _ _ _ Hm). Qed.

Section range.
Context {W : Type} `{MDOps W}.
(** A branch of a folder, on which there are the revisions from [lo] to
    [h], all of which satisfy [Q]. *)
Context (id : TlfID) (bid : BranchID) (ms : MergeStatus) (lo h : Z) (Q : RootMetadata → Prop).
Context (Hbid : ms = Merged → bid = NullBranchID).

Definition is_md (s : mdFetch W) (r : nat) (rev : Z) : Prop :=
  ∃ md, mf_mds s !! r = Some md ∧ bm_ID (rmd_bare md) = id ∧ bm_BID (rmd_bare md) = bid ∧
    bm_Revision (rmd_bare md) = rev ∧ Q md.

Definition grows (s s' : mdFetch W) : Prop := ∀ r rev, is_md s r rev → is_md s' r rev.

Definition cache_ok (s : mdFetch W) : Prop :=
  ∀ rev r, lru_Peek (id, rev, bid) (mf_cache s) = Some r → (lo <= rev <= h)%Z ∧ is_md s r rev.

Definition revs_in (a b : Z) : list Z := seqZ (Z.max a lo) (Z.min b h - Z.max a lo + 1).

Definition range_law : Prop := ∀ s a b, cache_ok s → (MetadataRevisionInitial <= a <= b)%Z →
  ∃ refs s', ops_getRange id bid ms a b s = (Ok refs, s') ∧ grows s s' ∧ cache_ok s' ∧
    Forall2 (is_md s') refs (revs_in a b).

(** The same, but a call may also fail, if [mayfail]. *)
Definition range_law_or (mayfail : Prop) : Prop := ∀ s a b, cache_ok s → (MetadataRevisionInitial <= a <= b)%Z →
  (∃ refs s', ops_getRange id bid ms a b s = (Ok refs, s') ∧ grows s s' ∧ cache_ok s' ∧
     Forall2 (is_md s') refs (revs_in a b)) ∨
  mayfail ∧ fails (ops_getRange id bid ms a b) s.

Lemma heap_grows_refl s : grows s s.
Proof. by intros r rev. Qed.
Lemma heap_grows_trans s1 s2 s3 : grows s1 s2 → grows s2 s3 → grows s1 s3.
Proof. unfold grows. auto. Qed.

(** The slots from revision [start] on. *)
Definition filled (sl : slots) (j : nat) : Prop := ∃ r, sl_rmds sl !! j = Some (Some r).

Record slots_ok (start n0 : Z) (s : mdFetch W) (sl : slots) : Prop := {
  so_md j r : sl_rmds sl !! j = Some (Some r) → is_md s r (start + Z.of_nat j) ∧ (lo <= start + Z.of_nat j <= h)%Z;
  so_bounds j : filled sl j → (sl_min sl <= Z.of_nat j <= sl_max sl)%Z;
  so_ends : (sl_min sl = n0 ∧ sl_max sl = -1 ∧ (∀ j, ¬ filled sl j))%Z ∨
    (0 <= sl_min sl ∧ 0 <= sl_max sl)%Z ∧ filled sl (Z.to_nat (sl_min sl)) ∧ filled sl (Z.to_nat (sl_max sl))
}.

Lemma slots_ok_grows start n0 s s' sl : grows s s' → slots_ok start n0 s sl → slots_ok start n0 s' sl.
Proof. intros Hg [Hm Hb He]. split; [|done|done]. intros j r Hj. destruct (Hm j r Hj). auto. Qed.

(** A slot is filled. *)
Lemma slots_ok_fill start n0 s sl rmds j r :
  slots_ok start n0 s sl → (Z.of_nat j < n0)%Z → is_md s r (start + Z.of_nat j) → (lo <= start + Z.of_nat j <= h)%Z →
  rmds !! j = Some (Some r) → (∀ i, i ≠ j → (∃ r, rmds !! i = Some (Some r)) ↔ filled sl i) →
  (∀ i r, i ≠ j → rmds !! i = Some (Some r) → sl_rmds sl !! i = Some (Some r)) →
  let sl' := note_slot (Z.of_nat j) sl in
  slots_ok start n0 s (MkSlots rmds (sl_toDownload sl') (sl_min sl') (sl_max sl')).
Proof.
  intros [Hm Hb He] Hn Hmd Hlo Hj Hsame Hval. unfold note_slot. cbn [sl_toDownload sl_min sl_max sl_rmds].
  assert (∀ i, (∃ r, rmds !! i = Some (Some r)) → i = j ∨ filled sl i) as Hcase.
  { intros i Hi. destruct (decide (i = j)) as [->|Hne]; [by left|right]. by apply Hsame. }
  split; cbn [sl_min sl_max sl_rmds].
  - intros i r' Hi. destruct (decide (i = j)) as [->|Hne]; [|apply Hm; by apply Hval].
    rewrite Hj in Hi. injection Hi as <-. done.
  - intros i Hi. unfold filled in Hi. cbn [sl_rmds] in Hi. destruct (Hcase i Hi) as [->|Hf].
    + case_decide; case_decide; lia.
    + apply Hb in Hf. case_decide; case_decide; lia.
  - right. destruct He as [(Hmin & Hmax & Hno)|([Hmin Hmax] & Hfmin & Hfmax)].
    + rewrite decide_True by lia. rewrite decide_True by lia. rewrite Nat2Z.id. unfold filled. cbn [sl_rmds].
      split; [lia|]. by split; exists r.
    + assert (∀ z, filled sl (Z.to_nat z) → ∃ r0, rmds !! Z.to_nat z = Some (Some r0)) as Hkeep.
      { intros z Hz. destruct (decide (Z.to_nat z = j)) as [->|Hne]; [by exists r|]. by apply Hsame. }
      split; [case_decide; case_decide; lia|]. unfold filled. cbn [sl_rmds].
      split; (case_decide; [rewrite Nat2Z.id; by exists r|by apply Hkeep]).
Qed.

(** *** The scan of the cache *)

Lemma mdcache_Get_spec s rev : cache_ok s →
  ∃ r s', try (mdcache_Get id rev bid) s = (Ok r, s') ∧ grows s s' ∧ cache_ok s' ∧
    match r with inl rmd => (lo <= rev <= h)%Z ∧ is_md s' rmd rev | inr _ => True end.
Proof.
  intros Hs. unfold try, mdcache_Get. destruct (lru_Get (id, rev, bid) (mf_cache s)) as [found c] eqn:E.
  assert (∀ k, lru_Peek k c = lru_Peek k (mf_cache s)) as Hpeek
    by (intros k; pose proof (lru_Get_Peek (id, rev, bid) (mf_cache s) k) as Hp; by rewrite E in Hp).
  assert (cache_ok (MkMdFetch (mf_mds s) c (mf_world s))) as Hc.
  { intros rev' r. simpl. rewrite Hpeek. intros Hr. exact (Hs rev' r Hr). }
  destruct found as [rmd|]; (eexists _, _; split; [done|]; split; [by intros ? ? Hx|]; split; [done|]); [|done].
  apply (Hs rev rmd). unfold lru_Get in E. unfold lru_Peek. destruct (assoc _ _); [|done]. by injection E as -> _.
Qed.

Record ranges_ok (start : Z) (sl : slots) : Prop := {
  ro_in a b : (a, b) ∈ sl_toDownload sl → (start <= a <= b ∧ b < start + zlen (sl_rmds sl))%Z;
  ro_cover j : sl_rmds sl !! j = Some None → ∃ a b, (a, b) ∈ sl_toDownload sl ∧ (a <= start + Z.of_nat j <= b)%Z
}.

Lemma extend_ranges_in i l a b : (a, b) ∈ extend_ranges i l →
  (a, b) ∈ l ∨ (b = i ∧ (a = i ∨ ∃ b', (a, b') ∈ l ∧ b' = i - 1))%Z.
Proof.
  unfold extend_ranges. destruct (last l) as [[a0 b0]|] eqn:E.
  - apply last_Some in E as [l' ->]. case_decide as Hb.
    + rewrite removelast_last, elem_of_app, list_elem_of_singleton. intros [Hin|[= -> ->]]; [left; set_solver|].
      right. split; [done|]. right. exists b0. split; [set_solver|done].
    + rewrite elem_of_app, list_elem_of_singleton. intros [Hin|[= -> ->]]; [by left|]. right. by split; [|left].
  - intros [= -> ->]%list_elem_of_singleton. right. by split; [|left].
Qed.

Lemma extend_ranges_cover i l x : ((∃ a b, (a, b) ∈ l ∧ a <= x <= b) ∨ x = i)%Z →
  (∀ a b, (a, b) ∈ l → (a <= b < i)%Z) → ∃ a b, (a, b) ∈ extend_ranges i l ∧ (a <= x <= b)%Z.
Proof.
  intros Hx Hl. unfold extend_ranges. destruct (last l) as [[a0 b0]|] eqn:E.
  - apply last_Some in E as [l' ->]. assert (a0 <= b0 < i)%Z as Hlast by (apply Hl; set_solver). case_decide as Hb.
    + rewrite removelast_last. destruct Hx as [(a & b & [Hin|[= -> ->]%list_elem_of_singleton]%elem_of_app & Hr)| ->].
      * exists a, b. set_solver.
      * exists a0, i. split; [set_solver|lia].
      * exists a0, i. split; [set_solver|lia].
    + destruct Hx as [(a & b & Hin & Hr)| ->]; [exists a, b; set_solver|]. exists i, i. split; [set_solver|lia].
  - apply last_None in E as ->. destruct Hx as [(a & b & []%elem_of_nil & _)| ->].
    exists i, i. split; [by apply list_elem_of_singleton|lia].
Qed.

Lemma lookup_snoc_inv {A} (l : list A) x j y : (l ++ [x]) !! j = Some y →
  (j = length l ∧ y = x) ∨ (j ≠ length l ∧ l !! j = Some y).
Proof.
  intros [Hj|[Hj Hy]]%lookup_app_Some.
  - right. split; [|done]. apply lookup_lt_Some in Hj. lia.
  - left. apply list_lookup_singleton_Some in Hy as [Hz ->]. split; [lia|done].
Qed.

Lemma scan_cache_spec start n0 k : ∀ s sl,
  cache_ok s → slots_ok start n0 s sl → ranges_ok start sl → (zlen (sl_rmds sl) + Z.of_nat k <= n0)%Z →
  ∃ sl' s', scan_cache id bid (seqZ (start + zlen (sl_rmds sl)) (Z.of_nat k)) sl s = (Ok sl', s') ∧
    grows s s' ∧ cache_ok s' ∧ slots_ok start n0 s' sl' ∧ ranges_ok start sl' ∧
    length (sl_rmds sl') = length (sl_rmds sl) + k.
Proof.
  induction k as [|k IH]; intros s sl Hs Hok Hr Hn.
  { exists sl, s. rewrite seqZ_nil by lia. split; [done|]. split; [apply heap_grows_refl|]. by rewrite Nat.add_0_r. }
  rewrite seqZ_cons by lia. cbn [scan_cache].
  destruct (mdcache_Get_spec s (start + zlen (sl_rmds sl))%Z Hs) as (r & s1 & Hget & Hg1 & Hs1 & Hmd).
  unfold mbind at 1, go_bind at 1. rewrite Hget.
  assert (slots_ok start n0 s1 sl) as Hok1 by (by eapply slots_ok_grows).
  replace (Z.succ (start + zlen (sl_rmds sl)))%Z with (start + (zlen (sl_rmds sl) + 1))%Z by lia.
  replace (Z.pred (Z.of_nat (S k))) with (Z.of_nat k) by lia.
  assert (∀ (x : option nat), zlen (sl_rmds sl ++ [x]) = zlen (sl_rmds sl) + 1)%Z as Hlen
    by (intros x; rewrite zlen_app; unfold zlen at 2; simpl; lia).
  destruct r as [rmd|e].
  - destruct Hmd as [Hlo Hmd].
    destruct (IH s1 (MkSlots (sl_rmds (note_slot (zlen (sl_rmds sl)) sl) ++ [Some rmd])
      (sl_toDownload (note_slot (zlen (sl_rmds sl)) sl)) (sl_min (note_slot (zlen (sl_rmds sl)) sl))
      (sl_max (note_slot (zlen (sl_rmds sl)) sl)))) as (sl' & s' & Hsc & Hg & ? & ? & ? & Hl); [done|..].
    + unfold zlen in Hlo, Hmd |- *. apply (slots_ok_fill start n0 s1 sl _ (length (sl_rmds sl)) rmd); [done|..]; cbn [note_slot sl_rmds].
      * unfold zlen in Hn. lia.
      * done.
      * done.
      * by rewrite lookup_app_r, Nat.sub_diag.
      * intros i Hi. unfold filled. split.
        -- intros [r0 [[? _]|[_ ?]]%lookup_snoc_inv]; [done|by exists r0].
        -- intros [r0 Hr0]. exists r0. by apply lookup_app_l_Some.
      * intros i r0 Hi [[? _]|[_ ?]]%lookup_snoc_inv; done.
    + destruct Hr as [Hin Hcov]. split; cbn [note_slot sl_rmds sl_toDownload].
      * intros a b Hab%Hin. rewrite Hlen. lia.
      * intros j [[-> ?]|[_ Hj]]%lookup_snoc_inv; [done|by apply Hcov].
    + cbn [note_slot sl_rmds]. rewrite Hlen. lia.
    + cbn [note_slot sl_rmds] in Hsc, Hl. rewrite Hlen in Hsc. exists sl', s'. split; [done|].
      split; [by eapply heap_grows_trans|]. split; [done|]. split; [done|]. split; [done|]. rewrite Hl, length_app. simpl. lia.
  - destruct (IH s1 (MkSlots (sl_rmds sl ++ [None]) (extend_ranges (start + zlen (sl_rmds sl))%Z (sl_toDownload sl))
      (sl_min sl) (sl_max sl))) as (sl' & s' & Hsc & Hg & ? & ? & ? & Hl); [done|..].
    + assert (∀ j r0, (sl_rmds sl ++ [None]) !! j = Some (Some r0) ↔ sl_rmds sl !! j = Some (Some r0)) as Hsame.
      { intros j r0. split; [intros [[_ ?]|[_ ?]]%lookup_snoc_inv; done|apply lookup_app_l_Some]. }
      destruct Hok1 as [Hm Hb He]. unfold filled in *. split; cbn [sl_rmds sl_min sl_max]; unfold filled; cbn [sl_rmds]; setoid_rewrite Hsame; done.
    + destruct Hr as [Hin Hcov]. split; cbn [sl_rmds sl_toDownload].
      * intros a b Hab%extend_ranges_in. rewrite Hlen. destruct Hab as [Hab%Hin|[-> [->|(b' & Hab%Hin & ->)]]]; unfold zlen in *; lia.
      * intros j Hj. apply extend_ranges_cover.
        -- apply lookup_snoc_inv in Hj as [[-> _]|[_ Hj]]; [by right|left]. destruct (Hcov j Hj) as (a & b & ? & ?). by exists a, b.
        -- intros a b Hab%Hin. lia.
    + cbn [sl_rmds]. rewrite Hlen. lia.
    + cbn [sl_rmds] in Hsc, Hl. rewrite Hlen in Hsc. exists sl', s'. split; [done|].
      split; [by eapply heap_grows_trans|]. split; [done|]. split; [done|]. split; [done|]. rewrite Hl, length_app. simpl. lia.
Qed.

(** *** The downloads *)

Lemma mdcache_Put_spec s r rev : cache_ok s → is_md s r rev → (lo <= rev <= h)%Z →
  ∃ s', mdcache_Put r s = (Ok tt, s') ∧ grows s s' ∧ cache_ok s'.
Proof.
  intros Hs Hmd Hlo. destruct Hmd as (md & Hr & Hid & Hb & Hrev & HQ).
  unfold mdcache_Put, mbind, go_bind, deref. rewrite Hr. unfold modify.
  eexists. split; [done|]. split; [by intros ? ? Hx|]. intros rev' r'. cbn [mf_cache]. rewrite Hid, Hrev, Hb.
  intros [[[= ->] ->]|Hp]%lru_Add_Peek_inv; [|exact (Hs rev' r' Hp)]. split; [done|]. by exists md.
Qed.

Lemma fill_slots_spec start n0 : ∀ fetched revs s sl,
  cache_ok s → slots_ok start n0 s sl → zlen (sl_rmds sl) = n0 → Forall2 (is_md s) fetched revs →
  Forall (λ rev, (lo <= rev <= h ∧ start <= rev < start + n0)%Z) revs →
  ∃ sl' s', fill_slots start fetched sl s = (Ok sl', s') ∧ grows s s' ∧ cache_ok s' ∧ slots_ok start n0 s' sl' ∧
    zlen (sl_rmds sl') = n0 ∧ sl_toDownload sl' = sl_toDownload sl ∧ (∀ j, filled sl j → filled sl' j) ∧
    (∀ rev, rev ∈ revs → filled sl' (Z.to_nat (rev - start))).
Proof.
  induction fetched as [|r fetched IH]; intros revs s sl Hs Hok Hlen Hf Hr.
  { apply Forall2_nil_inv_l in Hf as ->. exists sl, s. split; [done|]. split; [apply heap_grows_refl|].
    split; [done|]. split; [done|]. split; [done|]. split; [done|]. split; [done|]. by intros rev ?%elem_of_nil. }
  destruct revs as [|rev revs]; [by inversion Hf|]. apply Forall2_cons in Hf as [Hmd Hf].
  apply Forall_cons in Hr as [[Hlo Hin] Hr]. pose proof Hmd as (md & Hmd' & Hid & Hb & Hrev & HQ).
  cbn [fill_slots]. unfold mbind at 1, go_bind at 1, deref. rewrite Hmd', Hrev.
  set (j := Z.to_nat (rev - start)). assert (rev - start = Z.of_nat j)%Z as Hj by (unfold j; lia). rewrite Hj.
  assert (j < length (sl_rmds sl)) as Hjl by (unfold zlen in Hlen; lia).
  unfold mbind at 1, go_bind at 1, lift_res, set_slot. cbn [note_slot sl_rmds].
  rewrite decide_True by (unfold zlen in *; lia). rewrite Nat2Z.id.
  destruct (mdcache_Put_spec s r rev Hs Hmd Hlo) as (s1 & Hput & Hg1 & Hs1).
  unfold mbind at 1, go_bind at 1. rewrite Hput.
  destruct (IH revs s1 (MkSlots (<[j := Some r]> (sl_rmds sl)) (sl_toDownload (note_slot (Z.of_nat j) sl))
    (sl_min (note_slot (Z.of_nat j) sl)) (sl_max (note_slot (Z.of_nat j) sl)))) as (sl' & s' & He & Hg & Hc & Ho & Hz & Ht & Hk & Hall).
  - done.
  - apply (slots_ok_fill start n0 s1 sl _ j r).
    + by eapply slots_ok_grows.
    + lia.
    + apply Hg1. replace (start + Z.of_nat j)%Z with rev by lia. done.
    + lia.
    + by apply list_lookup_insert_eq.
    + intros i Hi. unfold filled. by setoid_rewrite list_lookup_insert_ne; [|done].
    + intros i r0 Hi. by rewrite list_lookup_insert_ne.
  - unfold zlen in *. cbn [sl_rmds]. by rewrite length_insert.
  - eapply Forall2_impl; [exact Hf|]. apply Hg1.
  - done.
  - exists sl', s'. split; [exact He|]. split; [by eapply heap_grows_trans|]. split; [done|]. split; [done|]. split; [done|].
    split; [by rewrite Ht|].
    assert (∀ i, filled sl i → filled sl' i) as Hkeep.
    { intros i [r0 Hr0]. apply Hk. unfold filled. cbn [sl_rmds]. destruct (decide (i = j)) as [->|Hne].
      - exists r. by apply list_lookup_insert_eq.
      - exists r0. by rewrite list_lookup_insert_ne. }
    split; [done|]. intros rev' [->|Hin']%elem_of_cons; [|by apply Hall].
    apply Hk. exists r. cbn [sl_rmds]. by apply list_lookup_insert_eq.
Qed.

Lemma elem_of_revs_in a b x : x ∈ revs_in a b ↔ (a <= x <= b ∧ lo <= x <= h)%Z.
Proof. unfold revs_in. rewrite elem_of_seqZ. lia. Qed.

Context (mayfail : Prop) (Hlaw : range_law_or mayfail).

Lemma download_spec start n0 : ∀ ranges s sl,
  (MetadataRevisionInitial <= start)%Z →
  cache_ok s → slots_ok start n0 s sl → zlen (sl_rmds sl) = n0 →
  (∀ a b, (a, b) ∈ ranges → (start <= a <= b ∧ b < start + n0)%Z) →
  (∃ sl' s', download id bid ms start ranges sl s = (Ok sl', s') ∧ grows s s' ∧ cache_ok s' ∧ slots_ok start n0 s' sl' ∧
    zlen (sl_rmds sl') = n0 ∧ (∀ j, filled sl j → filled sl' j) ∧
    (∀ a b x, (a, b) ∈ ranges → (a <= x <= b)%Z → (lo <= x <= h)%Z → filled sl' (Z.to_nat (x - start)))) ∨
  mayfail ∧ fails (download id bid ms start ranges sl) s.
Proof.
  induction ranges as [|[a b] ranges IH]; intros s sl Hst Hs Hok Hlen Hr.
  { left. exists sl, s. split; [done|]. split; [apply heap_grows_refl|]. do 4 (split; [done|]). by intros ? ? ? ?%elem_of_nil. }
  destruct (Hr a b) as [Hab Hb]; [by left|].
  assert (match ms with Merged => NullBranchID | Unmerged => bid end = bid) as Hb' by (destruct ms; [by rewrite Hbid|done]).
  cbn [download]. rewrite Hb'.
  destruct (Hlaw s a b Hs) as [(refs & s1 & Hget & Hg1 & Hs1 & Hrefs)|[Hmay Hfail]]; [lia| |right; split; [done|by apply fails_bind]].
  destruct (fill_slots_spec start n0 refs (revs_in a b) s1 sl) as (sl2 & s2 & Hfill & Hg2 & Hs2 & Hok2 & Hl2 & _ & Hk2 & Hall2);
    [done|by eapply slots_ok_grows|done|done| |].
  { apply Forall_forall. intros x Hx%elem_of_revs_in. lia. }
  destruct (IH s2 sl2) as [(sl' & s' & Hd & Hg & ? & ? & ? & Hk & Hall)|[Hmay Hfail]];
    [done..|intros ? ? ?; apply Hr; by right| |].
  2:{ right. split; [done|]. eapply fails_after; [exact Hget|]. eapply fails_after; [exact Hfill|done]. }
  left. exists sl', s'. split; [|split; [|split; [done|split; [done|split; [done|split]]]]].
  - unfold mbind, go_bind. by rewrite Hget, Hfill, Hd.
  - eapply heap_grows_trans; [done|]. by eapply heap_grows_trans.
  - auto.
  - intros a' b' x [[= -> ->]|Hin]%elem_of_cons Hx Hl; [|by eapply Hall].
    apply Hk, Hall2, elem_of_revs_in. done.
Qed.

Lemma no_holes_spec s x l :
  (∀ j, j < length l → ∃ r, l !! j = Some (Some r) ∧ is_md s r (x + Z.of_nat j)) →
  ∃ refs, no_holes l = Ok refs ∧ Forall2 (is_md s) refs (seqZ x (zlen l)).
Proof.
  revert x. induction l as [|o l IH]; intros x Hl.
  { exists []. split; [done|]. rewrite seqZ_nil by done. constructor. }
  destruct (Hl 0) as (r & Hr & Hmd); [simpl; lia|]. injection Hr as ->.
  destruct (IH (x + 1)%Z) as (refs & Hno & Hrefs).
  { intros j Hj. destruct (Hl (S j)) as (r' & Hr' & Hmd'); [simpl; lia|]. exists r'. split; [done|].
    replace (x + 1 + Z.of_nat j)%Z with (x + Z.of_nat (S j))%Z by lia. done. }
  exists (r :: refs). simpl. rewrite Hno. split; [done|].
  unfold zlen. simpl length. rewrite seqZ_cons by lia. constructor; [by rewrite Z.add_0_r in Hmd|].
  replace (Z.pred _) with (zlen l) by (unfold zlen; lia). by replace (Z.succ x) with (x + 1)%Z by lia.
Qed.

(** A range is answered with the revisions of it that exist. *)
Lemma getMDRange_spec_or s start stop :
  cache_ok s → (MetadataRevisionInitial <= start <= stop)%Z →
  (∃ refs s', getMDRange id bid start stop ms s = (Ok refs, s') ∧ grows s s' ∧ cache_ok s' ∧
     Forall2 (is_md s') refs (revs_in start stop)) ∨
  mayfail ∧ fails (getMDRange id bid start stop ms) s.
Proof.
  intros Hs Hst. unfold getMDRange. rewrite decide_False by lia. set (n0 := (stop - start + 1)%Z).
  destruct (scan_cache_spec start n0 (Z.to_nat n0) s (MkSlots [] [] n0 (-1)) Hs) as (sl1 & s1 & Hsc & Hg1 & Hs1 & Hok1 & Hr1 & Hl1).
  { assert (∀ j, ¬ filled (MkSlots [] [] n0 (-1)) j) as Hno by (intros j [r Hr]; done).
    split; simpl; [done|by intros j ?%Hno|by left]. }
  { split; simpl; [by intros ? ? ?%elem_of_nil|done]. }
  { unfold zlen. simpl. lia. }
  assert (zlen (sl_rmds sl1) = n0) as Hz1 by (unfold zlen; rewrite Hl1; simpl; lia).
  change (zlen (sl_rmds (MkSlots [] [] n0 (-1)))) with 0%Z in Hsc. rewrite Z.add_0_r, Z2Nat.id in Hsc by lia.
  destruct (download_spec start n0 (sl_toDownload sl1) s1 sl1) as [(sl & s2 & Hd & Hg2 & Hs2 & Hok & Hz & Hk & Hall)|[Hmay Hfail]];
    [lia|done..| | |].
  { intros a b Hab%(ro_in _ _ Hr1). lia. }
  2:{ right. split; [done|]. eapply fails_after; [exact Hsc|]. by apply fails_bind. }
  left. unfold mbind, go_bind. rewrite Hsc, Hd. destruct Hok as [Hm Hb He].
  assert (∀ j, j < length (sl_rmds sl) → filled sl j ↔ (lo <= start + Z.of_nat j <= h)%Z) as Hfilled.
  { intros j Hj. split; [intros [r Hr]; by apply (Hm j r)|]. intros Hlo.
    destruct (lookup_lt_is_Some_2 (sl_rmds sl1) j) as [[r|] Hj1]; [unfold zlen in *; lia| |].
    - apply Hk. by exists r.
    - destruct (ro_cover _ _ Hr1 j Hj1) as (a & b & Hab & Hin).
      replace j with (Z.to_nat (start + Z.of_nat j - start)) by lia. by eapply Hall. }
  assert (grows s s2) as Hg by (by eapply heap_grows_trans).
  assert (∀ j, filled sl j → j < length (sl_rmds sl)) as Hlt by (intros j [r Hr]; by eapply lookup_lt_Some).
  assert (Z.of_nat (length (sl_rmds sl)) = n0) as Hzl by done.
  destruct He as [(Hmin & Hmax & Hno)|([Hmin0 Hmax0] & Hfmin & Hfmax)].
  - rewrite decide_True by lia. exists [], s2. split; [done|]. split; [done|]. split; [done|].
    assert (revs_in start stop = []) as ->; [|constructor].
    destruct (revs_in start stop) as [|x l] eqn:E; [done|]. exfalso.
    assert (x ∈ revs_in start stop) as [Hx1 Hx2]%elem_of_revs_in by (rewrite E; left).
    apply (Hno (Z.to_nat (x - start))). apply Hfilled; lia.
  - pose proof (Hlt _ Hfmin). pose proof (Hlt _ Hfmax).
    assert (sl_min sl <= sl_max sl)%Z as Hmm by (apply Hb in Hfmin; lia).
    apply (Hfilled _ (Hlt _ Hfmin)) in Hfmin as Hmin'. apply (Hfilled _ (Hlt _ Hfmax)) in Hfmax as Hmax'.
    rewrite decide_False by lia. unfold lift_res, slice. rewrite decide_True by (unfold zlen; lia).
    set (l := take _ _). assert (zlen l = sl_max sl + 1 - sl_min sl)%Z as Hll.
    { unfold l, zlen. rewrite length_take, length_drop. lia. }
    destruct (no_holes_spec s2 (start + sl_min sl)%Z l) as (refs & Hrefs & Hmds).
    { intros j Hj. unfold zlen in Hll. unfold l. rewrite lookup_take_lt by lia. rewrite lookup_drop.
      set (i := Z.to_nat (sl_min sl) + j). assert (filled sl i) as [r Hr] by (apply Hfilled; lia).
      exists r. split; [done|]. destruct (Hm i r Hr) as [Hmd _].
      replace (start + sl_min sl + Z.of_nat j)%Z with (start + Z.of_nat i)%Z by lia. done. }
    rewrite Hrefs. exists refs, s2. split; [done|]. split; [done|]. split; [done|].
    assert (Z.max start lo = start + sl_min sl)%Z as Hlow.
    { destruct (decide (start + sl_min sl = Z.max start lo)%Z); [done|]. exfalso.
      assert (filled sl (Z.to_nat (Z.max start lo - start))) as Hf%Hb by (apply Hfilled; lia). lia. }
    assert (Z.min stop h = start + sl_max sl)%Z as Hhigh.
    { destruct (decide (start + sl_max sl = Z.min stop h)%Z); [done|]. exfalso.
      assert (filled sl (Z.to_nat (Z.min stop h - start))) as Hf%Hb by (apply Hfilled; lia). lia. }
    unfold revs_in. rewrite Hlow, Hhigh. replace (_ - _ + 1)%Z with (zlen l) by lia. done.
Qed.
End range.

Lemma getMDRange_spec {W} `{MDOps W} id bid ms lo h Q (Hbid : ms = Merged → bid = NullBranchID) (Hlaw : range_law id bid ms lo h Q)
    s start stop :
  cache_ok id bid lo h Q s → (MetadataRevisionInitial <= start <= stop)%Z →
  ∃ refs s', getMDRange id bid start stop ms s = (Ok refs, s') ∧ grows id bid Q s s' ∧ cache_ok id bid lo h Q s' ∧
    Forall2 (is_md id bid Q s') refs (revs_in lo h start stop).
Proof.
  intros Hs Hst. assert (range_law_or id bid ms lo h Q False) as Hor by (intros s' a b Hs' Hab; left; by apply Hlaw).
  by destruct (getMDRange_spec_or id bid ms lo h Q Hbid False Hor s start stop Hs Hst) as [|[]].
Qed.

(** ** All updates *)

Section merged.
Context {W : Type} `{MDOps W} (id : TlfID) (h : Z) (Q : RootMetadata → Prop).
Abbreviation mds s := (is_md id NullBranchID Q s).
Abbreviation ok := (cache_ok id NullBranchID MetadataRevisionInitial h Q).
Context (Hlaw : range_law id NullBranchID Merged MetadataRevisionInitial h Q).

Lemma merged_loop_spec : ∀ fuel s start acc,
  ok s → (MetadataRevisionInitial <= start)%Z → (h - start + 1 < maxMDsAtATime * Z.of_nat fuel)%Z → 0 < fuel →
  ∃ refs s', merged_loop fuel id start acc s = (Ok (Some (acc ++ refs)), s') ∧ grows id NullBranchID Q s s' ∧
    Forall2 (mds s') refs (seqZ start (h - start + 1)).
Proof.
  induction fuel as [|fuel IH]; intros s start acc Hs Hst Hf H0; [lia|].
  destruct (getMDRange_spec id NullBranchID Merged MetadataRevisionInitial h Q (λ _, eq_refl) Hlaw s start
    (start + maxMDsAtATime - 1) Hs) as (rmds & s1 & Hget & Hg & Hs1 & Hmds); [unfold maxMDsAtATime; lia|].
  cbn [merged_loop]. unfold mbind, go_bind. rewrite Hget.
  pose proof (Forall2_length _ _ _ Hmds) as Hlen. unfold revs_in in Hmds, Hlen.
  rewrite Z.max_l in Hmds, Hlen by done. rewrite length_seqZ in Hlen. unfold maxMDsAtATime in *.
  case_decide as Hfew.
  - exists rmds, s1. split; [done|]. split; [done|]. unfold zlen in Hfew.
    replace (h - start + 1)%Z with (Z.min (start + 10 - 1) h - start + 1)%Z by lia. done.
  - unfold zlen in Hfew. replace (start + 10 - 1 + 1)%Z with (start + 10)%Z by lia.
    destruct (IH s1 (start + 10)%Z (acc ++ rmds)) as (refs & s' & Hl & Hg' & Hrefs); [done|lia|lia|lia|].
    exists (rmds ++ refs), s'. rewrite Hl, app_assoc. split; [done|]. split; [by eapply heap_grows_trans|].
    replace (h - start + 1)%Z with (10 + (h - (start + 10) + 1))%Z by lia. rewrite seqZ_app by lia.
    apply Forall2_app; [|done]. eapply Forall2_impl; [|apply Hg'].
    replace (Z.min (start + 10 - 1) h - start + 1)%Z with 10%Z in Hmds by lia. done.
Qed.

Lemma check_readable_spec (isReadableOrError : RootMetadata → go (mdFetch W) unit) decryptMD latest :
  (∀ md s, Q md → isReadableOrError md s = (Ok tt, s)) →
  ∀ refs revs s, Forall2 (mds s) refs revs →
  check_readable isReadableOrError decryptMD latest refs s = (Ok tt, s).
Proof.
  intros HR refs. induction refs as [|r refs IH]; intros revs s Hf; [done|].
  destruct revs as [|rev revs]; [by inversion Hf|]. apply Forall2_cons in Hf as [(md & Hmd & _ & _ & _ & HQ) Hf].
  cbn [check_readable]. unfold mbind, go_bind, deref, try. rewrite Hmd, HR by done. by eapply IH.
Qed.

(** C36. All merged updates are fetched: when the metadata operations answer
    a range with the revisions of it that exist, the first to [h], and
    these can be read, [getMergedMDUpdates] returns, after at most one
    round for each ten updates and one more, every revision from the
    requested one to the last, in order and whatever the cache holds. *)
Theorem getMergedMDUpdates_all (isReadableOrError : RootMetadata → go (mdFetch W) unit) decryptMD s startRev fuel :
  ok s → (MetadataRevisionInitial <= startRev)%Z → (∀ md s, Q md → isReadableOrError md s = (Ok tt, s)) →
  (h - startRev + 1 < maxMDsAtATime * Z.of_nat fuel)%Z → 0 < fuel →
  ∃ refs s', getMergedMDUpdates isReadableOrError decryptMD fuel id startRev s = (Ok (Some refs), s') ∧
    Forall2 (mds s') refs (seqZ startRev (h - startRev + 1)).
Proof.
  intros Hs Hst HR Hf H0. destruct (merged_loop_spec fuel s startRev [] Hs Hst Hf H0) as (refs & s' & Hl & _ & Hrefs).
  exists refs, s'. unfold getMergedMDUpdates. rewrite decide_False by lia. unfold mbind, go_bind. rewrite Hl.
  rewrite (check_readable_spec _ _ _ HR refs _ s' Hrefs). done.
Qed.
End merged.

Section unmerged.
Context {W : Type} `{MDOps W} (id : TlfID) (bid : BranchID) (lo h : Z) (Q : RootMetadata → Prop).
Abbreviation ok := (cache_ok id bid lo h Q).
Abbreviation mds s := (is_md id bid Q s).
Context (Hlaw : range_law id bid Unmerged lo h Q).

(** All updates of an unmerged branch are fetched: from its head [h]
    back, [getUnmergedMDUpdates] returns every revision of the branch in
    order, and the merged revision that the branch starts from. *)
Theorem getUnmergedMDUpdates_all s startRev fuel :
  ok s → (MetadataRevisionInitial < lo)%Z → (lo <= startRev <= h)%Z →
  (startRev - lo + 1 < maxMDsAtATime * Z.of_nat fuel)%Z →
  ∃ refs s', getUnmergedMDUpdates fuel id bid startRev s = (Ok (Some (lo - 1, refs)%Z), s') ∧
    Forall2 (mds s') refs (seqZ lo (startRev - lo + 1)).
Proof.
  intros Hs Hlo Hst Hf. unfold getUnmergedMDUpdates. rewrite decide_False by lia.
  assert (∀ fuel s head acc revs,
    ok s → (lo - 1 <= head <= h)%Z → (head - lo + 1 < maxMDsAtATime * Z.of_nat fuel)%Z → Forall2 (mds s) acc revs →
    ∃ refs s', unmerged_loop fuel id bid head acc s = (Ok (Some (lo - 1, refs)%Z), s') ∧
      Forall2 (mds s') refs (seqZ lo (head - lo + 1) ++ revs)) as Hloop.
  2:{ destruct (Hloop fuel s startRev [] []) as (refs & s' & Hl & Hr); [done|lia|done|constructor|].
      exists refs, s'. by rewrite app_nil_r in Hr. }
  clear Hs Hst Hf s startRev fuel. induction fuel as [|fuel IH]; intros s head acc revs Hs Hh Hf Hacc.
  { unfold maxMDsAtATime in Hf. lia. }
  cbn [unmerged_loop]. set (start := if decide _ then _ else _).
  assert (MetadataRevisionInitial <= start <= head ∧ start = Z.max MetadataRevisionInitial (head - 9))%Z as [Hst Hsteq].
  { unfold start, maxMDsAtATime, MetadataRevisionInitial in *. case_decide; lia. }
  destruct (getMDRange_spec id bid Unmerged lo h Q ltac:(done) Hlaw s start head Hs Hst) as (rmds & s1 & Hget & Hg & Hs1 & Hmds).
  unfold mbind at 1, go_bind at 1. rewrite Hget. clear Hget. clearbody start.
  pose proof (Forall2_length _ _ _ Hmds) as Hlen. unfold revs_in in Hmds, Hlen. rewrite length_seqZ in Hlen.
  unfold maxMDsAtATime in *.
  assert (Forall2 (mds s1) acc revs) as Hacc1 by (eapply Forall2_impl; [done|apply Hg]).
  destruct rmds as [|r rmds].
  - simpl in Hlen. unfold mbind, go_bind, mret, go_ret. rewrite decide_False by lia.
    rewrite decide_True by (unfold zlen; simpl; lia). assert (head = lo - 1)%Z as -> by lia.
    exists acc, s1. split; [done|]. rewrite seqZ_nil by lia. done.
  - set (m := Z.max (Z.max MetadataRevisionInitial (head - 9)) lo).
    rewrite Hsteq in Hmds, Hlen. fold m in Hmds, Hlen. simpl in Hlen.
    assert (Z.min head h - m + 1 = head - m + 1)%Z as Hmin by lia. rewrite Hmin in *.
    pose proof Hmds as Hmds'. rewrite seqZ_cons in Hmds' by lia.
    apply Forall2_cons in Hmds' as [(md & Hmd & _ & _ & Hrev & _) _].
    unfold mbind, go_bind, deref, mret, go_ret. rewrite Hmd, Hrev.
    rewrite decide_False by lia.
    assert (Forall2 (mds s1) ((r :: rmds) ++ acc) (seqZ m (head - m + 1) ++ revs)) as Happ by (by apply Forall2_app).
    case_decide as Hfew; unfold zlen in Hfew; simpl in Hfew.
    + assert (m = lo) as -> by lia. by exists ((r :: rmds) ++ acc), s1.
    + destruct (IH s1 (m - 1)%Z ((r :: rmds) ++ acc) (seqZ m (head - m + 1) ++ revs)) as (refs & s' & Hl & Hr);
        [done|lia|lia|done|].
      exists refs, s'. split; [done|].
      replace (seqZ lo (head - lo + 1)) with (seqZ lo (m - 1 - lo + 1) ++ seqZ m (head - m + 1)); [by rewrite <- app_assoc|].
      replace (head - lo + 1)%Z with ((m - 1 - lo + 1) + (head - m + 1))%Z by lia. rewrite (seqZ_app lo (m - 1 - lo + 1) (head - m + 1)) by lia.
      by replace (lo + (m - 1 - lo + 1))%Z with m by lia.
Qed.
End unmerged.

(** ** An example: a server that makes up the metadata it is asked for *)

Definition ex_bare_md (id : TlfID) (bid : BranchID) (rev : Z) : BareRootMetadata :=
  MkBareRootMetadata (MkWriterMetadata None "u" ["u"] [] id bid 0 0 0 0 []) (MkSignatureInfo 0 [] EmptyString)
    "u" 0 rev zeroMdID [] [] None.
Definition ex_md (id : TlfID) (bid : BranchID) (rev : Z) : RootMetadata :=
  MkRootMetadata (ex_bare_md id bid rev)
    (MkPrivateMetadata (MkDirEntry zeroBlockInfo (MkEntryInfo Dir 0 EmptyString 0 0)) []
       (MkBlockChanges zeroBlockInfo [] 0) (MkBlockChanges zeroBlockInfo [] 0)) None zeroMdID.

(** New objects for the metadata of the revisions [revs]. *)
Definition fresh_mds {W} (id : TlfID) (bid : BranchID) (revs : list Z) (s : mdFetch W) : list nat * mdFetch W :=
  (seq (length (mf_mds s)) (length revs), MkMdFetch (mf_mds s ++ (ex_md id bid <$> revs)) (mf_cache s) (mf_world s)).

#[local] Instance ex_mdops (lo h : Z) : MDOps unit := {|
  ops_getRange id bid ms a b s := let '(refs, s) := fresh_mds id bid (revs_in lo h a b) s in (Ok refs, s)
|}.

Lemma ex_range_law id bid ms lo h : @range_law _ (ex_mdops lo h) id bid ms lo h (λ _, True).
Proof.
  intros s a b Hs Hab. eexists _, _. split; [reflexivity|]. unfold fresh_mds. cbn [fst snd].
  assert (∀ r rev, is_md id bid (λ _, True) s r rev →
    is_md id bid (λ _, True) (MkMdFetch (mf_mds s ++ (ex_md id bid <$> revs_in lo h a b)) (mf_cache s) (mf_world s)) r rev) as Hg.
  { intros r rev (md & Hr & Hmd). exists md. split; [|done]. by apply lookup_app_l_Some. }
  split; [exact Hg|]. split.
  { intros rev r Hr. destruct (Hs rev r Hr). auto. }
  apply Forall2_same_length_lookup_2; [by rewrite length_seq|].
  intros i r rev Hr Hrev. apply lookup_seq in Hr as [-> Hi]. exists (ex_md id bid rev). split; [|done].
  cbn [mf_mds]. rewrite lookup_app_r by lia. replace (_ + i - _) with i by lia. by rewrite list_lookup_fmap, Hrev.
Qed.

Definition ex_fetch : mdFetch unit := MkMdFetch [] (MkLRU 5 []) tt.

Lemma ex_cache_ok id bid lo h : cache_ok id bid lo h (λ _, True) ex_fetch.
Proof. by intros rev r. Qed.

Lemma getMergedMDUpdates_all_witness : ∃ refs s',
  @getMergedMDUpdates _ (ex_mdops 1 23) (λ _, mret tt) (λ _ _, mret tt) 4 NullTlfID 3%Z ex_fetch = (Ok (Some refs), s') ∧
  Forall2 (is_md NullTlfID NullBranchID (λ _, True) s') refs (seqZ 3 21).
Proof.
  apply (@getMergedMDUpdates_all _ (ex_mdops 1 23) NullTlfID 23 (λ _, True)).
  - apply ex_range_law.
  - apply ex_cache_ok.
  - discriminate.
  - reflexivity.
  - reflexivity.
  - lia.
Defined.

Lemma getUnmergedMDUpdates_all_witness : ∃ refs s',
  @getUnmergedMDUpdates _ (ex_mdops 5 23) 2 NullTlfID (MkBranchID [x01]) 23%Z ex_fetch = (Ok (Some (4%Z, refs)), s') ∧
  Forall2 (is_md NullTlfID (MkBranchID [x01]) (λ _, True) s') refs (seqZ 5 19).
Proof.
  apply (@getUnmergedMDUpdates_all _ (ex_mdops 5 23) NullTlfID (MkBranchID [x01]) 5 23 (λ _, True)).
  - apply ex_range_law.
  - apply ex_cache_ok.
  - reflexivity.
  - split; discriminate.
  - reflexivity.
Defined.

(** A server that answers with a revision that was not asked for makes the
    client panic: the slot of the revision is not checked. *)
Lemma getMDRange_unexpected_revision {W} `{MDOps W} id (start stop rev : MetadataRevision) r md (s s1 : mdFetch W) :
  (MetadataRevisionInitial <= start)%Z → stop = start → (stop < rev)%Z →
  lru_Peek (id, start, NullBranchID) (mf_cache s) = None →
  ops_getRange id NullBranchID Merged start start s = (Ok [r], s1) →
  mf_mds s1 !! r = Some md → bm_Revision (rmd_bare md) = rev →
  fst (getMDRange id NullBranchID start stop Merged s) = Panic "index out of range".
Proof.
  intros Hst -> Hrev Hpeek Hget Hr Hmd.
  assert (mdcache_Get id start NullBranchID s = (Err (NoSuchMDError id start NullBranchID), s)) as Hmiss.
  { unfold mdcache_Get. destruct (lru_Get _ _) as [o c] eqn:E. unfold lru_Get in E. unfold lru_Peek in Hpeek.
    rewrite Hpeek in E. injection E as <- <-. by destruct s. }
  unfold getMDRange. rewrite decide_False by lia.
  replace (start - start + 1)%Z with 1%Z by lia. rewrite seqZ_cons, seqZ_nil by lia.
  assert (∀ sl, scan_cache id NullBranchID [start] sl s =
    (Ok (MkSlots (sl_rmds sl ++ [None]) (extend_ranges start (sl_toDownload sl)) (sl_min sl) (sl_max sl)), s)) as Hscan.
  { intros sl. cbn [scan_cache]. unfold mbind, go_bind, try. by rewrite Hmiss. }
  unfold mbind at 1, go_bind at 1. rewrite Hscan. cbn [sl_rmds sl_toDownload sl_min sl_max app extend_ranges last].
  unfold mbind at 1, go_bind at 1. cbn [download]. unfold mbind at 1, go_bind at 1. rewrite Hget.
  cbn [fill_slots]. unfold mbind, go_bind, deref. rewrite Hr. unfold lift_res, set_slot.
  cbn [note_slot sl_rmds]. rewrite decide_False by (unfold zlen; simpl; lia). done.
Qed.
