(* ===== verification/BlockManager.v ===== *)
(** * BlockManager: archiving blocks and reclaiming quota
    ([folder_block_manager.go])

    The manager of a folder archives the blocks that a revision
    unreferences, deletes the blocks of failed writes, and reclaims the
    quota of what was unreferenced long enough ago.  What it uses of the
    folder, of the block operations and of the metadata server is the
    interface [FbmEnv]; the history is fetched with [getMDRange].  The
    workers of a batch of calls run beside each other: the order in which
    their calls take effect, and how much is still done after a failure,
    are the argument [downgradeSched]. *)

From Stdlib Require Import ZArith Lia.
From S2P Require Import Prelude Types Errors GoStd Ids RekeyQueue CryptoCommon DataTypes Ops ConflictInfo Handles KeyBundles Metadata Lru MDUtil.

Definition numPointersToDowngradePerChunk : nat := 20.
Definition numPointersPerGCThreshold : nat := 100.
Definition numMaxRevisionsPerQR : Z := 100.
Definition archiveChanSize : nat := 25.

(** [fbmHelper], [BlockOps], [MDServer], [KBPKI] and [Clock], as far as the
    manager uses them. *)
Class FbmEnv (W : Type) := {
  fe_getMDForFBM : go (mdFetch W) nat;
  fe_reembedForFBM : list nat → go (mdFetch W) unit;
  fe_finalizeGCOp : gcOp → go (mdFetch W) unit;
  fe_Archive : RootMetadata → list BlockPointer → go (mdFetch W) unit;
  fe_Delete : RootMetadata → list BlockPointer → go (mdFetch W) (gmap BlockID Z);
  fe_TruncateLock : TlfID → go (mdFetch W) bool;
  fe_TruncateUnlock : TlfID → go (mdFetch W) bool;
  fe_isReadableOrError : RootMetadata → go (mdFetch W) unit;
  fe_GetCurrentUserInfo : go (mdFetch W) (string * UID);
  fe_Now : go (mdFetch W) Z;
  fe_minUnrefAge : Z
}.

Record folderBlockManager (W : Type) := MkFbm {
  fbm_fetch : mdFetch W;
  fbm_archiveChan : list nat;                 (* at most [archiveChanSize] *)
  fbm_archiveSenders : list nat;              (* goroutines that wait to send *)
  fbm_archiveGroup : RepeatedWaitGroup;
  fbm_blocksToDelete : gmap nat (list BlockPointer);
  fbm_forceReclamation : bool;                (* [forceReclamationChan] is full *)
  fbm_reclamationGroup : RepeatedWaitGroup;
  fbm_lastReclamationTime : option Z;
  fbm_lastQRHeadRev : MetadataRevision;
  fbm_lastQROldEnoughRev : MetadataRevision;
  fbm_wasLastQRComplete : bool
}.
Arguments MkFbm {W}.
Arguments fbm_fetch {W} _.
Arguments fbm_archiveChan {W} _.
Arguments fbm_archiveSenders {W} _.
Arguments fbm_archiveGroup {W} _.
Arguments fbm_blocksToDelete {W} _.
Arguments fbm_forceReclamation {W} _.
Arguments fbm_reclamationGroup {W} _.
Arguments fbm_lastReclamationTime {W} _.
Arguments fbm_lastQRHeadRev {W} _.
Arguments fbm_lastQROldEnoughRev {W} _.
Arguments fbm_wasLastQRComplete {W} _.

Definition newFolderBlockManager {W} (f : mdFetch W) : folderBlockManager W :=
  MkFbm f [] [] newRwg ∅ false newRwg None MetadataRevisionUninitialized MetadataRevisionUninitialized false.

(** The goroutines of [doChunkedDowngrades]: the order in which the chunks
    are processed, how many are processed after the first that fails, and
    which of the failures is reported. *)
Record downgradeSched := MkSched { ds_order : list nat; ds_more : nat; ds_report : nat }.

(** [l], with the elements at the positions [order] first. *)
Definition reorder {A} (order : list nat) (l : list A) : list A :=
  let chosen := filter (λ i, i < length l) (remove_dups order) in
  omap (λ i, l !! i) (chosen ++ filter (λ i, i ∉ chosen) (seq 0 (length l))).

(** The pointers that an operation unreferences, but not those that an
    update puts back. *)
Definition unref_of (u : blockUpdate) : option BlockPointer :=
  if decide (bu_Ref u = bu_Unref u) then None else Some (bu_Unref u).
Definition op_unrefs (o : op) : list BlockPointer := Unrefs o ++ omap unref_of (AllUpdates o).

Section manager.
Context {W : Type} `{MDOps W, FbmEnv W}.
Abbreviation fbm := (folderBlockManager W).

Definition on_fetch {A} (m : go (mdFetch W) A) : go fbm A := λ s,
  let '(r, f) := m (fbm_fetch s) in
  (r, MkFbm f (fbm_archiveChan s) (fbm_archiveSenders s) (fbm_archiveGroup s) (fbm_blocksToDelete s)
        (fbm_forceReclamation s) (fbm_reclamationGroup s) (fbm_lastReclamationTime s)
        (fbm_lastQRHeadRev s) (fbm_lastQROldEnoughRev s) (fbm_wasLastQRComplete s)).
Definition set_archive (ch senders : list nat) (g : RepeatedWaitGroup) (s : fbm) : fbm :=
  MkFbm (fbm_fetch s) ch senders g (fbm_blocksToDelete s) (fbm_forceReclamation s) (fbm_reclamationGroup s)
    (fbm_lastReclamationTime s) (fbm_lastQRHeadRev s) (fbm_lastQROldEnoughRev s) (fbm_wasLastQRComplete s).
Definition set_toDelete (m : gmap nat (list BlockPointer)) (s : fbm) : fbm :=
  MkFbm (fbm_fetch s) (fbm_archiveChan s) (fbm_archiveSenders s) (fbm_archiveGroup s) m (fbm_forceReclamation s)
    (fbm_reclamationGroup s) (fbm_lastReclamationTime s) (fbm_lastQRHeadRev s) (fbm_lastQROldEnoughRev s)
    (fbm_wasLastQRComplete s).
Definition set_reclamation (force : bool) (g : RepeatedWaitGroup) (s : fbm) : fbm :=
  MkFbm (fbm_fetch s) (fbm_archiveChan s) (fbm_archiveSenders s) (fbm_archiveGroup s) (fbm_blocksToDelete s) force g
    (fbm_lastReclamationTime s) (fbm_lastQRHeadRev s) (fbm_lastQROldEnoughRev s) (fbm_wasLastQRComplete s).
Definition set_time (t : option Z) (s : fbm) : fbm :=
  MkFbm (fbm_fetch s) (fbm_archiveChan s) (fbm_archiveSenders s) (fbm_archiveGroup s) (fbm_blocksToDelete s)
    (fbm_forceReclamation s) (fbm_reclamationGroup s) t (fbm_lastQRHeadRev s) (fbm_lastQROldEnoughRev s)
    (fbm_wasLastQRComplete s).
Definition set_lastQR (headRev oldEnoughRev : MetadataRevision) (complete : bool) (s : fbm) : fbm :=
  MkFbm (fbm_fetch s) (fbm_archiveChan s) (fbm_archiveSenders s) (fbm_archiveGroup s) (fbm_blocksToDelete s)
    (fbm_forceReclamation s) (fbm_reclamationGroup s) (fbm_lastReclamationTime s) headRev oldEnoughRev complete.

(** ** Enqueuing *)

Definition add_to_delete (md : nat) (ptrs : list BlockPointer) (m : gmap nat (list BlockPointer)) :=
  <[md := default [] (m !! md) ++ ptrs]> m.

(** The pointers are those of the blocks that were put. *)
Definition cleanUpBlockState (md : nat) (ptrs : list BlockPointer) : go fbm unit :=
  modify (λ s, set_toDelete (foldl (λ m p, add_to_delete md [p] m) (fbm_blocksToDelete s) ptrs) s).

(** A send to [archiveChan]: it waits when the channel is full. *)
Definition archive_send (md : nat) : go fbm unit := modify (λ s,
  if decide (length (fbm_archiveChan s) < archiveChanSize)
  then set_archive (fbm_archiveChan s ++ [md]) (fbm_archiveSenders s) (fbm_archiveGroup s) s
  else set_archive (fbm_archiveChan s) (fbm_archiveSenders s ++ [md]) (fbm_archiveGroup s) s).

Definition group_Add (delta : Z) : go fbm unit :=
  s ← get;
  g ← lift_res (rwg_Add delta (fbm_archiveGroup s));
  modify (λ s, set_archive (fbm_archiveChan s) (fbm_archiveSenders s) g s).

(** In [archiveUnrefBlocksNoWait] a goroutine waits for the send, if it has
    to; in [archiveUnrefBlocks] the caller does, and then the result is
    [false] until it can go on. *)
Definition archiveUnrefBlocksNoWait (md : nat) : go fbm unit :=
  rmd ← on_fetch (deref md);
  if decide (MergedStatus (rmd_bare rmd) ≠ Merged) then mret tt
  else _ ← group_Add 1; archive_send md.
Definition archiveUnrefBlocks (md : nat) : go fbm bool :=
  rmd ← on_fetch (deref md);
  if decide (MergedStatus (rmd_bare rmd) ≠ Merged) then mret true
  else
    _ ← group_Add 1;
    s ← get;
    _ ← archive_send md;
    mret (bool_decide (length (fbm_archiveChan s) < archiveChanSize)).

Definition forceQuotaReclamation : go fbm unit :=
  s ← get;
  g ← lift_res (rwg_Add 1 (fbm_reclamationGroup s));
  if fbm_forceReclamation s then
    g ← lift_res (rwg_Done g); modify (set_reclamation true g)
  else modify (set_reclamation true g).

(** ** Downgrading references *)

(** [liveCounts], with the blocks that have no reference left. *)
Definition zero_refs (liveCounts : gmap BlockID Z) : list BlockID :=
  fst <$> filter (λ x, x.2 = 0%Z) (map_to_list liveCounts).

Definition downgrade_chunk (archive : bool) (md : RootMetadata) (chunk : list BlockPointer) : go (mdFetch W) (list BlockID) :=
  if archive then _ ← fe_Archive md chunk; mret []
  else liveCounts ← fe_Delete md chunk; mret (zero_refs liveCounts).

(** The chunks that the workers process; after a failure, [more] at most. *)
Fixpoint run_chunks (archive : bool) (md : RootMetadata) (chunks : list (list BlockPointer)) (failed : bool) (more : nat)
    : go (mdFetch W) (list (list BlockID + error)) :=
  match chunks with
  | [] => mret []
  | chunk :: chunks =>
      match failed, more with
      | true, O => mret []
      | _, _ =>
          r ← try (downgrade_chunk archive md chunk);
          let more := if failed then pred more else more in
          rs ← run_chunks archive md chunks (failed || (match r with inl _ => false | inr _ => true end)) more;
          mret (r :: rs)
      end
  end.

Definition chunks_of (ptrs : list BlockPointer) : list (list BlockPointer) :=
  let n := numPointersToDowngradePerChunk in
  (λ i, take n (drop (i * n) ptrs)) <$> seq 0 ((length ptrs + n - 1) / n).

Definition errors_in {A} (rs : list (A + error)) : list error :=
  omap (λ r, match r with inl _ => None | inr e => Some e end) rs.
Definition values_in {A} (rs : list (A + error)) : list A :=
  omap (λ r, match r with inl a => Some a | inr _ => None end) rs.

Definition doChunkedDowngrades (sched : downgradeSched) (md : RootMetadata) (ptrs : list BlockPointer) (archive : bool)
    : go (mdFetch W) (list BlockID) :=
  rs ← run_chunks archive md (reorder (ds_order sched) (chunks_of ptrs)) false (ds_more sched);
  match errors_in rs with
  | [] => mret (concat (values_in rs))
  | e :: es => fail (default e ((e :: es) !! ds_report sched))
  end.

Definition deleteBlockRefs (sched : downgradeSched) (md : RootMetadata) (ptrs : list BlockPointer) :=
  doChunkedDowngrades sched md ptrs false.
Definition archiveBlockRefs (sched : downgradeSched) (md : RootMetadata) (ptrs : list BlockPointer) : go (mdFetch W) unit :=
  _ ← doChunkedDowngrades sched md ptrs true; mret tt.

(** ** Blocks of failed writes *)

Context `{Codec DirEntry}.

(** An error that will not go away. *)
Definition permanent (e : error) : bool :=
  match e with BServerError _ | BServerErrorNonceNonExistent _ => true | _ => false end.

(** One metadata of the list: whether it has to be tried again. *)
Definition process_md (id : TlfID) (sched : downgradeSched) (md : nat) (ptrs : list BlockPointer) : go fbm bool :=
  rmd ← on_fetch (deref md);
  let b := rmd_bare rmd in
  r ← on_fetch (try (getMDRange id (bm_BID b) (bm_Revision b) (bm_Revision b) (MergedStatus b)));
  match r with
  | inr _ | inl [] => mret true
  | inl (r0 :: _) =>
      rmd0 ← on_fetch (deref r0);
      match CodecEqual (pmd_Dir (rmd_data rmd0)) (pmd_Dir (rmd_data rmd)) with
      | Panic m => panic m
      | Ok true => _ ← archiveUnrefBlocksNoWait r0; mret false
      | Ok false | Err _ =>
          d ← on_fetch (try (deleteBlockRefs sched rmd ptrs));
          match d with
          | inl _ => mret false
          | inr e => mret (negb (permanent e))
          end
      end
  end.

(** The range over the map, in the order that [order] gives. *)
Fixpoint process_mds (id : TlfID) (sched : nat → downgradeSched) (l : list (nat * list BlockPointer))
    : go fbm (list (nat * list BlockPointer)) :=
  match l with
  | [] => mret []
  | (md, ptrs) :: l =>
      keep ← process_md id (sched md) md ptrs;
      rest ← process_mds id sched l;
      mret (if (keep : bool) then (md, ptrs) :: rest else rest)
  end.

Definition processBlocksToDelete (id : TlfID) (sched : nat → downgradeSched) (order : list nat) : go fbm unit :=
  s ← get;
  let toDelete := fbm_blocksToDelete s in
  _ ← modify (set_toDelete ∅);
  toDeleteAgain ← process_mds id sched (reorder order (map_to_list toDelete));
  modify (λ s, set_toDelete (foldl (λ m x, add_to_delete x.1 x.2 m) (fbm_blocksToDelete s) toDeleteAgain) s).

(** ** The archive goroutine *)

(** What one revision unreferences. *)
Definition md_unrefs (rmd : RootMetadata) : list BlockPointer := bc_Ops (pmd_Changes (rmd_data rmd)) ≫= op_unrefs.

(** A receive from [archiveChan]; a goroutine that waits can send then. *)
Definition archive_receive : go fbm (option nat) := λ s,
  match fbm_archiveChan s with
  | [] => (Ok None, s)
  | md :: ch =>
      match fbm_archiveSenders s with
      | [] => (Ok (Some md), set_archive ch [] (fbm_archiveGroup s) s)
      | x :: l => (Ok (Some md), set_archive (ch ++ [x]) l (fbm_archiveGroup s) s)
      end
  end.

(** One round of [archiveBlocksInBackground], which ignores the error. *)
Definition archive_round (id : TlfID) (sched : downgradeSched) (sched' : nat → downgradeSched) (order : list nat) : go fbm unit :=
  r ← archive_receive;
  match r with
  | None => mret tt
  | Some md =>
      rmd ← on_fetch (deref md);
      _ ← try (_ ← on_fetch (archiveBlockRefs sched rmd (md_unrefs rmd)); processBlocksToDelete id sched' order);
      group_Add (-1)
  end.

(** ** Reclaiming quota *)

Definition isOldEnough (rmd : RootMetadata) : go (mdFetch W) bool :=
  now ← fe_Now;
  mret (bool_decide (ei_Mtime (de_EntryInfo (pmd_Dir (rmd_data rmd))) + fe_minUnrefAge < now)%Z).

(** The [LatestRev] of the last [gcOp] of a list of operations. *)
Definition last_gc (ops : list op) : option MetadataRevision :=
  last (omap (λ o, match o with GcOp g => Some (gco_LatestRev g) | _ => None end) ops).

(** The metadata of a batch from the last to the first, until both are
    found: the revisions, and whether they are. *)
Fixpoint scan_revs (rmds : list nat) (old gc : MetadataRevision) : go (mdFetch W) (MetadataRevision * MetadataRevision * bool) :=
  match rmds with
  | [] => mret (old, gc, false)
  | r :: rmds =>
      rmd ← deref r;
      old ← (if decide (old = MetadataRevisionUninitialized) then
               oldEnough ← isOldEnough rmd;
               mret (if (oldEnough : bool) then bm_Revision (rmd_bare rmd) else old)
             else mret old);
      let gc := if decide (gc = MetadataRevisionUninitialized)
                then default gc (last_gc (bc_Ops (pmd_Changes (rmd_data rmd)))) else gc in
      if decide (old ≠ MetadataRevisionUninitialized ∧ gc ≠ MetadataRevisionUninitialized) then mret (old, gc, true)
      else scan_revs rmds old gc
  end.

(** One batch of the history that ends at [currHead]. *)
Definition batch_start (currHead : MetadataRevision) : MetadataRevision :=
  let startRev := (currHead - maxMDsAtATime + 1)%Z in
  if decide (startRev < MetadataRevisionInitial)%Z then MetadataRevisionInitial else startRev.
Definition fetch_batch (id : TlfID) (currHead : MetadataRevision) : go (mdFetch W) (list nat) :=
  rmds ← getMDRange id NullBranchID (batch_start currHead) currHead Merged;
  _ ← fe_reembedForFBM rmds;
  mret rmds.
Definition next_head (rmds : list nat) (currHead : MetadataRevision) : go (mdFetch W) MetadataRevision :=
  match rmds with
  | [] => mret currHead
  | r :: _ => rmd ← deref r; mret (bm_Revision (rmd_bare rmd) - 1)%Z
  end.
Definition last_batch (rmds : list nat) (currHead : MetadataRevision) : bool :=
  bool_decide (zlen rmds < maxMDsAtATime ∨ currHead < MetadataRevisionInitial)%Z.

Fixpoint revisions_loop (fuel : nat) (id : TlfID) (currHead old gc : MetadataRevision)
    : go (mdFetch W) (option (MetadataRevision * MetadataRevision)) :=
  match fuel with
  | O => mret None
  | S fuel =>
      rmds ← fetch_batch id currHead;
      '(old, gc, found) ← scan_revs (reverse rmds) old gc;
      if (found : bool) then mret (Some (old, gc))
      else
        currHead ← next_head rmds currHead;
        if last_batch rmds currHead then mret (Some (old, gc)) else revisions_loop fuel id currHead old gc
  end.

Definition getMostRecentOldEnoughAndGCRevisions (fuel : nat) (id : TlfID) (head : RootMetadata) :=
  revisions_loop fuel id (bm_Revision (rmd_bare head)) MetadataRevisionUninitialized MetadataRevisionUninitialized.

(** What a revision unreferences, for the reclamation. *)
Definition gc_unrefs (ops : list op) : list BlockPointer :=
  ops ≫= λ o, match o with GcOp _ => [] | _ => op_unrefs o end.

(** The pointers of a batch, from its last metadata on, with the position
    at which each revision starts; [true] when [earliestRev] is reached. *)
Fixpoint gather (rmds : list nat) (earliestRev : MetadataRevision) (ptrs : list BlockPointer) (starts : gmap Z nat)
    : go (mdFetch W) (list BlockPointer * gmap Z nat * bool) :=
  match rmds with
  | [] => mret (ptrs, starts, false)
  | r :: rmds =>
      rmd ← deref r;
      let rev := bm_Revision (rmd_bare rmd) in
      if decide (rev <= earliestRev)%Z then mret (ptrs, starts, true)
      else
        gather rmds earliestRev (ptrs ++ gc_unrefs (bc_Ops (pmd_Changes (rmd_data rmd)))) (<[rev := length ptrs]> starts)
  end.

Fixpoint gather_loop (fuel : nat) (id : TlfID) (currHead earliestRev : MetadataRevision) (ptrs : list BlockPointer)
    (starts : gmap Z nat) : go (mdFetch W) (option (list BlockPointer * gmap Z nat)) :=
  match fuel with
  | O => mret None
  | S fuel =>
      rmds ← fetch_batch id currHead;
      '(ptrs, starts, reached) ← gather (reverse rmds) earliestRev ptrs starts;
      if (reached : bool) then mret (Some (ptrs, starts))
      else
        currHead ← next_head rmds currHead;
        if last_batch rmds currHead then mret (Some (ptrs, starts)) else gather_loop fuel id currHead earliestRev ptrs starts
  end.

(** The earliest revision that starts before the threshold. *)
Definition shorten (threshStart : nat) (latestRev : MetadataRevision) (starts : gmap Z nat) : MetadataRevision :=
  foldl (λ latestRev x, if decide (x.2 < threshStart ∧ (x.1 < latestRev)%Z) then x.1 else latestRev)
    latestRev (map_to_list starts).

Definition getUnreferencedBlocks (fuel : nat) (id : TlfID) (latestRev earliestRev : MetadataRevision)
    : go (mdFetch W) (option (list BlockPointer * MetadataRevision * bool)) :=
  if decide (latestRev <= earliestRev)%Z then mret (Some ([], MetadataRevisionUninitialized, true))
  else
    r ← gather_loop fuel id latestRev earliestRev [] ∅;
    match r with
    | None => mret None
    | Some (ptrs, starts) =>
        if decide (numPointersPerGCThreshold < length ptrs) then
          let rev := shorten (length ptrs - numPointersPerGCThreshold) latestRev starts in
          if decide (rev < latestRev)%Z
          then mret (Some (drop (default 0 (starts !! rev)) ptrs, rev, false))
          else mret (Some (ptrs, rev, true))
        else mret (Some (ptrs, latestRev, true))
    end.

Definition finalizeReclamation (zeroRefCounts : list BlockID) (latestRev : MetadataRevision) : go (mdFetch W) unit :=
  let unref id := MkBlockPointer id (bp_KeyGen zeroPtr) (bp_DataVer zeroPtr) (bp_Creator zeroPtr) (bp_Writer zeroPtr) (bp_RefNonce zeroPtr) in
  fe_finalizeGCOp (MkGcOp (MkOpCommon [] (unref <$> zeroRefCounts) [] (oc_writerInfo zeroOpCommon) (oc_finalPath zeroOpCommon)) latestRev).

Definition isQRNecessary (head : RootMetadata) : go fbm bool :=
  s ← get;
  let rev := bm_Revision (rmd_bare head) in
  if bool_decide (rev ≠ fbm_lastQRHeadRev s) || negb (fbm_wasLastQRComplete s) then mret true
  else if decide (fbm_lastQROldEnoughRev s < fbm_lastQRHeadRev s)%Z then on_fetch (isOldEnough head) else mret false.

(** Reclaiming the revisions after [lastGCRev] up to [latest], or not all of
    them; the result is [latest], and whether all were. *)
Definition reclaim_range (fuel : nat) (sched : downgradeSched) (id : TlfID) (head : RootMetadata)
    (latest lastGCRev : MetadataRevision) (shortened : bool) : go (mdFetch W) (option (MetadataRevision * bool)) :=
  r ← getUnreferencedBlocks fuel id latest lastGCRev;
  match r with
  | None => mret None
  | Some (ptrs, latestRev, complete) =>
      if decide (ptrs = [] ∧ shortened = false) then mret (Some (latest, true))
      else
        zeroRefCounts ← deleteBlockRefs sched head ptrs;
        _ ← finalizeReclamation zeroRefCounts latestRev;
        mret (Some (latest, complete))
  end.

(** The reclamation under the truncate lock: the revision it went up to,
    and whether it is complete. *)
Definition reclaim_locked (fuel : nat) (sched : downgradeSched) (id : TlfID) (head : RootMetadata)
    : go fbm (option (MetadataRevision * bool)) :=
  r ← on_fetch (getMostRecentOldEnoughAndGCRevisions fuel id head);
  match r with
  | None => mret None
  | Some (mostRecentOldEnoughRev, lastGCRev) =>
      if decide (mostRecentOldEnoughRev = MetadataRevisionUninitialized ∨ mostRecentOldEnoughRev <= lastGCRev)%Z
      then mret (Some (mostRecentOldEnoughRev, true))
      else
        let shortened := bool_decide (numMaxRevisionsPerQR < mostRecentOldEnoughRev - lastGCRev)%Z in
        let latest := if shortened then (lastGCRev + numMaxRevisionsPerQR)%Z else mostRecentOldEnoughRev in
        r ← on_fetch (try (reclaim_range fuel sched id head latest lastGCRev shortened));
        now ← on_fetch fe_Now;
        _ ← modify (set_time (Some now));
        match r with inl x => mret x | inr e => fail e end
  end.

(** [doReclamation] but for the deferred [Done]; [None] when the fuel runs
    out. *)
Definition doReclamation_body (fuel : nat) (sched : downgradeSched) (id : TlfID) : go fbm (option unit) :=
  h ← on_fetch fe_getMDForFBM;
  head ← on_fetch (deref h);
  _ ← on_fetch (fe_isReadableOrError head);
  if decide (MergedStatus (rmd_bare head) ≠ Merged) then fail (ErrorString "Skipping quota reclamation while unstaged")
  else
    '(username, uid) ← on_fetch fe_GetCurrentUserInfo;
    handle ← lift_res (GetTlfHandle head);
    if negb (handle_IsWriter (th_Bare handle) uid) then fail (WriteAccessError username)
    else
      necessary ← isQRNecessary head;
      if negb necessary then mret (Some tt)
      else
        locked ← on_fetch (fe_TruncateLock id);
        if negb locked then fail (Errorf "Couldn't get the truncate lock for folder")
        else
          r ← try (reclaim_locked fuel sched id head);
          _ ← on_fetch (try (fe_TruncateUnlock id));
          match r with
          | inr e => fail e
          | inl None => mret None
          | inl (Some (oldEnoughRev, complete)) =>
              _ ← modify (set_lastQR (bm_Revision (rmd_bare head)) oldEnoughRev complete);
              mret (Some tt)
          end.

(** The deferred [reclamationGroup.Done]. *)
Definition doReclamation (fuel : nat) (sched : downgradeSched) (id : TlfID) : go fbm (option unit) :=
  r ← try (doReclamation_body fuel sched id);
  s ← get;
  g ← lift_res (rwg_Done (fbm_reclamationGroup s));
  _ ← modify (set_reclamation (fbm_forceReclamation s) g);
  match r with inl x => mret x | inr e => fail e end.
End manager.
