(* ===== verification/BlockManagerSpec.v ===== *)
(** * BlockManagerSpec: what is reclaimed

    A quota reclamation deletes only pointers that old enough revisions
    unreference, under the truncate lock, and says that a revision is
    reclaimed only when all its pointers are deleted. *)

From Stdlib Require Import ZArith Lia.
From S2P Require Import Prelude Types Errors GoStd Ids RekeyQueue CryptoCommon DataTypes Ops ConflictInfo Handles KeyBundles Metadata Lru MDUtil MDUtilSpec BlockManager.

(** ** Chunks *)

Lemma omap_shift {A} (x : A) (l : list A) (k : list nat) : omap (λ i, (x :: l) !! i) (S <$> k) = omap (λ i, l !! i) k.
Proof. induction k as [|i k IH]; [done|]. cbn [fmap list_fmap omap list_omap]. change ((x :: l) !! S i) with (l !! i). by rewrite IH. Qed.

Lemma omap_lookup_seq {A} (l : list A) : omap (λ i, l !! i) (seq 0 (length l)) = l.
Proof. induction l as [|x l IH]; [done|]. cbn [length seq]. rewrite <- fmap_S_seq. simpl. f_equal. by rewrite omap_shift. Qed.

Lemma reorder_Permutation {A} order (l : list A) : reorder order l ≡ₚ l.
Proof.
  unfold reorder. set (chosen := filter _ (remove_dups order)).
  transitivity (omap (λ i, l !! i) (seq 0 (length l))); [|by rewrite omap_lookup_seq].
  apply omap_Permutation. apply NoDup_Permutation.
  - apply NoDup_app. split; [apply NoDup_filter, NoDup_remove_dups|]. split.
    + intros i Hi [Hn _]%list_elem_of_filter. done.
    + apply NoDup_filter, NoDup_seq.
  - apply NoDup_seq.
  - intros i. rewrite elem_of_app, list_elem_of_filter, !elem_of_seq. split.
    + intros [[Hl _]%list_elem_of_filter|[_ Hl]]; lia.
    + intros Hl. destruct (decide (i ∈ chosen)); [by left|by right].
Qed.

Lemma chunks_concat (ptrs : list BlockPointer) : concat (chunks_of ptrs) = ptrs.
Proof.
  unfold chunks_of. set (n := numPointersToDowngradePerChunk).
  assert (∀ k i, length ptrs <= (i + k) * n → concat ((λ i, take n (drop (i * n) ptrs)) <$> seq i k) = drop (i * n) ptrs) as H.
  { induction k as [|k IH]; intros i Hi; simpl; [by rewrite drop_ge by lia|].
    rewrite IH by (replace (S i + k) with (i + S k) by lia; done).
    rewrite <- (take_drop n (drop (i * n) ptrs)) at 2. f_equal. rewrite drop_drop. f_equal. rewrite Nat.mul_succ_l. lia. }
  apply (H _ 0). change (length ptrs <= (length ptrs + 20 - 1) / 20 * 20).
  pose proof (Nat.div_mod_eq (length ptrs + 20 - 1) 20). pose proof (Nat.mod_upper_bound (length ptrs + 20 - 1) 20 ltac:(lia)). lia.
Qed.

Lemma chunks_small ptrs c : c ∈ chunks_of ptrs → length c <= numPointersToDowngradePerChunk.
Proof. intros (i & -> & _)%list_elem_of_fmap. rewrite length_take. lia. Qed.

(** ** The environment *)

(** What can be seen of the servers: the pointers that were deleted, each
    with whether the truncate lock was held, the lock, the [gcOp]s that were
    recorded, and the clock. *)
Record fbm_obs := MkObs { ob_deleted : list (BlockPointer * bool); ob_locked : bool; ob_gcs : list gcOp; ob_time : Z }.

(** Nothing but the clock has moved. *)
Definition same_obs (o o' : fbm_obs) : Prop :=
  ob_deleted o' = ob_deleted o ∧ ob_locked o' = ob_locked o ∧ ob_gcs o' = ob_gcs o ∧ (ob_time o <= ob_time o')%Z.

#[export] Instance same_obs_preorder : PreOrder same_obs.
Proof.
  split; [intros o; unfold same_obs; split_and!; (done || lia)|].
  intros o1 o2 o3 (? & ? & ? & ?) (? & ? & ? & ?). unfold same_obs. split_and!; (congruence || lia).
Qed.

(** More pointers are deleted. *)
Definition deletes (l : list BlockPointer) (o o' : fbm_obs) : Prop :=
  ob_deleted o' = ob_deleted o ++ ((λ p, (p, ob_locked o)) <$> l) ∧ ob_locked o' = ob_locked o ∧
  ob_gcs o' = ob_gcs o ∧ (ob_time o <= ob_time o')%Z.

Lemma deletes_nil o o' : same_obs o o' ↔ deletes [] o o'.
Proof. unfold same_obs, deletes. simpl. by rewrite app_nil_r. Qed.
Lemma deletes_app l1 l2 o1 o2 o3 : deletes l1 o1 o2 → deletes l2 o2 o3 → deletes (l1 ++ l2) o1 o3.
Proof.
  intros (Hd1 & Hl1 & Hg1 & Ht1) (Hd2 & Hl2 & Hg2 & Ht2). unfold deletes. rewrite fmap_app, Hd2, Hd1, Hl2, Hl1, <- app_assoc.
  split_and!; (congruence || lia).
Qed.

Section laws.
Context {W : Type} (obs : W → fbm_obs).
Abbreviation o_of s := (obs (mf_world s)).

(** A call that leaves the servers as they are. *)
Definition quiet {A} (m : go (mdFetch W) A) : Prop := ∀ s, same_obs (o_of s) (o_of (snd (m s))).

Lemma quiet_bind {A B} (m : go (mdFetch W) A) (f : A → go (mdFetch W) B) : quiet m → (∀ a, quiet (f a)) → quiet (m ≫= f).
Proof.
  intros Hm Hf s. unfold mbind, go_bind. specialize (Hm s). destruct (m s) as [[a|e|p] s1]; [|done..].
  etrans; [exact Hm|apply Hf].
Qed.
Lemma quiet_pure {A} (m : go (mdFetch W) A) : (∀ s, snd (m s) = s) → quiet m.
Proof. intros H s. by rewrite H. Qed.
Lemma quiet_try {A} (m : go (mdFetch W) A) : quiet m → quiet (try m).
Proof. intros Hm s. unfold try. specialize (Hm s). by destruct (m s) as [[a|e|p] s1]. Qed.
Lemma quiet_world {A} (m : go (mdFetch W) A) : (∀ s, mf_world (snd (m s)) = mf_world s) → quiet m.
Proof. intros H s. by rewrite H. Qed.

(** The servers and the clock, as the interface documents them: fetching
    changes nothing; a delete that fails may have deleted some; a [gcOp]
    whose put fails may have been put. *)
Class FbmLaws `{MDOps W, FbmEnv W} : Prop := {
  fl_getRange id bid ms a b : quiet (ops_getRange id bid ms a b);
  fl_getMDForFBM : quiet fe_getMDForFBM;
  fl_reembed l : quiet (fe_reembedForFBM l);
  fl_isReadable md : quiet (fe_isReadableOrError md);
  fl_user : quiet fe_GetCurrentUserInfo;
  fl_Now s : fe_Now s = (Ok (ob_time (o_of s)), s);
  fl_Delete md ptrs s : match fe_Delete md ptrs s with
    | (Ok _, s') => deletes ptrs (o_of s) (o_of s')
    | (_, s') => ∃ l, l ⊆ ptrs ∧ deletes l (o_of s) (o_of s')
    end;
  fl_Lock id s : let '(r, s') := fe_TruncateLock id s in
    ob_deleted (o_of s') = ob_deleted (o_of s) ∧ ob_gcs (o_of s') = ob_gcs (o_of s) ∧
    (ob_time (o_of s) <= ob_time (o_of s'))%Z ∧ ob_locked (o_of s') = (if decide (r = Ok true) then true else ob_locked (o_of s));
  fl_Unlock id s : let '(r, s') := fe_TruncateUnlock id s in
    ob_deleted (o_of s') = ob_deleted (o_of s) ∧ ob_gcs (o_of s') = ob_gcs (o_of s) ∧
    (ob_time (o_of s) <= ob_time (o_of s'))%Z ∧ ob_locked (o_of s') = (if decide (r = Ok true) then false else ob_locked (o_of s));
  fl_finalize g s : let '(r, s') := fe_finalizeGCOp g s in
    ob_deleted (o_of s') = ob_deleted (o_of s) ∧ ob_locked (o_of s') = ob_locked (o_of s) ∧
    (ob_time (o_of s) <= ob_time (o_of s'))%Z ∧
    (ob_gcs (o_of s') = ob_gcs (o_of s) ++ [g] ∨ ob_gcs (o_of s') = ob_gcs (o_of s) ∧ r ≠ Ok tt)
}.
End laws.

Section downgrade.
Context {W : Type} (obs : W → fbm_obs) `{FbmLaws W obs}.
Abbreviation o_of s := (obs (mf_world s)).

(** Some of the pointers of the chunks are deleted; all of them, when no
    chunk fails. *)
Lemma run_chunks_spec md : ∀ chunks failed more s, match run_chunks false md chunks failed more s with
  | (Ok rs, s') => ∃ l, l ⊆ concat chunks ∧ deletes l (o_of s) (o_of s') ∧
      (failed = false → errors_in rs = [] → l = concat chunks)
  | (_, s') => ∃ l, l ⊆ concat chunks ∧ deletes l (o_of s) (o_of s')
  end.
Proof.
  induction chunks as [|c chunks IH]; intros failed more s; simpl.
  { exists []. split; [done|]. split; [by apply deletes_nil|done]. }
  destruct (failed && bool_decide (more = 0)) eqn:Estop.
  { apply andb_true_iff in Estop as [-> ->%bool_decide_eq_true]. exists []. split; [set_solver|].
    split; [by apply deletes_nil|done]. }
  match goal with |- context [match failed with true => ?x | false => ?y end] =>
    replace (match failed with true => x | false => y end) with y by (destruct failed, more; done) end.
  set (m' := if failed then pred more else more). unfold mbind at 1, go_bind at 1, try, downgrade_chunk.
  unfold mbind at 1, go_bind at 1.
  pose proof (fl_Delete obs md c s) as Hd. destruct (fe_Delete md c s) as [[live|e|p] s1]; simpl.
  - unfold mbind, go_bind. specialize (IH (failed || false) m' s1).
    destruct (run_chunks false md chunks (failed || false) m' s1) as [[rs|e|p] s2].
    + destruct IH as (l & Hl & Hdl & Hall). exists (c ++ l). split; [set_solver|].
      split; [by eapply deletes_app|]. intros -> He. simpl in Hall. by rewrite Hall.
    + destruct IH as (l & Hl & Hdl). exists (c ++ l). split; [set_solver|]. by eapply deletes_app.
    + destruct IH as (l & Hl & Hdl). exists (c ++ l). split; [set_solver|]. by eapply deletes_app.
  - destruct Hd as (l0 & Hl0 & Hd). unfold mbind, go_bind. specialize (IH (failed || true) m' s1).
    destruct (run_chunks false md chunks (failed || true) m' s1) as [[rs|e'|p] s2].
    + destruct IH as (l & Hl & Hdl & Hall). exists (l0 ++ l). split; [set_solver|].
      split; [by eapply deletes_app|]. intros _ He. discriminate He.
    + destruct IH as (l & Hl & Hdl). exists (l0 ++ l). split; [set_solver|]. by eapply deletes_app.
    + destruct IH as (l & Hl & Hdl). exists (l0 ++ l). split; [set_solver|]. by eapply deletes_app.
  - destruct Hd as (l & Hl & Hd). exists l. split; [set_solver|done].
Qed.

Lemma concat_Permutation {A} (l k : list (list A)) : l ≡ₚ k → concat l ≡ₚ concat k.
Proof. induction 1; simpl; [done|by f_equiv|by rewrite !app_assoc, (Permutation_app_comm x y)|by etrans]. Qed.

(** A batch of deletes deletes nothing else, and everything when it
    succeeds. *)
Lemma deleteBlockRefs_spec sched md ptrs s : match deleteBlockRefs sched md ptrs s with
  | (Ok _, s') => ∃ l, l ≡ₚ ptrs ∧ deletes l (o_of s) (o_of s')
  | (_, s') => ∃ l, l ⊆ ptrs ∧ deletes l (o_of s) (o_of s')
  end.
Proof.
  unfold deleteBlockRefs, doChunkedDowngrades. set (chunks := reorder _ _).
  assert (concat chunks ≡ₚ ptrs) as Hp.
  { etrans; [apply concat_Permutation, reorder_Permutation|by rewrite chunks_concat]. }
  pose proof (run_chunks_spec md chunks false (ds_more sched) s) as Hr. unfold mbind, go_bind.
  destruct (run_chunks _ _ _ _ _ s) as [[rs|e|p] s1].
  - destruct Hr as (l & Hl & Hd & Hall). destruct (errors_in rs) as [|e es]; simpl.
    + exists l. rewrite Hall by done. rewrite (Hall eq_refl eq_refl) in Hd. done.
    + exists l. by rewrite <- Hp.
  - destruct Hr as (l & Hl & Hd). exists l. by rewrite <- Hp.
  - destruct Hr as (l & Hl & Hd). exists l. by rewrite <- Hp.
Qed.
End downgrade.

(** ** The history *)

Section fetching.
Context {W : Type} (obs : W → fbm_obs) `{FbmLaws W obs}.
Abbreviation o_of s := (obs (mf_world s)).

Lemma quiet_scan_cache id bid revs : ∀ sl, quiet obs (scan_cache id bid revs sl).
Proof.
  induction revs as [|i revs IH]; intros sl; simpl; [by apply quiet_pure|].
  apply quiet_bind; [|intros [r|e]; apply IH]. apply quiet_try, quiet_world. intros s. unfold mdcache_Get.
  by destruct (lru_Get _ _) as [[r|] c].
Qed.
Lemma quiet_deref r : quiet obs (deref r).
Proof. apply quiet_pure. intros s. unfold deref. by destruct (_ !! _). Qed.
Lemma quiet_fill_slots start fetched : ∀ sl, quiet obs (fill_slots start fetched sl).
Proof.
  induction fetched as [|r fetched IH]; intros sl; simpl; [by apply quiet_pure|].
  apply quiet_bind; [apply quiet_deref|]. intros md. apply quiet_bind; [by apply quiet_pure|]. intros rmds.
  apply quiet_bind; [|intros _; apply IH]. apply quiet_bind; [apply quiet_deref|]. intros md'. by apply quiet_world.
Qed.
Lemma quiet_download id bid ms start ranges : ∀ sl, quiet obs (download id bid ms start ranges sl).
Proof.
  induction ranges as [|[a b] ranges IH]; intros sl; simpl; [by apply quiet_pure|].
  apply quiet_bind; [exact (fl_getRange obs _ _ _ _ _)|]. intros fetched. apply quiet_bind; [apply quiet_fill_slots|]. intros sl'. apply IH.
Qed.
Lemma quiet_getMDRange id bid start stop ms : quiet obs (getMDRange id bid start stop ms).
Proof.
  unfold getMDRange. case_decide; [by apply quiet_pure|]. apply quiet_bind; [apply quiet_scan_cache|]. intros sl.
  apply quiet_bind; [apply quiet_download|]. intros sl'. case_decide; [by apply quiet_pure|].
  apply quiet_bind; [by apply quiet_pure|]. intros l. by apply quiet_pure.
Qed.
End fetching.

(** Looking through the history leaves the servers as they are. *)
Section looking.
Context {W : Type} (obs : W → fbm_obs) `{FbmLaws W obs}.

Lemma quiet_fetch_batch id head : quiet obs (fetch_batch id head).
Proof.
  apply quiet_bind; [exact (quiet_getMDRange obs _ _ _ _ _)|]. intros rmds. apply quiet_bind; [exact (fl_reembed obs rmds)|].
  intros []. by apply quiet_pure.
Qed.
Lemma quiet_next_head rmds head : quiet obs (next_head rmds head).
Proof. destruct rmds; [by apply quiet_pure|]. apply quiet_bind; [exact (quiet_deref obs _)|]. intros md. by apply quiet_pure. Qed.
Lemma quiet_scan_revs rmds : ∀ old gc, quiet obs (scan_revs rmds old gc).
Proof.
  induction rmds as [|r rmds IH]; intros old gc; [by apply quiet_pure|]. cbn [scan_revs].
  apply quiet_bind; [exact (quiet_deref obs _)|]. intros md. apply quiet_bind.
  - case_decide; [|by apply quiet_pure]. apply quiet_bind; [|intros b; by apply quiet_pure].
    apply quiet_bind; [|intros now; by apply quiet_pure]. apply quiet_pure. intros s. by rewrite (fl_Now obs).
  - intros old'. case_decide; [by apply quiet_pure|apply IH].
Qed.
Lemma quiet_revisions_loop id : ∀ fuel head old gc, quiet obs (revisions_loop fuel id head old gc).
Proof.
  induction fuel as [|fuel IH]; intros head old gc; [by apply quiet_pure|]. cbn [revisions_loop].
  apply quiet_bind; [apply quiet_fetch_batch|]. intros rmds. apply quiet_bind; [apply quiet_scan_revs|].
  intros [[old' gc'] []]; [by apply quiet_pure|]. apply quiet_bind; [apply quiet_next_head|]. intros head'.
  destruct (last_batch _ _); [by apply quiet_pure|apply IH].
Qed.
Lemma quiet_gather rmds e : ∀ ptrs starts, quiet obs (gather rmds e ptrs starts).
Proof.
  induction rmds as [|r rmds IH]; intros ptrs starts; [by apply quiet_pure|]. cbn [gather].
  apply quiet_bind; [exact (quiet_deref obs _)|]. intros md. cbv zeta. case_decide; [by apply quiet_pure|apply IH].
Qed.
Lemma quiet_gather_loop id e : ∀ fuel head ptrs starts, quiet obs (gather_loop fuel id head e ptrs starts).
Proof.
  induction fuel as [|fuel IH]; intros head ptrs starts; [by apply quiet_pure|]. cbn [gather_loop].
  apply quiet_bind; [apply quiet_fetch_batch|]. intros rmds. apply quiet_bind; [apply quiet_gather|].
  intros [[ptrs' starts'] []]; [by apply quiet_pure|]. apply quiet_bind; [apply quiet_next_head|]. intros head'.
  destruct (last_batch _ _); [by apply quiet_pure|apply IH].
Qed.
Lemma quiet_getUnreferencedBlocks fuel id latest e : quiet obs (getUnreferencedBlocks fuel id latest e).
Proof.
  unfold getUnreferencedBlocks. case_decide; [by apply quiet_pure|]. apply quiet_bind; [apply quiet_gather_loop|].
  intros [[ptrs starts]|]; [|by apply quiet_pure]. repeat case_decide; by apply quiet_pure.
Qed.
End looking.

Section history.
Context {W : Type} (obs : W → fbm_obs) `{FbmLaws W obs}.
Abbreviation o_of s := (obs (mf_world s)).
(** The merged history of the folder up to [h]: the operations of each
    revision, and the time of its root directory. *)
Context (id : TlfID) (h : Z) (Q : RootMetadata → Prop) (hist : Z → list op) (mtime : Z → Z).
Abbreviation ok := (cache_ok id NullBranchID MetadataRevisionInitial h Q).
Abbreviation mds s := (is_md id NullBranchID Q s).

(** The metadata of a revision, with its operations embedded. *)
Definition embedded (s : mdFetch W) (r : nat) (rev : Z) : Prop :=
  ∃ md, mf_mds s !! r = Some md ∧ bm_Revision (rmd_bare md) = rev ∧
    bc_Ops (pmd_Changes (rmd_data md)) = hist rev ∧ ei_Mtime (de_EntryInfo (pmd_Dir (rmd_data md))) = mtime rev.

(** Embedding the operations of some metadata fails, or makes them those of
    the history. *)
Definition reembed_law : Prop := ∀ s refs revs, ok s → Forall2 (mds s) refs revs →
  (∃ s', fe_reembedForFBM refs s = (Ok tt, s') ∧ ok s' ∧ Forall2 (embedded s') refs revs) ∨ fails (fe_reembedForFBM refs) s.

(** A fetch fails, or is answered with the revisions that there are. *)
Context (Hrange : range_law_or id NullBranchID Merged MetadataRevisionInitial h Q True) (Hembed : reembed_law).

Lemma batch_start_bounds head : (MetadataRevisionInitial <= head)%Z →
  (MetadataRevisionInitial <= batch_start head <= head)%Z ∧ batch_start head = Z.max 1 (head - 9).
Proof. unfold batch_start, maxMDsAtATime, MetadataRevisionInitial. case_decide; lia. Qed.

(** A batch is the ten revisions up to the head, or as many as there are. *)
Lemma fetch_batch_spec s head : ok s → (1 <= head <= h)%Z →
  (∃ rmds s', fetch_batch id head s = (Ok rmds, s') ∧ ok s' ∧ same_obs (o_of s) (o_of s') ∧
     Forall2 (embedded s') rmds (seqZ (batch_start head) (head - batch_start head + 1))) ∨ fails (fetch_batch id head) s.
Proof.
  intros Hs Hh. destruct (batch_start_bounds head ltac:(unfold MetadataRevisionInitial; lia)) as [Hb _].
  destruct (getMDRange_spec_or id NullBranchID Merged MetadataRevisionInitial h Q (λ _, eq_refl) True Hrange s (batch_start head) head Hs Hb)
    as [(rmds & s1 & Hg & _ & Hs1 & Hmds)|[_ Hfail]]; [|right; by apply fails_bind].
  destruct (Hembed s1 rmds _ Hs1 Hmds) as [(s2 & He & Hs2 & Hemb)|Hfail].
  2:{ right. eapply fails_after; [exact Hg|]. by apply fails_bind. }
  assert (fetch_batch id head s = (Ok rmds, s2)) as Hb' by (unfold fetch_batch, mbind, go_bind; by rewrite Hg, He).
  left. exists rmds, s2. split; [done|]. split; [done|]. split.
  - pose proof (quiet_fetch_batch obs id head s) as Hq. by rewrite Hb' in Hq.
  - unfold revs_in, MetadataRevisionInitial in *. rewrite Z.max_l, Z.min_l in Hemb by lia. done.
Qed.

(** The revisions in [(a, b]], from the last. *)
Definition down (b a : Z) : list Z := reverse (seqZ (a + 1) (b - a)).

Lemma down_nil a b : (b <= a)%Z → down b a = [].
Proof. intros Hab. unfold down. by rewrite seqZ_nil by lia. Qed.
Lemma down_app a b c : (a <= b <= c)%Z → down c a = down c b ++ down b a.
Proof.
  intros Hab. unfold down. rewrite <- reverse_app. f_equal. replace (c - a)%Z with ((b - a) + (c - b))%Z by lia.
  rewrite seqZ_app by lia. by replace (a + 1 + (b - a))%Z with (b + 1)%Z by lia.
Qed.
Lemma elem_of_down a b x : x ∈ down b a ↔ (a < x <= b)%Z.
Proof. unfold down. rewrite elem_of_reverse, elem_of_seqZ. lia. Qed.
Lemma down_cons a b : (a < b)%Z → down b a = b :: down (b - 1) a.
Proof.
  intros Hab. rewrite (down_app a (b - 1) b) by lia. unfold down at 1. replace (b - (b - 1))%Z with 1%Z by lia.
  by replace (b - 1 + 1)%Z with b by lia.
Qed.

(** A batch, from its last metadata on. *)
Lemma batch_down s rmds head : Forall2 (embedded s) rmds (seqZ (batch_start head) (head - batch_start head + 1)) →
  Forall2 (embedded s) (reverse rmds) (down head (batch_start head - 1)%Z).
Proof.
  intros Hf. unfold down.
  assert (seqZ (batch_start head - 1 + 1) (head - (batch_start head - 1)) = seqZ (batch_start head) (head - batch_start head + 1)) as ->
    by (f_equal; lia).
  by apply Forall2_reverse.
Qed.

(** Going on before the batch. *)
Lemma next_head_spec s rmds head : (1 <= head)%Z →
  Forall2 (embedded s) rmds (seqZ (batch_start head) (head - batch_start head + 1)) →
  next_head rmds head s = (Ok (batch_start head - 1)%Z, s) ∧
  last_batch rmds (batch_start head - 1)%Z = bool_decide (batch_start head = 1)%Z.
Proof.
  intros Hh Hf. destruct (batch_start_bounds head ltac:(unfold MetadataRevisionInitial; lia)) as [Hb Hs].
  pose proof (Forall2_length _ _ _ Hf) as Hlen. rewrite length_seqZ in Hlen. split.
  - rewrite seqZ_cons in Hf by lia. apply Forall2_cons_inv_r in Hf as (r & rmds' & (md & Hmd & Hrev & _) & _ & ->).
    unfold next_head, mbind, go_bind, deref. rewrite Hmd. by rewrite Hrev.
  - unfold last_batch, zlen, maxMDsAtATime, MetadataRevisionInitial in *. apply bool_decide_ext. lia.
Qed.

(** *** The revisions *)

Definition gcs_of (revs : list Z) : list Z := filter (λ g, g ≠ 0%Z) (omap (λ rev, last_gc (hist rev)) revs).
Definition first_gc (revs : list Z) : Z := default 0%Z (head (gcs_of revs)).

Lemma first_gc_app l k : first_gc (l ++ k) = if decide (first_gc l = 0%Z) then first_gc k else first_gc l.
Proof.
  unfold first_gc. assert (gcs_of (l ++ k) = gcs_of l ++ gcs_of k) as -> by (unfold gcs_of; by rewrite omap_app, filter_app).
  destruct (gcs_of l) as [|g gs] eqn:E; simpl; [done|].
  assert (g ∈ gcs_of l) as [Hg _]%list_elem_of_filter by (rewrite E; left). by rewrite decide_False.
Qed.

Lemma first_gc_one rev : first_gc [rev] = default 0%Z (last_gc (hist rev)).
Proof.
  unfold first_gc, gcs_of. simpl. destruct (last_gc (hist rev)) as [g|]; [|done]. rewrite filter_cons.
  case_decide as Hg; [done|]. simpl. lia.
Qed.

(** [old] is the first of [revs] that is old enough, where time passes from
    [t0] to [t]; or none is. *)
Definition first_old (t0 t : Z) (revs : list Z) (old : Z) : Prop :=
  (old = 0%Z ∧ Forall (λ rev, t0 <= mtime rev + fe_minUnrefAge)%Z revs) ∨
  (old ≠ 0%Z ∧ ∃ l k, revs = l ++ old :: k ∧ Forall (λ rev, t0 <= mtime rev + fe_minUnrefAge)%Z l ∧ (mtime old + fe_minUnrefAge < t)%Z).

Lemma first_old_later t0 t t' revs old : first_old t0 t revs old → (t <= t')%Z → first_old t0 t' revs old.
Proof. intros [?|(? & l & k & ? & ? & ?)] Ht; [by left|right; split; [done|]; exists l, k; split_and!; [done..|lia]]. Qed.
Lemma first_old_more t0 t revs old k : first_old t0 t revs old → old ≠ 0%Z → first_old t0 t (revs ++ k) old.
Proof. intros [[? _]|(_ & l & k' & -> & ? & ?)] Hne; [done|]. right. split; [done|]. exists l, (k' ++ k). by rewrite <- app_assoc. Qed.

(** The revision [rev] after [revs], when it is [t]. *)
Lemma first_old_snoc t0 t revs old rev : first_old t0 t revs old → (t0 <= t)%Z → (rev ≠ 0)%Z →
  first_old t0 t (revs ++ [rev])
    (if decide (old = 0%Z) then if decide (mtime rev + fe_minUnrefAge < t)%Z then rev else old else old).
Proof.
  intros Ho Ht Hrev. case_decide as Hz; [|by apply first_old_more]. subst old.
  destruct Ho as [[_ Ho]|[? _]]; [|done]. case_decide as Hlt.
  - right. split; [done|]. by exists revs, [].
  - left. split; [done|]. apply Forall_app. split; [done|]. constructor; [lia|done].
Qed.

Lemma first_gc_snoc revs rev : first_gc (revs ++ [rev]) =
  if decide (first_gc revs = 0%Z) then default (first_gc revs) (last_gc (hist rev)) else first_gc revs.
Proof. rewrite first_gc_app, first_gc_one. case_decide as Hz; [by rewrite Hz|done]. Qed.

Lemma scan_revs_spec s t0 : (t0 <= ob_time (o_of s))%Z → ∀ rmds revs seen old,
  Forall2 (embedded s) rmds revs → Forall (λ rev, rev ≠ 0)%Z revs → first_old t0 (ob_time (o_of s)) seen old →
  ∃ old' (found : bool), scan_revs rmds old (first_gc seen) s =
      (Ok (old', first_gc (seen ++ revs), found), s) ∧
    first_old t0 (ob_time (o_of s)) (seen ++ revs) old' ∧
    (found = true → old' ≠ 0%Z ∧ first_gc (seen ++ revs) ≠ 0%Z).
Proof.
  intros Ht rmds. induction rmds as [|r rmds IH]; intros revs seen old Hf Hnz Ho.
  { inversion Hf; subst. exists old, false. by rewrite app_nil_r. }
  apply Forall2_cons_inv_l in Hf as (rev & revs' & (md & Hmd & Hrev & Hops & Hm) & Hf & ->).
  apply Forall_cons in Hnz as [Hrz Hnz]. cbn [scan_revs]. unfold mbind at 1, go_bind at 1, deref. rewrite Hmd.
  pose proof (first_old_snoc t0 _ seen old rev Ho Ht Hrz) as Ho1. set (old1 := if decide (old = 0%Z) then _ else _) in Ho1.
  assert (∀ B (k : Z → go (mdFetch W) B), ((if decide (old = MetadataRevisionUninitialized) then
      oldEnough ← isOldEnough md; mret (if (oldEnough : bool) then bm_Revision (rmd_bare md) else old) else mret old) ≫= k) s = k old1 s) as Hstep.
  { intros B k. unfold old1, MetadataRevisionUninitialized. destruct (decide (old = 0%Z)); [|done].
    unfold isOldEnough, mbind, go_bind. rewrite (fl_Now obs). unfold mret, go_ret. rewrite Hm, Hrev.
    case_decide; [by rewrite bool_decide_true|by rewrite bool_decide_false]. }
  rewrite Hstep, Hops. clear Hstep. unfold MetadataRevisionUninitialized in *. rewrite <- first_gc_snoc.
  rewrite (cons_middle rev seen revs'), app_assoc. case_decide as Hboth.
  - destruct Hboth as [Hold Hgc]. exists old1, true. rewrite (first_gc_app (seen ++ [rev])), decide_False by done.
    split; [done|]. split; [by apply first_old_more|done].
  - by apply IH.
Qed.

Lemma down_nonzero a b : (0 <= a)%Z → Forall (λ rev, rev ≠ 0)%Z (down b a).
Proof. intros Ha. apply Forall_forall. intros x Hx%elem_of_down. lia. Qed.

(** [getMostRecentOldEnoughAndGCRevisions] returns, and finds in the whole
    history the most recent revision that is old enough and the revision
    of the most recent [gcOp]. *)
Lemma revisions_loop_spec t0 : ∀ fuel head old s, ok s → (1 <= head <= h)%Z → (head <= 10 * Z.of_nat fuel)%Z →
  (t0 <= ob_time (o_of s))%Z → first_old t0 (ob_time (o_of s)) (down h head) old →
  (∃ old' s', revisions_loop fuel id head old (first_gc (down h head)) s = (Ok (Some (old', first_gc (down h 0))), s') ∧
     ok s' ∧ same_obs (o_of s) (o_of s') ∧ first_old t0 (ob_time (o_of s')) (down h 0) old') ∨
  fails (revisions_loop fuel id head old (first_gc (down h head))) s.
Proof.
  induction fuel as [|fuel IH]; intros head old s Hs Hh Hf Ht Ho; [lia|]. cbn [revisions_loop].
  destruct (fetch_batch_spec s head Hs Hh) as [(rmds & s1 & Hb & Hs1 & Hobs & Hemb)|Hfail]; [|right; by apply fails_bind].
  destruct (batch_start_bounds head ltac:(unfold MetadataRevisionInitial; lia)) as [Hbs Hbm]. unfold MetadataRevisionInitial in Hbs.
  rewrite (bind_run _ _ _ _ _ Hb), (fails_run _ _ _ _ _ Hb). clear Hb.
  pose proof Hobs as (_ & _ & _ & Ht1).
  destruct (scan_revs_spec s1 t0 ltac:(lia) (reverse rmds) (down head (batch_start head - 1)%Z) (down h head) old)
    as (old' & found & Hscan & Ho' & Hfound);
    [by apply batch_down|apply down_nonzero; lia|by eapply first_old_later|].
  rewrite <- down_app in Hscan, Ho', Hfound by lia. rewrite (bind_run _ _ _ _ _ Hscan), (fails_run _ _ _ _ _ Hscan).
  clear Hscan. cbv beta iota.
  assert (down h 0 = down h (batch_start head - 1)%Z ++ down (batch_start head - 1)%Z 0) as Happ by (apply down_app; lia).
  destruct found.
  - destruct (Hfound eq_refl) as [Hold Hgc]. left. exists old', s1. rewrite Happ. split; [|split; [done|split; [done|by apply first_old_more]]].
    by rewrite first_gc_app, decide_False.
  - destruct (next_head_spec s1 rmds head ltac:(lia) Hemb) as [Hn Hl].
    rewrite (bind_run _ _ _ _ _ Hn), (fails_run _ _ _ _ _ Hn), Hl. case_bool_decide as Hone.
    + left. exists old', s1. replace (batch_start head - 1)%Z with 0%Z in * by lia. done.
    + destruct (IH (batch_start head - 1)%Z old' s1) as [(old2 & s2 & Hloop & Hs2 & Hobs2 & Ho2)|Hfail];
        [done|lia|lia|lia|done| |by right].
      left. exists old2, s2. split; [done|]. split; [done|]. split; [by etrans|done].
Qed.

(** *** The pointers *)

(** What the revisions in [(a, b]] unreference. *)
Definition unrefs_in (b a : Z) : list BlockPointer := down b a ≫= (λ rev, gc_unrefs (hist rev)).

Lemma unrefs_app a b c : (a <= b <= c)%Z → unrefs_in c a = unrefs_in c b ++ unrefs_in b a.
Proof. intros Hab. unfold unrefs_in. by rewrite (down_app a b c) by done; rewrite bind_app. Qed.

(** The revisions of [(a, b]] start where those after them end. *)
Definition starts_ok (starts : gmap Z nat) (b a : Z) : Prop :=
  ∀ rev n, starts !! rev = Some n ↔ (a < rev <= b)%Z ∧ n = length (unrefs_in b rev).

Lemma unrefs_step b head : (head <= b)%Z → unrefs_in b (head - 1) = unrefs_in b head ++ gc_unrefs (hist head).
Proof.
  intros Hb. rewrite (unrefs_app (head - 1) head b) by lia. f_equal. unfold unrefs_in.
  rewrite down_cons, down_nil by lia. simpl. by rewrite app_nil_r.
Qed.

Lemma starts_ok_step starts b head : (head <= b)%Z → starts_ok starts b head →
  starts_ok (<[head := length (unrefs_in b head)]> starts) b (head - 1).
Proof.
  intros Hb Hs rev n. destruct (decide (rev = head)) as [->|Hne].
  - rewrite lookup_insert_eq. split; [intros [= <-]; split; [lia|done]|intros [_ ->]; done].
  - rewrite lookup_insert_ne by done. split; [intros [? ->]%Hs|intros [? ->]; apply Hs]; (split; [lia|done]).
Qed.

Lemma gather_spec s e b : ∀ rmds head a starts, Forall2 (embedded s) rmds (down head a) → (a <= head <= b)%Z → (e <= head)%Z →
  starts_ok starts b head →
  ∃ starts', gather rmds e (unrefs_in b head) starts s = (Ok (unrefs_in b (Z.max a e), starts', bool_decide (a < e)%Z), s) ∧
    starts_ok starts' b (Z.max a e).
Proof.
  induction rmds as [|r rmds IH]; intros head a starts Hf Hb He Hs.
  { assert (head = a) as ->. { destruct (decide (head <= a)%Z); [lia|]. rewrite down_cons in Hf by lia. inversion Hf. }
    exists starts. rewrite Z.max_l, bool_decide_false by lia. done. }
  assert (a < head)%Z as Ha. { destruct (decide (head <= a)%Z); [|lia]. rewrite down_nil in Hf by lia. inversion Hf. }
  rewrite down_cons in Hf by lia. apply Forall2_cons in Hf as [(md & Hmd & Hrev & Hops & _) Hf].
  cbn [gather]. unfold mbind, go_bind, deref. rewrite Hmd, Hrev, Hops. case_decide as Hle.
  - assert (e = head) as -> by lia. exists starts. rewrite Z.max_r, bool_decide_true by lia. done.
  - rewrite <- unrefs_step by lia. apply IH; [done|lia|lia|]. apply starts_ok_step; [lia|done].
Qed.

Lemma gather_loop_spec e b : (0 <= e)%Z → ∀ fuel head starts s, ok s → (1 <= head <= h)%Z → (e <= head <= b)%Z → (head <= 10 * Z.of_nat fuel)%Z →
  starts_ok starts b head →
  (∃ starts' s', gather_loop fuel id head e (unrefs_in b head) starts s = (Ok (Some (unrefs_in b e, starts')), s') ∧
     ok s' ∧ same_obs (o_of s) (o_of s') ∧ starts_ok starts' b e) ∨
  fails (gather_loop fuel id head e (unrefs_in b head) starts) s.
Proof.
  intros He0. induction fuel as [|fuel IH]; intros head starts s Hs Hh He Hf Hst; [lia|]. cbn [gather_loop].
  destruct (fetch_batch_spec s head Hs Hh) as [(rmds & s1 & Hb & Hs1 & Hobs & Hemb)|Hfail]; [|right; by apply fails_bind].
  destruct (batch_start_bounds head ltac:(unfold MetadataRevisionInitial; lia)) as [Hbs Hbm]. unfold MetadataRevisionInitial in Hbs.
  rewrite (bind_run _ _ _ _ _ Hb), (fails_run _ _ _ _ _ Hb). clear Hb.
  destruct (gather_spec s1 e b (reverse rmds) head (batch_start head - 1)%Z starts) as (starts' & Hg & Hst'); [by apply batch_down|lia|lia|done|].
  rewrite (bind_run _ _ _ _ _ Hg), (fails_run _ _ _ _ _ Hg). clear Hg. cbv beta iota. case_bool_decide as Hreached.
  - rewrite Z.max_r in * by lia. left. by exists starts', s1.
  - rewrite Z.max_l in * by lia. destruct (next_head_spec s1 rmds head ltac:(lia) Hemb) as [Hn Hl].
    rewrite (bind_run _ _ _ _ _ Hn), (fails_run _ _ _ _ _ Hn), Hl. case_bool_decide as Hone.
    + replace (batch_start head - 1)%Z with e in * by lia. left. by exists starts', s1.
    + destruct (IH (batch_start head - 1)%Z starts' s1) as [(st2 & s2 & Hloop & Hs2 & Hobs2 & Hst2)|Hfail];
        [done|lia|lia|lia|done| |by right].
      left. exists st2, s2. split; [done|]. split; [done|]. split; [by etrans|done].
Qed.

(** The earliest revision that starts before the threshold, if one does. *)
Lemma shorten_spec starts thresh latest :
  (shorten thresh latest starts = latest ∨ (shorten thresh latest starts < latest)%Z ∧
    ∃ n, starts !! shorten thresh latest starts = Some n ∧ n < thresh) ∧
  (∀ rev n, starts !! rev = Some n → n < thresh → (shorten thresh latest starts <= rev)%Z ∨ (latest <= rev)%Z).
Proof.
  assert (∀ l (cur : MetadataRevision), (∀ x, x ∈ l → starts !! x.1 = Some x.2) → (cur <= latest)%Z →
    (cur = latest ∨ ∃ n, starts !! cur = Some n ∧ n < thresh) →
    let r := foldl (λ (latestRev : MetadataRevision) x, if decide (x.2 < thresh ∧ (x.1 < latestRev)%Z) then x.1 else latestRev) cur l in
    (r <= cur)%Z ∧ (r = latest ∨ ∃ n, starts !! r = Some n ∧ n < thresh) ∧ (∀ x, x ∈ l → x.2 < thresh → (r <= x.1)%Z)) as H'.
  { induction l as [|x l IH]; intros cur Hin Hle Hcur; simpl; [split; [lia|]; split; [done|]; by intros ? ?%elem_of_nil|].
    case_decide as Hd.
    - destruct (IH x.1) as (G1 & G2 & G3); [set_solver|lia|right; exists x.2; split; [apply Hin; left|tauto]|].
      split; [lia|]. split; [done|]. intros y [->|Hy]%elem_of_cons Hlt; [done|by apply G3].
    - destruct (IH cur) as (G1 & G2 & G3); [set_solver|done|done|]. split; [done|]. split; [done|].
      intros y [->|Hy]%elem_of_cons Hlt; [|by apply G3]. destruct (decide (x.1 < cur)%Z); [tauto|lia]. }
  assert (let r := shorten thresh latest starts in (r <= latest)%Z ∧ (r = latest ∨ ∃ n, starts !! r = Some n ∧ n < thresh) ∧
    (∀ x, x ∈ map_to_list starts → x.2 < thresh → (r <= x.1)%Z)) as (G1 & G2 & G3)
    by (apply (H' (map_to_list starts) latest); [intros [k v]; by rewrite elem_of_map_to_list|lia|by left]).
  set (r := shorten thresh latest starts) in *. clearbody r. split.
  - destruct G2 as [->|G2]; [by left|]. destruct (decide (r = latest)); [by left|right]. split; [lia|done].
  - intros rev n Hn Hlt. left. apply (G3 (rev, n)); [by apply elem_of_map_to_list|done].
Qed.

Lemma getUnreferencedBlocks_spec fuel latest e s : ok s → (0 <= e < latest)%Z → (latest <= h)%Z → (latest <= 10 * Z.of_nat fuel)%Z →
  (∃ last complete s', getUnreferencedBlocks fuel id latest e s = (Ok (Some (unrefs_in last e, last, complete)), s') ∧
    same_obs (o_of s) (o_of s') ∧ (e < last <= latest)%Z ∧
    (complete = true ∧ last = latest ∨
     complete = false ∧ (last < latest)%Z ∧ numPointersPerGCThreshold < length (unrefs_in last e) ∧
       (∀ rev, (e < rev < last)%Z → length (unrefs_in rev e) <= numPointersPerGCThreshold))) ∨
  fails (getUnreferencedBlocks fuel id latest e) s.
Proof.
  intros Hs He Hl Hf. unfold getUnreferencedBlocks. rewrite decide_False by lia.
  assert (unrefs_in latest latest = []) as Hnil by (unfold unrefs_in; by rewrite down_nil by lia).
  pose proof (gather_loop_spec e latest ltac:(lia) fuel latest ∅ s Hs) as Hloop. rewrite Hnil in Hloop.
  destruct Hloop as [(starts & s1 & Hg & Hs1 & Hobs & Hst)|Hfail]; [lia|lia|lia| | |right; by apply fails_bind].
  { intros rev n. rewrite lookup_empty. split; [done|]. lia. }
  left. unfold mbind, go_bind. rewrite Hg. cbv beta iota zeta.
  assert (∀ rev, (e <= rev <= latest)%Z → length (unrefs_in latest e) = length (unrefs_in latest rev) + length (unrefs_in rev e)) as Hsplit
    by (intros rev Hr; by rewrite (unrefs_app e rev latest), length_app by lia).
  case_decide as Hmany; [|exists latest, true, s1; split; [done|]; split; [done|]; split; [lia|by left]].
  set (r := shorten _ latest starts).
  destruct (shorten_spec starts (length (unrefs_in latest e) - numPointersPerGCThreshold) latest) as [Hr Hmin]. fold r in Hr, Hmin.
  case_decide as Hlt; [|destruct Hr as [->|[? _]]; [|lia]; exists latest, true, s1; split; [done|]; split; [done|]; split; [lia|by left]].
  destruct Hr as [?|(_ & n & Hn & Hnt)]; [lia|]. pose proof (proj1 (Hst r n) Hn) as [Hrr ->].
  exists r, false, s1. rewrite Hn. simpl.
  rewrite (unrefs_app e r latest), drop_app_length by lia. split; [done|]. split; [done|]. split; [lia|]. right.
  split; [done|]. split; [done|]. specialize (Hsplit r ltac:(lia)) as Hr'. split; [lia|]. intros rev Hrev.
  specialize (Hsplit rev ltac:(lia)). destruct (decide (length (unrefs_in rev e) <= numPointersPerGCThreshold)); [done|].
  destruct (Hmin rev (length (unrefs_in latest rev))); [apply Hst; split; [lia|done]|lia|lia|lia].
Qed.

(** *** The reclamation *)

(** What a reclamation may do from [o] to [o'], where [done] is whether it
    succeeds: nothing; or deletes of pointers that revisions up to an old
    enough one unreference, after the last reclamation, and then a [gcOp]
    when all of them are deleted. *)
Abbreviation gc := (first_gc (down h 0)).
Definition reclaims (o o' : fbm_obs) (done : Prop) : Prop :=
  (ob_deleted o' = ob_deleted o ∧ ob_gcs o' = ob_gcs o) ∨
  ∃ old last l, (gc < last <= old)%Z ∧ (old <= h)%Z ∧ (last <= gc + numMaxRevisionsPerQR)%Z ∧
    (mtime old + fe_minUnrefAge < ob_time o')%Z ∧
    ob_deleted o' = ob_deleted o ++ ((λ p, (p, ob_locked o)) <$> l) ∧ l ⊆ unrefs_in last gc ∧
    ((ob_gcs o' = ob_gcs o ∧ ¬ done) ∨
     ∃ g, ob_gcs o' = ob_gcs o ++ [g] ∧ gco_LatestRev g = last ∧ l ≡ₚ unrefs_in last gc).

Lemma reclaims_later o0 o o' o1 done done' : same_obs o0 o → reclaims o o' done → ob_deleted o1 = ob_deleted o' →
  ob_gcs o1 = ob_gcs o' → (ob_time o' <= ob_time o1)%Z → (done' → done) → reclaims o0 o1 done'.
Proof.
  intros (Hd & Hl & Hg & _) Hr Hd1 Hg1 Ht Hdone. destruct Hr as [[? ?]|(old & last & l & Hlast & Hold & Hmax & Hm & Hdel & Hsub & Hgc)].
  - left. split; congruence.
  - right. exists old, last, l. rewrite Hd1, Hg1, <- Hd, <- Hl, <- Hg. split_and!; [lia..|done|done|]. naive_solver.
Qed.

Lemma on_fetch_run {A} (m : go (mdFetch W) A) (s : folderBlockManager W) :
  ∃ s', on_fetch m s = (fst (m (fbm_fetch s)), s') ∧ fbm_fetch s' = snd (m (fbm_fetch s)).
Proof. unfold on_fetch. destruct (m (fbm_fetch s)) as [r f]. by eexists. Qed.

Lemma on_fetch_deref r (s : folderBlockManager W) : on_fetch (deref r) s =
  (match mf_mds (fbm_fetch s) !! r with Some md => Ok md | None => Panic "nil pointer dereference" end, s).
Proof. unfold on_fetch, deref. destruct s as [f ? ? ? ? ? ? ? ? ? ?]. simpl. by destruct (mf_mds f !! r). Qed.

Abbreviation b_of s := (obs (mf_world (fbm_fetch s))).

Lemma reclaim_range_spec fuel sched head latest old shortened s : ok s → (0 <= gc < latest)%Z → (latest <= old <= h)%Z →
  (latest <= 10 * Z.of_nat fuel)%Z → (latest <= gc + numMaxRevisionsPerQR)%Z → (mtime old + fe_minUnrefAge < ob_time (o_of s))%Z →
  let '(r, s') := reclaim_range fuel sched id head latest gc shortened s in
  r ≠ Ok None ∧ ob_locked (o_of s') = ob_locked (o_of s) ∧ (ob_time (o_of s) <= ob_time (o_of s'))%Z ∧
  reclaims (o_of s) (o_of s') (∃ x, r = Ok (Some x)).
Proof.
  intros Hs Hgc Hold Hf Hmax Hm.
  unfold reclaim_range. unfold mbind at 1, go_bind at 1.
  destruct (getUnreferencedBlocks_spec fuel latest gc s Hs Hgc ltac:(lia) Hf) as [(last & complete & s1 & Hg & Hobs & Hlast & _)|Hfail].
  2:{ pose proof (quiet_getUnreferencedBlocks obs fuel id latest gc s) as Hq. unfold fails in Hfail.
      destruct (getUnreferencedBlocks fuel id latest gc s) as [[x|e|p] s1]; [by destruct (Hfail x)|..];
        destruct Hq as (Hd & Hl & Hg & Ht); split_and!; [done|done|done|by left|done|done|done|by left]. }
  rewrite Hg. clear Hg. cbv beta iota.
  pose proof Hobs as (Hd1 & Hl1 & Hg1 & Ht1). case_decide as Hnone; [split_and!; [done..|by left]|].
  pose proof (deleteBlockRefs_spec obs sched head (unrefs_in last gc) s1) as Hdel. unfold mbind at 1, go_bind at 1.
  assert (∀ l s2 r, l ⊆ unrefs_in last gc → deletes l (o_of s1) (o_of s2) → (∀ x, r ≠ Ok (Some x)) → r ≠ Ok None →
    r ≠ Ok None ∧ ob_locked (o_of s2) = ob_locked (o_of s) ∧ (ob_time (o_of s) <= ob_time (o_of s2))%Z ∧
    reclaims (o_of s) (o_of s2) (∃ x : MetadataRevision * bool, r = Ok (Some x))) as Hfail.
  { intros l s2 r Hl (Hd2 & Hl2 & Hg2 & Ht2) Hr Hr0. split_and!; [done|congruence|lia|]. right. exists old, last, l.
    split_and!; [lia|lia|lia|lia|lia|by rewrite Hd2, Hl1, Hd1|done|]. left. split; [congruence|]. by intros [x Hx%Hr]. }
  destruct (deleteBlockRefs sched head (unrefs_in last gc) s1) as [[zero|e|p] s2].
  - destruct Hdel as (l & Hl & Hd2 & Hl2 & Hg2 & Ht2).
    unfold mbind, go_bind, finalizeReclamation. set (gop := MkGcOp _ last). pose proof (fl_finalize obs gop s2) as Hfin.
    destruct (fe_finalizeGCOp gop s2) as [r3 s3]. destruct Hfin as (Hd3 & Hl3 & Ht3 & Hg3).
    assert (∀ r, r ≠ Ok None → (r3 ≠ Ok tt → ∀ x, r ≠ Ok (Some x)) →
      r ≠ Ok None ∧ ob_locked (o_of s3) = ob_locked (o_of s) ∧ (ob_time (o_of s) <= ob_time (o_of s3))%Z ∧
      reclaims (o_of s) (o_of s3) (∃ x : MetadataRevision * bool, r = Ok (Some x))) as Hall.
    { intros r Hr0 Hr. split_and!; [done|congruence|lia|]. right. exists old, last, l.
      split_and!; [lia|lia|lia|lia|lia|by rewrite Hd3, Hd2, Hl1, Hd1|by rewrite Hl|].
      destruct Hg3 as [Hg3|[Hg3 Hne]]; [right; exists gop; split_and!; [congruence|done|done]|left].
      split; [congruence|]. intros [x Hx]. by eapply Hr. }
    destruct r3 as [[]|e|p]; by apply Hall.
  - destruct Hdel as (l & Hl & Hd2). by apply (Hfail l).
  - destruct Hdel as (l & Hl & Hd2). by apply (Hfail l).
Qed.

Lemma first_old_in t0 t old : first_old t0 t (down h 0) old → old ≠ 0%Z → (0 < old <= h)%Z ∧ (mtime old + fe_minUnrefAge < t)%Z.
Proof.
  intros [[? _]|(_ & l & k & Heq & _ & Hm)] Hne; [done|]. split; [|done]. apply elem_of_down. rewrite Heq. set_solver.
Qed.

Lemma reclaim_locked_spec fuel sched head s : ok (fbm_fetch s) → bm_Revision (rmd_bare head) = h → (1 <= h)%Z →
  (h <= 10 * Z.of_nat fuel)%Z → (0 <= gc)%Z →
  let '(r, s') := reclaim_locked fuel sched id head s in
  r ≠ Ok None ∧ ob_locked (b_of s') = ob_locked (b_of s) ∧ (ob_time (b_of s) <= ob_time (b_of s'))%Z ∧
  reclaims (b_of s) (b_of s') (∃ x, r = Ok (Some x)).
Proof.
  intros Hs Hrev H1h Hf Hgc. unfold reclaim_locked, getMostRecentOldEnoughAndGCRevisions. rewrite Hrev.
  pose proof (revisions_loop_spec (ob_time (b_of s)) fuel h 0%Z (fbm_fetch s) Hs) as Hall.
  rewrite down_nil in Hall by lia. change (first_gc []) with 0%Z in Hall.
  destruct (on_fetch_run (revisions_loop fuel id h 0%Z 0%Z) s) as (s1 & Hr1 & Hf1).
  unfold MetadataRevisionUninitialized. unfold mbind at 1, go_bind at 1.
  destruct Hall as [(old & f1 & Hloop & Hok & Hobs & Hold)|Hfail]; [lia|lia|lia|left; by split| |].
  2:{ pose proof (quiet_revisions_loop obs id fuel h 0%Z 0%Z (fbm_fetch s)) as Hq. rewrite <- Hf1 in Hq. unfold fails in Hfail.
      rewrite Hr1. destruct (fst (revisions_loop _ _ _ _ _ _)) as [x|e|p]; [by destruct (Hfail x)|..];
        destruct Hq as (Hd & Hl & Hg & Ht); split_and!; [done|done|done|by left|done|done|done|by left]. }
  rewrite Hloop in Hr1, Hf1. simpl in Hr1, Hf1. rewrite Hr1. clear Hr1 Hloop. cbv beta iota. subst f1.
  pose proof Hobs as (Hd1 & Hl1 & Hg1 & Ht1). case_decide as Hnothing; [split_and!; [done..|by left]|].
  destruct (first_old_in _ _ old Hold ltac:(lia)) as [Hob Hom]. cbv zeta. set (shortened := bool_decide _).
  set (latest := if shortened then _ else _).
  assert (gc < latest <= old ∧ latest <= gc + numMaxRevisionsPerQR)%Z as [Hlat Hmax].
  { unfold latest, shortened, numMaxRevisionsPerQR. case_bool_decide; lia. }
  pose proof (reclaim_range_spec fuel sched head latest old shortened (fbm_fetch s1) Hok ltac:(lia) ltac:(lia) ltac:(lia) Hmax Hom) as Hrr.
  destruct (on_fetch_run (try (reclaim_range fuel sched id head latest gc shortened)) s1) as (s2 & Hr2 & Hf2).
  unfold mbind at 1, go_bind at 1. rewrite Hr2. clear Hr2. unfold try in *.
  destruct (reclaim_range fuel sched id head latest gc shortened (fbm_fetch s1)) as [r f2]. destruct Hrr as (Hr & Hl2 & Ht2 & Hrec).
  assert (∀ done', (done' → ∃ x, r = Ok (Some x)) → reclaims (b_of s) (obs (mf_world f2)) done') as Hfin
    by (intros done' Hd'; eapply reclaims_later; [exact Hobs|exact Hrec|done|done|lia|exact Hd']).
  destruct r as [x|e|p]; simpl in Hf2; subst f2; simpl.
  - unfold mbind, go_bind. destruct (on_fetch_run fe_Now s2) as (s3 & Hr3 & Hf3). rewrite (fl_Now obs) in Hr3, Hf3. rewrite Hr3.
    simpl in Hf3 |- *. rewrite Hf3. split_and!; [by intros [= ->]|congruence|lia|]. by apply Hfin.
  - unfold mbind, go_bind. destruct (on_fetch_run fe_Now s2) as (s3 & Hr3 & Hf3). rewrite (fl_Now obs) in Hr3, Hf3. rewrite Hr3.
    simpl in Hf3 |- *. rewrite Hf3. split_and!; [done|congruence|lia|]. apply Hfin. by intros [? ?].
  - split_and!; [done|congruence|lia|]. apply Hfin. by intros [? ?].
Qed.

(** The head of the folder is the last revision of the history. *)
Definition keeps {A} (m : go (mdFetch W) A) : Prop := ∀ s, ok s → ok (snd (m s)).
Context (Hhead : ∀ s r s', ok s → fe_getMDForFBM s = (Ok r, s') →
  ok s' ∧ ∀ md, mf_mds s' !! r = Some md → bm_Revision (rmd_bare md) = h).
Context (Hreadable : ∀ md, keeps (fe_isReadableOrError md)) (Huser : keeps fe_GetCurrentUserInfo) (Hlock : keeps (fe_TruncateLock id)).

(** A step before the lock is taken. *)
Lemma quiet_step {A} (m : go (mdFetch W) A) (s : folderBlockManager W) : quiet obs m →
  ∃ s', on_fetch m s = (fst (m (fbm_fetch s)), s') ∧ fbm_fetch s' = snd (m (fbm_fetch s)) ∧ same_obs (b_of s) (b_of s').
Proof. intros Hq. destruct (on_fetch_run m s) as (s' & Hr & Hf). exists s'. split; [done|]. split; [done|]. rewrite Hf. apply Hq. Qed.

(** [o] under the truncate lock. *)
Definition locked_obs (o : fbm_obs) : fbm_obs := MkObs (ob_deleted o) true (ob_gcs o) (ob_time o).

(** What a reclamation that returns [r] has done. *)
Record outcome (o o' : fbm_obs) (r : res (option unit)) : Prop := {
  oc_returns : r ≠ Ok None;
  oc_reclaims : reclaims (locked_obs o) o' (r = Ok (Some tt));
  oc_unlocks : (∀ s, fst (fe_TruncateUnlock id s) = Ok true) → (∀ p, r ≠ Panic p) → ob_locked o = false → ob_locked o' = false
}.

Lemma outcome_idle o o' r : same_obs o o' → r ≠ Ok None → outcome o o' r.
Proof. intros (Hd & Hl & Hg & _) Hr. split; [done|by left|congruence]. Qed.

Lemma outcome_after o o1 o' r : same_obs o o1 → outcome o1 o' r → outcome o o' r.
Proof.
  intros Hs [Hr Hrec Hun]. pose proof Hs as (Hd & Hl & Hg & Ht). split; [done| |intros ? ? ?; apply Hun; [done|done|congruence]].
  eapply reclaims_later; [|exact Hrec|done|done|lia|done]. unfold same_obs, locked_obs. simpl. done.
Qed.

(** From the lock on. *)
Lemma with_lock_outcome fuel sched head s : ok (fbm_fetch s) → bm_Revision (rmd_bare head) = h → (1 <= h)%Z →
  (h <= 10 * Z.of_nat fuel)%Z → (0 <= gc)%Z →
  let '(r, s') := (locked ← on_fetch (fe_TruncateLock id);
    if negb locked then fail (Errorf "Couldn't get the truncate lock for folder")
    else
      r ← try (reclaim_locked fuel sched id head);
      _ ← on_fetch (try (fe_TruncateUnlock id));
      match r with
      | inr e => fail e
      | inl None => mret None
      | inl (Some (oldEnoughRev, complete)) =>
          _ ← modify (set_lastQR (bm_Revision (rmd_bare head)) oldEnoughRev complete);
          mret (Some tt)
      end) s in
  outcome (b_of s) (b_of s') r.
Proof.
  intros Hs Hrev H1h Hf Hgc. unfold mbind at 1, go_bind at 1.
  destruct (on_fetch_run (fe_TruncateLock id) s) as (s1 & Hr1 & Hf1). rewrite Hr1. clear Hr1.
  pose proof (fl_Lock obs id (fbm_fetch s)) as Hlk. pose proof (Hlock _ Hs) as Hs1. rewrite <- Hf1 in Hs1.
  destruct (fe_TruncateLock id (fbm_fetch s)) as [rl f1]. simpl in Hf1. subst f1. destruct Hlk as (Hd1 & Hg1 & Ht1 & Hl1).
  assert (∀ r, rl ≠ Ok true → r ≠ Ok None → outcome (b_of s) (b_of s1) r) as Hno.
  { intros r Hne Hr. rewrite decide_False in Hl1 by done. by apply outcome_idle. }
  destruct rl as [[|]|e|p]; simpl; [|by apply Hno..]. rewrite decide_True in Hl1 by done.
  pose proof (reclaim_locked_spec fuel sched head s1 Hs1 Hrev H1h Hf Hgc) as Hrl. unfold mbind at 1, go_bind at 1, try at 1.
  destruct (reclaim_locked fuel sched id head s1) as [r s2]. destruct Hrl as (Hr & Hl2 & Ht2 & Hrec).
  assert (same_obs (locked_obs (b_of s)) (b_of s1)) as Hlo by (unfold same_obs, locked_obs; simpl; done).
  assert (∀ s3 r', (∃ ru, fe_TruncateUnlock id (fbm_fetch s2) = (ru, fbm_fetch s3)) → r' ≠ Ok None →
    (r' = Ok (Some tt) → ∃ x, r = Ok (Some x)) → outcome (b_of s) (b_of s3) r') as Hend.
  { intros s3 r' [ru Hu] Hr' Hok. pose proof (fl_Unlock obs id (fbm_fetch s2)) as Hul. rewrite Hu in Hul. destruct Hul as (Hd3 & Hg3 & Ht3 & Hl3).
    split; [done|by eapply reclaims_later; [exact Hlo|exact Hrec|..]|]. intros Hall _ _. rewrite decide_True in Hl3; [done|].
    specialize (Hall (fbm_fetch s2)). by rewrite Hu in Hall. }
  destruct (on_fetch_run (try (fe_TruncateUnlock id)) s2) as (s3 & Hr3 & Hf3).
  assert (∃ ru, fe_TruncateUnlock id (fbm_fetch s2) = (ru, fbm_fetch s3)) as Hru.
  { rewrite Hf3. unfold try. destruct (fe_TruncateUnlock id (fbm_fetch s2)) as [[b|e|p] f3]; by eexists. }
  destruct r as [x|e|p]; [| |split; [done|by eapply reclaims_later; [exact Hlo|exact Hrec|done|done|lia|]|by intros _ Hp; destruct (Hp p)]].
  - unfold mbind, go_bind. rewrite Hr3. destruct (fst (try _ _)) as [u|e|p]; simpl; [|by apply Hend..].
    destruct x as [[rev complete]|]; [|done]. simpl. apply Hend; [done|done|by eexists].
  - unfold mbind, go_bind. rewrite Hr3. destruct (fst (try _ _)) as [u|e'|p]; simpl; by apply Hend.
Qed.

Lemma doReclamation_body_outcome fuel sched s : ok (fbm_fetch s) → (1 <= h)%Z → (h <= 10 * Z.of_nat fuel)%Z → (0 <= gc)%Z →
  let '(r, s') := doReclamation_body fuel sched id s in outcome (b_of s) (b_of s') r.
Proof.
  intros Hs H1h Hf Hgc. unfold doReclamation_body. unfold mbind at 1, go_bind at 1.
  destruct (quiet_step fe_getMDForFBM s (fl_getMDForFBM obs)) as (s1 & Hr1 & Hf1 & Ho1). rewrite Hr1. clear Hr1.
  destruct (fe_getMDForFBM (fbm_fetch s)) as [[hr|e|p] f1] eqn:Eh; simpl in Hf1 |- *; [|by apply outcome_idle..].
  destruct (Hhead _ _ _ Hs Eh) as [Hok1 Hmd1]. rewrite <- Hf1 in Hok1, Hmd1.
  unfold mbind at 1, go_bind at 1. rewrite on_fetch_deref.
  destruct (mf_mds (fbm_fetch s1) !! hr) as [head|] eqn:Eh'; [|by apply outcome_idle].
  specialize (Hmd1 head eq_refl). unfold mbind at 1, go_bind at 1.
  destruct (quiet_step (fe_isReadableOrError head) s1 (fl_isReadable obs head)) as (s2 & Hr2 & Hf2 & Ho2). rewrite Hr2. clear Hr2.
  pose proof (Hreadable head _ Hok1) as Hok2. rewrite <- Hf2 in Hok2. assert (same_obs (b_of s) (b_of s2)) as Ho by (by etrans).
  destruct (fst (fe_isReadableOrError head (fbm_fetch s1))) as [[]|e|p]; [|by apply outcome_idle..].
  case_decide; [by apply outcome_idle|]. unfold mbind at 1, go_bind at 1.
  destruct (quiet_step fe_GetCurrentUserInfo s2 (fl_user obs)) as (s3 & Hr3 & Hf3 & Ho3). rewrite Hr3. clear Hr3.
  pose proof (Huser _ Hok2) as Hok3. rewrite <- Hf3 in Hok3. assert (same_obs (b_of s) (b_of s3)) as Ho' by (by etrans).
  destruct (fst (fe_GetCurrentUserInfo (fbm_fetch s2))) as [[username uid]|e|p]; [|by apply outcome_idle..].
  unfold mbind at 1, go_bind at 1, lift_res. destruct (GetTlfHandle head) as [handle|e|p]; [|by apply outcome_idle..].
  destruct (negb (handle_IsWriter _ _)); [by apply outcome_idle|].
  unfold mbind at 1, go_bind at 1. assert (∃ b, isQRNecessary head s3 = (Ok b, s3)) as [b Hb].
  { unfold isQRNecessary, mbind, go_bind, get. destruct (_ || _); [by eexists|]. case_decide; [|by eexists].
    unfold on_fetch, isOldEnough, mbind, go_bind. rewrite (fl_Now obs). eexists. by destruct s3. }
  rewrite Hb. destruct b; simpl; [|by apply outcome_idle].
  pose proof (with_lock_outcome fuel sched head s3 Hok3 Hmd1 H1h Hf Hgc) as Hend.
  match goal with |- let '(_, _) := ?x in _ => destruct x as [r s4] end. by eapply outcome_after.
Qed.

(** C8. Quota reclamation is safe, also when a call fails: any fetch of
    metadata or embedding of their operations, the locking, any chunk of the
    deletes (which may have been done in part), the put of the [gcOp] (which
    may have been done), the unlocking.  A reclamation returns; what it
    deletes are pointers that revisions after the last reclamation
    unreference, up to at most a hundred revisions, under the truncate lock,
    and up to a revision no later than one that is old enough.  It records a
    [gcOp] for a revision only when it has deleted every pointer that the
    revisions up to it unreference; and when it deleted anything and
    succeeded, it has recorded one.  The lock is released when unlocking
    works and nothing panics.  What a fetch returns when it does not fail are
    the revisions of the history, the reclamation's head is the last of them,
    and there is a round for every ten. *)
Theorem reclamation_safe fuel sched s r s' :
  ok (fbm_fetch s) → (1 <= h)%Z → (h <= 10 * Z.of_nat fuel)%Z → (0 <= gc)%Z →
  doReclamation fuel sched id s = (r, s') → outcome (b_of s) (b_of s') r.
Proof.
  intros Hs H1h Hf Hgc. unfold doReclamation. unfold mbind at 1, go_bind at 1, try.
  pose proof (doReclamation_body_outcome fuel sched s Hs H1h Hf Hgc) as Hout.
  destruct (doReclamation_body fuel sched id s) as [r1 s1].
  assert (∀ r', (r' = r1 ∨ ∃ p, r' = Panic p) → outcome (b_of s) (b_of s1) r') as Hany.
  { intros r' [->|[p ->]]; [done|]. destruct Hout as [Hr Hrec Hun]. split; [done| |by intros _ Hp; destruct (Hp p)].
    eapply reclaims_later; [|exact Hrec|done|done|lia|done]. done. }
  destruct r1 as [x|e|p]; [| |intros [= <- <-]; done].
  - unfold mbind, go_bind, get, lift_res, modify. destruct (rwg_Done (fbm_reclamationGroup s1)) as [g|e|p] eqn:Eg.
    + intros [= <- <-]. simpl. apply Hany. by left.
    + pose proof (rwg_Add_panic (-1) (fbm_reclamationGroup s1)) as Hp. unfold rwg_Done in Eg. by rewrite Eg in Hp.
    + intros [= <- <-]. apply Hany. right. by eexists.
  - unfold mbind, go_bind, get, lift_res, modify. destruct (rwg_Done (fbm_reclamationGroup s1)) as [g|e'|p] eqn:Eg.
    + intros [= <- <-]. simpl. apply Hany. by left.
    + pose proof (rwg_Add_panic (-1) (fbm_reclamationGroup s1)) as Hp. unfold rwg_Done in Eg. by rewrite Eg in Hp.
    + intros [= <- <-]. apply Hany. right. by eexists.
Qed.
End history.

(** ** A failed comparison *)

(** When the root directories of a failed write and of its revision cannot
    be compared, the blocks of the write are deleted all the same, though
    the write may be part of the history. *)
Lemma compare_error_deletes {W} `{MDOps W, FbmEnv W, Codec DirEntry} id sched md ptrs rmd r0 rest rmd0 e s f1 f2 ids :
  mf_mds (fbm_fetch s) !! md = Some rmd →
  getMDRange id (bm_BID (rmd_bare rmd)) (bm_Revision (rmd_bare rmd)) (bm_Revision (rmd_bare rmd)) (MergedStatus (rmd_bare rmd))
    (fbm_fetch s) = (Ok (r0 :: rest), f1) →
  mf_mds f1 !! r0 = Some rmd0 → CodecEqual (pmd_Dir (rmd_data rmd0)) (pmd_Dir (rmd_data rmd)) = Err e →
  deleteBlockRefs sched rmd ptrs f1 = (Ok ids, f2) →
  ∃ s', process_md id sched md ptrs s = (Ok false, s') ∧ fbm_fetch s' = f2.
Proof.
  intros Hmd Hget Hr0 Hcmp Hdel. destruct s as [f ? ? ? ? ? ? ? ? ? ?]. unfold process_md, mbind, go_bind, on_fetch, deref, try. simpl in *.
  rewrite Hmd. simpl. rewrite Hget. simpl. rewrite Hr0. simpl. rewrite Hcmp. simpl. rewrite Hdel. by eexists.
Qed.

(** ** An example *)

Section example.
Variable mk : Z → RootMetadata.
Hypothesis Hmk : ∀ rev, bm_Revision (rmd_bare (mk rev)) = rev.

(** New objects for the metadata of the revisions. *)
Definition fresh {W} (revs : list Z) (s : mdFetch W) : list nat * mdFetch W :=
  (seq (length (mf_mds s)) (length revs), MkMdFetch (mf_mds s ++ (mk <$> revs)) (mf_cache s) (mf_world s)).

Lemma fresh_range {W} id bid lo h (Q : RootMetadata → Prop) a b (s : mdFetch W) :
  (∀ rev, bm_ID (rmd_bare (mk rev)) = id ∧ bm_BID (rmd_bare (mk rev)) = bid ∧ Q (mk rev)) → cache_ok id bid lo h Q s →
  let '(refs, s') := fresh (revs_in lo h a b) s in
  grows id bid Q s s' ∧ cache_ok id bid lo h Q s' ∧ Forall2 (is_md id bid Q s') refs (revs_in lo h a b).
Proof.
  intros HQ Hs. unfold fresh. set (s' := MkMdFetch _ _ _).
  assert (grows id bid Q s s') as Hg.
  { intros r rev (md & Hr & Hmd). exists md. split; [|done]. by apply lookup_app_l_Some. }
  split; [done|]. split; [intros rev r Hr; destruct (Hs rev r Hr); auto|].
  apply Forall2_same_length_lookup_2; [by rewrite length_seq|].
  intros i r rev Hr Hrev. apply lookup_seq in Hr as [-> Hi]. exists (mk rev). destruct (HQ rev) as (? & ? & ?).
  split; [|by rewrite Hmk]. cbn [s' mf_mds]. rewrite lookup_app_r by lia. replace (_ + i - _) with i by lia. by rewrite list_lookup_fmap, Hrev.
Qed.
End example.

Definition gx_ptr : BlockPointer :=
  MkBlockPointer (MkBlockID (MkHash "b")) 1%Z 1%Z "u" EmptyString zeroBlockRefNonce.
(** Revision 2 removes a file. *)
Definition gx_hist (rev : Z) : list op :=
  if decide (rev = 2%Z) then [AddUnrefBlock gx_ptr (RmOp (newRmOp "f" zeroPtr))] else [].
Definition gx_md (rev : Z) : RootMetadata :=
  MkRootMetadata (ex_bare_md NullTlfID NullBranchID rev)
    (MkPrivateMetadata (MkDirEntry zeroBlockInfo (MkEntryInfo Dir 0 EmptyString rev 0)) []
       (MkBlockChanges zeroBlockInfo (gx_hist rev) 0) (MkBlockChanges zeroBlockInfo [] 0))
    (Some (MkTlfHandle (MkBareTlfHandle ["u"] [] [] [] None) ∅ ∅ "u")) zeroMdID.

Definition gx_Q (md : RootMetadata) : Prop := md = gx_md (bm_Revision (rmd_bare md)).

Definition gx_set (f : fbm_obs → fbm_obs) (s : mdFetch fbm_obs) : mdFetch fbm_obs :=
  MkMdFetch (mf_mds s) (mf_cache s) (f (mf_world s)).

(** A server with the revisions up to 3, at a constant time; before time 1
    it does not answer. *)
#[local] Instance gx_mdops : MDOps fbm_obs := {|
  ops_getRange _ _ _ a b s :=
    if decide (ob_time (mf_world s) < 1)%Z then (Err (ErrorString "offline"), s)
    else let '(refs, s) := fresh gx_md (revs_in 1 3 a b) s in (Ok refs, s)
|}.
#[local] Instance gx_env : FbmEnv fbm_obs := {|
  fe_getMDForFBM s := (Ok (length (mf_mds s)), snd (fresh gx_md [3%Z] s));
  fe_reembedForFBM _ s := (Ok tt, s);
  fe_finalizeGCOp g s := (Ok tt, gx_set (λ o, MkObs (ob_deleted o) (ob_locked o) (ob_gcs o ++ [g]) (ob_time o)) s);
  fe_Archive _ _ s := (Ok tt, s);
  fe_Delete _ ptrs s := (Ok ∅, gx_set (λ o, MkObs (ob_deleted o ++ ((λ p, (p, ob_locked o)) <$> ptrs)) (ob_locked o) (ob_gcs o) (ob_time o)) s);
  fe_TruncateLock _ s := (Ok true, gx_set (λ o, MkObs (ob_deleted o) true (ob_gcs o) (ob_time o)) s);
  fe_TruncateUnlock _ s := (Ok true, gx_set (λ o, MkObs (ob_deleted o) false (ob_gcs o) (ob_time o)) s);
  fe_isReadableOrError _ s := (Ok tt, s);
  fe_GetCurrentUserInfo s := (Ok ("u"%string, "u"%string), s);
  fe_Now s := (Ok (ob_time (mf_world s)), s);
  fe_minUnrefAge := 5%Z
|}.

#[local] Instance gx_laws : FbmLaws (λ o : fbm_obs, o).
Proof.
  split; intros; simpl; unfold deletes; simpl; try done; [intros s; simpl; by case_decide|]. split_and!; [done..|by left].
Qed.

Definition gx_start : folderBlockManager fbm_obs :=
  set_reclamation false (MkRwg 1 (Some 0) 1 ∅) (newFolderBlockManager (MkMdFetch [] (MkLRU 5 []) (MkObs [] false [] 8%Z))).

Definition gx_sched : downgradeSched := MkSched [] 0 0.

Definition gx_end : folderBlockManager fbm_obs := Eval vm_compute in snd (doReclamation 1 gx_sched NullTlfID gx_start).

Lemma gx_run : doReclamation 1 gx_sched NullTlfID gx_start = (Ok (Some tt), gx_end).
Proof. vm_compute. reflexivity. Qed.

Lemma gx_range_law : range_law_or NullTlfID NullBranchID Merged MetadataRevisionInitial 3 gx_Q True.
Proof.
  intros s a b Hs Hab. pose proof (fresh_range gx_md (λ _, eq_refl) NullTlfID NullBranchID 1%Z 3%Z gx_Q a b s
    (λ _, conj eq_refl (conj eq_refl eq_refl)) Hs) as Hf.
  unfold fails, ops_getRange, gx_mdops. case_decide; [by right|]. left.
  destruct (fresh gx_md (revs_in 1 3 a b) s) as [refs s']. by exists refs, s'.
Qed.

Lemma gx_embed : reembed_law NullTlfID 3 gx_Q gx_hist (λ rev, rev).
Proof.
  intros s refs revs Hs Hf. left. exists s. split; [done|]. split; [done|]. eapply Forall2_impl; [exact Hf|].
  intros r rev (md & Hmd & _ & _ & <- & HQ). exists md. split; [done|]. split; [done|]. rewrite HQ. done.
Qed.

(** At time 8, revision 2 is old enough: its pointer is deleted. *)
Lemma reclamation_safe_witness :
  mf_world (fbm_fetch gx_end) = MkObs [(gx_ptr, true)] false [newGCOp 2%Z] 8%Z ∧
  outcome NullTlfID 3%Z gx_hist (λ rev, rev) (mf_world (fbm_fetch gx_start)) (mf_world (fbm_fetch gx_end)) (Ok (Some tt)).
Proof.
  split; [vm_compute; reflexivity|].
  eapply (reclamation_safe (λ o, o) NullTlfID 3%Z gx_Q gx_hist (λ rev, rev)) with (fuel := 1) (sched := gx_sched).
  - exact gx_range_law.
  - exact gx_embed.
  - intros s r s' Hs [= <- <-]. split.
    + intros rev r Hr. destruct (Hs rev r Hr) as [? (md & Hmd & ?)]. split; [done|]. exists md. split; [|done]. by apply lookup_app_l_Some.
    + intros md. simpl. rewrite lookup_app_r, Nat.sub_diag by lia. by intros [= <-].
  - by intros md s Hs.
  - by intros s Hs.
  - by intros s Hs.
  - by intros rev r.
  - done.
  - done.
  - done.
  - exact gx_run.
Defined.
