(* ===== verification/KeyManager.v ===== *)
(** * KeyManager: recovering and distributing the keys of folders

    Models [libkbfs/key_server_local.go], [key_ops.go], [keycache.go] and
    [key_manager.go]: the server that keeps one half of every device's
    masked folder key, the cache of recovered keys, how a device recovers a
    folder's key, and how a rekey gives the key to new devices and takes
    new keys when devices are removed.

    A public key is its key id.  The cache holds the only type it is given,
    so the error for another type cannot occur. *)

From Stdlib Require Import ZArith Ascii Lia.
From S2P Require Import Prelude Types Errors GoStd Ids CryptoCommon DataTypes Ops ConflictInfo Handles KeyBundles Metadata LevelDb Lru.

(** ** The key server *)

Record KeyServerLocal (DB : Type) := MkKeyServerLocal {
  ks_db : DB;
  ks_shutdown : bool
}.
Arguments MkKeyServerLocal {DB} _ _.
Arguments ks_db {DB} _.
Arguments ks_shutdown {DB} _.

(** The bytes under which a server half is stored. *)
Definition half_key (serverHalfID : HMAC) : list byte := Hash_Bytes (hmac_h serverHalfID).

(** The user and the devices: what the configuration gives to the key
    manager. *)
Class KeyConfig := {
  kc_pki :: KBPKI;
  GetCryptPublicKeys : UID → res (list KID);
  GetCurrentCryptPublicKey : res KID;
  cryptPrivateKey : list byte;
  GetLatestHandle : TlfID → res (option BareTlfHandle)
}.

Section server.
Context {DB : Type} `{LevelDB DB, Codec (list byte), Box, KeyConfig}.

(** The error for a server that is shut down is overwritten by that of
    the database. *)
Definition ks_GetTLFCryptKeyServerHalf (serverHalfID : HMAC) (key : KID) (ks : KeyServerLocal DB)
    : res (list byte) :=
  buf ← ldb_Get (half_key serverHalfID) (ks_db ks);
  serverHalf ← Decode buf;
  '(_, uid) ← GetCurrentUserInfo;
  match VerifyTLFCryptKeyServerHalfID serverHalfID (ToBytes uid) (ToBytes key) serverHalf with
  | Ok _ => Ok serverHalf
  | Err _ => Err MDServerErrorUnauthorized
  | Panic p => Panic p
  end.

(** The batch of one user, and of all users, in the order of the
    iterations over the maps. *)
Fixpoint user_batch (uid : UID) (halves : list (KID * list byte)) : res (list (list byte * list byte)) :=
  match halves with
  | [] => Ok []
  | (deviceKID, serverHalf) :: halves =>
      buf ← Encode serverHalf;
      id ← GetTLFCryptKeyServerHalfID (ToBytes uid) (ToBytes deviceKID) serverHalf;
      batch ← user_batch uid halves;
      Ok ((half_key id, buf) :: batch)
  end.

Fixpoint halves_batch (users : list (UID * gmap KID (list byte))) : res (list (list byte * list byte)) :=
  match users with
  | [] => Ok []
  | (uid, deviceMap) :: users =>
      b ← user_batch uid (map_to_list deviceMap);
      batch ← halves_batch users;
      Ok (b ++ batch)
  end.

Definition key_server_down : error := ErrorString "Key server already shut down".

Definition ks_PutTLFCryptKeyServerHalves (serverKeyHalves : serverKeyMap) : go (KeyServerLocal DB) unit := λ ks,
  if ks_shutdown ks then (Err key_server_down, ks)
  else match halves_batch (map_to_list (serverKeyHalves : gmap UID (gmap KID (list byte)))) with
  | Ok batch =>
      let '(r, db) := ldb_Write batch (ks_db ks) in (r, MkKeyServerLocal db (ks_shutdown ks))
  | Err e => (Err e, ks)
  | Panic p => (Panic p, ks)
  end.

Definition ks_DeleteTLFCryptKeyServerHalf (serverHalfID : HMAC) : go (KeyServerLocal DB) unit := λ ks,
  if ks_shutdown ks then (Err key_server_down, ks)
  else
    let '(r, db) := ldb_Delete (half_key serverHalfID) (ks_db ks) in
    (r, MkKeyServerLocal db (ks_shutdown ks)).

Definition ks_Shutdown (ks : KeyServerLocal DB) : KeyServerLocal DB :=
  if ks_shutdown ks then ks else MkKeyServerLocal (ldb_Close (ks_db ks)) true.

(** ** Key operations *)

Definition kops_GetTLFCryptKeyServerHalf (serverHalfID : HMAC) (key : KID) (ks : KeyServerLocal DB)
    : res (list byte) :=
  serverHalf ← ks_GetTLFCryptKeyServerHalf serverHalfID key ks;
  '(_, uid) ← GetCurrentUserInfo;
  _ ← VerifyTLFCryptKeyServerHalfID serverHalfID (ToBytes uid) (ToBytes key) serverHalf;
  Ok serverHalf.

End server.

(** ** The key cache *)

Definition KeyCacheStandard := LRU (TlfID * KeyGen) (list byte).

Definition kcache_GetTLFCryptKey (tlf : TlfID) (keyGen : KeyGen) : go KeyCacheStandard (list byte) := λ k,
  let '(entry, k) := lru_Get (tlf, keyGen) k in
  match entry with
  | Some key => (Ok key, k)
  | None => (Err (KeyCacheMissError tlf keyGen), k)
  end.

Definition kcache_PutTLFCryptKey (tlf : TlfID) (keyGen : KeyGen) (key : list byte)
    : go KeyCacheStandard unit := λ k, (Ok tt, fst (lru_Add (tlf, keyGen) key k)).

(** ** The key manager *)

Definition PublicTLFCryptKey : list byte := replicate 32 x18.

(** The key server, the cache, and the source of randomness. *)
Record keyState (DB : Type) := MkKeyState {
  kst_server : KeyServerLocal DB;
  kst_cache : KeyCacheStandard;
  kst_rand : list byte
}.
Arguments MkKeyState {DB} _ _ _.
Arguments kst_server {DB} _.
Arguments kst_cache {DB} _.
Arguments kst_rand {DB} _.

Section manager.
Context {DB : Type} `{LevelDB DB, Codec (list byte), Box, KeyConfig}.

Definition on_cache {A} (f : go KeyCacheStandard A) : go (keyState DB) A := λ s,
  let '(r, c) := f (kst_cache s) in (r, MkKeyState (kst_server s) c (kst_rand s)).
Definition on_server {A} (f : go (KeyServerLocal DB) A) : go (keyState DB) A := λ s,
  let '(r, k) := f (kst_server s) in (r, MkKeyState k (kst_cache s) (kst_rand s)).
Definition draw (n : nat) : go (keyState DB) (list byte) := λ s,
  match cryptoRandRead (kst_rand s) n with
  | Ok buf => (Ok buf, MkKeyState (kst_server s) (kst_cache s) (drop n (kst_rand s)))
  | Err e => (Err e, s)
  | Panic p => (Panic p, s)
  end.

(** Resolving a handle again, the results in the order of the requests. *)
Definition resolve_again (h : TlfHandle) (uid : UID) : res TlfHandle :=
  ResolveAgainForUser h uid (arrivals_of (again_writers h uid) (again_readers h uid)).

(** The reason a user cannot read: an error of its own. *)
Definition localMakeRekeyReadError (md : RootMetadata) (keyGen : KeyGen) (uid : UID) (username : string)
    : res error :=
  h ← GetTlfHandle md;
  resolvedHandle ← (match resolve_again h EmptyString with
                    | Ok h' => Ok h'
                    | Err _ => Ok h
                    | Panic p => Panic p
                    end);
  makeRekeyReadError (rmd_bare md) (th_Bare resolvedHandle) keyGen uid username.

Definition raise {A} (r : res error) : res A :=
  match r with Ok e => Err e | Err e => Err e | Panic p => Panic p end.

(** The keys of the devices of a user that are in the bundle, with the
    ephemeral keys they were encrypted with. *)
Fixpoint device_keys (md : BareRootMetadata) (keyGen : KeyGen) (uid : UID) (publicKeys : list KID)
    : res (list (TLFCryptKeyInfo * list byte * KID)) :=
  match publicKeys with
  | [] => Ok []
  | k :: publicKeys =>
      match GetTLFCryptKeyInfo md keyGen uid k with
      | Ok (Some info) =>
          match GetTLFEphemeralPublicKey md keyGen uid k with
          | Ok ePublicKey =>
              keys ← device_keys md keyGen uid publicKeys;
              Ok ((info, ePublicKey, k) :: keys)
          | Err _ => device_keys md keyGen uid publicKeys
          | Panic p => Panic p
          end
      | Panic p => Panic p
      | _ => device_keys md keyGen uid publicKeys
      end
  end.

(** The client half for any of the user's devices, or for this one. *)
Definition client_half_any (md : RootMetadata) (keyGen : KeyGen) (uid : UID) (username : string)
    : res (list byte * TLFCryptKeyInfo * KID) :=
  publicKeys ← GetCryptPublicKeys uid;
  keys ← device_keys (rmd_bare md) keyGen uid publicKeys;
  if decide (length keys = 0) then raise (localMakeRekeyReadError md keyGen uid username)
  else
    match DecryptTLFCryptKeyClientHalfAny cryptPrivateKey
            ((λ '(info, ePublicKey, _), (tki_ClientHalf info, ePublicKey)) <$> keys) with
    | Ok (clientHalf, index) =>
        match keys !! index with
        | Some (info, _, key) => Ok (clientHalf, info, key)
        | None => Panic "index out of range"
        end
    | Err _ => raise (localMakeRekeyReadError md keyGen uid username)
    | Panic p => Panic p
    end.

Definition client_half_current (md : RootMetadata) (keyGen : KeyGen) (uid : UID) (username : string)
    : res (list byte * TLFCryptKeyInfo * KID) :=
  key ← GetCurrentCryptPublicKey;
  info ← GetTLFCryptKeyInfo (rmd_bare md) keyGen uid key;
  match info with
  | None => raise (localMakeRekeyReadError md keyGen uid username)
  | Some info =>
      ePublicKey ← GetTLFEphemeralPublicKey (rmd_bare md) keyGen uid key;
      clientHalf ← DecryptTLFCryptKeyClientHalf cryptPrivateKey ePublicKey (tki_ClientHalf info);
      Ok (clientHalf, info, key)
  end.

(** [getTLFCryptKey], with the flags for any device and for caching. *)
Definition getTLFCryptKey (md : RootMetadata) (keyGen : KeyGen) (anyDevice doCache : bool)
    : go (keyState DB) (list byte) :=
  if TlfID_IsPublic (bm_ID (rmd_bare md)) then mret PublicTLFCryptKey
  else if decide (keyGen < FirstValidKeyGen)%Z then
    lift_res (_ ← GetTlfHandle md; Err (InvalidKeyGenerationError keyGen))
  else if decide (LatestKeyGeneration (rmd_bare md) < keyGen)%Z then
    lift_res (_ ← GetTlfHandle md; Err (NewKeyGenerationError keyGen))
  else
    cached ← try (on_cache (kcache_GetTLFCryptKey (bm_ID (rmd_bare md)) keyGen));
    match cached with
    | inl tlfCryptKey => mret tlfCryptKey
    | inr (KeyCacheMissError _ _) =>
        '(username, uid) ← lift_res GetCurrentUserInfo;
        '(clientHalf, info, cryptPublicKey) ←
          lift_res (if anyDevice then client_half_any md keyGen uid username
                    else client_half_current md keyGen uid username);
        s ← get;
        serverHalf ← lift_res (kops_GetTLFCryptKeyServerHalf (tki_ServerHalfID info) cryptPublicKey
                                 (kst_server s));
        tlfCryptKey ← lift_res (UnmaskTLFCryptKey serverHalf clientHalf);
        _ ← (if doCache then on_cache (kcache_PutTLFCryptKey (bm_ID (rmd_bare md)) keyGen tlfCryptKey)
             else mret tt);
        mret tlfCryptKey
    | inr e => fail e
    end.

Definition GetTLFCryptKeyForEncryption (md : RootMetadata) : go (keyState DB) (list byte) :=
  getTLFCryptKey md (LatestKeyGeneration (rmd_bare md)) false false.
Definition GetTLFCryptKeyForMDDecryption (mdToDecrypt mdWithKeys : RootMetadata) : go (keyState DB) (list byte) :=
  getTLFCryptKey mdWithKeys (LatestKeyGeneration (rmd_bare mdToDecrypt)) true true.
Definition GetTLFCryptKeyForBlockDecryption (md : RootMetadata) (blockPtr : BlockPointer)
    : go (keyState DB) (list byte) :=
  getTLFCryptKey md (bp_KeyGen blockPtr) false true.

End manager.
