(* ===== verification/Rekey.v ===== *)
(** * Rekey: giving the keys of a folder to its devices

    The part of [libkbfs/key_manager.go] that changes a folder's key
    bundles ([Rekey] and what it calls), and the decryption of the private
    metadata ([decryptMDPrivateData] of [md_util.go]), which a rekey does
    before it makes a new key.  The metadata and the keys are one state:
    bundles are updated in place, and stay as they are when a step fails. *)

From Stdlib Require Import ZArith Ascii Lia.
From S2P Require Import Prelude Types Errors GoStd Ids CryptoCommon DataTypes Ops ConflictInfo Handles KeyBundles Metadata LevelDb Lru KeyManager.

Abbreviation keyInfoMap := (gmap UID (gmap KID TLFCryptKeyInfo)).
Abbreviation keyMap := (gmap UID (list KID)).

Record rekeyState (DB : Type) := MkRekeyState {
  rk_md : RootMetadata;
  rk_keys : keyState DB
}.
Arguments MkRekeyState {DB} _ _.
Arguments rk_md {DB} _.
Arguments rk_keys {DB} _.

(** ** Which devices changed *)

(** A user unknown to the bundle, or with a device unknown to it. *)
Definition has_new_device (keyInfo : keyInfoMap) (e : UID * list KID) : bool :=
  match keyInfo !! fst e with
  | None => true
  | Some kids => existsb (λ k, bool_decide (kids !! k = None)) (snd e)
  end.

Definition usersWithNewDevices (keyInfo : keyInfoMap) (expectedKeys : keyMap) : gset UID :=
  dom (filter (λ e, has_new_device keyInfo e = true) expectedKeys).

(** A user that is not expected, or with a device that is not. *)
Definition has_removed_device (expectedKeys : keyMap) (e : UID * gmap KID TLFCryptKeyInfo) : bool :=
  match expectedKeys !! fst e with
  | None => true
  | Some keys => existsb (λ k, bool_decide (fst k ∉ keys)) (map_to_list (snd e))
  end.

Definition usersWithRemovedDevices (keyInfo : keyInfoMap) (expectedKeys : keyMap) : gset UID :=
  dom (filter (λ e, has_removed_device expectedKeys e = true) keyInfo).

(** The bundles of generation [keyGen] replaced. *)
Definition set_bundles (keyGen : KeyGen) (wkb : TLFWriterKeyBundle) (rkb : TLFReaderKeyBundle)
    (md : BareRootMetadata) : BareRootMetadata :=
  let i := Z.to_nat (keyGen - FirstValidKeyGen) in
  set_RKeys (<[i := rkb]> (bm_RKeys md)) (set_wm (wm_set_WKeys (<[i := wkb]> (bm_WKeys md))) md).

Section rekey.
Context {DB : Type} `{LevelDB DB, Codec (list byte), Box, KeyConfig, SecretBox, Codec encryptedData, Codec PrivateMetadata}.

Definition on_keys {A} (f : go (keyState DB) A) : go (rekeyState DB) A := λ s,
  let '(r, k) := f (rk_keys s) in (r, MkRekeyState (rk_md s) k).
Definition on_md {A} (f : go RootMetadata A) : go (rekeyState DB) A := λ s,
  let '(r, md) := f (rk_md s) in (r, MkRekeyState md (rk_keys s)).
Definition set_md (f : RootMetadata → RootMetadata) : go (rekeyState DB) unit :=
  modify (λ s, MkRekeyState (f (rk_md s)) (rk_keys s)).

(** ** Filling in the devices of a bundle *)

(** [fillInDevices] on the bundles of a generation, drawing its random
    bytes; what was filled in before an error stays. *)
Definition fill_bundles (keyGen : KeyGen) (wkb : TLFWriterKeyBundle) (rkb : TLFReaderKeyBundle)
    (wKeys rKeys : keyMap) (ePubKey ePrivKey tlfCryptKey : list byte) : go (rekeyState DB) serverKeyMap := λ s,
  let '(r, b) := fillInDevices (map_to_list wKeys) (map_to_list rKeys) ePubKey ePrivKey tlfCryptKey
                   (MkBundles wkb rkb (kst_rand (rk_keys s))) in
  (r, MkRekeyState (set_bare (set_bundles keyGen (bu_wkb b) (bu_rkb b)) (rk_md s))
        (MkKeyState (kst_server (rk_keys s)) (kst_cache (rk_keys s)) (bu_rand b))).

Definition updateKeyBundle (keyGen : KeyGen) (wKeys rKeys : keyMap) (ePubKey ePrivKey tlfCryptKey : list byte)
    : go (rekeyState DB) unit :=
  s ← get;
  '(wkb, rkb) ← lift_res (getTLFKeyBundles (rmd_bare (rk_md s)) keyGen);
  newServerKeys ← fill_bundles keyGen wkb rkb wKeys rKeys ePubKey ePrivKey tlfCryptKey;
  on_keys (on_server (ks_PutTLFCryptKeyServerHalves newServerKeys)).

(** ** Removing devices *)

(** The server halves of the devices [kids] of a user. *)
Definition delete_halves (kids : list (KID * TLFCryptKeyInfo)) : go (keyState DB) unit :=
  go_for kids (λ '(_, keyInfo), on_server (ks_DeleteTLFCryptKeyServerHalf (tki_ServerHalfID keyInfo))).

(** The devices of a user that are not expected any more. *)
Definition removed_kids (expected : option (list KID)) (kids : gmap KID TLFCryptKeyInfo)
    : list (KID * TLFCryptKeyInfo) :=
  match expected with
  | None => map_to_list kids
  | Some keys => filter (λ e, fst e ∉ keys) (map_to_list kids)
  end.

(** The users in the order of the iteration over the map; a user's devices
    are removed from the bundle once their halves are deleted, and the
    users that are gone at the end. *)
Fixpoint delete_removed (users : list (UID * gmap KID TLFCryptKeyInfo)) (expectedKeys : keyMap)
    (info : keyInfoMap) (usersToDelete : list UID) : go (keyState DB) (keyInfoMap * option error) :=
  match users with
  | [] => mret (foldr (λ (u : UID) (m : keyInfoMap), delete u m) info usersToDelete, None)
  | (u, kids) :: users =>
      let toRemove := removed_kids (expectedKeys !! u) kids in
      r ← try (delete_halves toRemove);
      match r with
      | inr e => mret (info, Some e)
      | inl _ =>
          match expectedKeys !! u with
          | None => delete_removed users expectedKeys info (u :: usersToDelete)
          | Some _ =>
              delete_removed users expectedKeys
                (<[u := foldr (λ (kid : KID) (m : gmap KID TLFCryptKeyInfo), delete kid m) kids (fst <$> toRemove)]> info)
                usersToDelete
          end
      end
  end.

Definition deleteKeysForRemovedDevices (info : keyInfoMap) (expectedKeys : keyMap)
    : go (keyState DB) (keyInfoMap * option error) :=
  delete_removed (map_to_list info) expectedKeys info [].

(** The revoked devices of one generation. *)
Definition delete_gen (wKeys rKeys : keyMap) (keyGen : KeyGen) : go (rekeyState DB) unit :=
  s ← get;
  '(wkb, rkb) ← lift_res (getTLFKeyBundles (rmd_bare (rk_md s)) keyGen);
  '(w, err) ← on_keys (deleteKeysForRemovedDevices (wkb_WKeys wkb) wKeys);
  let wkb := MkTLFWriterKeyBundle w (wkb_TLFPublicKey wkb) (wkb_TLFEphemeralPublicKeys wkb) in
  _ ← set_md (set_bare (set_bundles keyGen wkb rkb));
  match err with
  | Some e => fail e
  | None =>
      '(r, err) ← on_keys (deleteKeysForRemovedDevices (rkb_RKeys rkb) rKeys);
      let rkb := MkTLFReaderKeyBundle r (rkb_TLFReaderEphemeralPublicKeys rkb) in
      _ ← set_md (set_bare (set_bundles keyGen wkb rkb));
      match err with Some e => fail e | None => mret tt end
  end.

(** ** Private metadata *)

Definition zeroPrivateMetadata : PrivateMetadata :=
  MkPrivateMetadata (MkDirEntry zeroBlockInfo (MkEntryInfo File 0 EmptyString 0 0)) []
    (MkBlockChanges zeroBlockInfo [] 0) (MkBlockChanges zeroBlockInfo [] 0).

Definition set_data (d : PrivateMetadata) (md : RootMetadata) : RootMetadata :=
  MkRootMetadata (rmd_bare md) d (rmd_tlfHandle md) (rmd_mdID md).

(** [decryptMDPrivateData], the data it gives to the metadata. *)
Definition decryptMDPrivateData (rmdToDecrypt rmdWithKeys : RootMetadata) : go (keyState DB) PrivateMetadata :=
  handle ← lift_res (GetTlfHandle rmdToDecrypt);
  let serialized := default [] (wm_SerializedPrivateMetadata (bm_WriterMetadata (rmd_bare rmdToDecrypt))) in
  if handle_IsPublic (th_Bare handle) then lift_res (Decode serialized)
  else
    encryptedPrivateMetadata ← lift_res (Decode serialized);
    k ← try (GetTLFCryptKeyForMDDecryption rmdToDecrypt rmdWithKeys);
    match k with
    | inl k => lift_res (DecryptPrivateMetadata encryptedPrivateMetadata k)
    | inr e =>
        '(_, uid) ← lift_res GetCurrentUserInfo;
        if handle_IsReader (th_Bare handle) uid &&
           (bool_decide (e = NeedSelfRekeyError) || bool_decide (e = NeedOtherRekeyError))
        then mret zeroPrivateMetadata
        else fail e
    end.

(** ** Rekeying *)

Fixpoint generateKeyMapForUsers (users : list UID) : res keyMap :=
  match users with
  | [] => Ok ∅
  | w :: users =>
      publicKeys ← GetCryptPublicKeys w;
      keys ← generateKeyMapForUsers users;
      Ok (<[w := publicKeys]> keys)
  end.

(** [MakeRandomTLFKeys]: the public and private keys of the folder, an
    ephemeral pair, and the folder's key. *)
Definition MakeRandomTLFKeys : go (keyState DB) (list byte * list byte * list byte * list byte * list byte) :=
  privKey ← draw 32;
  ePrivKey ← draw 32;
  tlfCryptKey ← draw 32;
  mret (box_public privKey, privKey, box_public ePrivKey, ePrivKey, tlfCryptKey).

(** The handle that the rekey will have. *)
Definition rekey_handle (md : RootMetadata) (handle : TlfHandle) (uid : UID) : res (TlfHandle * bool) :=
  resolved ← resolve_again handle EmptyString;
  let isWriter := handle_IsWriter (th_Bare resolved) uid in
  resolved ←
    (if negb (TlfID_IsPublic (bm_ID (rmd_bare md))) && negb isWriter then
       if handle_IsReader (th_Bare handle) uid then Ok handle else resolve_again handle uid
     else Ok resolved);
  Ok (resolved, isWriter).

Definition set_ConflictInfo (ci : option ConflictInfo) (h : TlfHandle) : TlfHandle :=
  let b := th_Bare h in
  MkTlfHandle (MkBareTlfHandle (h_Writers b) (h_Readers b) (h_UnresolvedWriters b) (h_UnresolvedReaders b) ci)
    (th_resolvedWriters h) (th_resolvedReaders h) (th_name h).

(** The conflict info of the server's handle.  The code compares the two
    pointers, which differ unless both are nil. *)
Definition rekey_conflict (md : RootMetadata) (resolvedHandle : TlfHandle) : res TlfHandle :=
  latestHandle ← GetLatestHandle (bm_ID (rmd_bare md));
  match latestHandle with
  | None => Err (NoSuchTlfHandleError (bm_ID (rmd_bare md)))
  | Some latest =>
      match h_ConflictInfo (th_Bare resolvedHandle), h_ConflictInfo latest with
      | None, None => Ok resolvedHandle
      | Some _, _ => Err TlfHandleConflictInfoMismatchError
      | None, ci => Ok (set_ConflictInfo ci resolvedHandle)
      end
  end.

(** What has to be done: the users with new devices, as writers and as
    readers, whether a writer or reader device is new, whether the key
    generation has to be incremented, and the promoted readers. *)
Record rekeyWork := MkRekeyWork {
  rw_newWriterUsers : gset UID;
  rw_newReaderUsers : gset UID;
  rw_addNewWriterDevice : bool;
  rw_addNewReaderDevice : bool;
  rw_incKeyGen : bool;
  rw_promotedReaders : gset UID
}.

Definition rekey_work (md : BareRootMetadata) (currKeyGen : KeyGen) (wKeys rKeys : keyMap) : res rekeyWork :=
  if decide (currKeyGen < FirstValidKeyGen)%Z then Ok (MkRekeyWork ∅ ∅ false false true ∅)
  else
    '(wkb, rkb) ← getTLFKeyBundles md currKeyGen;
    let newWriterUsers := usersWithNewDevices (wkb_WKeys wkb) wKeys in
    let newReaderUsers := usersWithNewDevices (rkb_RKeys rkb) rKeys in
    let wRemoved := usersWithRemovedDevices (wkb_WKeys wkb) wKeys in
    let rRemoved := usersWithRemovedDevices (rkb_RKeys rkb) rKeys in
    let work := MkRekeyWork (newWriterUsers ∪ wRemoved) (newReaderUsers ∪ rRemoved)
                  (bool_decide (newWriterUsers ≠ ∅)) (bool_decide (newReaderUsers ≠ ∅))
                  (bool_decide (wRemoved ≠ ∅ ∨ rRemoved ≠ ∅)) (rRemoved ∩ newWriterUsers) in
    _ ← identifyUserList (elements (rw_newWriterUsers work) ++ elements (rw_newReaderUsers work));
    Ok work.

(** Promoted readers move to the writers of a generation.  A promoted
    reader that the generation does not know gets a nil map there, to which
    the devices cannot be added. *)
Definition promote (promotedReaders : gset UID) (wKeys : keyMap) (w r : keyInfoMap)
    : res (keyInfoMap * keyInfoMap) :=
  if existsb (λ u, bool_decide (r !! u = None ∧ default [] (wKeys !! u) ≠ [])) (elements promotedReaders)
  then Panic "assignment to entry in nil map"
  else
    Ok (set_fold (λ u m, <[u := default ∅ (r !! u)]> m) w promotedReaders,
        set_fold (λ u m, delete u m) r promotedReaders).

Definition add_devices_gen (work : rekeyWork) (wKeys rKeys : keyMap) (ePubKey ePrivKey : list byte)
    (keyGen : KeyGen) : go (rekeyState DB) unit :=
  s ← get;
  currTlfCryptKey ← on_keys (getTLFCryptKey (rk_md s) keyGen true false);
  '(wkb, rkb) ← lift_res (getTLFKeyBundles (rmd_bare (rk_md s)) keyGen);
  '(w, r) ← lift_res (promote (rw_promotedReaders work) wKeys (wkb_WKeys wkb) (rkb_RKeys rkb));
  _ ← set_md (set_bare (set_bundles keyGen
        (MkTLFWriterKeyBundle w (wkb_TLFPublicKey wkb) (wkb_TLFEphemeralPublicKeys wkb))
        (MkTLFReaderKeyBundle r (rkb_TLFReaderEphemeralPublicKeys rkb))));
  updateKeyBundle keyGen wKeys rKeys ePubKey ePrivKey currTlfCryptKey.

(** The generations from the first to [currKeyGen]. *)
Definition generations (currKeyGen : KeyGen) : list KeyGen :=
  (λ i, Z.of_nat i + FirstValidKeyGen)%Z <$> seq 0 (Z.to_nat currKeyGen).

(** A new key generation, and the removal of what revoked devices had. *)
Definition new_generation (wKeys rKeys : keyMap) (pubKey privKey ePubKey ePrivKey tlfCryptKey : list byte)
    : go (rekeyState DB) unit :=
  _ ← on_md (λ md, let '(r, b) := AddNewKeys (MkTLFWriterKeyBundle ∅ pubKey []) (MkTLFReaderKeyBundle ∅ [])
                                     (rmd_bare md) in (r, set_bare (λ _, b) md));
  s ← get;
  let currKeyGen := LatestKeyGeneration (rmd_bare (rk_md s)) in
  _ ← updateKeyBundle currKeyGen wKeys rKeys ePubKey ePrivKey tlfCryptKey;
  _ ← set_md (λ md, let d := rmd_data md in
        set_data (MkPrivateMetadata (pmd_Dir d) privKey (pmd_Changes d) (pmd_cachedChanges d)) md);
  go_for (generations currKeyGen) (delete_gen wKeys rKeys).

(** The deferred function: the handle is updated when the rekey was done,
    at least in part. *)
Definition with_handle (resolvedHandle : TlfHandle) (m : go (rekeyState DB) (bool * option (list byte)))
    : go (rekeyState DB) (bool * option (list byte)) := λ s,
  match m s with
  | (Ok r, s) =>
      match on_md (updateFromTlfHandle resolvedHandle) s with
      | (Ok _, s) => (Ok r, s)
      | (Err e, s) => (Err e, s)
      | (Panic p, s) => (Panic p, s)
      end
  | (Err RekeyIncompleteError, s) =>
      match on_md (updateFromTlfHandle resolvedHandle) s with
      | (Ok _, s) => (Err RekeyIncompleteError, s)
      | (Err e, s) => (Err e, s)
      | (Panic p, s) => (Panic p, s)
      end
  | r => r
  end.

(** What a private folder's rekey does once it is known what is needed. *)
Definition rekey_private (resolvedHandle : TlfHandle) (isWriter : bool) (uid : UID) (username : string)
    (currKeyGen : KeyGen) (work : rekeyWork) (wKeys rKeys : keyMap)
    : go (rekeyState DB) (bool * option (list byte)) :=
  let allowed := isWriter || (bool_decide (uid ∈ rw_newReaderUsers work) &&
                              bool_decide (uid ∉ rw_promotedReaders work)) in
  if negb allowed then fail (ReadAccessError username)
  else
    let rKeys' := if isWriter then rKeys else {[uid := default [] (rKeys !! uid)]} in
    let wKeys' := if isWriter then wKeys else ∅ in
    let newReaderUsers := if isWriter then rw_newReaderUsers work else rw_newReaderUsers work ∖ {[uid]} in
    '(pubKey, privKey, ePubKey, ePrivKey, tlfCryptKey) ← on_keys MakeRandomTLFKeys;
    _ ← (if rw_addNewReaderDevice work || rw_addNewWriterDevice work
         then go_for (generations currKeyGen) (add_devices_gen work wKeys' rKeys' ePubKey ePrivKey)
         else mret tt);
    s ← get;
    _ ← (if negb (IsReadable (rk_md s)) &&
            bool_decide (0 < length (default [] (wm_SerializedPrivateMetadata (bm_WriterMetadata (rmd_bare (rk_md s))))))
         then data ← on_keys (decryptMDPrivateData (rk_md s) (rk_md s)); set_md (set_data data)
         else mret tt);
    with_handle resolvedHandle
      (if negb isWriter then
         if bool_decide (newReaderUsers ≠ ∅) || rw_addNewWriterDevice work || rw_incKeyGen work
         then fail RekeyIncompleteError else mret (true, None)
       else if negb (rw_incKeyGen work) then mret (true, None)
       else
         _ ← new_generation wKeys' rKeys' pubKey privKey ePubKey ePrivKey tlfCryptKey;
         mret (true, Some tlfCryptKey)).

(** [Rekey]: whether something was done, and the new key if one was made. *)
Definition Rekey (promptPaper : bool) : go (rekeyState DB) (bool * option (list byte)) :=
  s ← get;
  let md := rk_md s in
  let public := TlfID_IsPublic (bm_ID (rmd_bare md)) in
  let currKeyGen := LatestKeyGeneration (rmd_bare md) in
  if decide (public ≠ bool_decide (currKeyGen = PublicKeyGen)) then
    fail (Errorf "ID has isPublic but currKeyGen is not")
  else if promptPaper && public then fail (Errorf "promptPaper set for public TLF")
  else
    handle ← lift_res (GetTlfHandle md);
    '(username, uid) ← lift_res GetCurrentUserInfo;
    '(resolvedHandle, isWriter) ← lift_res (rekey_handle md handle uid);
    let handleChanged := bool_decide (handle ≠ resolvedHandle) in
    resolvedHandle ← lift_res (if handleChanged then rekey_conflict md resolvedHandle else Ok resolvedHandle);
    if public then
      if negb handleChanged then mret (false, None)
      else _ ← on_md (updateFromTlfHandle resolvedHandle); mret (true, None)
    else if negb isWriter && bool_decide (currKeyGen < FirstValidKeyGen)%Z then fail (ReadAccessError username)
    else
      wKeys ← lift_res (generateKeyMapForUsers (h_Writers (th_Bare resolvedHandle)));
      rKeys ← lift_res (generateKeyMapForUsers (h_Readers (th_Bare resolvedHandle)));
      work ← lift_res (rekey_work (rmd_bare md) currKeyGen wKeys rKeys);
      if negb (rw_addNewReaderDevice work) && negb (rw_addNewWriterDevice work) &&
         negb (rw_incKeyGen work) && negb handleChanged
      then mret (false, None)
      else rekey_private resolvedHandle isWriter uid username currKeyGen work wKeys rKeys.

End rekey.
