(* ===== verification/KeySpec.v ===== *)
(** * KeySpec: every device that is given a folder's key recovers it

    From [fillInDevices] through the key server to [getTLFCryptKey]: a
    device added to a bundle decrypts its client half with its own key, gets
    the server half that belongs to it, and unmasks the folder's key;
    devices that were in the bundle keep what they had. *)

From Stdlib Require Import ZArith Ascii Lia.
From S2P Require Import Prelude Types Errors GoStd Ids CryptoCommon DataTypes Ops ConflictInfo Handles KeyBundles Metadata LevelDb Lru KeyManager Rekey.

Definition server_half (m : serverKeyMap) (u : UID) (k : KID) : option (list byte) :=
  (m : gmap UID (gmap KID (list byte))) !! u ≫= λ d, d !! k.

Section fill.
Context `{Box}.
Context (key ePrivKey : list byte) (index : Z).

(** The entry made for a device, and the server half that goes with it. *)
Record good_entry (u : UID) (k : KID) (half : list byte) (info : TLFCryptKeyInfo) : Prop := {
  ge_half : length half = 32;
  ge_index : tki_EPubKeyIndex info = index;
  ge_id : GetTLFCryptKeyServerHalfID (ToBytes u) (ToBytes k) half = Ok (tki_ServerHalfID info);
  ge_box : ∃ nonce pub, length nonce = 24 ∧ ImportKeypairFromKID k = Ok (Some pub) ∧
    tki_ClientHalf info =
      MkEncryptedData EncryptionSecretbox (box_Seal (xorKeys half key) nonce pub ePrivKey) nonce
}.

(** What filling in the devices of the users [D] does to the infos [m0],
    with the server halves [srv0] before. *)
Record filled (D : gset UID) (m0 m : keyInfoMap) (srv0 srv : serverKeyMap) : Prop := {
  fi_kept u k i : device_info m0 u k = Some i → device_info m u k = Some i;
  fi_new u k i : device_info m u k = Some i →
    device_info m0 u k = Some i ∨
    (u ∈ D ∧ device_info m0 u k = None ∧ ∃ half, server_half srv u k = Some half ∧ good_entry u k half i);
  fi_half u k half : u ∈ D → server_half srv u k = Some half →
    device_info m0 u k = None ∧ ∃ i, device_info m u k = Some i ∧ good_entry u k half i;
  fi_frame u : u ∉ D → (srv : gmap _ _) !! u = (srv0 : gmap _ _) !! u;
  fi_users u : u ∉ D → m !! u = m0 !! u
}.

Lemma device_info_insert (m : keyInfoMap) u k info u' k' :
  device_info (<[u := <[k := info]> (default ∅ (m !! u))]> m) u' k' =
    if decide (u' = u ∧ k' = k) then Some info else device_info m u' k'.
Proof.
  unfold device_info. destruct (decide (u' = u)) as [->|Hu].
  - rewrite lookup_insert_eq. cbn [mbind option_bind]. destruct (decide (k' = k)) as [->|Hk].
    + rewrite lookup_insert_eq. by rewrite decide_True.
    + rewrite lookup_insert_ne by done. rewrite decide_False by naive_solver.
      destruct (m !! u); cbn [default from_option mbind option_bind]; [done|]. apply lookup_empty.
  - rewrite lookup_insert_ne by done. by rewrite decide_False by naive_solver.
Qed.

Lemma rand_next_Ok n s buf s' : rand_next n s = (Ok buf, s') →
  length buf = n ∧ fs_keys s' = fs_keys s ∧ fs_server s' = fs_server s.
Proof.
  unfold rand_next. destruct (cryptoRandRead _ _) as [b|e|p] eqn:E; intros [= <- <-].
  split; [|done]. by eapply cryptoRandRead_Ok.
Qed.

Lemma fill_device_Ok u k s s' : fill_device u key ePrivKey index k s = (Ok tt, s') →
  match device_info (fs_keys s) u k with
  | Some _ => s' = s
  | None => ∃ info half, good_entry u k half info ∧
      fs_keys s' = <[u := <[k := info]> (default ∅ (fs_keys s !! u))]> (fs_keys s) ∧
      fs_server s' = <[k := half]> (fs_server s)
  end.
Proof.
  unfold fill_device. intros (s0 & s1 & [= <- <-] & Hf)%go_bind_Ok.
  destruct (device_info (fs_keys s) u k); [by injection Hf|].
  apply go_bind_Ok in Hf as (half & s2 & (Hlh & Hk2 & Hs2)%rand_next_Ok & Hf).
  apply go_bind_Ok in Hf as (ch & s3 & [= <- <-] & Hf).
  apply go_bind_Ok in Hf as (nonce & s4 & (Hln & Hk4 & Hs4)%rand_next_Ok & Hf).
  apply go_bind_Ok in Hf as (ed & s5 & Hed & Hf). unfold lift_res in Hed. injection Hed as Hed <-.
  apply go_bind_Ok in Hf as (hid & s6 & Hhid & Hf). unfold lift_res in Hhid. injection Hhid as Hhid <-.
  injection Hf as <-. unfold EncryptTLFCryptKeyClientHalf in Hed.
  apply bind_Ok in Hed as (kp & Hkp & Hed). destruct kp as [pub|]; [|done]. injection Hed as <-.
  eexists _, half. split; [|simpl; by rewrite Hk4, Hk2, Hs4, Hs2].
  split; [done|done|done|]. exists nonce, pub. done.
Qed.

(** The devices of one user. *)
Record user_filled (u : UID) (m0 : keyInfoMap) (s : fillState) : Prop := {
  uf_kept u' k i : device_info m0 u' k = Some i → device_info (fs_keys s) u' k = Some i;
  uf_new u' k i : device_info (fs_keys s) u' k = Some i →
    device_info m0 u' k = Some i ∨
    (u' = u ∧ device_info m0 u' k = None ∧ ∃ half, fs_server s !! k = Some half ∧ good_entry u k half i);
  uf_half k half : fs_server s !! k = Some half →
    device_info m0 u k = None ∧ ∃ i, device_info (fs_keys s) u k = Some i ∧ good_entry u k half i;
  uf_users u' : u' ≠ u → fs_keys s !! u' = m0 !! u'
}.

Lemma fill_device_filled u m0 k s s' :
  user_filled u m0 s → fill_device u key ePrivKey index k s = (Ok tt, s') →
  user_filled u m0 s' ∧ is_Some (device_info (fs_keys s') u k) ∧
  (∀ k', is_Some (device_info (fs_keys s) u k') → is_Some (device_info (fs_keys s') u k')).
Proof.
  intros [Hk Hn Hh Hus] Hf%fill_device_Ok. destruct (device_info (fs_keys s) u k) as [i|] eqn:E.
  { subst s'. split; [done|]. split; [by rewrite E|done]. }
  destruct Hf as (info & half & Hgood & Hkeys & Hsrv).
  assert (∀ u' k', device_info (fs_keys s') u' k' =
    if decide (u' = u ∧ k' = k) then Some info else device_info (fs_keys s) u' k') as Hdi
    by (intros; rewrite Hkeys; apply device_info_insert).
  assert (device_info m0 u k = None) as Hm0k.
  { destruct (device_info m0 u k) eqn:E0; [|done]. apply Hk in E0. congruence. }
  split; [split|split].
  - intros u' k' i Hi. rewrite Hdi. apply Hk in Hi. case_decide as Hd; [|done]. naive_solver.
  - intros u' k' i. rewrite Hdi, Hsrv. case_decide as Hd.
    + destruct Hd as [-> ->]. intros [= <-]. right. split; [done|]. split; [done|].
      exists half. by rewrite lookup_insert_eq.
    + intros Hi. destruct (Hn _ _ _ Hi) as [?|(-> & Hm0 & half' & Hh' & Hg)]; [by left|].
      right. split; [done|]. split; [done|]. exists half'.
      rewrite lookup_insert_ne by naive_solver. done.
  - intros k' half'. rewrite Hsrv. destruct (decide (k' = k)) as [->|Hne].
    + rewrite lookup_insert_eq. intros [= <-]. split; [done|]. exists info. by rewrite Hdi, decide_True.
    + rewrite lookup_insert_ne by done. intros (Hn0 & i & Hi & Hg)%Hh. split; [done|]. exists i. by rewrite Hdi, decide_False by naive_solver.
  - intros u' Hu'. rewrite Hkeys, lookup_insert_ne by done. auto.
  - rewrite Hdi, decide_True by done. done.
  - intros k' Hk'. rewrite Hdi. by case_decide.
Qed.

Lemma fill_devices_filled u m0 keys s s' :
  user_filled u m0 s → go_for keys (fill_device u key ePrivKey index) s = (Ok tt, s') →
  user_filled u m0 s' ∧ (∀ k, k ∈ keys → is_Some (device_info (fs_keys s') u k)) ∧
  (∀ k', is_Some (device_info (fs_keys s) u k') → is_Some (device_info (fs_keys s') u k')).
Proof.
  revert s. induction keys as [|k keys IH]; intros s Hs Hf.
  { injection Hf as <-. split; [done|]. split; [by intros k ?%elem_of_nil|done]. }
  apply go_bind_Ok in Hf as ([] & s1 & Hk & Hf).
  destruct (fill_device_filled u m0 k s s1 Hs Hk) as (Hs1 & Hd & Hm1).
  destruct (IH s1 Hs1 Hf) as (Hs' & Hall & Hm). split; [done|]. split; [|by auto].
  intros k' [->|Hk']%elem_of_cons; auto.
Qed.

Lemma fillInDeviceInfo_Ok u keys s serverMap s' :
  fillInDeviceInfo u key ePrivKey index keys s = (Ok serverMap, s') →
  user_filled u (fs_keys s) s' ∧ fs_server s' = serverMap ∧
  (∀ k, k ∈ keys → is_Some (device_info (fs_keys s') u k)).
Proof.
  unfold fillInDeviceInfo. intros ([] & s1 & [= <-] & Hf)%go_bind_Ok.
  apply go_bind_Ok in Hf as ([] & s2 & Hf & Hg).
  apply go_bind_Ok in Hg as (s3 & s4 & [= <- <-] & [= <- <-]).
  destruct (fill_devices_filled u (fs_keys s) keys (MkFillState (fs_rand s) (fs_keys s) ∅) s2) as (Hs & Hall & _).
  - split; simpl; [done|by left| |done]. intros k half. by rewrite lookup_empty.
  - done.
  - done.
Qed.

(** All of the users. *)
Lemma device_info_new_user (m : keyInfoMap) u u' k :
  device_info (match m !! u with Some _ => m | None => <[u := ∅]> m end) u' k = device_info m u' k.
Proof.
  destruct (m !! u) eqn:E; [done|]. unfold device_info. destruct (decide (u' = u)) as [->|].
  - rewrite lookup_insert_eq, E. cbn [mbind option_bind]. apply lookup_empty.
  - by rewrite lookup_insert_ne.
Qed.

Lemma fill_user_filled D m0 srv0 u keys s s' :
  filled D m0 (fu_keys s) srv0 (fu_server s) → u ∉ D → (srv0 : gmap _ _) !! u = None →
  fill_user index ePrivKey key (u, keys) s = (Ok tt, s') →
  filled ({[u]} ∪ D) m0 (fu_keys s') srv0 (fu_server s') ∧
  (∀ k, k ∈ keys → is_Some (device_info (fu_keys s') u k)) ∧
  (∀ u' k i, device_info (fu_keys s) u' k = Some i → device_info (fu_keys s') u' k = Some i).
Proof.
  intros [Hkept Hnew Hhalf Hframe Husers] Hu Hs0 Hf. unfold fill_user in Hf.
  set (m1 := match fu_keys s !! u with Some _ => fu_keys s | None => <[u := ∅]> (fu_keys s) end) in Hf.
  destruct (fillInDeviceInfo _ _ _ _ _ _) as [[sm|e|p] fs] eqn:E; [|done..]. injection Hf as <-.
  apply fillInDeviceInfo_Ok in E as ([Uk Un Uh Uu] & Hsm & Hall). cbn [fs_keys] in *.
  assert (∀ u' k, device_info m1 u' k = device_info (fu_keys s) u' k) as Hm1 by apply device_info_new_user.
  assert ((fu_server s : gmap _ _) !! u = None) as Hsu by (by rewrite Hframe).
  assert (∀ u' k, server_half (if decide (0 < size sm) then <[u := sm]> (fu_server s : gmap _ _) else fu_server s) u' k =
    if decide (u' = u) then sm !! k else server_half (fu_server s) u' k) as Hsrv.
  { intros u' k. unfold server_half. destruct (decide (0 < size sm)) as [Hsz|Hsz], (decide (u' = u)) as [Hd|Hd].
    - subst. by rewrite lookup_insert_eq.
    - by rewrite lookup_insert_ne.
    - subst u'. rewrite Hsu. assert (size sm = 0) as ->%map_size_empty_iff by lia. done.
    - done. }
  cbn [fu_keys fu_server fu_rand]. split; [split|split].
  - intros u' k i Hi. apply Uk. rewrite Hm1. auto.
  - intros u' k i Hi. destruct (Un _ _ _ Hi) as [Hi'|(-> & Hn & half & Hh & Hg)].
    + rewrite Hm1 in Hi'. destruct (Hnew _ _ _ Hi') as [?|(HD & Hn & half & Hh & Hg)]; [by left|].
      right. split; [set_solver|]. split; [done|]. exists half. split; [|done].
      rewrite Hsrv, decide_False by set_solver. done.
    + right. split; [set_solver|]. rewrite Hm1 in Hn. split.
      { destruct (device_info m0 u k) eqn:E0; [|done]. apply Hkept in E0. congruence. }
      exists half. rewrite Hsrv, decide_True by done. by rewrite <- Hsm.
  - intros u' k half HD. rewrite Hsrv. destruct (decide (u' = u)) as [->|Hd].
    + rewrite <- Hsm. intros (Hn & Hi)%Uh. split; [|done]. rewrite Hm1 in Hn.
      destruct (device_info m0 u k) eqn:E0; [|done]. apply Hkept in E0. congruence.
    + intros (Hn & i & Hi & Hg)%Hhalf; [|set_solver]. split; [done|]. exists i. split; [|done]. apply Uk. by rewrite Hm1.
  - intros u' Hu'. case_decide; [|apply Hframe; set_solver].
    etrans; [apply (lookup_insert_ne (fu_server s : gmap UID (gmap KID (list byte)))); set_solver|].
    apply Hframe. set_solver.
  - intros u' Hu'. rewrite Uu by set_solver. etrans; [|apply Husers; set_solver].
    unfold m1. destruct (fu_keys s !! u); [done|]. rewrite lookup_insert_ne by set_solver. done.
  - done.
  - intros u' k i Hi. apply Uk. by rewrite Hm1.
Qed.

Lemma filled_refl m srv : filled ∅ m m srv srv.
Proof. split; [done|by left|set_solver|done|done]. Qed.

Lemma fill_users_filled D m0 srv0 l s s' :
  filled D m0 (fu_keys s) srv0 (fu_server s) → NoDup l.*1 →
  (∀ u, u ∈ l.*1 → (u ∉ D) ∧ (srv0 : gmap _ _) !! u = None) →
  fillInDevicesAndServerMap index l ePrivKey key s = (Ok tt, s') →
  filled (list_to_set l.*1 ∪ D) m0 (fu_keys s') srv0 (fu_server s') ∧
  (∀ u keys k, (u, keys) ∈ l → k ∈ keys → is_Some (device_info (fu_keys s') u k)) ∧
  (∀ u k i, device_info (fu_keys s) u k = Some i → device_info (fu_keys s') u k = Some i).
Proof.
  revert D s. induction l as [|[u keys] l IH]; intros D s Hs Hnd Hfr Hf.
  { injection Hf as <-. split; [|split; [by intros ??? ?%elem_of_nil|done]].
    assert (list_to_set (@nil (UID * list KID)).*1 ∪ D = D) as -> by set_solver. done. }
  rewrite fmap_cons in *. apply NoDup_cons in Hnd as [Hu Hnd].
  apply go_bind_Ok in Hf as ([] & s1 & Hfu & Hf).
  destruct (Hfr u) as [HuD Hu0]; [by left|].
  destruct (fill_user_filled D m0 srv0 u keys s s1 Hs HuD Hu0 Hfu) as (Hs1 & Hall1 & Hk1).
  destruct (IH ({[u]} ∪ D) s1 Hs1 Hnd) as (Hs' & Hall & Hk); [|done|].
  { intros u' Hu'. destruct (Hfr u') as [? ?]; [by right|]. split; [|done].
    intros [->%elem_of_singleton|?]%elem_of_union; [by apply Hu|done]. }
  split; [|split; [|by auto]].
  - replace (list_to_set ((u, keys).1 :: l.*1) ∪ D) with (list_to_set (l.*1) ∪ ({[u]} ∪ D)) by set_solver. done.
  - intros u' keys' k [[= -> ->]|Hin]%elem_of_cons Hk'; [|by eapply Hall].
    destruct (Hall1 k Hk') as [i Hi]. exists i. by apply Hk.
Qed.
End fill.

(** ** Both bundles *)

Definition epub_at (wkb : TLFWriterKeyBundle) (rkb : TLFReaderKeyBundle) (i : Z) : option (list byte) :=
  if decide (i < 0)%Z then rkb_TLFReaderEphemeralPublicKeys rkb !! Z.to_nat (-1 - i)
  else wkb_TLFEphemeralPublicKeys wkb !! Z.to_nat i.

Section bundles.
Context `{Box}.
Context (wKeys rKeys : keyMap) (Hdisj : dom wKeys ∩ dom rKeys = (∅ : gset UID)).
Context (ePubKey ePrivKey key : list byte).

(** What [fillInDevices] makes of the bundles [b]: [b'], with server halves
    [srv]. *)
Record bundles_filled (b b' : bundles) (srv : serverKeyMap) (index : Z) : Prop := {
  bf_epub : epub_at (bu_wkb b') (bu_rkb b') index = Some ePubKey;
  bf_epubs i e : epub_at (bu_wkb b) (bu_rkb b) i = Some e → epub_at (bu_wkb b') (bu_rkb b') i = Some e;
  bf_writers u keys k : wKeys !! u = Some keys → k ∈ keys →
    is_Some (device_info (wkb_WKeys (bu_wkb b')) u k);
  bf_readers u keys k : rKeys !! u = Some keys → k ∈ keys →
    is_Some (device_info (rkb_RKeys (bu_rkb b')) u k);
  bf_wfilled : ∃ srv0, filled key ePrivKey index (dom wKeys) (wkb_WKeys (bu_wkb b)) (wkb_WKeys (bu_wkb b')) ∅ srv0 ∧
    filled key ePrivKey index (dom rKeys) (rkb_RKeys (bu_rkb b)) (rkb_RKeys (bu_rkb b')) srv0 srv
}.

Lemma elem_map_keys {V} (m : gmap UID V) u : u ∈ (map_to_list m).*1 ↔ u ∈ (dom m : gset UID).
Proof.
  rewrite elem_of_dom, list_elem_of_fmap. split.
  - intros ([u' v] & -> & Hv%elem_of_map_to_list). by eexists.
  - intros [v Hv]. exists (u, v). split; [done|]. by apply elem_of_map_to_list.
Qed.

(** The ephemeral key is appended to the list that its index is for. *)
Definition newIndex (b : bundles) : Z :=
  if decide (length (map_to_list wKeys) = 0) then (- (zlen (rkb_TLFReaderEphemeralPublicKeys (bu_rkb b)) + 1))%Z
  else zlen (wkb_TLFEphemeralPublicKeys (bu_wkb b)).

Lemma epub_at_w wkb rkb m m' pub i :
  epub_at (MkTLFWriterKeyBundle m pub (wkb_TLFEphemeralPublicKeys wkb))
    (MkTLFReaderKeyBundle m' (rkb_TLFReaderEphemeralPublicKeys rkb)) i = epub_at wkb rkb i.
Proof. done. Qed.

(** The writers, then the readers. *)
Lemma fill_both index (W R : keyInfoMap) rand w r :
  fillInDevicesAndServerMap index (map_to_list wKeys) ePrivKey key (MkFillUsers rand W ∅) = (Ok tt, w) →
  fillInDevicesAndServerMap index (map_to_list rKeys) ePrivKey key (MkFillUsers (fu_rand w) R (fu_server w)) = (Ok tt, r) →
  (∀ u keys k, wKeys !! u = Some keys → k ∈ keys → is_Some (device_info (fu_keys w) u k)) ∧
  (∀ u keys k, rKeys !! u = Some keys → k ∈ keys → is_Some (device_info (fu_keys r) u k)) ∧
  filled key ePrivKey index (dom wKeys) W (fu_keys w) ∅ (fu_server w) ∧
  filled key ePrivKey index (dom rKeys) R (fu_keys r) (fu_server w) (fu_server r).
Proof.
  intros EW ER.
  destruct (fill_users_filled key ePrivKey index ∅ W ∅ (map_to_list wKeys) (MkFillUsers rand W ∅) w)
    as (HW & HWall & _); [apply filled_refl|apply NoDup_fst_map_to_list|set_solver|done|].
  assert (∀ m : keyMap, list_to_set (map_to_list m).*1 ∪ ∅ = (dom m : gset UID)) as Hdom.
  { intros m. apply set_eq. intros u. rewrite elem_of_union, elem_of_list_to_set, elem_map_keys. set_solver. }
  rewrite Hdom in HW.
  destruct (fill_users_filled key ePrivKey index ∅ R (fu_server w) (map_to_list rKeys)
    (MkFillUsers (fu_rand w) R (fu_server w)) r) as (HR & HRall & _);
    [apply filled_refl|apply NoDup_fst_map_to_list| |done|].
  { intros u Hu%elem_map_keys. split; [set_solver|]. rewrite (fi_frame _ _ _ _ _ _ _ _ HW); [done|set_solver]. }
  rewrite Hdom in HR. split; [|split; [|done]].
  - intros u keys k Hu%elem_of_map_to_list. by apply HWall.
  - intros u keys k Hu%elem_of_map_to_list. by apply HRall.
Qed.

Lemma fillInDevices_Ok b srv b' :
  fillInDevices (map_to_list wKeys) (map_to_list rKeys) ePubKey ePrivKey key b = (Ok srv, b') →
  bundles_filled b b' srv (newIndex b).
Proof.
  unfold fillInDevices, newIndex.
  destruct (decide (length (map_to_list wKeys) = 0)) as [Hw|Hw];
    (destruct (fillInDevicesAndServerMap _ (map_to_list wKeys) _ _ _) as [[[]|e|p] w] eqn:EW; [|done..]);
    (destruct (fillInDevicesAndServerMap _ (map_to_list rKeys) _ _ _) as [[[]|e|p] r] eqn:ER; [|done..]);
    intros [= <- <-]; destruct (fill_both _ _ _ _ _ _ EW ER) as (H1 & H2 & H3 & H4).
  - rewrite zlen_app in H3, H4. split; cbn [bu_wkb bu_rkb wkb_WKeys rkb_RKeys]; [| |done|done|by eauto].
    + unfold epub_at. cbn. rewrite decide_True by (pose proof (zlen_nonneg (rkb_TLFReaderEphemeralPublicKeys (bu_rkb b))); lia).
      rewrite lookup_app_r; unfold zlen; [|lia].
      replace (_ - _) with 0 by lia. done.
    + intros i e. unfold epub_at. cbn. case_decide; [|done]. apply lookup_app_l_Some.
  - rewrite zlen_app in H3, H4. unfold zlen in H3 at 2, H4 at 2. cbn [length] in H3, H4.
    rewrite Z.add_simpl_r in H3, H4.
    split; cbn [bu_wkb bu_rkb wkb_WKeys rkb_RKeys]; [| |done|done|by eauto].
    + unfold epub_at. cbn. rewrite decide_False by (pose proof (zlen_nonneg (wkb_TLFEphemeralPublicKeys (bu_wkb b))); lia).
      rewrite lookup_app_r; unfold zlen; [|lia].
      replace (_ - _) with 0 by lia. done.
    + intros i e. unfold epub_at. cbn. case_decide; [done|]. apply lookup_app_l_Some.
Qed.
End bundles.

(** ** The key server *)

Lemma half_key_inj id id' : half_key id = half_key id' → id = id'.
Proof.
  destruct id as [[h]], id' as [[h']]. unfold half_key, Hash_Bytes. simpl. intros Heq.
  f_equal. f_equal. by rewrite <- (string_of_bytes_of_string h), Heq, string_of_bytes_of_string.
Qed.

Lemma put_batch_cons k v batch m : put_batch ((k, v) :: batch) m = put_batch batch (<[k := v]> (m : gmap _ _)).
Proof. done. Qed.

(** A key of a batch whose entries agree. *)
Lemma put_batch_lookup batch m k v :
  (k, v) ∈ batch → (∀ v', (k, v') ∈ batch → v' = v) →
  (put_batch batch m : gmap _ _) !! k = Some v.
Proof.
  assert (∀ batch m, (m : gmap _ _) !! k = Some v → (∀ v', (k, v') ∈ batch → v' = v) →
    (put_batch batch m : gmap _ _) !! k = Some v) as Hkeep.
  { clear. intros batch. induction batch as [|[k' v'] batch IH]; intros m Hm Hall; [done|].
    rewrite put_batch_cons. apply IH; [|intros; apply Hall; by right].
    destruct (decide (k' = k)) as [->|Hne].
    - rewrite lookup_insert_eq. f_equal. apply Hall. by left.
    - by rewrite lookup_insert_ne. }
  revert m. induction batch as [|[k' v'] batch IH]; intros m Hin Hall; [by apply elem_of_nil in Hin|].
  rewrite put_batch_cons. apply elem_of_cons in Hin as [[= <- <-]|Hin].
  - apply Hkeep; [apply lookup_insert_eq|]. intros; apply Hall; by right.
  - apply IH; [done|]. intros; apply Hall; by right.
Qed.

Section key_server.
Context {DB : Type} `{LevelDBLaws DB, Codec (list byte), !EncodeTotal (list byte)}.

Lemma user_batch_elem uid halves batch k v : user_batch uid halves = Ok batch →
  (k, v) ∈ batch ↔ ∃ kid half id, (kid, half) ∈ halves ∧ Encode half = Ok v ∧
    GetTLFCryptKeyServerHalfID (ToBytes uid) (ToBytes kid) half = Ok id ∧ k = half_key id.
Proof.
  revert batch. induction halves as [|[kid half] halves IH]; intros batch; simpl.
  { intros [= <-]. split; [by intros ?%elem_of_nil|]. by intros (? & ? & ? & ?%elem_of_nil & _). }
  intros (buf & Hbuf & (id & Hid & (b & Hb & [= <-])%bind_Ok)%bind_Ok)%bind_Ok.
  rewrite elem_of_cons, (IH b Hb). split.
  - intros [[= -> ->]|(kid' & half' & id' & Hin & Hr)]; [exists kid, half, id|exists kid', half', id'].
    + split; [by left|done].
    + split; [by right|done].
  - intros (kid' & half' & id' & [[= -> ->]|Hin]%elem_of_cons & He & Hi & ->); [left; congruence|right; eauto 10].
Qed.

Lemma halves_batch_elem users batch k v : halves_batch users = Ok batch →
  (k, v) ∈ batch ↔ ∃ uid m kid half id, (uid, m) ∈ users ∧ m !! kid = Some half ∧ Encode half = Ok v ∧
    GetTLFCryptKeyServerHalfID (ToBytes uid) (ToBytes kid) half = Ok id ∧ k = half_key id.
Proof.
  revert batch. induction users as [|[uid m] users IH]; intros batch; simpl.
  { intros [= <-]. split; [by intros ?%elem_of_nil|]. by intros (? & ? & ? & ? & ? & ?%elem_of_nil & _). }
  intros (b & Hb & (bs & Hbs & [= <-])%bind_Ok)%bind_Ok.
  rewrite elem_of_app, (IH bs Hbs), (user_batch_elem _ _ _ _ _ Hb). split.
  - intros [(kid & half & id & Hin%elem_of_map_to_list & Hr)|(u & m' & kid & half & id & Hin & Hr)].
    + exists uid, m, kid, half, id. split; [by left|done].
    + exists u, m', kid, half, id. split; [by right|done].
  - intros (u & m' & kid & half & id & [[= -> ->]|Hin]%elem_of_cons & Hk & Hr).
    + left. exists kid, half, id. by rewrite elem_of_map_to_list.
    + right. eauto 10.
Qed.

(** After the halves were put, each is under its id. *)
Lemma ks_Put_Ok srv ks ks' u k half id m :
  ldb_map (ks_db ks) = Some m → ks_PutTLFCryptKeyServerHalves srv ks = (Ok tt, ks') →
  server_half srv u k = Some half → GetTLFCryptKeyServerHalfID (ToBytes u) (ToBytes k) half = Ok id →
  (∀ u' k' half', server_half srv u' k' = Some half' →
     GetTLFCryptKeyServerHalfID (ToBytes u') (ToBytes k') half' = Ok id → half' = half) →
  ∃ buf, ldb_Get (half_key id) (ks_db ks') = Ok buf ∧ Encode half = Ok buf.
Proof.
  intros Hm Hput Hh Hid Huniq. unfold ks_PutTLFCryptKeyServerHalves in Hput.
  destruct (ks_shutdown ks); [done|].
  destruct (halves_batch _) as [batch|e|p] eqn:Eb; [|done..].
  destruct (ldb_Write_law _ m batch Hm) as (db & Hw & Hdb). rewrite Hw in Hput. injection Hput as <-.
  cbn [ks_db]. rewrite (ldb_Get_law _ _ _ Hdb).
  unfold server_half in Hh. apply bind_Some in Hh as (d & Hd & Hk).
  destruct (Encode_total half) as [buf Hbuf]. exists buf. split; [|done].
  assert ((put_batch batch m : gmap _ _) !! half_key id = Some buf) as ->; [|done].
  apply put_batch_lookup.
  - apply (halves_batch_elem _ _ _ _ Eb). exists u, d, k, half, id. split; [by apply elem_of_map_to_list|done].
  - intros v (u' & d' & k' & half' & id' & Hin%elem_of_map_to_list & Hk' & Hv & Hid' & Hkey%half_key_inj)%(halves_batch_elem _ _ _ _ Eb).
    subst id'. assert (half' = half) as ->; [|congruence].
    apply (Huniq u' k'); [|done]. apply bind_Some. by exists d'.
Qed.
End key_server.

(** ** From the bundle to the key *)

Section access.
Context {DB : Type} `{LevelDBLaws DB, Codec (list byte), !EncodeTotal (list byte), Box}.

(** The entries of a generation. *)
Definition entry (wkb : TLFWriterKeyBundle) (rkb : TLFReaderKeyBundle) (u : UID) (k : KID) (i : TLFCryptKeyInfo) : Prop :=
  device_info (wkb_WKeys wkb) u k = Some i ∨ device_info (rkb_RKeys rkb) u k = Some i.

(** No two devices of a generation have the same server-half id. *)
Definition ids_distinct (wkb : TLFWriterKeyBundle) (rkb : TLFReaderKeyBundle) : Prop :=
  ∀ u k i u' k' i', entry wkb rkb u k i → entry wkb rkb u' k' i' →
    tki_ServerHalfID i = tki_ServerHalfID i' → u = u' ∧ k = k'.

Lemma getTLFKeyBundles_Ok md keyGen wkb rkb : getTLFKeyBundles md keyGen = Ok (wkb, rkb) →
  TlfID_IsPublic (bm_ID md) = false ∧ (FirstValidKeyGen <= keyGen <= zlen (bm_WKeys md))%Z ∧
  bm_WKeys md !! Z.to_nat (keyGen - FirstValidKeyGen) = Some wkb ∧
  bm_RKeys md !! Z.to_nat (keyGen - FirstValidKeyGen) = Some rkb.
Proof.
  unfold getTLFKeyBundles. destruct (TlfID_IsPublic _); [done|]. case_decide as Hg; [done|].
  destruct (bm_WKeys md !! _) eqn:Ew; [|done]. destruct (bm_RKeys md !! _) eqn:Er; [|done].
  intros [= -> ->]. split; [done|]. split; [|done].
  apply lookup_lt_Some in Ew. unfold zlen, FirstValidKeyGen in *. lia.
Qed.

Lemma getTLFKeyBundles_set md keyGen wkb rkb wkb' rkb' : getTLFKeyBundles md keyGen = Ok (wkb, rkb) →
  getTLFKeyBundles (set_bundles keyGen wkb' rkb' md) keyGen = Ok (wkb', rkb') ∧
  LatestKeyGeneration (set_bundles keyGen wkb' rkb' md) = LatestKeyGeneration md.
Proof.
  intros Hb. pose proof (getTLFKeyBundles_Ok _ _ _ _ Hb) as (Hpub & Hgen & Hw & Hr).
  set (i := Z.to_nat (keyGen - FirstValidKeyGen)) in *. set (md' := set_bundles keyGen wkb' rkb' md).
  assert (bm_WKeys md' !! i = Some wkb') as Ew by (apply list_lookup_insert_eq; by eapply lookup_lt_Some).
  assert (bm_RKeys md' !! i = Some rkb') as Er by (apply list_lookup_insert_eq; by eapply lookup_lt_Some).
  assert (TlfID_IsPublic (bm_ID md') = false) as Hpub' by done.
  unfold getTLFKeyBundles, LatestKeyGeneration. fold i. rewrite Hpub, Hpub', Ew, Er.
  rewrite decide_False by lia. split; [done|].
  unfold wkg_LatestKeyGeneration, zlen. f_equal. apply length_insert.
Qed.

(** What [updateKeyBundle] did when it succeeds. *)
Lemma updateKeyBundle_Ok keyGen wKeys rKeys ePub ePriv key s s' wkb rkb :
  getTLFKeyBundles (rmd_bare (rk_md s)) keyGen = Ok (wkb, rkb) →
  dom wKeys ∩ dom rKeys = (∅ : gset UID) →
  updateKeyBundle keyGen wKeys rKeys ePub ePriv key s = (Ok tt, s') →
  ∃ wkb' rkb' rand srv, let b := MkBundles wkb rkb (kst_rand (rk_keys s)) in
    bundles_filled wKeys rKeys ePub ePriv key b (MkBundles wkb' rkb' rand) srv (newIndex wKeys b) ∧
    rk_md s' = set_bare (set_bundles keyGen wkb' rkb') (rk_md s) ∧
    ks_PutTLFCryptKeyServerHalves srv (kst_server (rk_keys s)) = (Ok tt, kst_server (rk_keys s')).
Proof.
  intros Hb Hdisj. unfold updateKeyBundle. intros (s0 & s1 & [= <- <-] & Hu)%go_bind_Ok.
  apply go_bind_Ok in Hu as ([w r] & s2 & Hl & Hu). unfold lift_res in Hl. rewrite Hb in Hl. injection Hl as <- <- <-.
  apply go_bind_Ok in Hu as (srv & s3 & Hf & Hp). unfold fill_bundles in Hf.
  destruct (fillInDevices _ _ _ _ _ _) as [fr [wkb' rkb' rand]] eqn:Ef. injection Hf as -> <-.
  apply fillInDevices_Ok in Ef; [|done].
  unfold on_keys, on_server in Hp. cbn in Hp.
  destruct (ks_PutTLFCryptKeyServerHalves _ _) as [pr ks'] eqn:Ep. injection Hp as -> <-.
  by exists wkb', rkb', rand, srv.
Qed.

(** The server halves of a filled bundle are those of its new entries. *)
Lemma filled_server wKeys rKeys ePub ePriv key b b' srv index u k half :
  bundles_filled wKeys rKeys ePub ePriv key b b' srv index → dom wKeys ∩ dom rKeys = (∅ : gset UID) →
  server_half srv u k = Some half →
  ∃ i, entry (bu_wkb b') (bu_rkb b') u k i ∧ good_entry key ePriv index u k half i.
Proof.
  intros [_ _ _ _ (srv0 & HW & HR)] Hdisj Hh.
  destruct (decide (u ∈ (dom rKeys : gset UID))) as [Hr|Hr].
  - destruct (fi_half _ _ _ _ _ _ _ _ HR u k half Hr Hh) as (_ & i & Hi & Hg). exists i. split; [by right|done].
  - assert (server_half srv0 u k = Some half) as Hh0.
    { unfold server_half in *. by rewrite <- (fi_frame _ _ _ _ _ _ _ _ HR u Hr). }
    destruct (decide (u ∈ (dom wKeys : gset UID))) as [Hw|Hw].
    + destruct (fi_half _ _ _ _ _ _ _ _ HW u k half Hw Hh0) as (_ & i & Hi & Hg). exists i. split; [by left|done].
    + unfold server_half in Hh0. rewrite (fi_frame _ _ _ _ _ _ _ _ HW u Hw) in Hh0. done.
Qed.
End access.

(** ** The device *)

Section device.
Context {DB : Type} `{LevelDBLaws DB, Codec (list byte), !EncodeTotal (list byte), Box}.
(** The device [k] of user [u], with its own private key. *)
Context `{KeyConfig} (name : string) (u : UID) (k : KID).
Context (Huser : GetCurrentUserInfo = Ok (name, u)) (Hkid : GetCurrentCryptPublicKey = Ok k).

Lemma getTLFCryptKey_current (md : RootMetadata) keyGen (st : keyState DB) info ePub clientHalf serverHalf :
  TlfID_IsPublic (bm_ID (rmd_bare md)) = false →
  (FirstValidKeyGen <= keyGen <= LatestKeyGeneration (rmd_bare md))%Z →
  fst (kcache_GetTLFCryptKey (bm_ID (rmd_bare md)) keyGen (kst_cache st)) = Err (KeyCacheMissError (bm_ID (rmd_bare md)) keyGen) →
  GetTLFCryptKeyInfo (rmd_bare md) keyGen u k = Ok (Some info) →
  GetTLFEphemeralPublicKey (rmd_bare md) keyGen u k = Ok ePub →
  DecryptTLFCryptKeyClientHalf cryptPrivateKey ePub (tki_ClientHalf info) = Ok clientHalf →
  kops_GetTLFCryptKeyServerHalf (tki_ServerHalfID info) k (kst_server st) = Ok serverHalf →
  fst (getTLFCryptKey md keyGen false false st) = Ok (xorKeys serverHalf clientHalf).
Proof.
  intros Hpub Hgen Hc Hinfo Hep Hdec Hsrv. unfold getTLFCryptKey. rewrite Hpub.
  rewrite decide_False by lia. rewrite decide_False by lia.
  destruct st as [srv cache rand]. cbn [kst_cache kst_server kst_rand] in *.
  unfold mbind at 1, go_bind at 1, try, on_cache. cbn [kst_cache kst_server kst_rand].
  destruct (kcache_GetTLFCryptKey _ _ cache) as [rc cache']. cbn [fst] in Hc. subst rc.
  unfold mbind at 1, go_bind at 1, lift_res at 1. rewrite Huser.
  unfold mbind at 1, go_bind at 1, lift_res at 1. unfold client_half_current. rewrite Hkid.
  cbn [mbind res_bind]. rewrite Hinfo. cbn [mbind res_bind]. rewrite Hep. cbn [mbind res_bind]. rewrite Hdec.
  cbn [mbind res_bind]. unfold mbind, go_bind, get, lift_res. cbn [kst_server]. rewrite Hsrv. done.
Qed.

(** What a device does with an entry that was made for it. *)
Lemma good_entry_decrypts key ePriv index half info :
  good_entry key ePriv index u k half info → length key = 32 →
  ImportKeypairFromKID k = Ok (Some (box_public cryptPrivateKey)) →
  DecryptTLFCryptKeyClientHalf cryptPrivateKey (box_public ePriv) (tki_ClientHalf info) = Ok (xorKeys half key).
Proof.
  intros [Hlen _ _ (nonce & pub & Hnonce & Himp & Hch)] Hkey Hk. rewrite Hch.
  assert (pub = box_public cryptPrivateKey) as -> by congruence.
  assert (length (xorKeys half key) = 32) as Hx.
  { unfold xorKeys, xor_bytes. rewrite length_zip_with. lia. }
  unfold DecryptTLFCryptKeyClientHalf, prepareTLFCryptKeyClientHalf. cbn [ed_Version ed_EncryptedData ed_Nonce].
  rewrite decide_False by auto. rewrite decide_False by (rewrite box_Seal_length, Hx; auto).
  rewrite decide_False by auto. cbn [mbind res_bind]. rewrite box_Open_Seal. by rewrite decide_False by auto.
Qed.

Lemma kops_Get_Ok id half buf (ks : KeyServerLocal DB) :
  GetTLFCryptKeyServerHalfID (ToBytes u) (ToBytes k) half = Ok id →
  ldb_Get (half_key id) (ks_db ks) = Ok buf → Encode half = Ok buf →
  kops_GetTLFCryptKeyServerHalf id k ks = Ok half.
Proof.
  intros Hid Hget Henc. unfold kops_GetTLFCryptKeyServerHalf, ks_GetTLFCryptKeyServerHalf.
  assert (VerifyTLFCryptKeyServerHalfID id (ToBytes u) (ToBytes k) half = Ok tt) as Hv
    by (by apply HMAC_Verify_default).
  rewrite Hget. cbn [mbind res_bind]. rewrite (Decode_Encode half buf Henc). cbn [mbind res_bind].
  rewrite Huser. cbn [mbind res_bind]. rewrite Hv. cbn [mbind res_bind]. by rewrite Hv.
Qed.

(** The device is listed as one of a writer, or of a user who is only a
    reader. *)
Definition listed (wkb : TLFWriterKeyBundle) (wKeys rKeys : keyMap) : Prop :=
  (∃ keys, wKeys !! u = Some keys ∧ k ∈ keys) ∨
  ((wkb_WKeys wkb : keyInfoMap) !! u = None ∧ wKeys !! u = None ∧ ∃ keys, rKeys !! u = Some keys ∧ k ∈ keys).

(** The entry of a listed new device. *)
Lemma listed_entry wKeys rKeys ePub ePriv key b b' srv index :
  bundles_filled wKeys rKeys ePub ePriv key b b' srv index → dom wKeys ∩ dom rKeys = (∅ : gset UID) →
  listed (bu_wkb b) wKeys rKeys → (∀ i, ¬ entry (bu_wkb b) (bu_rkb b) u k i) →
  ∃ info half, user_keys (bu_wkb b') (bu_rkb b') u ≫= (λ d, d !! k) = Some info ∧
    entry (bu_wkb b') (bu_rkb b') u k info ∧
    server_half srv u k = Some half ∧ good_entry key ePriv index u k half info.
Proof.
  intros Hf Hdisj Hl Hnew. pose proof Hf as [_ _ HWs HRs (srv0 & HW & HR)].
  destruct Hl as [(keys & Hu & Hk)|(Hnone & HuW & keys & Hu & Hk)].
  - destruct (HWs u keys k Hu Hk) as [info Hi].
    destruct (fi_new _ _ _ _ _ _ _ _ HW _ _ _ Hi) as [Hold|(HD & _ & half & Hh & Hg)].
    { by destruct (Hnew info); left. }
    exists info, half. split; [|split; [by left|split; [|done]]].
    + unfold device_info in Hi. apply bind_Some in Hi as (d & Hd & Hdk).
      unfold user_keys. rewrite Hd. done.
    + unfold server_half in *. rewrite (fi_frame _ _ _ _ _ _ _ _ HR u); [done|set_solver].
  - destruct (HRs u keys k Hu Hk) as [info Hi].
    destruct (fi_new _ _ _ _ _ _ _ _ HR _ _ _ Hi) as [Hold|(HD & _ & half & Hh & Hg)].
    { by destruct (Hnew info); right. }
    exists info, half. split; [|split; [by right|done]].
    assert ((wkb_WKeys (bu_wkb b') : keyInfoMap) !! u = None) as Hn'.
    { etrans; [apply (fi_users _ _ _ _ _ _ _ _ HW u)|done]. by apply not_elem_of_dom. }
    unfold user_keys. rewrite Hn'. done.
Qed.

(** C21. Rekeying gives access: when a key bundle is updated, every listed
    device that was not in it recovers the folder's key, from its entry in
    the metadata, its own private key and the half that the key server
    keeps for it. *)
Theorem updateKeyBundle_gives_access keyGen wKeys rKeys ePriv key (s s' : rekeyState DB) wkb rkb wkb' rkb' m st :
  getTLFKeyBundles (rmd_bare (rk_md s)) keyGen = Ok (wkb, rkb) →
  dom wKeys ∩ dom rKeys = (∅ : gset UID) → length key = 32 →
  ldb_map (ks_db (kst_server (rk_keys s))) = Some m →
  updateKeyBundle keyGen wKeys rKeys (box_public ePriv) ePriv key s = (Ok tt, s') →
  getTLFKeyBundles (rmd_bare (rk_md s')) keyGen = Ok (wkb', rkb') → ids_distinct wkb' rkb' →
  listed wkb wKeys rKeys → (∀ i, ¬ entry wkb rkb u k i) →
  ImportKeypairFromKID k = Ok (Some (box_public cryptPrivateKey)) →
  kst_server st = kst_server (rk_keys s') →
  fst (kcache_GetTLFCryptKey (bm_ID (rmd_bare (rk_md s'))) keyGen (kst_cache st)) =
    Err (KeyCacheMissError (bm_ID (rmd_bare (rk_md s'))) keyGen) →
  fst (getTLFCryptKey (rk_md s') keyGen false false st) = Ok key.
Proof.
  intros Hb Hdisj Hlen Hm Hup Hb' Hdist Hl Hnew Himp Hst Hc.
  destruct (updateKeyBundle_Ok _ _ _ _ _ _ _ _ _ _ Hb Hdisj Hup) as (w & r & rand & srv & Hf & Hmd & Hput).
  destruct (getTLFKeyBundles_set _ _ _ _ w r Hb) as [Hset Hgen].
  rewrite Hmd in Hb' |- *. cbn [set_bare rmd_bare] in Hb'. rewrite Hset in Hb'. injection Hb' as -> ->.
  destruct (listed_entry _ _ _ _ _ _ _ _ _ Hf Hdisj Hl Hnew) as (info & half & Hinfo & He & Hh & Hg).
  cbn [bu_wkb bu_rkb] in *.
  destruct (ks_Put_Ok srv _ _ u k half (tki_ServerHalfID info) m Hm Hput Hh (ge_id _ _ _ _ _ _ _ Hg)) as (buf & Hget & Henc).
  { intros u1 k1 half1 Hh1 Hid1. destruct (filled_server _ _ _ _ _ _ _ _ _ _ _ _ Hf Hdisj Hh1) as (i1 & He1 & Hg1).
    assert (tki_ServerHalfID i1 = tki_ServerHalfID info) as Hids.
    { pose proof (ge_id _ _ _ _ _ _ _ Hg1). congruence. }
    destruct (Hdist _ _ _ _ _ _ He1 He Hids) as [-> ->]. congruence. }
  pose proof (getTLFKeyBundles_Ok _ _ _ _ Hset) as (Hpub & [Hg1 Hg2] & _ & _).
  rewrite (getTLFCryptKey_current _ keyGen st info (box_public ePriv) (xorKeys half key) half); cbn [set_bare rmd_bare].
  - f_equal. apply xor_bytes_cancel. rewrite Hlen. apply Hg.
  - done.
  - unfold LatestKeyGeneration. by rewrite Hpub.
  - by rewrite Hmd in Hc.
  - unfold GetTLFCryptKeyInfo. rewrite Hset. cbn [mbind res_bind]. by rewrite Hinfo.
  - unfold GetTLFEphemeralPublicKey, GetTLFCryptKeyInfo. rewrite Hset. cbn [mbind res_bind]. rewrite Hinfo.
    rewrite (ge_index _ _ _ _ _ _ _ Hg). pose proof (bf_epub _ _ _ _ _ _ _ _ _ Hf) as Hep. unfold epub_at in Hep.
    cbn [bu_wkb bu_rkb] in Hep. by rewrite Hep.
  - by eapply good_entry_decrypts.
  - rewrite Hst. eapply kops_Get_Ok; [apply Hg|done|done].
Qed.

Lemma getTLFCryptKey_current_inv (md : RootMetadata) keyGen (st : keyState DB) key :
  TlfID_IsPublic (bm_ID (rmd_bare md)) = false →
  fst (kcache_GetTLFCryptKey (bm_ID (rmd_bare md)) keyGen (kst_cache st)) = Err (KeyCacheMissError (bm_ID (rmd_bare md)) keyGen) →
  fst (getTLFCryptKey md keyGen false false st) = Ok key →
  ∃ info ePub clientHalf serverHalf,
    (FirstValidKeyGen <= keyGen <= LatestKeyGeneration (rmd_bare md))%Z ∧
    GetTLFCryptKeyInfo (rmd_bare md) keyGen u k = Ok (Some info) ∧
    GetTLFEphemeralPublicKey (rmd_bare md) keyGen u k = Ok ePub ∧
    DecryptTLFCryptKeyClientHalf cryptPrivateKey ePub (tki_ClientHalf info) = Ok clientHalf ∧
    kops_GetTLFCryptKeyServerHalf (tki_ServerHalfID info) k (kst_server st) = Ok serverHalf ∧
    key = xorKeys serverHalf clientHalf.
Proof.
  intros Hpub Hc. unfold getTLFCryptKey. rewrite Hpub.
  case_decide as Hg1. { unfold lift_res. cbn [fst]. by intros (? & _ & ?)%bind_Ok. }
  case_decide as Hg2. { unfold lift_res. cbn [fst]. by intros (? & _ & ?)%bind_Ok. }
  destruct st as [srv cache rand]. cbn [kst_cache kst_server kst_rand] in *.
  unfold mbind at 1, go_bind at 1, try, on_cache. cbn [kst_cache kst_server kst_rand].
  destruct (kcache_GetTLFCryptKey _ _ cache) as [rc cache']. cbn [fst] in Hc. subst rc.
  unfold mbind at 1, go_bind at 1, lift_res at 1. rewrite Huser.
  unfold mbind at 1, go_bind at 1, lift_res at 1.
  destruct (client_half_current md keyGen u name) as [[[ch info] kid]|e|p] eqn:Ech; [|done..].
  unfold client_half_current in Ech. rewrite Hkid in Ech. cbn [mbind res_bind] in Ech.
  apply bind_Ok in Ech as ([info'|] & Hinfo & Ech); [|by destruct (localMakeRekeyReadError md keyGen u name)].
  apply bind_Ok in Ech as (ePub & Hep & (ch' & Hdec & [= -> -> ->])%bind_Ok).
  unfold mbind, go_bind, get, lift_res. cbn [kst_server].
  destruct (kops_GetTLFCryptKeyServerHalf (tki_ServerHalfID info) kid srv) as [half|e|p] eqn:Eh; [|done..].
  intros [= <-]. exists info, ePub, ch, half. split; [lia|]. done.
Qed.

(** Puts under other ids do not change a stored half. *)
Lemma ks_Put_other srv (ks ks' : KeyServerLocal DB) id m :
  ldb_map (ks_db ks) = Some m → ks_PutTLFCryptKeyServerHalves srv ks = (Ok tt, ks') →
  (∀ u' k' half' id', server_half srv u' k' = Some half' →
     GetTLFCryptKeyServerHalfID (ToBytes u') (ToBytes k') half' = Ok id' → id' ≠ id) →
  ldb_Get (half_key id) (ks_db ks') = ldb_Get (half_key id) (ks_db ks).
Proof.
  intros Hm Hput Hne. unfold ks_PutTLFCryptKeyServerHalves in Hput.
  destruct (ks_shutdown ks); [done|]. destruct (halves_batch _) as [batch|e|p] eqn:Eb; [|done..].
  destruct (ldb_Write_law _ m batch Hm) as (db & Hw & Hdb). rewrite Hw in Hput. injection Hput as <-.
  cbn [ks_db]. rewrite (ldb_Get_law _ _ _ Hdb), (ldb_Get_law _ _ _ Hm).
  assert (∀ v, (half_key id, v) ∉ batch) as Hout.
  { intros v (u' & d' & k' & half' & id' & Hin%elem_of_map_to_list & Hk' & Hv & Hid' & Hkey%half_key_inj)%(halves_batch_elem _ _ _ _ Eb).
    apply (Hne u' k' half' id'); [|done|done]. apply bind_Some. by exists d'. }
  assert ((put_batch batch m : gmap _ _) !! half_key id = m !! half_key id) as ->; [|done].
  clear -Hout. revert m. induction batch as [|[k' v'] batch IH]; intros m; [done|].
  rewrite put_batch_cons, IH; [|intros v Hv; apply (Hout v); by right].
  apply lookup_insert_ne. intros ->. apply (Hout v'). by left.
Qed.

(** The user stays a writer, or stays a reader. *)
Definition same_role (wkb : TLFWriterKeyBundle) (wKeys rKeys : keyMap) : Prop :=
  (is_Some ((wkb_WKeys wkb : keyInfoMap) !! u) ∧ rKeys !! u = None) ∨
  ((wkb_WKeys wkb : keyInfoMap) !! u = None ∧ wKeys !! u = None).

(** The entry of a device that was there. *)
Lemma kept_entry wKeys rKeys ePub ePriv key b b' srv index info :
  bundles_filled wKeys rKeys ePub ePriv key b b' srv index → same_role (bu_wkb b) wKeys rKeys →
  user_keys (bu_wkb b) (bu_rkb b) u ≫= (λ d, d !! k) = Some info →
  user_keys (bu_wkb b') (bu_rkb b') u ≫= (λ d, d !! k) = Some info ∧
  entry (bu_wkb b') (bu_rkb b') u k info ∧ server_half srv u k = None.
Proof.
  intros [_ _ _ _ (srv0 & HW & HR)] Hrole Hinfo. unfold user_keys in Hinfo.
  assert (server_half srv u k = None) as Hnone.
  { destruct (server_half srv u k) as [half|] eqn:E; [|done]. exfalso.
    destruct Hrole as [[[d Hd] Hr]|[Hw0 Hw]].
    - rewrite Hd in Hinfo. unfold server_half in E.
      rewrite (fi_frame _ _ _ _ _ _ _ _ HR u) in E by (by apply not_elem_of_dom).
      destruct (decide (u ∈ (dom wKeys : gset UID))) as [Hin|Hin].
      + destruct (fi_half _ _ _ _ _ _ _ _ HW u k half Hin E) as [Hn _].
        unfold device_info in Hn. rewrite Hd in Hn. cbn in Hn, Hinfo. congruence.
      + by rewrite (fi_frame _ _ _ _ _ _ _ _ HW u Hin) in E.
    - rewrite Hw0 in Hinfo. destruct (decide (u ∈ (dom rKeys : gset UID))) as [Hin|Hin].
      + destruct (fi_half _ _ _ _ _ _ _ _ HR u k half Hin E) as [Hn _]. unfold device_info in Hn. congruence.
      + unfold server_half in E. rewrite (fi_frame _ _ _ _ _ _ _ _ HR u Hin) in E.
        rewrite (fi_frame _ _ _ _ _ _ _ _ HW u) in E by (by apply not_elem_of_dom). done. }
  destruct Hrole as [[[d Hd] Hr]|[Hw0 Hw]].
  - rewrite Hd in Hinfo. assert (device_info (wkb_WKeys (bu_wkb b')) u k = Some info) as Hi.
    { apply (fi_kept _ _ _ _ _ _ _ _ HW). unfold device_info. by rewrite Hd. }
    split; [|split; [by left|done]]. unfold device_info in Hi. apply bind_Some in Hi as (d' & Hd' & Hk').
    unfold user_keys. by rewrite Hd'.
  - rewrite Hw0 in Hinfo. split; [|split; [right|done]].
    + unfold user_keys.
      assert ((wkb_WKeys (bu_wkb b') : keyInfoMap) !! u = None) as ->.
      { etrans; [apply (fi_users _ _ _ _ _ _ _ _ HW u)|done]. by apply not_elem_of_dom. }
      by apply (fi_kept _ _ _ _ _ _ _ _ HR).
    + by apply (fi_kept _ _ _ _ _ _ _ _ HR).
Qed.

Lemma EphemeralPublicKey_epub md keyGen wkb rkb info e :
  getTLFKeyBundles md keyGen = Ok (wkb, rkb) → user_keys wkb rkb u ≫= (λ d, d !! k) = Some info →
  GetTLFEphemeralPublicKey md keyGen u k = Ok e ↔ epub_at wkb rkb (tki_EPubKeyIndex info) = Some e.
Proof.
  intros Hb Hinfo. unfold GetTLFEphemeralPublicKey, GetTLFCryptKeyInfo. rewrite Hb. cbn [mbind res_bind].
  rewrite Hinfo. unfold epub_at. destruct (if decide _ then _ else _); naive_solver.
Qed.

(** Rekeying takes nothing away: a device that could recover the key of
    a generation, and whose user stays in the same role, recovers the same
    key from the updated bundle. *)
Theorem updateKeyBundle_keeps_access keyGen wKeys rKeys ePub ePriv key key0 (s s' : rekeyState DB)
    wkb rkb wkb' rkb' m st0 st :
  getTLFKeyBundles (rmd_bare (rk_md s)) keyGen = Ok (wkb, rkb) → dom wKeys ∩ dom rKeys = (∅ : gset UID) →
  ldb_map (ks_db (kst_server (rk_keys s))) = Some m →
  updateKeyBundle keyGen wKeys rKeys ePub ePriv key s = (Ok tt, s') →
  getTLFKeyBundles (rmd_bare (rk_md s')) keyGen = Ok (wkb', rkb') → ids_distinct wkb' rkb' →
  same_role wkb wKeys rKeys →
  kst_server st0 = kst_server (rk_keys s) → kst_server st = kst_server (rk_keys s') →
  (∀ c, c ∈ [st0; st] →
     fst (kcache_GetTLFCryptKey (bm_ID (rmd_bare (rk_md s))) keyGen (kst_cache c)) =
       Err (KeyCacheMissError (bm_ID (rmd_bare (rk_md s))) keyGen)) →
  fst (getTLFCryptKey (rk_md s) keyGen false false st0) = Ok key0 →
  fst (getTLFCryptKey (rk_md s') keyGen false false st) = Ok key0.
Proof.
  intros Hb Hdisj Hm Hup Hb' Hdist Hrole Hst0 Hst Hc Hkey0.
  destruct (updateKeyBundle_Ok _ _ _ _ _ _ _ _ _ _ Hb Hdisj Hup) as (w & r & rand & srv & Hf & Hmd & Hput).
  destruct (getTLFKeyBundles_set _ _ _ _ w r Hb) as [Hset Hgen].
  rewrite Hmd in Hb' |- *. cbn [set_bare rmd_bare] in Hb'. rewrite Hset in Hb'. injection Hb' as -> ->.
  pose proof (getTLFKeyBundles_Ok _ _ _ _ Hb) as (Hpub & _ & _ & _).
  destruct (getTLFCryptKey_current_inv _ _ _ _ Hpub (Hc st0 ltac:(left)) Hkey0)
    as (info & e & ch & half & Hlim & Hinfo & Hep & Hdec & Hsrv & ->).
  unfold GetTLFCryptKeyInfo in Hinfo. rewrite Hb in Hinfo. injection Hinfo as Hinfo.
  destruct (kept_entry _ _ _ _ _ _ _ _ _ info Hf Hrole Hinfo) as (Hinfo' & He' & Hnone). cbn [bu_wkb bu_rkb] in *.
  assert (ldb_Get (half_key (tki_ServerHalfID info)) (ks_db (kst_server (rk_keys s'))) =
          ldb_Get (half_key (tki_ServerHalfID info)) (ks_db (kst_server (rk_keys s)))) as Hsame.
  { apply (ks_Put_other srv _ _ _ m Hm Hput). intros u1 k1 half1 id1 Hh1 Hid1 ->.
    destruct (filled_server _ _ _ _ _ _ _ _ _ _ _ _ Hf Hdisj Hh1) as (i1 & He1 & Hg1).
    assert (tki_ServerHalfID i1 = tki_ServerHalfID info) as Hids by (pose proof (ge_id _ _ _ _ _ _ _ Hg1); congruence).
    destruct (Hdist _ _ _ _ _ _ He1 He' Hids) as [-> ->]. congruence. }
  apply (getTLFCryptKey_current _ keyGen st info e); cbn [set_bare rmd_bare].
  - done.
  - by rewrite Hgen.
  - apply (Hc st). right. left.
  - unfold GetTLFCryptKeyInfo. rewrite Hset. cbn [mbind res_bind]. by rewrite Hinfo'.
  - apply (EphemeralPublicKey_epub _ _ _ _ _ _ Hset Hinfo').
    apply (bf_epubs _ _ _ _ _ _ _ _ _ Hf). by apply (EphemeralPublicKey_epub _ _ _ _ _ _ Hb Hinfo).
  - done.
  - rewrite <- Hsrv. unfold kops_GetTLFCryptKeyServerHalf, ks_GetTLFCryptKeyServerHalf. by rewrite Hst, Hst0, Hsame.
Qed.
End device.
