(* ===== verification/BlockOps.v ===== *)
(** * BlockOps: blocks between the cache and the block server ([block_ops.go])

    The key manager and the block server are used through their
    interfaces: [KeyManager] below, which the standard key manager
    implements, and the operations of [BServer.v] over any storage.  A
    block is its encoded part, of a type [C] with a codec, and the encoded
    size that is cached with it and not encoded. *)

From Stdlib Require Import ZArith Lia.
From S2P Require Import Prelude Types Errors GoStd Ids CryptoCommon DataTypes Ops ConflictInfo Handles KeyBundles Metadata BServer BServerSpec LevelDb Lru KeyManager.

(** The part of the interface [KeyManager] that blocks need. *)
Class KeyManager (K : Type) := {
  km_ForEncryption : RootMetadata → go K (list byte);
  km_ForBlockDecryption : RootMetadata → BlockPointer → go K (list byte)
}.

(** A key that was given out for encryption is given out again for the
    blocks of its generation. *)
Class KeyManagerLaws (K : Type) `{KeyManager K} : Prop :=
  km_stable md ptr k (st st' : K) :
    km_ForEncryption md st = (Ok k, st') → bp_KeyGen ptr = LatestKeyGeneration (rmd_bare md) →
    fst (km_ForBlockDecryption md ptr st') = Ok k.

#[global] Instance KeyManagerStandard {DB} `{LevelDB DB, Codec (list byte), Box, KeyConfig} : KeyManager (keyState DB) := {|
  km_ForEncryption := GetTLFCryptKeyForEncryption;
  km_ForBlockDecryption := GetTLFCryptKeyForBlockDecryption
|}.

(** [BlockPointer] as a [BlockContext]. *)
Definition ptr_context (p : BlockPointer) : BlockContext :=
  MkBlockContext (bp_Creator p) (GetWriter p) (bp_RefNonce p).

Record ReadyBlockData := MkReadyBlockData { rbd_buf : list byte; rbd_serverHalf : list byte }.

Definition rbd_GetEncodedSize (r : ReadyBlockData) : Z := zlen (rbd_buf r).

Record opsBlock (C : Type) := MkOpsBlock { ob_content : C; ob_cachedEncodedSize : Z }.
Arguments MkOpsBlock {C} _ _.
Arguments ob_content {C} _.
Arguments ob_cachedEncodedSize {C} _.

Record blockOps (K St : Type) := MkBlockOps { bops_keys : K; bops_server : St }.
Arguments MkBlockOps {K St} _ _.
Arguments bops_keys {K St} _.
Arguments bops_server {K St} _.

Section ops.
Context {K St C : Type} `{KeyManager K, bserverLocalStorage St, SecretBox, Codec encryptedData, Codec C}.

Definition on_bkeys {A} (m : go K A) : go (blockOps K St) A := λ s,
  let '(r, k) := m (bops_keys s) in (r, MkBlockOps k (bops_server s)).
Definition on_bserver {A} (m : go St A) : go (blockOps K St) A := λ s,
  let '(r, t) := m (bops_server s) in (r, MkBlockOps (bops_keys s) t).

Definition bops_Get (md : RootMetadata) (blockPtr : BlockPointer) : go (blockOps K St) (opsBlock C) :=
  got ← try (on_bserver (bserver_Get (bp_ID blockPtr) (bm_ID (rmd_bare md)) (ptr_context blockPtr)));
  match got with
  | inr (BServerErrorBadRequest _) => panic "Bad BServer request detected"
  | inr e => fail e
  | inl (buf, blockServerHalf) =>
      _ ← lift_res (VerifyBlockID buf (bp_ID blockPtr));
      tlfCryptKey ← on_bkeys (km_ForBlockDecryption md blockPtr);
      blockCryptKey ← lift_res (UnmaskBlockCryptKey blockServerHalf tlfCryptKey);
      encryptedBlock ← lift_res (Decode buf);
      content ← lift_res (DecryptBlock encryptedBlock blockCryptKey);
      mret (MkOpsBlock content (to_u32 (zlen buf)))
  end.

(** [Ready], with what it draws from [rand.Reader]: the server half, the
    padding and the nonce.  It returns the block with its new size too. *)
Definition bops_Ready (r0 r1 r2 : list byte) (md : RootMetadata) (block : opsBlock C)
    : go (blockOps K St) (BlockID * Z * ReadyBlockData * opsBlock C) :=
  tlfCryptKey ← on_bkeys (km_ForEncryption md);
  serverHalf ← lift_res (cryptoRandRead r0 32);
  blockKey ← lift_res (UnmaskBlockCryptKey serverHalf tlfCryptKey);
  '(plainSize, encryptedBlock) ← lift_res (EncryptBlock r1 r2 (ob_content block) blockKey);
  buf ← lift_res (Encode encryptedBlock);
  let readyBlockData := MkReadyBlockData buf serverHalf in
  let encodedSize := rbd_GetEncodedSize readyBlockData in
  if decide (encodedSize < plainSize)%Z then fail (TooLowByteCountError plainSize encodedSize)
  else
    id ← lift_res (MakePermanentBlockID buf);
    mret (id, plainSize, readyBlockData, MkOpsBlock (ob_content block) (to_u32 encodedSize)).

Definition bops_Put (md : RootMetadata) (blockPtr : BlockPointer) (readyBlockData : ReadyBlockData)
    : go (blockOps K St) unit :=
  if decide (bp_RefNonce blockPtr = zeroBlockRefNonce) then
    on_bserver (bserver_Put (bp_ID blockPtr) (bm_ID (rmd_bare md)) (ptr_context blockPtr)
      (rbd_buf readyBlockData) (rbd_serverHalf readyBlockData))
  else on_bserver (bserver_AddBlockReference (bp_ID blockPtr) (bm_ID (rmd_bare md)) (ptr_context blockPtr)).

(** The references of each block, in the order of the pointers. *)
Definition contexts_of (ptrs : list BlockPointer) : gmap BlockID (list BlockContext) :=
  foldl (λ m ptr, <[bp_ID ptr := default [] (m !! bp_ID ptr) ++ [ptr_context ptr]]> m) ∅ ptrs.

Definition bops_Delete (md : RootMetadata) (ptrs : list BlockPointer)
    : go (blockOps K St) (gmap BlockID Z * option error) :=
  on_bserver (bserver_RemoveBlockReference (bm_ID (rmd_bare md)) (map_to_list (contexts_of ptrs))).

Definition bops_Archive (md : RootMetadata) (ptrs : list BlockPointer) : go (blockOps K St) unit :=
  on_bserver (bserver_ArchiveBlockReferences (bm_ID (rmd_bare md)) (map_to_list (contexts_of ptrs))).

End ops.

(** ** The standard key manager keeps its keys *)

Section manager.
Context {DB : Type} `{LevelDB DB, Codec (list byte), Box, KeyConfig}.

Lemma lru_Get_twice {A V} `{EqDecision A} (k : A) (c : LRU A V) v c' :
  lru_Get k c = (Some v, c') → fst (lru_Get k c') = Some v.
Proof.
  unfold lru_Get. destruct (assoc k (lru_evictList c)) as [w|] eqn:E; [|done]. intros [= -> <-].
  cbn [lru_evictList assoc]. by rewrite decide_True.
Qed.

#[global] Instance KeyManagerStandard_laws : KeyManagerLaws (keyState DB).
Proof.
  intros md ptr k st st' Henc Hgen. simpl in *.
  unfold GetTLFCryptKeyForEncryption, GetTLFCryptKeyForBlockDecryption in *. rewrite Hgen. clear Hgen.
  set (g := LatestKeyGeneration (rmd_bare md)) in *. unfold getTLFCryptKey in *.
  destruct (TlfID_IsPublic _); [by injection Henc as <- _|].
  case_decide. { unfold lift_res in Henc. by injection Henc as (? & _ & ?)%bind_Ok _. }
  case_decide. { unfold lift_res in Henc. by injection Henc as (? & _ & ?)%bind_Ok _. }
  destruct st as [srv cache rand]. set (id := bm_ID (rmd_bare md)) in *.
  unfold mbind at 1, go_bind at 1, try, on_cache, kcache_GetTLFCryptKey in Henc. cbn [kst_cache kst_server kst_rand] in Henc.
  destruct (lru_Get (id, g) cache) as [[w|] cache'] eqn:Eg.
  - injection Henc as -> <-. unfold mbind at 1, go_bind at 1, try, on_cache, kcache_GetTLFCryptKey.
    cbn [kst_cache kst_server kst_rand]. pose proof (lru_Get_twice _ _ _ _ Eg) as Hg.
    destruct (lru_Get (id, g) cache') as [[w'|] cache'']; [|done]. simpl in Hg. injection Hg as ->. done.
  - assert (cache' = cache) as -> by (unfold lru_Get in Eg; destruct (assoc _ _); naive_solver).
    apply go_bind_Ok in Henc as ([username uid] & s1 & Hu & Henc). injection Hu as Hu <-.
    apply go_bind_Ok in Henc as ([[ch info] kid] & s2 & Hc & Henc). injection Hc as Hc <-.
    apply go_bind_Ok in Henc as (s3 & s4 & [= <- <-] & Henc).
    apply go_bind_Ok in Henc as (half & s5 & Hh & Henc). injection Hh as Hh <-.
    apply go_bind_Ok in Henc as (k' & s6 & Hk & Henc). injection Hk as Hk <-. injection Henc as -> <-.
    unfold mbind, go_bind, try, on_cache, kcache_GetTLFCryptKey, lift_res, get.
    cbn [kst_cache kst_server kst_rand] in *. rewrite Eg, Hu, Hc. cbn [kst_server]. rewrite Hh. unfold UnmaskTLFCryptKey. by rewrite Hk.
Qed.
End manager.

(** ** What is stored is what is read *)

Section roundtrip.
Context {K C : Type} `{KeyManagerLaws K, SecretBox, Codec encryptedData, Codec C}.
Abbreviation state := (blockOps K bserverMemStorage).

(** C17. A block that was made ready and put is read back: [Get] returns
    its contents, with the size of what is stored, after any session of
    block-server calls that neither overwrites the block nor removes this
    reference, when the key manager was not used otherwise. *)
Theorem Ready_Put_Get r0 r1 r2 md (block block' : opsBlock C) ptr id plainSize data (s s1 s2 : state) calls :
  bops_Ready r0 r1 r2 md block s = (Ok (id, plainSize, data, block'), s1) → (plainSize < 2 ^ 32 - 4)%Z →
  bp_ID ptr = id → bp_RefNonce ptr = zeroBlockRefNonce → bp_KeyGen ptr = LatestKeyGeneration (rmd_bare md) →
  bops_Put md ptr data s1 = (Ok tt, s2) → Forall (call_spares id zeroBlockRefNonce) calls →
  ob_content block' = ob_content block ∧
  fst (bops_Get md ptr (MkBlockOps (bops_keys s2) (snd (session calls (bops_server s2))))) = Ok block'.
Proof.
  intros Hready Hsize <- Hnonce Hgen Hput Hcalls. unfold bops_Ready in Hready.
  apply go_bind_Ok in Hready as (tk & t1 & Hk & Hready). unfold on_bkeys in Hk.
  destruct (km_ForEncryption md (bops_keys s)) as [rk ks] eqn:Ek. injection Hk as -> <-.
  apply go_bind_Ok in Hready as (half & t2 & Hh & Hready). injection Hh as Hh <-.
  apply go_bind_Ok in Hready as (bk & t3 & [= <- <-] & Hready).
  apply go_bind_Ok in Hready as ([ps ed] & t4 & He & Hready). injection He as He <-.
  apply go_bind_Ok in Hready as (buf & t5 & Hb & Hready). injection Hb as Hb <-. case_decide; [done|].
  apply go_bind_Ok in Hready as (id' & t6 & Hi & Hready). injection Hi as Hi <-.
  injection Hready as Hid -> <- <- <-. rewrite Hid in Hi. split; [done|].
  unfold bops_Put in Hput. rewrite decide_True in Hput by done. unfold on_bserver in Hput. simpl in Hput.
  unfold bserver_Put in Hput. rewrite decide_False in Hput by (simpl; naive_solver). injection Hput as <-. simpl.
  set (m := <[_ := _]> (bops_server s)).
  assert (holds_ref (bp_ID ptr) zeroBlockRefNonce buf half (snd (session calls m))) as (e & Hm & Hd & Hhalf & _).
  { apply session_keeps.
    - eapply Forall_impl; [exact Hcalls|]. intros c. apply holds_ref_keeps.
    - eexists. unfold m. rewrite lookup_insert_eq. split; [done|]. simpl. by rewrite lookup_singleton_eq. }
  set (M := (session calls m).2) in *. clearbody M. clear m.
  assert (bserver_Get (bp_ID ptr) (bm_ID (rmd_bare md)) (ptr_context ptr) M = (Ok (buf, half), M)) as Hget.
  { unfold bserver_Get, mbind, go_bind. simpl. unfold mem_get. rewrite Hm. simpl. by rewrite Hd, Hhalf. }
  unfold bops_Get, mbind, go_bind, try, on_bserver. cbn [bops_server]. rewrite Hget.
  unfold lift_res. rewrite (proj2 (VerifyBlockID_iff buf (bp_ID ptr)) Hi). unfold on_bkeys. simpl.
  pose proof (km_stable md ptr tk _ _ Ek Hgen) as Hst. destruct (km_ForBlockDecryption md ptr ks) as [r ks']. simpl in Hst. subst r.
  rewrite (Decode_Encode _ _ Hb), (DecryptBlock_Encrypt _ _ _ _ _ _ He Hsize). done.
Qed.

End roundtrip.

(** The block server is not trusted: whatever it answers, when [Get]
    returns a block, the bytes it came from have the block id as their
    hash, and the block is their decryption under the folder's key for the
    generation of the pointer. *)
Theorem bops_Get_verified {K St C : Type} `{KeyManager K, bserverLocalStorage St, SecretBox, Codec encryptedData, Codec C}
    md ptr (block : opsBlock C) (s s' : blockOps K St) :
  bops_Get md ptr s = (Ok block, s') →
  ∃ buf half key ed,
    fst (bserver_Get (bp_ID ptr) (bm_ID (rmd_bare md)) (ptr_context ptr) (bops_server s)) = Ok (buf, half) ∧
    MakePermanentBlockID buf = Ok (bp_ID ptr) ∧
    fst (km_ForBlockDecryption md ptr (bops_keys s)) = Ok key ∧ Decode buf = Ok ed ∧
    DecryptBlock ed (xorKeys half key) = Ok (ob_content block) ∧ ob_cachedEncodedSize block = to_u32 (zlen buf).
Proof.
  unfold bops_Get. intros (got & s1 & Hgot & Hg)%go_bind_Ok. unfold try, on_bserver in Hgot.
  destruct (bserver_Get _ _ _ (bops_server s)) as [[[buf half]|e|p] st]; [|..|done].
  2:{ injection Hgot as <- <-. by destruct e. }
  injection Hgot as <- <-.
  apply go_bind_Ok in Hg as ([] & s2 & Hv & Hg). injection Hv as Hv <-. apply VerifyBlockID_iff in Hv.
  apply go_bind_Ok in Hg as (key & s3 & Hk & Hg). unfold on_bkeys in Hk. simpl in Hk.
  destruct (km_ForBlockDecryption md ptr (bops_keys s)) as [rk ks]. injection Hk as -> <-.
  apply go_bind_Ok in Hg as (bk & s4 & [= <- <-] & Hg).
  apply go_bind_Ok in Hg as (ed & s5 & He & Hg). injection He as He <-.
  apply go_bind_Ok in Hg as (content & s6 & Hc & Hg). injection Hc as Hc <-. injection Hg as <- _.
  by exists buf, half, key, ed.
Qed.
