(* ===== verification/KeyExamples.v ===== *)
(** * KeyExamples: witnesses for the keys

    A box that does not hide anything, a folder with one key generation,
    and the devices of its writer and of a reader. *)

From Stdlib Require Import ZArith Lia.
From S2P Require Import Prelude Types Errors GoStd Ids CryptoCommon DataTypes Ops ConflictInfo Handles KeyBundles Metadata Examples LevelDb Lru KeyManager Rekey KeySpec MDServer MDServerExamples BServer BServerSpec BlockOps.

#[global] Program Instance ex_box : Box := {|
  box_public priv := priv;
  box_Seal message nonce pub priv := message;
  box_Open sealed nonce pub priv := Some sealed;
  box_Overhead := 0;
  ImportKeypairFromKID kid := Ok (Some (ToBytes kid))
|}.
Next Obligation. done. Qed.
Next Obligation. intros. simpl. lia. Qed.

#[global] Instance bytes_codec : Codec (list byte) := {|
  Encode b := Ok b;
  Decode b := Ok b;
  Decode_Encode a buf H := ltac:(by injection H as ->)
|}.
#[global] Instance bytes_total : EncodeTotal (list byte).
Proof. intros b. by eexists. Qed.

(** The device [kid] of user [u]. *)
Definition ex_device (u : UID) (kid : KID) : KeyConfig := {|
  kc_pki := {| CheckUsername _ := true; NormalizeSocialAssertion _ := None; AssertionParse _ := None;
               kb_Resolve n := Ok (n, n); GetNormalizedUsername u := Ok u;
               GetCurrentUserInfo := Ok (u, u); kb_Identify n := Ok (n, n) |};
  GetCryptPublicKeys _ := Ok [kid];
  GetCurrentCryptPublicKey := Ok kid;
  cryptPrivateKey := ToBytes kid;
  GetLatestHandle _ := Ok None
|}.

Definition ex_private_tlf : TlfID := MkTlfID (replicate 15 x01 ++ [TlfIDSuffix]).
Definition ex_private_bare : BareRootMetadata :=
  MkBareRootMetadata
    (MkWriterMetadata (Some [x2a]) "w" [] [MkTLFWriterKeyBundle ∅ [] []] ex_private_tlf NullBranchID 0 10 10 0 [])
    (MkSignatureInfo 1 [] "aa") "w" 0 1%Z zeroMdID [MkTLFReaderKeyBundle ∅ []] [] None.
Definition ex_private : RootMetadata := MkRootMetadata ex_private_bare ex_pmd None zeroMdID.

Definition ex_keys : keyState memdb :=
  MkKeyState (MkKeyServerLocal (Some ∅) false) (MkLRU 10 []) (replicate 200 x07).
Definition ex_rekey : rekeyState memdb := MkRekeyState ex_private ex_keys.

Definition ex_key : list byte := replicate 32 x2c.
Definition ex_wKeys : gmap UID (list KID) := {["w" := ["aa"]]}.
Definition ex_rKeys : gmap UID (list KID) := {["r" := ["bb"]]}.

(** *** One device of a writer is given the key *)

Definition ex_half : list byte := replicate 32 x07.
Definition ex_id_spec (id : HMAC) : Prop := GetTLFCryptKeyServerHalfID (ToBytes "w") (ToBytes "aa") ex_half = Ok id.

Lemma ex_id : ∃ id, ex_id_spec id.
Proof. destruct (DefaultHMAC_total ex_half (ToBytes "w" ++ ToBytes "aa")) as (id & Hid & _). by exists id. Qed.

Definition ex_info (id : HMAC) : TLFCryptKeyInfo :=
  MkTLFCryptKeyInfo (MkEncryptedData EncryptionSecretbox (xorKeys ex_half ex_key) (replicate 24 x07)) id 0.
Definition ex_infos (id : HMAC) : keyInfoMap := {["w" := {["aa" := ex_info id]}]}.

Lemma ex_fill_device id : ex_id_spec id →
  fill_device "w" ex_key (replicate 32 x09) 0 "aa" (MkFillState (replicate 200 x07) (<["w" := ∅]> ∅) ∅) =
    (Ok tt, MkFillState (replicate 144 x07) (ex_infos id) {["aa" := ex_half]}).
Proof.
  intros Hid. unfold fill_device.
  assert (∀ s, cryptoRandRead (fs_rand s) 32 = Ok ex_half → MakeRandomTLFCryptKeyServerHalf s =
    (Ok ex_half, MkFillState (drop 32 (fs_rand s)) (fs_keys s) (fs_server s))) as H1.
  { intros s Hs. unfold MakeRandomTLFCryptKeyServerHalf, rand_next. by rewrite Hs. }
  assert (∀ s, cryptoRandRead (fs_rand s) 24 = Ok (replicate 24 x07) → rand_next 24 s =
    (Ok (replicate 24 x07), MkFillState (drop 24 (fs_rand s)) (fs_keys s) (fs_server s))) as H2.
  { intros s Hs. unfold rand_next. by rewrite Hs. }
  unfold mbind, go_bind, get, lift_res. cbn [fs_keys].
  replace (device_info (<["w" := ∅]> ∅) "w" "aa") with (@None TLFCryptKeyInfo) by reflexivity.
  rewrite H1 by reflexivity. unfold MaskTLFCryptKey. cbv beta iota zeta. rewrite H2 by reflexivity.
  replace (EncryptTLFCryptKeyClientHalf (replicate 24 x07) (replicate 32 x09) "aa" (xorKeys ex_half ex_key))
    with (@Ok encryptedData (MkEncryptedData EncryptionSecretbox (xorKeys ex_half ex_key) (replicate 24 x07))) by reflexivity.
  unfold ex_id_spec in Hid. rewrite Hid. reflexivity.
Qed.

Definition ex_wkb (id : HMAC) : TLFWriterKeyBundle := MkTLFWriterKeyBundle (ex_infos id) [] [replicate 32 x09].
Definition ex_srv : serverKeyMap := {["w" := {["aa" := ex_half]}]}.

Lemma ex_fill_user id : ex_id_spec id →
  fill_user 0 (replicate 32 x09) ex_key ("w", ["aa"]) (MkFillUsers (replicate 200 x07) ∅ ∅) =
    (Ok tt, MkFillUsers (replicate 144 x07) (ex_infos id) ex_srv).
Proof.
  intros Hid. unfold fill_user, fillInDeviceInfo, go_for. unfold modify, mbind, go_bind, get. cbn [fu_keys fu_rand fu_server].
  replace ((∅ : keyInfoMap) !! "w") with (@None (gmap KID TLFCryptKeyInfo)) by reflexivity.
  match goal with |- context [fill_device ?a ?b ?c ?d ?e ?s] =>
    replace (fill_device a b c d e s) with (Ok tt, MkFillState (replicate 144 x07) (ex_infos id) {["aa" := ex_half]})
      by (symmetry; exact (ex_fill_device id Hid)) end. reflexivity.
Qed.

Lemma ex_fill id : ex_id_spec id →
  fillInDevices (map_to_list ex_wKeys) (map_to_list (∅ : keyMap)) (replicate 32 x09) (replicate 32 x09) ex_key
    (MkBundles (MkTLFWriterKeyBundle ∅ [] []) (MkTLFReaderKeyBundle ∅ []) (replicate 200 x07)) =
  (Ok ex_srv, MkBundles (ex_wkb id) (MkTLFReaderKeyBundle ∅ []) (replicate 144 x07)).
Proof.
  intros Hid. replace (map_to_list ex_wKeys) with [("w", ["aa"])] by reflexivity.
  unfold fillInDevices. cbn [bu_wkb bu_rkb bu_rand].
  rewrite decide_False by done. unfold fillInDevicesAndServerMap, go_for. cbn [wkb_WKeys].
  unfold mbind, go_bind.
  match goal with |- context [fill_user ?a ?b ?c ?d ?s] =>
    replace (fill_user a b c d s) with (Ok tt, MkFillUsers (replicate 144 x07) (ex_infos id) ex_srv)
      by (symmetry; exact (ex_fill_user id Hid)) end. reflexivity.
Qed.

Definition ex_db (id : HMAC) : memdb := Some {[half_key id := ex_half]}.
Definition ex_server (id : HMAC) : KeyServerLocal memdb := MkKeyServerLocal (ex_db id) false.
Definition ex_rekey' (id : HMAC) : rekeyState memdb :=
  MkRekeyState (set_bare (set_bundles FirstValidKeyGen (ex_wkb id) (MkTLFReaderKeyBundle ∅ [])) ex_private)
    (MkKeyState (ex_server id) (MkLRU 10 []) (replicate 144 x07)).

Lemma ex_update id : ex_id_spec id →
  updateKeyBundle FirstValidKeyGen ex_wKeys ∅ (replicate 32 x09) (replicate 32 x09) ex_key ex_rekey =
    (Ok tt, ex_rekey' id).
Proof.
  intros Hid. unfold updateKeyBundle, mbind, go_bind, get, lift_res.
  replace (getTLFKeyBundles (rmd_bare (rk_md ex_rekey)) FirstValidKeyGen)
    with (Ok (MkTLFWriterKeyBundle ∅ [] [], MkTLFReaderKeyBundle ∅ [])) by reflexivity.
  unfold fill_bundles. change (kst_rand (rk_keys ex_rekey)) with (replicate 200 x07). rewrite (ex_fill id Hid).
  unfold on_keys, on_server, ks_PutTLFCryptKeyServerHalves. cbn [rk_keys kst_server ks_shutdown ex_rekey ex_keys].
  replace (halves_batch (map_to_list (ex_srv : gmap UID (gmap KID (list byte))))) with (Ok [(half_key id, ex_half)]).
  { reflexivity. }
  replace (map_to_list (ex_srv : gmap UID (gmap KID (list byte)))) with [("w", {["aa" := ex_half]} : gmap KID (list byte))] by reflexivity.
  unfold halves_batch. replace (map_to_list ({["aa" := ex_half]} : gmap KID (list byte))) with [("aa", ex_half)] by reflexivity.
  unfold user_batch. unfold ex_id_spec in Hid. unfold mbind, res_bind. cbn [Encode bytes_codec]. rewrite Hid. reflexivity.
Qed.

Lemma ex_distinct id epubs : ids_distinct (MkTLFWriterKeyBundle (ex_infos id) [] epubs) (MkTLFReaderKeyBundle ∅ []).
Proof.
  assert (∀ u k i, entry (MkTLFWriterKeyBundle (ex_infos id) [] epubs) (MkTLFReaderKeyBundle ∅ []) u k i → u = "w" ∧ k = "aa") as Hone.
  { intros u k i [Hi|Hi]; unfold device_info in Hi; apply bind_Some in Hi as (d & Hd & Hk); [|done].
    cbn [wkb_WKeys] in Hd. unfold ex_infos in Hd. apply (lookup_singleton_Some (M := gmap UID)) in Hd as [<- <-].
    by apply lookup_singleton_Some in Hk as [<- _]. }
  intros u k i u' k' i' [-> ->]%Hone [-> ->]%Hone _. done.
Qed.

Lemma ex_bundles id : getTLFKeyBundles (rmd_bare (rk_md (ex_rekey' id))) FirstValidKeyGen = Ok (ex_wkb id, MkTLFReaderKeyBundle ∅ []).
Proof. reflexivity. Qed.

(** The writer's device recovers the key it was given. *)
Lemma updateKeyBundle_gives_access_witness : ∃ id : HMAC,
  fst (updateKeyBundle FirstValidKeyGen ex_wKeys ∅ (replicate 32 x09) (replicate 32 x09) ex_key ex_rekey) = Ok tt ∧
  fst (@getTLFCryptKey _ _ _ _ (ex_device "w" "aa") (rk_md (ex_rekey' id)) FirstValidKeyGen false false
         (rk_keys (ex_rekey' id))) = Ok ex_key.
Proof.
  destruct ex_id as [id Hid]. exists id. rewrite (ex_update id Hid). split; [reflexivity|].
  apply (@updateKeyBundle_gives_access memdb _ _ _ _ _ (ex_device "w" "aa") "w" "w" "aa" eq_refl eq_refl
    FirstValidKeyGen ex_wKeys ∅ (replicate 32 x09) ex_key ex_rekey (ex_rekey' id)
    (MkTLFWriterKeyBundle ∅ [] []) (MkTLFReaderKeyBundle ∅ []) (ex_wkb id) (MkTLFReaderKeyBundle ∅ []) ∅).
  - reflexivity.
  - reflexivity.
  - reflexivity.
  - reflexivity.
  - exact (ex_update id Hid).
  - exact (ex_bundles id).
  - exact (ex_distinct id _).
  - left. exists ["aa"]. split; [reflexivity|left].
  - intros i [Hi|Hi]; discriminate Hi.
  - reflexivity.
  - reflexivity.
  - reflexivity.
Defined.

(** *** A second key is put for the same devices *)

Definition ex_rekey'' (id : HMAC) : rekeyState memdb :=
  snd (updateKeyBundle FirstValidKeyGen ex_wKeys ∅ (replicate 32 x0a) (replicate 32 x0a) (replicate 32 x0b) (ex_rekey' id)).

Lemma ex_update' id :
  updateKeyBundle FirstValidKeyGen ex_wKeys ∅ (replicate 32 x0a) (replicate 32 x0a) (replicate 32 x0b) (ex_rekey' id) = (Ok tt, ex_rekey'' id).
Proof. reflexivity. Qed.

Lemma ex_read id : ex_id_spec id →
  fst (@getTLFCryptKey _ _ _ _ (ex_device "w" "aa") (rk_md (ex_rekey' id)) FirstValidKeyGen false false
         (rk_keys (ex_rekey' id))) = Ok ex_key.
Proof.
  intros Hid. etrans; [apply (@getTLFCryptKey_current memdb _ _ _ (ex_device "w" "aa") "w" "w" "aa" eq_refl eq_refl
    _ _ _ (ex_info id) (replicate 32 x09) (xorKeys ex_half ex_key) ex_half)|reflexivity].
  - reflexivity.
  - split; discriminate.
  - reflexivity.
  - reflexivity.
  - reflexivity.
  - reflexivity.
  - apply (@kops_Get_Ok memdb _ _ (ex_device "w" "aa") "w" "w" "aa" eq_refl id ex_half ex_half); [exact Hid| |reflexivity].
    exact (f_equal (λ o, match o with Some v => Ok v | None => Err LeveldbErrNotFound end)
             (lookup_singleton_eq (M := gmap (list byte)) (half_key id) ex_half)).
Qed.

Lemma updateKeyBundle_keeps_access_witness : ∃ id : HMAC,
  fst (@getTLFCryptKey _ _ _ _ (ex_device "w" "aa") (rk_md (ex_rekey'' id)) FirstValidKeyGen false false
         (rk_keys (ex_rekey'' id))) = Ok ex_key.
Proof.
  destruct ex_id as [id Hid]. exists id.
  apply (@updateKeyBundle_keeps_access memdb _ _ _ _ (ex_device "w" "aa") "w" "w" "aa" eq_refl eq_refl
    FirstValidKeyGen ex_wKeys ∅ (replicate 32 x0a) (replicate 32 x0a) (replicate 32 x0b) ex_key
    (ex_rekey' id) (ex_rekey'' id) (ex_wkb id) (MkTLFReaderKeyBundle ∅ [])
    (MkTLFWriterKeyBundle (ex_infos id) [] [replicate 32 x09; replicate 32 x0a]) (MkTLFReaderKeyBundle ∅ [])
    {[half_key id := ex_half]} (rk_keys (ex_rekey' id))).
  - reflexivity.
  - reflexivity.
  - reflexivity.
  - exact (ex_update' id).
  - reflexivity.
  - exact (ex_distinct id _).
  - left. split; [by eexists|reflexivity].
  - reflexivity.
  - reflexivity.
  - intros c Hc. apply elem_of_cons in Hc as [->|Hc]; [reflexivity|]. apply list_elem_of_singleton in Hc as ->. reflexivity.
  - exact (ex_read id Hid).
Defined.

(** *** A block of the folder is stored and read back *)

#[local] Program Instance ex_secretbox : SecretBox := {| Seal m _ _ := m; Open c _ _ := Some c |}.
Next Obligation. done. Qed.

#[global] Program Instance ex_encrypted : Codec encryptedData := {|
  Encode ed := if decide (ed_Version ed = 1%Z ∧ length (ed_Nonce ed) = 24)
               then Ok (ed_Nonce ed ++ ed_EncryptedData ed) else Err (ErrorString "encode");
  Decode buf := Ok (MkEncryptedData 1 (drop 24 buf) (take 24 buf))
|}.
Next Obligation.
  intros [v d n] buf. simpl. case_decide as Hd; [|done]. destruct Hd as [-> Hn]. intros [= <-].
  by rewrite drop_app_length', take_app_length'.
Qed.

Definition ex_content : opsBlock (list byte) := MkOpsBlock [x0a; x0b] 0.
Definition ex_ready (id : HMAC) := @bops_Ready _ bserverMemStorage _ (@KeyManagerStandard _ _ _ _ (ex_device "w" "aa"))
  _ _ _ ex_half (replicate 256 x00) (replicate 24 x01) (rk_md (ex_rekey' id)) ex_content
  (MkBlockOps (rk_keys (ex_rekey' id)) ∅).
Definition ex_buf : list byte := replicate 24 x01 ++ (put_le 4 2 ++ [x0a; x0b]) ++ replicate 254 x00.
Definition ex_ptr_of (b : BlockID) : BlockPointer := MkBlockPointer b FirstValidKeyGen 1%Z "w" EmptyString zeroBlockRefNonce.

Lemma ex_ready_Ok id : ex_id_spec id → ∃ b k1,
  MakePermanentBlockID ex_buf = Ok b ∧
  @km_ForEncryption _ (@KeyManagerStandard _ _ _ _ (ex_device "w" "aa")) (rk_md (ex_rekey' id))
    (rk_keys (ex_rekey' id)) = (Ok ex_key, k1) ∧
  ex_ready id = (Ok (b, 2%Z, MkReadyBlockData ex_buf ex_half, MkOpsBlock [x0a; x0b] 284), MkBlockOps k1 ∅).
Proof.
  intros Hid. pose proof (ex_read id Hid) as Hr.
  destruct (DefaultHash_total ex_buf) as (h & Hh & _).
  assert (MakePermanentBlockID ex_buf = Ok (MkBlockID h)) as Hb by (unfold MakePermanentBlockID; by rewrite Hh).
  destruct (@getTLFCryptKey _ _ _ _ (ex_device "w" "aa") (rk_md (ex_rekey' id)) FirstValidKeyGen false false
         (rk_keys (ex_rekey' id))) as [r st'] eqn:E. cbn [fst] in Hr. subst r.
  assert (@km_ForEncryption _ (@KeyManagerStandard _ _ _ _ (ex_device "w" "aa")) (rk_md (ex_rekey' id))
    (rk_keys (ex_rekey' id)) = (Ok ex_key, st')) as Hk by exact E.
  exists (MkBlockID h), st'. split; [exact Hb|]. split; [exact Hk|].
  unfold ex_ready, bops_Ready, mbind, go_bind, on_bkeys. cbn [bops_keys]. rewrite Hk.
  unfold lift_res. replace (cryptoRandRead ex_half 32) with (Ok ex_half) by reflexivity. unfold UnmaskBlockCryptKey.
  replace (EncryptBlock (replicate 256 x00) (replicate 24 x01) (ob_content ex_content) (xorKeys ex_half ex_key))
    with (Ok (2%Z, MkEncryptedData 1 ((put_le 4 2 ++ [x0a; x0b]) ++ replicate 254 x00) (replicate 24 x01))) by reflexivity.
  replace (Encode (MkEncryptedData 1 ((put_le 4 2 ++ [x0a; x0b]) ++ replicate 254 x00) (replicate 24 x01)))
    with (Ok ex_buf) by reflexivity.
  rewrite decide_False by (vm_compute; congruence). cbn [rbd_buf]. rewrite Hb. reflexivity.
Qed.

Definition ex_stored (b : BlockID) : bserverMemStorage :=
  <[b := MkBlockEntry ex_buf {[zeroBlockRefNonce := liveBlockRef]} ex_half ex_private_tlf]> ∅.
Definition ex_get (id : HMAC) (b : BlockID) (k : keyState memdb) :=
  @bops_Get _ bserverMemStorage _ (@KeyManagerStandard _ _ _ _ (ex_device "w" "aa")) _ _ _ bytes_codec
    (rk_md (ex_rekey' id)) (ex_ptr_of b) (MkBlockOps k (snd (session [] (ex_stored b)))).

Lemma Ready_Put_Get_witness : ∃ (id : HMAC) b k1, fst (ex_get id b k1) = Ok (MkOpsBlock [x0a; x0b] 284).
Proof.
  destruct ex_id as [id Hid]. destruct (ex_ready_Ok id Hid) as (b & k1 & Hb & _ & Hr).
  exists id, b, k1.
  refine (proj2 (@Ready_Put_Get _ _ (@KeyManagerStandard _ _ _ _ (ex_device "w" "aa")) _ _ _ _
    ex_half (replicate 256 x00) (replicate 24 x01) (rk_md (ex_rekey' id)) ex_content (MkOpsBlock [x0a; x0b] 284)
    (ex_ptr_of b) b 2 (MkReadyBlockData ex_buf ex_half) _ (MkBlockOps k1 ∅) (MkBlockOps k1 (ex_stored b)) []
    Hr _ eq_refl eq_refl _ _ _)).
  - lia.
  - reflexivity.
  - reflexivity.
  - constructor.
Defined.

Lemma ex_get_Ok id b k1 : MakePermanentBlockID ex_buf = Ok b →
  @km_ForEncryption _ (@KeyManagerStandard _ _ _ _ (ex_device "w" "aa")) (rk_md (ex_rekey' id))
    (rk_keys (ex_rekey' id)) = (Ok ex_key, k1) →
  ∃ s', ex_get id b k1 = (Ok (MkOpsBlock [x0a; x0b] 284), s').
Proof.
  intros Hb Hk.
  pose proof (@km_stable _ _ (@KeyManagerStandard_laws _ _ _ _ (ex_device "w" "aa")) _ (ex_ptr_of b) _ _ _ Hk eq_refl) as Hst.
  destruct (@km_ForBlockDecryption _ (@KeyManagerStandard _ _ _ _ (ex_device "w" "aa")) (rk_md (ex_rekey' id)) (ex_ptr_of b) k1)
    as [r k2] eqn:E. cbn [fst] in Hst. subst r.
  assert (∀ tlf ctx, bserver_Get b tlf ctx (ex_stored b) = (Ok (ex_buf, ex_half), ex_stored b)) as Hget.
  { intros tlf ctx. unfold bserver_Get, mbind, go_bind, storage_get, mem_storage, mem_get.
    replace (ex_stored b !! b) with (Some (MkBlockEntry ex_buf {[zeroBlockRefNonce := liveBlockRef]} ex_half ex_private_tlf));
      [reflexivity|]. symmetry. apply lookup_insert_eq. }
  eexists. unfold ex_get, bops_Get, mbind, go_bind, try, on_bserver. cbn [bops_server session].
  change (bp_ID (ex_ptr_of b)) with b. rewrite Hget. unfold lift_res.
  rewrite (proj2 (VerifyBlockID_iff ex_buf b) Hb). unfold on_bkeys. cbn [bops_keys]. rewrite E. reflexivity.
Qed.

Lemma bops_Get_verified_witness : ∃ (id : HMAC) b buf, ex_id_spec id ∧ MakePermanentBlockID buf = Ok b.
Proof.
  destruct ex_id as [id Hid]. destruct (ex_ready_Ok id Hid) as (b & k1 & Hb & Hk & _).
  destruct (ex_get_Ok id b k1 Hb Hk) as [s' Hg].
  destruct (@bops_Get_verified _ _ _ _ _ _ _ _ _ _ _ _ _ Hg) as (buf & half & key & ed & _ & Hv & _).
  exists id, b, buf. split; [exact Hid|exact Hv].
Defined.
