(* ===== verification/MDOpsStd.v ===== *)
(** * MDOpsStd: the metadata operations ([md_ops.go])

    What comes from the metadata server is verified and decrypted before
    anyone sees it, and what goes there is encrypted and signed.  A
    [*RootMetadataSigned] is the object of its metadata on the heap of
    [MDUtil.v] with the signature and the server's timestamp.

    To check who signed metadata whose writer part was copied,
    [verifyWriterKey] fetches older metadata through the same operations;
    the operations below take those of the recursive calls, an instance of
    [MDOps], and [MDOpsStandard fuel] are the operations with at most
    [fuel] nested fetches, beyond which the stack overflows. *)

From Stdlib Require Import ZArith Lia.
From S2P Require Import Prelude Types Errors GoStd Ids CryptoCommon DataTypes Ops ConflictInfo Handles KeyBundles Metadata LevelDb MDServer Lru KeyManager Rekey MDUtil.

(** ** Signatures *)

(** NaCl signatures, as [libkb] has them. *)
Class NaclSigning := {
  nacl_valid : KID → bool;
  nacl_Verify : KID → list byte → list byte → bool;
  nacl_Sign : list byte → list byte → list byte;
  nacl_public : list byte → KID;
  nacl_public_valid priv : nacl_valid (nacl_public priv) = true;
  nacl_public_nonempty priv : nacl_public priv ≠ EmptyString;
  nacl_Sign_length priv msg : length (nacl_Sign priv msg) = 64;
  nacl_Verify_Sign priv msg : nacl_Verify (nacl_public priv) msg (nacl_Sign priv msg) = true
}.

Definition SigED25519 : Z := 1.

Section signatures.
Context `{NaclSigning}.

Definition Verify (msg : list byte) (sigInfo : SignatureInfo) : res unit :=
  if decide (sig_Version sigInfo ≠ SigED25519) then Err (UnknownSigVer (sig_Version sigInfo))
  else if negb (nacl_valid (sig_VerifyingKey sigInfo)) then Err KeyCannotVerifyError
  else if decide (length (sig_Signature sigInfo) ≠ 64) then Err VerificationError
  else if negb (nacl_Verify (sig_VerifyingKey sigInfo) msg (sig_Signature sigInfo)) then Err VerificationError
  else Ok tt.

Definition Sign (signingKey msg : list byte) : res SignatureInfo :=
  Ok (MkSignatureInfo SigED25519 (nacl_Sign signingKey msg) (nacl_public signingKey)).
End signatures.

(** The configuration: the keys of this device, and what the directory
    knows about signing keys at a point in time. *)
Class MDConfig := {
  mc_keys :: KeyConfig;
  HasVerifyingKey : UID → KID → Z → res unit;
  signingKey : list byte
}.

Record mdWorld (DB : Type) := MkMdWorld { mw_keys : keyState DB; mw_server : MDServerLocal DB }.
Arguments MkMdWorld {DB} _ _.
Arguments mw_keys {DB} _.
Arguments mw_server {DB} _.

(** A [*RootMetadataSigned]. *)
Record rmdSigned := MkRmdSigned {
  rs_MD : nat;
  rs_SigInfo : SignatureInfo;
  rs_timestamp : Z
}.

Section ops.
Context {DB : Type} `{LevelDB DB, Codec (list byte), Box, MDConfig, SecretBox, Codec encryptedData, Codec PrivateMetadata,
  NaclSigning, Codec WriterMetadata, Codec SignatureInfo, Codec (gmap KID TLFCryptKeyInfo), Codec BareRootMetadata,
  Codec BareTlfHandle, Codec BranchID, Codec mdBlockLocal}.
Abbreviation fetch := (mdFetch (mdWorld DB)).

Definition on_mdkeys {A} (f : go (keyState DB) A) : go fetch A := λ s,
  let '(r, k) := f (mw_keys (mf_world s)) in
  (r, MkMdFetch (mf_mds s) (mf_cache s) (MkMdWorld k (mw_server (mf_world s)))).
Definition on_mdserver {A} (f : go (MDServerLocal DB) A) : go fetch A := λ s,
  let '(r, m) := f (mw_server (mf_world s)) in
  (r, MkMdFetch (mf_mds s) (mf_cache s) (MkMdWorld (mw_keys (mf_world s)) m)).
Definition read_server {A} (f : MDServerLocal DB → res A) : go fetch A := λ s,
  (f (mw_server (mf_world s)), s).

Definition update_md (r : nat) (f : RootMetadata → RootMetadata) : go fetch unit :=
  modify (λ s, MkMdFetch (alter f r (mf_mds s)) (mf_cache s) (mf_world s)).
Definition new_md (md : RootMetadata) : go fetch nat := λ s,
  (Ok (length (mf_mds s)), MkMdFetch (mf_mds s ++ [md]) (mf_cache s) (mf_world s)).

(** What the server returned, as new objects. *)
Definition received (b : mdBlockLocal) : go fetch rmdSigned :=
  r ← new_md (MkRootMetadata (rmds_MD (mbl_MD b)) zeroPrivateMetadata None zeroMdID);
  mret (MkRmdSigned r (rmds_SigInfo (mbl_MD b)) (mbl_Timestamp b)).
Fixpoint received_all (l : list mdBlockLocal) : go fetch (list rmdSigned) :=
  match l with
  | [] => mret []
  | b :: l => r ← received b; rs ← received_all l; mret (r :: rs)
  end.

(** [MakeTlfHandle], the results in the order of the requests. *)
Definition make_handle (bareHandle : BareTlfHandle) : res TlfHandle :=
  MakeTlfHandle bareHandle (arrivals_of (bare_writers bareHandle) (bare_readers bareHandle)).

(** ** Verification *)

(** [MDMismatchError] for the folder of the handle; the text is left out. *)
Definition mismatch {A} (handle : TlfHandle) : res A :=
  path ← GetCanonicalPath handle; Err (MDMismatchError path).

Definition convertVerifyingKeyError (md : RootMetadata) (err : error) : res error :=
  match err with
  | KeyNotFoundError _ =>
      tlf ← (h ← GetTlfHandle md; GetCanonicalPath h);
      let uid := wm_LastModifyingWriter (bm_WriterMetadata (rmd_bare md)) in
      let writer := match GetNormalizedUsername uid with Ok n => n | _ => ("uid: " +:+ uid)%string end in
      Ok (UnverifiableTlfUpdateError writer err)
  | _ => Ok err
  end.

(** [HasVerifyingKey], with the better error. *)
Definition check_key (md : RootMetadata) (uid : UID) (key : KID) (timestamp : Z) : res unit :=
  match HasVerifyingKey uid key timestamp with
  | Err e => raise (convertVerifyingKeyError md e)
  | r => r
  end.

Definition VerifyWriterMetadata (md : BareRootMetadata) : res unit :=
  buf ← Encode (bm_WriterMetadata md); Verify buf (bm_WriterMetadataSigInfo md).

Definition VerifyRootMetadata (md : BareRootMetadata) (sigInfo : SignatureInfo) : res unit :=
  buf ← Encode md; Verify buf sigInfo.

Section rec.
(** The operations of the recursive calls. *)
Context `{MDOps (mdWorld DB)}.

(** The most recent metadata that was not copied, from the last one back. *)
Fixpoint last_uncopied (prevMDs : list nat) : go fetch (option RootMetadata) :=
  match prevMDs with
  | [] => mret None
  | r :: prevMDs =>
      later ← last_uncopied prevMDs;
      match later with
      | Some md => mret (Some md)
      | None =>
          md ← deref r;
          mret (if IsWriterMetadataCopiedSet (rmd_bare md) then None else Some md)
      end
  end.

(** The loop of [verifyWriterKey]: each round goes back below the revision
    the last one started from, so [prevHead] rounds are enough. *)
Fixpoint verify_copied (rounds : nat) (md : BareRootMetadata) (prevHead : MetadataRevision) : go fetch unit :=
  match rounds with
  | O => panic "does not return"
  | S rounds =>
      let startRev := (prevHead - maxMDsAtATime + 1)%Z in
      let startRev := if decide (startRev < MetadataRevisionInitial)%Z then MetadataRevisionInitial else startRev in
      prevMDs ← getMDRange (bm_ID md) (bm_BID md) startRev prevHead (MergedStatus md);
      found ← last_uncopied prevMDs;
      match found with
      | Some prev =>
          ok ← lift_res (CodecEqual (bm_WriterMetadataSigInfo md) (bm_WriterMetadataSigInfo (rmd_bare prev)));
          if (ok : bool) then mret tt
          else fail (Errorf "Previous uncopied writer MD sig info doesn't match copied revision")
      | None =>
          if decide (zlen prevMDs < maxMDsAtATime)%Z then fail (Errorf "Couldn't find uncopied MD previous to revision")
          else
            match prevMDs with
            | [] => panic "index out of range"
            | r :: _ => md0 ← deref r; verify_copied rounds md (bm_Revision (rmd_bare md0) - 1)%Z
            end
      end
  end.

Definition verifyWriterKey (rmds : rmdSigned) : go fetch unit :=
  md ← deref (rs_MD rmds);
  let bare := rmd_bare md in
  if negb (IsWriterMetadataCopiedSet bare) then
    lift_res (check_key md (wm_LastModifyingWriter (bm_WriterMetadata bare))
                (sig_VerifyingKey (bm_WriterMetadataSigInfo bare)) (rs_timestamp rmds))
  else verify_copied (S (Z.to_nat (bm_Revision bare))) bare (bm_Revision bare - 1)%Z.

(** [decryptMDPrivateData] of the object [r] with the keys of [k]. *)
Definition decrypt_md (r k : nat) : go fetch unit :=
  md ← deref r;
  keys ← deref k;
  data ← on_mdkeys (decryptMDPrivateData md keys);
  update_md r (set_data data).

Definition processMetadata (handle : TlfHandle) (rmds : rmdSigned) : go fetch unit :=
  if sig_IsNil (rs_SigInfo rmds) then fail (ErrorString "Missing RootMetadata signature")
  else
    _ ← update_md (rs_MD rmds) (λ md, MkRootMetadata (rmd_bare md) (rmd_data md) (Some handle) (rmd_mdID md));
    md ← deref (rs_MD rmds);
    let bare := rmd_bare md in
    _ ← lift_res (if negb (handle_IsWriter (th_Bare handle) (wm_LastModifyingWriter (bm_WriterMetadata bare)))
                  then mismatch handle
                  else if negb (handle_IsReader (th_Bare handle) (bm_LastModifyingUser bare))
                  then mismatch handle else Ok tt);
    _ ← verifyWriterKey rmds;
    _ ← lift_res (VerifyWriterMetadata bare);
    _ ← lift_res (check_key md (bm_LastModifyingUser bare) (sig_VerifyingKey (rs_SigInfo rmds)) (rs_timestamp rmds));
    _ ← lift_res (VerifyRootMetadata bare (rs_SigInfo rmds));
    decrypt_md (rs_MD rmds) (rs_MD rmds).

Definition processMetadataWithID (id : TlfID) (bid : BranchID) (handle : TlfHandle) (rmds : rmdSigned)
    : go fetch unit :=
  md ← deref (rs_MD rmds);
  if decide (id ≠ bm_ID (rmd_bare md)) then fail (MDMismatchError "MD contained unexpected folder id")
  else if decide (bid ≠ bm_BID (rmd_bare md)) then fail (MDMismatchError "MD contained unexpected branch id")
  else processMetadata handle rmds.

(** The check of [processRange] that [md] follows [prev], whose id is
    [prevRoot]. *)
Definition check_link (handle : TlfHandle) (prev : option (MdID * BareRootMetadata)) (md : BareRootMetadata) : res unit :=
  match prev with
  | None => Ok tt
  | Some (prevRoot, prevMD) =>
      if decide (bm_Revision md ≠ bm_Revision prevMD + 1)%Z then mismatch handle
      else if decide (bm_PrevRoot md ≠ prevRoot) then mismatch handle
      else if IsFinal prevMD then mismatch handle
      else Ok tt
  end.

Fixpoint process_chain (id : TlfID) (bid : BranchID) (prev : option (MdID * BareRootMetadata))
    (rmds : list rmdSigned) : go fetch (list nat) :=
  match rmds with
  | [] => mret []
  | r :: rmds =>
      md ← deref (rs_MD r);
      currRoot ← lift_res (fst (MetadataID md));
      _ ← update_md (rs_MD r) (λ md, snd (MetadataID md));
      bareHandle ← lift_res (makeBareTlfHandle (rmd_bare md));
      handle ← lift_res (make_handle bareHandle);
      _ ← lift_res (check_link handle prev (rmd_bare md));
      _ ← processMetadataWithID id bid handle r;
      rest ← process_chain id bid (Some (currRoot, rmd_bare md)) rmds;
      mret (rs_MD r :: rest)
  end.

Context (ss : Session).

Definition getRange (id : TlfID) (bid : BranchID) (mStatus : MergeStatus) (start stop : MetadataRevision)
    : go fetch (list nat) :=
  blocks ← read_server (GetRange ss id bid mStatus start stop);
  rmds ← received_all blocks;
  process_chain id bid None rmds.

Definition getForTLF (id : TlfID) (bid : BranchID) (mStatus : MergeStatus) : go fetch (option nat) :=
  found ← read_server (GetForTLF ss id bid mStatus);
  match found with
  | None => mret None
  | Some b =>
      rmds ← received b;
      md ← deref (rs_MD rmds);
      bareHandle ← lift_res (makeBareTlfHandle (rmd_bare md));
      handle ← lift_res (make_handle bareHandle);
      _ ← processMetadataWithID id bid handle rmds;
      mret (Some (rs_MD rmds))
  end.

(** [getForHandle]: a new folder has no metadata on the server yet. *)
Definition getForHandle (handle : TlfHandle) (mStatus : MergeStatus) : go fetch (option nat) :=
  '(id, found) ← on_mdserver (GetForHandle ss (th_Bare handle) mStatus);
  match found with
  | None =>
      match mStatus with
      | Unmerged => mret None
      | Merged =>
          bare ← lift_res (updateNewRootMetadata
                   (MkBareRootMetadata emptyWriterMetadata (MkSignatureInfo 0 [] EmptyString) EmptyString 0
                      MetadataRevisionUninitialized zeroMdID [] [] None) id (th_Bare handle));
          r ← new_md (MkRootMetadata bare zeroPrivateMetadata (Some handle) zeroMdID);
          mret (Some r)
      end
  | Some b =>
      rmds ← received b;
      resolvedHandle ← lift_res (resolve_again handle EmptyString);
      _ ← lift_res (GetCanonicalPath handle);
      resolvedHandlePath ← lift_res (GetCanonicalPath resolvedHandle);
      md ← deref (rs_MD rmds);
      bareMdHandle ← lift_res (makeBareTlfHandle (rmd_bare md));
      mdHandle ← lift_res (make_handle bareMdHandle);
      resolvedMdHandle ← lift_res (resolve_again mdHandle EmptyString);
      _ ← lift_res (GetCanonicalPath mdHandle);
      resolvedMdHandlePath ← lift_res (GetCanonicalPath resolvedMdHandle);
      if decide (resolvedMdHandlePath ≠ resolvedHandlePath) then fail (MDMismatchError resolvedHandlePath)
      else
        _ ← processMetadata mdHandle rmds;
        mret (Some (rs_MD rmds))
  end.

End rec.

(** ** Putting metadata *)

Definition wm_set_writer (me : UID) (w : WriterMetadata) : WriterMetadata :=
  MkWriterMetadata (wm_SerializedPrivateMetadata w) me (wm_Writers w) (wm_WKeys w) (wm_ID w) (wm_BID w) (wm_WFlags w)
    (wm_DiskUsage w) (wm_RefBytes w) (wm_UnrefBytes w) (wm_UnresolvedWriters w).
Definition set_sig (sigInfo : SignatureInfo) (md : BareRootMetadata) : BareRootMetadata :=
  MkBareRootMetadata (bm_WriterMetadata md) sigInfo (bm_LastModifyingUser md) (bm_Flags md) (bm_Revision md)
    (bm_PrevRoot md) (bm_RKeys md) (bm_UnresolvedReaders md) (bm_ConflictInfo md).
Definition set_user (me : UID) (md : BareRootMetadata) : BareRootMetadata :=
  MkBareRootMetadata (bm_WriterMetadata md) (bm_WriterMetadataSigInfo md) me (bm_Flags md) (bm_Revision md)
    (bm_PrevRoot md) (bm_RKeys md) (bm_UnresolvedReaders md) (bm_ConflictInfo md).

(** The serialized private metadata of the folder [rmd], and what it draws
    for it. *)
Definition serialize_private (rmd : RootMetadata) : go (keyState DB) (list byte) :=
  if TlfID_IsPublic (bm_ID (rmd_bare rmd)) then lift_res (Encode (rmd_data rmd))
  else
    k ← GetTLFCryptKeyForEncryption rmd;
    nonce ← draw 24;
    encrypted ← lift_res (EncryptPrivateMetadata nonce (rmd_data rmd) k);
    lift_res (Encode encrypted).

(** The writer part of [readyMD]: the object [r] gets its writer, its
    private part and the signature of its writer part. *)
Definition ready_writer (me : UID) (r : nat) : go fetch unit :=
  _ ← update_md r (set_bare (set_wm (wm_set_writer me)));
  rmd ← deref r;
  serialized ← on_mdkeys (serialize_private rmd);
  _ ← update_md r (set_bare (set_wm (wm_set_serialized (Some serialized))));
  rmd ← deref r;
  buf ← lift_res (Encode (bm_WriterMetadata (rmd_bare rmd)));
  sigInfo ← lift_res (Sign signingKey buf);
  update_md r (set_bare (set_sig sigInfo)).

Definition readyMD (r : nat) : go fetch RootMetadataSigned :=
  '(_, me) ← lift_res GetCurrentUserInfo;
  rmd ← deref r;
  _ ← (if TlfID_IsPublic (bm_ID (rmd_bare rmd)) || negb (IsWriterMetadataCopiedSet (rmd_bare rmd))
       then ready_writer me r else mret tt);
  _ ← update_md r (set_bare (set_user me));
  rmd ← deref r;
  buf ← lift_res (Encode (rmd_bare rmd));
  md ← lift_res (Decode buf);
  sigInfo ← lift_res (Sign signingKey buf);
  mret (MkRootMetadataSigned sigInfo md).

Definition mdops_put (ss : Session) (r : nat) : go fetch unit :=
  rmds ← readyMD r;
  on_mdserver (md_Put ss rmds).

Definition mdops_Put (ss : Session) (r : nat) : go fetch unit :=
  rmd ← deref r;
  if decide (MergedStatus (rmd_bare rmd) = Unmerged) then fail UnexpectedUnmergedPutError else mdops_put ss r.

Definition wm_set_branch (flags : Z) (bid : BranchID) (w : WriterMetadata) : WriterMetadata :=
  MkWriterMetadata (wm_SerializedPrivateMetadata w) (wm_LastModifyingWriter w) (wm_Writers w) (wm_WKeys w)
    (wm_ID w) bid flags (wm_DiskUsage w) (wm_RefBytes w) (wm_UnrefBytes w) (wm_UnresolvedWriters w).

Definition PutUnmerged (ss : Session) (r : nat) (bid : BranchID) : go fetch unit :=
  _ ← update_md r (set_bare (set_wm (λ w, wm_set_branch (Z.lor (wm_WFlags w) MetadataFlagUnmerged) bid w)));
  mdops_put ss r.

(** ** The operations *)

Fixpoint MDOpsStandard (fuel : nat) (ss : Session) : MDOps (mdWorld DB) :=
  match fuel with
  | O => {| ops_getRange _ _ _ _ _ := panic "stack overflow" |}
  | S fuel => {| ops_getRange := @getRange (MDOpsStandard fuel ss) ss |}
  end.

(** [isReadableOrError]. *)
Definition isReadableOrError (md : RootMetadata) : go fetch unit :=
  if negb (md_IsInitialized (rmd_bare md)) || IsReadable md then mret tt
  else
    '(username, uid) ← lift_res GetCurrentUserInfo;
    h ← lift_res (GetTlfHandle md);
    resolvedHandle ← lift_res (resolve_again h EmptyString);
    lift_res (raise (makeRekeyReadError (rmd_bare md) (th_Bare resolvedHandle) (LatestKeyGeneration (rmd_bare md)) uid username)).

End ops.
