(* ===== verification/MDOpsSpec.v ===== *)
(** * MDOpsSpec: the metadata server is not trusted

    Whatever the server answers, what [getRange] returns is a chain of
    metadata with consecutive revisions and matching ids, each signed by a
    user who may write; and metadata that [readyMD] signed passes these
    checks and is decrypted to what it was made from. *)

From Stdlib Require Import ZArith Lia.
From S2P Require Import Prelude Types Errors GoStd Ids CryptoCommon DataTypes Ops ConflictInfo Handles KeyBundles Metadata LevelDb MDServer Lru KeyManager Rekey MDUtil MDOpsStd.

(** ** Calls that only go up in a preorder on states *)

Definition go_rel {S A} (R : S → S → Prop) (m : go S A) : Prop := ∀ s, R s (snd (m s)).

Section rel.
Context {S : Type} (R : S → S → Prop) `{!PreOrder R}.

Lemma rel_ret {A} (a : A) : go_rel R (mret a : go S A).
Proof. intros s. apply reflexivity. Qed.
Lemma rel_fail {A} e : go_rel R (fail e : go S A).
Proof. intros s. apply reflexivity. Qed.
Lemma rel_panic {A} e : go_rel R (panic e : go S A).
Proof. intros s. apply reflexivity. Qed.
Lemma rel_lift {A} (r : res A) : go_rel R (lift_res r : go S A).
Proof. intros s. apply reflexivity. Qed.
Lemma rel_bind {A B} (m : go S A) (f : A → go S B) : go_rel R m → (∀ a, go_rel R (f a)) → go_rel R (m ≫= f).
Proof.
  intros Hm Hf s. unfold mbind, go_bind. specialize (Hm s). destruct (m s) as [[a|e|p] s1]; simpl in *; [|done..].
  etrans; [done|]. apply Hf.
Qed.
Lemma rel_try {A} (m : go S A) : go_rel R m → go_rel R (try m).
Proof. intros Hm s. specialize (Hm s). unfold try. by destruct (m s) as [[a|e|p] s1]. Qed.
End rel.

Lemma Forall2_both {A B} (P Q : A → B → Prop) l k : Forall2 P l k → Forall2 Q l k → Forall2 (λ x y, P x y ∧ Q x y) l k.
Proof. induction 1; inversion 1; constructor; auto. Qed.

(** ** Objects keep what was signed *)

Section spec.
Context {DB : Type} `{LevelDB DB, Codec (list byte), Box, MDConfig, SecretBox, Codec encryptedData, Codec PrivateMetadata,
  NaclSigning, Codec WriterMetadata, Codec SignatureInfo, Codec (gmap KID TLFCryptKeyInfo), Codec BareRootMetadata,
  Codec BareTlfHandle, Codec BranchID, Codec mdBlockLocal}.
Abbreviation fetch := (mdFetch (mdWorld DB)).

(** The encoded fields stay, and a cached id is the id of these fields. *)
Definition obj_le (md md' : RootMetadata) : Prop :=
  rmd_bare md' = rmd_bare md ∧ (rmd_mdID md' = rmd_mdID md ∨ MakeMdID (rmd_bare md) = Ok (rmd_mdID md')).

Definition heap_le (s s' : fetch) : Prop :=
  ∀ r md, mf_mds s !! r = Some md → ∃ md', mf_mds s' !! r = Some md' ∧ obj_le md md'.

#[local] Instance obj_le_preorder : PreOrder obj_le.
Proof.
  split; [intros md; split; [done|by left]|].
  intros a b c [Hab Hid] [Hbc Hid']. split; [congruence|]. rewrite Hab in Hid'. destruct Hid' as [->|]; [done|by right].
Qed.

#[local] Instance heap_le_preorder : PreOrder heap_le.
Proof.
  split; [intros s r md Hr; exists md; split; [done|apply reflexivity]|].
  intros a b c Hab Hbc r md Hr. destruct (Hab r md Hr) as (md1 & Hr1 & Hle1). destruct (Hbc r md1 Hr1) as (md2 & Hr2 & Hle2).
  exists md2. split; [done|]. by etrans.
Qed.

Lemma heap_le_same (s s' : fetch) : mf_mds s' = mf_mds s → heap_le s s'.
Proof. intros Hs r md Hr. exists md. rewrite Hs. split; [done|apply reflexivity]. Qed.

Lemma rel_deref r : go_rel heap_le (deref r : go fetch RootMetadata).
Proof. intros s. unfold deref. destruct (mf_mds s !! r); apply reflexivity. Qed.
Lemma rel_update r f : (∀ md, obj_le md (f md)) → go_rel heap_le (update_md r f).
Proof.
  intros Hf s r' md Hr. simpl. destruct (decide (r = r')) as [->|Hne].
  - exists (f md). split; [|apply Hf]. by rewrite list_lookup_alter_eq, Hr.
  - exists md. split; [|apply reflexivity]. by rewrite list_lookup_alter_ne.
Qed.
Lemma rel_new md : go_rel heap_le (new_md md).
Proof. intros s r md' Hr. exists md'. split; [by apply lookup_app_l_Some|apply reflexivity]. Qed.
Lemma rel_mdkeys {A} (f : go (keyState DB) A) : go_rel heap_le (on_mdkeys f).
Proof. intros s. unfold on_mdkeys. destruct (f _). by apply heap_le_same. Qed.
Lemma rel_read {A} (f : MDServerLocal DB → res A) : go_rel heap_le (read_server f).
Proof. intros s. apply reflexivity. Qed.
Lemma rel_cache_Get tlf rev bid : go_rel heap_le (mdcache_Get tlf rev bid : go fetch nat).
Proof.
  intros s. unfold mdcache_Get. destruct (lru_Get _ _) as [[r|] c]; by apply heap_le_same.
Qed.
Lemma rel_cache_Put r : go_rel heap_le (mdcache_Put r : go fetch unit).
Proof. apply rel_bind; [apply _|apply rel_deref|]. intros md s. by apply heap_le_same. Qed.

(** Goes through a method, and leaves the calls it does not know. *)
Ltac heap_steps :=
  repeat match goal with
  | |- go_rel _ (mbind _ _) => apply rel_bind; [exact heap_le_preorder| |intros ?]
  | |- go_rel _ (mret _) => apply rel_ret; exact heap_le_preorder
  | |- go_rel _ (fail _) => apply rel_fail; exact heap_le_preorder
  | |- go_rel _ (panic _) => apply rel_panic; exact heap_le_preorder
  | |- go_rel _ (lift_res _) => apply rel_lift; exact heap_le_preorder
  | |- go_rel _ (try _) => apply rel_try
  | |- go_rel _ (deref _) => apply rel_deref
  | |- go_rel _ (new_md _) => apply rel_new
  | |- go_rel _ (on_mdkeys _) => apply rel_mdkeys
  | |- go_rel _ (read_server _) => apply rel_read
  | |- go_rel _ (mdcache_Get _ _ _) => apply rel_cache_Get
  | |- go_rel _ (mdcache_Put _) => apply rel_cache_Put
  | |- go_rel _ (match ?x with _ => _ end) => destruct x
  end.

Section rec.
Context `{MDOps (mdWorld DB)} (Hrec : ∀ id bid ms a b, go_rel heap_le (ops_getRange id bid ms a b)).

Lemma rel_scan_cache id bid revs sl : go_rel heap_le (scan_cache id bid revs sl : go fetch slots).
Proof. revert sl. induction revs as [|i revs IH]; intros sl; cbn [scan_cache]; heap_steps; apply IH. Qed.

Lemma rel_fill_slots start fetched sl : go_rel heap_le (fill_slots start fetched sl : go fetch slots).
Proof. revert sl. induction fetched as [|r fetched IH]; intros sl; cbn [fill_slots]; heap_steps. apply IH. Qed.

Lemma rel_download id bid ms start ranges sl : go_rel heap_le (download id bid ms start ranges sl).
Proof.
  revert sl. induction ranges as [|[a b] ranges IH]; intros sl; cbn [download]; heap_steps;
    [apply Hrec|apply rel_fill_slots|apply IH].
Qed.

Lemma rel_getMDRange id bid start stop ms : go_rel heap_le (getMDRange id bid start stop ms).
Proof. unfold getMDRange. heap_steps; [apply rel_scan_cache|apply rel_download]. Qed.

Lemma rel_last_uncopied l : go_rel heap_le (last_uncopied l : go fetch _).
Proof. induction l as [|r l IH]; cbn [last_uncopied]; heap_steps. done. Qed.

Lemma rel_verify_copied rounds md prevHead : go_rel heap_le (verify_copied rounds md prevHead).
Proof.
  revert prevHead. induction rounds as [|rounds IH]; intros prevHead; cbn [verify_copied]; heap_steps;
    [apply rel_getMDRange|apply rel_last_uncopied|apply IH].
Qed.

Lemma rel_verifyWriterKey rmds : go_rel heap_le (verifyWriterKey rmds).
Proof. unfold verifyWriterKey. heap_steps. apply rel_verify_copied. Qed.

Lemma rel_decrypt_md r k : go_rel heap_le (decrypt_md r k).
Proof. unfold decrypt_md. heap_steps. apply rel_update. intros md. split; [done|by left]. Qed.

Lemma rel_processMetadata handle rmds : go_rel heap_le (processMetadata handle rmds).
Proof.
  unfold processMetadata. heap_steps; [|apply rel_verifyWriterKey|apply rel_decrypt_md].
  apply rel_update. intros md. split; [done|by left].
Qed.

Lemma obj_le_MetadataID md : obj_le md (snd (MetadataID md)).
Proof.
  unfold MetadataID. case_decide; [split; [done|by left]|].
  destruct (MakeMdID (rmd_bare md)) eqn:E; split; try done; [by right|by left|by left].
Qed.

Lemma rel_process_chain id bid prev rmds : go_rel heap_le (process_chain id bid prev rmds).
Proof.
  revert prev. induction rmds as [|r rmds IH]; intros prev; cbn [process_chain]; unfold processMetadataWithID; heap_steps;
    [apply rel_update, obj_le_MetadataID|apply rel_processMetadata|apply IH].
Qed.

Lemma rel_received_all l : go_rel heap_le (received_all l : go fetch _).
Proof. induction l as [|b l IH]; cbn [received_all]; unfold received; heap_steps. done. Qed.

Lemma rel_getRange ss id bid ms a b : go_rel heap_le (getRange ss id bid ms a b).
Proof. unfold getRange. heap_steps; [apply rel_received_all|apply rel_process_chain]. Qed.
End rec.

Lemma rel_MDOpsStandard fuel ss id bid ms a b :
  go_rel heap_le (@ops_getRange _ (MDOpsStandard fuel ss) id bid ms a b).
Proof.
  revert id bid ms a b. induction fuel as [|fuel IH]; intros id bid ms a b; simpl; [apply rel_panic; exact heap_le_preorder|].
  by apply rel_getRange.
Qed.

(** ** What is verified *)

Record md_verified (id : TlfID) (bid : BranchID) (md : BareRootMetadata) (sigInfo : SignatureInfo) (timestamp : Z) : Prop := {
  mv_id : bm_ID md = id;
  mv_bid : bm_BID md = bid;
  mv_signed : sig_IsNil sigInfo = false;
  mv_users : ∃ h, makeBareTlfHandle md = Ok h ∧
    handle_IsWriter h (wm_LastModifyingWriter (bm_WriterMetadata md)) = true ∧
    handle_IsReader h (bm_LastModifyingUser md) = true;
  mv_writer_key : IsWriterMetadataCopiedSet md = false →
    HasVerifyingKey (wm_LastModifyingWriter (bm_WriterMetadata md)) (sig_VerifyingKey (bm_WriterMetadataSigInfo md)) timestamp = Ok tt;
  mv_writer_sig : VerifyWriterMetadata md = Ok tt;
  mv_user_key : HasVerifyingKey (bm_LastModifyingUser md) (sig_VerifyingKey sigInfo) timestamp = Ok tt;
  mv_sig : VerifyRootMetadata md sigInfo = Ok tt
}.

(** Each follows the one before. *)
Definition linked (prev next : BareRootMetadata) : Prop :=
  bm_Revision next = (bm_Revision prev + 1)%Z ∧ MakeMdID prev = Ok (bm_PrevRoot next) ∧ IsFinal prev = false.

Fixpoint chain (prev : option BareRootMetadata) (l : list BareRootMetadata) : Prop :=
  match l with
  | [] => True
  | md :: l => match prev with Some p => linked p md | None => True end ∧ chain (Some md) l
  end.

Lemma check_key_Ok md uid key t : check_key md uid key t = Ok tt → HasVerifyingKey uid key t = Ok tt.
Proof.
  unfold check_key. destruct (HasVerifyingKey uid key t) as [[]|e|p]; [done| |done].
  destruct (convertVerifyingKeyError md e); done.
Qed.

Lemma make_handle_bare b h : make_handle b = Ok h → th_Bare h = b.
Proof.
  unfold make_handle, MakeTlfHandle. intros (h' & _ & Hh)%bind_Ok. case_decide; [|done]. by injection Hh as <-.
Qed.

Section verify.
Context `{MDOps (mdWorld DB)} (Hrec : ∀ id bid ms a b, go_rel heap_le (ops_getRange id bid ms a b)).

(** What [processMetadata] checked when it succeeds. *)
Lemma processMetadata_Ok handle rmds s s' md :
  mf_mds s !! rs_MD rmds = Some md → makeBareTlfHandle (rmd_bare md) = Ok (th_Bare handle) →
  processMetadata handle rmds s = (Ok tt, s') →
  md_verified (bm_ID (rmd_bare md)) (bm_BID (rmd_bare md)) (rmd_bare md) (rs_SigInfo rmds) (rs_timestamp rmds).
Proof.
  intros Hmd Hh. unfold processMetadata. destruct (sig_IsNil (rs_SigInfo rmds)) eqn:Enil; [done|].
  intros ([] & s1 & [= <-] & Hp)%go_bind_Ok. apply go_bind_Ok in Hp as (md1 & s2 & Hd & Hp).
  unfold deref in Hd. cbn [mf_mds] in Hd. rewrite list_lookup_alter_eq, Hmd in Hd. injection Hd as <- <-.
  cbn [rmd_bare] in Hp. apply go_bind_Ok in Hp as ([] & s3 & Hu & Hp). injection Hu as Hu <-.
  apply go_bind_Ok in Hp as ([] & s4 & Hw & Hp).
  apply go_bind_Ok in Hp as ([] & s5 & Hws & Hp). injection Hws as Hws <-.
  apply go_bind_Ok in Hp as ([] & s6 & Huk & Hp). injection Huk as Huk <-.
  apply go_bind_Ok in Hp as ([] & s7 & Hsig & _). injection Hsig as Hsig <-.
  destruct (handle_IsWriter _ _) eqn:EW; [|unfold mismatch in Hu; by apply bind_Ok in Hu as (? & _ & ?)].
  destruct (handle_IsReader _ _) eqn:ER; [|unfold mismatch in Hu; by apply bind_Ok in Hu as (? & _ & ?)].
  split; [done|done|done|by exists (th_Bare handle)| |done|by eapply check_key_Ok|done].
  intros Hcopied. unfold verifyWriterKey in Hw. apply go_bind_Ok in Hw as (md2 & s8 & Hd & Hw).
  unfold deref in Hd. cbn [mf_mds] in Hd. rewrite list_lookup_alter_eq, Hmd in Hd. injection Hd as <- <-.
  cbn [rmd_bare] in Hw. rewrite Hcopied in Hw. injection Hw as Hw _. by eapply check_key_Ok.
Qed.

(** An object as it was received, up to a cached id. *)
Definition fresh_object (s : fetch) (r : nat) (bare : BareRootMetadata) : Prop :=
  ∃ md, mf_mds s !! r = Some md ∧ rmd_bare md = bare ∧
    (rmd_mdID md = zeroMdID ∨ MakeMdID bare = Ok (rmd_mdID md)).

Lemma fresh_object_le s s' r bare : heap_le s s' → fresh_object s r bare → fresh_object s' r bare.
Proof.
  intros Hle (md & Hr & <- & Hid). destruct (Hle r md Hr) as (md' & Hr' & Hb & Hid'). exists md'.
  split; [done|]. split; [done|]. destruct Hid' as [->|]; [done|by right].
Qed.

Lemma MetadataID_fresh md id : (rmd_mdID md = zeroMdID ∨ MakeMdID (rmd_bare md) = Ok (rmd_mdID md)) →
  fst (MetadataID md) = Ok id → MakeMdID (rmd_bare md) = Ok id.
Proof.
  unfold MetadataID. intros Hid. case_decide as Hz.
  - intros [= <-]. by destruct Hid.
  - by destruct (MakeMdID (rmd_bare md)).
Qed.

Lemma process_chain_Ok id bid rmds : ∀ prev bares s s' refs,
  Forall2 (λ r bare, fresh_object s (rs_MD r) bare) rmds bares →
  match prev with Some (root, p) => MakeMdID p = Ok root | None => True end →
  process_chain id bid prev rmds s = (Ok refs, s') →
  refs = rs_MD <$> rmds ∧ chain (snd <$> prev) bares ∧
  Forall2 (λ r bare, md_verified id bid bare (rs_SigInfo r) (rs_timestamp r)) rmds bares.
Proof.
  induction rmds as [|r rmds IH]; intros prev bares s s' refs Hf Hprev Hp.
  { apply Forall2_nil_inv_l in Hf as ->. injection Hp as <- _. by split; [|split; [|constructor]]. }
  destruct bares as [|bare bares]; [by inversion Hf|]. apply Forall2_cons in Hf as [Hr Hf].
  cbn [process_chain] in Hp. pose proof Hr as (md & Hmd & Hbare & Hid).
  apply go_bind_Ok in Hp as (md' & s1 & Hd & Hp). unfold deref in Hd. rewrite Hmd in Hd. injection Hd as <- <-.
  rewrite <- Hbare in Hid.
  apply go_bind_Ok in Hp as (root & s2 & Hroot & Hp). injection Hroot as Hroot <-. apply MetadataID_fresh in Hroot; [|done].
  apply go_bind_Ok in Hp as ([] & s3 & Hu & Hp).
  pose proof (rel_update (rs_MD r) (λ md, snd (MetadataID md)) obj_le_MetadataID s) as Hle3. rewrite Hu in Hle3. simpl in Hle3.
  apply go_bind_Ok in Hp as (bh & s4 & Hbh & Hp). injection Hbh as Hbh <-.
  apply go_bind_Ok in Hp as (handle & s5 & Hh & Hp). injection Hh as Hh <-.
  apply go_bind_Ok in Hp as ([] & s6 & Hl & Hp). injection Hl as Hl <-.
  apply go_bind_Ok in Hp as ([] & s7 & Hpm & Hp).
  apply go_bind_Ok in Hp as (rest & s8 & Hrest & Hp). injection Hp as <- <-.
  unfold processMetadataWithID in Hpm. apply go_bind_Ok in Hpm as (md3 & s9 & Hd & Hpm).
  unfold deref in Hd. destruct (mf_mds s3 !! rs_MD r) as [md3'|] eqn:Hmd3; [|done]. injection Hd as -> <-.
  assert (rmd_bare md3 = bare) as Hb3.
  { destruct (Hle3 _ _ Hmd) as (m & Hm & Hb & _). congruence. }
  case_decide as Hidd; [done|]. case_decide as Hbidd; [done|]. rewrite Hb3 in Hidd, Hbidd.
  assert (makeBareTlfHandle (rmd_bare md3) = Ok (th_Bare handle)) as Hmb.
  { rewrite (make_handle_bare _ _ Hh), Hb3, <- Hbare. done. }
  pose proof (processMetadata_Ok handle r s3 s7 md3 Hmd3 Hmb Hpm) as Hver. rewrite Hb3 in Hver.
  assert (bm_ID bare = id) as Hid0 by (by destruct (decide (id = bm_ID bare)); [|destruct Hidd]).
  assert (bm_BID bare = bid) as Hbid0 by (by destruct (decide (bid = bm_BID bare)); [|destruct Hbidd]).
  rewrite Hid0, Hbid0 in Hver.
  assert (heap_le s s7) as Hle.
  { etrans; [exact Hle3|]. pose proof (rel_processMetadata Hrec handle r s3) as Hle7. by rewrite Hpm in Hle7. }
  destruct (IH (Some (root, rmd_bare md)) bares s7 s8 rest) as (-> & Hc & Hall).
  { eapply Forall2_impl; [exact Hf|]. intros r' b'. by apply fresh_object_le. }
  { done. }
  { done. }
  split; [done|]. rewrite Hbare in Hc. split; [|by constructor].
  split; [|done]. destruct prev as [[proot p]|]; [|done]. simpl in *. rewrite Hbare in Hl.
  unfold mismatch in Hl.
  case_decide as Hrev; [by apply bind_Ok in Hl as (? & _ & ?)|].
  case_decide as Hpr; [by apply bind_Ok in Hl as (? & _ & ?)|].
  destruct (IsFinal p) eqn:Efin; [by apply bind_Ok in Hl as (? & _ & ?)|].
  split; [|split; [|done]].
  - by destruct (decide (bm_Revision bare = bm_Revision p + 1)%Z) as [|Hn]; [|destruct Hrev].
  - rewrite Hprev. f_equal. by destruct (decide (bm_PrevRoot bare = proot)) as [|Hn]; [|destruct Hpr].
Qed.

Lemma received_all_spec l : ∀ s, ∃ rmds s',
  received_all l s = (Ok rmds, s') ∧ heap_le s s' ∧
  Forall2 (λ r b, rs_SigInfo r = rmds_SigInfo (mbl_MD b) ∧ rs_timestamp r = mbl_Timestamp b ∧
    fresh_object s' (rs_MD r) (rmds_MD (mbl_MD b))) rmds l.
Proof.
  induction l as [|b l IH]; intros s.
  { exists [], s. split; [done|]. split; [apply reflexivity|constructor]. }
  cbn [received_all]. unfold received, mbind, go_bind. simpl.
  set (s1 := MkMdFetch _ _ _). destruct (IH s1) as (rmds & s' & Hr & Hle & Hall). rewrite Hr.
  assert (heap_le s s1) as Hle1 by exact (rel_new _ s).
  eexists _, s'. split; [done|]. split; [by etrans|]. constructor; [|done]. split; [done|]. split; [done|].
  eapply fresh_object_le; [exact Hle|]. eexists. split; [simpl; by rewrite lookup_app_r, Nat.sub_diag|]. split; [done|]. by left.
Qed.
End verify.

(** C16. The metadata server is not trusted: whatever metadata it returns
    for a range, when [getRange] succeeds they are for the folder and the
    branch asked for, each is signed as a whole by a reader of the folder
    with a key that was theirs at the time, its writer part names a writer
    and has a valid signature, with a key of that writer at the time if it
    is not a copy of an older one, and each follows the one before: the
    next revision, with the hash of its predecessor, which is not final. *)
Theorem getRange_verified fuel ss id bid ms start stop (s s' : fetch) refs :
  @ops_getRange _ (MDOpsStandard fuel ss) id bid ms start stop s = (Ok refs, s') →
  ∃ blocks, GetRange ss id bid ms start stop (mw_server (mf_world s)) = Ok blocks ∧
    Forall2 (λ r b, ∃ md, mf_mds s' !! r = Some md ∧ rmd_bare md = rmds_MD (mbl_MD b) ∧
      md_verified id bid (rmd_bare md) (rmds_SigInfo (mbl_MD b)) (mbl_Timestamp b)) refs blocks ∧
    chain None ((λ b, rmds_MD (mbl_MD b)) <$> blocks).
Proof.
  destruct fuel as [|fuel]; [done|]. simpl. unfold getRange. intros (blocks & s1 & Hb & Hg)%go_bind_Ok.
  injection Hb as Hb <-. exists blocks. split; [done|].
  destruct (received_all_spec blocks s) as (rmds & s2 & Hr & Hle & Hall).
  apply go_bind_Ok in Hg as (rmds' & s3 & Hr' & Hg). rewrite Hr in Hr'. injection Hr' as <- <-.
  pose proof (rel_process_chain (rel_MDOpsStandard fuel ss) id bid None rmds s2) as Hle'. rewrite Hg in Hle'. simpl in Hle'.
  destruct (process_chain_Ok (rel_MDOpsStandard fuel ss) id bid rmds None ((λ b, rmds_MD (mbl_MD b)) <$> blocks) s2 s' refs)
    as (-> & Hc & Hver).
  { rewrite Forall2_fmap_r. eapply Forall2_impl; [exact Hall|]. by intros r b (_ & _ & ?). }
  { done. }
  { done. }
  split; [|done]. rewrite Forall2_fmap_l. rewrite Forall2_fmap_r in Hver.
  pose proof (Forall2_both _ _ _ _ Hall Hver) as Hboth.
  eapply Forall2_impl; [exact Hboth|]. intros r b [(Hs & Ht & Hf) Hv].
  apply (fresh_object_le s2 s') in Hf as (md & Hmd & Hbare & _); [|done].
  exists md. split; [done|]. split; [done|]. by rewrite Hbare, <- Hs, <- Ht.
Qed.

(** A range of one revision. *)
Lemma getRange_one `{MDOps (mdWorld DB)} ss id bid ms start stop (s : fetch) b root handle :
  GetRange ss id bid ms start stop (mw_server (mf_world s)) = Ok [b] →
  MakeMdID (rmds_MD (mbl_MD b)) = Ok root → (h ← makeBareTlfHandle (rmds_MD (mbl_MD b)); make_handle h) = Ok handle →
  fst (processMetadataWithID id bid handle (MkRmdSigned (length (mf_mds s)) (rmds_SigInfo (mbl_MD b)) (mbl_Timestamp b))
    (MkMdFetch (mf_mds s ++ [MkRootMetadata (rmds_MD (mbl_MD b)) zeroPrivateMetadata None root]) (mf_cache s) (mf_world s)))
    = Ok tt →
  fst (getRange ss id bid ms start stop s) = Ok [length (mf_mds s)].
Proof.
  intros Hget Hid Hh Hp. apply bind_Ok in Hh as (bh & Hbh & Hh).
  assert (∀ x : RootMetadata, (mf_mds s ++ [x]) !! length (mf_mds s) = Some x) as Hlast
    by (intros x; by rewrite lookup_app_r, Nat.sub_diag).
  assert (∀ g (x : RootMetadata), alter g (length (mf_mds s)) (mf_mds s ++ [x]) = mf_mds s ++ [g x]) as Halter
    by (intros g x; pose proof (alter_app_r g (mf_mds s) [x] 0) as Ha; by rewrite Nat.add_0_r in Ha).
  unfold getRange, mbind, go_bind, read_server. rewrite Hget. cbn [received_all].
  unfold received, new_md, mbind, go_bind, mret, go_ret. cbv beta iota. cbn [process_chain rs_MD].
  unfold mbind, go_bind, deref at 1, lift_res. cbn [mf_mds]. rewrite Hlast. cbv beta iota.
  unfold MetadataID at 1. cbn [rmd_mdID rmd_bare]. rewrite decide_False by auto. rewrite Hid. cbv beta iota. cbn [fst].
  unfold update_md, modify. cbv beta iota. rewrite Hbh. cbv beta iota. rewrite Hh. cbv beta iota. cbn [check_link].
  cbn [mf_mds mf_cache mf_world]. rewrite Halter. unfold MetadataID. cbn [rmd_mdID rmd_bare].
  rewrite decide_False by auto. rewrite Hid. cbn [snd].
  destruct (processMetadataWithID _ _ _ _ _) as [[[]|e|p] s']; [done|done|done].
Qed.

(** ** What was signed is accepted *)

Lemma Verify_Sign msg sigInfo : Sign signingKey msg = Ok sigInfo →
  Verify msg sigInfo = Ok tt ∧ sig_IsNil sigInfo = false ∧ sig_VerifyingKey sigInfo = nacl_public signingKey.
Proof.
  intros [= <-]. split; [|split; [|done]].
  - unfold Verify. cbn [sig_Version sig_VerifyingKey sig_Signature]. rewrite decide_False by auto.
    rewrite nacl_public_valid. cbn [negb]. rewrite decide_False by (rewrite nacl_Sign_length; auto).
    by rewrite nacl_Verify_Sign.
  - unfold sig_IsNil. simpl. done.
Qed.

Lemma deref_update (r : nat) (f : RootMetadata → RootMetadata) (s : fetch) md :
  mf_mds s !! r = Some md →
  mf_mds (snd (update_md r f s)) !! r = Some (f md) ∧ mf_world (snd (update_md r f s)) = mf_world s.
Proof. intros Hr. simpl. by rewrite list_lookup_alter_eq, Hr. Qed.

(** The private part, as it is written and as it is read. *)
Lemma serialize_private_Ok rmd ks buf ks' : serialize_private rmd ks = (Ok buf, ks') →
  if TlfID_IsPublic (bm_ID (rmd_bare rmd)) then Decode buf = Ok (rmd_data rmd)
  else ∃ k ed, fst (GetTLFCryptKeyForEncryption rmd ks) = Ok k ∧ Decode buf = Ok ed ∧
    DecryptPrivateMetadata ed k = Ok (rmd_data rmd).
Proof.
  unfold serialize_private. destruct (TlfID_IsPublic _).
  - intros [= He _]. by apply Decode_Encode.
  - intros (k & s1 & Hk & Hs)%go_bind_Ok. apply go_bind_Ok in Hs as (nonce & s2 & _ & Hs).
    apply go_bind_Ok in Hs as (ed & s3 & He & Hs). injection He as He <-. injection Hs as Hb _.
    exists k, ed. rewrite Hk. split; [done|]. split; [by apply Decode_Encode|].
    unfold EncryptPrivateMetadata in He. apply bind_Ok in He as (enc & Henc & Hed).
    unfold DecryptPrivateMetadata. rewrite (decryptData_encryptData _ _ _ _ Hed). by apply Decode_Encode.
Qed.

Lemma ready_writer_Ok me r s s' rmd :
  mf_mds s !! r = Some rmd → ready_writer me r s = (Ok tt, s') →
  ∃ rmd' data sigInfo ks', mf_mds s' !! r = Some rmd' ∧
    serialize_private (set_bare (set_wm (wm_set_writer me)) rmd) (mw_keys (mf_world s)) = (Ok data, ks') ∧
    rmd_bare rmd' = set_sig sigInfo (set_wm (λ w, wm_set_serialized (Some data) (wm_set_writer me w)) (rmd_bare rmd)) ∧
    sig_VerifyingKey sigInfo = nacl_public signingKey ∧
    ∃ buf, Encode (bm_WriterMetadata (rmd_bare rmd')) = Ok buf ∧ Verify buf sigInfo = Ok tt.
Proof.
  intros Hr. unfold ready_writer. intros ([] & s1 & Hu & Hw)%go_bind_Ok.
  destruct (deref_update r (set_bare (set_wm (wm_set_writer me))) s rmd Hr) as [Hr1 Hw1]. rewrite Hu in Hr1, Hw1. simpl in Hr1, Hw1.
  apply go_bind_Ok in Hw as (rmd1 & s2 & Hd & Hw). unfold deref in Hd. rewrite Hr1 in Hd. injection Hd as <- <-.
  apply go_bind_Ok in Hw as (data & s3 & Hs & Hw). unfold on_mdkeys in Hs. rewrite Hw1 in Hs.
  destruct (serialize_private _ (mw_keys (mf_world s))) as [rs ks'] eqn:Es. injection Hs as -> <-.
  apply go_bind_Ok in Hw as ([] & s4 & Hu4 & Hw).
  destruct (deref_update r (set_bare (set_wm (wm_set_serialized (Some data))))
    (MkMdFetch (mf_mds s1) (mf_cache s1) (MkMdWorld ks' (mw_server (mf_world s))))
    (set_bare (set_wm (wm_set_writer me)) rmd) Hr1) as [Hr4 _]. rewrite Hu4 in Hr4. simpl in Hr4.
  apply go_bind_Ok in Hw as (rmd4 & s5 & Hd & Hw). unfold deref in Hd. rewrite Hr4 in Hd. injection Hd as <- <-.
  apply go_bind_Ok in Hw as (buf & s6 & Hb & Hw). injection Hb as Hb <-.
  apply go_bind_Ok in Hw as (sigInfo & s7 & Hsig & Hw). unfold lift_res in Hsig. injection Hsig as Hsig <-.
  destruct (Verify_Sign buf sigInfo (f_equal Ok Hsig)) as (Hv & _ & Hkey).
  destruct (deref_update r (set_bare (set_sig sigInfo)) s4 _ Hr4) as [Hr7 _]. rewrite Hw in Hr7. simpl in Hr7.
  eexists _, data, sigInfo, ks'. split; [exact Hr7|]. split; [done|]. split; [done|]. split; [done|].
  exists buf. split; [exact Hb|done].
Qed.

(** The metadata that [readyMD] signs, of a writer's update. *)
Lemma readyMD_Ok name me r s s' rmd rmds :
  mf_mds s !! r = Some rmd → GetCurrentUserInfo = Ok (name, me) → IsWriterMetadataCopiedSet (rmd_bare rmd) = false →
  readyMD r s = (Ok rmds, s') →
  ∃ data ks', let bare := rmds_MD rmds in
    serialize_private (set_bare (set_wm (wm_set_writer me)) rmd) (mw_keys (mf_world s)) = (Ok data, ks') ∧
    bm_WriterMetadata bare = wm_set_serialized (Some data) (wm_set_writer me (bm_WriterMetadata (rmd_bare rmd))) ∧
    bm_LastModifyingUser bare = me ∧ bm_Flags bare = bm_Flags (rmd_bare rmd) ∧
    VerifyWriterMetadata bare = Ok tt ∧ sig_VerifyingKey (bm_WriterMetadataSigInfo bare) = nacl_public signingKey ∧
    VerifyRootMetadata bare (rmds_SigInfo rmds) = Ok tt ∧ sig_IsNil (rmds_SigInfo rmds) = false ∧
    sig_VerifyingKey (rmds_SigInfo rmds) = nacl_public signingKey.
Proof.
  intros Hr Hme Hcopied. unfold readyMD. intros ([n u] & s0 & Hu & Hrd)%go_bind_Ok.
  unfold lift_res in Hu. rewrite Hme in Hu. injection Hu as <- <- <-.
  apply go_bind_Ok in Hrd as (rmd0 & s1 & Hd & Hrd). unfold deref in Hd. rewrite Hr in Hd. injection Hd as <- <-.
  rewrite Hcopied, orb_true_r in Hrd. apply go_bind_Ok in Hrd as ([] & s2 & Hw & Hrd).
  destruct (ready_writer_Ok me r s s2 rmd Hr Hw) as (rmd' & data & sigInfo & ks' & Hr2 & Hser & Hbare & Hkey & wbuf & Hwbuf & Hwv).
  apply go_bind_Ok in Hrd as ([] & s3 & Hu & Hrd).
  destruct (deref_update r (set_bare (set_user me)) s2 rmd' Hr2) as [Hr3 _]. rewrite Hu in Hr3. simpl in Hr3.
  apply go_bind_Ok in Hrd as (rmd3 & s4 & Hd & Hrd). unfold deref in Hd. rewrite Hr3 in Hd. injection Hd as <- <-.
  apply go_bind_Ok in Hrd as (buf & s5 & Hb & Hrd). injection Hb as Hb <-.
  apply go_bind_Ok in Hrd as (md & s6 & Hmd & Hrd). unfold lift_res in Hmd.
  rewrite (Decode_Encode _ _ Hb) in Hmd. injection Hmd as <- <-.
  apply go_bind_Ok in Hrd as (sig & s7 & Hsig & Hrd). unfold lift_res in Hsig. injection Hsig as Hsig <-. injection Hrd as <- _.
  destruct (Verify_Sign buf sig (f_equal Ok Hsig)) as (Hv & Hnil & Hk). exists data, ks'. simpl in Hb |- *. rewrite Hbare in Hb, Hwbuf |- *.
  split; [done|]. split; [done|]. split; [done|]. split; [done|]. split; [|split; [done|split; [|done]]].
  - unfold VerifyWriterMetadata. simpl in Hwbuf |- *. rewrite Hwbuf. done.
  - unfold VerifyRootMetadata. rewrite Hb. done.
Qed.

End spec.

(** ** One client signs, another one reads *)

Section clients.
Context {DB : Type} `{LevelDB DB, Codec (list byte), Box, SecretBox, Codec encryptedData, Codec PrivateMetadata,
  NaclSigning, Codec WriterMetadata, Codec SignatureInfo, Codec BareRootMetadata}.
Context (signer reader : MDConfig).
Abbreviation fetch := (mdFetch (mdWorld DB)).

(** The key the signer encrypts the folder [rmd] with is the one its reader
    finds. *)
Definition same_key (rmd : RootMetadata) (ks : keyState DB) (bare : BareRootMetadata) (ks' : keyState DB) : Prop :=
  ∀ k md, fst (GetTLFCryptKeyForEncryption (H2 := @mc_keys signer) rmd ks) = Ok k → rmd_bare md = bare →
    fst (GetTLFCryptKeyForMDDecryption (H2 := @mc_keys reader) md md ks') = Ok k.

Lemma decryptMDPrivateData_serialized rmd ks data ks1 md handle ks2 :
  serialize_private (H2 := signer) rmd ks = (Ok data, ks1) →
  rmd_tlfHandle md = Some handle →
  bm_WriterMetadata (rmd_bare md) = wm_set_serialized (Some data) (bm_WriterMetadata (rmd_bare rmd)) →
  handle_IsPublic (th_Bare handle) = TlfID_IsPublic (bm_ID (rmd_bare rmd)) →
  (TlfID_IsPublic (bm_ID (rmd_bare rmd)) = false → same_key rmd ks (rmd_bare md) ks2) →
  fst (decryptMDPrivateData (H2 := @mc_keys reader) md md ks2) = Ok (rmd_data rmd).
Proof.
  intros Hs Hh Hwm Hpub Hkey. apply (serialize_private_Ok (H2 := signer)) in Hs.
  unfold decryptMDPrivateData, GetTlfHandle, mbind, go_bind, lift_res, try. rewrite Hh, Hwm. cbv beta iota zeta. rewrite Hpub.
  cbn [wm_SerializedPrivateMetadata wm_set_serialized default]. destruct (TlfID_IsPublic _); [simpl; by rewrite Hs|].
  destruct Hs as (k & ed & Hk & Hd & Hdec). pose proof (Hkey eq_refl k md Hk eq_refl) as Hk2. simpl. rewrite Hd. destruct (GetTLFCryptKeyForMDDecryption (H2 := @mc_keys reader) md md ks2) as [rk ks3]. simpl in Hk2. subst rk. simpl.
  by rewrite Hdec.
Qed.

(** C37. What [readyMD] signs is accepted: when the client [signer] makes an
    update of its user, a writer of the folder, ready for the server, any
    other client [reader], with keys and a directory of its own, whose
    directory has the signer's key as the writer's at that time, and which
    finds the folder's key if the folder is private, accepts the signed
    metadata and decrypts the private part to what it was made from. *)
Theorem readyMD_accepted `{MDOps (mdWorld DB)} name me r (s s' : fetch) rmd rmds handle ts (t : fetch) r' md :
  mf_mds s !! r = Some rmd → @GetCurrentUserInfo (@kc_pki (@mc_keys signer)) = Ok (name, me) →
  IsWriterMetadataCopiedSet (rmd_bare rmd) = false →
  handle_IsWriter (th_Bare handle) me = true → handle_IsReader (th_Bare handle) me = true →
  handle_IsPublic (th_Bare handle) = TlfID_IsPublic (bm_ID (rmd_bare rmd)) →
  @HasVerifyingKey reader me (nacl_public (@signingKey signer)) ts = Ok tt →
  readyMD (H2 := signer) r s = (Ok rmds, s') →
  (TlfID_IsPublic (bm_ID (rmd_bare rmd)) = false →
    same_key (set_bare (set_wm (wm_set_writer me)) rmd) (mw_keys (mf_world s)) (rmds_MD rmds) (mw_keys (mf_world t))) →
  mf_mds t !! r' = Some md → rmd_bare md = rmds_MD rmds →
  ∃ t' md', processMetadata (H2 := reader) handle (MkRmdSigned r' (rmds_SigInfo rmds) ts) t = (Ok tt, t') ∧
    mf_mds t' !! r' = Some md' ∧ rmd_bare md' = rmds_MD rmds ∧ rmd_data md' = rmd_data rmd.
Proof.
  intros Hr Hme Hcopied HW HR Hpub Hvk Hrd Hkey Hmd Hbare.
  destruct (readyMD_Ok (H2 := signer) name me r s s' rmd rmds Hr Hme Hcopied Hrd)
    as (data & ks' & Hser & Hwm & Huser & Hflags & Hvw & Hwk & Hvr & Hnil & Hrk).
  set (md1 := MkRootMetadata (rmds_MD rmds) (rmd_data md) (Some handle) (rmd_mdID md)).
  set (t1 := MkMdFetch (alter (λ md, MkRootMetadata (rmd_bare md) (rmd_data md) (Some handle) (rmd_mdID md)) r' (mf_mds t))
               (mf_cache t) (mf_world t)).
  assert (deref r' t1 = (Ok md1, t1)) as Hd1.
  { unfold deref. simpl. rewrite list_lookup_alter_eq, Hmd. simpl. by rewrite Hbare. }
  assert (fst (decryptMDPrivateData (H2 := @mc_keys reader) md1 md1 (mw_keys (mf_world t))) = Ok (rmd_data rmd)) as Hdec.
  { eapply (decryptMDPrivateData_serialized (set_bare (set_wm (wm_set_writer me)) rmd)); try done. }
  assert (verifyWriterKey (H2 := reader) (MkRmdSigned r' (rmds_SigInfo rmds) ts) t1 = (Ok tt, t1)) as Hvwk.
  { unfold verifyWriterKey. unfold mbind, go_bind. cbn [rs_MD rs_timestamp]. rewrite Hd1. cbv beta iota zeta.
    assert (IsWriterMetadataCopiedSet (rmd_bare md1) = false) as ->
      by (unfold IsWriterMetadataCopiedSet, has_flag in *; change (rmd_bare md1) with (rmds_MD rmds); by rewrite Hflags).
    cbn [negb]. unfold lift_res, check_key. simpl. rewrite Hwk, Hwm. simpl. by rewrite Hvk. }
  destruct (decryptMDPrivateData (H2 := @mc_keys reader) md1 md1 (mw_keys (mf_world t))) as [rd ks2] eqn:Ed. simpl in Hdec. subst rd.
  eexists (MkMdFetch (alter (set_data (rmd_data rmd)) r' (mf_mds t1)) (mf_cache t)
            (MkMdWorld ks2 (mw_server (mf_world t)))), (set_data (rmd_data rmd) md1).
  split; [|split; [|by split]].
  - unfold processMetadata. cbn [rs_SigInfo rs_MD rs_timestamp]. rewrite Hnil.
    unfold mbind at 1, go_bind at 1. unfold update_md at 1, modify at 1. cbv beta iota. fold t1.
    unfold mbind, go_bind. rewrite Hd1. cbv beta iota zeta. unfold lift_res. cbn [rmd_bare md1].
    rewrite Hwm at 1. cbn [wm_LastModifyingWriter wm_set_serialized wm_set_writer]. rewrite HW. cbn [negb].
    rewrite Huser at 1. rewrite HR. cbn [negb]. cbv beta iota. rewrite Hvwk. cbv beta iota. rewrite Hvw. cbv beta iota.
    unfold check_key. rewrite Huser, Hrk, Hvk. cbv beta iota. rewrite Hvr. cbv beta iota.
    unfold decrypt_md, mbind, go_bind. rewrite Hd1. cbv beta iota. rewrite Hd1. cbv beta iota.
    unfold on_mdkeys. cbn [mf_world t1]. rewrite Ed. cbv beta iota. reflexivity.
  - simpl. rewrite !list_lookup_alter_eq, Hmd. simpl. unfold set_data. simpl. by rewrite Hbare.
Qed.
End clients.
