(* ===== verification/Serial.v ===== *)
(** * Serial: an encoding of the folder's data that computes

    A [Codec] that is total, and linear in the size of the data, for the
    blocks and the metadata: what the examples of the directory operations
    use in place of the configured codec. *)

From Stdlib Require Import ZArith Lia.
From S2P Require Import Prelude Types Errors GoStd Ids CryptoCommon DataTypes Ops ConflictInfo Handles KeyBundles Metadata FolderBlocks Examples.

#[local] Unset Program Cases.

(** A prefix code. *)
Class Ser (A : Type) := {
  ser : A → list byte;
  par : list byte → option (A * list byte);
  par_ser a l : par (ser a ++ l) = Some (a, l)
}.

#[global] Program Instance ser_byte : Ser byte := {|
  ser b := [b];
  par l := match l with b :: l => Some (b, l) | [] => None end
|}.
Next Obligation. done. Qed.

Fixpoint par_nat (l : list byte) : option (nat * list byte) :=
  match l with
  | x00 :: l => Some (0, l)
  | x01 :: l => match par_nat l with Some (n, l) => Some (S n, l) | None => None end
  | _ => None
  end.
#[global] Program Instance ser_nat : Ser nat := {| ser n := replicate n x01 ++ [x00]; par := par_nat |}.
Next Obligation. intros n l. induction n as [|n IH]; simpl; [done|]. by rewrite IH. Qed.

Fixpoint par_many {A} `{Ser A} (n : nat) (l : list byte) : option (list A * list byte) :=
  match n with
  | O => Some ([], l)
  | S n => match par l with
           | Some (a, l) => match par_many n l with Some (x, l) => Some (a :: x, l) | None => None end
           | None => None
           end
  end.
#[global] Program Instance ser_list `{Ser A} : Ser (list A) := {|
  ser x := ser (length x) ++ (x ≫= ser);
  par l := match par l with Some (n, l) => par_many n l | None => None end
|}.
Next Obligation.
  intros A HA x l. cbv beta. rewrite <- app_assoc, par_ser. induction x as [|a x IH]; csimpl; [done|].
  by rewrite <- app_assoc, par_ser, IH.
Qed.

#[global] Program Instance ser_pair `{Ser A, Ser B} : Ser (A * B) := {|
  ser p := ser p.1 ++ ser p.2;
  par l := match par l with
           | Some (a, l) => match par l with Some (b, l) => Some ((a, b), l) | None => None end
           | None => None
           end
|}.
Next Obligation. intros A HA B HB [a b] l. simpl. by rewrite <- app_assoc, !par_ser. Qed.

#[global] Program Instance ser_sum `{Ser A, Ser B} : Ser (A + B) := {|
  ser s := match s with inl a => x00 :: ser a | inr b => x01 :: ser b end;
  par l := match l with
           | x00 :: l => match par l with Some (a, l) => Some (inl a, l) | None => None end
           | x01 :: l => match par l with Some (b, l) => Some (inr b, l) | None => None end
           | _ => None
           end
|}.
Next Obligation. intros A HA B HB [a|b] l; simpl; by rewrite par_ser. Qed.

(** A type that is a part of another one. *)
Program Definition ser_iso {A B} `{Ser B} (f : A → B) (g : B → A) (Hgf : ∀ a, g (f a) = a) : Ser A := {|
  ser a := ser (f a);
  par l := match par l with Some (b, l) => Some (g b, l) | None => None end
|}.
Next Obligation. intros A B HB f g Hgf a l. cbv beta. by rewrite par_ser, Hgf. Qed.

#[global] Instance ser_unit : Ser unit := ser_iso (λ _, 0) (λ _, tt) ltac:(by intros []).
#[global] Instance ser_option `{Ser A} : Ser (option A) :=
  ser_iso (λ o, match o with None => inl tt | Some a => inr a end) (λ s, match s with inl _ => None | inr a => Some a end)
    ltac:(by intros []).
#[global] Instance ser_bool : Ser bool := ser_iso (λ b, if b : bool then 1 else 0) (λ n, bool_decide (n = 1)) ltac:(by intros []).
#[global] Instance ser_string : Ser string := ser_iso bytes_of_string string_of_bytes string_of_bytes_of_string.
Lemma Z_bytes (z : Z) : default 0%Z (bytes_positive (positive_bytes (encode z)) ≫= decode) = z.
Proof. rewrite bytes_positive_bytes. change (default 0%Z (decode (encode z)) = z). by rewrite decode_encode. Qed.
#[global] Instance ser_Z : Ser Z :=
  ser_iso (λ z, positive_bytes (encode z)) (λ l, default 0%Z (bytes_positive l ≫= decode)) Z_bytes.
#[global] Instance ser_gmap `{Countable K, Ser K, Ser A} : Ser (gmap K A) :=
  ser_iso map_to_list list_to_map (λ m, list_to_map_to_list m).

(** The codec. *)
Program Definition ser_codec {A} `{Ser A} : Codec A := {|
  Encode a := Ok (ser a);
  Decode l := match par l with Some (a, []) => Ok a | _ => Err (ErrorString "decode") end
|}.
Next Obligation. intros A HA a buf [= <-]. rewrite <- (app_nil_r (ser a)). by rewrite par_ser. Qed.

(** ** The data *)

#[global] Instance ser_Hash : Ser Hash := ser_iso hash_h MkHash ltac:(by intros []).
#[global] Instance ser_HMAC : Ser HMAC := ser_iso hmac_h MkHMAC ltac:(by intros []).
#[global] Instance ser_BlockID : Ser BlockID := ser_iso block_id_h MkBlockID ltac:(by intros []).
#[global] Instance ser_MdID : Ser MdID := ser_iso md_id_h MkMdID ltac:(by intros []).
#[global] Instance ser_TlfID : Ser TlfID := ser_iso tlf_id MkTlfID ltac:(by intros []).
#[global] Instance ser_BranchID : Ser BranchID := ser_iso branch_id MkBranchID ltac:(by intros []).
#[global] Instance ser_BlockPointer : Ser BlockPointer :=
  ser_iso (λ p, (bp_ID p, bp_KeyGen p : Z, bp_DataVer p : Z, bp_Creator p : string, bp_Writer p : string, bp_RefNonce p : list byte))
    (λ '(a, b, c, d, e, f), MkBlockPointer a b c d e f) ltac:(by intros []).
#[global] Instance ser_BlockInfo : Ser BlockInfo :=
  ser_iso (λ i, (bi_BlockPointer i, bi_EncodedSize i)) (λ '(p, z), MkBlockInfo p z) ltac:(by intros []).
#[global] Instance ser_EntryType : Ser EntryType :=
  ser_iso (λ t, match t with File => 0 | Exec => 1 | Dir => 2 | Sym => 3 end)
    (λ n, match n with 0 => File | 1 => Exec | 2 => Dir | _ => Sym end) ltac:(by intros []).
#[global] Instance ser_EntryInfo : Ser EntryInfo :=
  ser_iso (λ e, (ei_Type e, ei_Size e, ei_SymPath e, ei_Mtime e, ei_Ctime e)) (λ '(t, s, p, m, c), MkEntryInfo t s p m c)
    ltac:(by intros []).
#[global] Instance ser_DirEntry : Ser DirEntry :=
  ser_iso (λ e, (de_BlockInfo e, de_EntryInfo e)) (λ '(b, e), MkDirEntry b e) ltac:(by intros []).
#[global] Instance ser_IndirectDirPtr : Ser IndirectDirPtr :=
  ser_iso (λ i, (idp_BlockInfo i, idp_Off i)) (λ '(b, o), MkIndirectDirPtr b o) ltac:(by intros []).
#[global] Instance ser_IndirectFilePtr : Ser IndirectFilePtr :=
  ser_iso (λ i, (ifp_BlockInfo i, ifp_Off i)) (λ '(b, o), MkIndirectFilePtr b o) ltac:(by intros []).
#[global] Instance ser_CommonBlock : Ser CommonBlock :=
  ser_iso (λ c, (cb_IsInd c, cb_cachedEncodedSize c)) (λ '(i, z), MkCommonBlock i z) ltac:(by intros []).
#[global] Instance ser_DirBlock : Ser DirBlock :=
  ser_iso (λ d, (db_CommonBlock d, db_Children d, db_IPtrs d)) (λ '(c, m, i), MkDirBlock c m i) ltac:(by intros []).
#[global] Instance ser_FileBlock : Ser FileBlock :=
  ser_iso (λ f, (fb_CommonBlock f, fb_Contents f, fb_IPtrs f)) (λ '(c, m, i), MkFileBlock c m i) ltac:(by intros []).
#[global] Instance ser_Block : Ser Block :=
  ser_iso (λ b, match b with CommonB c => inl c | DirB d => inr (inl d) | FileB f => inr (inr f) end)
    (λ b, match b with inl c => CommonB c | inr (inl d) => DirB d | inr (inr f) => FileB f end) ltac:(by intros []).

(** ** Operations *)

#[global] Instance ser_blockUpdate : Ser blockUpdate :=
  ser_iso (λ u, (bu_Unref u, bu_Ref u)) (λ '(a, b), MkBlockUpdate a b) ltac:(by intros []).
#[global] Instance ser_writerInfo : Ser writerInfo :=
  ser_iso (λ u, (wi_name u, wi_kid u : string, wi_deviceName u)) (λ '(a, b, c), MkWriterInfo a b c) ltac:(by intros []).
#[global] Instance ser_FolderBranch : Ser FolderBranch :=
  ser_iso (λ u, (fbr_Tlf u, fbr_Branch u : string)) (λ '(a, b), MkFolderBranch a b) ltac:(by intros []).
#[global] Instance ser_pathNode : Ser pathNode :=
  ser_iso (λ u, (pn_BlockPointer u, pn_Name u)) (λ '(a, b), MkPathNode a b) ltac:(by intros []).
#[global] Instance ser_path : Ser path :=
  ser_iso (λ u, (p_FolderBranch u, p_path u)) (λ '(a, b), MkPath a b) ltac:(by intros []).
#[global] Instance ser_OpCommon : Ser OpCommon :=
  ser_iso (λ u, (oc_RefBlocks u, oc_UnrefBlocks u, oc_Updates u, oc_writerInfo u, oc_finalPath u))
    (λ '(a, b, c, d, e), MkOpCommon a b c d e) ltac:(by intros []).
#[global] Instance ser_createOp : Ser createOp :=
  ser_iso (λ u, (co_OpCommon u, co_NewName u, co_Dir u, co_Type u, co_renamed u, co_forceCopy u, co_crSymPath u))
    (λ '(a, b, c, d, e, f, g), MkCreateOp a b c d e f g) ltac:(by intros []).
#[global] Instance ser_rmOp : Ser rmOp :=
  ser_iso (λ u, (ro_OpCommon u, ro_OldName u, ro_Dir u, ro_dropThis u)) (λ '(a, b, c, d), MkRmOp a b c d) ltac:(by intros []).
#[global] Instance ser_renameOp : Ser renameOp :=
  ser_iso (λ u, (rn_OpCommon u, rn_OldName u, rn_OldDir u, rn_NewName u, rn_NewDir u, rn_Renamed u, rn_RenamedType u))
    (λ '(a, b, c, d, e, f, g), MkRenameOp a b c d e f g) ltac:(by intros []).
#[global] Instance ser_WriteRange : Ser WriteRange :=
  ser_iso (λ u, (wr_Off u, wr_Len u)) (λ '(a, b), MkWriteRange a b) ltac:(by intros []).
#[global] Instance ser_syncOp : Ser syncOp :=
  ser_iso (λ u, (so_OpCommon u, so_File u, so_Writes u)) (λ '(a, b, c), MkSyncOp a b c) ltac:(by intros []).
#[global] Instance ser_attrChange : Ser attrChange :=
  ser_iso (λ t, match t with exAttr => 0 | mtimeAttr => 1 | sizeAttr => 2 end)
    (λ n, match n with 0 => exAttr | 1 => mtimeAttr | _ => sizeAttr end) ltac:(by intros []).
#[global] Instance ser_setAttrOp : Ser setAttrOp :=
  ser_iso (λ u, (sao_OpCommon u, sao_Name u, sao_Dir u, sao_Attr u, sao_File u))
    (λ '(a, b, c, d, e), MkSetAttrOp a b c d e) ltac:(by intros []).
#[global] Instance ser_gcOp : Ser gcOp :=
  ser_iso (λ u, (gco_OpCommon u, gco_LatestRev u : Z)) (λ '(a, b), MkGcOp a b) ltac:(by intros []).
#[global] Instance ser_op : Ser op :=
  ser_iso
    (λ o, match o with
          | CreateOp o => inl (inl (inl o)) | RmOp o => inl (inl (inr o)) | RenameOp o => inl (inr (inl o)) | SyncOp o => inl (inr (inr o))
          | SetAttrOp o => inr (inl (inl o)) | ResolutionOp c => inr (inl (inr c)) | RekeyOp c => inr (inr (inl c)) | GcOp o => inr (inr (inr o))
          end)
    (λ o, match o with
          | inl (inl (inl o)) => CreateOp o | inl (inl (inr o)) => RmOp o | inl (inr (inl o)) => RenameOp o | inl (inr (inr o)) => SyncOp o
          | inr (inl (inl o)) => SetAttrOp o | inr (inl (inr c)) => ResolutionOp c | inr (inr (inl c)) => RekeyOp c | inr (inr (inr o)) => GcOp o
          end) ltac:(by intros []).
#[global] Instance ser_BlockChanges : Ser BlockChanges :=
  ser_iso (λ u, (bc_Info u, bc_Ops u, bc_sizeEstimate u)) (λ '(a, b, c), MkBlockChanges a b c) ltac:(by intros []).

(** ** Metadata *)

#[global] Instance ser_PrivateMetadata : Ser PrivateMetadata :=
  ser_iso (λ u, (pmd_Dir u, pmd_TLFPrivateKey u, pmd_Changes u, pmd_cachedChanges u))
    (λ '(a, b, c, d), MkPrivateMetadata a b c d) ltac:(by intros []).
#[global] Instance ser_SocialAssertion : Ser SocialAssertion :=
  ser_iso (λ a, (sa_User a, sa_Service a)) (λ '(u, s), MkSocialAssertion u s) ltac:(by intros []).
#[global] Instance ser_ConflictInfo : Ser ConflictInfo :=
  ser_iso (λ e, (ci_Date e, ci_Number e)) (λ '(v, d), MkConflictInfo v d) ltac:(by intros []).
#[global] Instance ser_BareTlfHandle : Ser BareTlfHandle :=
  ser_iso (λ h, (h_Writers h : list string, h_Readers h : list string, h_UnresolvedWriters h, h_UnresolvedReaders h, h_ConflictInfo h))
    (λ '(a, b, c, d, e), MkBareTlfHandle a b c d e) ltac:(by intros []).
#[global] Instance ser_TlfHandle : Ser TlfHandle :=
  ser_iso (λ h, (th_Bare h, th_resolvedWriters h : gmap string string, th_resolvedReaders h : gmap string string, th_name h))
    (λ '(a, b, c, d), MkTlfHandle a b c d) ltac:(by intros []).
#[global] Instance ser_encryptedData : Ser encryptedData :=
  ser_iso (λ e, (ed_Version e, ed_EncryptedData e, ed_Nonce e)) (λ '(v, d, n), MkEncryptedData v d n) ltac:(by intros []).
#[global] Instance ser_TLFCryptKeyInfo : Ser TLFCryptKeyInfo :=
  ser_iso (λ e, (tki_ClientHalf e, tki_ServerHalfID e, tki_EPubKeyIndex e)) (λ '(v, d, n), MkTLFCryptKeyInfo v d n) ltac:(by intros []).
#[global] Instance ser_TLFWriterKeyBundle : Ser TLFWriterKeyBundle :=
  ser_iso (λ e, (wkb_WKeys e : gmap string (gmap string TLFCryptKeyInfo), wkb_TLFPublicKey e, wkb_TLFEphemeralPublicKeys e))
    (λ '(v, d, n), MkTLFWriterKeyBundle v d n) ltac:(by intros []).
#[global] Instance ser_TLFReaderKeyBundle : Ser TLFReaderKeyBundle :=
  ser_iso (λ e, (rkb_RKeys e : gmap string (gmap string TLFCryptKeyInfo), rkb_TLFReaderEphemeralPublicKeys e))
    (λ '(v, d), MkTLFReaderKeyBundle v d) ltac:(by intros []).
#[global] Instance ser_SignatureInfo : Ser SignatureInfo :=
  ser_iso (λ e, (sig_Version e, sig_Signature e, sig_VerifyingKey e : string)) (λ '(v, d, n), MkSignatureInfo v d n) ltac:(by intros []).
#[global] Instance ser_WriterMetadata : Ser WriterMetadata :=
  ser_iso (λ w, (wm_SerializedPrivateMetadata w, wm_LastModifyingWriter w : string, wm_Writers w : list string,
      wm_WKeys w : list TLFWriterKeyBundle, wm_ID w, wm_BID w, wm_WFlags w, wm_DiskUsage w, wm_RefBytes w, wm_UnrefBytes w,
      wm_UnresolvedWriters w))
    (λ '(a, b, c, d, e, f, g, h, i, j, k), MkWriterMetadata a b c d e f g h i j k) ltac:(by intros []).
#[global] Instance ser_BareRootMetadata : Ser BareRootMetadata :=
  ser_iso (λ w, (bm_WriterMetadata w, bm_WriterMetadataSigInfo w, bm_LastModifyingUser w : string,
      bm_Flags w, bm_Revision w : Z, bm_PrevRoot w, bm_RKeys w : list TLFReaderKeyBundle, bm_UnresolvedReaders w, bm_ConflictInfo w))
    (λ '(a, b, c, d, e, f, g, h, i), MkBareRootMetadata a b c d e f g h i) ltac:(by intros []).

(** A record survives the codec. *)
Lemma ser_codec_total {A} `{Ser A} (a : A) : ∃ buf, Encode (Codec := ser_codec) a = Ok buf ∧ Decode (Codec := ser_codec) buf = Ok a.
Proof. exists (ser a). split; [done|]. by apply (Decode_Encode (Codec := ser_codec)). Qed.
