(* ===== verification/MDOpsExamples.v ===== *)
(** * MDOpsExamples: witnesses for the metadata operations

    A client of the public folder of [MDServerExamples.v] puts a first
    revision, and another one reads it back; and the writer's client signs
    a revision of the private folder of [KeyExamples.v], which a reader's
    client, with another signing key, accepts and decrypts. *)

From Stdlib Require Import ZArith Lia.
From S2P Require Import Prelude Types Errors GoStd Ids CryptoCommon DataTypes Ops ConflictInfo Handles KeyBundles Metadata Examples LevelDb MDServer MDServerSpec MDServerOps MDServerThms MDServerExamples Lru KeyManager Rekey KeyExamples MDUtil MDOpsStd MDOpsSpec Serial.

(** The signature of a message: the key and the start of the message. *)
Definition ex_sign (priv msg : list byte) : list byte := take 64 (priv ++ msg ++ replicate 64 x00).
Lemma ex_sign_length priv msg : length (ex_sign priv msg) = 64.
Proof. unfold ex_sign. rewrite length_take, !length_app, length_replicate. lia. Qed.

#[local] Program Instance ex_nacl : NaclSigning := {|
  nacl_valid kid := bool_decide (kid ≠ EmptyString);
  nacl_Verify kid msg sig :=
    match kid with
    | String.String _ k => bool_decide (sig = ex_sign (bytes_of_string k) msg)
    | EmptyString => false
    end;
  nacl_Sign := ex_sign;
  nacl_public priv := ("k" +:+ string_of_bytes priv)%string;
  nacl_Sign_length := ex_sign_length
|}.
Next Obligation. done. Qed.
Next Obligation. done. Qed.
Next Obligation.
  intros priv msg. change (bool_decide (ex_sign priv msg = ex_sign (bytes_of_string (string_of_bytes priv)) msg) = true).
  rewrite bytes_of_string_of_bytes. by apply bool_decide_eq_true.
Qed.
#[local] Instance ex_w_config : MDConfig := {|
  mc_keys := ex_device "w" "aa";
  HasVerifyingKey _ _ _ := Ok tt;
  signingKey := []
|}.
#[local] Program Instance ex_secretbox : SecretBox := {| Seal m _ _ := m; Open c _ _ := Some c |}.
Next Obligation. done. Qed.

Definition ex_fetch (md : MDServerLocal memdb) (l : list RootMetadata) : mdFetch (mdWorld memdb) :=
  MkMdFetch l (MkLRU 10 []) (MkMdWorld ex_keys md).
Definition ex_fetch0 := ex_fetch ex_server0 [ex_cur].

(** The signed metadata of the first revision. *)
Definition ex_ready : RootMetadataSigned :=
  Eval vm_compute in match fst (readyMD 0 ex_fetch0) with Ok rmds => rmds | _ => ex_rmds end.
Lemma ex_ready_ok : fst (readyMD 0 ex_fetch0) = Ok ex_ready.
Proof. vm_compute. reflexivity. Qed.

Definition ex_server2 : MDServerLocal memdb := snd (md_Put ex_w ex_ready ex_server0).
Definition ex_fetch2 : mdFetch (mdWorld memdb) := ex_fetch ex_server2 [].
Definition ex_block2 : mdBlockLocal := MkMdBlockLocal ex_ready 7.

Lemma ex_put2 : md_Put ex_w ex_ready ex_server0 = (Ok tt, ex_server2).
Proof. rewrite (surjective_pairing (md_Put _ _ _)). f_equal. Qed.

Lemma ex_put2_ok : put_ok ex_L (rmds_MD ex_ready).
Proof. split; [done|done|by left|split; done]. Qed.

Lemma ex_holds2 : ∃ B, holds ex_L ex_server2 (append ∅ ex_block2) B ∧ md_shutdown ex_server2 = false.
Proof.
  destruct ex_holds0 as [Hh Ho].
  pose proof (md_Put_spec ex_L ex_HL _ _ _ _ _ _ _ Hh Ho ex_put2_ok ex_put2) as Hspec.
  destruct Hspec as [(_ & _ & _ & [rb Hh'] & Hsd & Hn)|[Hr _]]; [by eexists|by destruct Hr].
Qed.

Lemma ex_history2 : history (append ∅ ex_block2) ex_tlf NullBranchID = [ex_block2].
Proof. etrans; [apply (history_append_eq ∅ ex_block2)|]. by rewrite history_empty. Qed.

Lemma ex_GetRange_of md B : holds ex_L md (append ∅ ex_block2) B → md_shutdown md = false →
  GetRange ex_w ex_tlf NullBranchID Merged 1%Z 1%Z md = Ok [ex_block2].
Proof.
  intros Hh Hsd.
  assert (isReader ex_w ex_tlf md = Ok true) as Hrd.
  { unfold isReader, checkPerms. change Merged with (status_of NullBranchID).
    rewrite (getHeadForTLF_spec ex_L ex_HL md _ B) by done. by rewrite ex_history2. }
  rewrite (GetRange_history ex_L ex_HL md _ B ex_w ex_tlf NullBranchID Merged NullBranchID 1%Z 1%Z
      Hh Hsd eq_refl eq_refl Hrd (conj eq_refl eq_refl)); [|done|by intros _].
  by rewrite ex_history2.
Qed.

Lemma ex_GetRange2 : GetRange ex_w ex_tlf NullBranchID Merged 1%Z 1%Z (mw_server (mf_world ex_fetch2)) = Ok [ex_block2].
Proof. destruct ex_holds2 as (B & Hh & Hsd). exact (ex_GetRange_of ex_server2 B Hh Hsd). Qed.

(** The handle of the folder. *)
Definition ex_handle2 : TlfHandle :=
  Eval vm_compute in match (h ← makeBareTlfHandle (rmds_MD ex_ready); make_handle h) with Ok h => h | _ => MkTlfHandle (MkBareTlfHandle [] [] [] [] None) ∅ ∅ "" end.
Lemma ex_handle2_ok : (h ← makeBareTlfHandle (rmds_MD ex_ready); make_handle h) = Ok ex_handle2.
Proof. vm_compute. reflexivity. Qed.

(** The id of the metadata is not computed: the client accepts it with any. *)
Lemma ex_process2 md id :
  fst (processMetadataWithID (H14 := MDOpsStandard 0 ex_w) ex_tlf NullBranchID ex_handle2 (MkRmdSigned 0 (rmds_SigInfo ex_ready) 7)
    (ex_fetch md [MkRootMetadata (rmds_MD ex_ready) zeroPrivateMetadata None id])) = Ok tt.
Proof. vm_compute. reflexivity. Qed.

Lemma ex_range2_ok :
  fst (@ops_getRange _ (MDOpsStandard 1 ex_w) ex_tlf NullBranchID Merged 1%Z 1%Z ex_fetch2) = Ok [0].
Proof.
  destruct (MakeMdID_total (rmds_MD ex_ready)) as [id Hid]; [vm_compute; discriminate|].
  exact (getRange_one ex_w ex_tlf NullBranchID Merged 1%Z 1%Z ex_fetch2 ex_block2 id ex_handle2 ex_GetRange2 Hid
    ex_handle2_ok (ex_process2 ex_server2 id)).
Qed.

Lemma Ok_eq {A} (a b : A) : Ok a = Ok b → b = a.
Proof. congruence. Qed.

Lemma getRange_verified_witness :
  md_verified ex_tlf NullBranchID (rmds_MD ex_ready) (rmds_SigInfo ex_ready) 7.
Proof.
  destruct (@ops_getRange _ (MDOpsStandard 1 ex_w) ex_tlf NullBranchID Merged 1%Z 1%Z ex_fetch2) as [r s'] eqn:E.
  pose proof ex_range2_ok as Hok. rewrite E in Hok. cbn [fst] in Hok. subst r.
  destruct (getRange_verified 1 ex_w ex_tlf NullBranchID Merged 1%Z 1%Z ex_fetch2 s' [0] E) as (blocks & Hb & Hall & _).
  pose proof (eq_trans (eq_sym ex_GetRange2) Hb) as Hb'. rewrite (Ok_eq _ _ Hb') in Hall.
  apply Forall2_cons in Hall as [(md & _ & Hmd & Hv) _]. rewrite Hmd in Hv.
  unfold ex_block2 in Hv. cbn [mbl_MD mbl_Timestamp] in Hv. exact Hv.
Defined.

Lemma ex_readyMD2 : readyMD 0 ex_fetch0 = (Ok ex_ready, snd (readyMD 0 ex_fetch0)).
Proof. rewrite <- ex_ready_ok. apply surjective_pairing. Qed.

(** *** The private folder *)

#[local] Instance ex_ser_WriterMetadata : Codec WriterMetadata := ser_codec.
#[local] Instance ex_ser_BareRootMetadata : Codec BareRootMetadata := ser_codec.

(** The writer's client, and the reader's, which knows the writer's signing
    key and has another one. *)
Definition ex_signer : MDConfig := {|
  mc_keys := ex_device "w" "aa"; HasVerifyingKey _ _ _ := Ok tt; signingKey := [x01] |}.
Definition ex_reader : MDConfig := {|
  mc_keys := ex_device "r" "bb";
  HasVerifyingKey u k _ := if decide (u = "w" ∧ k = nacl_public [x01]) then Ok tt else Err (KeyNotFoundError k);
  signingKey := [x02] |}.

(** Both have found the key of the folder before. *)
Definition ex_cached_keys : keyState memdb :=
  MkKeyState (MkKeyServerLocal (Some ∅) false) (fst (lru_Add (ex_private_tlf, 1%Z) ex_key (MkLRU 10 []))) (replicate 200 x07).
Definition ex_private_fetch (l : list RootMetadata) : mdFetch (mdWorld memdb) :=
  MkMdFetch l (MkLRU 10 []) (MkMdWorld ex_cached_keys ex_server0).
Definition ex_private_handle : TlfHandle :=
  MkTlfHandle (MkBareTlfHandle ["w"] ["r"] [] [] None) {["w" := "w"]} {["r" := "r"]} "w#r".

Definition ex_private_signed : RootMetadataSigned :=
  Eval vm_compute in match fst (readyMD (H2 := ex_signer) 0 (ex_private_fetch [ex_private])) with Ok rmds => rmds | _ => ex_rmds end.
Lemma ex_private_signed_ok : fst (readyMD (H2 := ex_signer) 0 (ex_private_fetch [ex_private])) = Ok ex_private_signed.
Proof. vm_compute. reflexivity. Qed.
Lemma ex_private_readied : readyMD (H2 := ex_signer) 0 (ex_private_fetch [ex_private]) =
  (Ok ex_private_signed, snd (readyMD (H2 := ex_signer) 0 (ex_private_fetch [ex_private]))).
Proof. rewrite <- ex_private_signed_ok. apply surjective_pairing. Qed.

Lemma ex_private_same_key : same_key ex_signer ex_reader (set_bare (set_wm (wm_set_writer "w")) ex_private)
  ex_cached_keys (rmds_MD ex_private_signed) ex_cached_keys.
Proof.
  intros k md Hk Hmd. assert (k = ex_key) as -> by (vm_compute in Hk; by injection Hk as <-).
  unfold GetTLFCryptKeyForMDDecryption, getTLFCryptKey. rewrite Hmd. vm_compute. reflexivity.
Qed.

Lemma readyMD_accepted_witness :
  TlfID_IsPublic (bm_ID (rmd_bare ex_private)) = false ∧
  ∃ t' md', processMetadata (H2 := ex_reader) (H14 := MDOpsStandard (H2 := ex_reader) 0 ex_w) ex_private_handle
      (MkRmdSigned 0 (rmds_SigInfo ex_private_signed) 9)
      (ex_private_fetch [MkRootMetadata (rmds_MD ex_private_signed) zeroPrivateMetadata None zeroMdID]) = (Ok tt, t') ∧
    mf_mds t' !! 0 = Some md' ∧ rmd_bare md' = rmds_MD ex_private_signed ∧ rmd_data md' = ex_pmd.
Proof.
  split; [vm_compute; reflexivity|].
  apply (readyMD_accepted ex_signer ex_reader "w" "w" 0 (ex_private_fetch [ex_private])
    (snd (readyMD (H2 := ex_signer) 0 (ex_private_fetch [ex_private]))) ex_private ex_private_signed ex_private_handle 9
    (ex_private_fetch [MkRootMetadata (rmds_MD ex_private_signed) zeroPrivateMetadata None zeroMdID]) 0
    (MkRootMetadata (rmds_MD ex_private_signed) zeroPrivateMetadata None zeroMdID)).
  - reflexivity.
  - reflexivity.
  - vm_compute. reflexivity.
  - vm_compute. reflexivity.
  - vm_compute. reflexivity.
  - vm_compute. reflexivity.
  - vm_compute. reflexivity.
  - exact ex_private_readied.
  - intros _. exact ex_private_same_key.
  - reflexivity.
  - reflexivity.
Defined.
