(* ===== verification/DirOps.v ===== *)
(** * DirOps: changing directories ([folder_branch_ops.go])

    An operation on a directory makes the successor of the head metadata,
    changes a copy of the directory block, readies every block from there
    to the root of the folder, puts the blocks to the server and then the
    metadata, which makes the change visible.  The state of an operation is
    the folder's, with the objects that the operation builds: the new
    metadata, the local block cache, and the blocks to put.  Directories are
    given by their path, which the node cache knows.  The servers, the caches
    of clean blocks and of metadata, the clock and the background services
    are the interface [BranchConfig]. *)

From Stdlib Require Import ZArith Lia.
From S2P Require Import Prelude Types Errors GoStd Ids RekeyQueue CryptoCommon Splitter DataTypes Ops ConflictInfo Handles KeyBundles Metadata FolderBlocks Lru MDUtil BlockManager.

Definition maxRetriesOnRecoverableErrors : nat := 10.
Definition disallowedPrefixes : list string := [".kbfs"%string].

Class BranchConfig (W : Type) := {
  bc_folderBranch : FolderBranch;
  bc_MaxNameBytes : Z;
  bc_MaxDirBytes : Z;
  (** [BlockCache().CheckForKnownPtr] and [DeleteKnownPtr] *)
  bc_CheckForKnownPtr : FileBlock → go W BlockPointer;
  bc_DeleteKnownPtr : FileBlock → go W unit;
  (** [BlockOps().Ready] and [Put], [BlockCache().Put] *)
  bc_Ready : RootMetadata → Block → go W (BlockID * Z * list byte);
  bc_PutBlock : RootMetadata → BlockPointer → list byte → go W unit;
  bc_CacheBlock : BlockPointer → Block → go W unit;
  (** [Crypto()] and [Clock()] *)
  bc_MakeBlockRefNonce : go W BlockRefNonce;
  bc_MakeRandomBranchID : go W BranchID;
  bc_Now : go W Z;
  (** [MDOps()], which fills in the metadata, [MDServer()], [MDCache()] *)
  bc_PutMD : RootMetadata → go W RootMetadata;
  bc_PutUnmergedMD : RootMetadata → BranchID → go W RootMetadata;
  bc_PruneBranch : BranchID → go W unit;
  bc_CacheMD : RootMetadata → go W unit;
  (** the resolver, the rekey queue, the block manager, the observers *)
  bc_Resolve : MetadataRevision → MetadataRevision → go W unit;
  bc_Enqueue : TlfID → go W unit;
  bc_archiveUnrefBlocks : RootMetadata → go W unit;
  bc_cleanUpBlockState : RootMetadata → list BlockPointer → go W unit;
  bc_notifyBatch : RootMetadata → go W unit;
  bc_tlfHandleChange : TlfHandle → go W unit;
  bc_registerForUpdates : go W unit;
  (** [nodeCache.GetOrCreate] for an entry of the directory *)
  bc_GetOrCreate : BlockPointer → string → path → go W unit;
  (** [MDOps()], for a folder without a head, and the identify of its users *)
  bc_GetUnmergedForTLF : go W (option RootMetadata);
  bc_GetForTLF : go W RootMetadata;
  bc_identifyOnce : RootMetadata → go W unit;
  (** [KeyManager().Rekey], with the new metadata, and [KeyCache()] *)
  bc_Rekey : RootMetadata → go W (bool * option (list byte) * RootMetadata);
  bc_PutTLFCryptKey : TlfID → KeyGen → list byte → go W unit
}.

Record folderBranchOps (W : Type) := MkBranch {
  br_blocks : folderBlockOps;
  br_head : option RootMetadata;
  br_staged : bool;
  br_bid : BranchID;
  br_world : W;
  br_md : RootMetadata;                       (* the successor, of an operation *)
  br_lbc : gmap BlockPointer addr;            (* its local block cache *)
  br_bps : list blockState                    (* and its blocks to put *)
}.
Arguments MkBranch {W}.
Arguments br_blocks {W} _.
Arguments br_head {W} _.
Arguments br_staged {W} _.
Arguments br_bid {W} _.
Arguments br_world {W} _.
Arguments br_md {W} _.
Arguments br_lbc {W} _.
Arguments br_bps {W} _.

(** Changes of a directory entry. *)
Definition de_set_info (i : EntryInfo) (e : DirEntry) : DirEntry := MkDirEntry (de_BlockInfo e) i.
Definition de_set_BlockInfo (b : BlockInfo) (e : DirEntry) : DirEntry := MkDirEntry b (de_EntryInfo e).
Definition de_set_Type (t : EntryType) (e : DirEntry) : DirEntry :=
  let i := de_EntryInfo e in de_set_info (MkEntryInfo t (ei_Size i) (ei_SymPath i) (ei_Mtime i) (ei_Ctime i)) e.
Definition de_set_Size (z : Z) (e : DirEntry) : DirEntry :=
  let i := de_EntryInfo e in de_set_info (MkEntryInfo (ei_Type i) z (ei_SymPath i) (ei_Mtime i) (ei_Ctime i)) e.
Definition de_set_Mtime (t : Z) (e : DirEntry) : DirEntry :=
  let i := de_EntryInfo e in de_set_info (MkEntryInfo (ei_Type i) (ei_Size i) (ei_SymPath i) t (ei_Ctime i)) e.
Definition de_set_Ctime (t : Z) (e : DirEntry) : DirEntry :=
  let i := de_EntryInfo e in de_set_info (MkEntryInfo (ei_Type i) (ei_Size i) (ei_SymPath i) (ei_Mtime i) t) e.
Definition zeroEntry : DirEntry := MkDirEntry zeroBlockInfo (MkEntryInfo File 0 EmptyString 0 0).

Definition child (name : string) (b : DirBlock) : option DirEntry := db_Children b !! name.
Definition set_child (name : string) (e : DirEntry) (b : DirBlock) : DirBlock :=
  MkDirBlock (db_CommonBlock b) (<[name := e]> (db_Children b)) (db_IPtrs b).
Definition remove_child (name : string) (b : DirBlock) : DirBlock :=
  MkDirBlock (db_CommonBlock b) (delete name (db_Children b)) (db_IPtrs b).

(** [SetEncodedSize] *)
Definition with_size (z : Z) (b : Block) : Block :=
  let c c := MkCommonBlock (cb_IsInd c) z in
  match b with
  | CommonB x => CommonB (c x)
  | DirB d => DirB (MkDirBlock (c (db_CommonBlock d)) (db_Children d) (db_IPtrs d))
  | FileB f => FileB (MkFileBlock (c (fb_CommonBlock f)) (fb_Contents f) (fb_IPtrs f))
  end.

Section branch.
Context {W : Type} `{Config, Codec FileBlock, Codec DirBlock, BranchConfig W, Codec BlockChanges, Codec BareRootMetadata, Codec PrivateMetadata, Codec TlfHandle}.
Abbreviation fbo := (folderBranchOps W).

Definition set_blocks b (s : fbo) : fbo := MkBranch b (br_head s) (br_staged s) (br_bid s) (br_world s) (br_md s) (br_lbc s) (br_bps s).
Definition set_head h (s : fbo) : fbo := MkBranch (br_blocks s) h (br_staged s) (br_bid s) (br_world s) (br_md s) (br_lbc s) (br_bps s).
Definition set_staged st bid (s : fbo) : fbo := MkBranch (br_blocks s) (br_head s) st bid (br_world s) (br_md s) (br_lbc s) (br_bps s).
Definition set_world (w : W) (s : fbo) : fbo := MkBranch (br_blocks s) (br_head s) (br_staged s) (br_bid s) w (br_md s) (br_lbc s) (br_bps s).
Definition set_md md (s : fbo) : fbo := MkBranch (br_blocks s) (br_head s) (br_staged s) (br_bid s) (br_world s) md (br_lbc s) (br_bps s).
Definition set_lbc l (s : fbo) : fbo := MkBranch (br_blocks s) (br_head s) (br_staged s) (br_bid s) (br_world s) (br_md s) l (br_bps s).
Definition set_bps b (s : fbo) : fbo := MkBranch (br_blocks s) (br_head s) (br_staged s) (br_bid s) (br_world s) (br_md s) (br_lbc s) b.

Definition on_blocks {A} (m : go folderBlockOps A) : go fbo A := λ s, let '(r, b) := m (br_blocks s) in (r, set_blocks b s).
Definition on_world {A} (m : go W A) : go fbo A := λ s, let '(r, w) := m (br_world s) in (r, set_world w s).
Definition on_md {A} (m : go RootMetadata A) : go fbo A := λ s, let '(r, md) := m (br_md s) in (r, set_md md s).

(** ** Readying blocks *)

Definition ReadyBlock (a : addr) (uid : UID) : go fbo (BlockInfo * Z * list byte) :=
  block ← on_blocks (load a);
  ptr ← (match block with
         | FileB f => if fb_IsInd f then mret zeroPtr else on_world (bc_CheckForKnownPtr f)
         | _ => mret zeroPtr
         end);
  s ← get;
  '(id, plainSize, readyBlockData) ← on_world (bc_Ready (br_md s) block);
  let encodedSize := to_u32 (zlen readyBlockData) in
  _ ← on_blocks (store a (with_size encodedSize block));
  ptr ← (if IsInitialized ptr then
           nonce ← on_world bc_MakeBlockRefNonce;
           mret (snd (SetWriter uid (MkBlockPointer (bp_ID ptr) (bp_KeyGen ptr) (bp_DataVer ptr) (bp_Creator ptr) (bp_Writer ptr) nonce)))
         else mret (MkBlockPointer id (LatestKeyGeneration (rmd_bare (br_md s))) cfg_DataVersion uid EmptyString zeroBlockRefNonce));
  mret (MkBlockInfo ptr encodedSize, plainSize, readyBlockData).

Definition readyBlockMultiple (a : addr) (uid : UID) : go fbo (BlockInfo * Z) :=
  '(info, plainSize, readyBlockData) ← ReadyBlock a uid;
  _ ← modify (λ s, set_bps (br_bps s ++ [MkBlockState (bi_BlockPointer info) a readyBlockData]) s);
  mret (info, plainSize).

(** The change lists in a block of their own. *)
Definition unembedBlockChanges (uid : UID) : go fbo unit :=
  s ← get;
  let changes := pmd_Changes (rmd_data (br_md s)) in
  buf ← lift_res (Encode changes);
  a ← on_blocks (alloc (FileB (MkFileBlock (MkCommonBlock false 0) buf [])));
  '(info, _) ← readyBlockMultiple a uid;
  modify (λ s,
    let md := br_md s in
    let d := rmd_data md in
    let wm := bm_WriterMetadata (rmd_bare md) in
    let size := bi_EncodedSize info in
    set_md (MkRootMetadata
      (set_wm (wm_set_bytes (to_u64 (wm_DiskUsage wm + size)) (to_u64 (wm_RefBytes wm + size)) (wm_UnrefBytes wm)) (rmd_bare md))
      (MkPrivateMetadata (pmd_Dir d) (pmd_TLFPrivateKey d) (MkBlockChanges info [] (bc_sizeEstimate changes)) changes)
      (rmd_tlfHandle md) (rmd_mdID md)) s).

(** ** Syncing the blocks of a path *)

(** The entry that gets the block: the size of a directory, the times. *)
Definition fill_entry (plainSize : Z) (info : BlockInfo) (setM setC : bool) (now : Z) (de : DirEntry) : DirEntry :=
  let de := if decide (ei_Type (de_EntryInfo de) = Dir) then de_set_Size (to_u64 plainSize) de else de in
  let de := de_set_BlockInfo info de in
  let de := if setM then de_set_Mtime now de else de in
  if setC then de_set_Ctime now de else de.

Definition md_set_Dir (de : DirEntry) (md : RootMetadata) : RootMetadata :=
  let d := rmd_data md in
  MkRootMetadata (rmd_bare md) (MkPrivateMetadata de (pmd_TLFPrivateKey d) (pmd_Changes d) (pmd_cachedChanges d))
    (rmd_tlfHandle md) (rmd_mdID md).

(** The loop of [syncBlock]: [rest] are the nodes of the path above, from
    the last one; [newPath] and [newDe] are what was made below. *)
Fixpoint sync_loop (uid : UID) (fb : FolderBranch) (entryType : EntryType) (mtime ctime : bool) (stopAt : BlockPointer)
    (now : Z) (rest : list pathNode) (currBlock : addr) (currName : string) (doSetTime : bool)
    (newPath : list pathNode) (newDe : DirEntry) : go fbo (list pathNode * DirEntry) :=
  '(info, plainSize) ← readyBlockMultiple currBlock uid;
  let first := bool_decide (newPath = []) in
  let newPath := MkPathNode (bi_BlockPointer info) currName :: newPath in
  let fill := fill_entry plainSize info (doSetTime && mtime) (doSetTime && ctime) now in
  let keep (de : DirEntry) := if DirEntry_IsInitialized newDe then newDe else de in
  match rest with
  | [] =>
      s ← get;
      let old := pmd_Dir (rmd_data (br_md s)) in
      let de := fill old in
      _ ← on_md (md_AddUpdate (de_BlockInfo old) info);
      _ ← modify (λ s, set_md (md_set_Dir de (br_md s)) s);
      mret (newPath, keep de)
  | node :: rest' =>
      let prevDir := MkPath fb (reverse rest) in
      s ← get;
      prevDblock ← (match br_lbc s !! pn_BlockPointer node with
                    | Some a => mret a
                    | None => on_blocks (getDirLocked prevDir blockWrite)
                    end);
      block ← on_blocks (load_dir prevDblock);
      '(de, isNew) ← (match child currName block with
                      | Some de => mret (de, false)
                      | None =>
                          if first then mret (de_set_Type entryType zeroEntry, true)
                          else fail (NoSuchNameError currName)
                      end);
      let de' := fill de in
      _ ← on_md (if (isNew : bool) then md_AddRefBlock info else md_AddUpdate (de_BlockInfo de) info);
      _ ← on_blocks (store prevDblock (DirB (set_child currName de' block)));
      if decide (pn_BlockPointer node = stopAt) then
        _ ← modify (λ s, set_lbc (<[stopAt := prevDblock]> (br_lbc s)) s);
        mret (newPath, keep de')
      else sync_loop uid fb entryType mtime ctime stopAt now rest' prevDblock (pn_Name node) isNew newPath (keep de')
  end.

Definition syncBlock (uid : UID) (newBlock : addr) (dir : path) (name : string) (entryType : EntryType)
    (mtime ctime : bool) (stopAt : BlockPointer) : go fbo (path * DirEntry) :=
  now ← on_world bc_Now;
  '(newPath, newDe) ← sync_loop uid (p_FolderBranch dir) entryType mtime ctime stopAt now (reverse (p_path dir)) newBlock name true []
    (MkDirEntry zeroBlockInfo (MkEntryInfo File 0 EmptyString 0 0));
  mret (MkPath (p_FolderBranch dir) newPath, newDe).

(** [syncBlockAndCheckEmbedLocked]; the blocks to put are added to those
    of the operation. *)
Definition syncBlockAndCheckEmbedLocked (newBlock : addr) (dir : path) (name : string) (entryType : EntryType)
    (mtime ctime : bool) (stopAt : BlockPointer) : go fbo (path * DirEntry) :=
  '(_, uid) ← lift_res cfg_CurrentUser;
  r ← syncBlock uid newBlock dir name entryType mtime ctime stopAt;
  s ← get;
  _ ← (if ShouldEmbedBlockChanges cfg_BlockSplitter (bc_sizeEstimate (pmd_Changes (rmd_data (br_md s)))) then mret tt
       else unembedBlockChanges uid);
  mret r.

(** ** Putting blocks *)

Definition isRecoverableBlockError (e : error) : bool :=
  match e with
  | BServerErrorBlockArchived _ | BServerErrorBlockDeleted _ | BServerErrorBlockNonExistent _ => true
  | _ => false
  end.

(** The puts in the order they take effect.  The first error is the one
    that is returned; when it is not recoverable, [more] puts at most follow
    it.  The addresses are those of the file blocks to remove. *)
Fixpoint put_blocks (l : list blockState) (err : option error) (more : nat) : go fbo (option error * list addr) :=
  match l with
  | [] => mret (err, [])
  | b :: l =>
      let final := match err with Some e => negb (isRecoverableBlockError e) | None => false end in
      if final && bool_decide (more = 0) then mret (err, [])
      else
        let more := if final then pred more else more in
        s ← get;
        r ← on_world (try (bc_PutBlock (br_md s) (bst_blockPtr b) (bst_readyBlockData b)));
        match r with
        | inl _ => put_blocks l err more
        | inr e =>
            block ← on_blocks (load (bst_block b));
            let remove := match block with
                          | FileB f => if isRecoverableBlockError e && negb (fb_IsInd f) then [bst_block b] else []
                          | _ => []
                          end in
            '(err, l') ← put_blocks l (Some (default e err)) more;
            mret (err, remove ++ l')
        end
  end.

(** The file blocks that the server does not have any more. *)
Fixpoint forget_blocks (l : list addr) : go fbo (list BlockPointer) :=
  match l with
  | [] => mret []
  | a :: l =>
      s ← get;
      let ptrs := bst_blockPtr <$> filter (λ b, bst_block b = a) (br_bps s) in
      f ← on_blocks (load_file a);
      _ ← on_world (try (bc_DeleteKnownPtr f));
      rest ← forget_blocks l;
      mret (ptrs ++ rest)
  end.

Definition doBlockPuts (sched : downgradeSched) : go fbo (list BlockPointer * option error) :=
  s ← get;
  '(err, l) ← put_blocks (reorder (ds_order sched) (br_bps s)) None (ds_more sched);
  match err with
  | Some e =>
      if isRecoverableBlockError e then ptrs ← forget_blocks l; mret (ptrs, err) else mret ([], err)
  | None => mret ([], None)
  end.

Definition finalizeBlocks : go fbo unit :=
  s ← get;
  go_for (br_bps s) (λ b,
    if IsFirstRef (bst_blockPtr b) then
      block ← on_blocks (load (bst_block b)); on_world (bc_CacheBlock (bst_blockPtr b) block)
    else mret tt).

(** ** The head *)

(** The object [br_md] becomes the head.  The status and the reports are not
    part of the state. *)
Definition setHeadLocked : go fbo unit :=
  s ← get;
  old ← (match br_head s with
         | None => mret None
         | Some head =>
             mdID ← on_md MetadataID;
             match MetadataID head with
             | (Ok headID, head') =>
                 _ ← modify (set_head (Some head'));
                 if decide (headID = mdID) then mret (Some None)
                 else oldHandle ← lift_res (GetTlfHandle head); mret (Some (Some oldHandle))
             | (Err e, head') => _ ← modify (set_head (Some head')); fail e
             | (Panic p, _) => panic p
             end
         end);
  match old with
  | Some None => mret tt
  | _ =>
      s ← get;
      let md := br_md s in
      _ ← on_world (bc_CacheMD md);
      _ ← (match old with
           | None =>
               if decide (MergedStatus (rmd_bare md) = Unmerged) then
                 _ ← modify (set_staged true (bm_BID (rmd_bare md)));
                 on_world (bc_Resolve (bm_Revision (rmd_bare md)) MetadataRevisionUninitialized)
               else mret tt
           | Some _ => mret tt
           end);
      _ ← modify (set_head (Some md));
      match old with
      | Some (Some oldHandle) =>
          h ← lift_res (GetTlfHandle md);
          if decide (oldHandle = h) then mret tt else on_world (bc_tlfHandleChange h)
      | _ =>
          if decide (fbr_Branch bc_folderBranch = MasterBranch) then on_world bc_registerForUpdates else mret tt
      end
  end.

(** The first metadata of a folder, for the object [br_md]; the error of
    [setHeadLocked] is not looked at. *)
Definition initMDLocked : go fbo unit :=
  '(username, uid) ← lift_res cfg_CurrentUser;
  s ← get;
  handle ← lift_res (GetTlfHandle (br_md s));
  if negb (handle_IsWriter (th_Bare handle) uid) then fail (WriteAccessError username)
  else
    newDblock ← on_blocks (alloc (DirB (MkDirBlock (MkCommonBlock false 0) ∅ [])));
    '(expectedKeyGen, tlfCryptKey) ←
      (if TlfID_IsPublic (bm_ID (rmd_bare (br_md s))) then mret (PublicKeyGen, None)
       else
         '(rekeyDone, key, md) ← on_world (bc_Rekey (br_md s));
         _ ← modify (set_md md);
         if negb (rekeyDone : bool) then fail (Errorf "Initial rekey unexpectedly not done for private TLF %v")
         else mret (FirstValidKeyGen, key));
    s ← get;
    let keyGen := LatestKeyGeneration (rmd_bare (br_md s)) in
    if decide (keyGen ≠ expectedKeyGen) then fail (InvalidKeyGenerationError keyGen)
    else
      '(info, plainSize, readyBlockData) ← ReadyBlock newDblock uid;
      now ← on_world bc_Now;
      _ ← modify (λ s, set_md (md_set_Dir (MkDirEntry info (MkEntryInfo Dir (to_u64 plainSize) EmptyString now now)) (br_md s)) s);
      _ ← on_md (md_AddOp (CreateOp (newCreateOp EmptyString zeroPtr Dir)));
      _ ← on_md (md_AddRefBlock info);
      _ ← modify (λ s, set_md (set_bare (set_wm (wm_set_bytes (wm_DiskUsage (bm_WriterMetadata (rmd_bare (br_md s))))
                                                  (wm_RefBytes (bm_WriterMetadata (rmd_bare (br_md s)))) 0)) (br_md s)) s);
      s ← get;
      _ ← on_world (bc_PutBlock (br_md s) (bi_BlockPointer info) readyBlockData);
      block ← on_blocks (load newDblock);
      _ ← on_world (bc_CacheBlock (bi_BlockPointer info) block);
      s ← get;
      md ← on_world (bc_PutMD (br_md s));
      _ ← modify (set_md md);
      s ← get;
      match br_head s with
      | Some _ => fail (Errorf "%v: Unexpected MD ID during new MD initialization: %v")
      | None =>
          _ ← try setHeadLocked;
          match tlfCryptKey with
          | Some k => on_world (bc_PutTLFCryptKey (bm_ID (rmd_bare md)) keyGen k)
          | None => mret tt
          end
      end.

(** [getMDLocked] with [mdWrite]: the metadata is the head, or else the
    object [br_md]. *)
Definition getMDLocked : go fbo RootMetadata :=
  s ← get;
  _ ← (match br_head s with
       | Some _ => mret tt
       | None =>
           unmerged ← on_world bc_GetUnmergedForTLF;
           md ← (match unmerged with Some md => mret md | None => on_world bc_GetForTLF end);
           _ ← modify (set_md md);
           if bool_decide (ei_Type (de_EntryInfo (pmd_Dir (rmd_data md))) ≠ Dir) &&
              (negb (md_IsInitialized (rmd_bare md)) || IsReadable md)
           then initMDLocked else setHeadLocked
       end);
  s ← get;
  let md := default (br_md s) (br_head s) in
  _ ← on_world (bc_identifyOnce md);
  mret md.

Definition getMDForWriteLocked : go fbo unit :=
  md ← getMDLocked;
  '(username, uid) ← lift_res cfg_CurrentUser;
  handle ← lift_res (GetTlfHandle md);
  if negb (handle_IsWriter (th_Bare handle) uid) then fail (WriteAccessError username)
  else
    let '(r, md') := MakeSuccessor true md in
    _ ← modify (λ s, set_head (match br_head s with Some _ => Some md' | None => None end) s);
    newMd ← lift_res r;
    modify (λ s, set_bps [] (set_lbc ∅ (set_md newMd s))).

(** The cached block changes are swapped back. *)
Definition swap_changes (md : RootMetadata) : res RootMetadata :=
  let d := rmd_data md in
  match bc_Ops (pmd_Changes d) with
  | [] =>
      let c := pmd_cachedChanges d in
      match bc_Ops c with
      | [] => Panic "index out of range"
      | o :: ops =>
          let ops := AddRefBlock (bi_BlockPointer (bc_Info (pmd_Changes d))) o :: ops in
          Ok (MkRootMetadata (rmd_bare md)
            (MkPrivateMetadata (pmd_Dir d) (pmd_TLFPrivateKey d) (MkBlockChanges (bc_Info c) ops (bc_sizeEstimate c)) (pmd_Changes d))
            (rmd_tlfHandle md) (rmd_mdID md))
      end
  | _ => Ok md
  end.

(** [isRevisionConflict] *)
Definition revision_conflict (e : error) : bool :=
  match e with
  | MDServerErrorConflictRevision _ _ | MDServerErrorConflictPrevRoot _ _ | MDServerErrorConflictDiskUsage _ _
  | MDServerErrorConditionFailed | MDServerErrorConflictFolderMapping => true
  | _ => false
  end.

(** The put of the new metadata, as an unmerged one after a conflict. *)
Definition put_metadata : go fbo unit :=
  s ← get;
  let wasStaged := br_staged s in
  conflict ← (if wasStaged then mret None
              else
                r ← on_world (try (bc_PutMD (br_md s)));
                match r with
                | inl md => _ ← modify (set_md md); mret (Some false)
                | inr e => if revision_conflict e then mret (Some true) else fail e
                end);
  s ← get;
  let md := br_md s in
  let mergedRev := match conflict with Some true => bm_Revision (rmd_bare md) | _ => MetadataRevisionUninitialized end in
  match conflict with
  | Some false =>
      _ ← (if br_staged s then on_world (bc_PruneBranch (br_bid s)) else mret tt);
      modify (set_staged false NullBranchID)
  | _ =>
      bid ← (if wasStaged then mret (br_bid s) else on_world bc_MakeRandomBranchID);
      md ← on_world (bc_PutUnmergedMD md bid);
      _ ← modify (λ s, set_staged true bid (set_md md s));
      on_world (bc_Resolve (bm_Revision (rmd_bare md)) mergedRev)
  end.

Definition finalizeMDWriteLocked : go fbo unit :=
  _ ← put_metadata;
  s ← get;
  let rekey := negb (br_staged s) && IsRekeySet (rmd_bare (br_md s)) && negb (IsWriterMetadataCopiedSet (rmd_bare (br_md s))) in
  r ← try (
    md ← lift_res (swap_changes (br_md s));
    _ ← modify (set_md md);
    _ ← finalizeBlocks;
    _ ← setHeadLocked;
    s ← get;
    _ ← on_world (bc_archiveUnrefBlocks (br_md s));
    on_world (bc_notifyBatch (br_md s)));
  s ← get;
  _ ← (if rekey then on_world (bc_Enqueue (bm_ID (rmd_bare (br_md s)))) else mret tt);
  match r with inl _ => mret tt | inr e => fail e end.

(** The puts of an operation; when they fail its blocks are to be deleted. *)
Definition put_and_finalize (sched : downgradeSched) : go fbo unit :=
  r ← try (
    '(_, err) ← doBlockPuts sched;
    match err with Some e => fail e | None => finalizeMDWriteLocked end);
  match r with
  | inl _ => mret tt
  | inr e =>
      s ← get;
      _ ← on_world (bc_cleanUpBlockState (br_md s) (bst_blockPtr <$> br_bps s));
      fail e
  end.

Definition syncBlockAndFinalizeLocked (sched : downgradeSched) (newBlock : addr) (dir : path) (name : string)
    (entryType : EntryType) (mtime ctime : bool) : go fbo DirEntry :=
  '(_, de) ← syncBlockAndCheckEmbedLocked newBlock dir name entryType mtime ctime zeroPtr;
  _ ← put_and_finalize sched;
  mret de.

(** ** Rekeys and garbage collection *)

Definition finalizeMDRekeyWriteLocked : go fbo unit :=
  s ← get;
  r ← on_world (try (bc_PutMD (br_md s)));
  match r with
  | inr e =>
      _ ← (if revision_conflict e then on_world (bc_Enqueue (bm_ID (rmd_bare (br_md s)))) else mret tt);
      fail e
  | inl md =>
      _ ← modify (λ s, set_staged false NullBranchID (set_md md s));
      setHeadLocked
  end.

Definition finalizeGCOp (sched : downgradeSched) (gco : gcOp) : go fbo unit :=
  _ ← getMDForWriteLocked;
  s ← get;
  if decide (MergedStatus (rmd_bare (br_md s)) = Unmerged) then fail UnexpectedUnmergedPutError
  else
    _ ← on_md (md_AddOp (GcOp gco));
    s ← get;
    _ ← (if ShouldEmbedBlockChanges cfg_BlockSplitter (bc_sizeEstimate (pmd_Changes (rmd_data (br_md s)))) then mret tt
         else
           '(_, uid) ← lift_res cfg_CurrentUser;
           _ ← unembedBlockChanges uid;
           '(ptrsToDelete, err) ← doBlockPuts sched;
           match err with
           | Some e => fail e
           | None =>
               if decide (0 < length ptrsToDelete)
               then fail (Errorf "Unexpected pointers to delete after unembedding block changes in gc op: %v") else mret tt
           end);
    s ← get;
    md ← on_world (bc_PutMD (br_md s));
    _ ← modify (λ s, set_staged false NullBranchID (set_md md s));
    _ ← setHeadLocked;
    s ← get;
    on_world (bc_notifyBatch (br_md s)).

(** ** Folders that may be new *)

Definition checkNode (nodeFB : FolderBranch) : res unit :=
  if decide (nodeFB = bc_folderBranch) then Ok tt else Err (WrongOpsError bc_folderBranch nodeFB).

Definition CheckForNewMDAndInit (md : RootMetadata) : go fbo bool :=
  _ ← lift_res (checkNode (MkFolderBranch (bm_ID (rmd_bare md)) MasterBranch));
  _ ← on_world (bc_identifyOnce md);
  _ ← modify (set_md md);
  if decide (ei_Type (de_EntryInfo (pmd_Dir (rmd_data md))) = Dir) then
    s ← get;
    _ ← (match br_head s with None => setHeadLocked | Some _ => mret tt end);
    mret false
  else _ ← initMDLocked; mret true.
End branch.
