(* ===== verification/DirWrites.v ===== *)
(** * DirWrites: the operations on directories ([folder_branch_ops.go],
    [PrepRename] of [folder_block_ops.go])

    Creating and removing entries, links, renames and attributes, on top of
    [DirOps].  The path of the directory is the one that the node cache has
    for its node. *)

From Stdlib Require Import ZArith Lia.
From S2P Require Import Prelude Types Errors GoStd Ids RekeyQueue CryptoCommon Splitter DataTypes Ops ConflictInfo Handles KeyBundles Metadata FolderBlocks Lru MDUtil BlockManager DirOps.

Section writes.
Context {W : Type} `{Config, Codec FileBlock, Codec DirBlock, BranchConfig W, Codec BlockChanges, Codec BareRootMetadata, Codec PrivateMetadata, Codec TlfHandle}.
Abbreviation fbo := (folderBranchOps W).

(** ** Checks *)

Definition checkDisallowedPrefixes (name : string) : res unit :=
  foldr (λ prefix r, if String.prefix prefix name then Err (DisallowedPrefixError name prefix) else r) (Ok tt) disallowedPrefixes.

(** [pathFromNodeHelper]: the path that the node cache has. *)
Definition pathFromNode (p : path) : res path := if path_isValid p then Ok p else Err (InvalidPathError p).

Definition name_length (name : string) : Z := Z.of_nat (String.length name).

Definition checkNewDirSize (dirPath : path) (newName : string) : go fbo unit :=
  s ← get;
  currSize ← (if hasValidParent dirPath then de ← on_blocks (getDirtyEntryLocked dirPath); mret (ei_Size (de_EntryInfo de))
              else mret (ei_Size (de_EntryInfo (pmd_Dir (rmd_data (br_md s))))));
  let newSize := to_u64 (currSize + name_length newName) in
  if decide (bc_MaxDirBytes < newSize)%Z then fail (DirTooBigError dirPath newSize bc_MaxDirBytes) else mret tt.

(** The checks and the directory block of a new entry. *)
Definition prepare_create (dirPath : path) (name : string) : go fbo addr :=
  _ ← lift_res (checkDisallowedPrefixes name);
  if decide (bc_MaxNameBytes < to_u32 (name_length name))%Z then fail (NameTooLongError name bc_MaxNameBytes)
  else
    _ ← getMDForWriteLocked;
    _ ← lift_res (pathFromNode dirPath);
    dblock ← on_blocks (getDirLocked dirPath blockWrite);
    block ← on_blocks (load_dir dblock);
    match child name block with
    | Some _ => fail (NameExistsError name)
    | None => _ ← checkNewDirSize dirPath name; mret dblock
    end.

(** ** Creating *)

Definition new_block (entryType : EntryType) : Block :=
  match entryType with
  | Dir => DirB (MkDirBlock (MkCommonBlock false 0) ∅ [])
  | _ => FileB (MkFileBlock (MkCommonBlock false 0) [] [])
  end.

(** The entry.  The node is made once the metadata is put: an error of the
    node cache is returned with the entry already in the folder. *)
Definition createEntryLocked (sched : downgradeSched) (dirPath : path) (name : string) (entryType : EntryType) : go fbo DirEntry :=
  _ ← prepare_create dirPath name;
  tail ← lift_res (tailPointer dirPath);
  _ ← on_md (md_AddOp (CreateOp (newCreateOp name tail entryType)));
  newBlock ← on_blocks (alloc (new_block entryType));
  de ← syncBlockAndFinalizeLocked sched newBlock dirPath name entryType true true;
  _ ← on_world (bc_GetOrCreate (DirEntry_BlockPointer de) name dirPath);
  mret de.

Definition createLinkLocked (sched : downgradeSched) (dirPath : path) (fromName toPath : string) : go fbo DirEntry :=
  dblock ← prepare_create dirPath fromName;
  tail ← lift_res (tailPointer dirPath);
  _ ← on_md (md_AddOp (CreateOp (newCreateOp fromName tail Sym)));
  now ← on_world bc_Now;
  let de := MkDirEntry zeroBlockInfo (MkEntryInfo Sym (name_length toPath) toPath now now) in
  block ← on_blocks (load_dir dblock);
  _ ← on_blocks (store dblock (DirB (set_child fromName de block)));
  parent ← lift_res (parentPath dirPath);
  dirName ← lift_res (tailName dirPath);
  _ ← syncBlockAndFinalizeLocked sched dblock parent dirName Dir true true;
  mret de.

(** ** Removing *)

Definition unrefEntry (dir : path) (de : DirEntry) (name : string) : go fbo unit :=
  _ ← on_md (md_AddUnrefBlock (de_BlockInfo de));
  let childPath := ChildPath dir name (DirEntry_BlockPointer de) in
  match ei_Type (de_EntryInfo de) with
  | File | Exec =>
      r ← on_blocks (try (GetIndirectFileBlockInfos childPath));
      match r with
      | inl infos => go_for infos (λ i, on_md (md_AddUnrefBlock i))
      | inr _ => fail (NoSuchBlockError (bp_ID (DirEntry_BlockPointer de)))
      end
  | _ => mret tt
  end.

(** After [getMDForWriteLocked]. *)
Definition removeEntryLocked (sched : downgradeSched) (dir : path) (name : string) : go fbo unit :=
  pblock ← on_blocks (getDirLocked dir blockWrite);
  block ← on_blocks (load_dir pblock);
  match child name block with
  | None => fail (NoSuchNameError name)
  | Some de =>
      tail ← lift_res (tailPointer dir);
      _ ← on_md (md_AddOp (RmOp (newRmOp name tail)));
      _ ← unrefEntry dir de name;
      block ← on_blocks (load_dir pblock);
      _ ← on_blocks (store pblock (DirB (remove_child name block)));
      parent ← lift_res (parentPath dir);
      dirName ← lift_res (tailName dir);
      _ ← syncBlockAndFinalizeLocked sched pblock parent dirName Dir true true;
      mret tt
  end.

(** One attempt of [RemoveEntry]. *)
Definition remove_attempt (sched : downgradeSched) (dirPath : path) (name : string) : go fbo unit :=
  _ ← getMDForWriteLocked;
  _ ← lift_res (pathFromNode dirPath);
  removeEntryLocked sched dirPath name.

(** The error of the first [GetDir] is not checked. *)
Definition removeDirLocked (sched : downgradeSched) (dirPath : path) (dirName : string) : go fbo unit :=
  _ ← getMDForWriteLocked;
  _ ← lift_res (pathFromNode dirPath);
  r ← on_blocks (try (getDirLocked dirPath blockRead));
  match r with
  | inr _ => panic "nil pointer dereference"
  | inl pblock =>
      block ← on_blocks (load_dir pblock);
      match child dirName block with
      | None => fail (NoSuchNameError dirName)
      | Some de =>
          childBlock ← on_blocks (getDirLocked (ChildPath dirPath dirName (DirEntry_BlockPointer de)) blockRead);
          cblock ← on_blocks (load_dir childBlock);
          if decide (0 < size (db_Children cblock)) then fail (DirNotEmptyError dirName)
          else removeEntryLocked sched dirPath dirName
      end
  end.

(** ** Renaming *)

(** The old and the new parent block, which may be the same one, and the
    entry. *)
Definition PrepRename (oldParent : path) (oldName : string) (newParent : path) (newName : string)
    : go fbo (addr * addr * DirEntry) :=
  oldPBlock ← on_blocks (getDirLocked oldParent blockWrite);
  ob ← on_blocks (load_dir oldPBlock);
  match child oldName ob with
  | None => fail (NoSuchNameError oldName)
  | Some newDe =>
      oldTail ← lift_res (tailPointer oldParent);
      newTail ← lift_res (tailPointer newParent);
      _ ← on_md (md_AddOp (RenameOp (newRenameOp oldName oldTail newName newTail (DirEntry_BlockPointer newDe) (ei_Type (de_EntryInfo newDe)))));
      if decide (bp_ID oldTail = bp_ID newTail) then mret (oldPBlock, oldPBlock, newDe)
      else
        newPBlock ← on_blocks (getDirLocked newParent blockWrite);
        now ← on_world bc_Now;
        oldGrandparent ← lift_res (parentPath oldParent);
        _ ← (match last (p_path oldGrandparent) with
             | None =>
                 modify (λ s, let md := br_md s in
                   set_md (md_set_Dir (de_set_Mtime now (de_set_Ctime now (pmd_Dir (rmd_data md)))) md) s)
             | Some g =>
                 if decide (bp_ID (pn_BlockPointer g) = bp_ID newTail) then mret tt
                 else
                   b ← on_blocks (getDirLocked oldGrandparent blockWrite);
                   gb ← on_blocks (load_dir b);
                   oldParentName ← lift_res (tailName oldParent);
                   match child oldParentName gb with
                   | None => mret tt
                   | Some de =>
                       _ ← on_blocks (store b (DirB (set_child oldParentName (de_set_Mtime now (de_set_Ctime now de)) gb)));
                       modify (λ s, set_lbc (<[pn_BlockPointer g := b]> (br_lbc s)) s)
                   end
             end);
        mret (oldPBlock, newPBlock, newDe)
  end.

(** The index of the last node that two paths share. *)
Fixpoint common_prefix (old new : list pathNode) (i : nat) : nat :=
  match old, new with
  | o :: old, n :: new => if decide (bp_ID (pn_BlockPointer o) = bp_ID (pn_BlockPointer n)) then common_prefix old new (S i) else i
  | _, _ => i
  end.
Definition common_ancestor (oldParent newParent : path) : res BlockPointer :=
  let i := common_prefix (drop 1 (p_path oldParent)) (drop 1 (p_path newParent)) 0 in
  match p_path oldParent !! i with
  | Some n => Ok (pn_BlockPointer n)
  | None => Panic "index out of range"
  end.

Definition sync_parent (block : addr) (dir : path) (stopAt : BlockPointer) : go fbo unit :=
  parent ← lift_res (parentPath dir);
  name ← lift_res (tailName dir);
  _ ← syncBlockAndCheckEmbedLocked block parent name Dir true true stopAt;
  mret tt.

Definition renameLocked (sched : downgradeSched) (oldParent : path) (oldName : string) (newParent : path) (newName : string)
    : go fbo unit :=
  _ ← getMDForWriteLocked;
  '(oldPBlock, newPBlock, newDe) ← PrepRename oldParent oldName newParent newName;
  nb ← on_blocks (load_dir newPBlock);
  _ ← (match child newName nb with
       | None => mret tt
       | Some de =>
           if decide (ei_Type (de_EntryInfo de) = Dir) then fail (NotFileError (ChildPathNoPtr newParent newName))
           else unrefEntry newParent de newName
       end);
  now ← on_world bc_Now;
  nb ← on_blocks (load_dir newPBlock);
  _ ← on_blocks (store newPBlock (DirB (set_child newName (de_set_Ctime now newDe) nb)));
  ob ← on_blocks (load_dir oldPBlock);
  _ ← on_blocks (store oldPBlock (DirB (remove_child oldName ob)));
  ancestor ← lift_res (common_ancestor oldParent newParent);
  oldTail ← lift_res (tailPointer oldParent);
  newTail ← lift_res (tailPointer newParent);
  let oldIsCommon := bool_decide (oldTail = ancestor) in
  let newIsCommon := bool_decide (newTail = ancestor) in
  _ ← (if oldIsCommon then
         if newIsCommon then mret tt else modify (λ s, set_lbc (<[oldTail := oldPBlock]> (br_lbc s)) s)
       else
         _ ← (if newIsCommon then modify (λ s, set_lbc (<[newTail := newPBlock]> (br_lbc s)) s) else mret tt);
         sync_parent oldPBlock oldParent ancestor);
  _ ← sync_parent newPBlock newParent zeroPtr;
  put_and_finalize sched.

(** One attempt of [Rename]. *)
Definition rename_attempt (sched : downgradeSched) (oldParent : path) (oldName : string) (newParent : path) (newName : string)
    : go fbo unit :=
  _ ← lift_res (pathFromNode oldParent);
  _ ← lift_res (pathFromNode newParent);
  if decide (p_FolderBranch oldParent ≠ p_FolderBranch newParent) then fail RenameAcrossDirsError
  else renameLocked sched oldParent oldName newParent newName.

(** ** Attributes *)

(** The entry of a file in its parent, which is changed and synced. *)
Definition set_attr (sched : downgradeSched) (file : path) (attr : attrChange) (f : Z → DirEntry → DirEntry) (dblock : addr) (de : DirEntry)
    : go fbo unit :=
  parent ← lift_res (parentPath file);
  name ← lift_res (tailName file);
  parentTail ← lift_res (tailPointer parent);
  tail ← lift_res (tailPointer file);
  _ ← on_md (md_AddOp (SetAttrOp (newSetAttrOp name parentTail attr tail)));
  now ← on_world bc_Now;
  block ← on_blocks (load_dir dblock);
  _ ← on_blocks (store dblock (DirB (set_child name (de_set_Ctime now (f now de)) block)));
  grandparent ← lift_res (parentPath parent);
  parentName ← lift_res (tailName parent);
  _ ← syncBlockAndFinalizeLocked sched dblock grandparent parentName Dir false false;
  mret tt.

Definition setExLocked (sched : downgradeSched) (file : path) (ex : bool) : go fbo unit :=
  _ ← getMDForWriteLocked;
  '(dblock, de) ← on_blocks (getDirtyParentAndEntryLocked file blockWrite);
  match ei_Type (de_EntryInfo de) with
  | Sym => mret tt
  | t =>
      let t := match t, ex with File, true => Exec | Exec, false => File | t, _ => t end in
      set_attr sched file exAttr (λ _, de_set_Type t) dblock de
  end.

Definition setMtimeLocked (sched : downgradeSched) (file : path) (mtime : Z) : go fbo unit :=
  _ ← getMDForWriteLocked;
  '(dblock, de) ← on_blocks (getDirtyParentAndEntryLocked file blockWrite);
  set_attr sched file mtimeAttr (λ _, de_set_Mtime mtime) dblock de.

(** ** Retries *)

Definition isRetriableError (e : error) (retries : nat) : bool :=
  isRecoverableBlockError e && bool_decide (retries < maxRetriesOnRecoverableErrors).

(** [doMDWriteWithRetry]: [n] attempts are left after this one. *)
Fixpoint doMDWriteWithRetry {A} (n : nat) (fn : go fbo A) : go fbo A :=
  r ← try fn;
  match r with
  | inl a => mret a
  | inr e =>
      if isRetriableError e (maxRetriesOnRecoverableErrors - n) then
        match n with O => fail e | S n => doMDWriteWithRetry n fn end
      else fail e
  end.
Definition mdWrite {A} (fn : go fbo A) : go fbo A := doMDWriteWithRetry maxRetriesOnRecoverableErrors fn.

(** ** The operations *)

Definition on_node {A} (p : path) (m : go fbo A) : go fbo A := _ ← lift_res (checkNode (p_FolderBranch p)); m.

Definition CreateDir sched dirPath name : go fbo EntryInfo :=
  on_node dirPath (de ← mdWrite (createEntryLocked sched dirPath name Dir); mret (de_EntryInfo de)).
Definition CreateFile sched dirPath name (isExec : bool) : go fbo EntryInfo :=
  on_node dirPath (de ← mdWrite (createEntryLocked sched dirPath name (if isExec then Exec else File)); mret (de_EntryInfo de)).
Definition CreateLink sched dirPath fromName toPath : go fbo EntryInfo :=
  on_node dirPath (de ← mdWrite (createLinkLocked sched dirPath fromName toPath); mret (de_EntryInfo de)).
Definition RemoveDir sched dirPath dirName : go fbo unit := on_node dirPath (mdWrite (removeDirLocked sched dirPath dirName)).
Definition RemoveEntry sched dirPath name : go fbo unit := on_node dirPath (mdWrite (remove_attempt sched dirPath name)).
Definition Rename sched oldParent oldName newParent newName : go fbo unit :=
  on_node newParent (mdWrite (rename_attempt sched oldParent oldName newParent newName)).
Definition SetEx sched file ex : go fbo unit :=
  on_node file (mdWrite (_ ← lift_res (pathFromNode file); setExLocked sched file ex)).
(** No time to set is not an error. *)
Definition SetMtime sched file (mtime : option Z) : go fbo unit :=
  match mtime with
  | None => mret tt
  | Some t => on_node file (mdWrite (_ ← lift_res (pathFromNode file); setMtimeLocked sched file t))
  end.
End writes.
