(* ===== verification/DirLaws.v ===== *)
(** * DirLaws: what the write path relies on

    Triples for methods that may fail ([post]), the laws of the services
    behind [BranchConfig] (the block server is content addressed: an id is
    the hash of the encrypted block), and what the primitives of [DirOps]
    do to the folder. *)

From Stdlib Require Import ZArith Lia.
From S2P Require Import Prelude Types Errors GoStd Ids RekeyQueue CryptoCommon Splitter DataTypes Ops ConflictInfo Handles KeyBundles Metadata FolderBlocks FolderBlocksSpec Lru MDUtil BlockManager DirOps DirWrites.

(** ** Triples

    [post m Q E s]: run from [s], the method [m] does not panic; if it
    returns a value, that and the state satisfy [Q]; if it returns an error,
    the state satisfies [E]. *)
Definition post {S A} (m : go S A) (Q : A → S → Prop) (E : S → Prop) (s : S) : Prop :=
  match m s with
  | (Ok a, s') => Q a s'
  | (Err _, s') => E s'
  | (Panic _, _) => False
  end.

Section post.
Context {S : Type}.
Implicit Types (E : S → Prop) (s : S).

Lemma post_ret {A} (a : A) (Q : A → S → Prop) E s : Q a s → post (mret a) Q E s.
Proof. done. Qed.

Lemma post_bind {A B} (m : go S A) (f : A → go S B) Q E s :
  post m (λ a s', post (f a) Q E s') E s → post (m ≫= f) Q E s.
Proof. unfold post, mbind, go_bind. by destruct (m s) as [[a|e|p] s']. Qed.

Lemma post_mono {A} (m : go S A) (Q Q' : A → S → Prop) E E' s :
  post m Q E s → (∀ a s', Q a s' → Q' a s') → (∀ s', E s' → E' s') → post m Q' E' s.
Proof. unfold post. destruct (m s) as [[a|e|p] s']; auto. Qed.

Lemma post_get (Q : S → S → Prop) E s : Q s s → post get Q E s.
Proof. done. Qed.
Lemma post_modify (f : S → S) (Q : unit → S → Prop) E s : Q tt (f s) → post (modify f) Q E s.
Proof. done. Qed.
Lemma post_fail {A} e (Q : A → S → Prop) E s : E s → post (fail e) Q E s.
Proof. done. Qed.
Lemma post_lift {A} (r : res A) (Q : A → S → Prop) E s :
  match r with Ok a => Q a s | Err _ => E s | Panic _ => False end → post (lift_res r) Q E s.
Proof. by destruct r. Qed.
Lemma post_lift_Ok {A} (r : res A) a (Q : A → S → Prop) E s : r = Ok a → Q a s → post (lift_res r) Q E s.
Proof. by intros ->. Qed.

Lemma post_try {A} (m : go S A) (Q : A + error → S → Prop) E s :
  post m (λ a, Q (inl a)) (λ s', ∀ e, Q (inr e) s') s → post (try m) Q E s.
Proof. unfold post, try. destruct (m s) as [[a|e|p] s']; auto. Qed.

Lemma post_for {A} (l : list A) (f : A → go S unit) (I : S → Prop) E s :
  (∀ x s, x ∈ l → I s → post (f x) (λ _, I) E s) → I s → post (go_for l f) (λ _, I) E s.
Proof.
  revert s. induction l as [|x l IH]; intros s Hf HI; [done|]. simpl. apply post_bind.
  eapply post_mono; [apply Hf; [set_solver|done]| |done].
  intros [] s' HI'. apply IH; [|done]. set_solver.
Qed.

Lemma post_wp {A} (m : go S A) (Q : A → S → Prop) E s : wp m Q s → post m Q E s.
Proof. intros (a & s' & Hm & HQ). unfold post. by rewrite Hm. Qed.
End post.

(** One step of a proof by the rules. *)
Ltac step :=
  lazymatch goal with
  | |- post (_ ≫= _) _ _ _ => apply post_bind
  | |- post (mret _) _ _ _ => apply post_ret
  | |- post get _ _ _ => apply post_get
  | |- post (modify _) _ _ _ => apply post_modify
  | |- post (fail _) _ _ _ => apply post_fail
  | |- post (try _) _ _ _ => apply post_try
  | |- post (if decide _ then _ else _) _ _ _ => case_decide
  | |- post (let '(_, _) := ?x in _) _ _ _ => destruct x
  end.
Ltac steps := repeat step.

(** ** The laws of the services *)

(** What the server and the code serialise of a block. *)
Definition exported (b : Block) : Block :=
  match b with
  | CommonB c => CommonB (exported_common c)
  | DirB d => DirB (exported_dir d)
  | FileB f => FileB (exported_file f)
  end.

Section calls.
Context {W : Type} (raw : W → gmap BlockID (list byte)).

(** A call that does not panic and leaves the blocks of the server alone. *)
Definition calls {A} (m : go W A) (P : A → W → Prop) : Prop :=
  ∀ w, match m w with
       | (Ok a, w') => P a w ∧ raw w' = raw w
       | (Err _, w') => raw w' = raw w
       | (Panic _, _) => False
       end.

(** One that has no error to return. *)
Definition returns {A} (m : go W A) : Prop :=
  ∀ w, match m w with (Ok _, w') => raw w' = raw w | _ => False end.
End calls.

(** What no operation changes of its metadata. *)
Definition md_base (md : RootMetadata) : MdID * option TlfHandle := (bm_PrevRoot (rmd_bare md), rmd_tlfHandle md).

Section ids.
Context `{Codec BareRootMetadata}.
(** A metadata that follows the one it names as its predecessor. *)
Definition follows (md : RootMetadata) : Prop := fst (MetadataID md) ≠ Ok (bm_PrevRoot (rmd_bare md)).
End ids.

Class BranchLaws (W : Type) `{Config, BranchConfig W, Codec BareRootMetadata} := {
  (** the encrypted blocks on the server, the ids of blocks, and what a
      client makes of an encrypted block; the ids that are valid *)
  bl_raw : W → gmap BlockID (list byte);
  bl_hash : list byte → BlockID;
  bl_open : list byte → option Block;
  bl_valid : BlockID → Prop;
  bl_hash_inj :: Inj (=) (=) bl_hash;
  bl_hash_init data : bl_hash data ≠ MkBlockID (MkHash EmptyString);
  bl_user : ∀ p, cfg_CurrentUser ≠ Panic p;
  bl_get : ∀ ptr b p, cfg_Get ptr b ≠ Panic p;
  bl_known f : calls bl_raw (bc_CheckForKnownPtr f) (λ ptr w,
    IsInitialized ptr = true → bl_valid (bp_ID ptr) ∧ (bl_raw w !! bp_ID ptr ≫= bl_open) = Some (exported (FileB f)));
  bl_deleteKnown f : calls bl_raw (bc_DeleteKnownPtr f) (λ _ _, True);
  bl_ready md b : calls bl_raw (bc_Ready md b) (λ '(id, _, data) _,
    id = bl_hash data ∧ bl_valid id ∧ bl_open data = Some (exported b));
  (** a block with a fresh pointer is put, other references are added *)
  bl_put md ptr data w :
    match bc_PutBlock md ptr data w with
    | (Ok _, w') => bl_raw w' = if IsFirstRef ptr then <[bp_ID ptr := data]> (bl_raw w) else bl_raw w
    | (Err _, _) => True
    | (Panic _, _) => False
    end;
  bl_cacheBlock ptr b : calls bl_raw (bc_CacheBlock ptr b) (λ _ _, True);
  bl_nonce : calls bl_raw bc_MakeBlockRefNonce (λ n _, n ≠ zeroBlockRefNonce);
  bl_bid : calls bl_raw bc_MakeRandomBranchID (λ _ _, True);
  bl_now : returns bl_raw bc_Now;
  (** a put fills in the signed part of the metadata *)
  bl_putMD md : calls bl_raw (bc_PutMD md) (λ md' _,
    rmd_data md' = rmd_data md ∧ md_base md' = md_base md ∧ follows md');
  bl_putUnmergedMD md bid : calls bl_raw (bc_PutUnmergedMD md bid) (λ md' _,
    rmd_data md' = rmd_data md ∧ md_base md' = md_base md ∧ follows md');
  bl_prune bid : calls bl_raw (bc_PruneBranch bid) (λ _ _, True);
  bl_cacheMD md : calls bl_raw (bc_CacheMD md) (λ _ _, True);
  bl_resolve r r' : returns bl_raw (bc_Resolve r r');
  bl_handleChange h : returns bl_raw (bc_tlfHandleChange h);
  bl_enqueue id : returns bl_raw (bc_Enqueue id);
  bl_archive md : returns bl_raw (bc_archiveUnrefBlocks md);
  bl_cleanUp md ptrs w : match bc_cleanUpBlockState md ptrs w with (Ok _, _) => True | _ => False end;
  bl_notify md : returns bl_raw (bc_notifyBatch md);
  (** the node cache may refuse an entry; it panics for an invalid id only *)
  bl_getOrCreate ptr name dir : bl_valid (bp_ID ptr) → calls bl_raw (bc_GetOrCreate ptr name dir) (λ _ _, True);
  bl_identify md : calls bl_raw (bc_identifyOnce md) (λ _ _, True)
}.

(** ** The primitives *)

Section branch.
Context {W : Type} `{Config, Codec FileBlock, Codec DirBlock, BranchConfig W, Codec BlockChanges, Codec BareRootMetadata, Codec PrivateMetadata, Codec TlfHandle}.
Abbreviation fbo := (folderBranchOps W).

Lemma post_on_blocks {A} (m : go folderBlockOps A) (Q : A → fbo → Prop) E s :
  post m (λ a b, Q a (set_blocks b s)) (λ b, E (set_blocks b s)) (br_blocks s) → post (on_blocks m) Q E s.
Proof. unfold post, on_blocks. by destruct (m (br_blocks s)) as [[a|e|p] b]. Qed.
Lemma post_on_world {A} (m : go W A) (Q : A → fbo → Prop) E s :
  post m (λ a w, Q a (set_world w s)) (λ w, E (set_world w s)) (br_world s) → post (on_world m) Q E s.
Proof. unfold post, on_world. by destruct (m (br_world s)) as [[a|e|p] w]. Qed.
Lemma post_on_md {A} (m : go RootMetadata A) (Q : A → fbo → Prop) E s :
  post m (λ a md, Q a (set_md md s)) (λ md, E (set_md md s)) (br_md s) → post (on_md m) Q E s.
Proof. unfold post, on_md. by destruct (m (br_md s)) as [[a|e|p] md]. Qed.

Context `{!BranchLaws W}.

Lemma post_calls {A} (m : go W A) P (Q : A → fbo → Prop) (E : fbo → Prop) s :
  calls bl_raw m P →
  (∀ a w, P a (br_world s) → bl_raw w = bl_raw (br_world s) → Q a (set_world w s)) →
  (∀ w, bl_raw w = bl_raw (br_world s) → E (set_world w s)) →
  post (on_world m) Q E s.
Proof.
  intros Hm HQ HE. apply post_on_world. unfold post. specialize (Hm (br_world s)).
  destruct (m (br_world s)) as [[a|e|p] w]; naive_solver.
Qed.

Lemma post_returns {A} (m : go W A) (Q : A → fbo → Prop) (E : fbo → Prop) s :
  returns bl_raw m →
  (∀ a w, bl_raw w = bl_raw (br_world s) → Q a (set_world w s)) → post (on_world m) Q E s.
Proof.
  intros Hm HQ. apply post_on_world. unfold post. specialize (Hm (br_world s)).
  destruct (m (br_world s)) as [[a|e|p] w]; naive_solver.
Qed.
End branch.
