(* ===== verification/DirSpec.v ===== *)
(** * DirSpec: syncing a changed directory rebuilds the tree

    A folder is the tree of directory blocks below the root entry of its
    metadata ([look]).  After a sync of a path, the new root leads to new
    blocks along the path and to the old ones everywhere else ([spine]),
    in every store that has the readied blocks. *)

From Stdlib Require Import ZArith Lia.
From S2P Require Import Prelude Types Errors GoStd Ids RekeyQueue CryptoCommon Splitter DataTypes Ops ConflictInfo Handles KeyBundles Metadata FolderBlocks FolderBlocksSpec Lru MDUtil BlockManager DirOps DirWrites DirLaws.

(** ** Trees *)

(** The blocks that can be read, by their ids. *)
Definition store_view : Type := BlockID → option Block.

Definition entry_id (e : DirEntry) : BlockID := bp_ID (DirEntry_BlockPointer e).

(** The entry that the names [x] lead to from [e]. *)
Fixpoint look (g : store_view) (e : DirEntry) (x : list string) : option DirEntry :=
  match x with
  | [] => Some e
  | n :: x =>
      match g (entry_id e) with
      | Some (DirB d) => match child n d with Some c => look g c x | None => None end
      | _ => None
      end
  end.

(** [g'] has the blocks that [g] has. *)
Definition keeps (g g' : store_view) : Prop := ∀ id b, g id = Some b → g' id = Some b.

(** The directories of a path, from the entry [e] down. *)
Fixpoint at_path (g : store_view) (e : DirEntry) (l : list pathNode) : Prop :=
  match l with
  | [] => True
  | n :: l =>
      bp_ID (pn_BlockPointer n) = entry_id e ∧
      ∃ d, g (entry_id e) = Some (DirB d) ∧
        match l with
        | [] => True
        | n' :: _ => ∃ c, child (pn_Name n') d = Some c ∧ at_path g c l
        end
  end.

(** What a sync keeps of an entry. *)
Definition same_kind (c c' : DirEntry) : Prop :=
  ei_Type (de_EntryInfo c') = ei_Type (de_EntryInfo c) ∧ ei_SymPath (de_EntryInfo c') = ei_SymPath (de_EntryInfo c).

(** The trees of [r] and [r'] in [g] differ along the names [ns] only, and
    at their end as [Q] says. *)
Fixpoint spine (g : store_view) (ns : list string) (r r' : DirEntry) (Q : DirEntry → DirEntry → Prop) : Prop :=
  match ns with
  | [] => Q r r'
  | n :: ns =>
      ∃ d d' c c', g (entry_id r) = Some (DirB d) ∧ g (entry_id r') = Some (DirB d') ∧
        child n d = Some c ∧ db_Children d' = <[n := c']> (db_Children d) ∧ same_kind c c' ∧ spine g ns c c' Q
  end.

Lemma spine_mono g ns r r' (Q Q' : DirEntry → DirEntry → Prop) :
  (∀ e e', Q e e' → Q' e e') → spine g ns r r' Q → spine g ns r r' Q'.
Proof. intros HQ. revert r r'. induction ns; simpl; naive_solver. Qed.

Lemma spine_snoc g ns n r r' (Q : DirEntry → DirEntry → Prop) :
  spine g ns r r' (λ e e', spine g [n] e e' Q) → spine g (ns ++ [n]) r r' Q.
Proof. revert r r'. induction ns as [|m ns IH]; simpl; intros r r'; [done|]. naive_solver. Qed.

(** Along the path the new tree has an entry of the same kind, at its end
    the entry that [Q] describes, elsewhere what the old tree has. *)
Lemma spine_along g ns x r r' Q :
  same_kind r r' → spine g ns r r' Q → x `prefix_of` ns →
  ∃ e e', look g r x = Some e ∧ look g r' x = Some e' ∧ same_kind e e'.
Proof.
  intros Hk. revert x r r' Hk. induction ns as [|n ns IH]; intros x r r' Hk Hs Hx.
  { apply prefix_nil_inv in Hx as ->. simpl. eauto. }
  destruct x as [|m x]; [simpl; eauto|].
  apply prefix_cons_inv_1 in Hx as Hm. apply prefix_cons_inv_2 in Hx. subst m.
  destruct Hs as (d & d' & c & c' & Hr & Hr' & Hc & Hd' & Hk' & Hs). cbn [look]. rewrite Hr, Hr', Hc.
  unfold child. rewrite Hd', lookup_insert_eq. by apply IH.
Qed.

Lemma spine_end g ns r r' Q :
  spine g ns r r' Q → ∃ e e', Q e e' ∧ ∀ y, look g r (ns ++ y) = look g e y ∧ look g r' (ns ++ y) = look g e' y.
Proof.
  revert r r'. induction ns as [|n ns IH]; simpl; intros r r' Hs; [by eauto|].
  destruct Hs as (d & d' & c & c' & Hr & Hr' & Hc & Hd' & _ & Hs).
  rewrite Hr, Hr', Hc. unfold child. rewrite Hd', lookup_insert_eq. by apply IH.
Qed.

Lemma spine_off g ns r r' Q x :
  spine g ns r r' Q → ¬ x `prefix_of` ns → ¬ ns `prefix_of` x → look g r' x = look g r x.
Proof.
  revert x r r'. induction ns as [|n ns IH]; intros x r r' Hs Hx Hx'.
  { by destruct Hx'; apply prefix_nil. }
  destruct x as [|m x]; [by destruct Hx; apply prefix_nil|].
  destruct Hs as (d & d' & c & c' & Hr & Hr' & Hc & Hd' & _ & Hs). cbn [look]. rewrite Hr, Hr'.
  unfold child in *. rewrite Hd'. destruct (decide (n = m)) as [<-|Hn].
  - rewrite lookup_insert_eq, Hc. apply IH; [done|..]; intros Hp; [apply Hx|apply Hx']; by apply prefix_cons.
  - by rewrite lookup_insert_ne.
Qed.

Lemma look_keeps g g' e x e' : keeps g g' → look g e x = Some e' → look g' e x = Some e'.
Proof.
  intros Hg. revert e. induction x as [|n x IH]; intros e; simpl; [done|].
  destruct (g (entry_id e)) as [b|] eqn:Hb; [|done]. rewrite (Hg _ _ Hb).
  destruct b; try done. case_match; [apply IH|done].
Qed.

(** ** The state of an operation *)

Section sync.
Context {W : Type} `{Config, Codec FileBlock, Codec DirBlock, BranchConfig W, Codec BlockChanges, Codec BareRootMetadata, Codec PrivateMetadata, Codec TlfHandle}.
Context `{!BranchLaws W, !EncodeTotal FileBlock, !EncodeTotal DirBlock, !EncodeTotal BlockChanges}.
Abbreviation fbo := (folderBranchOps W).
Abbreviation heap s := (fbo_heap (br_blocks s)).
Abbreviation ops_of s := (bc_Ops (pmd_Changes (rmd_data (br_md s)))).

Definition stored (w : W) : store_view := λ id, bl_raw w !! id ≫= bl_open.

(** What only changes at the end of an operation. *)
Record frame (s s' : fbo) : Prop := MkFrame {
  fr_head : br_head s' = br_head s;
  fr_lbc : br_lbc s' = br_lbc s;
  fr_raw : bl_raw (br_world s') = bl_raw (br_world s);
  fr_dirty : fbo_dirty (br_blocks s') = fbo_dirty (br_blocks s);
  fr_heap : dom (heap s) ⊆ dom (heap s');
  fr_base : md_base (br_md s') = md_base (br_md s)
}.

#[export] Instance frame_preorder : PreOrder frame.
Proof.
  split; [by intros s|]. intros s1 s2 s3 [] []. split; [congruence..| |congruence]. set_solver.
Qed.

(** The blocks to put are in memory, and a block with a fresh pointer has
    the id of its data. *)
Definition bps_ok (s : fbo) : Prop :=
  ∀ bs, bs ∈ br_bps s → is_Some (heap s !! bst_block bs) ∧
    (IsFirstRef (bst_blockPtr bs) = true → bp_ID (bst_blockPtr bs) = bl_hash (bst_readyBlockData bs)).

(** [g] has the blocks to put. *)
Definition serves (g : store_view) (l : list blockState) : Prop :=
  ∀ bs, bs ∈ l → IsFirstRef (bst_blockPtr bs) = true → g (bp_ID (bst_blockPtr bs)) = bl_open (bst_readyBlockData bs).

(** What the code reads is what the server has. *)
Definition reads (s : fbo) : Prop :=
  ∀ ptr d, stored (br_world s) (bp_ID ptr) = Some (DirB d) → cfg_Get ptr NewDirBlock = Ok (DirB d).

Lemma stored_frame s s' : frame s s' → stored (br_world s') = stored (br_world s).
Proof. intros Hf. unfold stored. by rewrite (fr_raw _ _ Hf). Qed.
Lemma reads_frame s s' : frame s s' → reads s → reads s'.
Proof. intros Hf. unfold reads. by rewrite (stored_frame _ _ Hf). Qed.

Lemma exported_with_size z b : exported (with_size z b) = exported b.
Proof. by destruct b. Qed.

Lemma frame_world s w : bl_raw w = bl_raw (br_world s) → frame s (set_world w s).
Proof. by split. Qed.
Lemma frame_store s a b : frame s (set_blocks (set_heap (<[a := b]>) (br_blocks s)) s).
Proof. split; try done. simpl. set_solver. Qed.
Lemma frame_hext s b : hext (br_blocks s) b → frame s (set_blocks b s).
Proof. intros (h & -> & Hh). split; try done. simpl. by apply subseteq_dom. Qed.
Lemma frame_md s md : md_base md = md_base (br_md s) → frame s (set_md md s).
Proof. by split. Qed.
Lemma frame_bps s l : frame s (set_bps l s).
Proof. by split. Qed.

Lemma heap_frame s s' a : frame s s' → is_Some (heap s !! a) → is_Some (heap s' !! a).
Proof. intros Hf Ha. apply elem_of_dom. apply (fr_heap _ _ Hf). by apply elem_of_dom. Qed.

Lemma bps_ok_frame s s' : frame s s' → br_bps s' = br_bps s → bps_ok s → bps_ok s'.
Proof.
  intros Hf Hb Hok bs. rewrite Hb. intros Hbs. destruct (Hok bs Hbs). split; [|done]. by eapply heap_frame.
Qed.

(** ** Readying *)

Lemma post_load s a b (Q : Block → fbo → Prop) E :
  heap s !! a = Some b → Q b s → post (on_blocks (load a)) Q E s.
Proof. intros Ha HQ. apply post_on_blocks. unfold post, load. rewrite Ha. by destruct s. Qed.
Lemma post_load_dir s a d (Q : DirBlock → fbo → Prop) E :
  heap s !! a = Some (DirB d) → Q d s → post (on_blocks (load_dir a)) Q E s.
Proof.
  intros Ha HQ. apply post_on_blocks, post_wp. eapply wp_load_dir; [done|]. by destruct s.
Qed.

Lemma ReadyBlock_post s a b uid :
  heap s !! a = Some b →
  post (ReadyBlock a uid) (λ '(info, _, data) s',
    frame s s' ∧ br_md s' = br_md s ∧ br_bps s' = br_bps s ∧
    (∃ z, heap s' = <[a := with_size z b]> (heap s)) ∧
    let ptr := bi_BlockPointer info in (IsInitialized ptr = true ∧ bl_valid (bp_ID ptr)) ∧
    if IsFirstRef ptr then bp_ID ptr = bl_hash data ∧ bl_open data = Some (exported b)
    else stored (br_world s) (bp_ID ptr) = Some (exported b)) (frame s) s.
Proof.
  intros Ha. unfold ReadyBlock. steps. apply (post_load _ _ b); [done|]. step.
  set (known := λ (p : BlockPointer) (s' : fbo), ∃ w, s' = set_world w s ∧ bl_raw w = bl_raw (br_world s) ∧
    (IsInitialized p = true → bl_valid (bp_ID p) ∧ stored (br_world s) (bp_ID p) = Some (exported b))).
  assert (known zeroPtr s) as Hzero by (exists (br_world s); split_and!; [by destruct s|done|done]).
  apply (post_mono _ known _ (frame s)).
  { destruct b as [c|d|f]; try (step; done). case_match; [by step|].
    eapply post_calls; [apply bl_known| |]; [|intros; by apply frame_world].
    intros p w Hp Hw. exists w. split_and!; [done..|]. intros Hi. exact (Hp Hi). }
  2: done.
  intros ptr s' (w & -> & Hw & Hp). step. step. step.
  eapply post_calls; [apply bl_ready| |]; [|intros w' Hw'; simpl in Hw'; by split; simpl; try congruence].
  intros [[id plain] data] w' (-> & Hvalid & Hopen) Hw'. simpl in Hw'. step. apply post_on_blocks. unfold store. step.
  set (s2 := set_blocks _ _).
  assert (frame s s2) as Hf by (split; simpl; [done..|congruence|done|set_solver|done]).
  step. destruct (IsInitialized ptr) eqn:Hi.
  - step. eapply post_calls; [apply bl_nonce| |].
    + intros nonce w2 Hn Hw2. do 2 step.
      destruct (SetWriter uid _) as [r ptr'] eqn:Hset. unfold SetWriter in Hset.
      assert (bp_ID ptr' = bp_ID ptr ∧ bp_RefNonce ptr' = nonce) as [Hid Hno] by (case_decide; by simplify_eq/=).
      destruct (Hp eq_refl) as [Hpv Hst]. unfold IsFirstRef, IsInitialized in *. simpl.
      rewrite Hno, Hid, (bool_decide_eq_false_2 (_ = zeroBlockRefNonce)) by done.
      split_and!; [etrans; [done|by apply frame_world]|done|done|by eexists|done|done|done].
    + intros w2 Hw2. etrans; [done|by apply frame_world].
  - do 2 step. split_and!; [done..|by eexists|apply bool_decide_eq_true_2, bl_hash_init|done|].
    unfold IsFirstRef. cbn. by rewrite bool_decide_eq_true_2.
Qed.

Lemma readyBlockMultiple_post s a b uid :
  heap s !! a = Some b → bps_ok s →
  post (readyBlockMultiple a uid) (λ '(info, _) s',
    frame s s' ∧ br_md s' = br_md s ∧ bps_ok s' ∧ (∃ z, heap s' = <[a := with_size z b]> (heap s)) ∧
    br_bps s `prefix_of` br_bps s' ∧
    (IsInitialized (bi_BlockPointer info) = true ∧ bl_valid (bp_ID (bi_BlockPointer info))) ∧
    ∀ g, keeps (stored (br_world s)) g → serves g (br_bps s') → g (bp_ID (bi_BlockPointer info)) = Some (exported b))
    (frame s) s.
Proof.
  intros Ha Hok. unfold readyBlockMultiple. step.
  eapply post_mono; [by apply ReadyBlock_post| |done].
  intros [[info plain] data] s1 (Hf & Hmd & Hbps & [z Hh] & Hi & Hp). cbv zeta in Hi, Hp. steps.
  split_and!.
  - etrans; [done|apply frame_bps].
  - done.
  - intros bs. simpl. rewrite Hbps. intros [Hin|[= ->]%list_elem_of_singleton]%elem_of_app.
    + destruct (Hok bs Hin) as [? ?]. split; [|done]. by eapply heap_frame.
    + simpl. split; [rewrite Hh, lookup_insert_eq; eauto|]. intros Hr. rewrite Hr in Hp. by destruct Hp.
  - by exists z.
  - simpl. rewrite Hbps. by apply prefix_app_r.
  - apply Hi.
  - apply Hi.
  - intros g Hg Hs. simpl in Hs. case_match.
    + destruct Hp as [Hid Ho]. rewrite <- Ho. by apply (Hs (MkBlockState (bi_BlockPointer info) a data)); [set_solver|].
    + by apply Hg.
Qed.

(** ** The metadata *)

(** A change of the block changes alone. *)
Definition md_kept (md md' : RootMetadata) : Prop :=
  pmd_Dir (rmd_data md') = pmd_Dir (rmd_data md) ∧ md_base md' = md_base md ∧
  bc_Ops (pmd_Changes (rmd_data md')) ≠ [].

Lemma update_last_nonempty f bc :
  bc_Ops bc ≠ [] → ∃ bc', update_last f bc = (Ok tt, bc') ∧ bc_Ops bc' ≠ [].
Proof.
  intros Hb. unfold update_last. destruct (last (bc_Ops bc)) as [o|] eqn:Ho.
  - eexists. split; [done|]. simpl. by destruct (take _ _).
  - by apply last_None in Ho.
Qed.

Lemma AddUpdate_post md o n E :
  bc_Ops (pmd_Changes (rmd_data md)) ≠ [] → post (md_AddUpdate o n) (λ _, md_kept md) E md.
Proof.
  intros Hops. unfold post, md_AddUpdate. case_decide; [|done].
  unfold BC_AddUpdate, mbind, go_bind. cbn [set_bare rmd_data].
  destruct (update_last_nonempty (AddUpdate (bi_BlockPointer o) (bi_BlockPointer n)) _ Hops) as (bc' & -> & Hb). by simpl.
Qed.
Lemma AddRefBlock_post md i E :
  bc_Ops (pmd_Changes (rmd_data md)) ≠ [] → post (md_AddRefBlock i) (λ _, md_kept md) E md.
Proof.
  intros Hops. unfold post, md_AddRefBlock, BC_AddRefBlock, mbind, go_bind. cbn [set_bare rmd_data].
  destruct (update_last_nonempty (AddRefBlock (bi_BlockPointer i)) _ Hops) as (bc' & -> & Hb). by simpl.
Qed.
Lemma AddUnrefBlock_post md i E :
  bc_Ops (pmd_Changes (rmd_data md)) ≠ [] → post (md_AddUnrefBlock i) (λ _, md_kept md) E md.
Proof.
  intros Hops. unfold post, md_AddUnrefBlock. case_decide; [|done].
  unfold BC_AddUnrefBlock, mbind, go_bind. cbn [set_bare rmd_data].
  destruct (update_last_nonempty (AddUnrefBlock (bi_BlockPointer i)) _ Hops) as (bc' & -> & Hb). by simpl.
Qed.
Lemma AddOp_post md o E : post (md_AddOp o) (λ _, md_kept md) E md.
Proof. unfold post. simpl. split_and!; [done..|]. simpl. by destruct (bc_Ops _). Qed.

(** ** Fetching a directory *)

(** The node can be read, and is not dirty. *)
Definition clean_dir (s : fbo) (fb : FolderBranch) (n : pathNode) (d : DirBlock) : Prop :=
  stored (br_world s) (bp_ID (pn_BlockPointer n)) = Some (DirB d) ∧
  fbo_dirty (br_blocks s) !! dirty_key (pn_BlockPointer n) (fbr_Branch fb) = None.

Lemma clean_dir_frame s s' fb n d : frame s s' → clean_dir s fb n d → clean_dir s' fb n d.
Proof. intros Hf [H1' H2']. split; [by rewrite (stored_frame _ _ Hf)|by rewrite (fr_dirty _ _ Hf)]. Qed.

Lemma getDirLocked_wp (b0 : folderBlockOps) dir n d rtype (Q : addr → folderBlockOps → Prop) :
  path_isValid dir = true → last (p_path dir) = Some n → cfg_Get (pn_BlockPointer n) NewDirBlock = Ok (DirB d) →
  fbo_dirty b0 !! dirty_key (pn_BlockPointer n) (fbr_Branch (p_FolderBranch dir)) = None →
  (∀ a b, hext b0 b → fbo_heap b0 !! a = None →
    fbo_heap b !! a = Some (DirB match rtype with blockWrite => exported_dir d | blockRead => d end) → Q a b) →
  wp (getDirLocked dir rtype) Q b0.
Proof.
  intros Hv Hl Hget Hd HQ. unfold getDirLocked. rewrite Hv. cbn [negb]. apply wp_bind.
  assert (tailPointer dir = Ok (pn_BlockPointer n)) as Ht by (unfold tailPointer, tailNode; by rewrite Hl).
  apply (wp_lift _ _ _ _ Ht). apply wp_bind. unfold getDirBlockHelperLocked, getBlockHelperLocked. apply wp_bind.
  assert (BlockPointer_IsValid (pn_BlockPointer n) = true) as ->.
  { unfold path_isValid in Hv. case_decide; [done|].
    apply Is_true_true, forallb_True, Forall_forall with (x := n) in Hv; [|by apply last_Some_elem_of].
    by apply Is_true_true. }
  cbn [negb]. apply wp_bind, wp_get. rewrite Hd. apply wp_bind. eapply wp_lift; [done|]. apply wp_alloc.
  intros a Ha. apply wp_bind. exists (DirB d), (set_heap (<[a := DirB d]>) b0). split.
  { unfold load. simpl. by rewrite lookup_insert_eq. }
  apply wp_ret. apply wp_bind, wp_get. destruct rtype.
  { apply wp_ret. apply HQ; [by apply hext_alloc|done|simpl; by rewrite lookup_insert_eq]. }
  unfold bcache_IsDirty. cbn [set_heap fbo_dirty]. rewrite Hd.
  rewrite bool_decide_eq_false_2 by (by intros [? ?]). cbn [negb].
  apply wp_bind. eapply wp_load_dir; [simpl; by rewrite lookup_insert_eq|].
  apply wp_bind. eapply wp_lift; [apply DirBlock_DeepCopy_exported|]. apply wp_alloc. intros a' Ha'.
  simpl in Ha'. apply lookup_insert_None in Ha' as [Ha' Hne].
  apply HQ; [|done|simpl; by rewrite lookup_insert_eq].
  eapply hext_trans; apply hext_alloc; [done|]. simpl. by rewrite lookup_insert_ne.
Qed.

Lemma getDirLocked_spec s dir n d rtype (Q : addr → fbo → Prop) E :
  reads s → path_isValid dir = true → last (p_path dir) = Some n → clean_dir s (p_FolderBranch dir) n d →
  (∀ a b d', hext (br_blocks s) b → heap s !! a = None → fbo_heap b !! a = Some (DirB d') →
    (d' = match rtype with blockWrite => exported_dir d | blockRead => d end) → Q a (set_blocks b s)) →
  post (on_blocks (getDirLocked dir rtype)) Q E s.
Proof.
  intros Hr Hv Hl [Hst Hd] HQ. apply post_on_blocks, post_wp.
  eapply getDirLocked_wp; [done|done|by apply Hr|done|]. intros a b Hext Ha Hb. by eapply HQ.
Qed.

(** ** The loop *)

Lemma at_path_snoc g r l node cur :
  at_path g r (l ++ [node; cur]) →
  at_path g r (l ++ [node]) ∧
  ∃ d c, g (bp_ID (pn_BlockPointer node)) = Some (DirB d) ∧ child (pn_Name cur) d = Some c ∧
    entry_id c = bp_ID (pn_BlockPointer cur).
Proof.
  revert r. induction l as [|n l IH]; intros r.
  - simpl. intros (Hn & d & Hd & c & Hc & Hcur & _). rewrite Hn. split; [by eauto|]. by exists d, c.
  - cbn [app at_path]. intros (Hn & d & Hd & Hm). destruct l as [|n' l]; cbn [app] in *.
    + destruct Hm as (c & Hc & Hm). destruct (IH c Hm) as [Hp Hrest]. split; [|done]. eauto 10.
    + destruct Hm as (c & Hc & Hm). destruct (IH c Hm) as [Hp Hrest]. split; [|done]. eauto 10.
Qed.

(** A node of the path above the changed directory. *)
Definition clean_node (s : fbo) (fb : FolderBranch) (n : pathNode) : Prop :=
  pathNode_isValid n = true ∧ fbo_dirty (br_blocks s) !! dirty_key (pn_BlockPointer n) (fbr_Branch fb) = None.

Lemma clean_nodes_frame s s' fb l : frame s s' → Forall (clean_node s fb) l → Forall (clean_node s' fb) l.
Proof. intros Hf Hl. eapply Forall_impl; [done|]. intros n [? ?]. split; [done|]. by rewrite (fr_dirty _ _ Hf). Qed.

Lemma fill_entry_kind plain info m c now de : same_kind de (fill_entry plain info m c now de).
Proof. unfold same_kind, fill_entry. by repeat case_match. Qed.
Lemma fill_entry_info plain info m c now de : de_BlockInfo (fill_entry plain info m c now de) = info.
Proof. unfold fill_entry. by repeat case_match. Qed.

Lemma reverse_valid s fb l :
  Forall (clean_node s fb) l → l ≠ [] → path_isValid (MkPath fb (reverse l)) = true.
Proof.
  intros Hl Hne. unfold path_isValid. simpl. rewrite decide_False by (rewrite length_reverse; destruct l; simpl in *; [done|lia]).
  apply Is_true_true, forallb_True. apply Forall_reverse.
  eapply Forall_impl; [done|]. intros n [Hn _]. by apply Is_true_true.
Qed.

Abbreviation root_of s := (pmd_Dir (rmd_data (br_md s))).

(** What the loop has done, from the entry of [cur], whose block is [b]. *)
Definition synced (s s' : fbo) (ns : list string) (Q : store_view → DirEntry → DirEntry → Prop) : Prop :=
  frame s s' ∧ bps_ok s' ∧ ops_of s' ≠ [] ∧ br_bps s `prefix_of` br_bps s' ∧ same_kind (root_of s) (root_of s') ∧
  ∀ g, keeps (stored (br_world s)) g → serves g (br_bps s') → spine g ns (root_of s) (root_of s') (Q g).

Lemma serves_prefix g l l' : l `prefix_of` l' → serves g l' → serves g l.
Proof. intros [k ->] Hs bs Hbs. apply Hs. set_solver. Qed.

Lemma sync_loop_post uid fb t mt ct now rest cur currBlock s doSet newPath newDe b :
  Forall (λ n, br_lbc s !! pn_BlockPointer n = None) rest → reads s → bps_ok s → ops_of s ≠ [] → heap s !! currBlock = Some b →
  Forall (clean_node s fb) rest →
  at_path (stored (br_world s)) (root_of s) (reverse rest ++ [cur]) →
  post (sync_loop uid fb t mt ct zeroPtr now rest currBlock (pn_Name cur) doSet newPath newDe)
    (λ '(_, de) s', synced s s' (pn_Name <$> tail (reverse rest ++ [cur]))
       (λ g e e', entry_id e = bp_ID (pn_BlockPointer cur) ∧ g (entry_id e') = Some (exported b)) ∧
       (DirEntry_IsInitialized newDe = true → de = newDe)) (frame s) s.
Proof.
  revert cur currBlock s doSet newPath newDe b.
  induction rest as [|node rest IH]; intros cur currBlock s doSet newPath newDe b Hlbc Hr Hok Hops Hb Hcl Hpath;
    cbn [sync_loop]; step; (eapply post_mono; [by apply readyBlockMultiple_post| |done]);
    intros [info plain] s1 (Hf & Hmd & Hok1 & [z Hh] & Hpre & Hinit & Hg); cbv beta iota zeta.
  - do 3 step. apply post_on_md. rewrite <- Hmd in Hops.
    eapply post_mono; [by apply AddUpdate_post| |by intros md Hm; etrans; [done|apply Hm]].
    intros [] md (Hd & Hp & Ho). do 3 step.
    set (de := fill_entry _ _ _ _ _ _). split; [|intros Hi; by rewrite Hi].
    split_and!.
    + etrans; [done|]. split; try done; simpl; by rewrite Hp.
    + eapply bps_ok_frame; [|done|exact Hok1]. split; try done; simpl; by rewrite Hp.
    + done.
    + done.
    + simpl. rewrite <- Hmd. apply fill_entry_kind.
    + intros g Hk Hs. simpl. destruct Hpath as (Hc & _). simpl in Hc. split; [done|].
      unfold de, entry_id, DirEntry_BlockPointer. rewrite fill_entry_info. by apply Hg.
  - rewrite reverse_cons, <- app_assoc in Hpath. cbn [app] in Hpath.
    destruct (at_path_snoc _ _ _ _ _ Hpath) as (Hpath' & d & c & Hd & Hc & Hid).
    apply Forall_cons in Hcl as Hcl'. destruct Hcl' as [[Hv Hnd] Hcl'].
    apply Forall_cons in Hlbc as Hlbc'. destruct Hlbc' as [Hl1 Hl'].
    do 3 step. rewrite (fr_lbc _ _ Hf), Hl1.
    eapply (getDirLocked_spec _ _ node d); [by eapply reads_frame|by eapply reverse_valid| | |].
    { simpl. by rewrite reverse_cons, last_snoc. }
    { eapply clean_dir_frame; [done|]. by split. }
    intros a bl d' Hext Ha Hbl ->. set (s2 := set_blocks bl s1).
    assert (frame s s2) as Hf2 by (etrans; [done|by apply frame_hext]).
    step. eapply post_load_dir; [done|]. step. change (child (pn_Name cur) (exported_dir d)) with (child (pn_Name cur) d).
    rewrite Hc. cbv beta iota. step. cbv beta iota zeta. step. apply post_on_md.
    assert (br_md s2 = br_md s) as Hmd2 by done. rewrite <- Hmd2 in Hops.
    eapply post_mono; [by apply AddUpdate_post| |by intros md Hm; etrans; [done|split; try done; apply Hm]].
    intros [] md (Hmd' & Hp & Ho). step. apply post_on_blocks. unfold store. step. set (s3 := set_blocks _ _).
    assert (frame s s3) as Hf3.
    { etrans; [done|]. etrans; [|apply frame_store]. split; try done; simpl; by rewrite Hp. }
    rewrite decide_False by (intros Hz; unfold pathNode_isValid in Hv; rewrite Hz in Hv; done).
    assert (root_of s3 = root_of s) as Hroot by (simpl; rewrite Hmd'; by rewrite Hmd2).
    eapply post_mono; [eapply (IH node)| |by intros s' Hs'; etrans].
    + by rewrite (fr_lbc _ _ Hf3).
    + by eapply reads_frame.
    + eapply bps_ok_frame; [| |exact Hok1]; [|done]. etrans; [by apply (frame_hext _ bl)|]. fold s2.
      etrans; [|apply frame_store]. split; try done; simpl; by rewrite Hp.
    + done.
    + simpl. by rewrite lookup_insert_eq.
    + by eapply clean_nodes_frame.
    + by rewrite (stored_frame _ _ Hf3), Hroot.
    + intros [np de] s' [(Hf' & Hok' & Hops' & Hpre' & Hk' & Hsp) Hde]. split.
      * split_and!; [by etrans|done|done|by etrans|by rewrite <- Hroot|]. intros g Hk Hs. rewrite <- Hroot.
        rewrite reverse_cons, <- app_assoc. cbn [app].
        replace (pn_Name <$> tail (reverse rest ++ [node; cur]))
          with ((pn_Name <$> tail (reverse rest ++ [node])) ++ [pn_Name cur])
          by (destruct (reverse rest); simpl; [done|]; by rewrite !fmap_app, <- app_assoc).
        apply spine_snoc. eapply spine_mono; [|apply Hsp; [by rewrite (stored_frame _ _ Hf3)|done]].
        intros e e' [He He']. simpl. exists d, (set_child (pn_Name cur) (fill_entry plain info (doSet && mt) (doSet && ct) now c) (exported_dir d)).
        eexists c, _. rewrite He. split_and!; [by apply Hk|by rewrite He'|done|done|apply fill_entry_kind|done|].
        unfold entry_id, DirEntry_BlockPointer. rewrite fill_entry_info. apply Hg; [done|].
        eapply serves_prefix; [|done]. exact Hpre'.
      * intros Hi. rewrite Hi in Hde. by apply Hde.
Qed.

(** ** Syncing and embedding *)

(** The changes of the new metadata can be put back where they were. *)
Definition swappable (md : RootMetadata) : Prop :=
  bc_Ops (pmd_Changes (rmd_data md)) ≠ [] ∨ bc_Ops (pmd_cachedChanges (rmd_data md)) ≠ [].

(** The operation [s'] is ready to be put: its root is a tree that differs
    from the one of [s] along [ns] only. *)
Definition prepared (s s' : fbo) (ns : list string) (Q : store_view → DirEntry → DirEntry → Prop) : Prop :=
  frame s s' ∧ bps_ok s' ∧ swappable (br_md s') ∧ same_kind (root_of s) (root_of s') ∧
  ∀ g, keeps (stored (br_world s)) g → serves g (br_bps s') → spine g ns (root_of s) (root_of s') (Q g).

Lemma unembed_post s uid :
  bps_ok s → ops_of s ≠ [] →
  post (unembedBlockChanges uid) (λ _ s', frame s s' ∧ bps_ok s' ∧ swappable (br_md s') ∧
    br_bps s `prefix_of` br_bps s' ∧ root_of s' = root_of s) (frame s) s.
Proof.
  intros Hok Hops. unfold unembedBlockChanges. do 3 step.
  destruct (Encode_total (pmd_Changes (rmd_data (br_md s)))) as [buf Hbuf]. eapply post_lift_Ok; [done|]. step.
  apply post_on_blocks, post_wp, wp_alloc. intros a Ha. set (s1 := set_blocks _ _).
  assert (frame s s1) as Hf1 by apply frame_store. step.
  eapply post_mono; [eapply (readyBlockMultiple_post s1)| |intros s' Hs'; by etrans].
  { simpl. by rewrite lookup_insert_eq. }
  { by eapply bps_ok_frame. }
  intros [info plain] s2 (Hf2 & Hmd & Hok2 & _ & Hpre & _). step.
  assert (frame s s2) as Hf by (by etrans).
  split_and!; [|by eapply bps_ok_frame; [by apply frame_md| |]|by right|done|simpl; by rewrite Hmd].
  etrans; [done|]. by apply frame_md.
Qed.

Lemma checkEmbed_post s uid (b : bool) :
  bps_ok s → ops_of s ≠ [] →
  post (if b then mret tt else unembedBlockChanges uid) (λ _ s', frame s s' ∧ bps_ok s' ∧ swappable (br_md s') ∧
    br_bps s `prefix_of` br_bps s' ∧ root_of s' = root_of s) (frame s) s.
Proof.
  intros Hok Hops. destruct b; [|by apply unembed_post]. step. split_and!; [done|done|by left|done|done].
Qed.

Lemma synced_prepared s s1 s' ns Q :
  synced s s1 ns Q → frame s1 s' → bps_ok s' → swappable (br_md s') → br_bps s1 `prefix_of` br_bps s' →
  root_of s' = root_of s1 → prepared s s' ns Q.
Proof.
  intros (Hf & Hok & Hops & Hpre & Hk & Hsp) Hf' Hok' Hsw Hpre' Hroot.
  split_and!; [by etrans|done|done|by rewrite Hroot|]. intros g Hg Hs. rewrite Hroot. apply Hsp; [done|].
  by eapply serves_prefix.
Qed.

(** A directory whose block was changed. *)
Lemma sync_dir_post s newBlock fb l cur t mt ct b :
  br_lbc s = ∅ → reads s → bps_ok s → ops_of s ≠ [] → heap s !! newBlock = Some b →
  Forall (clean_node s fb) l →
  at_path (stored (br_world s)) (root_of s) (l ++ [cur]) →
  post (syncBlockAndCheckEmbedLocked newBlock (MkPath fb l) (pn_Name cur) t mt ct zeroPtr)
    (λ _ s', prepared s s' (pn_Name <$> tail (l ++ [cur]))
       (λ g e e', entry_id e = bp_ID (pn_BlockPointer cur) ∧ g (entry_id e') = Some (exported b))) (frame s) s.
Proof.
  intros Hlbc Hr Hok Hops Hb Hcl Hpath. unfold syncBlockAndCheckEmbedLocked. step. apply post_lift.
  destruct cfg_CurrentUser as [[name uid]|e|p] eqn:Hu; [|done|by apply bl_user in Hu].
  step. unfold syncBlock. step. eapply post_returns; [apply bl_now|]. intros now w Hw. step.
  cbn [p_path p_FolderBranch]. set (s1 := set_world w s). assert (frame s s1) as Hf1 by (by apply frame_world).
  eapply post_mono; [eapply (sync_loop_post _ _ _ _ _ _ (reverse l) cur)| |by intros s' Hs'; etrans].
  - apply Forall_true. intros n. change (br_lbc s1) with (br_lbc s). by rewrite Hlbc, lookup_empty.
  - by eapply reads_frame.
  - by eapply bps_ok_frame.
  - done.
  - done.
  - apply Forall_reverse. by eapply clean_nodes_frame.
  - by rewrite reverse_involutive, (stored_frame _ _ Hf1).
  - intros [np de] s2 [Hsync _]. rewrite reverse_involutive in Hsync. do 4 step.
    pose proof Hsync as (Hf2 & Hok2 & Hops2 & _).
    eapply post_mono; [by apply checkEmbed_post| |intros s' Hs'; by do 2 (etrans; [done|])].
    intros [] s' (Hf' & Hok' & Hsw & Hpre & Hroot). step.
    eapply synced_prepared in Hsync; [|done..].
    destruct Hsync as (Hf3 & Hok3 & Hsw3 & Hk3 & Hsp). split_and!; [by etrans|done..|].
    intros g Hg. apply Hsp. by rewrite (stored_frame _ _ Hf1).
Qed.

(** A new entry [name] of the directory [cur], for the block [b]. *)
Lemma sync_new_post s newBlock fb l cur d name t b :
  br_lbc s = ∅ → reads s → bps_ok s → ops_of s ≠ [] → heap s !! newBlock = Some b →
  Forall (clean_node s fb) (l ++ [cur]) →
  at_path (stored (br_world s)) (root_of s) (l ++ [cur]) →
  stored (br_world s) (bp_ID (pn_BlockPointer cur)) = Some (DirB d) → child name d = None →
  post (syncBlockAndCheckEmbedLocked newBlock (MkPath fb (l ++ [cur])) name t true true zeroPtr)
    (λ '(_, de) s', (ei_Type (de_EntryInfo de) = t ∧ bl_valid (entry_id de)) ∧ prepared s s' (pn_Name <$> tail (l ++ [cur]))
       (λ g e e', entry_id e = bp_ID (pn_BlockPointer cur) ∧ g (entry_id de) = Some (exported b) ∧
          g (entry_id e') = Some (DirB (exported_dir (set_child name de d))))) (frame s) s.
Proof.
  intros Hlbc Hr Hok Hops Hb Hcl Hpath Hd Hno. unfold syncBlockAndCheckEmbedLocked. step. apply post_lift.
  destruct cfg_CurrentUser as [[uname uid]|e|p] eqn:Hu; [|done|by apply bl_user in Hu].
  step. unfold syncBlock. step. eapply post_returns; [apply bl_now|]. intros now w Hw. step.
  cbn [p_path p_FolderBranch]. set (s1 := set_world w s). assert (frame s s1) as Hf1 by (by apply frame_world).
  rewrite reverse_snoc. cbn [sync_loop]. step.
  eapply post_mono; [by apply (readyBlockMultiple_post s1 _ b); [|by eapply bps_ok_frame]| |by intros s' Hs'; etrans].
  intros [info plain] s2 (Hf2 & Hmd & Hok2 & _ & Hpre & [Hinit Hptr] & Hg). cbv beta iota zeta.
  assert (frame s s2) as Hf by (by etrans).
  assert (path_isValid (MkPath fb (reverse (cur :: reverse l))) = true) as Hvalid.
  { eapply reverse_valid; [|done]. rewrite <- reverse_snoc. by apply Forall_reverse. }
  apply Forall_app in Hcl as [Hcl [[Hv Hnd] _]%Forall_cons].
  do 3 step. assert (br_lbc s2 = ∅) as -> by (rewrite (fr_lbc _ _ Hf); done). rewrite lookup_empty.
  eapply (getDirLocked_spec _ _ cur d); [by eapply reads_frame|done| | |].
  { simpl. by rewrite reverse_cons, last_snoc. }
  { eapply clean_dir_frame; [done|]. by split. }
  intros a bl d' Hext Ha Hbl ->. set (s3 := set_blocks bl s2).
  assert (frame s s3) as Hf3 by (etrans; [done|by apply frame_hext]).
  step. eapply post_load_dir; [done|]. step. change (child name (exported_dir d)) with (child name d). rewrite Hno.
  rewrite bool_decide_eq_true_2 by done. cbv beta iota. step. cbv beta iota zeta. step. apply post_on_md.
  assert (br_md s3 = br_md s) as Hmd3 by done. rewrite <- Hmd3 in Hops.
  eapply post_mono; [by apply AddRefBlock_post| |by intros md Hm; etrans; [done|split; try done; apply Hm]].
  intros [] md (Hmd' & Hp & Ho). step. apply post_on_blocks. unfold store. step.
  set (de := fill_entry _ _ _ _ _ _). set (s4 := set_blocks _ _).
  assert (frame s2 s4) as Hf24.
  { etrans; [by apply (frame_hext _ bl)|]. etrans; [|apply frame_store]. split; try done; simpl; by rewrite Hp. }
  assert (frame s s4) as Hf4 by (etrans; [exact Hf|exact Hf24]).
  assert (root_of s4 = root_of s) as Hroot by (simpl; by rewrite Hmd', Hmd3).
  assert (de_BlockInfo de = info) as Hinfo by apply fill_entry_info.
  assert (ei_Type (de_EntryInfo de) = t) as Htype by (apply fill_entry_kind).
  rewrite decide_False by (intros Hz; unfold pathNode_isValid in Hv; rewrite Hz in Hv; done).
  change (DirEntry_IsInitialized (MkDirEntry zeroBlockInfo _)) with false. cbv iota.
  eapply post_mono; [eapply (sync_loop_post _ _ _ _ _ _ (reverse l) cur)| |by intros s' Hs'; etrans].
  - apply Forall_true. intros n. by rewrite (fr_lbc _ _ Hf4), Hlbc, lookup_empty.
  - by eapply reads_frame.
  - by eapply bps_ok_frame; [exact Hf24|..].
  - done.
  - simpl. by rewrite lookup_insert_eq.
  - apply Forall_reverse. by eapply clean_nodes_frame.
  - by rewrite reverse_involutive, (stored_frame _ _ Hf4), Hroot.
  - intros [np de'] s5 [Hsync ->]; [|unfold DirEntry_IsInitialized, DirEntry_BlockPointer; by rewrite Hinfo].
    rewrite reverse_involutive in Hsync. do 4 step. pose proof Hsync as (Hf5 & Hok5 & Hops5 & Hpre5 & _).
    eapply post_mono; [by apply checkEmbed_post| |intros s' Hs'; by do 2 (etrans; [done|])].
    intros [] s' (Hf' & Hok' & Hsw & Hpre' & Hroot'). step.
    split; [split; [done|]; unfold entry_id, DirEntry_BlockPointer; by rewrite Hinfo|].
    eapply synced_prepared in Hsync; [|done..]. destruct Hsync as (Hf6 & Hok6 & Hsw6 & Hk6 & Hsp).
    split_and!; [by etrans|done|done|by rewrite <- Hroot|]. intros g Hk Hs. rewrite <- Hroot.
    eapply spine_mono; [|apply Hsp; [by rewrite (stored_frame _ _ Hf4)|done]]. intros e e' [He He'].
    split_and!; [done| |done]. unfold entry_id, DirEntry_BlockPointer. rewrite Hinfo. apply Hg.
    + by rewrite (stored_frame _ _ Hf1).
    + eapply serves_prefix; [|done]. etrans; [|done]. exact Hpre5.
Qed.
End sync.
