(* ===== verification/DirThms.v ===== *)
(** * DirThms: the effect of the directory operations

    The puts of an operation make every readied block available and the new
    root visible, or leave the head of the folder as it was.  With
    [DirSpec], each operation changes the tree at its directory and nowhere
    else, or changes nothing. *)

From Stdlib Require Import ZArith Lia.
From S2P Require Import Prelude Types Errors GoStd Ids RekeyQueue CryptoCommon Splitter DataTypes Ops ConflictInfo Handles KeyBundles Metadata FolderBlocks FolderBlocksSpec Lru MDUtil BlockManager BlockManagerSpec DirOps DirWrites DirLaws DirSpec.

Section finalize.
Context {W : Type} `{Config, Codec FileBlock, Codec DirBlock, BranchConfig W, Codec BlockChanges, Codec BareRootMetadata, Codec PrivateMetadata, Codec TlfHandle}.
Context `{!BranchLaws W, !EncodeTotal FileBlock, !EncodeTotal DirBlock, !EncodeTotal BlockChanges, !EncodeTotal BareRootMetadata, !EncodeTotal PrivateMetadata, !EncodeTotal TlfHandle}.
Abbreviation fbo := (folderBranchOps W).
Abbreviation heap s := (fbo_heap (br_blocks s)).
Abbreviation root_of s := (pmd_Dir (rmd_data (br_md s))).

(** ** Puts *)

(** The server has blocks at their hashes only. *)
Definition raw_ok (w : W) : Prop := ∀ id d, bl_raw w !! id = Some d → id = bl_hash d.

Definition all_put (w w' : W) (l : list blockState) : Prop :=
  raw_ok w' ∧ bl_raw w ⊆ bl_raw w' ∧
  ∀ bs, bs ∈ l → IsFirstRef (bst_blockPtr bs) = true → bl_raw w' !! bp_ID (bst_blockPtr bs) = Some (bst_readyBlockData bs).

Lemma put_one_ok md bs w w' l :
  raw_ok w → (IsFirstRef (bst_blockPtr bs) = true → bp_ID (bst_blockPtr bs) = bl_hash (bst_readyBlockData bs)) →
  bc_PutBlock md (bst_blockPtr bs) (bst_readyBlockData bs) w = (Ok tt, w') →
  raw_ok w' ∧ ∀ w'', all_put w' w'' l → all_put w w'' (bs :: l).
Proof.
  intros Hraw Hid Hput. pose proof (bl_put md (bst_blockPtr bs) (bst_readyBlockData bs) w) as Hw. rewrite Hput in Hw.
  destruct (IsFirstRef (bst_blockPtr bs)) eqn:Hf.
  - specialize (Hid eq_refl). split.
    + intros id d. rewrite Hw, lookup_insert_Some. intros [[<- <-]|[_ Hd]]; [done|by apply Hraw].
    + intros w'' (H1' & H2' & H3'). split_and!; [done| |].
      * apply map_subseteq_spec. intros id d Hd. eapply lookup_weaken; [|done]. rewrite Hw.
        apply Hraw in Hd as Hh. destruct (decide (bp_ID (bst_blockPtr bs) = id)) as [He|He].
        -- rewrite He, lookup_insert_eq. f_equal. apply (inj bl_hash). congruence.
        -- by rewrite lookup_insert_ne.
      * intros b [->|Hin]%elem_of_cons Hb; [|by apply H3'].
        eapply lookup_weaken; [|done]. by rewrite Hw, lookup_insert_eq.
  - split; [intros id d; rewrite Hw; apply Hraw|]. intros w'' (H1' & H2' & H3'). split_and!; [done|by rewrite <- Hw|].
    intros b [->|Hin]%elem_of_cons Hb; [congruence|by apply H3'].
Qed.

(** Nothing but the servers changes. *)
Definition quiet (s s' : fbo) : Prop := ∃ w, s' = set_world w s.

Lemma quiet_refl s : quiet s s.
Proof. exists (br_world s). by destruct s. Qed.
Lemma quiet_trans s1 s2 s3 : quiet s1 s2 → quiet s2 s3 → quiet s1 s3.
Proof. intros [w ->] [w' ->]. by exists w'. Qed.

Lemma put_blocks_post l s err more :
  (err = None → raw_ok (br_world s)) →
  (∀ bs, bs ∈ l → is_Some (heap s !! bst_block bs) ∧
    (IsFirstRef (bst_blockPtr bs) = true → bp_ID (bst_blockPtr bs) = bl_hash (bst_readyBlockData bs))) →
  post (put_blocks l err more) (λ '(err', rm) s', quiet s s' ∧
    (err' = None → err = None ∧ all_put (br_world s) (br_world s') l) ∧
    Forall (λ a, ∃ f, heap s !! a = Some (FileB f)) rm) (λ _, False) s.
Proof.
  revert s err more. induction l as [|bs l IH]; intros s err more Hraw Hok; cbn [put_blocks].
  { step. split_and!; [apply quiet_refl| |constructor]. intros ->. split; [done|]. split_and!; [by apply Hraw|done|]. intros bs Hbs. set_solver. }
  cbv zeta. destruct (_ && bool_decide (more = 0)) eqn:Hfin.
  { step. split_and!; [apply quiet_refl| |constructor]. by intros ->. }
  do 3 step. apply post_on_world, post_try.
  destruct (Hok bs ltac:(set_solver)) as [[b Hb] Hid]. unfold post at 1.
  assert (∀ bs', bs' ∈ l → is_Some (heap s !! bst_block bs') ∧
    (IsFirstRef (bst_blockPtr bs') = true → bp_ID (bst_blockPtr bs') = bl_hash (bst_readyBlockData bs'))) as Hok'
    by (intros bs' Hbs'; apply (Hok bs'); set_solver).
  pose proof (bl_put (br_md s) (bst_blockPtr bs) (bst_readyBlockData bs) (br_world s)) as Hput.
  destruct (bc_PutBlock _ _ _ _) as [[[]|e|p] w] eqn:Hw; [| |done].
  - eapply post_mono; [apply (IH (set_world w s)); [|done]| |done].
    { intros He. destruct (put_one_ok _ _ _ _ l (Hraw He) Hid Hw) as [Hraw' _]. done. }
    intros [err' rm] s' (Hq & He & Hrm). split_and!; [eapply quiet_trans; [by exists w|done]| |done].
    intros Hn. destruct (He Hn) as [? Hall]. split; [done|].
    destruct (put_one_ok _ _ _ _ l (Hraw ltac:(done)) Hid Hw) as [_ Hput']. by apply Hput'.
  - intros e'. step. eapply post_load; [done|]. step.
    eapply post_mono; [apply (IH (set_world w s)); [done|done]| |done].
    intros [err' rm] s' (Hq & He & Hrm). step.
    split_and!; [eapply quiet_trans; [by exists w|done]|intros Hn; by destruct (He Hn)|].
    apply Forall_app. split; [|done]. destruct b; [constructor..|]. destruct (isRecoverableBlockError _ && negb _); [|constructor]. constructor; [by eexists|constructor].
Qed.

Lemma forget_blocks_post l s :
  Forall (λ a, ∃ f, heap s !! a = Some (FileB f)) l →
  post (forget_blocks l) (λ _ s', quiet s s') (λ _, False) s.
Proof.
  revert s. induction l as [|a l IH]; intros s Hl; cbn [forget_blocks]; [step; apply quiet_refl|].
  apply Forall_cons in Hl as [[f Hf] Hl]. do 3 step. apply post_on_blocks, post_wp.
  eapply wp_load_file; [done|]. step. apply post_on_world, post_try.
  pose proof (bl_deleteKnown f (br_world s)) as Hd. unfold post at 1. cbn [br_world set_blocks].
  destruct (bc_DeleteKnownPtr f (br_world s)) as [[[]|e|p] w]; [| |done].
  all: intros; step; eapply post_mono; [by apply IH| |done]; intros ptrs s' Hq; step;
    (eapply quiet_trans; [|exact Hq]); exists w; by destruct s.
Qed.

Lemma doBlockPuts_post s sched :
  raw_ok (br_world s) → bps_ok s →
  post (doBlockPuts sched) (λ '(_, err) s', quiet s s' ∧ (err = None → all_put (br_world s) (br_world s') (br_bps s)))
    (λ _, False) s.
Proof.
  intros Hraw Hok. unfold doBlockPuts. do 3 step.
  pose proof (reorder_Permutation (ds_order sched) (br_bps s)) as Hperm.
  eapply post_mono; [apply put_blocks_post; [done|]| |done].
  { intros bs Hbs. rewrite Hperm in Hbs. by apply Hok. }
  intros [err rm] s' ([w ->] & Hall & Hrm). cbv beta iota. destruct err as [e|].
  - case_match.
    + step. eapply post_mono; [by apply forget_blocks_post| |done]. intros ptrs s' Hq. step.
      split; [eapply quiet_trans; [by exists w|done]|done].
    + step. split; [by exists w|done].
  - step. split; [by exists w|]. intros _. destruct (Hall eq_refl) as [_ (H1' & H2' & H3')].
    split_and!; [done..|]. intros bs Hbs. apply H3'. by rewrite Hperm.
Qed.

(** ** The new head *)

Definition same_md (md md' : RootMetadata) : Prop :=
  rmd_bare md' = rmd_bare md ∧ rmd_data md' = rmd_data md ∧ rmd_tlfHandle md' = rmd_tlfHandle md.

Lemma MetadataID_spec md :
  match MetadataID md with
  | (Ok id, md') => same_md md md' ∧ MetadataID md' = (Ok id, md')
  | (Err _, md') => md' = md
  | (Panic _, _) => False
  end.
Proof.
  unfold MetadataID. case_decide as Hz; [by rewrite decide_True|].
  assert (∀ p, MakeMdID (rmd_bare md) ≠ Panic p) as Hno.
  { intros p. unfold MakeMdID. destruct (wm_SerializedPrivateMetadata _); [|done].
    destruct (Encode_total (rmd_bare md)) as [buf Hb]. destruct (DefaultHash_total buf) as (h & Hh & _).
    rewrite Hb. simpl. by rewrite Hh. }
  destruct (MakeMdID (rmd_bare md)) as [id|e|p] eqn:Hid; [|done|by apply (Hno p)].
  split; [done|]. simpl. case_decide; [done|]. by rewrite Hid.
Qed.

(** The head, up to its cached id. *)
Definition head_is (h : RootMetadata) (s : fbo) : Prop := ∃ h', br_head s = Some h' ∧ same_md h h'.

(** The new metadata follows the head. *)
Definition succeeds (h : RootMetadata) (s : fbo) : Prop :=
  br_head s = Some h ∧ MetadataID h = (Ok (fst (md_base (br_md s))), h) ∧
  is_Some (rmd_tlfHandle h) ∧ is_Some (snd (md_base (br_md s))).

Lemma setHeadLocked_post h s :
  succeeds h s → follows (br_md s) →
  post setHeadLocked (λ _ s', bl_raw (br_world s') = bl_raw (br_world s) ∧
    ∃ md', br_head s' = Some md' ∧ br_md s' = md' ∧ same_md (br_md s) md') (head_is h) s.
Proof.
  intros (Hh & Hid & [th Hth] & [th' Hth']) Hfol. unfold setHeadLocked. do 3 step. rewrite Hh. step. apply post_on_md.
  unfold post at 1. pose proof (MetadataID_spec (br_md s)) as Hmd. unfold follows in Hfol.
  destruct (MetadataID (br_md s)) as [[mdID|e|p] md'] eqn:Hm; [|by exists h|done]. simpl in Hfol.
  destruct Hmd as [(Hb' & Hd' & Hth'') _].
  rewrite Hid. do 2 step. rewrite decide_False by (simpl; congruence). step.
  eapply post_lift_Ok; [unfold GetTlfHandle; by rewrite Hth|]. do 4 step.
  eapply post_calls; [apply bl_cacheMD| |intros; by exists h]. intros [] w _ Hw. do 5 step.
  eapply post_lift_Ok; [unfold GetTlfHandle; simpl; simpl in Hth'; by rewrite Hth'', Hth'|].
  assert (bl_raw w = bl_raw (br_world s) ∧ ∃ md'', br_head (set_head (Some md') (set_world w (set_head (Some h) (set_md md' s)))) = Some md'' ∧
    md' = md'' ∧ same_md (br_md s) md'') as Hdone by (split; [done|]; by exists md').
  case_decide; [by step|]. eapply post_returns; [apply bl_handleChange|]. intros [] w' Hw'. simpl in *.
  split; [congruence|]. by exists md'.
Qed.

Definition only_md (s s' : fbo) : Prop :=
  br_head s' = br_head s ∧ br_blocks s' = br_blocks s ∧ br_bps s' = br_bps s ∧ bl_raw (br_world s') = bl_raw (br_world s).

Lemma put_metadata_post s :
  post put_metadata (λ _ s', only_md s s' ∧ rmd_data (br_md s') = rmd_data (br_md s) ∧
    md_base (br_md s') = md_base (br_md s) ∧ follows (br_md s'))
    (λ s', br_head s' = br_head s) s.
Proof.
  assert (∀ s1 bid mergedRev, only_md s s1 → br_md s1 = br_md s →
    post (md ← on_world (bc_PutUnmergedMD (br_md s) bid); _ ← modify (λ s, set_staged true bid (set_md md s));
      on_world (bc_Resolve (bm_Revision (rmd_bare md)) mergedRev))
    (λ _ s', only_md s s' ∧ rmd_data (br_md s') = rmd_data (br_md s) ∧
      md_base (br_md s') = md_base (br_md s) ∧ follows (br_md s'))
    (λ s', br_head s' = br_head s) s1) as Hun.
  { intros s1 bid mr (Hh & Hb & Hp & Hr) Hm. step. eapply post_calls; [apply bl_putUnmergedMD| |done].
    intros md w (Hd & Hprev & Hf) Hw. do 2 step. eapply post_returns; [apply bl_resolve|]. intros [] w' Hw'.
    unfold only_md. simpl in *. split_and!; try done; congruence. }
  unfold put_metadata. do 3 step. destruct (br_staged s) eqn:Hst.
  - do 4 step. cbv zeta. step. apply Hun; [|done]. by split_and!.
  - step. apply post_on_world, post_try. unfold post at 1.
    pose proof (bl_putMD (br_md s) (br_world s)) as Hput.
    destruct (bc_PutMD (br_md s) (br_world s)) as [[md|e|p] w]; [| |done].
    + destruct Hput as [(Hd & Hp & Hf) Hw]. do 5 step. cbv zeta. step. cbn [br_staged set_md set_world]. rewrite Hst. do 2 step.
      split_and!; try done.
    + intros e'. destruct (revision_conflict e'); [|by step]. do 3 step. cbv zeta. step. cbn [negb]. cbv iota.
      eapply post_calls; [apply bl_bid| |done]. intros bid w' _ Hw'. apply Hun; [|done]. split_and!; try done. simpl in *. congruence.
Qed.

Lemma finalizeBlocks_post s :
  bps_ok s → post finalizeBlocks (λ _ s', quiet s s' ∧ bl_raw (br_world s') = bl_raw (br_world s)) (λ s', quiet s s') s.
Proof.
  intros Hok. unfold finalizeBlocks. do 2 step.
  apply post_for; [|split; [apply quiet_refl|done]]. intros bs s' Hbs [[w ->] Hw].
  destruct (Hok bs Hbs) as [[b Hb] _]. case_match; [|step; split; [by exists w|done]]. step.
  eapply post_load; [done|]. eapply post_calls; [apply bl_cacheBlock| |].
  - intros [] w' _ Hw'. split; [by exists w'|]. simpl in *. congruence.
  - intros w' _. by exists w'.
Qed.

Lemma swap_changes_spec md :
  swappable md → ∃ md', swap_changes md = Ok md' ∧ rmd_bare md' = rmd_bare md ∧ rmd_mdID md' = rmd_mdID md ∧
    rmd_tlfHandle md' = rmd_tlfHandle md ∧ pmd_Dir (rmd_data md') = pmd_Dir (rmd_data md).
Proof.
  intros Hs. unfold swap_changes, swappable in *. destruct (bc_Ops (pmd_Changes _)); [|eauto 10].
  destruct (bc_Ops (pmd_cachedChanges _)); [by destruct Hs|]. eauto 10.
Qed.

Lemma follows_ext md md' :
  rmd_bare md' = rmd_bare md → rmd_mdID md' = rmd_mdID md → follows md → follows md'.
Proof.
  unfold follows, MetadataID. intros -> ->. case_decide; [done|]. by destruct (MakeMdID _).
Qed.

(** The root is visible, and no block is lost. *)
Definition finalized (s s' : fbo) (root : DirEntry) : Prop :=
  bl_raw (br_world s') = bl_raw (br_world s) ∧ ∃ md', br_head s' = Some md' ∧ pmd_Dir (rmd_data md') = root.

Lemma finalize_rest_post h s :
  succeeds h s → follows (br_md s) → bps_ok s → swappable (br_md s) →
  post (md ← lift_res (swap_changes (br_md s));
    _ ← modify (set_md md);
    _ ← finalizeBlocks;
    _ ← setHeadLocked;
    s ← get;
    _ ← on_world (bc_archiveUnrefBlocks (br_md s));
    on_world (bc_notifyBatch (br_md s))) (λ _ s', finalized s s' (root_of s)) (head_is h) s.
Proof.
  intros Hsucc Hfol Hok Hsw. destruct (swap_changes_spec _ Hsw) as (md & Hmd & Hb & Hi & Hth & Hd).
  assert (md_base md = md_base (br_md s)) as Hbase by (unfold md_base; by rewrite Hb, Hth).
  pose proof Hsucc as (Hh & Hid & Hths).
  step. eapply post_lift_Ok; [done|]. do 3 step.
  eapply post_mono; [apply finalizeBlocks_post| |].
  { apply (bps_ok_frame s); [by apply frame_md|done|done]. }
  2:{ intros s' [w ->]. by exists h. }
  intros [] s' [[w ->] Hw]. step.
  eapply post_mono; [apply (setHeadLocked_post h)| |done].
  { unfold succeeds. cbn [br_md br_head set_world set_md]. by rewrite Hbase. }
  { by eapply follows_ext. }
  intros [] s2 (Hraw & md2 & Hh2 & Hm2 & (Hb2 & Hd2 & _)). do 3 step.
  eapply post_returns; [apply bl_archive|]. intros [] w2 Hw2.
  eapply post_returns; [apply bl_notify|]. intros [] w3 Hw3. simpl in *.
  split; [simpl; congruence|]. exists md2. split; [done|]. by rewrite Hd2.
Qed.

Lemma finalizeMDWriteLocked_post h s :
  succeeds h s → bps_ok s → swappable (br_md s) →
  post finalizeMDWriteLocked (λ _ s', finalized s s' (root_of s)) (head_is h) s.
Proof.
  intros (Hh & Hid & Hths) Hok Hsw. unfold finalizeMDWriteLocked. step.
  eapply post_mono; [apply put_metadata_post| |intros s' Hs'; exists h; by rewrite Hs'].
  intros [] s1 ((Hh1 & Hb1 & Hp1 & Hr1) & Hd1 & Hprev & Hfol). do 2 step. cbv zeta. do 2 step.
  eapply post_mono; [apply (finalize_rest_post h)| |].
  { unfold succeeds. by rewrite Hh1, Hprev. }
  { done. }
  { intros bs. rewrite Hp1, Hb1. apply Hok. }
  { unfold swappable. by rewrite Hd1. }
  - intros [] s2 (Hr2 & md' & Hh2 & Hroot). do 3 step.
    apply (post_mono _ (λ _ s', br_head s' = br_head s2 ∧ bl_raw (br_world s') = bl_raw (br_world s2)) _ (λ _, False)); [|..|done].
    + case_match; [|by step]. by eapply post_returns; [apply bl_enqueue|].
    + intros [] s3 [Hh3 Hr3]. step. split; [congruence|]. exists md'. rewrite Hh3, Hroot, Hd1. done.
  - intros s2 Hs2 e. do 3 step.
    apply (post_mono _ (λ _ s', br_head s' = br_head s2) _ (λ _, False)); [|..|done].
    + case_match; [|by step]. by eapply post_returns; [apply bl_enqueue|].
    + intros [] s3 Hh3. step. destruct Hs2 as (h' & Hh' & Hsame). exists h'. by rewrite Hh3.
Qed.

(** All puts succeed and the new root is visible, or the head stays. *)
Lemma put_and_finalize_post h s sched :
  succeeds h s → raw_ok (br_world s) → bps_ok s → swappable (br_md s) →
  post (put_and_finalize sched) (λ _ s', all_put (br_world s) (br_world s') (br_bps s) ∧
    ∃ md', br_head s' = Some md' ∧ pmd_Dir (rmd_data md') = root_of s) (head_is h) s.
Proof.
  intros Hsucc Hraw Hok Hsw. unfold put_and_finalize. do 3 step.
  assert (∀ e s', head_is h s' → post (A := unit) (s0 ← get; _ ← on_world (bc_cleanUpBlockState (br_md s0) (bst_blockPtr <$> br_bps s0)); fail e)
    (λ _ s', all_put (br_world s) (br_world s') (br_bps s) ∧
      ∃ md', br_head s' = Some md' ∧ pmd_Dir (rmd_data md') = root_of s) (head_is h) s') as Hclean.
  { intros e s' Hs'. do 3 step. apply post_on_world. unfold post at 1.
    pose proof (bl_cleanUp (br_md s') (bst_blockPtr <$> br_bps s') (br_world s')) as Hc.
    destruct (bc_cleanUpBlockState _ _ _) as [[[]|?|?] w]; [|done..]. by step. }
  eapply post_mono; [by apply doBlockPuts_post| |done].
  intros [ptrs err] s1 [[w ->] Hall]. cbv beta iota. destruct err as [e|].
  - step. intros e'. apply Hclean. exists h. split; [apply Hsucc|done].
  - eapply post_mono; [by apply (finalizeMDWriteLocked_post h)| |].
    + intros [] s' (Hr & md' & Hh & Hroot). step. destruct (Hall eq_refl) as (H1' & H2' & H3').
      simpl in Hr. split; [|by exists md']. unfold all_put, raw_ok. rewrite Hr. by split_and!.
    + intros s' Hs' e. by apply Hclean.
Qed.

(** ** Starting an operation *)

(** Dirty blocks are in memory. *)
Definition dirty_ok (b : folderBlockOps) : Prop := ∀ k a, fbo_dirty b !! k = Some a → is_Some (fbo_heap b !! a).

(** [l], [cur] is a directory of the folder, as its node says, with no dirty
    blocks on the way; the server's blocks are what the code reads. *)
Record in_folder (s : fbo) (h : RootMetadata) (fb : FolderBranch) (l : list pathNode) (cur : pathNode) : Prop := {
  if_head : br_head s = Some h;
  if_handle : is_Some (rmd_tlfHandle h);
  if_raw : raw_ok (br_world s);
  if_reads : reads s;
  if_dirty : dirty_ok (br_blocks s);
  if_clean : Forall (clean_node s fb) (l ++ [cur]);
  if_path : at_path (stored (br_world s)) (pmd_Dir (rmd_data h)) (l ++ [cur])
}.

Lemma MakeSuccessor_linked h :
  is_Some (rmd_tlfHandle h) →
  match MakeSuccessor true h with
  | (Ok md, h') => same_md h h' ∧ pmd_Dir (rmd_data md) = pmd_Dir (rmd_data h) ∧
      MetadataID h' = (Ok (fst (md_base md)), h') ∧ is_Some (snd (md_base md))
  | (Err _, h') => h' = h
  | (Panic _, _) => False
  end.
Proof.
  intros [th Hth]. unfold MakeSuccessor. destruct (IsFinal _); [done|]. unfold deepCopy.
  rewrite !CodecUpdate_total. simpl. rewrite Hth, CodecUpdate_total. simpl.
  pose proof (MetadataID_spec h) as Hm. destruct (MetadataID h) as [[id|e|p] h']; [|done|done].
  destruct Hm as [Hs Hm]. split_and!; [done|by case_match|done|by case_match].
Qed.

(** The successor of the head is being made. *)
Definition started (h : RootMetadata) (s s' : fbo) : Prop :=
  (∃ h', same_md h h' ∧ succeeds h' s') ∧ br_lbc s' = ∅ ∧ br_bps s' = [] ∧ root_of s' = pmd_Dir (rmd_data h) ∧
  br_blocks s' = br_blocks s ∧ bl_raw (br_world s') = bl_raw (br_world s).

Lemma getMDForWriteLocked_post h s :
  br_head s = Some h → is_Some (rmd_tlfHandle h) →
  post getMDForWriteLocked (λ _ s', started h s s') (head_is h) s.
Proof.
  intros Hh Hth. unfold getMDForWriteLocked, getMDLocked. do 4 step. rewrite Hh. do 3 step. rewrite Hh. cbv zeta. cbn [default from_option id]. step.
  eapply post_calls; [apply bl_identify| |intros; by exists h]. intros [] w _ Hw. do 2 step. apply post_lift.
  destruct cfg_CurrentUser as [[name uid]|e|p] eqn:Hu; [|by exists h|by apply bl_user in Hu]. step. apply post_lift.
  unfold GetTlfHandle. pose proof Hth as [th Ht]. rewrite Ht. destruct (negb _); [step; by exists h|].
  pose proof (MakeSuccessor_linked h Hth) as Hs. destruct (MakeSuccessor true h) as [[md|e|p] h']; [| |done].
  - destruct Hs as (Hs & Hd & Hm & Hmth). do 2 step. cbn [br_head set_world]. rewrite Hh. step. eapply post_lift_Ok; [done|]. step.
    split_and!; try done. exists h'. split; [done|]. split_and!; [done..| |done].
    destruct Hs as (_ & _ & Hs). by rewrite Hs.
  - subst h'. do 2 step. cbn [br_head set_world]. rewrite Hh. step. apply post_lift. by exists h.
Qed.

(** ** The checks of a new entry *)

Definition grows (s s' : fbo) : Prop := ∃ b, hext (br_blocks s) b ∧ s' = set_blocks b s.

Lemma grows_frame s s' : grows s s' → frame s s'.
Proof. intros (b & Hb & ->). by apply frame_hext. Qed.

Lemma grows_trans s1 s2 s3 : grows s1 s2 → grows s2 s3 → grows s1 s3.
Proof. intros (b & Hb & ->) (b' & Hb' & ->). exists b'. split; [by eapply hext_trans|done]. Qed.

Lemma updateDirty_wp b a d (Q : addr → folderBlockOps → Prop) :
  fbo_heap b !! a = Some (DirB d) →
  (∀ a' b' d', hext b b' → fbo_heap b' !! a' = Some (DirB d') → Q a' b') →
  wp (updateWithDirtyEntriesLocked a) Q b.
Proof.
  intros Ha HQ. unfold updateWithDirtyEntriesLocked. apply wp_bind, wp_get.
  case_decide; [apply wp_ret; by eapply HQ; [apply hext_refl|]|]. apply wp_bind. eapply wp_load_dir; [done|].
  case_decide; [|apply wp_ret; by eapply HQ; [apply hext_refl|]]. apply wp_bind.
  eapply wp_lift; [apply DirBlock_DeepCopy_exported|].
  apply wp_alloc. intros a' Ha'. eapply HQ; [by apply hext_alloc|]. simpl. by rewrite lookup_insert_eq.
Qed.

Lemma path_valid_clean (s : fbo) fb l : Forall (clean_node s fb) l → l ≠ [] → path_isValid (MkPath fb l) = true.
Proof.
  intros Hl Hne. rewrite <- (reverse_involutive l). eapply reverse_valid; [by apply Forall_reverse|].
  intros Hr. apply (f_equal reverse) in Hr. by rewrite reverse_involutive in Hr.
Qed.

Lemma getDirtyEntry_post (s : fbo) fb l node cur e :
  reads s → Forall (clean_node s fb) ((l ++ [node]) ++ [cur]) →
  at_path (stored (br_world s)) e ((l ++ [node]) ++ [cur]) →
  post (on_blocks (getDirtyEntryLocked (MkPath fb ((l ++ [node]) ++ [cur])))) (λ _ s', grows s s') (grows s) s.
Proof.
  intros Hr Hcl Hp. rewrite <- app_assoc in Hp. destruct (at_path_snoc _ _ _ _ _ Hp) as (_ & d & c & Hd & _).
  apply Forall_app in Hcl as [Hcl _]. apply Forall_app in Hcl as Hcl'. destruct Hcl' as [_ [[Hv Hn] _]%Forall_cons].
  set (file := MkPath fb _). assert (parentPath file = Ok (MkPath fb (l ++ [node]))) as Hpar.
  { unfold parentPath, file. simpl. rewrite decide_False by (rewrite !length_app; simpl; lia).
    do 2 f_equal. rewrite length_app. simpl. by rewrite Nat.add_sub, take_app_length. }
  assert (path_isValid (MkPath fb (l ++ [node])) = true) as Hvalid by (eapply path_valid_clean; [done|]; by destruct l).
  apply post_on_blocks. unfold getDirtyEntryLocked, getDirtyParentAndEntryLocked.
  assert (hasValidParent file = true) as ->.
  { unfold hasValidParent. rewrite decide_True by (unfold file; simpl; rewrite !length_app; simpl; lia). by rewrite Hpar. }
  cbn [negb]. do 2 step. eapply post_lift_Ok; [done|]. unfold getDirtyDirLocked. do 2 step. apply post_wp.
  eapply (getDirLocked_wp _ _ node d); [done|simpl; by rewrite last_snoc|by apply Hr|done|]. intros a b Hext _ Ha.
  apply post_wp. eapply updateDirty_wp; [done|]. intros a' b' d' Hext' Ha'.
  assert (grows s (set_blocks b' s)) as Hg by (exists b'; split; [by eapply hext_trans|done]).
  step. unfold tailName, tailNode, file. cbn [p_path]. rewrite last_snoc. eapply post_lift_Ok; [done|]. step.
  apply post_wp. eapply wp_load_dir; [done|]. destruct (db_Children d' !! _); [by do 2 step|by step].
Qed.

(** ** Running and finishing an operation *)

Record running (h : RootMetadata) (fb : FolderBranch) (l : list pathNode) (cur : pathNode) (s : fbo) : Prop := {
  ru_succ : ∃ h', same_md h h' ∧ succeeds h' s;
  ru_lbc : br_lbc s = ∅;
  ru_reads : reads s;
  ru_bps : bps_ok s;
  ru_raw : raw_ok (br_world s);
  ru_dirty : dirty_ok (br_blocks s);
  ru_clean : Forall (clean_node s fb) (l ++ [cur]);
  ru_path : at_path (stored (br_world s)) (root_of s) (l ++ [cur]);
  ru_root : root_of s = pmd_Dir (rmd_data h)
}.

Lemma started_running h fb l cur s s' :
  in_folder s h fb l cur → started h s s' → running h fb l cur s' ∧ stored (br_world s') = stored (br_world s).
Proof.
  intros [] (Hsucc & Hlbc & Hbps & Hroot & Hbl & Hraw).
  assert (stored (br_world s') = stored (br_world s)) as Hst by (unfold stored; by rewrite Hraw). split; [|done].
  split; [done|done|unfold reads; by rewrite Hst|intros bs; rewrite Hbps; set_solver|unfold raw_ok; by rewrite Hraw|by rewrite Hbl| | |done].
  - eapply Forall_impl; [done|]. intros n [? ?]. split; [done|]. by rewrite Hbl.
  - by rewrite Hst, Hroot.
Qed.

Lemma running_frame h fb l cur s s' :
  running h fb l cur s → frame s s' → br_bps s' = br_bps s → root_of s' = root_of s → running h fb l cur s'.
Proof.
  intros [(h' & Hs & Hsucc) ? ? ? ? Hdirty ? ? ?] Hf Hb Hr. split.
  - exists h'. split; [done|]. destruct Hsucc as [Hh Hid]. split; [by rewrite (fr_head _ _ Hf)|by rewrite (fr_base _ _ Hf)].
  - by rewrite (fr_lbc _ _ Hf).
  - by eapply reads_frame.
  - by eapply bps_ok_frame.
  - unfold raw_ok. by rewrite (fr_raw _ _ Hf).
  - intros k a. rewrite (fr_dirty _ _ Hf). intros Ha%Hdirty. by eapply heap_frame.
  - by eapply clean_nodes_frame.
  - by rewrite (stored_frame _ _ Hf), Hr.
  - by rewrite Hr.
Qed.

Lemma running_head h fb l cur s s' : running h fb l cur s → frame s s' → head_is h s'.
Proof. intros [(h' & Hs & Hsucc) _ _ _ _ _ _ _ _] Hf. exists h'. split; [rewrite (fr_head _ _ Hf); apply Hsucc|done]. Qed.

(** The head of [s'] has a new tree, which differs along [ns] from the one
    of [h] as [Q] says; the blocks of [g] are still there. *)
Definition rebuilt (h : RootMetadata) (g : store_view) (s' : fbo) (ns : list string)
    (Q : store_view → DirEntry → DirEntry → Prop) : Prop :=
  ∃ h', br_head s' = Some h' ∧ keeps g (stored (br_world s')) ∧
    same_kind (pmd_Dir (rmd_data h)) (pmd_Dir (rmd_data h')) ∧
    spine (stored (br_world s')) ns (pmd_Dir (rmd_data h)) (pmd_Dir (rmd_data h')) (Q (stored (br_world s'))).

Lemma same_head_trans h h' h'' : same_md h h' → same_md h' h'' → same_md h h''.
Proof. unfold same_md. intros (? & ? & ?) (? & ? & ?). split_and!; congruence. Qed.

(** The blocks of a prepared operation are on the server and its root is
    the head. *)
Lemma prepared_visible h s s1 ns Q s' :
  prepared s s1 ns Q → root_of s = pmd_Dir (rmd_data h) → all_put (br_world s1) (br_world s') (br_bps s1) →
  (∃ md', br_head s' = Some md' ∧ pmd_Dir (rmd_data md') = root_of s1) → rebuilt h (stored (br_world s)) s' ns Q.
Proof.
  intros (Hf & Hok & Hsw & Hk & Hsp) Hroot (_ & Hsub & Hall) (md' & Hmd' & Hroot').
  assert (keeps (stored (br_world s)) (stored (br_world s'))) as Hkeep.
  { intros id b. unfold stored. intros (d & Hd & Hopen)%bind_Some. apply bind_Some. exists d. split; [|done].
    eapply lookup_weaken; [by rewrite <- (fr_raw _ _ Hf) in Hd|done]. }
  exists md'. rewrite Hroot', <- Hroot. split_and!; [done..|]. apply Hsp; [done|].
  intros bs Hbs Hfirst. unfold stored. by rewrite (Hall bs Hbs Hfirst).
Qed.

Lemma finish_post h fb l cur s s1 ns Q sched :
  running h fb l cur s → prepared s s1 ns Q →
  post (put_and_finalize sched) (λ _ s', rebuilt h (stored (br_world s)) s' ns Q) (head_is h) s1.
Proof.
  intros Hrun Hprep. pose proof Hprep as (Hf & Hok & Hsw & _). destruct Hrun as [(h' & Hs & Hh' & Hid) ? ? ? Hraw ? ? ? Hroot].
  eapply post_mono; [eapply (put_and_finalize_post h')| |].
  - split; [by rewrite (fr_head _ _ Hf)|by rewrite (fr_base _ _ Hf)].
  - unfold raw_ok. by rewrite (fr_raw _ _ Hf).
  - done.
  - done.
  - intros [] s' [Hall Hmd']. by eapply prepared_visible.
  - intros s' (h'' & Hh'' & Hs''). exists h''. split; [done|]. by eapply same_head_trans.
Qed.

(** ** What the new tree is *)

(** Below the directory [ns], at names other than [names], and everywhere
    else the two trees are the same, but for the directories on the way. *)
Definition same_except (g : store_view) (ns names : list string) (old new : DirEntry) : Prop :=
  ∀ x, (∀ n, n ∈ names → ¬ (ns ++ [n]) `prefix_of` x) →
    if decide (x `prefix_of` ns) then ∃ e e', look g old x = Some e ∧ look g new x = Some e' ∧ same_kind e e'
    else look g new x = look g old x.

(** The directory [ns] had the children [m] and now has [m']. *)
Definition replaced (g : store_view) (ns : list string) (old new : DirEntry) (m m' : gmap string DirEntry) : Prop :=
  ∀ n y, look g old (ns ++ n :: y) = (m !! n ≫= λ e, look g e y) ∧
         look g new (ns ++ n :: y) = (m' !! n ≫= λ e, look g e y).

Definition has_children (g : store_view) (e : DirEntry) (m : gmap string DirEntry) : Prop :=
  ∃ d, g (entry_id e) = Some (DirB d) ∧ db_Children d = m.

Lemma spine_tree g ns old new names m m' :
  same_kind old new → spine g ns old new (λ e e', has_children g e m ∧ has_children g e' m') →
  (∀ n, n ∉ names → m' !! n = m !! n) →
  replaced g ns old new m m' ∧ same_except g ns names old new.
Proof.
  intros Hk Hsp Hm.
  assert (replaced g ns old new m m') as Hrep.
  { intros n y. destruct (spine_end _ _ _ _ _ Hsp) as (e & e' & [(d & He & <-) (d' & He' & <-)] & Hl).
    destruct (Hl (n :: y)) as [-> ->]. simpl. rewrite He, He'. unfold child.
    by destruct (db_Children d !! n), (db_Children d' !! n). }
  split; [done|]. intros x Hx. case_decide as Hp; [by eapply spine_along|].
  destruct (decide (ns `prefix_of` x)) as [[y ->]|Hn]; [|by eapply spine_off].
  destruct y as [|n y]; [by rewrite app_nil_r in Hp|]. destruct (Hrep n y) as [-> ->]. rewrite Hm; [done|].
  intros Hin. apply (Hx n Hin). exists y. by rewrite <- app_assoc.
Qed.
End finalize.
