(* ===== verification/DirEffects.v ===== *)
(** * DirEffects: creating, removing and renaming entries

    Each operation, run on a directory of the folder, either returns an
    error and leaves the head as it was, or makes visible a tree that differs
    from the old one by the entry, and keeps the blocks of the old tree.  The
    exception is the node cache: when it refuses the node of a new entry, the
    entry is there and an error is returned. *)

From Stdlib Require Import ZArith Lia.
From S2P Require Import Prelude Types Errors GoStd Ids RekeyQueue CryptoCommon Splitter DataTypes Ops ConflictInfo Handles KeyBundles Metadata FolderBlocks FolderBlocksSpec Lru MDUtil BlockManager BlockManagerSpec DirOps DirWrites DirLaws DirSpec DirThms.

Section effects.
Context {W : Type} `{Config, Codec FileBlock, Codec DirBlock, BranchConfig W, Codec BlockChanges, Codec BareRootMetadata, Codec PrivateMetadata, Codec TlfHandle}.
Context `{!BranchLaws W, !EncodeTotal FileBlock, !EncodeTotal DirBlock, !EncodeTotal BlockChanges, !EncodeTotal BareRootMetadata, !EncodeTotal PrivateMetadata, !EncodeTotal TlfHandle}.
Abbreviation fbo := (folderBranchOps W).
Abbreviation heap s := (fbo_heap (br_blocks s)).
Abbreviation root_of s := (pmd_Dir (rmd_data (br_md s))).
Abbreviation ops_of s := (bc_Ops (pmd_Changes (rmd_data (br_md s)))).

(** The names that lead to a directory. *)
Definition names_of (l : list pathNode) (cur : pathNode) : list string := pn_Name <$> tail (l ++ [cur]).

Lemma tail_of fb l cur :
  tailPointer (MkPath fb (l ++ [cur])) = Ok (pn_BlockPointer cur) ∧ tailName (MkPath fb (l ++ [cur])) = Ok (pn_Name cur) ∧
  parentPath (MkPath fb (l ++ [cur])) = Ok (MkPath fb l).
Proof.
  unfold tailPointer, tailName, tailNode, parentPath. cbn [p_path p_FolderBranch]. rewrite last_snoc.
  split_and!; [done..|]. rewrite decide_False by (rewrite length_app; simpl; lia).
  rewrite length_app. simpl. by rewrite Nat.add_sub, take_app_length.
Qed.

Lemma at_path_last g e l cur : at_path g e (l ++ [cur]) → ∃ d, g (bp_ID (pn_BlockPointer cur)) = Some (DirB d).
Proof.
  revert e. induction l as [|n l IH]; intros e; cbn [app at_path].
  - intros (-> & d & Hd & _). eauto.
  - assert (∃ n' l', l ++ [cur] = n' :: l') as (n' & l' & Hl') by (destruct l; simpl; eauto).
    rewrite Hl' in *. intros (_ & d & _ & c & _ & Hc). by eapply IH.
Qed.

(** ** Getting the directory of an operation *)

Lemma running_valid h fb l cur s : running h fb l cur s → pathFromNode (MkPath fb (l ++ [cur])) = Ok (MkPath fb (l ++ [cur])).
Proof.
  intros Hrun. unfold pathFromNode. destruct Hrun. rewrite (path_valid_clean s); [done|done|by destruct l].
Qed.
Lemma in_folder_valid s h fb l cur : in_folder s h fb l cur → pathFromNode (MkPath fb (l ++ [cur])) = Ok (MkPath fb (l ++ [cur])).
Proof.
  intros Hin. unfold pathFromNode. destruct Hin. rewrite (path_valid_clean s); [done|done|by destruct l].
Qed.

(** A running operation that has a copy of the directory at [a]. *)
Lemma fetch_post h fb l cur s rtype :
  running h fb l cur s →
  post (on_blocks (getDirLocked (MkPath fb (l ++ [cur])) rtype)) (λ a s', running h fb l cur s' ∧ grows s s' ∧
    ∃ d, stored (br_world s) (bp_ID (pn_BlockPointer cur)) = Some (DirB d) ∧
      heap s' !! a = Some (DirB match rtype with blockWrite => exported_dir d | blockRead => d end)) (λ _, False) s.
Proof.
  intros Hrun. pose proof Hrun as []. destruct (at_path_last _ _ _ _ ru_path) as [d Hd].
  apply Forall_app in ru_clean as Hc. destruct Hc as [_ [[Hv Hn] _]%Forall_cons].
  eapply (getDirLocked_spec _ _ cur d); [done|by eapply path_valid_clean; [|destruct l]|simpl; by rewrite last_snoc|by split|].
  intros a b d' Hext Ha Hb ->. assert (grows s (set_blocks b s)) as Hg by (by exists b).
  split_and!; [|done|by exists d]. eapply running_frame; [done|by apply grows_frame|done|done].
Qed.

Lemma AddOp_running h fb l cur s o :
  running h fb l cur s →
  post (on_md (md_AddOp o)) (λ _ s', running h fb l cur s' ∧ ops_of s' ≠ [] ∧ frame s s' ∧ br_blocks s' = br_blocks s)
    (λ _, False) s.
Proof.
  intros Hrun. apply post_on_md. eapply (post_mono _ _ _ (λ _, False)); [by apply AddOp_post| |done]. intros [] md (Hd & Hp & Ho).
  assert (frame s (set_md md s)) as Hf by (by apply frame_md). split_and!; [|done..]. by eapply running_frame.
Qed.

Lemma checkNewDirSize_post h fb l cur s name :
  running h fb l cur s →
  post (checkNewDirSize (MkPath fb (l ++ [cur])) name) (λ _ s', running h fb l cur s' ∧ frame s s') (head_is h) s.
Proof.
  intros Hrun. unfold checkNewDirSize. do 3 step.
  apply (post_mono _ (λ _ s', running h fb l cur s' ∧ frame s s') _ (head_is h)); [| |done].
  - case_match eqn:Hp; [|by step]. step.
    destruct l as [|node l _] using rev_ind; [done|].
    pose proof Hrun as []. eapply post_mono; [by eapply getDirtyEntry_post| |].
    + intros de s' Hg. apply grows_frame in Hg as Hf. step. split; [|done]. destruct Hg as (b & Hb & ->).
      by eapply running_frame.
    + intros s' Hg%grows_frame. by eapply running_head.
  - intros size s' [Hr Hf]. cbv zeta. step; step; [|done]. eapply running_head; [exact Hr|done].
Qed.

(** ** Creating *)

(** The new head has the entry [name], which was not there, in the
    directory [ns], with nothing below it. *)
Definition created (h : RootMetadata) (w : W) (ns : list string) (name : string) (t : EntryType)
    (de : DirEntry) (s' : fbo) : Prop :=
  ∃ h', br_head s' = Some h' ∧
    let g := stored (br_world s') in
    let old := pmd_Dir (rmd_data h) in
    let new := pmd_Dir (rmd_data h') in
    keeps (stored w) g ∧ ei_Type (de_EntryInfo de) = t ∧
    look g old (ns ++ [name]) = None ∧ look g new (ns ++ [name]) = Some de ∧
    (∀ n y, look g new (ns ++ name :: n :: y) = None) ∧
    same_except g ns [name] old new.

Lemma rebuilt_created h w s' ns name t de d :
  ei_Type (de_EntryInfo de) = t → child name d = None → 
  rebuilt h (stored w) s' ns (λ g e e', g (entry_id e) = Some (DirB d) ∧
    g (entry_id de) = Some (exported (new_block t)) ∧ g (entry_id e') = Some (DirB (exported_dir (set_child name de d)))) →
  created h w ns name t de s'.
Proof.
  intros Ht Hno (h' & Hh' & Hk & Hkind & Hsp). exists h'. split; [done|]. cbv zeta.
  set (g := stored (br_world s')) in *.
  destruct (spine_end _ _ _ _ _ Hsp) as (_ & _ & (_ & Hde & _) & _).
  destruct (spine_tree g ns _ _ [name] (db_Children d) (<[name := de]> (db_Children d)) Hkind) as [Hrep Hsame].
  { eapply spine_mono; [|exact Hsp]. intros e e' (He & _ & He'). split; eexists; split; [exact He|done|exact He'|done]. }
  { intros n Hn. rewrite lookup_insert_ne; [done|]. set_solver. }
  split_and!; [done..| | | |done].
  - destruct (Hrep name []) as [-> _]. unfold child in Hno. by rewrite Hno.
  - destruct (Hrep name []) as [_ ->]. by rewrite lookup_insert_eq.
  - intros n y. destruct (Hrep name (n :: y)) as [_ ->]. rewrite lookup_insert_eq. simpl. rewrite Hde.
    by destruct t.
Qed.

Lemma checkDisallowedPrefixes_cases name : ∀ p, checkDisallowedPrefixes name ≠ Panic p.
Proof. intros p. unfold checkDisallowedPrefixes. simpl. by case_match. Qed.

Lemma prepare_create_post h fb l cur s name :
  in_folder s h fb l cur →
  post (prepare_create (MkPath fb (l ++ [cur])) name) (λ a s', running h fb l cur s' ∧
    stored (br_world s') = stored (br_world s) ∧
    ∃ d, stored (br_world s) (bp_ID (pn_BlockPointer cur)) = Some (DirB d) ∧ child name d = None)
    (head_is h) s.
Proof.
  intros Hin. pose proof (if_head _ _ _ _ _ Hin) as Hh. assert (head_is h s) as Hhead by (by exists h).
  unfold prepare_create. step. apply post_lift.
  destruct (checkDisallowedPrefixes name) as [[]|e|p] eqn:Hpre; [|done|by apply checkDisallowedPrefixes_cases in Hpre].
  step; [by step|]. step. eapply post_mono; [by apply getMDForWriteLocked_post, (if_handle _ _ _ _ _ Hin)| |done].
  intros [] s1 Hst. destruct (started_running _ _ _ _ _ _ Hin Hst) as [Hrun Hsto]. step.
  eapply post_lift_Ok; [by eapply running_valid|]. step.
  eapply post_mono; [by apply (fetch_post h)| |done]. intros a s2 (Hrun2 & Hg & d & Hd & Ha). step.
  eapply post_load_dir; [done|]. change (child name (exported_dir d)) with (child name d).
  destruct (child name d) eqn:Hc; [step; by eapply running_head|]. step.
  eapply post_mono; [by apply checkNewDirSize_post| |done]. intros [] s3 [Hrun3 Hf3]. step.
  apply grows_frame in Hg. rewrite Hsto in Hd.
  split_and!; [done| |by exists d]. by rewrite (stored_frame _ _ Hf3), (stored_frame _ _ Hg).
Qed.

Lemma created_frame h w ns name t de s s' :
  br_head s' = br_head s → bl_raw (br_world s') = bl_raw (br_world s) → created h w ns name t de s → created h w ns name t de s'.
Proof. unfold created, stored. intros Hh Hw. by rewrite Hh, Hw. Qed.

(** The node of the new entry. *)
Lemma make_node_post h w ns name t de s dir :
  created h w ns name t de s → bl_valid (entry_id de) →
  post (try (_ ← on_world (bc_GetOrCreate (DirEntry_BlockPointer de) name dir); mret de)) (λ r s',
    created h w ns name t de s' ∧
    ∃ w1, match r with
          | inl de' => de' = de
          | inr e => bc_GetOrCreate (DirEntry_BlockPointer de) name dir w1 = (Err e, br_world s')
          end) (λ _, False) s.
Proof.
  intros Hc Hv. pose proof (bl_getOrCreate _ name dir Hv (br_world s)) as Hget.
  unfold post, try, mbind, go_bind, on_world. cbv beta in Hget.
  destruct (bc_GetOrCreate _ _ _ (br_world s)) as [[[]|e|p] w'] eqn:Hrun; [| |done].
  - destruct Hget as [_ Hraw]. split; [by apply (created_frame _ _ _ _ _ _ s)|]. by exists w'.
  - split; [by apply (created_frame _ _ _ _ _ _ s)|]. exists (br_world s). by rewrite Hrun.
Qed.

(** [try] around a method of which the error state is known. *)
Lemma post_try_bind {S A B} (m : go S A) (f : A → go S B) (Q : B + error → S → Prop) (E : S → Prop) s :
  post m (λ a s', post (try (f a)) Q (λ _, False) s') E s → (∀ e s', E s' → Q (inr e) s') →
  post (try (m ≫= f)) Q (λ _, False) s.
Proof.
  unfold post, try, mbind, go_bind. destruct (m s) as [[a|e|p] s']; [|auto|done]. done.
Qed.

(** What [syncBlockAndFinalizeLocked] puts for a new entry. *)
Lemma create_put_post h fb l cur s s0 sched name t d nb :
  running h fb l cur s → ops_of s ≠ [] → heap s !! nb = Some (new_block t) → stored (br_world s) = stored (br_world s0) →
  stored (br_world s) (bp_ID (pn_BlockPointer cur)) = Some (DirB d) → child name d = None →
  post (syncBlockAndFinalizeLocked sched nb (MkPath fb (l ++ [cur])) name t true true) (λ de s',
    created h (br_world s0) (names_of l cur) name t de s' ∧ bl_valid (entry_id de)) (head_is h) s.
Proof.
  intros Hrun Hops Hnb Hsto Hd Hno. unfold syncBlockAndFinalizeLocked. step. pose proof Hrun as [].
  eapply post_mono; [apply (sync_new_post s _ _ _ _ d _ _ (new_block t)); try done| |].
  - intros [np de] s4 [[Htype Hv] Hprep]. step. eapply post_mono; [by eapply finish_post| |done].
    intros [] s5 (h' & Hh' & Hk & Hkind & Hsp). step. split; [|done]. apply (rebuilt_created _ _ _ _ _ _ _ d); [done..|].
    exists h'. rewrite <- Hsto. split_and!; [done..|]. eapply spine_mono; [|exact Hsp].
    intros e e' (He & Hde & He'). split_and!; [|done..]. rewrite He. by apply Hk.
  - intros s' Hf. by eapply running_head.
Qed.

(** C4.  Creating a file or a directory, in a directory of the folder.
    If it returns an entry, the new head shows the old tree with this entry
    added, empty, under a name that was free, everything else as it was (the
    directories on the way to the root have new blocks), with all blocks on
    the server.  If it returns an error, the head is still the old one, or
    the error is the one with which the node cache refused the node of the
    new entry: the metadata was put before that, and the head shows the tree
    with the entry.  It does not panic. *)
Theorem createEntry_tree h fb l cur s sched name t :
  in_folder s h fb l cur →
  post (try (createEntryLocked sched (MkPath fb (l ++ [cur])) name t)) (λ r s',
    match r with
    | inl de => created h (br_world s) (names_of l cur) name t de s'
    | inr e => head_is h s' ∨ ∃ de w, created h (br_world s) (names_of l cur) name t de s' ∧
        bc_GetOrCreate (DirEntry_BlockPointer de) name (MkPath fb (l ++ [cur])) w = (Err e, br_world s')
    end) (λ _, False) s.
Proof.
  intros Hin. unfold createEntryLocked. eapply post_try_bind; [|by left].
  eapply post_mono; [by apply prepare_create_post| |done].
  intros a s1 (Hrun & Hsto & d & Hd & Hno). destruct (tail_of fb l cur) as (Ht & _).
  eapply post_try_bind; [|by left]. eapply post_lift_Ok; [done|]. eapply post_try_bind; [|by left].
  eapply post_mono; [by apply AddOp_running| |done]. intros [] s2 (Hrun2 & Hops & Hf2 & _).
  eapply post_try_bind; [|by left]. apply post_on_blocks, post_wp, wp_alloc. intros nb Hnb. set (s3 := set_blocks _ _).
  assert (frame s2 s3) as Hf3 by (by apply frame_store).
  assert (stored (br_world s3) = stored (br_world s)) as Hsto3
    by (by rewrite (stored_frame _ _ Hf3), (stored_frame _ _ Hf2)).
  eapply (post_try_bind _ _ _ (head_is h)); [|by left].
  eapply post_mono; [eapply (create_put_post h fb l cur s3 s sched name t d nb); try done| |done].
  - by eapply running_frame.
  - simpl. by rewrite lookup_insert_eq.
  - by rewrite Hsto3.
  - intros de s4 [Hc Hv]. eapply post_mono; [by apply make_node_post| |done].
    intros [de'|e] s5 [Hc5 [w Hr]]; [by subst|]. right. by exists de, w.
Qed.

(** ** Removing *)

Lemma GetIndirectFileBlockInfos_post b dir name ptr :
  dirty_ok b → post (GetIndirectFileBlockInfos (ChildPath dir name ptr)) (λ _ b', hext b b') (hext b) b.
Proof.
  intros Hd. pose proof (hext_refl b) as Hrefl.
  unfold GetIndirectFileBlockInfos, getFileLocked, getFileBlockLocked, getFileBlockHelperLocked, getBlockHelperLocked.
  do 2 step. eapply post_lift_Ok.
  { unfold tailPointer, tailNode, ChildPath. cbn [p_path]. by rewrite last_snoc. }
  cbn [pn_BlockPointer]. destruct (negb (path_isValid _)); [by step|]. do 2 step.
  destruct (negb (BlockPointer_IsValid _)); [by step|]. do 2 step.
  assert (∀ a b' blk, hext b b' → fbo_heap b' !! a = Some blk →
    post (block ← load a; match block with FileB _ => mret a | _ => fail (NotFileBlockError ptr) end)
      (λ a b'', b'' = b' ∧ ∃ f, fbo_heap b' !! a = Some (FileB f)) (hext b) b') as Hload.
  { intros a b' blk Hb' Ha. unfold post, load, mbind, go_bind. rewrite Ha. destruct blk; simpl; eauto. }
  assert (∀ a b', hext b b' → (∃ f, fbo_heap b' !! a = Some (FileB f)) →
    post (fBlock ← load_file a; if fb_IsInd fBlock then mret (ifp_BlockInfo <$> fb_IPtrs fBlock) else mret [])
      (λ _ b'', hext b b'') (hext b) b') as Hrest.
  { intros a b' Hb' [f Hf]. step. apply post_wp. eapply wp_load_file; [done|]. by case_match; step. }
  destruct (fbo_dirty b !! _) as [a|] eqn:Ha.
  - step. destruct (Hd _ _ Ha) as [blk Hblk]. eapply post_mono; [by eapply Hload| |done].
    intros a' b' [-> Hf]. do 3 step. by apply Hrest.
  - step. apply post_lift. destruct (cfg_Get ptr _) as [blk|e|p] eqn:Hg; [|done|by apply bl_get in Hg].
    apply post_wp, wp_alloc. intros a Hfresh. eapply post_mono; [eapply (Hload a _ blk); [by apply hext_alloc|]| |done].
    { simpl. by rewrite lookup_insert_eq. }
    intros a' b' [-> Hf]. do 3 step. apply Hrest; [by apply hext_alloc|done].
Qed.

(** The state of an operation in which the block changes can be added to. *)
Definition recording (h : RootMetadata) fb l cur (s s' : fbo) : Prop :=
  running h fb l cur s' ∧ ops_of s' ≠ [] ∧ frame s s' ∧ heap s ⊆ heap s'.

Lemma AddUnref_recording h fb l cur s s' i :
  recording h fb l cur s s' → post (on_md (md_AddUnrefBlock i)) (λ _, recording h fb l cur s) (head_is h) s'.
Proof.
  intros (Hrun & Hops & Hf & Hheap). apply post_on_md. eapply (post_mono _ _ _ (λ _, False)); [by apply AddUnrefBlock_post| |done].
  intros [] md (Hd & Hp & Ho). assert (frame s' (set_md md s')) as Hf' by (by apply frame_md).
  split_and!; [by eapply running_frame|done|by etrans|done].
Qed.

Lemma unrefEntry_post h fb l cur s dir de name :
  running h fb l cur s → ops_of s ≠ [] →
  post (unrefEntry dir de name) (λ _, recording h fb l cur s) (head_is h) s.
Proof.
  intros Hrun Hops. assert (recording h fb l cur s s) as Hrec by (by split_and!).
  unfold unrefEntry. step. eapply post_mono; [by apply AddUnref_recording| |done]. intros [] s1 Hrec1. cbv zeta.
  assert (post (r ← on_blocks (try (GetIndirectFileBlockInfos (ChildPath dir name (DirEntry_BlockPointer de))));
    match r with
    | inl infos => go_for infos (λ i, on_md (md_AddUnrefBlock i))
    | inr _ => fail (NoSuchBlockError (bp_ID (DirEntry_BlockPointer de)))
    end) (λ _, recording h fb l cur s) (head_is h) s1) as Hfile.
  { step. apply post_on_blocks, post_try. pose proof Hrec1 as (Hrun1 & Hops1 & Hf1 & Hheap1).
    eapply post_mono; [by apply GetIndirectFileBlockInfos_post; destruct Hrun1| |].
    - intros infos b Hext. assert (frame s1 (set_blocks b s1)) as Hfb by (by apply frame_hext).
      apply post_for; [intros i s2 _; by apply AddUnref_recording|].
      split_and!; [by eapply running_frame|done|by etrans|]. destruct Hext as (hp & -> & Hsub). simpl. by etrans.
    - intros b Hext e. step. eapply running_head; [exact Hrun1|]. by apply frame_hext. }
  destruct (ei_Type _); [done|done|by step|by step].
Qed.

(** The entry [name] of the directory [ns], and what is below it, is gone. *)
Definition removed (h : RootMetadata) (w : W) (ns : list string) (name : string) (s' : fbo) : Prop :=
  ∃ h', br_head s' = Some h' ∧
    let g := stored (br_world s') in
    let old := pmd_Dir (rmd_data h) in
    let new := pmd_Dir (rmd_data h') in
    keeps (stored w) g ∧ is_Some (look g old (ns ++ [name])) ∧
    (∀ y, look g new (ns ++ name :: y) = None) ∧ same_except g ns [name] old new.

(** The tree after the children of [cur] became those of [d']. *)
Definition changed (h : RootMetadata) (w : W) (ns : list string) (d d' : DirBlock) (s' : fbo) : Prop :=
  rebuilt h (stored w) s' ns (λ g e e', has_children g e (db_Children d) ∧ has_children g e' (db_Children d')).

(** A directory whose block was changed is synced and put. *)
Lemma sync_finish_post h fb l cur s a d d' sched :
  running h fb l cur s → ops_of s ≠ [] → heap s !! a = Some (DirB d') →
  stored (br_world s) (bp_ID (pn_BlockPointer cur)) = Some (DirB d) →
  post (syncBlockAndCheckEmbedLocked a (MkPath fb l) (pn_Name cur) Dir true true zeroPtr) (λ _,
    post (put_and_finalize sched) (λ _ s', changed h (br_world s) (names_of l cur) d d' s') (head_is h)) (head_is h) s.
Proof.
  intros Hrun Hops Ha Hd. pose proof Hrun as [].
  eapply post_mono; [eapply (sync_dir_post s a fb l cur Dir true true (DirB d')); try done| |].
  - by apply Forall_app in ru_clean as [].
  - intros r s1 Hprep. eapply post_mono; [eapply finish_post; [exact Hrun|exact Hprep]| |done].
    intros [] s2 (h' & Hh' & Hk & Hkind & Hsp). exists h'. split_and!; [done..|]. eapply spine_mono; [|exact Hsp].
    intros e e' [He He']. split; [|by exists (exported_dir d')]. exists d. rewrite He. split; [by apply Hk|done].
  - intros s' Hf. by eapply running_head.
Qed.

(** The tree of a change of a directory block. *)
Lemma changed_tree h w ns d d' s' names :
  changed h w ns d d' s' → (∀ n, n ∉ names → db_Children d' !! n = db_Children d !! n) →
  ∃ h', br_head s' = Some h' ∧
    let g := stored (br_world s') in
    let old := pmd_Dir (rmd_data h) in
    let new := pmd_Dir (rmd_data h') in
    keeps (stored w) g ∧ replaced g ns old new (db_Children d) (db_Children d') ∧ same_except g ns names old new.
Proof.
  intros (h' & Hh' & Hk & Hkind & Hsp) Hn. exists h'. split; [done|]. cbv zeta. split; [done|].
  by apply spine_tree.
Qed.

(** C5.  Removing an entry of a directory of the folder: if it returns,
    the entry was there, and the new head shows the old tree without it and
    what was below it, and everything else as it was; if it returns an error,
    the head is still the old one.  It does not panic.  The entry may be a
    directory that is not empty: [RemoveEntry], unlike [RemoveDir], does not
    check this, although a comment in [unrefEntry] takes it for granted (an
    example is [remove_nonempty_dir]). *)
Theorem RemoveEntry_tree h fb l cur s sched name :
  in_folder s h fb l cur →
  post (remove_attempt sched (MkPath fb (l ++ [cur])) name)
    (λ _ s', removed h (br_world s) (names_of l cur) name s') (head_is h) s.
Proof.
  intros Hin. unfold remove_attempt, removeEntryLocked, syncBlockAndFinalizeLocked.
  destruct (tail_of fb l cur) as (Ht & Htn & Hpar). step.
  eapply post_mono; [by apply getMDForWriteLocked_post, (if_handle _ _ _ _ _ Hin); apply (if_head _ _ _ _ _ Hin)| |done].
  intros [] s1 Hst. destruct (started_running _ _ _ _ _ _ Hin Hst) as [Hrun Hsto]. step.
  eapply post_lift_Ok; [by eapply running_valid|]. step.
  eapply post_mono; [by apply (fetch_post h)| |done]. intros a s2 (Hrun2 & Hg & d & Hd & Ha). step.
  eapply post_load_dir; [done|]. change (child name (exported_dir d)) with (child name d).
  destruct (child name d) as [de|] eqn:Hc; [|step; by eapply running_head]. step. eapply post_lift_Ok; [done|].
  step. eapply post_mono; [by apply AddOp_running| |done]. intros [] s3 (Hrun3 & Hops3 & Hf3 & Hb3). step.
  eapply post_mono; [by apply unrefEntry_post| |done]. intros [] s4 (Hrun4 & Hops4 & Hf4 & Hheap). step.
  assert (heap s4 !! a = Some (DirB (exported_dir d))) as Ha4 by (eapply lookup_weaken; [|done]; by rewrite Hb3).
  eapply post_load_dir; [done|]. step. apply post_on_blocks. unfold store. step. set (s5 := set_blocks _ _).
  assert (frame s4 s5) as Hf5 by (by apply frame_store).
  assert (running h fb l cur s5) as Hrun5 by (by eapply running_frame).
  assert (stored (br_world s5) = stored (br_world s1)) as Hsto5.
  { apply grows_frame in Hg. by rewrite (stored_frame _ _ Hf5), (stored_frame _ _ Hf4), (stored_frame _ _ Hf3), (stored_frame _ _ Hg). }
  step. eapply post_lift_Ok; [done|]. step. eapply post_lift_Ok; [done|]. do 2 step.
  eapply post_mono; [eapply (sync_finish_post h fb l cur s5 a d _ sched); [done|done|simpl; by rewrite lookup_insert_eq|by rewrite Hsto5]| |done].
  intros [np de'] s6 Hput. step. eapply post_mono; [exact Hput| |done]. intros [] s7 Hch. do 2 step.
  apply (changed_tree _ _ _ _ _ _ [name]) in Hch as (h' & Hh' & Hk & Hrep & Hsame).
  2:{ intros n Hn. simpl. rewrite lookup_delete_ne; [done|]. set_solver. }
  exists h'. cbv zeta in *. unfold keeps in Hk. rewrite Hsto5, Hsto in Hk. split_and!; [done..| | |done].
  - destruct (Hrep name []) as [-> _]. unfold child in Hc. by rewrite Hc.
  - intros y. destruct (Hrep name y) as [_ ->]. simpl. by rewrite lookup_delete_eq.
Qed.

(** ** Renaming in a directory *)

Lemma common_prefix_refl l i : common_prefix l l i = i + length l.
Proof.
  revert i. induction l as [|n l IH]; intros i; simpl; [lia|]. rewrite decide_True by done. rewrite IH. lia.
Qed.
Lemma common_ancestor_refl fb l cur :
  common_ancestor (MkPath fb (l ++ [cur])) (MkPath fb (l ++ [cur])) = Ok (pn_BlockPointer cur).
Proof.
  unfold common_ancestor. cbn [p_path]. rewrite common_prefix_refl, length_drop, length_app. simpl.
  by rewrite Nat.add_sub, list_lookup_middle.
Qed.

Lemma PrepRename_post h fb l cur s oldName newName :
  running h fb l cur s →
  post (PrepRename (MkPath fb (l ++ [cur])) oldName (MkPath fb (l ++ [cur])) newName) (λ '(a, a', de) s',
    a' = a ∧ running h fb l cur s' ∧ ops_of s' ≠ [] ∧ frame s s' ∧
    ∃ d, stored (br_world s) (bp_ID (pn_BlockPointer cur)) = Some (DirB d) ∧
      heap s' !! a = Some (DirB (exported_dir d)) ∧ child oldName d = Some de) (head_is h) s.
Proof.
  intros Hrun. destruct (tail_of fb l cur) as (Ht & _). unfold PrepRename. step.
  eapply post_mono; [by apply (fetch_post h)| |done]. intros a s2 (Hrun2 & Hg & d & Hd & Ha). step.
  eapply post_load_dir; [done|]. change (child oldName (exported_dir d)) with (child oldName d).
  destruct (child oldName d) as [de|] eqn:Hc; [|step; by eapply running_head].
  step. eapply post_lift_Ok; [done|]. step. eapply post_lift_Ok; [done|]. step.
  eapply post_mono; [by apply AddOp_running| |done]. intros [] s3 (Hrun3 & Hops3 & Hf3 & Hb3).
  rewrite decide_True by done. step. apply grows_frame in Hg.
  split_and!; [done..|by etrans|]. exists d. by rewrite Hb3.
Qed.

(** The new children of the directory, whatever the names. *)
Lemma rename_children_post h fb l cur s sched oldName newName :
  in_folder s h fb l cur →
  post (renameLocked sched (MkPath fb (l ++ [cur])) oldName (MkPath fb (l ++ [cur])) newName) (λ _ s',
    ∃ d de now, child oldName d = Some de ∧ (∀ e, child newName d = Some e → ei_Type (de_EntryInfo e) ≠ Dir) ∧
      changed h (br_world s) (names_of l cur) d (remove_child oldName (set_child newName (de_set_Ctime now de) d)) s')
    (head_is h) s.
Proof.
  intros Hin. unfold renameLocked. destruct (tail_of fb l cur) as (Ht & Htn & Hpar). step.
  eapply post_mono; [by apply getMDForWriteLocked_post, (if_handle _ _ _ _ _ Hin); apply (if_head _ _ _ _ _ Hin)| |done].
  intros [] s1 Hst. destruct (started_running _ _ _ _ _ _ Hin Hst) as [Hrun Hsto]. step.
  eapply post_mono; [by apply (PrepRename_post h)| |done].
  intros [[a a'] de] s2 (-> & Hrun2 & Hops2 & Hf2 & d & Hd & Ha & Hc). step. eapply post_load_dir; [done|]. step.
  change (child newName (exported_dir d)) with (child newName d).
  apply (post_mono _ (λ _ s', recording h fb l cur s2 s' ∧ ∀ e, child newName d = Some e → ei_Type (de_EntryInfo e) ≠ Dir) _ (head_is h)); [| |done].
  { destruct (child newName d) as [de'|]; [|step; split; [by split_and!|done]].
    case_decide; [step; by eapply running_head|].
    eapply post_mono; [by apply unrefEntry_post| |done]. intros [] s3 Hrec. split; [done|]. by intros e [= <-]. }
  intros [] s3 [(Hrun3 & Hops3 & Hf3 & Hheap) Htype]. step.
  eapply post_returns; [apply bl_now|]. intros now w Hw. set (s4 := set_world w s3). step.
  assert (heap s4 !! a = Some (DirB (exported_dir d))) as Ha4 by (by eapply lookup_weaken).
  eapply post_load_dir; [done|]. step. apply post_on_blocks. unfold store at 1. step. set (s5 := set_blocks _ _). step.
  eapply post_load_dir; [simpl; by rewrite lookup_insert_eq|]. step. apply post_on_blocks. unfold store. step.
  set (s6 := set_blocks _ _).
  assert (frame s3 s6) as Hf6.
  { etrans; [by apply (frame_world _ w)|]. etrans; [apply frame_store|]. apply frame_store. }
  assert (running h fb l cur s6) as Hrun6 by (by eapply running_frame).
  assert (stored (br_world s6) = stored (br_world s1)) as Hsto6
    by (by rewrite (stored_frame _ _ Hf6), (stored_frame _ _ Hf3), (stored_frame _ _ Hf2)).
  step. eapply post_lift_Ok; [apply common_ancestor_refl|]. step. eapply post_lift_Ok; [done|].
  step. eapply post_lift_Ok; [done|]. cbv zeta. rewrite bool_decide_eq_true_2 by done. do 3 step. unfold sync_parent.
  step. eapply post_lift_Ok; [done|]. step. eapply post_lift_Ok; [done|]. step.
  eapply post_mono; [eapply (sync_finish_post h fb l cur s6 a d _ sched); [done|done|simpl; by rewrite lookup_insert_eq|by rewrite Hsto6]| |done].
  intros [np de'] s7 Hput. step. eapply post_mono; [exact Hput| |done]. intros [] s8 (h' & Hh' & Hk & Hkind & Hsp).
  exists d, de, now. split_and!; [done..|]. exists h'. rewrite Hsto6, Hsto in Hk. by split_and!.
Qed.

(** The entry [oldName] of the directory [ns] is now at [newName], with a
    new change time, in place of a file or of nothing. *)
Definition renamed (h : RootMetadata) (w : W) (ns : list string) (oldName newName : string) (s' : fbo) : Prop :=
  ∃ h' de now, br_head s' = Some h' ∧
    let g := stored (br_world s') in
    let old := pmd_Dir (rmd_data h) in
    let new := pmd_Dir (rmd_data h') in
    keeps (stored w) g ∧ look g old (ns ++ [oldName]) = Some de ∧
    look g new (ns ++ [newName]) = Some (de_set_Ctime now de) ∧
    (∀ n y, look g new (ns ++ newName :: n :: y) = look g old (ns ++ oldName :: n :: y)) ∧
    (∀ y, look g new (ns ++ oldName :: y) = None) ∧
    (∀ e, look g old (ns ++ [newName]) = Some e → ei_Type (de_EntryInfo e) ≠ Dir) ∧
    same_except g ns [oldName; newName] old new.

(** C6.  Renaming an entry within a directory, to another name: if it
    returns, the new head shows under the new name what was under the old one
    (a file that was there before is replaced, a directory never), nothing
    under the old name, and everything else as it was; if it returns an
    error, the head is still the old one.  It does not panic. *)
Theorem rename_tree h fb l cur s sched oldName newName :
  in_folder s h fb l cur → oldName ≠ newName →
  post (rename_attempt sched (MkPath fb (l ++ [cur])) oldName (MkPath fb (l ++ [cur])) newName)
    (λ _ s', renamed h (br_world s) (names_of l cur) oldName newName s') (head_is h) s.
Proof.
  intros Hin Hne. unfold rename_attempt. step. eapply post_lift_Ok; [by eapply in_folder_valid|]. step.
  eapply post_lift_Ok; [by eapply in_folder_valid|]. rewrite decide_False by (by intros Hf; apply Hf).
  eapply post_mono; [by apply (rename_children_post h)| |done].
  intros [] s' (d & de & now & Hc & Htype & Hch).
  apply (changed_tree _ _ _ _ _ _ [oldName; newName]) in Hch as (h' & Hh' & Hk & Hrep & Hsame).
  2:{ intros n Hn. simpl. rewrite lookup_delete_ne, lookup_insert_ne; [done|set_solver..]. }
  exists h', de, now. cbv zeta in *. unfold child in *. simpl in Hrep. split_and!; [done..| | | | | |done].
  - destruct (Hrep oldName []) as [-> _]. by rewrite Hc.
  - destruct (Hrep newName []) as [_ ->]. by rewrite lookup_delete_ne, lookup_insert_eq.
  - intros n y. destruct (Hrep newName (n :: y)) as [_ ->], (Hrep oldName (n :: y)) as [-> _].
    by rewrite lookup_delete_ne, lookup_insert_eq, Hc.
  - intros y. destruct (Hrep oldName y) as [_ ->]. by rewrite lookup_delete_eq.
  - intros e. destruct (Hrep newName []) as [-> _]. intros (e' & He' & [= <-])%bind_Some. by apply Htype.
Qed.

(** Renaming a file to its own name removes it. *)
Theorem rename_to_itself_removes h fb l cur s sched name :
  in_folder s h fb l cur →
  post (rename_attempt sched (MkPath fb (l ++ [cur])) name (MkPath fb (l ++ [cur])) name)
    (λ _ s', removed h (br_world s) (names_of l cur) name s') (head_is h) s.
Proof.
  intros Hin. unfold rename_attempt. step. eapply post_lift_Ok; [by eapply in_folder_valid|]. step.
  eapply post_lift_Ok; [by eapply in_folder_valid|]. rewrite decide_False by (by intros Hf; apply Hf).
  eapply post_mono; [by apply (rename_children_post h)| |done].
  intros [] s' (d & de & now & Hc & Htype & Hch).
  apply (changed_tree _ _ _ _ _ _ [name]) in Hch as (h' & Hh' & Hk & Hrep & Hsame).
  2:{ intros n Hn. simpl. rewrite lookup_delete_ne, lookup_insert_ne; [done|set_solver..]. }
  exists h'. cbv zeta in *. unfold child in *. simpl in Hrep. split_and!; [done..| | |done].
  - destruct (Hrep name []) as [-> _]. by rewrite Hc.
  - intros y. destruct (Hrep name y) as [_ ->]. by rewrite lookup_delete_eq.
Qed.

(** The error of the first [GetDir] of [removeDirLocked] is not looked at. *)
Lemma removeDirLocked_panics s s1 sched dirPath name e b :
  getMDForWriteLocked s = (Ok tt, s1) → path_isValid dirPath = true → getDirLocked dirPath blockRead (br_blocks s1) = (Err e, b) →
  fst (removeDirLocked sched dirPath name s) = Panic "nil pointer dereference".
Proof.
  intros Hmd Hv Hget. unfold removeDirLocked. unfold mbind at 1. unfold go_bind at 1. rewrite Hmd.
  unfold pathFromNode. rewrite Hv. unfold mbind at 1. unfold go_bind at 1. cbn [lift_res].
  unfold mbind at 1. unfold go_bind at 1. unfold on_blocks at 1, try. by rewrite Hget.
Qed.
End effects.
