(* ===== verification/DirExamples.v ===== *)
(** * DirExamples: a folder on which the directory operations run

    The services of [BranchConfig] by functions that compute, on a server
    that is a map from ids to data, and a folder with a directory "a", which
    has a file "f". *)

From Stdlib Require Import ZArith Lia.
From S2P Require Import Prelude Types Errors GoStd Ids RekeyQueue CryptoCommon Splitter DataTypes Ops ConflictInfo Handles KeyBundles Metadata NodeCache NodeCacheSpec FolderBlocks FolderBlocksSpec Serial Lru MDUtil MDUtilSpec BlockManager BlockManagerSpec DirOps DirWrites DirLaws DirSpec DirThms DirEffects.

#[local] Instance dx_FileBlock : Codec FileBlock := ser_codec.
#[local] Instance dx_DirBlock : Codec DirBlock := ser_codec.
#[local] Instance dx_BlockChanges : Codec BlockChanges := ser_codec.
#[local] Instance dx_PrivateMetadata : Codec PrivateMetadata := ser_codec.
#[local] Instance dx_BareRootMetadata : Codec BareRootMetadata := ser_codec.
#[local] Instance dx_TlfHandle : Codec TlfHandle := ser_codec.
#[local] Instance dx_FileBlock_total : EncodeTotal FileBlock.
Proof. intros b. by eexists. Qed.
#[local] Instance dx_DirBlock_total : EncodeTotal DirBlock.
Proof. intros b. by eexists. Qed.
#[local] Instance dx_BlockChanges_total : EncodeTotal BlockChanges.
Proof. intros b. by eexists. Qed.
#[local] Instance dx_PrivateMetadata_total : EncodeTotal PrivateMetadata.
Proof. intros b. by eexists. Qed.
#[local] Instance dx_BareRootMetadata_total : EncodeTotal BareRootMetadata.
Proof. intros b. by eexists. Qed.
#[local] Instance dx_TlfHandle_total : EncodeTotal TlfHandle.
Proof. intros b. by eexists. Qed.

(** ** The server *)

(** Ids of the right size and type, for short data. *)
Definition dx_hash (data : list byte) : BlockID :=
  MkBlockID (MkHash (string_of_bytes ([x01] ++ replicate 32 x00 ++ data))).

Definition dx_entry (t : EntryType) (b : byte) (size : Z) : DirEntry :=
  MkDirEntry (MkBlockInfo (MkBlockPointer (dx_hash [b]) 1%Z 1%Z "u" EmptyString zeroBlockRefNonce) 10) (MkEntryInfo t size EmptyString 1 1).
Definition dx_dir (children : gmap string DirEntry) : Block := DirB (MkDirBlock (MkCommonBlock false 0) children []).

(** The folder: the data [0] is the root, [1] the directory "a", [2] the
    file "f". *)
Definition dx_open (data : list byte) : option Block :=
  match data with
  | [x00] => Some (dx_dir {["a"%string := dx_entry Dir x01 100%Z]})
  | [x01] => Some (dx_dir {["f"%string := dx_entry File x02 3%Z]})
  | [x02] => Some (FileB (MkFileBlock (MkCommonBlock false 0) [x61; x62; x63] []))
  | x03 :: data => match par data with Some (b, []) => Some b | _ => None end
  | _ => None
  end.
Definition dx_world : gmap BlockID (list byte) := {[dx_hash [x00] := [x00]; dx_hash [x01] := [x01]; dx_hash [x02] := [x02]]}.

(** [embed] is the largest size of the changes in the metadata. *)
Definition dx_config_of (embed : Z) : Config := {|
  cfg_MaxFileBytes := 1000%Z;
  cfg_BlockSplitter := MkBlockSplitterSimple 100%Z embed;
  cfg_CurrentUser := Ok ("user"%string, "u"%string);
  cfg_IsWriter _ := true;
  cfg_LatestKeyGeneration := 1%Z;
  cfg_DataVersion := 1%Z;
  cfg_Get ptr _ := match dx_world !! bp_ID ptr ≫= dx_open with Some b => Ok b | None => Err (NoSuchBlockError (bp_ID ptr)) end;
  cfg_TempID _ := Err (ErrorString "no ids")
|}.
#[local] Instance dx_config : Config := dx_config_of 10000%Z.

(** The metadata of a put has an id that is not its predecessor's. *)
Definition dx_put (md : RootMetadata) : RootMetadata :=
  MkRootMetadata (rmd_bare md) (rmd_data md) (rmd_tlfHandle md)
    (MkMdID (MkHash (String.append "m" (hash_h (md_id_h (bm_PrevRoot (rmd_bare md))))))).

(** The node cache has the nodes of the root and of "a".  The ids of the
    directories that the operations make here are too long to be valid. *)
Definition dx_events : list node_event :=
  [EvGetOrCreate (DirEntry_BlockPointer (dx_entry Dir x00 100%Z)) "user" nilNode;
   EvGetOrCreate (DirEntry_BlockPointer (dx_entry Dir x01 100%Z)) "a" (stdNode 0)].
Definition dx_cache : nodeCacheStandard := run_events dx_events (newNodeCacheStandard (MkFolderBranch NullTlfID MasterBranch)).
Definition dx_node (dir : path) : Node := stdNode (if decide (length (p_path dir) <= 1) then 0 else 1).
Definition dx_GetOrCreate (ptr : BlockPointer) (name : string) (dir : path) : res Node :=
  if BlockPointer_IsValid ptr then fst (GetOrCreate ptr name (dx_node dir) dx_cache) else Ok nilNode.

#[local] Instance dx_branch : BranchConfig (gmap BlockID (list byte)) := {|
  bc_folderBranch := MkFolderBranch NullTlfID MasterBranch;
  bc_MaxNameBytes := 100%Z;
  bc_MaxDirBytes := 1000%Z;
  bc_CheckForKnownPtr _ := mret zeroPtr;
  bc_DeleteKnownPtr _ := mret tt;
  bc_Ready _ b := let data := x03 :: ser (exported b) in mret (dx_hash data, 10%Z, data);
  bc_PutBlock _ ptr data := if IsFirstRef ptr then modify (<[bp_ID ptr := data]>) else mret tt;
  bc_CacheBlock _ _ := mret tt;
  bc_MakeBlockRefNonce := mret (replicate 8 x01);
  bc_MakeRandomBranchID := mret NullBranchID;
  bc_Now := mret 7%Z;
  bc_PutMD md := mret (dx_put md);
  bc_PutUnmergedMD md _ := mret (dx_put md);
  bc_PruneBranch _ := mret tt;
  bc_CacheMD _ := mret tt;
  bc_Resolve _ _ := mret tt;
  bc_Enqueue _ := mret tt;
  bc_archiveUnrefBlocks _ := mret tt;
  bc_cleanUpBlockState _ _ := mret tt;
  bc_notifyBatch _ := mret tt;
  bc_tlfHandleChange _ := mret tt;
  bc_registerForUpdates := mret tt;
  bc_GetUnmergedForTLF := mret None;
  bc_GetForTLF := fail (ErrorString "offline");
  bc_GetOrCreate ptr name dir := _ ← lift_res (dx_GetOrCreate ptr name dir); mret tt;
  bc_identifyOnce _ := mret tt;
  bc_Rekey _ := fail (ErrorString "offline");
  bc_PutTLFCryptKey _ _ _ := mret tt
|}.

Lemma dx_put_follows md : follows (dx_put md).
Proof.
  unfold follows, MetadataID. cbn [dx_put rmd_mdID rmd_bare]. rewrite decide_True by done. simpl.
  destruct (bm_PrevRoot (rmd_bare md)) as [[str]]. simpl. intros [= Hs].
  apply (f_equal String.length) in Hs. change (S (String.length str) = String.length str) in Hs. lia.
Qed.

Lemma dx_hash_inj : Inj (=) (=) dx_hash.
Proof.
  intros d d' Hd. apply (f_equal (λ i, drop 33 (bytes_of_string (hash_h (block_id_h i))))) in Hd.
  unfold dx_hash in Hd. cbn [hash_h block_id_h] in Hd. by rewrite !bytes_of_string_of_bytes in Hd.
Qed.

Lemma dx_GetOrCreate_safe ptr name dir p : dx_GetOrCreate ptr name dir ≠ Panic p.
Proof.
  unfold dx_GetOrCreate. destruct (BlockPointer_IsValid ptr) eqn:Hv; [|done].
  apply GetOrCreate_safe; [apply run_events_inv, ncs_inv_new|done|].
  intros n [= <-]. change (length (ncs_stds dx_cache)) with 2. case_decide; lia.
Qed.

#[local] Instance dx_laws : BranchLaws (gmap BlockID (list byte)).
Proof.
  apply (Build_BranchLaws _ _ _ _ (λ w, w) dx_hash dx_open (λ _, True) dx_hash_inj); try (by intros).
  - intros ptr b p. simpl. by case_match.
  - intros md b w. split; [|done]. split_and!; [done..|]. unfold dx_open. rewrite <- (app_nil_r (ser _)). by rewrite par_ser.
  - intros md ptr data w. simpl. by destruct (IsFirstRef ptr).
  - intros md w. simpl. split; [|done]. split_and!; [done..|]. apply dx_put_follows.
  - intros md bid w. simpl. split; [|done]. split_and!; [done..|]. apply dx_put_follows.
  - intros ptr name dir _ w. unfold bc_GetOrCreate, dx_branch, mbind, go_bind.
    destruct (dx_GetOrCreate ptr name dir) as [n|e|p] eqn:Hg; simpl; [done|done|by apply dx_GetOrCreate_safe in Hg].
Defined.

(** ** The folder *)

Definition dx_head : RootMetadata :=
  MkRootMetadata (ex_bare_md NullTlfID NullBranchID 3%Z)
    (MkPrivateMetadata (dx_entry Dir x00 100%Z) [] (MkBlockChanges zeroBlockInfo [] 0) (MkBlockChanges zeroBlockInfo [] 0))
    (Some (MkTlfHandle (MkBareTlfHandle ["u"] [] [] [] None) ∅ ∅ "u")) (MkMdID (MkHash "h")).
Definition dx_start : folderBranchOps (gmap BlockID (list byte)) :=
  MkBranch (MkFbo ∅ ∅ ∅ ∅ ∅ [] [] false [] 0) (Some dx_head) false NullBranchID dx_world dx_head ∅ [].
Definition dx_fb : FolderBranch := MkFolderBranch NullTlfID MasterBranch.
Definition dx_root : pathNode := MkPathNode (DirEntry_BlockPointer (dx_entry Dir x00 100%Z)) "user".
Definition dx_a : pathNode := MkPathNode (DirEntry_BlockPointer (dx_entry Dir x01 100%Z)) "a".
Definition dx_path : path := MkPath dx_fb ([dx_root] ++ [dx_a]).
Definition dx_sched : downgradeSched := MkSched [] 0 0.

Lemma dx_in_folder : in_folder dx_start dx_head dx_fb [dx_root] dx_a.
Proof.
  split.
  - done.
  - by eexists.
  - intros id d. simpl. unfold dx_world. rewrite !lookup_insert_Some, lookup_singleton_Some. naive_solver.
  - intros ptr d. unfold stored. simpl. by intros ->.
  - by intros k a.
  - repeat constructor.
  - simpl. split; [done|]. eexists. split; [vm_compute; reflexivity|]. eexists. split; [vm_compute; reflexivity|].
    split; [done|]. eexists. split; [vm_compute; reflexivity|done].
Qed.

Lemma dx_create_Ok : is_Ok (fst (createEntryLocked dx_sched dx_path "g" File dx_start)) = true.
Proof. vm_compute. reflexivity. Qed.
Lemma dx_remove_Ok : is_Ok (fst (remove_attempt dx_sched dx_path "f" dx_start)) = true.
Proof. vm_compute. reflexivity. Qed.
Lemma dx_rename_Ok new : new ∈ ["f"; "g"]%string → is_Ok (fst (rename_attempt dx_sched dx_path "f" dx_path new dx_start)) = true.
Proof. intros Hn. repeat (apply elem_of_cons in Hn as [->|Hn]; [vm_compute; reflexivity|]). by apply elem_of_nil in Hn. Qed.

Lemma post_Ok {S A} (m : go S A) (Q : A → S → Prop) E s :
  post m Q E s → is_Ok (fst (m s)) = true → ∃ a s', m s = (Ok a, s') ∧ Q a s'.
Proof. unfold post. destruct (m s) as [[a|e|p] s']; simpl; [by eauto|done|done]. Qed.

(** ** The theorems at work *)

(** "g" is created in "a". *)
Lemma createEntry_tree_witness :
  ∃ de s', createEntryLocked dx_sched dx_path "g" File dx_start = (Ok de, s') ∧ created dx_head dx_world ["a"] "g" File de s'.
Proof.
  pose proof (createEntry_tree dx_head dx_fb [dx_root] dx_a dx_start dx_sched "g" File dx_in_folder) as Hc.
  pose proof dx_create_Ok as Hok. unfold post, try in Hc. change (MkPath dx_fb ([dx_root] ++ [dx_a])) with dx_path in Hc.
  destruct (createEntryLocked dx_sched dx_path "g" File dx_start) as [[de|e|p] s']; [|done|done].
  exists de, s'. split; [reflexivity|exact Hc].
Defined.

(** A file without a name: the error of the node cache comes after the put,
    and the new head has the entry. *)
Lemma create_without_name :
  let '(r, s') := createEntryLocked dx_sched dx_path "" File dx_start in
  match r with Err (EmptyNameError _) => true | _ => false end = true ∧
  ∃ h' de, br_head s' = Some h' ∧ look (stored (br_world s')) (pmd_Dir (rmd_data h')) ["a"; ""] = Some de.
Proof. vm_compute. split; [reflexivity|]. do 2 eexists. split; reflexivity. Qed.

(** "f" is removed from "a". *)
Lemma RemoveEntry_tree_witness :
  ∃ s', remove_attempt dx_sched dx_path "f" dx_start = (Ok tt, s') ∧ removed dx_head dx_world ["a"] "f" s'.
Proof.
  destruct (post_Ok _ _ _ _ (RemoveEntry_tree dx_head dx_fb [dx_root] dx_a dx_start dx_sched "f" dx_in_folder) dx_remove_Ok) as ([] & s' & Hs & Hr).
  exists s'. split; [exact Hs|exact Hr].
Defined.

(** The directory "a" is removed from the root, and "f" with it: that it is
    not empty is checked by [removeDirLocked] only. *)
Lemma remove_nonempty_dir :
  let '(r, s') := remove_attempt dx_sched (MkPath dx_fb [dx_root]) "a" dx_start in
  let show h x := bool_decide (is_Some (look (stored (br_world s')) (pmd_Dir (rmd_data h)) x)) in
  (r, show dx_head ["a"; "f"]%string, (λ h, show h ["a"]%string) <$> br_head s') = (Ok tt, true, Some false) ∧
  fst (removeDirLocked dx_sched (MkPath dx_fb [dx_root]) "a" dx_start) = Err (DirNotEmptyError "a").
Proof. vm_compute. by split. Qed.

(** "f" is renamed to "g". *)
Lemma rename_tree_witness :
  ∃ s', rename_attempt dx_sched dx_path "f" dx_path "g" dx_start = (Ok tt, s') ∧ renamed dx_head dx_world ["a"] "f" "g" s'.
Proof.
  destruct (post_Ok _ _ _ _ (rename_tree dx_head dx_fb [dx_root] dx_a dx_start dx_sched "f" "g" dx_in_folder ltac:(done))
    (dx_rename_Ok "g" ltac:(set_solver))) as ([] & s' & Hs & Hr).
  exists s'. split; [exact Hs|exact Hr].
Defined.

(** The rename of "f" to "f" returns no error, and "f" is gone. *)
Lemma rename_to_itself_example :
  ∃ s', rename_attempt dx_sched dx_path "f" dx_path "f" dx_start = (Ok tt, s') ∧ removed dx_head dx_world ["a"] "f" s'.
Proof.
  destruct (post_Ok _ _ _ _ (rename_to_itself_removes dx_head dx_fb [dx_root] dx_a dx_start dx_sched "f" dx_in_folder)
    (dx_rename_Ok "f" ltac:(set_solver))) as ([] & s' & Hs & Hr).
  exists s'. split; [exact Hs|exact Hr].
Qed.

(** ** Changes in a block of their own *)

Section unembedded.
#[local] Instance dx_config_small : Config := dx_config_of 0%Z.

(** A rename to another directory syncs twice; when the changes are moved
    to a block of their own by the first sync, the second one adds to
    operations that are not there any more. *)
Lemma rename_unembedded_panics :
  fst (rename_attempt dx_sched dx_path "f" (MkPath dx_fb [dx_root]) "f" dx_start) = Panic "index out of range".
Proof. vm_compute. reflexivity. Qed.

(** A rename within a directory syncs once. *)
Lemma rename_unembedded_Ok : is_Ok (fst (rename_attempt dx_sched dx_path "f" dx_path "g" dx_start)) = true.
Proof. vm_compute. reflexivity. Qed.
End unembedded.

(** With changes that fit in the metadata, the file moves. *)
Lemma rename_across_Ok :
  let '(r, s') := rename_attempt dx_sched dx_path "f" (MkPath dx_fb [dx_root]) "g" dx_start in
  let show h x := look (stored (br_world s')) (pmd_Dir (rmd_data h)) x in
  (r, (λ h, (show h ["a"; "f"]%string, show h ["g"]%string)) <$> br_head s') =
    (Ok tt, Some (None, Some (de_set_Ctime 7 (dx_entry File x02 3%Z)))).
Proof. vm_compute. reflexivity. Qed.
