(* ===== verification/FileSync.v ===== *)
(** * FileSync: syncing a file ([folder_block_ops.go], [folder_branch_ops.go])

    [syncLocked] makes the writes to a file visible to others: [StartSync]
    readies the dirty blocks of the file and prepares its directory, then the
    blocks on the way to the root are readied, all of them are put to the
    server and the new metadata after them, and [FinishSync] replays what was
    written in the meantime.  When something fails, [CleanupSyncState] backs
    out what must not be there in the next attempt.

    The state is that of a directory operation with [fileSyncState], which
    [StartSync] fills in also when it returns an error.  The sync info of the
    file is an object that the new metadata shares: its operation is the last
    one of the metadata's changes, and its blocks to put are those of the
    operation.  The model has the shared parts in the metadata and in [br_bps]
    while the sync is under way, and writes them back to the sync info where
    the code goes on with it. *)

From Stdlib Require Import ZArith Lia.
From S2P Require Import Prelude Types Errors GoStd Ids RekeyQueue CryptoCommon Splitter DataTypes Ops ConflictInfo Handles KeyBundles Metadata FolderBlocks FileIO Lru MDUtil BlockManager DirOps.

(** The permanent entries of the block cache. *)
Class SyncConfig (W : Type) := {
  sc_PutPermanent : BlockPointer → Block → go W unit;
  sc_DeletePermanent : BlockID → go W unit
}.

Record fileSyncState := MkFileSyncState {
  (** [fblock] with [savedFblock], of an indirect file *)
  fss_fblock : option (addr * FileBlock);
  (** the new pointer of a block, the old one, and the block *)
  fss_redirtyOnRecoverableError : list (BlockPointer * BlockPointer * addr);
  (** whether [si] is set, and [savedSi] *)
  fss_si : bool;
  fss_savedSi : option syncInfo;
  fss_oldFileBlockPtrs : list BlockPointer;
  fss_newIndirectFileBlockPtrs : list BlockPointer
}.
Definition zeroSyncState : fileSyncState := MkFileSyncState None [] false None [] [].

Record fileSync (W : Type) := MkFileSync { fs_fbo : folderBranchOps W; fs_state : fileSyncState }.
Arguments MkFileSync {W}.
Arguments fs_fbo {W} _.
Arguments fs_state {W} _.

(** The serialised fields of a sync operation. *)
Definition exported_syncOp (o : syncOp) : syncOp :=
  let c := so_OpCommon o in
  MkSyncOp (MkOpCommon (oc_RefBlocks c) (oc_UnrefBlocks c) (oc_Updates c) (oc_writerInfo zeroOpCommon) (oc_finalPath zeroOpCommon))
    (so_File o) (so_Writes o).

Definition so_resetUpdateState (o : syncOp) : syncOp :=
  let c := so_OpCommon o in
  MkSyncOp (MkOpCommon (oc_RefBlocks c) (oc_UnrefBlocks c) [] (oc_writerInfo c) (oc_finalPath c)) (so_File o) (so_Writes o).

Definition si_set_op (o : syncOp) (si : syncInfo) : syncInfo :=
  MkSyncInfo (si_oldInfo si) o (si_unrefs si) (si_bps si) (si_refBytes si) (si_unrefBytes si).
Definition si_set_bps (bps : option (list blockState)) (si : syncInfo) : syncInfo :=
  MkSyncInfo (si_oldInfo si) (si_op si) (si_unrefs si) bps (si_refBytes si) (si_unrefBytes si).
Definition si_set_bytes (ref unref : Z) (si : syncInfo) : syncInfo :=
  MkSyncInfo (si_oldInfo si) (si_op si) (si_unrefs si) (si_bps si) ref unref.

(** The operation that the metadata shares with the sync info: the changes
    may have been moved to a block of their own. *)
Definition shared_op (md : RootMetadata) : option syncOp :=
  let d := rmd_data md in
  let ops := match bc_Ops (pmd_Changes d) with [] => bc_Ops (pmd_cachedChanges d) | ops => ops end in
  match last ops with Some (SyncOp o) => Some o | _ => None end.

Definition iptr_at (i : nat) (f : IndirectFilePtr → IndirectFilePtr) (b : FileBlock) : FileBlock :=
  MkFileBlock (fb_CommonBlock b) (fb_Contents b) (alter f i (fb_IPtrs b)).
Definition iptr_remove (i : nat) (b : FileBlock) : FileBlock :=
  MkFileBlock (fb_CommonBlock b) (fb_Contents b) (take i (fb_IPtrs b) ++ drop (S i) (fb_IPtrs b)).

Section sync.
Context {W : Type} `{Config, Codec FileBlock, Codec DirBlock, BranchConfig W, Codec BlockChanges, Codec BareRootMetadata, Codec PrivateMetadata, Codec TlfHandle}.
Context `{Codec syncOp, SyncConfig W}.
Abbreviation fbo := (folderBranchOps W).
Abbreviation fsync := (fileSync W).

Definition on_fbo {A} (m : go fbo A) : go fsync A := λ s, let '(r, b) := m (fs_fbo s) in (r, MkFileSync b (fs_state s)).
Definition on_state (f : fileSyncState → fileSyncState) : go fsync unit := modify (λ s, MkFileSync (fs_fbo s) (f (fs_state s))).
Definition on_si (ref : blockRef) (f : syncInfo → syncInfo) : go fsync unit :=
  on_fbo (on_blocks (modify (set_unrefCache (alter f ref)))).

Definition add_old (ptr : BlockPointer) (st : fileSyncState) : fileSyncState :=
  MkFileSyncState (fss_fblock st) (fss_redirtyOnRecoverableError st) (fss_si st) (fss_savedSi st)
    (fss_oldFileBlockPtrs st ++ [ptr]) (fss_newIndirectFileBlockPtrs st).
Definition add_new (ptrs : list BlockPointer) (st : fileSyncState) : fileSyncState :=
  MkFileSyncState (fss_fblock st) (fss_redirtyOnRecoverableError st) (fss_si st) (fss_savedSi st)
    (fss_oldFileBlockPtrs st) (fss_newIndirectFileBlockPtrs st ++ ptrs).
Definition add_redirty (r : BlockPointer * BlockPointer * addr) (st : fileSyncState) : fileSyncState :=
  MkFileSyncState (fss_fblock st) (fss_redirtyOnRecoverableError st ++ [r]) (fss_si st) (fss_savedSi st)
    (fss_oldFileBlockPtrs st) (fss_newIndirectFileBlockPtrs st).
Definition set_fss_fblock (f : addr * FileBlock) (st : fileSyncState) : fileSyncState :=
  MkFileSyncState (Some f) [] (fss_si st) (fss_savedSi st) (fss_oldFileBlockPtrs st) (fss_newIndirectFileBlockPtrs st).
Definition set_fss_si (saved : option syncInfo) (st : fileSyncState) : fileSyncState :=
  MkFileSyncState (fss_fblock st) (fss_redirtyOnRecoverableError st) true saved (fss_oldFileBlockPtrs st) (fss_newIndirectFileBlockPtrs st).

Definition syncInfo_DeepCopy (si : syncInfo) : res syncInfo :=
  buf ← Encode (exported_syncOp (si_op si)); o ← Decode buf; Ok (si_set_op o si).

(** ** Splitting at the right places *)

(** What both cases do when a block gives bytes to the next one, or takes
    some: the pointer [i] moves to [off], and its old block is not
    referenced any more. *)
Definition moved_iptr (fblock : addr) (i : nat) (off : Z) : go fbo unit :=
  top ← on_blocks (load_file fblock);
  match fb_IPtrs top !! i with
  | None => panic "index out of range"
  | Some p =>
      _ ← on_md (md_AddUnrefBlock (ifp_BlockInfo p));
      on_blocks (store fblock (FileB (iptr_at i (λ p, MkIndirectFilePtr (set_EncodedSize (ifp_BlockInfo p) 0) off) top)))
  end.

(** One dirty block [ptr], number [i] of the file. *)
Definition resplit_block (file : path) (fblock : addr) (i : nat) (ptr : IndirectFilePtr) : go fbo unit :=
  let branch := path_branch file in
  tail ← lift_res (tailPointer file);
  r ← on_blocks (getFileBlockAtOffsetLocked file fblock (ifp_Off ptr) blockWrite);
  block ← on_blocks (load_file (bao_block r));
  let splitAt := CheckSplit cfg_BlockSplitter block in
  let endOfBlock := to_i64 (ifp_Off ptr + zlen (fb_Contents block)) in
  if decide (splitAt = 0)%Z then mret tt
  else if decide (splitAt > 0)%Z then
    if decide (zlen (fb_Contents block) < splitAt)%Z then panic "slice bounds out of range"
    else
      let extraBytes := drop (Z.to_nat splitAt) (fb_Contents block) in
      let contents := take (Z.to_nat splitAt) (fb_Contents block) in
      _ ← on_blocks (store (bao_block r) (FileB (set_Contents block contents)));
      _ ← (if bao_more r then mret tt else on_blocks (newRightBlockLocked tail branch fblock endOfBlock));
      r2 ← on_blocks (getFileBlockAtOffsetLocked file fblock endOfBlock blockWrite);
      rblock ← on_blocks (load_file (bao_block r2));
      _ ← on_blocks (store (bao_block r2) (FileB (set_Contents rblock (extraBytes ++ fb_Contents rblock))));
      _ ← on_blocks (cacheBlockIfNotYetDirtyLocked (bao_ptr r2) branch (bao_block r2));
      moved_iptr fblock (S i) (to_i64 (ifp_Off ptr + zlen contents))
  else if negb (bao_more r) then mret tt
  else
    r2 ← on_blocks (getFileBlockAtOffsetLocked file fblock endOfBlock blockWrite);
    rblock ← on_blocks (load_file (bao_block r2));
    nCopied ← on_blocks (copy_into (bao_block r) false (fb_Contents rblock) (zlen (fb_Contents block)));
    block ← on_blocks (load_file (bao_block r));
    let rest := drop (Z.to_nat nCopied) (fb_Contents rblock) in
    _ ← on_blocks (store (bao_block r2) (FileB (set_Contents rblock rest)));
    if decide (0 < length rest) then
      _ ← on_blocks (cacheBlockIfNotYetDirtyLocked (bao_ptr r2) branch (bao_block r2));
      moved_iptr fblock (S i) (to_i64 (ifp_Off ptr + zlen (fb_Contents block)))
    else
      top ← on_blocks (load_file fblock);
      match fb_IPtrs top !! S i with
      | None => panic "index out of range"
      | Some p =>
          _ ← on_md (md_AddUnrefBlock (ifp_BlockInfo p));
          on_blocks (store fblock (FileB (iptr_remove (S i) top)))
      end.

(** A dirty block has no size yet. *)
Definition check_dirty (branch : BranchName) (ptr : IndirectFilePtr) : go fbo bool :=
  s ← get;
  let isDirty := bcache_IsDirty (bi_BlockPointer (ifp_BlockInfo ptr)) branch (br_blocks s) in
  if bool_decide (0 < bi_EncodedSize (ifp_BlockInfo ptr))%Z && isDirty
  then fail (InconsistentEncodedSizeError (ifp_BlockInfo ptr)) else mret isDirty.

(** The first loop over the indirect pointers, from [i].  The list may
    grow: a block that is too long gives its end to a new one. *)
Fixpoint resplit (fuel : nat) (file : path) (fblock : addr) (i : nat) : go fbo unit :=
  match fuel with
  | 0 => panic "out of fuel"
  | S fuel =>
      top ← on_blocks (load_file fblock);
      match fb_IPtrs top !! i with
      | None => mret tt
      | Some ptr =>
          isDirty ← check_dirty (path_branch file) ptr;
          _ ← (if (isDirty : bool) then resplit_block file fblock i ptr else mret tt);
          resplit fuel file fblock (S i)
      end
  end.

(** ** Readying the blocks of the file *)

Definition ready_block (uid : UID) (file : path) (fblock : addr) (i : nat) (ptr : IndirectFilePtr) : go fsync unit :=
  let localPtr := bi_BlockPointer (ifp_BlockInfo ptr) in
  r ← on_fbo (on_blocks (getFileBlockAtOffsetLocked file fblock (ifp_Off ptr) blockWrite));
  let block := bao_block r in
  '(newInfo, _, readyBlockData) ← on_fbo (ReadyBlock block uid);
  let newPtr := bi_BlockPointer newInfo in
  _ ← on_state (add_new [newPtr]);
  b ← on_fbo (on_blocks (load block));
  _ ← on_fbo (on_world (sc_PutPermanent newPtr b));
  _ ← on_state (add_old localPtr);
  top ← on_fbo (on_blocks (load_file fblock));
  _ ← on_fbo (on_blocks (store fblock (FileB (iptr_at i (λ p, MkIndirectFilePtr newInfo (ifp_Off p)) top))));
  _ ← on_fbo (on_md (md_AddRefBlock newInfo));
  _ ← on_fbo (modify (λ s, set_bps (br_bps s ++ [MkBlockState newPtr block readyBlockData]) s));
  _ ← on_fbo (on_blocks (modify (set_fileBlockStates (<[localPtr := blockSyncingNotDirty]>))));
  on_state (add_redirty (newPtr, localPtr, block)).

(** The second loop: [ptrs] are the pointers from number [i] on. *)
Fixpoint ready_blocks (uid : UID) (file : path) (fblock : addr) (i : nat) (ptrs : list IndirectFilePtr) : go fsync unit :=
  match ptrs with
  | [] => mret tt
  | ptr :: ptrs =>
      isDirty ← on_fbo (check_dirty (path_branch file) ptr);
      _ ← (if (isDirty : bool) then ready_block uid file fblock i ptr else mret tt);
      ready_blocks uid file fblock (S i) ptrs
  end.

(** ** The start of a sync *)

(** The byte counts of the attempt before. *)
Definition reinstate_bytes (si : syncInfo) (md : RootMetadata) : RootMetadata :=
  let wm := bm_WriterMetadata (rmd_bare md) in
  set_bare (set_wm (wm_set_bytes (to_u64 (to_u64 (wm_DiskUsage wm + si_refBytes si) - si_unrefBytes si))
                                 (si_refBytes si) (si_unrefBytes si))) md.

(** After the sync info has been saved; [fuel] is for the first loop. *)
Definition start_blocks (fuel : nat) (uid : UID) (file : path) (fblock : addr) (si : syncInfo) : go fsync unit :=
  tail ← lift_res (tailPointer file);
  fb ← on_fbo (on_blocks (load_file fblock));
  _ ← (if fb_IsInd fb then
         _ ← on_fbo (resplit fuel file fblock 0);
         top ← on_fbo (on_blocks (load_file fblock));
         ready_blocks uid file fblock 0 (fb_IPtrs top)
       else mret tt);
  _ ← on_fbo (on_blocks (modify (set_fileBlockStates (<[tail := blockSyncingNotDirty]>))));
  on_state (add_old tail).

(** The blocks to put and the byte counts are those of the sync info from
    here on. *)
Definition write_back (ref : blockRef) : go fsync unit :=
  s ← get;
  let wm := bm_WriterMetadata (rmd_bare (br_md (fs_fbo s))) in
  on_si ref (λ si, si_set_bytes (wm_RefBytes wm) (wm_UnrefBytes wm) (si_set_bps (Some (br_bps (fs_fbo s))) si)).

Definition startSyncWriteLocked (fuel : nat) (uid : UID) (file : path) : go fsync addr :=
  fblock ← on_fbo (on_blocks (getFileLocked file blockWrite));
  tail ← lift_res (tailPointer file);
  let fileRef := BlockPointer_ref tail in
  s ← get;
  match fbo_unrefCache (br_blocks (fs_fbo s)) !! fileRef with
  | None => fail (Errorf "No syncOp found for file ref %v")
  | Some si =>
      _ ← on_fbo (on_md (md_AddOp (SyncOp (si_op si))));
      fb ← on_fbo (on_blocks (load_file fblock));
      _ ← (if fb_IsInd fb then
             fblockCopy ← lift_res (FileBlock_DeepCopy fb);
             on_state (set_fss_fblock (fblock, fblockCopy))
           else mret tt);
      _ ← on_state (set_fss_si None);
      saved ← lift_res (syncInfo_DeepCopy si);
      _ ← on_state (set_fss_si (Some saved));
      _ ← (match si_bps si with
           | None => on_fbo (modify (set_bps []))
           | Some bps =>
               _ ← on_fbo (modify (λ s, set_bps bps (set_md (reinstate_bytes si (br_md s)) s)));
               on_state (add_new (Refs (SyncOp (si_op si))))
           end);
      r ← try (start_blocks fuel uid file fblock si);
      _ ← write_back fileRef;
      match r with inl _ => mret fblock | inr e => fail e end
  end.

Definition makeLocalBcache (file : path) : go fsync unit :=
  parent ← lift_res (parentPath file);
  dblock ← on_fbo (on_blocks (getDirLocked parent blockWrite));
  tail ← lift_res (tailPointer file);
  let fileRef := BlockPointer_ref tail in
  s ← get;
  match fbo_unrefCache (br_blocks (fs_fbo s)) !! fileRef with
  | None => panic "nil pointer dereference"
  | Some si =>
      _ ← on_fbo (go_for (si_unrefs si) (λ info, on_md (md_AddUnrefBlock info)));
      match fbo_deCache (br_blocks (fs_fbo s)) !! fileRef with
      | None => mret tt
      | Some de =>
          name ← lift_res (tailName file);
          parentPtr ← lift_res (tailPointer parent);
          d ← on_fbo (on_blocks (load_dir dblock));
          let de := de_set_BlockInfo (set_EncodedSize (de_BlockInfo de) (bi_EncodedSize (si_oldInfo si))) de in
          _ ← on_fbo (on_blocks (store dblock (DirB (set_child name de d))));
          on_fbo (modify (set_lbc {[ parentPtr := dblock ]}))
      end
  end.

Definition StartSync (fuel : nat) (uid : UID) (file : path) : go fsync addr :=
  fblock ← startSyncWriteLocked fuel uid file;
  _ ← makeLocalBcache file;
  mret fblock.

(** ** The end of a sync *)

(** [*si = *savedSi] copies the pointer to the blocks to put: what is reset
    and filtered afterwards is one object, [blockStates]. *)
Definition revertSyncInfoAfterRecoverableError (blocksToRemove : list BlockPointer) (saved si : syncInfo) : syncInfo :=
  match si_bps saved with
  | None => saved
  | Some _ =>
      let blockStates : list blockState := [] in
      si_set_bps (Some (blockStates ++ filter (λ b, bst_blockPtr b ∉ blocksToRemove) blockStates)) saved
  end.

(** When the top block was copied during the sync, the synced blocks are
    dirty again under their new pointers. *)
Definition redirty_block (branch : BranchName) (top : addr) (r : BlockPointer * BlockPointer * addr) : go folderBlockOps unit :=
  let '(newPtr, oldPtr, block) := r in
  fblock ← load_file top;
  if existsb (λ p, bool_decide (bi_BlockPointer (ifp_BlockInfo p) = newPtr)) (fb_IPtrs fblock) then
    _ ← store top (FileB (MkFileBlock (fb_CommonBlock fblock) (fb_Contents fblock)
          ((λ p, if decide (bi_BlockPointer (ifp_BlockInfo p) = newPtr)
                 then MkIndirectFilePtr (set_EncodedSize (ifp_BlockInfo p) 0) (ifp_Off p) else p) <$> fb_IPtrs fblock)));
    s ← get;
    _ ← bcache_PutDirty newPtr branch (default block (fbo_dirty s !! dirty_key newPtr branch));
    bcache_DeleteDirty oldPtr branch
  else mret tt.

Definition fixChildBlocksAfterRecoverableError (file : path) (redirty : list (BlockPointer * BlockPointer * addr))
    : go folderBlockOps unit :=
  tail ← lift_res (tailPointer file);
  s ← get;
  if decide (fileBlockState tail s = blockSyncingAndDirty) then
    match fbo_dirty s !! dirty_key tail (path_branch file) with
    | None => mret tt
    | Some top =>
        block ← load top;
        match block with
        | FileB _ => go_for redirty (redirty_block (path_branch file) top)
        | _ => mret tt
        end
    end
  else mret tt.

(** [CleanupSyncState] for an error. *)
Definition CleanupSyncState (file : path) (blocksToRemove : list BlockPointer) (e : error) : go fsync unit :=
  tail ← lift_res (tailPointer file);
  let fileRef := BlockPointer_ref tail in
  s ← get;
  let st := fs_state s in
  _ ← (if fss_si st
       then on_si fileRef (λ si, si_set_op (so_resetUpdateState (default (si_op si) (shared_op (br_md (fs_fbo s))))) si)
       else mret tt);
  _ ← (if isRecoverableBlockError e then
         _ ← (if fss_si st then
                match fss_savedSi st with
                | None => panic "nil pointer dereference"
                | Some saved => on_si fileRef (revertSyncInfoAfterRecoverableError blocksToRemove saved)
                end
              else mret tt);
         match fss_fblock st with
         | None => mret tt
         | Some (fblock, saved) =>
             _ ← on_fbo (on_blocks (store fblock (FileB saved)));
             on_fbo (on_blocks (fixChildBlocksAfterRecoverableError file (fss_redirtyOnRecoverableError st)))
         end
       else mret tt);
  on_fbo (on_blocks (modify (set_fileBlockStates (λ _, ∅)))).

(** The blocks of the sync and its metadata go to the servers, and then
    [FinishSync]. *)
Definition put_sync (sched : downgradeSched) (file newPath : path) : go fsync (list BlockPointer * (bool + error)) :=
  '(blocksToRemove, err) ← on_fbo (doBlockPuts sched);
  match err with
  | Some e => mret (blocksToRemove, inr e)
  | None =>
      r ← try (
        _ ← on_fbo finalizeMDWriteLocked;
        s ← get;
        let st := fs_state s in
        _ ← go_for (fss_newIndirectFileBlockPtrs st) (λ ptr, _ ← on_fbo (on_world (try (sc_DeletePermanent (bp_ID ptr)))); mret tt);
        on_fbo (on_blocks (FinishSync (fbr_Branch bc_folderBranch) file newPath (fss_oldFileBlockPtrs st))));
      mret (blocksToRemove, r)
  end.

(** From the readied file on: the new path, what failed to be put, and
    whether the file is still dirty. *)
Definition sync_file (sched : downgradeSched) (fuel : nat) (uid : UID) (file : path)
    : go fsync (list BlockPointer * (bool + error)) :=
  tail ← lift_res (tailPointer file);
  fblock ← StartSync fuel uid file;
  parent ← lift_res (parentPath file);
  name ← lift_res (tailName file);
  '(newPath, _) ← on_fbo (syncBlockAndCheckEmbedLocked fblock parent name File true true zeroPtr);
  _ ← (s ← get; on_si (BlockPointer_ref tail) (si_set_bps (Some (br_bps (fs_fbo s)))));
  '(blocksToRemove, r) ← put_sync sched file newPath;
  match r with
  | inl _ => mret (blocksToRemove, r)
  | inr _ =>
      s ← get;
      _ ← on_fbo (on_world (bc_cleanUpBlockState (br_md (fs_fbo s)) (bst_blockPtr <$> br_bps (fs_fbo s))));
      mret (blocksToRemove, r)
  end.

(** Whether the file is still dirty. *)
Definition syncLocked (sched : downgradeSched) (fuel : nat) (file : path) : go fsync bool :=
  s ← get;
  dirty ← lift_res (IsDirty file (br_blocks (fs_fbo s)));
  if negb (dirty : bool) then mret false
  else
    _ ← on_fbo getMDForWriteLocked;
    s ← get;
    match p_path file with
    | [] => panic "index out of range"
    | root :: _ =>
        if decide (DirEntry_BlockPointer (pmd_Dir (rmd_data (br_md (fs_fbo s)))) ≠ pn_BlockPointer root) then
          _ ← on_fbo (on_blocks (clearCacheInfoLocked file)); mret true
        else
          '(_, uid) ← lift_res cfg_CurrentUser;
          _ ← modify (λ s, MkFileSync (fs_fbo s) zeroSyncState);
          r ← try (sync_file sched fuel uid file);
          let '(blocksToRemove, r) := match r with inl x => x | inr e => ([], inr e) end in
          match r with
          | inl stillDirty => mret stillDirty
          | inr e => _ ← CleanupSyncState file blocksToRemove e; fail e
          end
    end.
End sync.
