(* ===== verification/FileSyncSpec.v ===== *)
(** * FileSyncSpec: a sync makes the contents of a file durable

    After a sync the head of the folder leads to the file, and the blocks
    that its entry leads to on the server have the contents that the file
    had in the dirty cache. *)

From Stdlib Require Import ZArith Lia.
From S2P Require Import Prelude Types Errors GoStd Ids RekeyQueue CryptoCommon Splitter DataTypes Ops ConflictInfo Handles KeyBundles Metadata FolderBlocks FileIO FolderBlocksSpec Lru MDUtil BlockManager BlockManagerSpec DirOps DirWrites DirLaws DirSpec DirThms DirEffects FileSync.

(** The contents of the file that [id] is the top block of. *)
Definition block_bytes (g : store_view) (id : BlockID) : option (list byte) :=
  match g id with Some (FileB f) => if fb_IsInd f then None else Some (fb_Contents f) | _ => None end.
Definition file_bytes (g : store_view) (id : BlockID) : option (list byte) :=
  match g id with
  | Some (FileB f) =>
      if fb_IsInd f then (λ cs, concat cs) <$> mapM (λ p, block_bytes g (bp_ID (bi_BlockPointer (ifp_BlockInfo p)))) (fb_IPtrs f)
      else Some (fb_Contents f)
  | _ => None
  end.

Lemma spine_exists {X} g ns r r' (Q : X → DirEntry → DirEntry → Prop) :
  spine g ns r r' (λ e e', ∃ x, Q x e e') → ∃ x, spine g ns r r' (Q x).
Proof.
  revert r r'. induction ns as [|n ns IH]; intros r r'; [done|]. simpl. intros (d & d' & c & c' & ? & ? & ? & ? & ? & Hsp).
  destruct (IH _ _ Hsp) as [x Hx]. exists x, d, d', c, c'. by split_and!.
Qed.

(** ** Calls that leave a part of the state alone *)

Definition preserves {S A X} (f : S → X) (m : go S A) : Prop := ∀ s, f (snd (m s)) = f s.

Section preserves.
Context {S X : Type} (f : S → X).

Lemma preserves_ret {A} (a : A) : preserves f (mret a).
Proof. done. Qed.
Lemma preserves_get : preserves f get.
Proof. done. Qed.
Lemma preserves_fail {A} e : preserves f (fail (A := A) e).
Proof. done. Qed.
Lemma preserves_panic {A} p : preserves f (panic (A := A) p).
Proof. done. Qed.
Lemma preserves_lift {A} (r : res A) : preserves f (lift_res r).
Proof. done. Qed.
Lemma preserves_modify (g : S → S) : (∀ s, f (g s) = f s) → preserves f (modify g).
Proof. intros Hg s. apply Hg. Qed.
Lemma preserves_bind {A B} (m : go S A) (k : A → go S B) :
  preserves f m → (∀ a, preserves f (k a)) → preserves f (m ≫= k).
Proof.
  intros Hm Hk s. unfold mbind, go_bind. specialize (Hm s). destruct (m s) as [[a|e|p] s']; simpl in *; [|done|done].
  by rewrite (Hk a s').
Qed.
Lemma preserves_try {A} (m : go S A) : preserves f m → preserves f (try m).
Proof. intros Hm s. specialize (Hm s). unfold try. by destruct (m s) as [[a|e|p] s']. Qed.
Lemma preserves_for {A} (l : list A) (k : A → go S unit) : (∀ a, preserves f (k a)) → preserves f (go_for l k).
Proof. intros Hk. induction l as [|a l IH]; [done|]. simpl. apply preserves_bind; [apply Hk|done]. Qed.
End preserves.

Lemma post_preserves {S A X} (f : S → X) (m : go S A) Q E s : preserves f m → post m Q E s →
  post m (λ a s', Q a s' ∧ f s' = f s) (λ s', E s' ∧ f s' = f s) s.
Proof. intros Hf Hm. specialize (Hf s). unfold post in *. by destruct (m s) as [[a|e|p] s']. Qed.

Create HintDb kept.
#[export] Hint Resolve preserves_ret preserves_get preserves_fail preserves_panic preserves_lift : kept.

(** Goes through a method. *)
Ltac kept :=
  repeat first
    [ solve [eauto with kept]
    | apply preserves_bind; [|intros ?]
    | apply preserves_try | apply preserves_for; intros ?
    | apply preserves_modify; done
    | case_decide | progress case_match ].

Section deferred.
Context {W : Type} `{Config, Codec FileBlock, Codec DirBlock, BranchConfig W, Codec BlockChanges, Codec BareRootMetadata, Codec PrivateMetadata, Codec TlfHandle}.
Abbreviation fbo := (folderBranchOps W).

(** What the cached info, the deferred writes and the states of the blocks
    are. *)
Definition block_info (b : folderBlockOps) : gmap blockRef syncInfo * gmap blockRef DirEntry * list deferredWrite * gmap BlockPointer syncBlockState :=
  (fbo_unrefCache b, fbo_deCache b, fbo_deferredWrites b, fbo_fileBlockStates b).
Definition deferred (s : fbo) := block_info (br_blocks s).

Lemma deferred_world {A} (m : go W A) : preserves deferred (on_world m).
Proof. intros s. unfold on_world. by destruct (m (br_world s)). Qed.
Lemma deferred_md {A} (m : go RootMetadata A) : preserves deferred (on_md m).
Proof. intros s. unfold on_md. by destruct (m (br_md s)). Qed.
Lemma deferred_blocks {A} (m : go folderBlockOps A) : preserves block_info m → preserves deferred (on_blocks m).
Proof. intros Hm s. specialize (Hm (br_blocks s)). unfold on_blocks. by destruct (m (br_blocks s)). Qed.

Lemma kept_load a : preserves block_info (load a).
Proof. intros s. unfold load. by destruct (fbo_heap s !! a). Qed.
Lemma kept_store a b : preserves block_info (store a b).
Proof. by apply preserves_modify. Qed.
Lemma kept_alloc b : preserves block_info (alloc b).
Proof. done. Qed.
Hint Resolve deferred_world deferred_md deferred_blocks kept_load kept_store kept_alloc : kept.

Lemma kept_load_dir a : preserves block_info (load_dir a).
Proof. unfold load_dir. kept. Qed.
Lemma kept_load_file a : preserves block_info (load_file a).
Proof. unfold load_file. kept. Qed.
Hint Resolve kept_load_dir kept_load_file : kept.
Lemma kept_getDirLocked dir t : preserves block_info (getDirLocked dir t).
Proof. unfold getDirLocked, getDirBlockHelperLocked, getBlockHelperLocked. kept. Qed.
Hint Resolve kept_getDirLocked : kept.

Lemma deferred_ready1 a uid : preserves deferred (ReadyBlock a uid).
Proof. unfold ReadyBlock. kept. Qed.
Lemma deferred_ready a uid : preserves deferred (readyBlockMultiple a uid).
Proof. unfold readyBlockMultiple, ReadyBlock. kept. Qed.
Hint Resolve deferred_ready : kept.

Lemma deferred_loop uid fb t mt ct stop now rest : ∀ a n b p de,
  preserves deferred (sync_loop uid fb t mt ct stop now rest a n b p de).
Proof. induction rest as [|node rest IH]; intros; cbn [sync_loop]; kept. Qed.
Hint Resolve deferred_loop : kept.

Lemma deferred_sync a dir name t mt ct stop : preserves deferred (syncBlockAndCheckEmbedLocked a dir name t mt ct stop).
Proof. unfold syncBlockAndCheckEmbedLocked, syncBlock, unembedBlockChanges. kept. Qed.

Lemma deferred_put_blocks l : ∀ err more, preserves deferred (put_blocks l err more).
Proof. induction l as [|b l IH]; intros; cbn [put_blocks]; kept. Qed.
Lemma deferred_forget l : preserves deferred (forget_blocks l).
Proof. induction l as [|b l IH]; intros; cbn [forget_blocks]; kept. Qed.
Hint Resolve deferred_put_blocks deferred_forget : kept.

Lemma deferred_puts sched : preserves deferred (doBlockPuts sched).
Proof. unfold doBlockPuts. kept. Qed.
Lemma deferred_setHead : preserves deferred setHeadLocked.
Proof. unfold setHeadLocked. kept. Qed.
Hint Resolve deferred_setHead : kept.
Lemma deferred_finalize : preserves deferred finalizeMDWriteLocked.
Proof. unfold finalizeMDWriteLocked, put_metadata, finalizeBlocks. kept. Qed.
End deferred.

(** The puts do not change the blocks at all. *)
Section blocks.
Context {W : Type} `{Config, Codec FileBlock, Codec DirBlock, BranchConfig W, Codec BlockChanges, Codec BareRootMetadata, Codec PrivateMetadata, Codec TlfHandle}.
Abbreviation blocks := (br_blocks (W := W)).

Lemma blocks_world {A} (m : go W A) : preserves blocks (on_world m).
Proof. intros s. unfold on_world. by destruct (m (br_world s)). Qed.
Lemma blocks_md {A} (m : go RootMetadata A) : preserves blocks (on_md m).
Proof. intros s. unfold on_md. by destruct (m (br_md s)). Qed.
Lemma blocks_load a : preserves blocks (on_blocks (load a)).
Proof. intros s. unfold on_blocks, load. by destruct (fbo_heap (br_blocks s) !! a). Qed.
Lemma blocks_load_file a : preserves blocks (on_blocks (load_file a)).
Proof. intros s. unfold on_blocks, load_file, load, mbind, go_bind. by destruct (fbo_heap (br_blocks s) !! a) as [[]|]. Qed.
Hint Resolve blocks_world blocks_md blocks_load blocks_load_file : kept.

Lemma blocks_put_blocks l : ∀ err more, preserves blocks (put_blocks l err more).
Proof. induction l as [|b l IH]; intros; cbn [put_blocks]; kept. Qed.
Lemma blocks_forget l : preserves blocks (forget_blocks l).
Proof. induction l as [|b l IH]; intros; cbn [forget_blocks]; kept. Qed.
Hint Resolve blocks_put_blocks blocks_forget : kept.
Lemma blocks_puts sched : preserves blocks (doBlockPuts sched).
Proof. unfold doBlockPuts. kept. Qed.
Lemma blocks_setHead : preserves blocks setHeadLocked.
Proof. unfold setHeadLocked. kept. Qed.
Hint Resolve blocks_setHead : kept.
Lemma blocks_finalize : preserves blocks finalizeMDWriteLocked.
Proof. unfold finalizeMDWriteLocked, put_metadata, finalizeBlocks. kept. Qed.
End blocks.

(** ** The dirty blocks of the file *)

Definition iptr (p : IndirectFilePtr) : BlockPointer := bi_BlockPointer (ifp_BlockInfo p).

Lemma next_index_at ps : ∀ i p k, ps !! i = Some p → (∀ j q, j < i → ps !! j = Some q → (ifp_Off q < ifp_Off p)%Z) →
  next_index ps (ifp_Off p) k = (k + Z.of_nat i)%Z.
Proof.
  induction ps as [|q ps IH]; intros i p k Hi Hlt; [done|]. cbn [next_index]. destruct i as [|i].
  - injection Hi as ->. rewrite decide_True by done. lia.
  - assert (ifp_Off q < ifp_Off p)%Z as Hq by (apply (Hlt 0 q); [lia|done]). rewrite !decide_False by lia.
    rewrite (IH i p) by (done || (intros j q' Hj Hq'; apply (Hlt (S j) q'); [lia|done])). lia.
Qed.

Definition increasing (ps : list IndirectFilePtr) : Prop :=
  ∀ i j p q, i < j → ps !! i = Some p → ps !! j = Some q → (ifp_Off p < ifp_Off q)%Z.

Section search.
Context `{Config, Codec FileBlock, Codec DirBlock}.
Context (file : path) (tail : BlockPointer) (Hvalid : path_isValid file = true) (Htail : tailPointer file = Ok tail).

(** A dirty block that is not being synced is found as it is. *)
Lemma search_dirty b fa top i p a blk :
  fbo_heap b !! fa = Some (FileB top) → fb_IsInd top = true → increasing (fb_IPtrs top) → fb_IPtrs top !! i = Some p →
  BlockPointer_IsValid (iptr p) = true → fbo_dirty b !! dirty_key (iptr p) (path_branch file) = Some a →
  fbo_heap b !! a = Some (FileB blk) → fb_IsInd blk = false → fileBlockState (iptr p) b ≠ blockSyncingNotDirty →
  ∃ r, getFileBlockAtOffsetLocked file fa (ifp_Off p) blockWrite b = (Ok r, b) ∧ bao_block r = a.
Proof.
  intros Hfa Hind Hinc Hi Hv Hd Ha Hblk Hst. unfold getFileBlockAtOffsetLocked, mbind, go_bind, lift_res. rewrite Htail.
  change maxIndirection with (S (S 6)). cbn [search_block bao_block]. unfold load_file, load, mbind, go_bind. rewrite Hfa.
  cbn [mret go_ret]. unfold mret, go_ret. rewrite Hind.
  rewrite (next_index_at _ i p) by (done || (intros j q Hj Hq; by eapply Hinc)).
  rewrite decide_True by lia. rewrite Z.add_0_l, Nat2Z.id, Hi.
  unfold getFileBlockLocked, getFileBlockHelperLocked, getBlockHelperLocked, mbind, go_bind, get. rewrite Hvalid. fold (iptr p). rewrite Hv. cbn [negb].
  unfold path_branch in *. rewrite Hd. unfold mret, go_ret, load. rewrite Ha. unfold bcache_IsDirty. rewrite Hd, bool_decide_true by (by eexists).
  rewrite bool_decide_false by done. cbn [negb orb]. cbn [search_block bao_block]. unfold load_file, load, mbind, go_bind. rewrite Ha.
  unfold mret, go_ret. rewrite Hblk. by eexists.
Qed.
End search.

(** The saved sync info. *)
Section saved.
Context {W : Type} `{Config, Codec FileBlock, Codec DirBlock, BranchConfig W, Codec BlockChanges, Codec BareRootMetadata, Codec PrivateMetadata, Codec TlfHandle}.
Context `{Codec syncOp, SyncConfig W}.
Abbreviation fsync := (fileSync W).

Definition saved_si (s : fsync) : bool * option syncInfo := (fss_si (fs_state s), fss_savedSi (fs_state s)).
(** There is one, when the error handling needs it. *)
Definition saved_ok (s : fsync) : Prop := fss_si (fs_state s) = true → is_Some (fss_savedSi (fs_state s)).

Lemma saved_ok_same (s s' : fsync) : saved_si s' = saved_si s → saved_ok s → saved_ok s'.
Proof. unfold saved_ok. by intros [= -> ->]. Qed.

Lemma saved_fbo {A} (m : go (folderBranchOps W) A) : preserves saved_si (on_fbo m).
Proof. intros s. unfold on_fbo. by destruct (m (fs_fbo s)). Qed.
Lemma saved_state f : (∀ st, fss_si (f st) = fss_si st ∧ fss_savedSi (f st) = fss_savedSi st) → preserves saved_si (on_state (W := W) f).
Proof. intros Hf s. unfold on_state, modify, saved_si. simpl. destruct (Hf (fs_state s)) as [-> ->]. done. Qed.
Hint Resolve saved_fbo saved_state : kept.

Lemma saved_ready_blocks uid file fa l : ∀ i, preserves saved_si (ready_blocks uid file fa i l).
Proof. induction l as [|p l IH]; intros i; cbn [ready_blocks]; unfold ready_block; kept. Qed.
Hint Resolve saved_ready_blocks : kept.
Lemma saved_start_blocks fuel uid file fa si : preserves saved_si (start_blocks fuel uid file fa si).
Proof. unfold start_blocks. kept. Qed.
Lemma saved_write_back ref : preserves saved_si (write_back ref).
Proof. unfold write_back, on_si. kept. Qed.
Lemma saved_makeLocalBcache file : preserves saved_si (makeLocalBcache file).
Proof. unfold makeLocalBcache. kept. Qed.
Lemma saved_put_sync sched file newPath : preserves saved_si (put_sync sched file newPath).
Proof. unfold put_sync. kept. Qed.
End saved.

Section spec.
Context {W : Type} `{Config, Codec FileBlock, Codec DirBlock, BranchConfig W, Codec BlockChanges, Codec BareRootMetadata, Codec PrivateMetadata, Codec TlfHandle}.
Context `{!BranchLaws W, !EncodeTotal FileBlock, !EncodeTotal DirBlock, !EncodeTotal BlockChanges, !EncodeTotal BareRootMetadata, !EncodeTotal PrivateMetadata, !EncodeTotal TlfHandle}.
Context `{Codec syncOp, !EncodeTotal syncOp, SyncConfig W}.
Abbreviation fbo := (folderBranchOps W).
Abbreviation fsync := (fileSync W).
Abbreviation heap s := (fbo_heap (br_blocks s)).
Abbreviation dirty s := (fbo_dirty (br_blocks s)).
Abbreviation states s := (fbo_fileBlockStates (br_blocks s)).
Abbreviation root_of s := (pmd_Dir (rmd_data (br_md s))).
Abbreviation ops_of s := (bc_Ops (pmd_Changes (rmd_data (br_md s)))).

(** What the permanent block cache does. *)
Hypothesis Hput : ∀ ptr b, calls bl_raw (sc_PutPermanent ptr b) (λ _ _, True).
Hypothesis Hdel : ∀ id, calls bl_raw (sc_DeletePermanent id) (λ _ _, True).

Lemma post_on_fbo {A} (m : go fbo A) (Q : A → fsync → Prop) E (s : fsync) :
  post m (λ a b, Q a (MkFileSync b (fs_state s))) (λ b, E (MkFileSync b (fs_state s))) (fs_fbo s) → post (on_fbo m) Q E s.
Proof. unfold post, on_fbo. by destruct (m (fs_fbo s)) as [[a|e|p] b]. Qed.

Lemma post_on_state f (Q : unit → fsync → Prop) E (s : fsync) : Q tt (MkFileSync (fs_fbo s) (f (fs_state s))) → post (on_state f) Q E s.
Proof. done. Qed.

Context (file : path) (tail : BlockPointer) (Hvalid : path_isValid file = true) (Htail : tailPointer file = Ok tail).
Abbreviation key p := (dirty_key p (path_branch file)).

(** The block [p] of the file has the contents [c]: it is dirty and has no
    size, or every server that serves [bps] has it. *)
Definition child_is (bps : list blockState) (s : fbo) (fa : addr) (p : IndirectFilePtr) (c : list byte) : Prop :=
  BlockPointer_IsValid (iptr p) = true ∧
  match dirty s !! key (iptr p) with
  | Some a => (bi_EncodedSize (ifp_BlockInfo p) <= 0)%Z ∧ a ≠ fa ∧
      ∃ b, heap s !! a = Some (FileB b) ∧ fb_IsInd b = false ∧ fb_Contents b = c
  | None => ∀ g, keeps (stored (br_world s)) g → serves g bps → block_bytes g (bp_ID (iptr p)) = Some c
  end.

(** The file is dirty, not being synced, and its blocks have the contents
    [cs]. *)
Record dirty_file (bps : list blockState) (s : fbo) (fa : addr) (top : FileBlock) (cs : list (list byte)) : Prop := {
  df_dirty : dirty s !! key tail = Some fa;
  df_top : heap s !! fa = Some (FileB top);
  df_states : states s = ∅;
  df_direct : fb_IsInd top = false → cs = [fb_Contents top];
  df_offs : fb_IsInd top = true → increasing (fb_IPtrs top);
  df_ptrs : fb_IsInd top = true → NoDup (iptr <$> fb_IPtrs top);
  df_children : fb_IsInd top = true → Forall2 (child_is bps s fa) (fb_IPtrs top) cs
}.

Lemma fbo_same (s : fbo) : set_blocks (br_blocks s) s = s.
Proof. by destruct s. Qed.

(** ** The first loop *)

Lemma check_dirty_run s p c bps fa : child_is bps s fa p c →
  check_dirty (path_branch file) p s = (Ok (bool_decide (is_Some (dirty s !! key (iptr p)))), s).
Proof.
  intros [_ Hp]. unfold check_dirty, mbind, go_bind, get, bcache_IsDirty. fold (iptr p).
  destruct (dirty s !! key (iptr p)) as [a|]; [|by rewrite (bool_decide_false (is_Some None)), andb_false_r by (by intros [? ?])].
  destruct Hp as [Hz _]. by rewrite (bool_decide_false (0 < _)%Z), andb_false_l by lia.
Qed.

Lemma child_search bps s fa top cs i p c a : dirty_file bps s fa top cs → fb_IsInd top = true →
  fb_IPtrs top !! i = Some p → cs !! i = Some c → dirty s !! key (iptr p) = Some a →
  ∃ r b, getFileBlockAtOffsetLocked file fa (ifp_Off p) blockWrite (br_blocks s) = (Ok r, br_blocks s) ∧ bao_block r = a ∧
    heap s !! a = Some (FileB b) ∧ fb_IsInd b = false ∧ fb_Contents b = c.
Proof.
  intros [] Hind Hi Hc Ha. destruct (Forall2_lookup_lr _ _ _ _ _ _ (df_children0 Hind) Hi Hc) as [Hv Hch]. rewrite Ha in Hch.
  destruct Hch as (_ & _ & b & Hb & Hbi & Hbc).
  destruct (search_dirty file tail Hvalid Htail (br_blocks s) fa top i p a b) as (r & Hr & Hra); try done; [by apply df_offs0| |by exists r, b].
  unfold fileBlockState. by rewrite df_states0, lookup_empty.
Qed.

(** The splitter of the code never asks for another place to split, so the
    first loop changes nothing. *)
Lemma resplit_run bps s fa top cs : dirty_file bps s fa top cs → fb_IsInd top = true →
  ∀ fuel i, i <= length (fb_IPtrs top) < fuel + i → resplit fuel file fa i s = (Ok tt, s).
Proof.
  intros Hdf Hind. pose proof (df_children _ _ _ _ _ Hdf Hind) as Hch. pose proof (df_top _ _ _ _ _ Hdf) as Htop.
  assert (on_blocks (load_file fa) s = (Ok top, s)) as Hload.
  { unfold on_blocks, load_file, load, mbind, go_bind. rewrite Htop. unfold mret, go_ret. by rewrite fbo_same. }
  induction fuel as [|fuel IH]; intros i Hlt; [lia|]. cbn [resplit]. unfold mbind at 1, go_bind at 1. rewrite Hload.
  destruct (fb_IPtrs top !! i) as [p|] eqn:Hi; [|done]. destruct (Forall2_lookup_l _ _ _ _ _ Hch Hi) as (c & Hc & Hpc).
  apply lookup_lt_Some in Hi as Hlen. unfold mbind at 1, go_bind at 1. rewrite (check_dirty_run s p c bps fa Hpc).
  assert ((if bool_decide (is_Some (dirty s !! key (iptr p))) then resplit_block file fa i p else mret tt) s = (Ok tt, s)) as Hrun.
  { case_bool_decide as Hd; [|done]. destruct Hd as [a Ha].
    destruct (child_search bps s fa top cs i p c a Hdf Hind Hi Hc Ha) as (r & b & Hr & Hra & Hb & _).
    unfold resplit_block, mbind, go_bind, lift_res. rewrite Htail. unfold on_blocks at 1. rewrite Hr, fbo_same.
    unfold on_blocks at 1, load_file at 1, load at 1, mbind, go_bind. rewrite Hra, Hb. unfold mret, go_ret. by rewrite fbo_same. }
  unfold mbind at 1, go_bind at 1. rewrite Hrun. apply IH. lia.
Qed.
(** ** The second loop *)

(** The first [i] blocks of the file are on every server that serves the
    blocks to put. *)
Record readied (s0 : fbo) (fa : addr) (top0 : FileBlock) (cs : list (list byte)) (i : nat) (s : fbo) : Prop := {
  rd_frame : frame s0 s;
  rd_bps : bps_ok s;
  rd_prefix : br_bps s0 `prefix_of` br_bps s;
  rd_ops : ops_of s ≠ [];
  rd_root : root_of s = root_of s0;
  rd_info : fbo_unrefCache (br_blocks s) = fbo_unrefCache (br_blocks s0) ∧ fbo_deCache (br_blocks s) = fbo_deCache (br_blocks s0) ∧
    fbo_deferredWrites (br_blocks s) = fbo_deferredWrites (br_blocks s0);
  rd_states p : is_Some (states s !! p) → p ∈ take i (iptr <$> fb_IPtrs top0);
  rd_heap a b : a ≠ fa → heap s0 !! a = Some b → ∃ b', heap s !! a = Some b' ∧ exported b' = exported b;
  rd_top : ∃ top, heap s !! fa = Some (FileB top) ∧ fb_IsInd top = true ∧
    drop i (fb_IPtrs top) = drop i (fb_IPtrs top0) ∧ (ifp_Off <$> fb_IPtrs top) = (ifp_Off <$> fb_IPtrs top0) ∧
    ∀ g, keeps (stored (br_world s0)) g → serves g (br_bps s) →
      Forall2 (λ p c, block_bytes g (bp_ID (iptr p)) = Some c) (take i (fb_IPtrs top)) (take i cs)
}.

Lemma exported_file_eq b b' : exported b' = exported (FileB b) →
  ∃ f, b' = FileB f ∧ fb_IsInd f = fb_IsInd b ∧ fb_Contents f = fb_Contents b ∧ fb_IPtrs f = fb_IPtrs b.
Proof. destruct b' as [| |f]; [done..|]. intros [= Hc Hi Hp]. exists f. destruct f as [[]], b as [[]]. simpl in *. by subst. Qed.

Section second.
Context (s0 : fbo) (fa : addr) (top0 : FileBlock) (cs : list (list byte)).
Context (Hdf : dirty_file (br_bps s0) s0 fa top0 cs) (Hind : fb_IsInd top0 = true).

Lemma readied_child i s p c : readied s0 fa top0 cs i s → child_is (br_bps s0) s0 fa p c → child_is (br_bps s0) s fa p c.
Proof.
  intros Hr [Hv Hc]. split; [done|]. rewrite (fr_dirty _ _ (rd_frame _ _ _ _ _ _ Hr)).
  destruct (dirty s0 !! key (iptr p)) as [a|].
  - destruct Hc as (Hz & Hne & b & Hb & Hbi & Hbc). split; [done|]. split; [done|].
    destruct (rd_heap _ _ _ _ _ _ Hr a _ Hne Hb) as (b' & Hb' & He). apply exported_file_eq in He as (f & -> & Hf1 & Hf2 & _).
    exists f. by rewrite Hf1, Hf2.
  - by rewrite (stored_frame _ _ (rd_frame _ _ _ _ _ _ Hr)).
Qed.

Lemma increasing_offs ps ps' : (ifp_Off <$> ps) = (ifp_Off <$> ps') → increasing ps' → increasing ps.
Proof.
  intros Heq Hinc i j p q Hij Hp Hq. assert ((ifp_Off <$> ps) !! i = Some (ifp_Off p)) as Hp' by (by rewrite list_lookup_fmap, Hp).
  assert ((ifp_Off <$> ps) !! j = Some (ifp_Off q)) as Hq' by (by rewrite list_lookup_fmap, Hq).
  rewrite Heq, list_lookup_fmap in Hp', Hq'. destruct (ps' !! i) eqn:Ei; [|done]. destruct (ps' !! j) eqn:Ej; [|done].
  injection Hp' as <-. injection Hq' as <-. by eapply Hinc.
Qed.

(** A block that is not dirty is there already. *)
Lemma readied_clean i s p c : readied s0 fa top0 cs i s → fb_IPtrs top0 !! i = Some p → cs !! i = Some c →
  dirty s !! key (iptr p) = None → readied s0 fa top0 cs (S i) s.
Proof.
  intros Hr Hi Hc Hd. destruct (Forall2_lookup_lr _ _ _ _ _ _ (df_children _ _ _ _ _ Hdf Hind) Hi Hc) as [_ Hpc].
  rewrite <- (fr_dirty _ _ (rd_frame _ _ _ _ _ _ Hr)), Hd in Hpc. destruct Hr as [F1 F2 F3 F4 F5 F6 F7 F8 (top & T1 & T2 & T3 & T4 & T5)].
  split; [done..| |done|].
  - intros q Hq%F7. rewrite (take_S_r _ _ (iptr p)) by (by rewrite list_lookup_fmap, Hi). set_solver.
  - exists top. assert (fb_IPtrs top !! i = Some p) as Hti.
    { rewrite <- (Nat.add_0_r i), <- lookup_drop, T3, lookup_drop, Nat.add_0_r. done. }
    split; [done|]. split; [done|]. split; [|split; [done|]].
    + apply (f_equal (drop 1)) in T3. by rewrite !drop_drop, Nat.add_1_r in T3.
    + intros g Hg Hs. rewrite (take_S_r _ _ p Hti), (take_S_r _ _ c Hc). apply Forall2_app; [by apply T5|].
      constructor; [|constructor]. apply Hpc; [done|]. by eapply serves_prefix.
Qed.

(** The state after a block was readied. *)
Lemma readied_dirty i s p c a b top z newInfo data s' :
  readied s0 fa top0 cs i s → fb_IPtrs top0 !! i = Some p → cs !! i = Some c → a ≠ fa →
  heap s !! a = Some (FileB b) → fb_IsInd b = false → fb_Contents b = c → heap s !! fa = Some (FileB top) →
  let ptr := bi_BlockPointer newInfo in
  (if IsFirstRef ptr then bp_ID ptr = bl_hash data ∧ bl_open data = Some (exported (FileB b))
   else stored (br_world s) (bp_ID ptr) = Some (exported (FileB b))) →
  frame s s' → md_kept (br_md s) (br_md s') → br_bps s' = br_bps s ++ [MkBlockState ptr a data] →
  heap s' = <[fa := FileB (iptr_at i (λ p, MkIndirectFilePtr newInfo (ifp_Off p)) top)]> (<[a := with_size z (FileB b)]> (heap s)) →
  block_info (br_blocks s') = (fbo_unrefCache (br_blocks s), fbo_deCache (br_blocks s), fbo_deferredWrites (br_blocks s),
    <[iptr p := blockSyncingNotDirty]> (states s)) →
  readied s0 fa top0 cs (S i) s'.
Proof.
  intros Hr Hi Hc Hne Ha Hbi Hbc Hfa ptr Hptr Hf (Hd & _ & Ho) Hbps Hhp [= E1 E2 E3 E4].
  destruct Hr as [F1 F2 F3 F4 F5 (F6 & F6' & F6'') F7 F8 (top' & T1 & T2 & T3 & T4 & T5)]. rewrite Hfa in T1. injection T1 as <-.
  set (hp := <[fa := _]> _) in Hhp.
  assert (∀ x, is_Some (heap s !! x) → is_Some (hp !! x)) as Hdom.
  { intros x Hx. unfold hp. rewrite !lookup_insert_is_Some. destruct (decide (fa = x)); [by left|right]. split; [done|].
    destruct (decide (a = x)); [by left|by right]. }
  assert (fb_IPtrs top !! i = Some p) as Hti.
  { rewrite <- (Nat.add_0_r i), <- lookup_drop, T3, lookup_drop, Nat.add_0_r. done. }
  split; rewrite ?Hbps, ?Hhp.
  - by etrans.
  - intros bs. rewrite Hbps. intros [Hin| ->%list_elem_of_singleton]%elem_of_app; simpl.
    + destruct (F2 bs Hin) as [Hx Hid]. split; [rewrite Hhp; by apply Hdom|done].
    + split; [rewrite Hhp; apply Hdom; by eexists|]. intros Hfst. fold ptr in Hfst. rewrite Hfst in Hptr. apply Hptr.
  - etrans; [exact F3|]. by apply prefix_app_r.
  - done.
  - by rewrite Hd.
  - split; [|split]; congruence.
  - intros q. rewrite (take_S_r _ _ (iptr p)) by (by rewrite list_lookup_fmap, Hi).
    rewrite E4, lookup_insert_is_Some. intros [->|[_ Hq%F7]]; set_solver.
  - intros x b0 Hx Hb0. unfold hp. rewrite lookup_insert_ne by done. destruct (F8 x b0 Hx Hb0) as (b' & Hb' & He).
    destruct (decide (a = x)) as [<-|Hax]; [|rewrite lookup_insert_ne by done; by exists b'].
    rewrite lookup_insert_eq. eexists. split; [done|]. rewrite Ha in Hb'. injection Hb' as <-. by rewrite exported_with_size.
  - eexists. unfold hp. rewrite lookup_insert_eq. split; [done|]. split; [done|]. cbn [fb_IPtrs iptr_at]. split; [|split].
    + rewrite drop_alter_lt by lia. apply (f_equal (drop 1)) in T3. by rewrite !drop_drop, Nat.add_1_r in T3.
    + rewrite <- T4. apply list_eq. intros j. rewrite !list_lookup_fmap. destruct (decide (i = j)) as [<-|Hij]; [rewrite list_lookup_alter_eq, Hti; done|].
      by rewrite list_lookup_alter_ne.
    + intros g Hg Hs. rewrite (take_S_r _ _ (MkIndirectFilePtr newInfo (ifp_Off p))) by (by rewrite list_lookup_alter_eq, Hti).
      rewrite (take_S_r _ _ c Hc), take_alter_ge by lia. apply Forall2_app.
      { apply T5; [done|]. eapply serves_prefix; [|exact Hs]. by apply prefix_app_r. }
      constructor; [|constructor]. change (iptr (MkIndirectFilePtr newInfo _)) with ptr.
      assert (g (bp_ID ptr) = Some (exported (FileB b))) as Hgp.
      { destruct (IsFirstRef ptr) eqn:Ef.
        - destruct Hptr as [_ <-]. apply (Hs (MkBlockState ptr a data)); [set_solver|done].
        - apply Hg. by rewrite <- (stored_frame _ _ F1). }
      unfold block_bytes. rewrite Hgp. simpl. unfold fb_IsInd in *. simpl. by rewrite Hbi, Hbc.
Qed.

Lemma post_run {S A} (m : go S A) (Q : A → S → Prop) E s a s' : m s = (Ok a, s') → Q a s' → post m Q E s.
Proof. unfold post. by intros ->. Qed.

Lemma ready_block_post uid i p c a (s : fsync) :
  readied s0 fa top0 cs i (fs_fbo s) → fb_IPtrs top0 !! i = Some p → cs !! i = Some c → dirty (fs_fbo s) !! key (iptr p) = Some a →
  post (ready_block uid file fa i p) (λ _ s', readied s0 fa top0 cs (S i) (fs_fbo s')) (λ s', frame s0 (fs_fbo s')) s.
Proof.
  intros Hr Hi Hc Ha. destruct s as [s st]. cbn [fs_fbo] in *.
  pose proof (Forall2_lookup_lr _ _ _ _ _ _ (df_children _ _ _ _ _ Hdf Hind) Hi Hc) as Hpc.
  apply (readied_child i s) in Hpc as [Hv Hch]; [|done]. rewrite Ha in Hch. destruct Hch as (_ & Hne & b & Hb & Hbi & Hbc).
  destruct (rd_top _ _ _ _ _ _ Hr) as (top & T1 & T2 & T3 & T4 & _).
  assert (fb_IPtrs top !! i = Some p) as Hti.
  { rewrite <- (Nat.add_0_r i), <- lookup_drop, T3, lookup_drop, Nat.add_0_r. done. }
  destruct (search_dirty file tail Hvalid Htail (br_blocks s) fa top i p a b) as (r & Hrun & Hra); try done.
  { eapply increasing_offs; [exact T4|by apply (df_offs _ _ _ _ _ Hdf)]. }
  { unfold fileBlockState. destruct (states s !! iptr p) eqn:Es; [|done]. exfalso.
    assert (iptr p ∈ take i (iptr <$> fb_IPtrs top0)) as Hin by (apply (rd_states _ _ _ _ _ _ Hr); by eexists).
    pose proof (df_ptrs _ _ _ _ _ Hdf Hind) as Hnd. rewrite <- (take_drop i (iptr <$> _)) in Hnd. apply NoDup_app in Hnd as (_ & Hnd & _).
    apply (Hnd _ Hin). apply (list_elem_of_lookup_2 _ 0). by rewrite lookup_drop, Nat.add_0_r, list_lookup_fmap, Hi. }
  unfold ready_block. step. apply post_on_fbo, post_on_blocks. cbn [fs_fbo].
  eapply post_run; [exact Hrun|]. rewrite Hra, fbo_same. cbv zeta. step. apply post_on_fbo. cbn [fs_fbo].
  eapply post_mono; [by apply (post_preserves deferred), ReadyBlock_post; [apply deferred_ready1|]| |].
  2:{ intros s' [Hs' _]. simpl. by etrans; [exact (rd_frame _ _ _ _ _ _ Hr)|]. }
  intros [[newInfo plain] data] s1 [(Hf1 & Hmd1 & Hbps1 & [z Hh1] & _ & Hptr) Hinfo1]. cbv zeta in Hptr.
  step. apply post_on_state. step. apply post_on_fbo. cbn [fs_fbo fs_state].
  eapply (post_load _ _ (with_size z (FileB b))); [by rewrite Hh1, lookup_insert_eq|].
  step. apply post_on_fbo. cbn [fs_fbo fs_state]. eapply post_calls; [apply Hput| |].
  2:{ intros w Hw. simpl. etrans; [exact (rd_frame _ _ _ _ _ _ Hr)|]. etrans; [exact Hf1|]. by apply frame_world. }
  intros [] w _ Hw. step. apply post_on_state. step. apply post_on_fbo. cbn [fs_fbo fs_state].
  eapply post_run; [|].
  { unfold on_blocks, load_file, load, mbind, go_bind. simpl. rewrite Hh1, lookup_insert_ne, T1 by done. unfold mret, go_ret. done. }
  step. apply post_on_fbo, post_on_blocks. unfold store. step. cbn [fs_fbo fs_state].
  step. apply post_on_fbo, post_on_md. cbn [fs_fbo fs_state br_md].
  eapply (post_mono _ _ _ (λ _, False)); [apply AddRefBlock_post; simpl; rewrite Hmd1; apply (rd_ops _ _ _ _ _ _ Hr)| |done].
  intros [] md Hmd. cbn [set_blocks set_world br_md] in Hmd. rewrite Hmd1 in Hmd. step. apply post_on_fbo. step. cbn [fs_fbo fs_state].
  step. apply post_on_fbo, post_on_blocks. step. apply post_on_state. cbn [fs_fbo fs_state].
  eapply (readied_dirty i s p c a b top z newInfo data); try done.
  - etrans; [exact Hf1|]. split; simpl; [done|done|done|done|set_solver|]. rewrite Hmd1. apply Hmd.
  - simpl. by rewrite Hbps1.
  - simpl. by rewrite Hh1.
  - injection Hinfo1 as E1 E2 E3 E4. unfold block_info. simpl. by rewrite E1, E2, E3, E4.
Qed.

Lemma ready_blocks_post uid : ∀ rest i (s : fsync), readied s0 fa top0 cs i (fs_fbo s) → i <= length (fb_IPtrs top0) → drop i (fb_IPtrs top0) = rest →
  post (ready_blocks uid file fa i rest) (λ _ s', readied s0 fa top0 cs (length (fb_IPtrs top0)) (fs_fbo s')) (λ s', frame s0 (fs_fbo s')) s.
Proof.
  pose proof (df_children _ _ _ _ _ Hdf Hind) as Hall. pose proof (Forall2_length _ _ _ Hall) as Hlen.
  induction rest as [|p rest IH]; intros i s Hr Hle Hdrop; cbn [ready_blocks].
  - step. apply (f_equal length) in Hdrop. rewrite length_drop in Hdrop. simpl in Hdrop.
    by replace (length (fb_IPtrs top0)) with i by lia.
  - assert (fb_IPtrs top0 !! i = Some p) as Hi by (by rewrite <- (Nat.add_0_r i), <- lookup_drop, Hdrop).
    destruct (Forall2_lookup_l _ _ _ _ _ Hall Hi) as (c & Hc & Hpc). apply lookup_lt_Some in Hi as Hlt.
    assert (drop (S i) (fb_IPtrs top0) = rest) as Hdrop' by (apply (f_equal (drop 1)) in Hdrop; by rewrite drop_drop, Nat.add_1_r in Hdrop).
    step. apply post_on_fbo. eapply post_run; [by eapply check_dirty_run, readied_child|]. destruct s as [s st]. cbn [fs_fbo fs_state] in *.
    step. case_bool_decide as Hd.
    + destruct Hd as [a Ha]. eapply post_mono; [by eapply ready_block_post|intros [] s' Hr'; by apply IH|done].
    + step. apply IH; [|done|done]. eapply readied_clean; [done..|]. by apply eq_None_not_Some.
Qed.
End second.

(** ** The start of the sync *)

(** What the start leaves for the rest: the top block at [fa], with which
    every server that serves the blocks to put has the file. *)
Definition file_ready (s0 : fbo) (fa : addr) (cs : list (list byte)) (s : fbo) : Prop :=
  frame s0 s ∧ bps_ok s ∧ ops_of s ≠ [] ∧ root_of s = root_of s0 ∧
  (fbo_deCache (br_blocks s) = fbo_deCache (br_blocks s0) ∧ fbo_deferredWrites (br_blocks s) = fbo_deferredWrites (br_blocks s0)) ∧
  ∃ top, heap s !! fa = Some (FileB top) ∧
    ∀ g, keeps (stored (br_world s0)) g → serves g (br_bps s) → ∀ id, g id = Some (exported (FileB top)) → file_bytes g id = Some (concat cs).

Lemma readied_file s0 fa top0 cs s : dirty_file (br_bps s0) s0 fa top0 cs → fb_IsInd top0 = true →
  readied s0 fa top0 cs (length (fb_IPtrs top0)) s → file_ready s0 fa cs s.
Proof.
  intros Hdf Hind [F1 F2 F3 F4 F5 (F6 & F6' & F6'') _ _ (top & T1 & T2 & T3 & T4 & T5)]. split; [done|]. split; [done|].
  split; [done|]. split; [done|]. split; [done|]. exists top. split; [done|]. intros g Hg Hs id Hid.
  specialize (T5 g Hg Hs). apply (f_equal length) in T4. rewrite !length_fmap in T4.
  pose proof (Forall2_length _ _ _ (df_children _ _ _ _ _ Hdf Hind)) as Hlen. rewrite !take_ge in T5 by lia.
  unfold file_bytes. rewrite Hid. simpl. unfold fb_IsInd in *. simpl. rewrite T2. apply mapM_Some in T5. unfold iptr in T5. by rewrite T5.
Qed.

Lemma file_ready_ext s0 fa cs s s' : file_ready s0 fa cs s → frame s s' → br_bps s' = br_bps s → ops_of s' ≠ [] → root_of s' = root_of s →
  fbo_deCache (br_blocks s') = fbo_deCache (br_blocks s) → fbo_deferredWrites (br_blocks s') = fbo_deferredWrites (br_blocks s) →
  heap s' !! fa = heap s !! fa → file_ready s0 fa cs s'.
Proof.
  intros (F1 & F2 & F3 & F4 & [F5 F6] & top & T1 & T2) Hf Hb Ho Hr He Hd Hh. split; [by etrans|]. split; [by eapply bps_ok_frame|].
  split; [done|]. split; [congruence|]. split; [split; congruence|]. exists top. rewrite Hh, Hb. by split.
Qed.
Lemma file_ready_states s0 fa cs s f : file_ready s0 fa cs s → file_ready s0 fa cs (set_blocks (set_fileBlockStates f (br_blocks s)) s).
Proof. intros Hr. eapply file_ready_ext; [exact Hr|by split|done|apply Hr|done..]. Qed.
Lemma file_ready_si s0 fa cs s ref f : file_ready s0 fa cs s →
  file_ready s0 fa cs (set_blocks (set_unrefCache (alter f ref) (br_blocks s)) s).
Proof. intros Hr. eapply file_ready_ext; [exact Hr|by split|done|apply Hr|done..]. Qed.

Lemma start_blocks_post fuel uid si (s : fsync) fa top cs : let s0 := fs_fbo s in
  dirty_file (br_bps s0) s0 fa top cs → bps_ok s0 → ops_of s0 ≠ [] → length (fb_IPtrs top) < fuel →
  post (start_blocks fuel uid file fa si) (λ _ s', file_ready s0 fa cs (fs_fbo s') ∧
    fbo_unrefCache (br_blocks (fs_fbo s')) = fbo_unrefCache (br_blocks s0)) (λ s', frame s0 (fs_fbo s')) s.
Proof.
  intros s0 Hdf Hok Hops Hfuel. destruct s as [s st]. cbn [fs_fbo] in s0. subst s0.
  unfold start_blocks. step. eapply post_lift_Ok; [exact Htail|].
  assert (on_blocks (load_file fa) s = (Ok top, s)) as Hload.
  { unfold on_blocks, load_file, load, mbind, go_bind. rewrite (df_top _ _ _ _ _ Hdf). unfold mret, go_ret. by rewrite fbo_same. }
  step. apply post_on_fbo. eapply post_run; [exact Hload|]. cbn [fs_fbo fs_state]. step.
  destruct (fb_IsInd top) eqn:Hind.
  - step. apply post_on_fbo. eapply post_run; [eapply resplit_run; [done|done|cbn [length]; lia]|]. cbn [fs_fbo fs_state].
    step. apply post_on_fbo. eapply post_run; [exact Hload|]. cbn [fs_fbo fs_state].
    eapply post_mono; [eapply (ready_blocks_post s fa top cs Hdf Hind uid _ 0); [|lia|done]| |done].
    { cbn [fs_fbo]. split; [done|done|done|done|done|done| |by eauto|].
      - intros p. rewrite (df_states _ _ _ _ _ Hdf), lookup_empty. by intros [? ?].
      - exists top. rewrite (df_top _ _ _ _ _ Hdf). by split_and!. }
    intros [] s' Hr. step. apply post_on_fbo, post_on_blocks. step. apply post_on_state.
    split; [|apply (rd_info _ _ _ _ _ _ Hr)]. apply file_ready_states. by eapply readied_file.
  - step. step. apply post_on_fbo, post_on_blocks. step. apply post_on_state. split; [|done].
    apply file_ready_states. split; [done|]. split; [done|]. split; [done|]. split; [done|]. split; [done|].
    exists top. split; [apply (df_top _ _ _ _ _ Hdf)|]. intros g _ _ id Hid. unfold file_bytes. rewrite Hid, (df_direct _ _ _ _ _ Hdf Hind).
    simpl. unfold fb_IsInd in *. simpl. rewrite Hind. by rewrite app_nil_r.
Qed.
Lemma file_ready_from s0 s1 fa cs s : file_ready s1 fa cs s → frame s0 s1 → root_of s1 = root_of s0 →
  block_info (br_blocks s1) = block_info (br_blocks s0) → file_ready s0 fa cs s.
Proof.
  intros (F1 & F2 & F3 & F4 & [F5 F6] & top & T1 & T2) Hf Hroot [= E1 E2 E3 E4]. split; [by etrans|]. split; [done|]. split; [done|].
  split; [congruence|]. split; [split; congruence|]. exists top. split; [done|]. by rewrite <- (stored_frame _ _ Hf).
Qed.

Lemma getFile_run b fa top : BlockPointer_IsValid tail = true → fbo_dirty b !! key tail = Some fa → fbo_heap b !! fa = Some (FileB top) →
  fbo_fileBlockStates b = ∅ → getFileLocked file blockWrite b = (Ok fa, b).
Proof.
  intros Hv Hd Ha Hst. unfold getFileLocked, mbind, go_bind, lift_res. rewrite Htail.
  unfold getFileBlockLocked, getFileBlockHelperLocked, getBlockHelperLocked, mbind, go_bind, get. rewrite Hvalid, Hv. cbn [negb].
  unfold path_branch in *. rewrite Hd. unfold mret, go_ret, load. rewrite Ha. unfold bcache_IsDirty. rewrite Hd, bool_decide_true by (by eexists).
  unfold fileBlockState. by rewrite Hst, lookup_empty.
Qed.

Lemma syncInfo_DeepCopy_total si : ∃ si', syncInfo_DeepCopy si = Ok si'.
Proof.
  unfold syncInfo_DeepCopy. destruct (Encode_total (exported_syncOp (si_op si))) as [buf Hb]. rewrite Hb. simpl.
  rewrite (Decode_Encode _ _ Hb). simpl. by eexists.
Qed.

Lemma dirty_file_ext bps s s' fa top cs : dirty_file bps s fa top cs → br_blocks s' = br_blocks s → bl_raw (br_world s') = bl_raw (br_world s) →
  dirty_file bps s' fa top cs.
Proof.
  intros [] Hb Hw. split; rewrite ?Hb; [done..|]. intros Hi. eapply Forall2_impl; [by apply df_children0|].
  intros p c [Hv Hc]. split; [done|]. unfold stored. rewrite Hb, Hw. exact Hc.
Qed.

Abbreviation fileRef := (BlockPointer_ref tail).

Lemma startSyncWriteLocked_post fuel uid (s : fsync) fa top cs si : let s0 := fs_fbo s in let bps := default [] (si_bps si) in
  dirty_file bps s0 fa top cs → bps_ok (set_bps bps s0) → BlockPointer_IsValid tail = true →
  fbo_unrefCache (br_blocks s0) !! fileRef = Some si → length (fb_IPtrs top) < fuel →
  post (startSyncWriteLocked fuel uid file) (λ fblock s', fblock = fa ∧ file_ready s0 fa cs (fs_fbo s') ∧ saved_ok s' ∧
    is_Some (fbo_unrefCache (br_blocks (fs_fbo s')) !! fileRef)) (λ s', frame s0 (fs_fbo s') ∧ saved_ok s') s.
Proof.
  intros s0 bps Hdf Hok Hv Hsi Hfuel. destruct s as [s st]. cbn [fs_fbo] in s0. subst s0.
  unfold startSyncWriteLocked. step. apply post_on_fbo, post_on_blocks. cbn [fs_fbo fs_state].
  eapply post_run; [eapply getFile_run; [done|apply Hdf..]|]. rewrite fbo_same. step. eapply post_lift_Ok; [exact Htail|]. do 2 step.
  cbn [fs_fbo]. rewrite Hsi. step. apply post_on_fbo, post_on_md. cbn [fs_fbo fs_state].
  eapply (post_mono _ _ _ (λ _, False)); [apply AddOp_post| |done]. intros [] md (Hd & Hb & Ho).
  assert (on_blocks (load_file fa) (set_md md s) = (Ok top, set_md md s)) as Hload.
  { unfold on_blocks, load_file, load, mbind, go_bind. simpl. rewrite (df_top _ _ _ _ _ Hdf). unfold mret, go_ret. done. }
  step. apply post_on_fbo. eapply post_run; [exact Hload|]. cbn [fs_fbo fs_state]. step.
  apply (post_mono _ (λ _ s', fs_fbo s' = set_md md s) _ (λ _, False)); [|..|done].
  { destruct (fb_IsInd top); [|by step]. step. eapply post_lift_Ok; [apply FileBlock_DeepCopy_exported|]. by apply post_on_state. }
  intros [] [s1 st1] Hs1. cbn [fs_fbo] in Hs1. subst s1. step. apply post_on_state. step. destruct (syncInfo_DeepCopy_total si) as [saved Hsaved].
  eapply post_lift_Ok; [exact Hsaved|]. step. apply post_on_state. cbn [fs_fbo fs_state]. step.
  apply (post_mono _ (λ _ s', let s1 := fs_fbo s' in saved_ok s' ∧ br_blocks s1 = br_blocks s ∧ br_world s1 = br_world s ∧ frame s s1 ∧ br_bps s1 = bps ∧
    ops_of s1 ≠ [] ∧ root_of s1 = root_of s) _ (λ _, False)); [|..|done].
  { subst bps. destruct (si_bps si) as [bps|].
    - step. apply post_on_fbo. step. apply post_on_state. cbn [fs_fbo]. split; [intros _; by eexists|]. by split_and!.
    - apply post_on_fbo. step. cbn [fs_fbo]. split; [intros _; by eexists|]. by split_and!. }
  intros [] [s1 st2] (Hsv & Hbl & Hw & Hf & Hbps & Hops & Hroot). cbn [fs_fbo] in *. step. step.
  assert (dirty_file (br_bps s1) s1 fa top cs) as Hdf1.
  { rewrite Hbps. eapply dirty_file_ext; [done|done|by rewrite Hw]. }
  assert (bps_ok s1) as Hok1 by (intros bs; rewrite Hbl, Hbps; apply Hok).
  eapply post_mono; [by apply (post_preserves saved_si), (start_blocks_post fuel uid si (MkFileSync s1 st2) fa top cs); [apply saved_start_blocks|..]| |].
  - intros [] [s2 st3] [[Hr Hun] Hsv2]. cbn [fs_fbo] in *. step. unfold write_back. do 2 step. unfold on_si. apply post_on_fbo, post_on_blocks. step.
    cbn [fs_fbo fs_state]. step. split; [done|]. split.
    + apply file_ready_si. eapply file_ready_from; [exact Hr|done|done|by rewrite Hbl].
    + split; [by eapply saved_ok_same|]. simpl. rewrite lookup_alter_eq, Hun, Hbl, Hsi. by eexists.
  - intros [s2 st3] [Hf2 Hsv2] e. cbn [fs_fbo] in *. step. unfold write_back. do 2 step. unfold on_si. apply post_on_fbo, post_on_blocks. step.
    cbn [fs_fbo fs_state]. step. cbn [fs_fbo]. split; [|by eapply saved_ok_same]. etrans; [exact Hf|]. etrans; [exact Hf2|]. by split.
Qed.
End spec.

(** ** Syncing the directories *)

Section dirs.
Context {W : Type} `{Config, Codec FileBlock, Codec DirBlock, BranchConfig W, Codec BlockChanges, Codec BareRootMetadata, Codec PrivateMetadata, Codec TlfHandle}.
Context `{!BranchLaws W, !EncodeTotal FileBlock, !EncodeTotal DirBlock, !EncodeTotal BlockChanges}.
Abbreviation fbo := (folderBranchOps W).
Abbreviation heap s := (fbo_heap (br_blocks s)).
Abbreviation root_of s := (pmd_Dir (rmd_data (br_md s))).
Abbreviation ops_of s := (bc_Ops (pmd_Changes (rmd_data (br_md s)))).

(** The directory block that gets the new entry: the one prepared by the
    start of the sync, or else the one that is fetched. *)
Definition parent_block (s : fbo) (cur : pathNode) (name : string) (d : DirBlock) (de : DirEntry) : Prop :=
  match br_lbc s !! pn_BlockPointer cur with
  | Some a => ∃ d', heap s !! a = Some (DirB d') ∧ db_Children d' = <[name := de]> (db_Children d)
  | None => child name d = Some de
  end.

Lemma parent_block_post s fb l cur name d de :
  parent_block s cur name d de → reads s → Forall (clean_node s fb) (l ++ [cur]) →
  stored (br_world s) (bp_ID (pn_BlockPointer cur)) = Some (DirB d) →
  post (match br_lbc s !! pn_BlockPointer cur with
        | Some a => mret a
        | None => on_blocks (getDirLocked (MkPath fb (l ++ [cur])) blockWrite)
        end) (λ a s', frame s s' ∧ br_md s' = br_md s ∧ br_bps s' = br_bps s ∧ heap s ⊆ heap s' ∧
          ∃ d', heap s' !! a = Some (DirB d') ∧ db_Children d' = <[name := de]> (db_Children d)) (λ _, False) s.
Proof.
  intros Hp Hr Hcl Hd. unfold parent_block in Hp. destruct (br_lbc s !! pn_BlockPointer cur) as [a|].
  - step. by split_and!.
  - assert (path_isValid (MkPath fb (l ++ [cur])) = true) as Hv by (eapply path_valid_clean; [exact Hcl|by destruct l]).
    apply Forall_app in Hcl as [_ [[_ Hnd] _]%Forall_cons].
    eapply (getDirLocked_spec _ _ cur d); [done|done|simpl; by rewrite last_snoc|by split|].
    intros a b d' Hext Ha Hb ->. pose proof Hext as (hp & -> & Hsub). split; [by apply frame_hext|]. split; [done|]. split; [done|]. split; [done|].
    eexists. split; [done|]. simpl. by rewrite insert_id.
Qed.

Lemma fill_entry_size plain info m c now de : ei_Type (de_EntryInfo de) ≠ Dir →
  ei_Size (de_EntryInfo (fill_entry plain info m c now de)) = ei_Size (de_EntryInfo de).
Proof. intros Ht. unfold fill_entry. rewrite decide_False by done. by repeat case_match. Qed.

(** The file [name] of the directory [cur] has the block [b]. *)
Lemma sync_file_post s fa f fb l cur name d c de :
  Forall (λ n, br_lbc s !! pn_BlockPointer n = None) l → reads s → bps_ok s → ops_of s ≠ [] → heap s !! fa = Some (FileB f) →
  Forall (clean_node s fb) (l ++ [cur]) → at_path (stored (br_world s)) (root_of s) (l ++ [cur]) →
  stored (br_world s) (bp_ID (pn_BlockPointer cur)) = Some (DirB d) → child name d = Some c → same_kind c de → ei_Type (de_EntryInfo c) ≠ Dir →
  parent_block s cur name d de →
  post (syncBlockAndCheckEmbedLocked fa (MkPath fb (l ++ [cur])) name File true true zeroPtr)
    (λ _ s', br_bps s `prefix_of` br_bps s' ∧
       prepared s s' (pn_Name <$> tail (l ++ [cur])) (λ g e e', entry_id e = bp_ID (pn_BlockPointer cur) ∧
       ∃ de', same_kind c de' ∧ ei_Size (de_EntryInfo de') = ei_Size (de_EntryInfo de) ∧ g (entry_id de') = Some (exported (FileB f)) ∧
         has_children g e' (<[name := de']> (db_Children d)))) (frame s) s.
Proof.
  intros Hlbc Hr Hok Hops Hb Hcl Hpath Hd Hc Hk Hfile Hpb. unfold syncBlockAndCheckEmbedLocked. step. apply post_lift.
  destruct cfg_CurrentUser as [[uname uid]|e|p] eqn:Hu; [|done|by apply bl_user in Hu].
  step. unfold syncBlock. step. eapply post_returns; [apply bl_now|]. intros now w Hw. step.
  cbn [p_path p_FolderBranch]. set (s1 := set_world w s). assert (frame s s1) as Hf1 by (by apply frame_world).
  rewrite reverse_snoc. cbn [sync_loop]. step.
  eapply post_mono; [by apply (readyBlockMultiple_post s1 _ (FileB f)); [|by eapply bps_ok_frame]| |by intros s' Hs'; etrans].
  intros [info plain] s2 (Hf2 & Hmd & Hok2 & [z Hh2] & Hpre & Hinit & Hg). cbv beta iota zeta.
  assert (frame s s2) as Hf by (by etrans). do 3 step.
  replace (reverse (cur :: reverse l)) with (l ++ [cur]) by (by rewrite reverse_cons, reverse_involutive).
  assert (parent_block s2 cur name d de) as Hpb2.
  { unfold parent_block in *. rewrite (fr_lbc _ _ Hf). destruct (br_lbc s !! pn_BlockPointer cur) as [a|]; [|done].
    destruct Hpb as (d' & Ha & Hd'). exists d'. split; [|done]. rewrite Hh2, lookup_insert_ne; [done|]. intros ->. by rewrite Hb in Ha. }
  eapply post_mono; [eapply (parent_block_post s2 fb l cur name d de); [done|by eapply reads_frame|by eapply clean_nodes_frame|by rewrite (stored_frame _ _ Hf)]| |done].
  intros a s3 (Hf23 & Hmd3 & Hbps3 & Hsub & d' & Ha & Hd').
  assert (frame s s3) as Hf3 by (by etrans).
  step. eapply post_load_dir; [done|]. step. unfold child. rewrite Hd', lookup_insert_eq. cbv beta iota. step. cbv beta iota zeta. step. apply post_on_md.
  assert (br_md s3 = br_md s) as Hmd3' by (by rewrite Hmd3, Hmd). rewrite <- Hmd3' in Hops.
  eapply post_mono; [by apply AddUpdate_post| |by intros md Hm; etrans; [done|split; try done; apply Hm]].
  intros [] md (Hmd' & Hp & Ho). step. apply post_on_blocks. unfold store. step.
  set (de' := fill_entry _ _ _ _ _ _). set (s4 := set_blocks _ _).
  assert (frame s3 s4) as Hf34.
  { etrans; [|apply frame_store]. split; try done; simpl; by rewrite Hp. }
  assert (frame s s4) as Hf4 by (etrans; [exact Hf3|exact Hf34]).
  assert (root_of s4 = root_of s) as Hroot by (simpl; by rewrite Hmd', Hmd3').
  assert (de_BlockInfo de' = info) as Hinfo by apply fill_entry_info.
  assert (same_kind c de' ∧ ei_Size (de_EntryInfo de') = ei_Size (de_EntryInfo de)) as [Hk' Hsz].
  { destruct Hk as [K1 K2]. destruct (fill_entry_kind plain info (true && true) (true && true) now de) as [K3 K4]. fold de' in K3, K4. split; [split; congruence|].
    apply fill_entry_size. by rewrite K1. }
  apply Forall_app in Hcl as [Hcl [[Hv Hnd] _]%Forall_cons].
  rewrite decide_False by (intros Hz; unfold pathNode_isValid in Hv; rewrite Hz in Hv; done).
  change (DirEntry_IsInitialized (MkDirEntry zeroBlockInfo _)) with false. cbv iota.
  eapply post_mono; [eapply (sync_loop_post _ _ _ _ _ _ (reverse l) cur)| |by intros s' Hs'; etrans].
  - rewrite (fr_lbc _ _ Hf4). by apply Forall_reverse.
  - by eapply reads_frame.
  - eapply bps_ok_frame; [exact Hf34|done|]. by apply (bps_ok_frame s2).
  - done.
  - simpl. by rewrite lookup_insert_eq.
  - apply Forall_reverse. by eapply clean_nodes_frame.
  - by rewrite reverse_involutive, (stored_frame _ _ Hf4), Hroot.
  - intros [np de''] s5 [Hsync _]. rewrite reverse_involutive in Hsync. do 4 step. pose proof Hsync as (Hf5 & Hok5 & Hops5 & Hpre5 & _).
    eapply post_mono; [by apply checkEmbed_post| |intros s' Hs'; by do 2 (etrans; [done|])].
    intros [] s' (Hf' & Hok' & Hsw & Hpre' & Hroot'). step.
    eapply synced_prepared in Hsync; [|done..]. destruct Hsync as (Hf6 & Hok6 & Hsw6 & Hk6 & Hsp).
    simpl in Hpre5. rewrite Hbps3 in Hpre5. split; [by etrans; [exact Hpre|]; etrans; [exact Hpre5|]|].
    split_and!; [by etrans|done|done|by rewrite <- Hroot|]. intros g Hkeep Hs. rewrite <- Hroot.
    eapply spine_mono; [|apply Hsp; [by rewrite (stored_frame _ _ Hf4)|done]]. intros e e' [He He'].
    split; [done|]. exists de'. split; [done|]. split; [done|]. split.
    + unfold entry_id, DirEntry_BlockPointer. rewrite Hinfo. apply Hg; [by rewrite (stored_frame _ _ Hf1)|].
      eapply serves_prefix; [|done]. by etrans.
    + eexists. split; [exact He'|]. simpl. by rewrite Hd', insert_insert_eq.
Qed.
End dirs.

(** ** The whole sync *)

Class SyncLaws (W : Type) `{Config, BranchConfig W, Codec BareRootMetadata, !BranchLaws W, SyncConfig W} := {
  sl_put ptr b : calls bl_raw (sc_PutPermanent ptr b) (λ _ _, True);
  sl_delete id : calls bl_raw (sc_DeletePermanent id) (λ _ _, True)
}.

Section durable.
Context {W : Type} `{Config, Codec FileBlock, Codec DirBlock, BranchConfig W, Codec BlockChanges, Codec BareRootMetadata, Codec PrivateMetadata, Codec TlfHandle}.
Context `{!BranchLaws W, !EncodeTotal FileBlock, !EncodeTotal DirBlock, !EncodeTotal BlockChanges, !EncodeTotal BareRootMetadata, !EncodeTotal PrivateMetadata, !EncodeTotal TlfHandle}.
Context `{Codec syncOp, !EncodeTotal syncOp, SyncConfig W, !SyncLaws W}.
Abbreviation fbo := (folderBranchOps W).
Abbreviation fsync := (fileSync W).
Abbreviation heap s := (fbo_heap (br_blocks s)).
Abbreviation root_of s := (pmd_Dir (rmd_data (br_md s))).
Abbreviation ops_of s := (bc_Ops (pmd_Changes (rmd_data (br_md s)))).

(** *** Cleaning up *)

Lemma redirty_post branch top r b : (∃ f, fbo_heap b !! top = Some (FileB f)) →
  post (redirty_block branch top r) (λ _ b', ∃ f, fbo_heap b' !! top = Some (FileB f)) (λ _, False) b.
Proof.
  intros [f Hf]. destruct r as [[newPtr oldPtr] block]. unfold redirty_block, store, bcache_PutDirty, bcache_DeleteDirty. step. apply post_wp. eapply wp_load_file; [done|].
  case_match; [|step; by exists f]. steps.
  simpl. rewrite lookup_insert_eq. by eexists.
Qed.

Lemma fixChild_post file tail l b : tailPointer file = Ok tail → dirty_ok b →
  post (fixChildBlocksAfterRecoverableError file l) (λ _ _, True) (λ _, False) b.
Proof.
  intros Ht Hd. unfold fixChildBlocksAfterRecoverableError. step. eapply post_lift_Ok; [done|]. do 3 step; [|by step].
  destruct (fbo_dirty b !! _) as [top|] eqn:Etop; [|by step]. destruct (Hd _ _ Etop) as [blk Hblk]. step.
  eapply post_run; [unfold load; by rewrite Hblk|]. destruct blk as [| |f]; [by step|by step|].
  apply (post_mono _ (λ _ b', ∃ f, fbo_heap b' !! top = Some (FileB f)) _ (λ _, False)); [|done..].
  apply post_for; [intros r b' _ Hb'; by apply redirty_post|by exists f].
Qed.

Lemma CleanupSyncState_post file tail ptrs e (s : fsync) h : tailPointer file = Ok tail → saved_ok s →
  dirty_ok (br_blocks (fs_fbo s)) → head_is h (fs_fbo s) →
  post (CleanupSyncState file ptrs e) (λ _ s', head_is h (fs_fbo s')) (λ s', head_is h (fs_fbo s')) s.
Proof.
  intros Ht Hsv Hd Hh. destruct s as [s st]. unfold CleanupSyncState. step. eapply post_lift_Ok; [done|]. do 3 step. cbv zeta. cbn [fs_fbo fs_state] in *.
  set (I := λ s' : fsync, fs_state s' = st ∧ br_head (fs_fbo s') = br_head s ∧ dirty_ok (br_blocks (fs_fbo s'))).
  assert (∀ ref f s', I s' → post (on_si ref f) (λ _, I) (λ _, False) s') as Hsi.
  { intros ref f [s' st'] (E1 & E2 & E3). unfold on_si. apply post_on_fbo, post_on_blocks. step. by split_and!. }
  apply (post_mono _ (λ _, I) _ (λ _, False)); [|..|done].
  { case_match; [|by step]. by apply Hsi. }
  intros [] s1 Hs1. step.
  apply (post_mono _ (λ _ s', br_head (fs_fbo s') = br_head s) _ (λ _, False)); [|..|done].
  2:{ intros [] [s2 st2] Hs2. apply post_on_fbo, post_on_blocks. step. cbn [fs_fbo] in *. destruct Hh as (h' & Hh' & Hs). exists h'. by rewrite <- Hs2 in Hh'. }
  case_match; [|step; by apply Hs1]. step. apply (post_mono _ (λ _, I) _ (λ _, False)); [|..|done].
  { case_match; [|by step]. destruct Hsv as [saved Hsaved]; [done|]. cbn [fs_state] in Hsaved. rewrite Hsaved. by apply Hsi. }
  intros [] [s2 st2] (E1 & E2 & E3). cbn [fs_state fs_fbo] in *. destruct (fss_fblock st) as [[fblock saved]|]; [|by step].
  step. apply post_on_fbo, post_on_blocks. unfold store. step. apply post_on_fbo, post_on_blocks. cbn [fs_fbo].
  eapply post_mono; [eapply fixChild_post; [done|]| |done].
  - intros k a Ha. simpl in *. destruct (E3 k a Ha) as [b Hb]. destruct (decide (fblock = a)) as [<-|Hne]; [rewrite lookup_insert_eq; by eexists|].
    rewrite lookup_insert_ne by done. by exists b.
  - intros [] b _. done.
Qed.

(** *** The prepared directory *)

(** The start of the sync is over: the file is ready, and the directory
    [d] has or will have an entry for it with the info [e]. *)
Definition start_done (s0 : fbo) (fa : addr) (cs : list (list byte)) (cur : pathNode) (name : string) (d : DirBlock) (e : EntryInfo) (s : fbo) : Prop :=
  ∃ lbc s2 de, s = set_lbc lbc s2 ∧ file_ready s0 fa cs s2 ∧ (∀ p, p ≠ pn_BlockPointer cur → lbc !! p = None) ∧
    de_EntryInfo de = e ∧ parent_block s cur name d de.

Lemma merge_unrefs_post (s : fbo) l : ops_of s ≠ [] →
  post (go_for l (λ info, on_md (md_AddUnrefBlock info))) (λ _ s', ∃ md, s' = set_md md s ∧ md_kept (br_md s) md) (λ _, False) s.
Proof.
  intros Hops. apply post_for; [|exists (br_md s); by destruct s].
  intros i s' _ (md & -> & K1 & K2 & K3). apply post_on_md. cbn [br_md set_md].
  eapply (post_mono _ _ _ (λ _, False)); [by apply AddUnrefBlock_post| |done].
  intros [] md' (K1' & K2' & K3'). exists md'. split; [done|]. split_and!; [congruence..|done].
Qed.

Lemma makeLocalBcache_post s0 fa cs fb l cur name tail d c (s : fsync) :
  let s1 := fs_fbo s in let e := default c (fbo_deCache (br_blocks s0) !! BlockPointer_ref tail) in
  file_ready s0 fa cs s1 → br_lbc s1 = ∅ → reads s1 → Forall (clean_node s1 fb) (l ++ [cur]) →
  is_Some (fbo_unrefCache (br_blocks s1) !! BlockPointer_ref tail) →
  stored (br_world s1) (bp_ID (pn_BlockPointer cur)) = Some (DirB d) → child name d = Some c →
  post (makeLocalBcache (MkPath fb ((l ++ [cur]) ++ [MkPathNode tail name])))
    (λ _ s', start_done s0 fa cs cur name d (de_EntryInfo e) (fs_fbo s')) (λ _, False) s.
Proof.
  intros s1 e Hr Hlbc Hread Hcl [si Hsi] Hd Hc. destruct s as [s st]. cbn [fs_fbo] in s1. subst s1.
  destruct (tail_of fb (l ++ [cur]) (MkPathNode tail name)) as (Ht & Hn & Hp). destruct (tail_of fb l cur) as (Htc & _). cbn [pn_BlockPointer pn_Name] in Ht, Hn.
  unfold makeLocalBcache. step. eapply post_lift_Ok; [exact Hp|]. step. apply post_on_fbo. cbn [fs_fbo fs_state].
  apply Forall_app in Hcl as Hcl'. destruct Hcl' as [_ [[_ Hnd] _]%Forall_cons].
  eapply (getDirLocked_spec _ _ cur d); [done|eapply path_valid_clean; [exact Hcl|by destruct l]|simpl; by rewrite last_snoc|by split|].
  intros a b d' (hp & -> & Hsub) Ha Hb ->. step. eapply post_lift_Ok; [exact Ht|]. do 2 step. cbn [fs_fbo fs_state br_blocks set_blocks set_heap fbo_unrefCache fbo_deCache].
  rewrite Hsi. step. apply post_on_fbo. cbn [fs_fbo fs_state].
  pose proof Hr as (F1 & F2 & F3 & F4 & [F5 F6] & top & T1 & T2).
  set (s2 := set_blocks _ s). eapply post_mono; [by apply merge_unrefs_post| |done]. intros [] s3 (md & -> & K1 & K2 & K3).
  assert (a ≠ fa) as Hne by (intros ->; by rewrite Ha in T1).
  rewrite F5. subst e. destruct (fbo_deCache (br_blocks s0) !! _) as [de|].
  - step. eapply post_lift_Ok; [exact Hn|]. step. eapply post_lift_Ok; [exact Htc|]. step. apply post_on_fbo. cbn [fs_fbo fs_state].
    eapply post_load_dir; [exact Hb|]. step. apply post_on_fbo, post_on_blocks. unfold store. step. apply post_on_fbo. step. cbn [fs_fbo fs_state].
    eexists _, _, (de_set_BlockInfo (set_EncodedSize (de_BlockInfo de) (bi_EncodedSize (si_oldInfo si))) de). split; [done|]. split; [|split; [|split]].
    + eapply file_ready_ext; [exact Hr| |done|done|done|done|done|].
      * split; try done. simpl. rewrite dom_insert. apply subseteq_dom in Hsub. set_solver.
      * simpl. rewrite lookup_insert_ne by done. rewrite T1. by eapply lookup_weaken.
    + intros p Hp'. by rewrite lookup_singleton_ne.
    + done.
    + unfold parent_block. simpl. rewrite lookup_singleton_eq, lookup_insert_eq. by eexists.
  - step. exists ∅, (set_md md s2), c. split; [by rewrite <- Hlbc|]. split; [|split; [done|split; [done|]]].
    + eapply file_ready_ext; [exact Hr| |done|done|done|done|done|].
      * split; try done. simpl. by apply subseteq_dom.
      * simpl. rewrite T1. by eapply lookup_weaken.
    + unfold parent_block. simpl. by rewrite Hlbc, lookup_empty.
Qed.

Section attempt.
(** The file [name] of the directory [cur], which has the block [d] and in
    it the entry [c]. *)
Context (h : RootMetadata) (fb : FolderBranch) (l : list pathNode) (cur : pathNode) (name : string) (tail : BlockPointer).
Context (d : DirBlock) (c : DirEntry) (Hc : child name d = Some c) (Hfile : ei_Type (de_EntryInfo c) ≠ Dir).
Context (Hl : Forall (λ n, pn_BlockPointer n ≠ pn_BlockPointer cur) l).
Abbreviation file := (MkPath fb ((l ++ [cur]) ++ [MkPathNode tail name])).
Abbreviation fileRef := (BlockPointer_ref tail).
Abbreviation ns := (names_of l cur).

(** The file is dirty at [fa], with the top block [top] and the contents
    [cs]; [si] and [de] are what is cached of it.  No write was deferred. *)
Record unsynced (s : fbo) (fa : addr) (top : FileBlock) (cs : list (list byte)) (si : syncInfo) (de : DirEntry) : Prop := {
  sy_dir : stored (br_world s) (bp_ID (pn_BlockPointer cur)) = Some (DirB d);
  sy_tail : BlockPointer_IsValid tail = true;
  sy_file : dirty_file file tail (default [] (si_bps si)) s fa top cs;
  sy_bps : bps_ok (set_bps (default [] (si_bps si)) s);
  sy_si : fbo_unrefCache (br_blocks s) !! fileRef = Some si;
  sy_entry : de = default c (fbo_deCache (br_blocks s) !! fileRef);
  sy_kind : same_kind c de;
  sy_deferred : fbo_deferredWrites (br_blocks s) = []
}.

Lemma file_valid s : running h fb l cur s → BlockPointer_IsValid tail = true → path_isValid file = true.
Proof.
  intros Hr Ht. unfold path_isValid. cbn [p_path]. rewrite decide_False by (rewrite length_app; simpl; lia).
  rewrite forallb_app. simpl. unfold pathNode_isValid at 2. cbn [pn_BlockPointer]. rewrite Ht, andb_true_r.
  apply forallb_forall. intros n Hn. pose proof (ru_clean _ _ _ _ _ Hr) as Hcl. rewrite Forall_forall in Hcl.
  apply Hcl. by apply list_elem_of_In.
Qed.

Lemma StartSync_post fuel uid (s : fsync) fa top cs si de : running h fb l cur (fs_fbo s) → unsynced (fs_fbo s) fa top cs si de → length (fb_IPtrs top) < fuel →
  post (StartSync fuel uid file) (λ a s', a = fa ∧ start_done (fs_fbo s) fa cs cur name d (de_EntryInfo de) (fs_fbo s') ∧ saved_ok s')
    (λ s', frame (fs_fbo s) (fs_fbo s') ∧ saved_ok s') s.
Proof.
  intros Hrun [] Hfuel. destruct (tail_of fb (l ++ [cur]) (MkPathNode tail name)) as (Ht & _). pose proof (file_valid _ Hrun sy_tail0) as Hv.
  unfold StartSync. step.
  eapply post_mono; [eapply startSyncWriteLocked_post; [apply sl_put|apply sl_delete|exact Hv|exact Ht|done..]| |done].
  intros a s1 (-> & Hr & Hsv & Hun). step. pose proof Hr as (Hf & _). destruct Hrun. subst de.
  eapply post_mono; [eapply (post_preserves saved_si); [apply saved_makeLocalBcache|]| |].
  - eapply (makeLocalBcache_post (fs_fbo s) fa cs fb l cur name tail d c); [done|by rewrite (fr_lbc _ _ Hf)|by eapply reads_frame|by eapply clean_nodes_frame|done|by rewrite (stored_frame _ _ Hf)|done].
  - intros [] s2 [Hd Hs]. step. split_and!; [done|done|by eapply saved_ok_same].
  - by intros s' [[] _].
Qed.

(** What the new tree is: the file has the contents [cs]. *)
Definition synced_file (cs : list (list byte)) (de : DirEntry) (g : store_view) (e e' : DirEntry) : Prop :=
  entry_id e = bp_ID (pn_BlockPointer cur) ∧ ∃ de', same_kind c de' ∧ ei_Size (de_EntryInfo de') = ei_Size (de_EntryInfo de) ∧
    file_bytes g (entry_id de') = Some (concat cs) ∧ has_children g e' (<[name := de']> (db_Children d)).

Definition put_ready (s0 : fbo) (cs : list (list byte)) (de : DirEntry) (s : fbo) : Prop :=
  prepared s0 (set_lbc (br_lbc s0) s) ns (synced_file cs de) ∧ fbo_deferredWrites (br_blocks s) = [].

Lemma sync_dirs_post s0 fa top cs si de s : running h fb l cur s0 → unsynced s0 fa top cs si de → start_done s0 fa cs cur name d (de_EntryInfo de) s →
  post (syncBlockAndCheckEmbedLocked fa (MkPath fb (l ++ [cur])) name File true true zeroPtr)
    (λ _ s', put_ready s0 cs de s') (λ s', frame s0 (set_lbc (br_lbc s0) s')) s.
Proof.
  intros Hrun [] (lbc & s2 & de' & -> & Hr & Hlbc & Hde & Hpb). pose proof Hr as (F1 & F2 & F3 & F4 & [F5 F6] & f & T1 & T2). destruct Hrun.
  assert (∀ s', frame (set_lbc lbc s2) s' → frame s0 (set_lbc (br_lbc s0) s')) as Hf.
  { intros s' Hs'. pose proof (fr_lbc _ _ F1) as El. etrans; [exact F1|]. destruct Hs'. by split. }
  eapply post_mono; [eapply (post_preserves deferred); [apply deferred_sync|]| |by intros s' [Hs' _]; apply Hf].
  - eapply (sync_file_post (set_lbc lbc s2) fa f fb l cur name d c de'); try done.
    + eapply Forall_impl; [exact Hl|]. intros n Hn. by apply Hlbc.
    + by apply (reads_frame s0 s2).
    + by apply (clean_nodes_frame s0 s2).
    + simpl. by rewrite (stored_frame _ _ F1), F4.
    + simpl. by rewrite (stored_frame _ _ F1).
    + unfold same_kind. by rewrite Hde.
  - intros r s' [[Hpre (P1 & P2 & P3 & P4 & P5)] Hdef]. injection Hdef as E1 E2 E3 E4. split; [|simpl in *; congruence].
    split; [by apply Hf|]. split; [done|]. split; [done|]. simpl in *. rewrite <- F4. split; [done|].
    intros g Hg Hs. rewrite (stored_frame _ _ F1) in P5. eapply spine_mono; [|by apply P5].
    intros e e' (He & x & X1 & X2 & X3 & X4). split; [done|]. exists x. rewrite X2, Hde. split_and!; try done.
    apply T2; [done|by eapply serves_prefix|done].
Qed.

(** *** The puts *)

(** Nothing is visible of an attempt that failed. *)
Definition unchanged (s : fbo) : Prop := head_is h s ∧ dirty_ok (br_blocks s).

Lemma frame_unchanged s0 s : running h fb l cur s0 → frame s0 (set_lbc (br_lbc s0) s) → unchanged s.
Proof.
  intros Hrun Hf. destruct (running_head _ _ _ _ _ _ Hrun Hf) as (h' & Hh' & Hs). split; [by exists h'|].
  intros k a Ha. pose proof (fr_dirty _ _ Hf) as Hd. simpl in Hd. rewrite Hd in Ha. apply (ru_dirty _ _ _ _ _ Hrun) in Ha.
  by apply (heap_frame _ _ _ Hf) in Ha.
Qed.

Lemma FinishSync_post branch newPath ptrs b : fbo_deferredWrites b = [] →
  post (FinishSync branch file newPath ptrs) (λ r _, r = false) (λ _, False) b.
Proof.
  intros Hd. unfold FinishSync, finish_cleanup. step.
  assert (∀ l b, fbo_deferredWrites b = [] → post (go_for l (λ ptr, bcache_DeleteDirty ptr branch)) (λ _ b', fbo_deferredWrites b' = []) (λ _, False) b) as Hdel.
  { intros l' b' Hb'. apply post_for; [|done]. intros p b2 _ Hb2. by unfold bcache_DeleteDirty; step. }
  step. eapply post_mono; [by apply Hdel| |done]. intros [] b1 Hb1. do 4 step. cbv zeta. cbn [set_fileBlockStates fbo_deferredWrites]. rewrite Hb1. do 3 step.
  eapply post_mono; [by apply Hdel| |done]. intros [] b2 _. step. unfold clearCacheInfoLocked. step.
  eapply post_lift_Ok; [apply tail_of|]. steps. done.
Qed.

Lemma put_sync_post s0 cs de sched newPath (s : fsync) : running h fb l cur s0 → put_ready s0 cs de (fs_fbo s) →
  post (put_sync sched file newPath) (λ '(_, r) s', match r with
    | inl dirty => dirty = false ∧ rebuilt h (stored (br_world s0)) (fs_fbo s') ns (synced_file cs de)
    | inr _ => unchanged (fs_fbo s') end) (λ _, False) s.
Proof.
  intros Hrun [Hprep Hdw]. pose proof Hprep as (Hf & Hok & Hsw & _). pose proof Hrun as [(h1 & Hs1 & Hh1 & Hsucc) ? ? ? Hraw0 ? ? ? Hroot0]. destruct s as [s st]. cbn [fs_fbo] in *.
  pose proof (fr_raw _ _ Hf) as Hraw. simpl in Hraw.
  destruct (frame_unchanged _ _ Hrun Hf) as [Hhead Hdirty].
  unfold put_sync. step. apply post_on_fbo. cbn [fs_fbo fs_state].
  eapply post_mono; [apply doBlockPuts_post; [unfold raw_ok; by rewrite Hraw|done]| |done].
  intros [ptrs err] s1 [[w ->] Hput]. cbv beta iota. destruct err as [e|]; [by step|]. step. step. step. apply post_on_fbo. cbn [fs_fbo fs_state].
  eapply post_mono; [eapply (post_preserves (br_blocks (W := W))); [apply blocks_finalize|]| |].
  - apply (finalizeMDWriteLocked_post h1); [|done|done]. split; [by rewrite <- (fr_head _ _ Hf) in Hh1|].
    pose proof (fr_base _ _ Hf) as Hb. cbn [br_md set_lbc set_world] in *. by rewrite Hb.
  - intros [] s2 [(Hr2 & md & Hmd & Hroot) Hbl]. do 2 step. cbn [fs_fbo fs_state]. cbv zeta. step.
    apply (post_mono _ (λ (_ : unit) (s' : fsync), ∃ w', fs_fbo s' = set_world w' s2 ∧ bl_raw w' = bl_raw (br_world s2)) _ (λ _, False)); [|..|done].
    { apply post_for; [|exists (br_world s2); by destruct s2]. intros p [s' st'] _ (w' & Hs' & Hw'). cbn [fs_fbo] in Hs'. subst s'. step.
      apply post_on_fbo, post_on_world, post_try. pose proof (sl_delete (bp_ID p) w') as Hd. unfold post at 1. cbn [fs_fbo br_world set_world].
      destruct (sc_DeletePermanent (bp_ID p) w') as [[[]|e|pn] w2]; [| |done].
      - destruct Hd as [_ Hd]. step. exists w2. split; [done|congruence].
      - intros e'. step. exists w2. split; [done|congruence]. }
    intros [] [s3 st3] (w' & Hs3 & Hw'). cbn [fs_fbo] in Hs3. subst s3. apply post_on_fbo, post_on_blocks. cbn [fs_fbo fs_state].
    eapply post_mono; [apply FinishSync_post; simpl; by rewrite Hbl|..|done]. intros r b ->. step. split; [done|].
    eapply prepared_visible; [exact Hprep|done| |by exists md]. destruct (Hput eq_refl) as (A1 & A2 & A3). simpl in *.
    unfold all_put, raw_ok. simpl. rewrite Hw', Hr2. by split_and!.
  - intros s2 [(h2 & Hh2 & Hs2) Hbl] e. step. cbn [fs_fbo]. split; [|by rewrite Hbl]. exists h2. split; [done|by eapply same_head_trans].
Qed.

Lemma put_ready_si s0 cs de s f : put_ready s0 cs de s → put_ready s0 cs de (set_blocks (set_unrefCache f (br_blocks s)) s).
Proof. intros [(P1 & P2 & P3 & P4 & P5) Hd]. split; [|done]. split; [|by split_and!]. by destruct P1. Qed.

Definition synced_or_not (s0 : fbo) (cs : list (list byte)) (de : DirEntry) (r : bool + error) (s : fsync) : Prop :=
  match r with
  | inl dirty => dirty = false ∧ rebuilt h (stored (br_world s0)) (fs_fbo s) ns (synced_file cs de)
  | inr _ => unchanged (fs_fbo s) ∧ saved_ok s
  end.

Lemma sync_file_attempt sched fuel uid (s : fsync) fa top cs si de :
  running h fb l cur (fs_fbo s) → unsynced (fs_fbo s) fa top cs si de → length (fb_IPtrs top) < fuel →
  post (sync_file sched fuel uid file) (λ '(_, r), synced_or_not (fs_fbo s) cs de r) (λ s', unchanged (fs_fbo s') ∧ saved_ok s') s.
Proof.
  intros Hrun Hun Hfuel. destruct (tail_of fb (l ++ [cur]) (MkPathNode tail name)) as (Ht & Hn & Hp). unfold sync_file.
  step. eapply post_lift_Ok; [exact Ht|]. step. eapply post_mono; [by eapply StartSync_post| |].
  2:{ intros s' [Hf Hsv]. split; [|done]. eapply frame_unchanged; [done|]. etrans; [exact Hf|]. split; try done. simpl. by rewrite (fr_lbc _ _ Hf). }
  intros a [s1 st1] (-> & Hdone & Hsv). step. eapply post_lift_Ok; [exact Hp|]. step. eapply post_lift_Ok; [exact Hn|]. step.
  apply post_on_fbo. cbn [fs_fbo fs_state] in *.
  eapply post_mono; [by eapply sync_dirs_post| |intros s' Hs'; split; [by eapply frame_unchanged|done]].
  intros [np de'] s2 Hready. cbv beta iota. do 3 step. unfold on_si. apply post_on_fbo, post_on_blocks. step. cbn [fs_fbo fs_state]. step.
  eapply post_mono; [eapply (post_preserves saved_si); [apply saved_put_sync|eapply put_sync_post; [exact Hrun|by apply put_ready_si]]| |by intros s' [[] _]].
  intros [ptrs r] s3 [Hr Hs3]. assert (saved_ok s3) as Hsv3 by (by eapply saved_ok_same).
  cbv beta iota. destruct r as [dirty|e]; [by step|]. do 3 step. destruct s3 as [s3 st3]. apply post_on_fbo, post_on_world. cbn [fs_fbo fs_state] in *.
  pose proof (bl_cleanUp (br_md s3) (bst_blockPtr <$> br_bps s3) (br_world s3)) as Hcl. unfold post at 1.
  destruct (bc_cleanUpBlockState _ _ _) as [[[]|?|?] w]; [|done..]. by step.
Qed.

(** The new head has the file with the new contents, and everything else as
    it was. *)
Definition file_synced (w : W) (cs : list (list byte)) (de : DirEntry) (s' : fbo) : Prop :=
  ∃ h', br_head s' = Some h' ∧
    let g := stored (br_world s') in
    let old := pmd_Dir (rmd_data h) in
    let new := pmd_Dir (rmd_data h') in
    keeps (stored w) g ∧ look g old (ns ++ [name]) = Some c ∧
    (∃ e, look g new (ns ++ [name]) = Some e ∧ same_kind c e ∧ ei_Size (de_EntryInfo e) = ei_Size (de_EntryInfo de) ∧
      file_bytes g (entry_id e) = Some (concat cs)) ∧
    same_except g ns [name] old new.

Lemma rebuilt_file w cs de s' : stored w (bp_ID (pn_BlockPointer cur)) = Some (DirB d) →
  rebuilt h (stored w) s' ns (synced_file cs de) → file_synced w cs de s'.
Proof.
  intros Hd (h' & Hh' & Hk & Hkind & Hsp). exists h'. split; [done|]. cbv zeta. set (g := stored (br_world s')) in *.
  assert (∃ de', same_kind c de' ∧ ei_Size (de_EntryInfo de') = ei_Size (de_EntryInfo de) ∧ file_bytes g (entry_id de') = Some (concat cs) ∧
    spine g ns (pmd_Dir (rmd_data h)) (pmd_Dir (rmd_data h')) (λ e e', has_children g e (db_Children d) ∧ has_children g e' (<[name := de']> (db_Children d))))
    as (de' & K & Sz & By & Hsp').
  { assert (spine g ns (pmd_Dir (rmd_data h)) (pmd_Dir (rmd_data h')) (λ e e', ∃ de', (same_kind c de' ∧ ei_Size (de_EntryInfo de') = ei_Size (de_EntryInfo de) ∧
      file_bytes g (entry_id de') = Some (concat cs)) ∧ has_children g e (db_Children d) ∧ has_children g e' (<[name := de']> (db_Children d)))) as Hex.
    { eapply spine_mono; [|exact Hsp]. intros e e' (He & de' & K & Sz & By & Hch). exists de'. split_and!; try done. exists d. rewrite He. split; [by apply Hk|done]. }
    apply spine_exists in Hex as [de' Hex]. destruct (spine_end _ _ _ _ _ Hex) as (_ & _ & ((? & ? & ?) & _) & _).
    exists de'. split_and!; try done. eapply spine_mono; [|exact Hex]. by intros e e' [_ ?]. }
  destruct (spine_tree g ns _ _ [name] (db_Children d) (<[name := de']> (db_Children d)) Hkind Hsp') as [Hrep Hsame].
  { intros n Hn. rewrite lookup_insert_ne; [done|]. set_solver. }
  destruct (Hrep name []) as [Hold Hnew]. unfold child in Hc. rewrite Hc in Hold. rewrite lookup_insert_eq in Hnew.
  split_and!; try done. by exists de'.
Qed.

Lemma started_unsynced s s' fa top cs si de : started h s s' → unsynced s fa top cs si de → unsynced s' fa top cs si de.
Proof.
  intros (_ & _ & _ & _ & Hbl & Hraw) []. split; rewrite ?Hbl; try done.
  - unfold stored. by rewrite Hraw.
  - by eapply dirty_file_ext.
  - intros bs Hbs. simpl in Hbs. apply sy_bps0 in Hbs. simpl in *. by rewrite Hbl.
Qed.

(** C7. Syncing a dirty file of the folder, when no write is made in the
    meantime and every clean block of the file is on the server or among the
    blocks that earlier attempts readied and are still to be put (so it is
    for a first attempt; it is not after an attempt that failed with a
    recoverable error, see [recoverable_retry_loses_blocks]): if it returns,
    it says that the file is clean, and the new head shows the old tree in
    which the file has an entry of the same kind with the cached size, whose
    blocks, all of them on the server, have exactly the contents that the
    file had in memory (whether it was one block or many, whichever of them
    were dirty); everything else is as it was.  If it returns an error, the
    head is still the old one.  It does not panic. *)
Theorem syncLocked_durable (s : fsync) sched fuel fa top cs si de :
  in_folder (fs_fbo s) h fb l cur → unsynced (fs_fbo s) fa top cs si de → length (fb_IPtrs top) < fuel →
  pn_BlockPointer <$> head (l ++ [cur]) = Some (DirEntry_BlockPointer (pmd_Dir (rmd_data h))) →
  post (syncLocked sched fuel file) (λ dirty s', dirty = false ∧ file_synced (br_world (fs_fbo s)) cs de (fs_fbo s'))
    (λ s', head_is h (fs_fbo s')) s.
Proof.
  intros Hin Hun Hfuel Hroot. destruct s as [s st]. cbn [fs_fbo] in *.
  destruct (tail_of fb (l ++ [cur]) (MkPathNode tail name)) as (Ht & Hn & Hp). cbn [pn_BlockPointer] in Ht.
  pose proof (if_head _ _ _ _ _ Hin) as Hh. unfold syncLocked. do 3 step. cbn [fs_fbo].
  assert (IsDirty file (br_blocks s) = Ok true) as Hdirty.
  { unfold IsDirty, bcache_IsDirty. rewrite Ht. simpl. pose proof (df_dirty _ _ _ _ _ _ _ (sy_file _ _ _ _ _ _ Hun)) as Hd.
    unfold path_branch in Hd. cbn [p_FolderBranch] in Hd. by rewrite Hd, bool_decide_true by (by eexists). }
  eapply post_lift_Ok; [exact Hdirty|]. cbn [negb]. step. apply post_on_fbo. cbn [fs_fbo fs_state].
  eapply post_mono; [by apply getMDForWriteLocked_post, (if_handle _ _ _ _ _ Hin)| |done]. intros [] s1 Hst.
  destruct (started_running _ _ _ _ _ _ Hin Hst) as [Hrun Hsto]. apply (started_unsynced s s1) in Hun; [|done]. do 2 step. cbn [fs_fbo p_path].
  destruct ((l ++ [cur]) ++ [_]) as [|r rest] eqn:El; [by destruct l|].
  assert (pn_BlockPointer r = DirEntry_BlockPointer (root_of s1)) as Hr.
  { rewrite (ru_root _ _ _ _ _ Hrun). destruct l; simpl in *; injection El as <- _; by injection Hroot. }
  rewrite decide_False by (rewrite Hr; by intros []). rewrite <- El in Ht |- *. step. apply post_lift.
  destruct cfg_CurrentUser as [[uname uid]|e|p] eqn:Hu; [|eapply (running_head _ _ _ _ s1 s1); [exact Hrun|reflexivity]|by apply bl_user in Hu].
  cbv beta iota. step. step. cbn [fs_fbo]. do 2 step.
  assert (∀ ptrs e s2, unchanged (fs_fbo s2) → saved_ok s2 → post (A := bool) (_ ← CleanupSyncState file ptrs e; fail e)
    (λ dirty s', dirty = false ∧ file_synced (br_world s) cs de (fs_fbo s')) (λ s', head_is h (fs_fbo s')) s2) as Hcl.
  { intros ptrs e s2 [Hh2 Hd2] Hsv. step. eapply post_mono; [by eapply CleanupSyncState_post| |done]. intros [] s3 Hs3. by step. }
  eapply post_mono; [by eapply sync_file_attempt| |].
  - intros [ptrs [dirty|e]] s2 Hs2; cbn [fs_fbo] in Hs2; cbv beta iota.
    + step. destruct Hs2 as [-> Hreb]. split; [done|]. rewrite Hsto in Hreb. apply rebuilt_file; [|done]. rewrite <- Hsto. apply Hun.
    + by apply Hcl; apply Hs2.
  - intros s2 [Hs2 Hsv] e. cbv beta iota. by apply Hcl.
Qed.
End attempt.
End durable.
