(* ===== verification/FileSyncExamples.v ===== *)
(** * FileSyncExamples: a file that is synced

    In the folder of [DirExamples] the file "f" was extended to three
    blocks: one is on the server, one was readied by an attempt that failed,
    and one is dirty. *)

From Stdlib Require Import ZArith Lia.
From S2P Require Import Prelude Types Errors GoStd Ids RekeyQueue CryptoCommon Splitter DataTypes Ops ConflictInfo Handles KeyBundles Metadata FolderBlocks FileIO FolderBlocksSpec Serial Lru MDUtil MDUtilSpec BlockManager BlockManagerSpec DirOps DirWrites DirLaws DirSpec DirThms DirEffects DirExamples FileSync FileSyncSpec.

#[local] Existing Instances dx_FileBlock dx_DirBlock dx_BlockChanges dx_PrivateMetadata dx_BareRootMetadata dx_TlfHandle.
#[local] Existing Instances dx_FileBlock_total dx_DirBlock_total dx_BlockChanges_total dx_PrivateMetadata_total dx_BareRootMetadata_total dx_TlfHandle_total.
#[local] Existing Instances dx_config dx_branch dx_laws.
#[local] Instance fx_syncOp : Codec syncOp := ser_codec.
#[local] Instance fx_syncOp_total : EncodeTotal syncOp.
Proof. intros b. by eexists. Qed.

#[local] Instance fx_sync : SyncConfig (gmap BlockID (list byte)) := {|
  sc_PutPermanent _ _ := mret tt;
  sc_DeletePermanent _ := mret tt
|}.
#[local] Instance fx_laws : SyncLaws (gmap BlockID (list byte)).
Proof. split; by intros. Qed.

(** ** The file *)

Definition fx_block (c : list byte) : FileBlock := MkFileBlock (MkCommonBlock false 0) c [].
Definition fx_data (c : list byte) : list byte := x03 :: ser (FileB (fx_block c)).
Definition fx_ptr (data : list byte) : BlockPointer := MkBlockPointer (dx_hash data) 1%Z 1%Z "u" EmptyString zeroBlockRefNonce.
Definition fx_iptr (data : list byte) (size off : Z) : IndirectFilePtr := MkIndirectFilePtr (MkBlockInfo (fx_ptr data) size) off.

(** The contents "abc", "de" and "f"; the last block has a temporary id. *)
Definition fx_top : FileBlock :=
  MkFileBlock (MkCommonBlock true 0) [] [fx_iptr (fx_data [x61; x62; x63]) 10 0; fx_iptr (fx_data [x64; x65]) 10 3; fx_iptr [x09] 0 5].
Definition fx_contents : list (list byte) := [[x61; x62; x63]; [x64; x65]; [x66]].
Definition fx_tail : BlockPointer := DirEntry_BlockPointer (dx_entry File x02 3%Z).
Definition fx_si : syncInfo :=
  MkSyncInfo (MkBlockInfo fx_tail 10) (MkSyncOp zeroOpCommon (MkBlockUpdate fx_tail zeroPtr) [MkWriteRange 3 3]) [MkBlockInfo fx_tail 10]
    (Some [MkBlockState (fx_ptr (fx_data [x64; x65])) 3%positive (fx_data [x64; x65])]) 0 0.
Definition fx_entry : DirEntry := dx_entry File x02 6%Z.

Definition fx_world : gmap BlockID (list byte) := <[dx_hash (fx_data [x61; x62; x63]) := fx_data [x61; x62; x63]]> dx_world.
Definition fx_blocks : folderBlockOps :=
  MkFbo {[1%positive := FileB fx_top; 2%positive := FileB (fx_block [x66]); 3%positive := FileB (fx_block [x64; x65])]}
    {[dirty_key fx_tail MasterBranch := 1%positive; dirty_key (fx_ptr [x09]) MasterBranch := 2%positive]}
    ∅ {[BlockPointer_ref fx_tail := fx_si]} {[BlockPointer_ref fx_tail := fx_entry]} [] [] false [] 0.
Definition fx_start : fileSync (gmap BlockID (list byte)) :=
  MkFileSync (MkBranch fx_blocks (Some dx_head) false NullBranchID fx_world dx_head ∅ []) zeroSyncState.
Definition fx_file : path := MkPath dx_fb (([dx_root] ++ [dx_a]) ++ [MkPathNode fx_tail "f"]).
Definition fx_dir : DirBlock := MkDirBlock (MkCommonBlock false 0) {["f"%string := dx_entry File x02 3%Z]} [].

Lemma fx_in_folder : in_folder (fs_fbo fx_start) dx_head dx_fb [dx_root] dx_a.
Proof.
  split.
  - done.
  - by eexists.
  - intros id data. simpl. unfold fx_world, dx_world. rewrite !lookup_insert_Some, lookup_singleton_Some. naive_solver.
  - intros ptr d. unfold stored. simpl. unfold fx_world. rewrite lookup_insert. case_decide as Hid; [|by intros ->].
    by vm_compute.
  - intros k a. simpl. rewrite lookup_insert_Some, lookup_singleton_Some. intros [[_ <-]|[_ [_ <-]]]; vm_compute; by eexists.
  - repeat constructor.
  - simpl. split; [done|]. eexists. split; [vm_compute; reflexivity|]. eexists. split; [vm_compute; reflexivity|].
    split; [done|]. eexists. split; [vm_compute; reflexivity|done].
Qed.

Lemma fx_clean data off c :
  fbo_dirty fx_blocks !! dirty_key (fx_ptr data) MasterBranch = None → BlockPointer_IsValid (fx_ptr data) = true →
  (∀ g, keeps (stored fx_world) g → serves g (default [] (si_bps fx_si)) → g (dx_hash data) = Some (FileB (fx_block c))) →
  child_is fx_file (default [] (si_bps fx_si)) (fs_fbo fx_start) 1%positive (fx_iptr data 10 off) c.
Proof.
  intros Hd Hv Hg. split; [done|]. change (path_branch _) with MasterBranch. change (br_blocks _) with fx_blocks.
  change (iptr _) with (fx_ptr data). rewrite Hd. intros g Hk Hs. unfold block_bytes. cbn [bp_ID fx_ptr]. by rewrite (Hg g Hk Hs).
Qed.

Lemma fx_dirty data off (a : addr) c :
  fbo_dirty fx_blocks !! dirty_key (fx_ptr data) MasterBranch = Some a → a ≠ 1%positive → BlockPointer_IsValid (fx_ptr data) = true →
  fbo_heap fx_blocks !! a = Some (FileB (fx_block c)) →
  child_is fx_file (default [] (si_bps fx_si)) (fs_fbo fx_start) 1%positive (fx_iptr data 0 off) c.
Proof.
  intros Hd Ha Hv Hb. split; [done|]. change (path_branch _) with MasterBranch. change (br_blocks _) with fx_blocks.
  change (iptr _) with (fx_ptr data). rewrite Hd. split; [done|]. split; [done|]. exists (fx_block c). split; [exact Hb|by split].
Qed.

Lemma fx_unsynced : unsynced dx_fb [dx_root] dx_a "f" fx_tail fx_dir (dx_entry File x02 3%Z)
  (fs_fbo fx_start) 1%positive fx_top fx_contents fx_si fx_entry.
Proof.
  split; [vm_compute; reflexivity|done| | |vm_compute; reflexivity|vm_compute; reflexivity|done|done].
  - split; [vm_compute; reflexivity..|done| | |].
    + intros _ i j p q Hij Hp Hq. destruct i as [|[|[|i]]], j as [|[|[|j]]]; simplify_eq/=; lia.
    + intros _. apply (bool_decide_unpack _). vm_compute. exact I.
    + intros _. apply Forall2_cons. split; [|apply Forall2_cons; split; [|apply Forall2_cons; split; [|constructor]]].
      * apply fx_clean; [vm_compute; reflexivity|vm_compute; reflexivity|]. intros g Hk _. apply Hk. vm_compute. reflexivity.
      * apply fx_clean; [vm_compute; reflexivity|vm_compute; reflexivity|]. intros g _ Hs.
        etrans; [apply (Hs (MkBlockState (fx_ptr (fx_data [x64; x65])) 3%positive (fx_data [x64; x65]))); [by apply list_elem_of_singleton|done]|vm_compute; reflexivity].
      * apply (fx_dirty _ _ 2%positive); [vm_compute; reflexivity|done|done|vm_compute; reflexivity].
  - intros bs. cbn [set_bps br_bps]. intros ->%list_elem_of_singleton. split; [vm_compute; by eexists|done].
Qed.

Lemma fx_sync_Ok : is_Ok (fst (syncLocked dx_sched 4 fx_file fx_start)) = true.
Proof. vm_compute. reflexivity. Qed.

(** The file is "abcdef" on the server. *)
Lemma syncLocked_durable_witness :
  ∃ s', syncLocked dx_sched 4 fx_file fx_start = (Ok false, s') ∧
    file_synced dx_head [dx_root] dx_a "f" (dx_entry File x02 3%Z) fx_world fx_contents fx_entry (fs_fbo s').
Proof.
  destruct (post_Ok _ _ _ _ (syncLocked_durable dx_head dx_fb [dx_root] dx_a "f" fx_tail fx_dir (dx_entry File x02 3%Z) eq_refl ltac:(done)
    ltac:(by repeat constructor) fx_start dx_sched 4 1%positive fx_top fx_contents fx_si fx_entry fx_in_folder fx_unsynced ltac:(simpl; lia) eq_refl)
    fx_sync_Ok) as (dirty & s' & Hs & -> & Hr).
  exists s'. split; [exact Hs|exact Hr].
Defined.

(** ** Retries *)

(** The folder on a server that answers [r] to the puts of blocks. *)
Definition fx_branch (r : go (gmap BlockID (list byte)) unit) : BranchConfig (gmap BlockID (list byte)) := {|
  bc_folderBranch := bc_folderBranch; bc_MaxNameBytes := bc_MaxNameBytes; bc_MaxDirBytes := bc_MaxDirBytes;
  bc_CheckForKnownPtr := bc_CheckForKnownPtr; bc_DeleteKnownPtr := bc_DeleteKnownPtr; bc_Ready := bc_Ready;
  bc_PutBlock _ _ _ := r;
  bc_CacheBlock := bc_CacheBlock; bc_MakeBlockRefNonce := bc_MakeBlockRefNonce; bc_MakeRandomBranchID := bc_MakeRandomBranchID;
  bc_Now := bc_Now; bc_PutMD := bc_PutMD; bc_PutUnmergedMD := bc_PutUnmergedMD; bc_PruneBranch := bc_PruneBranch;
  bc_CacheMD := bc_CacheMD; bc_Resolve := bc_Resolve; bc_Enqueue := bc_Enqueue; bc_archiveUnrefBlocks := bc_archiveUnrefBlocks;
  bc_cleanUpBlockState := bc_cleanUpBlockState; bc_notifyBatch := bc_notifyBatch; bc_tlfHandleChange := bc_tlfHandleChange;
  bc_registerForUpdates := bc_registerForUpdates; bc_GetOrCreate := bc_GetOrCreate; bc_GetUnmergedForTLF := bc_GetUnmergedForTLF; bc_GetForTLF := bc_GetForTLF;
  bc_identifyOnce := bc_identifyOnce; bc_Rekey := bc_Rekey; bc_PutTLFCryptKey := bc_PutTLFCryptKey
|}.
Definition fx_failing (e : error) := syncLocked (H2 := fx_branch (fail e)) dx_sched 4 fx_file.

(** The file has the dirty blocks "abc" and "def". *)
Definition fx_fresh : fileSync (gmap BlockID (list byte)) :=
  let top := MkFileBlock (MkCommonBlock true 0) [] [fx_iptr [x08] 0 0; fx_iptr [x09] 0 3] in
  let si := MkSyncInfo (MkBlockInfo fx_tail 10) (MkSyncOp zeroOpCommon (MkBlockUpdate fx_tail zeroPtr) [MkWriteRange 0 6]) [MkBlockInfo fx_tail 10] None 0 0 in
  let b := MkFbo {[1%positive := FileB top; 2%positive := FileB (fx_block [x61; x62; x63]); 3%positive := FileB (fx_block [x64; x65; x66])]}
    {[dirty_key fx_tail MasterBranch := 1%positive; dirty_key (fx_ptr [x08]) MasterBranch := 2%positive; dirty_key (fx_ptr [x09]) MasterBranch := 3%positive]}
    ∅ {[BlockPointer_ref fx_tail := si]} {[BlockPointer_ref fx_tail := fx_entry]} [] [] false [] 0 in
  MkFileSync (MkBranch b (Some dx_head) false NullBranchID dx_world dx_head ∅ []) zeroSyncState.

(** What the entry of the file in the head of the folder leads to. *)
Definition fx_on_server (s : fileSync (gmap BlockID (list byte))) : option (option (list byte)) :=
  let g := stored (br_world (fs_fbo s)) in
  h ← br_head (fs_fbo s); (λ e, file_bytes g (entry_id e)) <$> look g (pmd_Dir (rmd_data h)) ["a"; "f"]%string.

(** When the server was not reached, the next attempt puts the blocks that
    the first one readied. *)
Lemma fx_retry :
  let '(r1, s1) := fx_failing (ErrorString "no route") fx_fresh in
  let '(r2, s2) := syncLocked dx_sched 4 fx_file s1 in
  (r1, fx_on_server s1, r2, fx_on_server s2) =
    (Err (ErrorString "no route"), Some (Some [x61; x62; x63]), Ok false, Some (Some [x61; x62; x63; x64; x65; x66])).
Proof. vm_compute. reflexivity. Qed.

(** When the attempt after that fails because the server does not have a
    block any more, those blocks are forgotten: the third attempt succeeds,
    and the head has a file whose blocks are nowhere on the server. *)
Lemma recoverable_retry_loses_blocks :
  let '(r1, s1) := fx_failing (ErrorString "no route") fx_fresh in
  let '(r2, s2) := fx_failing (BServerErrorBlockNonExistent "gone") s1 in
  let '(r3, s3) := syncLocked dx_sched 4 fx_file s2 in
  (r1, r2, r3, fx_on_server s3) =
    (Err (ErrorString "no route"), Err (BServerErrorBlockNonExistent "gone"), Ok false, Some None).
Proof. vm_compute. reflexivity. Qed.
