(* ===== verification/ResolverQueue.v ===== *)
(** * ResolverQueue: which conflicts are being resolved
    ([conflict_resolver.go])

    [Resolve] sends the revisions of a conflict to the goroutine
    [processInput], which starts a goroutine for every conflict that is new
    and cancels the resolution before it.  The program is a function from
    events to states: the parts of the goroutines between two points at
    which they wait or can be interrupted.  What a resolution does is in
    the other [Resolver] files; here it is the interval between [EvBegin] and [EvReturn],
    in which it may record the revisions it found ([updateCurrInput]).  A
    [doResolve] that panics or does not return has no event here. *)

From Stdlib Require Import ZArith Lia.
From S2P Require Import Prelude Types Errors Ids RekeyQueue DataTypes Ops Metadata.

(** ** The state *)

Record conflictInput := MkConflictInput { ci_unmerged : MetadataRevision; ci_merged : MetadataRevision }.
#[global] Instance conflictInput_eq_dec : EqDecision conflictInput.
Proof. solve_decision. Defined.

(** Where the goroutine of a resolution is. *)
Inductive resolutionPhase :=
| Waiting      (* at the select, or before it *)
| Resolving    (* in [doResolve] *)
| Closed       (* [done] is closed, before [resolveGroup.Done] *)
| Gone.
#[global] Instance resolutionPhase_eq_dec : EqDecision resolutionPhase.
Proof. solve_decision. Defined.

(** A resolution: its input, the resolution whose end it waits for, whether
    its context is canceled. *)
Record resolution := MkResolution {
  rs_input : conflictInput;
  rs_waitChan : option nat;
  rs_canceled : bool;
  rs_phase : resolutionPhase
}.

(** The local variables of [processInput]: the resolution that [cancel]
    cancels, and the one that closes [prevCRDone]. *)
Record processor := MkProcessor { p_cancel : option nat; p_prevCRDone : option nat }.
Definition newProcessor : processor := MkProcessor None None.

(** [cr_inputChan] is the channel with the goroutine that reads from it;
    [cr_sends] are the inputs that calls of [Resolve] are sending to it, and
    [cr_closed] the goroutines whose channel was closed and which have not
    returned yet. *)
Record ConflictResolver := MkConflictResolver {
  cr_inputChan : option processor;
  cr_sends : list conflictInput;
  cr_closed : list processor;
  cr_resolveGroup : RepeatedWaitGroup;
  cr_currInput : conflictInput;
  cr_resolutions : list resolution
}.

Definition set_currInput ci s := MkConflictResolver (cr_inputChan s) (cr_sends s) (cr_closed s) (cr_resolveGroup s) ci (cr_resolutions s).
Definition set_resolutions rs s := MkConflictResolver (cr_inputChan s) (cr_sends s) (cr_closed s) (cr_resolveGroup s) (cr_currInput s) rs.
Definition set_group g s := MkConflictResolver (cr_inputChan s) (cr_sends s) (cr_closed s) g (cr_currInput s) (cr_resolutions s).
Definition set_sends l s := MkConflictResolver (cr_inputChan s) l (cr_closed s) (cr_resolveGroup s) (cr_currInput s) (cr_resolutions s).
Definition set_inputChan p s := MkConflictResolver p (cr_sends s) (cr_closed s) (cr_resolveGroup s) (cr_currInput s) (cr_resolutions s).
Definition set_closed l s := MkConflictResolver (cr_inputChan s) (cr_sends s) l (cr_resolveGroup s) (cr_currInput s) (cr_resolutions s).

Definition at_resolution_phase (p : resolutionPhase) (r : resolution) : resolution :=
  MkResolution (rs_input r) (rs_waitChan r) (rs_canceled r) p.
Definition cancel_resolution (r : resolution) : resolution :=
  MkResolution (rs_input r) (rs_waitChan r) true (rs_phase r).

(** ** The operations *)

(** [startProcessing] and [stopProcessing], under the write lock of
    [inputChanLock]. *)
Definition startProcessing (s : ConflictResolver) : ConflictResolver :=
  match cr_inputChan s with Some _ => s | None => set_inputChan (Some newProcessor) s end.
Definition stopProcessing (s : ConflictResolver) : ConflictResolver :=
  match cr_inputChan s with
  | None => s
  | Some p => set_closed (cr_closed s ++ [p]) (set_inputChan None s)
  end.

Definition NewConflictResolver : ConflictResolver :=
  startProcessing (MkConflictResolver None [] [] newRwg
    (MkConflictInput MetadataRevisionUninitialized MetadataRevisionUninitialized) []).

(** [Resolve], up to where it waits for the other side of the channel. *)
Definition Resolve (ci : conflictInput) (s : ConflictResolver) : res ConflictResolver :=
  match cr_inputChan s with
  | None => Ok s
  | Some _ => g ← rwg_Add 1 (cr_resolveGroup s); Ok (set_sends (cr_sends s ++ [ci]) (set_group g s))
  end.

(** [cancel()], if there is one. *)
Definition cancel_current (p : processor) (rs : list resolution) : list resolution :=
  match p_cancel p with Some i => alter cancel_resolution i rs | None => rs end.

(** Whether the input is interesting. *)
Definition valid_input (ci curr : conflictInput) : bool :=
  negb (bool_decide (ci_unmerged ci <= ci_unmerged curr)%Z && bool_decide (ci_merged ci <= ci_merged curr)%Z).

(** The body of the loop of [processInput]. *)
Definition process_one (p : processor) (ci : conflictInput) (s : ConflictResolver) : res ConflictResolver :=
  if valid_input ci (cr_currInput s) then
    let rs := cancel_current p (cr_resolutions s) in
    let waitChan := match p_cancel p with Some _ => p_prevCRDone p | None => None end in
    let i := length rs in
    Ok (set_inputChan (Some (MkProcessor (Some i) (Some i)))
          (set_resolutions (rs ++ [MkResolution ci waitChan false Waiting]) (set_currInput ci s)))
  else g ← rwg_Done (cr_resolveGroup s); Ok (set_group g s).

(** [updateCurrInput]; the arguments are the revisions of the last unmerged
    and of the last merged metadata, if there are any. *)
Definition lower_revision : error := Errorf "revision is lower than the expected revision".
Definition updateCurrInput (canceled : bool) (unmerged merged : option MetadataRevision) (curr : conflictInput)
    : res conflictInput :=
  if canceled then Err Canceled
  else
    curr ← (match unmerged with
            | Some rev => if decide (rev < ci_unmerged curr)%Z then Err lower_revision
                          else Ok (MkConflictInput rev (ci_merged curr))
            | None => Ok curr
            end);
    match merged with
    | Some rev => if decide (rev < ci_merged curr)%Z then Err lower_revision
                  else Ok (MkConflictInput (ci_unmerged curr) rev)
    | None => Ok curr
    end.

(** ** The program *)

Inductive resolverEvent :=
| EvStart                                (* [Restart] *)
| EvStop                                 (* [Pause] and [Shutdown] *)
| EvResolve (ci : conflictInput)
| EvReceive (k : nat)                    (* [processInput] receives the [k]th input being sent *)
| EvExit (k : nat)                       (* [processInput] returns *)
| EvBegin (i : nat)                      (* a resolution goes on to [doResolve] *)
| EvGiveUp (i : nat)                     (* a resolution is canceled before it starts *)
| EvUpdate (i : nat) (unmerged merged : option MetadataRevision)
| EvReturn (i : nat)                     (* [doResolve] returns, and [done] is closed *)
| EvDone (i : nat).                      (* [resolveGroup.Done] *)

(** The resolution has closed its [done]. *)
Definition is_done (rs : list resolution) (i : nat) : bool :=
  match rs !! i with
  | Some r => match rs_phase r with Closed | Gone => true | _ => false end
  | None => false
  end.
Definition may_begin (rs : list resolution) (r : resolution) : bool :=
  match rs_waitChan r with None => true | Some j => is_done rs j end.

Definition set_phase (i : nat) (p : resolutionPhase) (s : ConflictResolver) : ConflictResolver :=
  set_resolutions (alter (at_resolution_phase p) i (cr_resolutions s)) s.

(** The steps of a resolution's goroutine. *)
Definition resolution_step (ev : resolverEvent) (s : ConflictResolver) : option (res ConflictResolver) :=
  match ev with
  | EvBegin i =>
      r ← cr_resolutions s !! i;
      if bool_decide (rs_phase r = Waiting) && may_begin (cr_resolutions s) r
      then Some (Ok (set_phase i Resolving s)) else None
  | EvGiveUp i =>
      r ← cr_resolutions s !! i;
      if bool_decide (rs_phase r = Waiting) && rs_canceled r && bool_decide (is_Some (rs_waitChan r))
      then Some (Ok (set_phase i Closed s)) else None
  | EvUpdate i unmerged merged =>
      r ← cr_resolutions s !! i;
      if bool_decide (rs_phase r = Resolving) then
        Some (Ok (match updateCurrInput (rs_canceled r) unmerged merged (cr_currInput s) with
                  | Ok ci => set_currInput ci s
                  | _ => s
                  end))
      else None
  | EvReturn i =>
      r ← cr_resolutions s !! i;
      if bool_decide (rs_phase r = Resolving) then Some (Ok (set_phase i Closed s)) else None
  | EvDone i =>
      r ← cr_resolutions s !! i;
      if bool_decide (rs_phase r = Closed)
      then Some (g ← rwg_Done (cr_resolveGroup s); Ok (set_group g (set_phase i Gone s))) else None
  | _ => None
  end.

(** One step; [None] when it cannot happen.  The lock of [inputChanLock]
    that a sender holds keeps the channel from being closed. *)
Definition resolver_step (ev : resolverEvent) (s : ConflictResolver) : option (res ConflictResolver) :=
  match ev with
  | EvStart => if decide (cr_sends s = []) then Some (Ok (startProcessing s)) else None
  | EvStop => if decide (cr_sends s = []) then Some (Ok (stopProcessing s)) else None
  | EvResolve ci => Some (Resolve ci s)
  | EvReceive k =>
      p ← cr_inputChan s;
      ci ← cr_sends s !! k;
      Some (process_one p ci (set_sends (delete k (cr_sends s)) s))
  | EvExit k =>
      p ← cr_closed s !! k;
      Some (Ok (set_closed (delete k (cr_closed s)) (set_resolutions (cancel_current p (cr_resolutions s)) s)))
  | _ => resolution_step ev s
  end.

Fixpoint run_resolver (evs : list resolverEvent) (s : ConflictResolver) : option (res ConflictResolver) :=
  match evs with
  | [] => Some (Ok s)
  | ev :: evs =>
      match resolver_step ev s with
      | Some (Ok s') => run_resolver evs s'
      | r => r
      end
  end.

Inductive reachable : ConflictResolver → Prop :=
| reachable_new : reachable NewConflictResolver
| reachable_step s ev s' : reachable s → resolver_step ev s = Some (Ok s') → reachable s'.

(** ** Counting the outstanding resolutions *)

Definition unfinished (r : resolution) : Prop := rs_phase r ≠ Gone.
#[global] Instance unfinished_dec r : Decision (unfinished r).
Proof. unfold unfinished. apply _. Defined.

Definition outstanding (s : ConflictResolver) : nat :=
  length (cr_sends s) + length (filter unfinished (cr_resolutions s)).

Lemma rwg_Add_num d w : (0 <= rwg_num w + d)%Z →
  ∃ w', rwg_Add d w = Ok w' ∧ rwg_num w' = (rwg_num w + d)%Z ∧ (rwg_isIdleCh w' = None ↔ (rwg_num w + d = 0)%Z).
Proof.
  intros Hd. unfold rwg_Add. destruct (rwg_isIdleCh w); (case_decide; [lia|]);
    (case_decide; eexists; (split; [done|]); simpl; (split; [done|]); split; (done || lia)).
Qed.

(** The group counts what is outstanding, and has a channel to wait for
    exactly when something is. *)
Definition group_ok (s : ConflictResolver) : Prop :=
  rwg_num (cr_resolveGroup s) = Z.of_nat (outstanding s) ∧
  (rwg_isIdleCh (cr_resolveGroup s) = None ↔ outstanding s = 0).

Lemma group_ok_same s s' :
  cr_resolveGroup s' = cr_resolveGroup s → outstanding s' = outstanding s → group_ok s → group_ok s'.
Proof. unfold group_ok. by intros -> ->. Qed.

Lemma group_ok_add d s s' g : group_ok s → rwg_Add d (cr_resolveGroup s) = Ok g → cr_resolveGroup s' = g →
  Z.of_nat (outstanding s') = (Z.of_nat (outstanding s) + d)%Z → group_ok s'.
Proof.
  intros [Hn _] Hg Hs Ho. destruct (rwg_Add_num d (cr_resolveGroup s)) as (g' & Hg' & Hn' & Hi); [lia|].
  rewrite Hg in Hg'. injection Hg' as <-. split; rewrite Hs; [lia|]. rewrite Hi. lia.
Qed.

Lemma filter_alter_same (P : resolution → Prop) `{!∀ r, Decision (P r)} f i (rs : list resolution) :
  (∀ r, rs !! i = Some r → P (f r) ↔ P r) → length (filter P (alter f i rs)) = length (filter P rs).
Proof.
  revert i. induction rs as [|r rs IH]; intros i Hf; [done|]. destruct i as [|i]; simpl.
  - rewrite !filter_cons. pose proof (Hf r eq_refl). repeat case_decide; simpl; tauto.
  - rewrite !filter_cons. case_decide; simpl; [f_equal|]; apply IH; exact Hf.
Qed.

Lemma filter_alter_drop (P : resolution → Prop) `{!∀ r, Decision (P r)} f i (rs : list resolution) r :
  rs !! i = Some r → P r → ¬ P (f r) → length (filter P rs) = S (length (filter P (alter f i rs))).
Proof.
  revert i. induction rs as [|r' rs IH]; intros i Hi HP HnP; [done|]. destruct i as [|i]; simpl in *.
  - injection Hi as ->. rewrite !filter_cons. by rewrite decide_True, decide_False.
  - rewrite !filter_cons. change (list_alter f i rs) with (alter f i rs). specialize (IH i Hi HP HnP). case_decide; cbn [length]; lia.
Qed.

Lemma outstanding_phase s i r p : cr_resolutions s !! i = Some r → rs_phase r ≠ Gone → p ≠ Gone →
  outstanding (set_phase i p s) = outstanding s.
Proof.
  intros Hi Hr Hp. unfold outstanding, set_phase. simpl. f_equal. apply filter_alter_same.
  intros r' Hr'. rewrite Hi in Hr'. injection Hr' as <-. unfold unfinished. by destruct r.
Qed.

Lemma outstanding_cancel p s : 
  length (filter unfinished (cancel_current p (cr_resolutions s))) = length (filter unfinished (cr_resolutions s)).
Proof. unfold cancel_current. destruct (p_cancel p); [|done]. by apply filter_alter_same. Qed.

Lemma process_one_group p ci s : group_ok (set_sends (ci :: cr_sends s) s) →
  ∃ s', process_one p ci s = Ok s' ∧ group_ok s'.
Proof.
  intros Hg. unfold process_one. destruct (valid_input _ _).
  - eexists. split; [done|]. eapply group_ok_same; [| |exact Hg]; [done|]. unfold outstanding. simpl.
    rewrite filter_app, length_app, outstanding_cancel. simpl. lia.
  - pose proof Hg as [Hn _]. unfold outstanding in Hn. simpl in Hn.
    destruct (rwg_Add_num (-1) (cr_resolveGroup s)) as (g & Hadd & _); [lia|]. unfold rwg_Done. rewrite Hadd. simpl.
    eexists. split; [done|]. eapply (group_ok_add (-1) _ _ g Hg Hadd); [done|]. unfold outstanding. simpl. lia.
Qed.

(** A step of a resolution: which one, and what it does. *)
Ltac resolution_cases H :=
  simpl in H;
  match type of H with
  | (?o ≫= _) = _ => let r := fresh "r" in let E := fresh "Hi" in
      destruct o as [r|] eqn:E; [|done]; simpl in H;
      repeat match type of H with context [if ?b then _ else _] => let Eb := fresh "Hc" in destruct b eqn:Eb; [|done] end
  end.

Lemma resolver_step_group s ev r : group_ok s → resolver_step ev s = Some r → ∃ s', r = Ok s' ∧ group_ok s'.
Proof.
  intros Hg Hs. destruct ev as [| |ci|k|k|i|i|i u m|i|i]; simpl in Hs.
  - case_decide; [|done]. injection Hs as <-. eexists. split; [done|]. unfold startProcessing.
    destruct (cr_inputChan s); [done|]. by apply (group_ok_same s).
  - case_decide; [|done]. injection Hs as <-. eexists. split; [done|]. unfold stopProcessing.
    destruct (cr_inputChan s); [|done]. by apply (group_ok_same s).
  - injection Hs as <-. unfold Resolve. destruct (cr_inputChan s); [|by exists s].
    pose proof Hg as [Hn _]. destruct (rwg_Add_num 1 (cr_resolveGroup s)) as (g & Hadd & _); [lia|].
    rewrite Hadd. eexists. split; [done|]. eapply (group_ok_add 1 _ _ g Hg Hadd); [done|].
    unfold outstanding. simpl. rewrite length_app. simpl. lia.
  - destruct (cr_inputChan s) as [p|]; [|done]. simpl in Hs. destruct (cr_sends s !! k) as [ci|] eqn:Hk; [|done].
    injection Hs as <-. apply process_one_group. eapply group_ok_same; [| |exact Hg]; [done|]. unfold outstanding. simpl.
    rewrite (length_delete _ k) by done. apply lookup_lt_Some in Hk. lia.
  - destruct (cr_closed s !! k) as [p|]; [|done]. injection Hs as <-. eexists. split; [done|].
    eapply group_ok_same; [| |exact Hg]; [done|]. unfold outstanding. simpl. by rewrite outstanding_cancel.
  - resolution_cases Hs. injection Hs as <-. apply andb_true_iff in Hc as [Hp%bool_decide_eq_true _].
    eexists. split; [done|]. apply (group_ok_same s); [done| |exact Hg]. eapply outstanding_phase; [done| |done]. congruence.
  - resolution_cases Hs. injection Hs as <-. apply andb_true_iff in Hc as [[Hp%bool_decide_eq_true _]%andb_true_iff _].
    eexists. split; [done|]. apply (group_ok_same s); [done| |exact Hg]. eapply outstanding_phase; [done| |done]. congruence.
  - resolution_cases Hs. injection Hs as <-. eexists. split; [done|].
    destruct (updateCurrInput _ _ _ _); [by apply (group_ok_same s)|done..].
  - resolution_cases Hs. injection Hs as <-. apply bool_decide_eq_true in Hc.
    eexists. split; [done|]. apply (group_ok_same s); [done| |exact Hg]. eapply outstanding_phase; [done| |done]. congruence.
  - resolution_cases Hs. injection Hs as <-. apply bool_decide_eq_true in Hc. pose proof Hg as [Hn _].
    assert (unfinished r0) as Hu by (unfold unfinished; congruence).
    pose proof (filter_alter_drop unfinished (at_resolution_phase Gone) i _ _ Hi Hu ltac:(intros Hn0; by apply Hn0)) as Hd.
    unfold outstanding in Hn.
    destruct (rwg_Add_num (-1) (cr_resolveGroup s)) as (g & Hadd & _); [lia|]. unfold rwg_Done. rewrite Hadd.
    eexists. split; [done|]. eapply (group_ok_add (-1) _ _ g Hg Hadd); [done|]. unfold outstanding. simpl. lia.
Qed.

Lemma reachable_group s : reachable s → group_ok s.
Proof.
  induction 1 as [|s ev s' _ IH Hs]; [by split|]. destruct (resolver_step_group s ev _ IH Hs) as (s'' & [= ->] & Hg). done.
Qed.

(** C13. The wait group of the resolver is exact: through every interleaving
    of [Resolve], [Pause], [Restart] and the resolutions, it counts the
    inputs that are being sent and the resolutions that have not finished,
    it is idle (a call of [Wait] returns at once) exactly when there are
    none, and no step of the queueing makes it panic.  What a resolution
    does between its beginning and its return ([doResolve]) is not part of
    this model, and can panic by itself. *)
Theorem resolve_group_exact s : reachable s →
  rwg_num (cr_resolveGroup s) = Z.of_nat (outstanding s) ∧
  (rwg_isIdleCh (cr_resolveGroup s) = None ↔ outstanding s = 0) ∧
  ∀ ev r, resolver_step ev s = Some r → ∃ s', r = Ok s'.
Proof.
  intros Hg%reachable_group. destruct (Hg) as [H1 H2]. split; [done|]. split; [done|].
  intros ev r Hs. destruct (resolver_step_group s ev r Hg Hs) as (s' & -> & _). by exists s'.
Qed.

(** ** Which resolutions are canceled *)

Definition processor_of (s : ConflictResolver) (p : processor) : Prop := cr_inputChan s = Some p ∨ p ∈ cr_closed s.

(** A resolution waits for an earlier one; [processInput] cancels, and makes
    the next one wait for, the last that it started; and every resolution
    that is not canceled is the last one of a [processInput]. *)
Record queue_ok (s : ConflictResolver) : Prop := {
  qo_wait i r j : cr_resolutions s !! i = Some r → rs_waitChan r = Some j → j < i;
  qo_same p : processor_of s p → p_prevCRDone p = p_cancel p;
  qo_bound p i : processor_of s p → p_cancel p = Some i → i < length (cr_resolutions s);
  qo_live i r : cr_resolutions s !! i = Some r → rs_canceled r = false →
    ∃ p, processor_of s p ∧ p_cancel p = Some i
}.

Lemma alter_lookup_inv {A} (f : A → A) i (l : list A) j y : alter f i l !! j = Some y →
  ∃ x, l !! j = Some x ∧ (i ≠ j ∧ y = x ∨ i = j ∧ y = f x).
Proof.
  destruct (decide (i = j)) as [<-|Hne].
  - rewrite list_lookup_alter_eq. intros (x & Hx & ->)%fmap_Some. eauto.
  - rewrite list_lookup_alter_ne by done. eauto.
Qed.

(** Steps that change the phase of a resolution, or nothing that matters. *)
Lemma queue_ok_phase s s' i f :
  cr_inputChan s' = cr_inputChan s → cr_closed s' = cr_closed s → cr_resolutions s' = alter f i (cr_resolutions s) →
  (∀ r, rs_waitChan (f r) = rs_waitChan r ∧ rs_canceled (f r) = rs_canceled r) → queue_ok s → queue_ok s'.
Proof.
  intros Hi Hc Hr Hf [Hw Hs Hb Hl]. assert (∀ p, processor_of s' p ↔ processor_of s p) as Hp
    by (intros p; unfold processor_of; by rewrite Hi, Hc).
  split.
  - intros j r k. rewrite Hr. intros (x & Hx & [[_ ->]|[_ ->]])%alter_lookup_inv; [by eapply Hw|].
    destruct (Hf x) as [-> _]. by eapply Hw.
  - intros p. rewrite Hp. apply Hs.
  - intros p j. rewrite Hp, Hr, length_alter. apply Hb.
  - intros j r. rewrite Hr. intros (x & Hx & Hcase)%alter_lookup_inv Hcan.
    assert (rs_canceled x = false) as Hx'.
    { destruct Hcase as [[_ ->]|[_ ->]]; [done|]. destruct (Hf x) as [_ Hc']. congruence. }
    destruct (Hl j x Hx Hx') as (p & Hpp & Hpc). exists p. by rewrite Hp.
Qed.

Lemma queue_ok_same s s' :
  cr_inputChan s' = cr_inputChan s → cr_closed s' = cr_closed s → cr_resolutions s' = cr_resolutions s →
  queue_ok s → queue_ok s'.
Proof.
  intros Hi Hc Hr [Hw Hs Hb Hl].
  split; unfold processor_of; rewrite ?Hi, ?Hc, ?Hr; [exact Hw|exact Hs|exact Hb|exact Hl].
Qed.

Lemma cancel_lookup p rs j r : cancel_current p rs !! j = Some r → ∃ x, rs !! j = Some x ∧
  rs_waitChan r = rs_waitChan x ∧ (rs_canceled r = false → rs_canceled x = false ∧ p_cancel p ≠ Some j).
Proof.
  unfold cancel_current. destruct (p_cancel p) as [i|]; [|eauto].
  intros (x & Hx & [[Hne ->]|[-> ->]])%alter_lookup_inv; exists x; (split; [done|]); (split; [done|]); [|done].
  intros ->. split; [done|]. congruence.
Qed.

Lemma length_cancel p rs : length (cancel_current p rs) = length rs.
Proof. unfold cancel_current. destruct (p_cancel p); [|done]. apply length_alter. Qed.

Lemma process_one_queue p ci s s' : queue_ok s → cr_inputChan s = Some p → process_one p ci s = Ok s' → queue_ok s'.
Proof.
  intros Hok Hp. unfold process_one. destruct (valid_input _ _).
  2: { destruct (rwg_Done _) as [g| |]; simpl; [|done..]. intros [= <-]. by apply (queue_ok_same s). }
  intros [= <-]. pose proof Hok as [Hw Hs Hb Hl].
  assert (∀ i, p_cancel p = Some i → i < length (cr_resolutions s)) as Hbp by (intros i; apply Hb; by left).
  pose proof (Hs p (or_introl Hp)) as Hsame.
  split; unfold processor_of; simpl.
  - intros i r j Hr Hj. apply lookup_app_Some in Hr as [Hr|[Hle Hr]].
    + apply cancel_lookup in Hr as (x & Hx & Hwx & _). eapply Hw; [exact Hx|congruence].
    + rewrite length_cancel in Hle. apply list_lookup_singleton_Some in Hr as [_ <-]. simpl in Hj.
      destruct (p_cancel p) as [i'|]; [|done]. rewrite Hsame in Hj. injection Hj as <-. specialize (Hbp i' eq_refl). lia.
  - intros q [[= <-]|Hq]; [done|]. apply Hs. by right.
  - intros q i [[= <-]|Hq] Hqi; simpl in *; rewrite length_app, length_cancel; simpl.
    + injection Hqi as <-. rewrite length_cancel. lia.
    + specialize (Hb q i (or_intror Hq) Hqi). lia.
  - intros i r Hr Hcan. apply lookup_app_Some in Hr as [Hr|[Hle Hr]].
    + apply cancel_lookup in Hr as (x & Hx & _ & Hc). destruct (Hc Hcan) as [Hx' Hne].
      destruct (Hl i x Hx Hx') as (q & [Hq|Hq] & Hqi); [congruence|]. exists q. by split; [right|].
    + apply list_lookup_singleton_Some in Hr as [Hi _]. eexists. split; [by left|]. simpl. f_equal. lia.
Qed.

Lemma resolver_step_queue s ev s' : queue_ok s → resolver_step ev s = Some (Ok s') → queue_ok s'.
Proof.
  intros Hok Hs. pose proof Hok as [Hw Hsm Hb Hl]. destruct ev as [| |ci|k|k|i|i|i u m|i|i]; simpl in Hs.
  - case_decide; [|done]. injection Hs as <-. unfold startProcessing. destruct (cr_inputChan s) eqn:Ei; [done|].
    split; unfold processor_of; simpl; [exact Hw| | |].
    + intros p [[= <-]|Hp]; [done|]. apply Hsm. by right.
    + intros p i [[= <-]|Hp]; [done|]. apply Hb. by right.
    + intros i r Hr Hc. destruct (Hl i r Hr Hc) as (p & [Hp|Hp] & Hpi); [congruence|]. exists p. by split; [right|].
  - case_decide; [|done]. injection Hs as <-. unfold stopProcessing. destruct (cr_inputChan s) as [p|] eqn:Ei; [|done].
    assert (∀ q, processor_of (set_closed (cr_closed s ++ [p]) (set_inputChan None s)) q ↔ processor_of s q) as Hq.
    { intros q. unfold processor_of. simpl. rewrite Ei. rewrite elem_of_app, list_elem_of_singleton. naive_solver. }
    split; simpl; [exact Hw|intros q; rewrite Hq; apply Hsm|intros q i; rewrite Hq; apply Hb|].
    intros i r Hr Hc. destruct (Hl i r Hr Hc) as (q & Hqq & Hqi). exists q. by rewrite Hq.
  - injection Hs as Hs. unfold Resolve in Hs. destruct (cr_inputChan s) eqn:Ei; [|by injection Hs as <-].
    destruct (rwg_Add _ _); simpl in Hs; [|done..]. injection Hs as <-. by apply (queue_ok_same s).
  - destruct (cr_inputChan s) as [p|] eqn:Ei; [|done]. simpl in Hs. destruct (cr_sends s !! k) as [ci|]; [|done].
    injection Hs as Hs. apply (process_one_queue p ci _ _) in Hs; [done| |exact Ei]. by apply (queue_ok_same s).
  - destruct (cr_closed s !! k) as [p|] eqn:Ek; [|done]. injection Hs as <-.
    assert (∀ q, q ∈ delete k (cr_closed s) → q ∈ cr_closed s) as Hsub.
    { intros q Hq. eapply elem_of_submseteq; [exact Hq|]. apply sublist_submseteq, sublist_delete. }
    split; unfold processor_of; simpl.
    + intros i r j (x & Hx & Hwx & _)%cancel_lookup Hj. eapply Hw; [exact Hx|congruence].
    + intros q [Hq|Hq]; apply Hsm; [by left|right; by apply Hsub].
    + intros q i [Hq|Hq]; rewrite length_cancel; apply Hb; [by left|right; by apply Hsub].
    + intros i r (x & Hx & _ & Hc)%cancel_lookup Hcan. destruct (Hc Hcan) as [Hx' Hne].
      destruct (Hl i x Hx Hx') as (q & [Hq|Hq] & Hqi); [exists q; by split; [left|]|].
      exists q. split; [right|done]. apply list_elem_of_lookup in Hq as [n Hn].
      destruct (decide (n = k)) as [->|Hnk]; [congruence|].
      apply list_elem_of_lookup. destruct (decide (n < k)).
      * exists n. by rewrite list_lookup_delete_lt by lia.
      * exists (n - 1). rewrite list_lookup_delete_ge by lia. by replace (S (n - 1)) with n by lia.
  - resolution_cases Hs. injection Hs as <-. by eapply (queue_ok_phase s).
  - resolution_cases Hs. injection Hs as <-. by eapply (queue_ok_phase s).
  - resolution_cases Hs. injection Hs as <-. destruct (updateCurrInput _ _ _ _); [by apply (queue_ok_same s)|done..].
  - resolution_cases Hs. injection Hs as <-. by eapply (queue_ok_phase s).
  - resolution_cases Hs. destruct (rwg_Done _); simpl in Hs; [|done..]. injection Hs as <-. by eapply (queue_ok_phase s).
Qed.

Lemma reachable_queue s : reachable s → queue_ok s.
Proof.
  induction 1 as [|s ev s' _ IH Hs]; [|by eapply resolver_step_queue].
  split; unfold processor_of; simpl; [done| | |done].
  - by intros p [[= <-]|?%elem_of_nil].
  - by intros p i [[= <-]|?%elem_of_nil].
Qed.

(** Unless a [processInput] is on its way out, all resolutions but one are
    canceled: a new conflict takes over from the one before it. *)
Theorem one_live_resolution s i j r r' : reachable s → cr_closed s = [] →
  cr_resolutions s !! i = Some r → rs_canceled r = false →
  cr_resolutions s !! j = Some r' → rs_canceled r' = false → i = j.
Proof.
  intros Hq%reachable_queue Hc Hi Hr Hj Hr'.
  destruct (qo_live s Hq i r Hi Hr) as (p & [Hp|Hp] & Hpi); [|rewrite Hc in Hp; by apply elem_of_nil in Hp].
  destruct (qo_live s Hq j r' Hj Hr') as (q & [Hq'|Hq'] & Hqj); [|rewrite Hc in Hq'; by apply elem_of_nil in Hq'].
  congruence.
Qed.

(** ** Every resolution comes to its end *)

Definition phase_work (r : resolution) : nat :=
  match rs_phase r with Waiting => 3 | Resolving => 2 | Closed => 1 | Gone => 0 end.
Definition total_work (s : ConflictResolver) : nat := sum_list (phase_work <$> cr_resolutions s).

(** The steps by which a resolution gets on. *)
Definition goes_on (ev : resolverEvent) : Prop :=
  match ev with EvBegin _ | EvReturn _ | EvDone _ => True | _ => False end.

Lemma work_alter rs i r f : rs !! i = Some r →
  phase_work (f r) + sum_list (phase_work <$> rs) = phase_work r + sum_list (phase_work <$> alter f i rs).
Proof.
  revert i. induction rs as [|r' rs IH]; intros [|i] Hi; simpl in *; [done..| |].
  - injection Hi as ->. lia.
  - specialize (IH i Hi). unfold fmap, alter in *. simpl. lia.
Qed.

Lemma set_phase_work s i r p : cr_resolutions s !! i = Some r →
  phase_work (at_resolution_phase p r) < phase_work r → total_work (set_phase i p s) < total_work s.
Proof.
  intros Hi Hw. unfold total_work, set_phase. simpl. pose proof (work_alter _ i r (at_resolution_phase p) Hi). lia.
Qed.

Lemma first_unfinished (rs : list resolution) : Exists unfinished rs →
  ∃ i r, rs !! i = Some r ∧ unfinished r ∧ ∀ j r', j < i → rs !! j = Some r' → rs_phase r' = Gone.
Proof.
  induction rs as [|r rs IH]; [by inversion 1|]. intros He. destruct (decide (unfinished r)) as [Hr|Hr].
  - exists 0, r. split; [done|]. split; [done|]. intros j r' Hj. lia.
  - apply Exists_cons in He as [He|He]; [done|]. destruct (IH He) as (i & r' & Hi & Hr' & Hlt).
    exists (S i), r'. split; [done|]. split; [done|]. intros [|j] r'' Hj Hr''; [|eapply Hlt; [|done]; lia].
    injection Hr'' as <-. unfold unfinished in Hr. destruct (decide (rs_phase r = Gone)); tauto.
Qed.

Lemma resolution_goes_on s : group_ok s → queue_ok s → Exists unfinished (cr_resolutions s) →
  ∃ ev s', goes_on ev ∧ resolver_step ev s = Some (Ok s') ∧ total_work s' < total_work s.
Proof.
  intros Hg Hq (i & r & Hi & Hr & Hlt)%first_unfinished. destruct (rs_phase r) eqn:Ep.
  - exists (EvBegin i), (set_phase i Resolving s). split; [done|]. split.
    + simpl. rewrite Hi. simpl. rewrite bool_decide_eq_true_2 by done. simpl. unfold may_begin.
      destruct (rs_waitChan r) as [j|] eqn:Ew; [|done]. pose proof (qo_wait s Hq i r j Hi Ew) as Hj.
      destruct (lookup_lt_is_Some_2 (cr_resolutions s) j) as [r' Hr']; [apply lookup_lt_Some in Hi; lia|].
      unfold is_done. rewrite Hr', (Hlt j r' Hj Hr'). done.
    + eapply set_phase_work; [done|]. unfold phase_work. rewrite Ep. simpl. lia.
  - exists (EvReturn i), (set_phase i Closed s). split; [done|]. split.
    + simpl. rewrite Hi. simpl. by rewrite bool_decide_eq_true_2.
    + eapply set_phase_work; [done|]. unfold phase_work. rewrite Ep. simpl. lia.
  - assert (∃ s', resolver_step (EvDone i) s = Some (Ok s') ∧ cr_resolutions s' = cr_resolutions (set_phase i Gone s))
      as (s' & Hs & Hrs).
    { assert (resolver_step (EvDone i) s =
        Some (g ← rwg_Done (cr_resolveGroup s); Ok (set_group g (set_phase i Gone s)))) as Hstep.
      { simpl. rewrite Hi. simpl. by rewrite bool_decide_eq_true_2. }
      destruct (resolver_step_group s _ _ Hg Hstep) as (s' & He & _). exists s'. rewrite Hstep, He. split; [done|].
      destruct (rwg_Done _); simpl in He; [|done..]. by injection He as <-. }
    exists (EvDone i), s'. split; [done|]. split; [done|]. unfold total_work. rewrite Hrs.
    apply (set_phase_work s i r Gone Hi). unfold phase_work. rewrite Ep. simpl. lia.
  - done.
Qed.

(** C14. From every state, the resolutions can come to their end by themselves,
    whatever is canceled: there is no deadlock between resolutions that wait
    for each other. *)
Theorem resolutions_finish s : reachable s →
  ∃ evs s', Forall goes_on evs ∧ length evs <= 3 * length (cr_resolutions s) ∧
    run_resolver evs s = Some (Ok s') ∧ Forall (λ r, rs_phase r = Gone) (cr_resolutions s').
Proof.
  intros Hr. assert (total_work s <= 3 * length (cr_resolutions s)) as Hb.
  { unfold total_work. induction (cr_resolutions s) as [|r rs IH]; simpl; [lia|].
    assert (phase_work r <= 3) by (unfold phase_work; destruct (rs_phase r); lia). unfold fmap in IH. lia. }
  cut (∃ evs s', Forall goes_on evs ∧ length evs <= total_work s ∧
    run_resolver evs s = Some (Ok s') ∧ Forall (λ r, rs_phase r = Gone) (cr_resolutions s')).
  { intros (evs & s' & H1 & H2 & H3 & H4). exists evs, s'. split; [done|]. split; [lia|done]. }
  clear Hb. pose proof (reachable_group s Hr) as Hg. pose proof (reachable_queue s Hr) as Hq. clear Hr.
  remember (total_work s) as n eqn:En. revert s En Hg Hq. induction n as [n IH] using lt_wf_ind. intros s -> Hg Hq.
  destruct (decide (Exists unfinished (cr_resolutions s))) as [He|He].
  - destruct (resolution_goes_on s Hg Hq He) as (ev & s1 & Hev & Hs & Hlt).
    destruct (resolver_step_group s ev _ Hg Hs) as (s2 & [= <-] & Hg1).
    destruct (IH _ Hlt s1 eq_refl Hg1 (resolver_step_queue s ev s1 Hq Hs)) as (evs & s' & H1 & H2 & H3 & H4).
    exists (ev :: evs), s'. split; [by constructor|]. split; [simpl; lia|]. split; [|done].
    cbn [run_resolver]. by rewrite Hs.
  - exists [], s. split; [done|]. split; [simpl; lia|]. split; [done|]. apply list.Forall_forall. intros r Hr.
    destruct (decide (rs_phase r = Gone)) as [|Hp]; [done|]. destruct He. apply list.Exists_exists. by exists r.
Qed.

(** ** One at a time *)

(** A run of the resolver that is neither paused nor gives up a resolution
    before it starts. *)
Definition undisturbed (ev : resolverEvent) : Prop :=
  match ev with EvStop | EvGiveUp _ => False | _ => True end.

Inductive reachable_undisturbed : ConflictResolver → Prop :=
| ru_new : reachable_undisturbed NewConflictResolver
| ru_step s ev s' : reachable_undisturbed s → undisturbed ev → resolver_step ev s = Some (Ok s') → reachable_undisturbed s'.

(** Each resolution waits for the one before it, and all before one that is
    beyond waiting are done. *)
Record in_turn (s : ConflictResolver) : Prop := {
  it_closed : cr_closed s = [];
  it_open : is_Some (cr_inputChan s);
  it_last p : cr_inputChan s = Some p →
    p = match cr_resolutions s with [] => newProcessor | _ => MkProcessor (Some (length (cr_resolutions s) - 1)) (Some (length (cr_resolutions s) - 1)) end;
  it_wait i r : cr_resolutions s !! S i = Some r → rs_waitChan r = Some i;
  it_order i j r : i < j → cr_resolutions s !! j = Some r → rs_phase r ≠ Waiting → is_done (cr_resolutions s) i = true
}.

Lemma is_done_alter f rs i j :
  (∀ r, rs !! j = Some r → rs_phase r = Closed ∨ rs_phase r = Gone → rs_phase (f r) = Closed ∨ rs_phase (f r) = Gone) →
  is_done rs i = true → is_done (alter f j rs) i = true.
Proof.
  intros Hf. unfold is_done. destruct (decide (j = i)) as [->|Hne]; [|by rewrite list_lookup_alter_ne].
  rewrite list_lookup_alter_eq. destruct (rs !! i) as [r|]; [|done]. simpl. specialize (Hf r eq_refl).
  destruct (rs_phase r); try done; intros _; destruct Hf as [->| ->]; auto.
Qed.

Lemma is_done_app rs r i : is_done rs i = true → is_done (rs ++ [r]) i = true.
Proof. unfold is_done. destruct (rs !! i) eqn:E; [|done]. by rewrite (lookup_app_l_Some _ _ _ _ E). Qed.

Lemma in_turn_alter s s' i f r :
  in_turn s → cr_inputChan s' = cr_inputChan s → cr_closed s' = cr_closed s →
  cr_resolutions s' = alter f i (cr_resolutions s) → cr_resolutions s !! i = Some r →
  rs_waitChan (f r) = rs_waitChan r →
  (rs_phase r = Closed ∨ rs_phase r = Gone → rs_phase (f r) = Closed ∨ rs_phase (f r) = Gone) →
  (rs_phase (f r) ≠ Waiting → rs_phase r ≠ Waiting ∨ may_begin (cr_resolutions s) r = true) → in_turn s'.
Proof.
  intros [Hc Hop Hl Hw Ho] Hi' Hc' Hr' Hi Hwf Hd Hb.
  assert (∀ j, is_done (cr_resolutions s) j = true → is_done (alter f i (cr_resolutions s)) j = true) as Hda.
  { intros j. apply is_done_alter. intros r0 Hr0. rewrite Hi in Hr0. by injection Hr0 as <-. }
  split; rewrite ?Hi', ?Hc', ?Hr'; [done|done| | |].
  - intros p Hp. rewrite length_alter, (Hl p Hp). destruct (cr_resolutions s); [done|]. by destruct i.
  - intros j r' (x & Hx & [[_ ->]|[-> ->]])%alter_lookup_inv; [by apply Hw|].
    rewrite Hi in Hx. injection Hx as <-. rewrite Hwf. by apply Hw.
  - intros j k r' Hlt (x & Hx & [[_ ->]|[-> ->]])%alter_lookup_inv Hp; apply Hda; [by eapply Ho|].
    rewrite Hi in Hx. injection Hx as <-. destruct (Hb Hp) as [Hp'|Hm]; [by eapply Ho|].
    destruct k as [|k]; [lia|]. unfold may_begin in Hm. rewrite (Hw k r Hi) in Hm.
    destruct (decide (j = k)) as [->|Hne]; [done|].
    unfold is_done in Hm. destruct (cr_resolutions s !! k) as [rk|] eqn:Ek; [|done].
    eapply (Ho j k rk); [lia|done|]. by destruct (rs_phase rk).
Qed.

Lemma process_one_in_turn p ci s s' : in_turn s → cr_inputChan s = Some p → process_one p ci s = Ok s' → in_turn s'.
Proof.
  intros Hit Hp. pose proof Hit as [Hc Hop Hl Hw Ho]. unfold process_one. destruct (valid_input _ _).
  2: { destruct (rwg_Done _) as [g| |]; simpl; [|done..]. intros [= <-]. split; [exact Hc|exact Hop|exact Hl|exact Hw|exact Ho]. }
  intros [= <-]. set (rs := cr_resolutions s) in *. set (rs' := cancel_current p rs).
  assert (length rs' = length rs) as Hlen by apply length_cancel.
  assert (∀ j, is_done rs j = true → is_done rs' j = true) as Hda.
  { intros j. subst rs'. unfold cancel_current. destruct (p_cancel p); [|done]. by apply is_done_alter. }
  split; simpl; [done|done| | |].
  - intros q [= <-]. destruct (rs' ++ _) eqn:E; [by destruct rs'|]. rewrite <- E, length_app. simpl.
    by replace (length rs' + 1 - 1) with (length rs') by lia.
  - intros i r [Hr|[Hle Hr]]%lookup_app_Some.
    + apply cancel_lookup in Hr as (x & Hx & -> & _). by apply Hw.
    + apply list_lookup_singleton_Some in Hr as [Hi <-]. simpl. rewrite (Hl p Hp).
      destruct rs as [|r0 rs0] eqn:Ers; [simpl in *; lia|]. cbn [p_cancel p_prevCRDone]. f_equal. rewrite Hlen in Hi, Hle. lia.
  - intros i j r Hlt [Hr|[Hle Hr]]%lookup_app_Some Hph.
    + apply is_done_app, Hda. unfold rs', cancel_current in Hr. destruct (p_cancel p) as [k|]; [|by eapply Ho].
      apply alter_lookup_inv in Hr as (x & Hx & [[_ ->]|[_ ->]]); by eapply Ho.
    + apply list_lookup_singleton_Some in Hr as [_ <-]. done.
Qed.

Lemma resolver_step_in_turn s ev s' : in_turn s → undisturbed ev → resolver_step ev s = Some (Ok s') → in_turn s'.
Proof.
  intros Hit Hu Hs. pose proof Hit as [Hc Hop Hl Hw Ho]. destruct ev as [| |ci|k|k|i|i|i u m|i|i]; simpl in Hs; try done.
  - case_decide; [|done]. injection Hs as <-. unfold startProcessing. by destruct Hop as [p ->].
  - injection Hs as Hs. unfold Resolve in Hs. destruct (cr_inputChan s) eqn:Ei; [|by injection Hs as <-].
    destruct (rwg_Add _ _); simpl in Hs; [|done..]. injection Hs as <-. split; simpl; [exact Hc|by rewrite Ei|by rewrite Ei|exact Hw|exact Ho].
  - destruct (cr_inputChan s) as [p|] eqn:Ei; [|done]. simpl in Hs. destruct (cr_sends s !! k) as [ci|]; [|done].
    injection Hs as Hs. apply (process_one_in_turn p ci _ _) in Hs; [done| |exact Ei].
    destruct Hit. by split.
  - by rewrite Hc in Hs.
  - resolution_cases Hs. injection Hs as <-. apply andb_true_iff in Hc0 as [Hp%bool_decide_eq_true Hm].
    eapply (in_turn_alter s); try done; [intros [E|E]; congruence|]. intros _. by right.
  - resolution_cases Hs. injection Hs as <-.
    destruct (updateCurrInput _ _ _ _); [split; [exact Hc|exact Hop|exact Hl|exact Hw|exact Ho]|done..].
  - resolution_cases Hs. injection Hs as <-. apply bool_decide_eq_true in Hc0.
    eapply (in_turn_alter s); try done; [auto|]. intros _. left. congruence.
  - resolution_cases Hs. apply bool_decide_eq_true in Hc0. destruct (rwg_Done _); simpl in Hs; [|done..]. injection Hs as <-.
    eapply (in_turn_alter s); try done; [auto|]. intros _. left. congruence.
Qed.

Lemma reachable_in_turn s : reachable_undisturbed s → in_turn s.
Proof.
  induction 1 as [|s ev s' _ IH Hu Hs]; [|by eapply resolver_step_in_turn]. split; [done|by eexists|by intros p [= <-]|done|]. intros i j r _. simpl. by destruct j.
Qed.

(** C28. As long as the resolver is not paused and no resolution is canceled
    before it starts, two resolutions are never under way at the same time. *)
Theorem resolutions_exclusive s i j r r' : reachable_undisturbed s →
  cr_resolutions s !! i = Some r → rs_phase r = Resolving →
  cr_resolutions s !! j = Some r' → rs_phase r' = Resolving → i = j.
Proof.
  intros Hit%reachable_in_turn Hi Hr Hj Hr'.
  assert (∀ a b x y, a < b → cr_resolutions s !! a = Some x → rs_phase x = Resolving →
    cr_resolutions s !! b = Some y → rs_phase y = Resolving → False) as Hlt.
  { intros a b x y Hab Ha Hx Hb Hy. pose proof (it_order s Hit a b y Hab Hb ltac:(congruence)) as Hd.
    unfold is_done in Hd. by rewrite Ha, Hx in Hd. }
  destruct (Nat.lt_trichotomy i j) as [H|[H|H]]; [|done|]; exfalso; by eapply Hlt.
Qed.

(** ** Concrete runs *)

Definition conflict (u m : Z) : conflictInput := MkConflictInput u m.
Definition final_state (evs : list resolverEvent) : option ConflictResolver :=
  match run_resolver evs NewConflictResolver with Some (Ok s) => Some s | _ => None end.
Definition phases (s : ConflictResolver) : list (bool * resolutionPhase) :=
  (λ r, (rs_canceled r, rs_phase r)) <$> cr_resolutions s.

(** Defect: a resolution that is canceled while it waits for the one before
    it closes its own [done] without waiting any longer, and the resolution
    after it starts beside the first one. *)
Definition overlap_run : list resolverEvent :=
  [EvResolve (conflict 1 0); EvReceive 0; EvBegin 0;
   EvResolve (conflict 2 0); EvReceive 0;
   EvResolve (conflict 3 0); EvReceive 0; EvGiveUp 1; EvBegin 2].
Example resolutions_overlap : phases <$> final_state overlap_run =
  Some [(true, Resolving); (true, Closed); (false, Resolving)].
Proof. reflexivity. Qed.

(** Defect: a resolution that [Pause] canceled is not taken up again after
    [Restart]: the same revisions are not interesting any more. *)
Definition pause_run : list resolverEvent :=
  [EvResolve (conflict 5 0); EvReceive 0; EvBegin 0; EvStop; EvExit 0; EvReturn 0; EvDone 0;
   EvStart; EvResolve (conflict 5 0); EvReceive 0].
Example paused_resolution_dropped :
  (λ s, (phases s, outstanding s)) <$> final_state pause_run = Some ([(true, Gone)], 0).
Proof. reflexivity. Qed.

(** An input with one newer revision replaces the other one too, even by a
    lower one. *)
Example merged_revision_regresses :
  cr_currInput <$> final_state [EvResolve (conflict 4 7); EvReceive 0; EvResolve (conflict 5 0); EvReceive 0] =
  Some (conflict 5 0).
Proof. reflexivity. Qed.

Lemma run_reachable evs s s' : reachable s → run_resolver evs s = Some (Ok s') → reachable s'.
Proof.
  revert s. induction evs as [|ev evs IH]; intros s Hs Hr; [by injection Hr as <-|]. cbn [run_resolver] in Hr.
  destruct (resolver_step ev s) as [[s1| |]|] eqn:E; [|done..]. eapply IH; [|done]. by eapply reachable_step.
Qed.

Lemma run_reachable_undisturbed evs s s' : reachable_undisturbed s → Forall undisturbed evs →
  run_resolver evs s = Some (Ok s') → reachable_undisturbed s'.
Proof.
  intros Hs Hf. revert s Hs. induction Hf as [|ev evs Hev _ IH]; intros s Hs Hr; [by injection Hr as <-|].
  cbn [run_resolver] in Hr. destruct (resolver_step ev s) as [[s1| |]|] eqn:E; [|done..].
  eapply IH; [|done]. by eapply ru_step.
Qed.

Definition takeover_run : list resolverEvent :=
  [EvResolve (conflict 1 0); EvReceive 0; EvBegin 0; EvUpdate 0 (Some 2%Z) (Some 3%Z); EvResolve (conflict 4 3); EvReceive 0].
Definition takeover_state : ConflictResolver := default NewConflictResolver (final_state takeover_run).
Lemma takeover_reachable : reachable takeover_state.
Proof. by eapply (run_reachable takeover_run); [apply reachable_new|vm_compute]. Qed.
Lemma takeover_undisturbed : reachable_undisturbed takeover_state.
Proof. by eapply (run_reachable_undisturbed takeover_run); [apply ru_new|repeat constructor|vm_compute]. Qed.

Lemma resolve_group_exact_witness : outstanding takeover_state = 2 ∧
  rwg_num (cr_resolveGroup takeover_state) = Z.of_nat 2.
Proof. split; [reflexivity|]. exact (proj1 (resolve_group_exact _ takeover_reachable)). Defined.

Lemma one_live_resolution_witness : phases takeover_state = [(true, Resolving); (false, Waiting)] ∧ 1 = 1.
Proof.
  split; [reflexivity|].
  exact (one_live_resolution takeover_state 1 1 _ _ takeover_reachable eq_refl eq_refl eq_refl eq_refl eq_refl).
Defined.

Lemma resolutions_finish_witness : ∃ evs s', length evs <= 6 ∧
  run_resolver evs takeover_state = Some (Ok s') ∧ Forall (λ r, rs_phase r = Gone) (cr_resolutions s').
Proof.
  destruct (resolutions_finish takeover_state takeover_reachable) as (evs & s' & _ & Hl & Hr & Hg).
  exists evs, s'. split; [exact Hl|]. split; [exact Hr|exact Hg].
Defined.

Lemma resolutions_exclusive_witness : phases takeover_state = [(true, Resolving); (false, Waiting)] ∧ 0 = 0.
Proof.
  split; [reflexivity|].
  exact (resolutions_exclusive takeover_state 0 0 _ _ takeover_undisturbed eq_refl eq_refl eq_refl eq_refl).
Defined.
