(* ===== verification/ResolverPaths.v ===== *)
(** * ResolverPaths: which paths a conflict is about
    ([conflict_resolver.go], the first step of a resolution)

    From the chains of the two branches: the paths that the unmerged branch
    changed, the directories that both branches created, and for every
    unmerged path the path of the same node in the merged branch, with the
    creates of what the merged branch has removed.

    What the resolver asks of the folder is the interface [ResolverConfig]:
    the blocks of either branch, and the search for nodes, which gives the
    path of every pointer that it finds.  The blocks do not change during a
    resolution.  A [range] over a map goes through its entries in some order,
    [rv_perm]; [sort.Sort] of paths is [rv_sort]. *)

From Stdlib Require Import ZArith Lia Sorted.
From S2P Require Import Prelude Types Errors DataTypes Ops CRChains CRActions.

Inductive branchSide := UnmergedSide | MergedSide.

(** What the resolver reads of a branch's latest metadata. *)
Record branchMD := MkBranchMD {
  bmd_LastModifyingWriter : UID;
  bmd_writerKID : KID;
  bmd_DiskUsage : Z;
  bmd_LatestKeyGeneration : KeyGen;
  bmd_rootPtr : BlockPointer;
  bmd_canonicalName : string
}.

Class ResolverConfig := {
  rv_perm {A : Type} : list A → list A;
  rv_sort : list path → list path;
  rv_folderBranch : FolderBranch;
  (** [SearchForNodes] in the folder's node cache, and in a new one for the
      merged branch whose root has the given name; with [PathFromNode] of
      every node that is found. *)
  rv_searchUnmerged : list BlockPointer → gset BlockPointer → res (gmap BlockPointer (option path));
  rv_searchMerged : string → list BlockPointer → gset BlockPointer → res (gmap BlockPointer (option path));
  (** The same in the tree of the resolved metadata, below its root. *)
  rv_searchResolved : BlockPointer → list BlockPointer → gset BlockPointer → res (gmap BlockPointer (option path));
  rv_mostRecentMD : branchSide → branchMD;
  rv_GetFileBlock : branchSide → BlockPointer → res FileBlock;
  rv_GetDirBlock : branchSide → BlockPointer → res DirBlock;
  rv_GetBlockSize : BlockPointer → res Z;
  rv_GetDirtyEntry : path → res DirEntry;
  rv_newWriterInfo : UID → KID → res writerInfo;
  rv_GetCurrentUserInfo : res (string * UID);
  rv_DataVersion : DataVer;
  rv_ConflictRename : op → string → string
}.

(** [crSortedPaths.Less] *)
Definition crSortedPaths_Less (p q : path) : bool := bool_decide (length (p_path q) < length (p_path p)).

(** What Go promises of its maps and of [sort.Sort]. *)
Class ResolverLaws `{ResolverConfig} : Prop := {
  rv_perm_ok {A : Type} (l : list A) : rv_perm l ≡ₚ l;
  rv_sort_ok l : rv_sort l ≡ₚ l;
  rv_sort_sorted l : StronglySorted (λ p q, crSortedPaths_Less q p = false) (rv_sort l)
}.

Section resolver.
Context `{ResolverConfig}.

Definition rv_range {K A} `{Countable K} (m : gmap K A) : list (K * A) := rv_perm (map_to_list m).

(** Following a pointer to a chain. *)
Definition deref_chain (id : nat) (s : crChains) : res crChain :=
  match ccs_chains s !! id with Some c => Ok c | None => Panic "nil pointer dereference" end.
Definition chain_by_original (original : BlockPointer) (s : crChains) : option (nat * crChain) :=
  id ← ccs_byOriginal s !! original;
  c ← ccs_chains s !! id;
  Some (id, c).

Definition set_final_paths (p : path) (id : nat) : go crChains unit := set_ops (map (setFinalPath p)) id.

(** ** Paths of the unmerged branch *)

(** Whether a chain needs a path. *)
Definition needs_path (chains : crChains) (e : BlockPointer * nat) : bool :=
  match ccs_chains chains !! snd e with
  | Some c => negb (bool_decide (cc_ops c = [])) && negb (isCreated (cc_original c) chains) &&
                negb (isDeleted (cc_original c) chains)
  | None => false
  end.

(** The loop over the nodes that were found. *)
Fixpoint collect_paths (found : list (BlockPointer * option path)) : go crChains (list path) :=
  match found with
  | [] => mret []
  | (ptr, None) :: found => _ ← modify (removeChain ptr); collect_paths found
  | (ptr, Some p) :: found =>
      tail ← lift_res (tailPointer p);
      if decide (tail ≠ ptr) then fail (NodeNotFoundError ptr)
      else
        s ← get;
        _ ← (match ccs_byMostRecent s !! ptr with
             | Some id => set_final_paths p id
             | None => mret tt
             end);
        rest ← collect_paths found;
        mret (p :: rest)
  end.

Definition getPathsFromChains : go crChains (list path) :=
  s ← get;
  let ptrs := filter (λ e, needs_path s e = true) (rv_range (ccs_byMostRecent s)) in
  nodeMap ← lift_res (rv_searchUnmerged (fst <$> ptrs) (dom (ccs_byMostRecent s)));
  paths ← collect_paths (rv_range nodeMap);
  mret (rv_sort paths).

(** ** Directories that were created in both branches *)

Definition fileWithConflictingWrite (unmergedChains mergedChains : crChains)
    (unmergedOriginal mergedOriginal : BlockPointer) : bool :=
  match chain_by_original mergedOriginal mergedChains, chain_by_original unmergedOriginal unmergedChains with
  | Some (_, mergedChain), Some (_, unmergedChain) =>
      existsb is_sync (cc_ops mergedChain) && existsb is_sync (cc_ops unmergedChain)
  | _, _ => false
  end.

(** A create of something that is new in its branch. *)
Definition new_create (o : op) : option createOp :=
  match o with
  | CreateOp cop => if decide (Refs o = [] ∨ co_renamed cop = true) then None else Some cop
  | _ => None
  end.
Definition mergedCreates (ops : list op) : gmap string createOp :=
  foldl (λ m cop, <[co_NewName cop := cop]> m) ∅ (omap new_create ops).

Definition first_ref (cop : createOp) : BlockPointer := default zeroPtr (head (Refs (CreateOp cop))).

Definition unref_later (ptr : BlockPointer) (s : crChains) : crChains :=
  MkCrChains (ccs_chains s) (ccs_next s) (ccs_byOriginal s) (ccs_byMostRecent s) (ccs_originalRoot s)
    (ccs_deletedOriginals s) (ccs_createdOriginals s) (ccs_renamedOriginals s) (ccs_blockChangePointers s)
    ({[ ptr ]} ∪ ccs_toUnrefPointers s) (ccs_originals s).
Definition forget_created (ptr : BlockPointer) (s : crChains) : crChains :=
  set_tracking (ccs_deletedOriginals s) (ccs_createdOriginals s ∖ {[ ptr ]}) (ccs_renamedOriginals s) s.

(** The merged create that an unmerged operation repeats. *)
Definition same_create (merged : gmap string createOp) (s : bothChains) (o : op) : option (createOp * createOp) :=
  cop ← new_create o;
  mergedCop ← merged !! co_NewName cop;
  if decide (co_Type mergedCop = co_Type cop) then
    if negb (bool_decide (co_Type cop = Dir)) &&
       fileWithConflictingWrite (bc_unmerged s) (bc_merged s) (first_ref cop) (first_ref mergedCop)
    then None else Some (cop, mergedCop)
  else None.

(** The path of a file that is merged, for the operations on it. *)
Definition merge_file (newPath : path) (mergedOriginal : BlockPointer) (id : nat) : go crChains unit :=
  s ← get;
  c ← lift_res (deref_chain id s);
  _ ← set_final_paths newPath id;
  if existsb is_sync (cc_ops c) then modify (forget_created mergedOriginal) else mret tt.

Section merge_creates.
(** [checkPathForMerge] on a subdirectory. *)
Context (check : nat → path → go bothChains (list path)).

(** One operation that creates what the merged branch creates too. *)
Definition merge_create (unmergedPath : path) (cop mergedCop : createOp) : go bothChains (list path) :=
  let unmergedOriginal := first_ref cop in
  let mergedOriginal := first_ref mergedCop in
  r ← try (on_unmerged (changeOriginal unmergedOriginal mergedOriginal));
  match r with
  | inr (NoChainFoundError _) => _ ← on_unmerged (modify (unref_later unmergedOriginal)); mret []
  | inr e => fail e
  | inl _ =>
      s ← get;
      match chain_by_original mergedOriginal (bc_unmerged s) with
      | None => fail (Errorf "Change original didn't work")
      | Some (id, c) =>
          let newPath := ChildPath unmergedPath (co_NewName cop) (cc_mostRecent c) in
          if decide (co_Type cop = Dir) then
            newPaths ← check id newPath;
            mret (newPaths ++ [newPath])
          else _ ← on_unmerged (merge_file newPath mergedOriginal id); mret [newPath]
      end
  end.

(** The loop over the operations, from index [i]: the new paths and the
    indices to drop. *)
Fixpoint merge_creates (merged : gmap string createOp) (unmergedPath : path) (i : nat) (ops : list op)
    : go bothChains (list path * gset nat) :=
  match ops with
  | [] => mret ([], ∅)
  | o :: ops =>
      s ← get;
      match same_create merged s o with
      | None => merge_creates merged unmergedPath (S i) ops
      | Some (cop, mergedCop) =>
          paths ← merge_create unmergedPath cop mergedCop;
          '(rest, toDrop) ← merge_creates merged unmergedPath (S i) ops;
          mret (paths ++ rest, {[ i ]} ∪ toDrop)
      end
  end.
End merge_creates.

(** [fuel] bounds the depth of the directories. *)
Fixpoint checkPathForMerge (fuel : nat) (id : nat) (unmergedPath : path) : go bothChains (list path) :=
  match fuel with
  | 0 => panic "stack overflow"
  | S fuel =>
      s ← get;
      unmergedChain ← lift_res (deref_chain id (bc_unmerged s));
      match chain_by_original (cc_original unmergedChain) (bc_merged s) with
      | None => mret []
      | Some (_, mergedChain) =>
          let merged := mergedCreates (cc_ops mergedChain) in
          if decide (merged = ∅) then mret []
          else
            '(newUnmergedPaths, toDrop) ←
              merge_creates (checkPathForMerge fuel) merged unmergedPath 0 (cc_ops unmergedChain);
            _ ← on_unmerged (if decide (toDrop = ∅) then mret tt else set_ops (keep_ops 0 toDrop) id);
            mret newUnmergedPaths
      end
  end.

Fixpoint findCreatedDirsToMerge (fuel : nat) (unmergedPaths : list path) : go bothChains (list path) :=
  match unmergedPaths with
  | [] => mret []
  | unmergedPath :: unmergedPaths =>
      s ← get;
      tail ← lift_res (tailPointer unmergedPath);
      match chain_at tail (bc_unmerged s) with
      | None => fail (Errorf "findCreatedDirsToMerge: No unmerged chain for most recent")
      | Some (id, _) =>
          newPaths ← checkPathForMerge fuel id unmergedPath;
          rest ← findCreatedDirsToMerge fuel unmergedPaths;
          mret (newPaths ++ rest)
      end
  end.

(** ** The merged path of an unmerged node *)

Definition addChildBlocksIfIndirectFile (side : branchSide) (original : BlockPointer) (chains : crChains) (o : op)
    : res op :=
  mostRecent ← mostRecentFromOriginalOrSame original chains;
  fblock ← rv_GetFileBlock side mostRecent;
  Ok (if cb_IsInd (fb_CommonBlock fblock)
      then foldl (λ o iptr, AddRefBlock (bi_BlockPointer (ifp_BlockInfo iptr)) o) o (fb_IPtrs fblock) else o).

(** The list without the first remove that unreferences [ptr]. *)
Fixpoint drop_rm_of (ptr : BlockPointer) (ops : list op) : list op :=
  match ops with
  | [] => []
  | RmOp ro :: ops' => if decide (ptr ∈ Unrefs (RmOp ro)) then ops' else RmOp ro :: drop_rm_of ptr ops'
  | o :: ops' => o :: drop_rm_of ptr ops'
  end.

(** [ro.dropThis = true] for the first remove of the name. *)
Fixpoint mark_dropped (name : string) (ops : list op) : list op :=
  match ops with
  | [] => []
  | RmOp ro :: ops' =>
      if decide (ro_OldName ro = name) then RmOp (MkRmOp (ro_OpCommon ro) (ro_OldName ro) (ro_Dir ro) true) :: ops'
      else RmOp ro :: mark_dropped name ops'
  | o :: ops' => o :: mark_dropped name ops'
  end.

(** The first create of the name becomes [co]. *)
Fixpoint replace_create (name : string) (co : op) (ops : list op) : list op :=
  match ops with
  | [] => []
  | o :: ops' => if creates name o then co :: ops' else o :: replace_create name co ops'
  end.

(** The create that brings back [currOriginal] under its name. *)
Definition recreate_op (name : string) (parentOriginal currOriginal : BlockPointer) (t : EntryType) (parent : path) : op :=
  AddRefBlock currOriginal (setFinalPath parent
    (AddUpdate parentOriginal parentOriginal (CreateOp (newCreateOp name parentOriginal t)))).

(** The first loop: from a node that the merged branch deleted up to one
    that it did not.  [nodes] and [recreateOps] are filled in backwards.
    Two of the [continue]s of the code come before the step to the parent,
    so that the loop goes on with the same node. *)
Fixpoint find_merged_parent (fuel : nat) (currOriginal : BlockPointer) (currPath : path) (nodes : list pathNode)
    (recreateOps : list op) : go bothChains (path * list pathNode * list op) :=
  match fuel with
  | 0 => panic "does not return"
  | S fuel =>
      s ← get;
      if negb (isDeleted currOriginal (bc_merged s)) then mret (currPath, nodes, recreateOps)
      else if negb (hasValidParent currPath) then fail (Errorf "Couldn't find valid merged parent path")
      else
        name ← lift_res (tailName currPath);
        let nodes := nodes ++ [MkPathNode currOriginal name] in
        parent ← lift_res (parentPath currPath);
        parentPtr ← lift_res (tailPointer parent);
        parentOriginal ← lift_res (originalFromMostRecent parentPtr (bc_unmerged s));
        match ccs_byOriginal (bc_merged s) !! parentOriginal with
        | None => find_merged_parent fuel currOriginal currPath nodes recreateOps
        | Some mid =>
            mergedMostRecent ← lift_res (mostRecentFromOriginalOrSame currOriginal (bc_merged s));
            _ ← on_merged (set_ops (drop_rm_of mergedMostRecent) mid);
            de ← lift_res (rv_GetDirtyEntry currPath);
            let co := recreate_op name parentOriginal currOriginal (de_Type de) parent in
            co ← (if decide (de_Type de ≠ Dir)
                  then lift_res (addChildBlocksIfIndirectFile UnmergedSide currOriginal (bc_unmerged s) co)
                  else mret co);
            match ccs_renamedOriginals (bc_unmerged s) !! currOriginal with
            | None => find_merged_parent fuel parentOriginal parent nodes (recreateOps ++ [co])
            | Some ri =>
                match ccs_byOriginal (bc_unmerged s) !! ri_originalOldParent ri with
                | None => find_merged_parent fuel currOriginal currPath nodes recreateOps
                | Some old =>
                    _ ← on_unmerged (set_ops (mark_dropped (ri_oldName ri)) old);
                    match ccs_byOriginal (bc_unmerged s) !! ri_originalNewParent ri with
                    | None => find_merged_parent fuel currOriginal currPath nodes recreateOps
                    | Some new =>
                        _ ← on_unmerged (set_ops (replace_create (ri_newName ri) co) new);
                        find_merged_parent fuel parentOriginal parent nodes recreateOps
                    end
                end
            end
        end
  end.

(** The second loop: up to a node that the merged branch changed, or
    renamed. *)
Fixpoint climb_merged (unmergedChains mergedChains : crChains) (up : list pathNode) (nodes : list pathNode)
    : res (list pathNode * BlockPointer) :=
  match up with
  | [] => Ok (nodes, zeroPtr)
  | pn :: up =>
      currOriginal ← originalFromMostRecent (pn_BlockPointer pn) unmergedChains;
      match mostRecentFromOriginal currOriginal mergedChains with
      | Ok mostRecent => Ok (nodes, mostRecent)
      | _ =>
          match renamedParentAndName currOriginal mergedChains with
          | (originalParent, newName, true) =>
              mostRecentParent ← mostRecentFromOriginal originalParent mergedChains;
              Ok (nodes ++ [MkPathNode currOriginal newName], mostRecentParent)
          | _ => climb_merged unmergedChains mergedChains up (nodes ++ [MkPathNode currOriginal (pn_Name pn)])
          end
      end
  end.

Definition resolveMergedPathTail (fuel : nat) (unmergedPath : path) : go bothChains (path * BlockPointer * list op) :=
  s ← get;
  tail ← lift_res (tailPointer unmergedPath);
  unmergedOriginal ← lift_res (originalFromMostRecent tail (bc_unmerged s));
  '(currPath, nodes, recreateOps) ← find_merged_parent fuel unmergedOriginal unmergedPath [] [];
  s ← get;
  '(nodes, mostRecent) ← lift_res (climb_merged (bc_unmerged s) (bc_merged s) (reverse (p_path currPath)) nodes);
  mret (MkPath (p_FolderBranch unmergedPath) (reverse nodes), mostRecent, reverse recreateOps).

(** ** All merged paths *)

(** The chains to search for: for a merged pointer, the unmerged pointers
    that wait for its path. *)
Definition wait_for (merged unmerged : BlockPointer) (m : gmap BlockPointer (list BlockPointer))
    : gmap BlockPointer (list BlockPointer) :=
  <[merged := default [] (m !! merged) ++ [unmerged]]> m.

(** A directory that the unmerged branch changed and deleted, and the merged
    branch changed: its merged and unmerged pointers. *)
Definition deleted_but_merged (s : bothChains) (e : BlockPointer * nat) : option (BlockPointer * BlockPointer) :=
  unmergedChain ← ccs_chains (bc_unmerged s) !! snd e;
  '(_, mergedChain) ← chain_by_original (fst e) (bc_merged s);
  if isDeleted (fst e) (bc_unmerged s) && negb (bool_decide (cc_ops unmergedChain = [])) &&
     negb (isFile unmergedChain) && negb (bool_decide (cc_ops mergedChain = []))
  then Some (cc_mostRecent mergedChain, cc_mostRecent unmergedChain) else None.

Record pathTails := MkPathTails {
  pt_mergedPaths : gmap BlockPointer path;
  pt_recreateOps : list op;
  pt_createsSeen : gset (BlockPointer * string);
  pt_search : gmap BlockPointer (list BlockPointer)
}.

Definition create_key (o : op) : BlockPointer * string :=
  match o with CreateOp co => (bu_Unref (co_Dir co), co_NewName co) | _ => (zeroPtr, EmptyString) end.
Definition add_recreate (t : pathTails) (o : op) : pathTails :=
  if decide (create_key o ∈ pt_createsSeen t) then t
  else MkPathTails (pt_mergedPaths t) (pt_recreateOps t ++ [o]) ({[ create_key o ]} ∪ pt_createsSeen t) (pt_search t).

Fixpoint resolve_tails (fuel : nat) (unmergedPaths : list path) (t : pathTails) : go bothChains pathTails :=
  match unmergedPaths with
  | [] => mret t
  | p :: unmergedPaths =>
      '(mergedPath, mostRecent, ops) ← resolveMergedPathTail fuel p;
      tail ← lift_res (tailPointer p);
      let t := foldl add_recreate t ops in
      resolve_tails fuel unmergedPaths
        (MkPathTails (<[tail := mergedPath]> (pt_mergedPaths t)) (pt_recreateOps t) (pt_createsSeen t)
           (if IsInitialized mostRecent then wait_for mostRecent tail (pt_search t) else pt_search t))
  end.

(** The found path goes before the tail. *)
Definition prepend_found (p : path) (unmergedMostRecent : BlockPointer) (m : gmap BlockPointer path)
    : go bothChains (gmap BlockPointer path) :=
  let mergedPath := default zeroPath (m !! unmergedMostRecent) in
  let mergedPath := MkPath (p_FolderBranch mergedPath) (p_path p ++ p_path mergedPath) in
  tail ← lift_res (tailPointer mergedPath);
  s ← get;
  _ ← (match ccs_byMostRecent (bc_merged s) !! tail with
       | Some id => on_merged (set_final_paths mergedPath id)
       | None => mret tt
       end);
  mret (<[unmergedMostRecent := mergedPath]> m).

Fixpoint prepend_all (p : path) (ptrs : list BlockPointer) (m : gmap BlockPointer path)
    : go bothChains (gmap BlockPointer path) :=
  match ptrs with
  | [] => mret m
  | ptr :: ptrs => m ← prepend_found p ptr m; prepend_all p ptrs m
  end.

Fixpoint fill_in (search : gmap BlockPointer (list BlockPointer)) (found : list (BlockPointer * option path))
    (m : gmap BlockPointer path) : go bothChains (gmap BlockPointer path) :=
  match found with
  | [] => mret m
  | (ptr, None) :: _ => fail (NodeNotFoundError ptr)
  | (ptr, Some p) :: found =>
      m ← prepend_all p (default [] (search !! ptr)) m;
      fill_in search found m
  end.

Definition fake_path (ptr : BlockPointer) : path := MkPath rv_folderBranch [MkPathNode ptr EmptyString].

(** The merged paths, the creates and the new unmerged paths. *)
Definition resolveMergedPaths (fuel : nat) (unmergedPaths : list path)
    : go bothChains (gmap BlockPointer path * list op * list path) :=
  s ← get;
  let deleted := omap (deleted_but_merged s) (rv_range (ccs_byOriginal (bc_unmerged s))) in
  let newUnmergedPaths := fake_path ∘ snd <$> deleted in
  if decide (unmergedPaths = [] ∧ deleted = []) then mret (∅, [], [])
  else
    t ← resolve_tails fuel unmergedPaths
          (MkPathTails ∅ [] ∅ (foldl (λ m e, wait_for (fst e) (snd e) m) ∅ deleted));
    rootName ← lift_res (match unmergedPaths with
                         | MkPath _ (n :: _) :: _ => Ok (pn_Name n)
                         | _ => Panic "index out of range"
                         end);
    s ← get;
    let ptrs := (fst <$> deleted) ++ (fst <$> rv_range (pt_search t)) in
    if decide (ptrs = []) then mret (pt_mergedPaths t, pt_recreateOps t, newUnmergedPaths)
    else
      nodeMap ← lift_res (rv_searchMerged rootName ptrs (dom (ccs_byMostRecent (bc_merged s))));
      mergedPaths ← fill_in (pt_search t) (rv_range nodeMap) (pt_mergedPaths t);
      mret (mergedPaths, pt_recreateOps t, newUnmergedPaths).
End resolver.
