(* ===== verification/ResolverActions.v ===== *)
(** * ResolverActions: what a resolution does to the merged branch
    ([conflict_resolver.go], the second and third step of a resolution)

    The chains of the two branches are adapted to each other: directories
    that one branch removed and the other changed are created again, renames
    that would make a cycle and nodes that both branches renamed become
    symbolic links or copies.  Then the actions of every directory are
    computed and run on copies of the blocks. *)

From Stdlib Require Import ZArith Lia.
From S2P Require Import Prelude Types Errors CryptoCommon DataTypes Ops FolderBlocks CRChains CRActions ResolverPaths.

(** The chains, and the merged path of every unmerged pointer. *)
Record resolverState := MkResolverState {
  rst_chains : bothChains;
  rst_mergedPaths : gmap BlockPointer path
}.
Definition on_chains {A} (m : go bothChains A) : go resolverState A := λ s,
  let '(r, c) := m (rst_chains s) in (r, MkResolverState c (rst_mergedPaths s)).
Definition set_mergedPath (ptr : BlockPointer) (p : path) (s : resolverState) : resolverState :=
  MkResolverState (rst_chains s) (<[ptr := p]> (rst_mergedPaths s)).

Definition set_renamed (m : gmap BlockPointer renameInfo) (s : crChains) : crChains :=
  set_tracking (ccs_deletedOriginals s) (ccs_createdOriginals s) m s.

Section actions.
Context `{ResolverConfig}.

(** ** What the merged branch removed *)

(** For every pointer on a merged path, the key of such a path. *)
Definition path_keys (mergedPaths : gmap BlockPointer path) : gmap BlockPointer BlockPointer :=
  foldl (λ keys e, foldl (λ keys n, <[pn_BlockPointer n := fst e]> keys) keys (p_path (snd e))) ∅ (rv_range mergedPaths).

(** The part of the path up to [ptr]. *)
Fixpoint path_up_to (fuel : nat) (ptr : BlockPointer) (currPath : path) : res path :=
  match fuel with
  | 0 => Ok currPath
  | S fuel =>
      tail ← tailPointer currPath;
      if decide (tail ≠ ptr ∧ hasValidParent currPath = true)
      then parent ← parentPath currPath; path_up_to fuel ptr parent
      else Ok currPath
  end.

(** One create: the new unmerged path, if its chain had no operations. *)
Definition add_recreate_op (keys : gmap BlockPointer BlockPointer) (winfo : writerInfo) (rop : op)
    : go resolverState (list path) :=
  let rop := setWriterInfo winfo rop in
  s ← get;
  origTargetPtr ← lift_res (originalFromMostRecentOrSame (bu_Unref (update_of rop)) (bc_merged (rst_chains s)));
  match chain_by_original origTargetPtr (bc_unmerged (rst_chains s)) with
  | None => fail (Errorf "recreateOp has no chain")
  | Some (id, chain) =>
      let newPaths := if decide (cc_ops chain = []) then [getFinalPath rop] else [] in
      _ ← on_chains (on_unmerged (set_ops (cons rop) id));
      match rst_mergedPaths s !! cc_mostRecent chain with
      | Some _ => mret newPaths
      | None =>
          let original := cc_original chain in
          let mergedChains := bc_merged (rst_chains s) in
          let mergedMostRecent :=
            if isDeleted original mergedChains then original
            else match chain_by_original original mergedChains with Some (_, c) => cc_mostRecent c | None => original end in
          match keys !! mergedMostRecent with
          | None => fail (Errorf "Couldn't find a merged path containing the target of a recreate op")
          | Some key =>
              let p := default zeroPath (rst_mergedPaths s !! key) in
              currPath ← lift_res (path_up_to (length (p_path p)) mergedMostRecent p);
              _ ← modify (set_mergedPath (cc_mostRecent chain) currPath);
              mret newPaths
          end
      end
  end.

Fixpoint add_recreate_ops (keys : gmap BlockPointer BlockPointer) (winfo : writerInfo) (recreateOps : list op)
    : go resolverState (list path) :=
  match recreateOps with
  | [] => mret []
  | rop :: recreateOps =>
      p ← add_recreate_op keys winfo rop;
      rest ← add_recreate_ops keys winfo recreateOps;
      mret (p ++ rest)
  end.

Definition addRecreateOpsToUnmergedChains (recreateOps : list op) : go resolverState (list path) :=
  match recreateOps with
  | [] => mret []
  | _ =>
      s ← get;
      let keys := path_keys (rst_mergedPaths s) in
      '(_, uid) ← lift_res rv_GetCurrentUserInfo;
      winfo ← lift_res (rv_newWriterInfo uid (bmd_writerKID (rv_mostRecentMD UnmergedSide)));
      add_recreate_ops keys winfo recreateOps
  end.

(** ** Renames *)

Definition renames_to (name : string) (o : op) : bool :=
  match o with CreateOp cop => co_renamed cop && bool_decide (co_NewName cop = name) | _ => false end.

(** The create half of a rename as the create of a link or of a copy. *)
Definition as_symlink_or_copy (symPath : string) (o : op) : op :=
  match o with
  | CreateOp cop =>
      if decide (co_Type cop = Dir) then
        let c := co_OpCommon cop in
        CreateOp (MkCreateOp (MkOpCommon [] (oc_UnrefBlocks c) (oc_Updates c) (oc_writerInfo c) (oc_finalPath c))
                    (co_NewName cop) (co_Dir cop) Sym false (co_forceCopy cop) symPath)
      else CreateOp (MkCreateOp (co_OpCommon cop) (co_NewName cop) (co_Dir cop) (co_Type cop) false true (co_crSymPath cop))
  | _ => o
  end.
Definition create_type (o : op) : EntryType := match o with CreateOp cop => co_Type cop | _ => File end.

(** The two halves of the inverted rename. *)
Definition invert_create (info : renameInfo) : op :=
  RmOp (MkRmOp zeroOpCommon (ri_newName info) (MkBlockUpdate (ri_originalNewParent info) (ri_originalNewParent info)) false).
Definition invert_rm (info : renameInfo) (t : EntryType) (ptr : BlockPointer) : op :=
  AddRefBlock ptr (CreateOp (MkCreateOp zeroOpCommon (ri_oldName info)
    (MkBlockUpdate (ri_originalOldParent info) (ri_originalOldParent info)) t true false EmptyString)).

Definition convertCreateIntoSymlinkOrCopy (ptr : BlockPointer) (info : renameInfo) (id : nat) (symPath : string)
    : go bothChains unit :=
  s ← get;
  chain ← lift_res (deref_chain id (bc_unmerged s));
  match list_find (λ o, renames_to (ri_newName info) o = true) (cc_ops chain) with
  | None => fail (Errorf "fixRenameConflicts: couldn't find rename op")
  | Some (i, o) =>
      _ ← on_unmerged (set_ops (alter (as_symlink_or_copy symPath) i) id);
      newInfo ←
        (match ccs_renamedOriginals (bc_merged s) !! ptr with
         | Some info2 => mret (MkRenameInfo (ri_originalNewParent info) (ri_newName info)
                                 (ri_originalNewParent info2) (ri_newName info2))
         | None =>
             mergedNewMostRecent ← lift_res (mostRecentFromOriginalOrSame (ri_originalNewParent info) (bc_merged s));
             mergedOldMostRecent ← lift_res (mostRecentFromOriginalOrSame (ri_originalOldParent info) (bc_merged s));
             _ ← on_merged (prependOpsToChain mergedOldMostRecent
                   [invert_rm info (create_type (as_symlink_or_copy symPath o)) ptr]);
             _ ← on_merged (prependOpsToChain mergedNewMostRecent [invert_create info]);
             mret (MkRenameInfo (ri_originalNewParent info) (ri_newName info)
                     (ri_originalOldParent info) (ri_oldName info))
         end);
      _ ← on_merged (modify (λ c, set_renamed (<[ptr := newInfo]> (ccs_renamedOriginals c)) c));
      match ccs_byOriginal (bc_unmerged s) !! ri_originalOldParent info with
      | None => panic "nil pointer dereference"
      | Some old => on_unmerged (set_ops (mark_dropped (ri_oldName info)) old)
      end
  end.

Fixpoint repeat_string (n : nat) (s : string) : string :=
  match n with 0 => EmptyString | S n => (s +:+ repeat_string n s)%string end.

(** Chains with only the node [id], to search for its path: the other chains
    are there without their operations. *)
Definition only_chain (id : nat) (c : crChain) (s : crChains) : crChains :=
  foldl (λ n e,
    match ccs_chains s !! snd e with
    | Some c' =>
        if decide (cc_original c' = cc_original c) then n
        else set_maps (<[cc_original c' := snd e]> (ccs_byOriginal n)) (<[cc_mostRecent c' := snd e]> (ccs_byMostRecent n)) ∅
               (set_chain (snd e) (MkCrChain [] (cc_original c') (cc_mostRecent c')) n)
    | None => n
    end)
    (set_maps {[ cc_original c := id ]} {[ cc_mostRecent c := id ]} ∅ (set_chain id c newCRChainsEmpty))
    (rv_range (ccs_byOriginal s)).

(** [getPathsFromChains] on these; the operations of [id] are shared. *)
Definition find_unmerged_path (id : nat) : go crChains (list path) := λ s,
  match ccs_chains s !! id with
  | None => (Panic "nil pointer dereference", s)
  | Some c =>
      let '(r, n) := getPathsFromChains (only_chain id c s) in
      (r, match ccs_chains n !! id with Some c' => set_chain id c' s | None => s end)
  end.

(** The last node of the path that has a merged path, with the number of
    nodes after it. *)
Fixpoint last_merged (up : list pathNode) (mergedPaths : gmap BlockPointer path) (walkBack : nat) : option (path * nat) :=
  match up with
  | [] => None
  | n :: up =>
      match mergedPaths !! pn_BlockPointer n with
      | Some p => Some (p, walkBack)
      | None => last_merged up mergedPaths (S walkBack)
      end
  end.

(** The merged path for the new parent of a rename: the path, the part of
    the unmerged path that has none, and the unmerged path. *)
Definition merged_parent (parent originalNewParent : BlockPointer) : go resolverState (path * nat * path) :=
  s ← get;
  match rst_mergedPaths s !! parent with
  | Some p => mret (p, 0, zeroPath)
  | None =>
      if negb (isCreated originalNewParent (bc_unmerged (rst_chains s)))
      then fail (Errorf "fixRenameConflicts: couldn't find merged path")
      else
        match ccs_byOriginal (bc_unmerged (rst_chains s)) !! originalNewParent with
        | None => panic "nil pointer dereference"
        | Some id =>
            unmergedPaths ← on_chains (on_unmerged (find_unmerged_path id));
            match unmergedPaths with
            | [unmergedPath] =>
                match last_merged (reverse (p_path unmergedPath)) (rst_mergedPaths s) 0 with
                | Some (p, n) => mret (p, n, unmergedPath)
                | None => fail (Errorf "fixRenameConflicts: couldn't find any merged path for any parents")
                end
            | _ => fail (Errorf "fixRenameConflicts: couldn't find the unmerged path")
            end
        end
  end.

(** The original of a node of a merged path. *)
Definition merged_original (mergedChains : crChains) (ptr : BlockPointer) : BlockPointer :=
  match originalFromMostRecent ptr mergedChains with Ok original => original | _ => ptr end.

(** The nodes of the path from index [x], looking for [ptr] itself. *)
Fixpoint break_cycle (ptr : BlockPointer) (info : renameInfo) (parent : BlockPointer) (mergedPath : path)
    (unmergedWalkBack : nat) (unmergedPath : path) (x : nat) (nodes : list pathNode)
    : go resolverState (list path * list BlockPointer) :=
  match nodes with
  | [] => mret ([], [])
  | pn :: nodes =>
      s ← get;
      if decide (merged_original (bc_merged (rst_chains s)) (pn_BlockPointer pn) ≠ ptr)
      then break_cycle ptr info parent mergedPath unmergedWalkBack unmergedPath (S x) nodes
      else
        match chain_at parent (bc_unmerged (rst_chains s)) with
        | None => fail (Errorf "fixRenameConflicts: no chain for parent")
        | Some (id, _) =>
            let walkBack := unmergedWalkBack + (length (p_path mergedPath) - 1 - x) in
            _ ← on_chains (convertCreateIntoSymlinkOrCopy ptr info id ("./" +:+ repeat_string walkBack "../")%string);
            _ ← (if decide (0 < unmergedWalkBack) then
                   tail ← lift_res (tailPointer unmergedPath);
                   modify (set_mergedPath tail
                     (MkPath (p_FolderBranch mergedPath)
                        (p_path mergedPath ++ drop (length (p_path unmergedPath) - unmergedWalkBack) (p_path unmergedPath))))
                 else mret tt);
            '(paths, removed) ← break_cycle ptr info parent mergedPath unmergedWalkBack unmergedPath (S x) nodes;
            mret (if decide (0 < unmergedWalkBack) then unmergedPath :: paths else paths, ptr :: removed)
        end
  end.

(** The loop over the unmerged renames: the new paths, the renames to
    remove, and the merged pointers of what both branches renamed. *)
Fixpoint check_renames (renames : list (BlockPointer * renameInfo))
    : go resolverState (list path * list BlockPointer * list BlockPointer) :=
  match renames with
  | [] => mret ([], [], [])
  | (ptr, info) :: renames =>
      s ← get;
      let both :=
        match ccs_renamedOriginals (bc_merged (rst_chains s)) !! ptr with
        | Some mergedInfo => bool_decide (ri_originalNewParent info ≠ ri_originalNewParent mergedInfo ∨
                                          ri_newName info ≠ ri_newName mergedInfo)
        | None => false
        end in
      if both then
        mergedMostRecent ← lift_res (mostRecentFromOriginalOrSame ptr (bc_merged (rst_chains s)));
        '(paths, removed, double) ← check_renames renames;
        mret (paths, removed, mergedMostRecent :: double)
      else
        parent ← lift_res (mostRecentFromOriginal (ri_originalNewParent info) (bc_unmerged (rst_chains s)));
        '(mergedPath, walkBack, unmergedPath) ← merged_parent parent (ri_originalNewParent info);
        '(paths, removed) ← break_cycle ptr info parent mergedPath walkBack unmergedPath 0 (p_path mergedPath);
        '(paths', removed', double) ← check_renames renames;
        mret (paths ++ paths', removed ++ removed', double)
  end.

(** Where the new parent's path leaves the old parent's, and the way up to
    there. *)
Fixpoint common_start (unmergedChains mergedChains : crChains) (old : list pathNode) (new : list pathNode) (symPath : string)
    : res (string * nat) :=
  match old with
  | [] => Ok (symPath, 0)
  | n :: old =>
      original ← originalFromMostRecentOrSame (pn_BlockPointer n) unmergedChains;
      mergedMostRecent ← mostRecentFromOriginalOrSame original mergedChains;
      match list_find (λ m, pn_BlockPointer m = mergedMostRecent) new with
      | Some (j, _) => Ok (symPath, j)
      | None => common_start unmergedChains mergedChains old new (symPath +:+ "../")%string
      end
  end.

(** The names from the common node down to right before the node itself. *)
Definition down_path (newParentStart : nat) (nodes : list pathNode) : string :=
  foldr (λ n s, (pn_Name n +:+ "/" +:+ s)%string) EmptyString
    (drop (S newParentStart) (take (length nodes - 1) nodes)).

Definition fix_double_rename (nodeMap : gmap BlockPointer (option path)) (ptr : BlockPointer) : go resolverState unit :=
  match nodeMap !! ptr with
  | Some (Some mergedPathNewParent) =>
      s ← get;
      let '(MkBoth unmergedChains mergedChains) := rst_chains s in
      original ← lift_res (originalFromMostRecentOrSame ptr mergedChains);
      match ccs_renamedOriginals unmergedChains !! original, ccs_renamedOriginals mergedChains !! original with
      | Some unmergedInfo, Some mergedInfo =>
          match chain_by_original (ri_originalNewParent unmergedInfo) unmergedChains with
          | None => fail (Errorf "fixRenameConflicts: no chain for parent")
          | Some (id, chain) =>
              match rst_mergedPaths s !! cc_mostRecent chain with
              | None => fail (Errorf "fixRenameConflicts: couldn't find merged path for old parent")
              | Some mergedPathOldParent =>
                  '(symPath, start) ← lift_res (common_start unmergedChains mergedChains
                                        (reverse (p_path mergedPathOldParent)) (p_path mergedPathNewParent) "./");
                  on_chains (convertCreateIntoSymlinkOrCopy original unmergedInfo id
                    (symPath +:+ down_path start (p_path mergedPathNewParent) +:+ ri_newName mergedInfo)%string)
              end
          end
      | _, _ => fail (Errorf "fixRenameConflicts: can't find the rename info")
      end
  | _ => fail (Errorf "Couldn't find merged path for doubly-renamed pointer")
  end.

Definition fixRenameConflicts : go resolverState (list path) :=
  s ← get;
  '(newUnmergedPaths, removeRenames, doubleRenames) ←
    check_renames (rv_range (ccs_renamedOriginals (bc_unmerged (rst_chains s))));
  _ ← on_chains (on_unmerged (modify (λ c,
        set_renamed (foldl (λ m ptr, delete ptr m) (ccs_renamedOriginals c) removeRenames) c)));
  if decide (doubleRenames = []) then mret newUnmergedPaths
  else
    s ← get;
    nodeMap ← lift_res (rv_searchMerged (bmd_canonicalName (rv_mostRecentMD MergedSide)) doubleRenames
                (dom (ccs_byMostRecent (bc_merged (rst_chains s)))));
    _ ← go_for doubleRenames (fix_double_rename nodeMap);
    mret newUnmergedPaths.

(** ** What the unmerged branch removed *)

(** A remove without a pointer is half of a rename; if the node was deleted
    in the end, its pointer is added. *)
Definition rename_target_of (unmergedChain : crChain) (s : crChains) (ro : rmOp) : option BlockPointer :=
  fst <$> head (filter (λ e, ri_originalOldParent (snd e) = cc_original unmergedChain ∧
                             ri_oldName (snd e) = ro_OldName ro ∧ isDeleted (fst e) s = true)
                       (rv_range (ccs_renamedOriginals s))).
Definition find_unref (unmergedChain : crChain) (s : crChains) (ro : rmOp) : rmOp :=
  if decide (Unrefs (RmOp ro) = []) then
    match rename_target_of unmergedChain s ro with
    | Some original => MkRmOp (OpCommon_AddUnrefBlock original (ro_OpCommon ro)) (ro_OldName ro) (ro_Dir ro) (ro_dropThis ro)
    | None => ro
    end
  else ro.

(** Where the merged node is to be created again. *)
Definition recreate_place (unmergedChain : crChain) (ro : rmOp) (unrefOriginal : BlockPointer) (s : bothChains)
    : BlockPointer * string :=
  match renamedParentAndName unrefOriginal (bc_merged s) with
  | (newParent, newName, true) => (newParent, newName)
  | _ =>
      match ccs_renamedOriginals (bc_unmerged s) !! unrefOriginal with
      | Some info => (ri_originalOldParent info, ri_oldName info)
      | None => (cc_original unmergedChain, ro_OldName ro)
      end
  end.

Definition merged_recreate (c chain : crChain) (name : string) (winfo : writerInfo) : op :=
  setWriterInfo winfo (AddRefBlock (cc_mostRecent c)
    (CreateOp (MkCreateOp zeroOpCommon name (MkBlockUpdate (cc_original chain) (cc_original chain))
       (if isFile c then File else Dir) false false EmptyString))).

(** The loop over the pointers that the remove unreferences; whether the
    remove is to be dropped. *)
Fixpoint recreate_unrefs (unmergedChain : crChain) (ro : rmOp) (unrefs : list BlockPointer) (dropThis : bool)
    : go bothChains bool :=
  match unrefs with
  | [] => mret dropThis
  | ptr :: unrefs =>
      s ← get;
      unrefOriginal ← lift_res (originalFromMostRecentOrSame ptr (bc_unmerged s));
      match chain_by_original unrefOriginal (bc_merged s) with
      | None => recreate_unrefs unmergedChain ro unrefs dropThis
      | Some (_, c) =>
          let '(parentOriginal, name) := recreate_place unmergedChain ro unrefOriginal s in
          match chain_by_original parentOriginal (bc_merged s) with
          | None => fail (Errorf "Couldn't find chain for parent of merged entry we're trying to recreate")
          | Some (id, chain) =>
              let md := rv_mostRecentMD MergedSide in
              winfo ← lift_res (rv_newWriterInfo (bmd_LastModifyingWriter md) (bmd_writerKID md));
              _ ← on_merged (set_ops (cons (merged_recreate c chain name winfo)) id);
              recreate_unrefs unmergedChain ro unrefs true
          end
      end
  end.

(** The loop over the operations of a chain, which come out changed. *)
Fixpoint recreate_ops (unmergedChain : crChain) (ops : list op) : go bothChains (list op) :=
  match ops with
  | [] => mret []
  | RmOp ro :: ops =>
      s ← get;
      let ro := find_unref unmergedChain (bc_unmerged s) ro in
      dropThis ← recreate_unrefs unmergedChain ro (Unrefs (RmOp ro)) (ro_dropThis ro);
      rest ← recreate_ops unmergedChain ops;
      mret (RmOp (MkRmOp (ro_OpCommon ro) (ro_OldName ro) (ro_Dir ro) dropThis) :: rest)
  | o :: ops => rest ← recreate_ops unmergedChain ops; mret (o :: rest)
  end.

Definition recreate_chain (id : nat) : go bothChains unit :=
  s ← get;
  unmergedChain ← lift_res (deref_chain id (bc_unmerged s));
  ops ← recreate_ops unmergedChain (cc_ops unmergedChain);
  on_unmerged (set_ops (λ _, ops) id).

Definition addMergedRecreates : go bothChains unit :=
  s ← get;
  go_for (snd <$> rv_range (ccs_byMostRecent (bc_unmerged s))) recreate_chain.

(** ** The actions *)

(** An action list may hold nil. *)
Definition actionMap := gmap BlockPointer (list (option crAction)).

Fixpoint merge_actions (s : resolverState) (chains : list (BlockPointer * nat)) (m : actionMap) : res actionMap :=
  match chains with
  | [] => Ok m
  | (unmergedMostRecent, id) :: chains =>
      unmergedChain ← deref_chain id (bc_unmerged (rst_chains s));
      let mergedChain := snd <$> chain_by_original (cc_original unmergedChain) (bc_merged (rst_chains s)) in
      match rst_mergedPaths s !! unmergedMostRecent with
      | None => merge_actions s chains m
      | Some mergedPath =>
          actions ← getActionsToMerge rv_ConflictRename unmergedChain mergedPath mergedChain;
          match actions with
          | [] => merge_actions s chains m
          | _ => tail ← tailPointer mergedPath; merge_actions s chains (<[tail := actions]> m)
          end
      end
  end.

Definition cr_getActionsToMerge (s : resolverState) : res actionMap :=
  merge_actions s (rv_range (ccs_byMostRecent (bc_unmerged (rst_chains s)))) ∅.

(** [collapse], which leaves nil where it is. *)
Fixpoint expand_actions (i : nat) (rm : gset nat) (actions : list crAction) (l : list (option crAction))
    : list (option crAction) :=
  match l with
  | [] => []
  | None :: l => None :: expand_actions i rm actions l
  | Some a :: l =>
      let rest := expand_actions (S i) rm actions l in
      if decide (i ∈ rm) then rest else Some (default a (actions !! i)) :: rest
  end.
Definition collapse_action_list (l : list (option crAction)) : list (option crAction) :=
  let cal := omap id l in
  let s := collapse_scan_actions 0 cal (MkCollapseInfo cal ∅ ∅) in
  expand_actions 0 (cl_remove s) (cl_actions s) l.

(** The actions of a file go to its directory. *)
Definition combine_file (unmergedChains : crChains) (st : gmap BlockPointer path * actionMap) (e : BlockPointer * nat)
    : res (gmap BlockPointer path * actionMap) :=
  let '(mergedPaths, m) := st in
  chain ← deref_chain (snd e) unmergedChains;
  if negb (isFile chain) then Ok st
  else
    match mergedPaths !! fst e with
    | None => Ok st
    | Some p =>
        tail ← tailPointer p;
        match m !! tail with
        | None => Ok st
        | Some fileActions =>
            parent ← parentPath p;
            mergedParent ← tailPointer parent;
            Ok (<[fst e := parent]> mergedPaths,
                delete tail (<[mergedParent := default [] (m !! mergedParent) ++ fileActions]> m))
        end
    end.

Fixpoint combine_files (unmergedChains : crChains) (es : list (BlockPointer * nat)) (st : gmap BlockPointer path * actionMap)
    : res (gmap BlockPointer path * actionMap) :=
  match es with
  | [] => Ok st
  | e :: es => st ← combine_file unmergedChains st e; combine_files unmergedChains es st
  end.

Definition collapseActions (unmergedChains : crChains) (mergedPaths : gmap BlockPointer path) (m : actionMap)
    : res (gmap BlockPointer path * actionMap) :=
  '(mergedPaths, m) ← combine_files unmergedChains (rv_range (ccs_byMostRecent unmergedChains)) (mergedPaths, m);
  Ok (mergedPaths, fmap (M := gmap BlockPointer) collapse_action_list m).

Definition computeActions (recreateOps : list op) : go resolverState (actionMap * list path) :=
  newUnmergedPaths ← addRecreateOpsToUnmergedChains recreateOps;
  moreNewUnmergedPaths ← fixRenameConflicts;
  _ ← on_chains addMergedRecreates;
  s ← get;
  m ← lift_res (cr_getActionsToMerge s);
  '(mergedPaths, m) ← lift_res (collapseActions (bc_unmerged (rst_chains s)) (rst_mergedPaths s) m);
  _ ← put (MkResolverState (rst_chains s) mergedPaths);
  mret (m, newUnmergedPaths ++ moreNewUnmergedPaths).

(** ** Running the actions *)

Record actionState := MkActionState {
  as_chains : bothChains;
  as_actions : actionMap;
  as_lbc : gmap BlockPointer DirBlock;                        (* the modified directories *)
  as_newFileBlocks : gmap BlockPointer (gmap string FileBlock);
  as_done : gset BlockPointer;
  as_rand : list byte                                         (* the source of randomness *)
}.
Definition as_set_chains c s := MkActionState c (as_actions s) (as_lbc s) (as_newFileBlocks s) (as_done s) (as_rand s).
Definition as_set_actions m s := MkActionState (as_chains s) m (as_lbc s) (as_newFileBlocks s) (as_done s) (as_rand s).
Definition as_set_lbc l s := MkActionState (as_chains s) (as_actions s) l (as_newFileBlocks s) (as_done s) (as_rand s).
Definition as_set_files f s := MkActionState (as_chains s) (as_actions s) (as_lbc s) f (as_done s) (as_rand s).
Definition as_set_done d s := MkActionState (as_chains s) (as_actions s) (as_lbc s) (as_newFileBlocks s) d (as_rand s).
Definition as_set_rand r s := MkActionState (as_chains s) (as_actions s) (as_lbc s) (as_newFileBlocks s) (as_done s) r.
Definition as_on_chains {A} (m : go bothChains A) : go actionState A := λ s,
  let '(r, c) := m (as_chains s) in (r, as_set_chains c s).
Definition as_get_chains (side : branchSide) (s : actionState) : crChains :=
  match side with UnmergedSide => bc_unmerged (as_chains s) | MergedSide => bc_merged (as_chains s) end.
Definition as_modify_chains (side : branchSide) (f : crChains → crChains) (s : actionState) : actionState :=
  as_set_chains (match side with
                 | UnmergedSide => MkBoth (f (bc_unmerged (as_chains s))) (bc_merged (as_chains s))
                 | MergedSide => MkBoth (bc_unmerged (as_chains s)) (f (bc_merged (as_chains s)))
                 end) s.

Context `{Codec FileBlock, Codec DirBlock}.

Definition fetchDirBlockCopy (side : branchSide) (ptr : BlockPointer) : go actionState DirBlock :=
  s ← get;
  match as_lbc s !! ptr with
  | Some block => mret block
  | None =>
      dblock ← lift_res (rv_GetDirBlock side ptr);
      dblock ← lift_res (DirBlock_DeepCopy dblock);
      _ ← modify (as_set_lbc (<[ptr := dblock]> (as_lbc s)));
      mret dblock
  end.

Definition draw_nonce : go actionState BlockRefNonce :=
  s ← get;
  nonce ← lift_res (MakeBlockRefNonce (as_rand s));
  _ ← put (as_set_rand (drop 8 (as_rand s)) s);
  mret nonce.
Definition draw_block_id : go actionState BlockID :=
  s ← get;
  i ← lift_res (MakeTemporaryBlockID (as_rand s));
  _ ← put (as_set_rand (drop 32 (as_rand s)) s);
  mret i.

(** A reference of one's own to the same block. *)
Definition new_reference (uid : UID) (ptr : BlockPointer) : go actionState BlockPointer :=
  nonce ← draw_nonce;
  mret (snd (SetWriter uid (MkBlockPointer (bp_ID ptr) (bp_KeyGen ptr) (bp_DataVer ptr) (bp_Creator ptr) (bp_Writer ptr) nonce))).

Definition note_created (ptr : BlockPointer) (s : crChains) : crChains :=
  set_tracking (ccs_deletedOriginals s) ({[ ptr ]} ∪ ccs_createdOriginals s) (ccs_renamedOriginals s) s.

Definition iptr_pointer (i : IndirectFilePtr) : BlockPointer := bi_BlockPointer (ifp_BlockInfo i).
Definition set_iptr_pointer (ptr : BlockPointer) (i : IndirectFilePtr) : IndirectFilePtr :=
  MkIndirectFilePtr (MkBlockInfo ptr (bi_EncodedSize (ifp_BlockInfo i))) (ifp_Off i).

Fixpoint copy_leaves (side : branchSide) (uid : UID) (newlyCreated : bool) (iptrs : list IndirectFilePtr)
    : go actionState (list IndirectFilePtr) :=
  match iptrs with
  | [] => mret []
  | iptr :: iptrs =>
      _ ← (if newlyCreated then modify (as_modify_chains side (unref_later (iptr_pointer iptr))) else mret tt);
      ptr ← new_reference uid (iptr_pointer iptr);
      _ ← modify (as_modify_chains side (note_created ptr));
      rest ← copy_leaves side uid newlyCreated iptrs;
      mret (set_iptr_pointer ptr iptr :: rest)
  end.

Definition makeFileBlockDeepCopy (side : branchSide) (mergedMostRecent : BlockPointer) (name : string) (ptr : BlockPointer)
    : go actionState BlockPointer :=
  fblock ← lift_res (rv_GetFileBlock side ptr);
  fblock ← lift_res (FileBlock_DeepCopy fblock);
  '(_, uid) ← lift_res rv_GetCurrentUserInfo;
  newPtr ← (if cb_IsInd (fb_CommonBlock fblock) then
              newID ← draw_block_id;
              mret (MkBlockPointer newID (bmd_LatestKeyGeneration (rv_mostRecentMD side)) rv_DataVersion uid EmptyString
                      zeroBlockRefNonce)
            else new_reference uid ptr);
  _ ← modify (as_modify_chains side (note_created newPtr));
  s ← get;
  original ← lift_res (originalFromMostRecentOrSame ptr (as_get_chains side s));
  let newlyCreated := isCreated original (as_get_chains side s) in
  _ ← (if newlyCreated then modify (as_modify_chains side (unref_later original)) else mret tt);
  iptrs ← (if cb_IsInd (fb_CommonBlock fblock) then copy_leaves side uid newlyCreated (fb_IPtrs fblock)
           else mret (fb_IPtrs fblock));
  let fblock := MkFileBlock (fb_CommonBlock fblock) (fb_Contents fblock) iptrs in
  _ ← modify (λ s, as_set_files (<[mergedMostRecent :=
        <[name := fblock]> (default ∅ (as_newFileBlocks s !! mergedMostRecent))]> (as_newFileBlocks s)) s);
  mret newPtr.

(** The file that an action copies, with its new name. *)
Definition copied_file (a : crAction) (unmerged merged : DirBlock) : option (string * BlockPointer) :=
  match a with
  | RenameUnmerged a =>
      e ← db_Children unmerged !! rua_fromName a;
      if decide (rua_symPath a = EmptyString ∧ de_Type e ≠ Dir ∧ IsInitialized (de_pointer e) = true) then
        match uniquifyName merged (rua_toName a) with
        | Ok name => Some (name, de_pointer e)
        | _ => None
        end
      else None
  | _ => None
  end.

(** [NewDirBlock()], and the modified copy of a directory. *)
Definition emptyDirBlock : DirBlock := MkDirBlock (MkCommonBlock false 0) ∅ [].
Definition lbc_block (ptr : BlockPointer) (s : actionState) : DirBlock := default emptyDirBlock (as_lbc s !! ptr).

(** The blocks that an action works on: [u] is the unmerged one, unless it
    is the merged block itself. *)
Definition unmerged_block (aliased : bool) (u merged : DirBlock) : DirBlock := if aliased then merged else u.

Definition run_action (unmergedTail mergedTail : BlockPointer) (aliased : bool) (u : DirBlock) (a : crAction)
    : go actionState crAction :=
  s ← get;
  let merged := lbc_block mergedTail s in
  let uBlock := unmerged_block aliased u merged in
  let '(r, a) := swapUnmergedBlock (bc_unmerged (as_chains s)) (bc_merged (as_chains s)) uBlock a in
  '(swap, newPtr) ← lift_res r;
  uBlock ← (if (swap : bool) then
              if decide (newPtr = zeroPtr) then mret merged else lift_res (rv_GetDirBlock MergedSide newPtr)
            else mret uBlock);
  ptr ← (match copied_file a uBlock merged with
         | Some (name, ptr) => makeFileBlockDeepCopy UnmergedSide mergedTail name ptr
         | None => mret zeroPtr
         end);
  '(a, merged) ← lift_res (action_do (λ _ _, Ok ptr) a uBlock merged);
  _ ← modify (λ s, as_set_lbc (<[mergedTail := merged]> (as_lbc s)) s);
  mret a.

(** Calling a method of a nil action. *)
Definition the_action (a : option crAction) : res crAction :=
  match a with Some a => Ok a | None => Panic "nil pointer dereference" end.

Fixpoint run_actions (unmergedTail mergedTail : BlockPointer) (aliased : bool) (u : DirBlock) (l : list (option crAction))
    : go actionState (list (option crAction)) :=
  match l with
  | [] => mret []
  | a :: l =>
      a ← lift_res (the_action a);
      a ← run_action unmergedTail mergedTail aliased u a;
      rest ← run_actions unmergedTail mergedTail aliased u l;
      mret (Some a :: rest)
  end.

Definition update_ops_of (unmergedChain : crChain) (unmergedMostRecent mergedTail : BlockPointer) (aliased : bool)
    (u : DirBlock) (a : option crAction) : go actionState unit :=
  a ← lift_res (the_action a);
  s ← get;
  let original := cc_original unmergedChain in
  let mergedMostRecent :=
    match chain_by_original original (bc_merged (as_chains s)) with Some (_, c) => cc_mostRecent c | None => original end in
  let merged := lbc_block mergedTail s in
  as_on_chains (action_updateOps a unmergedMostRecent mergedMostRecent (unmerged_block aliased u merged) merged).

(** One unmerged path. *)
Definition do_path_actions (mergedPaths : gmap BlockPointer path) (unmergedPath : path) : go actionState unit :=
  unmergedMostRecent ← lift_res (tailPointer unmergedPath);
  s ← get;
  match chain_at unmergedMostRecent (bc_unmerged (as_chains s)) with
  | None => fail (Errorf "Couldn't find unmerged chain")
  | Some (_, unmergedChain) =>
      match mergedPaths !! unmergedMostRecent with
      | None => mret tt
      | Some mergedPath =>
          unmergedPath ← lift_res (if isFile unmergedChain then parentPath unmergedPath else Ok unmergedPath);
          unmergedTail ← lift_res (tailPointer unmergedPath);
          mergedTail ← lift_res (tailPointer mergedPath);
          u ← fetchDirBlockCopy UnmergedSide unmergedTail;
          s ← get;
          let deleted := isDeleted mergedTail (bc_merged (as_chains s)) in
          _ ← (if deleted
               then modify (λ s, as_set_lbc (<[mergedTail := emptyDirBlock]> (as_lbc s)) s)
               else _ ← fetchDirBlockCopy MergedSide mergedTail; mret tt);
          let aliased := bool_decide (unmergedTail = mergedTail) && negb deleted in
          let actions := default [] (as_actions s !! mergedTail) in
          actions ← (if decide (actions ≠ [] ∧ mergedTail ∉ as_done s) then
                       _ ← modify (λ s, as_set_done ({[ mergedTail ]} ∪ as_done s) s);
                       actions ← run_actions unmergedTail mergedTail aliased u actions;
                       _ ← modify (λ s, as_set_actions (<[mergedTail := actions]> (as_actions s)) s);
                       mret actions
                     else mret actions);
          go_for actions (update_ops_of unmergedChain unmergedMostRecent mergedTail aliased u)
      end
  end.

Definition doActions (unmergedPaths : list path) (mergedPaths : gmap BlockPointer path) : go actionState unit :=
  go_for unmergedPaths (do_path_actions mergedPaths).
End actions.
