(* ===== verification/ResolverOps.v ===== *)
(** * ResolverOps: the operations and the metadata of a resolution
    ([conflict_resolver.go], the last step of a resolution)

    The operations of the chains go back to the pointers from before the two
    branches, then to those of the resolution; the paths follow the renames;
    the blocks that the resolution refers to and drops are accounted for; and
    the operations for the local notifications are computed from the merged
    chains. *)

From Stdlib Require Import ZArith Lia.
From S2P Require Import Prelude Types Errors CryptoCommon Splitter DataTypes Ops ConflictInfo Handles KeyBundles Metadata FolderBlocks DirOps CRChains CRActions ResolverPaths ResolverActions.

Section resolution.
Context `{ResolverConfig}.

(** ** Back to the original pointers *)

(** The node that was renamed to a name in a directory. *)
Definition rename_helper (chains : crChains) : gmap (BlockPointer * string) BlockPointer :=
  foldl (λ m e, <[(ri_originalNewParent (snd e), ri_newName (snd e)) := fst e]> m) ∅
    (rv_range (ccs_renamedOriginals chains)).

Fixpoint add_original_unrefs (chains : crChains) (unrefs : list BlockPointer) (o : op) : res op :=
  match unrefs with
  | [] => Ok o
  | ptr :: unrefs =>
      origPtr ← originalFromMostRecentOrSame ptr chains;
      add_original_unrefs chains unrefs (AddUnrefBlock origPtr o)
  end.

(** The complete rename of a create that is half of one. *)
Definition whole_rename (chains : crChains) (ri : renameInfo) (renameOriginal : BlockPointer) (cop : createOp) : res op :=
  let rop := RenameOp (newRenameOp (ri_oldName ri) (ri_originalOldParent ri) (ri_newName ri) (ri_originalNewParent ri)
               renameOriginal (co_Type cop)) in
  let rop := AddUpdate (ri_originalOldParent ri) (ri_originalOldParent ri) rop in
  let rop := if decide (ri_originalNewParent ri ≠ ri_originalOldParent ri)
             then AddUpdate (ri_originalNewParent ri) (ri_originalNewParent ri) rop else rop in
  add_original_unrefs chains (Unrefs (CreateOp cop)) rop.

(** One operation of a chain; a nil operation is [None]. *)
Definition revert_op (side : branchSide) (chains otherChains : crChains) (chain : crChain)
    (renames : gmap (BlockPointer * string) BlockPointer) (o : op) : res (list (option op)) :=
  match o with
  | RmOp rop => if decide (Unrefs o = []) then Ok [] else Ok [copyOpAndRevertUnrefsToOriginals o chains]
  | CreateOp cop =>
      if co_renamed cop then
        match renames !! (cc_original chain, co_NewName cop) with
        | None => if decide (co_crSymPath cop ≠ EmptyString ∨ co_Type cop = Sym) then Ok []
                  else Err (Errorf "Couldn't find corresponding renamed original")
        | Some renameOriginal =>
            if isDeleted renameOriginal otherChains then
              match copyOpAndRevertUnrefsToOriginals o chains with
              | Some o' =>
                  o' ← (if decide (co_Type cop ≠ Dir) then addChildBlocksIfIndirectFile side renameOriginal chains o'
                        else Ok o');
                  Ok [Some o']
              | None => Ok [None]
              end
            else
              match ccs_renamedOriginals chains !! renameOriginal with
              | None => Err (Errorf "Couldn't find the rename info for original")
              | Some ri => o' ← whole_rename chains ri renameOriginal cop; Ok [Some o']
              end
        end
      else Ok [copyOpAndRevertUnrefsToOriginals o chains]
  | _ => Ok [copyOpAndRevertUnrefsToOriginals o chains]
  end.

Fixpoint revert_ops (side : branchSide) (chains otherChains : crChains) (chain : crChain)
    (renames : gmap (BlockPointer * string) BlockPointer) (ops : list op) : res (list (option op)) :=
  match ops with
  | [] => Ok []
  | o :: ops =>
      here ← revert_op side chains otherChains chain renames o;
      rest ← revert_ops side chains otherChains chain renames ops;
      Ok (here ++ rest)
  end.

(** The paths from the root outward. *)
Fixpoint revert_paths (side : branchSide) (chains otherChains : crChains)
    (renames : gmap (BlockPointer * string) BlockPointer) (paths : list path) : res (list (option op)) :=
  match paths with
  | [] => Ok []
  | p :: paths =>
      ptr ← tailPointer p;
      match chain_at ptr chains with
      | None => Err (Errorf "makeRevertedOps: Couldn't find chain")
      | Some (_, chain) =>
          here ← revert_ops side chains otherChains chain renames (cc_ops chain);
          rest ← revert_paths side chains otherChains renames paths;
          Ok (here ++ rest)
      end
  end.

Definition makeRevertedOps (side : branchSide) (sortedPaths : list path) (chains otherChains : crChains)
    : res (list (option op)) :=
  revert_paths side chains otherChains (rename_helper chains) (reverse sortedPaths).

(** ** The metadata of the resolution *)

Definition set_refs (refs : list BlockPointer) (o : op) : op :=
  let c := op_common o in
  set_common (MkOpCommon refs (oc_UnrefBlocks c) (oc_Updates c) (oc_writerInfo c) (oc_finalPath c)) o.

(** A create within a directory that is new: about the directory's latest
    pointer, and with the blocks of a file. *)
Definition complete_create (chains : crChains) (chain : crChain) (o : op) : res op :=
  match o with
  | CreateOp cop =>
      let o' := CreateOp (MkCreateOp (co_OpCommon cop) (co_NewName cop)
                  (MkBlockUpdate (cc_mostRecent chain) (cc_mostRecent chain)) (co_Type cop) (co_renamed cop)
                  (co_forceCopy cop) (co_crSymPath cop)) in
      match Refs o with
      | ref :: _ =>
          if decide (co_Type cop = Dir) then Ok o'
          else
            ptr ← mostRecentFromOriginalOrSame ref chains;
            fblock ← rv_GetFileBlock UnmergedSide ptr;
            Ok (if cb_IsInd (fb_CommonBlock fblock) then set_refs (ref :: (iptr_pointer <$> fb_IPtrs fblock)) o' else o')
      | [] => Ok o'
      end
  | _ => Ok o
  end.

Fixpoint complete_creates (chains : crChains) (chain : crChain) (ops : list op) : res (list op) :=
  match ops with
  | [] => Ok []
  | o :: ops => o ← complete_create chains chain o; rest ← complete_creates chains chain ops; Ok (o :: rest)
  end.

Definition is_create (o : op) : bool := match o with CreateOp _ => true | _ => false end.

(** The loop over the chains that only the unmerged branch created. *)
Fixpoint new_dir_creates (mergedChains : crChains) (es : list (BlockPointer * nat)) : go crChains (list path) :=
  match es with
  | [] => mret []
  | (original, id) :: es =>
      s ← get;
      if negb (isCreated original s) || isCreated original mergedChains then new_dir_creates mergedChains es
      else
        chain ← lift_res (deref_chain id s);
        ops ← lift_res (complete_creates s chain (cc_ops chain));
        _ ← set_ops (λ _, ops) id;
        rest ← new_dir_creates mergedChains es;
        mret (if existsb is_create (cc_ops chain) then fake_path (cc_mostRecent chain) :: rest else rest)
  end.

(** The operations of the metadata, without the [resolutionOp] at the end. *)
Definition resolved_ops (unmergedPaths : list path) : go bothChains (list (option op)) :=
  s ← get;
  newPaths ← on_unmerged (new_dir_creates (bc_merged s) (rv_range (ccs_byOriginal (bc_unmerged s))));
  s ← get;
  lift_res (makeRevertedOps UnmergedSide (newPaths ++ unmergedPaths) (bc_unmerged s) (bc_merged s)).

(** [AddOp] of each; a nil operation has no size. *)
Fixpoint add_ops (ops : list (option op)) (md : RootMetadata) : res RootMetadata :=
  match ops with
  | [] => Ok md
  | None :: _ => Panic "nil pointer dereference"
  | Some o :: ops => add_ops ops (snd (md_AddOp o md))
  end.

Context `{Codec BareRootMetadata, Codec PrivateMetadata, Codec TlfHandle}.

Definition createResolvedMD (currMD : RootMetadata) (unmergedPaths : list path) : go bothChains RootMetadata :=
  newMD ← lift_res (fst (MakeSuccessor true currMD));
  ops ← resolved_ops unmergedPaths;
  newMD ← lift_res (add_ops ops newMD);
  mret (snd (md_AddOp newResolutionOp newMD)).

(** ** To the pointers of the resolution *)

Definition fix_pointer (updates : gmap BlockPointer BlockPointer) (ptr : BlockPointer) : BlockPointer :=
  default ptr (updates !! ptr).
Definition fix_update (updates : gmap BlockPointer BlockPointer) (u : blockUpdate) : blockUpdate :=
  match updates !! bu_Unref u with Some newPtr => MkBlockUpdate newPtr newPtr | None => u end.

Fixpoint map_res {A B} (f : A → res B) (l : list A) : res (list B) :=
  match l with
  | [] => Ok []
  | x :: l => y ← f x; r ← map_res f l; Ok (y :: r)
  end.

Definition drop_updates (c : OpCommon) : OpCommon :=
  MkOpCommon (oc_RefBlocks c) (oc_UnrefBlocks c) [] (oc_writerInfo c) (oc_finalPath c).

Definition fix_op (updates : gmap BlockPointer BlockPointer) (chains : crChains) (o : op) : res op :=
  match o with
  | CreateOp r =>
      let c := co_OpCommon r in
      refs ← map_res (λ ptr, mostRecentFromOriginalOrSame ptr chains) (oc_RefBlocks c);
      Ok (CreateOp (MkCreateOp
        (MkOpCommon (fix_pointer updates <$> refs) (oc_UnrefBlocks c) [] (oc_writerInfo c) (oc_finalPath c))
        (co_NewName r) (fix_update updates (co_Dir r)) (co_Type r) (co_renamed r) (co_forceCopy r) (co_crSymPath r)))
  | RmOp r =>
      let c := ro_OpCommon r in
      unrefs ← map_res (λ ptr, originalFromMostRecentOrSame ptr chains) (oc_UnrefBlocks c);
      Ok (RmOp (MkRmOp (MkOpCommon (oc_RefBlocks c) unrefs [] (oc_writerInfo c) (oc_finalPath c))
        (ro_OldName r) (fix_update updates (ro_Dir r)) (ro_dropThis r)))
  | RenameOp r =>
      let c := rn_OpCommon r in
      Ok (RenameOp (MkRenameOp
        (MkOpCommon (oc_RefBlocks c) (oc_UnrefBlocks c)
           ((λ u, MkBlockUpdate (bu_Unref u) (fix_pointer updates (bu_Ref u))) <$> oc_Updates c)
           (oc_writerInfo c) (oc_finalPath c))
        (rn_OldName r) (fix_update updates (rn_OldDir r)) (rn_NewName r) (fix_update updates (rn_NewDir r))
        (fix_pointer updates (rn_Renamed r)) (rn_RenamedType r)))
  | SyncOp r => Ok (SyncOp (MkSyncOp (drop_updates (so_OpCommon r)) (fix_update updates (so_File r)) (so_Writes r)))
  | SetAttrOp r =>
      Ok (SetAttrOp (MkSetAttrOp (drop_updates (sao_OpCommon r)) (sao_Name r) (fix_update updates (sao_Dir r)) (sao_Attr r)
        (fix_pointer updates (sao_File r))))
  | ResolutionOp _ | RekeyOp _ | GcOp _ => Ok o
  end.

(** The first slot is for the operation with all the updates. *)
Definition crFixOpPointers (oldOps : list (option op)) (updates : gmap BlockPointer BlockPointer) (chains : crChains)
    : res (list (option op)) :=
  newOps ← map_res (λ o, match o with Some o => o ← fix_op updates chains o; Ok (Some o) | None => Ok None end) oldOps;
  Ok (None :: newOps).

(** ** The paths after the resolution *)

(** The loop for a pointer without a merged path.  Every round searches for
    the pointer itself, and not for [next]: the nodes to append, and the
    pointer whose merged path they are appended to. *)
Fixpoint find_path_start (fuel : nat) (unmergedMostRecent : BlockPointer) (newPtrs : gset BlockPointer)
    (mergedPaths : gmap BlockPointer path) (next : BlockPointer) (nodes : list pathNode)
    : res (BlockPointer * list pathNode) :=
  match fuel with
  | 0 => Panic "does not return"
  | S fuel =>
      if decide (p_path (default zeroPath (mergedPaths !! next)) ≠ []) then Ok (next, nodes)
      else
        nodeMap ← rv_searchUnmerged [unmergedMostRecent] newPtrs;
        match nodeMap !! unmergedMostRecent with
        | Some (Some p) =>
            name ← tailName p;
            parent ← parentPath p;
            next' ← tailPointer parent;
            find_path_start fuel unmergedMostRecent newPtrs mergedPaths next' (nodes ++ [MkPathNode next name])
        | _ => Err (Errorf "resolveOnePath: Couldn't find merged path")
        end
  end.

Record resolveInput := MkResolveInput {
  ri_both : bothChains;
  ri_resolved : crChains;
  ri_mergedPaths : gmap BlockPointer path
}.

Section resolve_loop.
(** [resolveOnePath] on the new parent. *)
Context (rin : resolveInput) (resolve : BlockPointer → go (gmap BlockPointer path) path).

(** The loop from the node with index [i - 1] to the root. *)
Fixpoint resolve_loop (fuel : nat) (resolvedPath : path) (i : nat) : go (gmap BlockPointer path) path :=
  match fuel with
  | 0 => panic "does not return"
  | S fuel =>
      match i with
      | 0 => mret resolvedPath
      | S i =>
          match p_path resolvedPath !! i with
          | None => panic "index out of range"
          | Some pn =>
              original ← lift_res (originalFromMostRecentOrSame (pn_BlockPointer pn) (bc_merged (ri_both rin)));
              match renamedParentAndName original (ri_resolved rin) with
              | (origNewParent, newName, true) =>
                  unmergedNewParent ← lift_res (mostRecentFromOriginalOrSame origNewParent (bc_unmerged (ri_both rin)));
                  parent ← resolve unmergedNewParent;
                  let moved := match drop i (p_path resolvedPath) with
                               | n :: rest => MkPathNode (pn_BlockPointer n) newName :: rest
                               | [] => []
                               end in
                  resolve_loop fuel (MkPath (p_FolderBranch resolvedPath) (p_path parent ++ moved)) (length (p_path parent))
              | _ => resolve_loop fuel resolvedPath i
              end
          end
      end
  end.
End resolve_loop.

Fixpoint resolveOnePath (fuel : nat) (rin : resolveInput) (unmergedMostRecent : BlockPointer)
    : go (gmap BlockPointer path) path :=
  match fuel with
  | 0 => panic "stack overflow"
  | S fuel =>
      resolvedPaths ← get;
      match resolvedPaths !! unmergedMostRecent with
      | Some p => mret p
      | None =>
          resolvedPath ←
            (match ri_mergedPaths rin !! unmergedMostRecent with
             | Some p => mret p
             | None =>
                 '(next, nodes) ← lift_res (find_path_start fuel unmergedMostRecent
                    (dom (ccs_byMostRecent (bc_unmerged (ri_both rin)))) (ri_mergedPaths rin) unmergedMostRecent []);
                 mret (foldl (λ p n, ChildPath p (pn_Name n) (pn_BlockPointer n))
                         (default zeroPath (ri_mergedPaths rin !! next)) nodes)
             end);
          resolvedPath ← resolve_loop rin (resolveOnePath fuel rin) fuel resolvedPath (length (p_path resolvedPath));
          _ ← modify (<[unmergedMostRecent := resolvedPath]>);
          mret resolvedPath
      end
  end.

Fixpoint resolve_all (fuel : nat) (rin : resolveInput) (ptrs : list BlockPointer) : go (gmap BlockPointer path) unit :=
  match ptrs with
  | [] => mret tt
  | ptr :: ptrs => _ ← resolveOnePath fuel rin ptr; resolve_all fuel rin ptrs
  end.

(** [md] as [newCRChains] sees it. *)
Definition makePostResolutionPaths (fuel : nat) (md : chainMD) (both : bothChains) (mergedPaths : gmap BlockPointer path)
    : res (gmap BlockPointer path) :=
  resolvedChains ← newCRChains rv_newWriterInfo [md];
  if decide (ccs_renamedOriginals resolvedChains = ∅) then Ok mergedPaths
  else
    match resolve_all fuel (MkResolveInput both resolvedChains mergedPaths) (fst <$> rv_range mergedPaths) ∅ with
    | (Ok _, resolvedPaths) => Ok resolvedPaths
    | (Err e, _) => Err e
    | (Panic m, _) => Panic m
    end.

(** ** Accounting for the blocks *)

(** What an operation refers to and drops, as sets. *)
Definition usage_op (changePtrs : gset BlockPointer) (acc : gset BlockPointer * gset BlockPointer) (o : op)
    : gset BlockPointer * gset BlockPointer :=
  let '(refs, unrefs) := acc in
  let refs := foldl (λ r ptr, if decide (ptr ∈ changePtrs) then r else {[ ptr ]} ∪ r) refs (Refs o) in
  let unrefs' := foldl (λ u ptr, {[ ptr ]} ∪ u) unrefs (Unrefs o) in
  let refs := foldl (λ r ptr, r ∖ {[ ptr ]}) refs (Unrefs o) in
  foldl (λ '(r, u) update,
    if decide (bu_Unref update ≠ bu_Ref update)
    then ({[ bu_Ref update ]} ∪ (r ∖ {[ bu_Unref update ]}), {[ bu_Unref update ]} ∪ u)
    else ({[ bu_Ref update ]} ∪ r, u)) (refs, unrefs') (AllUpdates o).
Definition usage_sets (changePtrs : gset BlockPointer) (ops : list op) : gset BlockPointer * gset BlockPointer :=
  foldl (usage_op changePtrs) (∅, ∅) ops.

Definition add_bytes (usage ref unref : Z) (md : RootMetadata) : RootMetadata :=
  set_bare (set_wm (wm_set_bytes usage ref unref)) md.

(** [md.RefBytes += size; md.DiskUsage += size], and the other way round. *)
Definition count_ref (size : Z) (md : RootMetadata) : RootMetadata :=
  let wm := bm_WriterMetadata (rmd_bare md) in
  add_bytes (to_u64 (wm_DiskUsage wm + size)) (to_u64 (wm_RefBytes wm + size)) (wm_UnrefBytes wm) md.
Definition count_unref (size : Z) (md : RootMetadata) : RootMetadata :=
  let wm := bm_WriterMetadata (rmd_bare md) in
  add_bytes (to_u64 (wm_DiskUsage wm - size)) (wm_RefBytes wm) (to_u64 (wm_UnrefBytes wm + size)) md.

(** [localBlocks] has the sizes of the blocks of the resolution itself. *)
Fixpoint count_refs (localBlocks : gmap BlockPointer Z) (refs : list BlockPointer) (md : RootMetadata) : res RootMetadata :=
  match refs with
  | [] => Ok md
  | ptr :: refs =>
      size ← (match localBlocks !! ptr with Some size => Ok size | None => rv_GetBlockSize ptr end);
      count_refs localBlocks refs (count_ref size md)
  end.

(** Whether a dropped block was there before the unmerged branch, and the
    merged branch has not dropped it. *)
Definition counts_as_unref (both : bothChains) (ptr : BlockPointer) : bool :=
  let original := default ptr (ccs_originals (bc_unmerged both) !! ptr) in
  negb (negb (bool_decide (original = ptr)) || isCreated original (bc_unmerged both)) &&
  negb (isDeleted (default ptr (ccs_originals (bc_merged both) !! ptr)) (bc_merged both)).

Fixpoint count_unrefs (both : bothChains) (unrefs : list BlockPointer) (md : RootMetadata) : res RootMetadata :=
  match unrefs with
  | [] => Ok md
  | ptr :: unrefs =>
      if counts_as_unref both ptr
      then size ← rv_GetBlockSize ptr; count_unrefs both unrefs (count_unref size md)
      else count_unrefs both unrefs md
  end.

(** Blocks of the unmerged branch that did not survive. *)
Definition dropped_blocks (unmergedChains : crChains) (refs unrefs : gset BlockPointer) : gset BlockPointer :=
  (filter (λ ptr, ¬ (ptr ∈ refs) ∧ ¬ (ptr ∈ unrefs)) (dom (ccs_originals unmergedChains))) ∪
  (filter (λ ptr, (¬ (ptr ∈ refs) ∧ ¬ (ptr ∈ unrefs) ∧ is_Some (ccs_byOriginal unmergedChains !! ptr)) ∨
                  ptr ∈ ccs_blockChangePointers unmergedChains ∨ ptr ∈ ccs_toUnrefPointers unmergedChains)
          (ccs_createdOriginals unmergedChains)).

(** The unrefs go to the last operation. *)
Definition unref_last (ptrs : list BlockPointer) (md : RootMetadata) : res RootMetadata :=
  match ptrs with
  | [] => Ok md
  | _ =>
      match update_last (λ o, foldl (λ o ptr, AddUnrefBlock ptr o) o ptrs) (pmd_Changes (rmd_data md)) with
      | (Ok _, changes) => Ok (set_Changes (λ _, changes) md)
      | (Err e, _) => Err e
      | (Panic m, _) => Panic m
      end
  end.

Definition calculateResolutionUsage (mergedUsage : Z) (localBlocks : gmap BlockPointer Z) (both : bothChains)
    (md : RootMetadata) : res RootMetadata :=
  let '(refs, unrefs) := usage_sets (ccs_blockChangePointers (bc_unmerged both)) (bc_Ops (pmd_Changes (rmd_data md))) in
  md ← count_refs localBlocks (rv_perm (elements refs)) (add_bytes mergedUsage 0 0 md);
  md ← count_unrefs both (rv_perm (elements unrefs)) md;
  unref_last (rv_perm (elements (dropped_blocks (bc_unmerged both) refs unrefs))) md.

(** ** The updates of a resolution *)

(** One update of the resolution's operation: the map from old to new
    pointers, and the update with the merged pointer as what it replaces. *)
Definition note_update (both : bothChains) (updates : gmap BlockPointer BlockPointer) (update : blockUpdate)
    : res (gmap BlockPointer BlockPointer * blockUpdate) :=
  let updates := <[bu_Unref update := bu_Ref update]> updates in
  let updates := match chain_at (bu_Unref update) (bc_merged both) with
                 | Some (_, chain) => <[cc_original chain := bu_Ref update]> updates
                 | None => updates
                 end in
  match chain_at (bu_Unref update) (bc_unmerged both) with
  | Some (_, chain) =>
      let updates := <[cc_original chain := bu_Ref update]> updates in
      mergedMostRecent ← mostRecentFromOriginalOrSame (cc_original chain) (bc_merged both);
      Ok (<[mergedMostRecent := bu_Ref update]> updates, MkBlockUpdate mergedMostRecent (bu_Ref update))
  | None => Ok (updates, update)
  end.

Fixpoint note_updates (both : bothChains) (l : list blockUpdate) (updates : gmap BlockPointer BlockPointer)
    : res (gmap BlockPointer BlockPointer * list blockUpdate) :=
  match l with
  | [] => Ok (updates, [])
  | u :: l =>
      '(updates, u) ← note_update both updates u;
      '(updates, l) ← note_updates both l updates;
      Ok (updates, u :: l)
  end.

(** Chains that only the unmerged branch created keep their latest pointer. *)
Definition note_created_chains (both : bothChains) (updates : gmap BlockPointer BlockPointer) : gmap BlockPointer BlockPointer :=
  foldl (λ updates e,
    match ccs_chains (bc_unmerged both) !! snd e with
    | Some chain =>
        if isCreated (fst e) (bc_unmerged both) && negb (isCreated (fst e) (bc_merged both)) &&
           bool_decide (updates !! cc_original chain = None)
        then <[cc_original chain := cc_mostRecent chain]> updates else updates
    | None => updates
    end) updates (rv_range (ccs_byOriginal (bc_unmerged both))).

Definition note_renamed_chains (both : bothChains) (updates : gmap BlockPointer BlockPointer) : gmap BlockPointer BlockPointer :=
  foldl (λ updates e,
    match chain_by_original (fst e) (bc_merged both) with
    | Some (_, mergedChain) => <[fst e := cc_mostRecent mergedChain]> updates
    | None => updates
    end) updates (rv_range (ccs_renamedOriginals (bc_unmerged both))).

(** The loop that joins chains of updates; an entry that was deleted is not
    visited. *)
Definition consolidate (updates : gmap BlockPointer BlockPointer) : gmap BlockPointer BlockPointer :=
  foldl (λ updates k,
    match updates !! k with
    | Some v => match updates !! v with Some v2 => delete v (<[k := v2]> updates) | None => updates end
    | None => updates
    end) updates (fst <$> rv_range updates).

(** Updates of blocks that the merged branch does not have become refs. *)
Definition keep_update (both : bothChains) (u : blockUpdate) : bool :=
  bool_decide (is_Some (ccs_originals (bc_unmerged both) !! bu_Unref u)) ||
  bool_decide (is_Some (ccs_byOriginal (bc_unmerged both) !! bu_Unref u)) ||
  bool_decide (is_Some (ccs_byMostRecent (bc_merged both) !! bu_Unref u)).
Definition clean_resolution_op (both : bothChains) (c : OpCommon) : op :=
  let gone := filter (λ u, keep_update both u = false) (oc_Updates c) in
  ResolutionOp (MkOpCommon (oc_RefBlocks c ++ (bu_Ref <$> gone)) (oc_UnrefBlocks c)
    (filter (λ u, keep_update both u = true) (oc_Updates c)) (oc_writerInfo c) (oc_finalPath c)).

(** The part of [syncBlocks] between the sync and the accounting: the updates
    and the new operations. *)
Definition fix_resolution (both : bothChains) (oldOps : list op) : res (gmap BlockPointer BlockPointer * list (option op)) :=
  match last oldOps with
  | None => Panic "index out of range"
  | Some (ResolutionOp c) =>
      '(updates, l) ← note_updates both (oc_Updates c) ∅;
      let c := MkOpCommon (oc_RefBlocks c) (oc_UnrefBlocks c) l (oc_writerInfo c) (oc_finalPath c) in
      let updates := consolidate (note_renamed_chains both (note_created_chains both updates)) in
      newOps ← crFixOpPointers (Some <$> take (length oldOps - 1) oldOps) updates (bc_unmerged both);
      Ok (updates, Some (clean_resolution_op both c) :: tail newOps)
  | Some _ => Err (Errorf "dummy op is not gc")
  end.

(** ** Local notifications *)

Record localState := MkLocalState {
  ls_dummy : op;
  ls_updates : gmap BlockPointer BlockPointer;
  ls_newPtrs : gset BlockPointer;
  ls_ptrs : list BlockPointer;
  ls_toUpdate : gmap BlockPointer BlockPointer;
  ls_toAdd : gmap BlockPointer nat;
  ls_merged : crChains
}.

(** The first loop: what the resolution updated. *)
Definition local_update (unmergedChains : crChains) (s : localState) (e : BlockPointer * BlockPointer) : localState :=
  let from := match chain_by_original (fst e) unmergedChains with Some (_, c) => cc_mostRecent c | None => fst e end in
  MkLocalState (AddUpdate from (snd e) (ls_dummy s)) (ls_updates s) ({[ snd e ]} ∪ ls_newPtrs s) (ls_ptrs s)
    (ls_toUpdate s) (ls_toAdd s) (ls_merged s).

(** The second loop: the merged chains. *)
Definition local_chain (unmergedChains : crChains) (s : localState) (e : BlockPointer * nat) : localState :=
  match ccs_byMostRecent (ls_merged s) !! fst e, ccs_chains (ls_merged s) !! snd e with
  | Some _, Some chain =>
      match ls_updates s !! cc_original chain with
      | Some newMostRecent =>
          MkLocalState (ls_dummy s) (ls_updates s) (ls_newPtrs s) (ls_ptrs s ++ [newMostRecent])
            (<[cc_mostRecent chain := newMostRecent]> (ls_toUpdate s)) (ls_toAdd s) (ls_merged s)
      | None =>
          let '(original, chain, s) :=
            match chain_by_original (cc_original chain) unmergedChains with
            | Some (_, c) =>
                let updates := <[cc_original chain := cc_mostRecent chain]> (ls_updates s) in
                if decide (cc_original chain = cc_mostRecent chain) then
                  let chain' := MkCrChain (cc_ops chain) (cc_original chain) (cc_mostRecent c) in
                  let m := ls_merged s in
                  (cc_mostRecent c, chain',
                   MkLocalState (ls_dummy s) updates (ls_newPtrs s) (ls_ptrs s ++ [cc_mostRecent c]) (ls_toUpdate s)
                     (<[cc_mostRecent c := snd e]> (ls_toAdd s))
                     (set_chain (snd e) chain'
                        (set_maps (ccs_byOriginal m) (delete (cc_mostRecent chain) (ccs_byMostRecent m)) (ccs_originals m) m)))
                else (cc_mostRecent c, chain,
                      MkLocalState (ls_dummy s) updates (ls_newPtrs s) (ls_ptrs s) (ls_toUpdate s) (ls_toAdd s) (ls_merged s))
            | None => (cc_original chain, chain, s)
            end in
          MkLocalState (AddUpdate original (cc_mostRecent chain) (ls_dummy s))
            (<[original := cc_mostRecent chain]> (ls_updates s)) ({[ fst e ]} ∪ ls_newPtrs s)
            (ls_ptrs s ++ [cc_mostRecent chain]) (ls_toUpdate s) (ls_toAdd s) (ls_merged s)
      end
  | _, _ => s
  end.

(** What only the unmerged branch changed. *)
Definition local_unmerged (unmergedChains : crChains) (updates : gmap BlockPointer BlockPointer) : gmap BlockPointer BlockPointer :=
  foldl (λ updates e,
    match updates !! fst e, ccs_chains unmergedChains !! snd e with
    | None, Some chain => <[fst e := cc_mostRecent chain]> updates
    | _, _ => updates
    end) updates (rv_range (ccs_byOriginal unmergedChains)).

(** The merged chains with the pointers of the resolution. *)
Definition move_chain (m : crChains) (e : BlockPointer * BlockPointer) : crChains :=
  match chain_at (fst e) m with
  | Some (id, chain) =>
      let m := set_chain id (MkCrChain (cc_ops chain) (cc_original chain) (snd e)) m in
      set_maps (ccs_byOriginal m) (<[snd e := id]> (delete (fst e) (ccs_byMostRecent m))) (ccs_originals m) m
  | None => m
  end.

Definition getOpsForLocalNotification (root : BlockPointer) (both : bothChains) (updates : gmap BlockPointer BlockPointer)
    : res (list (option op)) :=
  let s := foldl (local_update (bc_unmerged both))
             (MkLocalState newResolutionOp updates ∅ [] ∅ ∅ (bc_merged both)) (rv_range updates) in
  let s := foldl (local_chain (bc_unmerged both)) s (rv_range (ccs_byMostRecent (ls_merged s))) in
  let m := ls_merged s in
  let m := set_maps (ccs_byOriginal m) (ls_toAdd s ∪ ccs_byMostRecent m) (ccs_originals m) m in
  let updates := local_unmerged (bc_unmerged both) (ls_updates s) in
  let m := foldl move_chain m (rv_range (ls_toUpdate s)) in
  nodeMap ← rv_searchResolved root (ls_ptrs s) (ls_newPtrs s);
  let mergedPaths := rv_sort (omap snd (rv_range nodeMap)) in
  ops ← makeRevertedOps MergedSide mergedPaths m (bc_unmerged both);
  newOps ← crFixOpPointers ops updates m;
  Ok (Some (ls_dummy s) :: tail newOps).
End resolution.

(** ** The block of the changes *)

Section embed.
Context {W : Type} `{Config, Codec FileBlock, Codec DirBlock, BranchConfig W, Codec BlockChanges}.

(** The end of [syncBlocks], after the usage is calculated: the metadata of
    the resolution is [br_md], its blocks to put are [br_bps]. *)
Definition resolution_embed (uid : UID) : go (folderBranchOps W) unit :=
  s ← get;
  if ShouldEmbedBlockChanges cfg_BlockSplitter (bc_sizeEstimate (pmd_Changes (rmd_data (br_md s)))) then mret tt
  else unembedBlockChanges uid.
End embed.
