(* ===== verification/ResolverTree.v ===== *)
(** * ResolverTree: syncing the changed part of the tree
    ([conflict_resolver.go], [syncBlocks] and [syncTree])

    The paths of a resolution make a tree.  Each leaf is synced up to the
    place where the tree forks, the last leaf of a fork beyond it, so that
    every block is readied once, after everything below it.  [syncBlock]
    itself is in [DirOps.v]; here it is a call with a block, a path and the
    pointer to stop at. *)

From Stdlib Require Import ZArith Lia Sorted.
From S2P Require Import Prelude Types Errors DataTypes Ops CRChains CRActions ResolverPaths.

(** [crPathTreeNode]; the children in the order in which they were added,
    which is one of the orders in which the code may range over its map.
    [parent] is the node that a child is under. *)
Inductive crPathTreeNode := TreeNode {
  tn_ptr : BlockPointer;
  tn_mergedPath : path;
  tn_children : list (string * crPathTreeNode)
}.

Fixpoint find_child (name : string) (children : list (string * crPathTreeNode)) : option crPathTreeNode :=
  match children with
  | [] => None
  | (n, t) :: children => if decide (n = name) then Some t else find_child name children
  end.
Fixpoint put_child (name : string) (t : crPathTreeNode) (children : list (string * crPathTreeNode))
    : list (string * crPathTreeNode) :=
  match children with
  | [] => [(name, t)]
  | (n, t') :: children => if decide (n = name) then (n, t) :: children else (n, t') :: put_child name t children
  end.

(** The modified directories and the new file blocks. *)
Record syncInput := MkSyncInput {
  si_lbc : gmap BlockPointer DirBlock;
  si_newFileBlocks : gmap BlockPointer (gmap string FileBlock)
}.

Section tree.
Context `{ResolverConfig} (si : syncInput).

(** A node for every new file of the directory [ptr], whose path is [fb] and
    [nodes]. *)
Definition add_files (fb : FolderBranch) (nodes : list pathNode) (ptr : BlockPointer) (children : list (string * crPathTreeNode))
    : list (string * crPathTreeNode) :=
  match si_newFileBlocks si !! ptr, si_lbc si !! ptr with
  | Some blocks, Some dblock =>
      foldl (λ children e,
        let name := fst e in
        match find_child name children with
        | Some _ => children
        | None =>
            let filePtr := match db_Children dblock !! name with Some de => de_pointer de | None => zeroPtr end in
            put_child name (TreeNode filePtr (MkPath fb (nodes ++ [MkPathNode zeroPtr name])) []) children
        end) children (rv_range blocks)
  | _, _ => children
  end.

(** The nodes [rest] of the path [p] below the node [t], whose own path is
    [above]. *)
Fixpoint grow (p : path) (above rest : list pathNode) (t : crPathTreeNode) : crPathTreeNode :=
  match rest with
  | [] => t
  | pn :: rest =>
      let child := default (TreeNode (pn_BlockPointer pn) p []) (find_child (pn_Name pn) (tn_children t)) in
      let above := above ++ [pn] in
      let child := TreeNode (tn_ptr child) (tn_mergedPath child)
                     (add_files (p_FolderBranch p) above (pn_BlockPointer pn) (tn_children child)) in
      TreeNode (tn_ptr t) (tn_mergedPath t) (put_child (pn_Name pn) (grow p above rest child) (tn_children t))
  end.

Definition add_path (root : option crPathTreeNode) (p : path) : option crPathTreeNode :=
  match p_path p with
  | [] => root
  | pn :: rest =>
      let t := default (TreeNode (pn_BlockPointer pn) p []) root in
      let t := TreeNode (tn_ptr t) (tn_mergedPath t)
                 (add_files (p_FolderBranch p) [pn] (pn_BlockPointer pn) (tn_children t)) in
      Some (grow p [pn] rest t)
  end.

Definition make_tree (resolvedPaths : gmap BlockPointer path) : option crPathTreeNode :=
  foldl add_path None (snd <$> rv_range resolvedPaths).

(** ** The calls of [syncBlock] *)

Record syncCall := MkSyncCall {
  sc_block : DirBlock + FileBlock;
  sc_path : path;
  sc_stopAt : BlockPointer
}.

(** The block of a leaf: a directory that was modified, or a file of its
    parent. *)
Definition leaf_block (parent : option BlockPointer) (t : crPathTreeNode) : res (DirBlock + FileBlock) :=
  match si_lbc si !! tn_ptr t with
  | Some dblock => Ok (inl dblock)
  | None =>
      match parent with
      | None => Err (Errorf "No parent found for node")
      | Some parent =>
          match si_newFileBlocks si !! parent with
          | None => Err (Errorf "No file blocks found for parent")
          | Some fileBlocks =>
              name ← tailName (tn_mergedPath t);
              match fileBlocks !! name with
              | None => Err (Errorf "No file block found under parent")
              | Some fblock => Ok (inr fblock)
              end
          end
      end
  end.

(** The children of a node, all but the last one up to this node.  The order
    of [tn_children] stands for the order in which the map is gone through. *)
Section sync_children.
Context (sync : crPathTreeNode → BlockPointer → res (list syncCall)) (ptr stopAt : BlockPointer).
Fixpoint sync_children (l : list (string * crPathTreeNode)) : res (list syncCall) :=
  match l with
  | [] => Ok []
  | (_, child) :: l =>
      calls ← sync child (match l with [] => stopAt | _ => ptr end);
      rest ← sync_children l;
      Ok (calls ++ rest)
  end.
End sync_children.

Fixpoint syncTree (parent : option BlockPointer) (t : crPathTreeNode) (stopAt : BlockPointer) : res (list syncCall) :=
  match tn_children t with
  | [] => block ← leaf_block parent t; Ok [MkSyncCall block (tn_mergedPath t) stopAt]
  | children => sync_children (syncTree (Some (tn_ptr t))) (tn_ptr t) stopAt children
  end.
End tree.

(** ** What is synced *)

Definition names (l : list pathNode) : list string := pn_Name <$> l.

(** The nodes that a call readies: the leaf, and the directories above it up
    to the one to stop at.  A node is given by the names on the way to it. *)
Fixpoint climb_up (stopAt : BlockPointer) (up : list pathNode) : list (list string) :=
  match up with
  | [] => []
  | n :: up => if decide (pn_BlockPointer n = stopAt) then [] else names (reverse (n :: up)) :: climb_up stopAt up
  end.
Definition covered (c : syncCall) : list (list string) :=
  match reverse (p_path (sc_path c)) with
  | [] => []
  | leaf :: up => names (reverse (leaf :: up)) :: climb_up (sc_stopAt c) up
  end.

(** The nodes of a tree, each after those below it. *)
Fixpoint postorder (at_ : list string) (t : crPathTreeNode) : list (list string) :=
  (tn_children t ≫= λ e, postorder (at_ ++ [fst e]) (snd e)) ++ [at_].

Lemma tree_rect' (P : crPathTreeNode → Prop) :
  (∀ ptr mp children, Forall (λ e, P (snd e)) children → P (TreeNode ptr mp children)) → ∀ t, P t.
Proof.
  intros HP. fix IH 1. intros [ptr mp children]. apply HP. induction children as [|[n t] children IHc]; constructor; [|done].
  apply IH.
Qed.

(** The leaves know their path, and no directory has the same pointer as one
    above it. *)
Inductive tree_ok : list pathNode → string → crPathTreeNode → Prop :=
| leaf_ok above name ptr mp q : p_path mp = above ++ [MkPathNode q name] → tree_ok above name (TreeNode ptr mp [])
| node_ok above name ptr mp children :
    children ≠ [] → NoDup (pn_BlockPointer <$> (above ++ [MkPathNode ptr name])) →
    zeroPtr ∉ (pn_BlockPointer <$> (above ++ [MkPathNode ptr name])) →
    Forall (λ e, tree_ok (above ++ [MkPathNode ptr name]) (fst e) (snd e)) children →
    tree_ok above name (TreeNode ptr mp children).

Section sync.
Context `{ResolverConfig} (si : syncInput).

Lemma syncTree_node parent ptr mp children stopAt : children ≠ [] →
  syncTree si parent (TreeNode ptr mp children) stopAt = sync_children (syncTree si (Some ptr)) ptr stopAt children.
Proof. by destruct children. Qed.

Lemma climb_up_stop ptr name up : climb_up ptr (MkPathNode ptr name :: up) = [].
Proof. simpl. by rewrite decide_True. Qed.

Lemma climb_up_go n up stopAt : pn_BlockPointer n ≠ stopAt →
  climb_up stopAt (n :: up) = names (reverse (n :: up)) :: climb_up stopAt up.
Proof. intros Hn. simpl. by rewrite decide_False. Qed.

Lemma sync_children_covered above name ptr mp stopAt children calls :
  Forall (λ e, ∀ above name parent stopAt calls, tree_ok above name (snd e) → stopAt = zeroPtr ∨ stopAt ∈ (pn_BlockPointer <$> above) →
    syncTree si parent (snd e) stopAt = Ok calls →
    calls ≫= covered = postorder (names above ++ [name]) (snd e) ++ climb_up stopAt (reverse above)) children →
  tree_ok above name (TreeNode ptr mp children) → children ≠ [] → stopAt = zeroPtr ∨ stopAt ∈ (pn_BlockPointer <$> above) →
  sync_children (syncTree si (Some ptr)) ptr stopAt children = Ok calls →
  calls ≫= covered = (children ≫= λ e, postorder (names above ++ [name] ++ [fst e]) (snd e)) ++
                     (names above ++ [name]) :: climb_up stopAt (reverse above).
Proof.
  intros HF Hok Hne Hstop. inversion Hok as [|? ? ? ? ? _ Hnd Hz Hch]; subst; [done|]. clear Hok.
  rewrite fmap_app in Hnd, Hz. simpl in Hnd, Hz.
  assert (ptr ≠ stopAt) as Hps.
  { destruct Hstop as [->|Hin]; [set_solver|]. intros ->. apply NoDup_app in Hnd as (_ & Hd & _). by apply (Hd stopAt Hin), list_elem_of_here. }
  assert (reverse (above ++ [MkPathNode ptr name]) = MkPathNode ptr name :: reverse above) as Hrev
    by (by rewrite reverse_app).
  revert calls. induction children as [|[n c] children IH]; [done|]. intros calls Hs. cbn [sync_children] in Hs.
  apply bind_Ok in Hs as (calls1 & H1 & (calls2 & H2 & [= <-])%bind_Ok).
  inversion_clear HF as [|? ? HFc HFr]. inversion_clear Hch as [|? ? Hcc Hcr]. simpl in HFc, Hcc.
  rewrite bind_app, bind_cons. cbn [fst snd].
  assert (names (above ++ [MkPathNode ptr name]) = names above ++ [name]) as Hn by (unfold names; by rewrite fmap_app).
  destruct children as [|e children].
  - injection H2 as <-. rewrite (HFc _ _ (Some ptr) stopAt calls1 Hcc ltac:(destruct Hstop; [by left|right; rewrite fmap_app; set_solver]) H1).
    rewrite Hrev, climb_up_go by done. rewrite Hn. simpl. rewrite !app_nil_r, <- !app_assoc. simpl.
    do 2 f_equal. rewrite reverse_cons, reverse_involutive. by rewrite Hn.
  - rewrite (HFc _ _ (Some ptr) ptr calls1 Hcc ltac:(right; rewrite fmap_app; set_solver) H1).
    rewrite Hrev, climb_up_stop, app_nil_r, Hn, <- !app_assoc.
    rewrite (IH HFr ltac:(done) Hcr calls2 H2). done.
Qed.

(** Syncing a node readies it and everything below it, children first, and
    goes on up to where it is to stop. *)
Lemma syncTree_covered t above name parent stopAt calls :
  tree_ok above name t → stopAt = zeroPtr ∨ stopAt ∈ (pn_BlockPointer <$> above) →
  syncTree si parent t stopAt = Ok calls →
  calls ≫= covered = postorder (names above ++ [name]) t ++ climb_up stopAt (reverse above).
Proof.
  revert above name parent stopAt calls. induction t as [ptr mp children IH] using tree_rect'.
  intros above name parent stopAt calls Hok Hstop Hs. destruct (decide (children = [])) as [->|Hne].
  - inversion Hok as [? ? ? ? q Hp|]; [|done]. subst. simpl in Hs.
    apply bind_Ok in Hs as (b & _ & [= <-]). rewrite bind_cons, app_nil_r. unfold covered. cbn [sc_path sc_stopAt].
    rewrite Hp, reverse_app. simpl. f_equal. rewrite reverse_cons, reverse_involutive. unfold names. by rewrite fmap_app.
  - rewrite syncTree_node in Hs by done.
    rewrite (sync_children_covered above name ptr mp stopAt children calls); try done.
    cbn [postorder tn_children]. rewrite <- app_assoc. f_equal. apply list_bind_ext; [|done].
    intros [n c]. by rewrite <- app_assoc.
Qed.
End sync.

(** ** The tree of the resolved paths *)

Lemma find_child_elem name l t : find_child name l = Some t → (name, t) ∈ l.
Proof.
  induction l as [|[n c] l IH]; simpl; [done|]. case_decide as Hn; [intros [= ->]; subst; by left|]. intros Hf. right. by apply IH.
Qed.

Lemma find_child_None name l : find_child name l = None ↔ name ∉ l.*1.
Proof.
  induction l as [|[n c] l IH]; simpl; [set_solver|]. case_decide as Hn; [set_solver|]. rewrite IH. set_solver.
Qed.

Lemma put_child_Forall (P : string * crPathTreeNode → Prop) name t l :
  P (name, t) → Forall P l → Forall P (put_child name t l).
Proof.
  intros HP HF. induction HF as [|[n c] l Hc HF IH]; simpl; [by repeat constructor|].
  case_decide as Hn; constructor; [by subst|done|done|done].
Qed.

Lemma put_child_names name t l : (put_child name t l).*1 = if decide (name ∈ l.*1) then l.*1 else l.*1 ++ [name].
Proof.
  induction l as [|[n c] l IH]; [done|]. rewrite fmap_cons. cbn [put_child fst]. destruct (decide (n = name)) as [->|Hn].
  - rewrite decide_True by (by left). done.
  - rewrite fmap_cons, IH. destruct (decide (name ∈ l.*1)) as [Hl|Hl]; [by rewrite decide_True by (by right)|].
    rewrite decide_False; [done|]. by intros [->|?]%elem_of_cons.
Qed.

Lemma put_child_NoDup name t l : NoDup l.*1 → NoDup (put_child name t l).*1.
Proof.
  intros Hnd. rewrite put_child_names. case_decide; [done|]. apply NoDup_app. split; [done|]. split; [set_solver|].
  apply NoDup_singleton.
Qed.

Lemma put_child_in name t l : (name, t) ∈ put_child name t l.
Proof. induction l as [|[n c] l IH]; simpl; [by left|]. case_decide as Hn; [subst; by left|right; apply IH]. Qed.

Lemma put_child_other name t l e : e ∈ l → e ∈ put_child name t l ∨ fst e = name ∧ find_child name l = Some (snd e).
Proof.
  intros Hin. induction l as [|[n' c'] l IH]; [by apply elem_of_nil in Hin|]. simpl in *.
  destruct (decide (n' = name)) as [->|Hn]; apply elem_of_cons in Hin as [->|Hin].
  - by right.
  - left. by right.
  - left. by left.
  - destruct (IH Hin) as [Hi|Hi]; [left; by right|by right].
Qed.

Section make_tree.
Context `{ResolverConfig} (si : syncInput) (where_ : list string → BlockPointer).

(** A node of the tree, at [above] with its name: a directory, or a file
    that the resolution adds to its directory. *)
Inductive built : list pathNode → string → crPathTreeNode → Prop :=
| built_dir above name ptr mp children :
    ptr = where_ (names above ++ [name]) →
    NoDup (pn_BlockPointer <$> (above ++ [MkPathNode ptr name])) →
    zeroPtr ∉ (pn_BlockPointer <$> (above ++ [MkPathNode ptr name])) →
    NoDup children.*1 →
    Forall (λ e, built (above ++ [MkPathNode ptr name]) (fst e) (snd e)) children →
    (children = [] → p_path mp = above ++ [MkPathNode ptr name]) →
    built above name (TreeNode ptr mp children)
| built_file above n blocks name ptr mp :
    si_newFileBlocks si !! pn_BlockPointer n = Some blocks → is_Some (blocks !! name) →
    p_path mp = above ++ [n; MkPathNode zeroPtr name] →
    built (above ++ [n]) name (TreeNode ptr mp []).

Lemma built_ok t above name : built above name t → tree_ok above name t.
Proof.
  revert above name. induction t as [ptr mp children IH] using tree_rect'. intros above name Hb.
  inversion Hb as [? ? ? ? ? Hptr Hnd Hz Hn Hch Hmp|? ? ? ? ? ? ? ? Hp]; subst.
  - destruct (decide (children = [])) as [->|Hne]; [by eapply leaf_ok, Hmp|]. apply node_ok; [done..|].
    rewrite list.Forall_forall in *. intros e He. apply IH; [done|]. by apply Hch.
  - eapply leaf_ok. by rewrite Hp, <- app_assoc.
Qed.

(** The path [p] agrees with [where_], has no cycle, and leads through no new
    file. *)
Definition path_ok (p : path) : Prop :=
  (∀ above n rest, p_path p = above ++ n :: rest → pn_BlockPointer n = where_ (names above ++ [pn_Name n])) ∧
  NoDup (pn_BlockPointer <$> p_path p) ∧ (zeroPtr ∉ (pn_BlockPointer <$> p_path p)) ∧
  (∀ above n m rest blocks, p_path p = above ++ n :: m :: rest →
     si_newFileBlocks si !! pn_BlockPointer n = Some blocks → blocks !! pn_Name m = None).

Lemma path_ok_prefix p nodes rest : path_ok p → p_path p = nodes ++ rest →
  NoDup (pn_BlockPointer <$> nodes) ∧ zeroPtr ∉ (pn_BlockPointer <$> nodes).
Proof.
  intros (_ & Hnd & Hz & _) Hp. rewrite Hp, fmap_app in Hnd, Hz. apply NoDup_app in Hnd as [Hnd _]. split; [done|].
  rewrite elem_of_app in Hz. tauto.
Qed.

Context `{!ResolverLaws}.

Lemma add_files_built fb above n children :
  NoDup children.*1 → Forall (λ e, built (above ++ [n]) (fst e) (snd e)) children →
  let l := add_files si fb (above ++ [n]) (pn_BlockPointer n) children in
  NoDup l.*1 ∧ Forall (λ e, built (above ++ [n]) (fst e) (snd e)) l ∧ (l = [] → children = []).
Proof.
  intros Hnd HF. unfold add_files. destruct (si_newFileBlocks si !! pn_BlockPointer n) as [blocks|] eqn:Eb; [|done].
  destruct (si_lbc si !! pn_BlockPointer n) as [dblock|]; [|done].
  assert (∀ e, e ∈ rv_range blocks → is_Some (blocks !! fst e)) as Hrange.
  { intros [k b] Hin. unfold rv_range in Hin. rewrite rv_perm_ok in Hin. apply elem_of_map_to_list in Hin. by eexists. }
  revert Hrange. generalize (rv_range blocks). intros l Hrange. revert children Hnd HF. induction l as [|[k b] l IH]; [done|].
  intros children Hnd HF. cbn [foldl fst]. destruct (find_child k children) as [c|] eqn:Ef.
  - apply IH; [set_solver|done..].
  - set (ch := put_child _ _ _). assert (NoDup ch.*1) as Hnd' by (by apply put_child_NoDup).
    destruct (IH ltac:(set_solver) ch) as (H1 & H2 & H4); [done| |].
    { apply put_child_Forall; [|done]. eapply built_file; [done|exact (Hrange (k, b) ltac:(set_solver))|]. by rewrite <- app_assoc. }
    split; [done|]. split; [done|].
    intros Hl. exfalso.
    match goal with ch := put_child k ?t children |- _ => pose proof (put_child_in k t children) as Hi; fold ch in Hi end.
    rewrite (H4 Hl) in Hi. by apply elem_of_nil in Hi.
Qed.

(** Adding the rest of a path below a directory of it. *)
Lemma grow_built p rest : ∀ above name t, path_ok p → p_path p = above ++ MkPathNode (tn_ptr t) name :: rest →
  NoDup (tn_children t).*1 → Forall (λ e, built (above ++ [MkPathNode (tn_ptr t) name]) (fst e) (snd e)) (tn_children t) →
  (rest = [] → tn_children t = [] → p_path (tn_mergedPath t) = above ++ [MkPathNode (tn_ptr t) name]) →
  built above name (grow si p (above ++ [MkPathNode (tn_ptr t) name]) rest t).
Proof.
  induction rest as [|pn rest IH]; intros above name [ptr mp children] Hok Hp Hnd HF Hmp; cbn [tn_ptr tn_children tn_mergedPath] in *.
  - destruct (path_ok_prefix p (above ++ [MkPathNode ptr name]) []) as [Hnd' Hz']; [done|by rewrite Hp, app_nil_r|].
    destruct Hok as (Hw & _). apply built_dir; [exact (Hw _ _ _ Hp)|done|done|done|done|]. by apply Hmp.
  - destruct (path_ok_prefix p (above ++ [MkPathNode ptr name]) (pn :: rest)) as [Hnd' Hz']; [done|by rewrite Hp, <- app_assoc|].
    pose proof Hok as (Hw & _ & _ & Hfile). cbn [grow tn_ptr tn_children tn_mergedPath].
    set (n := MkPathNode ptr name) in *. set (above' := above ++ [n]) in *.
    assert (p_path p = above' ++ pn :: rest) as Hp' by (subst above'; by rewrite <- app_assoc).
    set (child := default (TreeNode (pn_BlockPointer pn) p []) (find_child (pn_Name pn) children)).
    assert (tn_ptr child = pn_BlockPointer pn ∧ NoDup (tn_children child).*1 ∧
      Forall (λ e, built (above' ++ [pn]) (fst e) (snd e)) (tn_children child) ∧
      (rest = [] → tn_children child = [] → p_path (tn_mergedPath child) = above' ++ [pn])) as (Hcp & Hcn & Hcf & Hcm).
    { subst child. destruct (find_child (pn_Name pn) children) as [c|] eqn:Ef; simpl.
      - apply find_child_elem in Ef. rewrite list.Forall_forall in HF. specialize (HF _ Ef). simpl in HF.
        inversion HF as [? ? ptr' mp' ch' Hptr ? ? Hcn Hcf Hcm|? n' blocks ? ? ? Hb Hs Hmp' Happ]; subst; simpl.
        + rewrite <- (Hw above' pn rest Hp') in *. destruct pn as [q nm]. simpl in *. done.
        + exfalso. apply app_inj_tail in Happ as [-> ->]. rewrite (Hfile above n pn rest blocks) in Hs; [by destruct Hs|done|done].
      - split; [done|]. split; [constructor|]. split; [constructor|]. intros -> _. done. }
    destruct (add_files_built (p_FolderBranch p) above' pn (tn_children child) Hcn Hcf) as (H1 & H2 & H4).
    apply built_dir; [exact (Hw _ _ _ Hp)|done|done|by apply put_child_NoDup| |].
    + apply put_child_Forall; [|done]. cbn [fst snd].
      destruct pn as [q nm]. cbn [pn_BlockPointer pn_Name] in *. rewrite <- Hcp in Hp'.
      pose proof (IH above' nm (TreeNode (tn_ptr child) (tn_mergedPath child)
        (add_files si (p_FolderBranch p) (above' ++ [MkPathNode q nm]) q (tn_children child)))) as HI.
      cbn [tn_ptr tn_children tn_mergedPath] in HI. rewrite Hcp in HI, Hp'. rewrite Hcp.
      apply HI; [done|done|done|done|]. intros Hr Hl. apply Hcm; [done|]. by apply H4.
    + intros Hnil. exfalso. pose proof (put_child_in (pn_Name pn) (grow si p (above' ++ [pn]) rest
        (TreeNode (tn_ptr child) (tn_mergedPath child)
           (add_files si (p_FolderBranch p) (above' ++ [pn]) (pn_BlockPointer pn) (tn_children child)))) children) as Hin.
      rewrite Hnil in Hin. by apply elem_of_nil in Hin.
Qed.

Lemma add_path_built root p name rest :
  match root with Some t => built [] name t | None => True end →
  path_ok p → p_path p = MkPathNode (where_ [name]) name :: rest →
  ∃ t, add_path si root p = Some t ∧ built [] name t.
Proof.
  intros Hroot Hok Hp. unfold add_path. rewrite Hp. cbn [pn_BlockPointer]. eexists. split; [done|].
  set (t := default _ root).
  assert (tn_ptr t = where_ [name] ∧ NoDup (tn_children t).*1 ∧
    Forall (λ e, built ([] ++ [MkPathNode (where_ [name]) name]) (fst e) (snd e)) (tn_children t) ∧
    (rest = [] → tn_children t = [] → p_path (tn_mergedPath t) = [MkPathNode (where_ [name]) name]))
    as (Ht & Hn & Hf & Hm).
  { subst t. destruct root as [t|]; simpl.
    - inversion Hroot as [? ? ptr mp ch Hptr ? ? Hn Hf Hm|above n blocks ? ? ? ? ? ? Happ]; subst; simpl in *; [done|].
      by destruct above.
    - split; [done|]. split; [constructor|]. split; [constructor|]. intros -> _. done. }
  destruct (add_files_built (p_FolderBranch p) [] (MkPathNode (where_ [name]) name) (tn_children t) Hn Hf) as (H1 & H2 & H4).
  simpl in *. pose proof (grow_built p rest [] name (TreeNode (tn_ptr t) (tn_mergedPath t)
    (add_files si (p_FolderBranch p) [MkPathNode (where_ [name]) name] (where_ [name]) (tn_children t)))) as HI.
  cbn [tn_ptr tn_children tn_mergedPath] in HI. rewrite Ht in HI |- *. simpl in HI. apply HI; [done|done|done|done|].
  intros Hr Hl. apply Hm; [done|]. by apply H4.
Qed.

Lemma make_tree_built resolvedPaths name t :
  (∀ ptr p, resolvedPaths !! ptr = Some p → path_ok p ∧ ∃ rest, p_path p = MkPathNode (where_ [name]) name :: rest) →
  make_tree si resolvedPaths = Some t → built [] name t.
Proof.
  intros Hall. unfold make_tree.
  assert (Forall (λ p, path_ok p ∧ ∃ rest, p_path p = MkPathNode (where_ [name]) name :: rest) (rv_range resolvedPaths).*2) as HF.
  { apply list.Forall_forall. intros p Hp. apply list_elem_of_fmap in Hp as ([ptr p'] & -> & Hin). unfold rv_range in Hin.
    rewrite rv_perm_ok in Hin. apply elem_of_map_to_list in Hin. by eapply Hall. }
  revert HF. generalize (rv_range resolvedPaths).*2. intros l HF.
  assert (match (None : option crPathTreeNode) with Some t => built [] name t | None => True end) as Hroot by done.
  revert Hroot. generalize (None : option crPathTreeNode). revert t.
  induction HF as [|p l (Hok & rest & Hp) HF IH]; intros t root Hroot Hm; simpl in Hm; [by subst|].
  destruct (add_path_built root p name rest Hroot Hok Hp) as (t' & Ht' & Hb). rewrite Ht' in Hm. by apply (IH t (Some t') Hb).
Qed.
End make_tree.

(** ** Every node of every path is there *)

Lemma postorder_elem l at_ t : l ∈ postorder at_ t ↔
  l = at_ ∨ ∃ e, e ∈ tn_children t ∧ l ∈ postorder (at_ ++ [fst e]) (snd e).
Proof.
  destruct t as [ptr mp children]. cbn [postorder tn_children]. rewrite elem_of_app, list_elem_of_singleton, list_elem_of_bind.
  split; [intros [(e & He & Hin)| ->]; eauto|]. intros [->|(e & Hin & He)]; eauto.
Qed.

Lemma postorder_here at_ t : at_ ∈ postorder at_ t.
Proof. apply postorder_elem. by left. Qed.

Lemma postorder_mono at_ t t' :
  (∀ e, e ∈ tn_children t → ∃ e', e' ∈ tn_children t' ∧ fst e' = fst e ∧
     ∀ l, l ∈ postorder (at_ ++ [fst e]) (snd e) → l ∈ postorder (at_ ++ [fst e]) (snd e')) →
  ∀ l, l ∈ postorder at_ t → l ∈ postorder at_ t'.
Proof.
  intros Hc l [->|(e & He & Hl)]%postorder_elem; [apply postorder_here|].
  destruct (Hc e He) as (e' & He' & Hf & Hm). apply postorder_elem. right. exists e'. split; [done|]. rewrite Hf. by apply Hm.
Qed.

Section positions.
Context `{ResolverConfig} (si : syncInput).

Lemma add_files_sub fb nodes ptr children e : e ∈ children → e ∈ add_files si fb nodes ptr children.
Proof.
  intros Hin. unfold add_files. destruct (si_newFileBlocks si !! ptr) as [blocks|]; [|done].
  destruct (si_lbc si !! ptr) as [dblock|]; [|done]. revert children Hin. generalize (rv_range blocks). intros l.
  induction l as [|[k b] l IH]; intros children Hin; [done|]. cbn [foldl fst]. apply IH.
  destruct (find_child k children) as [c|] eqn:Ef; [done|].
  match goal with |- _ ∈ put_child _ ?t _ => destruct (put_child_other k t children e Hin) as [Hi|[_ Hf]] end; [done|congruence].
Qed.

Lemma grow_mono p rest above at_ t l : l ∈ postorder at_ t → l ∈ postorder at_ (grow si p above rest t).
Proof.
  revert above at_ t l. induction rest as [|pn rest IH]; intros above at_ t l; [done|]. cbn [grow].
  apply postorder_mono. intros e He. cbn [tn_children].
  match goal with |- ∃ e', e' ∈ put_child _ ?t0 _ ∧ _ => set (t' := t0); destruct (put_child_other (pn_Name pn) t' _ e He) as [Hi|[Hn Hf]] end.
  - exists e. done.
  - exists (pn_Name pn, t'). split; [apply put_child_in|]. split; [done|]. intros l' Hl'. apply IH. rewrite Hf. cbn [default].
    revert l' Hl'. apply postorder_mono. intros e' He'. exists e'. split; [|done]. by apply add_files_sub.
Qed.

Lemma grow_adds p rest above at_ t k : k <= length rest →
  at_ ++ names (take k rest) ∈ postorder at_ (grow si p above rest t).
Proof.
  revert above at_ t k. induction rest as [|pn rest IH]; intros above at_ t k Hk.
  - rewrite take_nil. simpl. rewrite app_nil_r. apply postorder_here.
  - destruct k as [|k]; [rewrite take_0; change (names []) with (@nil string); rewrite app_nil_r; apply postorder_here|]. cbn [grow]. apply postorder_elem. right.
    eexists. split; [apply put_child_in|]. simpl in Hk. cbn [fst snd take names].
    unfold names. rewrite fmap_cons. rewrite (cons_middle _ at_), app_assoc. apply IH. lia.
Qed.

Lemma add_path_positions root p name l t :
  add_path si root p = Some t →
  (match root with Some t0 => l ∈ postorder [name] t0 | None => False end ∨
   ∃ k, 0 < k <= length (p_path p) ∧ l = names (take k (p_path p)) ∧ pn_Name <$> head (p_path p) = Some name) →
  l ∈ postorder [name] t.
Proof.
  unfold add_path. destruct (p_path p) as [|pn rest] eqn:Hp.
  - intros -> [Hl|(k & Hk & _)]; [done|simpl in Hk; lia].
  - intros [= <-] [Hl|(k & Hk & -> & Hn)].
    + apply grow_mono. destruct root as [t0|]; [|done]. revert Hl. apply postorder_mono. intros e He. exists e. split; [|done].
      cbn [tn_children default]. by apply add_files_sub.
    + destruct k as [|k]; [lia|]. injection Hn as <-. simpl in Hk. cbn [take]. unfold names. rewrite fmap_cons.
      apply (grow_adds p rest [pn] [pn_Name pn]). lia.
Qed.

Context `{!ResolverLaws}.

Lemma make_tree_positions resolvedPaths name t ptr p k :
  (∀ ptr p, resolvedPaths !! ptr = Some p → pn_Name <$> head (p_path p) = Some name) →
  make_tree si resolvedPaths = Some t → resolvedPaths !! ptr = Some p → 0 < k <= length (p_path p) →
  names (take k (p_path p)) ∈ postorder [name] t.
Proof.
  intros Hname Hm Hptr Hk. unfold make_tree in Hm.
  assert (p ∈ (rv_range resolvedPaths).*2) as Hin.
  { apply (list_elem_of_fmap_2 snd _ (ptr, p)). unfold rv_range. rewrite rv_perm_ok. by apply elem_of_map_to_list. }
  assert (Forall (λ p, pn_Name <$> head (p_path p) = Some name) (rv_range resolvedPaths).*2) as HF.
  { apply list.Forall_forall. intros q Hq. apply list_elem_of_fmap in Hq as ([r q'] & -> & Hq). unfold rv_range in Hq.
    rewrite rv_perm_ok in Hq. apply elem_of_map_to_list in Hq. by eapply Hname. }
  revert HF Hm Hin. generalize (rv_range resolvedPaths).*2. intros l HF Hm Hin.
  assert (∀ l root, foldl (add_path si) root l = Some t → Forall (λ p, pn_Name <$> head (p_path p) = Some name) l →
    match root with Some t0 => names (take k (p_path p)) ∈ postorder [name] t0 | None => p ∈ l end ∨ p ∈ l →
    names (take k (p_path p)) ∈ postorder [name] t) as Hgen; [|by apply (Hgen l None Hm HF); right].
  clear -Hk. induction l as [|q l IH]; intros root Hm HF Hin; simpl in Hm.
  - subst. by destruct Hin as [Hin|Hin]; [|apply elem_of_nil in Hin].
  - inversion_clear HF as [|? ? Hq HF']. apply (IH _ Hm HF').
    destruct (add_path si root q) as [t'|] eqn:Ea.
    + assert (q = p ∨ p ∈ l ∨ match root with Some t0 => names (take k (p_path p)) ∈ postorder [name] t0 | None => False end) as Hc.
      { destruct root as [t0|]; [destruct Hin as [Hin|Hin]|destruct Hin as [Hin|Hin]]; auto;
          apply elem_of_cons in Hin as [->|Hin]; auto. }
      destruct Hc as [->|[Hc|Hc]]; [left| by right|left].
      * eapply add_path_positions; [exact Ea|]. right. by exists k.
      * eapply add_path_positions; [exact Ea|]. by left.
    + unfold add_path in Ea. by destruct (p_path q) as [|n0 r0].
Qed.
End positions.

(** ** Once each, and children first *)

(** No node comes before one below it, nor twice. *)
Definition children_first : list (list string) → Prop := StronglySorted (λ a b, ¬ a `prefix_of` b).

Lemma StronglySorted_app_2 {A} (R : A → A → Prop) l k :
  StronglySorted R l → StronglySorted R k → (∀ x y, x ∈ l → y ∈ k → R x y) → StronglySorted R (l ++ k).
Proof.
  intros Hl Hk Hx. induction Hl as [|x l Hl IH Hf]; [done|]. simpl. constructor.
  - apply IH. intros y z Hy Hz. apply Hx; [by right|done].
  - apply Forall_app. split; [done|]. apply list.Forall_forall. intros z Hz. apply Hx; [by left|done].
Qed.

Lemma postorder_prefix t : ∀ at_ l, l ∈ postorder at_ t → at_ `prefix_of` l.
Proof.
  induction t as [ptr mp children IH] using tree_rect'. intros at_ l [->|(e & He & Hl)]%postorder_elem; [done|].
  rewrite list.Forall_forall in IH. apply (IH e He) in Hl. etrans; [|exact Hl]. by eexists.
Qed.

Lemma below_differ (at_ : list string) n n' l l' : n ≠ n' → (at_ ++ [n]) `prefix_of` l → (at_ ++ [n']) `prefix_of` l' → ¬ l `prefix_of` l'.
Proof.
  intros Hne [k ->] [k' ->] [k'' Heq]. rewrite <- !app_assoc in Heq. apply app_inv_head in Heq. simpl in Heq. congruence.
Qed.

Lemma postorder_sorted `{ResolverConfig} si where_ t : ∀ above name at_, built si where_ above name t → children_first (postorder at_ t).
Proof.
  induction t as [ptr mp children IH] using tree_rect'. intros above name at_ Hb.
  inversion Hb as [? ? ? ? ? _ _ _ Hn Hch _|]; subst; [|by repeat constructor].
  cbn [postorder tn_children]. apply StronglySorted_app_2; [|by repeat constructor|].
  - clear Hb. induction children as [|[n c] children IHc]; [constructor|]. rewrite bind_cons. cbn [fst snd].
    inversion_clear IH as [|? ? IH1 IH2]. inversion_clear Hch as [|? ? Hc1 Hc2]. rewrite fmap_cons in Hn. simpl in Hn.
    apply NoDup_cons in Hn as [Hno Hn]. apply StronglySorted_app_2; [by eapply IH1|by apply IHc|].
    intros l l' Hl%postorder_prefix (e & Hl' & He)%list_elem_of_bind. apply postorder_prefix in Hl'.
    eapply below_differ; [|done|done]. intros ->. apply Hno. by apply (list_elem_of_fmap_2 fst children e).
  - intros l l' (e & Hl & _)%list_elem_of_bind ->%list_elem_of_singleton. apply postorder_prefix in Hl.
    intros Hp. pose proof (prefix_length _ _ Hl) as H1. pose proof (prefix_length _ _ Hp) as H2.
    rewrite length_app in H1. simpl in H1. lia.
Qed.

(** C11. The blocks of a resolution are synced exactly once, and every directory
    after all that changed below it: the calls of [syncBlock] ready every
    node of every resolved path, none twice, and none before a node below
    it.  The paths are those of one tree and do not lead through a file that
    the resolution adds. *)
Theorem resolution_synced_once `{ResolverLaws} si where_ resolvedPaths name t calls :
  (∀ ptr p, resolvedPaths !! ptr = Some p → path_ok si where_ p ∧ ∃ rest, p_path p = MkPathNode (where_ [name]) name :: rest) →
  make_tree si resolvedPaths = Some t → syncTree si None t zeroPtr = Ok calls →
  children_first (calls ≫= covered) ∧
  ∀ ptr p k, resolvedPaths !! ptr = Some p → 0 < k <= length (p_path p) → names (take k (p_path p)) ∈ (calls ≫= covered).
Proof.
  intros Hall Hm Hs. pose proof (make_tree_built si where_ resolvedPaths name t Hall Hm) as Hb.
  pose proof (syncTree_covered si t [] name None zeroPtr calls (built_ok si where_ t [] name Hb) (or_introl eq_refl) Hs) as Hc.
  simpl in Hc. rewrite app_nil_r in Hc. rewrite Hc. split; [by eapply postorder_sorted|].
  intros ptr p k Hp Hk. apply (make_tree_positions si resolvedPaths name t ptr p k); [|exact Hm|exact Hp|exact Hk].
  intros ptr' p' Hp'. destruct (Hall ptr' p' Hp') as (_ & rest & Hr). by rewrite Hr.
Qed.
