(* ===== verification/ResolverMerge.v ===== *)
(** * ResolverMerge: merging directories that both branches created

    [findCreatedDirsToMerge] returns, however deep the new directories are
    nested, and of the operations of the unmerged branch it drops only
    creates that the merged branch has too, under the same name and of the
    same type. *)

From Stdlib Require Import ZArith Lia.
From S2P Require Import Prelude Types Errors DataTypes Ops CRChains CRActions ResolverPaths.

(** ** Methods that return *)

(** Run from [s], the method does not panic, and leaves a result (none for an
    error) and a state that satisfy [Q]. *)
Definition returns {S A} (m : go S A) (s : S) (Q : option A → S → Prop) : Prop :=
  match m s with
  | (Ok a, s') => Q (Some a) s'
  | (Err _, s') => Q None s'
  | (Panic _, _) => False
  end.

Lemma returns_ret {S A} (a : A) (s : S) Q : Q (Some a) s → returns (mret a) s Q.
Proof. done. Qed.
Lemma returns_fail {S A} e (s : S) (Q : option A → S → Prop) : Q None s → returns (fail e) s Q.
Proof. done. Qed.
Lemma returns_bind {S A B} (m : go S A) (f : A → go S B) s Q :
  returns m s (λ r s', match r with Some a => returns (f a) s' Q | None => Q None s' end) → returns (m ≫= f) s Q.
Proof. unfold returns, mbind, go_bind. by destruct (m s) as [[a|e|p] s']. Qed.
Lemma returns_get {S B} (f : S → go S B) s Q : returns (f s) s Q → returns (get ≫= f) s Q.
Proof. done. Qed.
Lemma returns_mono {S A} (m : go S A) s (Q Q' : option A → S → Prop) :
  returns m s Q → (∀ r s', Q r s' → Q' r s') → returns m s Q'.
Proof. unfold returns. destruct (m s) as [[a|e|p] s']; auto. Qed.
Lemma returns_try {S A} (m : go S A) s Q :
  returns m s (λ r s', match r with Some a => Q (Some (inl a)) s' | None => ∀ e, Q (Some (inr e)) s' end) →
  returns (try m) s Q.
Proof. unfold returns, try. destruct (m s) as [[a|e|p] s']; auto. Qed.

(** ** What is dropped *)

Definition same_but_path (o o' : op) : Prop := setFinalPath zeroPath o = setFinalPath zeroPath o'.

(** The merged branch creates something of the same name and type. *)
Definition double_create (m : crChains) (o : op) : Prop :=
  ∃ cop id c mcop, new_create o = Some cop ∧ ccs_chains m !! id = Some c ∧ mcop ∈ omap new_create (cc_ops c) ∧
    co_NewName mcop = co_NewName cop ∧ co_Type mcop = co_Type cop.

(** The operations [l'] are those of [l] without double creates; their final
    paths may have changed. *)
Inductive ops_merged (m : crChains) : list op → list op → Prop :=
| om_nil : ops_merged m [] []
| om_keep o o' l l' : same_but_path o o' → ops_merged m l l' → ops_merged m (o :: l) (o' :: l')
| om_drop o l l' : double_create m o → ops_merged m l l' → ops_merged m (o :: l) l'.

Lemma same_but_path_create o o' : same_but_path o o' →
  match new_create o, new_create o' with
  | Some c, Some c' => co_NewName c = co_NewName c' ∧ co_Type c = co_Type c' ∧ first_ref c = first_ref c'
  | None, None => True
  | _, _ => False
  end.
Proof.
  unfold same_but_path, new_create, setFinalPath, first_ref, Refs. intros Heq.
  destruct o as [[[] ? ? ? ? ? ?]| | | | | | |], o' as [[[] ? ? ? ? ? ?]| | | | | | |]; simpl in *; try done.
  injection Heq as -> _ _ _ -> -> -> -> -> ->. by case_decide.
Qed.

Lemma double_create_same m o o' : same_but_path o o' → double_create m o' → double_create m o.
Proof.
  intros Hs (cop & id & c & mcop & Hn & Hc & Hm & Hname & Ht). apply same_but_path_create in Hs. rewrite Hn in Hs.
  destruct (new_create o) as [cop'|] eqn:E; [|done]. destruct Hs as (H1 & H2 & _).
  exists cop', id, c, mcop. split; [done|]. split; [done|]. split; [done|]. split; congruence.
Qed.

Lemma ops_merged_refl m l : ops_merged m l l.
Proof. induction l; constructor; done. Qed.

Lemma ops_merged_trans m l1 l2 l3 : ops_merged m l1 l2 → ops_merged m l2 l3 → ops_merged m l1 l3.
Proof.
  intros H12. revert l3. induction H12 as [|o o' l l' Hs _ IH|o l l' Hd _ IH]; intros l3 H23; [done| |].
  - inversion H23 as [|? o'' ? l'' Hs' Hr|? ? ? Hd Hr]; subst.
    + apply om_keep; [unfold same_but_path in *; congruence|by apply IH].
    + apply om_drop; [by eapply double_create_same|by apply IH].
  - apply om_drop; [done|by apply IH].
Qed.

Lemma ops_merged_paths m p l : ops_merged m l (map (setFinalPath p) l).
Proof.
  induction l as [|o l IH]; [constructor|]. simpl. apply om_keep; [|done]. unfold same_but_path, setFinalPath.
  by destruct o as [[]|[]|[]|[]|[]| | |[]].
Qed.

Lemma ops_merged_keep m toDrop l : ∀ i, (∀ k o, l !! k = Some o → (i + k) ∈ toDrop → double_create m o) →
  ops_merged m l (keep_ops i toDrop l).
Proof.
  induction l as [|o l IH]; intros i Hd; [constructor|]. simpl.
  assert (ops_merged m l (keep_ops (S i) toDrop l)) as Hr.
  { apply IH. intros k o' Ho' Hin. apply (Hd (S k) o'); [done|]. by rewrite Nat.add_succ_r. }
  case_decide as Hin; [apply om_drop; [|done]; apply (Hd 0 o); [done|by rewrite Nat.add_0_r]|by apply om_keep].
Qed.

(** A new create of a chain afterwards is one from before. *)
Lemma ops_merged_creates m l l' cop : ops_merged m l l' → cop ∈ omap new_create l' →
  ∃ cop', cop' ∈ omap new_create l ∧ first_ref cop' = first_ref cop.
Proof.
  intros Hm. rewrite list_elem_of_omap. intros (o' & Ho' & Hn). induction Hm as [|o o1 l l' Hs Hm IH|o l l' Hd Hm IH].
  - by apply elem_of_nil in Ho'.
  - apply elem_of_cons in Ho' as [->|Ho'].
    + apply same_but_path_create in Hs. rewrite Hn in Hs. destruct (new_create o) as [c|] eqn:E; [|done].
      exists c. split; [|tauto]. apply list_elem_of_omap. exists o. by split; [left|].
    + destruct (IH Ho') as (c & Hc & Hf). exists c. split; [|done]. simpl. destruct (new_create o); [by right|done].
  - destruct (IH Ho') as (c & Hc & Hf). exists c. split; [|done]. simpl. destruct (new_create o); [by right|done].
Qed.

(** ** The chains while they are merged *)

(** The maps lead to chains, the first one to chains with that original. *)
Record chains_wf (s : crChains) : Prop := {
  cw_original o id : ccs_byOriginal s !! o = Some id → ∃ c, ccs_chains s !! id = Some c ∧ cc_original c = o;
  cw_recent p id : ccs_byMostRecent s !! p = Some id → is_Some (ccs_chains s !! id)
}.

(** The pointer of something that a chain creates. *)
Definition created_in (s : crChains) (ptr : BlockPointer) : Prop :=
  ∃ id c cop, ccs_chains s !! id = Some c ∧ cop ∈ omap new_create (cc_ops c) ∧ first_ref cop = ptr.

Section merging.
(** What the two branches created; [M] is fixed, and so is the merged side. *)
Context `{ResolverConfig} (mc : crChains) (U : BlockPointer → Prop) (M : gset BlockPointer).
Context (HM : ∀ ptr, created_in mc ptr → ptr ∈ M) (HUM : ∀ ptr, U ptr → ptr ∉ M).

Record merging_ok (s : bothChains) : Prop := {
  mo_merged : bc_merged s = mc;
  mo_wf : chains_wf (bc_unmerged s);
  mo_created ptr : created_in (bc_unmerged s) ptr → U ptr
}.

(** What is left to merge. *)
Definition unmatched (s : bothChains) : nat := size (M ∖ dom (ccs_byOriginal (bc_unmerged s))).

(** From [s] to [s'], only the chain [x] and chains of created nodes changed. *)
Record merge_step (x : option nat) (s s' : bothChains) : Prop := {
  ms_ops id c : ccs_chains (bc_unmerged s) !! id = Some c →
    ∃ c', ccs_chains (bc_unmerged s') !! id = Some c' ∧ ops_merged mc (cc_ops c) (cc_ops c') ∧
      (cc_original c' = cc_original c ∨ U (cc_original c) ∧ cc_original c' ∈ M);
  ms_dom id : is_Some (ccs_chains (bc_unmerged s') !! id) → is_Some (ccs_chains (bc_unmerged s) !! id);
  ms_frame id c : ccs_chains (bc_unmerged s) !! id = Some c → ¬ U (cc_original c) → Some id ≠ x →
    ccs_chains (bc_unmerged s') !! id = Some c;
  ms_recent p id c' : ccs_byMostRecent (bc_unmerged s') !! p = Some id → ccs_chains (bc_unmerged s') !! id = Some c' →
    ccs_byMostRecent (bc_unmerged s) !! p = Some id ∨ cc_original c' ∈ M;
  ms_unmatched : M ∖ dom (ccs_byOriginal (bc_unmerged s')) ⊆ M ∖ dom (ccs_byOriginal (bc_unmerged s))
}.

Lemma merge_step_refl x s : merge_step x s s.
Proof.
  split; [|done|done|by left|done]. intros id c Hc. exists c. split; [done|]. split; [apply ops_merged_refl|by left].
Qed.

Lemma merge_step_weaken x s s' : merge_step None s s' → merge_step x s s'.
Proof. intros [H1 H2 H3 H4 H5]. split; [done|done| |done|done]. intros id c Hc Hu _. by apply H3. Qed.

Lemma merge_step_trans x s1 s2 s3 : merge_step x s1 s2 → merge_step x s2 s3 → merge_step x s1 s3.
Proof.
  intros [A1 A2 A3 A4 A5] [B1 B2 B3 B4 B5]. split.
  - intros id c Hc. destruct (A1 id c Hc) as (c1 & Hc1 & Ho1 & Hk1). destruct (B1 id c1 Hc1) as (c2 & Hc2 & Ho2 & Hk2).
    exists c2. split; [done|]. split; [by eapply ops_merged_trans|].
    destruct Hk1 as [Hk1|[Hu1 Hm1]].
    + rewrite <- Hk1. destruct Hk2 as [Hk2|Hk2]; [by left|by right].
    + right. split; [done|]. destruct Hk2 as [->|[_ Hm2]]; done.
  - intros id Hs. by apply A2, B2.
  - intros id c Hc Hu Hx. apply B3; [by apply A3|done|done].
  - intros p id c' Hp Hc'. destruct (B4 p id c' Hp Hc') as [Hp2|Hm]; [|by right].
    destruct (A2 id (B2 id (ex_intro _ _ Hc'))) as [c1 Hc1]. destruct (A1 id c1 Hc1) as (c2 & Hc2 & _ & _).
    destruct (A4 p id c2 Hp2 Hc2) as [Hp1|Hm]; [by left|]. right.
    destruct (B1 id c2 Hc2) as (c3 & Hc3 & _ & [Hk|[Hu _]]); [|by destruct (HUM _ Hu Hm)].
    rewrite Hc' in Hc3. injection Hc3 as <-. by rewrite Hk.
  - by etrans.
Qed.

(** The invariant holds again once the maps are right. *)
Lemma merging_ok_step x s s' : merging_ok s → merge_step x s s' → bc_merged s' = bc_merged s → chains_wf (bc_unmerged s') →
  merging_ok s'.
Proof.
  intros [Hm Hw Hc] [H1 H2 _ _ _] Hm' Hw'. split; [congruence|done|].
  intros ptr (id & c' & cop & Hc' & Hin & Hf). apply Hc.
  destruct (H2 id (ex_intro _ _ Hc')) as [c Hcc]. destruct (H1 id c Hcc) as (c2 & Hc2 & Ho & _).
  rewrite Hc' in Hc2. injection Hc2 as <-. destruct (ops_merged_creates _ _ _ _ Ho Hin) as (cop' & Hin' & Hf').
  exists id, c, cop'. split; [done|]. split; [done|]. congruence.
Qed.

(** Changing the operations of one chain. *)
Lemma set_ops_step x f id s c : merging_ok s → ccs_chains (bc_unmerged s) !! id = Some c → (U (cc_original c) ∨ x = Some id) →
  ops_merged mc (cc_ops c) (f (cc_ops c)) →
  returns (on_unmerged (set_ops f id)) s (λ r s', r = Some tt ∧ merging_ok s' ∧ merge_step x s s').
Proof.
  intros Hok Hc Hx Ho. unfold returns, on_unmerged, set_ops, modify. rewrite Hc. split; [done|].
  set (s' := MkBoth _ _).
  assert (merge_step x s s') as Hstep.
  { split; simpl.
    - intros j cj Hj. destruct (decide (j = id)) as [->|Hne].
      + rewrite Hc in Hj. injection Hj as <-. rewrite lookup_insert_eq. eexists. split; [done|]. split; [done|by left].
      + rewrite lookup_insert_ne by done. exists cj. split; [done|]. split; [apply ops_merged_refl|by left].
    - intros j. destruct (decide (j = id)) as [->|Hne]; [by rewrite Hc|by rewrite lookup_insert_ne].
    - intros j cj Hj Hu Hjx. rewrite lookup_insert_ne; [done|]. intros <-. rewrite Hc in Hj. injection Hj as <-.
      destruct Hx as [Hx| ->]; done.
    - intros p j c' Hp _. by left.
    - done. }
  split; [|done]. eapply merging_ok_step; [done|done|done|]. destruct (mo_wf s Hok) as [W1 W2]. split; simpl.
  - intros o j Hj. destruct (W1 o j Hj) as (cj & Hcj & Hoj). destruct (decide (j = id)) as [->|Hne].
    + rewrite lookup_insert_eq. eexists. split; [done|]. simpl. congruence.
    + rewrite lookup_insert_ne by done. eauto.
  - intros p j Hj. destruct (decide (j = id)) as [->|Hne]; [by rewrite lookup_insert_eq|].
    rewrite lookup_insert_ne by done. by eapply W2.
Qed.

Lemma size_difference_lt (X Y : gset BlockPointer) x : x ∈ M → x ∈ Y → x ∉ X → M ∖ Y ⊆ M ∖ X → size (M ∖ Y) < size (M ∖ X).
Proof. intros HxM HxY HxX Hsub. apply subset_size. set_solver. Qed.

(** A chain gets the original of the merged branch. *)
Lemma changeOriginal_step s uo mo : merging_ok s → U uo → mo ∈ M →
  returns (try (on_unmerged (changeOriginal uo mo))) s (λ r s',
    match r with
    | Some (inl _) => merging_ok s' ∧ merge_step None s s' ∧ unmatched s' < unmatched s ∧
        ∃ id c c0, chain_by_original mo (bc_unmerged s') = Some (id, c) ∧
          ccs_chains (bc_unmerged s) !! id = Some c0 ∧ U (cc_original c0) ∧ cc_original c = mo
    | Some (inr _) => s' = s
    | None => False
    end).
Proof.
  intros Hok Hu Hm. apply returns_try. unfold returns, on_unmerged, changeOriginal.
  pose proof (mo_wf s Hok) as [W1 W2]. destruct s as [us ms]. simpl in *.
  destruct (ccs_byOriginal us !! uo) as [id|] eqn:Eu; [|done].
  destruct (ccs_byOriginal us !! mo) as [id2|] eqn:Em; [done|].
  destruct (W1 uo id Eu) as (c & Hc & Hco). rewrite Hc. simpl.
  set (c' := MkCrChain (cc_ops c) mo _). set (byO := <[mo := id]> (delete uo (ccs_byOriginal us))).
  set (byR := if bool_decide _ then _ else _). set (s' := MkBoth _ _).
  assert (uo ≠ mo) as Hne by (intros ->; by destruct (HUM mo Hu)).
  assert (ccs_chains (bc_unmerged s') = <[id := c']> (ccs_chains us)) as Hch by done.
  assert (ccs_byOriginal (bc_unmerged s') = byO) as HbyO by done.
  assert (ccs_byMostRecent (bc_unmerged s') = byR) as HbyR by done.
  assert (∀ p j, byR !! p = Some j → ccs_byMostRecent us !! p = Some j ∨ j = id) as HR.
  { intros p j. subst byR. case_bool_decide; [|by left]. intros [[<- <-]|[_ [_ Hj]%lookup_delete_Some]]%lookup_insert_Some; [by right|by left]. }
  assert (merge_step None (MkBoth us ms) s') as Hstep.
  { split; cbn [bc_unmerged]; rewrite ?Hch, ?HbyO, ?HbyR.
    - intros j cj Hj. destruct (decide (j = id)) as [->|Hj'].
      + rewrite Hc in Hj. injection Hj as <-. rewrite lookup_insert_eq. exists c'. split; [done|].
        split; [apply ops_merged_refl|right]. simpl. by rewrite Hco.
      + rewrite lookup_insert_ne by done. exists cj. split; [done|]. split; [apply ops_merged_refl|by left].
    - intros j. destruct (decide (j = id)) as [->|Hj']; [by rewrite Hc|by rewrite lookup_insert_ne].
    - intros j cj Hj Hu' _. rewrite lookup_insert_ne; [done|]. intros <-. rewrite Hc in Hj. injection Hj as <-. by rewrite Hco in Hu'.
    - intros p j cj Hp Hcj. destruct (HR p j Hp) as [Hp'| ->]; [by left|]. rewrite lookup_insert_eq in Hcj. injection Hcj as <-. by right.
    - subst byO. rewrite dom_insert_L, dom_delete_L. intros x. rewrite !elem_of_difference. intros [HxM Hx]. split; [done|].
      intros Hin. apply Hx. apply elem_of_union. right. apply elem_of_difference. split; [done|].
      intros ->%elem_of_singleton. by destruct (HUM uo Hu). }
  assert (chains_wf (bc_unmerged s')) as Hwf.
  { split; rewrite ?Hch, ?HbyO, ?HbyR.
    - intros o j. subst byO. intros [[<- <-]|[Hno [Hno' Hj]%lookup_delete_Some]]%lookup_insert_Some.
      + rewrite lookup_insert_eq. by exists c'.
      + destruct (W1 o j Hj) as (cj & Hcj & Hoj). exists cj. split; [|done]. rewrite lookup_insert_ne; [done|].
        intros <-. congruence.
    - intros p j Hp. destruct (HR p j Hp) as [Hp'| ->]; [|by rewrite lookup_insert_eq].
      destruct (decide (j = id)) as [->|Hj]; [by rewrite lookup_insert_eq|rewrite lookup_insert_ne by done; by eapply W2]. }
  split; [by eapply (merging_ok_step None (MkBoth us ms))|]. split; [done|]. split.
  - change (size (M ∖ dom byO) < size (M ∖ dom (ccs_byOriginal us))).
    apply (size_difference_lt _ _ mo); [done| | |].
    + subst byO. rewrite dom_insert_L. set_solver.
    + by apply not_elem_of_dom.
    + exact (ms_unmatched _ _ _ Hstep).
  - exists id, c', c. split; [|by rewrite Hco]. change ((i ← byO !! mo; d ← <[id := c']> (ccs_chains us) !! i; Some (i, d)) = Some (id, c')).
    subst byO. rewrite lookup_insert_eq. simpl. by rewrite lookup_insert_eq.
Qed.

(** Steps that only change the marks of pointers. *)
Lemma marks_step f s : (∀ c, ccs_chains (f c) = ccs_chains c ∧ ccs_byOriginal (f c) = ccs_byOriginal c ∧
    ccs_byMostRecent (f c) = ccs_byMostRecent c) → merging_ok s →
  returns (on_unmerged (modify f)) s (λ r s', r = Some tt ∧ merging_ok s' ∧ merge_step None s s').
Proof.
  intros Hf Hok. unfold returns, on_unmerged, modify. split; [done|]. destruct (Hf (bc_unmerged s)) as (H1 & H2 & H3).
  set (s' := MkBoth _ _).
  assert (merge_step None s s') as Hstep.
  { destruct (merge_step_refl None s) as [A1 A2 A3 A4 A5]. split; simpl; rewrite ?H1, ?H2, ?H3; done. }
  split; [|done]. eapply merging_ok_step; [done|done|done|]. destruct (mo_wf s Hok) as [W1 W2].
  split; simpl; rewrite ?H1, ?H2, ?H3; done.
Qed.

Lemma merge_step_absorb s s1 s2 id c0 : merge_step None s s1 → merge_step (Some id) s1 s2 →
  ccs_chains (bc_unmerged s) !! id = Some c0 → U (cc_original c0) → merge_step None s s2.
Proof.
  intros H1 H2 Hc0 Hu. pose proof (merge_step_trans (Some id) s s1 s2 (merge_step_weaken _ _ _ H1) H2) as [A1 A2 A3 A4 A5].
  split; [done|done| |done|done]. intros j c Hc Hu' _. apply A3; [done|done|]. intros [= ->]. congruence.
Qed.

Lemma on_unmerged_bind {A B} (m : go crChains A) (f : A → go crChains B) s Q :
  returns (on_unmerged m ≫= λ a, on_unmerged (f a)) s Q → returns (on_unmerged (m ≫= f)) s Q.
Proof.
  unfold returns, on_unmerged, mbind, go_bind. destruct (m (bc_unmerged s)) as [[a|e|p] u]; simpl; [|done..].
  by destruct (f a u).
Qed.

Lemma merge_file_step p mo id s c : merging_ok s → ccs_chains (bc_unmerged s) !! id = Some c →
  returns (on_unmerged (merge_file p mo id)) s (λ _ s', merging_ok s' ∧ merge_step (Some id) s s').
Proof.
  intros Hok Hc. unfold merge_file. apply on_unmerged_bind. apply returns_bind. unfold returns at 1, on_unmerged at 1, get.
  replace (MkBoth (bc_unmerged s) (bc_merged s)) with s by (by destruct s).
  apply on_unmerged_bind, returns_bind. unfold deref_chain. rewrite Hc. unfold returns at 1, on_unmerged at 1, lift_res.
  replace (MkBoth (bc_unmerged s) (bc_merged s)) with s by (by destruct s).
  apply on_unmerged_bind, returns_bind.
  eapply returns_mono; [apply (set_ops_step (Some id) _ id s c); [done|done|by right|apply ops_merged_paths]|].
  intros r s1 (-> & Hok1 & Hs1). destruct (existsb is_sync (cc_ops c)); [|by destruct s1].
  eapply returns_mono; [by apply (marks_step (forget_created mo) s1)|]. intros r s2 (_ & Hok2 & Hs2).
  split; [done|]. eapply merge_step_trans; [done|]. by apply merge_step_weaken.
Qed.

Section check.
Context (check : nat → path → go bothChains (list path)) (n : nat).
Context (Hcheck : ∀ s id c p, merging_ok s → ccs_chains (bc_unmerged s) !! id = Some c → ¬ U (cc_original c) →
  unmatched s < n → returns (check id p) s (λ _ s', merging_ok s' ∧ merge_step (Some id) s s')).

Lemma merge_create_step p cop mcop s : merging_ok s → U (first_ref cop) → first_ref mcop ∈ M → unmatched s < S n →
  returns (merge_create check p cop mcop) s (λ _ s', merging_ok s' ∧ merge_step None s s').
Proof.
  intros Hok Hu Hm Hn. unfold merge_create. apply returns_bind.
  eapply returns_mono; [by apply changeOriginal_step|]. intros [[[]|e]|] s1 Hr; [| |done].
  - destruct Hr as (Hok1 & Hs1 & Hlt & id & c & c0 & Hc & Hc0 & Hu0 & Ho). apply returns_get. rewrite Hc.
    assert (ccs_chains (bc_unmerged s1) !! id = Some c) as Hci.
    { unfold chain_by_original in Hc. destruct (ccs_byOriginal (bc_unmerged s1) !! _) as [i|]; [|done]. simpl in Hc.
      destruct (ccs_chains (bc_unmerged s1) !! i) as [d|] eqn:Ed; [|done]. by injection Hc as <- <-. }
    case_decide as Hd; apply returns_bind.
    + eapply returns_mono; [apply (Hcheck s1 id c); [done|done| |lia]|].
      { rewrite Ho. intros Hu'. by destruct (HUM _ Hu'). }
      intros [newPaths|] s2 (Hok2 & Hs2); [apply returns_ret|]; (split; [done|]); by eapply merge_step_absorb.
    + eapply returns_mono; [by apply (merge_file_step _ _ id s1 c)|].
      intros [[]|] s2 (Hok2 & Hs2); [apply returns_ret|]; (split; [done|]); by eapply merge_step_absorb.
  - subst s1. destruct e; try (apply returns_fail; split; [done|apply merge_step_refl]).
    apply returns_bind. eapply returns_mono; [by apply (marks_step (unref_later (first_ref cop)) s)|].
    intros r s2 (-> & Hok2 & Hs2). by apply returns_ret.
Qed.

(** The loop drops only double creates, and leaves the chain itself alone. *)
Lemma merge_creates_step merged p ops : ∀ i s,
  merging_ok s → unmatched s < S n →
  (∀ o cop, o ∈ ops → new_create o = Some cop → U (first_ref cop)) →
  (∀ name mcop, merged !! name = Some mcop → first_ref mcop ∈ M ∧ co_NewName mcop = name ∧
     ∃ id c, ccs_chains mc !! id = Some c ∧ mcop ∈ omap new_create (cc_ops c)) →
  returns (merge_creates check merged p i ops) s (λ r s', merging_ok s' ∧ merge_step None s s' ∧
    match r with
    | Some (_, toDrop) => ∀ k, k ∈ toDrop → i <= k ∧ ∃ o, ops !! (k - i) = Some o ∧ double_create mc o
    | None => True
    end).
Proof.
  induction ops as [|o ops IH]; intros i s Hok Hn Hu Hmerged; simpl.
  - apply returns_ret. split; [done|]. split; [apply merge_step_refl|]. set_solver.
  - apply returns_get. destruct (same_create merged s o) as [[cop mcop]|] eqn:Es.
    + unfold same_create in Es. destruct (new_create o) as [cop'|] eqn:Eo; [|done]. simpl in Es.
      destruct (merged !! co_NewName cop') as [mcop'|] eqn:Em; [|done]. simpl in Es.
      case_decide as Ht; [|done]. destruct (_ && _); [done|]. injection Es as -> ->.
      destruct (Hmerged _ _ Em) as (HmM & Hname & id & c & Hc & Hin).
      apply returns_bind. eapply returns_mono; [apply merge_create_step; [done| |done|done]; eapply Hu; [by left|done]|].
      intros [paths|] s1 (Hok1 & Hs1); [|done].
      assert (unmatched s1 < S n) as Hn1.
      { pose proof (subseteq_size _ _ (ms_unmatched _ _ _ Hs1)). unfold unmatched in *. lia. }
      apply returns_bind. eapply returns_mono; [apply (IH (S i) s1 Hok1 Hn1); [intros o' c' Ho'; apply Hu; by right|done]|].
      intros [[rest toDrop]|] s2 (Hok2 & Hs2 & Hd); simpl.
      * split; [done|]. split; [by eapply merge_step_trans|]. intros k [->%elem_of_singleton|Hk]%elem_of_union.
        -- split; [done|]. exists o. rewrite Nat.sub_diag. split; [done|]. exists cop, id, c, mcop. done.
        -- destruct (Hd k Hk) as (Hle & o' & Ho' & Hdc). split; [lia|]. exists o'. split; [|done].
           by replace (k - i) with (S (k - S i)) by lia.
      * split; [done|]. split; [by eapply merge_step_trans|done].
    + eapply returns_mono; [apply (IH (S i) s Hok Hn); [intros o' c' Ho'; apply Hu; by right|done]|].
      intros [[rest toDrop]|] s2 (Hok2 & Hs2 & Hd); (split; [done|]); (split; [done|]); [|done].
      intros k Hk. destruct (Hd k Hk) as (Hle & o' & Ho' & Hdc). split; [lia|]. exists o'. split; [|done].
      by replace (k - i) with (S (k - S i)) by lia.
Qed.
End check.

Lemma mergedCreates_Some ops name mcop : mergedCreates ops !! name = Some mcop →
  mcop ∈ omap new_create ops ∧ co_NewName mcop = name.
Proof.
  unfold mergedCreates. generalize (omap new_create ops). intros l.
  assert (∀ l (m : gmap string createOp), foldl (λ m cop, <[co_NewName cop := cop]> m) m l !! name = Some mcop →
    m !! name = Some mcop ∨ mcop ∈ l ∧ co_NewName mcop = name) as Hgen.
  { clear l. induction l as [|cop l IH]; intros m Hm; simpl in Hm; [by left|].
    destruct (IH _ Hm) as [Hi|[Hin Hn]]; [|right; split; [by right|done]].
    apply lookup_insert_Some in Hi as [[Hn ->]|[_ Hi]]; [|by left]. right. split; [by left|done]. }
  intros Hm. by destruct (Hgen l ∅ Hm) as [Hi|Hi].
Qed.

Lemma checkPathForMerge_step fuel : ∀ s id c p, merging_ok s → ccs_chains (bc_unmerged s) !! id = Some c → ¬ U (cc_original c) →
  unmatched s < fuel → returns (checkPathForMerge fuel id p) s (λ _ s', merging_ok s' ∧ merge_step (Some id) s s').
Proof.
  induction fuel as [|fuel IH]; intros s id c p Hok Hc Hu Hn; [lia|]. cbn [checkPathForMerge].
  apply returns_get. apply returns_bind. unfold deref_chain. rewrite Hc. unfold returns at 1, lift_res.
  destruct (chain_by_original (cc_original c) (bc_merged s)) as [[mid mchain]|] eqn:Em;
    [|apply returns_ret; split; [done|apply merge_step_refl]].
  case_decide as He; [apply returns_ret; split; [done|apply merge_step_refl]|].
  assert (ccs_chains mc !! mid = Some mchain) as Hmid.
  { rewrite (mo_merged s Hok) in Em. unfold chain_by_original in Em. destruct (ccs_byOriginal mc !! _) as [i|]; [|done]. simpl in Em.
    destruct (ccs_chains mc !! i) as [d|] eqn:Ed; [|done]. by injection Em as <- <-. }
  apply returns_bind. eapply returns_mono; [apply (merge_creates_step (checkPathForMerge fuel) fuel IH); [done|done| |]|].
  - intros o cop Ho Hno. apply (mo_created s Hok). exists id, c, cop. split; [done|]. split; [|done].
    apply list_elem_of_omap. by exists o.
  - intros name mcop [Hin Hname]%mergedCreates_Some. split; [apply HM; by exists mid, mchain, mcop|]. split; [done|]. by exists mid, mchain.
  - intros [[newPaths toDrop]|] s1 (Hok1 & Hs1 & Hd); [|split; [done|by apply merge_step_weaken]].
    pose proof (ms_frame _ _ _ Hs1 id c Hc Hu ltac:(done)) as Hc1. apply returns_bind. case_decide as Ht.
    + unfold returns at 1, on_unmerged. simpl. replace (MkBoth (bc_unmerged s1) (bc_merged s1)) with s1 by (by destruct s1).
      apply returns_ret. split; [done|by apply merge_step_weaken].
    + eapply returns_mono; [apply (set_ops_step (Some id) _ id s1 c); [done|done|by right|]|].
      * apply ops_merged_keep. intros k o Ho Hk. destruct (Hd k Hk) as (_ & o' & Ho' & Hdc). rewrite Nat.sub_0_r in Ho'. congruence.
      * intros r s2 (-> & Hok2 & Hs2). apply returns_ret. split; [done|]. eapply merge_step_trans; [by apply merge_step_weaken|done].
Qed.

Lemma findCreatedDirsToMerge_step fuel paths : ∀ s, merging_ok s → unmatched s < fuel →
  (∀ p id c tail, p ∈ paths → tailPointer p = Ok tail → ccs_byMostRecent (bc_unmerged s) !! tail = Some id →
     ccs_chains (bc_unmerged s) !! id = Some c → ¬ U (cc_original c)) →
  (∀ p, p ∈ paths → p_path p ≠ []) →
  returns (findCreatedDirsToMerge fuel paths) s (λ _ s', merging_ok s' ∧ ∀ id c, ccs_chains (bc_unmerged s) !! id = Some c →
     ∃ c', ccs_chains (bc_unmerged s') !! id = Some c' ∧ ops_merged mc (cc_ops c) (cc_ops c')).
Proof.
  induction paths as [|p paths IH]; intros s Hok Hn Htop Hne.
  { apply returns_ret. split; [done|]. intros id c Hc. exists c. split; [done|apply ops_merged_refl]. }
  cbn [findCreatedDirsToMerge]. apply returns_get, returns_bind.
  destruct (tailPointer p) as [tail|e|m] eqn:Et.
  2, 3: unfold tailPointer, tailNode in Et; destruct (last (p_path p)) eqn:El; try done;
    apply last_None in El; by destruct (Hne p ltac:(by left)).
  unfold returns at 1, lift_res. unfold chain_at.
  destruct (ccs_byMostRecent (bc_unmerged s) !! tail) as [id|] eqn:Er; simpl;
    [|apply returns_fail; split; [done|]; intros id c Hc; exists c; split; [done|apply ops_merged_refl]].
  destruct (ccs_chains (bc_unmerged s) !! id) as [c|] eqn:Hc; simpl;
    [|apply returns_fail; split; [done|]; intros id' c' Hc'; exists c'; split; [done|apply ops_merged_refl]].
  apply returns_bind. eapply returns_mono; [apply (checkPathForMerge_step fuel s id c p Hok Hc); [|done]|].
  { eapply Htop; [by left|done|done|done]. }
  intros r s1 (Hok1 & Hs1).
  assert (∀ i d, ccs_chains (bc_unmerged s) !! i = Some d → ∃ d', ccs_chains (bc_unmerged s1) !! i = Some d' ∧
    ops_merged mc (cc_ops d) (cc_ops d')) as Hops1.
  { intros i d Hd. destruct (ms_ops _ _ _ Hs1 i d Hd) as (d' & Hd' & Ho & _). by exists d'. }
  destruct r as [newPaths|]; [|done]. apply returns_bind. eapply returns_mono; [apply (IH s1 Hok1)|].
  - pose proof (subseteq_size _ _ (ms_unmatched _ _ _ Hs1)). unfold unmatched in *. lia.
  - intros q i d t Hq Ht Hi Hd Hu. destruct (ms_recent _ _ _ Hs1 t i d Hi Hd) as [Hi0|Hm]; [|by destruct (HUM _ Hu Hm)].
    destruct (ms_dom _ _ _ Hs1 i (ex_intro _ _ Hd)) as [d0 Hd0].
    pose proof (Htop q i d0 t ltac:(by right) Ht Hi0 Hd0) as Hu0.
    destruct (ms_ops _ _ _ Hs1 i d0 Hd0) as (d1 & Hd1 & _ & [Hk|[Hk _]]); [|done]. congruence.
  - intros q Hq. apply Hne. by right.
  - intros r2 s2 (Hok2 & Hops2). assert (∀ i d, ccs_chains (bc_unmerged s) !! i = Some d →
      ∃ d', ccs_chains (bc_unmerged s2) !! i = Some d' ∧ ops_merged mc (cc_ops d) (cc_ops d')) as Hops.
    { intros i d Hd. destruct (Hops1 i d Hd) as (d1 & Hd1 & Ho1). destruct (Hops2 i d1 Hd1) as (d2 & Hd2 & Ho2).
      exists d2. split; [done|]. by eapply ops_merged_trans. }
    destruct r2; [by apply returns_ret|done].
Qed.
End merging.

(** C10. Merging the directories that both branches created returns, with fuel for
    as many levels as the merged branch has creates, and loses no operation
    of the unmerged branch but creates of something that the merged branch
    creates too, of the same name and type.  Block pointers are fresh: what
    the one branch creates the other does not; and the paths are of nodes
    from before the branch. *)
Theorem created_dirs_merged `{ResolverConfig} fuel paths (M : gset BlockPointer) s :
  chains_wf (bc_unmerged s) →
  (∀ ptr, created_in (bc_merged s) ptr → ptr ∈ M) → (∀ ptr, created_in (bc_unmerged s) ptr → ptr ∉ M) →
  (∀ p, p ∈ paths → p_path p ≠ []) →
  (∀ p id c tail, p ∈ paths → tailPointer p = Ok tail → ccs_byMostRecent (bc_unmerged s) !! tail = Some id →
     ccs_chains (bc_unmerged s) !! id = Some c → ¬ created_in (bc_unmerged s) (cc_original c)) →
  size M < fuel →
  match findCreatedDirsToMerge fuel paths s with
  | (Panic _, _) => False
  | (_, s') => bc_merged s' = bc_merged s ∧ chains_wf (bc_unmerged s') ∧
      ∀ id c, ccs_chains (bc_unmerged s) !! id = Some c →
        ∃ c', ccs_chains (bc_unmerged s') !! id = Some c' ∧ ops_merged (bc_merged s) (cc_ops c) (cc_ops c')
  end.
Proof.
  intros Hwf HM HUM Hne Htop Hfuel.
  pose proof (findCreatedDirsToMerge_step (bc_merged s) (created_in (bc_unmerged s)) M HM HUM fuel paths s) as Hf.
  specialize (Hf ltac:(by split)). unfold returns in Hf.
  destruct (findCreatedDirsToMerge fuel paths s) as [[newPaths|e|m] s'].
  1, 2: destruct Hf as ([Hm Hw _] & Ho); [|exact Htop|exact Hne|done];
    unfold unmatched; pose proof (subseteq_size (M ∖ dom (ccs_byOriginal (bc_unmerged s))) M ltac:(set_solver)); lia.
  apply Hf; [|exact Htop|exact Hne]. unfold unmatched.
  pose proof (subseteq_size (M ∖ dom (ccs_byOriginal (bc_unmerged s))) M ltac:(set_solver)). lia.
Qed.
