(* ===== verification/ResolverSpec.v ===== *)
(** * ResolverSpec: what a resolution keeps

    The metadata of a resolution follows the merged head and accounts for
    every block once; the removes of the unmerged branch do not take away
    what the merged branch changed; merging new directories drops only what
    the merged branch has created too; and where the resolver does not come
    to an end. *)

From Stdlib Require Import ZArith Lia Sorted.
From S2P Require Import Prelude Types Errors Ids CryptoCommon Splitter DataTypes Ops ConflictInfo Handles KeyBundles Metadata FolderBlocks DirOps CRChains CRActions LevelDb MDServer MDServerSpec MDServerOps MDClient ResolverPaths ResolverActions ResolverOps.

(** ** Accounting *)

Section usage.
Context `{ResolverLaws}.

Definition local_size (localBlocks : gmap BlockPointer Z) (ptr : BlockPointer) : res Z :=
  match localBlocks !! ptr with Some size => Ok size | None => rv_GetBlockSize ptr end.

(** The sizes of the blocks add up to [total]. *)
Definition sizes_add_up (size : BlockPointer → res Z) (ptrs : list BlockPointer) (total : Z) : Prop :=
  ∃ sizes, Forall2 (λ ptr s, size ptr = Ok s) ptrs sizes ∧ total = foldr Z.add 0%Z sizes.

Lemma sizes_cons size ptr s ptrs total :
  size ptr = Ok s → sizes_add_up size ptrs total → sizes_add_up size (ptr :: ptrs) (s + total).
Proof. intros Hs (sizes & HF & ->). exists (s :: sizes). split; [by constructor|done]. Qed.

Lemma sizes_perm size l k total : l ≡ₚ k → sizes_add_up size l total → sizes_add_up size k total.
Proof.
  intros Hp. revert total. induction Hp as [|x l k _ IH|x y l|l m k _ IH1 _ IH2]; intros total Hs.
  - done.
  - destruct Hs as (sizes & HF & ->). inversion HF as [|? s ? sizes' Hx HF']; subst. apply sizes_cons; [done|].
    apply IH. by exists sizes'.
  - destruct Hs as (sizes & HF & ->). inversion HF as [|? s ? s1 Hx HF1]; subst. inversion HF1 as [|? s' ? s2 Hy HF2]; subst.
    exists (s' :: s :: s2). split; [by repeat constructor|]. simpl. lia.
  - by apply IH2, IH1.
Qed.

(** The usage so far: [r] bytes referred to and [u] dropped. *)
Record counted (usage r u : Z) (md0 md : RootMetadata) : Prop := {
  cn_usage : bm_DiskUsage (rmd_bare md) = to_u64 (usage + r - u);
  cn_ref : bm_RefBytes (rmd_bare md) = to_u64 r;
  cn_unref : bm_UnrefBytes (rmd_bare md) = to_u64 u;
  cn_same : same_identity (rmd_bare md0) (rmd_bare md);
  cn_data : rmd_data md = rmd_data md0
}.

Lemma to_u64_add x y : to_u64 (to_u64 x + y) = to_u64 (x + y).
Proof. destruct (to_u64_quot x) as [q ->]. apply (to_u64_cong _ _ q). lia. Qed.
Lemma to_u64_sub x y : to_u64 (to_u64 x - y) = to_u64 (x - y).
Proof. destruct (to_u64_quot x) as [q ->]. apply (to_u64_cong _ _ q). lia. Qed.

Lemma count_ref_counted usage r u md0 md size : counted usage r u md0 md → counted usage (r + size) u md0 (count_ref size md).
Proof.
  intros [Hd Hr Hu Hi Hdata]. split; unfold bm_DiskUsage, bm_RefBytes, bm_UnrefBytes in *; simpl.
  - rewrite Hd, to_u64_add.
    f_equal. lia.
  - by rewrite Hr, to_u64_add.
  - done.
  - eapply same_identity_trans; [exact Hi|]. by split.
  - done.
Qed.

Lemma count_unref_counted usage r u md0 md size : counted usage r u md0 md → counted usage r (u + size) md0 (count_unref size md).
Proof.
  intros [Hd Hr Hu Hi Hdata]. split; unfold bm_DiskUsage, bm_RefBytes, bm_UnrefBytes in *; simpl.
  - rewrite Hd, to_u64_sub. f_equal. lia.
  - done.
  - by rewrite Hu, to_u64_add.
  - eapply same_identity_trans; [exact Hi|]. by split.
  - done.
Qed.

Lemma count_refs_counted localBlocks refs usage r u md0 md md' : counted usage r u md0 md →
  count_refs localBlocks refs md = Ok md' →
  ∃ total, sizes_add_up (local_size localBlocks) refs total ∧ counted usage (r + total) u md0 md'.
Proof.
  revert r md. induction refs as [|ptr refs IH]; intros r md Hc Hs; simpl in Hs.
  - injection Hs as <-. exists 0%Z. split; [by exists []|]. by rewrite Z.add_0_r.
  - apply bind_Ok in Hs as (size & Hsize & Hs). apply (count_ref_counted _ _ _ _ _ size) in Hc.
    destruct (IH _ _ Hc Hs) as (total & Ht & Hc'). exists (size + total)%Z. split; [by apply sizes_cons|]. by rewrite Z.add_assoc.
Qed.

Lemma count_unrefs_counted both unrefs usage r u md0 md md' : counted usage r u md0 md →
  count_unrefs both unrefs md = Ok md' →
  ∃ total, sizes_add_up rv_GetBlockSize (filter (λ ptr, counts_as_unref both ptr = true) unrefs) total ∧
    counted usage r (u + total) md0 md'.
Proof.
  revert u md. induction unrefs as [|ptr unrefs IH]; intros u md Hc Hs; simpl in Hs.
  - injection Hs as <-. exists 0%Z. split; [by exists []|]. by rewrite Z.add_0_r.
  - rewrite filter_cons. destruct (counts_as_unref both ptr); [|rewrite decide_False by done; by apply (IH u md)].
    rewrite decide_True by done. apply bind_Ok in Hs as (size & Hsize & Hs).
    apply (count_unref_counted _ _ _ _ _ size) in Hc. destruct (IH _ _ Hc Hs) as (total & Ht & Hc').
    exists (size + total)%Z. split; [by apply sizes_cons|]. by rewrite Z.add_assoc.
Qed.

Lemma unref_last_bare ptrs md md' : unref_last ptrs md = Ok md' → rmd_bare md' = rmd_bare md.
Proof.
  unfold unref_last. destruct ptrs as [|ptr ptrs]; [by intros [= <-]|].
  destruct (update_last _ _) as [[[]| |] changes]; [|done..]. by intros [= <-].
Qed.

Lemma add_ops_same ops md md' : add_ops ops md = Ok md' → rmd_bare md' = rmd_bare md.
Proof.
  revert md. induction ops as [|[o|] ops IH]; intros md Hs; simpl in Hs; [by injection Hs as <-| |done].
  rewrite (IH _ Hs). done.
Qed.

(** *** What the operations refer to and drop *)

(** The operations, one reference after the other: an operation refers to
    blocks, drops blocks, and each of its updates drops the old block and
    refers to the new one.  Blocks of changes are not counted. *)
Inductive usage_event := Refers (ptr : BlockPointer) | Drops (ptr : BlockPointer).

Definition update_events (u : blockUpdate) : list usage_event :=
  if decide (bu_Unref u = bu_Ref u) then [Refers (bu_Ref u)] else [Drops (bu_Unref u); Refers (bu_Ref u)].
Definition op_events (changePtrs : gset BlockPointer) (o : op) : list usage_event :=
  (Refers <$> filter (λ ptr, ptr ∉ changePtrs) (Refs o)) ++ (Drops <$> Unrefs o) ++ (AllUpdates o ≫= update_events).

(** A block that is referred to, and not dropped after that. *)
Definition referred (events : list usage_event) (ptr : BlockPointer) : Prop :=
  ∃ before after, events = before ++ Refers ptr :: after ∧ Drops ptr ∉ after.

(** A block that the unmerged branch has neither created nor made by an
    update, and whose node the merged branch has not deleted. *)
Definition in_merged (both : bothChains) (ptr : BlockPointer) : Prop :=
  (∀ original, ccs_originals (bc_unmerged both) !! ptr = Some original → original = ptr) ∧
  (ptr ∉ ccs_createdOriginals (bc_unmerged both)) ∧
  (default ptr (ccs_originals (bc_merged both) !! ptr) ∉ ccs_deletedOriginals (bc_merged both)).

Lemma counts_as_unref_spec both ptr : counts_as_unref both ptr = true ↔ in_merged both ptr.
Proof.
  unfold counts_as_unref, in_merged, isCreated, isDeleted. cbv zeta.
  rewrite andb_true_iff, !negb_true_iff, orb_false_iff, negb_false_iff, !bool_decide_eq_false, bool_decide_eq_true.
  destruct (ccs_originals (bc_unmerged both) !! ptr) as [original|]; simpl; [|naive_solver].
  split; [intros [[-> Hc] Hd]; naive_solver|]. intros (Ho & Hc & Hd). by rewrite (Ho _ eq_refl).
Qed.

Definition usage_step (acc : gset BlockPointer * gset BlockPointer) (e : usage_event) : gset BlockPointer * gset BlockPointer :=
  match e with
  | Refers ptr => ({[ ptr ]} ∪ acc.1, acc.2)
  | Drops ptr => (acc.1 ∖ {[ ptr ]}, {[ ptr ]} ∪ acc.2)
  end.

Lemma usage_op_events changePtrs acc o : usage_op changePtrs acc o = foldl usage_step acc (op_events changePtrs o).
Proof.
  unfold usage_op, op_events. destruct acc as [r u]. rewrite !foldl_app.
  assert (∀ l r u, foldl usage_step (r, u) (Refers <$> filter (λ ptr, ptr ∉ changePtrs) l) =
    (foldl (λ r ptr, if decide (ptr ∈ changePtrs) then r else {[ ptr ]} ∪ r) r l, u)) as H1.
  { induction l as [|p l IH]; intros r0 u0; [done|]. rewrite filter_cons. simpl.
    destruct (decide (p ∈ changePtrs)); [rewrite decide_False by auto|rewrite decide_True by done]; apply IH. }
  assert (∀ l r u, foldl usage_step (r, u) (Drops <$> l) =
    (foldl (λ r ptr, r ∖ {[ ptr ]}) r l, foldl (λ u ptr, {[ ptr ]} ∪ u) u l)) as H2.
  { induction l as [|p l IH]; intros r0 u0; [done|]. apply IH. }
  rewrite H1, H2. generalize (foldl (λ r ptr, r ∖ {[ ptr ]}) (foldl (λ r ptr, if decide (ptr ∈ changePtrs) then r else {[ ptr ]} ∪ r) r (Refs o)) (Unrefs o)).
  generalize (foldl (λ u ptr, {[ ptr ]} ∪ u) u (Unrefs o)). generalize (AllUpdates o).
  induction l as [|up l IH]; intros u0 r0; [done|]. cbn [mbind list_bind foldl]. rewrite foldl_app.
  assert (∀ x, foldl usage_step x (update_events up) = if decide (bu_Unref up ≠ bu_Ref up)
    then ({[ bu_Ref up ]} ∪ (x.1 ∖ {[ bu_Unref up ]}), {[ bu_Unref up ]} ∪ x.2) else ({[ bu_Ref up ]} ∪ x.1, x.2)) as ->.
  { intros x. unfold update_events. destruct (decide (bu_Unref up = bu_Ref up)) as [He|Hne];
      [by rewrite decide_False by auto|by rewrite decide_True by done]. }
  simpl. case_decide; apply IH.
Qed.

Lemma usage_sets_events changePtrs ops :
  usage_sets changePtrs ops = foldl usage_step (∅, ∅) (ops ≫= op_events changePtrs).
Proof.
  unfold usage_sets. generalize (∅ : gset BlockPointer, ∅ : gset BlockPointer).
  induction ops as [|o ops IH]; intros acc; [done|]. simpl. rewrite IH, usage_op_events. by rewrite foldl_app.
Qed.

Lemma usage_steps_spec events ptr :
  (ptr ∈ (foldl usage_step (∅, ∅) events).1 ↔ referred events ptr) ∧
  (ptr ∈ (foldl usage_step (∅, ∅) events).2 ↔ Drops ptr ∈ events).
Proof.
  induction events as [|e events [IH1 IH2]] using rev_ind.
  { split; [|set_solver]. split; [set_solver|]. intros (l & k & Hl & _). by destruct l. }
  rewrite foldl_app. cbn [foldl]. set (acc := foldl usage_step (∅, ∅) events) in *.
  assert (referred (events ++ [e]) ptr ↔ e = Refers ptr ∨ e ≠ Drops ptr ∧ referred events ptr) as Hsnoc.
  { split.
    - intros (l & k & Hl & Hk). destruct k as [|e' k _] using rev_ind.
      + apply app_inj_tail in Hl as [-> ->]. by left.
      + rewrite app_comm_cons, app_assoc in Hl. apply app_inj_tail in Hl as [-> ->]. right.
        split; [intros ->; apply Hk; set_solver|]. exists l, k. split; [done|set_solver].
    - intros [->|(Hne & l & k & -> & Hk)].
      + exists events, []. split; [done|set_solver].
      + exists l, (k ++ [e]). split; [by rewrite <- app_assoc|]. intros [?|<-%list_elem_of_singleton]%elem_of_app; done. }
  rewrite Hsnoc, elem_of_app, list_elem_of_singleton.
  destruct e as [p|p]; simpl; rewrite ?elem_of_union, ?elem_of_difference, elem_of_singleton, IH1, IH2; split; naive_solver.
Qed.

(** The usage of a resolution, with [extra] bytes for a block of changes:
    the blocks [refs] are referred to at the end and the blocks [unrefs] were
    in the merged branch and are dropped; each counts once. *)
Definition resolution_accounts (both : bothChains) (localBlocks : gmap BlockPointer Z) (ops : list op) (usage extra : Z)
    (b : BareRootMetadata) : Prop :=
  let events := ops ≫= op_events (ccs_blockChangePointers (bc_unmerged both)) in
  ∃ refs unrefs r u, NoDup refs ∧ NoDup unrefs ∧
    (∀ ptr, ptr ∈ refs ↔ referred events ptr) ∧ (∀ ptr, ptr ∈ unrefs ↔ Drops ptr ∈ events ∧ in_merged both ptr) ∧
    sizes_add_up (local_size localBlocks) refs r ∧ sizes_add_up rv_GetBlockSize unrefs u ∧
    bm_RefBytes b = to_u64 (r + extra) ∧ bm_UnrefBytes b = to_u64 u ∧ bm_DiskUsage b = to_u64 (usage + r + extra - u).

(** What a resolution refers to and drops, in whatever order the sets are
    gone through. *)
Lemma calculateResolutionUsage_spec usage localBlocks both md md' :
  calculateResolutionUsage usage localBlocks both md = Ok md' → (0 <= usage < 2 ^ 64)%Z →
  resolution_accounts both localBlocks (bc_Ops (pmd_Changes (rmd_data md))) usage 0 (rmd_bare md') ∧
  same_identity (rmd_bare md) (rmd_bare md').
Proof.
  unfold calculateResolutionUsage, resolution_accounts. rewrite usage_sets_events. cbv zeta. set (events := _ ≫= _).
  pose proof (usage_steps_spec events) as Hev. destruct (foldl usage_step (∅, ∅) events) as [refs unrefs]. intros Hs Hu.
  apply bind_Ok in Hs as (md1 & H1 & (md2 & H2 & H3)%bind_Ok).
  assert (counted usage 0 0 md (add_bytes usage 0 0 md)) as Hc.
  { split; [|done|done|by split|done]. unfold bm_DiskUsage. simpl. rewrite Z.add_0_r, Z.sub_0_r. by rewrite to_u64_small. }
  destruct (count_refs_counted _ _ _ _ _ _ _ _ Hc H1) as (r & Hr & Hc1).
  destruct (count_unrefs_counted _ _ _ _ _ _ _ _ Hc1 H2) as (u & Hu' & [Hd Hrb Hub Hi _]).
  apply unref_last_bare in H3. rewrite H3. simpl in *. split; [|done].
  exists (elements refs), (filter (λ ptr, counts_as_unref both ptr = true) (elements unrefs)), r, u. split_and!.
  - apply NoDup_elements.
  - apply NoDup_filter, NoDup_elements.
  - intros ptr. rewrite elem_of_elements. apply Hev.
  - intros ptr. rewrite list_elem_of_filter, elem_of_elements, counts_as_unref_spec. destruct (Hev ptr) as [_ He]. rewrite <- He. simpl. tauto.
  - eapply sizes_perm; [|exact Hr]. apply rv_perm_ok.
  - eapply sizes_perm; [|exact Hu']. apply filter_Permutation, rv_perm_ok.
  - by rewrite Z.add_0_r.
  - done.
  - by rewrite Z.add_0_r.
Qed.

(** *** The block of the changes *)

Section embed.
Context {W : Type} `{Config, Codec FileBlock, Codec DirBlock, BranchConfig W, Codec BlockChanges}.
Abbreviation fbo := (folderBranchOps W).

Definition keeps_md {A} (m : go fbo A) : Prop := ∀ s, br_md (snd (m s)) = br_md s.
Lemma keeps_md_bind {A B} (m : go fbo A) (f : A → go fbo B) : keeps_md m → (∀ a, keeps_md (f a)) → keeps_md (m ≫= f).
Proof.
  intros Hm Hf s. unfold mbind, go_bind. specialize (Hm s). destruct (m s) as [[a|e|p] s']; [|done..].
  by rewrite Hf.
Qed.
Lemma keeps_md_blocks {A} (m : go folderBlockOps A) : keeps_md (on_blocks m).
Proof. intros s. unfold on_blocks. by destruct (m _). Qed.
Lemma keeps_md_world {A} (m : go W A) : keeps_md (on_world m).
Proof. intros s. unfold on_world. by destruct (m _). Qed.

Lemma readyBlockMultiple_keeps_md a uid : keeps_md (readyBlockMultiple a uid).
Proof.
  apply keeps_md_bind; [|intros [[info plain] data]; by apply keeps_md_bind].
  apply keeps_md_bind; [apply keeps_md_blocks|]. intros block. apply keeps_md_bind.
  { destruct block; [done|done|]. case_match; [done|apply keeps_md_world]. }
  intros ptr. apply keeps_md_bind; [done|]. intros s0. apply keeps_md_bind; [apply keeps_md_world|].
  intros [[id plain] data]. cbv zeta. apply keeps_md_bind; [apply keeps_md_blocks|]. intros [].
  apply keeps_md_bind; [|done]. case_match; [|done]. apply keeps_md_bind; [apply keeps_md_world|done].
Qed.

(** The size of the block of the changes is added to what is referred to
    and to the disk usage. *)
Lemma resolution_embed_bare uid (s s' : fbo) x y :
  bm_DiskUsage (rmd_bare (br_md s)) = to_u64 x → bm_RefBytes (rmd_bare (br_md s)) = to_u64 y →
  resolution_embed uid s = (Ok tt, s') →
  ∃ extra, let b := rmd_bare (br_md s) in let b' := rmd_bare (br_md s') in
    same_identity b b' ∧ bm_DiskUsage b' = to_u64 (bm_DiskUsage b + extra) ∧ bm_RefBytes b' = to_u64 (bm_RefBytes b + extra) ∧
    bm_UnrefBytes b' = bm_UnrefBytes b ∧
    extra = (if ShouldEmbedBlockChanges cfg_BlockSplitter (bc_sizeEstimate (pmd_Changes (rmd_data (br_md s)))) then 0
             else bi_EncodedSize (bc_Info (pmd_Changes (rmd_data (br_md s')))))%Z.
Proof.
  intros Hx Hy. unfold resolution_embed. unfold mbind at 1, go_bind at 1, get. destruct (ShouldEmbedBlockChanges _ _).
  { intros [= <-]. exists 0%Z. cbv zeta. rewrite Hx, Hy, !to_u64_add, !Z.add_0_r. by split_and!. }
  unfold unembedBlockChanges. intros (s0 & s1 & [= <- <-] & Hrun)%go_bind_Ok. cbv zeta in Hrun.
  apply go_bind_Ok in Hrun as (buf & s1 & Hbuf & Hrun). apply go_bind_Ok in Hrun as (a & s2 & Ha & Hrun).
  apply go_bind_Ok in Hrun as ([info plain] & s3 & Hready & Hrun). injection Hrun as <-.
  assert (br_md s3 = br_md s) as Hmd.
  { pose proof (readyBlockMultiple_keeps_md a uid s2) as Hk3. rewrite Hready in Hk3. simpl in Hk3. rewrite Hk3.
    pose proof (keeps_md_blocks (alloc (FileB (MkFileBlock (MkCommonBlock false 0) buf []))) s1) as Hk2. rewrite Ha in Hk2. simpl in Hk2. rewrite Hk2.
    unfold lift_res in Hbuf. by destruct (Encode _); simplify_eq. }
  exists (bi_EncodedSize info). cbv zeta. cbn [br_md set_md rmd_bare]. rewrite Hmd. split_and!; [by split|done..].
Qed.
End embed.

Context `{Codec WriterMetadata, Codec SignatureInfo, Codec (gmap KID TLFCryptKeyInfo)}.
Context `{Codec BareRootMetadata, Codec PrivateMetadata, Codec TlfHandle}.
Context {W : Type} `{Config, Codec FileBlock, Codec DirBlock, BranchConfig W, Codec BlockChanges}.

Lemma resolution_accounts_extra both localBlocks ops usage b b' extra :
  resolution_accounts both localBlocks ops usage 0 b → bm_DiskUsage b' = to_u64 (bm_DiskUsage b + extra) →
  bm_RefBytes b' = to_u64 (bm_RefBytes b + extra) → bm_UnrefBytes b' = bm_UnrefBytes b →
  resolution_accounts both localBlocks ops usage extra b'.
Proof.
  intros (refs & unrefs & r & u & ? & ? & ? & ? & ? & ? & Hr & Hu & Hd) Hd' Hr' Hu'.
  exists refs, unrefs, r, u. split_and!; [done..| | |].
  - rewrite Hr', Hr, to_u64_add. f_equal. lia.
  - congruence.
  - rewrite Hd', Hd, to_u64_add. f_equal. lia.
Qed.

(** C9. The metadata of a resolution is a successor of the merged head that
    the metadata server accepts: with whatever operations it is made, in
    whatever order its blocks are counted, and whether or not its changes get
    a block of their own, its revision, the hash of its predecessor and its
    disk usage are what the server expects.  The disk usage is that of the
    merged head, with the size of each block added once that the operations
    refer to and do not drop later, and of the block of changes, and with the
    size of each block taken away once that they drop and that was in the
    merged branch: the unmerged branch did not create it or make it by an
    update, and the merged branch has not deleted it. *)
Theorem resolution_accepted merged unmergedPaths both both' md newChanges localBlocks md' uid (s s' : folderBranchOps W) :
  id_cached merged → IsReadable merged = true →
  (MetadataRevisionInitial <= bm_Revision (rmd_bare merged) < 2 ^ 63 - 1)%Z →
  (0 <= bm_DiskUsage (rmd_bare merged) < 2 ^ 64)%Z →
  createResolvedMD merged unmergedPaths both = (Ok md, both') →
  calculateResolutionUsage (bm_DiskUsage (rmd_bare merged)) localBlocks both' (set_Changes newChanges md) = Ok md' →
  br_md s = md' → resolution_embed uid s = (Ok tt, s') →
  let final := br_md s' in
  check_successor (rmd_bare merged) (rmd_bare final) = Ok tt ∧
  bm_ID (rmd_bare final) = bm_ID (rmd_bare merged) ∧ bm_BID (rmd_bare final) = bm_BID (rmd_bare merged) ∧
  resolution_accounts both' localBlocks (bc_Ops (newChanges (pmd_Changes (rmd_data md)))) (bm_DiskUsage (rmd_bare merged))
    (if ShouldEmbedBlockChanges cfg_BlockSplitter (bc_sizeEstimate (pmd_Changes (rmd_data md'))) then 0
     else bi_EncodedSize (bc_Info (pmd_Changes (rmd_data final))))%Z (rmd_bare final).
Proof.
  intros Hc Hread Hrev Hdu Hcreate Husage <- Hembed.
  destruct (calculateResolutionUsage_spec _ _ _ _ _ Husage Hdu) as [Hacc Hi]. cbn [rmd_data set_Changes pmd_Changes] in Hacc.
  pose proof Hacc as (_ & _ & r0 & u0 & _ & _ & _ & _ & _ & _ & Hr0 & _ & Hd0).
  destruct (resolution_embed_bare uid s s' _ _ Hd0 Hr0 Hembed) as (extra & Hi' & Hd' & Hr' & Hu' & Hextra). cbv zeta. rewrite <- Hextra.
  pose proof (resolution_accounts_extra _ _ _ _ _ _ _ Hacc Hd' Hr' Hu') as Hfinal.
  apply (same_identity_trans _ _ _ Hi) in Hi'.
  unfold createResolvedMD in Hcreate. apply go_bind_Ok in Hcreate as (new & s1 & Hm & Hcreate).
  apply go_bind_Ok in Hcreate as (ops & s2 & _ & Hcreate). apply go_bind_Ok in Hcreate as (new' & s3 & Hops & Hcreate).
  injection Hcreate as <- _. injection Hops as Hops _. injection Hm as Hm _. apply add_ops_same in Hops.
  destruct (MakeSuccessor true merged) as [r1 merged'] eqn:Hsucc. simpl in Hm. subst r1.
  destruct (MakeSuccessor_spec merged new merged' Hc Hread ltac:(lia) Hdu Hsucc)
    as (HID & HBID & _ & Hcop & Hr & Hprev & _ & _ & _).
  simpl in Hi'. rewrite Hops in Hi'. destruct Hi' as [I1 I2 I3 I4 I5 I6].
  split; [|split; [congruence|split; [congruence|done]]].
  destruct Hfinal as (refs & unrefs & r & u & _ & _ & _ & _ & _ & _ & Hrb & Hub & Hd).
  apply check_successor_follows; [unfold MetadataRevisionInitial in Hrev; lia|]. split; [congruence|by rewrite I6|].
  assert (IsWriterMetadataCopiedSet (rmd_bare (br_md s')) = false) as ->.
  { rewrite <- Hcop. unfold IsWriterMetadataCopiedSet, has_flag. by rewrite I4. }
  rewrite Hd, Hrb, Hub. destruct (to_u64_quot (r + extra)) as [q1 ->], (to_u64_quot u) as [q2 ->].
  symmetry. apply (to_u64_cong _ _ (q1 - q2)). lia.
Qed.
End usage.

(** ** Removes of what the other branch changed *)

Section recreates.
Context `{ResolverConfig}.

(** The original of [ptr], and its merged chain. *)
Definition merged_chain_of (s : bothChains) (ptr : BlockPointer) : option crChain :=
  match originalFromMostRecentOrSame ptr (bc_unmerged s) with
  | Ok original => snd <$> chain_by_original original (bc_merged s)
  | _ => None
  end.

(** Some chain of [m] creates a node with the pointer [ref]. *)
Definition creates_ref (m : crChains) (ref : BlockPointer) : Prop :=
  ∃ id c co, ccs_chains m !! id = Some c ∧ CreateOp co ∈ cc_ops c ∧ Refs (CreateOp co) = [ref].

(** From [s] to [s'] only the operations of chains changed: those of merged
    chains have grown, by creates. *)
Record only_ops (s s' : bothChains) : Prop := {
  oo_maps : ccs_byOriginal (bc_merged s') = ccs_byOriginal (bc_merged s) ∧
            ccs_byMostRecent (bc_unmerged s') = ccs_byMostRecent (bc_unmerged s);
  oo_unmerged id : (λ c, (cc_original c, cc_mostRecent c)) <$> ccs_chains (bc_unmerged s') !! id =
                   (λ c, (cc_original c, cc_mostRecent c)) <$> ccs_chains (bc_unmerged s) !! id;
  oo_merged id c : ccs_chains (bc_merged s) !! id = Some c →
    ∃ new, ccs_chains (bc_merged s') !! id = Some (MkCrChain (new ++ cc_ops c) (cc_original c) (cc_mostRecent c)) ∧
      Forall (λ o, is_create o = true) new;
  oo_none id : ccs_chains (bc_merged s) !! id = None → ccs_chains (bc_merged s') !! id = None
}.

Lemma only_ops_refl s : only_ops s s.
Proof. split; [done|done| |done]. intros id [ops o m] Hc. exists []. by split. Qed.

Lemma only_ops_trans s1 s2 s3 : only_ops s1 s2 → only_ops s2 s3 → only_ops s1 s3.
Proof.
  intros [[A1 A1'] A2 A3 A4] [[B1 B1'] B2 B3 B4]. split; [split; congruence|intros id; by rewrite B2, A2| |].
  - intros id c Hc. destruct (A3 id c Hc) as (n1 & H1 & F1). destruct (B3 id _ H1) as (n2 & H2 & F2). simpl in H2.
    exists (n2 ++ n1). rewrite <- app_assoc. split; [done|]. by apply Forall_app.
  - intros id Hn. by apply B4, A4.
Qed.

Lemma only_ops_chain s s' ptr : only_ops s s' →
  (λ c, (cc_original c, cc_mostRecent c)) <$> merged_chain_of s' ptr =
  (λ c, (cc_original c, cc_mostRecent c)) <$> merged_chain_of s ptr.
Proof.
  intros [[A1 A1'] A2 A3 A4]. unfold merged_chain_of, originalFromMostRecentOrSame, originalFromMostRecent, chain_at.
  rewrite A1'. assert (∀ original, (λ c, (cc_original c, cc_mostRecent c)) <$> (snd <$> chain_by_original original (bc_merged s')) =
    (λ c, (cc_original c, cc_mostRecent c)) <$> (snd <$> chain_by_original original (bc_merged s))) as Hch.
  { intros original. unfold chain_by_original. rewrite A1. destruct (ccs_byOriginal (bc_merged s) !! original) as [id|]; [|done].
    simpl. destruct (ccs_chains (bc_merged s) !! id) as [c|] eqn:E.
    - destruct (A3 id c E) as (new & -> & _). done.
    - by rewrite (A4 id E). }
  destruct (ccs_byMostRecent (bc_unmerged s) !! ptr) as [id|]; simpl; [|apply Hch]. specialize (A2 id).
  destruct (ccs_chains (bc_unmerged s') !! id) as [c'|], (ccs_chains (bc_unmerged s) !! id) as [c|]; simpl in *;
    [|done|done|apply Hch].
  injection A2 as E1 _. rewrite E1. apply Hch.
Qed.

Lemma creates_ref_mono s s' ref : only_ops s s' → creates_ref (bc_merged s) ref → creates_ref (bc_merged s') ref.
Proof.
  intros [_ _ A3 _] (id & c & co & Hc & Hin & Hr). destruct (A3 id c Hc) as (new & Hc' & _).
  eexists id, _, co. split; [done|]. split; [|done]. simpl. apply elem_of_app. by right.
Qed.

(** The remove is dropped, and the node created again, as soon as one of its
    pointers has a merged chain. *)
Lemma recreate_unrefs_spec uc ro unrefs : ∀ d s d' s', recreate_unrefs uc ro unrefs d s = (Ok d', s') →
  only_ops s s' ∧ bc_unmerged s' = bc_unmerged s ∧ (d = true → d' = true) ∧
  ∀ ptr c, ptr ∈ unrefs → merged_chain_of s ptr = Some c → d' = true ∧ creates_ref (bc_merged s') (cc_mostRecent c).
Proof.
  induction unrefs as [|ptr unrefs IH]; intros d s d' s' Hr; cbn [recreate_unrefs] in Hr.
  { injection Hr as <- <-. split; [apply only_ops_refl|]. split; [done|]. split; [done|]. by intros ptr c ?%elem_of_nil. }
  apply go_bind_Ok in Hr as (s0 & s1 & [= <- <-] & Hr). apply go_bind_Ok in Hr as (orig & s1 & Ho & Hr).
  injection Ho as Ho <-. destruct (chain_by_original orig (bc_merged s)) as [[cid c]|] eqn:Ec.
  - destruct (recreate_place uc ro orig s) as [parent name]. destruct (chain_by_original parent (bc_merged s)) as [[id chain]|] eqn:Ep; [|done].
    apply go_bind_Ok in Hr as (winfo & s1 & Hw & Hr). injection Hw as _ <-. apply go_bind_Ok in Hr as ([] & s1 & Hset & Hr).
    unfold chain_by_original in Ep. destruct (ccs_byOriginal (bc_merged s) !! parent) as [i|] eqn:Ei; [|done]. simpl in Ep.
    destruct (ccs_chains (bc_merged s) !! i) as [ch|] eqn:Ech; [|done]. injection Ep as -> ->.
    unfold on_merged, set_ops, modify in Hset. rewrite Ech in Hset. injection Hset as <-.
    set (o := merged_recreate c chain name winfo) in *. set (s1 := MkBoth _ _) in *.
    assert (only_ops s s1) as Hoo.
    { split; [done|done| |].
      - intros j cj Hj. simpl. destruct (decide (j = id)) as [->|Hne].
        + rewrite Ech in Hj. injection Hj as <-. rewrite lookup_insert_eq. exists [o]. split; [done|]. by repeat constructor.
        + rewrite lookup_insert_ne by done. exists []. destruct cj. by split.
      - intros j Hj. simpl. rewrite lookup_insert_ne; [done|]. intros ->. congruence. }
    assert (creates_ref (bc_merged s1) (cc_mostRecent c)) as Hcr.
    { unfold o, merged_recreate in *. eexists id, _, _. split; [apply lookup_insert_eq|]. split; [by left|]. done. }
    destruct (IH _ _ _ _ Hr) as (Hoo' & Hu & Hd & Hall). split; [by eapply only_ops_trans|]. split; [done|]. split; [by rewrite (Hd eq_refl)|].
    intros ptr' c' [->|Hin]%elem_of_cons Hm.
    + split; [by apply Hd|]. unfold merged_chain_of in Hm. rewrite Ho, Ec in Hm. injection Hm as <-. by eapply creates_ref_mono.
    + pose proof (only_ops_chain s s1 ptr' Hoo) as Hsame. rewrite Hm in Hsame.
      destruct (merged_chain_of s1 ptr') as [c1|] eqn:E1; [|done]. injection Hsame as _ Hmr. rewrite <- Hmr. by eapply Hall.
  - destruct (IH _ _ _ _ Hr) as (Hoo & Hu & Hd & Hall). split; [done|]. split; [done|]. split; [done|].
    intros ptr' c' [->|Hin]%elem_of_cons Hm; [|by eapply Hall]. unfold merged_chain_of in Hm. by rewrite Ho, Ec in Hm.
Qed.

(** Every remove of [ops] of something with a merged chain is dropped. *)
Definition removes_ok (s s' : bothChains) (ops : list op) : Prop :=
  ∀ ro ptr c, RmOp ro ∈ ops → ptr ∈ Unrefs (RmOp ro) → merged_chain_of s ptr = Some c →
    ro_dropThis ro = true ∧ creates_ref (bc_merged s') (cc_mostRecent c).

Lemma recreate_ops_spec uc ops : ∀ s ops' s', recreate_ops uc ops s = (Ok ops', s') →
  only_ops s s' ∧ bc_unmerged s' = bc_unmerged s ∧ removes_ok s s' ops'.
Proof.
  induction ops as [|o ops IH]; intros s ops' s' Hr; cbn [recreate_ops] in Hr.
  { injection Hr as <- <-. split; [apply only_ops_refl|]. split; [done|]. by intros ro ptr c ?%elem_of_nil. }
  assert (∀ s1, (rest ← recreate_ops uc ops; mret (o :: rest)) s1 = (Ok ops', s') → (∀ ro, o ≠ RmOp ro) →
    only_ops s1 s' ∧ bc_unmerged s' = bc_unmerged s1 ∧ removes_ok s1 s' ops') as Hother.
  { intros s1 Hr1 Hno. apply go_bind_Ok in Hr1 as (rest & s2 & H1 & [= <- <-]). destruct (IH _ _ _ H1) as (Hoo & Hu & Hrm).
    split; [done|]. split; [done|]. intros ro ptr c [Heq|Hin]%elem_of_cons; [by destruct (Hno ro)|by apply Hrm]. }
  destruct o as [o|ro|o|o|o|o|o|o]; try (apply Hother; [exact Hr|done]).
  apply go_bind_Ok in Hr as (s0 & s1 & [= <- <-] & Hr). set (ro' := find_unref uc (bc_unmerged s) ro) in *.
  apply go_bind_Ok in Hr as (d & s1 & Hd & Hr). apply go_bind_Ok in Hr as (rest & s2 & H1 & [= <- <-]).
  destruct (recreate_unrefs_spec _ _ _ _ _ _ _ Hd) as (Hoo1 & Hu1 & _ & Hall). destruct (IH _ _ _ H1) as (Hoo2 & Hu2 & Hrm).
  split; [by eapply only_ops_trans|]. split; [congruence|].
  intros r ptr c [[= ->]|Hin]%elem_of_cons Hptr Hm; simpl.
  - destruct (Hall ptr c Hptr Hm) as [-> Hcr]. split; [done|]. by eapply creates_ref_mono.
  - pose proof (only_ops_chain s s1 ptr Hoo1) as Hsame. rewrite Hm in Hsame.
    destruct (merged_chain_of s1 ptr) as [c1|] eqn:E1; [|done]. injection Hsame as _ Hmr. rewrite <- Hmr. by eapply Hrm.
Qed.

Lemma removes_ok_step s s' ops : only_ops s s' → removes_ok s s ops → removes_ok s' s' ops.
Proof.
  intros Hoo Hok ro ptr c Hro Hptr Hm. pose proof (only_ops_chain s s' ptr Hoo) as Hsame. rewrite Hm in Hsame.
  destruct (merged_chain_of s ptr) as [c1|] eqn:E1; [|done]. injection Hsame as _ Hmr.
  destruct (Hok ro ptr c1 Hro Hptr E1) as [Hd Hc]. split; [done|]. rewrite Hmr. by eapply creates_ref_mono.
Qed.

Definition chain_removes_ok (s : bothChains) (id : nat) : Prop :=
  ∀ c, ccs_chains (bc_unmerged s) !! id = Some c → removes_ok s s (cc_ops c).

Lemma recreate_chain_spec id s s' : recreate_chain id s = (Ok tt, s') →
  only_ops s s' ∧ chain_removes_ok s' id ∧
  ∀ j, j ≠ id → ccs_chains (bc_unmerged s') !! j = ccs_chains (bc_unmerged s) !! j.
Proof.
  intros Hr. apply go_bind_Ok in Hr as (s0 & s1 & [= <- <-] & Hr). apply go_bind_Ok in Hr as (uc & s1 & Hd & Hr).
  unfold deref_chain in Hd. destruct (ccs_chains (bc_unmerged s) !! id) as [c|] eqn:Ec; [|done]. injection Hd as <- <-.
  apply go_bind_Ok in Hr as (ops & s2 & Hops & Hset). destruct (recreate_ops_spec _ _ _ _ _ Hops) as (Hoo & Hu & Hrm).
  unfold on_unmerged, set_ops, modify in Hset. rewrite Hu, Ec in Hset. injection Hset as <-. set (s' := MkBoth _ _).
  assert (only_ops s2 s') as Hoo'.
  { split; [by rewrite Hu| | |done].
    - intros j. simpl. rewrite Hu. destruct (decide (j = id)) as [->|Hne]; [by rewrite lookup_insert_eq, Ec|by rewrite lookup_insert_ne].
    - intros j cj Hj. exists []. simpl. destruct cj. by split. }
  split; [by eapply only_ops_trans|]. split.
  - intros c' Hc'. simpl in Hc'. rewrite lookup_insert_eq in Hc'. injection Hc' as <-. simpl.
    intros ro ptr mc Hro Hptr Hm.
    pose proof (only_ops_chain s s' ptr ltac:(by eapply only_ops_trans)) as Hsame. rewrite Hm in Hsame.
    destruct (merged_chain_of s ptr) as [c1|] eqn:E1; [|done]. injection Hsame as _ Hmr.
    destruct (Hrm ro ptr c1 Hro Hptr E1) as [Hd Hc]. split; [done|]. rewrite Hmr. by eapply creates_ref_mono.
  - intros j Hne. simpl. by rewrite lookup_insert_ne.
Qed.

Lemma recreate_chains_spec ids : ∀ s s', go_for ids recreate_chain s = (Ok tt, s') →
  only_ops s s' ∧ (∀ j, j ∈ ids ∨ chain_removes_ok s j → chain_removes_ok s' j).
Proof.
  induction ids as [|id ids IH]; intros s s' Hr; cbn [go_for] in Hr.
  { injection Hr as <-. split; [apply only_ops_refl|]. by intros j [Hj%elem_of_nil|Hj]. }
  apply go_bind_Ok in Hr as ([] & s1 & H1 & H2). destruct (recreate_chain_spec _ _ _ H1) as (Hoo1 & Hok1 & Hsame).
  destruct (IH _ _ H2) as (Hoo2 & Hall). split; [by eapply only_ops_trans|]. intros j Hj. apply Hall.
  destruct (decide (j = id)) as [->|Hne]; [by right|]. destruct Hj as [Hj|Hj]; [left; set_solver|]. right.
  intros c Hc. rewrite Hsame in Hc by done. eapply removes_ok_step; [done|]. by apply Hj.
Qed.

Context `{!ResolverLaws}.

(** C12. What one branch removes and the other changes is kept: afterwards, every
    remove of the unmerged branch whose node has a merged chain is to be
    dropped, and a merged chain has a create of that node's latest version;
    the operations of the merged branch are all still there. *)
Theorem merged_changes_survive s s' : addMergedRecreates s = (Ok tt, s') →
  (∀ ptr id c ro unref mchain, ccs_byMostRecent (bc_unmerged s) !! ptr = Some id →
     ccs_chains (bc_unmerged s') !! id = Some c → RmOp ro ∈ cc_ops c → unref ∈ Unrefs (RmOp ro) →
     merged_chain_of s' unref = Some mchain →
     ro_dropThis ro = true ∧ creates_ref (bc_merged s') (cc_mostRecent mchain)) ∧
  (∀ id c, ccs_chains (bc_merged s) !! id = Some c → ∃ new,
     ccs_chains (bc_merged s') !! id = Some (MkCrChain (new ++ cc_ops c) (cc_original c) (cc_mostRecent c)) ∧
     Forall (λ o, is_create o = true) new).
Proof.
  intros Hr. apply go_bind_Ok in Hr as (s0 & s1 & [= <- <-] & Hr).
  destruct (recreate_chains_spec _ _ _ Hr) as (Hoo & Hall). split; [|apply (oo_merged _ _ Hoo)].
  intros ptr id c ro unref mchain Hptr Hc Hro Hun Hm. eapply (Hall id); [|done|done|done|done]. left.
  apply (list_elem_of_fmap_2 snd _ (ptr, id)). unfold rv_range. rewrite rv_perm_ok. by apply elem_of_map_to_list.
Qed.
End recreates.

(** ** Finding the merged parent *)

Section merged_parent.
Context `{ResolverConfig}.

(** Defect: when the merged branch deleted a node, and the chain of the
    directory that the node is in now is not one of the merged branch, the
    loop goes on with the same node for ever. *)
Lemma find_merged_parent_hangs s currOriginal currPath name parent ptr original :
  isDeleted currOriginal (bc_merged s) = true → hasValidParent currPath = true →
  tailName currPath = Ok name → parentPath currPath = Ok parent → tailPointer parent = Ok ptr →
  originalFromMostRecent ptr (bc_unmerged s) = Ok original → ccs_byOriginal (bc_merged s) !! original = None →
  ∀ fuel nodes recreateOps, find_merged_parent fuel currOriginal currPath nodes recreateOps s = (Panic "does not return", s).
Proof.
  intros Hd Hv Hn Hp Ht Ho Hnone. induction fuel as [|fuel IH]; intros nodes recreateOps; [done|].
  cbn [find_merged_parent]. unfold mbind, go_bind, get at 1. rewrite Hd, Hv. cbn [negb].
  unfold lift_res. rewrite Hn, Hp, Ht, Ho, Hnone. apply IH.
Qed.

(** What the loop needs to get on: the merged branch has chains for the
    directories of the path, and the unmerged branch for those of its
    renames. *)
Record parents_known (s : bothChains) : Prop := {
  pk_merged ptr original : originalFromMostRecent ptr (bc_unmerged s) = Ok original →
    is_Some (ccs_byOriginal (bc_merged s) !! original);
  pk_renamed ptr ri : ccs_renamedOriginals (bc_unmerged s) !! ptr = Some ri →
    is_Some (ccs_byOriginal (bc_unmerged s) !! ri_originalOldParent ri) ∧
    is_Some (ccs_byOriginal (bc_unmerged s) !! ri_originalNewParent ri)
}.

(** [set_ops] leaves everything else as it is. *)
Lemma set_ops_same h i c : ccs_byOriginal (snd (set_ops h i c)) = ccs_byOriginal c ∧
  ccs_renamedOriginals (snd (set_ops h i c)) = ccs_renamedOriginals c ∧
  ccs_deletedOriginals (snd (set_ops h i c)) = ccs_deletedOriginals c ∧
  ∀ ptr, originalFromMostRecent ptr (snd (set_ops h i c)) = originalFromMostRecent ptr c.
Proof.
  unfold set_ops, modify. simpl. destruct (ccs_chains c !! i) as [ci|] eqn:Ei; [|done]. simpl.
  split; [done|]. split; [done|]. split; [done|]. intros ptr. unfold originalFromMostRecent, chain_at. simpl.
  destruct (ccs_byMostRecent c !! ptr) as [j|]; [|done]. simpl.
  destruct (decide (i = j)) as [<-|Hne]; [by rewrite lookup_insert_eq, Ei|by rewrite lookup_insert_ne].
Qed.

Lemma on_merged_known f id s : parents_known s → parents_known (snd (on_merged (set_ops f id) s)).
Proof.
  intros [K1 K2]. unfold on_merged. pose proof (set_ops_same f id (bc_merged s)) as (H1 & _).
  destruct (set_ops f id (bc_merged s)) as [r m]. simpl in *. split; simpl; rewrite ?H1; [exact K1|exact K2].
Qed.

Lemma on_unmerged_known f id s : parents_known s → parents_known (snd (on_unmerged (set_ops f id) s)).
Proof.
  intros [K1 K2]. unfold on_unmerged. pose proof (set_ops_same f id (bc_unmerged s)) as (H1 & H2 & _ & H4).
  destruct (set_ops f id (bc_unmerged s)) as [r u]. simpl in *. split; simpl.
  - intros ptr original. rewrite H4. apply K1.
  - rewrite H1, H2. exact K2.
Qed.

Lemma go_bind_ext {S A B} (m : go S A) (f g : A → go S B) s :
  (∀ a s', m s = (Ok a, s') → f a s' = g a s') → (m ≫= f) s = (m ≫= g) s.
Proof. intros Hfg. unfold mbind, go_bind. destruct (m s) as [[a|e|p] s']; [by apply Hfg|done..]. Qed.

(** Otherwise it needs one round for every node of the path. *)
Lemma find_merged_parent_enough fuel : ∀ fuel' currOriginal currPath nodes recreateOps s, parents_known s →
  length (p_path currPath) < fuel → length (p_path currPath) < fuel' →
  find_merged_parent fuel currOriginal currPath nodes recreateOps s = find_merged_parent fuel' currOriginal currPath nodes recreateOps s.
Proof.
  induction fuel as [|fuel IH]; intros [|fuel'] currOriginal currPath nodes recreateOps s Hk H1 H2; [lia..|].
  cbn [find_merged_parent]. apply go_bind_ext. intros s0 s1 [= <- <-].
  destruct (negb (isDeleted _ _)); [done|]. destruct (hasValidParent currPath) eqn:Hv; [|done]. cbn [negb].
  apply go_bind_ext. intros name s1 [= _ <-]. apply go_bind_ext. intros parent s1 [= Hparent <-].
  assert (length (p_path parent) < length (p_path currPath)) as Hlen.
  { unfold parentPath in Hparent. case_decide; [done|]. injection Hparent as <-. simpl. rewrite length_take. lia. }
  apply go_bind_ext. intros pptr s1 [= _ <-]. apply go_bind_ext. intros porig s1 [= Hporig <-].
  destruct (pk_merged s Hk pptr porig Hporig) as [mid ->].
  apply go_bind_ext. intros mmr s1 [= _ <-]. apply go_bind_ext. intros [] s1 Hs1.
  assert (parents_known s1) as Hk1.
  { pose proof (on_merged_known (drop_rm_of mmr) mid s Hk) as Hk1. by rewrite Hs1 in Hk1. }
  apply go_bind_ext. intros de s2 [= _ <-]. apply go_bind_ext. intros co s2 Hco.
  assert (s2 = s1) as -> by (case_decide; [by injection Hco as _ <-|by injection Hco as _ <-]).
  destruct (ccs_renamedOriginals (bc_unmerged s) !! currOriginal) as [ri|] eqn:Eri; [|apply IH; [done|lia|lia]].
  destruct (pk_renamed s Hk currOriginal ri Eri) as [[old ->] [new ->]].
  apply go_bind_ext. intros [] s3 Hs3. apply go_bind_ext. intros [] s4 Hs4. apply IH; [|lia|lia].
  pose proof (on_unmerged_known (mark_dropped (ri_oldName ri)) old s1 Hk1) as Hk3. rewrite Hs3 in Hk3.
  pose proof (on_unmerged_known (replace_create (ri_newName ri) co) new s3 Hk3) as Hk4. by rewrite Hs4 in Hk4.
Qed.
End merged_parent.
