(* ===== verification/ResolverExamples.v ===== *)
(** * ResolverExamples: conflicts on which the resolver runs

    A resolver whose folder is a constant, and the conflicts of two branches
    that show what its theorems are about; with one on which it does not
    return. *)

From Stdlib Require Import ZArith Lia Sorted.
From stdpp Require Import sorting.
From S2P Require Import Prelude Types Errors GoStd Ids CryptoCommon Splitter DataTypes Ops ConflictInfo Handles KeyBundles Metadata FolderBlocks DirOps DirExamples CRChains CRActions LevelDb MDServer MDServerSpec MDServerOps MDClient Serial ResolverPaths ResolverActions ResolverOps ResolverTree ResolverMerge ResolverSpec.

(** ** The resolver *)

Definition longer (p q : path) : Prop := crSortedPaths_Less q p = false.
#[local] Instance longer_dec p q : Decision (longer p q) := decide (_ = _).
#[local] Instance longer_total : Total longer.
Proof.
  intros p q. unfold longer, crSortedPaths_Less. rewrite !bool_decide_eq_false. lia.
Qed.
#[local] Instance longer_trans : Transitive longer.
Proof. intros p q r. unfold longer, crSortedPaths_Less. rewrite !bool_decide_eq_false. lia. Qed.

Definition rx_fb : FolderBranch := MkFolderBranch NullTlfID MasterBranch.

#[local] Instance rx_config : ResolverConfig := {|
  rv_perm := λ _ l, l;
  rv_sort := merge_sort longer;
  rv_folderBranch := rx_fb;
  rv_searchUnmerged := λ _ _, Ok ∅;
  rv_searchMerged := λ _ _ _, Ok ∅;
  rv_searchResolved := λ _ _ _, Ok ∅;
  rv_mostRecentMD := λ _, MkBranchMD "u" "k" 0%Z 1%Z zeroPtr "u";
  rv_GetFileBlock := λ _ _, Ok (MkFileBlock (MkCommonBlock false 0) [] []);
  rv_GetDirBlock := λ _ _, Ok (MkDirBlock (MkCommonBlock false 0) ∅ []);
  rv_GetBlockSize := λ _, Ok 100%Z;
  rv_GetDirtyEntry := λ _, Ok (MkDirEntry zeroBlockInfo (MkEntryInfo File 0%Z "" 0%Z 0%Z));
  rv_newWriterInfo := λ _ _, Ok (MkWriterInfo "u" "k" "");
  rv_GetCurrentUserInfo := Ok ("u"%string, "u"%string);
  rv_DataVersion := 1%Z;
  rv_ConflictRename := λ _ name, (name ++ " (conflict)")%string
|}.

#[local] Instance rx_laws : ResolverLaws.
Proof.
  split.
  - done.
  - intros l. apply merge_sort_Permutation.
  - intros l. apply (StronglySorted_merge_sort longer).
Qed.

(** ** The conflicts *)

Definition rx_ptr (n : byte) : BlockPointer :=
  MkBlockPointer (MkBlockID (MkHash (string_of_bytes ([x01] ++ replicate 32 x00 ++ [n])))) 1%Z 1%Z "u" "" zeroBlockRefNonce.
Definition rx_upd (a b : byte) : blockUpdate := MkBlockUpdate (rx_ptr a) (rx_ptr b).
Definition rx_rm (name : string) (u : blockUpdate) : op := RmOp (MkRmOp zeroOpCommon name u false).

Definition chains_of (ops : list op) : crChains := snd (go_for ops makeChainForOp newCRChainsEmpty).
Definition with_updates (us : list blockUpdate) (o : op) : op :=
  foldl (λ o u, AddUpdate (bu_Unref u) (bu_Ref u) o) o us.

(** The unmerged branch removes a file that the merged branch writes. *)
Definition rx_removed : bothChains := MkBoth
  (chains_of [AddUnrefBlock (rx_ptr x04) (rx_rm "x" (rx_upd x01 x02))])
  (chains_of [with_updates [rx_upd x01 x03] (SyncOp (MkSyncOp zeroOpCommon (rx_upd x04 x08) []))]).

(** Both branches create a directory with a file. *)
Definition rx_mkdir (d : byte) (u : blockUpdate) : op :=
  AddRefBlock (rx_ptr d) (CreateOp (MkCreateOp zeroOpCommon "d" u Dir false false "")).
Definition rx_mkfile (f : byte) (d : blockUpdate) (root : blockUpdate) : op :=
  with_updates [root] (AddRefBlock (rx_ptr f) (CreateOp (MkCreateOp zeroOpCommon "f" d File false false ""))).
Definition rx_created : bothChains := MkBoth
  (chains_of [rx_mkdir x20 (rx_upd x01 x02); rx_mkfile x22 (rx_upd x20 x21) (rx_upd x02 x03)])
  (chains_of [rx_mkdir x30 (rx_upd x01 x05); rx_mkfile x32 (rx_upd x30 x31) (rx_upd x05 x06)]).
Definition rx_root : path := MkPath rx_fb [MkPathNode (rx_ptr x03) "u"].

(** The unmerged branch moves a file into a directory that the merged branch
    does not change, and writes it; the merged branch removes the file. *)
Definition rx_moved : bothChains := MkBoth
  (chains_of [with_updates [rx_upd x01 x07]
                (RenameOp (MkRenameOp zeroOpCommon "x" (rx_upd x02 x05) "x" (rx_upd x03 x06) (rx_ptr x04) File));
              with_updates [rx_upd x06 x09; rx_upd x07 x10] (SyncOp (MkSyncOp zeroOpCommon (rx_upd x04 x08) []))])
  (chains_of [with_updates [rx_upd x01 x12] (AddUnrefBlock (rx_ptr x04) (rx_rm "x" (rx_upd x02 x11)))]).
Definition rx_moved_path : path :=
  MkPath rx_fb [MkPathNode (rx_ptr x10) "u"; MkPathNode (rx_ptr x09) "b"; MkPathNode (rx_ptr x08) "x"].

(** Both branches are made of operations without an error, and the search for
    the merged path of the file does not end, however long it goes on. *)
Example moved_and_removed_hangs fuel :
  fst (resolveMergedPathTail fuel rx_moved_path rx_moved) = Panic "does not return".
Proof.
  assert (tailPointer rx_moved_path = Ok (rx_ptr x08)) as Ht by done.
  assert (originalFromMostRecent (rx_ptr x08) (bc_unmerged rx_moved) = Ok (rx_ptr x04)) as Ho
    by (vm_compute; reflexivity).
  unfold resolveMergedPathTail, mbind, go_bind, get, lift_res. rewrite Ht, Ho.
  rewrite (find_merged_parent_hangs rx_moved (rx_ptr x04) rx_moved_path "x"
    (MkPath rx_fb [MkPathNode (rx_ptr x10) "u"; MkPathNode (rx_ptr x09) "b"]) (rx_ptr x09) (rx_ptr x03));
    [done|vm_compute; reflexivity..].
Qed.

(** ** Witnesses *)

(** What a lookup computes to, of the value that it gives. *)
Lemma lookup_eval {A B} (f : A → B) (o : option A) a b : o = Some a → f <$> o = Some b → f a = b.
Proof. intros -> [= ->]. done. Qed.

Lemma merged_changes_survive_witness :
  ∃ s', addMergedRecreates rx_removed = (Ok tt, s') ∧ creates_ref (bc_merged s') (rx_ptr x08).
Proof.
  set (s' := snd (addMergedRecreates rx_removed)). exists s'.
  assert (addMergedRecreates rx_removed = (Ok tt, s')) as E.
  { unfold s'. rewrite (surjective_pairing (addMergedRecreates rx_removed)) at 1. apply (f_equal2 pair); [vm_compute; reflexivity|done]. }
  split; [done|]. destruct (merged_changes_survive rx_removed s' E) as [Hdrop _]. clear E.
  destruct (ccs_chains (bc_unmerged s') !! 0) as [c|] eqn:Ec; [|exfalso; vm_compute in Ec; done].
  destruct (merged_chain_of s' (rx_ptr x04)) as [mchain|] eqn:Em; [|exfalso; vm_compute in Em; done].
  set (ro := MkRmOp (op_common (AddUnrefBlock (rx_ptr x04) (rx_rm "x" (rx_upd x01 x02)))) "x" (rx_upd x01 x02) true).
  assert (cc_ops c = [RmOp ro]) as Eo by (apply (lookup_eval cc_ops _ _ _ Ec); vm_compute; reflexivity).
  assert (cc_mostRecent mchain = rx_ptr x08) as <- by (apply (lookup_eval cc_mostRecent _ _ _ Em); vm_compute; reflexivity).
  refine (proj2 (Hdrop (rx_ptr x02) 0 c ro (rx_ptr x04) mchain _ Ec _ _ Em)).
  - vm_compute. reflexivity.
  - rewrite Eo. by left.
  - by left.
Defined.

(** What the chains create, as a list. *)
Definition creates_of (s : crChains) : list BlockPointer :=
  map_to_list (ccs_chains s) ≫= λ e, first_ref <$> omap new_create (cc_ops (snd e)).
Lemma created_in_list s ptr : created_in s ptr → ptr ∈ creates_of s.
Proof.
  intros (id & c & cop & Hc & Hin & <-). apply list_elem_of_bind. exists (id, c). split; [|by apply elem_of_map_to_list].
  by apply list_elem_of_fmap_2.
Qed.

Lemma chains_wf_decide s :
  bool_decide (map_Forall (λ o id, cc_original <$> ccs_chains s !! id = Some o) (ccs_byOriginal s)) = true →
  bool_decide (map_Forall (λ _ id, is_Some (ccs_chains s !! id)) (ccs_byMostRecent s)) = true → chains_wf s.
Proof.
  intros H1%bool_decide_eq_true_1 H2%bool_decide_eq_true_1. split; [|exact H2].
  intros o id Hid. specialize (H1 o id Hid). simpl in H1. destruct (ccs_chains s !! id) as [c|]; [|done].
  exists c. split; [done|]. by injection H1.
Qed.

Lemma created_dirs_merged_witness :
  ∃ paths s', findCreatedDirsToMerge 3 [rx_root] rx_created = (Ok paths, s') ∧ length paths = 1 ∧
    ops_merged (bc_merged rx_created) [rx_mkdir x20 (rx_upd x01 x02)] [].
Proof.
  pose proof (created_dirs_merged 3 [rx_root] (list_to_set (creates_of (bc_merged rx_created))) rx_created) as Hm.
  destruct (findCreatedDirsToMerge 3 [rx_root] rx_created) as [[paths|e|m] s'] eqn:E.
  2, 3: exfalso; apply (f_equal fst) in E; vm_compute in E; discriminate E.
  exists paths, s'. split; [done|]. split.
  { apply (f_equal fst) in E. vm_compute in E. injection E as <-. reflexivity. }
  destruct Hm as (_ & _ & Hops).
  - apply chains_wf_decide; vm_compute; reflexivity.
  - intros ptr Hptr. by apply elem_of_list_to_set, created_in_list.
  - intros ptr Hptr%created_in_list. rewrite elem_of_list_to_set. revert ptr Hptr. apply list.Forall_forall.
    apply (bool_decide_unpack _). vm_compute. exact I.
  - by intros p ->%list_elem_of_singleton.
  - intros p id c tail ->%list_elem_of_singleton [= <-] Hid Hc Hcr%created_in_list.
    assert (id = 0) as -> by (vm_compute in Hid; by injection Hid).
    rewrite (lookup_eval cc_original _ _ (rx_ptr x01) Hc ltac:(vm_compute; reflexivity)) in Hcr.
    revert Hcr. apply (bool_decide_unpack _). vm_compute. exact I.
  - apply (bool_decide_unpack _). vm_compute. exact I.
  - destruct (ccs_chains (bc_unmerged rx_created) !! 0) as [c|] eqn:Ec; [|exfalso; vm_compute in Ec; done].
    destruct (Hops 0 c Ec) as (c' & Hc' & Ho).
    rewrite (lookup_eval cc_ops _ _ [rx_mkdir x20 (rx_upd x01 x02)] Ec ltac:(vm_compute; reflexivity)) in Ho.
    assert (s' = snd (findCreatedDirsToMerge 3 [rx_root] rx_created)) as -> by (by rewrite E).
    rewrite (lookup_eval cc_ops _ _ [] Hc' ltac:(vm_compute; reflexivity)) in Ho. exact Ho.
Defined.

(** The resolution changes the directories "a" and "b" and adds a file "f" to
    "b". *)
Definition rx_node (ptr : byte) (name : string) : pathNode := MkPathNode (rx_ptr ptr) name.
Definition rx_si : syncInput := MkSyncInput
  {[ rx_ptr x02 := MkDirBlock (MkCommonBlock false 0) ∅ []; rx_ptr x03 := MkDirBlock (MkCommonBlock false 0) ∅ [] ]}
  {[ rx_ptr x03 := {[ "f" := MkFileBlock (MkCommonBlock false 0) [] [] ]} ]}.
Definition rx_where (l : list string) : BlockPointer :=
  match l with ["u"] => rx_ptr x01 | ["u"; "a"] => rx_ptr x02 | ["u"; "b"] => rx_ptr x03 | _ => zeroPtr end.
Definition rx_paths : gmap BlockPointer path :=
  {[ rx_ptr x02 := MkPath rx_fb [rx_node x01 "u"; rx_node x02 "a"];
     rx_ptr x03 := MkPath rx_fb [rx_node x01 "u"; rx_node x03 "b"] ]}.

Lemma rx_path_ok ptr name : ptr = x02 ∧ name = "a"%string ∨ ptr = x03 ∧ name = "b"%string →
  path_ok rx_si rx_where (MkPath rx_fb [rx_node x01 "u"; rx_node ptr name]).
Proof.
  intros Hin. split_and!.
  - intros [|n1 [|n2 [|n3 above]]] n rest [=]; subst; [done|]. by destruct Hin as [[-> ->]|[-> ->]].
  - destruct Hin as [[-> ->]|[-> ->]]; apply (bool_decide_unpack _); vm_compute; exact I.
  - destruct Hin as [[-> ->]|[-> ->]]; apply (bool_decide_unpack _); vm_compute; exact I.
  - intros [|n1 [|n2 [|n3 above]]] n m rest blocks [=]; subst. intros Hb. vm_compute in Hb. discriminate Hb.
Qed.

Lemma resolution_synced_once_witness :
  ∃ t calls, make_tree rx_si rx_paths = Some t ∧ syncTree rx_si None t zeroPtr = Ok calls ∧
    children_first (calls ≫= covered) ∧ ["u"; "b"]%string ∈ calls ≫= covered.
Proof.
  destruct (make_tree rx_si rx_paths) as [t|] eqn:Et; [|exfalso; vm_compute in Et; done].
  destruct (syncTree rx_si None t zeroPtr) as [calls|e|m] eqn:Es.
  2, 3: exfalso; apply (f_equal (λ o, match o with Some t => is_Ok (syncTree rx_si None t zeroPtr) | None => false end)) in Et;
    rewrite Es in Et; vm_compute in Et; discriminate Et.
  exists t, calls. split; [done|]. split; [done|].
  destruct (resolution_synced_once rx_si rx_where rx_paths "u" t calls) as [Hs Hall]; [|exact Et|exact Es|].
  - intros ptr p Hp. unfold rx_paths in Hp. apply lookup_insert_Some in Hp as [[_ <-]|[_ Hp]]; [|apply lookup_singleton_Some in Hp as [_ <-]].
    + split; [apply rx_path_ok; auto|by eexists].
    + split; [apply rx_path_ok; auto|by eexists].
  - split; [done|]. apply (Hall (rx_ptr x03) (MkPath rx_fb [rx_node x01 "u"; rx_node x03 "b"]) 2).
    + vm_compute. reflexivity.
    + simpl. lia.
Defined.

(** The unmerged branch adds a file, and the merged branch removes another. *)
#[local] Instance rx_WriterMetadata : Codec WriterMetadata := ser_codec.
#[local] Instance rx_SignatureInfo : Codec SignatureInfo := ser_codec.
#[local] Instance rx_KeyInfo : Codec (gmap KID TLFCryptKeyInfo) := ser_codec.
#[local] Instance rx_PrivateMetadata : Codec PrivateMetadata := ser_codec.
#[local] Instance rx_BareRootMetadata : Codec BareRootMetadata := ser_codec.
#[local] Instance rx_TlfHandle : Codec TlfHandle := ser_codec.

Definition rx_tlf : TlfID := MkTlfID (replicate 15 x01 ++ [PubTlfIDSuffix]).
Definition rx_head : RootMetadata :=
  let noChanges := MkBlockChanges zeroBlockInfo [] 0%Z in
  MkRootMetadata
    (MkBareRootMetadata (MkWriterMetadata (Some [x2a]) "w" ["w"] [] rx_tlf NullBranchID 0%Z 500%Z 10%Z 0%Z [])
       (MkSignatureInfo 1%Z [] "aa") "w" 0%Z 7%Z zeroMdID [] [] None)
    (MkPrivateMetadata (MkDirEntry zeroBlockInfo (MkEntryInfo Dir 0%Z "" 0%Z 0%Z)) [] noChanges noChanges)
    (Some (MkTlfHandle (MkBareTlfHandle ["w"] [PublicUID] [] [] None) ∅ ∅ "w")) zeroMdID.
Definition rx_added : bothChains := MkBoth
  (chains_of [AddRefBlock (rx_ptr x40) (CreateOp (MkCreateOp zeroOpCommon "g" (rx_upd x01 x02) File false false ""))])
  (chains_of [AddUnrefBlock (rx_ptr x41) (rx_rm "z" (rx_upd x01 x03))]).
Definition rx_added_path : path := MkPath rx_fb [MkPathNode (rx_ptr x02) "u"].

(** The folder in which the changes of the resolution get a block of their
    own: those of [DirExamples], with no room for them in the metadata. *)
#[local] Instance rx_folder_config : Config := dx_config_of 0%Z.
#[local] Instance rx_branch : BranchConfig (gmap BlockID (list byte)) := dx_branch.
#[local] Instance rx_FileBlock : Codec FileBlock := ser_codec.
#[local] Instance rx_DirBlock : Codec DirBlock := ser_codec.
#[local] Instance rx_BlockChanges : Codec BlockChanges := ser_codec.
Definition rx_folder (md : RootMetadata) : folderBranchOps (gmap BlockID (list byte)) :=
  MkBranch (MkFbo ∅ ∅ ∅ ∅ ∅ [] [] false [] 0) (Some rx_head) false NullBranchID ∅ md ∅ [].

(** The disk usage of the resolution that [r] is the metadata of, and how
    much of it is the block of the changes. *)
Definition resolved_usage (r : res RootMetadata * bothChains) : option (Z * Z) :=
  match r with
  | (Ok md, both) =>
      match calculateResolutionUsage 500%Z ∅ both md with
      | Ok md' =>
          match resolution_embed "w" (rx_folder md') with
          | (Ok tt, s') => Some (bm_DiskUsage (rmd_bare (br_md s')), bi_EncodedSize (bc_Info (pmd_Changes (rmd_data (br_md s')))))
          | _ => None
          end
      | _ => None
      end
  | _ => None
  end.
Lemma resolved_usage_Some r usage : resolved_usage r = Some usage → ∃ md both md' s', r = (Ok md, both) ∧
  calculateResolutionUsage 500%Z ∅ both (set_Changes id md) = Ok md' ∧ resolution_embed "w" (rx_folder md') = (Ok tt, s') ∧
  (bm_DiskUsage (rmd_bare (br_md s')), bi_EncodedSize (bc_Info (pmd_Changes (rmd_data (br_md s'))))) = usage.
Proof.
  destruct r as [[md| |] both]; [|done..]. simpl. destruct (calculateResolutionUsage 500%Z ∅ both md) as [md'| |] eqn:Eu; [|done..].
  destruct (resolution_embed "w" (rx_folder md')) as [[[]| |] s'] eqn:Es; [|done..].
  intros [= <-]. exists md, both, md', s'. split; [done|]. split; [|done]. destruct md as [bare [] h i]. exact Eu.
Qed.

Definition rx_usage : Z * Z :=
  Eval vm_compute in default (0%Z, 0%Z) (resolved_usage (createResolvedMD rx_head [rx_added_path] rx_added)).

(** The new file has 100 bytes; the rest is the block of the changes. *)
Lemma resolution_accepted_witness :
  ∃ final, check_successor (rmd_bare rx_head) (rmd_bare final) = Ok tt ∧
    bm_DiskUsage (rmd_bare final) = (600 + rx_usage.2)%Z ∧ (0 < rx_usage.2)%Z.
Proof.
  destruct (resolved_usage_Some (createResolvedMD rx_head [rx_added_path] rx_added) rx_usage)
    as (md & both' & md' & s' & Ec & Eu & Es & Hd); [vm_compute; reflexivity|].
  exists (br_md s'). split; [|split; [|clear; by vm_compute]].
  - refine (proj1 (resolution_accepted rx_head [rx_added_path] rx_added both' md id ∅ md' "w" (rx_folder md') s' _ _ _ _ Ec Eu eq_refl Es)).
    + by left.
    + vm_compute. reflexivity.
    + clear. by vm_compute.
    + clear. by vm_compute.
  - apply (f_equal fst) in Hd. simpl in Hd. rewrite Hd. clear. vm_compute. reflexivity.
Defined.
